(* ===== verification/_CoqProject ===== *)
-Q . S2P
Prelude.v
Conc.v
GoStrings.v
GoFloat.v
GoState.v
GoText.v
GoURL.v
ShimState.v
Cleanup.v
Process.v
ExitTracker.v
VMManager.v
ConnManager.v
ShimService.v
ShimProps.v
ShimConc.v
Hotplug.v
CPUHotplug.v
MemHotplug.v
Resources.v
Vsock.v
QemuInstance.v
VMDevices.v
Cmdline.v
Freeze.v
ShimIO.v
ShimIOProps.v
MountUtil.v
MountTemplates.v
MountProps.v
Mounts.v
MountPipeline.v
Vmdk.v
Templates.v
Snapshot.v
Network.v
NetworkProps.v
GuestTask.v
GuestTaskProps.v
EventStream.v
GoTime.v
Config.v
Supervisor.v
Restore.v
Extras.v
Bundle.v
Commit.v
Streams.v
ProcessIO.v
Manager.v
Qmp.v
GuestConn.v
Devices.v
DevicesProps.v
Volume.v
GoNet.v
GuestNet.v
PlatformNet.v
Kmsg.v
GuestClock.v
GuestBoot.v
GuestSpec.v
Console.v
Vminitd.v
VMClient.v
Stdin.v
InstanceSetup.v
StartConfig.v
GuestQueries.v
ShimQueries.v
GuestService.v
