(* ===== verification/Prelude.v ===== *)
(** * spinbox: a verification of its core

    spinbox is a containerd runtime that runs each container in its own QEMU/KVM
    virtual machine.  containerd talks to one shim process per container
    (internal/shim), the shim drives one QEMU process (internal/host/vm/qemu), and
    an init daemon inside the guest (internal/guest/vminit) runs the container
    with the OCI runtime.  The shim reaches the guest over vsock; while the
    container runs, two controllers resize the machine.  This development models
    the parts that carry the program's own logic and proves what makes them
    correct.

    ** How the code is modelled

    A Go [error] is its errdefs class with its text; a pair of a value and an
    error is [res]; a run-time panic is [Panic] of [out].  Integers are [Z] with
    the wrap-around of their width written out ([int64_wrap], [uint32_wrap]).
    float64 is the Standard Library's executable IEEE 754 binary64 (GoFloat).
    Strings are byte strings with the functions of the strings and strconv
    packages the code calls (GoStrings).

    A goroutine is a [prog] (Conc): a tree of atomic actions on shared state, an
    action being an atomic operation, a critical section or a system call.
    [run] executes one alone and gives the sequential behaviour; [pstep] lets any
    goroutine of a pool take its next action and gives every interleaving.
    [guar] reduces a property of all interleavings to one of each action, [obeys]
    to one of each goroutine following a protocol with modes.

    What other systems answer (the guest over RPC, QEMU, the network and mount
    managers, the clock, the OCI runtime, the kernel) is an argument: records of
    answers (CreateEnv, CleanupEnv, env of Process), or a type class of operations
    with a class of laws stating their documented behaviour (QMP with QEMULaws,
    MemQMP with MemLaws,
    MachineCmdline).  Every theorem under such laws has a witness at a
    concrete instance of them.

    ** Components, in the order of the files

    - Prelude: results, machine integers, tactics, the hint database [spinbox].
    - Conc: goroutines, interleavings and the two proof methods for them.
    - GoStrings, GoFloat, GoText, GoURL: the parts of Go's standard library in
      use (strings, strconv, float64, unicode, regular expressions of mount
      templates, filepath, net/url); GoState: the state and error monad.
    - ShimState: shim/lifecycle/state.go, the atomic state word of a shim.  At
      most one delete wins; the word moves along the lifecycle only.
    - Cleanup: shim/lifecycle/cleanup.go and errors.go, the ordered, error
      collecting cleanup.  Execute equals a reference that runs every registered
      phase once, in order.
    - Process: guest vminit/process, the state machines of the init process and
      of execs with their runtime calls.  Operations keep the invariants and the
      allowed transitions; an exit is recorded once; a failed create leaves no
      container behind.
    - ExitTracker: guest vminit/task/exit_tracker.go, events.go and lifecycle.go:
      early exits, the count of running execs and the delayed init exit, each lock
      an action of its own.  A subscription collects every exit until it is
      completed, and under every interleaving the init exit is released only when
      the execs counted have published theirs; the miscounts of two error paths,
      and the two races between the locks of HandleStart, are theorems too.
    - VMManager: shim/lifecycle/vm.go with the constructor's error paths
      (qemu/instance.go).  No instance is leaked or used twice; the vsock dial
      loop terminates.
    - ConnManager: shim/task/connmanager.go, the cached guest connection.  Every
      connection is cached, closed or handed back, once; callers share one.
    - ShimService: shim/task/service.go and create.go: the service record, every
      RPC handler, request admission, the exit sequence, and Create in its five
      phases.  The effects on other systems are a log in the record.
    - ShimProps: the handlers run alone.  Create succeeds completely or rolls
      back; Delete and shutdown release in the documented order; a whole life
      releases everything exactly once; Pause and Resume.  The behaviours that
      stick a shim (a failed Create, an unreachable guest at Delete) are stated.
    - ShimConc: the handlers under every interleaving.  At most one Create
      succeeds; the state follows the lifecycle; once the exit sequence has seen
      no request in flight, no refusable request has any effect.
    - Hotplug: shim/hotplug/monitor.go.  The Go interface ResourceScaler is a
      class; cooldown and stability are proved for every scaler, and [ScalerLaws]
      carries an invariant of a scaler through the loop.
    - CPUHotplug: shim/cpuhotplug/controller.go over qemu/qmp_cpu.go, an instance
      of that class.  vCPUs stay between boot and maximum and the boot CPUs stay
      plugged, with unplug requests completing at any time; a scale-up plugs the
      lowest free index.  A race that takes a boot CPU offline is exhibited.
    - MemHotplug: shim/memhotplug/controller.go over qemu/qmp_memory.go, the
      second instance.  Requests and recorded size stay in the device's range;
      growth and shrinkage are one increment, and shrinking keeps the margin.
    - Resources: shim/resources/config.go and the size defaults and checks of the
      instance.  What a specification yields is always a machine that starts,
      aligned and within the host; cpusets round-trip.
    - Vsock: internal/vsock/allocator.go on shared lock files.  Leases are
      exclusive whatever shims interleave; the allocation is the lowest available
      CID, and a released one rests for the cooldown.
    - QemuInstance: Start of qemu/start.go and Shutdown of shutdown.go over the
      process, handles and files they own.  Start holds everything or nothing but
      for a failed template load, Shutdown releases everything but for a failed
      kill; both exceptions are stated.
    - Cmdline: qemu/kernel_cmdline.go on the host and what the guest reads back
      (vminit/system/identity.go, network.go, vminit/extras).  The identity of a
      VM round-trips; the machine module's own parameters are a class
      ([MachineCmdline]).
    - Freeze: guest vminit/system/freeze.go and its RPCs.  Freezing is all or
      nothing and a thaw undoes it; mount points round-trip through the kernel's
      escapes.
    - VMDevices: qemu/devices.go, pointer.go and spec.go, what may be added to an
      instance before it starts.
    - ShimIO, ShimIOProps: shim/task/io.go, from the stdio addresses to the copies
      between streams and FIFOs or files.  The done channel closes when all output
      has been delivered, and it does close once the guest has finished; a failed
      set-up closes its streams; the inputs that crash, reorder or leak are stated.
    - MountUtil with MountTemplates and MountProps: host/mountutil/mount.go and
      serial.go over a kernel that answers each call.  Template formatting equals
      an evaluation of tokens; All is all or nothing; serial numbers resolve.
    - Mounts, MountPipeline: shim/platform/mounts/linux.go, and the composition
      host Setup, disks, guest All: any EROFS layers and a writable layer become
      the overlay that is specified.
    - Vmdk: host/erofs/vmdk.go.  The descriptor's extents cover the devices.
    - Templates, Snapshot: qemu/template.go, template_cache.go, template_build.go
      and snapshot.go.  Builds of distinct machines publish only complete templates
      whatever interleaves, the fingerprint cache is a memo, and saving and loading
      issue the QMP commands in order and end.
    - Network, NetworkProps: host/network with its cni package.  One worker per
      container, answers that come from the plugins, no effect on other
      containers, and a successful release leaves nothing; the races and leaks of
      set-up are exhibited.
    - GuestTask, GuestTaskProps: guest vminit/task/{service,lifecycle,exec}.go over
      runc/container.go, composed of Process, ExitTracker and MountUtil.  The
      registries refine an abstract one under every interleaving.
    - EventStream: the goroutines of shim/task/service.go between the guest's event
      stream and containerd.  Events are published once and in order, reconnecting
      ends; that an exit event does not wait for the output is stated.
    - GoTime, Config: time.ParseDuration and NewTicker; internal/config (loading,
      defaults, validation) and the hotplug wiring of shim/resources/hotplug.go.
      A configuration that loads is well formed and its settings reach the
      controllers; a zero interval is accepted and crashes.
    - Supervisor: guest vminit/supervisor.  The restarts in a window are limited and
      a crash loop is given up; a start that fails is retried for ever.
    - Restore: shim/task/restore.go, Configure in the guest, vminit/system/identity.go
      and the PCI rescan of vminit/devices.  Restoring is decided completely or not
      at all, and a guest that is told agrees with one that booted.
    - Extras: shim/extras on the host and vminit/extras in the guest: the files of
      the annotations, their archive in a cache by digest, and its extraction.  The
      files asked for arrive; three ways the cache can go wrong are stated.
    - Bundle: shim/bundle with its transformers and guest services/bundle.go.  The
      adapted specification and the files of its bind mounts arrive in the guest;
      creating a bundle there is all or nothing.
    - Commit: cmd/spinbox-commit over containerd.  The container is left as it was
      found and its snapshot is read at rest; the image is complete and kept.
    - Streams: StartStream of qemu/streaming.go with the guest's streaming service
      (vminit/streaming/plugin.go), every interleaving of callers, the accept loop
      and the clock.  Identifiers name one connection on both sides.
    - ProcessIO: guest vminit/process/io.go and io_util.go over those streams: the
      I/O of every scheme, the copies and logging binaries.  It composes with ShimIO:
      what the host forwards is what the guest serves.
    - Manager: shim/manager, starting and stopping shims with their sockets,
      namespaces and pid files, all or nothing.
    - Qmp: qemu/qmp_client.go and qmp_events.go, the client under every interleaving
      of callers, goroutines, closes, events and time-outs.
    - GuestConn: the rest of qemu/streaming.go, client.go and utils.go: connecting to
      the guest's RPC server, dialling, and opening TAP devices.
    - Devices, DevicesProps: the boot path of vminit/devices/blockdev.go and the CPU
      requests of guest services/system.go over a kernel with a directory tree, inotify
      instances whose events are bytes, and a clock.  Every wait ends in its time, with
      its instance closed, and misses no file between its look and its watch.
    - Volume: host/volume.  Layers, records and keys; a record is written atomically
      over a file system that keeps unsynced data only until it crashes.
    - GoNet, GuestNet: addresses, masks and hardware addresses of package net, and what
      vminit/system/network.go and identity.go do with them to the links, routes and
      resolv.conf of the guest.  Applying an identity twice is applying it once.
    - PlatformNet: shim/platform/network over an interface of the network manager that
      Network's CNI manager implements, the loading of its configuration, and the labels
      of shim/task/labels.go.  A set-up leaves a NIC or nothing.
    - Kmsg: vminit/system/kmsg.go with the search of entropy.go.  Records as the kernel
      prints them are read back; the gaps and tables reported are the right ones.
    - GuestClock, GuestBoot: vminit/system/clock.go, init.go and cleanup.go.  The clock is
      set within a step of the device's; bundles are removed after what is mounted in them.
    - GuestSpec, Console: vminit/runc/util.go, vminit/bundle and runc/platform.go: what is
      relaxed in a specification, and the console of a process with its copies.
    - Vminitd: cmd/vminitd with vminit/config, service and events: the services of the
      guest's daemon and its life, up to powering off as its last act.
    - VMClient: shim/resources/vmclient.go, the clients behind the callbacks of the two
      controllers.
    - Stdin: the stdin copy of shim/task/io.go between a client and the guest.
    - InstanceSetup: internal/paths and qemu/instance.go, making an instance, whose
      description is that of the machine a template is looked up for.
    - StartConfig: the start options of host/vm/vm.go, and validation and the kernel
      command line of qemu/start.go.  What is refused is characterised exactly, and a guest
      reads from its line what the machine was started with.
    - GuestQueries: guest vminit/task/exec.go's Pids over runc/container.go, and of
      process/utils.go the runtime's last error and the wait for copies.
    - ShimQueries: the requests a shim passes on and the snapshots it answers from.
    - GuestService: how the guest's task service is made and its events are published
      (task/service.go, events.go), and runc/cgroup.go.

    ** Fuel and bounds

    Recursion is structural except in these places: the vsock dial loop, whose
    fuel is shown to suffice from maxWait and the first backoff
    (VMManager.DialClientWithRetry_terminates); the CID loop over a uint32,
    whose fuel is the size of the range and one more test and never runs out when
    the range ends below 2^32-1 (Vsock.leases_are_exclusive); the polling of a block
    device by serial number, whose fuel of 102 looks is the time-out over the
    interval and two (MountProps.serial_resolution_ends_and_finds); the polling of
    QMP, whose fuel is computed from the time-out in the same way
    (Snapshot.SaveTemplate_freezes, loadTemplate_resumes_loaded); the extents of a
    device, with one per 2 GiB (Vmdk.descriptor_covers_devices).  A caller that
    waits for another's CNI call looks at its channel a number of times that is a
    parameter, and gives up with the error of its context.  The event stream's
    reconnect loop has 51 rounds, since its shortest sleep is 40 ms
    (EventStream.reconnect_ends); the PCI rescan has 25002 looks, the time-out over
    the interval and two (Restore.rescan_ends_and_finds); a duration has as many
    parts as its text has bytes (GoTime.parse_parts_fuel).  Connecting to the guest
    has the attempts that fit in its retry time-out at the shortest backoff
    (GuestConn.connect_ends), and so has waiting for the QMP socket
    (GuestConn.waitForSocket_ends).  The waits for devices have a
    round for each call their time-out has room for, [c] being what a call takes at least
    (DevicesProps.block_devices_waited).  Reading the kernel log takes one round more than
    there are records before the read that ends it (Kmsg.readKmsgInitcalls).  Printing a
    number uses 20 digits, enough for 64 bits (GoStrings.Atoi_fmt_d).

    ** What is not modelled

    Logging, context deadlines (a cancelled context is one of the answers), protobuf
    encoding and generated code are left out.  So are the registration of plugins with
    containerd and with the guest's daemon, the dumps of systools, checks by ioctl (KVM, the file
    system of a namespace), the interfaces of internal/host/vm that only name what the
    modelled types implement, the race detector's mutex, the stubs for other systems, and
    what external modules do (spin-machine, go-qemu, go-cni, runc, netlink, ttrpc), which
    are parameters with their documented laws. *)
From stdpp Require Export base tactics option list gmap strings numbers pretty.
From stdpp Require Export relations.

(** ** Go errors and results

    A Go [error] value is modelled by the class [errdefs] gives it (what callers
    branch on with [errors.Is] and what crosses the RPC boundary; a system call's
    errno is a class of its own) and its text.  [fmt.Errorf] with [%w] keeps the
    class of the error it wraps. *)
Inductive errno := ESRCH | ECONNREFUSED | ECONNRESET | ENODEV | EPIPE | EOTHER (n : Z).

#[export] Instance errno_eq_dec : EqDecision errno.
Proof. solve_decision. Defined.

(** The categories of CNI errors (internal/host/network/cni/errors.go). *)
Inductive cniCategory := ResourceConflict | IPAMExhausted | NetNSNotFound | IPAMLeak.

#[export] Instance cniCategory_eq_dec : EqDecision cniCategory.
Proof. solve_decision. Defined.

Inductive errkind :=
  | ErrUnknown
  | ErrCNI (c : cniCategory)
  | Errno (e : errno)
  | ErrAlreadyExists
  | ErrFailedPrecondition
  | ErrNotFound
  | ErrNotImplemented
  | ErrInvalidArgument
  | ErrInternal
  | ErrUnavailable
  | ErrCanceled
  | ErrDeadlineExceeded
  | ErrInvalidStateTransition.

#[export] Instance errkind_eq_dec : EqDecision errkind.
Proof. solve_decision. Defined.

Record error := mkError { ekind : errkind; emsg : string }.

#[export] Instance error_eq_dec : EqDecision error.
Proof. solve_decision. Defined.

(** A Go pair [(T, error)] in which exactly one side is meaningful. *)
Inductive res (A : Type) :=
  | Ok (a : A)
  | Err (e : error).
Arguments Ok {A} _.
Arguments Err {A} _.

#[export] Instance res_eq_dec `{EqDecision A} : EqDecision (res A).
Proof. solve_decision. Defined.

Definition res_bind {A B} (m : res A) (k : A → res B) : res B :=
  match m with Ok a => k a | Err e => Err e end.

Definition is_ok {A} (m : res A) : bool :=
  match m with Ok _ => true | Err _ => false end.

Declare Scope go_scope.
Delimit Scope go_scope with go.

Notation "'let!' x := m 'in' k" := (res_bind m (λ x, k))
  (at level 10, x pattern, m at level 100, k at level 200,
   format "'[v' 'let!'  x  :=  m  'in' '/' k ']'") : go_scope.
Open Scope go_scope.

(** [fmt.Errorf("msg: %w", e)]. *)
Definition wrap (msg : string) (e : error) : error :=
  mkError (ekind e) (msg +:+ ": " +:+ emsg e).

(** [fmt.Errorf(msg)] and [errors.New(msg)]. *)
Definition errorf (msg : string) : error := mkError ErrUnknown msg.

(** A computation that may crash the process (a Go run-time panic). *)
Inductive out (A : Type) :=
  | Val (a : A)
  | Panic (msg : string).
Arguments Val {A} _.
Arguments Panic {A} _.

Definition out_bind {A B} (m : out A) (k : A → out B) : out B :=
  match m with Val a => k a | Panic s => Panic s end.

(** ** Machine integers

    Go's [int]/[int64] and [uint32]/[uint64] on the 64-bit targets the program is
    built for: mathematical integers reduced to their width. *)
Definition two63 : Z := 9223372036854775808.
Definition two64 : Z := 18446744073709551616.
Definition two32 : Z := 4294967296.

Definition int64_wrap (z : Z) : Z := ((z + two63) mod two64 - two63)%Z.
Definition uint64_wrap (z : Z) : Z := (z mod two64)%Z.
Definition uint32_wrap (z : Z) : Z := (z mod two32)%Z.

Definition int64_range (z : Z) : Prop := (- two63 ≤ z < two63)%Z.
Definition uint64_range (z : Z) : Prop := (0 ≤ z < two64)%Z.
Definition uint32_range (z : Z) : Prop := (0 ≤ z < two32)%Z.

Lemma int64_wrap_id z : int64_range z → int64_wrap z = z.
Proof.
  unfold int64_range, int64_wrap, two63, two64. intros H.
  rewrite Z.mod_small; lia.
Qed.

Lemma int64_wrap_range z : int64_range (int64_wrap z).
Proof.
  unfold int64_range, int64_wrap, two63, two64.
  pose proof (Z.mod_pos_bound (z + 9223372036854775808) 18446744073709551616). lia.
Qed.

Lemma uint64_wrap_id z : uint64_range z → uint64_wrap z = z.
Proof. unfold uint64_range, uint64_wrap. apply Z.mod_small. Qed.

Lemma uint32_wrap_id z : uint32_range z → uint32_wrap z = z.
Proof. unfold uint32_range, uint32_wrap. apply Z.mod_small. Qed.

(** ** Hints and tactics of the development *)
Create HintDb spinbox.
#[export] Hint Resolve int64_wrap_range : spinbox.
#[export] Hint Constructors rtc : spinbox.

(** Case analysis on the scrutinee of every [match]/[if] in the goal or in a
    hypothesis, then the consequences of the resulting equations. *)
Ltac go_cases := repeat (case_match; simplify_eq/=).
Ltac go := intros; go_cases; eauto with spinbox; try done; try lia.

(** ** Lists *)
Section lists.
Context {A : Type}.
Implicit Types l : list A.

Lemma filter_all_true (f : A → bool) l :
  Forall (λ x, f x = true) l → List.filter f l = l.
Proof. induction 1 as [|x l Hx _ IH]; simpl; [done|]. by rewrite Hx, IH. Qed.

Lemma filter_all_false (f : A → bool) l :
  Forall (λ x, f x = false) l → List.filter f l = [].
Proof. induction 1 as [|x l Hx _ IH]; simpl; [done|]. by rewrite Hx. Qed.
End lists.
