(* ===== verification/Conc.v ===== *)
(** Interleaving semantics for the program's goroutines.

    A goroutine is a [prog]: a tree of atomic actions on one shared store (an
    atomic load, store, swap or compare-and-swap, or the body of a critical
    section under a mutex), each returning a value the rest of the goroutine
    depends on.  [run] is the execution of one goroutine alone; [pstep] lets any
    goroutine of a pool take its next atomic action.  The lemmas reduce a
    property of every interleaving to a property of each atomic action. *)
From S2P Require Import Prelude.

Inductive prog (S A : Type) :=
  | Ret (a : A)
  | Act (B : Type) (f : S → B * S) (k : B → prog S A).
Arguments Ret {S A} _.
Arguments Act {S A B} _ _.

Fixpoint pbind {S A B} (p : prog S A) (k : A → prog S B) : prog S B :=
  match p with
  | Ret a => k a
  | Act f kf => Act f (λ b, pbind (kf b) k)
  end.

Definition atomically {S B} (f : S → B * S) : prog S B := Act f Ret.

Declare Scope prog_scope.
Notation "x <- p ;; k" := (pbind p (λ x, k))
  (at level 100, p at next level, right associativity) : prog_scope.

(** One goroutine with no interference. *)
Fixpoint run {S A} (p : prog S A) (s : S) : A * S :=
  match p with
  | Ret a => (a, s)
  | Act f k => let '(b, s') := f s in run (k b) s'
  end.

(** One scheduler step: goroutine [i] of the pool performs its next action. *)
Inductive pstep {S A} : S * list (prog S A) → S * list (prog S A) → Prop :=
  | PStep i s ts (B : Type) (f : S → B * S) k b s' :
      ts !! i = Some (Act f k) →
      f s = (b, s') →
      pstep (s, ts) (s', <[i := k b]> ts).

(** The same step as a function, to run a chosen schedule. *)
Definition sched1 {S A} (i : nat) (c : S * list (prog S A)) : S * list (prog S A) :=
  match c.2 !! i with
  | Some (Act f k) => let '(b, s') := f c.1 in (s', <[i := k b]> c.2)
  | _ => c
  end.

Definition sched {S A} (is_ : list nat) (c : S * list (prog S A)) : S * list (prog S A) :=
  foldl (λ c i, sched1 i c) c is_.

Lemma pstep_sched1 {S A} s ts (c' : S * list (prog S A)) :
  pstep (s, ts) c' → ∃ i p, ts !! i = Some p ∧ c' = sched1 i (s, ts).
Proof.
  intros Hs. inversion Hs as [i s0 ts0 B f k b s' Hi Hf]; subst. exists i, (Act f k).
  split; [done|]. unfold sched1; simpl. by rewrite Hi, Hf.
Qed.

(** Results of the goroutines that have finished. *)
Definition done_with {S A} (p : prog S A) : option A :=
  match p with Ret a => Some a | _ => None end.

(** [guar R p]: every atomic action [p] can ever take relates the store before
    and after by [R]. *)
Fixpoint guar {S A} (R : S → S → Prop) (p : prog S A) : Prop :=
  match p with
  | Ret _ => True
  | Act f k => (∀ s, R s (f s).2) ∧ ∀ b, guar R (k b)
  end.

Lemma guar_bind {S A B} (R : S → S → Prop) (p : prog S A) (k : A → prog S B) :
  guar R p → (∀ a, guar R (k a)) → guar R (pbind p k).
Proof.
  intros Hp Hk. induction p as [a|C f kf IH]; simpl in *; [done|].
  destruct Hp as [Hf Hkf]. split; [done|]. intros b. by apply IH.
Qed.

Lemma guar_bind_inv {S A B} (R : S → S → Prop) (p : prog S A) (k : A → prog S B) :
  guar R (pbind p k) → guar R p.
Proof.
  induction p as [a|C f kf IH]; simpl; [done|]. intros [Hf Hk]. split; [done|].
  intros b. by apply IH.
Qed.

Lemma guar_mono {S A} (R1 R2 : S → S → Prop) (p : prog S A) :
  (∀ s s', R1 s s' → R2 s s') → guar R1 p → guar R2 p.
Proof.
  intros HR. induction p as [a|C f k IH]; simpl; [done|].
  intros [Hf Hk]. split; [eauto|]. intros b. apply IH, Hk.
Qed.

Lemma run_guar {S A} (R : S → S → Prop) (p : prog S A) s :
  guar R p → rtc R s (run p s).2.
Proof.
  revert s. induction p as [a|C f k IH]; intros s Hp; simpl in *; [constructor|].
  destruct Hp as [Hf Hk]. destruct (f s) as [b s'] eqn:E.
  specialize (Hf s). rewrite E in Hf. eapply rtc_l; [exact Hf|]. apply IH, Hk.
Qed.

Lemma run_bind {S A B} (p : prog S A) (k : A → prog S B) s :
  run (pbind p k) s = let '(a, s') := run p s in run (k a) s'.
Proof.
  revert s. induction p as [a|C f kf IH]; intros s; simpl; [done|].
  destruct (f s) as [b s']. apply IH.
Qed.

Section pool.
Context {S A : Type} (R : S → S → Prop).
Implicit Types c : S * list (prog S A).

Definition pool_guar (ts : list (prog S A)) : Prop := Forall (guar R) ts.

Lemma pstep_guar c c' :
  pool_guar c.2 → pstep c c' → R c.1 c'.1 ∧ pool_guar c'.2.
Proof.
  intros Hg Hs. destruct Hs as [i s ts B f k b s' Hi Hf]; simpl in *.
  pose proof (Forall_lookup_1 _ _ _ _ Hg Hi) as [HR Hk]. split.
  - specialize (HR s). by rewrite Hf in HR.
  - by apply Forall_insert; [|apply Hk].
Qed.

(** Every interleaving of goroutines whose actions satisfy [R] moves the store
    along [R]-steps only. *)
Lemma pool_rtc c c' :
  pool_guar c.2 → rtc pstep c c' → rtc R c.1 c'.1.
Proof.
  intros Hg Hs. induction Hs as [c|c1 c2 c3 H12 _ IH]; [constructor|].
  destruct (pstep_guar _ _ Hg H12) as [HR Hg']. eapply rtc_l; eauto.
Qed.

Lemma sched_steps is_ c : rtc pstep c (sched is_ c).
Proof.
  revert c. induction is_ as [|i is_ IH]; intros c; simpl; [constructor|].
  transitivity (sched1 i c); [|apply IH].
  unfold sched1. destruct c as [s ts]; simpl.
  destruct (ts !! i) as [[a|B f k]|] eqn:Hi; [constructor| |constructor].
  destruct (f s) as [b s'] eqn:Hf. apply rtc_once. by econstructor.
Qed.
End pool.

(** An invariant closed under [R] holds along every interleaving. *)
Lemma rtc_invariant {S} (R : S → S → Prop) (I : S → Prop) s s' :
  (∀ x y, I x → R x y → I y) → I s → rtc R s s' → I s'.
Proof. intros HR Hs Hrtc. induction Hrtc; eauto. Qed.

(** ** Protocols

    A goroutine that takes part in a protocol has a mode at each point; [mstep m
    s s' m'] says that an action taken in mode [m] may change the store from [s]
    to [s'] and leaves the goroutine in mode [m'], and [pre m s] what a goroutine
    in mode [m] may rely on.  [obeys m p Q]: started in mode [m], [p] follows the
    protocol, and ends in a mode and with a result related by [Q]. *)
Section protocol.
Context {S M : Type} (mstep : M → S → S → M → Prop) (pre : M → S → Prop).

Fixpoint obeys {A} (m : M) (p : prog S A) (Q : M → A → Prop) : Prop :=
  match p with
  | Ret a => Q m a
  | Act f k => ∀ s, pre m s → ∃ m', mstep m s (f s).2 m' ∧ obeys m' (k (f s).1) Q
  end.

Lemma obeys_bind {A B} m (p : prog S A) (k : A → prog S B) Q :
  obeys m p (λ m' a, obeys m' (k a) Q) → obeys m (pbind p k) Q.
Proof.
  revert m. induction p as [a|C f kf IH]; intros m H; simpl in *; [done|].
  intros s Hp. destruct (H s Hp) as (m' & Hm & Ho). eauto.
Qed.

Lemma obeys_mono {A} m (p : prog S A) (Q1 Q2 : M → A → Prop) :
  (∀ m a, Q1 m a → Q2 m a) → obeys m p Q1 → obeys m p Q2.
Proof.
  intros HQ. revert m. induction p as [a|C f kf IH]; intros m H; simpl in *; [auto|].
  intros s Hp. destruct (H s Hp) as (m' & Hm & Ho). eauto.
Qed.

Lemma guar_obeys {A} (R : S → S → Prop) m (p : prog S A) :
  (∀ s s', pre m s → R s s' → mstep m s s' m) → guar R p → obeys m p (λ m' _, m' = m).
Proof.
  intros HR. induction p as [a|C f kf IH]; intros H; simpl in *; [done|].
  destruct H as [Hf Hk]. intros s Hp. exists m. split; [by apply HR|]. by apply IH.
Qed.

Context {A : Type} (Q : M → A → Prop) (I : S → list M → Prop).
Context (Hpre : ∀ s ms i m, I s ms → ms !! i = Some m → pre m s).
Context (Hstep : ∀ s s' ms i m m', I s ms → ms !! i = Some m → mstep m s s' m' →
                   I s' (<[i := m']> ms)).

(** Some assignment of modes explains the pool. *)
Definition explained (c : S * list (prog S A)) : Prop :=
  ∃ ms, I c.1 ms ∧ Forall2 (λ m p, obeys m p Q) ms c.2.

Lemma explained_step c c' : explained c → pstep c c' → explained c'.
Proof.
  intros (ms & HI & Hf) Hs. destruct Hs as [i s ts B f k b s' Hi Hb]; simpl in *.
  destruct (Forall2_lookup_r _ _ _ _ _ Hf Hi) as (m & Hm & Ho).
  destruct (Ho s (Hpre _ _ _ _ HI Hm)) as (m' & Hst & Ho'). rewrite Hb in Hst, Ho'.
  exists (<[i := m']> ms). split; [by eapply Hstep|]. by apply Forall2_insert.
Qed.

Lemma explained_rtc c c' : explained c → rtc pstep c c' → explained c'.
Proof. intros Hc Hr. induction Hr; eauto using explained_step. Qed.
End protocol.
