(* ===== verification/GoStrings.v ===== *)
(** The functions of Go's [strings] and [strconv] packages the program calls,
    on byte strings.  White space and letter case are the ASCII ones: the inputs
    (cpusets, mount options, kernel parameters, error texts of the OCI runtime)
    are ASCII, and a non-ASCII byte is neither a space nor a letter here. *)
From S2P Require Import Prelude.
From Stdlib Require Import Ascii.

Definition is_space (c : ascii) : bool :=
  let n := nat_of_ascii c in
  (n =? 32)%nat || ((9 <=? n)%nat && (n <=? 13)%nat).

Definition is_digit (c : ascii) : bool :=
  let n := nat_of_ascii c in (48 <=? n)%nat && (n <=? 57)%nat.

Definition digit_val (c : ascii) : Z := Z.of_nat (nat_of_ascii c) - 48.

(** ** Prefixes and search *)

(** [strings.CutPrefix] (and [HasPrefix] when only the test is used). *)
Fixpoint CutPrefix (p s : string) : option string :=
  match p, s with
  | EmptyString, _ => Some s
  | String a p', String b s' => if decide (a = b) then CutPrefix p' s' else None
  | String _ _, EmptyString => None
  end.

Definition HasPrefix (s p : string) : bool :=
  match CutPrefix p s with Some _ => true | None => false end.

Fixpoint Contains (s sub : string) : bool :=
  HasPrefix s sub ||
  match s with EmptyString => false | String _ s' => Contains s' sub end.

(** [strings.ContainsAny] *)
Fixpoint contains_byte (s : string) (c : ascii) : bool :=
  match s with
  | EmptyString => false
  | String a s' => if decide (a = c) then true else contains_byte s' c
  end.

Fixpoint ContainsAny (s chars : string) : bool :=
  match s with
  | EmptyString => false
  | String a s' => contains_byte chars a || ContainsAny s' chars
  end.

Definition to_lower (c : ascii) : ascii :=
  let n := nat_of_ascii c in
  if (65 <=? n)%nat && (n <=? 90)%nat then ascii_of_nat (n + 32) else c.

Fixpoint ToLower (s : string) : string :=
  match s with EmptyString => EmptyString | String a s' => String (to_lower a) (ToLower s') end.

(** ** Trimming and splitting *)

Fixpoint trim_left (s : string) : string :=
  match s with
  | String a s' => if is_space a then trim_left s' else s
  | EmptyString => EmptyString
  end.

Fixpoint trim_right (s : string) : string :=
  match s with
  | EmptyString => EmptyString
  | String a s' =>
      match trim_right s' with
      | EmptyString => if is_space a then EmptyString else String a EmptyString
      | r => String a r
      end
  end.

Definition TrimSpace (s : string) : string := trim_right (trim_left s).

(** [strings.Split] on a one-byte separator: never the empty list. *)
Fixpoint Split (s : string) (sep : ascii) : list string :=
  match s with
  | EmptyString => [EmptyString]
  | String a s' =>
      if decide (a = sep) then EmptyString :: Split s' sep
      else match Split s' sep with
           | [] => [String a EmptyString]
           | p :: ps => String a p :: ps
           end
  end.

(** [strings.SplitN] with [n > 0]: the last part keeps its separators. *)
Fixpoint SplitN (s : string) (sep : ascii) (n : nat) : list string :=
  match n with
  | O => []
  | S O => [s]
  | S n' =>
      (fix go (s : string) : list string :=
         match s with
         | EmptyString => [EmptyString]
         | String a s' =>
             if decide (a = sep) then EmptyString :: SplitN s' sep n'
             else match go s' with
                  | [] => [String a EmptyString]
                  | p :: ps => String a p :: ps
                  end
         end) s
  end.

(** ** Paths *)

Fixpoint join_with (sep : string) (l : list string) : string :=
  match l with
  | [] => ""
  | [s] => s
  | s :: l' => s +:+ sep +:+ join_with sep l'
  end.

(** The components of a slash-separated path after [filepath.Clean], newest
    first: [.] and empty components vanish, [..] removes its predecessor; at the
    root [..] vanishes, in a relative path leading ones stay. *)
Fixpoint clean_comps (rooted : bool) (parts : list string) (acc : list string) : list string :=
  match parts with
  | [] => acc
  | p :: ps =>
      if decide (p = "") then clean_comps rooted ps acc
      else if decide (p = ".") then clean_comps rooted ps acc
      else if decide (p = "..") then
        match acc with
        | [] => clean_comps rooted ps (if rooted then [] else [".."])
        | q :: acc' => if decide (q = "..") then clean_comps rooted ps (".." :: acc)
                       else clean_comps rooted ps acc'
        end
      else clean_comps rooted ps (p :: acc)
  end.

Definition is_rooted (s : string) : bool :=
  match s with String a _ => bool_decide (a = "/"%char) | EmptyString => false end.

Definition Clean (path : string) : string :=
  let rooted := is_rooted path in
  let body := join_with "/" (rev (clean_comps rooted (Split path "/") [])) in
  if rooted then String "/" body
  else match body with EmptyString => "." | _ => body end.

(** [filepath.Join]: empty elements are ignored; no element left gives "". *)
Definition path_Join (elems : list string) : string :=
  match List.filter (λ e, negb (bool_decide (e = ""))) elems with
  | [] => ""
  | es => Clean (join_with "/" es)
  end.

(** ** Numbers *)

Fixpoint digits_val (base : Z) (acc : Z) (s : string) : option Z :=
  match s with
  | EmptyString => Some acc
  | String a s' =>
      if is_digit a && (digit_val a <? base)%Z
      then digits_val base (acc * base + digit_val a)%Z s'
      else None
  end.

Definition unsigned (base : Z) (s : string) : option Z :=
  match s with EmptyString => None | _ => digits_val base 0 s end.

(** [strconv.Atoi]: an optional sign, at least one digit, in the range of [int]. *)
Definition Atoi (s : string) : option Z :=
  let v := match s with
           | String a s' =>
               if decide (a = "-"%char) then Z.opp <$> unsigned 10 s'
               else if decide (a = "+"%char) then unsigned 10 s'
               else unsigned 10 s
           | EmptyString => None
           end in
  match v with
  | Some n => if bool_decide (- two63 ≤ n < two63)%Z then Some n else None
  | None => None
  end.

(** [strconv.ParseUint] with an explicit base and bit size. *)
Definition ParseUint (s : string) (base bits : Z) : option Z :=
  match unsigned base s with
  | Some n => if (n <? 2 ^ bits)%Z then Some n else None
  | None => None
  end.

(** ** Lemmas *)

Lemma CutPrefix_app p s : CutPrefix p (p +:+ s) = Some s.
Proof.
  induction p as [|a p IH]; [by destruct s|]. simpl. by rewrite decide_True.
Qed.

Lemma CutPrefix_Some p s r : CutPrefix p s = Some r → s = p +:+ r.
Proof.
  revert s. induction p as [|a p IH]; intros s H; simpl in H.
  - destruct s; by simplify_eq/=.
  - destruct s as [|b s]; [done|]. case_decide; [|done]. subst.
    change (String b p +:+ r) with (String b (p +:+ r)). by rewrite <- (IH s).
Qed.

Lemma HasPrefix_app p s : HasPrefix (p +:+ s) p = true.
Proof. unfold HasPrefix. by rewrite CutPrefix_app. Qed.

Lemma HasPrefix_true s p : HasPrefix s p = true → ∃ r, s = p +:+ r.
Proof.
  unfold HasPrefix. destruct (CutPrefix p s) as [r|] eqn:H; [|done].
  intros _. exists r. by apply CutPrefix_Some.
Qed.

Lemma Atoi_range s n : Atoi s = Some n → int64_range n.
Proof. unfold Atoi, int64_range. intros H. go_cases; by case_bool_decide. Qed.
#[export] Hint Resolve Atoi_range : spinbox.

(** [%q] of a string of printable characters other than quotes and backslashes. *)
Definition fmt_q (s : string) : string :=
  let q := String (Ascii.ascii_of_nat 34) EmptyString in q +:+ s +:+ q.

(** [%d] of a machine integer: 20 digits are enough for 64 bits. *)
Definition digit (n : Z) : ascii := ascii_of_nat (Z.to_nat (48 + n)).

Fixpoint fmt_digits (fuel : nat) (n : Z) (acc : string) : string :=
  match fuel with
  | O => acc
  | S f =>
      if (n <? 10)%Z then String (digit n) acc
      else fmt_digits f (n / 10) (String (digit (n mod 10)) acc)
  end.

Definition fmt_d (z : Z) : string :=
  if (z <? 0)%Z then "-" +:+ fmt_digits 20 (- z) "" else fmt_digits 20 z "".

(** [strings.Fields] *)
Fixpoint fields_from (cur s : string) : list string :=
  let flush := match cur with EmptyString => [] | _ => [cur] end in
  match s with
  | EmptyString => flush
  | String a s' =>
      if is_space a then flush ++ fields_from EmptyString s'
      else fields_from (cur +:+ String a EmptyString) s'
  end.
Definition Fields (s : string) : list string := fields_from EmptyString s.

Lemma string_app_nil_r s : s +:+ "" = s.
Proof.
  induction s as [|a s IH]; [done|].
  change (String a s +:+ "") with (String a (s +:+ "")). by rewrite IH.
Qed.

Lemma string_app_assoc s t u : s +:+ (t +:+ u) = (s +:+ t) +:+ u.
Proof.
  induction s as [|a s IH]; [done|].
  change (String a (s +:+ (t +:+ u)) = String a ((s +:+ t) +:+ u)). by rewrite IH.
Qed.

(** ** Strings made of given characters *)

Fixpoint all_chars (P : ascii → bool) (s : string) : bool :=
  match s with EmptyString => true | String a s' => P a && all_chars P s' end.

Lemma all_chars_app P s t : all_chars P (s +:+ t) = all_chars P s && all_chars P t.
Proof.
  induction s as [|a s IH]; [done|]. simpl. fold (s +:+ t). rewrite IH. by rewrite andb_assoc.
Qed.

Lemma all_chars_impl (P Q : ascii → bool) s : (∀ a, P a = true → Q a = true) →
  all_chars P s = true → all_chars Q s = true.
Proof.
  intros HPQ. induction s as [|a s IH]; [done|]. simpl. rewrite !andb_true_iff. intuition.
Qed.

Lemma TrimSpace_id s : all_chars (λ a, negb (is_space a)) s = true → TrimSpace s = s.
Proof.
  intros H. unfold TrimSpace. assert (Hl : trim_left s = s).
  { destruct s as [|a s]; [done|]. simpl in *. apply andb_true_iff in H as [Ha _].
    by destruct (is_space a). }
  rewrite Hl. clear Hl. induction s as [|a s IH]; [done|]. simpl in *.
  apply andb_true_iff in H as [Ha Hs]. rewrite (IH Hs). destruct s; [|done].
  by destruct (is_space a).
Qed.

Definition neq_char (c a : ascii) : bool := negb (bool_decide (a = c)).

Lemma Split_last s sep : all_chars (neq_char sep) s = true → Split s sep = [s].
Proof.
  induction s as [|a s IH]; [done|]. simpl. unfold neq_char at 1. intros H.
  apply andb_true_iff in H as [Ha Hs]. case_bool_decide; [done|]. rewrite decide_False by done.
  by rewrite (IH Hs).
Qed.

Lemma Split_cons s sep r : all_chars (neq_char sep) s = true →
  Split (s +:+ String sep r) sep = s :: Split r sep.
Proof.
  induction s as [|a s IH]; intros H; simpl; [by rewrite decide_True|].
  simpl in H. apply andb_true_iff in H as [Ha Hs]. unfold neq_char in Ha. case_bool_decide; [done|].
  rewrite decide_False by done. change (String.append s (String sep r)) with (s +:+ String sep r).
  by rewrite (IH Hs).
Qed.

Lemma SplitN_2 s sep r : all_chars (neq_char sep) s = true →
  SplitN (s +:+ String sep r) sep 2 = [s; r].
Proof.
  induction s as [|a s IH]; intros H; simpl; [destruct (decide (sep = sep)); by destruct r|].
  simpl in H. apply andb_true_iff in H as [Ha Hs]. unfold neq_char in Ha. case_bool_decide; [done|].
  destruct (decide (a = sep)); [done|]. specialize (IH Hs).
  destruct (s +:+ String sep r) as [|b t] eqn:Hb; [by destruct s|].
  change (SplitN (String b t) sep 2) with
    ((fix go (s : string) : list string :=
        match s with
        | EmptyString => [EmptyString]
        | String a s' =>
            if decide (a = sep) then EmptyString :: SplitN s' sep 1
            else match go s' with [] => [String a EmptyString] | p :: ps => String a p :: ps end
        end) (String b t)) in IH.
  by rewrite IH.
Qed.

Lemma Contains_char_app s c r : Contains (s +:+ String c r) (String c EmptyString) = true.
Proof.
  induction s as [|a s IH]; simpl.
  - unfold HasPrefix. simpl. by rewrite decide_True.
  - change (String.append s (String c r)) with (s +:+ String c r). rewrite IH. apply orb_true_r.
Qed.

Lemma Contains_char_none s c : all_chars (neq_char c) s = true → Contains s (String c EmptyString) = false.
Proof.
  induction s as [|a s IH]; [done|]. simpl. intros H. apply andb_true_iff in H as [Ha Hs].
  rewrite (IH Hs), orb_false_r. unfold HasPrefix. simpl. unfold neq_char in Ha.
  case_bool_decide; [done|]. by rewrite decide_False.
Qed.

(** ** Printing and parsing a number *)

Lemma digit_small n : (0 ≤ n < 10)%Z →
  is_digit (digit n) = true ∧ digit_val (digit n) = n.
Proof.
  intros Hn. assert (n = 0 ∨ n = 1 ∨ n = 2 ∨ n = 3 ∨ n = 4 ∨ n = 5 ∨ n = 6 ∨ n = 7 ∨ n = 8 ∨ n = 9)%Z
    as Hc by lia.
  repeat (destruct Hc as [->|Hc]; [done|]). by subst.
Qed.

Lemma digits_val_digit n acc s : (0 ≤ n < 10)%Z →
  digits_val 10 acc (String (digit n) s) = digits_val 10 (acc * 10 + n) s.
Proof.
  intros Hn. cbn [digits_val]. destruct (digit_small n Hn) as [-> ->].
  by rewrite (proj2 (Z.ltb_lt _ _)) by lia.
Qed.

Lemma fmt_digits_val fuel n acc : (0 ≤ n < 10 ^ Z.of_nat fuel)%Z →
  digits_val 10 0 (fmt_digits fuel n acc) = digits_val 10 n acc.
Proof.
  revert n acc. induction fuel as [|f IH]; intros n acc Hn; cbn [fmt_digits].
  { simpl in Hn. assert (n = 0)%Z as -> by lia. done. }
  destruct (Z.ltb_spec n 10); [by rewrite digits_val_digit by lia|].
  rewrite IH.
  - rewrite digits_val_digit by (apply Z.mod_pos_bound; lia). f_equal.
    pose proof (Z.div_mod n 10). lia.
  - rewrite Nat2Z.inj_succ, Z.pow_succ_r in Hn by lia. split; [apply Z.div_pos; lia|].
    apply Z.div_lt_upper_bound; lia.
Qed.

Lemma fmt_digits_chars fuel n acc : (0 ≤ n)%Z → all_chars is_digit acc = true →
  all_chars is_digit (fmt_digits fuel n acc) = true.
Proof.
  revert n acc. induction fuel as [|f IH]; intros n acc Hn Ha; cbn [fmt_digits]; [done|].
  destruct (Z.ltb_spec n 10).
  - cbn [all_chars]. by rewrite (proj1 (digit_small n ltac:(lia))), Ha.
  - apply IH; [apply Z.div_pos; lia|]. cbn [all_chars].
    by rewrite (proj1 (digit_small (n mod 10) ltac:(apply Z.mod_pos_bound; lia))), Ha.
Qed.

Lemma fmt_digits_nonempty fuel n a acc : ∃ b s, fmt_digits fuel n (String a acc) = String b s.
Proof.
  revert n a acc. induction fuel as [|f IH]; intros n a acc; cbn [fmt_digits]; [eauto|].
  destruct (n <? 10)%Z; eauto.
Qed.

Lemma fmt_digits_S f n acc : ∃ b s, fmt_digits (S f) n acc = String b s.
Proof. cbn [fmt_digits]. destruct (n <? 10)%Z; [eauto|]. apply fmt_digits_nonempty. Qed.

Lemma fmt_d_digits n : (0 ≤ n)%Z → all_chars is_digit (fmt_d n) = true.
Proof.
  intros Hn. unfold fmt_d. rewrite (proj2 (Z.ltb_ge _ _)) by lia. by apply fmt_digits_chars.
Qed.

(** Printing a number with [%d] and reading it back gives it. *)
Lemma Atoi_fmt_d n : (0 ≤ n < two63)%Z → Atoi (fmt_d n) = Some n.
Proof.
  intros Hn. pose proof (fmt_d_digits n ltac:(lia)) as Hd.
  assert (Hv : digits_val 10 0 (fmt_d n) = Some n).
  { unfold fmt_d. rewrite (proj2 (Z.ltb_ge _ _)) by lia.
    rewrite fmt_digits_val; [done|]. unfold two63 in Hn. lia. }
  destruct (fmt_d n) as [|a s] eqn:Hs.
  - exfalso. unfold fmt_d in Hs. rewrite (proj2 (Z.ltb_ge _ _)) in Hs by lia.
    destruct (fmt_digits_S 19 n "") as (b & r & Hb). rewrite Hb in Hs. done.
  - unfold Atoi. simpl in Hd. apply andb_true_iff in Hd as [Ha _].
    rewrite !decide_False by (intros ->; done). unfold unsigned. rewrite Hv.
    rewrite bool_decide_eq_true_2; [done|]. unfold two63 in *. lia.
Qed.
