(* ===== verification/GoFloat.v ===== *)
(** Go's float64: the IEEE 754 binary64 operations the hotplug controllers use,
    on the Standard Library's executable [spec_float] with 53 bits of precision
    and round to nearest even. *)
From Stdlib Require Export SpecFloat.
From S2P Require Import Prelude.
Open Scope Z_scope.

Abbreviation float64 := spec_float.

(** [float64(z)] for an integer [z]: rounded to nearest even. *)
Definition f64 (z : Z) : float64 := binary_normalize 53 1024 z 0 false.
Definition fmul (x y : float64) : float64 := SFmul 53 1024 x y.
Definition fdiv (x y : float64) : float64 := SFdiv 53 1024 x y.

(** The comparison operators; all are false on a NaN. *)
Definition fle (x y : float64) : bool := SFleb x y.
Definition flt (x y : float64) : bool := SFltb x y.
Definition fge (x y : float64) : bool := SFleb y x.

(** [int64(x)]: truncation towards zero; out of range (the language leaves it to
    the implementation) it is the amd64 conversion's 0x8000000000000000. *)
Definition f64_to_int64 (x : float64) : Z :=
  match x with
  | S754_zero _ => 0
  | S754_finite s m e =>
      let a := Z.shiftl (Zpos m) e in
      let v := if s then - a else a in
      if (- two63 <=? v) && (v <? two63) then v else - two63
  | _ => - two63
  end.

Lemma f64_to_int64_range x : int64_range (f64_to_int64 x).
Proof.
  unfold int64_range, f64_to_int64. destruct x as [s|s| |s m e];
    try (unfold two63; lia).
  destruct ((- two63 <=? _) && _) eqn:Hb; [|unfold two63; lia].
  apply andb_true_iff in Hb as [?%Z.leb_le ?%Z.ltb_lt]. lia.
Qed.

(** A float64 integer conversion is exact below 2^53. *)
Example f64_exact : f64_to_int64 (f64 9007199254740991) = 9007199254740991
  ∧ f64_to_int64 (f64 9007199254740993) = 9007199254740992
  ∧ f64_to_int64 (fmul (fdiv (f64 (-7)) (f64 2)) (f64 1)) = -3.
Proof. vm_compute. done. Qed.
