(* ===== verification/GoState.v ===== *)
(** A small state and error monad for Go code that threads a world through calls
    that may fail: the value or the error of a call, and the world after it.  An
    error does not undo what was done to the world. *)
From S2P Require Import Prelude.

Definition ST (W A : Type) : Type := W → res A * W.

Definition ret {W A} (a : A) : ST W A := λ w, (Ok a, w).
Definition fail {W A} (e : error) : ST W A := λ w, (Err e, w).
Definition bind {W A B} (m : ST W A) (k : A → ST W B) : ST W B :=
  λ w, match m w with
       | (Ok a, w') => k a w'
       | (Err e, w') => (Err e, w')
       end.

(** A call whose error the code inspects or drops itself. *)
Definition attempt {W A} (m : ST W A) : ST W (res A) :=
  λ w, let '(r, w') := m w in (Ok r, w').

Definition lift {W A} (r : res A) : ST W A := λ w, (r, w).
Definition get {W} : ST W W := λ w, (Ok w, w).
Definition modify {W} (f : W → W) : ST W () := λ w, (Ok tt, f w).

(** [if err := m(); err != nil { cleanup; return err }] *)
Definition on_error {W A} (m : ST W A) (cleanup : ST W ()) : ST W A :=
  λ w, match m w with
       | (Ok a, w') => (Ok a, w')
       | (Err e, w') => (Err e, (cleanup w').2)
       end.

(** [if err := m(); err != nil { return fmt.Errorf("msg: %w", err) }] *)
Definition wrapping {W A} (msg : string) (m : ST W A) : ST W A :=
  λ w, match m w with
       | (Ok a, w') => (Ok a, w')
       | (Err e, w') => (Err (wrap msg e), w')
       end.

Declare Scope st_scope.
Delimit Scope st_scope with st.
Notation "'do!' x := m 'in' k" := (bind m (λ x, k))
  (at level 10, x pattern, m at level 100, k at level 200,
   format "'[v' 'do!'  x  :=  m  'in' '/' k ']'") : st_scope.
Notation "m ;;! k" := (bind m (λ _, k))
  (at level 100, k at level 200, right associativity) : st_scope.
Open Scope st_scope.

(** A step of every world left alone by an error or a value: what [bind] and the
    other combinators preserve. *)
Definition preserves {W A} (R : W → W → Prop) (m : ST W A) : Prop :=
  ∀ w, R w (m w).2.

Section preserves.
Context {W : Type} (R : W → W → Prop) `{!PreOrder R}.

Lemma preserves_ret {A} (a : A) : preserves R (ret a).
Proof. intros w. simpl. reflexivity. Qed.

Lemma preserves_fail {A} e : preserves R (fail (A := A) e).
Proof. intros w. simpl. reflexivity. Qed.

Lemma preserves_lift {A} (r : res A) : preserves R (lift r).
Proof. intros w. simpl. reflexivity. Qed.

Lemma preserves_bind {A B} (m : ST W A) (k : A → ST W B) :
  preserves R m → (∀ a, preserves R (k a)) → preserves R (bind m k).
Proof.
  intros Hm Hk w. unfold bind. specialize (Hm w). destruct (m w) as [[a|e] w']; simpl in *; [|done].
  etrans; [exact Hm|]. apply Hk.
Qed.

Lemma preserves_attempt {A} (m : ST W A) : preserves R m → preserves R (attempt m).
Proof. intros Hm w. specialize (Hm w). unfold attempt. by destruct (m w). Qed.

Lemma preserves_wrapping {A} msg (m : ST W A) : preserves R m → preserves R (wrapping msg m).
Proof. intros Hm w. specialize (Hm w). unfold wrapping. by destruct (m w) as [[?|?] ?]. Qed.

Lemma preserves_on_error {A} (m : ST W A) c :
  preserves R m → preserves R c → preserves R (on_error m c).
Proof.
  intros Hm Hc w. specialize (Hm w). unfold on_error. destruct (m w) as [[a|e] w']; simpl in *; [done|].
  etrans; [exact Hm|]. apply Hc.
Qed.
End preserves.

#[export] Hint Resolve preserves_ret preserves_fail preserves_lift preserves_bind
  preserves_attempt preserves_wrapping preserves_on_error : spinbox.

(** Inversion of a successful [bind]. *)
Lemma bind_Ok {W A B} (m : ST W A) (k : A → ST W B) w b w' :
  bind m k w = (Ok b, w') ↔ ∃ a w1, m w = (Ok a, w1) ∧ k a w1 = (Ok b, w').
Proof.
  unfold bind. destruct (m w) as [[a|e] w1]; naive_solver.
Qed.

Lemma bind_Err {W A B} (m : ST W A) (k : A → ST W B) w e w' :
  bind m k w = (Err e, w') ↔
  m w = (Err e, w') ∨ ∃ a w1, m w = (Ok a, w1) ∧ k a w1 = (Err e, w').
Proof.
  unfold bind. destruct (m w) as [[a|e'] w1]; naive_solver.
Qed.

Lemma wrapping_Ok {W A} msg (m : ST W A) w a w' :
  wrapping msg m w = (Ok a, w') ↔ m w = (Ok a, w').
Proof. unfold wrapping. destruct (m w) as [[?|?] ?]; naive_solver. Qed.
