(* ===== verification/GoText.v ===== *)
(** More of Go's [strings], [path/filepath] and [regexp] packages: slices of
    strings, suffixes, base names, and the replacement templates the program
    matches with regular expressions. *)
From S2P Require Import Prelude GoStrings.
From Stdlib Require Import Ascii.

(** [s[:n]] and [s[n:]] for [n] at most the length (the code guards its slices). *)
Fixpoint str_take (n : nat) (s : string) : string :=
  match n, s with
  | S n', String a s' => String a (str_take n' s')
  | _, _ => EmptyString
  end.

Fixpoint str_drop (n : nat) (s : string) : string :=
  match n, s with
  | S n', String _ s' => str_drop n' s'
  | _, _ => s
  end.

(** [strings.CutSuffix], [HasSuffix] and [TrimSuffix] *)
Definition CutSuffix (s suf : string) : option string :=
  let n := String.length s - String.length suf in
  if bool_decide (str_drop n s = suf) then Some (str_take n s) else None.

Definition HasSuffix (s suf : string) : bool :=
  match CutSuffix s suf with Some _ => true | None => false end.

Definition TrimSuffix (s suf : string) : string := default s (CutSuffix s suf).

(** [strings.Replace(s, old, new, 1)] for one-byte [old] *)
Fixpoint replace_first (old : ascii) (new s : string) : string :=
  match s with
  | EmptyString => EmptyString
  | String a s' => if decide (a = old) then new +:+ s' else String a (replace_first old new s')
  end.

(** [filepath.Base]: the last component, trailing slashes ignored. *)
Definition Base (path : string) : string :=
  match path with
  | EmptyString => "."
  | _ => match rev (List.filter (λ p, negb (bool_decide (p = ""))) (Split path "/")) with
         | [] => "/"
         | p :: _ => p
         end
  end.

(** [filepath.Dir]: all but the last component, cleaned. *)
Definition Dir (path : string) : string :=
  match rev (Split path "/") with
  | _ :: ((_ :: _) as d) => Clean (join_with "/" (rev d) +:+ "/")
  | _ => "."
  end.

(** ** Templates

    The patterns are [\{\{\s*kw\s+(\d+)\s*\}\}] and, with two numbers,
    [\{\{\s*kw\s+(\d+)\s+(\d+)\s*\}\}].  Each repetition is followed by a
    character outside its class, so the leftmost-first match is the greedy one
    and needs no backtracking. *)

(** [\s] of RE2: no vertical tab. *)
Definition is_re_space (c : ascii) : bool :=
  let n := nat_of_ascii c in
  (n =? 32)%nat || (n =? 9)%nat || (n =? 10)%nat || (n =? 12)%nat || (n =? 13)%nat.

Fixpoint span (P : ascii → bool) (s : string) : string * string :=
  match s with
  | EmptyString => (EmptyString, EmptyString)
  | String a s' =>
      if P a then let '(u, v) := span P s' in (String a u, v) else (EmptyString, s)
  end.

(** [P+] *)
Definition span1 (P : ascii → bool) (s : string) : option (string * string) :=
  match span P s with (EmptyString, _) => None | r => Some r end.

(** [(\s+(\d+)){n}]: the numbers and what follows. *)
Fixpoint match_nums (n : nat) (s : string) : option (list string * string) :=
  match n with
  | O => Some ([], s)
  | S n' =>
      '(_, s1) ← span1 is_re_space s;
      '(d, s2) ← span1 is_digit s1;
      '(ds, s3) ← match_nums n' s2;
      Some (d :: ds, s3)
  end.

(** A match of the pattern at the start of [s]: its groups and what follows. *)
Definition match_at (kw : string) (n : nat) (s : string) : option (list string * string) :=
  s1 ← CutPrefix "{{" s;
  s3 ← CutPrefix kw (span is_re_space s1).2;
  '(ds, s4) ← match_nums n s3;
  s5 ← CutPrefix "}}" (span is_re_space s4).2;
  Some (ds, s5).

(** [FindStringSubmatch]: the groups of the leftmost match. *)
Fixpoint FindSubmatch (kw : string) (n : nat) (s : string) : option (list string) :=
  match match_at kw n s with
  | Some (ds, _) => Some ds
  | None => match s with EmptyString => None | String _ s' => FindSubmatch kw n s' end
  end.

(** [ReplaceAllStringFunc] with a callback that carries state: matches from left
    to right, none overlapping.  [skip] counts the bytes of the match just
    replaced that are still to be passed over. *)
Fixpoint ReplaceAllFunc {E} (kw : string) (n : nat) (f : string → E → string * E)
    (skip : nat) (s : string) (e : E) : string * E :=
  match skip, s with
  | S k, String _ s' => ReplaceAllFunc kw n f k s' e
  | S _, EmptyString => (EmptyString, e)
  | O, _ =>
      match match_at kw n s with
      | Some (_, rest) =>
          let len := String.length s - String.length rest in
          let '(r, e1) := f (str_take len s) e in
          match s with
          | EmptyString => (r, e1)
          | String _ s' =>
              let '(u, e2) := ReplaceAllFunc kw n f (pred len) s' e1 in (r +:+ u, e2)
          end
      | None =>
          match s with
          | EmptyString => (EmptyString, e)
          | String a s' => let '(u, e1) := ReplaceAllFunc kw n f 0 s' e in (String a u, e1)
          end
      end
  end.

(** ** Lemmas *)

Lemma str_app_cons a s t : String a s +:+ t = String a (s +:+ t).
Proof. done. Qed.

Lemma str_length_app s t : String.length (s +:+ t) = String.length s + String.length t.
Proof. induction s as [|a s IH]; [done|]. rewrite str_app_cons. simpl. by rewrite IH. Qed.

Lemma str_take_app s t : str_take (String.length s) (s +:+ t) = s.
Proof. induction s as [|a s IH]; [by destruct t|]. rewrite str_app_cons. simpl. by rewrite IH. Qed.

Lemma str_drop_app s t : str_drop (String.length s) (s +:+ t) = t.
Proof. induction s as [|a s IH]; [by destruct t|]. rewrite str_app_cons. simpl. by rewrite IH. Qed.

Lemma CutSuffix_app s suf : CutSuffix (s +:+ suf) suf = Some s.
Proof.
  unfold CutSuffix. rewrite str_length_app.
  replace (String.length s + String.length suf - String.length suf) with (String.length s) by lia.
  rewrite str_drop_app, str_take_app. by rewrite bool_decide_eq_true_2.
Qed.

(** The next character, if any, is not of the class. *)
Definition stops (P : ascii → bool) (s : string) : bool :=
  match s with EmptyString => true | String a _ => negb (P a) end.

Lemma span_app P u v : all_chars P u = true → stops P v = true → span P (u +:+ v) = (u, v).
Proof.
  intros Hu Hv. induction u as [|a u IH]; simpl in *.
  - destruct v as [|b v]; [done|]. simpl in *. by destruct (P b).
  - apply andb_true_iff in Hu as [Ha Hu]. rewrite Ha.
    change (String.append u v) with (u +:+ v). by rewrite (IH Hu).
Qed.

Lemma span1_app P u v :
  u ≠ "" → all_chars P u = true → stops P v = true → span1 P (u +:+ v) = Some (u, v).
Proof.
  intros Hne Hu Hv. unfold span1. rewrite span_app by done. by destruct u.
Qed.

Lemma fmt_d_nonempty n : (0 ≤ n)%Z → fmt_d n ≠ "".
Proof.
  intros Hn. unfold fmt_d. rewrite (proj2 (Z.ltb_ge _ _)) by lia.
  destruct (fmt_digits_S 19 n "") as (b & r & Hb). by rewrite Hb.
Qed.

Lemma digit_not_space a : is_digit a = true → is_re_space a = false.
Proof.
  unfold is_digit, is_re_space. generalize (nat_of_ascii a). intros n H.
  apply andb_true_iff in H as [H1 H2]. apply Nat.leb_le in H1, H2.
  rewrite !orb_false_iff, !Nat.eqb_neq. lia.
Qed.

Lemma space_not_digit a : is_re_space a = true → is_digit a = false.
Proof.
  destruct (is_digit a) eqn:H; [|done]. by rewrite (digit_not_space a H).
Qed.

(** The arguments of a template, each with the white space before it. *)
Fixpoint print_nums (args : list (string * Z)) : string :=
  match args with
  | [] => ""
  | (sp, n) :: rest => sp +:+ fmt_d n +:+ print_nums rest
  end.

Definition wf_arg (a : string * Z) : Prop :=
  a.1 ≠ "" ∧ all_chars is_re_space a.1 = true ∧ (0 ≤ a.2 < two63)%Z.

Lemma stops_space_digits n v : (0 ≤ n)%Z → stops is_re_space (fmt_d n +:+ v) = true.
Proof.
  intros Hn. pose proof (fmt_d_nonempty n Hn). pose proof (fmt_d_digits n Hn) as Hd.
  destruct (fmt_d n) as [|a u]; [done|]. simpl in *. apply andb_true_iff in Hd as [Ha _].
  by rewrite (digit_not_space a Ha).
Qed.

Lemma stops_digit_space sp v : sp ≠ "" → all_chars is_re_space sp = true →
  stops is_digit (sp +:+ v) = true.
Proof.
  intros Hne Hs. destruct sp as [|a sp]; [done|]. simpl in *. apply andb_true_iff in Hs as [Ha _].
  by rewrite (space_not_digit a Ha).
Qed.

Lemma match_nums_print args v :
  Forall wf_arg args → stops is_digit v = true →
  match_nums (length args) (print_nums args +:+ v) = Some (fmt_d ∘ snd <$> args, v).
Proof.
  intros Hwf. revert v. induction Hwf as [|[sp n] args (Hne & Hsp & Hn) Hwf IH]; intros v Hv; [done|].
  simpl in *. rewrite <- !string_app_assoc.
  rewrite span1_app by (try apply stops_space_digits; (done || lia)). simpl.
  rewrite span1_app; [|apply fmt_d_nonempty; lia|apply fmt_d_digits; lia|].
  - simpl. by rewrite IH.
  - destruct Hwf as [|[sp' n'] args' (Hne' & Hsp' & _) _]; simpl; [done|].
    rewrite <- string_app_assoc. by apply stops_digit_space.
Qed.

(** A template as the pattern matches it. *)
Definition print_tmpl (kw sp0 : string) (args : list (string * Z)) (sp1 : string) : string :=
  "{{" +:+ sp0 +:+ kw +:+ print_nums args +:+ sp1 +:+ "}}".

Definition letters (s : string) : bool :=
  match s with EmptyString => false | String a _ => negb (is_re_space a) end.

Lemma match_at_print kw sp0 args sp1 v :
  letters kw = true → all_chars is_re_space sp0 = true → all_chars is_re_space sp1 = true →
  Forall wf_arg args →
  match_at kw (length args) (print_tmpl kw sp0 args sp1 +:+ v) = Some (fmt_d ∘ snd <$> args, v).
Proof.
  intros Hkw H0 H1 Hargs. unfold match_at, print_tmpl. rewrite <- !string_app_assoc, CutPrefix_app. simpl.
  rewrite span_app; [|done|by destruct kw]. simpl. rewrite CutPrefix_app. simpl.
  rewrite match_nums_print; [|done|].
  - cbn [mbind option_bind]. rewrite (span_app is_re_space sp1 ("}}" +:+ v)) by done.
    done.
  - destruct sp1 as [|a sp1]; [done|]. by apply stops_digit_space.
Qed.

(** Another keyword does not match. *)
Lemma match_at_other kw kw' n sp0 args sp1 v :
  letters kw' = true → all_chars is_re_space sp0 = true →
  (∀ r, CutPrefix kw (kw' +:+ r) = None) →
  match_at kw n (print_tmpl kw' sp0 args sp1 +:+ v) = None.
Proof.
  intros Hkw H0 Hno. unfold match_at, print_tmpl. rewrite <- !string_app_assoc, CutPrefix_app. simpl.
  rewrite span_app; [|done|by destruct kw']. simpl. by rewrite Hno.
Qed.

Lemma match_at_no_brace kw n a s : a ≠ "{"%char → match_at kw n (String a s) = None.
Proof. intros Ha. unfold match_at. simpl. by rewrite decide_False. Qed.

Lemma match_at_one_brace kw n a s : a ≠ "{"%char → match_at kw n (String "{" (String a s)) = None.
Proof. intros Ha. unfold match_at. simpl. by rewrite decide_False. Qed.

Section replace.
Context {E : Type} (kw : string) (n : nat) (f : string → E → string * E).

Lemma ReplaceAll_skip p s e :
  ReplaceAllFunc kw n f (String.length p) (p +:+ s) e = ReplaceAllFunc kw n f 0 s e.
Proof. induction p as [|a p IH]; [by destruct s|]. rewrite str_app_cons. simpl. done. Qed.

Lemma ReplaceAll_cons a s e : match_at kw n (String a s) = None →
  ReplaceAllFunc kw n f 0 (String a s) e =
  (String a (ReplaceAllFunc kw n f 0 s e).1, (ReplaceAllFunc kw n f 0 s e).2).
Proof. intros H. cbn [ReplaceAllFunc]. rewrite H. by destruct (ReplaceAllFunc kw n f 0 s e). Qed.

(** Text without a brace is copied. *)
Lemma ReplaceAll_lit l s e : all_chars (neq_char "{") l = true →
  ReplaceAllFunc kw n f 0 (l +:+ s) e =
  (l +:+ (ReplaceAllFunc kw n f 0 s e).1, (ReplaceAllFunc kw n f 0 s e).2).
Proof.
  induction l as [|a l IH]; intros H; simpl in H; [apply surjective_pairing|].
  apply andb_true_iff in H as [Ha Hl]. unfold neq_char in Ha. case_bool_decide; [done|].
  rewrite !str_app_cons. rewrite ReplaceAll_cons.
  2: { by apply match_at_no_brace. }
  by rewrite (IH Hl).
Qed.

(** Two braces that start no match are copied with the text after them. *)
Lemma ReplaceAll_braces b u s e :
  all_chars (neq_char "{") (String b u) = true →
  match_at kw n (("{{" +:+ String b u) +:+ s) = None →
  ReplaceAllFunc kw n f 0 (("{{" +:+ String b u) +:+ s) e =
  (("{{" +:+ String b u) +:+ (ReplaceAllFunc kw n f 0 s e).1, (ReplaceAllFunc kw n f 0 s e).2).
Proof.
  intros Hu Hm. assert (Hb : b ≠ "{"%char).
  { simpl in Hu. apply andb_true_iff in Hu as [Hb _]. unfold neq_char in Hb. by case_bool_decide. }
  change (("{{" +:+ String b u) +:+ s) with (String "{" (String "{" (String b u +:+ s))) in *.
  rewrite ReplaceAll_cons by done.
  rewrite ReplaceAll_cons by (by apply match_at_one_brace).
  by rewrite ReplaceAll_lit.
Qed.

(** A match is handed whole to the callback. *)
Lemma ReplaceAll_match p a s e ds :
  match_at kw n (String a p +:+ s) = Some (ds, s) →
  ReplaceAllFunc kw n f 0 (String a p +:+ s) e =
  let '(r, e1) := f (String a p) e in
  (r +:+ (ReplaceAllFunc kw n f 0 s e1).1, (ReplaceAllFunc kw n f 0 s e1).2).
Proof.
  intros Hm. rewrite str_app_cons in *. cbn [ReplaceAllFunc]. rewrite Hm.
  replace (String.length (String a (p +:+ s)) - String.length s) with (String.length (String a p)).
  2: { simpl. rewrite str_length_app. lia. }
  rewrite <- str_app_cons, str_take_app. cbn [String.length Init.Nat.pred].
  destruct (f (String a p) e) as [r e1]. rewrite ReplaceAll_skip.
  by destruct (ReplaceAllFunc kw n f 0 s e1).
Qed.
End replace.

Lemma FindSubmatch_at kw n s ds r : match_at kw n s = Some (ds, r) → FindSubmatch kw n s = Some ds.
Proof. intros H. destruct s; cbn [FindSubmatch]; by rewrite H. Qed.

Lemma Contains_brace_free s : all_chars (neq_char "{") s = true → Contains s "{{" = false.
Proof.
  induction s as [|a s IH]; [done|]. simpl. intros H. apply andb_true_iff in H as [Ha Hs].
  rewrite (IH Hs), orb_false_r. unfold HasPrefix. simpl. unfold neq_char in Ha.
  case_bool_decide; [done|]. by rewrite decide_False.
Qed.

Lemma Contains_app_r s t sub : Contains t sub = true → Contains (s +:+ t) sub = true.
Proof.
  intros H. induction s as [|a s IH]; [done|]. rewrite str_app_cons. cbn [Contains].
  rewrite IH. apply orb_true_r.
Qed.

Lemma Contains_prefix sub s : Contains (sub +:+ s) sub = true.
Proof. destruct (sub +:+ s) eqn:H; cbn [Contains]; rewrite <- H, HasPrefix_app; done. Qed.

(** ** Joining a clean absolute path and a plain name *)

Lemma clean_comps_app r a b acc : clean_comps r (a ++ b) acc = clean_comps r b (clean_comps r a acc).
Proof.
  revert acc. induction a as [|p a IH]; intros acc; [done|]. cbn [app clean_comps].
  repeat case_decide; try apply IH. destruct acc as [|q acc]; [apply IH|]. case_decide; apply IH.
Qed.

Lemma Split_snoc p sep d : all_chars (neq_char sep) d = true →
  Split (p +:+ String sep d) sep = Split p sep ++ [d].
Proof.
  intros Hd. induction p as [|a p IH].
  - simpl. rewrite decide_True by done. by rewrite (Split_last d sep Hd).
  - rewrite str_app_cons. cbn [Split]. rewrite IH. case_decide; [done|].
    destruct (Split p sep) as [|q qs] eqn:Hs; [|done].
    exfalso. clear -Hs. destruct p; simpl in Hs; [done|]. case_decide; [done|]. by destruct (Split p sep).
Qed.

Lemma join_snoc sep l d : l ≠ [] → join_with sep (l ++ [d]) = join_with sep l +:+ sep +:+ d.
Proof.
  intros Hl. induction l as [|s l IH]; [done|]. destruct l as [|s' l]; [done|].
  change (join_with sep ((s :: s' :: l) ++ [d])) with (s +:+ sep +:+ join_with sep ((s' :: l) ++ [d])).
  rewrite IH by done. change (join_with sep (s :: s' :: l)) with (s +:+ sep +:+ join_with sep (s' :: l)).
  by rewrite <- !string_app_assoc.
Qed.

Definition plain_name (d : string) : Prop :=
  d ≠ "" ∧ d ≠ "." ∧ d ≠ ".." ∧ all_chars (neq_char "/") d = true.

Lemma path_Join_under p d : Clean p = p → is_rooted p = true → p ≠ "/" → plain_name d →
  path_Join [p; d] = p +:+ "/" +:+ d.
Proof.
  intros Hc Hr Hp (Hd0 & Hd1 & Hd2 & Hd). unfold path_Join. simpl.
  rewrite !bool_decide_eq_false_2 by (done || by intros ->). simpl.
  assert (Hr' : is_rooted (p +:+ "/" +:+ d) = true) by (by destruct p).
  unfold Clean in Hc |- *. rewrite Hr in Hc. rewrite Hr'. cbv zeta in *.
  change ("/" +:+ d) with (String "/" d). rewrite Split_snoc, clean_comps_app by done.
  cbn [clean_comps]. rewrite !decide_False by done. simpl rev.
  set (acc := clean_comps true (Split p "/") []) in *.
  rewrite join_snoc; [|].
  - change (String "/" (join_with "/" (rev acc) +:+ "/" +:+ d)) with (String "/" (join_with "/" (rev acc)) +:+ "/" +:+ d).
    by rewrite Hc.
  - intros Hacc. rewrite Hacc in Hc. simpl in Hc. congruence.
Qed.

Lemma fmt_d_plain n : (0 ≤ n)%Z → plain_name (fmt_d n).
Proof.
  intros Hn. pose proof (fmt_d_nonempty n Hn) as H0. pose proof (fmt_d_digits n Hn) as Hd.
  split_and!; [done|by intros Hx; rewrite Hx in Hd|by intros Hx; rewrite Hx in Hd|].
  revert Hd. apply all_chars_impl. intros a Ha. unfold neq_char. by case_bool_decide; subst.
Qed.

Lemma SplitN_last s sep n : all_chars (neq_char sep) s = true → SplitN s sep (S (S n)) = [s].
Proof.
  induction s as [|a s IH]; intros H; [done|]. simpl in H. apply andb_true_iff in H as [Ha Hs].
  unfold neq_char in Ha. case_bool_decide; [done|]. specialize (IH Hs).
  destruct s as [|b s']; cbn [SplitN] in IH |- *; rewrite decide_False by done; [done|]. by rewrite IH.
Qed.

Lemma ContainsAny_false s chars c : contains_byte chars c = true → ContainsAny s chars = false → all_chars (neq_char c) s = true.
Proof.
  intros Hc. induction s as [|a s IH]; simpl; [done|]. intros [Ha Hs]%orb_false_iff. rewrite IH by done. rewrite andb_true_r.
  unfold neq_char. rewrite bool_decide_eq_false_2; [done|]. intros ->. congruence.
Qed.

Lemma str_take_drop n s : str_take n s +:+ str_drop n s = s.
Proof. revert s. induction n as [|n IH]; intros [|a s]; [done..|]. cbn [str_take str_drop]. by rewrite str_app_cons, IH. Qed.

Lemma HasSuffix_app s suf : HasSuffix s suf = true → ∃ p, s = p +:+ suf.
Proof.
  unfold HasSuffix, CutSuffix. case_bool_decide as H; [|done]. intros _.
  exists (str_take (String.length s - String.length suf) s). by rewrite <- H at 2; rewrite str_take_drop.
Qed.

(** The last element of a path. *)
Lemma Base_snoc d n : n ≠ "" → all_chars (neq_char "/") n = true → Base (d +:+ String "/" n) = n.
Proof.
  intros Hn Hs. unfold Base. rewrite Split_snoc by done. destruct (d +:+ String "/" n) eqn:E; [by destruct d|].
  rewrite List.filter_app. cbn [List.filter]. rewrite bool_decide_eq_false_2 by done. cbn [negb]. by rewrite rev_unit.
Qed.
