(* ===== verification/GoURL.v ===== *)
(** [url.Parse] of Go's net/url, for what the program reads of it: the scheme and
    the path.  The authority of a [//] form is skipped, not validated. *)
From S2P Require Import Prelude GoStrings GoText.
From Stdlib Require Import Ascii.

Definition is_letter (c : ascii) : bool :=
  let n := nat_of_ascii c in
  ((65 <=? n)%nat && (n <=? 90)%nat) || ((97 <=? n)%nat && (n <=? 122)%nat).

Definition is_scheme_char (c : ascii) : bool :=
  is_digit c || bool_decide (c = "+"%char) || bool_decide (c = "-"%char) || bool_decide (c = "."%char).

(** [getScheme]: the text before the first colon when it is a scheme, [""] when
    there is none; an error for an empty one. *)
Fixpoint scheme_from (first : bool) (whole acc s : string) : res (string * string) :=
  match s with
  | EmptyString => Ok ("", whole)
  | String c s' =>
      if is_letter c then scheme_from false whole (acc +:+ String c EmptyString) s'
      else if is_scheme_char c then
        if first then Ok ("", whole) else scheme_from false whole (acc +:+ String c EmptyString) s'
      else if decide (c = ":"%char) then
        if first then Err (mkError ErrUnknown "missing protocol scheme") else Ok (ToLower acc, s')
      else Ok ("", whole)
  end.

Definition is_ctl (c : ascii) : bool :=
  let n := nat_of_ascii c in (n <? 32)%nat || (n =? 127)%nat.

Definition hex_val (c : ascii) : option nat :=
  let n := nat_of_ascii c in
  if is_digit c then Some (n - 48)
  else if (97 <=? n)%nat && (n <=? 102)%nat then Some (n - 87)
  else if (65 <=? n)%nat && (n <=? 70)%nat then Some (n - 55)
  else None.

(** Percent-decoding of a path. *)
Fixpoint unescape (s : string) : res string :=
  match s with
  | EmptyString => Ok EmptyString
  | String c s' =>
      if decide (c = "%"%char) then
        match s' with
        | String a (String b s'') =>
            match hex_val a, hex_val b with
            | Some x, Some y => let! r := unescape s'' in Ok (String (ascii_of_nat (16 * x + y)) r)
            | _, _ => Err (mkError ErrUnknown "invalid URL escape")
            end
        | _ => Err (mkError ErrUnknown "invalid URL escape")
        end
      else let! r := unescape s' in Ok (String c r)
  end.

(** What precedes the first [c]. *)
Fixpoint before (c : ascii) (s : string) : string :=
  match s with
  | EmptyString => EmptyString
  | String a s' => if decide (a = c) then EmptyString else String a (before c s')
  end.

Fixpoint from_slash (s : string) : string :=
  match s with
  | EmptyString => EmptyString
  | String a s' => if decide (a = "/"%char) then s else from_slash s'
  end.

Record URL := mkURL { u_Scheme : string; u_Path : string }.

Definition url_Parse (raw : string) : res URL :=
  let body := before "#" raw in
  if negb (all_chars (λ c, negb (is_ctl c)) body) then
    Err (mkError ErrUnknown "invalid control character in URL")
  else
    let! sr := scheme_from true body "" body in
    let rest := before "?" sr.2 in
    if negb (is_rooted rest) then
      if negb (bool_decide (sr.1 = "")) then Ok (mkURL sr.1 "")
      else if Contains (before "/" rest) ":" then
        Err (mkError ErrUnknown "first path segment in URL cannot contain colon")
      else let! p := unescape rest in Ok (mkURL "" p)
    else
      let path := if bool_decide (sr.1 = "") && HasPrefix rest "///" then rest
                  else match CutPrefix "//" rest with Some a => from_slash a | None => rest end in
      let! p := unescape path in Ok (mkURL sr.1 p).
