(* ===== verification/ShimState.v ===== *)
(** The shim's lifecycle state machine: internal/shim/lifecycle/state.go.

    [StateMachine] is the pair of atomics of the Go struct; every method is a
    [prog] of the atomic operations its body performs, in the order it performs
    them, so that the same definition gives both the sequential behaviour ([run])
    and the behaviour under concurrent RPC handlers ([pstep]). *)
From S2P Require Import Prelude Conc.

(** ** States *)

(** [ShimState] is an [int32] with six named values; [StateOther] holds any
    other one, on which the Go [switch]es take their [default] branch. *)
Inductive ShimState :=
  | StateIdle
  | StateCreating
  | StateCreated
  | StateRunning
  | StateShuttingDown
  | StateDeleting
  | StateOther (n : Z).

#[export] Instance ShimState_eq_dec : EqDecision ShimState.
Proof. solve_decision. Defined.

(** The [iota] numbering of the constants. *)
Definition int32_of_state (s : ShimState) : Z :=
  match s with
  | StateIdle => 0
  | StateCreating => 1
  | StateCreated => 2
  | StateRunning => 3
  | StateShuttingDown => 4
  | StateDeleting => 5
  | StateOther n => n
  end.

Definition state_of_int32 (n : Z) : ShimState :=
  if (n =? 0)%Z then StateIdle
  else if (n =? 1)%Z then StateCreating
  else if (n =? 2)%Z then StateCreated
  else if (n =? 3)%Z then StateRunning
  else if (n =? 4)%Z then StateShuttingDown
  else if (n =? 5)%Z then StateDeleting
  else StateOther n.

(** A state value the Go type can hold: no named value under [StateOther]. *)
Definition state_wf (s : ShimState) : Prop :=
  match s with StateOther n => ¬ (0 ≤ n ≤ 5)%Z | _ => True end.

Definition String_ (s : ShimState) : string :=
  match s with
  | StateIdle => "idle"
  | StateCreating => "creating"
  | StateCreated => "created"
  | StateRunning => "running"
  | StateShuttingDown => "shutting_down"
  | StateDeleting => "deleting"
  | StateOther n => "unknown(" +:+ pretty n +:+ ")"
  end.

(** ** The machine *)
Record StateMachine := mkSM {
  sm_state : ShimState;
  sm_intentionalShutdown : bool
}.

Definition NewStateMachine : StateMachine := mkSM StateIdle false.

(** Atomic operations on the two words. *)
Definition load (sm : StateMachine) : ShimState * StateMachine := (sm_state sm, sm).

Definition cas (from to : ShimState) (sm : StateMachine) : bool * StateMachine :=
  if decide (sm_state sm = from)
  then (true, mkSM to (sm_intentionalShutdown sm))
  else (false, sm).

Definition swap (to : ShimState) (sm : StateMachine) : ShimState * StateMachine :=
  (sm_state sm, mkSM to (sm_intentionalShutdown sm)).

Definition load_intentional (sm : StateMachine) : bool * StateMachine :=
  (sm_intentionalShutdown sm, sm).

Definition store_intentional (v : bool) (sm : StateMachine) : unit * StateMachine :=
  (tt, mkSM (sm_state sm) v).

Abbreviation smprog := (prog StateMachine).
Open Scope prog_scope.

Definition State : smprog ShimState := atomically load.
Definition IsIntentionalShutdown : smprog bool := atomically load_intentional.
Definition SetIntentionalShutdown (v : bool) : smprog unit := atomically (store_intentional v).

Definition isValidTransition (from to : ShimState) : bool :=
  if decide (to = StateShuttingDown) then true else
  match from with
  | StateIdle => bool_decide (to = StateCreating)
  | StateCreating => bool_decide (to = StateCreated) || bool_decide (to = StateIdle)
  | StateCreated => bool_decide (to = StateRunning) || bool_decide (to = StateShuttingDown)
  | StateRunning => bool_decide (to = StateDeleting) || bool_decide (to = StateShuttingDown)
  | StateDeleting => bool_decide (to = StateShuttingDown)
  | StateShuttingDown => false
  | StateOther _ => false
  end.

Definition NewStateTransitionError (from to current : string) : error :=
  mkError ErrInvalidStateTransition
    ("invalid state transition from " +:+ from +:+ " to " +:+ to
     +:+ " (current state: " +:+ current +:+ ")").

Definition Transition (from to : ShimState) : smprog (option error) :=
  if negb (isValidTransition from to) then
    current <- State ;;
    Ret (Some (NewStateTransitionError (String_ from) (String_ to) (String_ current)))
  else
    ok <- atomically (cas from to) ;;
    if negb ok then
      current <- State ;;
      Ret (Some (NewStateTransitionError (String_ from) (String_ to) (String_ current)))
    else Ret None.

Definition ForceTransition (to : ShimState) : smprog ShimState :=
  old <- atomically (swap to) ;; Ret old.

Definition TryStartCreating : smprog bool := atomically (cas StateIdle StateCreating).

Definition TryStartDeleting : smprog bool :=
  ok <- atomically (cas StateRunning StateDeleting) ;;
  if ok : bool then Ret true else atomically (cas StateCreated StateDeleting).

(** The shared shape of [MarkCreated], [MarkStarted] and [MarkCreationFailed]. *)
Definition mark (from to : ShimState) : smprog (option error) :=
  ok <- atomically (cas from to) ;;
  if negb ok then
    current <- State ;;
    Ret (Some (NewStateTransitionError (String_ from) (String_ to) (String_ current)))
  else Ret None.

Definition MarkCreated : smprog (option error) := mark StateCreating StateCreated.
Definition MarkStarted : smprog (option error) := mark StateCreated StateRunning.
Definition MarkCreationFailed : smprog (option error) := mark StateCreating StateIdle.

Definition is_state (st : ShimState) : smprog bool :=
  s <- State ;; Ret (bool_decide (s = st)).

Definition IsCreating := is_state StateCreating.
Definition IsDeleting := is_state StateDeleting.
Definition IsRunning := is_state StateRunning.
Definition IsCreatedNotStarted := is_state StateCreated.
Definition IsShuttingDown := is_state StateShuttingDown.

Definition CanAcceptRequests : smprog bool :=
  s <- State ;;
  Ret (bool_decide (s = StateRunning) || bool_decide (s = StateCreating)
       || bool_decide (s = StateCreated)).

Record StateSnapshot := mkSnap { snap_State : ShimState; snap_Intentional : bool }.

Definition Snapshot : smprog StateSnapshot :=
  s <- State ;; i <- IsIntentionalShutdown ;; Ret (mkSnap s i).

(** ** The state graph *)

(** The edges the shim's state word may take: the lifecycle, with shutdown
    reachable from everywhere. *)
Inductive edge : ShimState → ShimState → Prop :=
  | e_start_create : edge StateIdle StateCreating
  | e_created : edge StateCreating StateCreated
  | e_create_failed : edge StateCreating StateIdle
  | e_started : edge StateCreated StateRunning
  | e_delete_created : edge StateCreated StateDeleting
  | e_delete_running : edge StateRunning StateDeleting
  | e_shutdown s : edge s StateShuttingDown.
#[export] Hint Constructors edge : spinbox.

(** One atomic action on the machine either leaves the state word alone or takes
    an edge. *)
Definition sm_rel (s s' : StateMachine) : Prop :=
  sm_state s' = sm_state s ∨ edge (sm_state s) (sm_state s').

(** The methods the RPC handlers call concurrently; [ForceTransition] only ever
    with the shutting-down state, as in service.go. *)
Inductive call :=
  | CTransition (from to : ShimState)
  | CForceShutdown
  | CTryStartCreating
  | CTryStartDeleting
  | CMarkCreated
  | CMarkStarted
  | CMarkCreationFailed
  | CSetIntentional (v : bool)
  | CSnapshot
  | CCanAccept.

Inductive reply :=
  | RErr (e : option error)
  | RState (s : ShimState)
  | RBool (b : bool)
  | RUnit
  | RSnap (s : StateSnapshot).

Definition pmap {S A B} (f : A → B) (p : prog S A) : prog S B := pbind p (λ a, Ret (f a)).

Definition body (c : call) : smprog reply :=
  match c with
  | CTransition from to => pmap RErr (Transition from to)
  | CForceShutdown => pmap RState (ForceTransition StateShuttingDown)
  | CTryStartCreating => pmap RBool TryStartCreating
  | CTryStartDeleting => pmap RBool TryStartDeleting
  | CMarkCreated => pmap RErr MarkCreated
  | CMarkStarted => pmap RErr MarkStarted
  | CMarkCreationFailed => pmap RErr MarkCreationFailed
  | CSetIntentional v => pmap (λ _, RUnit) (SetIntentionalShutdown v)
  | CSnapshot => pmap RSnap Snapshot
  | CCanAccept => pmap RBool CanAcceptRequests
  end.

(** ** Lemmas *)

Lemma cas_true from to sm : sm_state sm = from →
  cas from to sm = (true, mkSM to (sm_intentionalShutdown sm)).
Proof. intros H. unfold cas. by rewrite decide_True. Qed.

Lemma cas_false from to sm : sm_state sm ≠ from → cas from to sm = (false, sm).
Proof. intros H. unfold cas. by rewrite decide_False. Qed.

Lemma valid_edge from to : isValidTransition from to = true → edge from to.
Proof.
  unfold isValidTransition. case_decide; [intros _; subst; constructor|].
  destruct from; intros H'; try done; repeat case_bool_decide; subst;
    try done; constructor.
Qed.

Lemma sm_rel_refl s : sm_rel s s.
Proof. by left. Qed.
#[export] Hint Resolve sm_rel_refl valid_edge : spinbox.

Lemma sm_rel_cas from to s : edge from to → sm_rel s (cas from to s).2.
Proof. intros He. unfold cas. case_decide; [right; by subst|apply sm_rel_refl]. Qed.
#[export] Hint Resolve sm_rel_cas : spinbox.

Lemma body_guar c : guar sm_rel (body c).
Proof.
  destruct c; simpl; unfold Transition, mark, TryStartDeleting; simpl;
    try destruct (isValidTransition from to) eqn:Hv; simpl;
    repeat match goal with
      | |- _ ∧ _ => split
      | |- ∀ _, _ => intros ?
      | |- guar _ (pbind (if ?b then _ else _) _) => destruct b; simpl
      | |- guar _ (if ?b then _ else _) => destruct b; simpl
      | |- guar _ (pmap _ (if ?b then _ else _)) => destruct b; simpl
      end; eauto with spinbox.
  all: try (right; simpl; constructor).
  all: try (left; reflexivity).
  all: try (match goal with |- context[if ?b then _ else _] => destruct b end; simpl; eauto with spinbox).
Qed.

Lemma pool_bodies cs : pool_guar sm_rel (map body cs).
Proof. apply Forall_forall. intros p (c & <- & _)%list_elem_of_In%in_map_iff. apply body_guar. Qed.

(** ** Theorems *)

Lemma pool_edges cs s s' ts :
  rtc pstep (s, map body cs) (s', ts) →
  rtc edge (sm_state s) (sm_state s').
Proof.
  intros Hs. pose proof (pool_rtc sm_rel (s, map body cs) (s', ts) (pool_bodies cs) Hs) as H. simpl in H.
  clear Hs. induction H as [|x y z [He|He] _ IH]; [constructor| |].
  - by rewrite He in IH.
  - by eapply rtc_l.
Qed.

Lemma edge_from_shutdown s : edge StateShuttingDown s → s = StateShuttingDown.
Proof. by inversion 1. Qed.

Theorem shutdown_terminal cs s s' ts :
  sm_state s = StateShuttingDown →
  rtc pstep (s, map body cs) (s', ts) →
  sm_state s' = StateShuttingDown.
Proof.
  intros Hs Hr. apply pool_edges in Hr.
  revert Hr. rewrite Hs. intros Hr.
  apply (rtc_invariant edge (λ s, s = StateShuttingDown) StateShuttingDown); eauto.
  intros x y -> He. by apply edge_from_shutdown.
Qed.

Theorem Transition_spec from to sm :
  run (Transition from to) sm =
    if decide (isValidTransition from to = true ∧ sm_state sm = from)
    then (None, mkSM to (sm_intentionalShutdown sm))
    else (Some (NewStateTransitionError (String_ from) (String_ to) (String_ (sm_state sm))), sm).
Proof.
  unfold Transition. case_decide as H.
  - destruct H as [-> Hs]. simpl. by rewrite (cas_true _ _ _ Hs).
  - destruct (isValidTransition from to) eqn:Hv; simpl; [|done].
    rewrite cas_false by (intros ?; by apply H). done.
Qed.

(** *** Deletion is exclusive *)

(** What is left of a [TryStartDeleting] call at each of its points. *)
Definition del_point (p : smprog reply) : Prop :=
  p = body CTryStartDeleting
  ∨ p = pmap RBool (atomically (cas StateCreated StateDeleting))
  ∨ ∃ b, p = Ret (RBool b).

Definition residual (c : call) (p : smprog reply) : Prop :=
  match c with CTryStartDeleting => del_point p | _ => guar sm_rel p end.

Definition winner (cs : list call) (ts : list (smprog reply)) (i : nat) : Prop :=
  cs !! i = Some CTryStartDeleting ∧ ts !! i = Some (Ret (RBool true)).

Definition past_delete (s : StateMachine) : Prop :=
  sm_state s = StateDeleting ∨ sm_state s = StateShuttingDown.

Record del_inv (cs : list call) (c : StateMachine * list (smprog reply)) : Prop := {
  di_resid : Forall2 residual cs c.2;
  di_unique : ∀ i j, winner cs c.2 i → winner cs c.2 j → i = j;
  di_past : ∀ i, winner cs c.2 i → past_delete c.1
}.

Lemma past_delete_closed s s' : sm_rel s s' → past_delete s → past_delete s'.
Proof.
  unfold past_delete. intros [->|He] Hp; [done|].
  destruct Hp as [Hp|Hp]; rewrite Hp in He; inversion He; auto.
Qed.

Lemma winner_insert cs ts i j p :
  winner cs (<[i:=p]> ts) j → (j = i ∧ p = Ret (RBool true)) ∨ winner cs ts j.
Proof.
  intros [Hc Ht]. apply list_lookup_insert_Some in Ht.
  destruct Ht as [(-> & -> & _)|[_ Ht]]; [by left|right; by split].
Qed.

(** A step that completes no deletion keeps the invariant. *)
Lemma del_inv_quiet cs s ts s' i p c :
  del_inv cs (s, ts) → cs !! i = Some c → residual c p → sm_rel s s' →
  p ≠ Ret (RBool true) ∨ c ≠ CTryStartDeleting →
  del_inv cs (s', <[i:=p]> ts).
Proof.
  intros [Hr Hu Hp] Hc Hres Hrel Hq.
  assert (Hw : ∀ j, winner cs (<[i:=p]> ts) j → winner cs ts j).
  { intros j Hj. destruct (winner_insert _ _ _ _ _ Hj) as [[-> Hpt]|]; [|done].
    destruct Hj as [Hj _]. rewrite Hc in Hj. simplify_eq. by destruct Hq. }
  split; simpl.
  - rewrite <- (list_insert_id cs i c) by done. by apply Forall2_insert.
  - eauto.
  - intros j Hj. eapply past_delete_closed; eauto.
Qed.

(** A step that wins the deletion does so from a state in which nobody had. *)
Lemma del_inv_win cs s ts i v :
  del_inv cs (s, ts) → cs !! i = Some CTryStartDeleting → ¬ past_delete s →
  del_inv cs (mkSM StateDeleting v, <[i:=Ret (RBool true)]> ts).
Proof.
  intros [Hr Hu Hp] Hc Hn. simpl in *.
  assert (Hnone : ∀ j, ¬ winner cs ts j) by (intros j Hj; by apply Hn, (Hp j)).
  assert (Hw : ∀ j, winner cs (<[i:=Ret (RBool true)]> ts) j → j = i).
  { intros j Hj. destruct (winner_insert _ _ _ _ _ Hj) as [[-> _]|H]; [done|].
    by destruct (Hnone j). }
  split; simpl.
  - rewrite <- (list_insert_id cs i CTryStartDeleting) by done.
    apply Forall2_insert; [done|]. right; right; eauto.
  - intros j k Hj Hk. by rewrite (Hw _ Hj), (Hw _ Hk).
  - intros j _. by left.
Qed.
#[export] Hint Resolve sm_rel_refl : spinbox.

Lemma del_inv_cas cs s ts i from b s' k :
  del_inv cs (s, ts) → cs !! i = Some CTryStartDeleting →
  edge from StateDeleting → cas from StateDeleting s = (b, s') →
  (∀ b, k b = if b : bool then Ret (RBool true) else k false) →
  residual CTryStartDeleting (k false) → k false ≠ Ret (RBool true) →
  del_inv cs (s', <[i:=k b]> ts).
Proof.
  intros Hinv Hc He Hcas Hk Hres Hne. unfold cas in Hcas. case_decide as Hs; simplify_eq.
  - rewrite Hk. apply (del_inv_win cs s); [done|done|].
    intros [H|H]; rewrite H in He; inversion He.
  - eapply del_inv_quiet; eauto with spinbox.
Qed.

Lemma del_inv_step cs c c' : del_inv cs c → pstep c c' → del_inv cs c'.
Proof.
  intros Hinv Hs. destruct c as [s ts].
  destruct (pstep_sched1 _ _ _ Hs) as (i & p & Hi & ->).
  unfold sched1; simpl; rewrite Hi.
  destruct (Forall2_lookup_r _ _ _ _ _ (di_resid _ _ Hinv) Hi) as (c & Hc & Hres).
  assert (Hother : guar sm_rel p → (∀ q, guar sm_rel q → residual c q) →
            c ≠ CTryStartDeleting → del_inv cs (sched1 i (s, ts))).
  { intros Hg Hq Hne. unfold sched1; simpl; rewrite Hi. destruct p as [|B f k]; [done|].
    destruct Hg as [HR Hk]. specialize (HR s). destruct (f s) as [b s'] eqn:Hf.
    eapply del_inv_quiet; eauto. }
  unfold sched1 in Hother; simpl in Hother; rewrite Hi in Hother.
  destruct c; try (apply Hother; [exact Hres|by intros q Hq|done]).
  clear Hother. destruct Hres as [->|[->|[b ->]]]; simpl.
  - destruct (cas StateRunning StateDeleting s) as [b s'] eqn:Hf.
    eapply (del_inv_cas _ _ _ _ _ _ _ (λ a : bool, pmap RBool (if a then Ret true else _)) Hinv Hc e_delete_running Hf);
      [by intros []| |done]. right; left; done.
  - destruct (cas StateCreated StateDeleting s) as [b s'] eqn:Hf.
    eapply (del_inv_cas _ _ _ _ _ _ _ (λ a : bool, Ret (RBool a)) Hinv Hc e_delete_created Hf);
      [by intros []| |done]. right; right; eauto.
  - done.
Qed.

Lemma del_inv_init cs s : del_inv cs (s, map body cs).
Proof.
  assert (Hw : ∀ i, ¬ winner cs (map body cs) i).
  { intros i [Hc Ht]. rewrite list_lookup_fmap, Hc in Ht. simpl in Ht. done. }
  split; simpl.
  - apply Forall2_fmap_r, Forall_Forall2_diag, Forall_true. intros c.
    destruct c; try apply body_guar. by left.
  - intros i j Hi. by destruct (Hw i).
  - intros i Hi. by destruct (Hw i).
Qed.

Theorem delete_exclusive cs s s' ts i j :
  rtc pstep (s, map body cs) (s', ts) →
  winner cs ts i → winner cs ts j → i = j ∧ past_delete s'.
Proof.
  intros Hr Hi Hj.
  assert (Hinv : del_inv cs (s', ts)).
  { revert Hr. apply rtc_invariant; [apply del_inv_step|apply del_inv_init]. }
  split; [by eapply di_unique|by eapply (di_past _ _ Hinv)].
Qed.

(** *** The refusal race *)
Theorem try_start_deleting_race v :
  ∃ c', rtc pstep (mkSM StateCreated v, [body CTryStartDeleting; body CMarkStarted]) c'
    ∧ sm_state c'.1 = StateRunning
    ∧ map done_with c'.2 = [Some (RBool false); Some (RErr None)].
Proof.
  exists (sched [0; 1; 0]%nat (mkSM StateCreated v, [body CTryStartDeleting; body CMarkStarted])).
  split; [apply sched_steps|]. by vm_compute.
Qed.

(** ** Witnesses *)

Lemma shutdown_terminal_witness :
  sm_state (sched [0; 0; 1; 1]%nat (mkSM StateShuttingDown false,
              map body [CTransition StateShuttingDown StateIdle; CTryStartCreating])).1
  = StateShuttingDown.
Proof.
  pose proof (sched_steps [0; 0; 1; 1]%nat (mkSM StateShuttingDown false,
    map body [CTransition StateShuttingDown StateIdle; CTryStartCreating])) as Hr.
  destruct (sched _ _) as [s' ts] eqn:E. simpl.
  exact (shutdown_terminal _ (mkSM StateShuttingDown false) s' ts eq_refl Hr).
Defined.

Lemma delete_exclusive_witness :
  ∃ c, rtc pstep (mkSM StateRunning false, map body [CTryStartDeleting; CTryStartDeleting]) c
    ∧ winner [CTryStartDeleting; CTryStartDeleting] c.2 0
    ∧ ∀ j, winner [CTryStartDeleting; CTryStartDeleting] c.2 j → 0%nat = j ∧ past_delete c.1.
Proof.
  set (c := sched [0; 1; 1]%nat (mkSM StateRunning false, map body [CTryStartDeleting; CTryStartDeleting])).
  pose proof (sched_steps [0; 1; 1]%nat
    (mkSM StateRunning false, map body [CTryStartDeleting; CTryStartDeleting]) : rtc pstep _ c) as Hr.
  assert (Hw : winner [CTryStartDeleting; CTryStartDeleting] c.2 0) by (split; vm_compute; reflexivity).
  exists c. split; [exact Hr|]. split; [exact Hw|]. intros j Hj.
  destruct c as [s' ts]. exact (delete_exclusive _ _ s' ts 0 j Hr Hw Hj).
Defined.

(** The state word under concurrent method calls: the graph of [edge]. *)
Theorem state_moves_along_lifecycle cs s s' ts :
  rtc pstep (s, map body cs) (s', ts) → rtc edge (sm_state s) (sm_state s').
Proof. apply pool_edges. Qed.

Lemma state_moves_along_lifecycle_witness :
  rtc edge StateIdle (sm_state (sched [0; 1; 0; 1]%nat
    (NewStateMachine, map body [CTryStartCreating; CMarkCreated])).1).
Proof.
  pose proof (sched_steps [0; 1; 0; 1]%nat (NewStateMachine, map body [CTryStartCreating; CMarkCreated])) as Hr.
  destruct (sched _ _) as [s' ts] eqn:E. exact (state_moves_along_lifecycle _ NewStateMachine s' ts Hr).
Defined.
