(* ===== verification/Cleanup.v ===== *)
(** Shutdown errors and the cleanup orchestrator:
    internal/shim/lifecycle/errors.go and internal/shim/lifecycle/cleanup.go.

    A cleanup function acts on a world [W] (the VM, the network, the mounts, the
    event channel: whatever the registered closures touch) and may fail; a nil
    function is [None].  The orchestrator is the list of its phases with their
    [done] flags. *)
From S2P Require Import Prelude.

(** ** Shutdown phases and errors *)

(** [ShutdownPhase] is a Go string type with seven constants. *)
Definition ShutdownPhase := string.
Definition PhaseHotplugStop : ShutdownPhase := "hotplug_stop".
Definition PhaseIOShutdown : ShutdownPhase := "io_shutdown".
Definition PhaseConnClose : ShutdownPhase := "connection_close".
Definition PhaseVMShutdown : ShutdownPhase := "vm_shutdown".
Definition PhaseNetworkCleanup : ShutdownPhase := "network_cleanup".
Definition PhaseMountCleanup : ShutdownPhase := "mount_cleanup".
Definition PhaseEventClose : ShutdownPhase := "event_close".

#[export] Instance ShutdownPhase_eq_dec : EqDecision ShutdownPhase.
Proof. unfold ShutdownPhase. apply _. Defined.

Record ShutdownError := NewShutdownError { se_Phase : ShutdownPhase; se_Err : error }.

Definition ShutdownError_Error (e : ShutdownError) : string :=
  "shutdown failed at " +:+ se_Phase e +:+ ": " +:+ emsg (se_Err e).

Record ShutdownResult := mkResult { sr_Errors : list ShutdownError }.

Definition Add (r : ShutdownResult) (phase : ShutdownPhase) (err : option error)
    : ShutdownResult :=
  match err with
  | Some e => mkResult (sr_Errors r ++ [NewShutdownError phase e])
  | None => r
  end.

Definition HasErrors (r : ShutdownResult) : bool :=
  bool_decide (0 < length (sr_Errors r)).

Fixpoint Join (sep : string) (l : list string) : string :=
  match l with
  | [] => ""
  | [s] => s
  | s :: l' => s +:+ sep +:+ Join sep l'
  end.

Definition Result_Error (r : ShutdownResult) : string :=
  if negb (HasErrors r) then ""
  else "shutdown completed with errors: " +:+ Join "; " (map ShutdownError_Error (sr_Errors r)).

Definition AsError (r : ShutdownResult) : option error :=
  if negb (HasErrors r) then None else Some (mkError ErrUnknown (Result_Error r)).

Definition FailedPhases (r : ShutdownResult) : list ShutdownPhase :=
  map se_Phase (sr_Errors r).

(** ** The orchestrator *)

Section orchestrator.
Context {W : Type}.

Definition CleanupFunc : Type := W → option error * W.

Record cleanupPhase := mkPhase {
  ph_name : ShutdownPhase;
  ph_fn : option CleanupFunc;
  ph_done : bool
}.

Definition CleanupOrchestrator := list cleanupPhase.

Record CleanupPhases := mkPhases {
  cp_HotplugStop : option CleanupFunc;
  cp_IOShutdown : option CleanupFunc;
  cp_ConnClose : option CleanupFunc;
  cp_VMShutdown : option CleanupFunc;
  cp_NetworkCleanup : option CleanupFunc;
  cp_MountCleanup : option CleanupFunc;
  cp_EventClose : option CleanupFunc
}.

Definition phaseOrder : list ShutdownPhase :=
  [ PhaseHotplugStop; PhaseIOShutdown; PhaseConnClose; PhaseVMShutdown;
    PhaseNetworkCleanup; PhaseMountCleanup; PhaseEventClose ].

Definition NewCleanupOrchestrator (p : CleanupPhases) : CleanupOrchestrator :=
  [ mkPhase PhaseHotplugStop (cp_HotplugStop p) false;
    mkPhase PhaseIOShutdown (cp_IOShutdown p) false;
    mkPhase PhaseConnClose (cp_ConnClose p) false;
    mkPhase PhaseVMShutdown (cp_VMShutdown p) false;
    mkPhase PhaseNetworkCleanup (cp_NetworkCleanup p) false;
    mkPhase PhaseMountCleanup (cp_MountCleanup p) false;
    mkPhase PhaseEventClose (cp_EventClose p) false ].

(** The body of the loop of [executeFrom], for the phases from the current index
    on: the result so far, the phases with their flags, the world. *)
Fixpoint exec_phases (ps : list cleanupPhase) (r : ShutdownResult) (w : W)
    : ShutdownResult * list cleanupPhase * W :=
  match ps with
  | [] => (r, [], w)
  | p :: ps' =>
      match ph_fn p, ph_done p with
      | None, _ | _, true =>
          let '(r', ps'', w') := exec_phases ps' r w in (r', p :: ps'', w')
      | Some fn, false =>
          let '(err, w1) := fn w in
          let '(r', ps'', w') := exec_phases ps' (Add r (ph_name p) err) w1 in
          (r', mkPhase (ph_name p) (ph_fn p) true :: ps'', w')
      end
  end.

Definition executeFrom (c : CleanupOrchestrator) (startIdx : nat) (w : W)
    : ShutdownResult * CleanupOrchestrator * W :=
  let '(r, ps, w') := exec_phases (drop startIdx c) (mkResult []) w in
  (r, take startIdx c ++ ps, w').

Definition Execute (c : CleanupOrchestrator) (w : W) := executeFrom c 0 w.

(** [slices.Index]: the position of the first equal element, or -1 ([None]). *)
Fixpoint slices_Index (l : list ShutdownPhase) (x : ShutdownPhase) : option nat :=
  match l with
  | [] => None
  | y :: l' => if decide (y = x) then Some 0 else S <$> slices_Index l' x
  end.

Definition ExecutePartial (c : CleanupOrchestrator) (startPhase : ShutdownPhase) (w : W) :=
  executeFrom c (default 0 (slices_Index phaseOrder startPhase)) w.

Definition Reset (c : CleanupOrchestrator) : CleanupOrchestrator :=
  map (λ p, mkPhase (ph_name p) (ph_fn p) false) c.

Definition CompletedPhases (c : CleanupOrchestrator) : list ShutdownPhase :=
  map ph_name (List.filter ph_done c).

(** ** Reference behaviour *)

Definition runnable (p : cleanupPhase) : bool :=
  match ph_fn p with Some _ => negb (ph_done p) | None => false end.

(** Run the runnable phases one after the other, whatever fails, and keep the
    errors in order. *)
Fixpoint run_all (ps : list cleanupPhase) (w : W) : list ShutdownError * W :=
  match ps with
  | [] => ([], w)
  | p :: ps' =>
      match ph_fn p with
      | None => run_all ps' w
      | Some fn =>
          let '(err, w1) := fn w in
          let '(es, w2) := run_all ps' w1 in
          (match err with Some e => NewShutdownError (ph_name p) e :: es | None => es end, w2)
      end
  end.

Definition settle (p : cleanupPhase) : cleanupPhase :=
  if runnable p then mkPhase (ph_name p) (ph_fn p) true else p.

Lemma exec_phases_spec ps r w :
  exec_phases ps r w =
    let '(es, w') := run_all (List.filter runnable ps) w in
    (mkResult (sr_Errors r ++ es), map settle ps, w').
Proof.
  revert r w. induction ps as [|[n f d] ps IH]; intros r w.
  { simpl. rewrite app_nil_r. by destruct r. }
  destruct f as [fn|]; [destruct d|]; simpl;
    [rewrite IH; by destruct (run_all _ _) as [es w2]| |
     rewrite IH; by destruct (run_all _ _) as [es w2]].
  destruct (fn w) as [err w1]. rewrite IH.
  destruct (run_all (List.filter runnable ps) w1) as [es w2].
  destruct err; simpl; [|done]. by rewrite <- app_assoc.
Qed.

Lemma executeFrom_spec c n w :
  executeFrom c n w =
    let '(es, w') := run_all (List.filter runnable (drop n c)) w in
    (mkResult es, take n c ++ map settle (drop n c), w').
Proof.
  unfold executeFrom. rewrite exec_phases_spec.
  by destruct (run_all _ _) as [es w'].
Qed.

Lemma settle_not_runnable p : runnable (settle p) = false.
Proof. unfold settle. destruct (runnable p) eqn:H; [|done]. destruct p as [n [f|] d]; done. Qed.

Lemma settled_none_runnable ps : List.filter runnable (map settle ps) = [].
Proof.
  apply filter_all_false, Forall_forall.
  intros p (q & <- & _)%list_elem_of_In%in_map_iff. apply settle_not_runnable.
Qed.

Lemma run_all_names ps w :
  map se_Phase (run_all ps w).1 `sublist_of` map ph_name ps.
Proof.
  revert w. induction ps as [|[n [fn|] d] ps IH]; intros w; simpl.
  - constructor.
  - destruct (fn w) as [err w1]. specialize (IH w1).
    destruct (run_all ps w1) as [es w2]. by destruct err; simpl in *; constructor.
  - constructor. apply IH.
Qed.

Lemma new_runnable p :
  map ph_name (List.filter runnable (NewCleanupOrchestrator p)) `sublist_of` phaseOrder.
Proof.
  destruct p as [[]  [] [] [] [] [] []]; simpl; repeat constructor.
Qed.

(** ** Theorems *)

Theorem Execute_runs_all_in_order p w :
  Execute (NewCleanupOrchestrator p) w =
    let ps := List.filter runnable (NewCleanupOrchestrator p) in
    let '(es, w') := run_all ps w in
    (mkResult es, map settle (NewCleanupOrchestrator p), w').
Proof. unfold Execute. by rewrite executeFrom_spec. Qed.

Theorem Execute_completes_registered p w :
  let '(r, c, _) := Execute (NewCleanupOrchestrator p) w in
  CompletedPhases c = map ph_name (List.filter runnable (NewCleanupOrchestrator p))
  ∧ CompletedPhases c `sublist_of` phaseOrder
  ∧ FailedPhases r `sublist_of` CompletedPhases c.
Proof.
  unfold Execute. rewrite executeFrom_spec, drop_0.
  pose proof (run_all_names (List.filter runnable (NewCleanupOrchestrator p)) w) as Hn.
  destruct (run_all _ _) as [es w']. simpl fst in Hn.
  assert (Hc : CompletedPhases (take 0 (NewCleanupOrchestrator p) ++ map settle (NewCleanupOrchestrator p))
               = map ph_name (List.filter runnable (NewCleanupOrchestrator p))).
  { by destruct p as [[]  [] [] [] [] [] []]. }
  rewrite Hc. split_and!; [done|apply new_runnable|done].
Qed.

Theorem Execute_idempotent c w :
  let '(_, c1, w1) := Execute c w in
  Execute c1 w1 = (mkResult [], c1, w1).
Proof.
  unfold Execute. rewrite executeFrom_spec, drop_0, take_0.
  destruct (run_all _ _) as [es w1]. cbn [app].
  rewrite executeFrom_spec, drop_0, settled_none_runnable, take_0. simpl. f_equal. f_equal.
  rewrite map_map. apply map_ext. intros p.
  unfold settle at 1. by rewrite settle_not_runnable.
Qed.

(** The phases [runDeleteCleanup] passes: the VM, the network and the mounts. *)
Theorem delete_order vm net mnt w :
  let p := mkPhases None None None (Some vm) (Some net) (Some mnt) None in
  let '(r, c, w') := ExecutePartial (NewCleanupOrchestrator p) PhaseVMShutdown w in
  let '(e1, w1) := vm w in
  let '(e2, w2) := net w1 in
  let '(e3, w3) := mnt w2 in
  w' = w3
  ∧ CompletedPhases c = [PhaseVMShutdown; PhaseNetworkCleanup; PhaseMountCleanup]
  ∧ (AsError r = None ↔ e1 = None ∧ e2 = None ∧ e3 = None).
Proof.
  unfold ExecutePartial, executeFrom; simpl.
  destruct (vm w) as [e1 w1]. destruct (net w1) as [e2 w2]. destruct (mnt w2) as [e3 w3].
  split_and!; [done|done|].
  destruct e1, e2, e3; unfold AsError; simpl; split; first [done|by intros (? & ? & ?)].
Qed.

Lemma Reset_runs_again c w :
  (Execute (Reset c) w).1.1 =
    mkResult (run_all (List.filter (λ p, if ph_fn p is Some _ then true else false) (Reset c)) w).1.
Proof.
  unfold Execute. rewrite executeFrom_spec, drop_0.
  assert (List.filter runnable (Reset c)
    = List.filter (λ p, if ph_fn p is Some _ then true else false) (Reset c)) as ->.
  { unfold Reset. induction c as [|[n [f|] d] c IH]; simpl; by rewrite ?IH. }
  by destruct (run_all _ _).
Qed.
End orchestrator.
Arguments CleanupFunc : clear implicits.
Arguments CleanupPhases : clear implicits.
Arguments CleanupOrchestrator : clear implicits.
