(* ===== verification/Process.v ===== *)
(** Guest processes: internal/guest/vminit/process/{state,init,exec,utils}.go.

    [initProc] and [execProc] are the fields of [Init] and [execProcess] that
    their methods read or write; the OCI runtime, the console socket and the
    kernel are not part of this repository, so each method that calls them takes
    their answers as an argument.  Closing a closed channel is a run-time panic,
    so methods that close [waitBlock] return an [out]. *)
From S2P Require Import Prelude GoStrings.

(** ** Process states *)
Inductive State :=
  | StateCreated
  | StateRunning
  | StateStopped
  | StateDeleted.

#[export] Instance State_eq_dec : EqDecision State.
Proof. solve_decision. Defined.

Definition State_String (s : State) : string :=
  match s with
  | StateCreated => "created"
  | StateRunning => "running"
  | StateStopped => "stopped"
  | StateDeleted => "deleted"
  end.

Definition validTransitions (s : State) : list State :=
  match s with
  | StateCreated => [StateRunning; StateStopped; StateDeleted]
  | StateRunning => [StateStopped]
  | StateStopped => [StateDeleted]
  | StateDeleted => []
  end.

Definition canTransition (from to : State) : bool :=
  existsb (λ valid, bool_decide (valid = to)) (validTransitions from).

Definition errorw (k : errkind) (msg : string) : error := mkError k msg.

(** [transition] of both machines: the new state, or an error and no change. *)
Definition transition (cur to : State) : res State :=
  if negb (canTransition cur to)
  then Err (errorf ("invalid state transition " +:+ State_String cur +:+ " to " +:+ State_String to))
  else Ok to.

(** [setExited]'s forced state when [transition] refuses: the log line apart. *)
Definition to_stopped (cur : State) : State :=
  match transition cur StateStopped with Ok s => s | Err _ => StateStopped end.

Definition checkKillError (err : option error) : option error :=
  match err with
  | None => None
  | Some e =>
      if Contains (emsg e) "os: process already finished"
         || Contains (emsg e) "container not running"
         || Contains (ToLower (emsg e)) "no such process"
         || bool_decide (ekind e = Errno ESRCH)
      then Some (errorw ErrNotFound "process already finished: not found")
      else if Contains (emsg e) "does not exist"
      then Some (errorw ErrNotFound "no such container: not found")
      else Some (wrap "unknown error after kill" e)
  end.

(** [runtimeError]: a nil error stays nil; otherwise the class of the runtime's
    own error is kept only when its log gives no message. *)
Definition runtimeError (lastMsg : res string) (rErr : option error) (msg : string)
    : option error :=
  match rErr with
  | None => None
  | Some e =>
      match lastMsg with
      | Err le => Some (mkError (ekind e)
          (msg +:+ ": unable to retrieve OCI runtime error (" +:+ emsg le +:+ "): " +:+ emsg e))
      | Ok rMsg =>
          if decide (rMsg = "") then Some (wrap msg e)
          else Some (errorf (msg +:+ ": " +:+ rMsg))
      end
  end.

(** What the OCI runtime answered to one command: its error, and the last error
    message of its log, which [getLastRuntimeError] reads only on failure. *)
Record rtAnswer := mkRt { rt_err : option error; rt_log : res string }.

(** ** The init process *)

Record initProc := mkInit {
  i_state : State;
  i_status : Z;
  i_exited : option Z;            (** [exited]; the zero time is [None] *)
  i_pid : Z;
  i_waitBlock : bool;             (** [waitBlock] is closed *)
  i_runtime : bool;               (** [runtime] is not nil *)
  i_io : option bool              (** [io]: nil, or open ([true]) / closed *)
}.

Definition New (runtime : bool) : initProc := mkInit StateCreated 0 None 0 false runtime None.

Definition i_with_state (p : initProc) (s : State) : initProc :=
  mkInit s (i_status p) (i_exited p) (i_pid p) (i_waitBlock p) (i_runtime p) (i_io p).

Definition i_with_io (p : initProc) (io : option bool) : initProc :=
  mkInit (i_state p) (i_status p) (i_exited p) (i_pid p) (i_waitBlock p) (i_runtime p) io.

Definition i_with_pid (p : initProc) (pid : Z) : initProc :=
  mkInit (i_state p) (i_status p) (i_exited p) pid (i_waitBlock p) (i_runtime p) (i_io p).

Definition not_initialized : error := errorf "runtime not initialized".

(** [Init.start] *)
Definition i_start (rt : rtAnswer) (p : initProc) : option error :=
  if negb (i_runtime p) then Some not_initialized
  else runtimeError (rt_log rt) (rt_err rt) "OCI runtime start failed".

(** [Init.setExited] at time [now] *)
Definition i_setExited (now status : Z) (p : initProc) : out initProc :=
  if i_waitBlock p then Panic "close of closed channel"
  else Val (mkInit (i_state p) status (Some now) (i_pid p) true (i_runtime p) (i_io p)).

(** [Init.delete]: [rt] is the runtime's answer, [um] the rootfs unmount's. *)
Definition i_delete (rt : rtAnswer) (um : option error) (p : initProc) : option error * initProc :=
  if negb (i_runtime p) then (Some not_initialized, p)
  else
    let err :=
      match rt_err rt with
      | None => None
      | Some e => if Contains (emsg e) "does not exist" then None
                  else runtimeError (rt_log rt) (Some e) "failed to delete task"
      end in
    let p' := match i_io p with Some _ => i_with_io p (Some false) | None => p end in
    match um with
    | Some e2 => (match err with None => Some (wrap "failed rootfs umount" e2) | _ => err end, p')
    | None => (err, p')
    end.

(** [Init.kill] *)
Definition i_kill (rt : option error) (p : initProc) : option error :=
  if negb (i_runtime p) then Some not_initialized else checkKillError rt.

(** The state machine's methods, which [Init]'s exported methods call under its
    mutex. *)
Definition init_Start (rt : rtAnswer) (p : initProc) : option error * initProc :=
  match i_state p with
  | StateCreated =>
      match i_start rt p with
      | Some e => (Some e, p)
      | None =>
          match transition StateCreated StateRunning with
          | Ok s => (None, i_with_state p s)
          | Err e => (Some e, p)
          end
      end
  | StateRunning => (Some (errorf "cannot start a running process"), p)
  | StateStopped => (Some (errorf "cannot start a stopped process"), p)
  | StateDeleted => (Some (errorf "cannot start a deleted process"), p)
  end.

Definition init_Delete (rt : rtAnswer) (um : option error) (p : initProc) : option error * initProc :=
  match i_state p with
  | StateCreated | StateStopped =>
      match i_delete rt um p with
      | (Some e, p') => (Some e, p')
      | (None, p') =>
          match transition (i_state p') StateDeleted with
          | Ok s => (None, i_with_state p' s)
          | Err e => (Some e, p')
          end
      end
  | StateRunning => (Some (errorf "cannot delete a running process"), p)
  | StateDeleted => (Some (errorw ErrNotFound "cannot delete a deleted process: not found"), p)
  end.

Definition init_Kill (rt : option error) (p : initProc) : option error :=
  match i_state p with
  | StateCreated | StateRunning | StateStopped => i_kill rt p
  | StateDeleted => Some (errorw ErrNotFound "cannot kill a deleted process: not found")
  end.

Definition init_SetExited (now status : Z) (p : initProc) : out initProc :=
  match i_state p with
  | StateCreated | StateRunning =>
      out_bind (i_setExited now status p) (λ p', Val (i_with_state p' (to_stopped (i_state p'))))
  | StateStopped | StateDeleted => Val p
  end.

(** ** The exec process *)

Record execProc := mkExec {
  x_state : State;
  x_status : Z;
  x_exited : option Z;
  x_pid : Z;
  x_waitBlock : bool;
  x_terminal : bool;
  x_io : option bool;
  x_runtime : bool                (** the parent and its runtime are set *)
}.

Definition x_with_state (p : execProc) (s : State) : execProc :=
  mkExec s (x_status p) (x_exited p) (x_pid p) (x_waitBlock p) (x_terminal p) (x_io p) (x_runtime p).

Definition x_with_io (p : execProc) (io : option bool) : execProc :=
  mkExec (x_state p) (x_status p) (x_exited p) (x_pid p) (x_waitBlock p) (x_terminal p) io (x_runtime p).

(** [Init.exec]: the JSON process spec parses or not. *)
Definition i_exec (spec : option error) (terminal : bool) (p : initProc) : res execProc :=
  match spec with
  | Some e => Err e
  | None => Ok (mkExec StateCreated 0 None 0 false terminal None (i_runtime p))
  end.

Definition init_Exec (spec : option error) (terminal : bool) (p : initProc) : res execProc :=
  match i_state p with
  | StateCreated | StateRunning => i_exec spec terminal p
  | StateStopped => Err (errorf "cannot exec in a stopped state")
  | StateDeleted => Err (errorf "cannot exec in a deleted state")
  end.

Definition init_Update (rt : option error) (p : initProc) : option error :=
  match i_state p with
  | StateCreated | StateRunning => rt
  | StateStopped => Some (errorf "cannot update a stopped container")
  | StateDeleted => Some (errorf "cannot update a deleted process")
  end.

(** What the environment answers while a process is created or an exec starts: setting up the console
    socket or the pipes, the runtime's command, the console master, the console
    or pipe copy, the pid file. *)
Record startEnv := mkStartEnv {
  se_setup : option error;
  se_exec : rtAnswer;
  se_master : option error;       (** [ReceiveMaster], with a terminal only *)
  se_copy : option error;
  se_pidfile : res Z
}.

(** Runtime commands issued by [Init.Create]. *)
Inductive rcall := RtCreate | RtDeleteForce.

(** [Init.Create]: its error, the process, the runtime commands in order.  The
    deferred function deletes the container when a step after the runtime's
    create fails; the pipes are closed on any later error. *)
Definition i_Create (terminal : bool) (env : startEnv) (p : initProc)
    : option error * initProc * list rcall :=
  match se_setup env with
  | Some e =>
      (Some (wrap (if terminal then "failed to create OCI runtime console socket"
                   else "failed to create init process I/O") e), p, [])
  | None =>
      let p1 := if terminal then p else i_with_io p (Some true) in
      let closed := if terminal then p1 else i_with_io p1 (Some false) in
      match runtimeError (rt_log (se_exec env)) (rt_err (se_exec env)) "OCI runtime create failed" with
      | Some e => (Some e, closed, [RtCreate])
      | None =>
          match (if terminal then se_master env else None), se_copy env, se_pidfile env with
          | Some e, _, _ =>
              (Some (wrap "failed to retrieve console master" e), closed, [RtCreate; RtDeleteForce])
          | None, Some e, _ =>
              (Some (wrap (if terminal then "failed to start console copy"
                           else "failed to start io pipe copy") e), closed, [RtCreate; RtDeleteForce])
          | None, None, Err e =>
              (Some (wrap "failed to retrieve OCI runtime container pid" e), closed,
               [RtCreate; RtDeleteForce])
          | None, None, Ok pid => (None, i_with_pid p1 pid, [RtCreate])
          end
      end
  end.

Definition x_close_io (p : execProc) : execProc :=
  match x_io p with Some _ => x_with_io p (Some false) | None => p end.

(** [execProcess.start] *)
Definition x_start (env : startEnv) (p : execProc) : out (option error * execProc) :=
  if negb (x_runtime p)
  then Val (Some (errorf "parent process or runtime not initialized"), p)
  else
    match se_setup env with
    | Some e =>
        Val (Some (wrap (if x_terminal p then "failed to create runc console socket"
                         else "failed to create init process I/O") e), p)
    | None =>
        let p1 := if x_terminal p then p else x_with_io p (Some true) in
        let fail (e : error) (q : execProc) : out (option error * execProc) :=
          Val (Some e, if x_terminal p then q else x_close_io q) in
        match rt_err (se_exec env) with
        | Some e =>
            if x_waitBlock p1 then Panic "close of closed channel"
            else
              let p2 := mkExec (x_state p1) (x_status p1) (x_exited p1) (x_pid p1) true
                          (x_terminal p1) (x_io p1) (x_runtime p1) in
              Val (runtimeError (rt_log (se_exec env)) (Some e) "OCI runtime exec failed",
                   if x_terminal p then p2 else x_close_io p2)
        | None =>
            match (if x_terminal p then se_master env else None), se_copy env, se_pidfile env with
            | Some e, _, _ => fail (wrap "failed to retrieve console master" e) p1
            | None, Some e, _ =>
                fail (wrap (if x_terminal p then "failed to start console copy"
                            else "failed to start io pipe copy") e) p1
            | None, None, Err e => fail (wrap "failed to retrieve OCI runtime exec pid" e) p1
            | None, None, Ok pid =>
                Val (None, mkExec (x_state p1) (x_status p1) (x_exited p1) pid (x_waitBlock p1)
                             (x_terminal p1) (x_io p1) (x_runtime p1))
            end
        end
    end.

Definition x_setExited (now status : Z) (p : execProc) : out execProc :=
  if x_waitBlock p then Panic "close of closed channel"
  else Val (mkExec (x_state p) status (Some now) (x_pid p) true (x_terminal p) (x_io p) (x_runtime p)).

(** [execProcess.delete] cannot fail: the pid file's removal is best effort. *)
Definition x_delete (p : execProc) : option error * execProc := (None, x_close_io p).

Definition x_kill (kr : option error) (p : execProc) : option error :=
  if decide (x_pid p = 0%Z) then Some (errorw ErrFailedPrecondition "process not created: failed precondition")
  else match x_exited p with
       | Some _ => Some (errorw ErrNotFound "process already finished: not found")
       | None => match kr with
                 | Some e => match checkKillError (Some e) with
                             | Some e' => Some (wrap "exec kill error" e')
                             | None => None
                             end
                 | None => None
                 end
       end.

Definition exec_Start (env : startEnv) (p : execProc) : out (option error * execProc) :=
  match x_state p with
  | StateCreated =>
      out_bind (x_start env p) (λ '(err, p'),
        match err with
        | Some e => Val (Some e, p')
        | None =>
            match transition (x_state p') StateRunning with
            | Ok s => Val (None, x_with_state p' s)
            | Err e => Val (Some e, p')
            end
        end)
  | StateRunning => Val (Some (errorf "cannot start a running process"), p)
  | StateStopped => Val (Some (errorf "cannot start a stopped process"), p)
  | StateDeleted => Val (Some (errorf "cannot start a deleted process"), p)
  end.

Definition exec_Delete (p : execProc) : option error * execProc :=
  match x_state p with
  | StateCreated | StateStopped =>
      match x_delete p with
      | (Some e, p') => (Some e, p')
      | (None, p') =>
          match transition (x_state p') StateDeleted with
          | Ok s => (None, x_with_state p' s)
          | Err e => (Some e, p')
          end
      end
  | StateRunning => (Some (errorf "cannot delete a running process"), p)
  | StateDeleted => (Some (errorw ErrNotFound "cannot delete a deleted process: not found"), p)
  end.

Definition exec_Kill (kr : option error) (p : execProc) : option error :=
  match x_state p with
  | StateCreated | StateRunning | StateStopped => x_kill kr p
  | StateDeleted => Some (errorw ErrNotFound "cannot kill a deleted process: not found")
  end.

Definition exec_SetExited (now status : Z) (p : execProc) : out execProc :=
  match x_state p with
  | StateCreated | StateRunning =>
      out_bind (x_setExited now status p) (λ p', Val (x_with_state p' (to_stopped (x_state p'))))
  | StateStopped | StateDeleted => Val p
  end.

Definition exec_Resize (rt : option error) (p : execProc) : option error :=
  match x_state p with
  | StateCreated | StateRunning => rt
  | StateStopped => Some (errorf "cannot resize a stopped container")
  | StateDeleted => Some (errorf "cannot resize a deleted process")
  end.

(** ** Runs of a process *)

Inductive iop :=
  | IStart (rt : rtAnswer)
  | IDelete (rt : rtAnswer) (um : option error)
  | IKill (rt : option error)
  | ISetExited (now status : Z)
  | IExec (spec : option error) (terminal : bool)
  | IUpdate (rt : option error).

Definition iexec (o : iop) (p : initProc) : out initProc :=
  match o with
  | IStart rt => Val (init_Start rt p).2
  | IDelete rt um => Val (init_Delete rt um p).2
  | IKill _ | IExec _ _ | IUpdate _ => Val p
  | ISetExited now st => init_SetExited now st p
  end.

Fixpoint iruns (os : list iop) (p : initProc) : out initProc :=
  match os with
  | [] => Val p
  | o :: os' => out_bind (iexec o p) (iruns os')
  end.

Inductive xop :=
  | XStart (env : startEnv)
  | XDelete
  | XKill (kr : option error)
  | XSetExited (now status : Z)
  | XResize (rt : option error).

Definition xexec (o : xop) (p : execProc) : out execProc :=
  match o with
  | XStart env => out_bind (exec_Start env p) (λ r, Val r.2)
  | XDelete => Val (exec_Delete p).2
  | XKill _ | XResize _ => Val p
  | XSetExited now st => exec_SetExited now st p
  end.

Fixpoint xruns (os : list xop) (p : execProc) : out execProc :=
  match os with
  | [] => Val p
  | o :: os' => out_bind (xexec o p) (xruns os')
  end.

(** Closed exactly when an exit was recorded, and recorded exactly in the
    stopped state until deletion. *)
Definition init_inv (p : initProc) : Prop :=
  (i_waitBlock p = true ↔ is_Some (i_exited p))
  ∧ match i_state p with
    | StateCreated | StateRunning => i_waitBlock p = false
    | StateStopped => i_waitBlock p = true
    | StateDeleted => True
    end.

Definition can_step (s s' : State) : Prop := s = s' ∨ canTransition s s' = true.

(** ** Lemmas *)

Lemma i_delete_state rt um p e p' : i_delete rt um p = (e, p') →
  i_state p' = i_state p ∧ i_waitBlock p' = i_waitBlock p ∧ i_exited p' = i_exited p
  ∧ i_status p' = i_status p.
Proof. unfold i_delete. intros H. go_cases; done. Qed.

Lemma init_inv_eq p p' :
  i_state p' = i_state p → i_waitBlock p' = i_waitBlock p → i_exited p' = i_exited p →
  init_inv p → init_inv p'.
Proof. unfold init_inv. by intros -> -> ->. Qed.

(** What one operation preserves: the invariant, the transition table, and an
    exit once it is recorded. *)
Definition istep_ok (p p' : initProc) : Prop :=
  init_inv p' ∧ can_step (i_state p) (i_state p')
  ∧ (is_Some (i_exited p) → i_exited p' = i_exited p ∧ i_status p' = i_status p).

Lemma istep_ok_refl p : init_inv p → istep_ok p p.
Proof. intros H. split_and!; [done|by left|done]. Qed.

Lemma init_Start_ok rt p : init_inv p → istep_ok p (init_Start rt p).2.
Proof.
  intros Hp. unfold init_Start.
  destruct (i_state p) eqn:Hst; try by apply istep_ok_refl.
  destruct (i_start rt p); [by apply istep_ok_refl|].
  destruct Hp as [Hw Hs]. rewrite Hst in Hs.
  split_and!; [by split|rewrite Hst; by right|done].
Qed.

Lemma init_Delete_ok rt um p : init_inv p → istep_ok p (init_Delete rt um p).2.
Proof.
  intros Hp. unfold init_Delete.
  assert (Hgo : i_state p = StateCreated ∨ i_state p = StateStopped →
    istep_ok p (match i_delete rt um p with
      | (Some e, p') => (Some e, p')
      | (None, p') => match transition (i_state p') StateDeleted with
                      | Ok s => (None, i_with_state p' s) | Err e => (Some e, p') end
      end).2).
  { intros Hst. destruct (i_delete rt um p) as [e p'] eqn:Hd.
    apply i_delete_state in Hd as (H1 & H2 & H3 & H4).
    assert (Hp' : init_inv p') by (by eapply init_inv_eq).
    destruct e as [e|]; simpl; [split_and!; [done|left; by rewrite H1|by rewrite H3, H4]|].
    assert (transition (i_state p') StateDeleted = Ok StateDeleted) as ->
      by (rewrite H1; by destruct Hst as [-> | ->]).
    destruct Hp' as [Hw _]. split_and!; simpl; [by split| |by rewrite H3, H4].
    right. by destruct Hst as [-> | ->]. }
  destruct (i_state p) eqn:Hst; try by apply istep_ok_refl. all: apply Hgo; auto.
Qed.

Lemma init_SetExited_ok now st p : init_inv p →
  ∃ p', init_SetExited now st p = Val p' ∧ istep_ok p p'.
Proof.
  intros Hp. pose proof Hp as [Hw Hs]. unfold init_SetExited, i_setExited.
  destruct (i_state p) eqn:Hst; try (eexists; split; [done|by apply istep_ok_refl]).
  all: rewrite Hs; simpl; eexists; split; [done|].
  all: split_and!; [by split; simpl; [split; eauto|]|unfold can_step; rewrite Hst; by right|simpl].
  all: intros Hex; apply Hw in Hex; congruence.
Qed.

Lemma iexec_inv o p : init_inv p → ∃ p', iexec o p = Val p' ∧ istep_ok p p'.
Proof.
  intros Hp. destruct o; simpl;
    eauto using istep_ok_refl, init_Start_ok, init_Delete_ok, init_SetExited_ok.
Qed.

Lemma iruns_inv os p : init_inv p →
  ∃ p', iruns os p = Val p' ∧ init_inv p' ∧ rtc can_step (i_state p) (i_state p')
    ∧ (is_Some (i_exited p) → i_exited p' = i_exited p ∧ i_status p' = i_status p).
Proof.
  revert p. induction os as [|o os IH]; intros p Hp; simpl.
  { exists p. split_and!; [done|done|constructor|done]. }
  destruct (iexec_inv o p Hp) as (p1 & -> & (Hp1 & Hc1 & He1)).
  destruct (IH p1 Hp1) as (p2 & Hr & Hp2 & Hc2 & He2). simpl.
  exists p2. split_and!; [done|done|by eapply rtc_l|].
  intros Hex. destruct (He1 Hex) as [H1 H1']. rewrite <- H1 in Hex.
  destruct (He2 Hex) as [H2 H2']. by rewrite H2, H2', H1.
Qed.

Lemma New_inv rt : init_inv (New rt).
Proof. split; simpl; [|done]. split; [done|by intros []]. Qed.

(** ** Theorems *)

(** Any sequence of operations on a new init process keeps its invariant and
    moves its state only along the allowed transitions, without a panic. *)
Theorem init_lifecycle os rt :
  ∃ p, iruns os (New rt) = Val p ∧ init_inv p ∧ rtc can_step StateCreated (i_state p).
Proof. destruct (iruns_inv os (New rt) (New_inv rt)) as (p & ? & ? & ? & _). eauto. Qed.

Theorem init_exit_recorded_once os1 os2 rt p :
  iruns os1 (New rt) = Val p → is_Some (i_exited p) →
  ∃ p', iruns os2 p = Val p' ∧ i_exited p' = i_exited p ∧ i_status p' = i_status p.
Proof.
  intros H Hex. destruct (iruns_inv os1 (New rt) (New_inv rt)) as (p0 & H0 & Hinv & _ & _).
  rewrite H in H0. simplify_eq.
  destruct (iruns_inv os2 p0 Hinv) as (p' & ? & _ & _ & He). destruct (He Hex). eauto.
Qed.

Theorem init_Create_leaves_no_container terminal env p :
  let '(err, p', calls) := i_Create terminal env p in
  match err with
  | None => calls = [RtCreate] ∧ se_pidfile env = Ok (i_pid p')
  | Some _ => (RtCreate ∉ calls ∨ rt_err (se_exec env) ≠ None ∨ RtDeleteForce ∈ calls)
              ∧ (terminal = false → i_io p' = i_io p ∨ i_io p' = Some false)
  end.
Proof.
  unfold i_Create. destruct (se_setup env); [split; [left; set_solver|auto]|].
  destruct (runtimeError _ _ _) as [e|] eqn:Hrt.
  { split; [right; left|intros ->; by right].
    intros Hn. rewrite Hn in Hrt. done. }
  repeat (case_match; simplify_eq/=); try done.
  all: split; [right; right; set_solver|by intros; auto].
Qed.

(** *** The exec process *)

(** An exec whose [waitBlock] is still open in the states whose operations close it. *)
Definition exec_inv (p : execProc) : Prop :=
  match x_state p with
  | StateCreated | StateRunning => x_waitBlock p = false
  | _ => True
  end.

Definition xop_no_exec_failure (o : xop) : Prop :=
  match o with XStart env => rt_err (se_exec env) = None | _ => True end.

Lemma x_start_open env p : rt_err (se_exec env) = None →
  ∃ e p', x_start env p = Val (e, p') ∧ x_state p' = x_state p ∧ x_waitBlock p' = x_waitBlock p.
Proof.
  intros He. unfold x_start. rewrite He. unfold x_close_io, x_with_io.
  go_cases; eexists _, _; split_and!; try done.
Qed.

Lemma xexec_inv o p : exec_inv p → xop_no_exec_failure o →
  ∃ p', xexec o p = Val p' ∧ exec_inv p' ∧ can_step (x_state p) (x_state p').
Proof.
  intros Hp Ho. unfold exec_inv in Hp.
  destruct o as [env| |kr|now st|rt]; simpl in *; try (exists p; split_and!; [done|done|by left]).
  - unfold exec_Start. destruct (x_state p) eqn:Hst;
      try (exists p; simpl; split_and!; [done|by unfold exec_inv; rewrite Hst|left; by rewrite Hst]).
    destruct (x_start_open env p Ho) as (e & p' & -> & H1 & H2). simpl.
    destruct e as [e|]; simpl.
    + exists p'. unfold exec_inv. rewrite H1, Hst, H2. split_and!; [done|done|by left].
    + rewrite H1, Hst. simpl. eexists; split_and!; [done|by unfold exec_inv; simpl; rewrite H2|by right].
  - unfold exec_Delete, x_delete. destruct (x_state p) eqn:Hst;
      try (exists p; simpl; split_and!; [done|by unfold exec_inv; rewrite Hst|left; by rewrite Hst]).
    all: assert (Hc : x_state (x_close_io p) = x_state p) by (unfold x_close_io; by destruct (x_io p)).
    all: rewrite Hc, Hst; eexists; split_and!; [done|done|by right].
  - unfold exec_SetExited, x_setExited. destruct (x_state p) eqn:Hst;
      try (exists p; simpl; split_and!; [done|by unfold exec_inv; rewrite Hst|left; by rewrite Hst]).
    all: rewrite Hp; simpl; eexists; split_and!; [done|done|by right].
Qed.

Theorem exec_lifecycle os p :
  x_state p = StateCreated → x_waitBlock p = false → Forall xop_no_exec_failure os →
  ∃ p', xruns os p = Val p' ∧ exec_inv p' ∧ rtc can_step StateCreated (x_state p').
Proof.
  intros Hst Hw Hos. assert (Hp : exec_inv p) by (unfold exec_inv; by rewrite Hst).
  rewrite <- Hst. clear Hst Hw. revert p Hp.
  induction Hos as [|o os Ho Hos IH]; intros p Hp; simpl.
  { exists p. split_and!; [done|done|constructor]. }
  destruct (xexec_inv o p Hp Ho) as (p1 & -> & Hp1 & Hc1).
  destruct (IH p1 Hp1) as (p2 & ? & ? & ?). exists p2. split_and!; eauto with spinbox.
Qed.

Theorem exec_start_failure_poisons env p e :
  x_state p = StateCreated → x_runtime p = true → x_waitBlock p = false →
  se_setup env = None → rt_err (se_exec env) = Some e →
  ∃ err p', exec_Start env p = Val (Some err, p') ∧ x_state p' = StateCreated
    ∧ exec_Start env p' = Panic "close of closed channel"
    ∧ (∀ now st, exec_SetExited now st p' = Panic "close of closed channel").
Proof.
  intros Hst Hrt Hw Hs He.
  assert (∃ err, runtimeError (rt_log (se_exec env)) (Some e) "OCI runtime exec failed" = Some err)
    as [err Herr].
  { unfold runtimeError. destruct (rt_log (se_exec env)); [case_decide|]; eauto. }
  set (q := if x_terminal p then p else x_with_io p (Some true)).
  assert (Hq : x_waitBlock q = false ∧ x_state q = StateCreated ∧ x_runtime q = true)
    by (subst q; by destruct (x_terminal p)).
  destruct Hq as (Hq1 & Hq2 & Hq3).
  eexists err, _. split.
  { unfold exec_Start, x_start. rewrite Hst, Hrt, Hs, He. cbn [negb]. cbv zeta. fold q.
    rewrite Hq1, Herr. cbn [out_bind]. done. }
  set (p' := if x_terminal p then _ else _).
  assert (Hp' : x_waitBlock p' = true ∧ x_state p' = StateCreated ∧ x_runtime p' = true).
  { subst p'. unfold x_close_io; simpl. by destruct (x_terminal p), (x_io q). }
  destruct Hp' as (Hp1 & Hp2 & Hp3). split_and!; [done| |].
  - unfold exec_Start, x_start. rewrite Hp2, Hp3, Hs, He. simpl.
    destruct (x_terminal p'); simpl; by rewrite Hp1.
  - intros now st. unfold exec_SetExited, x_setExited. by rewrite Hp2, Hp1.
Qed.

(** ** Witnesses *)

Definition rt_ok : rtAnswer := mkRt None (Ok "").
Definition env_good : startEnv := mkStartEnv None rt_ok None None (Ok 11%Z).
Definition env_bad : startEnv :=
  mkStartEnv None (mkRt (Some (mkError ErrUnknown "exec")) (Ok "boom")) None None (Ok 11%Z).
Definition new_exec : execProc := mkExec StateCreated 0 None 0 false false None true.

Lemma init_exit_recorded_once_witness :
  ∃ p, iruns [IStart rt_ok; ISetExited 5 3] (New true) = Val p
    ∧ ∃ p', iruns [ISetExited 9 1; IDelete rt_ok None; ISetExited 8 2] p = Val p' ∧ i_status p' = i_status p.
Proof.
  eexists. split; [vm_compute; reflexivity|].
  destruct (init_exit_recorded_once [IStart rt_ok; ISetExited 5 3]
    [ISetExited 9 1; IDelete rt_ok None; ISetExited 8 2] true
    (mkInit StateStopped 3 (Some 5%Z) 0 true true None)) as (p' & H1 & _ & H2);
    [vm_compute; reflexivity|by eexists|]. eauto.
Defined.

Lemma exec_lifecycle_witness :
  ∃ p', xruns [XStart env_good; XKill None; XSetExited 7 0; XDelete] new_exec = Val p' ∧ exec_inv p'.
Proof.
  destruct (exec_lifecycle [XStart env_good; XKill None; XSetExited 7 0; XDelete] new_exec)
    as (p' & H1 & H2 & _); [reflexivity|reflexivity|repeat constructor|]. eauto.
Defined.

Lemma exec_start_failure_poisons_witness :
  ∃ err p', exec_Start env_bad new_exec = Val (Some err, p')
    ∧ exec_Start env_bad p' = Panic "close of closed channel".
Proof.
  destruct (exec_start_failure_poisons env_bad new_exec (mkError ErrUnknown "exec"))
    as (err & p' & H1 & _ & H2 & _); [reflexivity|reflexivity|reflexivity|reflexivity|reflexivity|]. eauto.
Defined.
