(* ===== verification/ExitTracker.v ===== *)
(** The guest's exit tracker and the exit path of its task service:
    internal/guest/vminit/task/exit_tracker.go and .../task/events.go.

    Containers are the pointers the Go maps are keyed by; a subscription is a
    heap object, because the caller keeps reading its [exits] after the detector
    has dropped it; a waiter channel is a heap cell that is open or closed.  A
    method of a component is one function, its Go body running under the component's
    mutex; a method of the tracker or the service takes several locks one after the
    other, and is a goroutine of Conc with an action per lock. *)
From S2P Require Import Prelude Conc.

Definition cont := nat.           (** a [*runc.Container] *)

(** [process.Process]: which object, its ID, and [IsInit()]. *)
Record proc := mkProc { p_ref : nat; p_ID : string; p_isInit : bool }.

(** [runcC.Exit] *)
Record Exit := mkExit { ex_Pid : Z; ex_Status : Z }.

Record containerProcess := mkCP { cp_Container : cont; cp_Process : proc }.

#[export] Instance proc_eq_dec : EqDecision proc.
Proof. solve_decision. Defined.
#[export] Instance cp_eq_dec : EqDecision containerProcess.
Proof. solve_decision. Defined.
#[export] Instance Exit_eq_dec : EqDecision Exit.
Proof. solve_decision. Defined.

(** ** Early exit detection *)

Record earlyExitSubscription := mkSub {
  sub_id : Z;
  sub_exits : gmap Z (list Exit)
}.

Record earlyExitDetector := mkDetector {
  d_nextSubID : Z;                       (** uint64 *)
  d_subscriptions : gmap Z nat;          (** id -> subscription object *)
  d_heap : list earlyExitSubscription    (** the objects, by address *)
}.

Definition newEarlyExitDetector : earlyExitDetector := mkDetector 0 ∅ [].

Definition det_subscribe (d : earlyExitDetector) : nat * earlyExitDetector :=
  let subID := uint64_wrap (d_nextSubID d + 1) in
  let ref := length (d_heap d) in
  (ref, mkDetector subID (<[subID := ref]> (d_subscriptions d)) (d_heap d ++ [mkSub subID ∅])).

Definition sub_append (e : Exit) (s : earlyExitSubscription) : earlyExitSubscription :=
  mkSub (sub_id s) (<[ex_Pid e := default [] (sub_exits s !! ex_Pid e) ++ [e]]> (sub_exits s)).

Definition det_notifyExit (e : Exit) (d : earlyExitDetector) : earlyExitDetector :=
  mkDetector (d_nextSubID d) (d_subscriptions d)
    (foldl (λ h ref, alter (sub_append e) ref h) (d_heap d) (map_to_list (d_subscriptions d)).*2).

Definition det_remove (id : Z) (d : earlyExitDetector) : earlyExitDetector :=
  mkDetector (d_nextSubID d) (delete id (d_subscriptions d)) (d_heap d).

(** [complete] and [cancel] of the subscription at address [ref]. *)
Definition sub_complete (ref : nat) (pid : Z) (d : earlyExitDetector)
    : list Exit * earlyExitDetector :=
  match d_heap d !! ref with
  | Some s => (default [] (sub_exits s !! pid), det_remove (sub_id s) d)
  | None => ([], d)
  end.

Definition sub_cancel (ref : nat) (d : earlyExitDetector) : earlyExitDetector :=
  match d_heap d !! ref with
  | Some s => det_remove (sub_id s) d
  | None => d
  end.

(** ** Exit coordination *)

Record containerExitState := mkCES {
  runningExecs : Z;
  execWaiter : option nat;         (** the waiter channel's address *)
  initExit : option Exit
}.

Record exitCoordinator := mkCoord {
  co_containers : gmap cont containerExitState;
  co_chans : list bool             (** waiter channels by address; [true] = closed *)
}.

Definition newExitCoordinator : exitCoordinator := mkCoord ∅ [].

Definition getOrCreateState (c : cont) (co : exitCoordinator) : containerExitState :=
  default (mkCES 0 None None) (co_containers co !! c).

Definition put_state (c : cont) (s : containerExitState) (co : exitCoordinator) : exitCoordinator :=
  mkCoord (<[c := s]> (co_containers co)) (co_chans co).

Definition incrementExecCount (c : cont) (co : exitCoordinator) : exitCoordinator :=
  let s := getOrCreateState c co in
  put_state c (mkCES (runningExecs s + 1) (execWaiter s) (initExit s)) co.

Definition stashInitExit (c : cont) (e : Exit) (co : exitCoordinator) : exitCoordinator :=
  let s := getOrCreateState c co in
  put_state c (mkCES (runningExecs s) (execWaiter s) (Some e)) co.

(** [(false, nil)] is [None]; [(true, ch)] is [Some ch]. *)
Definition shouldDelayInitExit (c : cont) (co : exitCoordinator) : option nat * exitCoordinator :=
  match co_containers co !! c with
  | None => (None, co)
  | Some s =>
      if (runningExecs s =? 0)%Z then (None, co)
      else
        let ch := length (co_chans co) in
        (Some ch,
         mkCoord (<[c := mkCES (runningExecs s) (Some ch) (initExit s)]> (co_containers co))
                 (co_chans co ++ [false]))
  end.

Definition notifyExecExit (c : cont) (co : exitCoordinator) : exitCoordinator :=
  match co_containers co !! c with
  | None => co
  | Some s =>
      let n := (runningExecs s - 1)%Z in
      if (0 <? n)%Z then put_state c (mkCES n (execWaiter s) (initExit s)) co
      else
        match execWaiter s with
        | Some ch => mkCoord (<[c := mkCES n None (initExit s)]> (co_containers co))
                             (<[ch := true]> (co_chans co))
        | None => put_state c (mkCES n None (initExit s)) co
        end
  end.

Definition getInitExit (c : cont) (co : exitCoordinator) : option Exit * exitCoordinator :=
  match co_containers co !! c with
  | None => (None, co)
  | Some s =>
      match initExit s with
      | None => (None, co)
      | Some e => (Some e, put_state c (mkCES (runningExecs s) (execWaiter s) None) co)
      end
  end.

Definition initHasExited (c : cont) (co : exitCoordinator) : bool :=
  match co_containers co !! c with
  | None => false
  | Some s => match initExit s with Some _ => true | None => false end
  end.

Definition coord_cleanup (c : cont) (co : exitCoordinator) : exitCoordinator :=
  mkCoord (delete c (co_containers co)) (co_chans co).

(** ** The registry of running processes *)

Abbreviation processRegistry := (gmap Z (list containerProcess)).

Definition reg_add (pid : Z) (cp : containerProcess) (r : processRegistry) : processRegistry :=
  <[pid := default [] (r !! pid) ++ [cp]]> r.

Definition removeByPID (pid : Z) (r : processRegistry) : list containerProcess * processRegistry :=
  (default [] (r !! pid), delete pid r).

Definition not_of (c : cont) (cp : containerProcess) : bool :=
  negb (bool_decide (cp_Container cp = c)).

Definition removeByContainer (pid : Z) (c : cont) (r : processRegistry) : processRegistry :=
  match default [] (r !! pid) with
  | [] => r
  | cps =>
      match List.filter (not_of c) cps with
      | [] => delete pid r
      | remaining => <[pid := remaining]> r
      end
  end.

Definition cleanupContainer (c : cont) (r : processRegistry) : processRegistry :=
  omap (λ cps, match List.filter (not_of c) cps with [] => None | rem => Some rem end) r.

(** ** The tracker *)

Record exitTracker := mkTracker {
  detector : earlyExitDetector;
  coordinator : exitCoordinator;
  processes : processRegistry
}.

Definition newExitTracker : exitTracker :=
  mkTracker newEarlyExitDetector newExitCoordinator ∅.

(** *** What the service keeps *)

(** [TaskExit]'s IDs are those of the container and the process. *)
Inductive event :=
  | TaskExit (c : cont) (p : proc) (pid status : Z)
  | TaskStart (c : cont) (pid : Z)
  | TaskExecStarted (c : cont) (execID : string) (pid : Z).

#[export] Instance event_eq_dec : EqDecision event.
Proof. solve_decision. Defined.

(** The goroutine [handleInitExit] leaves behind when it must wait. *)
Record waiter := mkWaiter { w_chan : nat; w_exit : Exit; w_cont : cont; w_proc : proc }.

Record guest := mkGuest {
  g_tracker : exitTracker;
  g_events : list event;           (** sent on [s.events], oldest first *)
  g_setExited : list (nat * Z);    (** [SetExited] calls: process object, status *)
  g_waiting : list waiter;
  g_counted : list cont;           (** [incrementExecCount] calls *)
  g_failed : list cont             (** [DecrementExecCount] calls *)
}.

Definition new_guest : guest := mkGuest newExitTracker [] [] [] [] [].

Definition g_with (g : guest) (t : exitTracker) : guest :=
  mkGuest t (g_events g) (g_setExited g) (g_waiting g) (g_counted g) (g_failed g).

Abbreviation eprog := (prog guest).
#[local] Open Scope prog_scope.

(** One critical section of a component. *)
Definition on_detector {A} (f : earlyExitDetector → A * earlyExitDetector) : eprog A :=
  atomically (λ g, let '(a, d) := f (detector (g_tracker g)) in
    (a, g_with g (mkTracker d (coordinator (g_tracker g)) (processes (g_tracker g))))).
Definition on_coordinator {A} (f : exitCoordinator → A * exitCoordinator) : eprog A :=
  atomically (λ g, let '(a, co) := f (coordinator (g_tracker g)) in
    (a, g_with g (mkTracker (detector (g_tracker g)) co (processes (g_tracker g))))).
Definition on_processes {A} (f : processRegistry → A * processRegistry) : eprog A :=
  atomically (λ g, let '(a, r) := f (processes (g_tracker g)) in
    (a, g_with g (mkTracker (detector (g_tracker g)) (coordinator (g_tracker g)) r))).

(** [Subscribe]: a restarted container comes with its init's pid. *)
Definition Subscribe (c : option (cont * Z)) : eprog nat :=
  sub <- on_detector det_subscribe ;;
  _ <- (match c with
        | Some (c, pid) => on_processes (λ r, (tt, removeByContainer pid c r))
        | None => Ret tt
        end) ;;
  Ret sub.

Fixpoint stashInits (e : Exit) (cps : list containerProcess) : eprog () :=
  match cps with
  | [] => Ret tt
  | cp :: cps =>
      _ <- (if p_isInit (cp_Process cp) then on_coordinator (λ co, (tt, stashInitExit (cp_Container cp) e co)) else Ret tt) ;;
      stashInits e cps
  end.

Definition NotifyExit (e : Exit) : eprog (list containerProcess) :=
  _ <- on_detector (λ d, (tt, det_notifyExit e d)) ;;
  cps <- on_processes (removeByPID (ex_Pid e)) ;;
  _ <- stashInits e cps ;;
  Ret cps.

Definition IncrementExecCount (c : cont) : eprog () :=
  atomically (λ g, (tt, mkGuest (mkTracker (detector (g_tracker g)) (incrementExecCount c (coordinator (g_tracker g))) (processes (g_tracker g)))
    (g_events g) (g_setExited g) (g_waiting g) (c :: g_counted g) (g_failed g))).

(** Three locks, one after the other. *)
Definition HandleStart (sub : nat) (c : cont) (p : proc) (pid : Z) : eprog (list Exit) :=
  earlyExits <- on_detector (sub_complete sub pid) ;;
  if (pid =? 0)%Z || negb (bool_decide (earlyExits = [])) then Ret earlyExits
  else
    _ <- on_processes (λ r, (tt, reg_add pid (mkCP c p) r)) ;;
    _ <- (if negb (p_isInit p) then IncrementExecCount c else Ret tt) ;;
    Ret [].

Definition Cancel (sub : nat) : eprog () := on_detector (λ d, (tt, sub_cancel sub d)).
Definition ShouldDelayInitExit (c : cont) : eprog (option nat) := on_coordinator (shouldDelayInitExit c).
Definition NotifyExecExit (c : cont) : eprog () := on_coordinator (λ co, (tt, notifyExecExit c co)).
Definition DecrementExecCount (c : cont) : eprog () :=
  atomically (λ g, (tt, mkGuest (mkTracker (detector (g_tracker g)) (notifyExecExit c (coordinator (g_tracker g))) (processes (g_tracker g)))
    (g_events g) (g_setExited g) (g_waiting g) (g_counted g) (c :: g_failed g))).
Definition InitHasExited (c : cont) : eprog bool := on_coordinator (λ co, (initHasExited c co, co)).
Definition GetInitExit (c : cont) : eprog (option Exit) := on_coordinator (getInitExit c).

Definition Cleanup (c : cont) : eprog () :=
  _ <- on_coordinator (λ co, (tt, coord_cleanup c co)) ;;
  on_processes (λ r, (tt, cleanupContainer c r)).

(** ** The exit path of the task service *)

Definition send (e : event) : eprog () :=
  atomically (λ g, (tt, mkGuest (g_tracker g) (g_events g ++ [e]) (g_setExited g) (g_waiting g) (g_counted g) (g_failed g))).
Definition SetExited (p : proc) (status : Z) : eprog () :=
  atomically (λ g, (tt, mkGuest (g_tracker g) (g_events g) (g_setExited g ++ [(p_ref p, status)]) (g_waiting g) (g_counted g) (g_failed g))).
Definition set_waiting (f : list waiter → list waiter) (g : guest) : guest :=
  mkGuest (g_tracker g) (g_events g) (g_setExited g) (f (g_waiting g)) (g_counted g) (g_failed g).

Definition handleProcessExit (e : Exit) (c : cont) (p : proc) : eprog () :=
  _ <- SetExited p (ex_Status e) ;;
  _ <- send (TaskExit c p (ex_Pid e) (ex_Status e)) ;;
  if negb (p_isInit p) then NotifyExecExit c else Ret tt.

(** [KillAll] acts on the container's processes only, through the OCI runtime; the
    waiting goroutine is recorded. *)
Definition handleInitExit (e : Exit) (c : cont) (p : proc) : eprog () :=
  delay <- ShouldDelayInitExit c ;;
  match delay with
  | None => handleProcessExit e c p
  | Some ch => atomically (λ g, (tt, set_waiting (λ l, l ++ [mkWaiter ch e c p]) g))
  end.

Definition handleExit (e : Exit) (cp : containerProcess) : eprog () :=
  if p_isInit (cp_Process cp) then handleInitExit e (cp_Container cp) (cp_Process cp)
  else handleProcessExit e (cp_Container cp) (cp_Process cp).

Fixpoint for_each {A} (f : A → eprog ()) (l : list A) : eprog () :=
  match l with [] => Ret tt | a :: l => _ <- f a ;; for_each f l end.

(** One iteration of [processExits]. *)
Definition processExit (e : Exit) : eprog () :=
  cps <- NotifyExit e ;; for_each (handleExit e) cps.

(** [preStart] is [Subscribe]; this is the [handleStarted] closure it returns. *)
Definition handleStarted (sub : nat) (c : cont) (p : proc) (pid : Z) : eprog () :=
  earlyExits <- HandleStart sub c p pid ;; for_each (λ ee, handleProcessExit ee c p) earlyExits.

(** The goroutine waiting on a closed channel resumes. *)
Definition wake (i : nat) : eprog () :=
  w <- atomically (λ g,
    match g_waiting g !! i with
    | Some w => if decide (co_chans (coordinator (g_tracker g)) !! w_chan w = Some true)
                then (Some w, set_waiting (delete i) g) else (None, g)
    | None => (None, g)
    end) ;;
  match w with Some w => handleProcessExit (w_exit w) (w_cont w) (w_proc w) | None => Ret tt end.

(** ** The Start handler of the guest task service (task/lifecycle.go) *)

(** Up to and including [preStart]; [execID] is the request's, [initPid] the
    container's init pid. *)
Definition Start_begin (c : cont) (execID : string) (initPid : Z) : eprog (res nat) :=
  if decide (execID = "") then (sub <- Subscribe (Some (c, initPid)) ;; Ret (Ok sub))
  else
    exited <- InitHasExited c ;;
    if exited : bool then Ret (Err (mkError ErrFailedPrecondition "container init process is not running"))
    else (sub <- Subscribe None ;; Ret (Ok sub)).

(** From the return of [container.Start] on: [err] is its error, [pid] the
    process's pid then; ends with the deferred [cleanup]. *)
Definition Start_end (sub : nat) (c : cont) (execID : string) (p : proc) (pid : Z) (err : option error) : eprog (res Z) :=
  match err with
  | Some e =>
      _ <- (if decide (execID = "") then Ret tt else DecrementExecCount c) ;;
      _ <- handleStarted sub c p pid ;;
      _ <- Cancel sub ;; Ret (Err e)
  | None =>
      _ <- send (if decide (execID = "") then TaskStart c pid else TaskExecStarted c execID pid) ;;
      _ <- handleStarted sub c p pid ;;
      _ <- Cancel sub ;; Ret (Ok pid)
  end.

(** ** The goroutines of the service

    [processExits] reads the exits one after the other; Start and Create handlers,
    Deletes and woken waiters run beside it. *)
Inductive job :=
  | JExits (es : list Exit)
  | JCreate (c : cont) (p : proc) (pid : Z)
  | JStart (c : cont) (execID : string) (initPid : Z) (p : proc) (pid : Z) (err : option error)
  | JDelete (c : cont)
  | JWake (i : nat).

Definition job_prog (j : job) : eprog () :=
  match j with
  | JExits es => for_each processExit es
  | JCreate c p pid => sub <- Subscribe None ;; _ <- handleStarted sub c p pid ;; Cancel sub
  | JStart c execID initPid p pid err =>
      r <- Start_begin c execID initPid ;;
      match r with
      | Err _ => Ret tt
      | Ok sub => _ <- Start_end sub c execID p pid err ;; Ret tt
      end
  | JDelete c => Cleanup c
  | JWake i => wake i
  end.

Definition cnt (c : cont) (co : exitCoordinator) : Z :=
  match co_containers co !! c with Some s => runningExecs s | None => 0 end.

(** *** The counter under each coordinator operation *)

Lemma cnt_put c c' s co :
  cnt c' (put_state c s co) = if decide (c = c') then runningExecs s else cnt c' co.
Proof. unfold cnt, put_state; simpl. rewrite lookup_insert. by case_decide. Qed.

Lemma cnt_increment c c' co :
  cnt c' (incrementExecCount c co) = (cnt c' co + (if decide (c = c') then 1 else 0))%Z.
Proof.
  unfold incrementExecCount. rewrite cnt_put. case_decide; [subst|lia].
  unfold getOrCreateState, cnt. destruct (co_containers co !! c'); simpl; lia.
Qed.

Lemma cnt_stash c c' e co : cnt c' (stashInitExit c e co) = cnt c' co.
Proof.
  unfold stashInitExit. rewrite cnt_put. case_decide; [subst|done].
  unfold getOrCreateState, cnt. by destruct (co_containers co !! c').
Qed.

Lemma cnt_delay c c' co : cnt c' (shouldDelayInitExit c co).2 = cnt c' co.
Proof.
  unfold shouldDelayInitExit. destruct (co_containers co !! c) as [s|] eqn:H; [|done].
  destruct (runningExecs s =? 0)%Z; [done|]. unfold cnt; simpl.
  rewrite lookup_insert. case_decide; [subst; by rewrite H|done].
Qed.

Lemma cnt_notify c c' co : (cnt c' co - (if decide (c = c') then 1 else 0) ≤ cnt c' (notifyExecExit c co))%Z.
Proof.
  unfold notifyExecExit. destruct (co_containers co !! c) as [s|] eqn:Hs; [|case_decide; lia].
  assert (Hp : ∀ s', runningExecs s' = (runningExecs s - 1)%Z →
    (cnt c' co - (if decide (c = c') then 1 else 0) ≤
     match (<[c:=s']> (co_containers co)) !! c' with Some s => runningExecs s | None => 0 end)%Z).
  { intros s' Hr. unfold cnt. rewrite lookup_insert. case_decide; [|lia].
    subst. rewrite Hs, Hr. lia. }
  destruct (0 <? runningExecs s - 1)%Z; [by apply Hp|]. destruct (execWaiter s); by apply Hp.
Qed.

Lemma cnt_getInit c c' co : cnt c' (getInitExit c co).2 = cnt c' co.
Proof.
  unfold getInitExit. destruct (co_containers co !! c) as [s|] eqn:H; [|done]. destruct (initExit s); [|done].
  cbn [snd]. rewrite cnt_put. case_decide; [subst; unfold cnt; by rewrite H|done].
Qed.

Lemma cnt_cleanup c c' co : c ≠ c' → cnt c' (coord_cleanup c co) = cnt c' co.
Proof. intros Hne. unfold cnt, coord_cleanup. simpl. by rewrite lookup_delete_ne. Qed.

(** *** The waiter channels *)

(** The part of the invariant about channels, on the coordinator alone. *)
Definition waiters_ok (co : exitCoordinator) : Prop :=
  (∀ c s ch, co_containers co !! c = Some s → execWaiter s = Some ch → co_chans co !! ch = Some false)
  ∧ (∀ c c' s s' ch, co_containers co !! c = Some s → co_containers co !! c' = Some s' →
       execWaiter s = Some ch → execWaiter s' = Some ch → c = c').

(** Replacing a state by one with the same waiter or none. *)
Lemma waiters_put c s s0 co :
  waiters_ok co → co_containers co !! c = Some s0 ∨ execWaiter s = None →
  execWaiter s = execWaiter s0 ∨ execWaiter s = None →
  waiters_ok (put_state c s co).
Proof.
  intros [Ho Hi] Hc Hs.
  assert (Hold : ∀ c' s' ch, <[c := s]> (co_containers co) !! c' = Some s' →
            execWaiter s' = Some ch →
            ∃ s1, co_containers co !! c' = Some s1 ∧ execWaiter s1 = Some ch).
  { intros c' s' ch Hl Hw. rewrite lookup_insert in Hl. case_decide; [|eauto].
    simplify_eq. destruct Hc as [Hc|Hc], Hs as [Hs|Hs]; try congruence.
    exists s0. split; congruence. }
  split; simpl.
  - intros c' s' ch H1 H2. destruct (Hold _ _ _ H1 H2) as (s1 & ? & ?). eauto.
  - intros c1 c2 s1 s2 ch H1 H2 H3 H4.
    destruct (Hold _ _ _ H1 H3) as (t1 & ? & ?), (Hold _ _ _ H2 H4) as (t2 & ? & ?). eauto.
Qed.

Lemma getOrCreate_case c co :
  co_containers co !! c = Some (getOrCreateState c co)
  ∨ execWaiter (getOrCreateState c co) = None.
Proof. unfold getOrCreateState. destruct (co_containers co !! c); simpl; auto. Qed.

Lemma waiters_increment c co : waiters_ok co → waiters_ok (incrementExecCount c co).
Proof.
  intros H. unfold incrementExecCount.
  apply (waiters_put c _ (getOrCreateState c co)); simpl; auto using getOrCreate_case.
Qed.

Lemma waiters_stash c e co : waiters_ok co → waiters_ok (stashInitExit c e co).
Proof.
  intros H. unfold stashInitExit.
  apply (waiters_put c _ (getOrCreateState c co)); simpl; auto using getOrCreate_case.
Qed.

Lemma waiters_delay c co : waiters_ok co → waiters_ok (shouldDelayInitExit c co).2.
Proof.
  intros [Ho Hi]. unfold shouldDelayInitExit.
  destruct (co_containers co !! c) as [s|] eqn:Hs; [|done].
  destruct (runningExecs s =? 0)%Z; [done|].
  assert (Hfresh : ∀ c' s', co_containers co !! c' = Some s' →
            execWaiter s' ≠ Some (length (co_chans co))).
  { intros c' s' H1 H2. apply (Ho _ _ _ H1), lookup_lt_Some in H2. lia. }
  split; simpl.
  - intros c' s' ch H1 H2. rewrite lookup_insert in H1. case_decide; simplify_eq/=.
    + by rewrite lookup_app_r, Nat.sub_diag by lia.
    + apply lookup_app_l_Some. eauto.
  - intros c1 c2 s1 s2 ch H1 H2 H3 H4. rewrite lookup_insert in H1, H2.
    repeat case_decide; simplify_eq/=; eauto; exfalso; eapply Hfresh; eauto.
Qed.

Lemma waiters_notify c co : waiters_ok co → waiters_ok (notifyExecExit c co).
Proof.
  intros H. pose proof H as [Ho Hi]. unfold notifyExecExit.
  destruct (co_containers co !! c) as [s|] eqn:Hs; [|done].
  destruct (0 <? runningExecs s - 1)%Z; [apply (waiters_put c _ s); simpl; auto|].
  destruct (execWaiter s) as [ch|] eqn:Hw; [|apply (waiters_put c _ s); simpl; auto].
  split; simpl.
  - intros c' s' ch' H1 H2. rewrite lookup_insert in H1. case_decide; simplify_eq/=.
    rewrite list_lookup_insert_ne; [by eapply Ho|]. intros <-.
    by assert (c = c') by (eapply Hi; eauto).
  - intros c1 c2 s1 s2 ch' H1 H2 H3 H4. rewrite lookup_insert in H1, H2.
    repeat case_decide; simplify_eq/=; eauto.
Qed.

(** A channel that [notifyExecExit] closes belonged to a container whose counter
    is then no longer positive. *)
Lemma notify_closes c c' s ch co :
  waiters_ok co → co_containers co !! c' = Some s → execWaiter s = Some ch →
  co_chans (notifyExecExit c co) !! ch = Some true →
  c' = c ∧ (cnt c (notifyExecExit c co) ≤ 0)%Z.
Proof.
  intros [Ho Hi] Hs Hw Hc. pose proof (Ho _ _ _ Hs Hw) as Hopen. revert Hc.
  unfold notifyExecExit. destruct (co_containers co !! c) as [s1|] eqn:H1; [|congruence].
  destruct (0 <? runningExecs s1 - 1)%Z eqn:Hp; simpl; [congruence|].
  destruct (execWaiter s1) as [ch1|] eqn:Hw1; simpl; [|congruence].
  intros Hc. assert (ch = ch1) as ->.
  { destruct (decide (ch1 = ch)) as [|Hne]; [done|].
    rewrite list_lookup_insert_ne in Hc by done. congruence. }
  split; [by eapply Hi|]. unfold cnt; simpl. rewrite lookup_insert_eq. simpl.
  apply Z.ltb_ge in Hp. lia.
Qed.

Lemma waiters_cleanup c co : waiters_ok co → waiters_ok (coord_cleanup c co).
Proof.
  intros [Ho Hi]. split; simpl.
  - intros c' s ch [_ Hl]%lookup_delete_Some Hw. by eapply Ho.
  - intros c1 c2 s1 s2 ch [_ H1]%lookup_delete_Some [_ H2]%lookup_delete_Some. by eapply (Hi c1 c2 s1 s2).
Qed.

(** *** What an action does to the counter *)

Section counter.
Context (c : cont).

(** An exit of an exec of [c] is published. *)
Definition is_exec_exit (e : event) : bool :=
  match e with TaskExit c' p _ _ => bool_decide (c' = c) && negb (p_isInit p) | _ => false end.
Definition exec_exits (es : list event) : Z := Z.of_nat (length (List.filter is_exec_exit es)).
Definition times (l : list cont) : Z := Z.of_nat (length (List.filter (λ c', bool_decide (c' = c)) l)).

Lemma exec_exits_snoc es e : exec_exits (es ++ [e]) = (exec_exits es + if is_exec_exit e then 1 else 0)%Z.
Proof. unfold exec_exits. rewrite List.filter_app, length_app. simpl. destruct (is_exec_exit e); simpl; lia. Qed.

Lemma times_cons c' l : times (c' :: l) = (times l + if decide (c' = c) then 1 else 0)%Z.
Proof. unfold times. simpl. case_bool_decide; case_decide; simpl; try done; lia. Qed.

(** What the counter is above the execs counted and not yet published or failed. *)
Definition slack (g : guest) : Z :=
  (cnt c (coordinator (g_tracker g)) + exec_exits (g_events g) + times (g_failed g) - times (g_counted g))%Z.

Definition quiet (g g' : guest) : Prop :=
  (waiters_ok (coordinator (g_tracker g)) → waiters_ok (coordinator (g_tracker g'))) ∧ (slack g ≤ slack g')%Z.

(** A goroutine that has published an exec's exit and not yet counted it off. *)
Definition owed (m : bool) : Z := if m then 1 else 0.
Definition estep (m : bool) (g g' : guest) (m' : bool) : Prop :=
  (waiters_ok (coordinator (g_tracker g)) → waiters_ok (coordinator (g_tracker g'))) ∧
  (slack g - owed m ≤ slack g' - owed m')%Z.
Definition epre (m : bool) (g : guest) : Prop := True.
Abbreviation eobeys := (obeys estep epre).
Definition settled {A} (m : bool) (a : A) : Prop := m = false.

Lemma quiet_obeys {A} (p : eprog A) : guar quiet p → eobeys false p settled.
Proof. intros Hp. eapply guar_obeys; [|exact Hp]. intros g g' _ [Hw Hs]. split; [done|]. lia. Qed.

Lemma eobeys_bind {A B} (p : eprog A) (k : A → eprog B) :
  eobeys false p settled → (∀ a, eobeys false (k a) settled) → eobeys false (pbind p k) settled.
Proof. intros Hp Hk. apply obeys_bind. eapply obeys_mono; [|exact Hp]. intros m a ->. apply Hk. Qed.

Lemma quiet_detector {A} (f : earlyExitDetector → A * earlyExitDetector) : guar quiet (on_detector f).
Proof. split; [|done]. intros g. simpl. by destruct (f (detector (g_tracker g))). Qed.

Lemma quiet_processes {A} (f : processRegistry → A * processRegistry) : guar quiet (on_processes f).
Proof. split; [|done]. intros g. simpl. by destruct (f (processes (g_tracker g))). Qed.

Lemma quiet_coordinator {A} (f : exitCoordinator → A * exitCoordinator) :
  (∀ co, (waiters_ok co → waiters_ok (f co).2) ∧ (cnt c co ≤ cnt c (f co).2)%Z) → guar quiet (on_coordinator f).
Proof.
  intros Hf. split; [|done]. intros g. destruct (Hf (coordinator (g_tracker g))) as [Hw Hc]. simpl.
  destruct (f (coordinator (g_tracker g))) as [a co]. simpl in *. split; [done|]. unfold slack. simpl. lia.
Qed.

Lemma quiet_increment c' : guar quiet (IncrementExecCount c').
Proof.
  split; [|done]. intros g. split; simpl; [apply waiters_increment|]. unfold slack. simpl. rewrite cnt_increment, times_cons.
  repeat case_decide; try done; lia.
Qed.

Lemma quiet_decrement c' : guar quiet (DecrementExecCount c').
Proof.
  split; [|done]. intros g. split; simpl; [apply waiters_notify|]. unfold slack. simpl. rewrite times_cons.
  pose proof (cnt_notify c' c (coordinator (g_tracker g))). repeat case_decide; try done; lia.
Qed.

Lemma quiet_delay c' : guar quiet (ShouldDelayInitExit c').
Proof. apply quiet_coordinator. intros co. split; [apply waiters_delay|]. by rewrite cnt_delay. Qed.

Lemma quiet_notify c' : c' ≠ c → guar quiet (NotifyExecExit c').
Proof.
  intros Hne. apply quiet_coordinator. intros co. split; [apply waiters_notify|]. simpl.
  pose proof (cnt_notify c' c co) as H. rewrite decide_False in H by done. lia.
Qed.

Lemma quiet_stash e cps : guar quiet (stashInits e cps).
Proof.
  induction cps as [|cp cps IH]; [done|]. cbn [stashInits]. apply guar_bind; [|done]. destruct (p_isInit _); [|done].
  apply quiet_coordinator. intros co. split; [apply waiters_stash|]. cbn [snd]. by rewrite cnt_stash.
Qed.

Lemma quiet_Subscribe ci : guar quiet (Subscribe ci).
Proof.
  apply guar_bind; [apply quiet_detector|]. intros sub. apply guar_bind; [|done].
  destruct ci as [[c' pid]|]; [apply quiet_processes|done].
Qed.

Lemma quiet_NotifyExit e : guar quiet (NotifyExit e).
Proof.
  apply guar_bind; [apply quiet_detector|]. intros _. apply guar_bind; [apply quiet_processes|]. intros cps.
  apply guar_bind; [apply quiet_stash|done].
Qed.

Lemma quiet_HandleStart sub c' p pid : guar quiet (HandleStart sub c' p pid).
Proof.
  apply guar_bind; [apply quiet_detector|]. intros es. destruct (_ || _); [done|].
  apply guar_bind; [apply quiet_processes|]. intros _. apply guar_bind; [|done].
  destruct (negb _); [apply quiet_increment|done].
Qed.

Lemma quiet_SetExited p st : guar quiet (SetExited p st).
Proof. split; [|done]. intros g. by split. Qed.

Lemma quiet_send e : guar quiet (send e).
Proof.
  split; [|done]. intros g. split; [done|]. unfold slack. simpl. rewrite exec_exits_snoc. destruct (is_exec_exit e); lia.
Qed.

Lemma quiet_Cleanup c' : c' ≠ c → guar quiet (Cleanup c').
Proof.
  intros Hne. apply guar_bind; [|intros _; apply quiet_processes]. apply quiet_coordinator. intros co.
  split; [apply waiters_cleanup|]. cbn [snd]. by rewrite cnt_cleanup.
Qed.

(** The exit of an exec of [c] is published before it is counted off. *)
Lemma eobeys_handleProcessExit e c' p : eobeys false (handleProcessExit e c' p) settled.
Proof.
  apply eobeys_bind; [apply quiet_obeys, quiet_SetExited|]. intros _.
  destruct (decide (c' = c ∧ p_isInit p = false)) as [[-> Hp]|Hn].
  - unfold send. cbn [pbind atomically]. rewrite Hp. intros g _. exists true. split.
    { split; [done|]. unfold slack. simpl. rewrite exec_exits_snoc. simpl. rewrite bool_decide_eq_true_2, Hp by done. simpl. lia. }
    cbn [negb]. intros g' _. exists false. split; [|done]. split; [apply waiters_notify|]. unfold slack. simpl.
    pose proof (cnt_notify c c (coordinator (g_tracker g'))) as H. rewrite decide_True in H by done. lia.
  - apply eobeys_bind; [apply quiet_obeys, quiet_send|]. intros _. apply quiet_obeys.
    destruct (p_isInit p); [done|]. apply quiet_notify. naive_solver.
Qed.

Lemma eobeys_for_each {A} (f : A → eprog ()) l : (∀ a, eobeys false (f a) settled) → eobeys false (for_each f l) settled.
Proof. intros Hf. induction l as [|a l IH]; [done|]. cbn [for_each]. by apply eobeys_bind. Qed.

Lemma eobeys_handleExit e cp : eobeys false (handleExit e cp) settled.
Proof.
  unfold handleExit. destruct (p_isInit _); [|apply eobeys_handleProcessExit].
  apply eobeys_bind; [apply quiet_obeys, quiet_delay|]. intros [ch|]; [|apply eobeys_handleProcessExit].
  apply quiet_obeys. split; [|done]. intros g. by split.
Qed.

Lemma eobeys_handleStarted sub c' p pid : eobeys false (handleStarted sub c' p pid) settled.
Proof.
  apply eobeys_bind; [apply quiet_obeys, quiet_HandleStart|]. intros es. apply eobeys_for_each. intros e. apply eobeys_handleProcessExit.
Qed.

Lemma eobeys_Start_end sub c' execID p pid err : eobeys false (Start_end sub c' execID p pid err) settled.
Proof.
  assert (Hend : ∀ r : res Z, eobeys false (_ <- handleStarted sub c' p pid ;; _ <- Cancel sub ;; Ret r) settled).
  { intros r. apply eobeys_bind; [apply eobeys_handleStarted|]. intros _.
    apply eobeys_bind; [apply quiet_obeys, quiet_detector|done]. }
  unfold Start_end. destruct err; (apply eobeys_bind; [apply quiet_obeys|intros _; apply Hend]).
  - case_decide; [done|apply quiet_decrement].
  - apply quiet_send.
Qed.

Lemma eobeys_job j : j ≠ JDelete c → eobeys false (job_prog j) settled.
Proof.
  intros Hj. destruct j as [es|c' p pid|c' execID ip p pid err|c'|i]; cbn [job_prog].
  - apply eobeys_for_each. intros e. apply eobeys_bind; [apply quiet_obeys, quiet_NotifyExit|]. intros cps.
    apply eobeys_for_each. intros cp. apply eobeys_handleExit.
  - apply eobeys_bind; [apply quiet_obeys, quiet_Subscribe|]. intros sub.
    apply eobeys_bind; [apply eobeys_handleStarted|]. intros _. apply quiet_obeys, quiet_detector.
  - apply eobeys_bind.
    + apply quiet_obeys. unfold Start_begin. case_decide; [apply guar_bind; [apply quiet_Subscribe|done]|].
      apply guar_bind; [apply quiet_coordinator; intros co; by split|]. intros []; [done|]. apply guar_bind; [apply quiet_Subscribe|done].
    + intros [sub|]; [|done]. apply eobeys_bind; [apply eobeys_Start_end|done].
  - apply quiet_obeys, quiet_Cleanup. congruence.
  - apply eobeys_bind; [|intros [w|]; [apply eobeys_handleProcessExit|done]].
    apply quiet_obeys. split; [|done]. intros g. simpl. destruct (g_waiting g !! i); [|by split]. case_decide; by split.
Qed.

(** The invariant of a pool. *)
Definition owed_all (ms : list bool) : Z := foldr (λ m n, owed m + n)%Z 0%Z ms.

Lemma owed_all_insert ms i m m' : ms !! i = Some m → owed_all (<[i := m']> ms) = (owed_all ms - owed m + owed m')%Z.
Proof.
  revert i. induction ms as [|x ms IH]; intros [|i] Hi; simplify_eq/=; [lia|]. rewrite (IH i) by done. lia.
Qed.

Lemma owed_all_nonneg ms : (0 ≤ owed_all ms)%Z.
Proof. induction ms as [|[] ms IH]; simpl; lia. Qed.

Definition pool_inv (g : guest) (ms : list bool) : Prop :=
  waiters_ok (coordinator (g_tracker g)) ∧ (owed_all ms ≤ slack g)%Z.

Lemma pool_inv_reachable js g ts : JDelete c ∉ js → rtc pstep (new_guest, job_prog <$> js) (g, ts) →
  waiters_ok (coordinator (g_tracker g)) ∧ (0 ≤ slack g)%Z.
Proof.
  intros Hd Hr.
  destruct (explained_rtc estep epre settled pool_inv (λ _ _ _ _ _ _, I)
    ltac:(intros x y ms i m m' [Hw Hs] Hi [Hw' Hs']; split; [by apply Hw'|rewrite (owed_all_insert _ _ _ _ Hi); lia])
    (new_guest, job_prog <$> js) (g, ts)) as (ms & [Hw Hs] & _); [|done|].
  { exists (replicate (length js) false). split.
    - split; [by split|]. enough (owed_all (replicate (length js) false) = 0%Z) as -> by done.
      clear. induction js as [|j js IH]; [done|]. simpl. by rewrite IH.
    - apply Forall2_same_length_lookup_2; [cbn [snd]; by rewrite length_replicate, length_fmap|].
      intros i m q Hm Hq. apply lookup_replicate in Hm as [-> _]. apply list_lookup_fmap_Some in Hq as (j & -> & Hj).
      apply eobeys_job. intros ->. apply Hd. by eapply list_elem_of_lookup_2. }
  simpl in Hs. split; [done|]. pose proof (owed_all_nonneg ms). lia.
Qed.
End counter.

(** *** Only counting an exit off closes a channel *)

Definition chans_of (g : guest) : list bool := co_chans (coordinator (g_tracker g)).

Definition closes (g g' : guest) : Prop := ∀ ch, chans_of g !! ch = Some false → chans_of g' !! ch = Some true →
  ∃ c, coordinator (g_tracker g') = notifyExecExit c (coordinator (g_tracker g)).

(** An action that leaves the channels there are as they are. *)
Lemma closes_kept g g' : (∀ ch b, chans_of g !! ch = Some b → chans_of g' !! ch = Some b) → closes g g'.
Proof. intros H ch Ho Hc. rewrite (H ch false Ho) in Hc. done. Qed.

Lemma closes_detector {A} (f : earlyExitDetector → A * earlyExitDetector) : guar closes (on_detector f).
Proof. split; [|done]. intros g. apply closes_kept. simpl. by destruct (f (detector (g_tracker g))). Qed.
Lemma closes_processes {A} (f : processRegistry → A * processRegistry) : guar closes (on_processes f).
Proof. split; [|done]. intros g. apply closes_kept. simpl. by destruct (f (processes (g_tracker g))). Qed.
Lemma closes_coordinator {A} (f : exitCoordinator → A * exitCoordinator) :
  (∀ co, (∀ ch b, co_chans co !! ch = Some b → co_chans (f co).2 !! ch = Some b) ∨ ∃ c, (f co).2 = notifyExecExit c co) →
  guar closes (on_coordinator f).
Proof.
  intros Hf. split; [|done]. intros g. pose proof (Hf (coordinator (g_tracker g))) as H. simpl.
  destruct (f (coordinator (g_tracker g))) as [a co]. simpl in *. destruct H as [H|[c ->]]; [by apply closes_kept|]. intros ch _ _. by exists c.
Qed.
Lemma closes_same {A} (p : eprog A) : guar (λ g g', g_tracker g' = g_tracker g) p → guar closes p.
Proof. apply guar_mono. intros g g' H. apply closes_kept. unfold chans_of. by rewrite H. Qed.

Lemma closes_increment c : guar closes (IncrementExecCount c).
Proof. split; [|done]. intros g. by apply closes_kept. Qed.
Lemma closes_decrement c : guar closes (DecrementExecCount c).
Proof. split; [|done]. intros g ch _ _. by exists c. Qed.

Lemma closes_for_each {A} (f : A → eprog ()) l : (∀ a, guar closes (f a)) → guar closes (for_each f l).
Proof. intros Hf. induction l as [|a l IH]; [done|]. cbn [for_each]. by apply guar_bind. Qed.

Lemma closes_handleProcessExit e c p : guar closes (handleProcessExit e c p).
Proof.
  apply guar_bind; [by apply closes_same|]. intros _. apply guar_bind; [by apply closes_same|]. intros _.
  destruct (negb _); [|done]. apply closes_coordinator. intros co. right. by exists c.
Qed.

Lemma closes_HandleStart sub c p pid : guar closes (HandleStart sub c p pid).
Proof.
  apply guar_bind; [apply closes_detector|]. intros es. destruct (_ || _); [done|].
  apply guar_bind; [apply closes_processes|]. intros _. apply guar_bind; [|done].
  destruct (negb _); [apply closes_increment|done].
Qed.

Lemma closes_handleStarted sub c p pid : guar closes (handleStarted sub c p pid).
Proof.
  apply guar_bind; [apply closes_HandleStart|]. intros es. apply closes_for_each. intros e. apply closes_handleProcessExit.
Qed.

Lemma closes_Subscribe ci : guar closes (Subscribe ci).
Proof.
  apply guar_bind; [apply closes_detector|]. intros sub. apply guar_bind; [|done].
  destruct ci as [[c pid]|]; [apply closes_processes|done].
Qed.

Lemma closes_processExit e : guar closes (processExit e).
Proof.
  apply guar_bind.
  - apply guar_bind; [apply closes_detector|]. intros _. apply guar_bind; [apply closes_processes|]. intros cps.
    apply guar_bind; [|done]. induction cps as [|cp cps IH]; [done|]. cbn [stashInits]. apply guar_bind; [|done].
    destruct (p_isInit _); [|done]. apply closes_coordinator. intros co. by left.
  - intros cps. apply closes_for_each. intros cp. unfold handleExit. destruct (p_isInit _); [|apply closes_handleProcessExit].
    apply guar_bind; [|intros [ch|]; [by apply closes_same|apply closes_handleProcessExit]].
    apply closes_coordinator. intros co. left. intros ch b Hb. unfold shouldDelayInitExit.
    destruct (co_containers co !! cp_Container cp) as [s|]; [|done]. destruct (runningExecs s =? 0)%Z; [done|].
    simpl. by apply lookup_app_l_Some.
Qed.

Lemma closes_job j : guar closes (job_prog j).
Proof.
  destruct j as [es|c p pid|c execID ip p pid err|c|i]; cbn [job_prog].
  - apply closes_for_each. intros e. apply closes_processExit.
  - apply guar_bind; [apply closes_Subscribe|]. intros sub. apply guar_bind; [apply closes_handleStarted|]. intros _. apply closes_detector.
  - apply guar_bind.
    + unfold Start_begin. case_decide; [apply guar_bind; [apply closes_Subscribe|done]|].
      apply guar_bind; [apply closes_coordinator; intros co; by left|]. intros []; [done|]. apply guar_bind; [apply closes_Subscribe|done].
    + intros [sub|]; [|done]. apply guar_bind; [|done]. unfold Start_end.
      destruct err; (apply guar_bind; [|intros _; apply guar_bind; [apply closes_handleStarted|intros _; apply guar_bind; [apply closes_detector|done]]]).
      * case_decide; [done|apply closes_decrement].
      * by apply closes_same.
  - apply guar_bind; [|intros _; apply closes_processes]. apply closes_coordinator. intros co. by left.
  - apply guar_bind; [|intros [w|]; [apply closes_handleProcessExit|done]]. apply closes_same. split; [|done]. intros g. simpl.
    destruct (g_waiting g !! i); [|done]. by case_decide.
Qed.


(** *** Early exits are detected *)

(** What other goroutines may do to the detector while a start is in progress. *)
Inductive dop :=
  | DSubscribe
  | DNotify (e : Exit)
  | DDrop (ref : nat).              (** complete or cancel another subscription *)

Definition dexec (o : dop) (d : earlyExitDetector) : earlyExitDetector :=
  match o with
  | DSubscribe => (det_subscribe d).2
  | DNotify e => det_notifyExit e d
  | DDrop ref => sub_cancel ref d
  end.

Definition notified (pid : Z) (os : list dop) : list Exit :=
  omap (λ o, match o with
             | DNotify e => if (ex_Pid e =? pid)%Z then Some e else None
             | _ => None end) os.

(** Subscription [ref] is active under id [i] and has collected [acc] per pid. *)
Record live (ref : nat) (i : Z) (acc : Z → list Exit) (d : earlyExitDetector) : Prop := {
  lv_sub : d_subscriptions d !! i = Some ref;
  lv_uniq : ∀ i', d_subscriptions d !! i' = Some ref → i' = i;
  lv_obj : ∃ s, d_heap d !! ref = Some s ∧ sub_id s = i
                ∧ ∀ pid, default [] (sub_exits s !! pid) = acc pid;
  lv_ids : ∀ ref' s, d_heap d !! ref' = Some s → ref' ≠ ref → sub_id s ≠ i;
  lv_next : (i ≤ d_nextSubID d)%Z;
  lv_bound : ∀ i' ref', d_subscriptions d !! i' = Some ref' → (ref' < length (d_heap d))%nat
}.

Lemma foldl_alter_other {A} (f : A → A) (refs : list nat) (h : list A) (ref : nat) :
  ref ∉ refs → foldl (λ h r, alter f r h) h refs !! ref = h !! ref.
Proof.
  revert h. induction refs as [|r refs IH]; intros h Hn; simpl; [done|].
  apply not_elem_of_cons in Hn as [Hr Hn]. rewrite IH by done.
  by rewrite list_lookup_alter_ne.
Qed.

Lemma foldl_alter_length {A} (f : A → A) (refs : list nat) (h : list A) :
  length (foldl (λ h r, alter f r h) h refs) = length h.
Proof.
  revert h. induction refs as [|r refs IH]; intros h; simpl; [done|].
  by rewrite IH, length_alter.
Qed.

Lemma notify_lookup e d ref :
  (∀ i i', d_subscriptions d !! i = Some ref → d_subscriptions d !! i' = Some ref → i = i') →
  d_heap (det_notifyExit e d) !! ref =
    (if decide (ref ∈ (map_to_list (d_subscriptions d)).*2)
     then sub_append e <$> (d_heap d !! ref) else d_heap d !! ref).
Proof.
  intros Hu. simpl. case_decide as Hin; [|by apply foldl_alter_other].
  apply list_elem_of_fmap in Hin as ([i r] & -> & Hin). simpl.
  apply list_elem_of_split in Hin as (l1 & l2 & Hl).
  pose proof (NoDup_map_to_list (d_subscriptions d)) as Hnd. rewrite Hl in Hnd.
  assert (Hother : ∀ l, l = l1 ∨ l = l2 → r ∉ l.*2).
  { intros l Hll Hr. apply list_elem_of_fmap in Hr as ([i' r'] & Hr' & Hr). simpl in Hr'. subst r'.
    assert (i' = i) as ->.
    { apply Hu; apply elem_of_map_to_list; rewrite Hl;
        [destruct Hll as [<-|<-]; [apply elem_of_app; by left|apply elem_of_app; right; by right]
        |apply elem_of_app; right; by left]. }
    apply NoDup_app in Hnd as (_ & Hd & Hn2). apply NoDup_cons in Hn2 as [Hn2 _].
    destruct Hll as [-> | ->]; [|done]. by eapply Hd; [exact Hr|left]. }
  rewrite Hl, fmap_app, fmap_cons, foldl_app. simpl.
  rewrite foldl_alter_other by eauto. rewrite list_lookup_alter, foldl_alter_other by eauto.
  by rewrite decide_True.
Qed.
Definition acc_add (o : dop) (acc : Z → list Exit) : Z → list Exit := λ pid,
  acc pid ++ notified pid [o].

Lemma live_subscribe ref i acc d :
  live ref i acc d → (0 ≤ i)%Z → (d_nextSubID d + 1 < two64)%Z →
  live ref i (acc_add DSubscribe acc) (dexec DSubscribe d).
Proof.
  intros [H1 H2 (s & Hs & Hid & Hx) H4 H5 H6] Hi Hn. pose proof (H6 _ _ H1) as Hlt.
  assert (Hw : uint64_wrap (d_nextSubID d + 1) = (d_nextSubID d + 1)%Z)
    by (apply uint64_wrap_id; unfold uint64_range; lia).
  split; simpl; rewrite ?Hw.
  - rewrite lookup_insert_ne by lia. done.
  - intros i'. rewrite lookup_insert. case_decide; [intros ?; simplify_eq; lia|auto].
  - exists s. split_and!; [by apply lookup_app_l_Some|done|].
    intros pid. rewrite Hx. unfold acc_add; simpl. by rewrite app_nil_r.
  - intros ref' s' Hl Hne. apply lookup_app_Some in Hl as [Hl|[_ Hl]]; [by eapply H4|].
    apply list_lookup_singleton_Some in Hl as [_ <-]. simpl. lia.
  - lia.
  - intros i' ref'. rewrite length_app, lookup_insert. simpl. case_decide; intros Hl; simplify_eq; [lia|].
    apply H6 in Hl. lia.
Qed.

Lemma live_notify ref i acc d e :
  live ref i acc d → live ref i (acc_add (DNotify e) acc) (dexec (DNotify e) d).
Proof.
  intros [H1 H2 (s & Hs & Hid & Hx) H4 H5 H6].
  assert (Hlk := notify_lookup e d ref ltac:(intros; rewrite (H2 i0), (H2 i'); done)).
  rewrite decide_True in Hlk
    by (apply list_elem_of_fmap; exists (i, ref); split; [done|by apply elem_of_map_to_list]).
  rewrite Hs in Hlk. simpl in Hlk.
  split; simpl; try done.
  - exists (sub_append e s). split_and!; [done|done|]. intros pid.
    unfold acc_add, sub_append; simpl. rewrite <- Hx, lookup_insert.
    destruct (Z.eqb_spec (ex_Pid e) pid) as [->|Hne]; simpl;
      [by rewrite decide_True|rewrite decide_False by done; by rewrite app_nil_r].
  - intros ref' s' Hl Hne.
    assert (∃ s0, d_heap d !! ref' = Some s0 ∧ sub_id s0 = sub_id s') as (s0 & Hl0 & <-); [|eauto].
    clear -Hl. revert Hl. generalize (d_heap d) as h.
    induction ((map_to_list (d_subscriptions d)).*2) as [|r rs IH]; intros h Hl; simpl in Hl; [eauto|].
    destruct (IH _ Hl) as (s0 & Hs0 & Hid). rewrite list_lookup_alter in Hs0.
    case_decide; [subst r|eauto]. destruct (h !! ref') as [s1|]; [|done].
    simpl in Hs0. injection Hs0 as <-. by exists s1.
  - intros i' ref' Hl. rewrite foldl_alter_length. eauto.
Qed.

Lemma live_drop ref i acc d ref' :
  live ref i acc d → ref' ≠ ref → live ref i (acc_add (DDrop ref') acc) (dexec (DDrop ref') d).
Proof.
  intros [H1 H2 (s & Hs & Hid & Hx) H4 H5 H6] Hne.
  assert (Hobj : ∃ s, d_heap d !! ref = Some s ∧ sub_id s = i
                   ∧ ∀ pid, default [] (sub_exits s !! pid) = acc_add (DDrop ref') acc pid).
  { exists s. split_and!; [done..|]. intros pid. unfold acc_add; simpl. by rewrite Hx, app_nil_r. }
  unfold dexec, sub_cancel. destruct (d_heap d !! ref') as [s'|] eqn:Hs'; [|by split].
  pose proof (H4 _ _ Hs' Hne) as Hid'. split; simpl; try done.
  - by rewrite lookup_delete_ne.
  - intros i'. rewrite lookup_delete. case_decide; [done|auto].
  - intros i' r. rewrite lookup_delete. case_decide; [done|eauto].
Qed.

Lemma live_steps ref i os : ∀ acc d,
  live ref i acc d → (0 ≤ i)%Z → (d_nextSubID d + Z.of_nat (length os) < two64)%Z →
  DDrop ref ∉ os →
  ∃ d', foldl (λ d o, dexec o d) d os = d' ∧ live ref i (λ pid, acc pid ++ notified pid os) d'.
Proof.
  induction os as [|o os IH]; intros acc d Hl Hi Hn Hd; simpl.
  { exists d. split; [done|]. destruct Hl as [H1 H2 (s & ? & ? & Hx) H4 H5 H6]. split; try done.
    exists s. split_and!; [done..|]. intros pid. by rewrite Hx, app_nil_r. }
  apply not_elem_of_cons in Hd as [Hd1 Hd2]. rewrite length_cons in Hn.
  assert (Hl' : live ref i (acc_add o acc) (dexec o d)).
  { destruct o as [|e|ref']; [apply live_subscribe; try done; lia|by apply live_notify|].
    apply live_drop; [done|congruence]. }
  assert (Hnext : (d_nextSubID (dexec o d) + Z.of_nat (length os) < two64)%Z).
  { destruct o as [|e|ref']; simpl; [| |unfold sub_cancel; case_match]; simpl; try lia.
    destruct Hl as [_ _ _ _ H5 _]. rewrite uint64_wrap_id; unfold uint64_range; lia. }
  destruct (IH _ _ Hl' Hi Hnext Hd2) as (d' & Hf & Hlv). exists d'. split; [done|].
  destruct Hlv as [H1 H2 (s & ? & ? & Hx) H4 H5 H6]. split; try done.
  exists s. split_and!; [done..|]. intros pid. rewrite Hx. unfold acc_add.
  destruct o as [|e|ref']; simpl; rewrite ?app_nil_r; try done.
  destruct (ex_Pid e =? pid)%Z; simpl; by rewrite ?app_nil_r, <- ?app_assoc.
Qed.

(** A detector as the tracker's own operations leave it. *)
Definition det_ok (d : earlyExitDetector) : Prop :=
  (0 ≤ d_nextSubID d)%Z
  ∧ (∀ i ref, d_subscriptions d !! i = Some ref → (ref < length (d_heap d))%nat)
  ∧ (∀ ref s, d_heap d !! ref = Some s → (sub_id s ≤ d_nextSubID d)%Z).

Lemma live_init d : det_ok d → (d_nextSubID d + 1 < two64)%Z →
  live (length (d_heap d)) (d_nextSubID d + 1) (λ _, []) (det_subscribe d).2.
Proof.
  intros (H0 & Hr & Hids) Hn.
  assert (Hw : uint64_wrap (d_nextSubID d + 1) = (d_nextSubID d + 1)%Z)
    by (apply uint64_wrap_id; unfold uint64_range; lia).
  split; simpl; rewrite ?Hw.
  - apply lookup_insert_eq.
  - intros i'. rewrite lookup_insert. case_decide; [done|]. intros Hl. apply Hr in Hl. lia.
  - eexists. split_and!; [by apply list_lookup_middle|done|done].
  - intros ref' s Hl Hne. apply lookup_app_Some in Hl as [Hl|[Hge Hl]].
    + apply Hids in Hl. lia.
    + apply list_lookup_singleton_Some in Hl as [Hl _]. lia.
  - lia.
  - intros i' ref'. rewrite length_app, lookup_insert. simpl.
    case_decide; intros Hl; simplify_eq; [lia|]. apply Hr in Hl. lia.
Qed.

Theorem early_exits_detected d os pid :
  det_ok d → (d_nextSubID d + 1 + Z.of_nat (length os) < two64)%Z →
  DDrop (det_subscribe d).1 ∉ os →
  (sub_complete (det_subscribe d).1 pid
     (foldl (λ d o, dexec o d) (det_subscribe d).2 os)).1 = notified pid os.
Proof.
  intros Hd Hn Hos. pose proof Hd as (H0 & _).
  assert (Hw : d_nextSubID (det_subscribe d).2 = (d_nextSubID d + 1)%Z)
    by (simpl; apply uint64_wrap_id; unfold uint64_range; lia).
  destruct (live_steps (length (d_heap d)) (d_nextSubID d + 1) os (λ _, []) (det_subscribe d).2)
    as (d' & Hf & [_ _ (s & Hs & _ & Hx) _ _ _]); [apply live_init; [done|lia]|lia|lia|done|].
  rewrite Hf. unfold sub_complete. simpl fst at 1. rewrite Hs. simpl. by rewrite Hx.
Qed.
(** *** Exits that miss the counter *)

(** A running container: init (pid 100) created and started, exec [A] (pid 110)
    started; then the given continuation. *)
Definition pinit : proc := mkProc 0 "ctr" true.
Definition pA : proc := mkProc 1 "A" false.
Definition pB : proc := mkProc 2 "B" false.

(** A whole Start request with no exit event during it. *)
Definition start_now (execID : string) (p : proc) (pid : Z) (err : option error) (g : guest) : guest :=
  (run (job_prog (JStart 0 execID 100 p pid err)) g).2.

Definition with_init : guest := start_now "" pinit 100 None new_guest.
Definition with_A : guest := start_now "A" pA 110 None with_init.

(** An exit is reaped and handled, with nothing in between. *)
Definition exit_now (pid : Z) (g : guest) : guest := (run (processExit (mkExit pid 0)) g).2.

(** Exec [B] starts, and its exit (pid 120) is reaped before Start returns. *)
Definition early_B (g : guest) : guest :=
  match run (Start_begin 0 "B" 100) g with
  | (Ok sub, g1) => (run (Start_end sub 0 "B" pB 120 None) (exit_now 120 g1)).2
  | (Err _, g1) => g1
  end.

Definition exits_of (g : guest) : list string :=
  omap (λ e, match e with TaskExit _ p _ _ => Some (p_ID p) | _ => None end) (g_events g).

Definition init_then_A (g : guest) : guest := exit_now 110 (exit_now 100 g).
Definition wake_now (g : guest) : guest := (run (wake 0) g).2.

Theorem early_exec_exit_breaks_init_last :
  exits_of (init_then_A (early_B with_A)) = ["B"; "ctr"; "A"].
Proof. by vm_compute. Qed.

Theorem failed_exec_start_breaks_init_last err :
  exits_of (init_then_A (start_now "B" pB 0 (Some err) with_A)) = ["ctr"; "A"].
Proof. by vm_compute. Qed.

(** Without the early exit or the failed start, init's exit is held back. *)
Example normal_run_holds_init :
  exits_of (wake_now (init_then_A (start_now "B" pB 120 None with_A))) = ["A"].
Proof. by vm_compute. Qed.

Example normal_run_init_last :
  exits_of (wake_now (exit_now 120 (init_then_A (start_now "B" pB 120 None with_A)))) = ["A"; "B"; "ctr"].
Proof. by vm_compute. Qed.

(** *** Exits between the locks of HandleStart *)

Definition is_done (p : eprog ()) : bool := match p with Ret _ => true | _ => false end.

(** The exit of exec [A] is reaped after HandleStart completed the subscription and
    before it registered the process: nobody is told of it.  The exec counts as
    running for ever, and the exit of init, which comes later, is never published. *)
Definition lost_race : list nat := replicate 4 0 ++ replicate 2 1 ++ replicate 3 0 ++ replicate 5 1.

Lemma exit_between_locks_is_lost :
  let c := sched lost_race (with_init, job_prog <$> [JStart 0 "A" 100 pA 110 None; JExits [mkExit 110 0; mkExit 100 0]]) in
  Forall (λ p, is_done p = true) c.2 ∧ exits_of c.1 = [] ∧ cnt 0 (coordinator (g_tracker c.1)) = 1%Z ∧
  map w_proc (g_waiting c.1) = [pinit] ∧ chans_of c.1 = [false].
Proof. vm_compute. repeat split; repeat constructor. Qed.

(** The exit of exec [B] is reaped after it was registered and before it was
    counted: it is counted off in place of [A], and init's exit is published while
    [A] runs. *)
Definition uncounted_race : list nat := replicate 5 0 ++ replicate 10 1 ++ replicate 2 0 ++ replicate 3 2 ++ replicate 5 1.

Lemma exit_before_count_breaks_init_last :
  let c := sched uncounted_race (with_A, job_prog <$>
    [JStart 0 "B" 100 pB 120 None; JExits [mkExit 100 0; mkExit 120 0; mkExit 110 0]; JWake 0]) in
  Forall (λ p, is_done p = true) c.2 ∧ exits_of c.1 = ["B"; "ctr"; "A"].
Proof. vm_compute. repeat split; repeat constructor. Qed.

(** ** Witnesses *)

(** Init starts, then exec [A]; init exits and waits, and [A]'s exit is counted off. *)
Definition demo_jobs : list job :=
  [JStart 0 "" 100 pinit 100 None; JStart 0 "A" 100 pA 110 None; JExits [mkExit 100 0; mkExit 110 0]; JWake 0].
Definition demo_before : guest * list (eprog ()) :=
  sched (replicate 6 0 ++ replicate 7 1 ++ replicate 9 2) (new_guest, job_prog <$> demo_jobs).
Definition demo_after : guest * list (eprog ()) := sched [2] demo_before.


Lemma early_exits_detected_witness :
  (sub_complete (det_subscribe newEarlyExitDetector).1 110
     (det_notifyExit (mkExit 110 3) (det_subscribe newEarlyExitDetector).2)).1 = [mkExit 110 3].
Proof.
  apply (early_exits_detected newEarlyExitDetector [DNotify (mkExit 110 3)] 110).
  - split; [vm_compute; discriminate|]. split.
    + intros i ref Hr. vm_compute in Hr. destruct i; discriminate Hr.
    + intros ref s Hs. vm_compute in Hs. discriminate Hs.
  - vm_compute. reflexivity.
  - intros H. apply list_elem_of_singleton in H. discriminate H.
Defined.
