(* ===== verification/VMManager.v ===== *)
(** The VM lifecycle manager: internal/shim/lifecycle/vm.go, with the
    constructor it calls, [NewInstance] of internal/host/vm/qemu/instance.go.

    The manager holds a [vm.Instance], a Go interface: nil, or a dynamic value,
    which may itself be a nil [*qemu.Instance].  The file system, the environment
    and the clock are arguments. *)
From S2P Require Import Prelude GoStrings.

(** ** Interface values *)

(** [vm.Instance]: the nil interface, or a [*qemu.Instance] that may be nil. *)
Inductive iface := INil | IPtr (p : option nat).

#[export] Instance iface_eq_dec : EqDecision iface.
Proof. solve_decision. Defined.

Definition not_nil (i : iface) : bool := match i with INil => false | IPtr _ => true end.

(** [NewInstance]: the binary lookup, the state directory, and [newInstance],
    whose [*Instance] result is converted to the interface whatever its error. *)
Definition NewInstance (findQemu mkdir : option error) (newInstance : res nat)
    : iface * option error :=
  match findQemu with
  | Some e => (INil, Some e)
  | None =>
      match mkdir with
      | Some e => (INil, Some (wrap "failed to create state directory" e))
      | None =>
          match newInstance with
          | Ok p => (IPtr (Some p), None)
          | Err e => (IPtr None, Some e)
          end
      end
  end.

(** ** The manager *)

Record Manager := mkManager { m_instance : iface }.

Definition NewManager : Manager := mkManager INil.

(** What [CreateVM] reads from outside: SPINBOX_VM_STATE_DIR, the request's
    namespace, [os.MkdirAll] and the constructor. *)
Record vmEnv := mkVMEnv {
  ve_stateRoot : string;
  ve_namespace : option string;
  ve_mkdir : option error;
  ve_findQemu : option error;
  ve_instMkdir : option error;
  ve_newInstance : res nat
}.

Definition vmStateDir (root : string) (ns : option string) (containerID bundlePath : string)
    : string :=
  if decide (root = "") then path_Join [bundlePath; "vm"]
  else
    let namespace := match ns with
                     | Some n => if decide (n = "") then "default" else n
                     | None => "default" end in
    path_Join [root; namespace; containerID].

Definition CreateVM (containerID bundlePath : string) (env : vmEnv) (m : Manager)
    : res iface * Manager :=
  if not_nil (m_instance m) then
    (Err (mkError ErrAlreadyExists "vm already exists; shim requires one VM per container: already exists"), m)
  else
    let vmState := vmStateDir (ve_stateRoot env) (ve_namespace env) containerID bundlePath in
    match ve_mkdir env with
    | Some e => (Err (wrap ("failed to create vm state directory " +:+ fmt_q vmState) e), m)
    | None =>
        let '(inst, err) := NewInstance (ve_findQemu env) (ve_instMkdir env) (ve_newInstance env) in
        let m' := mkManager inst in
        match err with
        | Some e => (Err e, m')
        | None => (Ok inst, m')
        end
    end.

Definition vm_not_created : error :=
  mkError ErrFailedPrecondition "vm not created: failed precondition".

Definition Instance_ (m : Manager) : res iface :=
  if not_nil (m_instance m) then Ok (m_instance m) else Err vm_not_created.

(** [Client] and [DialClient]: the instance's own answer, or the precondition
    error; a method call on a nil [*qemu.Instance] dereferences it. *)
Definition Client (answer : res nat) (m : Manager) : out (res nat) :=
  match m_instance m with
  | INil => Val (Err vm_not_created)
  | IPtr None => Panic "invalid memory address or nil pointer dereference"
  | IPtr (Some _) => Val answer
  end.

Definition DialClient (answer : res nat) (m : Manager) : out (res nat) := Client answer m.

(** [Shutdown]: forgets the instance, then shuts it down. *)
Definition Shutdown (answer : option error) (m : Manager) : out (option error) * Manager :=
  let m' := mkManager INil in
  match m_instance m with
  | INil => (Val None, m')
  | IPtr None => (Panic "invalid memory address or nil pointer dereference", m')
  | IPtr (Some _) => (Val answer, m')
  end.

(** [SetVMExitCallback] stores the callback in the instance it finds. *)
Definition SetVMExitCallback (m : Manager) : out (option error) :=
  match m_instance m with
  | INil => Val (Some vm_not_created)
  | IPtr None => Panic "invalid memory address or nil pointer dereference"
  | IPtr (Some _) => Val None
  end.

Definition isTransientVsockError (err : option error) : bool :=
  match err with
  | None => false
  | Some e =>
      bool_decide (ekind e = ErrFailedPrecondition) || bool_decide (ekind e = ErrUnavailable)
      || bool_decide (ekind e = Errno ECONNREFUSED) || bool_decide (ekind e = Errno ECONNRESET)
      || bool_decide (ekind e = Errno ENODEV) || bool_decide (ekind e = Errno EPIPE)
      || bool_decide (emsg e = "ttrpc: closed")
  end.

(** *** Dialling with retries *)

(** Durations in nanoseconds. *)
Definition millisecond : Z := 1000000.
Definition vsockRetryInitialBackoff : Z := 20 * millisecond.
Definition vsockRetryMaxBackoff : Z := 500 * millisecond.

Section dial.
(** The [k]-th attempt: its outcome, how long it takes, and by how much the
    following sleep exceeds what was asked. *)
Context (attempt : nat → res nat) (dialTime oversleep : nat → Z).

(** The loop, from attempt [k] at time [now]; [None] when [fuel] attempts were
    not enough.  Also returns the number of attempts made. *)
Fixpoint dial_loop (fuel : nat) (k : nat) (now deadline backoff : Z) : option (res nat * nat) :=
  match fuel with
  | O => None
  | S fuel' =>
      let now1 := (now + dialTime k)%Z in
      match attempt k with
      | Ok vmc => Some (Ok vmc, S k)
      | Err e =>
          if negb (isTransientVsockError (Some e)) then Some (Err e, S k)
          else if (deadline <? now1)%Z then Some (Err e, S k)
          else dial_loop fuel' (S k) (now1 + backoff + oversleep k) deadline
                 (Z.min (backoff * 2) vsockRetryMaxBackoff)
      end
  end.

Definition DialClientWithRetry (fuel : nat) (start maxWait : Z) : option (res nat * nat) :=
  dial_loop fuel 0 start (start + maxWait) vsockRetryInitialBackoff.

(** Attempts that always suffice: one per initial backoff in [maxWait], and
    the two around it. *)
Definition dial_fuel (maxWait : Z) : nat :=
  Z.to_nat (maxWait / vsockRetryInitialBackoff) + 2.

Context (Hdial : ∀ k, (0 ≤ dialTime k)%Z) (Hsleep : ∀ k, (0 ≤ oversleep k)%Z).

Lemma dial_loop_enough fuel : ∀ k now deadline backoff,
  (vsockRetryInitialBackoff ≤ backoff)%Z →
  (deadline < now + Z.of_nat fuel * vsockRetryInitialBackoff)%Z →
  ∃ r n, dial_loop (S fuel) k now deadline backoff = Some (r, n) ∧ (n ≤ k + S fuel)%nat.
Proof.
  induction fuel as [|fuel IH]; intros k now deadline backoff Hb Hd;
    pose proof (Hdial k) as Hdk; pose proof (Hsleep k) as Hsk;
    cbn [dial_loop]; (destruct (attempt k) as [vmc|e]; [eexists _, _; split; [done|lia]|]);
    (destruct (negb _); [eexists _, _; split; [done|lia]|]);
    (destruct (Z.ltb_spec deadline (now + dialTime k)); [eexists _, _; split; [done|lia]|]);
    [lia|].
  destruct (IH (S k) (now + dialTime k + backoff + oversleep k)%Z deadline
              (Z.min (backoff * 2) vsockRetryMaxBackoff)) as (r & n & Hr & Hn);
    [unfold vsockRetryMaxBackoff, vsockRetryInitialBackoff, millisecond in *; lia|lia|].
  exists r, n. split; [exact Hr|lia].
Qed.
End dial.

(** With a dialler and a sleep that only take time, [DialClientWithRetry] returns
    after at most [dial_fuel maxWait] attempts. *)
Theorem DialClientWithRetry_terminates attempt dialTime oversleep start maxWait :
  (∀ k, (0 ≤ dialTime k)%Z) → (∀ k, (0 ≤ oversleep k)%Z) → (0 ≤ maxWait)%Z →
  ∃ r n, DialClientWithRetry attempt dialTime oversleep (dial_fuel maxWait) start maxWait
           = Some (r, n) ∧ (n ≤ dial_fuel maxWait)%nat.
Proof.
  intros Hd Hs Hw. unfold DialClientWithRetry, dial_fuel.
  set (q := (maxWait / vsockRetryInitialBackoff)%Z).
  assert (Hq : (0 ≤ q ∧ maxWait < (q + 1) * vsockRetryInitialBackoff)%Z).
  { unfold q, vsockRetryInitialBackoff, millisecond.
    pose proof (Z.div_mod maxWait (20 * 1000000)). pose proof (Z.mod_pos_bound maxWait (20 * 1000000)).
    split; [apply Z.div_pos; lia|lia]. }
  replace (Z.to_nat q + 2)%nat with (S (Z.to_nat q + 1)) by lia.
  destruct (dial_loop_enough attempt dialTime oversleep Hd Hs (Z.to_nat q + 1) 0 start
              (start + maxWait) vsockRetryInitialBackoff) as (r & n & Hr & Hn);
    [lia|nia|]. eauto.
Qed.

(** ** Sequences of calls *)

Inductive vmCall :=
  | CallCreate (containerID bundlePath : string) (env : vmEnv)
  | CallShutdown (answer : option error).

(** The instances a sequence of calls hands out and the ones it shuts down, in
    order, with the manager it leaves. *)
Fixpoint vm_run (calls : list vmCall) (m : Manager) : list nat * list nat * Manager :=
  match calls with
  | [] => ([], [], m)
  | CallCreate id bundle env :: rest =>
      let '(r, m1) := CreateVM id bundle env m in
      let '(cs, ds, m2) := vm_run rest m1 in
      (match r with Ok (IPtr (Some p)) => p :: cs | _ => cs end, ds, m2)
  | CallShutdown a :: rest =>
      let '(_, m1) := Shutdown a m in
      let '(cs, ds, m2) := vm_run rest m1 in
      (cs, match m_instance m with IPtr (Some p) => p :: ds | _ => ds end, m2)
  end.

Definition live (m : Manager) : list nat :=
  match m_instance m with IPtr (Some p) => [p] | _ => [] end.

Lemma CreateVM_cases id bundle env m :
  (∃ e, CreateVM id bundle env m = (Err e, m))
  ∨ (m_instance m = INil ∧
     ((∃ p, CreateVM id bundle env m = (Ok (IPtr (Some p)), mkManager (IPtr (Some p))))
      ∨ ∃ e i, CreateVM id bundle env m = (Err e, mkManager i) ∧ live (mkManager i) = [])).
Proof.
  unfold CreateVM, NewInstance. destruct (m_instance m) eqn:Hm; simpl; [|left; eauto].
  destruct (ve_mkdir env); [left; eauto|right; split; [done|]].
  destruct (ve_findQemu env); [right; eauto|].
  destruct (ve_instMkdir env); [right; eauto|].
  destruct (ve_newInstance env); [left|right]; eauto.
Qed.

Lemma vm_run_accounts calls m cs ds m' :
  vm_run calls m = (cs, ds, m') → live m ++ cs = ds ++ live m'.
Proof.
  revert m cs ds. induction calls as [|[id bundle env|a] calls IH]; intros m cs ds H; simpl in H.
  - simplify_eq. by rewrite app_nil_r.
  - destruct (CreateVM_cases id bundle env m) as [[e He]|[Hm [[p He]|(e & i & He & Hi)]]];
      rewrite He in H; destruct (vm_run _ _) as [[cs1 ds1] m2] eqn:Hr; simplify_eq;
      apply IH in Hr; [done| |].
    + unfold live at 1. by rewrite Hm.
    + rewrite Hi in Hr. unfold live at 1. by rewrite Hm.
  - destruct (Shutdown a m) as [o m1] eqn:Hs. destruct (vm_run _ _) as [[cs1 ds1] m2] eqn:Hr.
    simplify_eq. apply IH in Hr.
    assert (m1 = mkManager INil) as -> by (unfold Shutdown in Hs; by go_cases).
    simpl in Hr. unfold live at 1. destruct (m_instance m) as [|[p|]]; simpl; by rewrite Hr.
Qed.

(** Every sequence of [CreateVM] and [Shutdown] calls on a new manager: the
    instances handed out are exactly the ones shut down followed by the one the
    manager holds, in order, and it holds at most one. *)
Theorem vm_never_leaked calls cs ds m :
  vm_run calls NewManager = (cs, ds, m) → cs = ds ++ live m ∧ (length (live m) ≤ 1)%nat.
Proof.
  intros H. apply vm_run_accounts in H. split; [exact H|].
  unfold live. destruct (m_instance m) as [|[p|]]; simpl; lia.
Qed.

(** When [newInstance] fails, [CreateVM] reports the error and still stores a
    non-nil interface that holds a nil pointer: the manager then claims to have
    an instance, refuses another [CreateVM], and [Client], [SetVMExitCallback]
    and [Shutdown] dereference the nil pointer. *)
Theorem failed_newInstance_poisons_manager id bundle env e m :
  m = NewManager → ve_mkdir env = None → ve_findQemu env = None → ve_instMkdir env = None →
  ve_newInstance env = Err e →
  ∃ m', CreateVM id bundle env m = (Err e, m')
  ∧ is_ok (Instance_ m') = true
  ∧ (∀ id' b' env', is_ok (CreateVM id' b' env' m').1 = false)
  ∧ (∀ a, ∃ s, Client a m' = Panic s)
  ∧ (∃ s, SetVMExitCallback m' = Panic s)
  ∧ (∀ a, ∃ s, (Shutdown a m').1 = Panic s).
Proof.
  intros -> H1 H2 H3 H4. exists (mkManager (IPtr None)).
  unfold CreateVM, NewInstance. rewrite H1, H2, H3, H4. simpl. repeat split; eauto.
Qed.

(** ** Witnesses *)

Definition env_ok (p : nat) : vmEnv := mkVMEnv "" None None None None (Ok p).

Lemma DialClientWithRetry_terminates_witness :
  ∃ r n, DialClientWithRetry (λ k, if decide (k = 3)%nat then Ok 9%nat
                                    else Err (mkError (Errno ENODEV) "no such device"))
           (λ _, 0%Z) (λ _, 0%Z) (dial_fuel 1000000000) 0 1000000000 = Some (r, n)
         ∧ (n ≤ dial_fuel 1000000000)%nat.
Proof. apply DialClientWithRetry_terminates; [intros; lia|intros; lia|lia]. Defined.

Lemma vm_never_leaked_witness :
  [4; 5]%nat = [4]%nat ++ live (mkManager (IPtr (Some 5%nat))) ∧ (length (live (mkManager (IPtr (Some 5%nat)))) ≤ 1)%nat.
Proof.
  apply (vm_never_leaked [CallCreate "c" "/b" (env_ok 4); CallCreate "c" "/b" (env_ok 6);
                          CallShutdown None; CallCreate "c" "/b" (env_ok 5)]).
  vm_compute. reflexivity.
Defined.

Lemma failed_newInstance_poisons_manager_witness :
  ∃ m', CreateVM "c" "/b" (mkVMEnv "" None None None None (Err (mkError ErrUnknown "cid")) ) NewManager
        = (Err (mkError ErrUnknown "cid"), m') ∧ is_ok (Instance_ m') = true.
Proof.
  destruct (failed_newInstance_poisons_manager "c" "/b"
    (mkVMEnv "" None None None None (Err (mkError ErrUnknown "cid"))) (mkError ErrUnknown "cid") NewManager
    eq_refl eq_refl eq_refl eq_refl eq_refl) as (m' & H1 & H2 & _). eauto.
Defined.
