(* ===== verification/ConnManager.v ===== *)
(** The task connection cache: internal/shim/task/connmanager.go.

    Every method body runs under the manager's mutex, so it is one atomic action
    of the store; [GetClient] is two (a read-locked look, then a write-locked
    second look that dials while it holds the lock).  The dialler and
    [ttrpc.Client.Close] are not part of the repository's source: the [k]-th dial
    yields a fresh client or an error, and closing is recorded in a log. *)
From S2P Require Import Prelude Conc.

(** A TTRPC client: the one the manager's own [k]-th dial returned, or one the
    caller made. *)
Inductive client := Dialed (k : nat) | External (n : nat).

#[export] Instance client_eq_dec : EqDecision client.
Proof. solve_decision. Defined.

(** The struct ([dialRetryFn] is the section variable [dial] below), with the
    record of its effects on connections: how many times it dialled, the clients
    it closed and the ones it gave away and was not given back, latest first. *)
Record ConnectionManager := mkCM {
  cm_client : option client;
  cm_closed : bool;
  cm_dials : nat;
  cm_closedLog : list client;
  cm_released : list client
}.

Definition NewConnectionManager : ConnectionManager := mkCM None false 0 [] [].

Definition context_Canceled : error := mkError ErrCanceled "context canceled".

Definition set_client (c : option client) (m : ConnectionManager) : ConnectionManager :=
  mkCM c (cm_closed m) (cm_dials m) (cm_closedLog m) (cm_released m).

Definition close_client (c : client) (m : ConnectionManager) : ConnectionManager :=
  mkCM (cm_client m) (cm_closed m) (cm_dials m) (c :: cm_closedLog m) (cm_released m).

(** A client handed in is no longer the caller's. *)
Definition take_back (c : client) (m : ConnectionManager) : ConnectionManager :=
  mkCM (cm_client m) (cm_closed m) (cm_dials m) (cm_closedLog m) (filter (λ x, x ≠ c) (cm_released m)).

Section manager.
(** [dial k]: the error of the [k]-th call of [dialRetryFn], if any.
    [closeErr c]: what [c.Close] returns. *)
Context (dial : nat → option error) (closeErr : client → option error).

(** The read-locked look of [GetClient]. *)
Definition peek (m : ConnectionManager) : option client * ConnectionManager :=
  (match cm_client m with
   | Some c => if cm_closed m then None else Some c
   | None => None
   end, m).

Definition getOrCreateClient (m : ConnectionManager) : res client * ConnectionManager :=
  if cm_closed m then (Err context_Canceled, m)
  else
    match cm_client m with
    | Some c => (Ok c, m)
    | None =>
        let m1 := mkCM (cm_client m) (cm_closed m) (S (cm_dials m))
                    (cm_closedLog m) (cm_released m) in
        match dial (cm_dials m) with
        | Some err => (Err err, m1)
        | None => (Ok (Dialed (cm_dials m)), set_client (Some (Dialed (cm_dials m))) m1)
        end
    end.

Definition GetClient : prog ConnectionManager (res client) :=
  Act peek (λ r, match r with
                 | Some c => Ret (Ok c)
                 | None => Act getOrCreateClient Ret
                 end).

Definition SetClient (new : option client) (m : ConnectionManager) : unit * ConnectionManager :=
  let m := match new with Some c => take_back c m | None => m end in
  if cm_closed m then
    (tt, match new with Some c => close_client c m | None => m end)
  else
    let m1 := match cm_client m with
              | Some old => if decide (new = Some old) then m else close_client old m
              | None => m
              end in
    (tt, set_client new m1).

Definition ClearClient (m : ConnectionManager) : option client * ConnectionManager :=
  (cm_client m,
   mkCM None (cm_closed m) (cm_dials m) (cm_closedLog m)
     (match cm_client m with Some c => c :: cm_released m | None => cm_released m end)).

Definition Invalidate (m : ConnectionManager) : unit * ConnectionManager :=
  (tt, match cm_client m with
       | Some c => set_client None (close_client c m)
       | None => m
       end).

Definition Close (m : ConnectionManager) : option error * ConnectionManager :=
  if cm_closed m then (None, m)
  else
    let m1 := mkCM (cm_client m) true (cm_dials m) (cm_closedLog m) (cm_released m) in
    match cm_client m1 with
    | Some c => (closeErr c, set_client None (close_client c m1))
    | None => (None, m1)
    end.

Definition HasClient (m : ConnectionManager) : bool :=
  match cm_client m with Some _ => negb (cm_closed m) | None => false end.

(** ** Ownership of connections

    [section_] names the critical sections; [secs] executes a sequence of them,
    which is what any interleaving of callers amounts to. *)
Inductive section_ :=
  | SecPeek | SecGetOrCreate | SecSet (c : option client) | SecClear | SecInvalidate | SecClose.

Definition sec (x : section_) (m : ConnectionManager) : ConnectionManager :=
  match x with
  | SecPeek => (peek m).2
  | SecGetOrCreate => (getOrCreateClient m).2
  | SecSet c => (SetClient c m).2
  | SecClear => (ClearClient m).2
  | SecInvalidate => (Invalidate m).2
  | SecClose => (Close m).2
  end.

Definition secs (xs : list section_) (m : ConnectionManager) : ConnectionManager :=
  foldl (λ m x, sec x m) m xs.

(** The clients the manager has been responsible for, by where they are now. *)
Definition held (m : ConnectionManager) : list client :=
  match cm_client m with Some c => [c] | None => [] end.
Definition places (m : ConnectionManager) : list client :=
  held m ++ cm_closedLog m ++ cm_released m.

(** What callers may hand in: nothing, or a client that the manager has not closed -
    one of their own, one it gave back, or the very one it caches. *)
Definition hands_open (x : section_) (m : ConnectionManager) : Prop :=
  match x with
  | SecSet (Some c) => c ∉ cm_closedLog m ∧ match c with Dialed k => (k < cm_dials m)%nat | External _ => True end
  | _ => True
  end.

Fixpoint hands_all_open (xs : list section_) (m : ConnectionManager) : Prop :=
  match xs with [] => True | x :: xs' => hands_open x m ∧ hands_all_open xs' (sec x m) end.

Definition given (xs : list section_) : list client :=
  omap (λ x, match x with SecSet c => c | _ => None end) xs.

(** What holds of the manager between sections. *)
Record cm_inv (m : ConnectionManager) : Prop := {
  inv_nodup : NoDup (places m);
  inv_origin : ∀ k, Dialed k ∈ places m → (k < cm_dials m)%nat;
  inv_dialed : ∀ k, (k < cm_dials m)%nat → dial k = None → Dialed k ∈ places m;
  inv_closed : cm_closed m = true → held m = []
}.

(** The places after a section: a client handed in is in one place, the cached client
    or closed, wherever it was. *)
Definition places_after (x : section_) (m : ConnectionManager) : list client :=
  match x with
  | SecSet (Some c) => c :: filter (λ x, x ≠ c) (places m)
  | SecGetOrCreate =>
      if negb (cm_closed m) && bool_decide (cm_client m = None) && bool_decide (dial (cm_dials m) = None)
      then Dialed (cm_dials m) :: places m else places m
  | _ => places m
  end.

Lemma filter_absent (c : client) (l : list client) : c ∉ l → filter (λ x, x ≠ c) l = l.
Proof.
  induction l as [|x l IH]; intros Hn; [done|]. apply not_elem_of_cons in Hn as [Hx Hn].
  by rewrite filter_cons_True, IH by auto.
Qed.

Lemma set_places c m : (cm_closed m = true → held m = []) → c ∉ cm_closedLog m →
  places (sec (SecSet (Some c)) m) ≡ₚ c :: filter (λ x, x ≠ c) (places m).
Proof.
  intros Hc Hn. unfold places. rewrite !filter_app, (filter_absent c (cm_closedLog m)) by done.
  unfold sec, SetClient, take_back, close_client, set_client, held in *. destruct m as [[c0|] [] k cl rl]; simpl in *.
  - by specialize (Hc eq_refl).
  - case_decide as Hd.
    + injection Hd as ->. simpl. rewrite filter_cons_False by (intros Hx; by apply Hx). done.
    + simpl. rewrite filter_cons_True by congruence. simpl. solve_Permutation.
  - done.
  - done.
Qed.

Lemma sec_places x m : (cm_closed m = true → held m = []) → hands_open x m → places (sec x m) ≡ₚ places_after x m.
Proof.
  intros Hc Ho. destruct x as [| |[c|]| | |]; [done| |by apply set_places; [|apply Ho]|..];
    unfold sec, places_after, places, held, getOrCreateClient, SetClient, ClearClient, Invalidate, Close, peek in *;
    destruct m as [[c0|] [] k cl rl]; simpl in *; try done; try solve_Permutation.
  destruct (dial k); simpl; done.
Qed.

Lemma sec_nodup x m : cm_inv m → hands_open x m → NoDup (places (sec x m)).
Proof.
  intros [I1 I2 I3 I4] Ho. rewrite sec_places by done. destruct x as [| |[c|]| | |]; cbn; try done.
  - case_match; [|done]. apply NoDup_cons. split; [|done]. intros Hin%I2. lia.
  - apply NoDup_cons. split; [rewrite list_elem_of_filter; naive_solver|by apply NoDup_filter].
Qed.

(** A section only adds to the places what it is given or dials. *)
Lemma sec_elem x m c : (cm_closed m = true → held m = []) → hands_open x m →
  c ∈ places (sec x m) ↔ c ∈ places m ∨ x = SecSet (Some c) ∨
    (x = SecGetOrCreate ∧ cm_closed m = false ∧ cm_client m = None ∧ dial (cm_dials m) = None ∧ c = Dialed (cm_dials m)).
Proof.
  intros Hc Ho. rewrite sec_places by done. destruct x as [| |[n|]| | |]; cbn [places_after]; try naive_solver.
  - destruct (cm_closed m); cbn; [naive_solver|]. repeat case_bool_decide; cbn; rewrite ?elem_of_cons; naive_solver.
  - rewrite elem_of_cons, list_elem_of_filter. destruct (decide (c = n)); naive_solver.
Qed.

Lemma sec_dials x m : (cm_dials m ≤ cm_dials (sec x m))%nat ∧
  (∀ k, (cm_dials m ≤ k < cm_dials (sec x m))%nat →
     x = SecGetOrCreate ∧ cm_closed m = false ∧ cm_client m = None ∧ k = cm_dials m).
Proof.
  destruct x as [| |[n|]| | |]; unfold sec, getOrCreateClient, SetClient, ClearClient, Invalidate, Close, peek;
    destruct m as [[c0|] [] k0 cl rl]; simpl; repeat case_decide; simplify_eq/=;
    try (destruct (dial k0) eqn:Hd; simpl); (split; [lia|intros k ?; try lia]); split_and!; auto; lia.
Qed.

Lemma dial_counted m : cm_closed m = false → cm_client m = None → cm_dials (sec SecGetOrCreate m) = S (cm_dials m).
Proof. destruct m as [[c0|] [] k0 cl rl]; try done. intros _ _. unfold sec, getOrCreateClient. simpl. by destruct (dial k0). Qed.

Lemma sec_closed x m :
  (cm_closed m = true → held m = []) → cm_closed (sec x m) = true → held (sec x m) = [].
Proof.
  unfold held. destruct x as [| |[n|]| | |]; unfold sec, getOrCreateClient, SetClient, ClearClient, Invalidate,
    Close, peek; destruct m as [[c0|] [] n0 cl rl]; simpl; repeat case_decide; simpl; auto;
    try (destruct (dial n0); simpl; auto); intros Hh E; try done;
    discriminate (Hh eq_refl).
Qed.

Lemma cm_inv_sec x m : cm_inv m → hands_open x m → cm_inv (sec x m).
Proof.
  intros Hi Ho. pose proof Hi as [I1 I2 I3 I4]. destruct (sec_dials x m) as [Hle Hnew]. split.
  - by apply sec_nodup.
  - intros k [Hk|[->|(-> & Hc & Hn & _ & [= ->])]]%sec_elem; [specialize (I2 k Hk); lia| | |done..].
    + destruct Ho as [_ Hk]. lia.
    + rewrite dial_counted by done. lia.
  - intros k Hk Hd. apply sec_elem; [done..|]. destruct (decide (k < cm_dials m)%nat) as [|Hge]; [left; auto|].
    right. right. destruct (Hnew k) as (-> & ? & ? & ->); [lia|]. done.
  - by apply sec_closed.
Qed.

Lemma cm_inv_secs xs m : cm_inv m → hands_all_open xs m →
  cm_inv (secs xs m) ∧ (∀ c, c ∈ places m ∨ c ∈ given xs → c ∈ places (secs xs m)).
Proof.
  revert m. induction xs as [|x xs IH]; intros m Hi Ho; cbn in Ho.
  { split; [done|]. cbn. intros c [|H]; [done|]. by apply elem_of_nil in H. }
  destruct Ho as [Hx Ho]. destruct (IH (sec x m) (cm_inv_sec x m Hi Hx) Ho) as [H1 H2]. split; [exact H1|].
  change (secs (x :: xs) m) with (secs xs (sec x m)). intros c Hc. apply H2.
  rewrite sec_elem by (by try apply Hi). unfold given in *. cbn in Hc.
  destruct x as [| |[n|]| | |]; cbn in Hc; rewrite ?elem_of_cons in Hc; naive_solver.
Qed.

Lemma cm_inv_new : cm_inv NewConnectionManager.
Proof. split; [constructor|intros k Hk; by apply elem_of_nil in Hk|cbn; lia|done]. Qed.

(** ** Concurrent callers *)

(** What every goroutine of a pool of [GetClient] callers is doing, and what it
    has been given, when the manager's client is [c]. *)
Definition caller_ok (c : option client) (p : prog ConnectionManager (res client)) : Prop :=
  p = GetClient ∨ p = Act getOrCreateClient Ret
  ∨ (∃ e, p = Ret (Err e)) ∨ ∃ c', c = Some c' ∧ p = Ret (Ok c').

Lemma caller_ok_mono c p : caller_ok None p → caller_ok (Some c) p.
Proof. unfold caller_ok. naive_solver. Qed.

Definition pool_ok (cfg : ConnectionManager * list (prog ConnectionManager (res client))) : Prop :=
  cm_closed cfg.1 = false ∧ Forall (caller_ok (cm_client cfg.1)) cfg.2.

Lemma getOrCreateClient_ok m :
  cm_closed m = false →
  cm_closed (getOrCreateClient m).2 = false ∧
  caller_ok (cm_client (getOrCreateClient m).2) (Ret (getOrCreateClient m).1) ∧
  (cm_client m = None ∨ cm_client (getOrCreateClient m).2 = cm_client m).
Proof.
  unfold getOrCreateClient, caller_ok. destruct m as [[c|] [] n cl rl]; simpl; intros; [done| |done|].
  - split_and!; eauto 8.
  - destruct (dial n); simpl; split_and!; eauto 8.
Qed.

Lemma pool_ok_step cfg cfg' : pool_ok cfg → pstep cfg cfg' → pool_ok cfg'.
Proof.
  destruct cfg as [m ts]. intros [Hc Hts] (i & p & Hi & ->)%pstep_sched1; simpl in *.
  unfold sched1; simpl. rewrite Hi.
  pose proof (Forall_lookup_1 _ _ _ _ Hts Hi) as [->|[->|[[e ->]|(c & Hcl & ->)]]]; simpl.
  - split; [done|]. simpl. apply Forall_insert; [done|].
    unfold caller_ok. destruct (cm_client m); rewrite ?Hc; eauto 8.
  - destruct (getOrCreateClient_ok m Hc) as (H1 & H2 & H3).
    destruct (getOrCreateClient m) as [r m'] eqn:Hg; simpl in *.
    split; [done|]. simpl. apply Forall_insert; [|done].
    destruct H3 as [Hn|Hn]; rewrite Hn in *; [|done].
    destruct (cm_client m') as [c|]; [|done].
    eapply Forall_impl; [exact Hts|]. intros; by apply caller_ok_mono.
  - by split.
  - by split.
Qed.

Lemma pool_ok_reach n m cfg :
  cm_closed m = false → rtc pstep (m, replicate n GetClient) cfg → pool_ok cfg.
Proof.
  intros Hc Hr. remember (m, replicate n GetClient) as c0 eqn:E.
  assert (pool_ok c0) as H0.
  { subst. split; [done|]. simpl. apply Forall_replicate. by left. }
  clear E. induction Hr as [|x y z Hxy _ IH]; [done|]. apply IH. by eapply pool_ok_step.
Qed.
End manager.

(** C36: However the critical sections of the connection manager are ordered,
    and whatever open clients are handed to SetClient meanwhile - the
    caller's own, one it was given back, the very one the manager caches, or
    none, but not one the manager has closed: no connection is closed twice,
    the cached one is open, every connection dialled or handed in is in
    exactly one place - cached, closed or handed back -, and after Close the
    cache is empty. *)
Theorem connections_conserved dial closeErr xs :
  hands_all_open dial closeErr xs NewConnectionManager →
  let m := secs dial closeErr xs NewConnectionManager in
  NoDup (held m ++ cm_closedLog m ++ cm_released m)
  ∧ (∀ k, (k < cm_dials m)%nat → dial k = None →
       Dialed k ∈ held m ++ cm_closedLog m ++ cm_released m)
  ∧ (∀ c, c ∈ given xs → c ∈ held m ++ cm_closedLog m ++ cm_released m)
  ∧ (cm_closed m = true → cm_client m = None).
Proof.
  intros Ho m. destruct (cm_inv_secs dial closeErr xs _ (cm_inv_new dial) Ho) as [[I1 _ I3 I4] I5].
  split_and!; [exact I1|exact I3|intros c Hc; apply I5; by right|].
  intros Hc. apply I4 in Hc. fold m in Hc. unfold held in Hc. by destruct (cm_client m).
Qed.

(** The cached client is set again, cleared, handed back in and replaced. *)
Definition demo_sections : list section_ :=
  [SecGetOrCreate; SecSet (Some (Dialed 0)); SecClear; SecSet (Some (Dialed 0)); SecSet (Some (External 0));
   SecInvalidate; SecGetOrCreate; SecSet None; SecGetOrCreate; SecClose; SecSet (Some (External 1))].

Lemma connections_conserved_witness :
  secs (λ _, None) (λ _, None) demo_sections NewConnectionManager =
    mkCM None true 3 [External 1; Dialed 2; Dialed 1; External 0; Dialed 0] [] ∧
  NoDup ([] ++ [External 1; Dialed 2; Dialed 1; External 0; Dialed 0] ++ []).
Proof.
  split; [vm_compute; reflexivity|].
  destruct (connections_conserved (λ _, None) (λ _, None) demo_sections) as [H _].
  - cbn. repeat split; try (apply (bool_decide_unpack _); vm_compute; exact I); lia.
  - exact H.
Defined.

(** Any number of concurrent [GetClient] calls on an open manager: the ones that
    get a client all get the one the manager caches. *)
Theorem GetClient_shares_one_client dial n m cfg i j c1 c2 :
  cm_closed m = false →
  rtc pstep (m, replicate n (GetClient dial)) cfg →
  cfg.2 !! i = Some (Ret (Ok c1)) → cfg.2 !! j = Some (Ret (Ok c2)) →
  c1 = c2 ∧ cm_client cfg.1 = Some c1.
Proof.
  intros Hc Hr Hi Hj. destruct (pool_ok_reach dial (λ _, None) _ _ _ Hc Hr) as [_ Hf].
  pose proof (Forall_lookup_1 _ _ _ _ Hf Hi) as H1.
  pose proof (Forall_lookup_1 _ _ _ _ Hf Hj) as H2.
  unfold caller_ok, GetClient in *. naive_solver.
Qed.

(** Once closed, the manager never hands out a client again: [GetClient] fails
    with [context.Canceled] and a client given to [SetClient] is closed. *)
Theorem closed_manager_refuses dial closeErr m :
  cm_closed m = true →
  run (GetClient dial) m = (Err context_Canceled, m)
  ∧ (∀ c, (SetClient (Some c) m).2 = close_client c (take_back c m))
  ∧ HasClient m = false
  ∧ ∀ x, cm_closed (sec dial closeErr x m) = true.
Proof.
  intros Hc. destruct m as [c [] n cl rl]; simpl in *; [|done]. split_and!.
  - unfold GetClient. simpl. by destruct c.
  - done.
  - by destruct c.
  - intros [| |[]| | |]; destruct c; reflexivity.
Qed.

Lemma GetClient_shares_one_client_witness :
  ∃ cfg, rtc pstep (NewConnectionManager, replicate 2 (GetClient (λ _, None))) cfg
    ∧ cm_client cfg.1 = Some (Dialed 0).
Proof.
  set (cfg := sched [0; 1; 1; 0]%nat (NewConnectionManager, replicate 2 (GetClient (λ _, None)))).
  assert (Hr : rtc pstep (NewConnectionManager, replicate 2 (GetClient (λ _, None))) cfg) by apply sched_steps.
  exists cfg. split; [exact Hr|].
  apply (GetClient_shares_one_client (λ _, None) 2 NewConnectionManager cfg 0 1 (Dialed 0) (Dialed 0));
    [reflexivity|exact Hr|vm_compute; reflexivity|vm_compute; reflexivity].
Defined.

Lemma closed_manager_refuses_witness :
  run (GetClient (λ _, None)) (mkCM None true 1 [] []) = (Err context_Canceled, mkCM None true 1 [] []).
Proof. apply (closed_manager_refuses (λ _, None) (λ _, None)). reflexivity. Defined.
