(* ===== verification/ShimService.v ===== *)
(** The shim's task service: internal/shim/task/service.go and
    internal/shim/task/create.go.

    [service] is the Go struct, with the world its calls reach (the QEMU process,
    the network and mount managers, the guest's RPC server) as a log of effects
    and the little state of it the handlers rely on.  A handler is a [prog] of
    atomic actions: one per atomic operation, per critical section of
    [containerMu] or [controllerMu], and per call that leaves the shim.  What such
    a call answers is an argument (the fields of the [Env] records), so every
    theorem holds for every answer.  [run] executes a handler alone; a pool of
    handlers is stepped by [pstep].

    A run-time panic or [os.Exit] ends the process: [w_crashed] is set and no
    later action of any handler has an effect ([guarded]). *)
From S2P Require Import Prelude Conc GoStrings ShimState Cleanup VMManager ConnManager.

(** ** Data *)

(** What the handlers do outside the shim's memory, in order. *)
Inductive effect :=
  | VMCreate (p : nat)
  | VMStart
  | VMShutdown
  | NetSetup (id : string)
  | NetRelease (id : string)
  | NetClose
  | MountSetup (h : option nat)
  | MountCleanup (h : nat)
  | AddDisk (path : string)
  | IOStart (f : nat)
  | IOShutdown (f : nat)
  | IOCloseStdin (f : nat)
  | CtrlStart (c : nat)
  | CtrlStop (c : nat)
  | Guest (method : string)
  | VMPause
  | VMResume
  | Exit (code : Z).

#[export] Instance effect_eq_dec : EqDecision effect.
Proof. solve_decision. Defined.

(** The events the shim itself puts on its channel, and the guest's. *)
Inductive event :=
  | TaskDelete (id : string) (pid status : Z)
  | TaskPaused (id : string)
  | TaskResumed (id : string)
  | Envelope (topic : string) (id : string).

#[export] Instance event_eq_dec : EqDecision event.
Proof. solve_decision. Defined.

(** The [events] channel: what was sent on it, whether [eventsDone] is closed and
    whether the channel itself is.  The buffer's size bounds how long a sender
    waits for the forwarder, not what it sends, and is not represented. *)
Record evChan := mkEv { ev_queue : list event; ev_done : bool; ev_closed : bool }.

(** [w_frozen]: the guest's writable file systems are frozen; [w_stopped]: the
    vCPUs are; [w_sched]: the goroutines [requestShutdownAndExit] was spawned in,
    by reason. *)
Record world := mkWorld {
  w_log : list effect;
  w_frozen : bool;
  w_stopped : bool;
  w_sched : list string;
  w_crashed : option string
}.

Record processIOState := mkPIO {
  pio_stdin : string;
  pio_stdout : string;
  pio_stderr : string;
  pio_terminal : bool;
  pio_forwarder : option nat
}.

Record taskIO := mkTaskIO { io_init : processIOState; io_exec : gmap string processIOState }.

(** [mountCleanup] is a closure: the handle of the mount set it releases. *)
Record container := mkContainer {
  c_pid : Z;
  c_io : option taskIO;
  c_mountCleanup : option nat
}.

Record service := mkService {
  s_stateMachine : StateMachine;
  s_vmLifecycle : Manager;
  s_connManager : ConnectionManager;
  s_container : option container;
  s_containerID : string;
  s_cpuControllers : gmap string nat;
  s_memControllers : gmap string nat;
  s_events : evChan;
  s_shutdownRequested : bool;
  s_shutdownOnce : bool;
  s_inflight : Z;
  s_paused : bool;
  s_world : world
}.

Definition set_stateMachine (v : StateMachine) (s : service) : service :=
  mkService v (s_vmLifecycle s) (s_connManager s) (s_container s) (s_containerID s)
    (s_cpuControllers s) (s_memControllers s) (s_events s) (s_shutdownRequested s)
    (s_shutdownOnce s) (s_inflight s) (s_paused s) (s_world s).
Definition set_vmLifecycle (v : Manager) (s : service) : service :=
  mkService (s_stateMachine s) v (s_connManager s) (s_container s) (s_containerID s)
    (s_cpuControllers s) (s_memControllers s) (s_events s) (s_shutdownRequested s)
    (s_shutdownOnce s) (s_inflight s) (s_paused s) (s_world s).
Definition set_connManager (v : ConnectionManager) (s : service) : service :=
  mkService (s_stateMachine s) (s_vmLifecycle s) v (s_container s) (s_containerID s)
    (s_cpuControllers s) (s_memControllers s) (s_events s) (s_shutdownRequested s)
    (s_shutdownOnce s) (s_inflight s) (s_paused s) (s_world s).
Definition set_container (v : option container) (s : service) : service :=
  mkService (s_stateMachine s) (s_vmLifecycle s) (s_connManager s) v (s_containerID s)
    (s_cpuControllers s) (s_memControllers s) (s_events s) (s_shutdownRequested s)
    (s_shutdownOnce s) (s_inflight s) (s_paused s) (s_world s).
Definition set_containerID (v : string) (s : service) : service :=
  mkService (s_stateMachine s) (s_vmLifecycle s) (s_connManager s) (s_container s) v
    (s_cpuControllers s) (s_memControllers s) (s_events s) (s_shutdownRequested s)
    (s_shutdownOnce s) (s_inflight s) (s_paused s) (s_world s).
Definition set_cpuControllers (v : gmap string nat) (s : service) : service :=
  mkService (s_stateMachine s) (s_vmLifecycle s) (s_connManager s) (s_container s)
    (s_containerID s) v (s_memControllers s) (s_events s) (s_shutdownRequested s)
    (s_shutdownOnce s) (s_inflight s) (s_paused s) (s_world s).
Definition set_memControllers (v : gmap string nat) (s : service) : service :=
  mkService (s_stateMachine s) (s_vmLifecycle s) (s_connManager s) (s_container s)
    (s_containerID s) (s_cpuControllers s) v (s_events s) (s_shutdownRequested s)
    (s_shutdownOnce s) (s_inflight s) (s_paused s) (s_world s).
Definition set_events (v : evChan) (s : service) : service :=
  mkService (s_stateMachine s) (s_vmLifecycle s) (s_connManager s) (s_container s)
    (s_containerID s) (s_cpuControllers s) (s_memControllers s) v (s_shutdownRequested s)
    (s_shutdownOnce s) (s_inflight s) (s_paused s) (s_world s).
Definition set_shutdownRequested (v : bool) (s : service) : service :=
  mkService (s_stateMachine s) (s_vmLifecycle s) (s_connManager s) (s_container s)
    (s_containerID s) (s_cpuControllers s) (s_memControllers s) (s_events s) v
    (s_shutdownOnce s) (s_inflight s) (s_paused s) (s_world s).
Definition set_shutdownOnce (v : bool) (s : service) : service :=
  mkService (s_stateMachine s) (s_vmLifecycle s) (s_connManager s) (s_container s)
    (s_containerID s) (s_cpuControllers s) (s_memControllers s) (s_events s)
    (s_shutdownRequested s) v (s_inflight s) (s_paused s) (s_world s).
Definition set_inflight (v : Z) (s : service) : service :=
  mkService (s_stateMachine s) (s_vmLifecycle s) (s_connManager s) (s_container s)
    (s_containerID s) (s_cpuControllers s) (s_memControllers s) (s_events s)
    (s_shutdownRequested s) (s_shutdownOnce s) v (s_paused s) (s_world s).
Definition set_paused (v : bool) (s : service) : service :=
  mkService (s_stateMachine s) (s_vmLifecycle s) (s_connManager s) (s_container s)
    (s_containerID s) (s_cpuControllers s) (s_memControllers s) (s_events s)
    (s_shutdownRequested s) (s_shutdownOnce s) (s_inflight s) v (s_world s).
Definition set_world (v : world) (s : service) : service :=
  mkService (s_stateMachine s) (s_vmLifecycle s) (s_connManager s) (s_container s)
    (s_containerID s) (s_cpuControllers s) (s_memControllers s) (s_events s)
    (s_shutdownRequested s) (s_shutdownOnce s) (s_inflight s) (s_paused s) v.

Definition set_log (l : list effect) (w : world) : world :=
  mkWorld l (w_frozen w) (w_stopped w) (w_sched w) (w_crashed w).

Definition emit (e : effect) (s : service) : service :=
  set_world (set_log (w_log (s_world s) ++ [e]) (s_world s)) s.

Definition crash (msg : string) (s : service) : service :=
  let w := s_world s in
  set_world (mkWorld (w_log w) (w_frozen w) (w_stopped w) (w_sched w) (Some msg)) s.

Definition schedule (reason : string) (s : service) : service :=
  let w := s_world s in
  set_world (mkWorld (w_log w) (w_frozen w) (w_stopped w) (w_sched w ++ [reason]) (w_crashed w)) s.

Definition set_guest (frozen stopped : bool) (s : service) : service :=
  let w := s_world s in
  set_world (mkWorld (w_log w) frozen stopped (w_sched w) (w_crashed w)) s.

Definition NewService : service :=
  mkService NewStateMachine NewManager NewConnectionManager None "" ∅ ∅
    (mkEv [] false false) false false 0 false (mkWorld [] false false [] None).

(** ** Actions *)

Abbreviation sprog := (prog service).

(** No action of a dead process has an effect. *)
Definition guarded {B} (f : service → B * service) (s : service) : B * service :=
  match w_crashed (s_world s) with
  | Some _ => ((f s).1, s)
  | None => f s
  end.

Definition act {B} (f : service → B * service) : sprog B := Act (guarded f) Ret.

(** An effect with a given answer. *)
Definition ext {B} (e : effect) (answer : B) : sprog B := act (λ s, (answer, emit e s)).

Definition get {B} (f : service → B) : sprog B := act (λ s, (f s, s)).
Definition put (f : service → service) : sprog unit := act (λ s, (tt, f s)).

(** A method of the state machine, of the connection manager. *)
Fixpoint lift_sm {A} (p : prog StateMachine A) : sprog A :=
  match p with
  | Ret a => Ret a
  | Act f k =>
      Act (guarded (λ s, let '(b, sm) := f (s_stateMachine s) in (b, set_stateMachine sm s)))
          (λ b, lift_sm (k b))
  end.

Fixpoint lift_conn {A} (p : prog ConnectionManager A) : sprog A :=
  match p with
  | Ret a => Ret a
  | Act f k =>
      Act (guarded (λ s, let '(b, c) := f (s_connManager s) in (b, set_connManager c s)))
          (λ b, lift_conn (k b))
  end.

(** Return the error of [p], or go on with its value. *)
Notation "x <-? p ;; k" :=
  (pbind p (λ r, match r with Ok x => k | Err e => Ret (Err e) end))
  (at level 100, p at next level, k at level 200, right associativity) : prog_scope.

(** [errgrpc.ToGRPC] keeps the class and the text. *)
Definition ToGRPC (e : error) : error := e.

Definition of_opt (o : option error) : res unit :=
  match o with Some e => Err e | None => Ok tt end.

(** ** Admission and shutdown *)

Definition isShuttingDown : sprog bool :=
  r <- get s_shutdownRequested ;;
  if r : bool then Ret true else lift_sm IsShuttingDown.

Definition add_inflight (n : Z) : sprog unit :=
  put (λ s, set_inflight (int64_wrap (s_inflight s + n)) s).

Definition shutting_down_err : error :=
  mkError ErrFailedPrecondition "shim is shutting down".

Definition beginRPC (allowDuringShutdown : bool) : sprog (res unit) :=
  b1 <- (if allowDuringShutdown then Ret false else isShuttingDown) ;;
  if b1 : bool then Ret (Err shutting_down_err)
  else
    _ <- add_inflight 1 ;;
    b2 <- (if allowDuringShutdown then Ret false else isShuttingDown) ;;
    if b2 : bool then
      _ <- add_inflight (-1) ;;
      Ret (Err shutting_down_err)
    else Ret (Ok tt).

(** A handler: [beginRPC], the body, and the deferred [done]. *)
Definition rpc {A} (allow : bool) (body : sprog (res A)) : sprog (res A) :=
  b <- beginRPC allow ;;
  match b with
  | Err e => Ret (Err e)
  | Ok _ => r <- body ;; _ <- add_inflight (-1) ;; Ret r
  end.

(** [closeEvents], once. *)
Definition closeEvents (s : service) : option error * service :=
  if ev_done (s_events s) then (None, s)
  else (None, set_events (mkEv (ev_queue (s_events s)) true true) s).

(** [send]: a select on [eventsDone] and on the channel.  Both cases are ready
    once [closeEvents] has run, and Go picks one ([pickDone]); sending on the
    closed channel panics. *)
Definition send (pickDone : bool) (ev : event) : sprog unit :=
  put (λ s, let c := s_events s in
            if ev_done c && pickDone then s
            else if ev_closed c then crash "send on closed channel" s
            else set_events (mkEv (ev_queue c ++ [ev]) (ev_done c) (ev_closed c)) s).

(** [Shutdown] of one forwarder or of a list of them; a nil forwarder is
    dereferenced. *)
Definition shut_io (f : option nat) (s : service) : service :=
  match f with
  | Some f => emit (IOShutdown f) s
  | None => crash "invalid memory address or nil pointer dereference" s
  end.

Definition shut_ios (fs : list (option nat)) (s : service) : service :=
  foldl (λ s f, match w_crashed (s_world s) with Some _ => s | None => shut_io f s end) s fs.

Definition io_forwarders (io : option taskIO) : list (option nat) :=
  match io with
  | Some t => pio_forwarder (io_init t) :: map (λ kv, pio_forwarder kv.2) (map_to_list (io_exec t))
  | None => []
  end.

Definition stop_all (cs : list nat) (s : service) : service :=
  foldl (λ s c, emit (CtrlStop c) s) s cs.

Definition stopAllHotplugControllers (s : service) : option error * service :=
  let cs := map snd (map_to_list (s_cpuControllers s)) in
  let ms := map snd (map_to_list (s_memControllers s)) in
  (None, stop_all (cs ++ ms) (set_memControllers ∅ (set_cpuControllers ∅ s))).

(** What the outside answers during a cleanup. *)
Record CleanupEnv := mkCleanupEnv {
  ce_ioErr : option error;
  ce_connErr : client → option error;
  ce_vmErr : option error;
  ce_netErr : option error;
  ce_mountErr : option error
}.

Definition shutdownAllIO (ce : CleanupEnv) (s : service) : option error * service :=
  match s_container s with
  | Some c => (ce_ioErr ce, shut_ios (io_forwarders (c_io c)) s)
  | None => (None, s)
  end.

Definition extractMountCleanup (s : service) : option nat * service :=
  match s_container s with
  | None => (None, s)
  | Some c => (c_mountCleanup c, set_container (Some (mkContainer (c_pid c) (c_io c) None)) s)
  end.

Definition vm_shutdown (ce : CleanupEnv) (s : service) : option error * service :=
  let '(o, m) := Shutdown (ce_vmErr ce) (s_vmLifecycle s) in
  let s1 := set_vmLifecycle m s in
  let s2 := match m_instance (s_vmLifecycle s) with INil => s1 | _ => emit VMShutdown s1 end in
  match o with
  | Val err => (err, s2)
  | Panic msg => (None, crash msg s1)
  end.

Definition conn_close (ce : CleanupEnv) (s : service) : option error * service :=
  let '(err, c) := Close (ce_connErr ce) (s_connManager s) in (err, set_connManager c s).

Definition net_release (ce : CleanupEnv) (id : string) (s : service) : option error * service :=
  (ce_netErr ce, emit (NetRelease id) s).

Definition mount_cleanup (ce : CleanupEnv) (h : option nat) (s : service) : option error * service :=
  match h with
  | None => (None, s)
  | Some h => (ce_mountErr ce, emit (MountCleanup h) s)
  end.

Definition buildCleanupPhases (ce : CleanupEnv) (containerID : string) (mountCleanup : option nat)
    : CleanupPhases service :=
  mkPhases (Some stopAllHotplugControllers)
    (Some (shutdownAllIO ce))
    (Some (conn_close ce))
    (Some (vm_shutdown ce))
    (Some (λ s, if decide (containerID = "") then (None, s) else net_release ce containerID s))
    (Some (mount_cleanup ce mountCleanup))
    (Some closeEvents).

(** The orchestrator's loop with one action per phase. *)
Fixpoint exec_prog (ps : list (@cleanupPhase service)) (r : ShutdownResult) : sprog ShutdownResult :=
  match ps with
  | [] => Ret r
  | p :: ps' =>
      match ph_fn p, ph_done p with
      | None, _ | _, true => exec_prog ps' r
      | Some fn, false =>
          err <- act fn ;;
          exec_prog ps' (Add r (ph_name p) err)
      end
  end.

Definition shutdown (ce : CleanupEnv) : sprog (option error) :=
  _ <- put (set_shutdownRequested true) ;;
  _ <- lift_sm (ForceTransition StateShuttingDown) ;;
  containerID <- get s_containerID ;;
  mc <- act extractMountCleanup ;;
  result <- exec_prog (NewCleanupOrchestrator (buildCleanupPhases ce containerID mc)) (mkResult []) ;;
  _ <- put (emit NetClose) ;;
  Ret (AsError result).

(** The wait for in-flight requests: one look per 10 ms tick, at most the 500 of
    the five-second timer.  [true] when the last look saw none. *)
Fixpoint drain (ticks : nat) : sprog bool :=
  n <- get s_inflight ;;
  if (0 <? n)%Z then
    match ticks with
    | O => Ret false
    | S t => drain t
    end
  else Ret true.

Definition drain_ticks : nat := 500.

(** [requestShutdownAndExit]: [svc] is [None] when there is no shutdown service,
    else whether its callbacks end within the five seconds they are given. *)
Definition requestShutdownAndExit (svc : option bool) (ce : CleanupEnv) : sprog unit :=
  started <- act (λ s, if s_shutdownOnce s then (false, s) else (true, set_shutdownOnce true s)) ;;
  if started : bool then
    _ <- put (set_shutdownRequested true) ;;
    _ <- lift_sm (ForceTransition StateShuttingDown) ;;
    _ <- drain drain_ticks ;;
    _ <- match svc with
         | Some false => Ret None
         | _ => shutdown ce
         end ;;
    put (λ s, crash "exit status 0" (emit (Exit 0) s))
  else Ret tt.

(** ** Creating a container *)

Record CreateRequest := mkCreateReq {
  cr_ID : string;
  cr_Bundle : string;
  cr_Checkpoint : string;
  cr_ParentCheckpoint : string;
  cr_Stdin : string;
  cr_Stdout : string;
  cr_Stderr : string;
  cr_Terminal : bool
}.

(** The answers of what [Create] calls: the KVM check, the bundle loader, the VM,
    mount, network and extras managers, QEMU, the guest, the I/O forwarder and
    the hotplug starters ([None]: no controller started). *)
Record CreateEnv := mkCreateEnv {
  e_kvm : option error;
  e_bundle : option error;
  e_vm : vmEnv;
  e_mounts : res (option nat);
  e_net : option error;
  e_extrasParse : res nat;
  e_config : option error;
  e_extrasDisk : res string;
  e_addDisk : option error;
  e_restored : bool;
  e_vmStart : option error;
  e_client : res nat;
  e_configure : option error;
  e_stream : option error;
  e_dial : res nat;
  e_bundleFiles : option error;
  e_bundleCreate : option error;
  e_forwardIO : res nat;
  e_guestCreate : res Z;
  e_cpuCtrl : option nat;
  e_memCtrl : option nat
}.

(** What [createState] carries from one phase to the next; [st_cleanup] is the
    stack of rollback steps, latest first. *)
Inductive cleanupStep := StepMounts (h : option nat) | StepNetwork (id : string).

Record createState := mkCS {
  st_mountCleanup : option nat;
  st_cleanup : list cleanupStep;
  st_forwarder : option nat
}.

Definition run_step (c : cleanupStep) : sprog unit :=
  match c with
  | StepMounts (Some h) => ext (MountCleanup h) tt
  | StepMounts None => Ret tt
  | StepNetwork id => ext (NetRelease id) tt
  end.

(** Last step added first; a failing step is logged and the rest still run. *)
Fixpoint rollback (steps : list cleanupStep) : sprog unit :=
  match steps with
  | [] => Ret tt
  | c :: steps' => _ <- run_step c ;; rollback steps'
  end.

Definition checkpoint_err : error :=
  mkError ErrNotImplemented "checkpoints not supported: not implemented".

Definition validateCreateRequest (r : CreateRequest) : sprog (res unit) :=
  if negb (bool_decide (cr_Checkpoint r = "")) || negb (bool_decide (cr_ParentCheckpoint r = ""))
  then Ret (Err checkpoint_err)
  else
    ok <- lift_sm TryStartCreating ;;
    if negb ok then
      state <- lift_sm State ;;
      if decide (state = StateDeleting) then
        Ret (Err (mkError ErrAlreadyExists "shim is deleting container; requires fresh shim per container"))
      else if decide (state = StateShuttingDown) then Ret (Err shutting_down_err)
      else Ret (Err (mkError ErrAlreadyExists "container creation already in progress"))
    else
      hasContainer <- get (λ s, match s_container s with Some _ => true | None => false end) ;;
      inst <- get (λ s, Instance_ (s_vmLifecycle s)) ;;
      if is_ok inst || hasContainer then
        _ <- lift_sm MarkCreationFailed ;;
        Ret (Err (mkError ErrAlreadyExists "shim already running a container; requires fresh shim per container"))
      else if ContainsAny (cr_ID r) "/\" then
        _ <- lift_sm MarkCreationFailed ;;
        Ret (Err (mkError ErrInvalidArgument
                    ("container ID contains invalid path separators: " +:+ fmt_q (cr_ID r))))
      else Ret (Ok tt).

(** [vmLifecycle.CreateVM], which locks the manager for its whole body. *)
Definition create_vm (env : CreateEnv) (r : CreateRequest) : sprog (res iface) :=
  act (λ s, let '(o, m) := CreateVM (cr_ID r) (cr_Bundle r) (e_vm env) (s_vmLifecycle s) in
            let s1 := set_vmLifecycle m s in
            (o, match o with Ok (IPtr (Some p)) => emit (VMCreate p) s1 | _ => s1 end)).

(** A call on the manager's instance that a nil pointer makes crash. *)
Definition on_vm {B} (dflt : B) (f : Manager → out B) : sprog B :=
  act (λ s, match f (s_vmLifecycle s) with
            | Val b => (b, s)
            | Panic msg => (dflt, crash msg s)
            end).

(** The phases before the VM runs.  The state so far is returned with the error,
    for the rollback. *)
Definition setupVMInstance (env : CreateEnv) (r : CreateRequest)
    : sprog (createState * option error) :=
  let st0 := mkCS None [] None in
  match e_kvm env with Some e => Ret (st0, Some e) | None =>
  match e_bundle env with Some e => Ret (st0, Some e) | None =>
    vmi <- create_vm env r ;;
    match vmi with Err e => Ret (st0, Some e) | Ok _ =>
      _ <- on_vm None SetVMExitCallback ;;
      match e_mounts env with Err e => Ret (st0, Some e) | Ok h =>
        _ <- ext (MountSetup h) tt ;;
        let st1 := mkCS h [StepMounts h] None in
        match e_net env with Some e => Ret (st1, Some e) | None =>
          _ <- ext (NetSetup (cr_ID r)) tt ;;
          let st2 := mkCS h [StepNetwork (cr_ID r); StepMounts h] None in
          match e_extrasParse env with
          | Err e => Ret (st2, Some (wrap "parse extras annotations" e))
          | Ok O => Ret (st2, None)
          | Ok (S _) =>
              match e_config env with Some e => Ret (st2, Some (wrap "get config" e)) | None =>
              match e_extrasDisk env with
              | Err e => Ret (st2, Some (wrap "create extras disk" e))
              | Ok diskPath =>
                  if decide (diskPath = "") then Ret (st2, None)
                  else
                    _ <- ext (AddDisk diskPath) tt ;;
                    match e_addDisk env with
                    | Some e => Ret (st2, Some (wrap "add extras disk" e))
                    | None => Ret (st2, None)
                    end
              end end
          end
        end
      end
    end
  end end.

Definition startVM (env : CreateEnv) : sprog (option error) :=
  _ <- ext VMStart tt ;;
  match e_vmStart env with Some e => Ret (Some e) | None =>
    _ <- lift_sm (SetIntentionalShutdown false) ;;
    vmc <- on_vm (Err vm_not_created) (Client (e_client env)) ;;
    match vmc with Err e => Ret (Some e) | Ok _ =>
      _ <- ext (Guest "Configure") tt ;;
      match e_configure env, e_restored env with
      | Some e, true => Ret (Some e)
      | _, _ =>
          _ <- ext (Guest "Stream") tt ;;
          Ret (e_stream env)
      end
    end
  end.

(** Returns the state with the forwarder in it, and the task's pid. *)
Definition createTaskInVM (env : CreateEnv) (st : createState) : sprog (res (createState * Z)) :=
  vmc <- on_vm (Err vm_not_created) (DialClient (e_dial env)) ;;
  match vmc with Err e => Ret (Err e) | Ok _ =>
  match e_bundleFiles env with Some e => Ret (Err e) | None =>
    _ <- ext (Guest "Bundle.Create") tt ;;
    match e_bundleCreate env with Some e => Ret (Err e) | None =>
    match e_forwardIO env with Err e => Ret (Err e) | Ok f =>
      _ <- ext (Guest "Task.Create") tt ;;
      match e_guestCreate env with
      | Err e => _ <- ext (IOShutdown f) tt ;; Ret (Err e)
      | Ok pid =>
          _ <- ext (IOStart f) tt ;;
          Ret (Ok (mkCS (st_mountCleanup st) (st_cleanup st) (Some f), pid))
      end
    end end
  end end.

Definition finalizeCreate (env : CreateEnv) (r : CreateRequest) (st : createState) (pid : Z)
    : sprog unit :=
  let c := mkContainer pid
             (Some (mkTaskIO (mkPIO (cr_Stdin r) (cr_Stdout r) (cr_Stderr r) (cr_Terminal r)
                                (st_forwarder st)) ∅))
             (st_mountCleanup st) in
  _ <- put (λ s, set_containerID (cr_ID r) (set_container (Some c) s)) ;;
  _ <- match e_cpuCtrl env with
       | Some k => put (λ s, set_cpuControllers (<[cr_ID r := k]> (s_cpuControllers s))
                               (emit (CtrlStart k) s))
       | None => Ret tt
       end ;;
  match e_memCtrl env with
  | Some k => put (λ s, set_memControllers (<[cr_ID r := k]> (s_memControllers s))
                          (emit (CtrlStart k) s))
  | None => Ret tt
  end.

(** The error path of each phase: roll back, then the deferred
    [MarkCreationFailed]. *)
Definition create_fail {A} (st : createState) (e : error) : sprog (res A) :=
  _ <- rollback (st_cleanup st) ;;
  _ <- lift_sm MarkCreationFailed ;;
  Ret (Err (ToGRPC e)).

Definition Create_body (env : CreateEnv) (r : CreateRequest) : sprog (res Z) :=
  v <- validateCreateRequest r ;;
  match v with Err e => Ret (Err e) | Ok _ =>
    p <- setupVMInstance env r ;;
    match p with
    | (st, Some e) => create_fail st e
    | (st, None) =>
        e <- startVM env ;;
        match e with
        | Some e => create_fail st e
        | None =>
            q <- createTaskInVM env st ;;
            match q with
            | Err e => create_fail st e
            | Ok (st', pid) =>
                _ <- finalizeCreate env r st' pid ;;
                _ <- lift_sm MarkCreated ;;
                Ret (Ok pid)
            end
        end
    end
  end.

Definition Create (env : CreateEnv) (r : CreateRequest) : sprog (res Z) :=
  rpc false (Create_body env r).

(** ** The other handlers *)

Definition getTaskClient (dial : nat → option error) : sprog (res client) :=
  r <- lift_conn (GetClient dial) ;;
  match r with
  | Ok c => Ret (Ok c)
  | Err e => Ret (Err (ToGRPC e))
  end.

(** [ResizePty], [Kill], [Pids], [Update], [Wait] and [Stats]: the request is
    passed to the guest. *)
Definition forwarded {A} (method : string) (dial : nat → option error) (answer : res A)
    : sprog (res A) :=
  rpc false (_ <-? getTaskClient dial ;; ext (Guest method) answer).

Definition Checkpoint : sprog (res unit) :=
  rpc false (Ret (Err (mkError ErrNotImplemented
    "checkpoint is not supported: VM-based runtime cannot snapshot process state"))).

Definition Start_body (execID : string) (dial : nat → option error) (answer : res Z)
    : sprog (res Z) :=
  _ <-? getTaskClient dial ;;
  resp <- ext (Guest "Task.Start") answer ;;
  match resp with
  | Err e => Ret (Err (ToGRPC e))
  | Ok pid =>
      _ <- (if decide (execID = "") then lift_sm MarkStarted else Ret None) ;;
      Ret (Ok pid)
  end.

Definition Start (execID : string) (dial : nat → option error) (answer : res Z) : sprog (res Z) :=
  rpc false (Start_body execID dial answer).

(** *** Delete *)

Record deleteCleanup := mkDC {
  dc_ioForwarders : list (option nat);
  dc_cpuController : option nat;
  dc_memController : option nat;
  dc_mountCleanup : option nat;
  dc_needNetworkClean : bool;
  dc_needVMShutdown : bool
}.

(** The section of [collectDeleteCleanup] under [containerMu]. *)
Definition collect_container (id execID : string) (s : service) : deleteCleanup * service :=
  let none := mkDC [] None None None false false in
  match s_container s with
  | None => (none, s)
  | Some c =>
      if negb (bool_decide (s_containerID s = id)) then (none, s)
      else if negb (bool_decide (execID = "")) then
        match c_io c with
        | None => (none, s)
        | Some io =>
            match io_exec io !! execID with
            | None => (none, s)
            | Some pio =>
                (mkDC [pio_forwarder pio] None None None false false,
                 set_container
                   (Some (mkContainer (c_pid c) (Some (mkTaskIO (io_init io) (delete execID (io_exec io))))
                            (c_mountCleanup c))) s)
            end
        end
      else
        (mkDC (io_forwarders (c_io c)) None None (c_mountCleanup c) true true,
         set_containerID "" (set_container None s))
  end.

(** The section under [controllerMu]. *)
Definition collect_controllers (id : string) (s : service) : (option nat * option nat) * service :=
  ((s_cpuControllers s !! id, s_memControllers s !! id),
   set_memControllers (delete id (s_memControllers s))
     (set_cpuControllers (delete id (s_cpuControllers s)) s)).

Definition collectDeleteCleanup (id execID : string) : sprog deleteCleanup :=
  d <- act (collect_container id execID) ;;
  if decide (execID = "") then
    cm <- act (collect_controllers id) ;;
    Ret (mkDC (dc_ioForwarders d) (fst cm) (snd cm) (dc_mountCleanup d)
           (dc_needNetworkClean d) (dc_needVMShutdown d))
  else Ret d.

Definition opt_list {A} (o : option A) : list A := match o with Some a => [a] | None => [] end.

Definition delete_phases (ce : CleanupEnv) (id : string) (d : deleteCleanup) : CleanupPhases service :=
  mkPhases None None None
    (Some (vm_shutdown ce))
    (Some (λ s, if dc_needNetworkClean d then net_release ce id s else (None, s)))
    (Some (mount_cleanup ce (dc_mountCleanup d)))
    None.

(** [ExecutePartial] from the VM phase: the three phases before it are skipped. *)
Definition runDeleteCleanup (ce : CleanupEnv) (id : string) (d : deleteCleanup) : sprog unit :=
  _ <- put (shut_ios (dc_ioForwarders d)) ;;
  _ <- put (stop_all (opt_list (dc_cpuController d) ++ opt_list (dc_memController d))) ;;
  if dc_needVMShutdown d then
    _ <- lift_sm (SetIntentionalShutdown true) ;;
    _ <- exec_prog
           (drop (default 0 (slices_Index phaseOrder PhaseVMShutdown))
              (NewCleanupOrchestrator (delete_phases ce id d))) (mkResult []) ;;
    put (schedule "container deleted")
  else Ret tt.

Record DeleteEnv := mkDeleteEnv {
  de_dial : nat → option error;
  de_answer : res (Z * Z);
  de_pickDone : bool;
  de_cleanup : CleanupEnv
}.

Definition delete_refusal (state : ShimState) : error :=
  if decide (state = StateCreating) then
    mkError ErrFailedPrecondition "cannot delete while container creation is in progress"
  else if decide (state = StateShuttingDown) then shutting_down_err
  else if decide (state = StateDeleting) then mkError ErrAlreadyExists "delete already in progress"
  else mkError ErrFailedPrecondition ("cannot delete in state: " +:+ String_ state).

Definition Delete_rest (id execID : string) (env : DeleteEnv) : sprog (res (Z * Z)) :=
  _ <-? getTaskClient (de_dial env) ;;
  resp <- ext (Guest "Task.Delete") (de_answer env) ;;
  match resp with
  | Err e =>
      if decide (execID = "") then
        _ <- lift_sm (SetIntentionalShutdown true) ;;
        _ <- put (schedule ("delete failed for " +:+ id)) ;;
        Ret (Err e)
      else Ret (Err e)
  | Ok (pid, status) =>
      _ <- (if decide (execID = "") then send (de_pickDone env) (TaskDelete id pid status)
            else Ret tt) ;;
      d <- collectDeleteCleanup id execID ;;
      _ <- runDeleteCleanup (de_cleanup env) id d ;;
      Ret (Ok (pid, status))
  end.

Definition Delete_body (id execID : string) (env : DeleteEnv) : sprog (res (Z * Z)) :=
  if decide (execID = "") then
    ok <- lift_sm TryStartDeleting ;;
    if negb ok then state <- lift_sm State ;; Ret (Err (delete_refusal state))
    else Delete_rest id execID env
  else Delete_rest id execID env.

Definition Delete (id execID : string) (env : DeleteEnv) : sprog (res (Z * Z)) :=
  rpc false (Delete_body id execID env).

(** *** Exec *)

Record ExecEnv := mkExecEnv {
  xe_dial : nat → option error;
  xe_forwardIO : res nat;
  xe_answer : option error
}.

Record ExecRequest := mkExecReq {
  xr_ID : string;
  xr_ExecID : string;
  xr_Stdin : string;
  xr_Stdout : string;
  xr_Stderr : string
}.

(** Registering the exec's I/O, under [containerMu]; [false] when the container
    is not there. *)
Definition exec_register (r : ExecRequest) (f : nat) (s : service) : bool * service :=
  match s_container s with
  | Some c =>
      if bool_decide (s_containerID s = xr_ID r) then
        let io := default (mkTaskIO (mkPIO "" "" "" false None) ∅) (c_io c) in
        let pio := mkPIO (xr_Stdin r) (xr_Stdout r) (xr_Stderr r) false (Some f) in
        (true, set_container
                 (Some (mkContainer (c_pid c)
                          (Some (mkTaskIO (io_init io) (<[xr_ExecID r := pio]> (io_exec io))))
                          (c_mountCleanup c))) s)
      else (false, emit (IOShutdown f) s)
  | None => (false, emit (IOShutdown f) s)
  end.

(** The failure path, under [containerMu]. *)
Definition exec_unregister (r : ExecRequest) (s : service) : service :=
  match s_container s with
  | Some c =>
      if bool_decide (s_containerID s = xr_ID r) then
        match c_io c with
        | Some io =>
            match io_exec io !! xr_ExecID r with
            | Some pio =>
                let s1 := shut_io (pio_forwarder pio) s in
                match w_crashed (s_world s1) with
                | Some _ => s1
                | None =>
                    set_container
                      (Some (mkContainer (c_pid c)
                               (Some (mkTaskIO (io_init io) (delete (xr_ExecID r) (io_exec io))))
                               (c_mountCleanup c))) s1
                end
            | None => s
            end
        | None => s
        end
      else s
  | None => s
  end.

Definition Exec_body (r : ExecRequest) (env : ExecEnv) : sprog (res unit) :=
  _ <-? getTaskClient (xe_dial env) ;;
  inst <- get (λ s, Instance_ (s_vmLifecycle s)) ;;
  match inst with
  | Err e => Ret (Err (ToGRPC e))
  | Ok _ =>
      match xe_forwardIO env with
      | Err e => Ret (Err (ToGRPC e))
      | Ok f =>
          found <- act (exec_register r f) ;;
          if negb found then
            Ret (Err (mkError ErrNotFound ("container " +:+ fmt_q (xr_ID r) +:+ " not found")))
          else
            _ <- put (emit (Guest "Task.Exec")) ;;
            match xe_answer env with
            | Some e => _ <- put (exec_unregister r) ;; Ret (Err (ToGRPC e))
            | None => _ <- put (emit (IOStart f)) ;; Ret (Ok tt)
            end
      end
  end.

Definition Exec (r : ExecRequest) (env : ExecEnv) : sprog (res unit) :=
  rpc false (Exec_body r env).

(** *** State and Connect *)

Inductive Status := CREATED | RUNNING | STOPPED | PAUSED.

Record StateResponse := mkStateResp {
  sr_Status : Status;
  sr_Pid : Z;
  sr_Stdin : string;
  sr_Stdout : string;
  sr_Stderr : string;
  sr_Terminal : bool
}.

(** The response with the host's paths of the init process, if its I/O is known. *)
Definition with_init_io (c : container) (st : StateResponse) : StateResponse :=
  match c_io c with
  | Some io =>
      let p := io_init io in
      mkStateResp (sr_Status st) (sr_Pid st) (pio_stdin p) (pio_stdout p) (pio_stderr p)
        (pio_terminal p)
  | None => st
  end.

Definition with_exec_io (execID : string) (c : container) (st : StateResponse) : StateResponse :=
  match c_io c with
  | Some io =>
      match io_exec io !! execID with
      | Some p => mkStateResp (sr_Status st) (sr_Pid st) (pio_stdin p) (pio_stdout p) (pio_stderr p)
                    (sr_Terminal st)
      | None => st
      end
  | None => st
  end.

Definition short_circuit (status : Status) (c : container) : StateResponse :=
  with_init_io c (mkStateResp status (c_pid c) "" "" "" false).

Definition State_guest (execID : string) (dial : nat → option error) (answer : res StateResponse)
    : sprog (res StateResponse) :=
  _ <-? getTaskClient dial ;;
  st <- ext (Guest "Task.State") answer ;;
  match st with
  | Err e => Ret (Err (ToGRPC e))
  | Ok st =>
      snap <- get s_container ;;
      match snap with
      | None => Ret (Ok st)
      | Some c => Ret (Ok (if decide (execID = "") then with_init_io c st
                           else with_exec_io execID c st))
      end
  end.

Definition State_body (execID : string) (dial : nat → option error) (answer : res StateResponse)
    : sprog (res StateResponse) :=
  snap <- get s_container ;;
  created <- (if decide (execID = "") then lift_sm IsCreatedNotStarted else Ret false) ;;
  match created, snap with
  | true, Some c => Ret (Ok (short_circuit CREATED c))
  | _, _ =>
      paused <- (if decide (execID = "") then get s_paused else Ret false) ;;
      match paused, snap with
      | true, Some c => Ret (Ok (short_circuit PAUSED c))
      | _, _ => State_guest execID dial answer
      end
  end.

Definition State_rpc (execID : string) (dial : nat → option error) (answer : res StateResponse)
    : sprog (res StateResponse) :=
  rpc false (State_body execID dial answer).

Definition Connect_body (id : string) (shimPid : Z) (dial : nat → option error) (answer : res Z)
    : sprog (res (Z * Z)) :=
  snap <- get (λ s, match s_container s with
                    | Some c => if decide (s_containerID s = id) then c_pid c else 0%Z
                    | None => 0%Z
                    end) ;;
  if negb (snap =? 0)%Z then Ret (Ok (shimPid, snap))
  else
    _ <-? getTaskClient dial ;;
    vr <- ext (Guest "Task.Connect") answer ;;
    match vr with
    | Err e => Ret (Err (ToGRPC e))
    | Ok pid => Ret (Ok (shimPid, pid))
    end.

Definition Connect (id : string) (shimPid : Z) (dial : nat → option error) (answer : res Z)
    : sprog (res (Z * Z)) :=
  rpc false (Connect_body id shimPid dial answer).

(** *** Pause and Resume *)

Record PauseEnv := mkPauseEnv {
  pe_dial : nat → option error;
  pe_freeze : option error;
  pe_thaw : option error;
  pe_vm : option error;
  pe_pickDone : bool
}.

(** The guest's answer to a freeze or thaw, with its effect when it succeeds. *)
Definition freezeGuestFilesystems (env : PauseEnv) : sprog (res unit) :=
  _ <-? getTaskClient (pe_dial env) ;;
  act (λ s, let s1 := emit (Guest "System.FreezeFilesystems") s in
            match pe_freeze env with
            | Some e => (Err e, s1)
            | None => (Ok tt, set_guest true (w_stopped (s_world s1)) s1)
            end).

Definition thawGuestFilesystems (env : PauseEnv) : sprog (res unit) :=
  _ <-? getTaskClient (pe_dial env) ;;
  act (λ s, let s1 := emit (Guest "System.ThawFilesystems") s in
            match pe_thaw env with
            | Some e => (Err e, s1)
            | None => (Ok tt, set_guest false (w_stopped (s_world s1)) s1)
            end).

(** [vmi.Pause] and [vmi.Resume] on the instance the handler looked up. *)
Definition vm_set_stopped (stop : bool) (inst : iface) (answer : option error) : sprog (res unit) :=
  act (λ s, match inst with
            | IPtr (Some _) =>
                let s1 := emit (if stop then VMPause else VMResume) s in
                match answer with
                | Some e => (Err e, s1)
                | None => (Ok tt, set_guest (w_frozen (s_world s1)) stop s1)
                end
            | _ => (Ok tt, crash "invalid memory address or nil pointer dereference" s)
            end).

Definition Pause_body (id : string) (env : PauseEnv) : sprog (res unit) :=
  inst <- get (λ s, Instance_ (s_vmLifecycle s)) ;;
  match inst with
  | Err e => Ret (Err (ToGRPC (wrap "pause" e)))
  | Ok vmi =>
      fr <- freezeGuestFilesystems env ;;
      match fr with
      | Err e => Ret (Err (ToGRPC (wrap "pause: freeze guest filesystems" e)))
      | Ok _ =>
          pr <- vm_set_stopped true vmi (pe_vm env) ;;
          match pr with
          | Err e =>
              _ <- thawGuestFilesystems env ;;
              Ret (Err (ToGRPC (wrap "pause vm" e)))
          | Ok _ =>
              _ <- put (set_paused true) ;;
              _ <- send (pe_pickDone env) (TaskPaused id) ;;
              Ret (Ok tt)
          end
      end
  end.

Definition Pause (id : string) (env : PauseEnv) : sprog (res unit) := rpc false (Pause_body id env).

Definition Resume_body (id : string) (env : PauseEnv) : sprog (res unit) :=
  inst <- get (λ s, Instance_ (s_vmLifecycle s)) ;;
  match inst with
  | Err e => Ret (Err (ToGRPC (wrap "resume" e)))
  | Ok vmi =>
      rr <- vm_set_stopped false vmi (pe_vm env) ;;
      match rr with
      | Err e => Ret (Err (ToGRPC (wrap "resume vm" e)))
      | Ok _ =>
          _ <- put (set_paused false) ;;
          tr <- thawGuestFilesystems env ;;
          match tr with
          | Err e => Ret (Err (ToGRPC (wrap "resume: thaw guest filesystems" e)))
          | Ok _ =>
              _ <- send (pe_pickDone env) (TaskResumed id) ;;
              Ret (Ok tt)
          end
      end
  end.

Definition Resume (id : string) (env : PauseEnv) : sprog (res unit) := rpc false (Resume_body id env).

(** *** CloseIO and Shutdown *)

Definition close_stdin (id execID : string) (s : service) : service :=
  match s_container s with
  | Some c =>
      if bool_decide (s_containerID s = id) then
        match c_io c with
        | Some io =>
            let f := if decide (execID = "") then Some (pio_forwarder (io_init io))
                     else pio_forwarder <$> io_exec io !! execID in
            match f with
            | Some (Some f) => emit (IOCloseStdin f) s
            | Some None => crash "invalid memory address or nil pointer dereference" s
            | None => s
            end
        | None => s
        end
      else s
  | None => s
  end.

Definition CloseIO (id execID : string) (stdin : bool) (dial : nat → option error)
    (answer : option error) : sprog (res unit) :=
  rpc false
    (_ <- (if stdin then put (close_stdin id execID) else Ret tt) ;;
     _ <-? getTaskClient dial ;;
     ext (Guest "Task.CloseIO") (of_opt answer)).

(** [Shutdown], with a shutdown service: the exit sequence is spawned. *)
Definition Shutdown_rpc : sprog (res unit) :=
  rpc true
    (_ <- lift_sm (SetIntentionalShutdown true) ;;
     _ <- put (schedule "shutdown rpc") ;;
     Ret (Ok tt)).
