(* ===== verification/ShimProps.v ===== *)
(** Theorems about the shim's task service (ShimService). *)
From S2P Require Import Prelude Conc GoStrings ShimState Cleanup VMManager ConnManager ShimService.

(** ** Resources in the effect log *)

Definition net_delta (id : string) (e : effect) : Z :=
  match e with
  | NetSetup id' => if decide (id' = id) then 1 else 0
  | NetRelease id' => if decide (id' = id) then -1 else 0
  | _ => 0
  end.

Definition mount_delta (h : nat) (e : effect) : Z :=
  match e with
  | MountSetup (Some h') => if decide (h' = h) then 1 else 0
  | MountCleanup h' => if decide (h' = h) then -1 else 0
  | _ => 0
  end.

(** VMs: one is up once created, until it is asked to shut down. *)
Definition vm_delta (e : effect) : Z :=
  match e with VMCreate _ => 1 | VMShutdown => -1 | _ => 0 end.

Definition vm_up (s : service) : Z :=
  match m_instance (s_vmLifecycle s) with IPtr (Some _) => 1 | _ => 0 end.

(** The forwarders and controllers started, in order. *)
Definition starts : list effect → list effect :=
  List.filter (λ e, match e with IOStart _ | CtrlStart _ => true | _ => false end).

Lemma starts_app l1 l2 : starts (l1 ++ l2) = starts l1 ++ starts l2.
Proof. apply List.filter_app. Qed.

Definition balance (delta : effect → Z) (l : list effect) : Z := foldr (λ e n, (delta e + n)%Z) 0%Z l.

Lemma balance_app d l1 l2 : balance d (l1 ++ l2) = (balance d l1 + balance d l2)%Z.
Proof. induction l1 as [|e l1 IH]; simpl; [done|]. unfold balance in *. simpl in *. lia. Qed.

(** A shim that has just been started: alive, idle, no container and no VM. *)
Record fresh (s : service) : Prop := {
  fr_alive : w_crashed (s_world s) = None;
  fr_state : sm_state (s_stateMachine s) = StateIdle;
  fr_req : s_shutdownRequested s = false;
  fr_container : s_container s = None;
  fr_vm : m_instance (s_vmLifecycle s) = INil
}.


(** ** Running a handler alone *)

Definition alive (s : service) : Prop := w_crashed (s_world s) = None.

Lemma run_act {B} (f : service → B * service) s : alive s → run (act f) s = f s.
Proof. intros H. unfold act, guarded; simpl. rewrite H. by destruct (f s). Qed.

Lemma run_get {B} (f : service → B) s : alive s → run (get f) s = (f s, s).
Proof. intros H. unfold get. by rewrite run_act. Qed.

Lemma run_put (f : service → service) s : alive s → run (put f) s = (tt, f s).
Proof. intros H. unfold put. by rewrite run_act. Qed.

Lemma run_ext {B} e (a : B) s : alive s → run (ext e a) s = (a, emit e s).
Proof. intros H. unfold ext. by rewrite run_act. Qed.

Lemma set_sm_id s : set_stateMachine (s_stateMachine s) s = s.
Proof. by destruct s. Qed.

Lemma set_conn_id s : set_connManager (s_connManager s) s = s.
Proof. by destruct s. Qed.

Lemma run_lift_sm {A} (p : prog StateMachine A) s : alive s →
  run (lift_sm p) s = let '(a, sm) := run p (s_stateMachine s) in (a, set_stateMachine sm s).
Proof.
  revert s. induction p as [a|B f k IH]; intros s H; simpl.
  - by rewrite set_sm_id.
  - unfold guarded. rewrite H. destruct (f (s_stateMachine s)) as [b sm].
    rewrite IH by done. simpl. by destruct (run (k b) sm).
Qed.

Lemma run_lift_conn {A} (p : prog ConnectionManager A) s : alive s →
  run (lift_conn p) s = let '(a, c) := run p (s_connManager s) in (a, set_connManager c s).
Proof.
  revert s. induction p as [a|B f k IH]; intros s H; simpl.
  - by rewrite set_conn_id.
  - unfold guarded. rewrite H. destruct (f (s_connManager s)) as [b c].
    rewrite IH by done. simpl. by destruct (run (k b) c).
Qed.

Lemma run_Ret {A} (a : A) (s : service) : run (Ret a) s = (a, s).
Proof. done. Qed.

(** Methods of the state machine on a known state. *)
Lemma run_cas_bool from to sm :
  run (atomically (cas from to)) sm = cas from to sm.
Proof. unfold atomically. simpl. by destruct (cas from to sm). Qed.

Lemma run_is_state st sm : run (is_state st) sm = (bool_decide (sm_state sm = st), sm).
Proof. done. Qed.

Lemma run_set_intentional v sm :
  run (SetIntentionalShutdown v) sm = (tt, mkSM (sm_state sm) v).
Proof. done. Qed.

Lemma run_State sm : run State sm = (sm_state sm, sm).
Proof. done. Qed.

Lemma run_force to sm :
  run (ForceTransition to) sm = (sm_state sm, mkSM to (sm_intentionalShutdown sm)).
Proof. done. Qed.

Lemma run_mark_ok from to sm : sm_state sm = from →
  run (mark from to) sm = (None, mkSM to (sm_intentionalShutdown sm)).
Proof. intros H. unfold mark. simpl. by rewrite cas_true. Qed.

(** Execute the program at the head of the goal as far as its answers are known. *)
Ltac srun1 :=
  first
    [ rewrite run_bind
    | rewrite run_Ret
    | rewrite run_set_intentional
    | rewrite run_force
    | rewrite run_act by (simpl; done)
    | rewrite run_get by (simpl; done)
    | rewrite run_put by (simpl; done)
    | rewrite run_ext by (simpl; done)
    | rewrite run_lift_sm by (simpl; done)
    | rewrite run_lift_conn by (simpl; done) ].
Ltac srun := repeat (srun1; cbv beta iota).

(** Admission of a request by a shim that is not shutting down. *)
Definition admitted (s : service) : Prop :=
  alive s ∧ s_shutdownRequested s = false ∧ sm_state (s_stateMachine s) ≠ StateShuttingDown.


Lemma run_isShuttingDown s : admitted s → run isShuttingDown s = (false, s).
Proof.
  intros (Ha & Hr & Hs). unfold alive in Ha. unfold isShuttingDown. srun. rewrite Hr. cbv iota.
  srun. unfold IsShuttingDown. rewrite run_is_state, bool_decide_false, set_sm_id by done. done.
Qed.

Lemma run_beginRPC s : admitted s →
  run (beginRPC false) s = (Ok tt, set_inflight (int64_wrap (s_inflight s + 1)) s).
Proof.
  intros Hs. unfold beginRPC, add_inflight. rewrite run_bind, run_isShuttingDown by done.
  cbv beta iota. destruct Hs as (Ha & Hr & Hs). unfold alive in Ha. srun1.
  rewrite run_put by done. cbv beta iota.
  rewrite run_bind, run_isShuttingDown by done. done.
Qed.

(** The deferred [done]: it runs in a live process only. *)
Definition dec_inflight (s : service) : service :=
  match w_crashed (s_world s) with
  | Some _ => s
  | None => set_inflight (int64_wrap (s_inflight s + -1)) s
  end.

Lemma run_rpc {A} (body : sprog (res A)) s : admitted s →
  run (rpc false body) s =
    let '(r, s1) := run body (set_inflight (int64_wrap (s_inflight s + 1)) s) in
    (r, dec_inflight s1).
Proof.
  intros Hs. unfold rpc. rewrite run_bind, run_beginRPC by done. cbv beta iota.
  rewrite run_bind. destruct (run body _) as [r s1]. rewrite run_bind.
  unfold add_inflight, put, act, dec_inflight. cbn. unfold guarded.
  by destruct (w_crashed (s_world s1)).
Qed.

Lemma fresh_admitted s : fresh s → admitted s.
Proof. intros []. split_and!; [done|done|congruence]. Qed.

(** ** Create *)

(** The forwarders [shutdownAllIO] and [collectDeleteCleanup] would shut down. *)
Definition forwarders (s : service) : list (option nat) :=
  match s_container s with Some c => io_forwarders (c_io c) | None => [] end.

(** What a successful [Create] leaves. *)
Record created (env : CreateEnv) (r : CreateRequest) (pid : Z) (s' : service) : Prop := {
  cd_guest : e_guestCreate env = Ok pid;
  cd_state : sm_state (s_stateMachine s') = StateCreated;
  cd_container : ∃ c, s_container s' = Some c ∧ c_pid c = pid ∧ Ok (c_mountCleanup c) = e_mounts env;
  cd_id : s_containerID s' = cr_ID r;
  cd_io : Forall is_Some (forwarders s');
  cd_vm : ∃ p, m_instance (s_vmLifecycle s') = IPtr (Some p);
  cd_cpu : s_cpuControllers s' !! cr_ID r = e_cpuCtrl env ∨ e_cpuCtrl env = None;
  cd_mem : s_memControllers s' !! cr_ID r = e_memCtrl env ∨ e_memCtrl env = None
}.

(** The log grew by a list in which network [id] and mount set [h] are set up
    [n] times more than released. *)
Definition grew (s s' : service) (n : Z) (id : string) (h : nat) : Prop :=
  ∃ l, w_log (s_world s') = w_log (s_world s) ++ l
       ∧ balance (net_delta id) l = n ∧ balance (mount_delta h) l = n.

Lemma run_validate_fresh r s : fresh s →
  ∃ v s', run (validateCreateRequest r) s = (v, s') ∧
  match v with
  | Err _ => s' = s
  | Ok _ => s' = set_stateMachine (mkSM StateCreating (sm_intentionalShutdown (s_stateMachine s))) s
  end.
Proof.
  intros [Ha Hst _ Hc Hm]. unfold validateCreateRequest.
  destruct (_ || _) eqn:Hck; [by eexists _, _; split; [apply run_Ret|]|].
  srun. unfold TryStartCreating. rewrite run_cas_bool, cas_true by done. cbn [negb].
  srun.
  cbn [s_container set_stateMachine s_vmLifecycle negb]. rewrite Hc.
  unfold Instance_. rewrite Hm. cbn [is_ok not_nil orb].
  destruct (ContainsAny _ _); [|eexists _, _; by rewrite run_Ret].
  srun. unfold MarkCreationFailed. rewrite run_mark_ok by done. cbv beta iota.
  eexists _, _. rewrite run_Ret. split; [done|]. simpl.
  destruct s as [[] ]; simpl in *. by subst.
Qed.

(** The managers' part of a service, all that the phases before the task's
    creation change besides the log. *)
Definition same_rest (s s' : service) : Prop :=
  s_connManager s' = s_connManager s ∧ s_events s' = s_events s
  ∧ s_shutdownRequested s' = s_shutdownRequested s.

Definition same_but_vm (s s' : service) : Prop :=
  alive s' ∧ s_stateMachine s' = s_stateMachine s ∧ s_container s' = s_container s
  ∧ s_containerID s' = s_containerID s ∧ s_inflight s' = s_inflight s ∧ same_rest s s'.

(** The log [l] of a stage agrees with the rollback steps it pushed. *)
Definition pushed (env : CreateEnv) (r : CreateRequest) (steps : list cleanupStep)
    (l : list effect) : Prop :=
  match steps with
  | [] => (∀ id, balance (net_delta id) l = 0%Z) ∧ (∀ h, balance (mount_delta h) l = 0%Z)
  | [StepMounts h] => e_mounts env = Ok h ∧ (∀ id, balance (net_delta id) l = 0%Z)
      ∧ (∀ k, balance (mount_delta k) l = mount_delta k (MountSetup h))
  | [StepNetwork id; StepMounts h] =>
      e_mounts env = Ok h ∧ id = cr_ID r
      ∧ (∀ i, balance (net_delta i) l = net_delta i (NetSetup id))
      ∧ (∀ k, balance (mount_delta k) l = mount_delta k (MountSetup h))
  | _ => False
  end.

(** The run ends here: give the witnesses, then the log and its balances. *)
Ltac stop_here := eexists _, _, _; split; [apply run_Ret|].
Ltac log_is := simpl; rewrite <- ?app_assoc; first [reflexivity | symmetry; apply app_nil_r].
Ltac balances := intros; unfold balance; simpl; repeat case_match; first [done | lia].
(** The manager holds a VM per VM created, and no nil pointer unless the
    constructor of the VM failed. *)
Definition vm_settled (env : CreateEnv) (s : service) (l : list effect) : Prop :=
  balance vm_delta l = vm_up s
  ∧ (is_ok (ve_newInstance (e_vm env)) = true → m_instance (s_vmLifecycle s) ≠ IPtr None).

Ltac settle_vm :=
  unfold vm_settled, vm_up; simpl;
  repeat match goal with H : m_instance (s_vmLifecycle _) = _ |- _ => rewrite !H; clear H end;
  split; [balances|try done].

Ltac settle_log :=
  split_and!;
  [ by repeat split
  | eexists; split; [log_is|]; unfold pushed; simpl; split_and?; first [done | settle_vm | balances]
  | done | done
  | try done; intros _; split_and!; by eauto ].

Lemma CreateVM_fresh id bundle env m : m_instance m = INil →
  (∃ p, CreateVM id bundle env m = (Ok (IPtr (Some p)), mkManager (IPtr (Some p))))
  ∨ ∃ e i, CreateVM id bundle env m = (Err e, mkManager i)
      ∧ (i = INil ∨ i = IPtr None ∧ is_ok (ve_newInstance env) = false).
Proof.
  destruct m as [i]. simpl. intros ->. unfold CreateVM, NewInstance. simpl.
  destruct (ve_mkdir env); [by eauto 7|]. destruct (ve_findQemu env); [by eauto 7|].
  destruct (ve_instMkdir env); [by eauto 7|]. destruct (ve_newInstance env); by eauto 7.
Qed.

Lemma run_setup env r s : alive s → m_instance (s_vmLifecycle s) = INil →
  ∃ st oe s', run (setupVMInstance env r) s = ((st, oe), s') ∧ same_but_vm s s' ∧
    (∃ l, w_log (s_world s') = w_log (s_world s) ++ l ∧
      pushed env r (st_cleanup st) l ∧ vm_settled env s' l ∧ starts l = []) ∧
    s_cpuControllers s' = s_cpuControllers s ∧ s_memControllers s' = s_memControllers s ∧
    (oe = None → (∃ p, m_instance (s_vmLifecycle s') = IPtr (Some p))
       ∧ Ok (st_mountCleanup st) = e_mounts env ∧ length (st_cleanup st) = 2%nat).
Proof.
  intros Ha Hm. unfold alive in Ha. unfold setupVMInstance, create_vm.
  destruct (e_kvm env); [stop_here; settle_log|].
  destruct (e_bundle env); [stop_here; settle_log|].
  srun1. rewrite run_act by done.
  destruct (CreateVM_fresh (cr_ID r) (cr_Bundle r) (e_vm env) (s_vmLifecycle s) Hm)
    as [[p He]|(e & i & He & Hi)]; rewrite He; cbv beta iota.
  2:{ stop_here. clear Hm. destruct Hi as [->|[-> Hi]]; settle_log; simpl; congruence. }
  clear Hm He.
  srun1. unfold on_vm. rewrite run_act by done. cbn [s_vmLifecycle emit set_world set_vmLifecycle SetVMExitCallback m_instance].
  cbv beta iota.
  destruct (e_mounts env) as [h|e] eqn:Hmt; [|stop_here; settle_log].
  srun. destruct (e_net env); [stop_here; settle_log|]. srun.
  destruct (e_extrasParse env) as [[|n]|e]; [stop_here; settle_log| |stop_here; settle_log].
  destruct (e_config env); [stop_here; settle_log|].
  destruct (e_extrasDisk env) as [dp|e]; [|stop_here; settle_log].
  case_decide; [stop_here; settle_log|]. srun.
  destruct (e_addDisk env); stop_here; settle_log.
Qed.

(** A stage that sets up and releases no VM, network or mounts, and starts [sts]. *)
Definition quiet (sts : list effect) (s s' : service) : Prop :=
  alive s' ∧ sm_state (s_stateMachine s') = sm_state (s_stateMachine s)
  ∧ s_container s' = s_container s ∧ s_containerID s' = s_containerID s
  ∧ s_inflight s' = s_inflight s ∧ s_vmLifecycle s' = s_vmLifecycle s
  ∧ s_cpuControllers s' = s_cpuControllers s ∧ s_memControllers s' = s_memControllers s
  ∧ same_rest s s'
  ∧ ∃ l, w_log (s_world s') = w_log (s_world s) ++ l ∧ starts l = sts ∧ balance vm_delta l = 0%Z
      ∧ (∀ id, balance (net_delta id) l = 0%Z) ∧ (∀ h, balance (mount_delta h) l = 0%Z).

Ltac settle_quiet :=
  unfold quiet; split_and!; try done; eexists; split; [log_is|split_and!; [done|balances..]].

Lemma run_startVM env s p : alive s → m_instance (s_vmLifecycle s) = IPtr (Some p) →
  ∃ oe s', run (startVM env) s = (oe, s') ∧ quiet [] s s'.
Proof.
  intros Ha Hm. unfold alive in Ha. unfold startVM, on_vm, Client. srun.
  destruct (e_vmStart env); [eexists _, _; split; [apply run_Ret|settle_quiet]|].
  srun. cbn [s_vmLifecycle set_stateMachine emit set_world]. rewrite Hm. cbv beta iota.
  destruct (e_client env) as [c|e]; [|eexists _, _; split; [apply run_Ret|settle_quiet]].
  srun. destruct (e_configure env), (e_restored env); srun;
    (eexists _, _; split; [reflexivity|settle_quiet]).
Qed.

Ltac end_quiet :=
  eexists _, _; split; [reflexivity|];
  first [settle_quiet | split_and!; [done|done|eexists; split; [done|settle_quiet]]].

Lemma run_createTask env st s p : alive s → m_instance (s_vmLifecycle s) = IPtr (Some p) →
  ∃ o s', run (createTaskInVM env st) s = (o, s') ∧
    match o with
    | Ok (st', pid) => e_guestCreate env = Ok pid ∧ st_mountCleanup st' = st_mountCleanup st
                       ∧ ∃ f, st_forwarder st' = Some f ∧ quiet [IOStart f] s s'
    | Err _ => quiet [] s s'
    end.
Proof.
  intros Ha Hm. unfold alive in Ha. unfold createTaskInVM, on_vm, DialClient, Client. srun.
  rewrite Hm. cbv beta iota.
  destruct (e_dial env); [|end_quiet]. destruct (e_bundleFiles env); [end_quiet|].
  srun. destruct (e_bundleCreate env); [end_quiet|].
  destruct (e_forwardIO env); [|end_quiet].
  srun. destruct (e_guestCreate env) eqn:Hg; srun; end_quiet.
Qed.

(** Rolling the stack back: every step runs, in order, and only the log grows. *)
Definition step_effects (c : cleanupStep) : list effect :=
  match c with
  | StepMounts (Some h) => [MountCleanup h]
  | StepMounts None => []
  | StepNetwork id => [NetRelease id]
  end.

Lemma run_rollback steps s : alive s →
  ∃ s', run (rollback steps) s = (tt, s') ∧ s' = foldl (λ s e, emit e s) s (concat (map step_effects steps)).
Proof.
  revert s. induction steps as [|c steps IH]; intros s Ha; [by eexists|].
  cbn [rollback map concat]. rewrite run_bind.
  destruct c as [[h|]|id]; cbn [run_step step_effects app foldl];
    rewrite ?run_Ret, ?run_ext by done; cbv beta iota; by apply IH.
Qed.

(** What [Create] leaves alone until it has succeeded. *)
Definition untouched (s s' : service) : Prop :=
  s_containerID s' = s_containerID s ∧ s_cpuControllers s' = s_cpuControllers s
  ∧ s_memControllers s' = s_memControllers s ∧ same_rest s s'.

Lemma emit_all_fields l s : let s' := foldl (λ s e, emit e s) s l in
  (alive s → alive s') ∧ s_stateMachine s' = s_stateMachine s ∧ s_container s' = s_container s
  ∧ s_inflight s' = s_inflight s ∧ s_vmLifecycle s' = s_vmLifecycle s
  ∧ w_log (s_world s') = w_log (s_world s) ++ l ∧ untouched s s'.
Proof.
  revert s. induction l as [|x l IH]; intros s; simpl; [by rewrite app_nil_r|].
  destruct (IH (emit x s)) as (? & ? & ? & ? & ? & Hw & ?). split_and!; try done.
  rewrite Hw. simpl. by rewrite <- app_assoc.
Qed.

Lemma run_create_fail {A} st e s : alive s → sm_state (s_stateMachine s) = StateCreating →
  ∃ s', run (@create_fail A st e) s = (Err e, s') ∧ alive s'
    ∧ sm_state (s_stateMachine s') = StateIdle ∧ s_container s' = s_container s
    ∧ s_inflight s' = s_inflight s ∧ s_vmLifecycle s' = s_vmLifecycle s
    ∧ w_log (s_world s') = w_log (s_world s) ++ concat (map step_effects (st_cleanup st))
    ∧ untouched s s'.
Proof.
  intros Ha Hs. unfold create_fail. rewrite run_bind.
  destruct (run_rollback (st_cleanup st) s Ha) as (s1 & -> & Hs1). cbv beta iota.
  destruct (emit_all_fields (concat (map step_effects (st_cleanup st))) s)
    as (Ha1 & Hsm & Hc & Hi & Hv & Hl & Hu). rewrite <- Hs1 in *. specialize (Ha1 Ha). clear Hs1.
  unfold alive in Ha1. srun. unfold MarkCreationFailed. rewrite run_mark_ok by congruence.
  cbv beta iota. eexists. split; [apply run_Ret|]. simpl. by split_and!.
Qed.

(** What a failed [Create] leaves: the shim idle again and nothing of the network
    or the mounts set up. *)
Definition rolled_back (env : CreateEnv) (s s' : service) : Prop :=
  alive s' ∧ sm_state (s_stateMachine s') = StateIdle ∧ s_container s' = None
  ∧ s_inflight s' = s_inflight s
  ∧ ∃ l, w_log (s_world s') = w_log (s_world s) ++ l
      ∧ (∀ id, balance (net_delta id) l = 0%Z) ∧ (∀ h, balance (mount_delta h) l = 0%Z)
      ∧ vm_settled env s' l ∧ starts l = [] ∧ untouched s s'.

(** The log of a stage followed by the rollback of what it pushed. *)
Lemma rollback_balances r env steps l : pushed env r steps l →
  (∀ id, balance (net_delta id) (l ++ concat (map step_effects steps)) = 0%Z)
  ∧ (∀ h, balance (mount_delta h) (l ++ concat (map step_effects steps)) = 0%Z).
Proof.
  intros H. destruct steps as [|[h|id] [|[h'|id'] [|]]]; simpl in *; try done.
  - rewrite app_nil_r. done.
  - destruct H as (_ & H1 & H2). split; intros; rewrite balance_app, ?H1, ?H2;
      destruct h; simpl; repeat case_decide; lia.
  - destruct H as (_ & -> & H1 & H2). split; intros; rewrite balance_app, ?H1, ?H2;
      destruct h'; simpl; repeat case_decide; lia.
Qed.

(** Between validation and the end of the handler: the shim is creating, the log
    is that of the setup followed by stages that set up nothing more and start [sts]. *)
Record creating (env : CreateEnv) (r : CreateRequest) (st : createState) (sts : list effect)
    (s0 s : service) : Prop := {
  ct_alive : alive s;
  ct_state : sm_state (s_stateMachine s) = StateCreating;
  ct_container : s_container s = None;
  ct_inflight : s_inflight s = s_inflight s0;
  ct_rest : untouched s0 s;
  ct_log : ∃ l, w_log (s_world s) = w_log (s_world s0) ++ l ∧ pushed env r (st_cleanup st) l
             ∧ vm_settled env s l ∧ starts l = sts
}.

Lemma pushed_app env r steps l l' : pushed env r steps l →
  (∀ id, balance (net_delta id) l' = 0%Z) → (∀ h, balance (mount_delta h) l' = 0%Z) →
  pushed env r steps (l ++ l').
Proof.
  intros H Hn Hm. unfold pushed in *.
  destruct steps as [|[h|id] [|[h'|id'] [|]]]; simpl in *; try done;
    split_and?; intros; rewrite ?balance_app, ?Hn, ?Hm, ?Z.add_0_r; naive_solver.
Qed.

Lemma vm_settled_app env s s' l l' : vm_settled env s l → s_vmLifecycle s' = s_vmLifecycle s →
  balance vm_delta l' = 0%Z → vm_settled env s' (l ++ l').
Proof.
  unfold vm_settled, vm_up. intros [Hb Hn] -> Hl'. rewrite balance_app, Hb, Hl'. split; [lia|done].
Qed.

Lemma creating_quiet env r st sts s0 s s' : creating env r st [] s0 s → quiet sts s s' →
  creating env r st sts s0 s'.
Proof.
  intros [Ha Hs Hc Hi (U1 & U2 & U3 & R1 & R2 & R3) (l & Hl & Hp & Hv & Hst)]
    (Ha' & Hs' & Hc' & Hid' & Hi' & Hv' & Hcp' & Hm' & (R1' & R2' & R3') & (l' & Hl' & Hst' & Hb & Hn & Hm)).
  split; [done|congruence|congruence|congruence|split_and!; unfold same_rest; split_and?; congruence|].
  exists (l ++ l'). split_and!.
  - by rewrite Hl', Hl, <- app_assoc.
  - by apply pushed_app.
  - by eapply vm_settled_app.
  - by rewrite starts_app, Hst, Hst'.
Qed.

Lemma steps_started steps :
  balance vm_delta (concat (map step_effects steps)) = 0%Z ∧ starts (concat (map step_effects steps)) = [].
Proof. induction steps as [|[[h|]|id] steps IH]; by simpl. Qed.

Lemma creating_fails env r st e s0 s : creating env r st [] s0 s →
  ∃ s', run (@create_fail Z st e) s = (Err e, s') ∧ rolled_back env s0 s'
    ∧ s_vmLifecycle s' = s_vmLifecycle s.
Proof.
  intros [Ha Hs Hc Hi Hu (l & Hl & Hp & Hv & Hst)].
  destruct (run_create_fail (A := Z) st e s Ha Hs) as (s' & Hr & Ha' & Hs' & Hc' & Hi' & Hv' & Hw & Hu').
  exists s'. split; [done|]. split; [|done]. unfold rolled_back. split_and!; try congruence; try done.
  apply rollback_balances in Hp as [Hbn Hbm]. destruct (steps_started (st_cleanup st)) as [Hb0 Hs0].
  exists (l ++ concat (map step_effects (st_cleanup st))). split_and!; try done.
  - by rewrite Hw, Hl, <- app_assoc.
  - by eapply vm_settled_app.
  - by rewrite starts_app, Hst, Hs0.
  - destruct Hu as (?&?&?&?&?&?), Hu' as (?&?&?&?&?&?). unfold untouched, same_rest. split_and!; congruence.
Qed.

(** What a successful [Create] has set up: a VM, the network and the mounts, each
    once, and has started: the forwarder it recorded and the controllers. *)
Record set_up (env : CreateEnv) (r : CreateRequest) (s s' : service) (l : list effect) : Prop := {
  su_log : w_log (s_world s') = w_log (s_world s) ++ l;
  su_net : ∀ id, balance (net_delta id) l = net_delta id (NetSetup (cr_ID r));
  su_mounts : ∀ m h, e_mounts env = Ok m → balance (mount_delta h) l = mount_delta h (MountSetup m);
  su_vm : balance vm_delta l = vm_up s';
  su_starts : ∃ f, forwarders s' = [Some f]
    ∧ starts l = IOStart f :: map CtrlStart (opt_list (e_cpuCtrl env) ++ opt_list (e_memCtrl env))
}.

(** The last phase, which cannot fail. *)
Lemma run_finalize env r st pid s0 s p f :
  creating env r st [IOStart f] s0 s → length (st_cleanup st) = 2%nat →
  Ok (st_mountCleanup st) = e_mounts env → e_guestCreate env = Ok pid →
  m_instance (s_vmLifecycle s) = IPtr (Some p) →
  ∀ st', st_mountCleanup st' = st_mountCleanup st → st_forwarder st' = Some f →
  ∃ s', run (_ <- finalizeCreate env r st' pid ;; _ <- lift_sm MarkCreated ;; Ret (Ok pid)) s = (Ok pid, s')
    ∧ alive s' ∧ created env r pid s' ∧ s_inflight s' = s_inflight s0 ∧ same_rest s0 s'
    ∧ ∃ l, set_up env r s0 s' l.
Proof.
  intros [Ha Hs Hc Hi (_ & _ & _ & R1 & R2 & R3) (l & Hl & Hp & [Hvb _] & Hst)] Hlen Hmt Hg Hv st' Hst' Hf.
  unfold alive in Ha.
  assert ((∀ id, balance (net_delta id) l = net_delta id (NetSetup (cr_ID r)))
    ∧ (∀ h, balance (mount_delta h) l = mount_delta h (MountSetup (st_mountCleanup st)))) as [Hn Hm].
  { unfold pushed in Hp.
    destruct (st_cleanup st) as [|[h|id] [|[h'|id'] [|]]]; simpl in Hlen; try done.
    destruct Hp as (Hh & -> & H1 & H2). rewrite Hh in Hmt. by injection Hmt as ->. }
  unfold finalizeCreate, MarkCreated.
  destruct (e_cpuCtrl env) as [kc|] eqn:Hcpu, (e_memCtrl env) as [km|] eqn:Hmem; srun;
    rewrite run_mark_ok by done; cbv beta iota; rewrite run_Ret;
    (eexists; split; [reflexivity|]); (split; [done|]); (split; [|split; [done|split; [done|]]]);
    try (split; rewrite ?Hcpu, ?Hmem; simpl; rewrite ?lookup_insert_eq; eauto;
         first [ by repeat constructor; eauto
               | eexists; split_and!; [done|done|]; simpl; congruence ]);
    (eexists; split;
      [ simpl; rewrite Hl, <- ?app_assoc; reflexivity
      | intros; rewrite ?balance_app, ?Hn; simpl; lia
      | intros m h Hh; rewrite Hh in Hmt; injection Hmt as <-; rewrite ?balance_app, ?Hm; simpl; lia
      | rewrite ?balance_app, ?Hvb; unfold vm_up; simpl; lia
      | exists f; split; [unfold forwarders; simpl; by rewrite Hf|by rewrite ?starts_app, Hst, ?Hcpu, ?Hmem] ]).
Qed.

Lemma run_Create_body env r s : fresh s →
  let '(o, s') := run (Create_body env r) s in
  alive s' ∧
  match o with
  | Err _ => rolled_back env s s'
  | Ok pid =>
      created env r pid s' ∧ s_inflight s' = s_inflight s ∧ same_rest s s' ∧ ∃ l, set_up env r s s' l
  end.
Proof.
  intros Hf. pose proof Hf as [Ha Hst _ Hc Hm]. unfold Create_body. rewrite run_bind.
  destruct (run_validate_fresh r s Hf) as (v & s1 & -> & Hv). destruct v as [[]|e].
  2:{ subst s1. cbv beta iota. rewrite run_Ret. split; [done|].
      unfold rolled_back. split_and!; try done. exists []. rewrite app_nil_r.
      unfold vm_settled, vm_up. by rewrite Hm. }
  cbv beta iota. rewrite run_bind.
  destruct (run_setup env r s1) as (st & oe & s2 & -> & Hq & Hl & Hcp & Hmc & Hok); [by subst|by subst|].
  assert (H2 : creating env r st [] s s2).
  { destruct Hq as (Ha2 & Hsm2 & Hc2 & Hid2 & Hi2 & R1 & R2 & R3). subst s1. simpl in *.
    split; [done|by rewrite Hsm2|congruence|done|by split_and!|done]. }
  cbv beta iota. destruct oe as [e|]; cbv beta iota.
  { destruct (creating_fails env r st e s s2 H2) as (s' & -> & Hrb & _). split; [apply Hrb|done]. }
  destruct (Hok eq_refl) as ((p & Hp) & Hmt & Hlen). rewrite run_bind.
  destruct (run_startVM env s2 p (ct_alive _ _ _ _ _ _ H2) Hp) as (oe & s3 & -> & Hq3).
  pose proof (creating_quiet _ _ _ _ _ _ _ H2 Hq3) as H3. cbv beta iota.
  destruct oe as [e|]; cbv beta iota.
  { destruct (creating_fails env r st e s s3 H3) as (s' & -> & Hrb & _). split; [apply Hrb|done]. }
  assert (Hp3 : m_instance (s_vmLifecycle s3) = IPtr (Some p)).
  { destruct Hq3 as (_ & _ & _ & _ & _ & -> & _). done. }
  rewrite run_bind.
  destruct (run_createTask env st s3 p (ct_alive _ _ _ _ _ _ H3) Hp3) as (o & s4 & -> & Ho).
  cbv beta iota. destruct o as [[st' pid]|e]; cbv beta iota.
  2:{ pose proof (creating_quiet _ _ _ _ _ _ _ H3 Ho) as H4.
      destruct (creating_fails env r st e s s4 H4) as (s' & -> & Hrb & _). split; [apply Hrb|done]. }
  destruct Ho as (Hg & Hms & f & Hfw & Hq4).
  pose proof (creating_quiet _ _ _ _ _ _ _ H3 Hq4) as H4.
  destruct (run_finalize env r st pid s s4 p f H4 Hlen Hmt Hg) with (st' := st')
    as (s' & -> & Ha' & Hcr & Hi' & Hrest & Hset); [|done..].
  destruct Hq4 as (_ & _ & _ & _ & _ & -> & _). done.
Qed.

(** The in-flight counter after a handler that left it as it found it. *)
Definition counted (s : service) : Prop := (0 ≤ s_inflight s < two63 - 1)%Z.

Lemma inflight_restored s s1 : counted s → alive s1 →
  s_inflight s1 = int64_wrap (s_inflight s + 1) → s_inflight (dec_inflight s1) = s_inflight s.
Proof.
  unfold counted, alive, dec_inflight. intros Hc -> Hi. simpl. rewrite Hi.
  unfold two63 in *. rewrite (int64_wrap_id (s_inflight s + 1)) by (unfold int64_range, two63; lia).
  rewrite int64_wrap_id by (unfold int64_range, two63; lia). lia.
Qed.

Lemma dec_inflight_fields s :
  s_stateMachine (dec_inflight s) = s_stateMachine s ∧ s_container (dec_inflight s) = s_container s
  ∧ s_containerID (dec_inflight s) = s_containerID s ∧ s_vmLifecycle (dec_inflight s) = s_vmLifecycle s
  ∧ s_world (dec_inflight s) = s_world s ∧ s_cpuControllers (dec_inflight s) = s_cpuControllers s
  ∧ s_memControllers (dec_inflight s) = s_memControllers s ∧ s_events (dec_inflight s) = s_events s
  ∧ s_connManager (dec_inflight s) = s_connManager s ∧ s_paused (dec_inflight s) = s_paused s
  ∧ s_shutdownRequested (dec_inflight s) = s_shutdownRequested s.
Proof. unfold dec_inflight. by destruct (w_crashed _). Qed.

(** C3: Create on a fresh shim, whatever its callees answer: on success the
    container, its id, VM and controllers are recorded, the state is Created
    and the network and mounts are set up once; on failure the state is Idle
    again, there is no container and every network and mount set-up has been
    rolled back; the in-flight counter is restored. *)
Theorem Create_all_or_nothing env r s : fresh s → counted s →
  let '(o, s') := run (Create env r) s in
  s_inflight s' = s_inflight s
  ∧ ∃ l, w_log (s_world s') = w_log (s_world s) ++ l ∧
  match o with
  | Ok pid =>
      created env r pid s'
      ∧ (∀ id, balance (net_delta id) l = net_delta id (NetSetup (cr_ID r)))
      ∧ (∀ h, e_mounts env = Ok (Some h) → balance (mount_delta h) l = 1%Z)
  | Err _ =>
      sm_state (s_stateMachine s') = StateIdle ∧ s_container s' = None
      ∧ (∀ id, balance (net_delta id) l = 0%Z) ∧ (∀ h, balance (mount_delta h) l = 0%Z)
  end.
Proof.
  intros Hf Hc. unfold Create. rewrite run_rpc by (by apply fresh_admitted).
  set (s0 := set_inflight _ s).
  assert (Hf0 : fresh s0) by (destruct Hf; by split).
  pose proof (run_Create_body env r s0 Hf0) as H. destruct (run (Create_body env r) s0) as [o s1].
  destruct H as [Ha H]. destruct (dec_inflight_fields s1) as (E1 & E2 & E3 & E4 & E5 & E6 & E7 & _).
  destruct o as [pid|e].
  - destruct H as (Hcr & Hi & _ & l & [Hl Hn Hm _ _]). split; [by apply inflight_restored|].
    exists l. rewrite E5. split_and!; try done.
    2:{ intros h Hh. rewrite (Hm _ h Hh). simpl. by rewrite decide_True. }
    destruct Hcr. split; unfold forwarders; rewrite ?E1, ?E2, ?E3, ?E4, ?E6, ?E7; done.
  - destruct H as (_ & Hs & Hct & Hi & l & Hl & Hn & Hm & _). split; [by apply inflight_restored|].
    exists l. rewrite E1, E2, E5. done.
Qed.

Definition goodVM : vmEnv := mkVMEnv "" None None None None (Ok 7).
Definition goodCleanup : CleanupEnv := mkCleanupEnv None (λ _, None) None None None.
Definition create_env (vmStart : option error) : CreateEnv :=
  mkCreateEnv None None goodVM (Ok (Some 3)) None (Ok 0) None
    (Ok "") None false vmStart (Ok 0) None None (Ok 1) None None (Ok 5) (Ok 42%Z) (Some 1) (Some 2).
Definition req1 : CreateRequest := mkCreateReq "c1" "/b" "" "" "in" "out" "err" false.

Lemma NewService_fresh : fresh NewService.
Proof. by split. Qed.

Lemma NewService_counted : counted NewService.
Proof. unfold counted, two63. simpl. lia. Qed.

Lemma Create_all_or_nothing_witness :
  fresh NewService ∧ counted NewService ∧
  s_inflight (run (Create (create_env None) req1) NewService).2 = 0%Z
  ∧ s_inflight (run (Create (create_env (Some (mkError ErrUnknown "boot"))) req1) NewService).2 = 0%Z.
Proof.
  split; [apply NewService_fresh|]. split; [apply NewService_counted|]. split.
  - pose proof (Create_all_or_nothing (create_env None) req1 NewService
                  NewService_fresh NewService_counted) as H.
    destruct (run _ _) as [o s']. apply H.
  - pose proof (Create_all_or_nothing (create_env (Some (mkError ErrUnknown "boot"))) req1 NewService
                  NewService_fresh NewService_counted) as H.
    destruct (run _ _) as [o s']. apply H.
Defined.

(** Validation with a VM already in the manager. *)
Lemma run_validate_busy r s : alive s → sm_state (s_stateMachine s) = StateIdle →
  m_instance (s_vmLifecycle s) ≠ INil →
  ∃ e s', run (validateCreateRequest r) s = (Err e, s').
Proof.
  intros Ha Hst Hm. unfold alive in Ha. unfold validateCreateRequest.
  destruct (_ || _); [by eexists _, _; apply run_Ret|].
  srun. unfold TryStartCreating. rewrite run_cas_bool, cas_true by done. cbn [negb]. srun.
  cbn [s_container set_stateMachine s_vmLifecycle]. unfold Instance_.
  destruct (m_instance (s_vmLifecycle s)) eqn:E; [done|]. cbn [not_nil is_ok orb].
  srun. unfold MarkCreationFailed. rewrite run_mark_ok by done. cbv beta iota.
  by eexists _, _; apply run_Ret.
Qed.

(** A live shim admits a request or refuses it because it is shutting down. *)
Lemma run_rpc_any {A} (body : sprog (res A)) s : alive s →
  admitted s ∨ run (rpc false body) s = (Err shutting_down_err, s).
Proof.
  intros Ha. unfold admitted. unfold alive in *.
  destruct (s_shutdownRequested s) eqn:Hr.
  { right. unfold rpc, beginRPC, isShuttingDown. srun. rewrite Hr. cbv iota. by srun. }
  destruct (decide (sm_state (s_stateMachine s) = StateShuttingDown)) as [Hs|]; [|by left].
  right. unfold rpc, beginRPC, isShuttingDown. srun. rewrite Hr. cbv iota. srun.
  unfold IsShuttingDown. rewrite run_is_state, set_sm_id, bool_decide_true by done.
  cbv iota. by srun.
Qed.

Theorem failed_Create_blocks_retry env r s e s' :
  fresh s → run (Create env r) s = (Err e, s') →
  m_instance (s_vmLifecycle s') ≠ INil →
  sm_state (s_stateMachine s') = StateIdle
  ∧ ∀ env' r', is_ok (run (Create env' r') s').1 = false.
Proof.
  intros Hf Hr Hm.
  unfold Create in Hr. rewrite run_rpc in Hr by (by apply fresh_admitted).
  set (s0 := set_inflight _ s) in Hr.
  assert (Hf0 : fresh s0) by (destruct Hf; by split).
  pose proof (run_Create_body env r s0 Hf0) as H. destruct (run (Create_body env r) s0) as [o s1].
  simplify_eq. destruct H as (Ha & _ & Hs & _).
  destruct (dec_inflight_fields s1) as (E1 & _ & _ & E4 & E5 & _).
  rewrite E1 in *. split; [done|]. intros env' r'. unfold Create.
  assert (Ha' : alive (dec_inflight s1)) by (unfold alive; by rewrite E5).
  destruct (run_rpc_any (Create_body env' r') _ Ha') as [Hadm| ->]; [|done].
  rewrite run_rpc by done. unfold Create_body. rewrite run_bind.
  destruct (run_validate_busy r' (set_inflight (int64_wrap (s_inflight (dec_inflight s1) + 1)) (dec_inflight s1)))
    as (e2 & s2 & ->); [done|by simpl; rewrite E1|done|]. done.
Qed.

Lemma failed_Create_blocks_retry_witness :
  ∃ e s', run (Create (create_env (Some (mkError ErrUnknown "boot"))) req1) NewService = (Err e, s')
    ∧ ∀ env' r', is_ok (run (Create env' r') s').1 = false.
Proof.
  destruct (run (Create (create_env (Some (mkError ErrUnknown "boot"))) req1) NewService)
    as [[pid|e] s'] eqn:E; [exfalso; vm_compute in E; discriminate E|].
  exists e, s'. split; [reflexivity|].
  refine (proj2 (failed_Create_blocks_retry _ _ _ _ _ NewService_fresh E _)).
  assert (m_instance (s_vmLifecycle (run (Create (create_env (Some (mkError ErrUnknown "boot"))) req1)
            NewService).2) ≠ INil) as H by (vm_compute; discriminate).
  rewrite E in H. exact H.
Defined.

(** ** Delete and shutdown *)

Definition emits (l : list effect) (s : service) : service :=
  set_world (set_log (w_log (s_world s) ++ l) (s_world s)) s.

Lemma emits_nil s : emits [] s = s.
Proof. unfold emits, set_log. rewrite app_nil_r. by destruct s as [??? ?? ?? ? ? ? ? ? []]. Qed.

Lemma emits_emits l1 l2 s : emits l2 (emits l1 s) = emits (l1 ++ l2) s.
Proof. unfold emits. simpl. by rewrite <- app_assoc. Qed.

Lemma foldl_emit {X} (f : X → effect) l s : foldl (λ s x, emit (f x) s) s l = emits (map f l) s.
Proof.
  revert s. induction l as [|e l IH]; intros s; simpl; [by rewrite emits_nil|].
  rewrite IH. change (emit (f e) s) with (emits [f e] s). by rewrite emits_emits.
Qed.

Definition shut_log (fs : list (option nat)) : list effect :=
  map IOShutdown (omap id fs).

Lemma shut_ios_emits fs s : Forall is_Some fs → alive s → shut_ios fs s = emits (shut_log fs) s.
Proof.
  unfold shut_ios. intros Hf. revert s. induction Hf as [|f fs [k ->] _ IH]; intros s Ha.
  { by rewrite emits_nil. }
  unfold alive in Ha. cbn [foldl]. rewrite Ha. cbn [shut_io]. rewrite IH by done.
  change (emit (IOShutdown k) s) with (emits [IOShutdown k] s). by rewrite emits_emits.
Qed.

(** A live shim whose manager holds no nil pointer and whose forwarders exist. *)
Record sound (s : service) : Prop := {
  so_alive : alive s;
  so_vm : m_instance (s_vmLifecycle s) ≠ IPtr None;
  so_io : Forall is_Some (forwarders s)
}.

Definition vm_log (i : iface) : list effect := match i with IPtr _ => [VMShutdown] | INil => [] end.
Definition mount_log (h : option nat) : list effect :=
  match h with Some h => [MountCleanup h] | None => [] end.
Definition net_log (id : string) : list effect := if decide (id = "") then [] else [NetRelease id].
Definition mount_of (s : service) : option nat :=
  match s_container s with Some c => c_mountCleanup c | None => None end.
Definition ctrl_log (s : service) : list effect :=
  map CtrlStop (map snd (map_to_list (s_cpuControllers s)) ++
                map snd (map_to_list (s_memControllers s))).

Lemma vm_shutdown_emits ce s : m_instance (s_vmLifecycle s) ≠ IPtr None →
  (vm_shutdown ce s).2 = emits (vm_log (m_instance (s_vmLifecycle s))) (set_vmLifecycle (mkManager INil) s).
Proof.
  intros H. unfold vm_shutdown, Shutdown. destruct (m_instance (s_vmLifecycle s)) as [|[p|]] eqn:E; [|done|done].
  simpl. by rewrite emits_nil.
Qed.

Lemma mount_cleanup_emits ce h s : (mount_cleanup ce h s).2 = emits (mount_log h) s.
Proof. destruct h; simpl; [done|by rewrite emits_nil]. Qed.

Lemma run_exec_prog_cons n fn ps r s : alive s →
  run (exec_prog (mkPhase n (Some fn) false :: ps) r) s =
    run (exec_prog ps (Add r n (fn s).1)) (fn s).2.
Proof. intros Ha. cbn [exec_prog ph_fn ph_done ph_name]. srun. by destruct (fn s). Qed.

(** What [shutdown] leaves behind and what it does, in order. *)
Record shut_down (s s' : service) : Prop := {
  sd_requested : s_shutdownRequested s' = true;
  sd_state : sm_state (s_stateMachine s') = StateShuttingDown;
  sd_vm : m_instance (s_vmLifecycle s') = INil;
  sd_conn : cm_closed (s_connManager s') = true;
  sd_cpu : s_cpuControllers s' = ∅;
  sd_mem : s_memControllers s' = ∅;
  sd_events : ev_done (s_events s') = true;
  sd_mount : mount_of s' = None;
  sd_log : w_log (s_world s') = w_log (s_world s) ++
    ctrl_log s ++ shut_log (forwarders s) ++ vm_log (m_instance (s_vmLifecycle s))
    ++ net_log (s_containerID s) ++ mount_log (mount_of s) ++ [NetClose]
}.

Lemma shutdownAllIO_emits ce s : sound s →
  (shutdownAllIO ce s).2 = emits (shut_log (forwarders s)) s.
Proof.
  intros [Ha _ Hf]. unfold shutdownAllIO, forwarders in *.
  destruct (s_container s); simpl; [by apply shut_ios_emits|by rewrite emits_nil].
Qed.

Lemma conn_close_spec ce s :
  ∃ c, (conn_close ce s).2 = set_connManager c s ∧ cm_closed c = true.
Proof.
  unfold conn_close, Close. destruct (cm_closed (s_connManager s)) eqn:E.
  - by eexists.
  - destruct (cm_client _) as [c|] eqn:Ec; simpl in *; rewrite ?Ec; by eexists.
Qed.

Lemma net_phase_emits ce id s :
  (if decide (id = "") then (None, s) else net_release ce id s).2 = emits (net_log id) s.
Proof. unfold net_log. case_decide; simpl; [by rewrite emits_nil|done]. Qed.

Lemma closeEvents_spec s : ∃ e, (closeEvents s).2 = set_events e s ∧ ev_done e = true.
Proof.
  unfold closeEvents. destruct (ev_done (s_events s)) eqn:E; [|by eexists].
  exists (s_events s). split; [by destruct s|done].
Qed.

Lemma extract_spec s :
  ∃ c, extractMountCleanup s = (mount_of s, set_container c s)
    ∧ forwarders (set_container c s) = forwarders s ∧ mount_of (set_container c s) = None.
Proof.
  unfold extractMountCleanup, mount_of, forwarders. destruct (s_container s) as [c|] eqn:E.
  - by eexists.
  - exists None. split; [|done]. f_equal. destruct s; simpl in *. by subst.
Qed.

(** The phases, from the state in which the orchestrator starts. *)
Lemma run_phases ce id mc s : sound s →
  ∃ res c e, run (exec_prog (NewCleanupOrchestrator (buildCleanupPhases ce id mc)) (mkResult [])) s =
    (res, set_events e (set_vmLifecycle (mkManager INil) (set_connManager c
            (set_memControllers ∅ (set_cpuControllers ∅
              (emits (ctrl_log s ++ shut_log (forwarders s) ++ vm_log (m_instance (s_vmLifecycle s))
                       ++ net_log id ++ mount_log mc) s))))))
    ∧ cm_closed c = true ∧ ev_done e = true.
Proof.
  intros [Ha Hv Hf]. unfold NewCleanupOrchestrator, buildCleanupPhases. cbn [cp_HotplugStop
    cp_IOShutdown cp_ConnClose cp_VMShutdown cp_NetworkCleanup cp_MountCleanup cp_EventClose].
  rewrite run_exec_prog_cons by done. unfold stopAllHotplugControllers at 2. cbn [snd].
  unfold stop_all. rewrite foldl_emit. fold (ctrl_log s).
  rewrite run_exec_prog_cons by done. rewrite shutdownAllIO_emits by (split; done).
  rewrite run_exec_prog_cons by done.
  match goal with |- context [(conn_close ce ?x).2] => destruct (conn_close_spec ce x) as (c & -> & Hc) end.
  rewrite run_exec_prog_cons by done. rewrite vm_shutdown_emits by done.
  rewrite run_exec_prog_cons by done. rewrite net_phase_emits.
  rewrite run_exec_prog_cons by done. rewrite mount_cleanup_emits.
  rewrite run_exec_prog_cons by done.
  match goal with |- context [(closeEvents ?x).2] => destruct (closeEvents_spec x) as (e & -> & He) end.
  cbn [exec_prog]. rewrite run_Ret. eexists _, c, e. split; [|done]. f_equal.
  unfold emits, forwarders. simpl. by rewrite <- !app_assoc.
Qed.

Lemma run_shutdown ce s : sound s →
  ∃ err s', run (shutdown ce) s = (err, s') ∧ alive s' ∧ shut_down s s'.
Proof.
  intros Hs. pose proof Hs as [Ha Hv Hf]. unfold alive in Ha. unfold shutdown. srun.
  match goal with |- context [extractMountCleanup ?x] =>
    destruct (extract_spec x) as (c & -> & Hc1 & Hc2) end. cbv beta iota.
  srun1. match goal with |- context [run (exec_prog (NewCleanupOrchestrator (buildCleanupPhases ce ?i ?m)) _) ?x] =>
    destruct (run_phases ce i m x) as (r & cm & e & Hr & Hcm & He) end.
  { split; [done|done|]. rewrite Hc1. apply Hf. }
  rewrite Hr. cbv beta iota. srun. eexists _, _. split; [reflexivity|]. split; [done|].
  split; try done. simpl in *. rewrite Hc1, <- !app_assoc. done.
Qed.

Theorem shutdown_releases_in_order ce s : sound s →
  let '(_, s') := run (shutdown ce) s in
  alive s' ∧ shut_down s s'.
Proof. intros Hs. by destruct (run_shutdown ce s Hs) as (err & s' & -> & Ha & H). Qed.

(** A shim that serves container [id]: admitting requests, its VM up, its
    connection manager open. *)
Record serving (id : string) (c : container) (s : service) : Prop := {
  sv_sound : sound s;
  sv_admitted : admitted s;
  sv_container : s_container s = Some c;
  sv_id : s_containerID s = id;
  sv_vm : ∃ p, m_instance (s_vmLifecycle s) = IPtr (Some p);
  sv_conn : cm_closed (s_connManager s) = false;
  sv_events : ev_done (s_events s) = false ∧ ev_closed (s_events s) = false
}.

(** The guest can be reached: a connection is cached, or the next dial succeeds. *)
Definition reachable (dial : nat → option error) (s : service) : Prop :=
  is_Some (cm_client (s_connManager s)) ∨ dial (cm_dials (s_connManager s)) = None.

Lemma run_getTaskClient dial s : alive s → cm_closed (s_connManager s) = false → reachable dial s →
  ∃ cl c, run (getTaskClient dial) s = (Ok cl, set_connManager c s)
    ∧ cm_closed c = false ∧ cm_client c = Some cl.
Proof.
  intros Ha Hc Hr. unfold alive in Ha. unfold getTaskClient. srun. unfold GetClient. cbn [run peek].
  rewrite Hc. destruct (cm_client (s_connManager s)) as [cl|] eqn:E; cbn [run].
  - cbv beta iota. by eexists _, _.
  - destruct Hr as [[? ?]|Hd]; [congruence|]. unfold getOrCreateClient. rewrite Hc, E, Hd.
    cbv beta iota. by eexists _, _.
Qed.

Lemma run_getTaskClient_fails dial s e : alive s → cm_closed (s_connManager s) = false →
  cm_client (s_connManager s) = None → dial (cm_dials (s_connManager s)) = Some e →
  ∃ c, run (getTaskClient dial) s = (Err e, set_connManager c s).
Proof.
  intros Ha Hc Hcl Hd. unfold alive in Ha. unfold getTaskClient. srun. unfold GetClient. cbn [run peek].
  rewrite Hcl. cbn [run]. unfold getOrCreateClient. rewrite Hc, Hcl, Hd. cbv beta iota.
  eexists. apply run_Ret.
Qed.

Lemma run_TryStartDeleting sm : sm_state sm = StateRunning ∨ sm_state sm = StateCreated →
  run TryStartDeleting sm = (true, mkSM StateDeleting (sm_intentionalShutdown sm)).
Proof.
  intros H. unfold TryStartDeleting. rewrite run_bind, run_cas_bool.
  destruct H as [H|H]; [by rewrite cas_true|].
  rewrite cas_false by congruence. cbv beta iota. by rewrite run_cas_bool, cas_true.
Qed.

(** What a successful [Delete] of the container leaves and does, in order. *)
Record deleted (id : string) (c : container) (pid status : Z) (s s' : service) : Prop := {
  dl_state : sm_state (s_stateMachine s') = StateDeleting;
  dl_intentional : sm_intentionalShutdown (s_stateMachine s') = true;
  dl_container : s_container s' = None;
  dl_id : s_containerID s' = "";
  dl_vm : m_instance (s_vmLifecycle s') = INil;
  dl_cpu : s_cpuControllers s' = delete id (s_cpuControllers s);
  dl_mem : s_memControllers s' = delete id (s_memControllers s);
  dl_event : ev_queue (s_events s') = ev_queue (s_events s) ++ [TaskDelete id pid status];
  dl_sched : w_sched (s_world s') = w_sched (s_world s) ++ ["container deleted"];
  dl_inflight : s_inflight s' = s_inflight s;
  dl_log : w_log (s_world s') = w_log (s_world s) ++ [Guest "Task.Delete"]
    ++ shut_log (io_forwarders (c_io c))
    ++ map CtrlStop (opt_list (s_cpuControllers s !! id) ++ opt_list (s_memControllers s !! id))
    ++ [VMShutdown; NetRelease id] ++ mount_log (c_mountCleanup c)
}.

Lemma run_delete_phases ce id d s : alive s → dc_needNetworkClean d = true →
  (∃ p, m_instance (s_vmLifecycle s) = IPtr (Some p)) →
  ∃ r, run (exec_prog (drop (default 0 (slices_Index phaseOrder PhaseVMShutdown))
              (NewCleanupOrchestrator (delete_phases ce id d))) (mkResult [])) s =
    (r, emits (VMShutdown :: NetRelease id :: mount_log (dc_mountCleanup d))
          (set_vmLifecycle (mkManager INil) s)).
Proof.
  intros Ha Hn [p Hp]. cbn [default slices_Index].
  change (drop _ _) with
    [mkPhase PhaseVMShutdown (Some (vm_shutdown ce)) false;
     mkPhase PhaseNetworkCleanup
       (Some (λ s, if dc_needNetworkClean d then net_release ce id s else (None, s))) false;
     mkPhase PhaseMountCleanup (Some (mount_cleanup ce (dc_mountCleanup d))) false;
     mkPhase PhaseEventClose None false].
  rewrite run_exec_prog_cons by done. rewrite vm_shutdown_emits by (by rewrite Hp).
  rewrite run_exec_prog_cons by done. rewrite Hn. cbn [net_release snd].
  rewrite run_exec_prog_cons by done. rewrite mount_cleanup_emits.
  cbn [exec_prog ph_fn ph_done]. rewrite run_Ret. eexists. f_equal.
  rewrite Hp. unfold emits, emit. simpl. by rewrite <- !app_assoc.
Qed.

Lemma run_collect id c s : alive s → s_container s = Some c → s_containerID s = id →
  run (collectDeleteCleanup id "") s =
    (mkDC (io_forwarders (c_io c)) (s_cpuControllers s !! id) (s_memControllers s !! id)
       (c_mountCleanup c) true true,
     set_memControllers (delete id (s_memControllers s))
       (set_cpuControllers (delete id (s_cpuControllers s))
          (set_containerID "" (set_container None s)))).
Proof.
  intros Ha Hc Hid. unfold alive in Ha. unfold collectDeleteCleanup. srun.
  unfold collect_container. rewrite Hc, Hid.
  rewrite (bool_decide_true (id = id)), (bool_decide_true ("" = "")) by done. cbn [negb].
  rewrite decide_True by done. by srun.
Qed.

Lemma run_runDeleteCleanup ce id d s : alive s → Forall is_Some (dc_ioForwarders d) →
  dc_needNetworkClean d = true → dc_needVMShutdown d = true →
  (∃ p, m_instance (s_vmLifecycle s) = IPtr (Some p)) →
  run (runDeleteCleanup ce id d) s =
    (tt, schedule "container deleted"
           (emits (shut_log (dc_ioForwarders d)
                     ++ map CtrlStop (opt_list (dc_cpuController d) ++ opt_list (dc_memController d))
                     ++ VMShutdown :: NetRelease id :: mount_log (dc_mountCleanup d))
              (set_vmLifecycle (mkManager INil)
                 (set_stateMachine (mkSM (sm_state (s_stateMachine s)) true) s)))).
Proof.
  intros Ha Hf Hn Hv Hp. unfold alive in Ha. unfold runDeleteCleanup. rewrite Hv. srun.
  rewrite shut_ios_emits by done. srun. unfold stop_all. rewrite foldl_emit. srun.
  match goal with |- context [run (exec_prog _ _) ?x] =>
    destruct (run_delete_phases ce id d x) as [r Hr]; [done|done|done|] end.
  rewrite Hr. cbv beta iota. srun. do 2 f_equal. unfold emits. simpl. by rewrite <- !app_assoc.
Qed.

Lemma run_Delete_body id c s env pid status :
  serving id c s → reachable (de_dial env) s →
  sm_state (s_stateMachine s) = StateRunning ∨ sm_state (s_stateMachine s) = StateCreated →
  de_answer env = Ok (pid, status) →
  ∃ s', run (Delete_body id "" env) s = (Ok (pid, status), s') ∧ alive s' ∧ deleted id c pid status s s'.
Proof.
  intros [[Ha Hv Hf] _ Hc Hid Hp Hcl [Hd Hec]] Hre Hst Hans. unfold alive in Ha.
  unfold Delete_body. rewrite decide_True by done. srun. rewrite run_TryStartDeleting by done.
  cbn [negb]. unfold Delete_rest. srun1. 
  match goal with |- context [run (getTaskClient _) ?x] =>
    destruct (run_getTaskClient (de_dial env) x) as (cl & cm & -> & _ & _); [done|done|done|] end. cbv beta iota.
  srun. rewrite Hans. cbv beta iota. rewrite decide_True by done. unfold send. srun.
  cbn [s_events emit set_stateMachine set_connManager set_world]. rewrite Hd, Hec. cbn [andb].
  rewrite (run_collect id c) by done. cbv beta iota. srun1.
  unfold forwarders in Hf. rewrite Hc in Hf. rewrite run_runDeleteCleanup by done.
  cbv beta iota. rewrite run_Ret. eexists. split; [reflexivity|]. split; [done|].
  split; try done. simpl. by rewrite <- !app_assoc.
Qed.

Lemma run_Delete id c s env pid status :
  serving id c s → counted s → reachable (de_dial env) s →
  sm_state (s_stateMachine s) = StateRunning ∨ sm_state (s_stateMachine s) = StateCreated →
  de_answer env = Ok (pid, status) →
  ∃ s', run (Delete id "" env) s = (Ok (pid, status), s') ∧ alive s' ∧ deleted id c pid status s s'.
Proof.
  intros Hsv Hcn Hre Hst Hans. unfold Delete. rewrite run_rpc by apply Hsv.
  set (s0 := set_inflight _ s).
  assert (serving id c s0) as Hs0 by (destruct Hsv as [[] ? ? ? ? ? ?]; split; [by split|done..]).
  destruct (run_Delete_body id c s0 env pid status Hs0 Hre Hst Hans) as (s1 & -> & Ha & Hdl).
  destruct (dec_inflight_fields s1) as (E1 & E2 & E3 & E4 & E5 & E6 & E7 & E8 & _).
  exists (dec_inflight s1). split; [done|]. split; [unfold alive; by rewrite E5|].
  destruct Hdl. split; rewrite ?E1, ?E2, ?E3, ?E4, ?E5, ?E6, ?E7, ?E8; try done.
  by apply inflight_restored.
Qed.

(** Delete of the container a shim serves, when the guest answers: TaskDelete
    is queued, the I/O forwarders and the controllers are stopped, then the
    VM, the network and the mounts are released in that order, the container
    is forgotten and the exit sequence is scheduled. *)
Theorem Delete_releases_in_order id c s env pid status :
  serving id c s → counted s → reachable (de_dial env) s →
  sm_state (s_stateMachine s) = StateRunning ∨ sm_state (s_stateMachine s) = StateCreated →
  de_answer env = Ok (pid, status) →
  ∃ s', run (Delete id "" env) s = (Ok (pid, status), s') ∧ deleted id c pid status s s'.
Proof.
  intros Hsv Hcn Hre Hst Hans.
  destruct (run_Delete id c s env pid status Hsv Hcn Hre Hst Hans) as (s' & ? & _ & ?). eauto.
Qed.

(** *** A whole life *)

Lemma created_serving env r pid s s' : fresh s → same_rest s s' → alive s' →
  cm_closed (s_connManager s) = false →
  ev_done (s_events s) = false → ev_closed (s_events s) = false →
  created env r pid s' →
  ∃ c, serving (cr_ID r) c s' ∧ Ok (c_mountCleanup c) = e_mounts env.
Proof.
  intros [_ _ Hreq _ _] (R1 & R2 & R3) Ha Hc He1 He2 [_ Hs (c & Hct & Hp & Hm) Hid Hio [p Hv] _ _].
  exists c. split; [|done]. split; try done.
  - split; [done|by rewrite Hv|done].
  - split_and!; [done|congruence|congruence].
  - eauto.
  - congruence.
  - by rewrite R2.
Qed.

(** [Create], [Delete] and the process' [shutdown], each run to its end,
    whatever the first two return. *)
Definition life (cenv : CreateEnv) (r : CreateRequest) (denv : DeleteEnv) (ce : CleanupEnv)
    (s : service) : service :=
  (run (shutdown ce) (run (Delete (cr_ID r) "" denv) (run (Create cenv r) s).2).2).2.

(** A shim that serves a container [Create] has just set up. *)
Record serves_new (env : CreateEnv) (r : CreateRequest) (c : container) (s s' : service) (l : list effect)
    : Prop := {
  sn_serving : serving (cr_ID r) c s';
  sn_counted : counted s';
  sn_mounts : Ok (c_mountCleanup c) = e_mounts env;
  sn_state : sm_state (s_stateMachine s') = StateCreated;
  sn_conn : s_connManager s' = s_connManager s;
  sn_cpu : s_cpuControllers s' !! cr_ID r = e_cpuCtrl env ∨ e_cpuCtrl env = None;
  sn_mem : s_memControllers s' !! cr_ID r = e_memCtrl env ∨ e_memCtrl env = None;
  sn_set_up : set_up env r s s' l
}.

(** A live idle shim in which a [Create] has failed. *)
Record idle_again (env : CreateEnv) (s s' : service) : Prop := {
  ia_alive : alive s';
  ia_state : sm_state (s_stateMachine s') = StateIdle;
  ia_req : s_shutdownRequested s' = s_shutdownRequested s;
  ia_back : rolled_back env s s'
}.

Lemma run_Create_then env r s : fresh s → counted s →
  cm_closed (s_connManager s) = false → ev_done (s_events s) = false → ev_closed (s_events s) = false →
  let '(o, s') := run (Create env r) s in
  match o with
  | Ok _ => ∃ c l, serves_new env r c s s' l
  | Err _ => idle_again env s s'
  end.
Proof.
  intros Hf Hc Hcl He1 He2. unfold Create. rewrite run_rpc by (by apply fresh_admitted).
  set (s0 := set_inflight _ s). assert (Hf0 : fresh s0) by (destruct Hf; by split).
  pose proof (run_Create_body env r s0 Hf0) as H. destruct (run (Create_body env r) s0) as [o s1].
  destruct H as (Ha & H). unfold dec_inflight. assert (Ha' := Ha). unfold alive in Ha'. rewrite Ha'.
  destruct o as [pid|e].
  - destruct H as (Hcr & Hi & Hrest & l & Hset).
    destruct (created_serving env r pid s0 s1 Hf0 Hrest Ha Hcl He1 He2 Hcr) as (c & Hsv & Hmc).
    assert (Hi' : s_inflight (dec_inflight s1) = s_inflight s) by (by apply inflight_restored).
    unfold dec_inflight in Hi'. rewrite Ha' in Hi'.
    exists c, l. split; try done.
    + destruct Hsv as [[] ? ? ? ? ? ?]; split; [by split|done..].
    + unfold counted in *. by rewrite Hi'.
    + apply Hcr.
    + apply Hrest.
    + apply Hcr.
    + apply Hcr.
    + destruct Hset. by split.
  - pose proof H as (_ & Hs & Hct & Hi & l & Hl & Hn & Hm & Hv & Hst & Hu).
    split; [done|done|apply Hu|]. unfold rolled_back. split_and!; try done.
    + pose proof (inflight_restored s s1 Hc Ha Hi) as Hi'. unfold dec_inflight in Hi'. by rewrite Ha' in Hi'.
    + by exists l.
Qed.

Lemma balance_zero d l : Forall (λ e, d e = 0%Z) l → balance d l = 0%Z.
Proof. induction 1 as [|e l He _ IH]; simpl; [done|]. unfold balance in *. simpl. lia. Qed.

(** Effects that neither set up nor release anything, and start nothing. *)
Definition neutral (e : effect) : Prop :=
  vm_delta e = 0%Z ∧ (∀ id, net_delta id e = 0%Z) ∧ (∀ h, mount_delta h e = 0%Z) ∧ starts [e] = [].

Lemma neutral_balances l : Forall neutral l →
  balance vm_delta l = 0%Z ∧ (∀ id, balance (net_delta id) l = 0%Z)
  ∧ (∀ h, balance (mount_delta h) l = 0%Z) ∧ starts l = [].
Proof.
  intros H. split_and!; [| | |].
  1-3: intros; apply balance_zero; eapply Forall_impl; [exact H|]; intros e He; apply He.
  induction H as [|e l (_ & _ & _ & He) _ IH]; [done|]. change (e :: l) with ([e] ++ l).
  by rewrite starts_app, He, IH.
Qed.

Lemma shut_log_neutral fs : Forall neutral (shut_log fs).
Proof. apply Forall_forall. by intros e (x & <- & _)%list_elem_of_In%in_map_iff. Qed.

Lemma ctrl_neutral l : Forall neutral (map CtrlStop l).
Proof. apply Forall_forall. by intros e (x & <- & _)%list_elem_of_In%in_map_iff. Qed.

(** What releases everything [s] holds: the log of a cleanup of [s]. *)
Record releases (s : service) (id : string) (m : option nat) (l : list effect) : Prop := {
  rl_vm : balance vm_delta l = (- vm_up s)%Z;
  rl_net : ∀ i, balance (net_delta i) l = balance (net_delta i) (net_log id);
  rl_mounts : ∀ h, balance (mount_delta h) l = balance (mount_delta h) (mount_log m);
  rl_starts : starts l = [];
  rl_io : ∀ f, Some f ∈ forwarders s → IOShutdown f ∈ l;
  rl_cpu : ∀ k, s_cpuControllers s !! id = Some k → CtrlStop k ∈ l;
  rl_mem : ∀ k, s_memControllers s !! id = Some k → CtrlStop k ∈ l
}.

Lemma shut_log_all fs f : Some f ∈ fs → IOShutdown f ∈ shut_log fs.
Proof.
  intros H. apply list_elem_of_fmap. exists f. split; [done|].
  apply list_elem_of_omap. by exists (Some f).
Qed.

Lemma ctrl_map_all k (m : gmap string nat) i : m !! i = Some k → k ∈ map snd (map_to_list m).
Proof. intros H. apply list_elem_of_fmap. exists (i, k). split; [done|]. by apply elem_of_map_to_list. Qed.

Ltac neutrals := 
  repeat match goal with
  | |- context [balance _ (shut_log ?fs)] => 
      pose proof (neutral_balances _ (shut_log_neutral fs)) as (?E1 & ?E2 & ?E3 & _); rewrite ?E1, ?E2, ?E3; clear E1 E2 E3
  | |- context [balance _ (map CtrlStop ?cs)] => 
      pose proof (neutral_balances _ (ctrl_neutral cs)) as (?E1 & ?E2 & ?E3 & _); rewrite ?E1, ?E2, ?E3; clear E1 E2 E3
  | |- context [starts (shut_log ?fs)] => 
      pose proof (neutral_balances _ (shut_log_neutral fs)) as (_ & _ & _ & ?E1); rewrite E1; clear E1
  | |- context [starts (map CtrlStop ?cs)] => 
      pose proof (neutral_balances _ (ctrl_neutral cs)) as (_ & _ & _ & ?E1); rewrite E1; clear E1
  end.

Lemma shut_down_releases s s' : shut_down s s' → m_instance (s_vmLifecycle s) ≠ IPtr None →
  ∃ l, w_log (s_world s') = w_log (s_world s) ++ l ∧ releases s (s_containerID s) (mount_of s) l.
Proof.
  intros [_ _ _ _ _ _ _ _ Hl] Hv. eexists. split; [exact Hl|]. unfold ctrl_log.
  split; intros; rewrite ?balance_app, ?starts_app; neutrals.
  - unfold vm_up, net_log, mount_log. destruct (m_instance _) as [|[]], (mount_of s); simpl; case_decide; simpl; done.
  - destruct (m_instance _), (mount_of s); simpl; lia.
  - unfold net_log. destruct (m_instance _); simpl; case_decide; simpl; lia.
  - unfold net_log, mount_log. destruct (m_instance _), (mount_of s); simpl; by case_decide.
  - apply elem_of_app; right. apply elem_of_app; left. by apply shut_log_all.
  - apply elem_of_app; left. apply list_elem_of_fmap_2, elem_of_app; left. by eapply ctrl_map_all.
  - apply elem_of_app; left. apply list_elem_of_fmap_2, elem_of_app; right. by eapply ctrl_map_all.
Qed.

Lemma deleted_releases id c pid status s s' : deleted id c pid status s s' → serving id c s → id ≠ "" →
  ∃ l, w_log (s_world s') = w_log (s_world s) ++ l ∧ releases s id (c_mountCleanup c) l.
Proof.
  intros [_ _ _ _ _ _ _ _ _ _ Hl] [_ _ Hc _ [p Hp] _ _] Hid. eexists. split; [exact Hl|].
  split; intros; rewrite ?balance_app, ?starts_app; neutrals.
  - unfold vm_up. rewrite Hp. by destruct (c_mountCleanup c).
  - unfold net_log. rewrite decide_False by done. destruct (c_mountCleanup c); simpl; lia.
  - by simpl.
  - by destruct (c_mountCleanup c).
  - unfold forwarders in *. rewrite Hc in *. do 1 (apply elem_of_app; right). apply elem_of_app; left. by apply shut_log_all.
  - do 2 (apply elem_of_app; right). apply elem_of_app; left.
    apply list_elem_of_fmap_2, elem_of_app; left. rewrite H. by left.
  - do 2 (apply elem_of_app; right). apply elem_of_app; left.
    apply list_elem_of_fmap_2, elem_of_app; right. rewrite H. by left.
Qed.

Lemma releases_app s s2 id m l l' : releases s id m l → releases s2 "" None l' → vm_up s2 = 0%Z →
  releases s id m (l ++ l').
Proof.
  intros [V N M S I C D] [V' N' M' S' _ _ _] H. rewrite H in V'.
  split; intros; rewrite ?balance_app, ?starts_app, ?V, ?V', ?N, ?N', ?M, ?M', ?S, ?S';
    try done; try (simpl; lia); apply elem_of_app; left; eauto.
Qed.

(** A [Delete] that failed: the shim still holds all it held. *)
Record kept (s s' : service) : Prop := {
  kp_container : s_container s' = s_container s;
  kp_id : s_containerID s' = s_containerID s;
  kp_vm : s_vmLifecycle s' = s_vmLifecycle s;
  kp_cpu : s_cpuControllers s' = s_cpuControllers s;
  kp_mem : s_memControllers s' = s_memControllers s;
  kp_log : ∃ l, w_log (s_world s') = w_log (s_world s) ++ l ∧ Forall neutral l
}.

Lemma run_Delete_kept id c s env e :
  serving id c s →
  sm_state (s_stateMachine s) = StateRunning ∨ sm_state (s_stateMachine s) = StateCreated →
  cm_client (s_connManager s) = None →
  de_dial env (cm_dials (s_connManager s)) = Some e
  ∨ de_dial env (cm_dials (s_connManager s)) = None ∧ de_answer env = Err e →
  ∃ s', run (Delete id "" env) s = (Err e, s') ∧ alive s' ∧ kept s s'.
Proof.
  intros [[Ha Hv Hf] Had Hc Hid Hp Hcl _] Hst Hcc Hd. unfold alive in Ha. unfold Delete.
  rewrite run_rpc by done. unfold Delete_body. rewrite decide_True by done. srun.
  rewrite run_TryStartDeleting by done. cbn [negb]. unfold Delete_rest. srun1.
  destruct Hd as [Hd|[Hd Hans]].
  - match goal with |- context [run (getTaskClient _) ?x] =>
      destruct (run_getTaskClient_fails (de_dial env) x e) as (cm & ->); [done|done|done|done|] end.
    cbv beta iota. rewrite run_Ret. eexists. split; [reflexivity|].
    unfold dec_inflight, alive. cbn. rewrite Ha. split; [done|]. split; try done.
    exists []. by rewrite app_nil_r.
  - match goal with |- context [run (getTaskClient _) ?x] =>
      destruct (run_getTaskClient (de_dial env) x) as (cl & cm & -> & _ & _); [done|done|by right|] end.
    cbv beta iota. srun. rewrite Hans. cbv beta iota. rewrite decide_True by done. srun.
    eexists. split; [reflexivity|]. unfold dec_inflight, alive. cbn. rewrite Ha.
    split; [done|]. split; try done. eexists. split; [reflexivity|]. by repeat constructor.
Qed.

(** [Delete] of an idle shim is refused. *)
Lemma run_Delete_idle id s env : alive s → sm_state (s_stateMachine s) = StateIdle →
  let s' := (run (Delete id "" env) s).2 in alive s' ∧ kept s s'.
Proof.
  intros Ha Hst. assert (Ha' := Ha). unfold alive in Ha'. assert (kept s s) as Hk.
  { split; try done. exists []. by rewrite app_nil_r. }
  unfold Delete. destruct (run_rpc_any (Delete_body id "" env) s Ha) as [Hadm| ->]; [|done].
  rewrite run_rpc by done. unfold Delete_body. rewrite decide_True by done. srun.
  unfold TryStartDeleting. rewrite run_bind, run_cas_bool, cas_false by (simpl; congruence). cbv beta iota.
  rewrite run_cas_bool, cas_false by (simpl; congruence). cbn [negb]. srun.
  rewrite run_State. cbv beta iota. rewrite run_Ret. unfold dec_inflight, alive. cbn. rewrite Ha'. cbn.
  split; [done|]. destruct Hk; by split.
Qed.



(** The process' shutdown after a [Delete] that did not run. *)
Lemma kept_then_shutdown ce s s2 : kept s s2 → alive s2 → sound s →
  let s3 := (run (shutdown ce) s2).2 in
  alive s3 ∧ shut_down s2 s3
  ∧ ∃ l, w_log (s_world s3) = w_log (s_world s) ++ l ∧ releases s (s_containerID s) (mount_of s) l.
Proof.
  intros [Kc Ki Kv Kp Km (l & Hl & Hn)] Ha [_ Hv Hf].
  destruct (run_shutdown ce s2) as (err & s3 & -> & Ha3 & Hsd).
  { split; [done|by rewrite Kv|]. unfold forwarders. by rewrite Kc. }
  split; [done|]. split; [done|].
  destruct (shut_down_releases s2 s3 Hsd) as (l3 & Hl3 & [V N M S I C D]); [by rewrite Kv|].
  exists (l ++ l3). cbn [snd]. split; [by rewrite Hl3, Hl, <- app_assoc|].
  destruct (neutral_balances l Hn) as (N1 & N2 & N3 & N4).
  unfold vm_up, mount_of, forwarders in *. rewrite Kc, Ki, Kv, Kp, Km in *.
  split; intros; rewrite ?balance_app, ?starts_app, ?N1, ?N2, ?N3, ?N4, ?V, ?N, ?M, ?S; try done;
    apply elem_of_app; right; eauto.
Qed.

Lemma run_Delete_then ce id c s env : serving id c s → counted s →
  sm_state (s_stateMachine s) = StateCreated → cm_client (s_connManager s) = None → id ≠ "" →
  let s3 := (run (shutdown ce) (run (Delete id "" env) s).2).2 in
  alive s3 ∧ m_instance (s_vmLifecycle s3) = INil
  ∧ ∃ l, w_log (s_world s3) = w_log (s_world s) ++ l ∧ releases s id (c_mountCleanup c) l.
Proof.
  intros Hsv Hc Hst Hcc Hid.
  assert (Hm : mount_of s = c_mountCleanup c) by (unfold mount_of; by rewrite (sv_container _ _ _ Hsv)).
  assert (Hfail : ∀ e, (de_dial env (cm_dials (s_connManager s)) = Some e
    ∨ de_dial env (cm_dials (s_connManager s)) = None ∧ de_answer env = Err e) → 
    let s3 := (run (shutdown ce) (run (Delete id "" env) s).2).2 in
    alive s3 ∧ m_instance (s_vmLifecycle s3) = INil
    ∧ ∃ l, w_log (s_world s3) = w_log (s_world s) ++ l ∧ releases s id (c_mountCleanup c) l).
  { intros e He. destruct (run_Delete_kept id c s env e Hsv (or_intror Hst) Hcc He) as (s2 & -> & Ha2 & Hk).
    destruct (kept_then_shutdown ce s s2 Hk Ha2 (sv_sound _ _ _ Hsv)) as (Ha3 & Hsd & l & Hl & Hrl).
    split; [done|]. split; [apply Hsd|]. exists l. by rewrite <- Hm, <- (sv_id _ _ _ Hsv). }
  destruct (de_dial env (cm_dials (s_connManager s))) as [e|] eqn:Hd; [by apply (Hfail e); left|].
  destruct (de_answer env) as [[pid status]|e] eqn:Hans; [|by apply (Hfail e); right].
  destruct (run_Delete id c s env pid status Hsv Hc) as (s2 & -> & Ha2 & Hdl);
    [by right|by right|done|]. cbn [snd].
  destruct (deleted_releases _ _ _ _ _ _ Hdl Hsv Hid) as (l2 & Hl2 & Hr2).
  destruct Hdl as [_ _ Hct Hi Hv _ _ _ _ _ _].
  destruct (run_shutdown ce s2) as (err & s3 & -> & Ha3 & Hsd).
  { split; [done|by rewrite Hv|]. unfold forwarders. by rewrite Hct. }
  destruct (shut_down_releases s2 s3 Hsd) as (l3 & Hl3 & Hr3); [by rewrite Hv|].
  unfold mount_of in Hr3. rewrite Hct, Hi in Hr3. cbn [snd]. split; [done|]. split; [apply Hsd|].
  exists (l2 ++ l3). split; [by rewrite Hl3, Hl2, <- app_assoc|].
  eapply releases_app; [done..|]. unfold vm_up. by rewrite Hv.
Qed.

(** What is left of the effects of a life: every VM created has been asked to
    shut down, every network and mount set set up has been released, as often as
    it was set up, and every forwarder and controller started has been stopped. *)
Record all_released (l : list effect) : Prop := {
  ar_vm : balance vm_delta l = 0%Z;
  ar_net : ∀ id, balance (net_delta id) l = 0%Z;
  ar_mounts : ∀ h, balance (mount_delta h) l = 0%Z;
  ar_io : ∀ f, IOStart f ∈ l → IOShutdown f ∈ l;
  ar_ctrl : ∀ k, CtrlStart k ∈ l → CtrlStop k ∈ l
}.

Lemma starts_elem e l : e ∈ l → starts [e] = [e] → e ∈ starts l.
Proof.
  intros (l1 & l2 & ->)%list_elem_of_split He. change (e :: l2) with ([e] ++ l2).
  rewrite !starts_app, He. set_solver.
Qed.

Lemma set_up_all_released env r c s s' l l' : serves_new env r c s s' l → cr_ID r ≠ "" →
  releases s' (cr_ID r) (c_mountCleanup c) l' → all_released (l ++ l').
Proof.
  intros [Hsv _ Hm _ _ Hcpu Hmem [_ N M V (f & Hf & Hs)]] Hid [V' N' M' S' I' C' D'].
  split; intros; rewrite ?balance_app.
  - rewrite V, V'. lia.
  - rewrite N, N'. unfold net_log. rewrite decide_False by done. simpl. case_decide; lia.
  - rewrite (M _ _ (eq_sym Hm)), M'. destruct (c_mountCleanup c); simpl; repeat case_decide; lia.
  - apply elem_of_app; right. apply I'. rewrite Hf.
    apply starts_elem in H; [|done]. rewrite starts_app, S', app_nil_r, Hs in H.
    apply elem_of_cons in H as [H|(k & H & _)%list_elem_of_fmap]; simplify_eq. by left.
  - apply elem_of_app; right. apply starts_elem in H; [|done].
    rewrite starts_app, S', app_nil_r, Hs in H.
    apply elem_of_cons in H as [H|(k' & Hk & H)%list_elem_of_fmap]; simplify_eq.
    apply elem_of_app in H as [H|H].
    + destruct (e_cpuCtrl env); [|by inversion H]. apply list_elem_of_singleton in H as ->.
      destruct Hcpu; [by apply C'|done].
    + destruct (e_memCtrl env); [|by inversion H]. apply list_elem_of_singleton in H as ->.
      destruct Hmem; [by apply D'|done].
Qed.

Lemma idle_all_released env s s' l' : idle_again env s s' → w_log (s_world s) = [] →
  releases s' "" None l' → all_released (w_log (s_world s') ++ l').
Proof.
  intros [_ _ _ (_ & _ & _ & _ & l & Hl & N & M & [V _] & S & _)] Hlog [V' N' M' S' _ _ _].
  rewrite Hlog in Hl. simpl in Hl. rewrite Hl.
  split; intros; rewrite ?balance_app, ?V, ?V', ?N, ?N', ?M, ?M'; try (simpl; lia);
    exfalso; apply starts_elem in H; try done; rewrite starts_app, S, S' in H; by inversion H.
Qed.

(** C6: On a shim just started, Create, then Delete of the container, then the
    process' shutdown run one after the other, whatever their callees answer
    and whatever Create and Delete return (Create may fail at any stage; at
    Delete the guest may be unreachable or refuse), for a container with a
    non-empty id and unless the constructor newInstance itself fails (then
    the shutdown calls a nil instance): the process has not crashed, the
    manager holds no instance, every VM created has been asked to shut down
    (the answer may be an error), every network and mount set-up has been
    released, as often as it was set up, and every I/O forwarder and hotplug
    controller started has been stopped. *)
Theorem life_releases_everything cenv r denv ce :
  cr_ID r ≠ "" → is_ok (ve_newInstance (e_vm cenv)) = true →
  let s' := life cenv r denv ce NewService in
  alive s' ∧ m_instance (s_vmLifecycle s') = INil ∧ all_released (w_log (s_world s')).
Proof.
  intros Hid Hok. unfold life.
  pose proof (run_Create_then cenv r NewService NewService_fresh NewService_counted eq_refl eq_refl eq_refl) as H.
  destruct (run (Create cenv r) NewService) as [[pid|e] s1]; cbn [snd].
  - destruct H as (c & l & H). pose proof H as [Hsv Hc1 _ Hst Hcm _ _ [Hl _ _ _ _]].
    destruct (run_Delete_then ce (cr_ID r) c s1 denv Hsv Hc1 Hst) as (Ha & Hv & l' & Hl' & Hr);
      [by rewrite Hcm|done|]. split; [done|]. split; [done|].
    rewrite Hl', Hl. by eapply set_up_all_released.
  - pose proof H as [Ha Hst _ (_ & _ & Hct & _ & l & Hl & _ & _ & [_ Hv] & _ & Hu)].
    destruct (run_Delete_idle (cr_ID r) s1 denv Ha Hst) as [Ha2 Hk].
    destruct (kept_then_shutdown ce s1 _ Hk Ha2) as (Ha3 & Hsd & l' & Hl' & Hr).
    { split; [done|by apply Hv|]. unfold forwarders. by rewrite Hct. }
    destruct Hu as (Hi & _). unfold mount_of in Hr. rewrite Hct, Hi in Hr.
    split; [done|]. split; [apply Hsd|]. rewrite Hl'. by eapply idle_all_released.
Qed.

(** *** What can go wrong *)

(** [Delete] when the guest cannot be reached. *)
Theorem Delete_unreachable_guest_sticks id c s env e :
  serving id c s →
  sm_state (s_stateMachine s) = StateRunning ∨ sm_state (s_stateMachine s) = StateCreated →
  cm_client (s_connManager s) = None → de_dial env (cm_dials (s_connManager s)) = Some e →
  ∃ s', run (Delete id "" env) s = (Err e, s')
    ∧ sm_state (s_stateMachine s') = StateDeleting
    ∧ s_container s' = Some c ∧ w_sched (s_world s') = w_sched (s_world s)
    ∧ ∀ env', (run (Delete id "" env') s').1 = Err (mkError ErrAlreadyExists "delete already in progress").
Proof.
  intros [[Ha Hv Hf] Had Hc Hid Hp Hcl _] Hst Hcc Hd. pose proof Had as (_ & Hreq & _).
  unfold alive in Ha. unfold Delete. rewrite run_rpc by done. unfold Delete_body.
  rewrite decide_True by done. srun. rewrite run_TryStartDeleting by done. cbn [negb].
  unfold Delete_rest. srun1.
  match goal with |- context [run (getTaskClient _) ?x] =>
    destruct (run_getTaskClient_fails (de_dial env) x e) as (cm & ->); [done|done|done|done|] end.
  cbv beta iota. rewrite run_Ret. eexists. split; [reflexivity|].
  set (s2 := dec_inflight _).
  assert (alive s2 ∧ sm_state (s_stateMachine s2) = StateDeleting ∧ s_container s2 = Some c
    ∧ s_shutdownRequested s2 = false ∧ w_sched (s_world s2) = w_sched (s_world s)) as (H1 & H2 & H3 & H4 & H5).
  { unfold s2, dec_inflight, alive. cbn. by rewrite Ha. }
  clearbody s2. split_and!; try done. intros env'.
  rewrite run_rpc by (split_and!; [done|done|congruence]).
  unfold Delete_body. rewrite decide_True by done. unfold alive in H1. srun.
  unfold TryStartDeleting. rewrite run_bind, run_cas_bool, cas_false by (simpl; congruence). cbv beta iota.
  rewrite run_cas_bool, cas_false by (simpl; congruence). cbn [negb]. srun.
  rewrite run_State. cbv beta iota. rewrite run_Ret. cbn [fst s_stateMachine set_inflight set_stateMachine].
  by rewrite H2.
Qed.

Theorem Exec_duplicate_loses_forwarder id c io s r env f f0 pio e :
  serving id c s → reachable (xe_dial env) s →
  c_io c = Some io → xr_ID r = id → io_exec io !! xr_ExecID r = Some pio → pio_forwarder pio = Some f0 →
  xe_forwardIO env = Ok f → xe_answer env = Some e →
  ∃ s' c' io', run (Exec r env) s = (Err e, s')
    ∧ s_container s' = Some c' ∧ c_io c' = Some io' ∧ io_exec io' = delete (xr_ExecID r) (io_exec io)
    ∧ w_log (s_world s') = w_log (s_world s) ++ [Guest "Task.Exec"; IOShutdown f].
Proof.
  intros [[Ha Hv Hf] Had Hc Hid [p Hp] Hcl _] Hre Hio Hr Hpio Hfw Hfio Hans. unfold alive in Ha.
  unfold Exec. rewrite run_rpc by done. unfold Exec_body. srun1.
  match goal with |- context [run (getTaskClient _) ?x] =>
    destruct (run_getTaskClient (xe_dial env) x) as (cl & cm & -> & _ & _); [done|done|done|] end.
  cbv beta iota. srun. unfold Instance_. cbn [s_vmLifecycle set_connManager set_inflight].
  rewrite Hp. cbn [not_nil]. rewrite Hfio. srun.
  unfold exec_register. cbn [s_container set_connManager set_inflight s_containerID].
  rewrite Hc, Hid, Hr, bool_decide_true, Hio by done. cbn [default negb]. srun. rewrite Hans. srun.
  unfold exec_unregister. cbn [s_container set_container emit set_world set_connManager set_inflight
    s_containerID c_io io_exec].
  rewrite Hid, Hr, bool_decide_true, lookup_insert_eq by done. cbn [pio_forwarder shut_io].
  cbn [s_world emit set_world set_log w_crashed set_container set_connManager set_inflight]. rewrite Ha.
  cbv beta iota. eexists _, _, _. split; [reflexivity|].
  unfold dec_inflight. cbn. rewrite Ha. cbn. split_and!; [done|done| |].
  - by rewrite delete_insert_eq.
  - by rewrite <- app_assoc.
Qed.

(** *** Pause and Resume *)

(** The guest keeps its connection and its file systems and vCPUs are as told. *)
Record guest_is (frozen stopped paused : bool) (s s' : service) : Prop := {
  gi_alive : alive s';
  gi_frozen : w_frozen (s_world s') = frozen;
  gi_stopped : w_stopped (s_world s') = stopped;
  gi_paused : s_paused s' = paused;
  gi_inflight : s_inflight s' = s_inflight s
}.

Lemma guest_is_dec fz st pa q s s1 : counted s → alive s1 →
  w_frozen (s_world s1) = fz → w_stopped (s_world s1) = st → s_paused s1 = pa →
  s_inflight s1 = int64_wrap (s_inflight s + 1) → ev_queue (s_events s1) = q →
  guest_is fz st pa s (dec_inflight s1) ∧ ev_queue (s_events (dec_inflight s1)) = q.
Proof.
  intros Hc Ha H1 H2 H3 H4 H5.
  destruct (dec_inflight_fields s1) as (_ & _ & _ & _ & E5 & _ & _ & E8 & _ & E10 & _).
  split; [split; unfold alive in *; rewrite ?E5, ?E10; try done; by apply inflight_restored|].
  by rewrite E8.
Qed.

(** One exchange with the guest through the cached or a new connection. *)
Ltac use_client dial :=
  match goal with |- context [run (getTaskClient _) ?x] =>
    let cl := fresh "cl" in let cm := fresh "cm" in
    destruct (run_getTaskClient dial x) as (cl & cm & -> & ? & ?);
    [done|done|first [done | by left; eauto]|] end;
  cbv beta iota.

(** Pause either freezes the guest's file systems, stops the vCPUs, records
    the pause and queues TaskPaused, or, when the thaw it may need succeeds,
    leaves the guest running and unfrozen. *)
Theorem Pause_all_or_nothing id c s env : serving id c s → counted s → reachable (pe_dial env) s →
  w_frozen (s_world s) = false → w_stopped (s_world s) = false → s_paused s = false →
  let '(o, s') := run (Pause id env) s in
  match o with
  | Ok _ => guest_is true true true s s'
            ∧ ev_queue (s_events s') = ev_queue (s_events s) ++ [TaskPaused id]
  | Err _ => pe_thaw env = None → guest_is false false false s s'
             ∧ ev_queue (s_events s') = ev_queue (s_events s)
  end.
Proof.
  intros [[Ha Hv Hf] Had Hc Hid [p Hp] Hcl [He1 He2]] Hcn Hre Hw1 Hw2 Hpa. unfold alive in Ha.
  unfold Pause. rewrite run_rpc by done. unfold Pause_body. srun.
  unfold Instance_. cbn [s_vmLifecycle set_inflight]. rewrite Hp. cbn [not_nil].
  unfold freezeGuestFilesystems, thawGuestFilesystems. srun1. srun1. use_client (pe_dial env).
  rewrite run_act by done.
  destruct (pe_freeze env) as [ef|]; cbv beta iota; srun; [intros _; by apply guest_is_dec|].
  unfold vm_set_stopped. srun. destruct (pe_vm env) as [ev|]; cbv beta iota.
  - srun1. srun1. use_client (pe_dial env). rewrite run_act by done.
    destruct (pe_thaw env); cbv beta iota; srun; [done|intros _; by apply guest_is_dec].
  - unfold send. srun. cbn [s_events set_paused set_guest set_world emit set_connManager set_inflight].
    rewrite He1, He2. cbn [andb]. by apply guest_is_dec.
Qed.

Theorem Resume_undoes_Pause id c s env : serving id c s → counted s → reachable (pe_dial env) s →
  pe_vm env = None → pe_thaw env = None →
  let '(o, s') := run (Resume id env) s in
  o = Ok tt ∧ guest_is false false false s s'
  ∧ ev_queue (s_events s') = ev_queue (s_events s) ++ [TaskResumed id].
Proof.
  intros [[Ha Hv Hf] Had Hc Hid [p Hp] Hcl [He1 He2]] Hcn Hre Hvm Hth. unfold alive in Ha.
  unfold Resume. rewrite run_rpc by done. unfold Resume_body. srun.
  unfold Instance_. cbn [s_vmLifecycle set_inflight]. rewrite Hp. cbn [not_nil].
  unfold vm_set_stopped, thawGuestFilesystems. srun. rewrite Hvm. cbv beta iota. srun.
  use_client (pe_dial env). srun. rewrite Hth. cbv beta iota.
  unfold send. srun. cbn [s_events set_paused set_guest set_world emit set_connManager set_inflight].
  rewrite He1, He2. cbn [andb]. split; [done|]. by apply guest_is_dec.
Qed.

(** *** The event channel *)

Theorem send_after_close_may_panic ev s : alive s →
  ev_done (s_events s) = false →
  let s1 := (closeEvents s).2 in
  (run (send true ev) s1).2 = s1
  ∧ w_crashed (s_world (run (send false ev) s1).2) = Some "send on closed channel".
Proof.
  intros Ha Hd. unfold alive in Ha. unfold closeEvents. rewrite Hd. cbn [snd].
  unfold send. split; rewrite run_put by done; done.
Qed.

(** ** Witnesses *)

(** A shim that serves container [c1] with one exec [x1]. *)
Definition pio1 : processIOState := mkPIO "in" "out" "err" false (Some 5%nat).
Definition pioX : processIOState := mkPIO "" "" "" false (Some 6%nat).
Definition io1 : taskIO := mkTaskIO pio1 {[ "x1" := pioX ]}.
Definition c1 : container := mkContainer 42 (Some io1) (Some 3%nat).
Definition serving1 (conn : ConnectionManager) : service :=
  mkService (mkSM StateRunning false) (mkManager (IPtr (Some 7%nat))) conn (Some c1) "c1"
    {[ "c1" := 1%nat ]} ∅ (mkEv [] false false) false false 0 false (mkWorld [] false false [] None).

Lemma serving1_ok conn : cm_closed conn = false → serving "c1" c1 (serving1 conn).
Proof.
  intros Hc. split; try done.
  - split; [done|done|]. vm_compute. repeat constructor; eauto.
  - by eexists.
Qed.

Lemma serving1_counted conn : counted (serving1 conn).
Proof. unfold counted, two63. simpl. lia. Qed.

Definition del_env : DeleteEnv := mkDeleteEnv (λ _, None) (Ok (42, 0)%Z) true goodCleanup.

Lemma shutdown_releases_in_order_witness :
  sound (serving1 NewConnectionManager)
  ∧ shut_down (serving1 NewConnectionManager) (run (shutdown goodCleanup) (serving1 NewConnectionManager)).2.
Proof.
  pose proof (sv_sound _ _ _ (serving1_ok NewConnectionManager eq_refl)) as Hs. split; [exact Hs|].
  pose proof (shutdown_releases_in_order goodCleanup _ Hs) as H. destruct (run _ _) as [e s']. apply H.
Defined.

Lemma Delete_releases_in_order_witness :
  ∃ s', run (Delete "c1" "" del_env) (serving1 NewConnectionManager) = (Ok (42, 0)%Z, s')
    ∧ deleted "c1" c1 42 0 (serving1 NewConnectionManager) s'.
Proof.
  apply (Delete_releases_in_order "c1" c1 (serving1 NewConnectionManager) del_env 42 0);
    [by apply serving1_ok|apply serving1_counted|by right|by left|reflexivity].
Defined.

Definition del_env_down : DeleteEnv :=
  mkDeleteEnv (λ _, Some (mkError (Errno ENODEV) "no such device")) (Ok (42, 0)%Z) true goodCleanup.

(** A life that goes well, one whose guest is lost before [Delete], and one whose
    VM does not boot. *)
Lemma life_releases_everything_witness :
  (∃ pid, (run (Create (create_env None) req1) NewService).1 = Ok pid)
  ∧ all_released (w_log (s_world (life (create_env None) req1 del_env goodCleanup NewService)))
  ∧ all_released (w_log (s_world (life (create_env None) req1 del_env_down goodCleanup NewService)))
  ∧ all_released (w_log (s_world
      (life (create_env (Some (mkError ErrUnknown "boot"))) req1 del_env goodCleanup NewService))).
Proof.
  split; [exists 42%Z; by vm_compute|].
  split_and!; apply life_releases_everything; done.
Defined.

Lemma Delete_unreachable_guest_sticks_witness :
  ∃ s', run (Delete "c1" "" del_env_down) (serving1 NewConnectionManager)
          = (Err (mkError (Errno ENODEV) "no such device"), s')
    ∧ sm_state (s_stateMachine s') = StateDeleting ∧ w_sched (s_world s') = [].
Proof.
  destruct (Delete_unreachable_guest_sticks "c1" c1 (serving1 NewConnectionManager) del_env_down
    (mkError (Errno ENODEV) "no such device")) as (s' & H1 & H2 & _ & H3 & _);
    [by apply serving1_ok|by left|reflexivity|reflexivity|]. eauto.
Defined.

Lemma Exec_duplicate_loses_forwarder_witness :
  ∃ s', (run (Exec (mkExecReq "c1" "x1" "" "" "")
           (mkExecEnv (λ _, None) (Ok 8%nat) (Some (mkError ErrAlreadyExists "exec x1"))))
           (serving1 NewConnectionManager)).2 = s'
    ∧ w_log (s_world s') = [Guest "Task.Exec"; IOShutdown 8].
Proof.
  destruct (Exec_duplicate_loses_forwarder "c1" c1 io1 (serving1 NewConnectionManager)
    (mkExecReq "c1" "x1" "" "" "") (mkExecEnv (λ _, None) (Ok 8%nat) (Some (mkError ErrAlreadyExists "exec x1")))
    8 6 pioX (mkError ErrAlreadyExists "exec x1")) as (s' & c' & io' & H1 & _ & _ & _ & H2);
    [by apply serving1_ok|by right|reflexivity|reflexivity|vm_compute; reflexivity|reflexivity|reflexivity|reflexivity|].
  rewrite H1. eauto.
Defined.

Definition pause_env (vm : option error) : PauseEnv := mkPauseEnv (λ _, None) None None vm true.

Lemma Pause_all_or_nothing_witness :
  guest_is false false false (serving1 NewConnectionManager)
    (run (Pause "c1" (pause_env (Some (mkError ErrUnknown "qmp")))) (serving1 NewConnectionManager)).2.
Proof.
  pose proof (Pause_all_or_nothing "c1" c1 (serving1 NewConnectionManager)
    (pause_env (Some (mkError ErrUnknown "qmp"))) (serving1_ok NewConnectionManager eq_refl) (serving1_counted _)
    (or_intror eq_refl) eq_refl eq_refl eq_refl) as H.
  assert ((run (Pause "c1" (pause_env (Some (mkError ErrUnknown "qmp")))) (serving1 NewConnectionManager)).1
    = Err (mkError ErrUnknown "pause vm: qmp")) as E by (vm_compute; reflexivity).
  destruct (run _ _) as [o s']. simpl in E. subst o. apply H. reflexivity.
Defined.

Lemma Resume_undoes_Pause_witness :
  guest_is false false false (serving1 NewConnectionManager)
    (run (Resume "c1" (pause_env None)) (serving1 NewConnectionManager)).2.
Proof.
  pose proof (Resume_undoes_Pause "c1" c1 (serving1 NewConnectionManager) (pause_env None)
    (serving1_ok NewConnectionManager eq_refl) (serving1_counted _) (or_intror eq_refl) eq_refl eq_refl) as H.
  destruct (run _ _) as [o s']. apply H.
Defined.

Lemma send_after_close_may_panic_witness :
  w_crashed (s_world (run (send false (TaskPaused "c1")) (closeEvents NewService).2).2)
  = Some "send on closed channel".
Proof. apply (send_after_close_may_panic (TaskPaused "c1") NewService); reflexivity. Defined.
