(* ===== verification/ShimConc.v ===== *)
(** Concurrent requests on the shim's task service: any number of handlers of
    ShimService interleaved at their atomic actions. *)
From S2P Require Import Prelude Conc GoStrings ShimState Cleanup VMManager ConnManager ShimService.

(** ** The goroutines *)

(** One goroutine per request, with the answers it will get, and the goroutines
    [requestShutdownAndExit] runs in. *)
Inductive handler :=
  | HCreate (env : CreateEnv) (r : CreateRequest)
  | HStart (execID : string) (dial : nat → option error) (answer : res Z)
  | HDelete (id execID : string) (env : DeleteEnv)
  | HExec (r : ExecRequest) (env : ExecEnv)
  | HState (execID : string) (dial : nat → option error) (answer : res StateResponse)
  | HConnect (id : string) (shimPid : Z) (dial : nat → option error) (answer : res Z)
  | HPause (id : string) (env : PauseEnv)
  | HResume (id : string) (env : PauseEnv)
  | HCloseIO (id execID : string) (stdin : bool) (dial : nat → option error) (answer : option error)
  | HForward (method : string) (dial : nat → option error) (answer : res unit)
  | HCheckpoint
  | HShutdown
  | HExit (svc : option bool) (ce : CleanupEnv).

Inductive hreply := RCreated (pid : Z) | RDrained | RDone.

Definition ret_done {A} (p : sprog A) : sprog hreply := pbind p (λ _, Ret RDone).

Definition goroutine (h : handler) : sprog hreply :=
  match h with
  | HCreate env r =>
      pbind (Create env r) (λ o, Ret (match o with Ok pid => RCreated pid | Err _ => RDone end))
  | HStart x d a => ret_done (Start x d a)
  | HDelete i x e => ret_done (Delete i x e)
  | HExec r e => ret_done (Exec r e)
  | HState x d a => ret_done (State_rpc x d a)
  | HConnect i p d a => ret_done (Connect i p d a)
  | HPause i e => ret_done (Pause i e)
  | HResume i e => ret_done (Resume i e)
  | HCloseIO i x b d a => ret_done (CloseIO i x b d a)
  | HForward m d a => ret_done (forwarded m d a)
  | HCheckpoint => ret_done Checkpoint
  | HShutdown => ret_done Shutdown_rpc
  | HExit svc ce => ret_done (requestShutdownAndExit svc ce)
  end.

(** ** What the actions do to the state word *)

Abbreviation st s := (sm_state (s_stateMachine s)).

(** [live R]: an action of a live process is related by [R]; one of a dead
    process changes nothing. *)
Definition live (R : service → service → Prop) (s s' : service) : Prop :=
  match w_crashed (s_world s) with
  | Some _ => s' = s
  | None => R s s'
  end.

Definition same (s s' : service) : Prop := st s' = st s.
Abbreviation Rsame := (live same).

(** A change of the state word that is not one of a creator's. *)
Inductive calm : ShimState → ShimState → Prop :=
  | calm_refl x : calm x x
  | calm_started : calm StateCreated StateRunning
  | calm_delete_created : calm StateCreated StateDeleting
  | calm_delete_running : calm StateRunning StateDeleting
  | calm_shutdown x : calm x StateShuttingDown.

Definition scalm (s s' : service) : Prop := calm (st s) (st s').
Abbreviation Rcalm := (live scalm).

(** The same, with the request counter and the shutdown flag left alone: what the
    body of a request does. *)
Definition inert (s s' : service) : Prop :=
  st s' = st s ∧ s_inflight s' = s_inflight s ∧ s_shutdownRequested s' = s_shutdownRequested s.
Definition tame (s s' : service) : Prop :=
  calm (st s) (st s') ∧ s_inflight s' = s_inflight s
  ∧ s_shutdownRequested s' = s_shutdownRequested s.
Abbreviation Rinert := (live inert).
Abbreviation Rtame := (live tame).

Lemma live_mono (R1 R2 : service → service → Prop) s s' :
  (∀ s s', R1 s s' → R2 s s') → live R1 s s' → live R2 s s'.
Proof. intros H. unfold live. destruct (w_crashed _); eauto. Qed.

Lemma guar_inert_same {A} (p : sprog A) : guar Rinert p → guar Rsame p.
Proof. apply guar_mono. intros s s'. apply live_mono. by intros ?? [? _]. Qed.

Lemma guar_inert_tame {A} (p : sprog A) : guar Rinert p → guar Rtame p.
Proof.
  apply guar_mono. intros s s'. apply live_mono. intros ?? (E & ? & ?). split; [|done].
  rewrite E. constructor.
Qed.

Lemma guar_tame_calm {A} (p : sprog A) : guar Rtame p → guar Rcalm p.
Proof. apply guar_mono. intros s s'. apply live_mono. by intros ?? [? _]. Qed.

Lemma same_calm s s' : Rsame s s' → Rcalm s s'.
Proof. unfold live, same, scalm. destruct (w_crashed _); [done|]. intros ->. constructor. Qed.

Lemma guar_same_calm {A} (p : sprog A) : guar Rsame p → guar Rcalm p.
Proof. apply guar_mono, same_calm. Qed.

Lemma guar_act {B} (R : service → service → Prop) (f : service → B * service) :
  (∀ s, R s (f s).2) → guar (live R) (act f).
Proof.
  intros Hf. unfold act. simpl. split; [|done]. intros s. unfold guarded, live.
  by destruct (w_crashed _).
Qed.

Lemma guar_lift_sm {A} (p : prog StateMachine A) (R : ShimState → ShimState → Prop) :
  guar (λ a b, R (sm_state a) (sm_state b)) p →
  guar (live (λ s s', R (st s) (st s') ∧ s_inflight s' = s_inflight s
                       ∧ s_shutdownRequested s' = s_shutdownRequested s)) (lift_sm p).
Proof.
  induction p as [a|B f k IH]; simpl; [done|]. intros [Hf Hk]. split.
  - intros s. unfold guarded, live. specialize (Hf (s_stateMachine s)).
    destruct (w_crashed _); by destruct (f (s_stateMachine s)).
  - intros b. apply IH, Hk.
Qed.

Lemma guar_lift_conn {A} (p : prog ConnectionManager A) : guar Rinert (lift_conn p).
Proof.
  induction p as [a|B f k IH]; simpl; [done|]. split; [|done]. intros s. unfold guarded, live.
  destruct (w_crashed _); by destruct (f (s_connManager s)).
Qed.

Lemma guar_getTaskClient dial : guar Rinert (getTaskClient dial).
Proof. unfold getTaskClient. apply guar_bind; [apply guar_lift_conn|]. by intros []. Qed.

(** Walk a handler down to its actions. *)
Ltac leaf :=
  unfold same, inert; simpl; repeat (case_match; simpl); try done; unfold shut_io; repeat (case_match; simpl); done.

(** ** Auxiliary facts on the actions *)

Lemma inert_trans s1 s2 s3 : inert s1 s2 → inert s2 s3 → inert s1 s3.
Proof. unfold inert. intros (? & ? & ?) (? & ? & ?). split_and!; congruence. Qed.

Lemma shut_ios_inert fs s : inert s (shut_ios fs s).
Proof.
  unfold shut_ios. revert s. induction fs as [|f fs IH]; intros s; [done|]. cbn [foldl].
  eapply inert_trans; [|apply IH]. destruct (w_crashed _); [done|]. by destruct f.
Qed.

Lemma stop_all_inert cs s : inert s (stop_all cs s).
Proof.
  unfold stop_all. revert s. induction cs as [|c cs IH]; intros s; [done|]. cbn [foldl].
  by eapply inert_trans; [|apply IH].
Qed.

Lemma vm_shutdown_inert ce s : inert s (vm_shutdown ce s).2.
Proof.
  unfold vm_shutdown. destruct (Shutdown _ _) as [o m]. destruct o; simpl; [|done].
  by destruct (m_instance _).
Qed.

Ltac gwalk :=
  repeat first
    [ apply guar_getTaskClient
    | apply guar_lift_conn
    | match goal with |- guar _ (pbind _ _) => apply guar_bind; [|intros ?] end
    | match goal with |- guar _ (put _) => unfold put end
    | match goal with |- guar _ (get _) => unfold get end
    | match goal with |- guar _ (ext _ _) => unfold ext end
    | match goal with |- guar _ (act _) => apply guar_act; intros ? end
    | match goal with |- guar _ (match ?x with _ => _ end) => destruct x end
    | match goal with |- guar _ (if ?x then _ else _) => destruct x end
    | exact I ].

Lemma guar_set_intentional v : guar Rinert (lift_sm (SetIntentionalShutdown v)).
Proof. apply (guar_lift_sm _ (λ a b, b = a)). simpl. by split. Qed.

Lemma guar_is_state x : guar Rinert (lift_sm (is_state x)).
Proof. apply (guar_lift_sm _ (λ a b, b = a)). simpl. by split. Qed.

Lemma guar_State : guar Rinert (lift_sm State).
Proof. apply (guar_lift_sm _ (λ a b, b = a)). simpl. by split. Qed.

Lemma guar_force : guar Rtame (lift_sm (ForceTransition StateShuttingDown)).
Proof. apply (guar_lift_sm _ calm). simpl. split; [intros; constructor|done]. Qed.

Lemma cas_calm from to s : calm from to → calm (sm_state s) (sm_state (cas from to s).2).
Proof. intros H. unfold cas. case_decide; simpl; [by subst|constructor]. Qed.

Lemma guar_MarkStarted : guar Rtame (lift_sm MarkStarted).
Proof.
  apply (guar_lift_sm _ calm). unfold MarkStarted, mark. simpl. split.
  - intros s. apply cas_calm. constructor.
  - intros []; simpl; [done|]. split; [constructor|done].
Qed.

Lemma guar_TryStartDeleting : guar Rtame (lift_sm TryStartDeleting).
Proof.
  apply (guar_lift_sm _ calm). unfold TryStartDeleting. simpl. split.
  - intros s. apply cas_calm. constructor.
  - intros []; simpl; [done|]. split; [|done]. intros s. apply cas_calm. constructor.
Qed.

Lemma guar_isShuttingDown : guar Rinert isShuttingDown.
Proof. unfold isShuttingDown, get. gwalk; [leaf|]. apply guar_is_state. Qed.

Lemma guar_add_inflight n : guar Rsame (add_inflight n).
Proof. unfold add_inflight, put. gwalk. leaf. Qed.

Lemma guar_beginRPC allow : guar Rsame (beginRPC allow).
Proof.
  unfold beginRPC. gwalk; eauto using guar_add_inflight, guar_inert_same, guar_isShuttingDown.
Qed.

Lemma guar_rpc {A} R allow (body : sprog (res A)) :
  (∀ s s', Rsame s s' → R s s') → guar R body → guar R (rpc allow body).
Proof.
  intros HR Hb. unfold rpc. apply guar_bind; [by eapply guar_mono, guar_beginRPC|].
  intros []; [|done]. apply guar_bind; [done|]. intros ?. apply guar_bind; [|done].
  eapply guar_mono, guar_add_inflight. done.
Qed.

Lemma guar_send b ev : guar Rinert (send b ev).
Proof. unfold send, put. gwalk. leaf. Qed.

Lemma guar_exec_prog ps r :
  Forall (λ p, match ph_fn p with Some fn => ∀ s, inert s (fn s).2 | None => True end) ps →
  guar Rinert (exec_prog ps r).
Proof.
  intros H. revert r. induction H as [|[n [fn|] d] ps Hp _ IH]; intros r; cbn [exec_prog ph_fn ph_done].
  - done.
  - destruct d; [apply IH|]. gwalk; [apply Hp|apply IH].
  - apply IH.
Qed.

Lemma net_phase_same (b : bool) ce id s :
  inert s (if b then net_release ce id s else (None, s)).2.
Proof. by destruct b. Qed.

Lemma mount_same ce h s : inert s (mount_cleanup ce h s).2.
Proof. by destruct h. Qed.

Lemma guar_cleanup ce id mc r :
  guar Rinert (exec_prog (NewCleanupOrchestrator (buildCleanupPhases ce id mc)) r).
Proof.
  apply guar_exec_prog. unfold NewCleanupOrchestrator.
  repeat (apply Forall_cons_2; [cbn; intros s|]); [..|apply Forall_nil_2].
  - unfold stopAllHotplugControllers. cbn [snd]. by eapply inert_trans; [|apply stop_all_inert].
  - unfold shutdownAllIO. destruct (s_container s); [|done]. apply shut_ios_inert.
  - unfold conn_close. by destruct (Close _ _).
  - apply vm_shutdown_inert.
  - cbn. case_decide; done.
  - apply mount_same.
  - unfold closeEvents. by destruct (ev_done _).
Qed.

Lemma guar_delete_cleanup ce id d r n :
  guar Rinert (exec_prog (drop n (NewCleanupOrchestrator (delete_phases ce id d))) r).
Proof.
  apply guar_exec_prog, Forall_drop. unfold NewCleanupOrchestrator.
  repeat (apply Forall_cons_2; [cbn; try done; intros s|]); [..|apply Forall_nil_2].
  - apply vm_shutdown_inert.
  - apply net_phase_same.
  - apply mount_same.
Qed.

Lemma guar_shutdown ce : guar Rcalm (shutdown ce).
Proof.
  unfold shutdown. apply guar_bind; [apply guar_same_calm; gwalk; leaf|intros _].
  apply guar_bind; [apply guar_tame_calm, guar_force|intros _].
  apply guar_same_calm, guar_inert_same. gwalk; try leaf.
  - unfold extractMountCleanup. leaf.
  - apply guar_cleanup.
Qed.

Lemma guar_drain n : guar Rsame (drain n).
Proof. induction n; cbn [drain]; unfold get; gwalk; try leaf; done. Qed.

Lemma guar_exit svc ce : guar Rcalm (requestShutdownAndExit svc ce).
Proof.
  unfold requestShutdownAndExit, put. apply guar_bind.
  { apply guar_same_calm. gwalk. leaf. }
  intros []; [|done]. apply guar_bind; [apply guar_same_calm; gwalk; leaf|intros _].
  apply guar_bind; [apply guar_tame_calm, guar_force|intros _].
  apply guar_bind; [apply guar_same_calm, guar_drain|intros _]. apply guar_bind.
  - destruct svc as [[]|]; [apply guar_shutdown|done|apply guar_shutdown].
  - intros _. apply guar_same_calm. gwalk. leaf.
Qed.

Lemma guar_Start x d a : guar Rtame (Start_body x d a).
Proof.
  unfold Start_body, ext. apply guar_bind; [apply guar_inert_tame, guar_getTaskClient|].
  intros []; [|done]. apply guar_bind; [apply guar_inert_tame; gwalk; leaf|].
  intros []; [|done]. apply guar_bind; [|done]. case_decide; [apply guar_MarkStarted|done].
Qed.

Lemma guar_Delete_rest i x e : guar Rinert (Delete_rest i x e).
Proof.
  unfold Delete_rest, ext, put, collectDeleteCleanup, runDeleteCleanup. gwalk; try leaf;
    try apply guar_set_intentional; try apply guar_send; try apply guar_delete_cleanup.
  all: try (unfold collect_container; leaf).
  all: cbn [snd]; first [apply shut_ios_inert | apply stop_all_inert].
Qed.

Lemma guar_Delete i x e : guar Rtame (Delete_body i x e).
Proof.
  unfold Delete_body. case_decide; [|apply guar_inert_tame, guar_Delete_rest].
  apply guar_bind; [apply guar_TryStartDeleting|]. intros []; cbn [negb];
    [apply guar_inert_tame, guar_Delete_rest|].
  apply guar_bind; [apply guar_inert_tame, guar_State|done].
Qed.

Lemma guar_Exec r e : guar Rinert (Exec_body r e).
Proof.
  unfold Exec_body, get, put. gwalk; try leaf.
  - unfold exec_register. leaf.
  - unfold same, exec_unregister, shut_io. cbn [snd]. repeat (case_match; try done).
Qed.

Lemma guar_State_body x d a : guar Rinert (State_body x d a).
Proof. unfold State_body, State_guest, ext, get. gwalk; try leaf; apply guar_is_state. Qed.

Lemma guar_Connect i p d a : guar Rinert (Connect_body i p d a).
Proof. unfold Connect_body, ext, get. gwalk; leaf. Qed.

Lemma guar_Pause i e : guar Rinert (Pause_body i e).
Proof.
  unfold Pause_body, freezeGuestFilesystems, thawGuestFilesystems, vm_set_stopped, get, put.
  gwalk; try apply guar_send; leaf.
Qed.

Lemma guar_Resume i e : guar Rinert (Resume_body i e).
Proof.
  unfold Resume_body, thawGuestFilesystems, vm_set_stopped, get, put.
  gwalk; try apply guar_send; leaf.
Qed.

(** The bodies of the requests that are not a creation. *)
Lemma guar_CloseIO i x (b : bool) d a :
  guar Rinert (_ <- (if b then put (close_stdin i x) else Ret tt) ;;
               _ <-? getTaskClient d ;; ext (Guest "Task.CloseIO") (of_opt a)).
Proof. gwalk; try leaf. unfold close_stdin. leaf. Qed.

Lemma guar_forwarded {A} m d (a : res A) : guar Rinert (_ <-? getTaskClient d ;; ext (Guest m) a).
Proof. gwalk; leaf. Qed.

(** Every goroutine but a creator leaves the creator's edges alone. *)
Lemma guar_others h : (∀ env r, h ≠ HCreate env r) → guar Rcalm (goroutine h).
Proof.
  intros Hh. destruct h; cbn [goroutine]; unfold ret_done; try (by edestruct Hh);
    (apply guar_bind; [|done]); try (apply guar_rpc; [apply same_calm|]; apply guar_tame_calm).
  - apply guar_Start.
  - apply guar_Delete.
  - apply guar_inert_tame, guar_Exec.
  - apply guar_inert_tame, guar_State_body.
  - apply guar_inert_tame, guar_Connect.
  - apply guar_inert_tame, guar_Pause.
  - apply guar_inert_tame, guar_Resume.
  - apply guar_inert_tame, guar_CloseIO.
  - apply guar_inert_tame, guar_forwarded.
  - done.
  - apply guar_inert_tame. gwalk; try leaf. apply guar_set_intentional.
  - apply guar_exit.
Qed.

(** The phases of a creation between its claim on the state word and its end. *)
Lemma guar_setup env r : guar Rinert (setupVMInstance env r).
Proof.
  unfold setupVMInstance, create_vm, on_vm. gwalk; leaf.
Qed.

Lemma guar_startVM env : guar Rinert (startVM env).
Proof. unfold startVM, on_vm. gwalk; try leaf. apply guar_set_intentional. Qed.

Lemma guar_createTask env s : guar Rinert (createTaskInVM env s).
Proof. unfold createTaskInVM, on_vm. gwalk; leaf. Qed.

Lemma guar_finalize env r s pid : guar Rinert (finalizeCreate env r s pid).
Proof. unfold finalizeCreate. gwalk; leaf. Qed.

Lemma guar_rollback steps : guar Rinert (rollback steps).
Proof. induction steps as [|[[]|] steps IH]; cbn [rollback run_step]; gwalk; try leaf; done. Qed.

(** ** The creation protocol

    A goroutine is idle, owns the creation (from its successful
    [TryStartCreating] on), or has finished one. *)
Inductive cmode := MIdle | MOwn | MFin.

Definition cstep_live (m : cmode) (s s' : service) (m' : cmode) : Prop :=
  match m with
  | MIdle => (scalm s s' ∧ m' = MIdle) ∨ (st s = StateIdle ∧ st s' = StateCreating ∧ m' = MOwn)
  | MOwn => (st s' = st s ∧ m' = MOwn)
      ∨ (st s = StateCreating ∧ st s' = StateIdle ∧ m' = MIdle)
      ∨ (st s = StateCreating ∧ st s' = StateCreated ∧ m' = MFin)
      ∨ (st s = StateShuttingDown ∧ st s' = StateShuttingDown ∧ m' ≠ MOwn)
  | MFin => scalm s s' ∧ m' = MFin
  end.

Definition cstep (m : cmode) (s s' : service) (m' : cmode) : Prop :=
  match w_crashed (s_world s) with
  | Some _ => s' = s
  | None => cstep_live m s s' m'
  end.

Definition cpre (m : cmode) (s : service) : Prop :=
  w_crashed (s_world s) = None → m = MOwn → st s = StateCreating ∨ st s = StateShuttingDown.

Abbreviation cobeys := (obeys cstep cpre).

Lemma same_obeys {A} m (p : sprog A) : guar Rsame p → cobeys m p (λ m' _, m' = m).
Proof.
  apply guar_obeys. intros s s' _. unfold live, cstep, same, cstep_live, scalm.
  destruct (w_crashed _); [done|]. intros E. destruct m; rewrite E; eauto using calm.
Qed.

Lemma calm_obeys {A} (p : sprog A) : guar Rcalm p → cobeys MIdle p (λ m' _, m' = MIdle).
Proof.
  apply guar_obeys. intros s s' _. unfold live, cstep. destruct (w_crashed _); [done|].
  by left.
Qed.

(** [p] leaves the state word alone; go on in the same mode. *)
Lemma same_then {A B} m (p : sprog A) (k : A → sprog B) Q :
  guar Rinert p → (∀ a, cobeys m (k a) Q) → cobeys m (pbind p k) Q.
Proof.
  intros Hp Hk. apply obeys_bind. eapply obeys_mono; [|by apply same_obeys, guar_inert_same].
  intros m' a ->. apply Hk.
Qed.

(** Splitting an action of the state machine by whether the process is alive. *)
Ltac sm_action :=
  let s := fresh "s" in let Hp := fresh "Hp" in
  intros s Hp; unfold guarded, cstep, cpre in *;
  destruct (w_crashed (s_world s)) eqn:?; cbn [fst snd] in *.

Lemma obeys_try : cobeys MIdle (lift_sm TryStartCreating) (λ m b, m = if b then MOwn else MIdle).
Proof.
  unfold TryStartCreating, atomically. cbn [lift_sm]. sm_action.
  - destruct (cas _ _ (s_stateMachine s)) as [[] sm]; eexists; (split; [done|]); reflexivity.
  - unfold cas. case_decide as E; cbn; eexists; (split; [|reflexivity]); [right|left]; try done.
    split; [constructor|done].
Qed.

(** The ways out of ownership. *)
Lemma obeys_mark to m1 : (to = StateIdle ∧ m1 = MIdle) ∨ (to = StateCreated ∧ m1 = MFin) →
  cobeys MOwn (lift_sm (mark StateCreating to)) (λ m _, m = m1).
Proof.
  intros Hto. assert (Hm1 : m1 ≠ MOwn) by (by destruct Hto as [[_ ->]|[_ ->]]).
  unfold mark, atomically. cbn [pbind lift_sm]. sm_action.
  - exists m1. split; [done|]. destruct (cas _ _ _) as [[] sm]; cbn; [done|].
    intros s' _. exists m1. unfold guarded, cstep. destruct (w_crashed (s_world s')); [done|].
    cbn. split; [|done]. destruct m1; [by left; split; [constructor|]|done|by split; [constructor|]].
  - exists m1. unfold cas. case_decide as E; cbn.
    + split; [|done]. right. destruct Hto as [[-> ->]|[-> ->]]; eauto.
    + destruct (Hp eq_refl eq_refl) as [|E']; [done|]. split; [by right; right; right|].
      intros s' _. exists m1. unfold guarded, cstep. destruct (w_crashed (s_world s')); [done|].
      cbn. split; [|done]. destruct m1; [by left; split; [constructor|]|done|by split; [constructor|]].
Qed.

Lemma obeys_validate r :
  cobeys MIdle (validateCreateRequest r)
    (λ m v, match v with Ok _ => m = MOwn | Err _ => m ≠ MOwn end).
Proof.
  unfold validateCreateRequest. destruct (_ || _); [done|].
  apply obeys_bind. eapply obeys_mono; [|apply obeys_try]. intros m b ->. destruct b; cbn [negb].
  - apply same_then; [gwalk; leaf|intros hc]. apply same_then; [gwalk; leaf|intros inst].
    destruct (_ || _); [|destruct (ContainsAny _ _); [|done]];
      apply obeys_bind; (eapply obeys_mono; [|apply (obeys_mark _ MIdle); by left]);
      intros m o ->; done.
  - apply same_then; [apply guar_State|intros x]. repeat case_decide; done.
Qed.

Lemma obeys_create_fail {A} s e :
  cobeys MOwn (@create_fail A s e) (λ m o, m = MIdle ∧ o = Err e).
Proof.
  unfold create_fail. apply same_then; [apply guar_rollback|intros _].
  apply obeys_bind. eapply obeys_mono; [|apply (obeys_mark _ MIdle); by left]. intros m o ->. done.
Qed.

Lemma obeys_create_body env r :
  cobeys MIdle (Create_body env r)
    (λ m o, match o with Ok _ => m = MFin | Err _ => m ≠ MOwn end).
Proof.
  unfold Create_body. apply obeys_bind. eapply obeys_mono; [|apply obeys_validate].
  intros m [[]|e] Hm; [subst m|done].
  assert (Hfail : ∀ s e, cobeys MOwn (@create_fail Z s e)
      (λ m o, match o with Ok _ => m = MFin | Err _ => m ≠ MOwn end)).
  { intros s e. eapply obeys_mono; [|apply obeys_create_fail]. by intros m o [-> ->]. }
  apply same_then; [apply guar_setup|]. intros [s [e|]]; [apply Hfail|].
  apply same_then; [apply guar_startVM|]. intros [e|]; [apply Hfail|].
  apply same_then; [apply guar_createTask|]. intros [[s' pid]|e]; [|apply Hfail].
  apply same_then; [apply guar_finalize|]. intros _. apply obeys_bind.
  eapply obeys_mono; [|apply (obeys_mark _ MFin); by right]. by intros m o ->.
Qed.

(** What a finished goroutine may have answered. *)
Definition cpost (m : cmode) (a : hreply) : Prop := ∀ pid, a = RCreated pid → m = MFin.

Lemma obeys_ret_done {A} (p : sprog A) : guar Rcalm (ret_done p) → cobeys MIdle (ret_done p) cpost.
Proof.
  intros Hg%guar_bind_inv. unfold ret_done. apply obeys_bind.
  eapply obeys_mono; [|by apply calm_obeys]. intros m a ->. by intros pid.
Qed.

Lemma obeys_goroutine h : cobeys MIdle (goroutine h) cpost.
Proof.
  destruct h as [env r| | | | | | | | | | | |];
    try (match goal with |- obeys _ _ _ (goroutine ?h) _ => apply obeys_ret_done, (guar_others h); done end).
  cbn [goroutine]. apply obeys_bind. unfold Create, rpc.
  apply obeys_bind. eapply obeys_mono; [|apply same_obeys, guar_beginRPC].
  intros m [[]|e] ->; [|by intros pid].
  apply obeys_bind. eapply obeys_mono; [|apply obeys_create_body]. intros m o Ho.
  apply obeys_bind. eapply obeys_mono; [|apply same_obeys, guar_add_inflight]. intros m' _ ->. cbn. destruct o as [pid|e]; intros pid'; [by intros _|done].
Qed.

(** The state of the pool: while the process lives, at most one goroutine owns or
    has finished a creation, and the state word agrees. *)
Record cinv_live (s0 s : service) (ms : list cmode) : Prop := {
  ci_unique : ∀ i j mi mj, ms !! i = Some mi → ms !! j = Some mj → mi ≠ MIdle → mj ≠ MIdle → i = j;
  ci_own : ∀ i, ms !! i = Some MOwn → st s = StateCreating ∨ st s = StateShuttingDown;
  ci_fin : ∀ i, ms !! i = Some MFin → st s ≠ StateIdle ∧ st s ≠ StateCreating;
  ci_edges : rtc edge (st s0) (st s)
}.

Definition cinv (s0 s : service) (ms : list cmode) : Prop :=
  w_crashed (s_world s) = None → cinv_live s0 s ms.

Lemma calm_edge x y : calm x y → x = y ∨ edge x y.
Proof. destruct 1; eauto using edge. Qed.

Lemma cstep_edge m s s' m' : cstep_live m s s' m' → cpre m s → w_crashed (s_world s) = None →
  rtc edge (st s) (st s').
Proof.
  intros H Hp Ha. destruct m; simpl in H; unfold scalm in *.
  - destruct H as [[[->|He]%calm_edge _]|(-> & -> & _)]; [done|by apply rtc_once|apply rtc_once; constructor].
  - destruct H as [[-> _]|[(-> & -> & _)|[(-> & -> & _)|(-> & -> & _)]]];
      [done|apply rtc_once; constructor|apply rtc_once; constructor|done].
  - destruct H as [[->|He]%calm_edge _]; [done|by apply rtc_once].
Qed.

Lemma cinv_pre s0 s ms i m : cinv s0 s ms → ms !! i = Some m → cpre m s.
Proof. intros HI Hm Ha ->. by eapply ci_own; [apply HI|]. Qed.

(** Another goroutine's calm change keeps what an owner or a finisher relies on. *)
Lemma calm_own x y : calm x y → x = StateCreating ∨ x = StateShuttingDown →
  y = StateCreating ∨ y = StateShuttingDown.
Proof. intros [] [H|H]; try discriminate H; auto. Qed.

Lemma calm_fin x y : calm x y → x ≠ StateIdle ∧ x ≠ StateCreating → y ≠ StateIdle ∧ y ≠ StateCreating.
Proof. intros []; naive_solver. Qed.

Lemma lookup_insert_cases (ms : list cmode) i j m' mj :
  <[i := m']> ms !! j = Some mj → (j = i ∧ mj = m') ∨ (j ≠ i ∧ ms !! j = Some mj).
Proof. intros [(-> & -> & _)|[? ?]]%list_lookup_insert_Some; auto. Qed.

Lemma others_idle s0 s ms i m j mj : cinv_live s0 s ms → ms !! i = Some m →
  m ≠ MIdle ∨ st s = StateIdle → j ≠ i → ms !! j = Some mj → mj = MIdle.
Proof.
  intros [Hu Ho Hf _] Hi Hm Hne Hj. destruct mj; [done| |]; exfalso; destruct Hm as [Hm|Hm].
  - apply Hne. by eapply Hu.
  - destruct (Ho j Hj); congruence.
  - apply Hne. by eapply Hu.
  - by destruct (Hf j Hj).
Qed.

(** A step after which goroutine [i] is not idle, or owned before it: the others
    are all idle. *)
Lemma cinv_alone s0 s s' ms i m m' : cinv_live s0 s ms → ms !! i = Some m →
  m ≠ MIdle ∨ st s = StateIdle → rtc edge (st s) (st s') →
  (m' = MOwn → st s' = StateCreating ∨ st s' = StateShuttingDown) →
  (m' = MFin → st s' ≠ StateIdle ∧ st s' ≠ StateCreating) →
  cinv_live s0 s' (<[i := m']> ms).
Proof.
  intros HI Hi Hm He Ho Hf. pose proof (λ j mj, others_idle s0 s ms i m j mj HI Hi Hm) as Hoth.
  split.
  - intros j k mj mk [[-> ->]|[? Hj]]%lookup_insert_cases [[-> ->]|[? Hk]]%lookup_insert_cases Hnj Hnk;
      [done| | |]; exfalso; [apply Hnk|apply Hnj|apply Hnj]; eauto.
  - intros j [[-> <-]|[? Hj]]%lookup_insert_cases; [auto|].
    by assert (MOwn = MIdle) by eauto.
  - intros j [[-> <-]|[? Hj]]%lookup_insert_cases; [auto|].
    by assert (MFin = MIdle) by eauto.
  - etrans; [apply HI|done].
Qed.

(** A calm step of an idle goroutine. *)
Lemma cinv_calm s0 s s' ms i : cinv_live s0 s ms → ms !! i = Some MIdle → scalm s s' →
  cinv_live s0 s' (<[i := MIdle]> ms).
Proof.
  intros [Hu Ho Hf He] Hi Hc. rewrite list_insert_id by done. split; [done| | |].
  - intros j Hj. eapply calm_own; [exact Hc|eauto].
  - intros j Hj. eapply calm_fin; [exact Hc|eauto].
  - etrans; [done|]. destruct (calm_edge _ _ Hc) as [->|]; [done|by apply rtc_once].
Qed.

Lemma cinv_step s0 s s' ms i m m' :
  cinv s0 s ms → ms !! i = Some m → cstep m s s' m' → cinv s0 s' (<[i := m']> ms).
Proof.
  intros HI Hi Hst. unfold cinv, cstep in *. destruct (w_crashed (s_world s)) eqn:Ha.
  { subst s'. rewrite Ha. done. }
  intros _. specialize (HI eq_refl).
  pose proof (cstep_edge m s s' m' Hst (cinv_pre s0 s ms i m (λ _, HI) Hi) Ha) as He.
  destruct m; simpl in Hst.
  - destruct Hst as [[Hc ->]|(Hs & Hs' & ->)]; [by apply (cinv_calm s0 s)|].
    eapply (cinv_alone s0 s); eauto; done.
  - eapply (cinv_alone s0 s); eauto.
    + intros ->. pose proof (ci_own _ _ _ HI i Hi) as Ho.
      destruct Hst as [[-> _]|[(_ & _ & ?)|[(_ & _ & ?)|(_ & -> & _)]]]; auto; done.
    + intros ->. destruct Hst as [[_ ?]|[(_ & _ & ?)|[(_ & -> & _)|(_ & -> & _)]]]; done.
  - destruct Hst as [Hc ->]. eapply (cinv_alone s0 s); eauto; [done|].
    intros _. eapply calm_fin; [exact Hc|]. by eapply ci_fin.
Qed.

(** Every reachable configuration of a pool of goroutines is explained. *)
Lemma pool_explained hs s s' ts :
  rtc pstep (s, map goroutine hs) (s', ts) →
  explained cstep cpre cpost (cinv s) (s', ts).
Proof.
  intros Hr. eapply (explained_rtc cstep cpre cpost (cinv s)); [apply cinv_pre|apply cinv_step| |done].
  exists (replicate (length hs) MIdle). split.
  - intros _. split; [| | |done];
      intros i; [intros j mi mj (-> & _)%lookup_replicate; done| |];
      intros (? & _)%lookup_replicate; done.
  - simpl. apply Forall2_fmap_r, Forall2_same_length_lookup_2; [by rewrite length_replicate|].
    intros i x y (-> & _)%lookup_replicate _. apply obeys_goroutine.
Qed.

(** C1: In any interleaving of any number of concurrent requests and exit
    sequences on one shim, at most one Create returns success while the
    process lives, and once one has, the state word is neither idle nor
    creating. *)
Theorem at_most_one_create hs s s' ts i j pid1 pid2 :
  rtc pstep (s, map goroutine hs) (s', ts) → w_crashed (s_world s') = None →
  ts !! i = Some (Ret (RCreated pid1)) → ts !! j = Some (Ret (RCreated pid2)) →
  i = j ∧ st s' ≠ StateIdle ∧ st s' ≠ StateCreating.
Proof.
  intros Hr Ha Hi Hj. destruct (pool_explained _ _ _ _ Hr) as (ms & HI & Hf). specialize (HI Ha).
  simpl in Hf, HI.
  destruct (Forall2_lookup_r _ _ _ _ _ Hf Hi) as (mi & Hmi & Hoi).
  destruct (Forall2_lookup_r _ _ _ _ _ Hf Hj) as (mj & Hmj & Hoj).
  assert (mi = MFin) as -> by (by eapply Hoi). assert (mj = MFin) as -> by (by eapply Hoj).
  split; [by eapply (ci_unique _ _ _ HI)|by eapply (ci_fin _ _ _ HI)].
Qed.

(** Under any interleaving of concurrent requests and exit sequences, the
    state word of a live shim moves only along the edges of the lifecycle
    (idle, creating, created, running, deleting, with shutdown from
    everywhere). *)
Theorem service_state_follows_lifecycle hs s s' ts :
  rtc pstep (s, map goroutine hs) (s', ts) → w_crashed (s_world s') = None →
  rtc edge (st s) (st s').
Proof.
  intros Hr Ha. destruct (pool_explained _ _ _ _ Hr) as (ms & HI & _). by apply HI.
Qed.

(** ** Draining requests before shutdown

    The goroutines are the handlers that [beginRPC] does not let through during a
    shutdown, and one that runs the first part of [requestShutdownAndExit]. *)

(** The first part of [requestShutdownAndExit], up to the end of the wait. *)
Definition drainer (ticks : nat) : sprog bool :=
  _ <- put (set_shutdownRequested true) ;;
  _ <- lift_sm (ForceTransition StateShuttingDown) ;;
  drain ticks.

Definition drain_goroutine (ticks : nat) : sprog hreply :=
  b <- drainer ticks ;; Ret (if b : bool then RDrained else RDone).

(** The handlers that are refused during a shutdown: all but [Shutdown] and the
    exit sequence itself. *)
Definition refusable (h : handler) : bool :=
  match h with HShutdown | HExit _ _ => false | _ => true end.

(** Where a goroutine stands: outside; counted in but not yet checked again; past
    the second look at [shutdownRequested]; the drainer before, during and after
    its wait. *)
Inductive dmode := DOut | DCounted | DIn | DStart | DWait | DDone (drained : bool).

Definition counts (m : dmode) : Z := match m with DCounted | DIn => 1 | _ => 0 end.
Definition counted_in (ms : list dmode) : Z := foldr (λ m n, (counts m + n)%Z) 0%Z ms.

Definition inc (n : Z) (s : service) : service := set_inflight (int64_wrap (s_inflight s + n)) s.

Definition still (s s' : service) : Prop :=
  s_inflight s' = s_inflight s ∧ s_shutdownRequested s' = s_shutdownRequested s.

Definition dstep_live (m : dmode) (s s' : service) (m' : dmode) : Prop :=
  match m with
  | DOut => (s' = s ∧ m' = DOut) ∨ (s' = inc 1 s ∧ m' = DCounted)
  | DCounted =>
      (s' = s ∧ m' = DCounted) ∨ (s' = inc (-1) s ∧ m' = DOut)
      ∨ (s' = s ∧ s_shutdownRequested s = false ∧ m' = DIn)
  | DIn => (still s s' ∧ m' = DIn) ∨ (s' = inc (-1) s ∧ m' = DOut)
  | DStart => s' = set_shutdownRequested true s ∧ m' = DWait
  | DWait => still s s' ∧ (m' = DWait ∨ m' = DDone false ∨ (m' = DDone true ∧ (s_inflight s ≤ 0)%Z))
  | DDone b => False
  end.

Definition dstep (m : dmode) (s s' : service) (m' : dmode) : Prop :=
  match w_crashed (s_world s) with
  | Some _ => s' = s
  | None => dstep_live m s s' m'
  end.

Definition dpre (m : dmode) (s : service) : Prop := True.
Definition dpost (m : dmode) (a : hreply) : Prop := a = RDrained → m = DDone true.
Abbreviation dobeys := (obeys dstep dpre).
Abbreviation Rstill := (live still).

Lemma guar_tame_still {A} (p : sprog A) : guar Rtame p → guar Rstill p.
Proof. apply guar_mono. intros s s'. apply live_mono. by intros ?? [_ ?]. Qed.

Lemma guar_sm_still {A} (p : prog StateMachine A) : guar Rstill (lift_sm p).
Proof.
  eapply guar_mono; [|apply (guar_lift_sm p (λ _ _, True))].
  - intros s s'. apply live_mono. by intros ?? [_ ?].
  - induction p; simpl; [done|]. by split.
Qed.

Lemma guar_inert_still {A} (p : sprog A) : guar Rinert p → guar Rstill p.
Proof. intros ?. by apply guar_tame_still, guar_inert_tame. Qed.

(** Nothing a creation does is seen by the counter or the flag. *)
Lemma guar_Create_still env r : guar Rstill (Create_body env r).
Proof.
  assert (Hf : ∀ s e, guar Rstill (@create_fail Z s e)).
  { intros s e. unfold create_fail. apply guar_bind; [apply guar_inert_still, guar_rollback|].
    intros _. apply guar_bind; [apply guar_sm_still|done]. }
  unfold Create_body. apply guar_bind.
  - unfold validateCreateRequest. destruct (_ || _); [done|].
    apply guar_bind; [apply guar_sm_still|intros []; cbn [negb]].
    + apply guar_bind; [apply guar_inert_still; gwalk; leaf|intros hc].
      apply guar_bind; [apply guar_inert_still; gwalk; leaf|intros inst].
      destruct (_ || _); [|destruct (ContainsAny _ _); [|done]];
        (apply guar_bind; [apply guar_sm_still|done]).
    + apply guar_bind; [apply guar_sm_still|]. intros x. repeat case_decide; done.
  - intros []; [|done]. apply guar_bind; [apply guar_inert_still, guar_setup|].
    intros [s [e|]]; [apply Hf|]. apply guar_bind; [apply guar_inert_still, guar_startVM|].
    intros [e|]; [apply Hf|]. apply guar_bind; [apply guar_inert_still, guar_createTask|].
    intros [[s' pid]|e]; [|apply Hf]. apply guar_bind; [apply guar_inert_still, guar_finalize|].
    intros _. apply guar_bind; [apply guar_sm_still|done].
Qed.

(** The body of a refusable request and what its answer becomes. *)
Lemma refusable_shape h : refusable h = true →
  ∃ A (body : sprog (res A)) k, goroutine h = pbind (rpc false body) (λ r, Ret (k r))
    ∧ guar Rstill body ∧ ∀ r, k r ≠ RDrained.
Proof.
  destruct h; intros Hr; try discriminate Hr; cbn [goroutine]; unfold ret_done;
    (eexists _, _, _; split; [reflexivity|]); split; try done.
  - apply guar_Create_still.
  - by intros [].
  - apply guar_tame_still, guar_Start.
  - apply guar_tame_still, guar_Delete.
  - apply guar_inert_still, guar_Exec.
  - apply guar_inert_still, guar_State_body.
  - apply guar_inert_still, guar_Connect.
  - apply guar_inert_still, guar_Pause.
  - apply guar_inert_still, guar_Resume.
  - apply guar_inert_still, guar_CloseIO.
  - apply guar_inert_still, guar_forwarded.
Qed.

Lemma guar_look : guar (λ s s', s' = s) isShuttingDown.
Proof.
  unfold isShuttingDown, get, act. simpl. unfold guarded.
  split; [by intros s; destruct (w_crashed (s_world s))|].
  intros []; simpl; [done|]. split; [|done]. intros s.
  destruct (w_crashed (s_world s)); [done|]. by destruct s.
Qed.

Lemma look_obeys {A} m (p : sprog A) : (∀ s, dstep_live m s s m) →
  guar (λ s s', s' = s) p → dobeys m p (λ m' _, m' = m).
Proof. intros Hm. apply guar_obeys. intros s s' _ ->. unfold dstep. by destruct (w_crashed _). Qed.

Lemma put_obeys m f m' : (∀ s, dstep_live m s (f s) m') → dobeys m (put f) (λ m1 _, m1 = m').
Proof.
  intros Hm. unfold put, act. simpl. intros s _. exists m'. split; [|done].
  unfold guarded, dstep. destruct (w_crashed (s_world s)); [done|]. apply Hm.
Qed.

Lemma add_obeys m n m' : (∀ s, dstep_live m s (inc n s) m') → dobeys m (add_inflight n) (λ m1 _, m1 = m').
Proof. apply put_obeys. Qed.

(** The second look: in, or refused. *)
Lemma second_look : dobeys DCounted isShuttingDown
  (λ m b, (b = true ∧ m = DCounted) ∨ m = DIn).
Proof.
  unfold isShuttingDown, get, act. simpl. intros s _.
  exists (if s_shutdownRequested s then DCounted else DIn).
  assert ((guarded (λ s, (s_shutdownRequested s, s)) s).1 = s_shutdownRequested s) as ->
    by (unfold guarded; by destruct (w_crashed _)).
  split; [unfold guarded, dstep; destruct (w_crashed _); [done|]; cbn;
          destruct (s_shutdownRequested s) eqn:E; [by left|by right; right]|].
  destruct (s_shutdownRequested s); [by left|].
  eapply obeys_mono; [|eapply guar_obeys, (guar_inert_still _ (guar_is_state StateShuttingDown))].
  - intros m b ->. by right.
  - intros s1 s2 _ H. unfold live, dstep in *. destruct (w_crashed _); [done|]. by left.
Qed.

Lemma rpc_obeys {A} (body : sprog (res A)) k : guar Rstill body → (∀ r, k r ≠ RDrained) →
  dobeys DOut (pbind (rpc false body) (λ r, Ret (k r))) dpost.
Proof.
  intros Hb Hk. assert (Hend : ∀ r m, dobeys m (Ret (k r)) dpost) by (intros r m E; by edestruct Hk).
  apply obeys_bind. unfold rpc, beginRPC. apply obeys_bind, obeys_bind.
  eapply obeys_mono; [|apply look_obeys, guar_look; by left]. intros m [] ->; [apply Hend|].
  apply obeys_bind. eapply obeys_mono; [|apply (add_obeys _ _ DCounted); by right]. intros m _ ->.
  apply obeys_bind. eapply obeys_mono; [|apply second_look]. intros m b Hm. destruct b.
  - apply obeys_bind. eapply obeys_mono; [|apply (add_obeys _ _ DOut)]; [intros m' _ ->; apply Hend|].
    intros s. destruct Hm as [[_ E]|E]; subst m; [by right; left|by right].
  - destruct Hm as [[? _]|E]; [done|]. subst m. apply obeys_bind.
    eapply obeys_mono; [|apply (guar_obeys dstep dpre Rstill); [|exact Hb]].
    + intros m r ->. apply obeys_bind. eapply obeys_mono; [|apply (add_obeys _ _ DOut); by right].
      intros m' _ ->. apply Hend.
    + intros s s' _ H. unfold live, dstep in *. destruct (w_crashed _); [done|]. by left.
Qed.

Lemma still_wait s s' : Rstill s s' → dstep DWait s s' DWait.
Proof. unfold live, dstep. destruct (w_crashed _); [done|]. intros H. split; auto. Qed.

Lemma drain_read (k : Z → dmode) s :
  (∀ n, k n = DWait ∨ k n = DDone false ∨ (k n = DDone true ∧ (n ≤ 0)%Z)) →
  dstep DWait s (guarded (λ s, (s_inflight s, s)) s).2 (k (s_inflight s)).
Proof.
  intros Hk. unfold guarded, dstep. destruct (w_crashed (s_world s)); [done|]. cbn. split; [done|apply Hk].
Qed.

Lemma drain_obeys n : dobeys DWait (drain n) (λ m b, m = DDone b).
Proof.
  assert (Hr : ∀ s, (guarded (λ s, (s_inflight s, s)) s).1 = s_inflight s).
  { intros s. unfold guarded. by destruct (w_crashed (s_world s)). }
  induction n as [|n IH]; cbn [drain]; apply obeys_bind; unfold get, act; simpl; intros s _; rewrite Hr.
  - exists (if (0 <? s_inflight s)%Z then DDone false else DDone true). split.
    + apply (drain_read (λ n, if (0 <? n)%Z then DDone false else DDone true)).
      intros x. destruct (Z.ltb_spec 0 x); auto.
    + by destruct (0 <? s_inflight s)%Z.
  - exists (if (0 <? s_inflight s)%Z then DWait else DDone true). split.
    + apply (drain_read (λ n, if (0 <? n)%Z then DWait else DDone true)).
      intros x. destruct (Z.ltb_spec 0 x); auto.
    + by destruct (0 <? s_inflight s)%Z.
Qed.

Lemma drainer_obeys ticks : dobeys DStart (drain_goroutine ticks) dpost.
Proof.
  unfold drain_goroutine, drainer. apply obeys_bind, obeys_bind.
  eapply obeys_mono; [|by apply (put_obeys _ _ DWait)]. intros m _ ->.
  apply obeys_bind. eapply obeys_mono; [|eapply guar_obeys, guar_sm_still; intros s1 s2 _; apply still_wait].
  intros m x ->. eapply obeys_mono; [|apply drain_obeys]. intros m [] ->; [by intros _|by intros ?].
Qed.

(** The pool's invariant: the counter counts; the flag is up once the drainer has
    begun; and after a drain no goroutine is inside. *)
Definition is_drainer (m : dmode) : bool :=
  match m with DStart | DWait | DDone _ => true | _ => false end.

Record dinv_live (s : service) (ms : list dmode) : Prop := {
  di_count : s_inflight s = counted_in ms;
  di_bound : (Z.of_nat (length ms) < two63)%Z;
  di_flag : ∀ i m, ms !! i = Some m → m = DWait ∨ (∃ b, m = DDone b) → s_shutdownRequested s = true;
  di_one : ∀ i j mi mj, ms !! i = Some mi → ms !! j = Some mj →
             is_drainer mi = true → is_drainer mj = true → i = j;
  di_empty : ∀ i j, ms !! i = Some (DDone true) → ms !! j ≠ Some DIn
}.

Definition dinv (s : service) (ms : list dmode) : Prop :=
  w_crashed (s_world s) = None → dinv_live s ms.

Lemma counted_in_bounds ms : (0 ≤ counted_in ms ≤ Z.of_nat (length ms))%Z.
Proof. induction ms as [|m ms IH]; simpl; [lia|]. unfold counted_in in *. destruct m; simpl; lia. Qed.

Lemma counted_in_insert ms i m m' : ms !! i = Some m →
  counted_in (<[i := m']> ms) = (counted_in ms - counts m + counts m')%Z.
Proof.
  revert i. induction ms as [|x ms IH]; intros [|i] Hi; simpl in *; simplify_eq; unfold counted_in in *; simpl.
  - lia.
  - rewrite (IH i) by done. lia.
Qed.

Lemma counted_in_pos ms i m : ms !! i = Some m → (counts m ≤ counted_in ms)%Z.
Proof.
  revert i. induction ms as [|x ms IH]; intros [|i] Hi; simpl in *; simplify_eq; unfold counted_in in *; simpl.
  - pose proof (counted_in_bounds ms). unfold counted_in in *. lia.
  - specialize (IH _ Hi). destruct x; simpl; lia.
Qed.

Lemma insert_cases {X} (ms : list X) i j m' mj :
  <[i := m']> ms !! j = Some mj → (j = i ∧ mj = m') ∨ (j ≠ i ∧ ms !! j = Some mj).
Proof. intros [(-> & -> & _)|[? ?]]%list_lookup_insert_Some; auto. Qed.

(** The counter after a step of one goroutine. *)
Lemma dcount_step s s' ms i m m' : dinv_live s ms → ms !! i = Some m → dstep_live m s s' m' →
  s_inflight s' = counted_in (<[i := m']> ms).
Proof.
  intros HI Hi Hst. rewrite (counted_in_insert _ _ _ _ Hi). pose proof (di_count _ _ HI) as Hc.
  pose proof (counted_in_bounds ms) as Hb. pose proof (di_bound _ _ HI) as Hl.
  pose proof (counted_in_pos _ _ _ Hi) as Hp.
  pose proof (counted_in_bounds (<[i := m']> ms)) as Hb'.
  rewrite (counted_in_insert _ _ _ _ Hi), length_insert in Hb'.
  unfold inc in Hst; destruct m; simpl in Hst, Hp; unfold still in Hst; destruct_and?; destruct_or?;
    destruct_and?; subst; simpl in *; try lia;
    rewrite int64_wrap_id by (unfold int64_range, two63 in *; lia); lia.
Qed.

Lemma dreq_mono m s s' m' : dstep_live m s s' m' →
  s_shutdownRequested s = true → s_shutdownRequested s' = true.
Proof.
  unfold dstep_live, still, inc. intros H Hr. destruct m; destruct_and?; destruct_or?; destruct_and?;
    subst; simpl; congruence.
Qed.

Lemma ddrainer m s s' m' : dstep_live m s s' m' → is_drainer m' = is_drainer m.
Proof. unfold dstep_live. intros H. destruct m; destruct_and?; destruct_or?; destruct_and?; by subst. Qed.

Lemma dinv_step s s' ms i m m' :
  dinv s ms → ms !! i = Some m → dstep m s s' m' → dinv s' (<[i := m']> ms).
Proof.
  intros HI Hi Hst. unfold dinv, dstep in *. destruct (w_crashed (s_world s)) eqn:Ha.
  { subst s'. rewrite Ha. done. }
  intros _. specialize (HI eq_refl). split.
  - by eapply dcount_step.
  - rewrite length_insert. apply HI.
  - intros j mj [[-> ->]|[? Hj]]%insert_cases Hmj.
    + destruct m; simpl in Hst.
      * destruct Hst as [[_ ->]|[_ ->]]; by destruct Hmj as [|[]].
      * destruct Hst as [[_ ->]|[[_ ->]|(_ & _ & ->)]]; by destruct Hmj as [|[]].
      * destruct Hst as [[_ ->]|[_ ->]]; by destruct Hmj as [|[]].
      * by destruct Hst as [-> _].
      * destruct Hst as [[_ ->] _]. eapply (di_flag _ _ HI); eauto.
      * done.
    + eapply dreq_mono; [done|]. by eapply (di_flag _ _ HI).
  - intros j k mj mk [[-> ->]|[? Hj]]%insert_cases [[-> ->]|[? Hk]]%insert_cases;
      rewrite ?(ddrainer _ _ _ _ Hst); intros; try done; by eapply (di_one _ _ HI).
  - intros j k Hj Hk. apply insert_cases in Hj as [[-> <-]|[? Hj]], Hk as [[-> E]|[? Hk]]; [done| | |].
    + destruct m; simpl in Hst; destruct_and?; destruct_or?; destruct_and?; try done.
      pose proof (counted_in_pos _ _ _ Hk). pose proof (di_count _ _ HI). simpl in *. lia.
    + subst m'. destruct m; simpl in Hst; destruct_and?; destruct_or?; destruct_and?; try done.
      * assert (s_shutdownRequested s = true) by (eapply (di_flag _ _ HI); eauto). congruence.
      * by eapply (di_empty _ _ HI).
    + by eapply (di_empty _ _ HI).
Qed.

(** The modes in which the goroutines start. *)
Lemma dinv_start s (hs : list handler) : s_inflight s = 0%Z → (Z.of_nat (length hs) + 1 < two63)%Z →
  dinv s (replicate (length hs) DOut ++ [DStart]).
Proof.
  intros H0 Hl _. split.
  - rewrite H0. clear. generalize (length hs). intros n. induction n as [|n IH]; simpl; [done|].
    unfold counted_in in *. simpl. lia.
  - rewrite length_app, length_replicate. simpl. lia.
  - intros i m [Hm|[_ Hm]]%lookup_app_Some; [apply lookup_replicate in Hm as [-> _]|apply list_lookup_singleton_Some in Hm as [_ <-]];
      by intros [|[]].
  - assert (Hd : ∀ i m, (replicate (length hs) DOut ++ [DStart]) !! i = Some m → is_drainer m = true →
      i = length hs).
    { intros i m [Hm|[Hge Hm]]%lookup_app_Some Hd; [by apply lookup_replicate in Hm as [-> _]|].
      apply list_lookup_singleton_Some in Hm as [Hz _]. rewrite length_replicate in *. lia. }
    intros i j mi mj Hi Hj Hdi Hdj. transitivity (length hs); [|symmetry]; eauto.
  - intros i j [Hm|[_ Hm]]%lookup_app_Some;
      [by apply lookup_replicate in Hm as [? _]|by apply list_lookup_singleton_Some in Hm as [_ ?]].
Qed.

Definition drain_pool (hs : list handler) (ticks : nat) : list (sprog hreply) :=
  map goroutine hs ++ [drain_goroutine ticks].

Lemma drain_explained hs ticks s c :
  Forall (λ h, refusable h = true) hs → s_inflight s = 0%Z → (Z.of_nat (length hs) + 1 < two63)%Z →
  rtc pstep (s, drain_pool hs ticks) c → explained dstep dpre dpost dinv c.
Proof.
  intros Hh H0 Hl Hr. eapply (explained_rtc dstep dpre dpost dinv); [done|apply dinv_step| |done].
  exists (replicate (length hs) DOut ++ [DStart]). split; [by apply dinv_start|]. simpl.
  apply Forall2_app; [|constructor; [apply drainer_obeys|constructor]].
  apply Forall2_fmap_r, Forall2_same_length_lookup_2; [by rewrite length_replicate|].
  intros i x h (-> & _)%lookup_replicate Hi. change (dobeys DOut (goroutine h) dpost).
  destruct (refusable_shape h) as (A & body & k & -> & Hb & Hk); [|by apply rpc_obeys].
  by eapply Forall_lookup_1 in Hh.
Qed.

(** ** After the drain *)

(** From a drained state [s1] only the counter moves. *)
Definition quiesced (s1 s : service) (ms : list dmode) : Prop :=
  w_crashed (s_world s1) = None ∧ (∃ n, s = set_inflight n s1) ∧ dinv_live s ms
  ∧ ∃ i, ms !! i = Some (DDone true).

Lemma quiesced_step s1 s s' ms i m m' :
  quiesced s1 s ms → ms !! i = Some m → dstep m s s' m' → quiesced s1 s' (<[i := m']> ms).
Proof.
  intros (Ha & [n ->] & HI & k & Hk) Hi Hst.
  pose proof (dinv_step _ s' ms i m m' (λ _, HI) Hi Hst) as HI'.
  unfold dstep in Hst. simpl in Hst. rewrite Ha in Hst.
  assert (Hreq : s_shutdownRequested s1 = true) by (by eapply (di_flag _ _ HI k); eauto).
  assert (Hki : k ≠ i). { intros ->. simplify_eq. by simpl in Hst. }
  assert (Hs' : ∃ n', s' = set_inflight n' s1).
  { destruct m; simpl in Hst.
    - destruct Hst as [[-> _]|[-> _]]; unfold inc; simpl; eauto.
    - destruct Hst as [[-> _]|[[-> _]|(_ & ? & _)]]; unfold inc; simpl in *; eauto. congruence.
    - exfalso. by eapply (di_empty _ _ HI).
    - exfalso. apply Hki. by eapply (di_one _ _ HI).
    - exfalso. apply Hki. by eapply (di_one _ _ HI).
    - done. }
  destruct Hs' as [n' ->]. split_and!; [done|eauto|by apply HI'|].
  exists k. by rewrite list_lookup_insert_ne.
Qed.

(** C2: Once requestShutdownAndExit has raised the shutdown flag and seen no
    request in flight, no request that beginRPC may refuse has any effect:
    whatever the interleaving, from then on only the in-flight counter of
    the service changes. *)
Theorem drained_shim_is_quiet hs ticks s s1 ts1 s2 ts2 i :
  Forall (λ h, refusable h = true) hs → s_inflight s = 0%Z → (Z.of_nat (length hs) + 1 < two63)%Z →
  rtc pstep (s, drain_pool hs ticks) (s1, ts1) → w_crashed (s_world s1) = None →
  ts1 !! i = Some (Ret RDrained) →
  rtc pstep (s1, ts1) (s2, ts2) →
  ∃ n, s2 = set_inflight n s1.
Proof.
  intros Hh H0 Hl Hr1 Ha Hi Hr2.
  destruct (drain_explained _ _ _ _ Hh H0 Hl Hr1) as (ms & HI & Hf). simpl in *.
  destruct (Forall2_lookup_r _ _ _ _ _ Hf Hi) as (m & Hm & Ho). assert (m = DDone true) as -> by (by apply Ho).
  assert (Hq : explained dstep dpre dpost (quiesced s1) (s1, ts1)).
  { exists ms. split; [|done]. split_and!; [done|exists (s_inflight s1); by destruct s1|by apply HI|eauto]. }
  destruct (explained_rtc dstep dpre dpost (quiesced s1) ltac:(done) (quiesced_step s1) _ _ Hq Hr2)
    as (ms' & (_ & H & _) & _). exact H.
Qed.

(** ** Witnesses *)

Definition vm7 : vmEnv := mkVMEnv "" None None None None (Ok 7).
Definition cenv : CreateEnv :=
  mkCreateEnv None None vm7 (Ok (Some 3)) None (Ok 0) None (Ok "") None false None (Ok 0) None None
    (Ok 1) None None (Ok 5) (Ok 42%Z) None None.
Definition creq : CreateRequest := mkCreateReq "c1" "/b" "" "" "" "" "" false.

(** Two creations interleaved one action each, then the first to its end. *)
Definition two_creates : service * list (sprog hreply) :=
  sched (concat (replicate 30 [0; 1]%nat)) (NewService, map goroutine [HCreate cenv creq; HCreate cenv creq]).

Lemma two_creates_reach :
  rtc pstep (NewService, map goroutine [HCreate cenv creq; HCreate cenv creq]) two_creates.
Proof. apply sched_steps. Qed.

Lemma at_most_one_create_witness :
  two_creates.2 !! 0%nat = Some (Ret (RCreated 42)) ∧ two_creates.2 !! 1%nat = Some (Ret RDone)
  ∧ st two_creates.1 ≠ StateIdle.
Proof.
  assert (H0 : two_creates.2 !! 0%nat = Some (Ret (RCreated 42))) by (vm_compute; reflexivity).
  assert (Ha : w_crashed (s_world two_creates.1) = None) by (vm_compute; reflexivity).
  split; [exact H0|]. split; [vm_compute; reflexivity|].
  pose proof two_creates_reach as Hr. destruct two_creates as [s' ts].
  exact (proj1 (proj2 (at_most_one_create _ _ s' ts 0 0 42 42 Hr Ha H0 H0))).
Defined.

Lemma service_state_follows_lifecycle_witness : rtc edge StateIdle (st two_creates.1).
Proof.
  assert (Ha : w_crashed (s_world two_creates.1) = None) by (vm_compute; reflexivity).
  pose proof two_creates_reach as Hr. destruct two_creates as [s' ts].
  exact (service_state_follows_lifecycle _ NewService s' ts Hr Ha).
Defined.

(** A request that is counted in after the drain began is turned away. *)
Definition drained1 : service * list (sprog hreply) :=
  sched [0; 0; 1; 1; 0; 0; 0; 0; 1]%nat (NewService, drain_pool [HCheckpoint] 3).
Definition drained2 : service * list (sprog hreply) := sched [0; 0; 0; 1]%nat drained1.

Lemma drained_shim_is_quiet_witness : ∃ n, drained2.1 = set_inflight n drained1.1.
Proof.
  assert (Hr1 : rtc pstep (NewService, drain_pool [HCheckpoint] 3) drained1) by apply sched_steps.
  assert (Hr2 : rtc pstep drained1 drained2) by apply sched_steps.
  assert (Ha : w_crashed (s_world drained1.1) = None) by (vm_compute; reflexivity).
  assert (Hd : drained1.2 !! 1%nat = Some (Ret RDrained)) by (vm_compute; reflexivity).
  destruct drained1 as [s1 ts1], drained2 as [s2 ts2].
  refine (drained_shim_is_quiet [HCheckpoint] 3 NewService s1 ts1 s2 ts2 1 _ _ _ Hr1 Ha Hd Hr2).
  - repeat constructor.
  - reflexivity.
  - unfold two63. simpl. lia.
Defined.
