(* ===== verification/Hotplug.v ===== *)
(** The shared hotplug monitor: internal/shim/hotplug/monitor.go.

    [ResourceScaler] is the Go interface as a class; its methods act on a state
    [S] (the controller and the machine it controls) and read the answers of one
    tick from [E].  The monitor's theorems are proved against the class; the CPU
    and memory controllers (CPUHotplug, MemHotplug) are its instances.  Times are
    nanoseconds of the monotonic clock. *)
From S2P Require Import Prelude.

Inductive ScaleDirection := ScaleNone | ScaleUp | ScaleDown.

#[export] Instance ScaleDirection_eq_dec : EqDecision ScaleDirection.
Proof. solve_decision. Defined.

Record MonitorConfig := mkMonitorConfig {
  MonitorInterval : Z;
  ScaleUpCooldown : Z;
  ScaleDownCooldown : Z;
  ScaleUpStability : Z;
  ScaleDownStability : Z;
  EnableScaleDown : bool
}.

Class ResourceScaler (S E : Type) := {
  EvaluateScaling : E → S → res ScaleDirection * S;
  scaleUp : E → S → option error * S;
  scaleDown : E → S → option error * S
}.

(** The fields the loop changes; the zero time is [None]. *)
Record Monitor := mkMonitor {
  consecutiveHighUsage : Z;
  consecutiveLowUsage : Z;
  lastScaleUp : option Z;
  lastScaleDown : option Z
}.

Definition NewMonitor : Monitor := mkMonitor 0 0 None None.

Section monitor.
Context {S E : Type} `{!ResourceScaler S E} (config : MonitorConfig).

Definition canScale (last : option Z) (cooldown now : Z) : bool :=
  match last with None => true | Some t => (cooldown <=? now - t)%Z end.

Definition canScaleUp (now : Z) (m : Monitor) : bool :=
  canScale (lastScaleUp m) (ScaleUpCooldown config) now.
Definition canScaleDown (now : Z) (m : Monitor) : bool :=
  canScale (lastScaleDown m) (ScaleDownCooldown config) now.

(** One tick reads the clock when it checks the cooldown ([t_now]) and when a
    scaling operation has returned ([t_end]). *)
Record tick := mkTick { t_now : Z; t_end : Z; t_env : E }.

Definition handleScaleUp (t : tick) (m : Monitor) (s : S) : option error * Monitor * S :=
  if negb (canScaleUp (t_now t) m) then (None, m, s)
  else
    let high := (consecutiveHighUsage m + 1)%Z in
    let m1 := mkMonitor high 0 (lastScaleUp m) (lastScaleDown m) in
    if (high <? ScaleUpStability config)%Z then (None, m1, s)
    else
      let '(err, s1) := scaleUp (t_env t) s in
      match err with
      | Some e => (Some e, m1, s1)
      | None => (None, mkMonitor 0 0 (Some (t_end t)) (lastScaleDown m), s1)
      end.

Definition handleScaleDown (t : tick) (m : Monitor) (s : S) : option error * Monitor * S :=
  if negb (canScaleDown (t_now t) m) then (None, m, s)
  else
    let low := (consecutiveLowUsage m + 1)%Z in
    let m1 := mkMonitor 0 low (lastScaleUp m) (lastScaleDown m) in
    if (low <? ScaleDownStability config)%Z then (None, m1, s)
    else
      let '(err, s1) := scaleDown (t_env t) s in
      match err with
      | Some e => (Some e, m1, s1)
      | None => (None, mkMonitor 0 0 (lastScaleUp m) (Some (t_end t)), s1)
      end.

Definition checkAndAdjust (t : tick) (m : Monitor) (s : S) : option error * Monitor * S :=
  let '(direction, s1) := EvaluateScaling (t_env t) s in
  match direction with
  | Err e => (Some e, m, s1)
  | Ok ScaleUp => handleScaleUp t m s1
  | Ok ScaleDown =>
      if EnableScaleDown config then handleScaleDown t m s1
      else (None, mkMonitor (consecutiveHighUsage m) 0 (lastScaleUp m) (lastScaleDown m), s1)
  | Ok ScaleNone => (None, mkMonitor 0 0 (lastScaleUp m) (lastScaleDown m), s1)
  end.

(** [monitorLoop] over the ticks it receives before it is stopped: errors are
    logged and the loop goes on. *)
Definition step (ms : Monitor * S) (t : tick) : Monitor * S :=
  let '(_, m', s') := checkAndAdjust t ms.1 ms.2 in (m', s').

Definition monitorLoop (ticks : list tick) (m : Monitor) (s : S) : Monitor * S :=
  foldl step (m, s) ticks.

(** *** What a tick did *)

(** The tick's [scaleUp] ran and succeeded. *)
Definition scaled_up (t : tick) (m : Monitor) (s : S) : bool :=
  match EvaluateScaling (t_env t) s with
  | (Ok ScaleUp, s1) =>
      canScaleUp (t_now t) m && negb (consecutiveHighUsage m + 1 <? ScaleUpStability config)%Z
      && match (scaleUp (t_env t) s1).1 with None => true | Some _ => false end
  | _ => false
  end.

(** The last [scaleUp] time a tick leaves. *)
Lemma lastScaleUp_step t m s :
  lastScaleUp (step (m, s) t).1 = if scaled_up t m s then Some (t_end t) else lastScaleUp m.
Proof.
  unfold step, checkAndAdjust, scaled_up, handleScaleUp, handleScaleDown. simpl.
  destruct (EvaluateScaling (t_env t) s) as [[[]|e] s1]; simpl; try done.
  - destruct (canScaleUp _ m); simpl; [|done]. destruct (_ <? _)%Z; simpl; [done|].
    destruct (scaleUp (t_env t) s1) as [[e|] s2]; done.
  - destruct (EnableScaleDown config); [|done]. destruct (canScaleDown _ m); simpl; [|done].
    destruct (_ <? _)%Z; simpl; [done|]. by destruct (scaleDown (t_env t) s1) as [[e|] s2].
Qed.

(** The end times of the scale-ups of a run, in order. *)
Fixpoint scale_ups (ticks : list tick) (m : Monitor) (s : S) : list (Z * Z) :=
  match ticks with
  | [] => []
  | t :: ts =>
      let '(m', s') := step (m, s) t in
      (if scaled_up t m s then [(t_now t, t_end t)] else []) ++ scale_ups ts m' s'
  end.

(** Consecutive entries are a cooldown apart, the first one from [last]. *)
Fixpoint spaced (last : option Z) (l : list (Z * Z)) : Prop :=
  match l with
  | [] => True
  | (now, fin) :: l' =>
      match last with Some t => (ScaleUpCooldown config ≤ now - t)%Z | None => True end
      ∧ spaced (Some fin) l'
  end.

Lemma scale_ups_spaced ticks m s : spaced (lastScaleUp m) (scale_ups ticks m s).
Proof.
  revert m s. induction ticks as [|t ts IH]; intros m s; [done|]. cbn [scale_ups].
  pose proof (lastScaleUp_step t m s) as Hl. destruct (step (m, s) t) as [m' s'] eqn:Hs. simpl in Hl.
  specialize (IH m' s'). destruct (scaled_up t m s) eqn:Hu; rewrite Hl in IH; [|done].
  simpl. split; [|done]. unfold scaled_up in Hu.
  destruct (EvaluateScaling (t_env t) s) as [[[]|e] s1]; try done.
  apply andb_true_iff in Hu as [[Hc _]%andb_true_iff _].
  unfold canScaleUp, canScale in Hc. destruct (lastScaleUp m); [|done]. by apply Z.leb_le in Hc.
Qed.

(** *** Stability *)

(** What each tick of a run read. *)
Fixpoint readings (ticks : list tick) (m : Monitor) (s : S) : list (res ScaleDirection) :=
  match ticks with
  | [] => []
  | t :: ts =>
      let '(m', s') := step (m, s) t in
      (EvaluateScaling (t_env t) s).1 :: readings ts m' s'
  end.

Definition is_up (r : res ScaleDirection) : bool :=
  match r with Ok ScaleUp => true | _ => false end.

(** A window at the end of the readings with [n] high readings and no reading
    that asked for nothing. *)
Definition high_window (n : Z) (rs : list (res ScaleDirection)) : Prop :=
  ∃ pre w, rs = pre ++ w ∧ Forall (λ r, r ≠ Ok ScaleNone) w
           ∧ (n ≤ Z.of_nat (length (List.filter is_up w)))%Z.

Lemma high_window_snoc n rs r : r ≠ Ok ScaleNone → high_window n rs →
  high_window (n + if is_up r then 1 else 0) (rs ++ [r]).
Proof.
  intros Hr (pre & w & -> & Hw & Hn). exists pre, (w ++ [r]). rewrite <- app_assoc.
  split; [done|]. split; [apply Forall_app; by repeat constructor|].
  rewrite List.filter_app, length_app. simpl. destruct (is_up r); simpl; lia.
Qed.

Lemma high_window_mono n n' rs : (n' ≤ n)%Z → high_window n rs → high_window n' rs.
Proof. intros Hle (pre & w & ? & ? & ?). exists pre, w. split_and!; [done|done|lia]. Qed.

Lemma high_window_nil rs : high_window 0 rs.
Proof. exists rs, []. rewrite app_nil_r. simpl. split_and!; [done|constructor|lia]. Qed.

Lemma readings_snoc ts t m s :
  readings (ts ++ [t]) m s =
    readings ts m s ++ [(EvaluateScaling (t_env t) (monitorLoop ts m s).2).1].
Proof.
  revert m s. induction ts as [|x ts IH]; intros m s; [simpl; by destruct (step (m, s) t)|].
  cbn [app readings]. unfold monitorLoop. cbn [foldl].
  destruct (step (m, s) x) as [m' s'] eqn:Hs. rewrite IH. done.
Qed.

(** The counter is at most the number of high readings of such a window. *)
Lemma counter_window ts m0 s : consecutiveHighUsage m0 = 0%Z →
  high_window (consecutiveHighUsage (monitorLoop ts m0 s).1) (readings ts m0 s).
Proof.
  intros H0. induction ts as [|t ts IH] using rev_ind.
  { unfold monitorLoop. simpl. rewrite H0. apply high_window_nil. }
  rewrite readings_snoc. unfold monitorLoop in *. rewrite foldl_app. cbn [foldl].
  destruct (foldl step (m0, s) ts) as [m1 s1]. cbn [fst snd] in *.
  unfold step, checkAndAdjust, handleScaleUp, handleScaleDown. cbn [fst snd].
  destruct (EvaluateScaling (t_env t) s1) as [[[]|e] s2] eqn:He; cbn [fst snd].
  - apply high_window_nil.
  - pose proof (high_window_snoc _ _ (Ok ScaleUp) ltac:(done) IH) as Hw. simpl in Hw.
    destruct (canScaleUp _ m1); cbn [negb]; [|eapply high_window_mono, Hw; simpl; lia].
    destruct (_ <? _)%Z; cbn [fst consecutiveHighUsage]; [done|].
    destruct (scaleUp (t_env t) s2) as [[e|] s3]; cbn [fst consecutiveHighUsage]; [done|].
    apply high_window_nil.
  - pose proof (high_window_snoc _ _ (Ok ScaleDown) ltac:(done) IH) as Hw. simpl in Hw.
    rewrite Z.add_0_r in Hw.
    destruct (EnableScaleDown config); [|done]. destruct (canScaleDown _ m1); cbn [negb]; [|done].
    destruct (_ <? _)%Z; cbn [fst consecutiveHighUsage]; [apply high_window_nil|].
    destruct (scaleDown (t_env t) s2) as [[e|] s3]; apply high_window_nil.
  - pose proof (high_window_snoc _ _ (Err e) ltac:(done) IH) as Hw. simpl in Hw.
    by rewrite Z.add_0_r in Hw.
Qed.

(** *** What a scaler promises *)

(** [inv] is kept by an evaluation, and by the operation the evaluation asked
    for. *)
Class ScalerLaws (inv : S → Prop) : Prop := {
  law_evaluate : ∀ e s, inv s → inv (EvaluateScaling e s).2;
  law_up : ∀ e s s1, inv s → EvaluateScaling e s = (Ok ScaleUp, s1) → inv (scaleUp e s1).2;
  law_down : ∀ e s s1, inv s → EvaluateScaling e s = (Ok ScaleDown, s1) → inv (scaleDown e s1).2
}.

Lemma monitor_keeps (inv : S → Prop) `{!ScalerLaws inv} ticks m s : inv s → inv (monitorLoop ticks m s).2.
Proof.
  unfold monitorLoop. revert m s. induction ticks as [|t ts IH]; intros m s Hs; [done|].
  cbn [foldl]. destruct (step (m, s) t) as [m' s'] eqn:Hst. apply IH.
  unfold step, checkAndAdjust, handleScaleUp, handleScaleDown in Hst. cbn [fst snd] in Hst.
  pose proof (law_evaluate (t_env t) s Hs) as He.
  pose proof (law_up (t_env t) s) as Hu. pose proof (law_down (t_env t) s) as Hd.
  destruct (EvaluateScaling (t_env t) s) as [[[]|e] s1]; cbn [snd] in He;
    [by simplify_eq| | |by simplify_eq].
  - specialize (Hu s1 Hs eq_refl). destruct (scaleUp (t_env t) s1) as [[e|] s2];
      (destruct (canScaleUp _ m); cbn [negb] in Hst; [destruct (_ <? _)%Z|]); by simplify_eq.
  - specialize (Hd s1 Hs eq_refl). destruct (scaleDown (t_env t) s1) as [[e|] s2];
      (destruct (EnableScaleDown config);
        [destruct (canScaleDown _ m); cbn [negb] in Hst; [destruct (_ <? _)%Z|]|]); by simplify_eq.
Qed.
End monitor.
Arguments tick : clear implicits.
Arguments mkTick {E}.

(** Every successful scale-up of a run starts at least the cooldown after the
    previous one ended, whatever the scaler answers. *)
Theorem scale_ups_respect_cooldown {S E} `{!ResourceScaler S E} config ticks s :
  spaced config None (scale_ups config ticks NewMonitor s).
Proof. apply (scale_ups_spaced config ticks NewMonitor s). Qed.

Theorem scale_up_needs_stability {S E} `{!ResourceScaler S E} config ts t s :
  scaled_up config t (monitorLoop config ts NewMonitor s).1 (monitorLoop config ts NewMonitor s).2 = true →
  high_window (ScaleUpStability config) (readings config (ts ++ [t]) NewMonitor s).
Proof.
  intros Hu. rewrite readings_snoc. pose proof (counter_window config ts NewMonitor s eq_refl) as Hw.
  destruct (monitorLoop config ts NewMonitor s) as [m1 s1]. cbn [fst snd] in *.
  unfold scaled_up in Hu. destruct (EvaluateScaling (t_env t) s1) as [[[]|e] s2]; try done.
  apply andb_true_iff in Hu as [[_ Hst]%andb_true_iff _]. apply negb_true_iff, Z.ltb_ge in Hst.
  eapply high_window_mono, high_window_snoc, Hw; simpl; [lia|done].
Qed.

(** *** Start and Stop *)

(** The lifecycle fields: [stopCh] is [None] until [Start] makes the channels,
    then whether it is closed; the last two components count the loops started
    and the closes of [stopCh] (a second close would panic). *)
Record Lifecycle := mkLifecycle {
  started : bool;
  stopCh : option bool;
  loops : nat;
  closes : nat
}.
Definition newLifecycle : Lifecycle := mkLifecycle false None 0 0.

Definition Start (l : Lifecycle) : Lifecycle :=
  if started l then l else mkLifecycle true (Some false) (S (loops l)) (closes l).

(** The flag tells whether the caller goes on to wait for the loop. *)
Definition Stop (l : Lifecycle) : bool * Lifecycle :=
  match started l, stopCh l with
  | true, Some false => (true, mkLifecycle true (Some true) (loops l) (S (closes l)))
  | _, _ => (false, l)
  end.

Inductive lifecycle_step : Lifecycle → Lifecycle → Prop :=
  | lifecycle_start l : lifecycle_step l (Start l)
  | lifecycle_stop l : lifecycle_step l (Stop l).2.

Definition lifecycle_ok (l : Lifecycle) : Prop :=
  match stopCh l with
  | None => started l = false ∧ loops l = 0 ∧ closes l = 0
  | Some c => started l = true ∧ loops l = 1 ∧ closes l = if c then 1 else 0
  end.

Lemma lifecycle_step_ok l l' : lifecycle_step l l' → lifecycle_ok l → lifecycle_ok l'.
Proof.
  intros [[st [[]|] n k]|[st [[]|] n k]]; unfold lifecycle_ok, Start, Stop; simpl;
    intros (-> & -> & ->); simpl; auto.
Qed.

Theorem monitor_runs_one_loop l : rtc lifecycle_step newLifecycle l →
  loops l ≤ 1 ∧ closes l ≤ loops l ∧ (stopCh l = Some true → loops (Start l) = loops l).
Proof.
  intros Hr. assert (Hok : lifecycle_ok l).
  { revert l Hr. apply rtc_ind_r; [done|]. intros x y _ Hs Hx. by eapply lifecycle_step_ok. }
  unfold lifecycle_ok, Start in *. destruct (stopCh l) as [[]|]; destruct Hok as (-> & -> & ->);
    split_and!; intros; by try lia.
Qed.

Lemma monitor_runs_one_loop_witness :
  rtc lifecycle_step newLifecycle (Stop (Start newLifecycle)).2
  ∧ loops (Stop (Start newLifecycle)).2 ≤ 1.
Proof.
  assert (Hr : rtc lifecycle_step newLifecycle (Stop (Start newLifecycle)).2).
  { eapply rtc_l; [apply lifecycle_start|]. eapply rtc_l; [apply lifecycle_stop|]. apply rtc_refl. }
  split; [exact Hr|]. exact (proj1 (monitor_runs_one_loop _ Hr)).
Defined.

(** *** A scripted scaler, for concrete runs *)

#[local] Instance scripted : ResourceScaler nat (res ScaleDirection) := {
  EvaluateScaling r n := (r, n);
  scaleUp _ n := (None, S n);
  scaleDown _ n := (None, pred n)
}.

Definition script_config (down : bool) : MonitorConfig := mkMonitorConfig 5 10 30 2 2 down.

Definition script (rs : list (res ScaleDirection)) : list (tick (res ScaleDirection)) :=
  imap (λ i r, mkTick (5 * Z.of_nat i) (5 * Z.of_nat i + 1) r) rs.

Lemma scale_up_needs_stability_witness :
  high_window 2 (readings (script_config true) (script [Ok ScaleUp] ++ [mkTick 5 6 (Ok ScaleUp)]) NewMonitor 1).
Proof. apply (scale_up_needs_stability (script_config true)). vm_compute. reflexivity. Defined.

(** The readings of a run in which the scale-up readings are separated by a
    failed evaluation, or by a low reading while scale-down is disabled or
    cooling down, still add up to the stability threshold. *)
Theorem stability_survives_other_readings :
  (monitorLoop (script_config true) (script [Ok ScaleUp; Err (mkError ErrUnknown "query vCPUs"); Ok ScaleUp]) NewMonitor 1).2 = 2
  ∧ (monitorLoop (script_config false) (script [Ok ScaleUp; Ok ScaleDown; Ok ScaleUp]) NewMonitor 1).2 = 2
  ∧ (monitorLoop (script_config true)
       (script [Ok ScaleDown; Ok ScaleDown; Ok ScaleUp; Ok ScaleDown; Ok ScaleUp]) NewMonitor 5).2 = 5
  ∧ (monitorLoop (script_config true) (script [Ok ScaleUp; Ok ScaleNone; Ok ScaleUp]) NewMonitor 1).2 = 1.
Proof. vm_compute. done. Qed.
