(* ===== verification/CPUHotplug.v ===== *)
(** CPU hotplug: internal/shim/cpuhotplug/controller.go on top of the QMP client's
    CPU operations (internal/host/vm/qemu/qmp_cpu.go).

    QEMU itself is a parameter: [QMP] lists the commands the client sends, on a
    machine state [M] that also holds whatever decides the answers, and [QEMULaws]
    what QEMU documents about them.  The controller is an instance of the
    monitor's [ResourceScaler], and the laws of that class are proved here from
    [QEMULaws]. *)
From S2P Require Import Prelude GoStrings GoFloat Hotplug.
Open Scope Z_scope.

(** ** Data *)

(** [vm.CPUInfo] *)
Record CPUInfo := mkCPUInfo { CPUIndex : Z; QOMPath : string; Thread : Z; Target : string }.

(** The dynamic types a JSON-decoded or literal [any] value has here. *)
Inductive any :=
  | AInt (z : Z) | AInt32 (z : Z) | AInt64 (z : Z)
  | AFloat64 (f : float64)
  | AUint32 (z : Z) | AUint64 (z : Z)
  | AString (s : string)
  | AOther.

Record HotpluggableCPU := mkHotpluggableCPU {
  hp_Type : string;
  hp_QOMPath : string;
  hp_Props : option (gmap string any);
  hp_VCPUsCount : Z
}.

(** [fmt.Sprintf("cpu%d", cpuID)] *)
Definition cpu_device (cpuID : Z) : string := "cpu" +:+ fmt_d cpuID.

(** The QMP commands of the CPU operations. *)
Class QMP (M : Type) := {
  query_cpus_fast : M → res (list CPUInfo) * M;
  query_hotpluggable_cpus : M → res (list HotpluggableCPU) * M;
  device_add : string → gmap string any → M → option error * M;
  device_del : string → M → option error * M
}.

(** ** qmp_cpu.go *)

Definition intFromProp (value : option any) : option Z :=
  match value with
  | Some (AInt z) | Some (AInt32 z) | Some (AInt64 z) | Some (AUint32 z) => Some z
  | Some (AFloat64 f) => Some (f64_to_int64 f)
  | Some (AUint64 z) => Some (int64_wrap z)
  | _ => None
  end.

(** The loop of [matchHotpluggableCPU], with the fallback found so far. *)
Fixpoint match_from (fallback : option HotpluggableCPU) (cpus : list HotpluggableCPU) (cpuID : Z)
  : option HotpluggableCPU :=
  match cpus with
  | [] => fallback
  | c :: cs =>
      if negb (String.eqb (hp_QOMPath c) "") then match_from fallback cs cpuID
      else match hp_Props c with
           | None => match_from fallback cs cpuID
           | Some props =>
               if bool_decide (intFromProp (props !! "core-id"%string) = Some cpuID) then Some c
               else match_from (match fallback with None => Some c | _ => fallback end) cs cpuID
           end
  end.

Definition matchHotpluggableCPU (cpus : list HotpluggableCPU) (cpuID : Z) : option HotpluggableCPU :=
  match_from None cpus cpuID.

Section qmp.
Context `{!QMP M}.

Definition QueryCPUs (m : M) : res (list CPUInfo) * M := query_cpus_fast m.
Definition QueryHotpluggableCPUs (m : M) : res (list HotpluggableCPU) * M := query_hotpluggable_cpus m.

Definition default_args (cpuID : Z) : gmap string any :=
  {[ "id"%string := AString (cpu_device cpuID); "socket-id"%string := AInt 0;
     "core-id"%string := AInt cpuID; "thread-id"%string := AInt 0 ]}.

(** [maps.Copy(args, match.Props)]: the properties override. *)
Definition slot_args (cpuID : Z) (props : gmap string any) : gmap string any :=
  props ∪ {[ "id"%string := AString (cpu_device cpuID) ]}.

(** The driver and arguments of the [device_add], or the refusal. *)
Definition choose_slot (cpuID : Z) (slots : res (list HotpluggableCPU))
  : res (string * gmap string any) :=
  match slots with
  | Err _ => Ok ("host-x86_64-cpu"%string, default_args cpuID)
  | Ok [] => Err (mkError ErrUnknown "no hotpluggable CPU slots reported by QEMU")
  | Ok cpus =>
      match matchHotpluggableCPU cpus cpuID with
      | Some c => Ok (hp_Type c, slot_args cpuID (default ∅ (hp_Props c)))
      | None => Ok ("host-x86_64-cpu"%string, default_args cpuID)
      end
  end.

Definition HotplugCPU (cpuID : Z) (m : M) : option error * M :=
  let '(before, m1) := QueryCPUs m in
  let beforeCount := match before with Ok cpus => Z.of_nat (length cpus) | Err _ => -1 end in
  let '(slots, m2) := QueryHotpluggableCPUs m1 in
  match choose_slot cpuID slots with
  | Err e => (Some e, m2)
  | Ok (driver, args) =>
      match device_add driver args m2 with
      | (Some e, m3) => (Some e, m3)
      | (None, m3) =>
          if 0 <=? beforeCount then
            let '(after, m4) := QueryCPUs m3 in
            match after with
            | Ok cpus =>
                if Z.of_nat (length cpus) <=? beforeCount
                then (Some (mkError ErrUnknown "device_add did not increase CPU count"), m4)
                else (None, m4)
            | Err _ => (None, m4)
            end
          else (None, m3)
      end
  end.

Definition UnplugCPU (cpuID : Z) (m : M) : option error * M := device_del (cpu_device cpuID) m.
End qmp.

(** ** controller.go *)

Record CPUConfig := mkCPUConfig {
  cfg_MonitorInterval : Z;
  cfg_ScaleUpCooldown : Z;
  cfg_ScaleDownCooldown : Z;
  cfg_ScaleUpThreshold : float64;
  cfg_ScaleDownThreshold : float64;
  cfg_ScaleUpThrottleLimit : float64;
  cfg_ScaleUpStability : Z;
  cfg_ScaleDownStability : Z;
  cfg_EnableScaleDown : bool
}.

Definition second : Z := 1000000000.

Definition CPUDefaultConfig : CPUConfig := {|
  cfg_MonitorInterval := 5 * second;
  cfg_ScaleUpCooldown := 10 * second;
  cfg_ScaleDownCooldown := 30 * second;
  cfg_ScaleUpThreshold := f64 80;
  cfg_ScaleDownThreshold := f64 50;
  cfg_ScaleUpThrottleLimit := f64 5;
  cfg_ScaleUpStability := 2;
  cfg_ScaleDownStability := 6;
  cfg_EnableScaleDown := true
|}.

(** The calls into the guest. *)
Inductive GuestCall := OnlineCPU (cpuID : Z) | OfflineCPU (cpuID : Z).

(** The fields [NewController] fixes; a nil callback is [false]. *)
Record CPUParams := mkCPUParams {
  bootCPUs : Z;
  maxCPUs : Z;
  has_stats : bool;
  has_online : bool;
  has_offline : bool;
  cpu_config : CPUConfig
}.

(** The fields that change, the machine, and the calls made into the guest. *)
Record CPUState (M : Type) := mkCPUState {
  currentCPUs : Z;
  lastSampleTime : option Z;
  lastUsageUsec : Z;
  lastThrottledUsec : Z;
  machine : M;
  guest_calls : list GuestCall
}.
Arguments mkCPUState {M}.
Arguments currentCPUs {M}.
Arguments lastSampleTime {M}.
Arguments lastUsageUsec {M}.
Arguments lastThrottledUsec {M}.
Arguments machine {M}.
Arguments guest_calls {M}.

(** What a tick reads: the clock and the cgroup counters (uint64). *)
Record CPUEnv := mkCPUEnv { e_now : Z; e_stats : res (Z * Z) }.

Section controller.
Context `{!QMP M} (p : CPUParams).
Implicit Types s : CPUState M.

Definition NewController (m : M) : option (CPUState M) :=
  if maxCPUs p <=? bootCPUs p then None
  else Some (mkCPUState (bootCPUs p) None 0 0 m []).

Definition monitor_config : MonitorConfig :=
  mkMonitorConfig (cfg_MonitorInterval (cpu_config p)) (cfg_ScaleUpCooldown (cpu_config p))
    (cfg_ScaleDownCooldown (cpu_config p)) (cfg_ScaleUpStability (cpu_config p))
    (cfg_ScaleDownStability (cpu_config p)) (cfg_EnableScaleDown (cpu_config p)).

Definition with_machine s (m : M) : CPUState M :=
  mkCPUState (currentCPUs s) (lastSampleTime s) (lastUsageUsec s) (lastThrottledUsec s) m (guest_calls s).
Definition with_current s (n : Z) : CPUState M :=
  mkCPUState n (lastSampleTime s) (lastUsageUsec s) (lastThrottledUsec s) (machine s) (guest_calls s).
Definition with_call s (g : GuestCall) : CPUState M :=
  mkCPUState (currentCPUs s) (lastSampleTime s) (lastUsageUsec s) (lastThrottledUsec s) (machine s)
    (guest_calls s ++ [g]).
Definition with_sample s (now usage throttled : Z) : CPUState M :=
  mkCPUState (currentCPUs s) (Some now) usage throttled (machine s) (guest_calls s).

(** [sampleCPU]: the percentages when the sample is usable. *)
Definition sampleCPU (e : CPUEnv) s : res (option (float64 * float64)) * CPUState M :=
  if negb (has_stats p) then (Ok None, s)
  else match e_stats e with
  | Err err => (Err err, s)
  | Ok (usageUsec, throttledUsec) =>
      let s1 := with_sample s (e_now e) usageUsec throttledUsec in
      match lastSampleTime s with
      | None => (Ok None, s1)
      | Some last =>
          let elapsed := e_now e - last in
          if elapsed <=? 0 then (Ok None, s1)
          else if (usageUsec <? lastUsageUsec s) || (throttledUsec <? lastThrottledUsec s)
          then (Ok None, s1)
          else
            let deltaUsage := usageUsec - lastUsageUsec s in
            let deltaThrottled := throttledUsec - lastThrottledUsec s in
            let elapsedUsec := f64 (Z.quot elapsed 1000) in
            if fle elapsedUsec (f64 0) || (currentCPUs s <=? 0) then (Ok None, s1)
            else
              let usagePct := fmul (fdiv (f64 deltaUsage) (fmul elapsedUsec (f64 (currentCPUs s)))) (f64 100) in
              let usagePct := if flt usagePct (f64 0) then f64 0 else usagePct in
              let throttledPct := fmul (fdiv (f64 deltaThrottled) elapsedUsec) (f64 100) in
              let throttledPct := if flt throttledPct (f64 0) then f64 0 else throttledPct in
              (Ok (Some (usagePct, throttledPct)), s1)
      end
  end.

Definition CPUEvaluateScaling (e : CPUEnv) s : res ScaleDirection * CPUState M :=
  let '(cpus, m) := QueryCPUs (machine s) in
  let s := with_machine s m in
  match cpus with
  | Err err => (Err (wrap "query vCPUs" err), s)
  | Ok cpus =>
      let s := with_current s (Z.of_nat (length cpus)) in
      let '(sample, s) := sampleCPU e s in
      match sample with
      | Err _ | Ok None => (Ok ScaleNone, s)
      | Ok (Some (usagePct, throttledPct)) =>
          let cfg := cpu_config p in
          if fge throttledPct (cfg_ScaleUpThrottleLimit cfg) then (Ok ScaleNone, s)
          else if fge usagePct (cfg_ScaleUpThreshold cfg) && (currentCPUs s <? maxCPUs p)
          then (Ok ScaleUp, s)
          else if cfg_EnableScaleDown cfg && (bootCPUs p <? currentCPUs s) && (1 <? currentCPUs s)
                  && fle (fdiv (fmul usagePct (f64 (currentCPUs s))) (f64 (currentCPUs s - 1)))
                       (cfg_ScaleDownThreshold cfg)
          then (Ok ScaleDown, s)
          else (Ok ScaleNone, s)
      end
  end.

(** The first CPU index below [maxCPUs] that the machine does not have. *)
Definition first_free (cpus : list CPUInfo) : option Z :=
  match list_find (λ id, id ∉ (CPUIndex <$> cpus)) (seqZ 0 (maxCPUs p)) with
  | Some (_, id) => Some id
  | None => None
  end.

Definition CPUScaleUp (e : CPUEnv) s : option error * CPUState M :=
  let '(cpus, m) := QueryCPUs (machine s) in
  let s := with_machine s m in
  match cpus with
  | Err err => (Some (wrap "query CPUs for scale-up" err), s)
  | Ok cpus =>
      match first_free cpus with
      | None => (Some (mkError ErrUnknown "no available CPU slot"), s)
      | Some nextID =>
          let '(err, m) := HotplugCPU nextID (machine s) in
          let s := with_machine s m in
          match err with
          | Some err => (Some (wrap ("hotplug CPU " +:+ fmt_d nextID) err), s)
          | None =>
              let s := if has_online p then with_call s (OnlineCPU nextID) else s in
              (None, with_current s (currentCPUs s + 1))
          end
      end
  end.

(** The highest CPU index above 0, or -1. *)
Definition highest_removable (cpus : list CPUInfo) : Z :=
  foldl (λ best cpu, if (0 <? CPUIndex cpu) && (best <? CPUIndex cpu) then CPUIndex cpu else best)
    (-1) cpus.

Definition CPUScaleDown (e : CPUEnv) s : option error * CPUState M :=
  let '(cpus, m) := QueryCPUs (machine s) in
  let s := with_machine s m in
  match cpus with
  | Err err => (Some (wrap "query CPUs for scale-down" err), s)
  | Ok cpus =>
      let removeCPU := highest_removable cpus in
      if removeCPU <? 0 then (Some (mkError ErrUnknown "no removable CPU found"), s)
      else
        let s := if has_offline p then with_call s (OfflineCPU removeCPU) else s in
        let '(err, m) := UnplugCPU removeCPU (machine s) in
        let s := with_machine s m in
        match err with
        | Some _ => (None, s)
        | None => (None, with_current s (currentCPUs s - 1))
        end
  end.

#[export] Instance CPUScaler : ResourceScaler (CPUState M) CPUEnv := {
  EvaluateScaling := CPUEvaluateScaling;
  scaleUp := CPUScaleUp;
  scaleDown := CPUScaleDown
}.
End controller.

(** ** What QEMU promises *)

(** Between two commands QEMU may complete unplug requests, and only a device with
    an id can be unplugged: a boot CPU has none. *)
Definition settles (c c' : gmap Z string) : Prop :=
  c' ⊆ c ∧ ∀ k, c !! k = Some ""%string → c' !! k = Some ""%string.

#[export] Instance settles_preorder : PreOrder settles.
Proof.
  split; [by split|]. intros a b c [H1 H2] [H3 H4]. split; [by trans b|]. auto.
Qed.

(** [plugged m] maps the index of each vCPU the machine has to its device id,
    empty for a boot CPU; [slots] is the machine's maxcpus, one core each, which may
    be more than the controller's. *)
Class QEMULaws `{!QMP M} (slots : Z) (plugged : M → gmap Z string) : Prop := {
  law_query_cpus : ∀ m cpus m', query_cpus_fast m = (Ok cpus, m') →
    settles (plugged m) (plugged m') ∧ CPUIndex <$> cpus ≡ₚ (map_to_list (plugged m')).*1;
  law_query_cpus_err : ∀ m e m', query_cpus_fast m = (Err e, m') → settles (plugged m) (plugged m');
  law_hotpluggable : ∀ m hs m', query_hotpluggable_cpus m = (Ok hs, m') →
    settles (plugged m) (plugged m')
    ∧ (∀ k, 0 ≤ k < slots → plugged m' !! k = None →
         ∃ c props, c ∈ hs ∧ hp_QOMPath c = ""%string ∧ hp_Props c = Some props
                    ∧ intFromProp (props !! "core-id"%string) = Some k)
    ∧ (∀ c props, c ∈ hs → hp_Props c = Some props → props !! "id"%string = None);
  law_hotpluggable_err : ∀ m e m', query_hotpluggable_cpus m = (Err e, m') →
    settles (plugged m) (plugged m');
  law_device_add : ∀ driver args m r m', device_add driver args m = (r, m') →
    (r ≠ None ∧ settles (plugged m) (plugged m'))
    ∨ ∃ k d c, intFromProp (args !! "core-id"%string) = Some k
        ∧ args !! "id"%string = Some (AString d) ∧ 0 ≤ k < slots ∧ plugged m !! k = None
        ∧ settles (plugged m) c ∧ plugged m' = <[k := d]> c;
  law_device_del : ∀ d m, settles (plugged m) (plugged (device_del d m).2)
}.

(** ** The invariant *)

Definition vcpus_ok (p : CPUParams) (c : gmap Z string) : Prop :=
  (∀ k d, c !! k = Some d → 0 ≤ k < maxCPUs p ∧ d = if k <? bootCPUs p then ""%string else cpu_device k)
  ∧ (∀ k, 0 ≤ k < bootCPUs p → c !! k = Some ""%string).

Lemma vcpus_ok_settles p c c' : settles c c' → vcpus_ok p c → vcpus_ok p c'.
Proof.
  intros [Hs Hb] [H1 H2]. split; [|auto]. intros k d Hk. apply H1. by eapply lookup_weaken.
Qed.

Lemma vcpus_ok_insert p c k : 0 ≤ k < maxCPUs p → c !! k = None → vcpus_ok p c →
  vcpus_ok p (<[k := cpu_device k]> c).
Proof.
  intros Hr Hk [H1 H2]. assert (¬ k < bootCPUs p).
  { intros ?. rewrite H2 in Hk by lia. done. }
  split.
  - intros j d Hj. apply lookup_insert_Some in Hj as [[<- <-]|[_ Hj]]; [|auto].
    split; [done|]. by rewrite (proj2 (Z.ltb_ge _ _)) by lia.
  - intros j Hj. rewrite lookup_insert_ne by lia. auto.
Qed.

Lemma size_seqZ_set n : 0 ≤ n → size (list_to_set (seqZ 0 n) : gset Z) = Z.to_nat n.
Proof. intros. rewrite size_list_to_set by apply NoDup_seqZ. by rewrite length_seqZ. Qed.

Lemma vcpus_ok_size p c : 0 ≤ bootCPUs p ≤ maxCPUs p → vcpus_ok p c →
  bootCPUs p ≤ Z.of_nat (size c) ≤ maxCPUs p.
Proof.
  intros Hb [H1 H2]. rewrite <- size_dom. split.
  - rewrite <- (Z2Nat.id (bootCPUs p)), <- (size_seqZ_set (bootCPUs p)) by lia.
    apply inj_le, subseteq_size. intros k Hk%elem_of_list_to_set%elem_of_seqZ.
    apply elem_of_dom. exists ""%string. apply H2. lia.
  - rewrite <- (Z2Nat.id (maxCPUs p)), <- (size_seqZ_set (maxCPUs p)) by lia.
    apply inj_le, subseteq_size. intros k [d [Hk _]%H1]%elem_of_dom.
    apply elem_of_list_to_set, elem_of_seqZ. lia.
Qed.

(** ** The QMP client *)

(** With a matching free slot among the reported ones, it is the one chosen,
    whatever fallback was seen first. *)
Lemma match_from_exact fb cpus id c props :
  c ∈ cpus → hp_QOMPath c = ""%string → hp_Props c = Some props →
  intFromProp (props !! "core-id"%string) = Some id →
  ∃ c' props', c' ∈ cpus ∧ match_from fb cpus id = Some c' ∧ hp_Props c' = Some props'
               ∧ intFromProp (props' !! "core-id"%string) = Some id.
Proof.
  revert fb. induction cpus as [|x xs IH]; intros fb Hin Hq Hp Hc; [by apply elem_of_nil in Hin|].
  apply elem_of_cons in Hin as [->|Hin]; simpl.
  { rewrite Hq, Hp. simpl. rewrite bool_decide_eq_true_2 by done.
    exists x, props. split_and!; [left|done..]. }
  assert (Hlift : ∀ fb', ∃ c' props', c' ∈ x :: xs ∧ match_from fb' xs id = Some c'
    ∧ hp_Props c' = Some props' ∧ intFromProp (props' !! "core-id"%string) = Some id).
  { intros fb'. destruct (IH fb' Hin Hq Hp Hc) as (c' & props' & ? & ?).
    exists c', props'. split; [by right|done]. }
  destruct (negb _); [apply Hlift|]. destruct (hp_Props x) as [px|] eqn:Hpx; [|apply Hlift].
  case_bool_decide as Hd; [|apply Hlift]. exists x, px. split_and!; [left|done..].
Qed.

Section spec.
Context `{!QMP M} (p : CPUParams) (slots : Z) (plugged : M → gmap Z string) `{!QEMULaws slots plugged}.
Context (Hslots : maxCPUs p ≤ slots).

Lemma QueryCPUs_settles m r m' : QueryCPUs m = (r, m') → settles (plugged m) (plugged m').
Proof.
  destruct r; intros H; [by apply law_query_cpus in H as [? _]|by eapply law_query_cpus_err].
Qed.

Lemma QueryHotpluggableCPUs_settles m r m' :
  QueryHotpluggableCPUs m = (r, m') → settles (plugged m) (plugged m').
Proof.
  destruct r; intros H; [by apply law_hotpluggable in H as [? _]|by eapply law_hotpluggable_err].
Qed.

(** The arguments of the [device_add] name the requested core and the device id
    [UnplugCPU] uses. *)
Lemma choose_slot_names id m r m' driver args :
  QueryHotpluggableCPUs m = (r, m') → 0 ≤ id < maxCPUs p → plugged m' !! id = None →
  choose_slot id r = Ok (driver, args) →
  intFromProp (args !! "core-id"%string) = Some id
  ∧ args !! "id"%string = Some (AString (cpu_device id)).
Proof.
  intros Hq Hr Hn. destruct r as [hs|e]; [|].
  2: { intros [= <- <-]. unfold default_args. generalize (cpu_device id). intros d. by vm_compute. }
  apply law_hotpluggable in Hq as (_ & Hfree & Hid).
  destruct (Hfree id ltac:(lia) Hn) as (c & props & Hc & Hqom & Hp & Hcore).
  destruct (match_from_exact None hs id c props Hc Hqom Hp Hcore) as (c' & props' & Hc' & Hm & Hp' & Hcore').
  unfold choose_slot. destruct hs as [|h hs]; [done|]. unfold matchHotpluggableCPU.
  rewrite Hm, Hp'. intros [= _ <-]. unfold slot_args. simpl.
  split.
  - rewrite lookup_union_l; [done|]. by rewrite lookup_singleton_ne.
  - rewrite lookup_union_r by (by eapply Hid). by rewrite lookup_singleton_eq.
Qed.

Lemma HotplugCPU_spec id m r m' :
  HotplugCPU id m = (r, m') → 0 ≤ id < maxCPUs p → plugged m !! id = None →
  ∃ c, settles (plugged m) c ∧ ((r ≠ None ∧ c = plugged m')
                                 ∨ settles (<[id := cpu_device id]> c) (plugged m')).
Proof.
  unfold HotplugCPU. intros H Hr Hn.
  destruct (QueryCPUs m) as [r1 m1] eqn:H1. apply QueryCPUs_settles in H1.
  destruct (QueryHotpluggableCPUs m1) as [r2 m2] eqn:H2.
  pose proof (QueryHotpluggableCPUs_settles _ _ _ H2) as H2s.
  assert (H12 : settles (plugged m) (plugged m2)) by (by etrans).
  assert (Hn2 : plugged m2 !! id = None).
  { eapply lookup_weaken_None; [exact Hn|apply H12]. }
  destruct (choose_slot id r2) as [[driver args]|e] eqn:Hs.
  2: { simplify_eq. exists (plugged m'). split; [done|by left]. }
  destruct (choose_slot_names _ _ _ _ _ _ H2 Hr Hn2 Hs) as [Hcore Hid].
  destruct (device_add driver args m2) as [r3 m3] eqn:H3.
  apply law_device_add in H3 as [[Hr3 H3]|(k & d & c & Hk & Hd & Hkr & Hkn & H3 & H3m)].
  { destruct r3; [|done]. simplify_eq. exists (plugged m'). split; [by etrans|by left]. }
  simplify_eq. exists c. split; [by etrans|]. right. rewrite <- H3m.
  destruct r3 as [e|]; [by simplify_eq|].
  destruct (0 <=? _); [|by simplify_eq].
  destruct (QueryCPUs m3) as [r4 m4] eqn:H4. apply QueryCPUs_settles in H4.
  destruct r4 as [cpus|e]; [destruct (_ <=? _)|]; by simplify_eq.
Qed.

Lemma HotplugCPU_ok id m : 0 ≤ id < maxCPUs p → plugged m !! id = None →
  vcpus_ok p (plugged m) → vcpus_ok p (plugged (HotplugCPU id m).2).
Proof.
  intros Hr Hn Hok. destruct (HotplugCPU id m) as [r m'] eqn:H. simpl.
  destruct (HotplugCPU_spec _ _ _ _ H Hr Hn) as (c & Hc & [[_ ->]|Hs]);
    [by eapply vcpus_ok_settles|]. eapply vcpus_ok_settles; [done|].
  apply vcpus_ok_insert; [done| |by eapply vcpus_ok_settles].
  eapply lookup_weaken_None; [exact Hn|apply Hc].
Qed.
End spec.

(** ** The controller *)

Lemma first_free_Some p cpus id : first_free p cpus = Some id →
  0 ≤ id < maxCPUs p ∧ (id ∉ (CPUIndex <$> cpus)) ∧ ∀ j, 0 ≤ j < id → j ∈ (CPUIndex <$> cpus).
Proof.
  unfold first_free. destruct (list_find _ _) as [[i k]|] eqn:Hf; [|done]. intros [= <-].
  apply list_find_Some in Hf as (Hk & Hn & Hl). apply lookup_seqZ in Hk as [-> Hi].
  split; [lia|]. split; [done|]. intros j Hj. destruct (decide (j ∈ (CPUIndex <$> cpus))); [done|].
  exfalso. apply (Hl (Z.to_nat j) j); [|lia|done]. apply lookup_seqZ. lia.
Qed.

(** The loop of [ScaleDown] computes the maximum of the positive indices. *)
Lemma highest_removable_spec cpus :
  (highest_removable cpus = -1 ∧ ∀ k, k ∈ (CPUIndex <$> cpus) → k ≤ 0)
  ∨ (0 < highest_removable cpus ∧ highest_removable cpus ∈ (CPUIndex <$> cpus)
     ∧ ∀ k, k ∈ (CPUIndex <$> cpus) → k ≤ highest_removable cpus).
Proof.
  unfold highest_removable. induction cpus as [|x xs IH] using rev_ind.
  { left. split; [done|]. intros k Hk. by apply elem_of_nil in Hk. }
  rewrite foldl_app, fmap_app. cbn [foldl fmap list_fmap].
  set (b := foldl _ (-1) xs) in *.
  assert (Hin : ∀ k, k ∈ (CPUIndex <$> xs) ++ [CPUIndex x] ↔ k ∈ (CPUIndex <$> xs) ∨ k = CPUIndex x).
  { intros k. by rewrite elem_of_app, list_elem_of_singleton. }
  setoid_rewrite Hin.
  destruct (Z.ltb_spec 0 (CPUIndex x)), (Z.ltb_spec b (CPUIndex x)); cbn [andb];
    destruct IH as [[Hb Hle]|(Hb & Hm & Hle)].
  all: try (right; split_and!; [lia|by right| intros k [Hk%Hle| ->]; lia]).
  all: try (right; split_and!; [lia|by left| intros k [Hk%Hle| ->]; lia]).
  all: left; split; [lia|]; intros k [Hk%Hle| ->]; lia.
Qed.

Section laws.
Context `{!QMP M} (p : CPUParams) (slots : Z) (plugged : M → gmap Z string) `{!QEMULaws slots plugged}.
Context (Hslots : maxCPUs p ≤ slots).
Implicit Types s : CPUState M.

(** A call into the guest names a vCPU of the machine: one above the boot CPUs
    when it is brought online, never CPU 0 when it is taken offline. *)
Definition guest_call_ok (g : GuestCall) : Prop :=
  match g with
  | OnlineCPU k => bootCPUs p ≤ k < maxCPUs p
  | OfflineCPU k => 0 < k < maxCPUs p
  end.

Definition cpu_inv s : Prop :=
  vcpus_ok p (plugged (machine s)) ∧ Forall guest_call_ok (guest_calls s).

Lemma queried_free m cpus m' id : QueryCPUs m = (Ok cpus, m') → id ∉ (CPUIndex <$> cpus) →
  plugged m' !! id = None.
Proof.
  intros [_ Hp]%law_query_cpus Hn. apply eq_None_not_Some. intros [d Hd]. apply Hn.
  rewrite Hp. apply list_elem_of_fmap. exists (id, d). split; [done|]. by apply elem_of_map_to_list.
Qed.

Lemma queried_plugged m cpus m' id : QueryCPUs m = (Ok cpus, m') → id ∈ (CPUIndex <$> cpus) →
  is_Some (plugged m' !! id).
Proof.
  intros [_ Hp]%law_query_cpus Hn. rewrite Hp in Hn.
  apply list_elem_of_fmap in Hn as [[k d] [-> Hd%elem_of_map_to_list]]. by exists d.
Qed.

Lemma queried_count m cpus m' : QueryCPUs m = (Ok cpus, m') → length cpus = size (plugged m').
Proof.
  intros [_ Hp]%law_query_cpus. apply Permutation_length in Hp.
  rewrite !length_fmap in Hp. rewrite Hp. apply length_map_to_list.
Qed.

Lemma sampleCPU_frame e s r s' : sampleCPU p e s = (r, s') →
  machine s' = machine s ∧ guest_calls s' = guest_calls s ∧ currentCPUs s' = currentCPUs s.
Proof.
  unfold sampleCPU. intros H. repeat case_match; simplify_eq; done.
Qed.

(** An evaluation only queries; it asks for more vCPUs only below the maximum
    and for fewer only above the boot count, by the count it has just read. *)
Lemma CPUEvaluateScaling_spec e s r s' : CPUEvaluateScaling p e s = (r, s') →
  settles (plugged (machine s)) (plugged (machine s')) ∧ guest_calls s' = guest_calls s
  ∧ (r = Ok ScaleUp → Z.of_nat (size (plugged (machine s'))) < maxCPUs p)
  ∧ (r = Ok ScaleDown → bootCPUs p < Z.of_nat (size (plugged (machine s')))).
Proof.
  unfold CPUEvaluateScaling. intros H.
  destruct (QueryCPUs (machine s)) as [[cpus|err] m] eqn:Hq;
    pose proof (QueryCPUs_settles slots plugged _ _ _ Hq) as Hset; [|by simplify_eq].
  destruct (sampleCPU p e _) as [sample s1] eqn:Hs. apply sampleCPU_frame in Hs as (Hm & Hg & Hc).
  simpl in Hm, Hg, Hc. rewrite (queried_count _ _ _ Hq) in Hc.
  assert (Hfr : settles (plugged (machine s)) (plugged (machine s1)) ∧ guest_calls s1 = guest_calls s).
  { by rewrite Hm. }
  destruct Hfr as [Hf1 Hf2]. rewrite <- Hm in Hc.
  destruct sample as [[[u t]|]|]; [|by simplify_eq..].
  destruct (fge t _); [by simplify_eq|].
  destruct (fge u _ && _) eqn:Hu.
  { simplify_eq. split_and!; [done..| |done]. intros _. rewrite <- Hc.
    apply andb_true_iff in Hu as [_ Hu]. by apply Z.ltb_lt in Hu. }
  destruct (_ && _ && _ && _) eqn:Hd; simplify_eq; [|done]. split_and!; [done..|]. intros _.
  rewrite <- Hc. rewrite !andb_true_iff in Hd. destruct Hd as [[[_ Hd] _] _]. by apply Z.ltb_lt in Hd.
Qed.

(** A scale-up keeps the invariant from any state that has it. *)
Lemma CPUScaleUp_inv e s : cpu_inv s → cpu_inv (CPUScaleUp p e s).2.
Proof.
  intros [Hok Hg]. unfold CPUScaleUp. destruct (QueryCPUs (machine s)) as [[cpus|err] m] eqn:Hq;
    pose proof (QueryCPUs_settles slots plugged _ _ _ Hq) as Hset;
    (assert (Hokm : vcpus_ok p (plugged m)) by (by eapply vcpus_ok_settles)); [|done].
  destruct (first_free p cpus) as [id|] eqn:Hff; [|done].
  apply first_free_Some in Hff as (Hr & Hn & _).
  pose proof (queried_free _ _ _ _ Hq Hn) as Hfree. cbn [machine with_machine].
  pose proof (HotplugCPU_ok p slots plugged Hslots id m Hr Hfree Hokm) as Hok'.
  destruct (HotplugCPU id m) as [[err|] m'] eqn:Hh; [done|]. cbn [snd] in Hok'.
  assert (bootCPUs p ≤ id).
  { destruct (decide (bootCPUs p ≤ id)); [done|]. destruct Hokm as [_ Hb].
    rewrite Hb in Hfree by lia. done. }
  destruct (has_online p); split; try done. apply Forall_app. split; [done|].
  repeat constructor; simpl; lia.
Qed.

Lemma CPUScaleDown_inv e s : cpu_inv s → cpu_inv (CPUScaleDown p e s).2.
Proof.
  intros [Hok Hg]. unfold CPUScaleDown. destruct (QueryCPUs (machine s)) as [[cpus|err] m] eqn:Hq;
    pose proof (QueryCPUs_settles slots plugged _ _ _ Hq) as Hset;
    (assert (Hokm : vcpus_ok p (plugged m)) by (by eapply vcpus_ok_settles)); [|done].
  destruct (highest_removable_spec cpus) as [[-> _]|(Hpos & Hin & _)]; [done|].
  rewrite (proj2 (Z.ltb_ge _ _)) by lia.
  destruct (queried_plugged _ _ _ _ Hq Hin) as [d Hd]. apply Hokm in Hd as [Hr _].
  destruct (has_offline p); cbn [machine with_machine with_call];
    pose proof (law_device_del (cpu_device (highest_removable cpus)) m) as Hdel;
    destruct (UnplugCPU _ m) as [[err|] m'] eqn:Hu; unfold UnplugCPU in Hu; rewrite Hu in Hdel;
    (split; [by eapply vcpus_ok_settles|]); try done;
    (apply Forall_app; split; [done|]; repeat constructor; simpl; lia).
Qed.

#[export] Instance CPUScalerLaws : ScalerLaws (ResourceScaler0 := CPUScaler p) cpu_inv.
Proof.
  assert (Hev : ∀ e s, cpu_inv s → cpu_inv (CPUEvaluateScaling p e s).2).
  { intros e s [Hok Hg]. destruct (CPUEvaluateScaling p e s) as [r s'] eqn:H.
    apply CPUEvaluateScaling_spec in H as (Hs & Hg' & _). split; cbn [snd]; [by eapply vcpus_ok_settles|].
    by rewrite Hg'. }
  split; [exact Hev| |]; intros e s s1 Hs H; specialize (Hev e s Hs); cbn in H; rewrite H in Hev;
    [by apply CPUScaleUp_inv|by apply CPUScaleDown_inv].
Qed.
End laws.

(** ** Properties *)

(** The vCPUs QEMU starts the machine with. *)
Definition boot_vcpus (p : CPUParams) : gmap Z string :=
  list_to_map ((λ k, (k, ""%string)) <$> seqZ 0 (bootCPUs p)).

Lemma lookup_boot_vcpus p k d : boot_vcpus p !! k = Some d ↔ d = ""%string ∧ 0 ≤ k < bootCPUs p.
Proof.
  unfold boot_vcpus. rewrite <- elem_of_list_to_map.
  - rewrite list_elem_of_fmap. setoid_rewrite elem_of_seqZ. split.
    + intros (j & [= -> ->] & Hj). split; [done|lia].
    + intros [-> Hk]. exists k. split; [done|lia].
  - rewrite <- list_fmap_compose. simpl.
    rewrite (list_fmap_ext _ id) by done. rewrite list_fmap_id. apply NoDup_seqZ.
Qed.

Lemma boot_vcpus_ok p : bootCPUs p ≤ maxCPUs p → vcpus_ok p (boot_vcpus p).
Proof.
  intros Hb. split.
  - intros k d [-> Hk]%lookup_boot_vcpus. split; [lia|]. by rewrite (proj2 (Z.ltb_lt _ _)) by lia.
  - intros k Hk. by apply lookup_boot_vcpus.
Qed.

(** *** What the controller asks of QEMU *)

(** The commands a run sends: a query and the number of vCPUs it was answered, the
    core a [device_add] names, the device a [device_del] names. *)
Inductive Command := Asked (n : option Z) | Plug (core : option Z) | Unplug (d : string).

(** The same machine, with the commands sent to it. *)
#[export] Instance logged_QMP `{!QMP M} : QMP (M * list Command) := {
  query_cpus_fast ml := let '(r, m) := query_cpus_fast ml.1 in
    (r, (m, ml.2 ++ [Asked (match r with Ok cpus => Some (Z.of_nat (length cpus)) | Err _ => None end)]));
  query_hotpluggable_cpus ml := let '(r, m) := query_hotpluggable_cpus ml.1 in (r, (m, ml.2));
  device_add driver args ml := let '(r, m) := device_add driver args ml.1 in
    (r, (m, ml.2 ++ [Plug (intFromProp (args !! "core-id"%string))]));
  device_del d ml := let '(r, m) := device_del d ml.1 in (r, (m, ml.2 ++ [Unplug d]))
}.

#[export] Instance logged_laws `{!QMP M} slots (plugged : M → gmap Z string) `{!QEMULaws slots plugged} :
  QEMULaws slots (λ ml : M * list Command, plugged ml.1).
Proof.
  split; cbn.
  - intros [m l] cpus m'. cbn. destruct (query_cpus_fast m) as [r m1] eqn:E. intros [= -> <-]. by apply law_query_cpus in E.
  - intros [m l] e m'. cbn. destruct (query_cpus_fast m) as [r m1] eqn:E. intros [= -> <-]. by apply law_query_cpus_err in E.
  - intros [m l] hs m'. cbn. destruct (query_hotpluggable_cpus m) as [r m1] eqn:E. intros [= -> <-]. by apply law_hotpluggable in E.
  - intros [m l] e m'. cbn. destruct (query_hotpluggable_cpus m) as [r m1] eqn:E. intros [= -> <-]. by apply law_hotpluggable_err in E.
  - intros driver args [m l] r m'. cbn. destruct (device_add driver args m) as [r1 m1] eqn:E. intros [= <- <-]. by apply law_device_add in E.
  - intros d [m l]. cbn. pose proof (law_device_del d m) as H. by destruct (device_del d m).
Qed.

(** A command may be sent after these: a [device_del] follows the query of an
    evaluation that counted more vCPUs than the boot ones and that of the
    scale-down, which chose its CPU; a [device_add] that of an evaluation that
    counted fewer than the maximum, that of the scale-up and that of HotplugCPU. *)
Definition sent_ok (p : CPUParams) (sent : list Command) (c : Command) : Prop :=
  match c with
  | Asked _ => True
  | Unplug d => ∃ l n1 n2 k, sent = l ++ [Asked (Some n1); Asked (Some n2)] ∧ d = cpu_device k ∧
      bootCPUs p < n1 ∧ 1 < n1 ∧ 0 < k < maxCPUs p ∧ (bootCPUs p < n2 → bootCPUs p ≤ k)
  | Plug c => ∃ l n1 n2 n3 k, sent = l ++ [Asked (Some n1); Asked (Some n2); Asked n3] ∧ c = Some k ∧
      n1 < maxCPUs p ∧ bootCPUs p ≤ k < maxCPUs p
  end.

Definition log_ok (p : CPUParams) (l : list Command) : Prop := ∀ l1 c l2, l = l1 ++ c :: l2 → sent_ok p l1 c.

Lemma log_ok_snoc p l c : log_ok p l → sent_ok p l c → log_ok p (l ++ [c]).
Proof.
  intros Hl Hc l1 c' l2 H. destruct l2 as [|x l2 _] using rev_ind.
  - apply app_inj_tail in H as [<- <-]. done.
  - rewrite app_comm_cons, app_assoc in H. apply app_inj_tail in H as [H _]. by eapply Hl.
Qed.

Section log.
Context `{!QMP M} (p : CPUParams) (slots : Z) (plugged : M → gmap Z string) `{!QEMULaws slots plugged}.
Context (Hslots : maxCPUs p ≤ slots).
Notation plugged' := (λ ml : M * list Command, plugged ml.1).
Implicit Types s : CPUState (M * list Command).

Lemma QueryCPUs_log (ml : M * list Command) r ml' : QueryCPUs ml = (r, ml') →
  ml'.2 = ml.2 ++ [Asked (match r with Ok cpus => Some (Z.of_nat (length cpus)) | Err _ => None end)].
Proof. unfold QueryCPUs. cbn. destruct (query_cpus_fast ml.1) as [r1 m1]. by intros [= <- <-]. Qed.

(** An evaluation asks once, and the count answered decides. *)
Lemma evaluation_log e s r s' : CPUEvaluateScaling p e s = (r, s') →
  ∃ n, (machine s').2 = (machine s).2 ++ [Asked n] ∧
    (r = Ok ScaleUp → ∃ n1, n = Some n1 ∧ n1 < maxCPUs p) ∧
    (r = Ok ScaleDown → ∃ n1, n = Some n1 ∧ bootCPUs p < n1 ∧ 1 < n1).
Proof.
  unfold CPUEvaluateScaling. intros H. destruct (QueryCPUs (machine s)) as [[cpus|err] m] eqn:Hq; apply QueryCPUs_log in Hq.
  2: { simplify_eq. exists None. by split_and!. }
  destruct (sampleCPU p e _) as [sample s1] eqn:Hs. apply sampleCPU_frame in Hs as (Hm & _ & Hc). simpl in Hm, Hc.
  exists (Some (Z.of_nat (length cpus))). rewrite <-Hq, <-Hm, <-Hc.
  destruct sample as [[[u t]|]|]; [|by simplify_eq..]. destruct (fge t _); [by simplify_eq|].
  destruct (fge u _ && _) eqn:Hu.
  { simplify_eq. split_and!; [done| |done]. intros _. apply andb_true_iff in Hu as [_ Hu%Z.ltb_lt]. eauto. }
  destruct (_ && _ && _ && _) eqn:Hd; simplify_eq; [|done]. split_and!; [done..|]. intros _.
  rewrite !andb_true_iff in Hd. destruct Hd as [[[_ Hd%Z.ltb_lt] H1%Z.ltb_lt] _]. eauto.
Qed.

(** At most one core is named, the one asked for. *)
Lemma HotplugCPU_log id (ml : M * list Command) :
  0 ≤ id < maxCPUs p → plugged ml.1 !! id = None →
  ∃ n3 l, (HotplugCPU id ml).2.2 = ml.2 ++ Asked n3 :: l ∧ (l = [] ∨ l = [Plug (Some id)] ∨ ∃ n4, l = [Plug (Some id); Asked n4]).
Proof.
  intros Hr Hn. unfold HotplugCPU. destruct (QueryCPUs ml) as [r1 m1] eqn:H1.
  pose proof (QueryCPUs_log _ _ _ H1) as Hl1. apply (QueryCPUs_settles slots plugged') in H1.
  destruct (QueryHotpluggableCPUs m1) as [r2 m2] eqn:H2.
  assert (Hl2 : m2.2 = m1.2).
  { unfold QueryHotpluggableCPUs in H2. cbn in H2. destruct (query_hotpluggable_cpus m1.1). by injection H2 as _ <-. }
  pose proof (QueryHotpluggableCPUs_settles slots plugged' _ _ _ H2) as H2s. rewrite Hl1 in Hl2.
  destruct (choose_slot id r2) as [[driver args]|e] eqn:Hs; cbn [snd]; [|rewrite Hl2; eauto].
  assert (Hn2 : plugged m2.1 !! id = None).
  { eapply lookup_weaken_None; [exact Hn|]. trans (plugged m1.1); [apply H2s|apply H1]. }
  destruct (choose_slot_names p slots plugged' Hslots _ _ _ _ _ _ H2 Hr Hn2 Hs) as [Hcore _].
  destruct (device_add driver args m2) as [r3 m3] eqn:H3.
  assert (Hl3 : m3.2 = m2.2 ++ [Plug (Some id)]).
  { cbn in H3. destruct (device_add driver args m2.1). injection H3 as _ <-. by rewrite Hcore. }
  rewrite Hl2, <-app_assoc in Hl3. eexists _.
  destruct r3 as [e|]; cbn [snd]; [rewrite Hl3; eauto|]. destruct (0 <=? _); cbn [snd]; [|rewrite Hl3; eauto].
  destruct (QueryCPUs m3) as [r4 m4] eqn:H4. apply QueryCPUs_log in H4. rewrite Hl3, <-app_assoc in H4.
  destruct r4 as [cpus|e]; [destruct (_ <=? _)|]; cbn [snd]; rewrite H4; eauto 6.
Qed.

(** More vCPUs than the boot ones: the highest is not one of them. *)
Lemma highest_above_boot (ml : M * list Command) cpus ml' : QueryCPUs ml = (Ok cpus, ml') → vcpus_ok p (plugged ml'.1) →
  bootCPUs p < Z.of_nat (length cpus) → 0 < highest_removable cpus → bootCPUs p ≤ highest_removable cpus.
Proof.
  intros Hq [Hok _] Hn Hpos. destruct (highest_removable_spec cpus) as [[H _]|(_ & _ & Hmax)]; [lia|].
  destruct (decide (bootCPUs p ≤ highest_removable cpus)) as [|Hlt]; [done|exfalso].
  rewrite (queried_count slots plugged' _ _ _ Hq), <-size_dom in Hn.
  assert (Hsub : dom (plugged ml'.1) ⊆ list_to_set (seqZ 0 (highest_removable cpus + 1))).
  { intros k [d Hk]%elem_of_dom. apply elem_of_list_to_set, elem_of_seqZ. pose proof (Hok _ _ Hk) as [? _].
    assert (k ∈ (CPUIndex <$> cpus)) as Hin; [|apply Hmax in Hin; lia].
    apply law_query_cpus in Hq as [_ ->]. apply list_elem_of_fmap. exists (k, d). split; [done|by apply elem_of_map_to_list]. }
  apply subseteq_size in Hsub. rewrite size_seqZ_set in Hsub by lia. lia.
Qed.

(** A scale-up after an evaluation that counted fewer than the maximum. *)
Lemma CPUScaleUp_log e s l n1 : vcpus_ok p (plugged (machine s).1) → log_ok p (machine s).2 →
  (machine s).2 = l ++ [Asked (Some n1)] → n1 < maxCPUs p → log_ok p (machine (CPUScaleUp p e s).2).2.
Proof.
  intros Hok Hl Hn1 Hlt. unfold CPUScaleUp. destruct (QueryCPUs (machine s)) as [[cpus|err] m] eqn:Hq;
    pose proof (QueryCPUs_log _ _ _ Hq) as Hlm; (assert (Hlm' : log_ok p m.2) by (rewrite Hlm; by apply log_ok_snoc)); [|done].
  destruct (first_free p cpus) as [id|] eqn:Hff; [|done]. apply first_free_Some in Hff as (Hr & Hn & _).
  pose proof (queried_free slots plugged' _ _ _ _ Hq Hn) as Hfree. cbn [machine with_machine].
  assert (Hb : bootCPUs p ≤ id).
  { destruct (decide (bootCPUs p ≤ id)); [done|].
    pose proof (vcpus_ok_settles p _ _ (QueryCPUs_settles slots plugged' _ _ _ Hq) Hok) as [_ Hb].
    cbv beta in Hfree. rewrite Hb in Hfree by lia. done. }
  destruct (HotplugCPU_log id m Hr Hfree) as (n3 & l3 & Hl3 & Hcase).
  assert (Hlog : log_ok p (HotplugCPU id m).2.2).
  { rewrite Hl3. change (Asked n3 :: l3) with ([Asked n3] ++ l3). rewrite app_assoc.
    assert (H3 : log_ok p (m.2 ++ [Asked n3])) by (by apply log_ok_snoc).
    assert (HP : log_ok p ((m.2 ++ [Asked n3]) ++ [Plug (Some id)])).
    { apply log_ok_snoc; [done|]. exists l, n1, (Z.of_nat (length cpus)), n3, id.
      rewrite Hlm, Hn1, <-!app_assoc. split_and!; [done..|lia|lia]. }
    destruct Hcase as [->|[->|[n4 ->]]]; [by rewrite app_nil_r|done|].
    change [Plug (Some id); Asked n4] with ([Plug (Some id)] ++ [Asked n4]). rewrite app_assoc. by apply log_ok_snoc. }
  destruct (HotplugCPU id m) as [[err|] m']; [done|]. by destruct (has_online p).
Qed.

(** A scale-down after one that counted more than the boot CPUs. *)
Lemma CPUScaleDown_log e s l n1 : vcpus_ok p (plugged (machine s).1) → log_ok p (machine s).2 →
  (machine s).2 = l ++ [Asked (Some n1)] → bootCPUs p < n1 → 1 < n1 → log_ok p (machine (CPUScaleDown p e s).2).2.
Proof.
  intros Hok Hl Hn1 Hlt Hgt. unfold CPUScaleDown. destruct (QueryCPUs (machine s)) as [[cpus|err] m] eqn:Hq;
    pose proof (QueryCPUs_log _ _ _ Hq) as Hlm; (assert (Hlm' : log_ok p m.2) by (rewrite Hlm; by apply log_ok_snoc)); [|done].
  pose proof (vcpus_ok_settles p _ _ (QueryCPUs_settles slots plugged' _ _ _ Hq) Hok) as Hokm.
  destruct (highest_removable_spec cpus) as [[-> _]|(Hpos & Hin & _)]; [done|].
  pose proof (highest_above_boot _ _ _ Hq Hokm) as Habove.
  destruct (queried_plugged slots plugged' _ _ _ _ Hq Hin) as [d Hd]. apply Hokm in Hd as [Hr _].
  rewrite (proj2 (Z.ltb_ge _ _)) by lia. set (k := highest_removable cpus) in *.
  assert (Hlog : log_ok p (UnplugCPU k m).2.2).
  { assert ((UnplugCPU k m).2.2 = m.2 ++ [Unplug (cpu_device k)]) as ->.
    { unfold UnplugCPU. cbn. by destruct (device_del (cpu_device k) m.1). }
    apply log_ok_snoc; [done|]. exists l, n1, (Z.of_nat (length cpus)), k. rewrite Hlm, Hn1, <-app_assoc.
    split_and!; first [done|lia]. }
  destruct (has_offline p); cbn [machine with_machine with_call]; destruct (UnplugCPU k m) as [[err|] m']; done.
Qed.

Definition logged_inv s : Prop := cpu_inv p plugged' s ∧ log_ok p (machine s).2.

#[export] Instance LoggedScalerLaws : ScalerLaws (ResourceScaler0 := CPUScaler p) logged_inv.
Proof.
  pose proof (CPUScalerLaws p slots plugged' Hslots) as [Hev Hup Hdown]. split.
  - intros e s [Hi Hl]. split; [by apply Hev|]. destruct (EvaluateScaling e s) as [r s'] eqn:H. cbn in H.
    apply evaluation_log in H as (n & Hn & _). cbn [snd]. rewrite Hn. by apply log_ok_snoc.
  - intros e s s1 [Hi Hl] H. split; [by eapply Hup|]. pose proof (Hev e s Hi) as Hi'. rewrite H in Hi'. cbn in H.
    apply evaluation_log in H as (n & Hn & Hu & _). destruct (Hu eq_refl) as (n1 & -> & Hlt).
    eapply CPUScaleUp_log; [apply Hi'|rewrite Hn; by apply log_ok_snoc|exact Hn|done].
  - intros e s s1 [Hi Hl] H. split; [by eapply Hdown|]. pose proof (Hev e s Hi) as Hi'. rewrite H in Hi'. cbn in H.
    apply evaluation_log in H as (n & Hn & _ & Hd). destruct (Hd eq_refl) as (n1 & -> & ? & ?).
    eapply CPUScaleDown_log; [apply Hi'|rewrite Hn; by apply log_ok_snoc|exact Hn|done..].
Qed.
End log.

(** C16: A CPU controller started on a machine that holds exactly its boot
    vCPUs, with at least maxCPUs slots, whatever the monitor reads, for as
    long as it runs and whenever QEMU completes an unplug (QEMU being taken
    at its documented word: only a device with an id can be unplugged,
    device_add fills a free slot it was named): the machine keeps between
    bootCPUs and maxCPUs vCPUs, even when it has more slots, and its boot
    vCPUs; every hotplugged vCPU has the device id UnplugCPU would use; CPU
    0 is never taken offline. Every command sent is guarded: a device_add
    follows an evaluation whose query counted fewer than maxCPUs vCPUs, and
    names a core from bootCPUs up and below maxCPUs; a device_del follows
    one that counted more than bootCPUs, and more than one, and names a CPU
    above 0, which is no boot CPU unless a pending unplug completed since
    that count brought the machine down to its boot CPUs. *)
Theorem vcpus_within_bounds `{!QMP M} (p : CPUParams) (slots : Z) (plugged : M → gmap Z string)
    `{!QEMULaws slots plugged} (m : M) s0 (ticks : list (tick CPUEnv)) :
  0 ≤ bootCPUs p → maxCPUs p ≤ slots → NewController p (m, []) = Some s0 → plugged m = boot_vcpus p →
  let s := (monitorLoop (ResourceScaler0 := CPUScaler p) (monitor_config p) ticks NewMonitor s0).2 in
  let vcpus := plugged (machine s).1 in
  bootCPUs p ≤ Z.of_nat (size vcpus) ≤ maxCPUs p
  ∧ (∀ k, 0 ≤ k < bootCPUs p → vcpus !! k = Some ""%string)
  ∧ (∀ k d, bootCPUs p ≤ k → vcpus !! k = Some d → d = cpu_device k)
  ∧ OfflineCPU 0 ∉ guest_calls s
  ∧ ∀ sent c later, (machine s).2 = sent ++ c :: later → sent_ok p sent c.
Proof.
  unfold NewController. destruct (Z.leb_spec (maxCPUs p) (bootCPUs p)); [done|].
  intros Hb Hsl Hs Hm. injection Hs as <-. cbv zeta.
  set (s := snd (monitorLoop _ _ _ _)).
  assert (Hinv : logged_inv p plugged s).
  { apply (monitor_keeps (ResourceScaler0 := CPUScaler p) (monitor_config p) (logged_inv p plugged) (ScalerLaws0 := LoggedScalerLaws p slots plugged Hsl)).
    split; [split; simpl; [|constructor]; rewrite Hm; apply boot_vcpus_ok; lia|]. by intros [] ? ?. }
  destruct Hinv as [[[H1 H2] Hg] Hl]. split; [apply vcpus_ok_size; [lia|done]|]. split; [done|]. split; [|split; [|done]].
  - intros k d Hk [_ ->]%H1. by rewrite (proj2 (Z.ltb_ge _ _)) by lia.
  - intros Hin. rewrite Forall_forall in Hg. apply Hg in Hin. simpl in Hin. lia.
Qed.

Theorem scale_up_plugs_lowest_free `{!QMP M} (p : CPUParams) (slots : Z) (plugged : M → gmap Z string)
    `{!QEMULaws slots plugged} e (s s' : CPUState M) : maxCPUs p ≤ slots →
  CPUScaleUp p e s = (None, s') →
  ∃ id c1 c2, 0 ≤ id < maxCPUs p
    ∧ settles (plugged (machine s)) c1 ∧ c1 !! id = None ∧ (∀ j, 0 ≤ j < id → is_Some (c1 !! j))
    ∧ settles c1 c2 ∧ settles (<[id := cpu_device id]> c2) (plugged (machine s'))
    ∧ currentCPUs s' = currentCPUs s + 1
    ∧ guest_calls s' = guest_calls s ++ (if has_online p then [OnlineCPU id] else []).
Proof.
  intros Hslots. unfold CPUScaleUp. destruct (QueryCPUs (machine s)) as [[cpus|err] m] eqn:Hq; [|done].
  destruct (first_free p cpus) as [id|] eqn:Hff; [|done].
  apply first_free_Some in Hff as (Hr & Hn & Hl). cbn [machine with_machine].
  pose proof (queried_free slots plugged _ _ _ _ Hq Hn) as Hfree.
  destruct (HotplugCPU id m) as [[err|] m'] eqn:Hh; [done|].
  destruct (HotplugCPU_spec p slots plugged Hslots _ _ _ _ Hh Hr Hfree) as (c & Hc & [[? _]|Hs]); [done|].
  intros [= <-]. exists id, (plugged m), c. split; [exact Hr|].
  split; [by eapply QueryCPUs_settles|]. split; [done|]. split_and!; try done; try (by destruct (has_online p)).
  - intros j Hj. eapply queried_plugged; [done..|]. by apply Hl.
  - destruct (has_online p); simpl; [done|]. by rewrite app_nil_r.
Qed.

(** ** A concrete machine *)

(** A machine of six core slots; an unplug request completes after [q_delay] further
    queries. *)
Record qemu := mkQemu {
  q_cpus : gmap Z string;
  q_pending : list (nat * string);
  q_delay : nat
}.

Definition q_due (m : qemu) : list string :=
  omap (λ '(n, d), if n is O then Some d else None) (q_pending m).

Definition q_settle (m : qemu) : qemu :=
  mkQemu (filter (λ kd, kd.2 = ""%string ∨ kd.2 ∉ q_due m) (q_cpus m))
    (omap (λ '(n, d), if n is S n' then Some (n', d) else None) (q_pending m)) (q_delay m).

Definition q_slot (m : qemu) (k : Z) : HotpluggableCPU :=
  mkHotpluggableCPU "host-x86_64-cpu" (if q_cpus m !! k is Some _ then "/machine" else "")
    (Some {[ "core-id"%string := AFloat64 (f64 k) ]}) 1.

#[local] Instance qemu_QMP : QMP qemu := {
  query_cpus_fast m :=
    let m := q_settle m in
    (Ok ((λ kd : Z * string, mkCPUInfo kd.1 "" 0 "") <$> map_to_list (q_cpus m)), m);
  query_hotpluggable_cpus m := (Ok (q_slot m <$> seqZ 0 6), m);
  device_add driver args m :=
    match intFromProp (args !! "core-id"%string), args !! "id"%string with
    | Some k, Some (AString d) =>
        if (0 <=? k) && (k <? 6) && bool_decide (q_cpus m !! k = None)
        then (None, mkQemu (<[k := d]> (q_cpus m)) (q_pending m) (q_delay m))
        else (Some (mkError ErrUnknown "CPU slot in use"), m)
    | _, _ => (Some (mkError ErrUnknown "missing property"), m)
    end;
  device_del d m :=
    if existsb (String.eqb d) (map_to_list (q_cpus m)).*2 && negb (String.eqb d "")
    then (None, mkQemu (q_cpus m) (q_pending m ++ [(q_delay m, d)]) (q_delay m))
    else (Some (mkError ErrUnknown "Device not found"), m)
}.

Lemma q_settle_settles m : settles (q_cpus m) (q_cpus (q_settle m)).
Proof.
  split; [apply map_filter_subseteq|]. intros k Hk. apply map_lookup_filter_Some. simpl. auto.
Qed.

#[local] Instance qemu_laws : QEMULaws 6 q_cpus.
Proof.
  split.
  - intros m cpus m' H. assert (m' = q_settle m) as -> by (by injection H).
    split; [apply q_settle_settles|]. injection H as <-.
    rewrite <- list_fmap_compose. done.
  - done.
  - intros m hs m' H. assert (hs = q_slot m <$> seqZ 0 6) as -> by (by injection H).
    assert (m' = m) as -> by (by injection H). split_and!; [done|..].
    + intros k Hk Hn. exists (q_slot m k), {[ "core-id"%string := AFloat64 (f64 k) ]}.
      split_and!; [|simpl; by rewrite Hn|done|].
      * apply list_elem_of_fmap. exists k. split; [done|]. apply elem_of_seqZ. lia.
      * assert (k = 0 ∨ k = 1 ∨ k = 2 ∨ k = 3 ∨ k = 4 ∨ k = 5) as [->|[->|[->|[->|[->| ->]]]]] by lia; done.
    + intros c props (k & -> & _)%list_elem_of_fmap [= <-]. done.
  - done.
  - intros driver args m r m' H. cbn in H.
    destruct (intFromProp _) as [k|] eqn:Hk; [|simplify_eq; by left].
    destruct (args !! "id"%string) as [[]|] eqn:Hd; try (simplify_eq; by left).
    destruct (_ && _) eqn:Hb; simplify_eq; [|by left]. right.
    apply andb_true_iff in Hb as [[H1%Z.leb_le H2%Z.ltb_lt]%andb_true_iff H3%bool_decide_eq_true].
    by eexists k, _, (q_cpus m).
  - intros d m. cbn. by destruct (_ && _).
Qed.

(** Ticks five seconds apart, with the usage counter after each. *)
Definition usage_ticks (usage : list Z) : list (tick CPUEnv) :=
  imap (λ i u, let t := 5 * second * (1 + Z.of_nat i) in mkTick t t (mkCPUEnv t (Ok (u, 0)))) usage.

Definition demo_params (boot : Z) : CPUParams := mkCPUParams boot 4 true true true CPUDefaultConfig.

Definition demo_machine (boot : Z) (delay : nat) : qemu :=
  mkQemu (boot_vcpus (demo_params boot)) [] delay.
Definition demo_start (boot : Z) (delay : nat) : CPUState qemu :=
  mkCPUState boot None 0 0 (demo_machine boot delay) [].

Definition demo_run (boot : Z) (delay : nat) (usage : list Z) : CPUState qemu :=
  (monitorLoop (ResourceScaler0 := CPUScaler (demo_params boot))
     (monitor_config (demo_params boot)) (usage_ticks usage) NewMonitor (demo_start boot delay)).2.

(** One CPU is added under load and taken away when the load is gone, on a machine
    with six slots of which the controller may use four. *)
Definition demo_ticks : list (tick CPUEnv) := usage_ticks ([0; 5000000; 10000000] ++ replicate 6 10000000).
Definition demo_logged : CPUState (qemu * list Command) :=
  (monitorLoop (ResourceScaler0 := CPUScaler (demo_params 1)) (monitor_config (demo_params 1)) demo_ticks NewMonitor
     (mkCPUState 1 None 0 0 (demo_machine 1 0, []) [])).2.

Lemma vcpus_within_bounds_witness :
  1 ≤ Z.of_nat (size (q_cpus (machine demo_logged).1)) ≤ 4
  ∧ guest_calls demo_logged = [OnlineCPU 1; OfflineCPU 1]
  ∧ ∃ before, (machine demo_logged).2 = before ++ [Asked (Some 2); Asked (Some 2); Unplug "cpu1"]
      ∧ sent_ok (demo_params 1) (before ++ [Asked (Some 2); Asked (Some 2)]) (Unplug "cpu1").
Proof.
  destruct (vcpus_within_bounds (demo_params 1) 6 q_cpus (demo_machine 1 0)
    (mkCPUState 1 None 0 0 (demo_machine 1 0, []) []) demo_ticks) as (H1 & _ & _ & _ & H5); [done|done|reflexivity|reflexivity|].
  split; [exact H1|]. split; [vm_compute; reflexivity|].
  eexists (take (length (machine demo_logged).2 - 3) (machine demo_logged).2). split; [vm_compute; reflexivity|].
  apply (H5 _ _ []). vm_compute. reflexivity.
Defined.

Definition gap_before : CPUState qemu :=
  mkCPUState 2 None 0 0 (mkQemu {[0 := ""; 2 := "cpu2"]}%string [] 0) [].

Lemma scale_up_plugs_lowest_free_witness :
  CPUScaleUp (demo_params 1) (mkCPUEnv 0 (Ok (0, 0))) gap_before =
    (None, (CPUScaleUp (demo_params 1) (mkCPUEnv 0 (Ok (0, 0))) gap_before).2)
  ∧ ∃ id c1 c2, 0 ≤ id < maxCPUs (demo_params 1)
    ∧ settles (q_cpus (machine gap_before)) c1 ∧ c1 !! id = None ∧ (∀ j, 0 ≤ j < id → is_Some (c1 !! j))
    ∧ settles c1 c2
    ∧ settles (<[id := cpu_device id]> c2)
        (q_cpus (machine (CPUScaleUp (demo_params 1) (mkCPUEnv 0 (Ok (0, 0))) gap_before).2)).
Proof.
  assert (Hrun : CPUScaleUp (demo_params 1) (mkCPUEnv 0 (Ok (0, 0))) gap_before =
    (None, (CPUScaleUp (demo_params 1) (mkCPUEnv 0 (Ok (0, 0))) gap_before).2)) by (vm_compute; reflexivity).
  split; [exact Hrun|].
  destruct (scale_up_plugs_lowest_free (demo_params 1) 6 q_cpus _ _ _ ltac:(done) Hrun)
    as (id & c1 & c2 & H1 & H2 & H3 & H4 & H5 & H6 & _).
  exists id, c1, c2. split; [exact H1|]. split; [exact H2|]. split; [exact H3|]. split; [exact H4|].
  split; [exact H5|exact H6].
Defined.

(** Two boot CPUs; the load adds CPU 2 and then goes away.  The guest takes long
    to release CPU 2, so an evaluation still counts it while the query of the
    scale-down it leads to no longer does, and boot CPU 1 is taken offline in the
    guest; its unplug then fails, and it stays plugged and offline. *)
Theorem scale_down_offlines_boot_cpu :
  let s := demo_run 2 11 ([0; 10000000; 20000000] ++ replicate 18 20000000) in
  guest_calls s = [OnlineCPU 2; OfflineCPU 2; OfflineCPU 1]
  ∧ q_cpus (machine s) = {[0 := ""; 1 := ""]}%string.
Proof. vm_compute. done. Qed.
