(* ===== verification/MemHotplug.v ===== *)
(** Memory hotplug: internal/shim/memhotplug/controller.go and
    internal/host/vm/qemu/qmp_memory.go.

    The machine grows through one virtio-mem device; QEMU is a parameter
    ([MemQMP]) with the bounds its device was created with as laws ([MemLaws]). *)
From S2P Require Import Prelude GoStrings GoFloat Hotplug CPUHotplug.
Open Scope Z_scope.

(** [qemu.MemorySizeSummary] *)
Record MemorySizeSummary := mkSummary { BaseMemory : Z; PluggedMemory : Z }.

(** [qom-set requested-size] on the virtio-mem device, and
    [query-memory-size-summary]. *)
Class MemQMP (M : Type) := {
  qom_set_requested_size : Z → M → option error * M;
  query_memory_size_summary : M → res MemorySizeSummary * M
}.

(** ** qmp_memory.go *)

Section qmp.
Context `{!MemQMP M}.

Definition QueryMemorySizeSummary (m : M) : res MemorySizeSummary * M := query_memory_size_summary m.

(** Also whether the request was sent. *)
Definition SetPluggedMemory (sizeBytes : Z) (m : M) : res Z * bool * M :=
  if sizeBytes <? 0
  then (Err (mkError ErrUnknown ("negative memory request: " +:+ fmt_d sizeBytes +:+ " bytes")), false, m)
  else
    let '(err, m1) := qom_set_requested_size sizeBytes m in
    match err with
    | Some e => (Err (wrap ("requesting " +:+ fmt_d sizeBytes +:+ " bytes from virtio-mem") e), true, m1)
    | None =>
        let '(summary, m2) := QueryMemorySizeSummary m1 in
        match summary with
        | Err e => (Err (wrap ("reading back the memory size after requesting "
                                +:+ fmt_d sizeBytes +:+ " bytes") e), true, m2)
        | Ok summary => (Ok (PluggedMemory summary), true, m2)
        end
    end.
End qmp.

(** ** controller.go *)

Record MemConfig := mkMemConfig {
  mc_MonitorInterval : Z;
  mc_ScaleUpCooldown : Z;
  mc_ScaleDownCooldown : Z;
  mc_ScaleUpThreshold : float64;
  mc_ScaleDownThreshold : float64;
  mc_OOMSafetyMarginMB : Z;
  mc_IncrementSize : Z;
  mc_ScaleUpStability : Z;
  mc_ScaleDownStability : Z;
  mc_EnableScaleDown : bool
}.

Definition MiB : Z := 1024 * 1024.

Definition MemDefaultConfig : MemConfig := {|
  mc_MonitorInterval := 10 * second;
  mc_ScaleUpCooldown := 30 * second;
  mc_ScaleDownCooldown := 60 * second;
  mc_ScaleUpThreshold := f64 85;
  mc_ScaleDownThreshold := f64 60;
  mc_OOMSafetyMarginMB := 128;
  mc_IncrementSize := 128 * MiB;
  mc_ScaleUpStability := 3;
  mc_ScaleDownStability := 6;
  mc_EnableScaleDown := false
|}.

(** The fields [NewController] fixes. *)
Record MemParams := mkMemParams {
  bootMemory : Z;
  maxMemory : Z;
  mem_has_stats : bool;
  mem_config : MemConfig
}.

(** The fields that change, the machine, and the sizes requested of it. *)
Record MemState (M : Type) := mkMemState {
  currentMemory : Z;
  memLastSampleTime : option Z;
  lastMemoryUsage : Z;
  mem_machine : M;
  requests : list Z
}.
Arguments mkMemState {M}.
Arguments currentMemory {M}.
Arguments memLastSampleTime {M}.
Arguments lastMemoryUsage {M}.
Arguments mem_machine {M}.
Arguments requests {M}.

Record MemEnv := mkMemEnv { me_now : Z; me_usage : res Z }.

Section controller.
Context `{!MemQMP M} (p : MemParams).
Implicit Types s : MemState M.

Definition NewMemController (m : M) : option (MemState M) :=
  if maxMemory p <=? bootMemory p then None
  else Some (mkMemState (bootMemory p) None 0 m []).

Definition mem_monitor_config : MonitorConfig :=
  mkMonitorConfig (mc_MonitorInterval (mem_config p)) (mc_ScaleUpCooldown (mem_config p))
    (mc_ScaleDownCooldown (mem_config p)) (mc_ScaleUpStability (mem_config p))
    (mc_ScaleDownStability (mem_config p)) (mc_EnableScaleDown (mem_config p)).

Definition mem_with s (current : Z) (m : M) (reqs : list Z) : MemState M :=
  mkMemState current (memLastSampleTime s) (lastMemoryUsage s) m (requests s ++ reqs).

Definition sampleMemory (e : MemEnv) s : res (option float64) * MemState M :=
  if negb (mem_has_stats p) then (Ok None, s)
  else match me_usage e with
  | Err err => (Err (wrap "failed to get memory stats" err), s)
  | Ok usageBytes =>
      let s1 := mkMemState (currentMemory s) (Some (me_now e)) usageBytes (mem_machine s) (requests s) in
      match memLastSampleTime s with
      | None => (Ok None, s1)
      | Some _ => (Ok (Some (fmul (fdiv (f64 usageBytes) (f64 (currentMemory s))) (f64 100))), s1)
      end
  end.

(** [int64(float64(c.currentMemory) * usagePct / 100.0)] *)
Definition usedMemory (current : Z) (usagePct : float64) : Z :=
  f64_to_int64 (fdiv (fmul (f64 current) usagePct) (f64 100)).

Definition safetyMargin : Z := int64_wrap (mc_OOMSafetyMarginMB (mem_config p) * MiB).

(** The decision on a usable sample. *)
Definition mem_decide (current : Z) (usagePct : float64) : ScaleDirection :=
  let cfg := mem_config p in
  let used := usedMemory current usagePct in
  let freeMemory := int64_wrap (current - used) in
  if fge usagePct (mc_ScaleUpThreshold cfg) && (freeMemory <? safetyMargin) && (current <? maxMemory p)
  then ScaleUp
  else if mc_EnableScaleDown cfg && (bootMemory p <? current) && flt usagePct (mc_ScaleDownThreshold cfg)
  then
    let newMemory := int64_wrap (current - mc_IncrementSize cfg) in
    if (bootMemory p <=? newMemory) && (safetyMargin <=? int64_wrap (newMemory - used))
    then ScaleDown else ScaleNone
  else ScaleNone.

Definition MemEvaluateScaling (e : MemEnv) s : res ScaleDirection * MemState M :=
  let '(summary, m) := QueryMemorySizeSummary (mem_machine s) in
  match summary with
  | Err err => (Err (wrap "query memory summary" err), mem_with s (currentMemory s) m [])
  | Ok summary =>
      let s := mem_with s (int64_wrap (BaseMemory summary + PluggedMemory summary)) m [] in
      let '(sample, s) := sampleMemory e s in
      match sample with
      | Err _ | Ok None => (Ok ScaleNone, s)
      | Ok (Some usagePct) => (Ok (mem_decide (currentMemory s) usagePct), s)
      end
  end.

Definition clamp (target : Z) : Z :=
  if maxMemory p <? target then maxMemory p
  else if target <? bootMemory p then bootMemory p
  else target.

Definition resize (target : Z) s : option error * MemState M :=
  if target =? currentMemory s then (None, s)
  else
    let size := int64_wrap (target - bootMemory p) in
    let '(plugged, sent, m) := SetPluggedMemory size (mem_machine s) in
    let reqs := if (sent : bool) then [size] else [] in
    match plugged with
    | Err e => (Some (wrap ("resizing memory to " +:+ fmt_d target +:+ " bytes") e),
                mem_with s (currentMemory s) m reqs)
    | Ok plugged => (None, mem_with s (int64_wrap (bootMemory p + plugged)) m reqs)
    end.

Definition MemScaleUp (e : MemEnv) s : option error * MemState M :=
  resize (clamp (int64_wrap (currentMemory s + mc_IncrementSize (mem_config p)))) s.

Definition MemScaleDown (e : MemEnv) s : option error * MemState M :=
  resize (clamp (int64_wrap (currentMemory s - mc_IncrementSize (mem_config p)))) s.

#[export] Instance MemScaler : ResourceScaler (MemState M) MemEnv := {
  EvaluateScaling := MemEvaluateScaling;
  scaleUp := MemScaleUp;
  scaleDown := MemScaleDown
}.
End controller.

(** ** What the machine promises *)

(** The device was created able to hand out at most [maxPlug] bytes on top of the
    [base] the machine booted with, whatever the guest accepts or releases. *)
Class MemLaws `{!MemQMP M} (base maxPlug : Z) : Prop :=
  law_summary : ∀ m sm m', query_memory_size_summary m = (Ok sm, m') →
    BaseMemory sm = base ∧ 0 ≤ PluggedMemory sm ≤ maxPlug.

Definition mem_params_ok (p : MemParams) : Prop := 0 ≤ bootMemory p ∧ maxMemory p < two63.

Lemma clamp_range p t : bootMemory p ≤ maxMemory p → bootMemory p ≤ clamp p t ≤ maxMemory p.
Proof.
  intros Hb. unfold clamp.
  destruct (Z.ltb_spec (maxMemory p) t), (Z.ltb_spec t (bootMemory p)); lia.
Qed.

Lemma int64_wrap_nonneg z : 0 ≤ z < two63 → int64_wrap z = z.
Proof. intros ?. apply int64_wrap_id. unfold int64_range, two63 in *. lia. Qed.

Section laws.
Context `{!MemQMP M} (p : MemParams) `{!MemLaws (bootMemory p) (maxMemory p - bootMemory p)}.
Context (Hp : mem_params_ok p) (Hlim : bootMemory p ≤ maxMemory p).
Implicit Types s : MemState M.

Definition request_ok (r : Z) : Prop := 0 ≤ r ≤ maxMemory p - bootMemory p.

Definition mem_inv s : Prop :=
  bootMemory p ≤ currentMemory s ≤ maxMemory p ∧ Forall request_ok (requests s).

Lemma sampleMemory_frame e s r s' : sampleMemory p e s = (r, s') →
  currentMemory s' = currentMemory s ∧ requests s' = requests s.
Proof. unfold sampleMemory. intros H. repeat case_match; by simplify_eq. Qed.

Lemma MemEvaluateScaling_inv e s : mem_inv s → mem_inv (MemEvaluateScaling p e s).2.
Proof.
  destruct Hp as [Hp0 Hp1]. intros [Hc Hr]. unfold MemEvaluateScaling.
  destruct (QueryMemorySizeSummary _) as [[sm|err] m] eqn:Hq.
  2: { split; [done|]. simpl. by rewrite app_nil_r. }
  destruct (law_summary _ _ _ Hq) as [Hb Hpl]. rewrite Hb.
  rewrite int64_wrap_nonneg by lia. destruct (sampleMemory p e _) as [sample s1] eqn:Hs.
  apply sampleMemory_frame in Hs as [Hc1 Hr1]. simpl in Hc1, Hr1. rewrite app_nil_r in Hr1.
  assert (mem_inv s1). { split; [lia|by rewrite Hr1]. }
  by destruct sample as [[u|]|].
Qed.

(** What [resize] sends, and what it records. *)
Lemma resize_spec t s : bootMemory p ≤ t ≤ maxMemory p → t ≠ currentMemory s →
  requests (resize p t s).2 = requests s ++ [t - bootMemory p].
Proof.
  destruct Hp as [Hp0 Hp1]. intros Ht Hne. unfold resize. rewrite (proj2 (Z.eqb_neq _ _) Hne).
  rewrite int64_wrap_nonneg by lia. unfold SetPluggedMemory. rewrite (proj2 (Z.ltb_ge _ _)) by lia.
  destruct (qom_set_requested_size _ _) as [[e|] m1]; [done|].
  by destruct (QueryMemorySizeSummary m1) as [[sm|e] m2].
Qed.

Lemma resize_inv t s : bootMemory p ≤ t ≤ maxMemory p → mem_inv s → mem_inv (resize p t s).2.
Proof.
  destruct Hp as [Hp0 Hp1]. intros Ht [Hc Hr].
  destruct (decide (t = currentMemory s)) as [->|Hne].
  { unfold resize. by rewrite Z.eqb_refl. }
  split.
  2: { rewrite resize_spec by done. apply Forall_app. split; [done|]. repeat constructor; lia. }
  unfold resize. rewrite (proj2 (Z.eqb_neq _ _) Hne). rewrite int64_wrap_nonneg by lia.
  unfold SetPluggedMemory. rewrite (proj2 (Z.ltb_ge _ _)) by lia.
  destruct (qom_set_requested_size _ _) as [[e|] m1]; [done|].
  destruct (QueryMemorySizeSummary m1) as [[sm|e] m2] eqn:Hq; [|done].
  destruct (law_summary _ _ _ Hq) as [_ Hpl]. simpl. rewrite int64_wrap_nonneg; lia.
Qed.

#[export] Instance MemScalerLaws : ScalerLaws (ResourceScaler0 := MemScaler p) mem_inv.
Proof.
  split; [apply MemEvaluateScaling_inv| |]; intros e s s1 Hs H;
    pose proof (MemEvaluateScaling_inv e s Hs) as Hi; cbn in H; rewrite H in Hi;
    apply resize_inv; by try apply clamp_range.
Qed.
End laws.

(** ** Properties *)

(** C27: Along any run of the monitor the recorded memory stays between boot and
    maximum and every size requested of virtio-mem is within what the device
    was created for, at 64 bits and whatever the configured increment is. *)
Theorem memory_within_bounds `{!MemQMP M} (p : MemParams)
    `{!MemLaws (bootMemory p) (maxMemory p - bootMemory p)} (m : M) (s0 : MemState M)
    (ticks : list (tick MemEnv)) :
  mem_params_ok p → NewMemController p m = Some s0 →
  let s := (monitorLoop (ResourceScaler0 := MemScaler p) (mem_monitor_config p) ticks NewMonitor s0).2 in
  bootMemory p ≤ currentMemory s ≤ maxMemory p
  ∧ Forall (λ r, 0 ≤ r ≤ maxMemory p - bootMemory p) (requests s).
Proof.
  unfold NewMemController. destruct (Z.leb_spec (maxMemory p) (bootMemory p)); [done|].
  intros Hp Hs. injection Hs as <-. cbv zeta.
  assert (Hlim : bootMemory p ≤ maxMemory p) by lia.
  apply (@monitor_keeps _ _ (MemScaler p) (mem_monitor_config p) (mem_inv p) (MemScalerLaws p Hp Hlim)).
  split; simpl; [lia|constructor].
Qed.

(** The usage percentage of a sample. *)
Definition usage_pct (usage current : Z) : float64 := fmul (fdiv (f64 usage) (f64 current)) (f64 100).

Lemma MemEvaluateScaling_decided `{!MemQMP M} p e (s s1 : MemState M) dir :
  MemEvaluateScaling p e s = (Ok dir, s1) → dir ≠ ScaleNone →
  ∃ u, me_usage e = Ok u ∧ dir = mem_decide p (currentMemory s1) (usage_pct u (currentMemory s1)).
Proof.
  unfold MemEvaluateScaling, sampleMemory. intros H Hd.
  repeat case_match; simplify_eq; try done. by eexists.
Qed.

(** [x >= margin] computed at 64 bits is right even when the difference overflows. *)
Lemma wrap_ge_margin margin x : margin < two63 → - two63 ≤ x < two64 →
  margin ≤ int64_wrap x → margin ≤ x.
Proof.
  intros Hm Hx. destruct (decide (x < two63)); [|unfold two63 in *; lia].
  rewrite int64_wrap_id; [done|]. unfold int64_range. lia.
Qed.

Lemma mem_decide_down p current pct : mem_params_ok p → bootMemory p ≤ current ≤ maxMemory p →
  0 ≤ mc_IncrementSize (mem_config p) < two63 → mem_decide p current pct = ScaleDown →
  bootMemory p ≤ current - mc_IncrementSize (mem_config p)
  ∧ safetyMargin p ≤ current - mc_IncrementSize (mem_config p) - usedMemory current pct.
Proof.
  intros [Hp0 Hp1] Hc Hi. unfold mem_decide.
  destruct (fge _ _ && _ && _); [done|]. destruct (_ && _ && flt _ _); [|done].
  rewrite int64_wrap_id by (unfold int64_range, two63 in *; lia).
  destruct (_ && _) eqn:Hb; [|done]. intros _.
  apply andb_true_iff in Hb as [Hb1%Z.leb_le Hb2%Z.leb_le]. split; [done|].
  pose proof (f64_to_int64_range (fdiv (fmul (f64 current) pct) (f64 100))) as Hr.
  pose proof (int64_wrap_range (mc_OOMSafetyMarginMB (mem_config p) * MiB)) as Hm.
  unfold usedMemory, safetyMargin, int64_range, two63, two64 in *.
  apply (wrap_ge_margin _ (current - mc_IncrementSize (mem_config p)
          - f64_to_int64 (fdiv (fmul (f64 current) pct) (f64 100)))) in Hb2;
    unfold two63, two64; lia.
Qed.

Theorem memory_requests_follow_decision `{!MemQMP M} (p : MemParams) e (s s1 : MemState M) dir :
  mem_params_ok p → bootMemory p ≤ currentMemory s1 ≤ maxMemory p →
  0 < mc_IncrementSize (mem_config p) → maxMemory p + mc_IncrementSize (mem_config p) < two63 →
  MemEvaluateScaling p e s = (Ok dir, s1) →
  let cur := currentMemory s1 in
  let inc := mc_IncrementSize (mem_config p) in
  match dir with
  | ScaleUp =>
      requests (MemScaleUp p e s1).2 = requests s1 ++ [Z.min (cur + inc) (maxMemory p) - bootMemory p]
      ∧ cur < Z.min (cur + inc) (maxMemory p)
  | ScaleDown =>
      requests (MemScaleDown p e s1).2 = requests s1 ++ [cur - inc - bootMemory p]
      ∧ bootMemory p ≤ cur - inc
      ∧ ∃ u, me_usage e = Ok u ∧ usedMemory cur (usage_pct u cur) + safetyMargin p ≤ cur - inc
  | ScaleNone => True
  end.
Proof.
  intros Hp Hc Hi Hov He cur inc. pose proof Hp as [Hp0 Hp1]. subst cur inc.
  pose proof (MemEvaluateScaling_decided _ _ _ _ _ He) as Hdec. destruct dir; [done| |].
  - destruct Hdec as (u & Hu & Hdec); [done|]. symmetry in Hdec. unfold mem_decide in Hdec.
    destruct (fge _ _ && _ && _) eqn:Hb; [|by repeat case_match].
    apply andb_true_iff in Hb as [_ Hb%Z.ltb_lt].
    unfold MemScaleUp. rewrite int64_wrap_nonneg by lia.
    assert (Hcl : clamp p (currentMemory s1 + mc_IncrementSize (mem_config p))
              = Z.min (currentMemory s1 + mc_IncrementSize (mem_config p)) (maxMemory p)).
    { unfold clamp. destruct (Z.ltb_spec (maxMemory p) (currentMemory s1 + mc_IncrementSize (mem_config p)));
        [lia|]. rewrite (proj2 (Z.ltb_ge _ _)); lia. }
    rewrite Hcl. split; [|lia]. apply resize_spec; [done|lia|lia].
  - destruct Hdec as (u & Hu & Hdec); [done|]. symmetry in Hdec.
    apply mem_decide_down in Hdec as [H1 H2]; [|done|done|unfold two63 in *; lia].
    unfold MemScaleDown. rewrite int64_wrap_nonneg by lia.
    unfold clamp. rewrite (proj2 (Z.ltb_ge _ _)), (proj2 (Z.ltb_ge _ _)) by lia.
    split; [apply resize_spec; [done|lia|lia]|]. split; [done|]. exists u. split; [done|lia].
Qed.

(** ** A concrete machine *)

(** A machine of 512 MiB with a 512 MiB device whose guest accepts every request
    that fits; its state is the amount plugged. *)
#[local] Instance vmem_QMP : MemQMP Z := {
  qom_set_requested_size n m :=
    if n <=? 512 * MiB then (None, n) else (Some (mkError ErrUnknown "value too large"), m);
  query_memory_size_summary m :=
    (Ok (mkSummary (512 * MiB) (Z.max 0 (Z.min m (512 * MiB)))), m)
}.

#[local] Instance vmem_laws : MemLaws (M := Z) (512 * MiB) (512 * MiB).
Proof. intros m sm m' H. injection H as <- <-. simpl. unfold MiB. lia. Qed.

Definition vmem_params (down : bool) : MemParams :=
  mkMemParams (512 * MiB) (1024 * MiB) true
    (mkMemConfig (10 * second) (30 * second) (60 * second) (f64 85) (f64 60) 128 (128 * MiB) 3 6 down).

Definition vmem_start : MemState Z := mkMemState (512 * MiB) None 0 0 [].

(** Ticks ten seconds apart, with the usage in MiB at each. *)
Definition mem_ticks (usage : list Z) : list (tick MemEnv) :=
  imap (λ i u, let t := 10 * second * (1 + Z.of_nat i) in mkTick t t (mkMemEnv t (Ok (u * MiB)))) usage.

Definition vmem_run (down : bool) (usage : list Z) : MemState Z :=
  (monitorLoop (ResourceScaler0 := MemScaler (vmem_params down)) (mem_monitor_config (vmem_params down))
     (mem_ticks usage) NewMonitor vmem_start).2.

Lemma memory_within_bounds_witness :
  (bootMemory (vmem_params true) ≤ currentMemory (vmem_run true [460; 460; 470; 480]) ≤ maxMemory (vmem_params true)
   ∧ Forall (λ r, 0 ≤ r ≤ maxMemory (vmem_params true) - bootMemory (vmem_params true))
       (requests (vmem_run true [460; 460; 470; 480])))
  ∧ requests (vmem_run true [460; 460; 470; 480]) = [128 * MiB].
Proof.
  split; [|vm_compute; done].
  exact (memory_within_bounds (vmem_params true) 0 vmem_start (mem_ticks [460; 460; 470; 480])
           ltac:(vm_compute; split; [discriminate|reflexivity]) eq_refl).
Defined.

Definition vmem_idle : MemState Z := mkMemState (1024 * MiB) (Some 0) (100 * MiB) (512 * MiB) [].
Definition vmem_idle_next : MemState Z := mkMemState (1024 * MiB) (Some 5) (100 * MiB) (512 * MiB) [].

Lemma memory_requests_follow_decision_witness :
  requests (MemScaleDown (vmem_params true) (mkMemEnv 5 (Ok (100 * MiB))) vmem_idle_next).2 = [384 * MiB].
Proof.
  exact (proj1 (memory_requests_follow_decision (vmem_params true) (mkMemEnv 5 (Ok (100 * MiB)))
    vmem_idle vmem_idle_next ScaleDown
    ltac:(vm_compute; split; [discriminate|reflexivity]) ltac:(vm_compute; split; discriminate)
    ltac:(reflexivity) ltac:(reflexivity) ltac:(vm_compute; reflexivity))).
Defined.

(** At the defaults, usage alone does not add memory: a 4 GiB machine at 90% of
    its memory is left as it is, and at exactly 85% of 512 MiB memory is added. *)
Theorem high_usage_alone_is_not_enough :
  let p := mkMemParams (512 * MiB) (8192 * MiB) true MemDefaultConfig in
  mem_decide p (4096 * MiB) (f64 90) = ScaleNone ∧ mem_decide p (512 * MiB) (f64 85) = ScaleUp.
Proof. vm_compute. done. Qed.
