(* ===== verification/Resources.v ===== *)
(** VM sizing: internal/shim/resources/config.go, and the defaults and checks the
    instance applies to its answer (validateResourceConfig of
    internal/host/vm/qemu/instance.go, validateConfiguration of start.go).

    Integers are Go's int and int64 (64 bits); sums and products that can leave
    the range wrap. *)
From S2P Require Import Prelude GoStrings.
From Stdlib Require Import Ascii.
Open Scope Z_scope.

(** ** The parts of the OCI specification that are read *)

Record LinuxCPU := mkLinuxCPU { Quota : option Z; Period : option Z; Cpus : string }.
Record LinuxMemory := mkLinuxMemory { Limit : option Z }.
Record LinuxResources := mkLinuxResources { CPU : option LinuxCPU; Memory : option LinuxMemory }.

(** [spec.Linux.Resources]: the two pointers on the way may be nil. *)
Record Spec := mkSpec { Linux : option (option LinuxResources) }.

Definition spec_cpu (spec : Spec) : option LinuxCPU := r ← mjoin (Linux spec); CPU r.
Definition spec_memory (spec : Spec) : option LinuxMemory := r ← mjoin (Linux spec); Memory r.

Record VMResourceConfig := mkVMResourceConfig {
  BootCPUs : Z;
  MaxCPUs : Z;
  MemorySize : Z;
  MemoryHotplugSize : Z;
  MemorySlots : Z
}.

(** ** parseCPUSet *)

(** The loop [for i := start; i <= end; i++] from [i] on, for at most [fuel]
    rounds: [None] when it has not ended by then. The counter is an int and
    wraps. *)
Fixpoint cpu_loop (fuel : nat) (i end_ : Z) (cpus : gset Z) : option (gset Z) :=
  if end_ <? i then Some cpus
  else match fuel with
       | O => None
       | S fuel => cpu_loop fuel (int64_wrap (i + 1)) end_ (cpus ∪ {[ i ]})
       end.

(** What the loop adds: the range, or [None] when [end_] is the largest int and
    the loop never ends ([cpu_loop_ends] and [cpu_loop_never_ends] tie the two). *)
Definition range_cpus (start end_ : Z) : option (gset Z) :=
  if end_ =? two63 - 1 then None else Some (list_to_set (seqZ start (end_ - start + 1))).

(** What becomes of a part of the set: the CPUs it names, the early [return 0],
    or a loop that does not end. *)
Inductive parsed := PCpus (cpus : gset Z) | PInvalid | PLoops.

(** One trimmed, non-empty part. *)
Definition parse_part (part : string) : parsed :=
  if Contains part "-" then
    match SplitN part "-"%char 2 with
    | [a; b] =>
        match Atoi (TrimSpace a) with
        | None => PInvalid
        | Some start =>
            if start <? 0 then PInvalid
            else match Atoi (TrimSpace b) with
                 | None => PInvalid
                 | Some end_ =>
                     if (end_ <? 0) || (end_ <? start) then PInvalid
                     else match range_cpus start end_ with Some c => PCpus c | None => PLoops end
                 end
        end
    | _ => PInvalid
    end
  else
    match Atoi part with
    | Some cpu => if cpu <? 0 then PInvalid else PCpus {[ cpu ]}
    | None => PInvalid
    end.

Fixpoint parse_parts (parts : list string) (cpus : gset Z) : parsed :=
  match parts with
  | [] => PCpus cpus
  | part :: rest =>
      let part := TrimSpace part in
      if String.eqb part "" then parse_parts rest cpus
      else match parse_part part with
           | PCpus c => parse_parts rest (cpus ∪ c)
           | other => other
           end
  end.

(** [None]: the call never returns. *)
Definition parseCPUSet (cpuset : string) : option Z :=
  let cpuset := TrimSpace cpuset in
  if String.eqb cpuset "" then Some 0
  else match parse_parts (Split cpuset ","%char) ∅ with
       | PCpus cpus => Some (int64_wrap (Z.of_nat (size cpus)))
       | PInvalid => Some 0
       | PLoops => None
       end.

(** ** Requests *)

(** [*cpu.Quota / int64( *cpu.Period)]: the conversion of the uint64 wraps, the
    division truncates. [None]: parsing the cpuset never ends. *)
Definition extractCPURequest (spec : option Spec) : option Z :=
  match spec ≫= spec_cpu with
  | None => Some 1
  | Some cpu =>
      let fallback :=
        if String.eqb (Cpus cpu) "" then Some 1
        else count ← parseCPUSet (Cpus cpu); Some (if 0 <? count then count else 1) in
      match Quota cpu, Period cpu with
      | Some quota, Some period =>
          if 0 <? period then
            let cpus := int64_wrap (Z.quot quota (int64_wrap period)) in
            Some (if 0 <? cpus then cpus else 1)
          else fallback
      | _, _ => fallback
      end
  end.

Definition MB : Z := 1024 * 1024.

Definition extractMemoryRequest (spec : option Spec) : Z :=
  match spec ≫= spec_memory with
  | Some (mkLinuxMemory (Some l)) => if 0 <? l then l else 512 * MB
  | _ => 512 * MB
  end.

Definition alignMemory (memory alignment : Z) : out Z :=
  if alignment <=? 0 then Panic "alignMemory: invalid alignment"
  else if negb (Z.land alignment (alignment - 1) =? 0)
  then Panic "alignMemory: alignment is not a power of 2"
  else if Z.rem memory alignment =? 0 then Val memory
  else Val (int64_wrap ((Z.quot memory alignment + 1) * alignment)).

Definition virtioMemAlignment : Z := 128 * MB.

(** ** The host *)

(** /proc/meminfo as its lines, and the error the scanner stopped with, if any. *)
Fixpoint scan_meminfo (lines : list string) (err : option error) : res Z :=
  match lines with
  | [] =>
      match err with
      | Some e => Err (wrap "error reading /proc/meminfo" e)
      | None => Err (mkError ErrUnknown "MemTotal not found in /proc/meminfo")
      end
  | line :: rest =>
      if HasPrefix line "MemTotal:" then
        match Fields line with
        | _ :: f :: _ =>
            match Atoi f with
            | Some kb => Ok (int64_wrap (kb * 1024))
            | None => Err (mkError ErrUnknown "failed to parse MemTotal value")
            end
        | _ => scan_meminfo rest err
        end
      else scan_meminfo rest err
  end.

Definition getHostMemoryTotal (meminfo : res (list string * option error)) : res Z :=
  match meminfo with
  | Err e => Err (wrap "failed to open /proc/meminfo" e)
  | Ok (lines, err) => scan_meminfo lines err
  end.

(** ** ComputeConfig *)

Record ConfigInfo := mkConfigInfo {
  HasExplicitCPULimit : bool;
  HasExplicitMemoryLimit : bool;
  HostCPUs : Z;
  HostMemory : Z
}.

Definition hasExplicitCPULimit (spec : Spec) : bool :=
  match spec_cpu spec with
  | Some cpu => match Quota cpu with Some _ => true | None => negb (String.eqb (Cpus cpu) "") end
  | None => false
  end.

Definition hasExplicitMemoryLimit (spec : Spec) : bool :=
  match spec_memory spec with
  | Some m => match Limit m with Some _ => true | None => false end
  | None => false
  end.

(** [hostCPUs] is runtime.NumCPU(); [None] when the call never returns. *)
Definition ComputeConfig (hostCPUs : Z) (meminfo : res (list string * option error)) (spec : option Spec)
  : option (out (VMResourceConfig * ConfigInfo)) :=
  cpuRequest ← extractCPURequest spec;
  Some (
  let memoryRequest := extractMemoryRequest spec in
  let hostMemory := match getHostMemoryTotal meminfo with Ok m => m | Err _ => 4 * 1024 * MB end in
  out_bind (alignMemory memoryRequest virtioMemAlignment) (λ memoryRequest,
  out_bind (alignMemory hostMemory virtioMemAlignment) (λ hostMemory,
  match spec with
  | None => Panic "invalid memory address or nil pointer dereference"
  | Some spec =>
      let maxCPUs := if hasExplicitCPULimit spec then Z.min cpuRequest hostCPUs else hostCPUs in
      out_bind (if hasExplicitMemoryLimit spec
                then alignMemory (Z.min (int64_wrap (memoryRequest * 2)) hostMemory) virtioMemAlignment
                else Val hostMemory) (λ memoryHotplugSize,
      Val (mkVMResourceConfig cpuRequest maxCPUs memoryRequest memoryHotplugSize 0,
           mkConfigInfo (hasExplicitCPULimit spec) (hasExplicitMemoryLimit spec) hostCPUs hostMemory))
  end))).

(** ** What the instance makes of it *)

Definition validateResourceConfig (cfg : option VMResourceConfig) : VMResourceConfig :=
  match cfg with
  | None => mkVMResourceConfig 1 2 (512 * MB) (1024 * MB) 8
  | Some r =>
      let boot := if BootCPUs r <? 1 then 1 else BootCPUs r in
      let max := if MaxCPUs r <? boot then boot else MaxCPUs r in
      let mem := if MemorySize r <? 1 then 512 * MB else MemorySize r in
      let hot := if MemoryHotplugSize r <? mem then mem else MemoryHotplugSize r in
      let slots := if MemorySlots r <? 1 then 8 else MemorySlots r in
      mkVMResourceConfig boot max mem hot slots
  end.

(** The checks of [validateConfiguration] on the sizes. *)
Definition validate_sizes (r : VMResourceConfig) : option error :=
  if MemorySize r <? 128 * MB
  then Some (mkError ErrUnknown ("memory too low: " +:+ fmt_d (MemorySize r)
               +:+ " bytes (minimum 134217728 bytes / 128 MiB)"))
  else if BootCPUs r <? 1
  then Some (mkError ErrUnknown ("boot CPUs must be at least 1, got " +:+ fmt_d (BootCPUs r)))
  else if MaxCPUs r <? BootCPUs r
  then Some (mkError ErrUnknown ("max CPUs (" +:+ fmt_d (MaxCPUs r)
               +:+ ") cannot be less than boot CPUs (" +:+ fmt_d (BootCPUs r) +:+ ")"))
  else None.

(** ** Alignment *)

(** The least multiple of [a] that is at least [m]. *)
Definition round_up (m a : Z) : Z := (m + a - 1) / a * a.

Lemma round_up_spec m a : 0 < a → (a | round_up m a) ∧ m ≤ round_up m a < m + a.
Proof.
  intros Ha. unfold round_up. split; [apply Z.divide_factor_r|].
  pose proof (Z.div_mod (m + a - 1) a ltac:(lia)). pose proof (Z.mod_pos_bound (m + a - 1) a Ha). lia.
Qed.

Lemma round_up_unique m a k : 0 < a → m ≤ k * a < m + a → round_up m a = k * a.
Proof.
  intros Ha Hk. unfold round_up. f_equal. symmetry. apply (Z.div_unique _ _ _ (m + a - 1 - k * a)); lia.
Qed.

Lemma alignMemory_round_up m : 0 ≤ m ≤ two63 - 128 * MB →
  alignMemory m virtioMemAlignment = Val (round_up m virtioMemAlignment).
Proof.
  intros Hm. unfold alignMemory.
  change (virtioMemAlignment <=? 0) with false. cbv iota.
  change (negb (Z.land virtioMemAlignment (virtioMemAlignment - 1) =? 0)) with false. cbv iota.
  assert (Ha : 0 < virtioMemAlignment) by done.
  rewrite Z.rem_mod_nonneg, Z.quot_div_nonneg by lia.
  pose proof (Z.div_mod m virtioMemAlignment ltac:(lia)) as Hdm.
  pose proof (Z.mod_pos_bound m virtioMemAlignment Ha) as Hmod.
  destruct (Z.eqb_spec (m mod virtioMemAlignment) 0) as [H0|H0].
  - f_equal. rewrite (round_up_unique m virtioMemAlignment (m / virtioMemAlignment)) by lia. lia.
  - f_equal. rewrite (round_up_unique m virtioMemAlignment (m / virtioMemAlignment + 1)) by lia.
    apply int64_wrap_id. unfold int64_range, two63, virtioMemAlignment, MB in *. lia.
Qed.

(** *** The loop over a range *)

Lemma cpu_loop_ends fuel i end_ cpus :
  0 ≤ i → end_ < two63 - 1 → end_ - i < Z.of_nat fuel →
  cpu_loop fuel i end_ cpus = Some (cpus ∪ list_to_set (seqZ i (end_ - i + 1))).
Proof.
  revert i cpus. induction fuel as [|fuel IH]; intros i cpus Hi He Hf; cbn [cpu_loop];
    destruct (Z.ltb_spec end_ i); try lia.
  1,2: rewrite seqZ_nil by lia; f_equal; set_solver.
  rewrite int64_wrap_id by (unfold int64_range; lia). rewrite IH by lia. f_equal.
  rewrite (seqZ_cons i) by lia. replace (Z.succ i) with (i + 1) by lia.
  replace (Z.pred (end_ - i + 1)) with (end_ - (i + 1) + 1) by lia. set_solver.
Qed.

(** The counter never passes the largest int. *)
Lemma cpu_loop_never_ends fuel i cpus :
  int64_range i → cpu_loop fuel i (two63 - 1) cpus = None.
Proof.
  revert i cpus. induction fuel as [|fuel IH]; intros i cpus Hi; cbn [cpu_loop];
    rewrite (proj2 (Z.ltb_ge _ _)) by (unfold int64_range in Hi; lia); [done|].
  apply IH, int64_wrap_range.
Qed.

(** [range_cpus] is the loop: with enough fuel, or for any fuel. *)
Lemma range_cpus_loop start end_ : 0 ≤ start ≤ end_ → end_ < two63 →
  match range_cpus start end_ with
  | Some c => cpu_loop (Z.to_nat (end_ - start + 1)) start end_ ∅ = Some c
  | None => ∀ fuel, cpu_loop fuel start end_ ∅ = None
  end.
Proof.
  intros Hs He. unfold range_cpus. destruct (Z.eqb_spec end_ (two63 - 1)) as [->|Hn].
  - intros fuel. apply cpu_loop_never_ends. unfold int64_range. lia.
  - rewrite cpu_loop_ends by lia. f_equal. set_solver.
Qed.

(** *** When the request is known *)

(** No range of the cpuset ends in the largest int. *)
Definition cpuset_ends (cpuset : string) : Prop :=
  ∀ part a b, part ∈ Split (TrimSpace cpuset) ","%char → SplitN (TrimSpace part) "-"%char 2 = [a; b] →
    Atoi (TrimSpace b) ≠ Some (two63 - 1).

Lemma parse_parts_ends parts cpus :
  (∀ part a b, part ∈ parts → SplitN (TrimSpace part) "-"%char 2 = [a; b] →
    Atoi (TrimSpace b) ≠ Some (two63 - 1)) →
  parse_parts parts cpus ≠ PLoops.
Proof.
  revert cpus. induction parts as [|part rest IH]; intros cpus H; [done|]. cbn [parse_parts].
  assert (Hr : ∀ cpus, parse_parts rest cpus ≠ PLoops).
  { intros c. apply IH. intros q a b Hq. apply H. by right. }
  destruct (String.eqb _ ""); [done|].
  destruct (parse_part (TrimSpace part)) eqn:E; [done|done|]. exfalso. unfold parse_part in E.
  destruct (SplitN (TrimSpace part) "-"%char 2) as [|a [|b [|]]] eqn:Es; go_cases.
  unfold range_cpus in *. case_match eqn:Ez; [|done]. apply Z.eqb_eq in Ez as ->.
  by eapply (H part a b); [left|..].
Qed.

Lemma extractCPURequest_ends spec :
  (∀ cpu, spec_cpu spec = Some cpu → cpuset_ends (Cpus cpu)) →
  ∃ cpus, extractCPURequest (Some spec) = Some cpus ∧ 1 ≤ cpus.
Proof.
  intros Hc. unfold extractCPURequest. cbn [option_bind mbind].
  destruct (spec_cpu spec) as [[q p c]|]; [|by eexists]. specialize (Hc _ eq_refl). cbn [Cpus Quota Period] in *.
  assert (Hf : ∃ cpus, (if String.eqb c "" then Some 1
            else count ← parseCPUSet c; Some (if 0 <? count then count else 1)) = Some cpus ∧ 1 ≤ cpus).
  { destruct (String.eqb c ""); [by eexists|]. unfold parseCPUSet.
    destruct (String.eqb _ ""); [by eexists|].
    pose proof (parse_parts_ends (Split (TrimSpace c) ","%char) ∅ Hc) as Hn.
    destruct (parse_parts _ _); [|by eexists|done]. simpl. eexists. split; [done|].
    match goal with |- context [0 <? ?x] => destruct (Z.ltb_spec 0 x) end; lia. }
  destruct q as [q|], p as [p|]; try done. destruct (0 <? p); [|done].
  eexists. split; [done|]. match goal with |- context [0 <? ?x] => destruct (Z.ltb_spec 0 x) end; lia.
Qed.

Lemma extractMemoryRequest_pos spec : 0 < extractMemoryRequest spec.
Proof.
  unfold extractMemoryRequest. destruct (spec ≫= spec_memory) as [[[l|]]|]; try done.
  destruct (Z.ltb_spec 0 l); [done|done].
Qed.

(** The host memory [ComputeConfig] works with. *)
Definition hostMemory (meminfo : res (list string * option error)) : Z :=
  match getHostMemoryTotal meminfo with Ok m => m | Err _ => 4 * 1024 * MB end.

(** The sizes, in one formula, when nothing overflows. *)
Lemma ComputeConfig_value hostCPUs meminfo spec cpus :
  extractCPURequest (Some spec) = Some cpus →
  extractMemoryRequest (Some spec) ≤ 2 ^ 61 → 0 < hostMemory meminfo ≤ 2 ^ 61 →
  let mem := round_up (extractMemoryRequest (Some spec)) virtioMemAlignment in
  let host := round_up (hostMemory meminfo) virtioMemAlignment in
  ComputeConfig hostCPUs meminfo (Some spec) =
    Some (Val (mkVMResourceConfig cpus
           (if hasExplicitCPULimit spec then Z.min cpus hostCPUs else hostCPUs)
           mem (if hasExplicitMemoryLimit spec then Z.min (mem * 2) host else host) 0,
         mkConfigInfo (hasExplicitCPULimit spec) (hasExplicitMemoryLimit spec) hostCPUs host)).
Proof.
  intros Hcpu Hm Hh mem host. unfold ComputeConfig. rewrite Hcpu. cbn [mbind option_bind]. f_equal. fold (hostMemory meminfo).
  pose proof (extractMemoryRequest_pos (Some spec)) as Hpos.
  assert (Hpw : 2 ^ 61 = 2305843009213693952) by reflexivity. rewrite Hpw in *.
  assert (Hms : 0 < virtioMemAlignment) by done.
  pose proof (round_up_spec (extractMemoryRequest (Some spec)) virtioMemAlignment Hms) as [Hd1 Hr1].
  pose proof (round_up_spec (hostMemory meminfo) virtioMemAlignment Hms) as [Hd2 Hr2].
  fold mem in Hd1, Hr1. fold host in Hd2, Hr2.
  rewrite !alignMemory_round_up by (unfold two63, MB; lia). cbn [out_bind]. fold mem host.
  destruct (hasExplicitMemoryLimit spec); [|done].
  rewrite (int64_wrap_id (mem * 2)) by (unfold int64_range, two63, virtioMemAlignment, MB in *; lia).
  assert (Hdiv : (virtioMemAlignment | Z.min (mem * 2) host)).
  { destruct (Z.min_spec (mem * 2) host) as [[_ ->]|[_ ->]]; [by apply Z.divide_mul_l|done]. }
  rewrite alignMemory_round_up by (unfold two63, virtioMemAlignment, MB in *; lia). cbn [out_bind].
  destruct Hdiv as [k Hk]. rewrite Hk at 1. rewrite (round_up_unique _ _ k) by lia. by rewrite <- Hk.
Qed.

Lemma validateResourceConfig_spec r : 1 ≤ BootCPUs r → 0 < MemorySize r →
  let v := validateResourceConfig (Some r) in
  BootCPUs v = BootCPUs r ∧ MaxCPUs v = Z.max (MaxCPUs r) (BootCPUs r) ∧ MemorySize v = MemorySize r
  ∧ MemoryHotplugSize v = Z.max (MemoryHotplugSize r) (MemorySize r).
Proof.
  intros Hb Hm. cbn. rewrite !(proj2 (Z.ltb_ge _ 1)) by lia.
  destruct (Z.ltb_spec (MaxCPUs r) (BootCPUs r)), (Z.ltb_spec (MemoryHotplugSize r) (MemorySize r));
    split_and!; lia.
Qed.

(** ** Properties *)


Definition demo_meminfo : res (list string * option error) :=
  Ok (["MemTotal:       16384000 kB"; "MemFree:         1024 kB"]%string, None).

Definition spec_of (quota period limit : option Z) : Spec :=
  mkSpec (Some (Some (mkLinuxResources (Some (mkLinuxCPU quota period "")) (Some (mkLinuxMemory limit))))).


(** A quota above the host's CPUs: the cap on MaxCPUs is undone, because the boot
    CPUs are not capped and the instance raises the maximum to them. *)
Theorem cpu_quota_escapes_host_cap :
  ∃ cfg info, ComputeConfig 4 demo_meminfo (Some (spec_of (Some 6400000) (Some 100000) None)) = Some (Val (cfg, info))
    ∧ MaxCPUs cfg = 4 ∧ MaxCPUs (validateResourceConfig (Some cfg)) = 64.
Proof. eexists _, _. split; [vm_compute; reflexivity|done]. Qed.

(** The kernel's page-rounded "unlimited" value as memory limit: aligning it
    overflows, and the instance falls back to 512 MiB that cannot grow. *)
Theorem unlimited_memory_gets_default :
  ∃ cfg info,
    ComputeConfig 4 demo_meminfo (Some (spec_of None None (Some 9223372036854771712)))
      = Some (Val (cfg, info))
    ∧ MemorySize cfg = - two63
    ∧ MemorySize (validateResourceConfig (Some cfg)) = 512 * MB
    ∧ MemoryHotplugSize (validateResourceConfig (Some cfg)) = 512 * MB.
Proof. eexists _, _. split; [vm_compute; reflexivity|done]. Qed.

(** ** Cpusets *)

Inductive cpu_item := Single (n : Z) | Range (a b : Z).

Definition item_ok (i : cpu_item) : Prop :=
  match i with Single n => 0 ≤ n < two63 - 1 | Range a b => 0 ≤ a ≤ b ∧ b < two63 - 1 end.

Definition item_cpus (i : cpu_item) : gset Z :=
  match i with Single n => {[ n ]} | Range a b => list_to_set (seqZ a (b - a + 1)) end.

Definition print_item (i : cpu_item) : string :=
  match i with Single n => fmt_d n | Range a b => fmt_d a +:+ String "-" (fmt_d b) end.

Fixpoint print_items (is_ : list cpu_item) : string :=
  match is_ with
  | [] => ""
  | [i] => print_item i
  | i :: rest => print_item i +:+ String "," (print_items rest)
  end.

(** The characters of a printed item. *)
Definition item_char (a : ascii) : bool := is_digit a || bool_decide (a = "-"%char).

Lemma print_item_chars i : item_ok i → all_chars item_char (print_item i) = true.
Proof.
  assert (Hd : ∀ n, 0 ≤ n → all_chars item_char (fmt_d n) = true).
  { intros n Hn. eapply all_chars_impl, fmt_d_digits, Hn. intros a Ha. unfold item_char. by rewrite Ha. }
  destruct i as [n|a b]; simpl; [intros H; apply Hd; lia|]. intros H.
  rewrite all_chars_app. cbn [all_chars]. rewrite !Hd by lia. done.
Qed.

Lemma print_item_nonempty i : item_ok i → print_item i ≠ "".
Proof.
  assert (Hd : ∀ n, 0 ≤ n < two63 → fmt_d n ≠ "").
  { intros n Hn H. pose proof (Atoi_fmt_d n Hn) as Ha. rewrite H in Ha. done. }
  destruct i as [n|a b]; simpl; [intros H; apply Hd; lia|]. intros H E.
  destruct (fmt_d a) eqn:Ea; [|done]. apply (Hd a); [lia|done].
Qed.

(** No character of an item is white space or a comma. *)
Lemma item_char_not a : item_char a = true → is_space a = false ∧ a ≠ ","%char.
Proof.
  unfold item_char. intros H. apply orb_true_iff in H as [H|H].
  - split; [|intros ->; done]. unfold is_digit, is_space in *. set (k := nat_of_ascii a) in *.
    apply andb_true_iff in H as [H1%Nat.leb_le H2%Nat.leb_le].
    apply orb_false_iff. split; [apply Nat.eqb_neq; lia|].
    apply andb_false_iff. right. apply Nat.leb_gt. lia.
  - apply bool_decide_eq_true in H as ->. done.
Qed.

Lemma TrimSpace_item s : all_chars item_char s = true → TrimSpace s = s.
Proof.
  intros H. apply TrimSpace_id. eapply all_chars_impl, H. intros a Ha.
  by rewrite (proj1 (item_char_not a Ha)).
Qed.

Lemma parse_print_item i : item_ok i → parse_part (print_item i) = PCpus (item_cpus i).
Proof.
  assert (Hdash : ∀ n, 0 ≤ n → all_chars (neq_char "-"%char) (fmt_d n) = true).
  { intros n Hn. eapply all_chars_impl, fmt_d_digits, Hn. intros a Ha. unfold neq_char.
    case_bool_decide; [subst; done|done]. }
  assert (Htrim : ∀ n, 0 ≤ n → TrimSpace (fmt_d n) = fmt_d n).
  { intros n Hn. apply TrimSpace_item. eapply all_chars_impl, fmt_d_digits, Hn. intros a Ha.
    unfold item_char. by rewrite Ha. }
  destruct i as [n|a b]; simpl; intros H; unfold parse_part.
  - rewrite Contains_char_none by (apply Hdash; lia). rewrite Atoi_fmt_d by lia. simpl.
    by rewrite (proj2 (Z.ltb_ge _ _)) by lia.
  - rewrite Contains_char_app, SplitN_2 by (apply Hdash; lia). rewrite !Htrim, !Atoi_fmt_d by lia. simpl.
    rewrite !(proj2 (Z.ltb_ge _ _)) by lia. unfold range_cpus.
    by rewrite (proj2 (Z.eqb_neq _ _)) by lia.
Qed.

Lemma Split_print_items is_ : is_ ≠ [] → Forall item_ok is_ →
  Split (print_items is_) ","%char = print_item <$> is_.
Proof.
  intros Hne Hok. assert (Hc : ∀ i, item_ok i → all_chars (neq_char ","%char) (print_item i) = true).
  { intros i Hi. eapply all_chars_impl, print_item_chars, Hi. intros a Ha. unfold neq_char.
    case_bool_decide; [|done]. by apply item_char_not in Ha as [_ ?]. }
  induction is_ as [|i rest IH]; [done|]. inversion_clear Hok.
  destruct rest as [|j rest]; [simpl; by rewrite Split_last by auto|].
  change (print_items (i :: j :: rest)) with (print_item i +:+ String "," (print_items (j :: rest))).
  rewrite Split_cons by auto. rewrite IH by done. done.
Qed.

Lemma parse_print_items is_ acc : Forall item_ok is_ →
  parse_parts (print_item <$> is_) acc = PCpus (acc ∪ ⋃ (item_cpus <$> is_)).
Proof.
  intros Hok. revert acc. induction Hok as [|i rest Hi Hr IH]; intros acc.
  { simpl. f_equal. by rewrite union_empty_r_L. }
  cbn [fmap list_fmap parse_parts]. rewrite TrimSpace_item by (by apply print_item_chars).
  destruct (String.eqb_spec (print_item i) "") as [E|_]; [by apply print_item_nonempty in E|].
  rewrite parse_print_item by done. rewrite IH. f_equal. rewrite <- (assoc_L (∪)). done.
Qed.

Lemma print_items_trimmed is_ : is_ ≠ [] → Forall item_ok is_ →
  TrimSpace (print_items is_) = print_items is_ ∧ print_items is_ ≠ "".
Proof.
  intros Hne Hok. assert (Hs : all_chars (λ a, negb (is_space a)) (print_items is_) = true).
  { clear Hne. assert (Hc : ∀ i, item_ok i → all_chars (λ a, negb (is_space a)) (print_item i) = true).
    { intros i Hi. eapply all_chars_impl, print_item_chars, Hi. intros a Ha.
      by rewrite (proj1 (item_char_not a Ha)). }
    induction Hok as [|i rest Hi Hr IH]; [done|]. destruct rest as [|j rest]; [by apply Hc|].
    change (print_items (i :: j :: rest)) with (print_item i +:+ String "," (print_items (j :: rest))).
    rewrite all_chars_app. cbn [all_chars]. rewrite Hc by done. by rewrite IH. }
  split; [by apply TrimSpace_id|]. destruct is_ as [|i rest]; [done|]. inversion_clear Hok.
  destruct rest as [|j rest]; [by apply print_item_nonempty|].
  cbn [print_items]. intros E. destruct (print_item i) eqn:Ei; [by apply (print_item_nonempty i)|done].
Qed.

(** The CPUs of such items are fewer than the largest int. *)
Lemma items_size is_ : Forall item_ok is_ →
  int64_range (Z.of_nat (size (⋃ (item_cpus <$> is_)))).
Proof.
  intros Hok.
  assert (Hsub : ⋃ (item_cpus <$> is_) ⊆ (list_to_set (seqZ 0 (two63 - 1)) : gset Z)).
  { intros x (X & HX & Hx)%elem_of_union_list. apply list_elem_of_fmap in HX as (i & -> & Hi).
    rewrite Forall_forall in Hok. apply Hok in Hi. apply elem_of_list_to_set, elem_of_seqZ.
    destruct i as [n|a b]; simpl in *.
    - apply elem_of_singleton in Hx. lia.
    - apply elem_of_list_to_set, elem_of_seqZ in Hx. lia. }
  apply subseteq_size in Hsub. rewrite size_list_to_set, length_seqZ in Hsub by apply NoDup_seqZ.
  unfold int64_range, two63 in *. lia.
Qed.

Theorem parseCPUSet_counts is_ : is_ ≠ [] → Forall item_ok is_ →
  parseCPUSet (print_items is_) = Some (Z.of_nat (size (⋃ (item_cpus <$> is_)))).
Proof.
  intros Hne Hok. destruct (print_items_trimmed is_ Hne Hok) as [Ht Hn]. unfold parseCPUSet. rewrite Ht.
  destruct (String.eqb_spec (print_items is_) ""); [done|].
  rewrite Split_print_items, parse_print_items by done. rewrite union_empty_l_L.
  by rewrite int64_wrap_id by (by apply items_size).
Qed.

Lemma parseCPUSet_counts_witness :
  parseCPUSet "0-3,2,8-11" = Some (Z.of_nat (size (⋃ (item_cpus <$> [Range 0 3; Single 2; Range 8 11]))))
  ∧ parseCPUSet "0-3,2,8-11" = Some 8 ∧ parseCPUSet " 0-3 , 8-11 " = Some 8 ∧ parseCPUSet "0-3-5" = Some 0.
Proof.
  split; [|vm_compute; done].
  exact (parseCPUSet_counts [Range 0 3; Single 2; Range 8 11] ltac:(discriminate)
    ltac:(repeat constructor; vm_compute; try discriminate; done)).
Defined.

(** A range up to the largest int is accepted, and computing the configuration
    never returns. *)
Theorem cpuset_range_never_ends hostCPUs meminfo limit :
  parseCPUSet "0-9223372036854775807" = None
  ∧ ComputeConfig hostCPUs meminfo
      (Some (mkSpec (Some (Some (mkLinuxResources (Some (mkLinuxCPU None None "0-9223372036854775807")) limit)))))
    = None
  ∧ ∀ fuel, cpu_loop fuel 0 9223372036854775807 ∅ = None.
Proof.
  split; [vm_compute; reflexivity|]. split; [vm_compute; reflexivity|].
  intros fuel. by apply (cpu_loop_never_ends fuel 0 ∅).
Qed.
