(* ===== verification/Vsock.v ===== *)
(** The vsock CID allocator: internal/vsock/allocator.go.

    Shims of one host share a directory of lock files, one per CID, under the
    kernel's flock; each operation is a [prog] of the system calls it makes, so
    that shims interleave between any two of them.  [host] is what they share.
    Times are wall-clock nanoseconds. *)
From S2P Require Import Prelude Conc GoStrings.
From Stdlib Require Import Ascii.
Open Scope Z_scope.
Open Scope prog_scope.

Record cidMetadata := mkMeta {
  PID : Z;
  AllocatedAt : option Z;
  ReleasedAt : option Z
}.
Definition zeroMetadata : cidMetadata := mkMeta 0 None None.

(** A lock file: whether some open file description holds its lock, and what its
    content decodes to ([None]: nothing that decodes). *)
Record lockfile := mkLock { lk_held : bool; lk_meta : option cidMetadata }.
Definition newLock : lockfile := mkLock false None.

(** What [writeMetadata] meets. *)
Inductive write_outcome := WriteOk | TruncateFails | EncodeFails.

(** A process of /proc: the name of its directory, and its command line when it
    can be opened. *)
Record proc := mkProc { p_entry : string; p_cmdline : option string }.

Record host := mkHost {
  h_files : gmap Z lockfile;
  h_now : Z;
  h_procs : option (list proc);
  h_mkdir_ok : bool;
  h_open_ok : Z → bool;
  h_write : Z → write_outcome
}.

Definition file (h : host) (cid : Z) : lockfile := default newLock (h_files h !! cid).
Definition set_file (h : host) (cid : Z) (f : lockfile) : host :=
  mkHost (<[cid := f]> (h_files h)) (h_now h) (h_procs h) (h_mkdir_ok h) (h_open_ok h) (h_write h).

Record Allocator := mkAllocator { minCID : Z; maxCID : Z; cooldown : Z }.

(** A lease; [l_open] is whether [file] is not nil. *)
Record Lease := mkLease { l_CID : Z; l_open : bool }.

(** ** /proc *)

Definition is_word (a : ascii) : bool :=
  let n := nat_of_ascii a in
  is_digit a || ((65 <=? n)%nat && (n <=? 90)%nat) || ((97 <=? n)%nat && (n <=? 122)%nat) || (n =? 95)%nat.

(** The rest of the text after a digit is at a word boundary. *)
Definition boundary (s : string) : bool :=
  match s with EmptyString => true | String a _ => negb (is_word a) end.

(** [guest[-_]cid[=:]%d\b] at the start of the text. *)
Definition match_here (cid : Z) (s : string) : bool :=
  existsb (λ p, match CutPrefix p s with Some r => boundary r | None => false end)
    ["guest-cid=" +:+ fmt_d cid; "guest-cid:" +:+ fmt_d cid;
     "guest_cid=" +:+ fmt_d cid; "guest_cid:" +:+ fmt_d cid]%string.

(** [pattern.MatchString] *)
Fixpoint match_string (cid : Z) (s : string) : bool :=
  match_here cid s || match s with EmptyString => false | String _ s' => match_string cid s' end.

(** The tokens [scanNullTerminated] splits the command line into: an empty rest
    at the end gives none. *)
Definition scan_args (cmdline : string) : list string :=
  match reverse (Split cmdline zero) with
  | EmptyString :: rest => reverse rest
  | l => reverse l
  end.

Definition is_pid_entry (s : string) : bool :=
  match s with EmptyString => false | String a _ => is_digit a end.

Definition isCIDInUseByQEMU (cid : Z) (procs : option (list proc)) : bool :=
  match procs with
  | None => false
  | Some ps =>
      existsb (λ p, is_pid_entry (p_entry p) &&
                    match p_cmdline p with
                    | None => false
                    | Some c => existsb (match_string cid) (scan_args c)
                    end) ps
  end.

(** ** Metadata *)

Definition isCoolingDown (now : Z) (meta : cidMetadata) (cooldown : Z) : bool :=
  if cooldown <=? 0 then false
  else match ReleasedAt meta, AllocatedAt meta with
       | Some last, _ => now - last <? cooldown
       | None, Some last => now - last <? cooldown
       | None, None => false
       end.

(** Both run with the lock of the file held. *)
Definition readMetadata (cid : Z) (h : host) : cidMetadata * host :=
  (default zeroMetadata (lk_meta (file h cid)), h).

(** The flag is whether it succeeded. *)
Definition writeMetadata (cid : Z) (meta : cidMetadata) (h : host) : bool * host :=
  match h_write h cid with
  | TruncateFails => (false, h)
  | EncodeFails => (false, set_file h cid (mkLock (lk_held (file h cid)) None))
  | WriteOk => (true, set_file h cid (mkLock (lk_held (file h cid)) (Some meta)))
  end.

(** ** System calls *)

(** [os.OpenFile] with O_CREATE: creates the file empty when it is missing. *)
Definition open_file (cid : Z) (h : host) : bool * host :=
  if h_open_ok h cid then (true, set_file h cid (file h cid)) else (false, h).

Definition flock_ex_nb (cid : Z) (h : host) : bool * host :=
  if lk_held (file h cid) then (false, h)
  else (true, set_file h cid (mkLock true (lk_meta (file h cid)))).

Definition flock_un (cid : Z) (h : host) : unit * host :=
  (tt, set_file h cid (mkLock false (lk_meta (file h cid)))).

(** ** Allocate and Release *)

Abbreviation hprog := (prog host).

(** One iteration of the loop: whether the CID was taken. *)
Definition try_cid (a : Allocator) (pid now cid : Z) : hprog bool :=
  opened <- atomically (open_file cid) ;;
  if negb opened then Ret false else
  locked <- atomically (flock_ex_nb cid) ;;
  if negb locked then Ret false else
  meta <- atomically (readMetadata cid) ;;
  if isCoolingDown now meta (cooldown a) then _ <- atomically (flock_un cid) ;; Ret false else
  used <- atomically (λ h, (isCIDInUseByQEMU cid (h_procs h), h)) ;;
  if (used : bool) then _ <- atomically (flock_un cid) ;; Ret false else
  written <- atomically (writeMetadata cid (mkMeta pid (Some now) None)) ;;
  if negb written then _ <- atomically (flock_un cid) ;; Ret false else
  Ret true.

Definition noCID (a : Allocator) : error :=
  mkError ErrUnknown ("no available vsock CID in range [" +:+ fmt_d (minCID a) +:+ ", "
                        +:+ fmt_d (maxCID a) +:+ "]").

(** The loop over a uint32; [None] when the fuel runs out. *)
Fixpoint alloc_loop (a : Allocator) (pid now : Z) (fuel : nat) (cid : Z) : hprog (option (res Lease)) :=
  match fuel with
  | O => Ret None
  | S f =>
      if maxCID a <? cid then Ret (Some (Err (noCID a)))
      else
        taken <- try_cid a pid now cid ;;
        if (taken : bool) then Ret (Some (Ok (mkLease cid true)))
        else alloc_loop a pid now f (uint32_wrap (cid + 1))
  end.

(** One iteration per CID, and the last test. *)
Definition alloc_fuel (a : Allocator) : nat := S (Z.to_nat (maxCID a - minCID a + 1)).

Definition Allocate (a : Allocator) (pid : Z) : hprog (option (res Lease)) :=
  made <- atomically (λ h, (h_mkdir_ok h, h)) ;;
  if negb (made : bool)
  then Ret (Some (Err (mkError ErrUnknown "failed to create CID lock directory")))
  else
    now <- atomically (λ h, (h_now h, h)) ;;
    alloc_loop a pid now (alloc_fuel a) (minCID a).

(** Returns the lease as it is afterwards; the error of [Close] is not modelled. *)
Definition Release (l : Lease) (pid : Z) : hprog Lease :=
  if negb (l_open l) then Ret l else
  meta <- atomically (readMetadata (l_CID l)) ;;
  now <- atomically (λ h, (h_now h, h)) ;;
  _ <- atomically (writeMetadata (l_CID l)
         (mkMeta pid (Some (default now (AllocatedAt meta))) (Some now))) ;;
  _ <- atomically (flock_un (l_CID l)) ;;
  Ret (mkLease (l_CID l) false).

(** ** The lock protocol *)

Abbreviation held h cid := (lk_held (file h cid)).

(** Two hosts with the same locks. *)
Definition same_locks (h h' : host) : Prop := ∀ d, held h' d = held h d.

Lemma file_set_file h cid f d : file (set_file h cid f) d = if decide (d = cid) then f else file h d.
Proof.
  unfold file. simpl. case_decide as Hd; [subst; by rewrite lookup_insert_eq|].
  by rewrite lookup_insert_ne.
Qed.

Lemma held_set_file h cid b m d :
  held (set_file h cid (mkLock b m)) d = if decide (d = cid) then b else held h d.
Proof. rewrite file_set_file. by case_decide. Qed.

Lemma same_locks_set h cid m : same_locks h (set_file h cid (mkLock (held h cid) m)).
Proof. intros d. rewrite held_set_file. case_decide; by subst. Qed.

Lemma open_file_locks cid h : same_locks h (open_file cid h).2.
Proof.
  unfold open_file. destruct (h_open_ok h cid); [|done]. intros d. simpl. rewrite file_set_file.
  case_decide; by subst.
Qed.

Lemma writeMetadata_locks cid meta h : same_locks h (writeMetadata cid meta h).2.
Proof. unfold writeMetadata. destruct (h_write h cid); [apply same_locks_set|done|apply same_locks_set]. Qed.

(** The CID whose lock a shim holds. *)
Definition lock_step (m : option Z) (h h' : host) (m' : option Z) : Prop :=
  match m, m' with
  | None, Some c => held h c = false ∧ ∀ d, held h' d = if decide (d = c) then true else held h d
  | Some c, None => ∀ d, held h' d = if decide (d = c) then false else held h d
  | _, _ => m = m' ∧ same_locks h h'
  end.

Definition lock_pre (m : option Z) (h : host) : Prop :=
  match m with Some c => held h c = true | None => True end.

(** Every shim that relies on a lock has it, and no two rely on the same. *)
Definition locks_inv (h : host) (ms : list (option Z)) : Prop :=
  (∀ i c, ms !! i = Some (Some c) → held h c = true)
  ∧ (∀ i j c, ms !! i = Some (Some c) → ms !! j = Some (Some c) → i = j).

Lemma locks_inv_pre h ms i m : locks_inv h ms → ms !! i = Some m → lock_pre m h.
Proof. intros [H _] Hi. destruct m; [by eapply H|done]. Qed.

Lemma locks_inv_step h h' ms i m m' :
  locks_inv h ms → ms !! i = Some m → lock_step m h h' m' → locks_inv h' (<[i := m']> ms).
Proof.
  intros [H1 H2] Hi Hs.
  assert (Hlt : (i < length ms)%nat) by (by eapply lookup_lt_Some).
  assert (Hold : ∀ j c, <[i := m']> ms !! j = Some (Some c) → i ≠ j ∧ ms !! j = Some (Some c) ∨ i = j ∧ m' = Some c).
  { intros j c Hj. destruct (decide (i = j)) as [->|Hne].
    - right. rewrite list_lookup_insert_eq in Hj by done. by simplify_eq.
    - left. by rewrite list_lookup_insert_ne in Hj. }
  split.
  - intros j c [[Hne Hj]|[<- ->]]%Hold.
    + destruct m as [k|], m' as [k'|]; simpl in Hs.
      * destruct Hs as [[= <-] Hs]. rewrite Hs. by eapply H1.
      * rewrite Hs. case_decide; [|by eapply H1]. subst. by destruct (Hne (H2 i j k Hi Hj)).
      * destruct Hs as [Hf Hs]. rewrite Hs. case_decide; [done|]. by eapply H1.
      * destruct Hs as [_ Hs]. rewrite Hs. by eapply H1.
    + destruct m as [k|]; simpl in Hs.
      * destruct Hs as [[= ->] Hs]. rewrite Hs. by eapply H1.
      * destruct Hs as [_ Hs]. rewrite Hs. by rewrite decide_True.
  - assert (Hnew : ∀ j c, i ≠ j → ms !! j = Some (Some c) → m' = Some c → i = j).
    { intros j c Hne Hj ->. destruct m as [k|]; simpl in Hs.
      - destruct Hs as [[= ->] _]. by eapply H2.
      - destruct Hs as [Hf _]. pose proof (H1 j c Hj). congruence. }
    intros j k c [[Hj1 Hj]|[Hj1 Hj]]%Hold [[Hk1 Hk]|[Hk1 Hk]]%Hold.
    + by eapply H2.
    + rewrite <- Hk1. symmetry. by eapply Hnew.
    + rewrite <- Hj1. by eapply Hnew.
    + by rewrite <- Hj1, <- Hk1.
Qed.

Abbreviation follows := (obeys lock_step lock_pre).

Lemma follows_quiet {A B} m (f : host → B * host) (k : B → hprog A) Q :
  (∀ h, same_locks h (f h).2) → (∀ b, follows m (k b) Q) → follows m (Act f k) Q.
Proof.
  intros Hf Hk h _. exists m. split; [|apply Hk]. by destruct m; split.
Qed.

Lemma follows_unlock {A} c (k : unit → hprog A) Q :
  follows None (k tt) Q → follows (Some c) (Act (flock_un c) k) Q.
Proof.
  intros Hk h _. exists None. split; [|done]. intros d. simpl. apply held_set_file.
Qed.

Lemma follows_try_cid a pid now cid :
  follows None (try_cid a pid now cid) (λ m taken, m = if (taken : bool) then Some cid else None).
Proof.
  unfold try_cid. cbn [pbind atomically].
  apply follows_quiet; [apply open_file_locks|]. intros []; cbn [negb pbind]; [|done].
  intros h _. unfold flock_ex_nb at 1 2. destruct (held h cid) eqn:Hh; cbn [fst snd negb].
  { exists None. by repeat split. }
  exists (Some cid). split; [split; [done|]; intros d; apply held_set_file|]. cbn [pbind].
  apply follows_quiet; [by intros h' d|]. intros meta. destruct (isCoolingDown _ _ _); cbn [pbind].
  { by apply follows_unlock. }
  apply follows_quiet; [by intros h' d|]. intros []; cbn [pbind]; [by apply follows_unlock|].
  apply follows_quiet; [intros; apply writeMetadata_locks|]. intros []; cbn [negb pbind]; [done|].
  by apply follows_unlock.
Qed.

(** What a shim ends with: never out of fuel, a lease in range, and the lock of an
    open lease. *)
Definition ends_ok (a : Allocator) (m : option Z) (r : option (res Lease)) : Prop :=
  match r with
  | Some (Ok l) => minCID a ≤ l_CID l ≤ maxCID a ∧ m = if l_open l then Some (l_CID l) else None
  | Some (Err _) => m = None
  | None => False
  end.

Definition allocator_ok (a : Allocator) : Prop := 0 ≤ minCID a ∧ maxCID a < two32 - 1.

Lemma follows_alloc_loop a pid now fuel cid : allocator_ok a → minCID a ≤ cid →
  Z.max 0 (maxCID a - cid + 1) < Z.of_nat fuel →
  follows None (alloc_loop a pid now fuel cid) (ends_ok a).
Proof.
  intros [Ha1 Ha2]. revert cid. induction fuel as [|f IH]; intros cid Hc Hf; cbn [alloc_loop].
  { simpl. lia. }
  destruct (Z.ltb_spec (maxCID a) cid); [done|].
  apply obeys_bind. eapply obeys_mono, follows_try_cid. intros m [] ->; [by split; [|]|].
  rewrite uint32_wrap_id by (unfold uint32_range; lia). apply IH; lia.
Qed.

Lemma follows_Allocate a pid : allocator_ok a → follows None (Allocate a pid) (ends_ok a).
Proof.
  intros Ha. unfold Allocate. cbn [pbind atomically].
  apply follows_quiet; [by intros h d|]. intros []; cbn [negb pbind]; [|done].
  apply follows_quiet; [by intros h d|]. intros now.
  apply follows_alloc_loop; [done|lia|]. unfold alloc_fuel. lia.
Qed.

Lemma follows_Release l pid : l_open l = true →
  follows (Some (l_CID l)) (Release l pid) (λ m l', m = None ∧ l' = mkLease (l_CID l) false).
Proof.
  intros Hl. unfold Release. rewrite Hl. cbn [negb pbind atomically].
  apply follows_quiet; [by intros h d|]. intros meta.
  apply follows_quiet; [by intros h d|]. intros now.
  apply follows_quiet; [intros; apply writeMetadata_locks|]. intros _.
  by apply follows_unlock.
Qed.

(** What runs on the host: shims that allocate a CID and keep it, shims that
    allocate and release, and the host itself, whose clock and processes change. *)
Inductive party :=
  | Keeps (a : Allocator) (pid : Z)
  | Cycles (a : Allocator) (pid : Z)
  | HostRuns (a : Allocator) (changes : list (Z * option (list proc))).

Definition party_alloc (p : party) : Allocator :=
  match p with Keeps a _ | Cycles a _ | HostRuns a _ => a end.

Definition host_change (c : Z * option (list proc)) (h : host) : unit * host :=
  (tt, mkHost (h_files h) c.1 c.2 (h_mkdir_ok h) (h_open_ok h) (h_write h)).

Definition party_prog (p : party) : hprog (option (res Lease)) :=
  match p with
  | Keeps a pid => Allocate a pid
  | Cycles a pid =>
      r <- Allocate a pid ;;
      match r with
      | Some (Ok l) => l' <- Release l pid ;; Ret (Some (Ok l'))
      | _ => Ret r
      end
  | HostRuns a changes =>
      foldr (λ c k, _ <- atomically (host_change c) ;; k) (Ret (Some (Err (noCID a)))) changes
  end.

Definition holds_lease (ts : list (hprog (option (res Lease)))) (i : nat) (cid : Z) : Prop :=
  ts !! i = Some (Ret (Some (Ok (mkLease cid true)))).

Lemma follows_party p : allocator_ok (party_alloc p) →
  follows None (party_prog p) (ends_ok (party_alloc p)).
Proof.
  intros Ha. destruct p as [a pid|a pid|a changes]; cbn [party_prog party_alloc].
  - by apply follows_Allocate.
  - apply obeys_bind. eapply obeys_mono, follows_Allocate, Ha.
    intros m [[l|e]|]; [|done..]. intros [Hr ->]. destruct (l_open l) eqn:Hl.
    + apply obeys_bind. eapply obeys_mono, follows_Release, Hl. intros m l' [-> ->]. by split.
    + cbn. unfold Release. rewrite Hl. cbn. by rewrite Hl.
  - induction changes as [|c cs IH]; [done|]. cbn [foldr pbind atomically].
    apply follows_quiet; [by intros h d|]. intros _. exact (IH Ha).
Qed.

(** The pool, each goroutine with its own end condition. *)
Lemma parties_explained ps h h' ts :
  Forall (λ p, allocator_ok (party_alloc p)) ps →
  rtc pstep (h, map party_prog ps) (h', ts) →
  ∃ ms, locks_inv h' ms
    ∧ Forall2 (λ m p, follows m p (λ m r, ∃ a, a ∈ map party_alloc ps ∧ ends_ok a m r)) ms ts.
Proof.
  intros Hok Hr.
  refine (explained_rtc lock_step lock_pre _ locks_inv locks_inv_pre locks_inv_step
            (h, map party_prog ps) (h', ts) _ Hr).
  exists (replicate (length ps) None). split.
  { split; [|intros i j c Hi _]; [intros i c Hi|]; by apply lookup_replicate in Hi as [? _]. }
  simpl. apply Forall2_fmap_r. apply Forall2_same_length_lookup_2; [by rewrite length_replicate|].
  intros i m p [-> _]%lookup_replicate Hp. eapply obeys_mono, follows_party.
  - intros m r He. exists (party_alloc p). split; [|done].
    apply list_elem_of_fmap. exists p. split; [done|]. by eapply list_elem_of_lookup_2.
  - by eapply Forall_lookup_1 in Hok.
Qed.

(** C11: Whatever the interleaving of any number of shims allocating and
    releasing CIDs on one host while its clock and processes change: no two
    hold leases of the same CID, the lock of a held lease is held, every
    lease is in its allocator's range, and no allocation loops for ever. *)
Theorem leases_are_exclusive ps h h' ts :
  Forall (λ p, allocator_ok (party_alloc p)) ps →
  rtc pstep (h, map party_prog ps) (h', ts) →
  (∀ i j cid, holds_lease ts i cid → holds_lease ts j cid → i = j)
  ∧ (∀ i cid, holds_lease ts i cid → held h' cid = true)
  ∧ (∀ i l, ts !! i = Some (Ret (Some (Ok l))) →
       ∃ p, p ∈ ps ∧ minCID (party_alloc p) ≤ l_CID l ≤ maxCID (party_alloc p))
  ∧ (∀ i, ts !! i ≠ Some (Ret None)).
Proof.
  intros Hok Hr. destruct (parties_explained ps h h' ts Hok Hr) as (ms & [H1 H2] & Hf).
  assert (Hend : ∀ i r, ts !! i = Some (Ret r) → ∃ m a, ms !! i = Some m ∧ a ∈ map party_alloc ps ∧ ends_ok a m r).
  { intros i r Hi. destruct (Forall2_lookup_r _ _ _ _ _ Hf Hi) as (m & Hm & a & Ha & He). eauto. }
  assert (Hlease : ∀ i cid, holds_lease ts i cid → ms !! i = Some (Some cid)).
  { intros i cid Hi. destruct (Hend _ _ Hi) as (m & a & Hm & _ & [_ ->]). done. }
  split; [|split; [|split]].
  - intros i j cid Hi%Hlease Hj%Hlease. by eapply H2.
  - intros i cid Hi%Hlease. by eapply H1.
  - intros i l Hi. destruct (Hend _ _ Hi) as (m & a & _ & (p & -> & Hp)%list_elem_of_fmap & [Hc _]).
    by exists p.
  - intros i Hi. by destruct (Hend _ _ Hi) as (m & a & _ & _ & []).
Qed.

(** ** One shim alone *)

(** What the loop takes: openable, unlocked, neither cooling down nor used by a
    running QEMU, and writable. *)
Definition available (a : Allocator) (now : Z) (h : host) (cid : Z) : bool :=
  h_open_ok h cid && negb (held h cid)
  && negb (isCoolingDown now (default zeroMetadata (lk_meta (file h cid))) (cooldown a))
  && negb (isCIDInUseByQEMU cid (h_procs h))
  && match h_write h cid with WriteOk => true | _ => false end.

(** Hosts that differ at most in one lock file. *)
Definition differs_at (cid : Z) (h h' : host) : Prop :=
  (∀ d, d ≠ cid → file h' d = file h d)
  ∧ h_now h' = h_now h ∧ h_procs h' = h_procs h ∧ h_mkdir_ok h' = h_mkdir_ok h
  ∧ h_open_ok h' = h_open_ok h ∧ h_write h' = h_write h.

Lemma differs_at_refl cid h : differs_at cid h h.
Proof. by repeat split. Qed.

Lemma differs_at_set cid h h' f : differs_at cid h h' → differs_at cid h (set_file h' cid f).
Proof.
  intros (H1 & H2 & H3 & H4 & H5 & H6). repeat split; try done.
  intros d Hd. rewrite file_set_file, decide_False by done. auto.
Qed.
#[local] Hint Resolve differs_at_refl differs_at_set : spinbox.

Lemma available_differs a now cid h h' d : differs_at cid h h' → d ≠ cid →
  available a now h' d = available a now h d.
Proof.
  intros (H1 & H2 & H3 & H4 & H5 & H6) Hd. unfold available. by rewrite H1, H3, H5, H6 by done.
Qed.

(** The CID was not taken. *)
Ltac not_taken :=
  unfold flock_un; eexists; split; [done|]; split; [by eauto 10 with spinbox|done].

Lemma run_try_cid a pid now cid h :
  ∃ h', run (try_cid a pid now cid) h = (available a now h cid, h') ∧ differs_at cid h h'
    ∧ (available a now h cid = true → file h' cid = mkLock true (Some (mkMeta pid (Some now) None))).
Proof.
  unfold try_cid, available. cbn [pbind atomically run]. unfold open_file at 1.
  destruct (h_open_ok h cid) eqn:Ho; cbn [negb pbind run andb]; [|not_taken].
  unfold flock_ex_nb at 1. rewrite file_set_file, decide_True by done.
  destruct (held h cid) eqn:Hh; cbn [negb pbind run andb]; [not_taken|].
  unfold readMetadata at 1. rewrite file_set_file, decide_True by done. cbn [lk_meta].
  destruct (isCoolingDown _ _ _); cbn [negb pbind run andb]; [not_taken|].
  cbn [h_procs set_file].
  destruct (isCIDInUseByQEMU _ _); cbn [negb pbind run andb]; [not_taken|].
  unfold writeMetadata at 1. cbn [h_write set_file].
  destruct (h_write h cid); cbn [negb pbind run]; [|not_taken..].
  eexists. split; [done|]. split; [by eauto 10 with spinbox|]. intros _.
  rewrite file_set_file, decide_True by done. by rewrite !file_set_file, decide_True by done.
Qed.

(** The lowest available CID from [cid] on. *)
Fixpoint lowest_available (a : Allocator) (now : Z) (h : host) (cids : list Z) : option Z :=
  match cids with
  | [] => None
  | c :: cs => if available a now h c then Some c else lowest_available a now h cs
  end.

Lemma lowest_available_ext a now h h' cids :
  (∀ c, c ∈ cids → available a now h' c = available a now h c) →
  lowest_available a now h' cids = lowest_available a now h cids.
Proof.
  induction cids as [|c cs IH]; intros Hx; [done|]. simpl. rewrite (Hx c) by left.
  rewrite IH; [done|]. intros d Hd. apply Hx. by right.
Qed.

Definition alloc_answer (a : Allocator) (o : option Z) : res Lease :=
  match o with Some c => Ok (mkLease c true) | None => Err (noCID a) end.

Lemma run_alloc_loop a pid now fuel cid h : allocator_ok a → 0 ≤ cid →
  Z.max 0 (maxCID a - cid + 1) < Z.of_nat fuel →
  let o := lowest_available a now h (seqZ cid (maxCID a - cid + 1)) in
  ∃ h', run (alloc_loop a pid now fuel cid) h = (Some (alloc_answer a o), h')
    ∧ ∀ c, o = Some c → file h' c = mkLock true (Some (mkMeta pid (Some now) None)).
Proof.
  intros [Ha1 Ha2]. revert cid h. induction fuel as [|f IH]; intros cid h Hc Hf o; [lia|].
  subst o. cbn [alloc_loop]. destruct (Z.ltb_spec (maxCID a) cid) as [Hlt|Hge].
  { rewrite seqZ_nil by lia. by exists h. }
  rewrite seqZ_cons by lia. cbn [lowest_available]. rewrite run_bind.
  destruct (run_try_cid a pid now cid h) as (h1 & -> & Hd & Hm).
  destruct (available a now h cid); [cbn [run]; exists h1; split; [done|]; intros c [= <-]; auto|].
  rewrite uint32_wrap_id by (unfold uint32_range; lia).
  destruct (IH (cid + 1) h1 ltac:(lia) ltac:(lia)) as (h2 & Hrun & Hfile).
  replace (Z.pred (maxCID a - cid + 1)) with (maxCID a - (cid + 1) + 1) by lia.
  replace (Z.succ cid) with (cid + 1) by lia.
  assert (Heq : lowest_available a now h1 (seqZ (cid + 1) (maxCID a - (cid + 1) + 1))
              = lowest_available a now h (seqZ (cid + 1) (maxCID a - (cid + 1) + 1))).
  { apply lowest_available_ext. intros d Hd'%elem_of_seqZ. eapply available_differs; [done|lia]. }
  rewrite Heq in Hrun, Hfile. by exists h2.
Qed.

Theorem Allocate_takes_lowest_available a pid h : allocator_ok a → h_mkdir_ok h = true →
  let o := lowest_available a (h_now h) h (seqZ (minCID a) (maxCID a - minCID a + 1)) in
  ∃ h', run (Allocate a pid) h =
          (Some (match o with Some c => Ok (mkLease c true) | None => Err (noCID a) end), h')
    ∧ ∀ c, o = Some c → file h' c = mkLock true (Some (mkMeta pid (Some (h_now h)) None)).
Proof.
  intros Ha Hm o. unfold Allocate. cbn [pbind atomically run]. rewrite Hm. cbn [negb pbind run].
  apply (run_alloc_loop a pid (h_now h) (alloc_fuel a) (minCID a) h Ha); [apply Ha|].
  unfold alloc_fuel. lia.
Qed.

Lemma lowest_available_Some a now h cids c :
  lowest_available a now h cids = Some c → available a now h c = true.
Proof.
  induction cids as [|x xs IH]; [done|]. simpl. destruct (available a now h x) eqn:Hx; [|done].
  intros [= <-]. done.
Qed.

Theorem released_cid_rests a l pid pid' h later l' :
  l_open l = true → h_write h (l_CID l) = WriteOk → h_mkdir_ok h = true → allocator_ok a →
  0 < cooldown a → later - h_now h < cooldown a →
  (run (Allocate a pid') (host_change (later, h_procs h) (run (Release l pid) h).2).2).1
    = Some (Ok l') → l_CID l' ≠ l_CID l.
Proof.
  intros Hl Hw Hm Ha Hc Hlater. set (h1 := (run (Release l pid) h).2).
  assert (Hh1 : ∃ meta, lk_meta (file h1 (l_CID l)) = Some meta ∧ ReleasedAt meta = Some (h_now h)
                ∧ h_mkdir_ok h1 = true).
  { subst h1. unfold Release. rewrite Hl. cbn [negb pbind atomically run readMetadata].
    unfold readMetadata, writeMetadata, flock_un. cbn [pbind run]. rewrite Hw. cbn [snd].
    rewrite file_set_file, decide_True by done. cbn [lk_meta].
    rewrite file_set_file, decide_True by done. by eexists. }
  destruct Hh1 as (meta & Hmeta & Hrel & Hm1).
  set (h2 := (host_change (later, h_procs h) h1).2).
  intros Hrun. intros Heq.
  destruct (run_alloc_loop a pid' later (alloc_fuel a) (minCID a) h2 Ha ltac:(apply Ha)
              ltac:(unfold alloc_fuel; lia)) as (h3 & Hr & _).
  unfold Allocate in Hrun. cbn [pbind atomically run] in Hrun.
  change (h_mkdir_ok h2) with (h_mkdir_ok h1) in Hrun. rewrite Hm1 in Hrun. cbn [negb pbind run] in Hrun.
  change (h_now h2) with later in Hrun. rewrite Hr in Hrun. cbn [fst] in Hrun.
  destruct (lowest_available a later h2 _) as [c|] eqn:Hlow; [|done]. simpl in Hrun. simplify_eq.
  apply lowest_available_Some in Hlow. simpl in Heq. subst. unfold available in Hlow.
  change (file h2 (l_CID l)) with (file h1 (l_CID l)) in Hlow. rewrite Hmeta in Hlow.
  change (default zeroMetadata (Some meta)) with meta in Hlow.
  unfold isCoolingDown in Hlow. rewrite (proj2 (Z.leb_gt _ _)) in Hlow by lia.
  rewrite Hrel, (proj2 (Z.ltb_lt _ _)) in Hlow by lia. cbn [negb] in Hlow.
  by rewrite andb_false_r in Hlow.
Qed.

(** ** The command lines of running machines *)

Definition cid_patterns (cid : Z) : list string :=
  ["guest-cid=" +:+ fmt_d cid; "guest-cid:" +:+ fmt_d cid;
   "guest_cid=" +:+ fmt_d cid; "guest_cid:" +:+ fmt_d cid]%string.

Lemma existsb_elem {A} (f : A → bool) l : existsb f l = true ↔ ∃ x, x ∈ l ∧ f x = true.
Proof. rewrite existsb_exists. by setoid_rewrite list_elem_of_In. Qed.

Lemma match_here_spec cid s :
  match_here cid s = true ↔ ∃ pat post, pat ∈ cid_patterns cid ∧ s = pat +:+ post ∧ boundary post = true.
Proof.
  unfold match_here. fold (cid_patterns cid). rewrite existsb_elem. split.
  - intros (pat & Hp & H). destruct (CutPrefix pat s) as [post|] eqn:Hc; [|done].
    apply CutPrefix_Some in Hc. by exists pat, post.
  - intros (pat & post & Hp & -> & Hb). exists pat. split; [done|]. by rewrite CutPrefix_app.
Qed.

(** Somewhere in the argument: one of the four spellings, not followed by a word
    character. *)
Definition names_cid (cid : Z) (arg : string) : Prop :=
  ∃ pre pat post, pat ∈ cid_patterns cid ∧ arg = pre +:+ pat +:+ post ∧ boundary post = true.

Lemma match_string_spec cid s : match_string cid s = true ↔ names_cid cid s.
Proof.
  unfold names_cid. induction s as [|a s IH]; cbn [match_string]; rewrite orb_true_iff, match_here_spec.
  - split.
    + intros [(pat & post & Hp & H & Hb)|]; [|done]. by exists EmptyString, pat, post.
    + intros (pre & pat & post & Hp & H & Hb). left. exists pat, post. by destruct pre.
  - rewrite IH. split.
    + intros [(pat & post & Hp & H & Hb)|(pre & pat & post & Hp & H & Hb)].
      * by exists EmptyString, pat, post.
      * exists (String a pre), pat, post. split; [done|]. split; [|done]. by rewrite H.
    + intros (pre & pat & post & Hp & H & Hb). destruct pre as [|b pre].
      * left. by exists pat, post.
      * right. exists pre, pat, post. split; [done|]. split; [|done]. by injection H.
Qed.

Theorem cid_in_use_iff cid procs :
  isCIDInUseByQEMU cid (Some procs) = true ↔
    ∃ p c arg, p ∈ procs ∧ is_pid_entry (p_entry p) = true ∧ p_cmdline p = Some c
      ∧ arg ∈ scan_args c ∧ names_cid cid arg.
Proof.
  unfold isCIDInUseByQEMU. rewrite existsb_elem. split.
  - intros (p & Hp & [He H]%andb_true_iff). destruct (p_cmdline p) as [c|] eqn:Hc; [|done].
    apply existsb_elem in H as (arg & Ha & Hm%match_string_spec). by exists p, c, arg.
  - intros (p & c & arg & Hp & He & Hc & Ha & Hm%match_string_spec). exists p. split; [done|].
    rewrite He, Hc. simpl. apply existsb_elem. by exists arg.
Qed.

(** ** Witnesses *)

Definition demo_host : host :=
  mkHost {[ 4 := mkLock true None; 5 := mkLock false (Some (mkMeta 7 (Some 0) (Some 90))) ]} 100
    (Some [mkProc "self" None;
           mkProc "812" (Some ("qemu" +:+ String zero ("vhost-vsock-pci,guest-cid=6" +:+ String zero "")))])
    true (λ _, true) (λ _, WriteOk).

Definition demo_alloc : Allocator := mkAllocator 4 9 20.

Lemma leases_are_exclusive_witness :
  let c := sched (replicate 10 0 ++ replicate 4 1 ++ replicate 8 0)%nat
             (demo_host, map party_prog [Keeps demo_alloc 10; Keeps demo_alloc 11]) in
  holds_lease c.2 0 7 ∧ held c.1 7 = true.
Proof.
  intros c. assert (Hl : holds_lease c.2 0 7) by (vm_compute; reflexivity). split; [exact Hl|].
  assert (Hr : rtc pstep (demo_host, map party_prog [Keeps demo_alloc 10; Keeps demo_alloc 11]) (c.1, c.2)).
  { rewrite <- surjective_pairing. apply sched_steps. }
  refine (proj1 (proj2 (leases_are_exclusive [Keeps demo_alloc 10; Keeps demo_alloc 11] demo_host c.1 c.2 _ Hr)) 0%nat 7 Hl).
  repeat constructor; vm_compute; try discriminate; reflexivity.
Defined.

Lemma demo_lowest :
  lowest_available demo_alloc (h_now demo_host) demo_host
    (seqZ (minCID demo_alloc) (maxCID demo_alloc - minCID demo_alloc + 1)) = Some 7.
Proof. vm_compute. reflexivity. Qed.

Lemma Allocate_takes_lowest_available_witness :
  ∃ h', run (Allocate demo_alloc 10) demo_host = (Some (Ok (mkLease 7 true)), h')
        ∧ file h' 7 = mkLock true (Some (mkMeta 10 (Some (h_now demo_host)) None)).
Proof.
  assert (Ha : allocator_ok demo_alloc) by (vm_compute; split; [discriminate|reflexivity]).
  pose proof (Allocate_takes_lowest_available demo_alloc 10 demo_host Ha eq_refl) as H.
  cbv zeta in H. rewrite demo_lowest in H.
  destruct H as (h' & Hr & Hf). exists h'. split; [exact Hr|]. exact (Hf 7 eq_refl).
Defined.

Lemma released_cid_rests_witness :
  (run (Allocate demo_alloc 11)
     (host_change (110, h_procs demo_host) (run (Release (mkLease 4 true) 10) demo_host).2).2).1
    = Some (Ok (mkLease 5 true)) ∧ 5 ≠ 4.
Proof.
  assert (Hrun : (run (Allocate demo_alloc 11)
     (host_change (110, h_procs demo_host) (run (Release (mkLease 4 true) 10) demo_host).2).2).1
    = Some (Ok (mkLease 5 true))) by (vm_compute; reflexivity).
  split; [exact Hrun|].
  exact (released_cid_rests demo_alloc (mkLease 4 true) 10 11 demo_host 110 (mkLease 5 true)
    eq_refl eq_refl eq_refl ltac:(vm_compute; split; [discriminate|reflexivity])
    ltac:(reflexivity) ltac:(reflexivity) Hrun).
Defined.
