(* ===== verification/QemuInstance.v ===== *)
(** Starting and stopping the QEMU process: [Start] of
    internal/host/vm/qemu/start.go and [Shutdown] of shutdown.go.

    [Instance] holds the handles the Go struct holds, and what they stand for on
    the host: the process, the state directory, the FIFO.  What the callees answer
    is an argument ([StartEnv], [ShutdownEnv]); a non-nil pointer is [true]. *)
From S2P Require Import Prelude.

Inductive vmState := vmStateNew | vmStateStarting | vmStateRunning | vmStateShutdown.

#[export] Instance vmState_eq_dec : EqDecision vmState.
Proof. solve_decision. Defined.

(** What is done to the outside, in order. *)
Inductive qevent :=
  | EvExec | EvKill | EvQuit
  | EvPrepareGuest | EvCtrlAltDelete | EvPowerdown
  | EvCancelMonitors
  | EvCloseClient | EvCloseVsock | EvCloseFifo | EvCloseQMP | EvCloseConsole
  | EvRemoveFifo | EvCloseTaps | EvReleaseLease | EvRemoveStateDir.

#[export] Instance qevent_eq_dec : EqDecision qevent.
Proof. solve_decision. Defined.

Record Instance_ := mkInstance {
  q_state : vmState;
  q_cmd : bool;
  q_qmpClient : bool;
  q_client : bool;
  q_vsockConn : bool;
  q_consoleFile : bool;
  q_consoleFifo : bool;
  q_taps : list bool;
  q_cidLease : bool;
  q_runCancel : bool;
  q_paused : bool;
  (** on the host *)
  w_process : bool;
  w_stateDir : bool;
  w_fifo : bool;
  w_log : list qevent
}.

Definition set_state st q := mkInstance st (q_cmd q) (q_qmpClient q) (q_client q) (q_vsockConn q)
  (q_consoleFile q) (q_consoleFifo q) (q_taps q) (q_cidLease q) (q_runCancel q) (q_paused q)
  (w_process q) (w_stateDir q) (w_fifo q) (w_log q).
Definition set_cmd b q := mkInstance (q_state q) b (q_qmpClient q) (q_client q) (q_vsockConn q)
  (q_consoleFile q) (q_consoleFifo q) (q_taps q) (q_cidLease q) (q_runCancel q) (q_paused q)
  (w_process q) (w_stateDir q) (w_fifo q) (w_log q).
Definition set_qmp b q := mkInstance (q_state q) (q_cmd q) b (q_client q) (q_vsockConn q)
  (q_consoleFile q) (q_consoleFifo q) (q_taps q) (q_cidLease q) (q_runCancel q) (q_paused q)
  (w_process q) (w_stateDir q) (w_fifo q) (w_log q).
Definition set_client b q := mkInstance (q_state q) (q_cmd q) (q_qmpClient q) b (q_vsockConn q)
  (q_consoleFile q) (q_consoleFifo q) (q_taps q) (q_cidLease q) (q_runCancel q) (q_paused q)
  (w_process q) (w_stateDir q) (w_fifo q) (w_log q).
Definition set_vsock b q := mkInstance (q_state q) (q_cmd q) (q_qmpClient q) (q_client q) b
  (q_consoleFile q) (q_consoleFifo q) (q_taps q) (q_cidLease q) (q_runCancel q) (q_paused q)
  (w_process q) (w_stateDir q) (w_fifo q) (w_log q).
Definition set_console b q := mkInstance (q_state q) (q_cmd q) (q_qmpClient q) (q_client q) (q_vsockConn q)
  b (q_consoleFifo q) (q_taps q) (q_cidLease q) (q_runCancel q) (q_paused q)
  (w_process q) (w_stateDir q) (w_fifo q) (w_log q).
Definition set_fifo b q := mkInstance (q_state q) (q_cmd q) (q_qmpClient q) (q_client q) (q_vsockConn q)
  (q_consoleFile q) b (q_taps q) (q_cidLease q) (q_runCancel q) (q_paused q)
  (w_process q) (w_stateDir q) (w_fifo q) (w_log q).
Definition set_taps l q := mkInstance (q_state q) (q_cmd q) (q_qmpClient q) (q_client q) (q_vsockConn q)
  (q_consoleFile q) (q_consoleFifo q) l (q_cidLease q) (q_runCancel q) (q_paused q)
  (w_process q) (w_stateDir q) (w_fifo q) (w_log q).
Definition set_lease b q := mkInstance (q_state q) (q_cmd q) (q_qmpClient q) (q_client q) (q_vsockConn q)
  (q_consoleFile q) (q_consoleFifo q) (q_taps q) b (q_runCancel q) (q_paused q)
  (w_process q) (w_stateDir q) (w_fifo q) (w_log q).
Definition set_runCancel b q := mkInstance (q_state q) (q_cmd q) (q_qmpClient q) (q_client q) (q_vsockConn q)
  (q_consoleFile q) (q_consoleFifo q) (q_taps q) (q_cidLease q) b (q_paused q)
  (w_process q) (w_stateDir q) (w_fifo q) (w_log q).
Definition set_process b q := mkInstance (q_state q) (q_cmd q) (q_qmpClient q) (q_client q) (q_vsockConn q)
  (q_consoleFile q) (q_consoleFifo q) (q_taps q) (q_cidLease q) (q_runCancel q) (q_paused q)
  b (w_stateDir q) (w_fifo q) (w_log q).
Definition set_stateDir b q := mkInstance (q_state q) (q_cmd q) (q_qmpClient q) (q_client q) (q_vsockConn q)
  (q_consoleFile q) (q_consoleFifo q) (q_taps q) (q_cidLease q) (q_runCancel q) (q_paused q)
  (w_process q) b (w_fifo q) (w_log q).
Definition set_fifoPath b q := mkInstance (q_state q) (q_cmd q) (q_qmpClient q) (q_client q) (q_vsockConn q)
  (q_consoleFile q) (q_consoleFifo q) (q_taps q) (q_cidLease q) (q_runCancel q) (q_paused q)
  (w_process q) (w_stateDir q) b (w_log q).
Definition log_ev e q := mkInstance (q_state q) (q_cmd q) (q_qmpClient q) (q_client q) (q_vsockConn q)
  (q_consoleFile q) (q_consoleFifo q) (q_taps q) (q_cidLease q) (q_runCancel q) (q_paused q)
  (w_process q) (w_stateDir q) (w_fifo q) (w_log q ++ [e]).

(** [if handle != nil { handle.Close(); handle = nil }] *)
Definition close_client q := if q_client q then set_client false (log_ev EvCloseClient q) else q.
Definition close_vsock q := if q_vsockConn q then set_vsock false (log_ev EvCloseVsock q) else q.
Definition close_qmp q := if q_qmpClient q then set_qmp false (log_ev EvCloseQMP q) else q.
Definition close_console q := if q_consoleFile q then set_console false (log_ev EvCloseConsole q) else q.
Definition close_fifo q := if q_consoleFifo q then set_fifo false (log_ev EvCloseFifo q) else q.
Definition release_lease q := if q_cidLease q then set_lease false (log_ev EvReleaseLease q) else q.
Definition remove_fifo q := set_fifoPath false (log_ev EvRemoveFifo q).
Definition remove_stateDir q := set_fifoPath false (set_stateDir false (log_ev EvRemoveStateDir q)).

Definition closeTAPFilesLocked (q : Instance_) : Instance_ :=
  set_taps ((λ _, false) <$> q_taps q) (log_ev EvCloseTaps q).

Definition kill (q : Instance_) : Instance_ := set_process false (log_ev EvKill q).

(** ** Start *)

Record StartEnv := mkStartEnv {
  se_validate : option error;
  se_mkfifo : option error;
  se_createLog : option error;
  se_netns : bool;
  se_taps : list (option error);
  se_spec : option error;
  se_args : option error;
  se_qemuLog : option error;
  se_exec : option error;
  se_qmp : option error;
  se_restore : bool;
  se_loadTemplate : option error;
  se_vsock : option error;
  se_fifoOpened : bool;
  se_kill : option error;
  se_removeFifo : option error;
  se_removeAll : option error
}.

(** [_ = cmd.Process.Kill()], [_ = os.Remove(fifo)], [_ = os.RemoveAll(stateDir)]:
    an error is ignored, and nothing has happened then. *)
Definition try_kill (e : StartEnv) (q : Instance_) : Instance_ :=
  match se_kill e with Some _ => log_ev EvKill q | None => kill q end.
Definition try_remove_fifo (e : StartEnv) (q : Instance_) : Instance_ :=
  match se_removeFifo e with Some _ => log_ev EvRemoveFifo q | None => remove_fifo q end.
Definition try_remove_stateDir (e : StartEnv) (q : Instance_) : Instance_ :=
  match se_removeAll e with Some _ => log_ev EvRemoveStateDir q | None => remove_stateDir q end.

Definition setupConsoleFIFO (e : StartEnv) (q : Instance_) : option error * Instance_ :=
  match se_mkfifo e with
  | Some err => (Some (wrap "failed to create console FIFO" err), q)
  | None =>
      let q := set_fifoPath true q in
      match se_createLog e with
      | Some err => (Some (wrap "failed to create console log file" err),
                     match se_removeFifo e with Some _ => q | None => set_fifoPath false q end)
      | None => (None, set_console true q)
      end
  end.

(** The loop of [openTapFiles]: the NICs opened so far, and the rest with what
    opening each answers. *)
Fixpoint open_taps (opened : list bool) (rest : list bool) (answers : list (option error)) (q : Instance_)
  : option error * Instance_ :=
  match rest with
  | [] => (None, set_taps opened q)
  | _ :: rest' =>
      match default None (head answers) with
      | Some err => (Some (wrap "failed to open tap in netns" err),
                     closeTAPFilesLocked (set_taps (opened ++ rest) q))
      | None => open_taps (opened ++ [true]) rest' (tail answers) q
      end
  end.

Definition openTapFiles (e : StartEnv) (q : Instance_) : option error * Instance_ :=
  match q_taps q with
  | [] => (None, q)
  | taps =>
      if negb (se_netns e)
      then (Some (mkError ErrUnknown "network namespace is required when NICs are configured"), q)
      else open_taps [] taps (se_taps e) q
  end.

(** A failed exec closes the TAP files it would have passed on; the handles stay. *)
Definition startQemuProcess (e : StartEnv) (q : Instance_) : option error * Instance_ :=
  match se_qemuLog e with
  | Some err => (Some (wrap "failed to create qemu log file" err), q)
  | None =>
      match se_exec e with
      | Some err => (Some (wrap "failed to start qemu" err), q)
      | None => (None, set_fifo (se_fifoOpened e) (set_cmd true (set_process true (log_ev EvExec q))))
      end
  end.

Definition connectQMP (e : StartEnv) (q : Instance_) : option error * Instance_ :=
  match se_qmp e with
  | Some err => (Some (wrap "failed to connect to QMP" err), try_kill e q)
  | None => (None, set_qmp true q)
  end.

(** [se_vsock]: the context's error or the dial's; both branches kill QEMU and
    close the QMP client, whose handle stays. *)
Definition connectVsockClient (e : StartEnv) (q : Instance_) : option error * Instance_ :=
  match se_vsock e with
  | Some err =>
      let q := if q_cmd q then try_kill e q else q in
      (Some err, if q_qmpClient q then log_ev EvCloseQMP q else q)
  | None => (None, set_client true (set_vsock true q))
  end.

(** The command, the console FIFO's handle and the cancel function stay. *)
Definition rollbackStart (e : StartEnv) (q : Instance_) : Instance_ :=
  let q := set_state vmStateNew q in
  let q := close_qmp (close_client (close_vsock q)) in
  let q := try_remove_fifo e (close_console q) in
  let q := closeTAPFilesLocked q in
  try_remove_stateDir e (release_lease q).

(** The steps after the deferred rollback is in place. *)
Definition start_steps (e : StartEnv) (q : Instance_) : option error * Instance_ :=
  match openTapFiles e q with
  | (Some err, q) => (Some err, q)
  | (None, q) =>
      match se_spec e, se_args e with
      | Some err, _ => (Some err, q)
      | None, Some err => (Some err, q)
      | None, None =>
          match startQemuProcess e q with
          | (Some err, q) => (Some err, q)
          | (None, q) =>
              match connectQMP e q with
              | (Some err, q) => (Some err, q)
              | (None, q) =>
                  match (if se_restore e then se_loadTemplate e else None) with
                  | Some err => (Some err, q)
                  | None => connectVsockClient e (set_runCancel true q)
                  end
              end
          end
      end
  end.

Definition Start (e : StartEnv) (q : Instance_) : option error * Instance_ :=
  if negb (bool_decide (q_state q = vmStateNew))
  then (Some (mkError ErrUnknown "cannot start VM in this state"), q)
  else
    let q := set_state vmStateStarting q in
    match se_validate e with
    | Some err => (Some (wrap "configuration validation failed" err), set_state vmStateNew q)
    | None =>
        match setupConsoleFIFO e q with
        | (Some err, q) => (Some (wrap "failed to setup console FIFO" err), set_state vmStateNew q)
        | (None, q) =>
            match start_steps e q with
            | (Some err, q) => (Some err, rollbackStart e q)
            | (None, q) => (None, set_state vmStateRunning q)
            end
        end
    end.

(** ** Shutdown *)

(** [sh_exit_*]: the process exits within that wait. *)
Record ShutdownEnv := mkShutdownEnv {
  sh_prepare : option error;
  sh_ctrlAltDelete : option error;
  sh_powerdown : option error;
  sh_exit_acpi : bool;
  sh_quit : option error;
  sh_exit_quit : bool;
  sh_kill : option error;
  sh_exit_kill : bool
}.

Definition prepareGuestShutdown (q : Instance_) : Instance_ :=
  if negb (q_client q) then q else if q_paused q then q else log_ev EvPrepareGuest q.

Definition closeClientConnections (q : Instance_) : Instance_ := close_fifo (close_vsock (close_client q)).

Definition shutdownGuest (e : ShutdownEnv) (q : Instance_) : Instance_ :=
  if q_qmpClient q then
    let q := log_ev EvCtrlAltDelete q in
    match sh_ctrlAltDelete e with Some _ => log_ev EvPowerdown q | None => q end
  else q.

Definition cleanupAfterFailedKill (q : Instance_) : Instance_ := closeTAPFilesLocked (close_qmp q).

Definition stopQemuProcess (e : ShutdownEnv) (q : Instance_) : option error * Instance_ :=
  if negb (q_cmd q) then (None, q)
  else if sh_exit_acpi e then (None, set_cmd false (set_process false q))
  else
    let '(quit_done, q) :=
      if q_qmpClient q then
        let q := log_ev EvQuit q in
        match sh_quit e with
        | Some _ => (false, q)
        | None => (sh_exit_quit e, if sh_exit_quit e then set_process false q else q)
        end
      else (false, q) in
    if (quit_done : bool) then (None, set_cmd false q)
    else
      match sh_kill e with
      | Some err =>
          (Some (wrap "failed to kill QEMU process" err), cleanupAfterFailedKill (set_cmd false q))
      | None =>
          let q := log_ev EvKill q in
          if sh_exit_kill e then (None, set_cmd false (set_process false q))
          else (Some (mkError ErrUnknown "process did not exit after SIGKILL"),
                cleanupAfterFailedKill (set_cmd false q))
      end.

(** [closeAndLog] compares an interface with nil: a nil *qmpClient in it is not
    nil, and Close on it dereferences nil; a nil *os.File only returns an error. *)
Definition cleanupResources (q : Instance_) : out Instance_ :=
  if negb (q_qmpClient q) then Panic "invalid memory address or nil pointer dereference"
  else
    let q := remove_fifo (close_console (close_qmp q)) in
    Val (remove_stateDir (release_lease (closeTAPFilesLocked q))).

Definition Shutdown (e : ShutdownEnv) (q : Instance_) : out (option error * Instance_) :=
  if negb (bool_decide (q_state q = vmStateRunning)) then Val (None, q)
  else
    let q := set_state vmStateShutdown q in
    let q := if q_runCancel q then log_ev EvCancelMonitors q else q in
    let q := shutdownGuest e (closeClientConnections (prepareGuestShutdown q)) in
    match stopQemuProcess e q with
    | (Some err, q) => Val (Some err, q)
    | (None, q) => out_bind (cleanupResources q) (λ q, Val (None, q))
    end.

(** ** Starting *)

(** What [newInstance] returns, with [n] NICs added: the CID lease and the state
    directory exist, nothing else does. *)
Definition newInstance (n : nat) : Instance_ :=
  mkInstance vmStateNew false false false false false false (replicate n false) true false false
    false true false [].

Record started (n : nat) (q : Instance_) : Prop := {
  st_state : q_state q = vmStateRunning;
  st_process : w_process q = true ∧ q_cmd q = true;
  st_qmp : q_qmpClient q = true;
  st_guest : q_client q = true ∧ q_vsockConn q = true;
  st_console : q_consoleFile q = true;
  st_taps : q_taps q = replicate n true;
  st_lease : q_cidLease q = true ∧ w_stateDir q = true;
  st_cancel : q_runCancel q = true
}.

(** Nothing is held any more. *)
Record released (q : Instance_) : Prop := {
  rel_handles : q_qmpClient q = false ∧ q_client q = false ∧ q_vsockConn q = false ∧ q_consoleFile q = false;
  rel_taps : Forall (λ b, b = false) (q_taps q);
  rel_lease : q_cidLease q = false;
  rel_disk : w_stateDir q = false ∧ w_fifo q = false
}.

Lemma Forall_closed (l : list bool) : Forall (λ b, b = false) ((λ _, false) <$> l).
Proof. apply Forall_fmap, Forall_true. done. Qed.

(** *** How far a Start gets *)

Definition is_none {A} (o : option A) : bool := match o with None => true | Some _ => false end.

(** The first [n] answers let a TAP be opened. *)
Fixpoint opens (n : nat) (answers : list (option error)) : bool :=
  match n with
  | O => true
  | S n => is_none (default None (head answers)) && opens n (tail answers)
  end.

(** Every step until the deferred rollback succeeds; until the process runs; until
    its guest is called. *)
Definition prepares (e : StartEnv) : bool := is_none (se_validate e) && is_none (se_mkfifo e) && is_none (se_createLog e).
Definition execs (e : StartEnv) (n : nat) : bool :=
  (bool_decide (n = 0%nat) || se_netns e && opens n (se_taps e)) && is_none (se_spec e) && is_none (se_args e)
  && is_none (se_qemuLog e) && is_none (se_exec e).
Definition loads (e : StartEnv) : bool := is_none (if se_restore e then se_loadTemplate e else None).
Definition boots (e : StartEnv) (n : nat) : bool := execs e n && is_none (se_qmp e) && loads e.

(** What a Start that failed after its set-up leaves: which handles are released,
    which stay, and what is left on the host. *)
Record rolled_back (e : StartEnv) (n : nat) (q : Instance_) : Prop := {
  rb_state : q_state q = vmStateNew;
  rb_handles : q_qmpClient q = false ∧ q_client q = false ∧ q_vsockConn q = false ∧ q_consoleFile q = false;
  rb_taps : q_taps q = replicate n false;
  rb_lease : q_cidLease q = false ∧ EvReleaseLease ∈ w_log q;
  rb_stateDir : w_stateDir q = negb (is_none (se_removeAll e));
  rb_fifo : w_fifo q = negb (is_none (se_removeAll e)) && negb (is_none (se_removeFifo e));
  rb_kept : q_cmd q = execs e n ∧ q_consoleFifo q = execs e n && se_fifoOpened e ∧ q_runCancel q = boots e n;
  rb_process : w_process q =
    execs e n && (if is_none (se_qmp e) && negb (loads e) then true else negb (is_none (se_kill e)))
}.

Lemma closed_taps (l : list bool) : (λ _, false) <$> l = replicate (length l) false.
Proof. induction l as [|b l IH]; [done|]. cbn. by rewrite <-IH. Qed.

(** What the rollback makes of what a failed step leaves. *)
Lemma rollbackStart_rolled e n q :
  length (q_taps q) = n → q_cidLease q = true → w_stateDir q = true → w_fifo q = true →
  q_cmd q = execs e n → q_consoleFifo q = execs e n && se_fifoOpened e → q_runCancel q = boots e n →
  w_process q = execs e n && (if is_none (se_qmp e) && negb (loads e) then true else negb (is_none (se_kill e))) →
  rolled_back e n (rollbackStart e q).
Proof.
  destruct q as [st cmd qmp cl vs cf fifo taps lease rc pa pr sd ff lg]. cbn.
  intros <- -> -> -> Hc Hf Hr Hp.
  unfold rollbackStart, close_qmp, close_client, close_vsock, close_console, release_lease, try_remove_fifo, try_remove_stateDir.
  destruct vs, cl, qmp, cf, (se_removeFifo e) eqn:E1, (se_removeAll e) eqn:E2; split; cbn; rewrite ?E1, ?E2;
    first [done | apply closed_taps | split; [done|]; rewrite !elem_of_app, !list_elem_of_singleton; tauto].
Qed.

(** The TAP loop opens all, or closes those it opened. *)
Lemma open_taps_spec opened rest answers q :
  if opens (length rest) answers
  then open_taps opened rest answers q = (None, set_taps (opened ++ replicate (length rest) true) q)
  else ∃ err taps, open_taps opened rest answers q = (Some err, closeTAPFilesLocked (set_taps taps q))
                   ∧ length taps = (length opened + length rest)%nat.
Proof.
  revert opened answers. induction rest as [|b rest IH]; intros opened answers; simpl.
  { by rewrite app_nil_r. }
  destruct (default None (head answers)) as [err|]; cbn [is_none andb].
  { eexists _, _. split; [done|]. by rewrite length_app. }
  specialize (IH (opened ++ [true]) (tail answers)). destruct (opens _ _).
  - rewrite IH. by rewrite <- app_assoc.
  - destruct IH as (err & taps & -> & Hl). eexists _, _. split; [done|]. rewrite Hl, length_app. simpl. lia.
Qed.

Lemma openTapFiles_spec e n q : q_taps q = replicate n false →
  if bool_decide (n = 0%nat) || se_netns e && opens n (se_taps e)
  then openTapFiles e q = (None, set_taps (replicate n true) q)
  else ∃ err taps l, openTapFiles e q = (Some err, set_taps taps (if l : bool then log_ev EvCloseTaps q else q)) ∧ length taps = n.
Proof.
  intros Ht. unfold openTapFiles. rewrite Ht. destruct n as [|n]; cbn [replicate].
  { rewrite bool_decide_eq_true_2 by done. destruct q. simpl in *. by subst. }
  rewrite bool_decide_eq_false_2 by done. cbn [orb].
  destruct (se_netns e); cbn [negb andb].
  2: { eexists _, (q_taps q), false. split; [by destruct q|]. by rewrite Ht, length_replicate. }
  pose proof (open_taps_spec [] (false :: replicate n false) (se_taps e) q) as H.
  cbn [length app] in H. rewrite length_replicate in H. destruct (opens (S n) (se_taps e)); [done|].
  destruct H as (err & taps & -> & Hl). eexists _, ((λ _, false) <$> taps), true. split; [done|].
  by rewrite length_fmap, Hl.
Qed.

(** The steps under the deferred rollback. *)
Lemma start_steps_spec e n q :
  q_taps q = replicate n false → q_cidLease q = true → w_stateDir q = true → w_fifo q = true → q_cmd q = false →
  q_consoleFifo q = false → q_runCancel q = false → w_process q = false → q_consoleFile q = true →
  match start_steps e q with
  | (Some _, q') => boots e n && is_none (se_vsock e) = false ∧ rolled_back e n (rollbackStart e q')
  | (None, q') => boots e n && is_none (se_vsock e) = true ∧ started n (set_state vmStateRunning q')
  end.
Proof.
  intros Ht Hl Hsd Hff Hc Hf Hr Hp Hcf. unfold start_steps. pose proof (openTapFiles_spec e n q Ht) as Hopen.
  assert (Hx : execs e n = (bool_decide (n = 0%nat) || se_netns e && opens n (se_taps e)) && is_none (se_spec e) && is_none (se_args e)
    && is_none (se_qemuLog e) && is_none (se_exec e)) by done.
  destruct (bool_decide _ || _); cbn [andb] in Hx.
  2: { destruct Hopen as (err & taps & l & -> & Hlen). unfold boots. rewrite Hx. split; [done|].
       apply rollbackStart_rolled; unfold boots; rewrite ?Hx; by destruct l. }
  rewrite Hopen. clear Hopen.
  assert (Hearly : ∀ q', q' = set_taps (replicate n true) q → execs e n = false → rolled_back e n (rollbackStart e q')).
  { intros q' -> Hn. apply rollbackStart_rolled; unfold boots; rewrite ?Hn; cbn; by rewrite ?length_replicate. }
  destruct (se_spec e); cbn in Hx; [unfold boots; rewrite Hx; auto|].
  destruct (se_args e); cbn in Hx; [unfold boots; rewrite Hx; auto|].
  unfold startQemuProcess. destruct (se_qemuLog e); cbn in Hx; [unfold boots; rewrite Hx; auto|].
  destruct (se_exec e); cbn in Hx; [unfold boots; rewrite Hx; auto|]. clear Hearly.
  unfold connectQMP, boots. rewrite Hx. destruct (se_qmp e) eqn:Hq; cbn [is_none andb].
  { split; [done|]. apply rollbackStart_rolled; unfold boots, try_kill; rewrite ?Hx, ?Hq;
      destruct (se_kill e); cbn; by rewrite ?length_replicate. }
  destruct (if se_restore e then se_loadTemplate e else None) eqn:Hload; unfold loads; rewrite Hload; cbn [is_none andb].
  { split; [done|]. apply rollbackStart_rolled; unfold boots, loads; rewrite ?Hx, ?Hq, ?Hload; cbn; by rewrite ?length_replicate. }
  unfold connectVsockClient. destruct (se_vsock e); cbn [is_none].
  - split; [done|]. cbn. apply rollbackStart_rolled; unfold boots, loads, try_kill; rewrite ?Hx, ?Hq, ?Hload;
      destruct (se_kill e); cbn; by rewrite ?length_replicate.
  - split; [done|]. by split.
Qed.

(** C19: Start of a new instance with n NICs, whatever its callees answer,
    succeeds exactly when every step does, and then the process runs and
    every handle, the TAP files and the CID lease are held in state Running.
    When the validation or the console set-up fails, the instance is as it
    was new, except that the console FIFO stays when its removal fails too.
    When a later step fails the instance is New again: the QMP, guest, vsock
    and console handles and the TAP files are closed and dropped, the CID
    lease is asked to be released and dropped; the state directory stays
    exactly when its removal fails, and the FIFO when both removals do. The
    command stays set exactly when the process had been started, the FIFO's
    handle when it had been opened too, and the monitors' cancel function
    exactly when the guest was already being called; the process is left
    running exactly when loading a template failed, or when a kill that was
    due failed. (A removal or kill that fails does nothing.) *)
Theorem Start_all_or_nothing e n :
  let '(r, q) := Start e (newInstance n) in
  (r = None ↔ prepares e = true ∧ boots e n = true ∧ se_vsock e = None) ∧
  match r with
  | None => started n q
  | Some _ =>
      if prepares e then rolled_back e n q
      else q = set_fifoPath (w_fifo q) (newInstance n) ∧
           (w_fifo q = true ↔ se_validate e = None ∧ se_mkfifo e = None ∧ se_removeFifo e ≠ None)
  end.
Proof.
  unfold Start, prepares. rewrite bool_decide_eq_true_2 by done. cbn [negb].
  destruct (se_validate e) as [err|] eqn:Hv; cbn [is_none andb]; [split; [split; naive_solver|]; split; [done|]; split; naive_solver|].
  unfold setupConsoleFIFO. destruct (se_mkfifo e) as [err|] eqn:Hm; cbn [is_none andb].
  { split; [split; naive_solver|]. split; [done|]. split; naive_solver. }
  destruct (se_createLog e) as [err|] eqn:Hl; cbn [is_none].
  { split; [split; naive_solver|]. destruct (se_removeFifo e) eqn:Hr; (split; [done|]); split; naive_solver. }
  match goal with |- context [start_steps e ?x] => pose proof (start_steps_spec e n x) as H end.
  do 9 (specialize (H eq_refl)). destruct (start_steps e _) as [[err|] q']; destruct H as [Hb H]; (split; [|exact H]).
  - split; [done|]. intros (_ & Hb' & Hs). rewrite Hb', Hs in Hb. done.
  - split; [|done]. intros _. apply andb_true_iff in Hb as [-> Hs]. split_and!; [done..|]. by destruct (se_vsock e).
Qed.

(** ** Stopping *)

Lemma cleanupResources_released q : q_qmpClient q = true → q_client q = false → q_vsockConn q = false →
  ∃ q', cleanupResources q = Val q' ∧ released q' ∧ q_state q' = q_state q ∧ w_process q' = w_process q
        ∧ q_cmd q' = q_cmd q ∧ q_consoleFifo q' = q_consoleFifo q.
Proof.
  intros H1 H2 H3. unfold cleanupResources. rewrite H1. cbn [negb]. eexists. split; [done|].
  destruct q as [st cmd qmp cl vs cf fifo taps lease rc pa pr sd ff lg]. simpl in *. subst.
  unfold close_qmp, close_console, release_lease. destruct cf, lease; (split; [split|]); cbn; try done;
    apply Forall_closed.
Qed.

(** What the first phases leave to [stopQemuProcess]. *)
Record stopping (q : Instance_) : Prop := {
  sp_state : q_state q = vmStateShutdown;
  sp_cmd : q_cmd q = true;
  sp_qmp : q_qmpClient q = true;
  sp_guest : q_client q = false ∧ q_vsockConn q = false ∧ q_consoleFifo q = false;
  sp_lease : q_cidLease q = true ∧ w_stateDir q = true
}.

Lemma shutdown_prefix e n q : started n q →
  stopping (shutdownGuest e (closeClientConnections (prepareGuestShutdown
              (if q_runCancel (set_state vmStateShutdown q)
               then log_ev EvCancelMonitors (set_state vmStateShutdown q)
               else set_state vmStateShutdown q)))).
Proof.
  intros [? [? ?] ? [? ?] ? ? [? ?] ?].
  destruct q as [st cmd qmp cl vs cf fifo taps lease rc pa pr sd ff lg]. simpl in *. subst.
  unfold shutdownGuest, closeClientConnections, prepareGuestShutdown, close_client, close_vsock, close_fifo.
  destruct pa, fifo, (sh_ctrlAltDelete e); by split; cbn.
Qed.

(** The process is gone, or the kill failed and only QMP and TAPs are closed. *)
Definition stopped (e : ShutdownEnv) (r : option error) (q : Instance_) : Prop :=
  q_state q = vmStateShutdown ∧ q_cmd q = false ∧
  match r with
  | None => w_process q = false ∧ q_qmpClient q = true
            ∧ q_client q = false ∧ q_vsockConn q = false ∧ q_consoleFifo q = false
  | Some _ =>
      sh_exit_acpi e = false ∧ (sh_kill e ≠ None ∨ sh_exit_kill e = false)
      ∧ q_qmpClient q = false ∧ Forall (λ b, b = false) (q_taps q)
      ∧ q_cidLease q = true ∧ w_stateDir q = true
  end.

Lemma stopQemuProcess_stopped e q : stopping q →
  stopped e (stopQemuProcess e q).1 (stopQemuProcess e q).2.
Proof.
  intros [? ? ? (? & ? & ?) [? ?]].
  destruct q as [st cmd qmp cl vs cf fifo taps lease rc pa pr sd ff lg]. simpl in *. subst.
  unfold stopped, stopQemuProcess, cleanupAfterFailedKill, close_qmp. cbn.
  destruct (sh_exit_acpi e) eqn:Ea; [done|].
  destruct (sh_quit e); [|destruct (sh_exit_quit e); [done|]].
  all: destruct (sh_kill e) eqn:Ek; cbn; [|destruct (sh_exit_kill e) eqn:Ex; cbn; [done|]].
  all: split_and!; try done; try apply Forall_closed; (by left) || (by right).
Qed.

Lemma Shutdown_outcome e n q : started n q →
  ∃ r q', Shutdown e q = Val (r, q') ∧ q_state q' = vmStateShutdown ∧ q_cmd q' = false
    ∧ match r with
      | None => released q' ∧ w_process q' = false ∧ q_consoleFifo q' = false
      | Some _ =>
          sh_exit_acpi e = false ∧ (sh_kill e ≠ None ∨ sh_exit_kill e = false)
          ∧ q_qmpClient q' = false ∧ Forall (λ b, b = false) (q_taps q')
          ∧ q_cidLease q' = true ∧ w_stateDir q' = true
      end.
Proof.
  intros Hst. unfold Shutdown. rewrite (bool_decide_eq_true_2 _ (st_state _ _ Hst)). cbn [negb].
  pose proof (stopQemuProcess_stopped e _ (shutdown_prefix e n q Hst)) as (Hs & Hc & Hr). cbv zeta.
  destruct (stopQemuProcess e _) as [[err|] q2]; cbn [fst snd] in *; [by exists (Some err), q2|].
  destruct Hr as (Hp & H1 & H2 & H3 & H4).
  destruct (cleanupResources_released q2 H1 H2 H3) as (q3 & -> & Hrel & E1 & E2 & E3 & E4).
  exists None, q3. cbn [out_bind]. rewrite E1, E2, E3, E4. done.
Qed.


(** A run: the guest is prepared before its connection is closed, asked to power off
    before QEMU is told to quit, and the lease is given back last but for the
    state directory. *)
Definition good_env : StartEnv :=
  mkStartEnv None None None true [None] None None None None None false None None true None None None.
Definition good_shutdown : ShutdownEnv := mkShutdownEnv None None None false None true None true.

(** A guest that never answers: all is undone, but the command, the FIFO's handle
    and the cancel function stay set; and when the directory cannot be removed it
    stays with everything else released. *)
Definition silent_env (removeAll : option error) : StartEnv :=
  mkStartEnv None None None true [None] None None None None None false None (Some (errorf "vsock timeout")) true None None removeAll.

Lemma Start_all_or_nothing_witness :
  started 1 (Start good_env (newInstance 1)).2 ∧
  (let q := (Start (silent_env None) (newInstance 1)).2 in
   rolled_back (silent_env None) 1 q ∧ w_process q = false ∧ w_stateDir q = false ∧ w_fifo q = false
   ∧ q_cmd q = true ∧ q_consoleFifo q = true ∧ q_runCancel q = true) ∧
  w_stateDir (Start (silent_env (Some (errorf "busy"))) (newInstance 1)).2 = true.
Proof.
  split; [exact (proj2 (Start_all_or_nothing good_env 1))|]. split; [|vm_compute; reflexivity].
  cbv zeta. split; [exact (proj2 (Start_all_or_nothing (silent_env None) 1))|].
  repeat split; vm_compute; reflexivity.
Defined.


(** A restore whose template cannot be loaded: QEMU keeps running although the
    lease of its CID is released, the state is New and Shutdown does nothing. *)
Theorem failed_restore_orphans_qemu err :
  let e := mkStartEnv None None None true [None] None None None None None true (Some err) None true None None None in
  let q := (Start e (newInstance 1)).2 in
  w_process q = true ∧ released q ∧ q_state q = vmStateNew
  ∧ (EvKill ∉ w_log q) ∧ ∀ sh, Shutdown sh q = Val (None, q).
Proof.
  cbv zeta. set (q := (Start _ _).2). vm_compute in q. subst q.
  split; [done|]. split; [split; cbn; try done; by repeat constructor|]. split; [done|].
  split; [|done]. cbn. apply (bool_decide_unpack _). by vm_compute.
Qed.

(** After a kill that failed every later Shutdown reports success and releases
    nothing. *)
Theorem failed_kill_keeps_lease e n q err q' : started n q → Shutdown e q = Val (Some err, q') →
  ∀ sh, Shutdown sh q' = Val (None, q') ∧ q_cidLease q' = true ∧ w_stateDir q' = true.
Proof.
  intros Hst Heq sh. destruct (Shutdown_outcome e n q Hst) as (r & q2 & H2 & Hs & Hrest).
  rewrite Heq in H2. simplify_eq. destruct Hrest as (_ & _ & _ & _ & _ & ? & ?).
  split; [|done]. unfold Shutdown. rewrite bool_decide_eq_false_2; [done|]. by rewrite Hs.
Qed.
