(* ===== verification/VMDevices.v ===== *)
(** The devices of a virtual machine: AddDisk and AddTAPNIC of
    internal/host/vm/qemu/devices.go, the image pointers of pointer.go and the
    machine description [spec] builds from them (spec.go).

    [machine.Spec] is a record of the spin-machine module; its fields that the
    code sets are here, in the order it sets them. *)
From S2P Require Import Prelude GoStrings GoState GoText Resources QemuInstance.

(** [vm.MountConfig], what the [MountOpt]s set. *)
Record MountConfig := mkMountConfig {
  mc_Readonly : bool;
  mc_Format : string;
  mc_Pointer : bool;
  mc_Serial : string
}.

Inductive MountOpt :=
  | WithReadOnly
  | WithFormat (format : string)
  | WithSerial (serial : string)
  | FromPointer.

Definition apply_opt (mc : MountConfig) (o : MountOpt) : MountConfig :=
  match o with
  | WithReadOnly => mkMountConfig true (mc_Format mc) (mc_Pointer mc) (mc_Serial mc)
  | WithFormat f => mkMountConfig (mc_Readonly mc) f (mc_Pointer mc) (mc_Serial mc)
  | WithSerial s => mkMountConfig (mc_Readonly mc) (mc_Format mc) (mc_Pointer mc) s
  | FromPointer => mkMountConfig (mc_Readonly mc) (mc_Format mc) true (mc_Serial mc)
  end.

Definition DefaultDiskFormat : string := "raw".

Record DiskConfig := mkDiskConfig {
  dc_ID : string;
  dc_Path : string;
  dc_Readonly : bool;
  dc_Serial : string;
  dc_Format : string;
  dc_Pointer : string
}.

Record NetConfig := mkNetConfig {
  nc_ID : string;
  nc_TapName : string;
  nc_TapFile : bool;
  nc_MAC : string
}.

(** The part of [Instance] the device operations read and write. *)
Record Machine := mkMachine {
  mn_state : vmState;
  mn_disks : list DiskConfig;
  mn_nets : list NetConfig
}.

(** [generateStableDiskID]: what [os.Stat] says of the path. *)
Inductive statResult :=
  | StatErr (e : error)
  | StatInode (dev ino : string)
  | StatOpaque (encoded : string).

Definition generateStableDiskID (stat : string → statResult) (path : string) : res string :=
  match stat path with
  | StatErr e => Err (wrap "failed to stat disk path" e)
  | StatOpaque encoded => Ok ("disk-" +:+ encoded)
  | StatInode dev ino => Ok ("disk-" +:+ dev +:+ "-" +:+ ino)
  end.

Section devices.
Context (stat : string → statResult).

Definition AddDisk (blockID mountPath : string) (opts : list MountOpt) : ST Machine () := λ m,
  if negb (bool_decide (mn_state m = vmStateNew)) then
    (Err (mkError ErrUnknown "cannot add disk after VM started"), m)
  else
    let mc := foldl apply_opt (mkMountConfig false "" false "") opts in
    let id := if decide (blockID = "") then generateStableDiskID stat mountPath else Ok blockID in
    match id with
    | Err e => (Err (wrap "failed to generate stable disk ID" e), m)
    | Ok id =>
        let format := if decide (mc_Format mc = "") then DefaultDiskFormat else mc_Format mc in
        let d := mkDiskConfig id (if mc_Pointer mc then "" else mountPath) (mc_Readonly mc)
                   (mc_Serial mc) format (if mc_Pointer mc then mountPath else "") in
        (Ok tt, mkMachine (mn_state m) (mn_disks m ++ [d]) (mn_nets m))
    end.

Definition AddTAPNIC (tapName mac : string) : ST Machine () := λ m,
  if negb (bool_decide (mn_state m = vmStateNew)) then
    (Err (mkError ErrUnknown "cannot add NIC after VM started"), m)
  else
    let n := mkNetConfig ("net" +:+ fmt_d (Z.of_nat (length (mn_nets m)))) tapName false mac in
    (Ok tt, mkMachine (mn_state m) (mn_disks m) (mn_nets m ++ [n])).

Definition DiskCount (m : Machine) : nat := length (mn_disks m).
End devices.

(** ** Pointers *)

Definition resolvePointer (readFile : string → res string) (pointer : string) : res string :=
  match readFile pointer with
  | Err e => Err (wrap ("reading the active pointer " +:+ pointer) e)
  | Ok b =>
      let image := TrimSpace b in
      if decide (image = "") then
        Err (mkError ErrUnknown ("the active pointer " +:+ pointer +:+ " names nothing"))
      else if negb (is_rooted image) then
        Err (mkError ErrUnknown
          ("the active pointer " +:+ pointer +:+ " names a relative path " +:+ fmt_q image))
      else Ok image
  end.

(** ** The machine description *)

Record Disk := mkDisk {
  d_Path : string;
  d_Format : string;
  d_Readonly : bool;
  d_Serial : string;
  d_Locking : bool
}.

Record NIC := mkNIC { n_TapFD : Z; n_MAC : string }.

Record MachineSpec := mkMachineSpec {
  s_QEMU : string; s_Kernel : string; s_Initrd : string; s_Firmware : string;
  s_BootCPUs : Z; s_MaxCPUs : Z;
  s_SizeMB : Z; s_MaxMB : Z;
  s_VsockCID : Z; s_Serial : string;
  s_QMPSocket : string; s_Cmdline : string;
  s_MemFile : string; s_MemShared : bool; s_IncomingDefer : bool;
  s_Disks : list Disk; s_NICs : list NIC
}.

Definition placeholderCID : Z := 3.
Definition placeholderSerial : string := "none".

Definition baseSpec (qemuPath kernelPath initrdPath firmwareDir : string) (r : VMResourceConfig) : MachineSpec :=
  mkMachineSpec qemuPath kernelPath initrdPath firmwareDir (BootCPUs r) (MaxCPUs r)
    (Z.quot (MemorySize r) (1024 * 1024)) (Z.quot (MemoryHotplugSize r) (1024 * 1024))
    placeholderCID placeholderSerial "" "" "" false false [] [].

(** What [spec] reads of the instance and of the configuration. *)
Record SpecInput := mkSpecInput {
  si_config : option error;
  si_release : res string;
  si_binaryPath : string; si_kernelPath : string; si_initrdPath : string;
  si_resourceCfg : option VMResourceConfig;
  si_guestCID : Z;
  si_consoleFifoPath : string;
  si_qmpSocketPath : string;
  si_memoryFilePath : string;
  si_restoreStatePath : string
}.

Section spec.
Context (readFile : string → res string).

Fixpoint spec_disks (disks : list DiskConfig) : res (list Disk) :=
  match disks with
  | [] => Ok []
  | d :: ds =>
      let! path := (if decide (dc_Pointer d = "") then Ok (dc_Path d)
                    else resolvePointer readFile (dc_Pointer d)) in
      let! rest := spec_disks ds in
      Ok (mkDisk path (dc_Format d) (dc_Readonly d) (dc_Serial d) (negb (dc_Readonly d)) :: rest)
  end.

Fixpoint spec_nics (i : Z) (nets : list NetConfig) : res (list NIC) :=
  match nets with
  | [] => Ok []
  | n :: ns =>
      if nc_TapFile n then
        let! rest := spec_nics (i + 1) ns in Ok (mkNIC (3 + i) (nc_MAC n) :: rest)
      else Err (mkError ErrUnknown ("NIC " +:+ nc_TapName n
                 +:+ " has no TAP file descriptor (openTapFiles not called?)"))
  end.

Definition spec (q : SpecInput) (m : Machine) (cmdline : string) : res MachineSpec :=
  match si_config q with
  | Some e => Err (wrap "reading config" e)
  | None =>
      let! share := si_release q in
      let s := baseSpec (si_binaryPath q) (si_kernelPath q) (si_initrdPath q) share
                 (validateResourceConfig (si_resourceCfg q)) in
      let restoring := negb (bool_decide (si_restoreStatePath q = "")) in
      let file_backed := negb (bool_decide (si_memoryFilePath q = "")) in
      let! disks := spec_disks (mn_disks m) in
      let! nics := spec_nics 0 (mn_nets m) in
      Ok (mkMachineSpec (s_QEMU s) (s_Kernel s) (s_Initrd s) (s_Firmware s) (s_BootCPUs s) (s_MaxCPUs s)
            (s_SizeMB s) (s_MaxMB s) (si_guestCID q) ("file:" +:+ si_consoleFifoPath q)
            (si_qmpSocketPath q) (if restoring then "" else cmdline)
            (si_memoryFilePath q) (file_backed && negb restoring) restoring disks nics)
  end.
End spec.

(** ** The description keeps the disks *)

(** Each configured disk appears once, in order, under its serial; a writable one
    is locked, a path is the configured one or an absolute path read from the
    pointer. *)
Lemma spec_disks_order readFile ds l : spec_disks readFile ds = Ok l →
  dc_Serial <$> ds = d_Serial <$> l ∧
  Forall2 (λ d x, d_Locking x = negb (dc_Readonly d) ∧ d_Readonly x = dc_Readonly d ∧
    (dc_Pointer d = "" → d_Path x = dc_Path d) ∧ (dc_Pointer d ≠ "" → is_rooted (d_Path x) = true)) ds l.
Proof.
  revert l. induction ds as [|d ds IH]; intros l H; cbn [spec_disks] in H; simplify_eq/=; [done|].
  destruct (if decide (dc_Pointer d = "") then Ok (dc_Path d) else resolvePointer readFile (dc_Pointer d))
    as [path|] eqn:Hp; [|done]. cbn [res_bind] in H.
  destruct (spec_disks readFile ds) as [rest|]; [|done]. simplify_eq/=. destruct (IH rest eq_refl) as [Hs Hf].
  split; [by f_equal|]. constructor; [|done]. simpl. split_and!; [done..| |].
  - intros He. rewrite decide_True in Hp by done. congruence.
  - intros Hne. rewrite decide_False in Hp by done. unfold resolvePointer in Hp.
    destruct (readFile (dc_Pointer d)); [|done]. case_decide; [done|].
    destruct (is_rooted _) eqn:Hr; simplify_eq/=. done.
Qed.

(** The descriptors follow the standard three, in the order of the interfaces. *)
Lemma spec_nics_fds i nets l : spec_nics i nets = Ok l →
  length l = length nets ∧ ∀ j n, l !! j = Some n → n_TapFD n = (3 + i + Z.of_nat j)%Z.
Proof.
  revert i l. induction nets as [|n nets IH]; intros i l H; cbn [spec_nics] in H; simplify_eq/=; [done|].
  destruct (nc_TapFile n); [|done]. destruct (spec_nics (i + 1) nets) as [rest|] eqn:Hr; simplify_eq/=.
  destruct (IH _ _ Hr) as [Hl Hj]. split; [congruence|]. intros [|j] x Hx; simplify_eq/=; [lia|].
  rewrite (Hj j x Hx). lia.
Qed.
