(* ===== verification/Cmdline.v ===== *)
(** The kernel command line as the channel between host and guest: what
    internal/host/vm/qemu/kernel_cmdline.go writes and what the guest reads back
    (parseIPConfig of guest/vminit/system/network.go, FromCmdline of identity.go,
    parseExtrasConfig of guest/vminit/extras/extract.go).

    The machine's own command line comes from another module: it is the parameter
    [machine_String], which is given the parameters to append. *)
From S2P Require Import Prelude GoStrings.
From Stdlib Require Import Ascii.
Open Scope Z_scope.

(** ** Host *)

Record NetworkConfig := mkNetworkConfig {
  nc_InterfaceName : string;
  nc_IP : string;
  nc_Gateway : string;
  nc_Netmask : string;
  nc_DNS : list string
}.

Record KernelCmdlineConfig := mkCmdlineConfig {
  kc_Console : string;
  kc_VsockRPCPort : Z;
  kc_VsockStreamPort : Z;
  kc_VsockCID : Z;
  kc_Network : option NetworkConfig;
  kc_InitArgs : list string;
  kc_Quiet : bool;
  kc_LogLevel : Z;
  kc_DiskCount : Z;
  kc_ExtrasDiskIndex : option Z;
  kc_Debug : bool
}.

(** [machine.Cmdline] *)
Record Cmdline := mkCmdline {
  cl_Console : string;
  cl_Quiet : bool;
  cl_LogLevel : Z;
  cl_Init : string;
  cl_InitArgs : list string;
  cl_Extra : list string
}.

Definition buildNetworkParam (netCfg : option NetworkConfig) : string :=
  match netCfg with
  | None => ""
  | Some n =>
      if String.eqb (nc_IP n) "" then ""
      else "ip=" +:+ nc_IP n +:+ "::" +:+ nc_Gateway n +:+ ":" +:+ nc_Netmask n +:+ "::eth0:none"
           +:+ foldr (λ dns b, ":" +:+ dns +:+ b) "" (take 2 (nc_DNS n))
  end.

Definition guestParams (cfg : KernelCmdlineConfig) : list string :=
  let netParam := buildNetworkParam (kc_Network cfg) in
  ["systemd.show_status=0"; "systemd.log_level=warning"]%string
  ++ (if String.eqb netParam "" then [] else [netParam])
  ++ ["spin.disks=" +:+ fmt_d (kc_DiskCount cfg)]
  ++ match kc_ExtrasDiskIndex cfg with
     | Some i => ["spin.extras_disk=" +:+ fmt_d i]
     | None => []
     end.

Definition buildInitArgs (cfg : KernelCmdlineConfig) : list string :=
  ["-vsock-rpc-port=" +:+ fmt_d (kc_VsockRPCPort cfg);
   "-vsock-stream-port=" +:+ fmt_d (kc_VsockStreamPort cfg);
   "-vsock-cid=" +:+ fmt_d (kc_VsockCID cfg)] ++ kc_InitArgs cfg.

Section machine.
(** [Cmdline.Profiling] and [Cmdline.String] of the machine module. *)
Context (machine_Profiling : Cmdline → Cmdline) (machine_String : Cmdline → string).

Definition BuildKernelCmdline (cfg : KernelCmdlineConfig) : string :=
  let c := mkCmdline (kc_Console cfg) (kc_Quiet cfg) (kc_LogLevel cfg) "/sbin/vminitd"
             (buildInitArgs cfg) (guestParams cfg) in
  let c :=
    if kc_Debug cfg then
      let c := machine_Profiling c in
      mkCmdline (cl_Console c) (cl_Quiet c) (cl_LogLevel c) (cl_Init c) (cl_InitArgs c)
        (cl_Extra c ++ ["spin.profile"%string])
    else c in
  machine_String c.
End machine.

(** ** Guest *)

Record NetworkIdentity := mkNetworkIdentity {
  ni_IP : string;
  ni_Gateway : string;
  ni_Netmask : string;
  ni_Device : string;
  ni_DNS : list string;
  ni_MetadataRoute : bool
}.

(** The value of the first parameter with the prefix. *)
Fixpoint cut_first (prefix : string) (params : list string) : option string :=
  match params with
  | [] => None
  | p :: ps => match CutPrefix prefix p with Some v => Some v | None => cut_first prefix ps end
  end.

Definition cmdlineValue (cmdline prefix : string) : option string := cut_first prefix (Fields cmdline).

Definition hasParam (cmdline prefix : string) : bool := existsb (λ p, HasPrefix p prefix) (Fields cmdline).

Definition parseIPConfig (cmdline : string) : option NetworkIdentity :=
  match cut_first "ip=" (Fields cmdline) with
  | None => None
  | Some v =>
      let parts := Split v ":"%char in
      let field (i : nat) := default ""%string (parts !! i) in
      let dns (i : nat) := if String.eqb (field i) "" then [] else [field i] in
      Some (mkNetworkIdentity (field 0%nat) (field 2%nat) (field 3%nat) (field 5%nat)
              (dns 7%nat ++ dns 8%nat) false)
  end.

(** [parseExtrasConfig]: the device (the last parameter wins) and the force flag;
    [None] is the error.  [%c] of a rune below 128 is that byte. *)
Fixpoint parse_extras (params : list string) (device : string) (force : bool) : option (string * bool) :=
  match params with
  | [] => Some (device, force)
  | p :: ps =>
      let force' := force || String.eqb p "spin.extras_force=1" || String.eqb p "spin.extras_force" in
      match CutPrefix "spin.extras_disk=" p with
      | Some v =>
          match Atoi v with
          | Some index => parse_extras ps ("/dev/vd" +:+ String (ascii_of_nat (Z.to_nat (97 + index))) "") force'
          | None => None
          end
      | None => parse_extras ps device force'
      end
  end.

Definition DeviceFromCmdline (cmdline : string) : option (string * bool) :=
  parse_extras (Fields cmdline) "" false.

Record Identity := mkIdentity {
  id_Network : option NetworkIdentity;
  id_BlockDevices : Z;
  id_ExtrasDisk : string;
  id_ExtrasForce : bool
}.

(** [FromCmdline], after /proc/cmdline has been read. *)
Definition FromCmdline (cmdline : string) : Identity :=
  let network :=
    match parseIPConfig cmdline with
    | Some n => Some (mkNetworkIdentity (ni_IP n) (ni_Gateway n) (ni_Netmask n) (ni_Device n) (ni_DNS n)
                        (hasParam cmdline "spin.metadata_addr="))
    | None => None
    end in
  let disks :=
    match cmdlineValue cmdline "spin.disks=" with
    | Some v => default (-1) (Atoi v)
    | None => -1
    end in
  match DeviceFromCmdline cmdline with
  | Some (dev, force) => mkIdentity network disks dev force
  | None => mkIdentity network disks "" false
  end.

(** ** Tokens *)

(** A parameter: not empty, without white space. *)
Definition word (t : string) : Prop := t ≠ "" ∧ all_chars (λ a, negb (is_space a)) t = true.

(** A parameter the guest's readers do not look at. *)
Definition quiet (t : string) : Prop :=
  CutPrefix "ip=" t = None ∧ CutPrefix "spin.disks=" t = None ∧ CutPrefix "spin.extras_disk=" t = None
  ∧ CutPrefix "spin.metadata_addr=" t = None
  ∧ t ≠ "spin.extras_force=1"%string ∧ t ≠ "spin.extras_force"%string.

Lemma fields_from_word cur w s : all_chars (λ a, negb (is_space a)) w = true →
  fields_from cur (w +:+ s) = fields_from (cur +:+ w) s.
Proof.
  revert cur. induction w as [|a w IH]; intros cur Hw; simpl.
  { by rewrite string_app_nil_r. }
  simpl in Hw. apply andb_true_iff in Hw as [Ha Hw]. destruct (is_space a); [done|].
  change (String.append w s) with (w +:+ s). rewrite (IH _ Hw). by rewrite <- string_app_assoc.
Qed.

(** Joining parameters with spaces and splitting again gives them. *)
Lemma Fields_join l : Forall word l → Fields (join_with " " l) = l.
Proof.
  unfold Fields. induction 1 as [|w l [Hw Hs] Hl IH]; [done|]. destruct l as [|x l].
  - simpl. rewrite <- (string_app_nil_r w) at 1. rewrite fields_from_word by done. simpl. by destruct w.
  - change (join_with " " (w :: x :: l)) with (w +:+ " " +:+ join_with " " (x :: l)).
    rewrite fields_from_word by done. change ("" +:+ w) with w.
    set (J := join_with " " (x :: l)) in *.
    change (fields_from w (" " +:+ J)) with
      (match w with EmptyString => [] | _ => [w] end ++ fields_from EmptyString J).
    rewrite IH. by destruct w.
Qed.

(** ** Reading the parameters back *)

Lemma cut_first_quiet prefix pre rest :
  Forall (λ t, CutPrefix prefix t = None) pre → cut_first prefix (pre ++ rest) = cut_first prefix rest.
Proof. induction 1 as [|t ts Ht _ IH]; simpl; [done|]. by rewrite Ht. Qed.

Lemma parse_extras_quiet pre rest dev force : Forall quiet pre →
  parse_extras (pre ++ rest) dev force = parse_extras rest dev force.
Proof.
  induction 1 as [|t ts (_ & _ & Ht & _ & H1 & H2) _ IH]; cbn [app parse_extras]; [done|]. rewrite Ht.
  rewrite (proj2 (String.eqb_neq _ _) H1), (proj2 (String.eqb_neq _ _) H2), !orb_false_r. done.
Qed.

(** A field of the [ip=] parameter. *)
Definition colonless (s : string) : Prop := all_chars (neq_char ":"%char) s = true.

Definition dns_suffix (l : list string) : string := foldr (λ dns b, ":" +:+ dns +:+ b) "" l.

Lemma Split_none_dns l : Forall colonless l → (length l ≤ 2)%nat →
  Split ("none" +:+ dns_suffix l) ":"%char = "none"%string :: l.
Proof.
  intros Hl Hn. destruct l as [|a [|b [|]]]; simpl in Hn; [done| | |lia];
    repeat match goal with H : Forall colonless (_ :: _) |- _ => inversion_clear H end.
  - change ("none" +:+ dns_suffix [a]) with ("none" +:+ String ":" (a +:+ "")).
    rewrite Split_cons by done. rewrite string_app_nil_r. by rewrite Split_last.
  - change ("none" +:+ dns_suffix [a; b]) with ("none" +:+ String ":" (a +:+ String ":" (b +:+ ""))).
    rewrite Split_cons by done. rewrite Split_cons by done. rewrite string_app_nil_r. by rewrite Split_last.
Qed.

Definition spaceless (s : string) : Prop := all_chars (λ a, negb (is_space a)) s = true.

Record net_ok (n : NetworkConfig) : Prop := {
  no_ip : nc_IP n ≠ "";
  no_colons : colonless (nc_IP n) ∧ colonless (nc_Gateway n) ∧ colonless (nc_Netmask n);
  no_dns : Forall (λ d, d ≠ ""%string ∧ colonless d) (nc_DNS n);
  no_spaces : Forall spaceless (nc_IP n :: nc_Gateway n :: nc_Netmask n :: nc_DNS n)
}.

Definition expected_network (n : NetworkConfig) : NetworkIdentity :=
  mkNetworkIdentity (nc_IP n) (nc_Gateway n) (nc_Netmask n) "eth0" (take 2 (nc_DNS n)) false.

(** The value of the [ip=] parameter splits into its fields. *)
Lemma ip_fields n : net_ok n →
  buildNetworkParam (Some n) =
    "ip=" +:+ (nc_IP n +:+ String ":" ("" +:+ String ":" (nc_Gateway n +:+ String ":" (nc_Netmask n
      +:+ String ":" ("" +:+ String ":" ("eth0" +:+ String ":" ("none" +:+ dns_suffix (take 2 (nc_DNS n))))))))) 
  ∧ Split (nc_IP n +:+ String ":" ("" +:+ String ":" (nc_Gateway n +:+ String ":" (nc_Netmask n
      +:+ String ":" ("" +:+ String ":" ("eth0" +:+ String ":" ("none" +:+ dns_suffix (take 2 (nc_DNS n))))))))) ":"%char
    = [nc_IP n; ""; nc_Gateway n; nc_Netmask n; ""; "eth0"; "none"]%string ++ take 2 (nc_DNS n).
Proof.
  intros [Hip (H1 & H2 & H3) Hd _]. split.
  - unfold buildNetworkParam. by rewrite (proj2 (String.eqb_neq _ _) Hip).
  - rewrite !Split_cons by done. rewrite Split_none_dns; [done| |].
    + apply Forall_take. eapply Forall_impl; [done|]. by intros d [_ ?].
    + rewrite length_take. lia.
Qed.

Lemma parse_fields n : net_ok n → ∀ parts,
  parts = [nc_IP n; ""; nc_Gateway n; nc_Netmask n; ""; "eth0"; "none"]%string ++ take 2 (nc_DNS n) →
  (let field (i : nat) := default ""%string (parts !! i) in
   let dns (i : nat) := if String.eqb (field i) "" then [] else [field i] in
   mkNetworkIdentity (field 0%nat) (field 2%nat) (field 3%nat) (field 5%nat) (dns 7%nat ++ dns 8%nat) false)
  = expected_network n.
Proof.
  intros [_ _ Hd _] parts ->. unfold expected_network. f_equal.
  destruct (nc_DNS n) as [|a [|b l]]; simpl; [done| |];
    repeat match goal with H : Forall _ (_ :: _) |- _ => inversion_clear H end;
    repeat match goal with H : _ ≠ ""%string ∧ _ |- _ => destruct H as [? _] end;
    by rewrite ?(proj2 (String.eqb_neq _ _)) by done.
Qed.

(** ** The machine's command line *)

(** What the machine is asked for can be put on a line: its console, init and
    parameters hold no white space, and its init arguments are none the guest reads.
    (A console such as "ttyS0 ip=::::" would bring a parameter of its own.) *)
Definition machine_ok (c : Cmdline) : Prop :=
  spaceless (cl_Console c) ∧ word (cl_Init c) ∧ Forall word (cl_InitArgs c ++ cl_Extra c) ∧ Forall quiet (cl_InitArgs c).

(** The machine puts the extra parameters on the line one after the other, adds
    its own around them ([console=], [init=] and the like, none of them one the guest
    reads), and profiling only adds parameters. *)
Class MachineCmdline (prof : Cmdline → Cmdline) (str : Cmdline → string) : Prop := {
  mc_String : ∀ c, machine_ok c →
    ∃ pre post, Fields (str c) = pre ++ cl_Extra c ++ post ∧ Forall quiet pre ∧ Forall quiet post;
  mc_Profiling : ∀ c, cl_Console (prof c) = cl_Console c ∧ cl_Init (prof c) = cl_Init c ∧ cl_InitArgs (prof c) = cl_InitArgs c
    ∧ ∃ ext, cl_Extra (prof c) = cl_Extra c ++ ext ∧ Forall (λ t, word t ∧ quiet t) ext
}.

Record cmdline_ok (cfg : KernelCmdlineConfig) : Prop := {
  ck_net : match kc_Network cfg with Some n => net_ok n | None => True end;
  ck_console : spaceless (kc_Console cfg);
  ck_args : Forall (λ t, word t ∧ quiet t) (kc_InitArgs cfg);
  ck_ports : 0 ≤ kc_VsockRPCPort cfg ∧ 0 ≤ kc_VsockStreamPort cfg ∧ 0 ≤ kc_VsockCID cfg;
  ck_disks : 0 ≤ kc_DiskCount cfg < two63;
  ck_extras : match kc_ExtrasDiskIndex cfg with Some i => 0 ≤ i < 26 | None => True end
}.

Lemma fmt_d_spaceless n : 0 ≤ n → spaceless (fmt_d n).
Proof.
  intros Hn. eapply all_chars_impl, fmt_d_digits, Hn. intros a Ha. unfold is_digit, is_space in *.
  set (k := nat_of_ascii a) in *. apply andb_true_iff in Ha as [H1%Nat.leb_le H2%Nat.leb_le].
  apply negb_true_iff, orb_false_iff. split; [apply Nat.eqb_neq; lia|].
  apply andb_false_iff. right. apply Nat.leb_gt. lia.
Qed.

Lemma spaceless_app s t : spaceless s → spaceless t → spaceless (s +:+ t).
Proof. unfold spaceless. intros Hs Ht. by rewrite all_chars_app, Hs, Ht. Qed.

Lemma word_param a p s : spaceless (String a p) → spaceless s → word (String a p +:+ s).
Proof. intros Hp Hs. split; [done|]. by apply spaceless_app. Qed.

Lemma word_network n : net_ok n → word (buildNetworkParam (Some n)).
Proof.
  intros Hn. rewrite (proj1 (ip_fields n Hn)). destruct Hn as [_ _ _ Hs].
  inversion_clear Hs as [|? ? Hip Hs1]. inversion_clear Hs1 as [|? ? Hgw Hs2].
  inversion_clear Hs2 as [|? ? Hm Hd].
  assert (Hdns : ∀ l, Forall spaceless l → spaceless (dns_suffix l)).
  { induction 1 as [|d l Hx _ IH]; [done|]. simpl. apply (spaceless_app ":"); [done|].
    by apply spaceless_app. }
  assert (Hcons : ∀ a s, negb (is_space a) = true → spaceless s → spaceless (String a s)).
  { intros a s Ha Hx. unfold spaceless. cbn [all_chars]. by rewrite Ha, Hx. }
  apply word_param; [done|]. repeat (apply spaceless_app || apply Hcons); try done.
  by apply Hdns, Forall_take.
Qed.

Lemma word_guestParams cfg : cmdline_ok cfg → Forall word (guestParams cfg).
Proof.
  intros [Hnet _ _ _ Hd He]. unfold guestParams. rewrite !Forall_app. split; [by repeat constructor|].
  split; [|split].
  - destruct (kc_Network cfg) as [n|]; [|done]. destruct (String.eqb _ _); [done|].
    constructor; [by apply word_network|done].
  - constructor; [|done]. apply word_param; [done|]. apply fmt_d_spaceless. lia.
  - destruct (kc_ExtrasDiskIndex cfg) as [i|]; [|done]. constructor; [|done].
    apply word_param; [done|]. apply fmt_d_spaceless. lia.
Qed.

Lemma initArgs_ok cfg : cmdline_ok cfg → Forall (λ t, word t ∧ quiet t) (buildInitArgs cfg).
Proof.
  intros [_ _ Ha (H1 & H2 & H3) _ _]. unfold buildInitArgs. apply Forall_app. split; [|done].
  repeat constructor; try done; apply spaceless_app; try done; by apply fmt_d_spaceless.
Qed.

Lemma profile_marker_ok : word "spin.profile" ∧ quiet "spin.profile".
Proof. unfold word, quiet. by split_and!. Qed.

Lemma init_word : word "/sbin/vminitd".
Proof. by split. Qed.

(** What the guest finds: the parameters in order, among others it ignores. *)
Lemma cmdline_tokens prof str `{!MachineCmdline prof str} cfg : cmdline_ok cfg →
  ∃ pre post, Fields (BuildKernelCmdline prof str cfg) = pre ++ guestParams cfg ++ post
              ∧ Forall quiet pre ∧ Forall quiet post.
Proof.
  intros Hok. pose proof (word_guestParams cfg Hok) as Hw. pose proof (initArgs_ok cfg Hok) as Hi.
  apply Forall_and in Hi as [Hiw Hiq]. unfold BuildKernelCmdline. destruct (kc_Debug cfg).
  - set (c := mkCmdline (kc_Console cfg) _ _ _ _ _). destruct (mc_Profiling c) as (Hco & Hin & Hia & ext & Hext & Hq).
    apply Forall_and in Hq as [Hqw Hqq].
    destruct (mc_String (mkCmdline (cl_Console (prof c)) (cl_Quiet (prof c)) (cl_LogLevel (prof c))
      (cl_Init (prof c)) (cl_InitArgs (prof c)) (cl_Extra (prof c) ++ ["spin.profile"%string])))
      as (pre & post & Hf & Hpre & Hpost); cbn [cl_InitArgs cl_Extra] in *.
    + unfold machine_ok. cbn [cl_Console cl_Init cl_InitArgs cl_Extra]. rewrite Hco, Hin, Hia, Hext, !Forall_app.
      split_and!; try done; [apply Hok|]. constructor; [apply profile_marker_ok|done].
    + exists pre, (ext ++ ["spin.profile"%string] ++ post).
      split; [etransitivity; [exact Hf|]; rewrite Hext; by rewrite <- !app_assoc|]. split; [done|].
      rewrite !Forall_app. split_and!; try done. constructor; [apply profile_marker_ok|done].
  - apply mc_String. split; [apply Hok|]. split; [apply init_word|]. split; [by apply Forall_app|done].
Qed.

(** ** The round trip *)

(** The letter of a virtio disk. *)
Definition disk_name (i : Z) : string := "/dev/vd" +:+ String (ascii_of_nat (Z.to_nat (97 + i))) "".

Definition expected_identity (cfg : KernelCmdlineConfig) : Identity :=
  mkIdentity (expected_network <$> kc_Network cfg) (kc_DiskCount cfg)
    (match kc_ExtrasDiskIndex cfg with Some i => disk_name i | None => "" end) false.

Lemma Forall_no_prefix prefix l : (∀ t, quiet t → CutPrefix prefix t = None) → Forall quiet l →
  Forall (λ t, CutPrefix prefix t = None) l.
Proof. intros H Hl. eapply Forall_impl; [exact Hl|]. auto. Qed.

Lemma cut_first_none prefix l : Forall (λ t, CutPrefix prefix t = None) l → cut_first prefix l = None.
Proof. intros H. rewrite <- (app_nil_r l). by rewrite cut_first_quiet. Qed.

Lemma existsb_no_prefix prefix l : Forall (λ t, CutPrefix prefix t = None) l →
  existsb (λ p, HasPrefix p prefix) l = false.
Proof. unfold HasPrefix. induction 1 as [|t l Ht _ IH]; simpl; [done|]. by rewrite Ht. Qed.

(** No parameter of the host's but its own has any of the prefixes. *)
Lemma guestParams_network cfg n : kc_Network cfg = Some n → net_ok n →
  guestParams cfg = ["systemd.show_status=0"; "systemd.log_level=warning"]%string
    ++ [buildNetworkParam (Some n)] ++ ["spin.disks=" +:+ fmt_d (kc_DiskCount cfg)]
    ++ match kc_ExtrasDiskIndex cfg with Some i => ["spin.extras_disk=" +:+ fmt_d i] | None => [] end.
Proof.
  intros Hn Hok. unfold guestParams. rewrite Hn.
  assert (Hne : buildNetworkParam (Some n) ≠ "") by (rewrite (proj1 (ip_fields n Hok)); done).
  by rewrite (proj2 (String.eqb_neq _ _) Hne).
Qed.

Lemma parseIPConfig_built cfg pre post : cmdline_ok cfg → Forall quiet pre → Forall quiet post → ∀ cmdline,
  Fields cmdline = pre ++ guestParams cfg ++ post → parseIPConfig cmdline = expected_network <$> kc_Network cfg.
Proof.
  intros Hok Hpre Hpost cmdline Hf. unfold parseIPConfig. rewrite Hf.
  rewrite cut_first_quiet by (eapply Forall_no_prefix, Hpre; by intros t (? & _)).
  destruct Hok as [Hn _ _ _ _ _]. destruct (kc_Network cfg) as [n|] eqn:Hk.
  - rewrite (guestParams_network cfg n Hk Hn). destruct (ip_fields n Hn) as [Hip Hsplit].
    cbn [app cut_first]. rewrite Hip, CutPrefix_app. cbn. f_equal. by apply parse_fields.
  - rewrite cut_first_none; [done|]. apply Forall_app. split.
    + unfold guestParams. rewrite Hk. cbn [buildNetworkParam String.eqb app].
      destruct (kc_ExtrasDiskIndex cfg); by repeat constructor.
    + eapply Forall_no_prefix, Hpost. by intros t (? & _).
Qed.

Lemma disks_built cfg pre post : cmdline_ok cfg → Forall quiet pre → Forall quiet post → ∀ cmdline,
  Fields cmdline = pre ++ guestParams cfg ++ post →
  cmdlineValue cmdline "spin.disks=" = Some (fmt_d (kc_DiskCount cfg)).
Proof.
  intros Hok Hpre Hpost cmdline Hf. unfold cmdlineValue. rewrite Hf.
  rewrite cut_first_quiet by (eapply Forall_no_prefix, Hpre; by intros t (_ & ? & _)).
  destruct Hok as [Hn _ _ _ _ _]. destruct (kc_Network cfg) as [n|] eqn:Hk.
  - rewrite (guestParams_network cfg n Hk Hn). rewrite (proj1 (ip_fields n Hn)). reflexivity.
  - unfold guestParams. rewrite Hk. reflexivity.
Qed.

Lemma extras_built cfg pre post : cmdline_ok cfg → Forall quiet pre → Forall quiet post → ∀ cmdline,
  Fields cmdline = pre ++ guestParams cfg ++ post →
  DeviceFromCmdline cmdline =
    Some (match kc_ExtrasDiskIndex cfg with Some i => disk_name i | None => "" end, false)
  ∧ hasParam cmdline "spin.metadata_addr=" = false.
Proof.
  intros Hok Hpre Hpost cmdline Hf. unfold DeviceFromCmdline, hasParam. rewrite Hf. split.
  - rewrite parse_extras_quiet by done.
    assert (Hend : ∀ dev, parse_extras post dev false = Some (dev, false)).
    { intros dev. rewrite <- (app_nil_r post). by rewrite parse_extras_quiet. }
    pose proof (ck_extras _ Hok) as He. destruct Hok as [Hn _ _ _ _ _].
    destruct (kc_Network cfg) as [n|] eqn:Hk;
      [rewrite (guestParams_network cfg n Hk Hn), (proj1 (ip_fields n Hn))|unfold guestParams; rewrite Hk];
      (destruct (kc_ExtrasDiskIndex cfg) as [i|]; [|by apply Hend]);
      (transitivity (match Atoi (fmt_d i) with
         | Some index => parse_extras post (disk_name index) false | None => None end); [reflexivity|]);
      rewrite Atoi_fmt_d by (unfold two63; lia); apply Hend.
  - apply existsb_no_prefix. rewrite !Forall_app. split_and!.
    + eapply Forall_no_prefix, Hpre. by intros t (_ & _ & _ & ? & _).
    + destruct Hok as [Hn _ _ _ _ _]. destruct (kc_Network cfg) as [n|] eqn:Hk;
        [rewrite (guestParams_network cfg n Hk Hn), (proj1 (ip_fields n Hn))|unfold guestParams; rewrite Hk];
        destruct (kc_ExtrasDiskIndex cfg) as [i|]; by repeat constructor.
    + eapply Forall_no_prefix, Hpost. by intros t (_ & _ & _ & ? & _).
Qed.

Lemma identity_built prof str `{!MachineCmdline prof str} cfg : cmdline_ok cfg →
  FromCmdline (BuildKernelCmdline prof str cfg) = expected_identity cfg.
Proof.
  intros Hok. destruct (cmdline_tokens prof str cfg Hok) as (pre & post & Hf & Hpre & Hpost).
  unfold FromCmdline, expected_identity.
  rewrite (parseIPConfig_built cfg pre post Hok Hpre Hpost _ Hf).
  rewrite (disks_built cfg pre post Hok Hpre Hpost _ Hf).
  destruct (extras_built cfg pre post Hok Hpre Hpost _ Hf) as [-> ->].
  rewrite Atoi_fmt_d by apply Hok. by destruct (kc_Network cfg).
Qed.

(** C37: What the guest reads from its kernel command line is what the host put
    there: address, gateway, netmask, device eth0 and the first two name
    servers, the number of disks and the extras disk. For a configuration
    whose network, if there is one, has an address, whose address, gateway,
    netmask and name servers hold no colon (so IPv4) and no white space,
    whose console holds no white space, whose extra init arguments are words
    the guest's readers do not look at, with an extras index below 26; on
    any machine module that puts these parameters on the line in order,
    among others the guest does not read. *)
Theorem identity_roundtrip prof str `{!MachineCmdline prof str} cfg : cmdline_ok cfg →
  FromCmdline (BuildKernelCmdline prof str cfg) = expected_identity cfg.
Proof. apply identity_built. done. Qed.

(** ** A concrete machine module *)

Definition demo_String (c : Cmdline) : string :=
  join_with " " (["console=" +:+ cl_Console c; "tsc=reliable"; "init=" +:+ cl_Init c]%string ++ cl_Extra c
                 ++ ["--"%string] ++ cl_InitArgs c).

#[export] Instance demo_cmdline_machine : MachineCmdline (λ c, c) demo_String.
Proof.
  split.
  - intros c (Hc & Hi & Hw & Hq). apply Forall_app in Hw as [Hw1 Hw2].
    exists ["console=" +:+ cl_Console c; "tsc=reliable"; "init=" +:+ cl_Init c]%string, (["--"%string] ++ cl_InitArgs c).
    assert (W1 : word ("console=" +:+ cl_Console c)) by (by apply word_param).
    assert (W2 : word ("init=" +:+ cl_Init c)) by (apply word_param; [done|apply Hi]).
    assert (W3 : word "tsc=reliable" ∧ word "--") by (unfold word; by split_and!).
    assert (Q1 : quiet ("console=" +:+ cl_Console c) ∧ quiet ("init=" +:+ cl_Init c) ∧ quiet "tsc=reliable" ∧ quiet "--")
      by (unfold quiet; by split_and!).
    destruct W3, Q1 as (? & ? & ? & ?). split_and!.
    + apply Fields_join. apply Forall_app. split; [apply Forall_cons; split; [done|]; apply Forall_cons; split; [done|]; by apply Forall_singleton|].
      apply Forall_app. split; [done|]. apply Forall_app. split; [by apply Forall_singleton|done].
    + apply Forall_cons; split; [done|]. apply Forall_cons; split; [done|]. by apply Forall_singleton.
    + by apply Forall_cons.
  - intros c. split_and!; [done..|]. exists []. split; [by rewrite app_nil_r|constructor].
Qed.

Definition demo_cfg : KernelCmdlineConfig :=
  mkCmdlineConfig "ttyS0" 1025 1026 7
    (Some (mkNetworkConfig "eth0" "10.88.0.5" "10.88.0.1" "255.255.255.0" ["8.8.8.8"; "1.1.1.1"; "9.9.9.9"]))
    ["-debug"] true 3 2 (Some 1) true.

Lemma demo_cfg_ok : cmdline_ok demo_cfg.
Proof.
  split; cbn; try (vm_compute; split_and!; discriminate).
  - split; cbn; try done; repeat constructor; done.
  - done.
  - constructor; [|constructor]. unfold word, quiet. by split_and!.
  - vm_compute. split; [discriminate|reflexivity].
  - vm_compute. split; [discriminate|reflexivity].
Qed.

Lemma identity_roundtrip_witness :
  FromCmdline (BuildKernelCmdline (λ c, c) demo_String demo_cfg) = expected_identity demo_cfg
  ∧ id_ExtrasDisk (expected_identity demo_cfg) = "/dev/vdb"%string.
Proof. split; [|reflexivity]. apply (identity_roundtrip (λ c, c) demo_String), demo_cfg_ok. Defined.

(** The condition on colons is needed: an IPv6 name server would be split.  The
    shim only passes IPv4 ones (shim/platform/network/linux.go). *)
Theorem ipv6_dns_is_garbled :
  let n := mkNetworkConfig "eth0" "10.88.0.5" "10.88.0.1" "255.255.255.0" ["fd00::53"] in
  (ni_DNS <$> parseIPConfig (buildNetworkParam (Some n))) = Some ["fd00"%string].
Proof. vm_compute. done. Qed.
