(* ===== verification/Freeze.v ===== *)
(** Freezing the guest's writable file systems: guest/vminit/system/freeze.go and
    the two RPCs of guest/services/system.go that call it.

    The kernel's part is [kernel]: which superblocks are frozen, which superblock
    a mount point belongs to, and whether an ioctl fails for another reason than
    the file system's state. *)
From S2P Require Import Prelude GoStrings.
From Stdlib Require Import Ascii.

(** ** /proc/self/mountinfo *)

Definition freezable (fstype : string) : bool := String.eqb fstype "ext4".

Definition octal_val (a : ascii) : option nat :=
  let n := nat_of_ascii a in if (48 <=? n)%nat && (n <=? 55)%nat then Some (n - 48)%nat else None.

(** [parseOctal3]; the byte conversion keeps the low eight bits. *)
Definition parseOctal3 (a b c : ascii) : option ascii :=
  match octal_val a, octal_val b, octal_val c with
  | Some x, Some y, Some z => Some (ascii_of_nat (((x * 8 + y) * 8 + z) mod 256))
  | _, _, _ => None
  end.

(** [unescapeMountField]: a backslash followed by three octal digits is a byte,
    any other backslash is itself. *)
Fixpoint unescapeMountField (s : string) : string :=
  match s with
  | String "\" ((String a (String b (String c rest))) as tl) =>
      match parseOctal3 a b c with
      | Some v => String v (unescapeMountField rest)
      | None => String "\" (unescapeMountField tl)
      end
  | String x tl => String x (unescapeMountField tl)
  | EmptyString => EmptyString
  end.

(** The mount point of one line, when its file system is freezable: the type is
    the field after the first dash. *)
Definition freezable_line (line : string) : option string :=
  let fields := Fields line in
  if (length fields <? 5)%nat then None
  else match list_find (λ f, f = "-"%string) fields with
       | Some (sep, _) =>
           match fields !! S sep with
           | Some fstype => if freezable fstype then unescapeMountField <$> fields !! 4 else None
           | None => None
           end
       | None => None
       end.

Definition newline : ascii := ascii_of_nat 10.
Definition parseFreezableMounts (data : string) : list string := omap freezable_line (Split data newline).

(** ** The kernel *)

Record kernel := mkKernel {
  k_frozen : gset nat;
  k_superblock : string → nat;
  k_fails : bool → string → option error
}.

Definition ebusy : error := mkError (Errno (EOTHER 16)) "device or resource busy".
Definition einval : error := mkError (Errno (EOTHER 22)) "invalid argument".

(** The FIFREEZE ([true]) and FITHAW ([false]) ioctls, the open included. *)
Definition ioctlNoArg (freeze : bool) (mp : string) (k : kernel) : option error * kernel :=
  match k_fails k freeze mp with
  | Some e => (Some e, k)
  | None =>
      let sb := k_superblock k mp in
      if freeze then
        if decide (sb ∈ k_frozen k) then (Some ebusy, k)
        else (None, mkKernel ({[ sb ]} ∪ k_frozen k) (k_superblock k) (k_fails k))
      else
        if decide (sb ∈ k_frozen k)
        then (None, mkKernel (k_frozen k ∖ {[ sb ]}) (k_superblock k) (k_fails k))
        else (Some einval, k)
  end.

(** ** Freeze and thaw *)

Fixpoint ThawFilesystems_ (paths : list string) (firstErr : option error) (k : kernel) : option error * kernel :=
  match paths with
  | [] => (firstErr, k)
  | mp :: rest =>
      let '(err, k) := ioctlNoArg false mp k in
      match err with
      | Some e => ThawFilesystems_ rest
                    (match firstErr with None => Some (wrap ("FITHAW " +:+ mp) e) | _ => firstErr end) k
      | None => ThawFilesystems_ rest firstErr k
      end
  end.
Definition thaw_paths (paths : list string) (k : kernel) : option error * kernel := ThawFilesystems_ paths None k.

Fixpoint freeze_loop (mounts frozen : list string) (k : kernel) : res (list string) * kernel :=
  match mounts with
  | [] => (Ok frozen, k)
  | mp :: rest =>
      let '(err, k) := ioctlNoArg true mp k in
      match err with
      | Some e => (Err (wrap ("FIFREEZE " +:+ mp) e), (thaw_paths frozen k).2)
      | None => freeze_loop rest (frozen ++ [mp]) k
      end
  end.

Definition FreezeWritableFilesystems (mountinfo : res string) (k : kernel) : res (list string) * kernel :=
  match mountinfo with
  | Err e => (Err e, k)
  | Ok data => freeze_loop (parseFreezableMounts data) [] k
  end.

(** The RPCs; the service remembers the mount points that await a thaw. *)
Record systemService := mkSystem { s_frozen : list string; s_kernel : kernel }.

Definition FreezeFilesystems (mountinfo : res string) (s : systemService) : res (list string) * systemService :=
  match FreezeWritableFilesystems mountinfo (s_kernel s) with
  | (Err e, k) => (Err e, mkSystem (s_frozen s) k)
  | (Ok frozen, k) => (Ok frozen, mkSystem frozen k)
  end.

Definition ThawFilesystems (s : systemService) : option error * systemService :=
  let '(err, k) := thaw_paths (s_frozen s) (s_kernel s) in (err, mkSystem [] k).

(** ** The escapes *)

(** What the kernel writes for a path (seq_path): space, tab, newline and
    backslash in octal. *)
Definition escape_char (a : ascii) : string :=
  match nat_of_ascii a with
  | 32 => "\040" | 9 => "\011" | 10 => "\012" | 92 => "\134"
  | _ => String a EmptyString
  end%nat.

Fixpoint escape (s : string) : string :=
  match s with EmptyString => EmptyString | String a s' => escape_char a +:+ escape s' end.

Lemma unescape_other a s : a ≠ "\"%char → unescapeMountField (String a s) = String a (unescapeMountField s).
Proof. intros H. by destruct a as [[] [] [] [] [] [] [] []]. Qed.

Lemma unescape_octal a b c s v : parseOctal3 a b c = Some v →
  unescapeMountField (String "\" (String a (String b (String c s)))) = String v (unescapeMountField s).
Proof. intros H. cbn [unescapeMountField]. by rewrite H. Qed.

Theorem mount_field_roundtrip s : unescapeMountField (escape s) = s.
Proof.
  induction s as [|a s IH]; [done|]. cbn [escape].
  destruct (decide (a = " "%char)) as [->|H1].
  { change (escape_char " "%char +:+ escape s) with
      (String "\" (String "0" (String "4" (String "0" (escape s))))).
    rewrite (unescape_octal _ _ _ _ " "%char) by reflexivity. by rewrite IH. }
  destruct (decide (a = ascii_of_nat 9)) as [->|H2].
  { change (escape_char (ascii_of_nat 9) +:+ escape s) with
      (String "\" (String "0" (String "1" (String "1" (escape s))))).
    rewrite (unescape_octal _ _ _ _ (ascii_of_nat 9)) by reflexivity. by rewrite IH. }
  destruct (decide (a = newline)) as [->|H3].
  { change (escape_char newline +:+ escape s) with
      (String "\" (String "0" (String "1" (String "2" (escape s))))).
    rewrite (unescape_octal _ _ _ _ newline) by reflexivity. by rewrite IH. }
  destruct (decide (a = "\"%char)) as [->|H4].
  { change (escape_char "\"%char +:+ escape s) with
      (String "\" (String "1" (String "3" (String "4" (escape s))))).
    rewrite (unescape_octal _ _ _ _ "\"%char) by reflexivity. by rewrite IH. }
  assert (Hc : escape_char a = String a EmptyString).
  { destruct a as [[] [] [] [] [] [] [] []]; try done. }
  rewrite Hc. change (String a "" +:+ escape s) with (String a (escape s)).
  rewrite unescape_other by done. by rewrite IH.
Qed.

(** ** All or nothing *)

(** The superblocks of mount points. *)
Definition sbs (k : kernel) (l : list string) : list nat := k_superblock k <$> l.

(** Thawing works. *)
Definition thaws (k : kernel) : Prop := ∀ mp, k_fails k false mp = None.

(** Two kernels that differ in what is frozen. *)
Definition same_kernel (k k' : kernel) : Prop :=
  k_superblock k' = k_superblock k ∧ k_fails k' = k_fails k.

Lemma ioctl_same b mp k : same_kernel k (ioctlNoArg b mp k).2.
Proof. unfold ioctlNoArg. destruct (k_fails k b mp), b; try case_decide; by split. Qed.

Lemma same_kernel_trans k1 k2 k3 : same_kernel k1 k2 → same_kernel k2 k3 → same_kernel k1 k3.
Proof. intros [H1 H2] [H3 H4]. split; congruence. Qed.

Lemma thaw_same l e k : same_kernel k (ThawFilesystems_ l e k).2.
Proof.
  revert e k. induction l as [|x l IH]; intros e k; cbn [ThawFilesystems_]; [done|].
  pose proof (ioctl_same false x k) as Hs. destruct (ioctlNoArg false x k) as [[e1|] k1]; cbn in Hs;
    (eapply same_kernel_trans; [exact Hs|apply IH]).
Qed.

(** Thawing what was frozen on top of [F] leaves [F]. *)
Lemma thaw_frozen l F k : thaws k → NoDup (sbs k l) → (∀ sb, sb ∈ sbs k l → sb ∉ F) →
  k_frozen k = list_to_set (sbs k l) ∪ F → ∀ e,
  ∃ k', ThawFilesystems_ l e k = (e, k') ∧ k_frozen k' = F ∧ same_kernel k k'.
Proof.
  revert k. induction l as [|mp l IH]; intros k Ht Hnd Hdis Hf e; cbn [ThawFilesystems_].
  { exists k. split; [done|]. rewrite Hf. cbn. split; [set_solver|done]. }
  cbn in Hnd, Hdis, Hf. apply NoDup_cons in Hnd as [Hnin Hnd].
  unfold ioctlNoArg. rewrite Ht. rewrite decide_True by (rewrite Hf; set_solver).
  edestruct (IH (mkKernel (k_frozen k ∖ {[k_superblock k mp]}) (k_superblock k) (k_fails k)))
    as (k' & Hk' & Hfr & Hs); [done|done| |cbn|].
  - intros sb Hsb. apply Hdis. by right.
  - rewrite Hf. assert (Hm : k_superblock k mp ∉ F) by (apply Hdis; left).
    assert (Hm' : k_superblock k mp ∉ (list_to_set (sbs k l) : gset nat)).
    { by rewrite elem_of_list_to_set. }
    set_solver.
  - exists k'. split; [exact Hk'|]. split; [done|]. by destruct Hs.
Qed.

Lemma freeze_loop_spec mounts frozen F k :
  NoDup (sbs k frozen) → (∀ sb, sb ∈ sbs k frozen → sb ∉ F) → k_frozen k = list_to_set (sbs k frozen) ∪ F →
  let '(r, k') := freeze_loop mounts frozen k in
  same_kernel k k' ∧
  match r with
  | Ok l => l = frozen ++ mounts ∧ NoDup (sbs k l) ∧ (∀ sb, sb ∈ sbs k l → sb ∉ F)
            ∧ k_frozen k' = list_to_set (sbs k l) ∪ F
  | Err _ => thaws k → k_frozen k' = F
  end.
Proof.
  revert frozen k. induction mounts as [|mp rest IH]; intros frozen k Hnd Hdis Hf; cbn [freeze_loop].
  { split; [done|]. by rewrite app_nil_r. }
  unfold ioctlNoArg. destruct (k_fails k true mp) as [e|] eqn:Hfail; [|case_decide as Hin].
  1,2: split; [apply thaw_same|]; intros Ht; unfold thaw_paths;
       by destruct (thaw_frozen frozen F k Ht Hnd Hdis Hf None) as (k' & -> & ? & _).
  rewrite Hf in Hin. apply not_elem_of_union in Hin as [Hin1 Hin2].
  specialize (IH (frozen ++ [mp])
    (mkKernel ({[k_superblock k mp]} ∪ k_frozen k) (k_superblock k) (k_fails k))).
  destruct (freeze_loop rest (frozen ++ [mp]) _) as [r k'].
  assert (Hsb : sbs k (frozen ++ [mp]) = sbs k frozen ++ [k_superblock k mp])
    by (unfold sbs; by rewrite fmap_app).
  change (sbs (mkKernel _ (k_superblock k) (k_fails k))) with (sbs k) in IH.
  rewrite Hsb in IH. cbn [k_frozen] in IH. destruct IH as [Hs Hr].
  - apply NoDup_app. split; [done|]. split; [|apply NoDup_singleton].
    intros x Hx ->%list_elem_of_singleton. apply Hin1. by apply elem_of_list_to_set.
  - intros sb [Hx|Hx]%elem_of_app; [by apply Hdis|]. apply list_elem_of_singleton in Hx. by subst.
  - rewrite Hf, list_to_set_app_L. cbn. set_solver.
  - split; [done|]. destruct r as [l|e]; [|done]. destruct Hr as (-> & Hr).
    rewrite <- app_assoc in *. done.
Qed.

Theorem Freeze_all_or_nothing mountinfo k :
  let '(r, k') := FreezeWritableFilesystems mountinfo k in
  match r with
  | Ok l => (∃ data, mountinfo = Ok data ∧ l = parseFreezableMounts data)
            ∧ k_frozen k' = list_to_set (sbs k l) ∪ k_frozen k
  | Err _ => thaws k → k_frozen k' = k_frozen k
  end.
Proof.
  unfold FreezeWritableFilesystems. destruct mountinfo as [data|e]; [|done].
  pose proof (freeze_loop_spec (parseFreezableMounts data) [] (k_frozen k) k) as H.
  destruct (freeze_loop _ [] k) as [[l|e] k']; destruct H as [_ H]; cbn; try done;
    try (by apply NoDup_nil_2); try (intros sb Hsb; by apply elem_of_nil in Hsb); try set_solver.
Qed.

Theorem freeze_thaw_roundtrip mountinfo s l s1 : thaws (s_kernel s) →
  FreezeFilesystems mountinfo s = (Ok l, s1) →
  ∃ s2, ThawFilesystems s1 = (None, s2) ∧ k_frozen (s_kernel s2) = k_frozen (s_kernel s) ∧ s_frozen s2 = [].
Proof.
  intros Ht. unfold FreezeFilesystems, FreezeWritableFilesystems. destruct mountinfo as [data|e]; [|done].
  pose proof (freeze_loop_spec (parseFreezableMounts data) [] (k_frozen (s_kernel s)) (s_kernel s)) as H.
  destruct (freeze_loop _ [] _) as [[l'|e] k']; destruct H as [Hs H]; cbn; try done;
    try (by apply NoDup_nil_2); try (intros sb Hsb; by apply elem_of_nil in Hsb); try set_solver.
  intros [= <- <-]. destruct H as (-> & Hnd & Hdis & Hf). destruct Hs as [Hs1 Hs2].
  unfold ThawFilesystems, thaw_paths. cbn [s_frozen s_kernel].
  destruct (thaw_frozen ([] ++ parseFreezableMounts data) (k_frozen (s_kernel s)) k') with (e := @None error)
    as (k2 & -> & Hk2 & _); unfold sbs, thaws in *; rewrite ?Hs1, ?Hs2; try done.
  by eexists.
Qed.

(** ** Concrete kernels *)

Definition demo_mountinfo : string :=
  "21 1 254:0 / / rw,relatime - erofs /dev/vda ro" +:+ String newline
  ("22 1 254:16 / /mnt/rw\040layer rw,relatime shared:1 - ext4 /dev/vdb rw" +:+ String newline
   ("23 1 254:32 / /mnt/data rw - ext4 /dev/vdc rw" +:+ String newline "")).

Definition demo_sb (mp : string) : nat := if String.eqb mp "/mnt/data" then 2 else 1.
Definition demo_kernel (thaw_fails : bool) : kernel :=
  mkKernel ∅ demo_sb
    (λ freeze mp, if negb freeze && thaw_fails && String.eqb mp "/mnt/data" then Some einval else None).

Lemma freeze_thaw_roundtrip_witness :
  ∃ s1 s2, FreezeFilesystems (Ok demo_mountinfo) (mkSystem [] (demo_kernel false))
             = (Ok ["/mnt/rw layer"; "/mnt/data"]%string, s1)
    ∧ ThawFilesystems s1 = (None, s2) ∧ k_frozen (s_kernel s2) = ∅.
Proof.
  destruct (FreezeFilesystems (Ok demo_mountinfo) (mkSystem [] (demo_kernel false))) as [r s1] eqn:Hf.
  assert (Hr : r = Ok ["/mnt/rw layer"; "/mnt/data"]%string).
  { change r with (r, s1).1. rewrite <- Hf. vm_compute. reflexivity. }
  rewrite Hr in Hf.
  destruct (freeze_thaw_roundtrip (Ok demo_mountinfo) (mkSystem [] (demo_kernel false)) _ s1
              ltac:(intros mp; reflexivity) Hf) as (s2 & H1 & H2 & _).
  exists s1, s2. split; [rewrite Hr; reflexivity|]. split; [exact H1|exact H2].
Defined.

(** A thaw that fails for one mount point forgets it: the next thaw succeeds and
    does nothing, and the file system stays frozen. *)
Theorem failed_thaw_is_forgotten :
  let s1 := (FreezeFilesystems (Ok demo_mountinfo) (mkSystem [] (demo_kernel true))).2 in
  let s2 := (ThawFilesystems s1).2 in
  (ThawFilesystems s1).1 ≠ None ∧ ThawFilesystems s2 = (None, s2) ∧ k_frozen (s_kernel s2) = {[ 2 ]}.
Proof. split_and!; [by vm_compute|by vm_compute|]. vm_compute. done. Qed.
