(* ===== verification/ShimIO.v ===== *)
(** Forwarding the container's standard streams: internal/shim/task/io.go.

    The world holds the open handles (vsock streams, FIFO ends, files), the
    goroutines that copy output and what they have moved; [pio_step] lets them and
    the set-up interleave.  A chunk is what one Read returns. *)
From S2P Require Import Prelude GoStrings GoState GoText GoURL.

Record Stdio := mkStdio { Stdin : string; Stdout : string; Stderr : string; Terminal : bool }.

Definition IsNull (s : Stdio) : bool :=
  bool_decide (Stdin s = "") && bool_decide (Stdout s = "") && bool_decide (Stderr s = "").

Definition defaultScheme : string := "fifo".

(** ** The world *)

Definition handle : Type := nat.
Definition chunk : Type := nat.

(** A vsock stream towards the guest: what the guest wrote and nobody read yet,
    and whether it has closed its end. *)
Record stream := mkStream { st_pending : list chunk; st_eof : bool }.

(** A writer: a handle of its own, or the file stdout and stderr share. *)
Inductive writer := WHandle (h : handle) | WShared.

Inductive cphase := CIdle | CHold (c : chunk) | CEnded | CClosed.

(** One goroutine of [startOutputCopy]. *)
Record copier := mkCopier {
  c_stream : option handle;
  c_writer : writer;
  c_phase : cphase;
  c_failed : bool;
  c_read : list chunk;
  c_written : list chunk
}.

Record ioworld := mkIO {
  io_next : nat;
  io_open : gset handle;
  io_closed : list handle;
  io_streams : gmap handle stream;
  io_copiers : list copier;
  (** [copying], [done] and the shared file with its count *)
  io_copying : Z;
  io_done : bool;
  io_same : option (handle * Z);
  io_stdin : option (handle * handle);
  io_crashed : bool
}.

Definition set_open next open closed w := mkIO next open closed (io_streams w) (io_copiers w)
  (io_copying w) (io_done w) (io_same w) (io_stdin w) (io_crashed w).
Definition set_streams x w := mkIO (io_next w) (io_open w) (io_closed w) x (io_copiers w)
  (io_copying w) (io_done w) (io_same w) (io_stdin w) (io_crashed w).
Definition set_copiers x w := mkIO (io_next w) (io_open w) (io_closed w) (io_streams w) x
  (io_copying w) (io_done w) (io_same w) (io_stdin w) (io_crashed w).
Definition set_copying n d w := mkIO (io_next w) (io_open w) (io_closed w) (io_streams w) (io_copiers w)
  n d (io_same w) (io_stdin w) (io_crashed w).
Definition set_same x w := mkIO (io_next w) (io_open w) (io_closed w) (io_streams w) (io_copiers w)
  (io_copying w) (io_done w) x (io_stdin w) (io_crashed w).
Definition set_stdin x w := mkIO (io_next w) (io_open w) (io_closed w) (io_streams w) (io_copiers w)
  (io_copying w) (io_done w) (io_same w) x (io_crashed w).
Definition set_crashed w := mkIO (io_next w) (io_open w) (io_closed w) (io_streams w) (io_copiers w)
  (io_copying w) (io_done w) (io_same w) (io_stdin w) true.

(** A new handle, and closing one. *)
Definition new_handle (w : ioworld) : handle * ioworld :=
  (io_next w, set_open (S (io_next w)) ({[io_next w]} ∪ io_open w) (io_closed w) w).
Definition close_handle (h : handle) (w : ioworld) : ioworld :=
  set_open (io_next w) (io_open w ∖ {[h]}) (io_closed w ++ [h]) w.

(** What the machine and the host answer. *)
Record ioenv := mkIOEnv {
  e_startStream : nat → res Z;
  e_isFifo : string → res bool;
  e_openFifo : string → bool → option error;
  e_mkdirAll : string → option error;
  e_openFile : string → option error
}.

Section io.
Context (env : ioenv).

(** ** Streams to the guest *)

Definition StartStream : ST ioworld (Z * handle) := λ w,
  match e_startStream env (io_next w) with
  | Err e => (Err (wrap "failed to start fifo stream" e), w)
  | Ok sid =>
      let '(h, w1) := new_handle w in
      (Ok (sid, h), set_streams (<[h := mkStream [] false]> (io_streams w1)) w1)
  end.

Definition stream_uri (sid : Z) : string := "stream://" +:+ fmt_d sid.

Record conns := mkConns { c0 : option handle; c1 : option handle; c2 : option handle }.

(** [for i, c := range conns { if c != nil && (i != 2 || c != conns[1]) { c.Close() } }] *)
Definition conns_handles (c : conns) : list handle :=
  option_list (c0 c) ++ option_list (c1 c) ++ (if decide (c2 c = c1 c) then [] else option_list (c2 c)).
Definition close_conns (c : conns) : ST ioworld () :=
  modify (λ w, foldl (flip close_handle) w (conns_handles c)).

Definition start_one (wanted : string) : ST ioworld (option (Z * handle)) :=
  if decide (wanted = "") then ret None else do! r := StartStream in ret (Some r).

Definition or_close {A} (c : conns) (m : ST ioworld A) : ST ioworld A := on_error m (close_conns c).

Definition uri_or (s : string) (r : option (Z * handle)) : string :=
  match r with Some (sid, _) => stream_uri sid | None => s end.

Definition createStreams (sio : Stdio) : ST ioworld (Stdio * conns) :=
  do! r0 := start_one (Stdin sio) in
  let h0 := snd <$> r0 in
  do! r1 := or_close (mkConns h0 None None) (start_one (Stdout sio)) in
  let h1 := snd <$> r1 in
  let sio' := mkStdio (uri_or (Stdin sio) r0) (uri_or (Stdout sio) r1) (Stderr sio) (Terminal sio) in
  if decide (Stderr sio = "") then ret (sio', mkConns h0 h1 None)
  else if decide (Stderr sio = Stdout sio) then
    ret (mkStdio (Stdin sio') (Stdout sio') (Stdout sio') (Terminal sio), mkConns h0 h1 h1)
  else
    do! r2 := or_close (mkConns h0 h1 None) StartStream in
    ret (mkStdio (Stdin sio') (Stdout sio') (stream_uri r2.1) (Terminal sio), mkConns h0 h1 (Some r2.2)).

(** ** Set-up by scheme *)

Record forwardIOSetup := mkSetup {
  fs_pio : Stdio;
  fs_streams : conns;
  fs_passthrough : bool;
  fs_usePIOPaths : bool;
  fs_stdoutFilePath : string;
  fs_stderrFilePath : string
}.

Definition no_conns : conns := mkConns None None None.

Definition mkdir_for (what path : string) : ST ioworld () :=
  match e_mkdirAll env (Dir path) with
  | None => ret tt
  | Some e => fail (wrap ("failed to create parent directory for " +:+ what) e)
  end.

Definition stderr_path (pio : Stdio) (stdoutFilePath : string) : ST ioworld string :=
  if negb (bool_decide (Stderr pio = "")) && negb (bool_decide (Stderr pio = Stdout pio)) then
    match url_Parse (Stderr pio) with
    | Err e => fail (wrap "failed to parse stderr uri" e)
    | Ok u =>
        if bool_decide (u_Scheme u = "file") || bool_decide (u_Scheme u = "") then
          if decide (u_Path u = stdoutFilePath) then ret (u_Path u)
          else mkdir_for "stderr" (u_Path u) ;;! ret (u_Path u)
        else ret stdoutFilePath
    end
  else ret stdoutFilePath.

Definition setupFileScheme (pio : Stdio) (stdoutFilePath : string) : ST ioworld forwardIOSetup :=
  mkdir_for "stdout" stdoutFilePath ;;!
  do! stderrFilePath := stderr_path pio stdoutFilePath in
  do! r := createStreams pio in
  ret (mkSetup r.1 r.2 false true stdoutFilePath stderrFilePath).

Definition setupStreamScheme (pio : Stdio) : ST ioworld forwardIOSetup :=
  do! r := createStreams pio in ret (mkSetup r.1 r.2 false false "" "").

Definition setupForwardIO (pio : Stdio) : ST ioworld forwardIOSetup :=
  match url_Parse (Stdout pio) with
  | Err e => fail (wrap "failed to parse stdout uri" e)
  | Ok u =>
      let scheme := if decide (u_Scheme u = "") then defaultScheme else u_Scheme u in
      if decide (scheme = "stream") then ret (mkSetup pio no_conns true false "" "")
      else if decide (scheme = "file") then setupFileScheme pio (u_Path u)
      else if bool_decide (scheme = "fifo") || bool_decide (scheme = "binary") || bool_decide (scheme = "pipe")
      then setupStreamScheme pio
      else fail (mkError ErrNotImplemented ("unsupported STDIO scheme " +:+ scheme))
  end.

(** ** Copying *)

(** [if copying.Add(-1) == 0 { close(done) }]; closing a closed channel panics. *)
Definition copy_finished (w : ioworld) : ioworld :=
  let n := (io_copying w - 1)%Z in
  if (n =? 0)%Z then
    if io_done w then set_crashed (set_copying n true w) else set_copying n true w
  else set_copying n (io_done w) w.

Definition open_handle (err : option error) (msg : string) : ST ioworld handle := λ w,
  match err with
  | Some e => (Err (wrap msg e), w)
  | None => let '(h, w1) := new_handle w in (Ok h, w1)
  end.

Definition get_same : ST ioworld (option (handle * Z)) := λ w, (Ok (io_same w), w).

Definition openOutputDestination (name stdout stderr : string) : ST ioworld (writer * option handle) :=
  match e_isFifo env name with
  | Err e => fail (wrap ("containerd-shim: checking if " +:+ fmt_q name +:+ " is fifo") e)
  | Ok true =>
      do! fw := open_handle (e_openFifo env name true)
                  ("containerd-shim: opening w/o fifo " +:+ fmt_q name +:+ " failed") in
      do! fr := open_handle (e_openFifo env name false)
                  ("containerd-shim: opening r/o fifo " +:+ fmt_q name +:+ " failed") in
      ret (WHandle fw, Some fr)
  | Ok false =>
      do! same := get_same in
      match same with
      | Some (h, n) => modify (set_same (Some (h, (n + 1)%Z))) ;;! ret (WShared, None)
      | None =>
          match e_mkdirAll env (Dir name) with
          | Some e => fail (wrap ("containerd-shim: creating parent directory for " +:+ fmt_q name +:+ " failed") e)
          | None =>
              do! fw := open_handle (e_openFile env name)
                          ("containerd-shim: opening file " +:+ fmt_q name +:+ " failed") in
              if decide (stdout = stderr) then modify (set_same (Some (fw, 1%Z))) ;;! ret (WShared, None)
              else ret (WHandle fw, None)
          end
      end
  end.

Definition startOutputCopy (s : option handle) (wc : writer) : ST ioworld () :=
  modify (λ w, set_copiers (io_copiers w ++ [mkCopier s wc CIdle false [] []]) w).

(** [outputTarget]: the path and the stream. *)
Record outputTarget := mkTarget { t_name : string; t_stream : option handle }.

(** One turn of the loop of [copyStreams]; the result is the keepalive closer. *)
Definition start_target (stdout stderr : string) (t : outputTarget) : ST ioworld (option handle) :=
  if decide (t_name t = "") then modify copy_finished ;;! ret None
  else
    do! r := openOutputDestination (t_name t) stdout stderr in
    startOutputCopy (t_stream t) r.1 ;;!
    ret r.2.

Definition startStdinCopy (s : option handle) (stdin : string) : ST ioworld () :=
  if decide (stdin = "") then ret tt
  else
    do! f := open_handle (e_openFifo env stdin false) ("containerd-shim: opening " +:+ stdin +:+ " failed") in
    modify (set_stdin ((λ h, (h, f)) <$> s)).

Record fifoKeepalive := mkKeepalive { k_stdout : option handle; k_stderr : option handle }.

Definition targets (c : conns) (stdout stderr : string) : list outputTarget :=
  [mkTarget stdout (c1 c); mkTarget stderr (c2 c)].

Definition copyStreams (c : conns) (stdin stdout stderr : string) : ST ioworld fifoKeepalive :=
  modify (set_copying 2 false) ;;!
  do! k1 := start_target stdout stderr (mkTarget stdout (c1 c)) in
  do! k2 := start_target stdout stderr (mkTarget stderr (c2 c)) in
  startStdinCopy (c0 c) stdin ;;!
  ret (mkKeepalive k1 k2).

(** ** Forwarders *)

Inductive IOForwarder :=
  | noopForwarder (guest : Stdio)
  | directForwarder (guest : Stdio) (streams : conns) (keepalive : fifoKeepalive).

Definition GuestStdio (f : IOForwarder) : Stdio :=
  match f with noopForwarder g => g | directForwarder g _ _ => g end.

Definition forwardIOWithIDs (sio0 : Stdio) : ST ioworld (Stdio * IOForwarder) :=
  let sio := if Terminal sio0 then mkStdio (Stdin sio0) (Stdout sio0) "" (Terminal sio0) else sio0 in
  if IsNull sio then ret (sio, noopForwarder sio)
  else
    do! setup := setupForwardIO sio in
    if fs_passthrough setup then ret (fs_pio setup, noopForwarder (fs_pio setup))
    else
      let stdoutPath := if fs_usePIOPaths setup then fs_stdoutFilePath setup else Stdout sio in
      let stderrPath := if fs_usePIOPaths setup then fs_stderrFilePath setup else Stderr sio in
      do! ka := or_close (fs_streams setup)
                  (copyStreams (fs_streams setup) (Stdin sio) stdoutPath stderrPath) in
      ret (fs_pio setup, directForwarder (fs_pio setup) (fs_streams setup) ka).

Definition close_opt (h : option handle) : ST ioworld () :=
  match h with Some h => modify (close_handle h) | None => ret tt end.

(** Closing the streams ends the copies; then it waits for [done] or the context,
    whichever comes first ([waited]), and closes the keepalives last. *)
Definition Shutdown (f : IOForwarder) (waited : option error) : ST ioworld () :=
  match f with
  | noopForwarder _ => ret tt
  | directForwarder _ streams ka =>
      close_conns streams ;;!
      close_opt (k_stdout ka) ;;!
      close_opt (k_stderr ka) ;;!
      match waited with Some e => fail e | None => ret tt end
  end.
End io.

(** ** The copying goroutines *)

Definition upd_copier (i : nat) (c : copier) (w : ioworld) : ioworld :=
  set_copiers (<[i := c]> (io_copiers w)) w.

(** [wc.Close()]: the shared file is closed by its last user. *)
Definition close_writer (wr : writer) (w : ioworld) : ioworld :=
  match wr with
  | WHandle h => close_handle h w
  | WShared =>
      match io_same w with
      | Some (h, n) => let w1 := set_same (Some (h, (n - 1)%Z)) w in
                       if (0 <? n - 1)%Z then w1 else close_handle h w1
      | None => w
      end
  end.

Definition end_copy (i : nat) (c : copier) (failed : bool) (w : ioworld) : ioworld :=
  copy_finished (upd_copier i
    (mkCopier (c_stream c) (c_writer c) CEnded failed (c_read c) (c_written c)) w).

(** The state of one [copyStreams]: the targets its caller has still to start. *)
Definition pio : Type := ioworld * list outputTarget.

Section steps.
Context (env : ioenv) (stdout stderr : string).

Inductive pio_step : pio → pio → Prop :=
  (** the loop of copyStreams starts the next output *)
  | ps_start w t ts k w' :
      start_target env stdout stderr t w = (Ok k, w') → pio_step (w, t :: ts) (w', ts)
  (** the guest writes or closes its end *)
  | ps_guest w ts s p c :
      io_streams w !! s = Some (mkStream p false) →
      pio_step (w, ts) (set_streams (<[s := mkStream (p ++ [c]) false]> (io_streams w)) w, ts)
  | ps_guest_eof w ts s p :
      io_streams w !! s = Some (mkStream p false) →
      pio_step (w, ts) (set_streams (<[s := mkStream p true]> (io_streams w)) w, ts)
  (** a copy reads a chunk, writes it, ends at EOF or on an error, and closes *)
  | ps_read w ts i s wr f r wn c p e :
      io_copiers w !! i = Some (mkCopier (Some s) wr CIdle f r wn) →
      io_streams w !! s = Some (mkStream (c :: p) e) →
      pio_step (w, ts)
        (upd_copier i (mkCopier (Some s) wr (CHold c) f (r ++ [c]) wn)
           (set_streams (<[s := mkStream p e]> (io_streams w)) w), ts)
  | ps_write w ts i s wr f r wn c :
      io_copiers w !! i = Some (mkCopier s wr (CHold c) f r wn) →
      pio_step (w, ts) (upd_copier i (mkCopier s wr CIdle f r (wn ++ [c])) w, ts)
  | ps_eof w ts i s wr f r wn :
      io_copiers w !! i = Some (mkCopier (Some s) wr CIdle f r wn) →
      io_streams w !! s = Some (mkStream [] true) →
      pio_step (w, ts) (end_copy i (mkCopier (Some s) wr CIdle f r wn) f w, ts)
  | ps_fail w ts i c :
      io_copiers w !! i = Some c → (c_phase c = CIdle ∨ ∃ x, c_phase c = CHold x) →
      is_Some (c_stream c) →
      pio_step (w, ts) (end_copy i c true w, ts)
  (** a nil stream: the first Read dereferences it and the process dies *)
  | ps_nil w ts i wr f r wn :
      io_copiers w !! i = Some (mkCopier None wr CIdle f r wn) →
      pio_step (w, ts) (set_crashed w, ts)
  | ps_close w ts i s wr f r wn :
      io_copiers w !! i = Some (mkCopier s wr CEnded f r wn) →
      pio_step (w, ts) (close_writer wr (upd_copier i (mkCopier s wr CClosed f r wn) w), ts).
End steps.
