(* ===== verification/ShimIOProps.v ===== *)
(** Properties of the I/O forwarding: output is delivered before [done] is closed,
    the copies end, set-up releases its streams when it fails; and the inputs on
    which it crashes, reorders or leaks. *)
From S2P Require Import Prelude GoStrings GoState GoText GoURL ShimIO.

(** ** Delivery *)

Definition running (c : copier) : bool :=
  match c_phase c with CIdle | CHold _ => true | _ => false end.

Definition n_running (cs : list copier) : Z := Z.of_nat (length (List.filter running cs)).

Definition at_eof (w : ioworld) (s : handle) : Prop := io_streams w !! s = Some (mkStream [] true).

(** What a copy has done agrees with where it is. *)
Definition copier_ok (w : ioworld) (c : copier) : Prop :=
  is_Some (c_stream c) ∧
  match c_phase c with
  | CIdle => c_written c = c_read c
  | CHold x => c_read c = c_written c ++ [x]
  | CEnded | CClosed =>
      c_failed c = true ∨
      c_written c = c_read c ∧ ∃ s, c_stream c = Some s ∧ at_eof w s
  end.

Record io_inv (x : pio) : Prop := mkIOInv {
  inv_copying : io_copying x.1 = (Z.of_nat (length x.2) + n_running (io_copiers x.1))%Z;
  inv_done : io_done x.1 = (io_copying x.1 =? 0)%Z;
  inv_crashed : io_crashed x.1 = false;
  inv_copiers : Forall (copier_ok x.1) (io_copiers x.1);
  inv_targets : Forall (λ t, t_name t = "" ∨ is_Some (t_stream t)) x.2
}.

Lemma n_running_nonneg cs : (0 ≤ n_running cs)%Z.
Proof. unfold n_running. lia. Qed.

Lemma n_running_insert cs i c c' : cs !! i = Some c →
  n_running (<[i := c']> cs) =
  (n_running cs - (if running c then 1 else 0) + (if running c' then 1 else 0))%Z.
Proof.
  unfold n_running. revert i. induction cs as [|d cs IH]; intros [|i] Hi; simplify_eq/=.
  - destruct (running c), (running c'); simpl; lia.
  - specialize (IH i Hi). destruct (running d); simpl; lia.
Qed.

Lemma n_running_snoc cs c : n_running (cs ++ [c]) = (n_running cs + (if running c then 1 else 0))%Z.
Proof. unfold n_running. rewrite List.filter_app, length_app. simpl. destruct (running c); simpl; lia. Qed.

(** EOF is for ever: a copy that is accounted for stays so. *)
Definition eof_kept (w w' : ioworld) : Prop := ∀ s, at_eof w s → at_eof w' s.

Lemma copier_ok_mono w w' c : eof_kept w w' → copier_ok w c → copier_ok w' c.
Proof.
  intros He [Hs Hc]. split; [done|]. destruct (c_phase c); [done..| |];
    (destruct Hc as [Hf|(Hw & s & Hst & Hat)]; [by left|right; split; [done|]; exists s; split; [done|by apply He]]).
Qed.

Lemma copy_finished_inv w ts : io_copying w = (Z.of_nat (length ts) + n_running (io_copiers w) + 1)%Z →
  io_done w = (io_copying w =? 0)%Z → io_crashed w = false →
  Forall (copier_ok w) (io_copiers w) → Forall (λ t, t_name t = "" ∨ is_Some (t_stream t)) ts →
  io_inv (copy_finished w, ts).
Proof.
  intros Hc Hd Hcr Hok Ht. pose proof (n_running_nonneg (io_copiers w)) as Hn. unfold copy_finished.
  rewrite Hd, (proj2 (Z.eqb_neq (io_copying w) 0)) by lia.
  destruct (Z.eqb_spec (io_copying w - 1) 0) as [He|He]; constructor; simpl; try done; try lia.
Qed.

(** Replacing one copy, with the streams kept or advanced. *)
Lemma Forall_copier_upd w w' i c' cs :
  Forall (copier_ok w) cs → eof_kept w w' → copier_ok w' c' → Forall (copier_ok w') (<[i := c']> cs).
Proof.
  intros Hall He Hc. apply Forall_insert; [|done].
  eapply Forall_impl; [exact Hall|]. intros c. by apply copier_ok_mono.
Qed.

(** Only the handles, the shared file and stdin differ. *)
Lemma same_io_inv w w' ts :
  io_streams w' = io_streams w → io_copiers w' = io_copiers w → io_copying w' = io_copying w →
  io_done w' = io_done w → io_crashed w' = io_crashed w → io_inv (w, ts) → io_inv (w', ts).
Proof.
  intros H1 H2 H3 H4 H5 [I1 I2 I3 I4 I5]. constructor; simpl in *; try congruence.
  rewrite H2. eapply Forall_impl; [exact I4|]. intros c. apply copier_ok_mono.
  intros s. unfold at_eof. by rewrite H1.
Qed.

(** Opening a destination touches neither the copies nor the counters. *)
Definition quiet (w w' : ioworld) : Prop :=
  io_streams w' = io_streams w ∧ io_copiers w' = io_copiers w ∧ io_copying w' = io_copying w ∧
  io_done w' = io_done w ∧ io_crashed w' = io_crashed w.
#[export] Instance quiet_preorder : PreOrder quiet.
Proof. split; [done|]. intros w1 w2 w3 (?&?&?&?&?) (?&?&?&?&?). unfold quiet. split_and!; congruence. Qed.

Lemma open_handle_quiet err msg : preserves quiet (open_handle err msg).
Proof. intros w. by destruct err. Qed.

Lemma openOutputDestination_quiet env name stdout stderr :
  preserves quiet (openOutputDestination env name stdout stderr).
Proof.
  unfold openOutputDestination. destruct (e_isFifo env name) as [[]|e].
  - apply preserves_bind; [apply _|apply open_handle_quiet|intros fw].
    apply preserves_bind; [apply _|apply open_handle_quiet|intros fr]. apply preserves_ret. apply _.
  - apply preserves_bind; [apply _|done|intros [[h n]|]].
    + apply preserves_bind; [apply _|done|intros _]. apply preserves_ret. apply _.
    + destruct (e_mkdirAll env (Dir name)); [apply preserves_fail; apply _|].
      apply preserves_bind; [apply _|apply open_handle_quiet|intros fw].
      case_decide; [|apply preserves_ret; apply _].
      apply preserves_bind; [apply _|done|intros _]. apply preserves_ret. apply _.
  - apply preserves_fail. apply _.
Qed.

Section inv.
Context (env : ioenv) (stdout stderr : string).

Lemma start_target_inv t ts w k w' :
  start_target env stdout stderr t w = (Ok k, w') → io_inv (w, t :: ts) → io_inv (w', ts).
Proof.
  intros H [I1 I2 I3 I4 I5]. simpl in *. apply Forall_cons in I5 as [Ht I5].
  unfold start_target in H. case_decide as Hn.
  - apply bind_Ok in H as ([] & w1 & Hm & H). injection Hm as <-. injection H as <- <-.
    apply copy_finished_inv; try done. lia.
  - apply bind_Ok in H as ([wc kh] & w1 & Ho & H). pose proof (openOutputDestination_quiet env (t_name t) stdout stderr w) as Hq.
    rewrite Ho in Hq. simpl in Hq. destruct Hq as (Q1 & Q2 & Q3 & Q4 & Q5).
    apply bind_Ok in H as ([] & w2 & Hs & H). injection Hs as <-. injection H as <- <-.
    constructor; simpl; try congruence; try done.
    + rewrite Q2, Q3, n_running_snoc. simpl. lia.
    + rewrite Q2. apply Forall_app. split.
      * eapply Forall_impl; [exact I4|]. intros c. apply copier_ok_mono. intros s. unfold at_eof. simpl. by rewrite Q1.
      * repeat constructor. simpl. by destruct Ht.
Qed.

(** A copy that ends: the counter follows. *)
Lemma end_copy_inv w ts i c f :
  io_inv (w, ts) → io_copiers w !! i = Some c → running c = true →
  (f = true ∨ c_written c = c_read c ∧ ∃ s, c_stream c = Some s ∧ at_eof w s) →
  io_inv (end_copy i c f w, ts).
Proof.
  intros [I1 I2 I3 I4 I5] Hi Hr Hf. simpl in *. unfold end_copy. apply copy_finished_inv; simpl; try done.
  - rewrite (n_running_insert _ _ c) by done. rewrite Hr. simpl. lia.
  - apply Forall_insert; [exact I4|]. split; [|done]. by apply (Forall_lookup_1 _ _ _ _ I4 Hi).
Qed.

Lemma pio_step_inv x y : pio_step env stdout stderr x y → io_inv x → io_inv y.
Proof.
  intros Hs Hx. destruct Hs.
  - by eapply start_target_inv.
  - destruct Hx as [I1 I2 I3 I4 I5]. constructor; simpl in *; try done.
    eapply Forall_impl; [exact I4|]. intros c'. apply copier_ok_mono. intros s' Hs'. unfold at_eof in *. simpl.
    rewrite lookup_insert_ne; [done|]. intros ->. congruence.
  - destruct Hx as [I1 I2 I3 I4 I5]. constructor; simpl in *; try done.
    eapply Forall_impl; [exact I4|]. intros c'. apply copier_ok_mono. intros s' Hs'. unfold at_eof in *. simpl.
    rewrite lookup_insert_ne; [done|]. intros ->. congruence.
  - destruct Hx as [I1 I2 I3 I4 I5]. simpl in *. pose proof (Forall_lookup_1 _ _ _ _ I4 H) as [_ Hc]. simpl in Hc.
    constructor; simpl in *; try done.
    + rewrite (n_running_insert _ _ _ _ H). simpl. lia.
    + apply (Forall_copier_upd w); [done| |].
      * intros s' Hs'. unfold at_eof in *. simpl. rewrite lookup_insert_ne; [done|]. intros ->. congruence.
      * split; [by eexists|]. simpl. by rewrite Hc.
  - destruct Hx as [I1 I2 I3 I4 I5]. simpl in *. pose proof (Forall_lookup_1 _ _ _ _ I4 H) as [Hst Hc]. simpl in Hc.
    constructor; simpl in *; try done.
    + rewrite (n_running_insert _ _ _ _ H). simpl. lia.
    + apply (Forall_copier_upd w); [done|intros ? Hx; exact Hx|split; [done|simpl; congruence]].
  - pose proof (inv_copiers _ Hx) as I4. simpl in I4. pose proof (Forall_lookup_1 _ _ _ _ I4 H) as [_ Hc]. simpl in Hc.
    eapply end_copy_inv; eauto.
  - eapply end_copy_inv; eauto. unfold running. by destruct H0 as [->|[? ->]].
  - exfalso. pose proof (inv_copiers _ Hx) as I4. simpl in I4.
    pose proof (Forall_lookup_1 _ _ _ _ I4 H) as [[? ?] _]. done.
  - destruct Hx as [I1 I2 I3 I4 I5]. simpl in *. pose proof (Forall_lookup_1 _ _ _ _ I4 H) as [Hst Hc]. simpl in Hc.
    eapply (same_io_inv (upd_copier i (mkCopier s wr CClosed f r wn) w));
      [unfold close_writer; repeat case_match; done..|].
    constructor; simpl in *; try done.
    + rewrite (n_running_insert _ _ _ _ H). simpl. lia.
    + apply (Forall_copier_upd w); [done|intros ? Hx; exact Hx|by split].
Qed.

Lemma rtc_inv x y : rtc (pio_step env stdout stderr) x y → io_inv x → io_inv y.
Proof. induction 1; eauto using pio_step_inv. Qed.
End inv.

(** The start of [copyStreams]: two outputs to account for. *)
Definition fresh_io (w : ioworld) : Prop :=
  io_copiers w = [] ∧ io_crashed w = false ∧ io_copying w = 2%Z ∧ io_done w = false.

Lemma fresh_inv w ts : fresh_io w → length ts = 2 →
  Forall (λ t, t_name t = "" ∨ is_Some (t_stream t)) ts → io_inv (w, ts).
Proof.
  intros (Hc & Hcr & Hn & Hd) Hl Ht. constructor; simpl; rewrite ?Hc, ?Hn, ?Hd, ?Hl; done.
Qed.

Lemma mkdir_for_pure env what path w : (mkdir_for env what path w).2 = w.
Proof. unfold mkdir_for. by case_match. Qed.

Lemma stderr_path_pure env pio p w : (stderr_path env pio p w).2 = w.
Proof.
  unfold stderr_path. destruct (_ && _); [|done]. destruct (url_Parse (Stderr pio)) as [u|]; [|done].
  destruct (_ || _); [|done]. case_decide; [done|]. unfold bind. pose proof (mkdir_for_pure env "stderr" (u_Path u) w) as Hm.
  by destruct (mkdir_for env "stderr" (u_Path u) w) as [[?|?] ?].
Qed.

(** ** What the set-up gives the copies *)

(** The copies are as they were. *)
Definition same_copies (w w' : ioworld) : Prop := io_copiers w' = io_copiers w ∧ io_crashed w' = io_crashed w.
#[export] Instance same_copies_preorder : PreOrder same_copies.
Proof. split; [done|]. intros w1 w2 w3 [] []. split; congruence. Qed.

Lemma StartStream_same env : preserves same_copies (StartStream env).
Proof. intros w. unfold StartStream. by destruct (e_startStream env (io_next w)). Qed.

Lemma start_one_same env wanted : preserves same_copies (start_one env wanted).
Proof.
  unfold start_one. case_decide; [by apply preserves_ret, _|].
  apply preserves_bind; [apply _|apply StartStream_same|intros r]. apply preserves_ret, _.
Qed.

Lemma close_conns_same c : preserves same_copies (close_conns c).
Proof.
  intros w. unfold close_conns, modify. cbn [snd]. revert w. induction (conns_handles c) as [|h l IH]; intros w; [done|].
  cbn [foldl]. etrans; [|apply IH]. done.
Qed.

Lemma createStreams_same env sio : preserves same_copies (createStreams env sio).
Proof.
  assert (Hclose : ∀ A c (m : ST ioworld A), preserves same_copies m → preserves same_copies (or_close c m)).
  { intros A c m Hm. apply preserves_on_error; [apply _|done|apply close_conns_same]. }
  unfold createStreams. apply preserves_bind; [apply _|apply start_one_same|intros r0]. cbv zeta.
  apply preserves_bind; [apply _|apply Hclose, start_one_same|intros r1].
  case_decide; [apply preserves_ret, _|]. case_decide; [apply preserves_ret, _|].
  apply preserves_bind; [apply _|apply Hclose, StartStream_same|intros r2]. apply preserves_ret, _.
Qed.

(** A wanted output has its stream. *)
Lemma createStreams_connects env sio w r w' : createStreams env sio w = (Ok r, w') →
  (Stdout sio ≠ "" → is_Some (c1 r.2)) ∧ (Stderr sio ≠ "" → is_Some (c2 r.2)).
Proof.
  unfold createStreams. intros H. apply bind_Ok in H as (r0 & w1 & _ & H). apply bind_Ok in H as (r1 & w2 & H1 & H).
  assert (Hr1 : Stdout sio ≠ "" → is_Some (snd <$> r1)).
  { intros Hne. unfold or_close, on_error, start_one in H1. rewrite decide_False in H1 by done. unfold bind in H1.
    destruct (StartStream env w1) as [[x|] w1']; [|done]. simpl in H1. injection H1 as <- _. eauto. }
  case_decide as He; [injection H as <- _; by split|]. case_decide as Heo.
  - injection H as <- _. cbn. rewrite Heo. auto.
  - apply bind_Ok in H as (r2 & w3 & _ & H). injection H as <- _. cbn. split; [done|eauto].
Qed.

(** The paths [forwardIOWithIDs] copies to. *)
Definition out_paths (sio : Stdio) (setup : forwardIOSetup) : string * string :=
  if fs_usePIOPaths setup then (fs_stdoutFilePath setup, fs_stderrFilePath setup) else (Stdout sio, Stderr sio).

(** [forwardIOWithIDs] has set up direct forwarding of [sio] (a terminal's stderr
    dropped) and is about to copy: the world, the set-up and the outputs to start.
    Output to a file has a stderr, without which the copy crashes
    ([file_output_without_stderr_crashes]). *)
Record forwarding (env : ioenv) (sio : Stdio) (w : ioworld) (setup : forwardIOSetup) (w0 : ioworld) (ts0 : list outputTarget) : Prop := {
  fw_before : io_copiers w = [] ∧ io_crashed w = false;
  fw_direct : fs_passthrough setup = false;
  fw_world : ∃ w1, setupForwardIO env sio w = (Ok setup, w1) ∧ w0 = set_copying 2 false w1;
  fw_targets : ts0 = targets (fs_streams setup) (out_paths sio setup).1 (out_paths sio setup).2;
  fw_stderr : fs_usePIOPaths setup = true → Stderr sio ≠ ""
}.

Lemma forwarding_ready env sio w setup w0 ts0 : forwarding env sio w setup w0 ts0 →
  fresh_io w0 ∧ length ts0 = 2 ∧ Forall (λ t, t_name t = "" ∨ is_Some (t_stream t)) ts0.
Proof.
  intros [[Hc Hcr] Hp (w1 & Hs & ->) -> He].
  assert (Hboth : same_copies w w1 ∧ (Stdout sio ≠ "" → is_Some (c1 (fs_streams setup))) ∧ (Stderr sio ≠ "" → is_Some (c2 (fs_streams setup)))
    ∧ (fs_usePIOPaths setup = true → Stdout sio ≠ "")).
  { unfold setupForwardIO in Hs. destruct (url_Parse (Stdout sio)) as [u|] eqn:Hu; [|done].
    assert (Hne : u_Scheme u = "file" → Stdout sio ≠ "").
    { intros Hf E. rewrite E in Hu. vm_compute in Hu. by injection Hu as <-. }
    case_decide; [injection Hs as <- _; done|]. case_decide as Hf.
    - assert (Hfile : u_Scheme u = "file") by (case_decide; done). apply Hne in Hfile. unfold setupFileScheme in Hs.
      apply bind_Ok in Hs as (? & wa & Ha & Hs). pose proof (mkdir_for_pure env "stdout" (u_Path u) w) as Hm. rewrite Ha in Hm. simpl in Hm. subst wa.
      apply bind_Ok in Hs as (? & wb & Hb & Hs). pose proof (stderr_path_pure env sio (u_Path u) w) as Hm. rewrite Hb in Hm. simpl in Hm. subst wb.
      apply bind_Ok in Hs as (r & wc & Hcs & Hs). injection Hs as <- <-. cbn. pose proof (createStreams_same env sio w) as Hsame.
      rewrite Hcs in Hsame. destruct (createStreams_connects _ _ _ _ _ Hcs). by split_and!.
    - destruct (_ || _); [|done]. unfold setupStreamScheme in Hs. apply bind_Ok in Hs as (r & wc & Hcs & Hs). injection Hs as <- <-. cbn.
      pose proof (createStreams_same env sio w) as Hsame. rewrite Hcs in Hsame. destruct (createStreams_connects _ _ _ _ _ Hcs). by split_and!. }
  destruct Hboth as ([S1 S2] & H1 & H2 & H3). split; [|split; [done|]].
  - unfold fresh_io. cbn. by rewrite S1, S2.
  - unfold targets, out_paths. constructor; [|constructor; [|constructor]]; cbn [t_name t_stream].
    + destruct (fs_usePIOPaths setup); cbn; [right; auto|]. destruct (decide (Stdout sio = "")); [by left|right; auto].
    + destruct (fs_usePIOPaths setup); cbn; [right; auto|]. destruct (decide (Stderr sio = "")); [by left|right; auto].
Qed.

(** C7: After forwardIOWithIDs' set-up of direct forwarding, for any stdio
    except a file:// stdout with no stderr (which crashes, a finding), with
    no copies running before: under any interleaving of starting the two
    output copies, of the guest's writes and closes, of the copies' reads
    and writes and of their failures, the process does not crash, the done
    channel is closed exactly when both outputs have been started or skipped
    and no copy runs, and then each copy has failed or has written
    everything it read from a stream that is at its end. *)
Theorem done_means_delivered env sio wi setup w0 ts0 w ts :
  forwarding env sio wi setup w0 ts0 →
  rtc (pio_step env (out_paths sio setup).1 (out_paths sio setup).2) (w0, ts0) (w, ts) →
  io_crashed w = false ∧
  (io_done w = true ↔ ts = [] ∧ Forall (λ c, running c = false) (io_copiers w)) ∧
  (io_done w = true →
   Forall (λ c, c_failed c = true ∨
     c_written c = c_read c ∧ ∃ s, c_stream c = Some s ∧ at_eof w s) (io_copiers w)).
Proof.
  intros Hfw Hr. destruct (forwarding_ready _ _ _ _ _ _ Hfw) as (Hf & Hl & Ht).
  pose proof (rtc_inv _ _ _ _ _ Hr (fresh_inv _ _ Hf Hl Ht)) as [I1 I2 I3 I4 I5]. simpl in *.
  assert (Hiff : io_done w = true ↔ ts = [] ∧ Forall (λ c, running c = false) (io_copiers w)).
  { rewrite I2, Z.eqb_eq, I1. pose proof (n_running_nonneg (io_copiers w)). split.
    - intros H0. split; [apply length_zero_iff_nil; lia|].
      assert (Hnil : List.filter running (io_copiers w) = []) by (apply length_zero_iff_nil; unfold n_running in *; lia).
      apply Forall_forall. intros c Hc. destruct (running c) eqn:Hrun; [|done]. exfalso.
      apply list_elem_of_In in Hc. assert (In c []) by (rewrite <- Hnil; by apply filter_In). done.
    - intros [-> Hall]. unfold n_running. by rewrite filter_all_false. }
  split_and!; [done..|]. intros Hd. apply Hiff in Hd as [_ Hall].
  apply Forall_lookup. intros i c Hi. pose proof (Forall_lookup_1 _ _ _ _ Hall Hi) as Hrun.
  pose proof (Forall_lookup_1 _ _ _ _ I4 Hi) as [_ Hc]. unfold running in Hrun. by destruct (c_phase c).
Qed.

(** ** The copies end *)

(** The next move of copy [i], when it has one. *)
Definition copy_move (i : nat) (w : ioworld) : option ioworld :=
  c ← io_copiers w !! i;
  match c_phase c with
  | CIdle =>
      s ← c_stream c;
      st ← io_streams w !! s;
      match st with
      | mkStream (x :: p) e =>
          Some (upd_copier i (mkCopier (Some s) (c_writer c) (CHold x) (c_failed c) (c_read c ++ [x]) (c_written c))
                  (set_streams (<[s := mkStream p e]> (io_streams w)) w))
      | mkStream [] true => Some (end_copy i c (c_failed c) w)
      | mkStream [] false => None
      end
  | CHold x => Some (upd_copier i (mkCopier (c_stream c) (c_writer c) CIdle (c_failed c) (c_read c) (c_written c ++ [x])) w)
  | CEnded => Some (close_writer (c_writer c)
                (upd_copier i (mkCopier (c_stream c) (c_writer c) CClosed (c_failed c) (c_read c) (c_written c)) w))
  | CClosed => None
  end.

Definition move (w w' : ioworld) : Prop := ∃ i, copy_move i w = Some w'.

Lemma copy_move_step env stdout stderr i w w' ts :
  copy_move i w = Some w' → pio_step env stdout stderr (w, ts) (w', ts).
Proof.
  unfold copy_move. intros H. destruct (io_copiers w !! i) as [[s wr ph f r wn]|] eqn:Hi; [|done]. simpl in H.
  destruct ph; simpl in H; simplify_eq.
  - destruct s as [s|]; [|done]. simpl in H. destruct (io_streams w !! s) as [[[|x p] []]|] eqn:Hs; simplify_eq/=.
    + by eapply ps_eof.
    + by eapply ps_read.
    + by eapply ps_read.
  - by eapply ps_write.
  - by eapply ps_close.
Qed.

Definition pending_total (m : gmap handle stream) : nat :=
  map_fold (λ _ s acc, length (st_pending s) + acc) 0 m.

Lemma pending_split s m st : m !! s = Some st →
  pending_total m = length (st_pending st) + pending_total (delete s m).
Proof.
  intros H. unfold pending_total. rewrite (map_fold_delete_L _ _ s st m); [done| |done]. intros. lia.
Qed.

Lemma pending_insert s m st st' : m !! s = Some st →
  pending_total (<[s := st']> m) + length (st_pending st) = pending_total m + length (st_pending st').
Proof.
  intros H. rewrite (pending_split s _ st') by apply lookup_insert_eq. rewrite delete_insert_eq.
  rewrite (pending_split s m st H). lia.
Qed.

Definition weight (c : copier) : nat :=
  match c_phase c with CIdle => 2 | CHold _ => 3 | CEnded => 1 | CClosed => 0 end.

Definition weights (cs : list copier) : nat := sum_list_with weight cs.

Lemma weights_insert cs i c c' : cs !! i = Some c →
  weights (<[i := c']> cs) + weight c = weights cs + weight c'.
Proof.
  unfold weights. revert i. induction cs as [|d cs IH]; intros [|i] Hi; simplify_eq/=; [lia|].
  specialize (IH i Hi). lia.
Qed.

Definition work (w : ioworld) : nat := 2 * pending_total (io_streams w) + weights (io_copiers w).

Lemma copy_finished_work w : work (copy_finished w) = work w.
Proof. unfold copy_finished. by repeat case_match. Qed.

Lemma close_writer_work wr w : work (close_writer wr w) = work w.
Proof. unfold close_writer. by repeat case_match. Qed.

Lemma move_work w w' : move w w' → work w' < work w.
Proof.
  intros [i H]. unfold copy_move in H. destruct (io_copiers w !! i) as [[s wr ph f r wn]|] eqn:Hi; [|done]. simpl in H.
  destruct ph; simpl in H; simplify_eq.
  - destruct s as [s|]; [|done]. simpl in H. destruct (io_streams w !! s) as [[[|x p] []]|] eqn:Hs; simplify_eq/=.
    + unfold end_copy. rewrite copy_finished_work. unfold work. simpl.
      pose proof (weights_insert _ _ _ (mkCopier (Some s) wr CEnded f r wn) Hi) as Hw. cbn [weight c_phase] in Hw. lia.
    + unfold work. simpl. pose proof (weights_insert _ _ _ (mkCopier (Some s) wr (CHold x) f (r ++ [x]) wn) Hi) as Hw.
      pose proof (pending_insert s _ _ (mkStream p true) Hs) as Hp. cbn [weight c_phase st_pending length] in Hw, Hp. lia.
    + unfold work. simpl. pose proof (weights_insert _ _ _ (mkCopier (Some s) wr (CHold x) f (r ++ [x]) wn) Hi) as Hw.
      pose proof (pending_insert s _ _ (mkStream p false) Hs) as Hp. cbn [weight c_phase st_pending length] in Hw, Hp. lia.
  - unfold work. simpl. pose proof (weights_insert _ _ _ (mkCopier s wr CIdle f r (wn ++ [c])) Hi) as Hw. cbn [weight c_phase] in Hw. lia.
  - rewrite close_writer_work. unfold work. simpl.
    pose proof (weights_insert _ _ _ (mkCopier s wr CClosed f r wn) Hi) as Hw. cbn [weight c_phase] in Hw. lia.
Qed.

(** The guest has closed its end of every stream a copy reads. *)
Definition guest_finished (w : ioworld) : Prop :=
  ∀ i c s, io_copiers w !! i = Some c → c_stream c = Some s → ∃ p, io_streams w !! s = Some (mkStream p true).

(** Moves keep the streams of the copies and the ends that are closed. *)
Definition shape (w w' : ioworld) : Prop :=
  c_stream <$> io_copiers w' = c_stream <$> io_copiers w ∧
  ∀ s p, io_streams w !! s = Some (mkStream p true) → ∃ p', io_streams w' !! s = Some (mkStream p' true).

Lemma shape_finished w w' : shape w w' → guest_finished w → guest_finished w'.
Proof.
  intros [Hc Hs] Hg i c s Hi Hst.
  assert (Hlk : (c_stream <$> io_copiers w') !! i = Some (Some s)) by (by rewrite list_lookup_fmap, Hi; simpl; rewrite Hst).
  rewrite Hc, list_lookup_fmap in Hlk. destruct (io_copiers w !! i) as [c'|] eqn:Hi'; simplify_eq/=.
  destruct (Hg i c' s Hi' ltac:(congruence)) as [p Hp]. eauto.
Qed.

Lemma insert_same_stream (cs : list copier) (i : nat) c c' : cs !! i = Some c → c_stream c' = c_stream c →
  c_stream <$> <[i := c']> cs = c_stream <$> cs.
Proof.
  intros Hi He. rewrite list_fmap_insert. apply list_insert_id. by rewrite list_lookup_fmap, Hi, He.
Qed.

Lemma move_shape w w' : move w w' → shape w w'.
Proof.
  intros [i H]. unfold copy_move in H. destruct (io_copiers w !! i) as [[s wr ph f r wn]|] eqn:Hi; [|done]. simpl in H.
  destruct ph; simpl in H; simplify_eq.
  - destruct s as [s|]; [|done]. simpl in H. destruct (io_streams w !! s) as [[[|x p] e]|] eqn:Hs; [|..]; [destruct e|..]; simplify_eq/=.
    + unfold end_copy, copy_finished. repeat case_match; (split; [by eapply insert_same_stream|simpl; eauto]).
    + split; [by eapply insert_same_stream|]. intros s' p' Hp'. simpl. destruct (decide (s' = s)) as [->|Hne].
      * rewrite lookup_insert_eq. simplify_eq. eauto.
      * rewrite lookup_insert_ne by done. eauto.
  - split; [by eapply insert_same_stream|simpl; eauto].
  - unfold close_writer. repeat case_match; (split; [by eapply insert_same_stream|simpl; eauto]).
Qed.

Lemma stuck_is_done w : io_inv (w, []) → guest_finished w → (∀ i, copy_move i w = None) → io_done w = true.
Proof.
  intros [I1 I2 _ I4 _] Hg Hstuck. simpl in *. rewrite I2, I1. apply Z.eqb_eq.
  unfold n_running. rewrite filter_all_false; [done|]. apply Forall_lookup. intros i c Hi.
  pose proof (Forall_lookup_1 _ _ _ _ I4 Hi) as [[s Hs] _]. specialize (Hstuck i). unfold copy_move in Hstuck.
  rewrite Hi in Hstuck. simpl in Hstuck. unfold running. destruct (c_phase c); [|done..].
  rewrite Hs in Hstuck. simpl in Hstuck. destruct (Hg i c s Hi Hs) as [p Hp]. rewrite Hp in Hstuck. by destruct p.
Qed.

(** C18: After the same set-up (any stdio except a file:// stdout with no
    stderr), once both outputs have been started or skipped and the guest
    has closed its end of every stream that is copied, the copies take a
    bounded number of steps, by a measure of what is left to read and write,
    and whenever no copy can take one the done channel is closed. *)
Theorem copies_complete env sio wi setup w0 ts0 w :
  forwarding env sio wi setup w0 ts0 →
  rtc (pio_step env (out_paths sio setup).1 (out_paths sio setup).2) (w0, ts0) (w, []) →
  guest_finished w →
  (∀ n w', nsteps move n w w' → n + work w' ≤ work w) ∧
  (∀ w', rtc move w w' → (∀ i, copy_move i w' = None) → io_done w' = true).
Proof.
  intros Hfw Hr Hg. destruct (forwarding_ready _ _ _ _ _ _ Hfw) as (Hf & Hl & Ht).
  pose proof (rtc_inv _ _ _ _ _ Hr (fresh_inv _ _ Hf Hl Ht)) as Hi. split.
  - intros n w'. clear. intros H. induction H as [|n x y z Hxy _ IH]; [lia|].
    pose proof (move_work _ _ Hxy). lia.
  - intros w' Hm. clear Hr. induction Hm as [|x y z [i Hxy] _ IH]; intros Hstuck.
    + by apply stuck_is_done.
    + apply IH; [|by eapply pio_step_inv; [apply (copy_move_step env (out_paths sio setup).1 (out_paths sio setup).2 i)|]|done].
      eapply shape_finished; [|done]. apply move_shape. by exists i.
Qed.

(** ** Set-up that fails *)

Definition wf_io (w : ioworld) : Prop :=
  (∀ h, h ∈ io_open w → h < io_next w) ∧ ∀ h, is_Some (io_streams w !! h) → h < io_next w.

(** Opening FIFOs and files: new handles, no streams, nothing closed. *)
Definition opens_files (w w' : ioworld) : Prop :=
  io_streams w' = io_streams w ∧ io_next w ≤ io_next w' ∧ io_closed w' = io_closed w ∧
  ∀ h, h ∈ io_open w' → h ∈ io_open w ∨ io_next w ≤ h.
#[export] Instance opens_files_preorder : PreOrder opens_files.
Proof.
  split.
  - intros w. split_and!; [done..|]. auto.
  - intros w1 w2 w3 (A1 & A2 & A3 & A4) (B1 & B2 & B3 & B4). split_and!; [congruence|lia|congruence|].
    intros h Hh. destruct (B4 h Hh) as [H2|H2]; [|right; lia]. by apply A4.
Qed.

Lemma modify_opens_files f : (∀ w, opens_files w (f w)) → preserves opens_files (modify f).
Proof. intros H w. apply H. Qed.

Lemma open_handle_opens err msg : preserves opens_files (open_handle err msg).
Proof.
  intros w. destruct err; simpl; [reflexivity|]. split_and!; simpl; [done|lia|done|]. intros h Hh.
  apply elem_of_union in Hh as [Hh|Hh]; [|by left]. apply elem_of_singleton in Hh as ->. by right.
Qed.

Lemma openOutputDestination_opens env name stdout stderr :
  preserves opens_files (openOutputDestination env name stdout stderr).
Proof.
  unfold openOutputDestination. destruct (e_isFifo env name) as [[]|e].
  - apply preserves_bind; [apply _|apply open_handle_opens|intros fw].
    apply preserves_bind; [apply _|apply open_handle_opens|intros fr]. apply preserves_ret. apply _.
  - apply preserves_bind; [apply _|intros w; simpl; reflexivity|intros [[h n]|]].
    + apply preserves_bind; [apply _| |intros _; apply preserves_ret; apply _].
      apply modify_opens_files. intros w. split_and!; simpl; auto.
    + destruct (e_mkdirAll env (Dir name)); [apply preserves_fail; apply _|].
      apply preserves_bind; [apply _|apply open_handle_opens|intros fw].
      case_decide; [|apply preserves_ret; apply _].
      apply preserves_bind; [apply _| |intros _; apply preserves_ret; apply _].
      apply modify_opens_files. intros w. split_and!; simpl; auto.
  - apply preserves_fail. apply _.
Qed.

Lemma copy_finished_opens w : opens_files w (copy_finished w).
Proof. unfold copy_finished. repeat case_match; split_and!; simpl; auto. Qed.

Lemma start_target_opens env stdout stderr t : preserves opens_files (start_target env stdout stderr t).
Proof.
  unfold start_target. case_decide.
  - apply preserves_bind; [apply _|apply modify_opens_files, copy_finished_opens|intros _; apply preserves_ret; apply _].
  - apply preserves_bind; [apply _|apply openOutputDestination_opens|intros r].
    apply preserves_bind; [apply _| |intros _; apply preserves_ret; apply _].
    apply modify_opens_files. intros w. split_and!; simpl; auto.
Qed.

Lemma copyStreams_opens env c stdin stdout stderr : preserves opens_files (copyStreams env c stdin stdout stderr).
Proof.
  unfold copyStreams. apply preserves_bind; [apply _| |intros _].
  { apply modify_opens_files. intros w. split_and!; simpl; auto. }
  apply preserves_bind; [apply _|apply start_target_opens|intros k1].
  apply preserves_bind; [apply _|apply start_target_opens|intros k2].
  apply preserves_bind; [apply _| |intros _; apply preserves_ret; apply _].
  unfold startStdinCopy. case_decide; [apply preserves_ret; apply _|].
  apply preserves_bind; [apply _|apply open_handle_opens|intros f].
  apply modify_opens_files. intros w. split_and!; simpl; auto.
Qed.

(** [streams_opened l w w']: the streams [l] were started and are open. *)
Definition streams_opened (l : list handle) (w w' : ioworld) : Prop :=
  wf_io w' ∧ io_next w ≤ io_next w' ∧
  (∀ h, h ∈ io_open w' ↔ h ∈ l ∨ h ∈ io_open w) ∧ Forall (λ h, io_next w ≤ h) l.

Lemma StartStream_spec env w : wf_io w →
  match StartStream env w with
  | (Err _, w') => w' = w
  | (Ok (_, h), w') => streams_opened [h] w w'
  end.
Proof.
  intros [Ho Hs]. unfold StartStream. destruct (e_startStream env (io_next w)); [|done]. simpl.
  split_and!; simpl; [split; simpl| |intros h; set_solver|repeat constructor].
  - intros h Hh. apply elem_of_union in Hh as [Hh|Hh]; [set_solver by lia|]. specialize (Ho h Hh). lia.
  - intros h Hh. destruct (decide (h = io_next w)) as [->|Hne]; [lia|].
    rewrite lookup_insert_ne in Hh by done. specialize (Hs h Hh). lia.
  - lia.
Qed.

Lemma streams_opened_app l l' w w1 w2 :
  streams_opened l w w1 → streams_opened l' w1 w2 → streams_opened (l ++ l') w w2.
Proof.
  intros (A1 & A2 & A3 & A4) (B1 & B2 & B3 & B4). split_and!; [done|lia| |].
  - intros h. rewrite B3, A3. set_solver.
  - apply Forall_app. split; [done|]. eapply Forall_impl; [exact B4|]. simpl. lia.
Qed.

Lemma start_one_spec env wanted w : wf_io w →
  match start_one env wanted w with
  | (Err _, w') => w' = w
  | (Ok r, w') => streams_opened (option_list (snd <$> r)) w w'
  end.
Proof.
  intros Hwf. unfold start_one. case_decide; simpl.
  - split_and!; [done|lia|set_solver|done].
  - unfold bind. pose proof (StartStream_spec env w Hwf) as Hsp. by destruct (StartStream env w) as [[[sid h]|] w'].
Qed.

Lemma close_handles_open l w : ∀ h, h ∈ io_open (foldl (flip close_handle) w l) ↔ h ∈ io_open w ∧ h ∉ l.
Proof.
  revert w. induction l as [|x l IH]; intros w h; simpl; [set_solver|]. rewrite IH. simpl. set_solver.
Qed.

Lemma close_handles_streams l w : io_streams (foldl (flip close_handle) w l) = io_streams w.
Proof. revert w. induction l as [|x l IH]; intros w; simpl; [done|]. by rewrite IH. Qed.

(** Closing what was opened restores the open handles. *)
Lemma closed_again l c w w1 : wf_io w → streams_opened l w w1 → conns_handles c = l →
  ∀ h, h ∈ io_open (close_conns c w1).2 ↔ h ∈ io_open w.
Proof.
  intros [Ho _] (_ & _ & H3 & H4) <- h. simpl. rewrite close_handles_open, H3. split; [tauto|].
  intros Hh. split; [by right|]. intros Hin. rewrite Forall_forall in H4. specialize (H4 h Hin). specialize (Ho h Hh). lia.
Qed.

Lemma createStreams_spec env sio w : wf_io w →
  match createStreams env sio w with
  | (Err _, w') => ∀ h, h ∈ io_open w' ↔ h ∈ io_open w
  | (Ok (_, c), w') => streams_opened (conns_handles c) w w'
  end.
Proof.
  intros Hwf. unfold createStreams, bind, or_close, on_error.
  pose proof (start_one_spec env (Stdin sio) w Hwf) as H0.
  destruct (start_one env (Stdin sio) w) as [[r0|e] w1]; [|by subst]. pose proof (proj1 H0) as Hwf1.
  pose proof (start_one_spec env (Stdout sio) w1 Hwf1) as H1.
  destruct (start_one env (Stdout sio) w1) as [[r1|e] w2].
  2: { subst w2. eapply closed_again; [done|exact H0|]. unfold conns_handles. simpl. by rewrite app_nil_r. }
  pose proof (streams_opened_app _ _ _ _ _ H0 H1) as H01. pose proof (proj1 H1) as Hwf2.
  repeat case_decide; simpl.
  - unfold conns_handles. simpl. rewrite (app_assoc _ _ (if decide _ then _ else _)).
    case_decide; rewrite app_nil_r; done.
  - unfold conns_handles. simpl. rewrite decide_True by done. by rewrite app_nil_r.
  - pose proof (StartStream_spec env w2 Hwf2) as Hs2. destruct (StartStream env w2) as [[[sid h]|e] w3]; simpl.
    + pose proof (streams_opened_app _ _ _ _ _ H01 Hs2) as H012. unfold conns_handles. simpl.
      rewrite decide_False; [by rewrite app_assoc|]. intros Heq. destruct r1 as [[sid1 h1]|]; simplify_eq/=.
      destruct H1 as ([Ho1 _] & _ & Hin & _), Hs2 as (_ & _ & _ & Hge). rewrite Forall_singleton in Hge.
      specialize (Ho1 h1 ltac:(apply Hin; set_solver)). lia.
    + subst w3. eapply closed_again; [done|exact H01|]. unfold conns_handles. simpl. by case_decide; rewrite app_nil_r.
Qed.

Lemma setupForwardIO_spec env pio w : wf_io w →
  match setupForwardIO env pio w with
  | (Err _, w') => ∀ h, h ∈ io_open w' ↔ h ∈ io_open w
  | (Ok setup, w') => streams_opened (conns_handles (fs_streams setup)) w w'
  end.
Proof.
  intros Hwf. pose proof (createStreams_spec env pio w Hwf) as Hc.
  assert (Hbind : ∀ (k : Stdio * conns → forwardIOSetup), (∀ r, fs_streams (k r) = r.2) →
    match bind (createStreams env pio) (λ r, ret (k r)) w with
    | (Err _, w') => ∀ h, h ∈ io_open w' ↔ h ∈ io_open w
    | (Ok setup, w') => streams_opened (conns_handles (fs_streams setup)) w w'
    end).
  { intros k Hk. unfold bind, ret. destruct (createStreams env pio w) as [[[s c]|e] w']; [|done]. by rewrite Hk. }
  unfold setupForwardIO. destruct (url_Parse (Stdout pio)) as [u|e]; [|done].
  generalize (if decide (u_Scheme u = "") then defaultScheme else u_Scheme u). intros scheme. cbv zeta.
  case_decide; [simpl; split_and!; [done|lia|set_solver|done]|]. case_decide.
  - unfold setupFileScheme. unfold bind at 1. pose proof (mkdir_for_pure env "stdout" (u_Path u) w) as Hm.
    destruct (mkdir_for env "stdout" (u_Path u) w) as [[[]|] w1]; simpl in Hm; subst w1; [|tauto].
    unfold bind at 1. pose proof (stderr_path_pure env pio (u_Path u) w) as Hm.
    destruct (stderr_path env pio (u_Path u) w) as [[p|] w1]; simpl in Hm; subst w1; [|tauto]. by apply Hbind.
  - destruct (_ || _); [|done]. unfold setupStreamScheme. by apply Hbind.
Qed.

Theorem failed_forwarding_closes_streams env sio w e w' :
  wf_io w → forwardIOWithIDs env sio w = (Err e, w') →
  ∀ h, h ∈ io_open w' → h ∈ io_open w ∨ io_streams w' !! h = None.
Proof.
  intros Hwf H. unfold forwardIOWithIDs in H.
  set (sio' := if Terminal sio then _ else sio) in H. destruct (IsNull sio'); [done|].
  apply bind_Err in H. pose proof (setupForwardIO_spec env sio' w Hwf) as Hset.
  destruct H as [H|(setup & w1 & H1 & H)]; [rewrite H in Hset; intros h Hh; left; by apply Hset|].
  rewrite H1 in Hset. destruct (fs_passthrough setup); [done|].
  apply bind_Err in H as [H|(ka & w2 & _ & H)]; [|done]. unfold or_close, on_error in H.
  set (m := copyStreams _ _ _ _ _) in H. pose proof (copyStreams_opens env (fs_streams setup) (Stdin sio')
    (if fs_usePIOPaths setup then fs_stdoutFilePath setup else Stdout sio')
    (if fs_usePIOPaths setup then fs_stderrFilePath setup else Stderr sio') w1) as Hco. fold m in Hco.
  destruct (m w1) as [[ka|e'] w2]; [done|]. simplify_eq. simpl in Hco.
  destruct Hco as (C1 & C2 & C3 & C4), Hset as ([S0 S0'] & S1 & S2 & S3).
  intros h Hh. simpl in Hh |- *. rewrite close_handles_open in Hh. rewrite close_handles_streams, C1.
  destruct Hh as [Hh Hn]. destruct (C4 h Hh) as [Hw1|Hge].
  - apply S2 in Hw1 as [Hw1|Hw1]; [done|by left].
  - right. destruct (io_streams w1 !! h) eqn:Hst; [|done]. pose proof (S0' h (ex_intro _ _ Hst)). lia.
Qed.

(** ** Inputs the forwarding does not survive *)

(** A host that grants everything: no FIFOs, every open succeeds. *)
Definition granting (env : ioenv) : Prop :=
  (∀ n, ∃ sid, e_startStream env n = Ok sid) ∧ (∀ p, e_isFifo env p = Ok false) ∧
  (∀ p b, e_openFifo env p b = None) ∧ (∀ p, e_mkdirAll env p = None) ∧ ∀ p, e_openFile env p = None.

Lemma StartStream_granting env w : granting env → ∃ sid h w', StartStream env w = (Ok (sid, h), w') ∧
  io_copiers w' = io_copiers w ∧ io_same w' = io_same w.
Proof. intros [H _]. unfold StartStream. destruct (H (io_next w)) as [sid ->]. simpl. eauto 10. Qed.

Lemma start_one_granting env s w : granting env → ∃ r w', start_one env s w = (Ok r, w') ∧
  io_copiers w' = io_copiers w ∧ io_same w' = io_same w.
Proof.
  intros H. unfold start_one. case_decide; [simpl; eauto|].
  destruct (StartStream_granting env w H) as (sid & h & w' & Hs & ? & ?). unfold bind. rewrite Hs. simpl. eauto.
Qed.

(** Both outputs to one regular file. *)
Lemma start_target_file env p st w : granting env → p ≠ "" →
  ∃ w', start_target env p p (mkTarget p st) w = (Ok None, w') ∧
    io_copiers w' = io_copiers w ++ [mkCopier st WShared CIdle false [] []].
Proof.
  intros (_ & Hf & _ & Hmk & Hfile) Hp. unfold start_target. cbn [t_name t_stream]. rewrite decide_False by done.
  unfold openOutputDestination. rewrite Hf. unfold bind, get_same.
  destruct (io_same w) as [[h n]|] eqn:Hs; [simpl; eauto|]. rewrite Hmk, Hfile. unfold open_handle. simpl.
  rewrite decide_True by done. simpl. eauto.
Qed.

Lemma copyStreams_file env c stdin p w : granting env → p ≠ "" → io_copiers w = [] →
  ∃ ka w', copyStreams env c stdin p p w = (Ok ka, w') ∧
    io_copiers w' = [mkCopier (c1 c) WShared CIdle false [] []; mkCopier (c2 c) WShared CIdle false [] []].
Proof.
  intros Hg Hp Hc. unfold copyStreams, bind. cbn [modify].
  destruct (start_target_file env p (c1 c) (set_copying 2 false w) Hg Hp) as (w1 & -> & H1).
  destruct (start_target_file env p (c2 c) w1 Hg Hp) as (w2 & -> & H2). simpl in H1. rewrite Hc in H1. rewrite H1 in H2.
  unfold startStdinCopy. case_decide; [simpl; eauto|]. pose proof Hg as (_ & _ & Hof & _).
  unfold bind, open_handle. rewrite Hof. simpl. eauto.
Qed.

Lemma createStreams_no_stderr env sio w : granting env → Stderr sio = "" →
  ∃ r w', createStreams env sio w = (Ok r, w') ∧ c2 r.2 = None ∧ io_copiers w' = io_copiers w.
Proof.
  intros Hg He. unfold createStreams, bind, or_close, on_error.
  destruct (start_one_granting env (Stdin sio) w Hg) as (r0 & w1 & -> & C1 & _).
  destruct (start_one_granting env (Stdout sio) w1 Hg) as (r1 & w2 & -> & C2 & _).
  rewrite decide_True by done. simpl. eexists _, _. split_and!; [done..|congruence].
Qed.

Lemma setup_file_no_stderr env sio u w : granting env → Stderr sio = "" →
  url_Parse (Stdout sio) = Ok u → u_Scheme u = "file" →
  ∃ s w', setupForwardIO env sio w = (Ok s, w') ∧ c2 (fs_streams s) = None ∧ io_copiers w' = io_copiers w ∧
    fs_passthrough s = false ∧ fs_usePIOPaths s = true ∧
    fs_stdoutFilePath s = u_Path u ∧ fs_stderrFilePath s = u_Path u.
Proof.
  intros Hg He Hu Hsch. pose proof Hg as (_ & _ & _ & Hmk & _). unfold setupForwardIO. rewrite Hu, Hsch.
  destruct (createStreams_no_stderr env sio w Hg He) as (r & w' & Hr & Hc & Hw).
  unfold setupFileScheme, mkdir_for, stderr_path. rewrite Hmk, He. simpl. unfold bind, ret. rewrite Hr.
  eexists _, _. split; [done|]. done.
Qed.

(** With output to a file and no stderr (always the case with a terminal), the
    stderr copy is started on a nil stream: its first read kills the process. *)
Theorem file_output_without_stderr_crashes env sio u w :
  url_Parse (Stdout sio) = Ok u → u_Scheme u = "file" → u_Path u ≠ "" →
  Terminal sio = true ∨ Stderr sio = "" →
  granting env → io_copiers w = [] →
  ∃ r w' w'', forwardIOWithIDs env sio w = (Ok r, w') ∧
    pio_step env (u_Path u) (u_Path u) (w', []) (w'', []) ∧ io_crashed w'' = true.
Proof.
  intros Hu Hsch Hpath Herr Hg Hcs. unfold forwardIOWithIDs.
  set (sio' := if Terminal sio then _ else sio).
  assert (He : Stderr sio' = "" ∧ Stdout sio' = Stdout sio).
  { unfold sio'. destruct (Terminal sio); [done|]. by destruct Herr. }
  destruct He as [He Ho]. clearbody sio'. rewrite <- Ho in Hu.
  assert (Hnn : IsNull sio' = false).
  { unfold IsNull. rewrite (bool_decide_eq_false_2 (Stdout sio' = "")); [by rewrite andb_false_r|].
    intros Hx. rewrite Hx in Hu. vm_compute in Hu. by simplify_eq/=. }
  rewrite Hnn. destruct (setup_file_no_stderr env sio' u w Hg He Hu Hsch) as (s & w1 & Hs & Hc2 & Hw1 & P1 & P2 & P3 & P4).
  unfold bind at 1. rewrite Hs, P1, P2, P3, P4. unfold bind, or_close, on_error.
  destruct (copyStreams_file env (fs_streams s) (Stdin sio') (u_Path u) w1 Hg Hpath ltac:(congruence)) as (ka & w2 & -> & Hc).
  eexists _, w2, (set_crashed w2). split; [done|]. split; [|done].
  rewrite Hc2 in Hc. apply (ps_nil _ _ _ _ _ 1 WShared false [] []). by rewrite Hc.
Qed.

(** stdout and stderr on one path share a stream, which two goroutines read: what
    one has read can be written after what the other read later. *)
Lemma shared_stream_reorders env :
  let c := mkCopier (Some 0) WShared CIdle false [] [] in
  let w := mkIO 1 {[0]} [] {[0 := mkStream [1; 2] true]} [c; c] 2 false (Some (5, 2%Z)) None false in
  ∃ w', rtc (pio_step env "/log" "/log") (w, []) (w', []) ∧
    c_written <$> io_copiers w' = [[]; [2]] ∧ c_phase <$> io_copiers w' = [CHold 1; CIdle].
Proof.
  eexists. split.
  - eapply rtc_l; [apply (copy_move_step env _ _ 0); reflexivity|].
    eapply rtc_l; [apply (copy_move_step env _ _ 1); reflexivity|].
    eapply rtc_l; [apply (copy_move_step env _ _ 1); reflexivity|]. apply rtc_refl.
  - split; reflexivity.
Qed.

(** When opening the second output fails, the read end that keeps the first one's
    FIFO alive is left open and nobody has it. *)
Definition second_fifo_fails : ioenv :=
  mkIOEnv (λ _, Ok 1%Z) (λ _, Ok true) (λ p _, if decide (p = "/err") then Some (mkError ErrUnknown "gone") else None)
    (λ _, None) (λ _, None).
Definition empty_io : ioworld := mkIO 0 ∅ [] ∅ [] 0 false None None false.

Lemma failed_forwarding_leaks_keepalive :
  let w := (forwardIOWithIDs second_fifo_fails (mkStdio "" "/out" "/err" false) empty_io).2 in
  is_ok (forwardIOWithIDs second_fifo_fails (mkStdio "" "/out" "/err" false) empty_io).1 = false ∧
  bool_decide (3 ∈ io_open w) = true ∧ c_writer <$> io_copiers w = [WHandle 2].
Proof. vm_compute. split_and!; reflexivity. Qed.

(** ** Witnesses *)

Definition regular_files : ioenv :=
  mkIOEnv (λ n, Ok (Z.of_nat n)) (λ _, Ok false) (λ _ _, None) (λ _, None) (λ _, None).

(** Output to a path, no stderr: what the set-up leaves, and the guest's bytes. *)
Definition demo_sio : Stdio := mkStdio "" "/out" "" false.
Definition demo_setup : forwardIOSetup * ioworld :=
  match setupForwardIO regular_files demo_sio empty_io with (Ok s, w) => (s, w) | (Err _, w) => (mkSetup demo_sio no_conns true false "" "", w) end.
Definition started_io : ioworld := set_copying 2 false demo_setup.2.
Definition stdout_only : list outputTarget := [mkTarget "/out" (Some 0); mkTarget "" None].
Definition written_io : ioworld := set_streams (<[0 := mkStream [7] true]> (io_streams started_io)) started_io.

Definition copying_io : ioworld :=
  (start_target regular_files "/out" "" (mkTarget "" None)
    (start_target regular_files "/out" "" (mkTarget "/out" (Some 0)) written_io).2).2.

Lemma demo_forwarding : forwarding regular_files demo_sio empty_io demo_setup.1 started_io stdout_only.
Proof.
  split; [done|vm_compute; reflexivity| |vm_compute; reflexivity|intros H; vm_compute in H; discriminate].
  exists demo_setup.2. split; [vm_compute; reflexivity|reflexivity].
Qed.

Lemma started_run : rtc (pio_step regular_files (out_paths demo_sio demo_setup.1).1 (out_paths demo_sio demo_setup.1).2)
  (started_io, stdout_only) (copying_io, []).
Proof.
  change (out_paths demo_sio demo_setup.1) with ("/out", ""). cbn [fst snd].
  eapply rtc_l; [apply (ps_guest _ _ _ started_io _ 0 [] 7); reflexivity|].
  eapply rtc_l; [apply (ps_guest_eof _ _ _ _ _ 0 [7]); reflexivity|].
  match goal with |- rtc _ (?x, _) _ => change x with written_io end.
  eapply rtc_l; [eapply ps_start; reflexivity|]. eapply rtc_l; [eapply ps_start; reflexivity|]. apply rtc_refl.
Qed.

Lemma done_means_delivered_witness : io_crashed copying_io = false ∧ io_done copying_io = false.
Proof.
  split; [|vm_compute; reflexivity].
  exact (proj1 (done_means_delivered regular_files demo_sio empty_io demo_setup.1 started_io stdout_only copying_io []
    demo_forwarding started_run)).
Defined.

Lemma copying_finished : guest_finished copying_io.
Proof.
  intros [|i] c s Hi Hs; vm_compute in Hi; simplify_eq/=. exists [7]. reflexivity.
Qed.

Lemma copies_complete_witness :
  guest_finished copying_io ∧ work copying_io = 4 ∧
  ∀ n w', nsteps move n copying_io w' → n + work w' ≤ work copying_io.
Proof.
  split; [exact copying_finished|]. split; [vm_compute; reflexivity|].
  exact (proj1 (copies_complete regular_files demo_sio empty_io demo_setup.1 started_io stdout_only copying_io
    demo_forwarding started_run copying_finished)).
Defined.

Lemma failed_forwarding_witness :
  let r := forwardIOWithIDs second_fifo_fails (mkStdio "" "/out" "/err" false) empty_io in
  is_ok r.1 = false ∧ (∀ h, h ∈ io_open r.2 → h ∈ io_open empty_io ∨ io_streams r.2 !! h = None).
Proof.
  split; [vm_compute; reflexivity|].
  apply (failed_forwarding_closes_streams second_fifo_fails (mkStdio "" "/out" "/err" false) empty_io
    (wrap ("containerd-shim: opening w/o fifo " +:+ fmt_q "/err" +:+ " failed") (mkError ErrUnknown "gone")) _).
  - split; intros h Hh; simpl in *; [set_solver|by destruct Hh].
  - vm_compute. reflexivity.
Defined.

Lemma file_output_crash_witness :
  ∃ r w' w'', forwardIOWithIDs regular_files (mkStdio "" "file:///var/log/c.log" "file:///var/log/c.log" true) empty_io = (Ok r, w') ∧
    pio_step regular_files "/var/log/c.log" "/var/log/c.log" (w', []) (w'', []) ∧ io_crashed w'' = true.
Proof.
  apply (file_output_without_stderr_crashes regular_files
    (mkStdio "" "file:///var/log/c.log" "file:///var/log/c.log" true) (mkURL "file" "/var/log/c.log") empty_io);
    [vm_compute; reflexivity|reflexivity|discriminate|by left| |reflexivity].
  split_and!; simpl; eauto.
Defined.
