(* ===== verification/MountUtil.v ===== *)
(** Mounting a root file system from its layers: internal/host/mountutil/mount.go
    and serial.go, run by the guest (vminit/runc/container.go).

    The kernel's answers are an oracle on the history of system calls
    ([answer]); the mounts in place are part of the world, so that what is left
    mounted after a failure can be stated.  Error texts end where the text of the
    strconv error they wrap would follow. *)
From S2P Require Import Prelude GoStrings GoState GoText.
From Stdlib Require Import Ascii.

(** [types.Mount] and [mount.ActiveMount] *)
Record mount := mkMount {
  Type_ : string;
  Source : string;
  Target : string;
  Options : list string
}.

#[export] Instance mount_eq_dec : EqDecision mount.
Proof. solve_decision. Defined.

Record ActiveMount := mkActive { am : mount; MountPoint : string }.

#[export] Instance ActiveMount_eq_dec : EqDecision ActiveMount.
Proof. solve_decision. Defined.


(** ** mkdir options *)

Record mkdirSpec := mkMkdirSpec { Path : string; Mode : Z; UID : Z; GID : Z }.

Definition mkdirPrefix : string := "X-containerd.mkdir.path=".

(** The cases of the switch fall through from the longest form to the shortest. *)
Definition parseMkdirOption (opt baseDir : string) : res mkdirSpec :=
  match CutPrefix mkdirPrefix opt with
  | None => Err (errorf ("unknown mkdir mount option " +:+ fmt_q opt))
  | Some body =>
      let case1 (p : string) (mode uid gid : Z) :=
        if HasPrefix p baseDir then Ok (mkMkdirSpec p mode uid gid)
        else Err (errorf ("mkdir path " +:+ fmt_q p +:+ " must be under " +:+ fmt_q baseDir)) in
      let case2 p mode uid gid :=
        match ParseUint mode 8 32 with
        | None => Err (errorf ("invalid mode " +:+ fmt_q mode +:+ " in mkdir option"))
        | Some m => case1 p m uid gid
        end in
      let case3 p mode uid gid :=
        match Atoi uid with
        | None => Err (errorf ("invalid uid " +:+ fmt_q uid +:+ " in mkdir option"))
        | Some u => case2 p mode u gid
        end in
      match SplitN body ":" 4 with
      | [p; mode; uid; gid] =>
          match Atoi gid with
          | None => Err (errorf ("invalid gid " +:+ fmt_q gid +:+ " in mkdir option"))
          | Some g => case3 p mode uid g
          end
      | [p; mode; uid] => case3 p mode uid (-1)%Z
      | [p; mode] => case2 p mode (-1)%Z (-1)%Z
      | [p] => case1 p 493%Z (-1)%Z (-1)%Z
      | _ => Err (errorf ("invalid mkdir mount option " +:+ fmt_q opt))
      end
  end.

Fixpoint processMkdirOptions (options : list string) (baseDir : string)
    : res (list string * list mkdirSpec) :=
  match options with
  | [] => Ok ([], [])
  | opt :: rest =>
      if HasPrefix opt "X-containerd.mkdir." then
        let! spec := parseMkdirOption opt baseDir in
        let! rs := processMkdirOptions rest baseDir in
        Ok (rs.1, spec :: rs.2)
      else
        let! rs := processMkdirOptions rest baseDir in
        Ok (opt :: rs.1, rs.2)
  end.

(** ** Templates *)

Definition parseIndex (indexStr : string) (maxLen : nat) : res nat :=
  match Atoi indexStr with
  | None => Err (errorf ("invalid index " +:+ fmt_q indexStr))
  | Some i =>
      if (i <? 0)%Z || (Z.of_nat maxLen <=? i)%Z then
        Err (errorf ("index out of bounds: " +:+ fmt_d i +:+ ", has "
                     +:+ fmt_d (Z.of_nat maxLen) +:+ " active mounts"))
      else Ok (Z.to_nat i)
  end.

(** The callback keeps the first error and leaves later matches as they are. *)
Definition replaceSimplePattern (s kw : string) (mounts : list ActiveMount)
    (getter : ActiveMount → string) : string * option error :=
  ReplaceAllFunc kw 1
    (λ m capturedErr,
       match capturedErr with
       | Some _ => (m, capturedErr)
       | None =>
           match FindSubmatch kw 1 m with
           | Some [idx] =>
               match parseIndex idx (length mounts) with
               | Err e => (m, Some e)
               | Ok i => (default "" (getter <$> mounts !! i), None)
               end
           | _ => (m, Some (errorf ("invalid pattern: " +:+ m)))
           end
       end) 0 s None.

Definition invalid_range (start_ end_ : Z) (n : nat) : error :=
  errorf ("invalid range: " +:+ fmt_d start_ +:+ "-" +:+ fmt_d end_ +:+ ", has "
          +:+ fmt_d (Z.of_nat n) +:+ " active mounts").

(** [mounts[start..end]] upwards, or downwards when [start > end]. *)
Definition buildOverlayDirs (start_ end_ : Z) (mounts : list ActiveMount) : res string :=
  let n := length mounts in
  let dirs (a b : Z) :=
    MountPoint <$> firstn (Z.to_nat b - Z.to_nat a + 1) (skipn (Z.to_nat a) mounts) in
  if (end_ <? start_)%Z then
    if (Z.of_nat n <=? start_)%Z || (end_ <? 0)%Z then Err (invalid_range start_ end_ n)
    else Ok (join_with ":" (rev (dirs end_ start_)))
  else
    if (start_ <? 0)%Z || (Z.of_nat n <=? end_)%Z then Err (invalid_range start_ end_ n)
    else Ok (join_with ":" (dirs start_ end_)).

Definition replaceOverlayPattern (s : string) (mounts : list ActiveMount) : string * option error :=
  ReplaceAllFunc "overlay" 2
    (λ m capturedErr,
       match capturedErr with
       | Some _ => (m, capturedErr)
       | None =>
           match FindSubmatch "overlay" 2 m with
           | Some [a; b] =>
               match Atoi a, Atoi b with
               | None, _ => (m, Some (errorf "invalid start index in overlay"))
               | _, None => (m, Some (errorf "invalid end index in overlay"))
               | Some start_, Some end_ =>
                   match buildOverlayDirs start_ end_ mounts with
                   | Err e => (m, Some e)
                   | Ok dirs => (dirs, None)
                   end
               end
           | _ => (m, Some (errorf ("invalid overlay pattern: " +:+ m)))
           end
       end) 0 s None.

Definition checked (msg : string) (r : string * option error) : res string :=
  match r with
  | (_, Some e) => Err (wrap msg e)
  | (s, None) => Ok s
  end.

(** [None]: the string has no template and is used as it is. *)
Definition formatString (s : string) : option (list ActiveMount → res string) :=
  if negb (Contains s "{{") then None
  else Some (λ a,
    let! r1 := checked "source pattern" (replaceSimplePattern s "source" a (λ x, Source (am x))) in
    let! r2 := checked "target pattern" (replaceSimplePattern r1 "target" a (λ x, Target (am x))) in
    let! r3 := checked "mount pattern" (replaceSimplePattern r2 "mount" a MountPoint) in
    let! r4 := checked "overlay pattern" (replaceOverlayPattern r3 a) in
    if Contains r4 "{{" then Err (errorf ("unsupported format pattern in " +:+ fmt_q s))
    else Ok r4).

Definition format (what s : string) (active : list ActiveMount) : res string :=
  match formatString s with
  | None => Ok s
  | Some fn => match fn active with
               | Ok r => Ok r
               | Err e => Err (wrap ("formatting mount " +:+ what +:+ " " +:+ fmt_q s) e)
               end
  end.

Fixpoint format_options (opts : list string) (active : list ActiveMount) : res (list string) :=
  match opts with
  | [] => Ok []
  | o :: os =>
      let! r := format "option" o active in
      let! rs := format_options os active in
      Ok (r :: rs)
  end.

Definition applyFormatSubstitution (m : mount) (active : list ActiveMount) : res mount :=
  let! opts := format_options (Options m) active in
  let! src := format "source" (Source m) active in
  let! tgt := format "target" (Target m) active in
  Ok (mkMount (Type_ m) src tgt opts).

(** ** Block devices named by serial

    [sysBlock]: the entries of /sys/block in the order [os.ReadDir] gives them,
    with the content of their serial attribute when it can be read; [None] when
    the directory cannot. *)
Definition sysBlock : Type := option (list (string * option string)).

Definition BlockSerialScheme : string := "serial:".
Definition blockSerialResolveTimeout : Z := 5000.

Fixpoint find_serial (entries : list (string * option string)) (serial : string) : res string :=
  match entries with
  | [] => Err (errorf ("no block device with serial " +:+ fmt_q serial))
  | (name, data) :: es =>
      match data with
      | None => find_serial es serial
      | Some d => if decide (TrimSpace d = serial) then Ok (path_Join ["/dev"; name])
                  else find_serial es serial
      end
  end.

Definition findBlockDeviceBySerial (serial : string) (sys : sysBlock) : res string :=
  match sys with
  | None => Err (errorf "readdir")
  | Some entries => find_serial entries serial
  end.

(** One turn of the polling loop: what /sys/block shows, the clock (in
    milliseconds) read after looking, and whether the context ends the wait that
    follows. *)
Record poll := mkPoll { p_sys : sysBlock; p_now : Z; p_ctx : option error }.

(** [None]: out of fuel. *)
Fixpoint resolve_loop (fuel : nat) (serial : string) (deadline : Z) (polls : nat → poll)
    (i : nat) : option (res string) :=
  match fuel with
  | O => None
  | S f =>
      match findBlockDeviceBySerial serial (p_sys (polls i)) with
      | Ok dev => Some (Ok dev)
      | Err _ =>
          if (deadline <? p_now (polls i))%Z then
            Some (Err (errorf ("resolve block device by serial " +:+ fmt_q serial +:+ ": not found")))
          else match p_ctx (polls i) with
               | Some e => Some (Err e)
               | None => resolve_loop f serial deadline polls (S i)
               end
      end
  end.

(** The ticks of 50ms in the timeout, the look that starts the wait and the one
    that finds the deadline passed. *)
Definition resolve_fuel : nat := 102.

Definition resolveBlockSerialSource (polls : nat → poll) (start_ : Z) (source : string)
    : option (res (string * bool)) :=
  match CutPrefix BlockSerialScheme source with
  | None => Some (Ok (source, false))
  | Some serial =>
      match resolve_loop resolve_fuel serial (start_ + blockSerialResolveTimeout) polls 0 with
      | None => None
      | Some (Ok dev) => Some (Ok (dev, true))
      | Some (Err e) => Some (Err e)
      end
  end.

(** ** Mounting *)

(** The system calls of the mount sequence; [OpMount] and [OpUnmountAll] are
    containerd's [mount.Mount.Mount] and [mount.UnmountAll]. *)
Inductive sysop :=
  | OpMkdirAll (path : string) (mode : Z)
  | OpChown (path : string) (uid gid : Z)
  | OpMount (m : mount) (target : string)
  | OpUnmountAll (mountPoint : string).

#[export] Instance sysop_eq_dec : EqDecision sysop.
Proof. solve_decision. Defined.

(** The calls made so far with what they answered, oldest first. *)
Definition world : Type := list (sysop * option error).

(** What the outside answers: the outcome of a call, and what resolving a serial
    would see, may depend on everything done before. *)
Record kernel := mkKernel {
  answer : world → sysop → option error;
  clock : world → Z;
  polls : world → nat → poll
}.

Section All.
Context (k : kernel).

Definition call (op : sysop) : ST world () := λ w,
  let a := answer k w op in
  (match a with None => Ok tt | Some e => Err e end, w ++ [(op, a)]).

Fixpoint applyMkdirSpecs (specs : list mkdirSpec) : ST world () :=
  match specs with
  | [] => ret tt
  | spec :: rest =>
      call (OpMkdirAll (Path spec) (Mode spec)) ;;!
      (if negb (bool_decide (UID spec = -1)%Z) || negb (bool_decide (GID spec = -1)%Z) then
         wrapping ("failed to chown " +:+ fmt_q (Path spec) +:+ " to " +:+ fmt_d (UID spec)
                   +:+ ":" +:+ fmt_d (GID spec))
           (call (OpChown (Path spec) (UID spec) (GID spec)))
       else ret tt) ;;!
      applyMkdirSpecs rest
  end.

(** Newest first; the last failure is the error, and a failure does not stop the
    loop. *)
Fixpoint cleanup_rev (ms : list ActiveMount) (lastErr : option error) : ST world () :=
  match ms with
  | [] => match lastErr with None => ret tt | Some e => fail e end
  | a :: rest =>
      if decide (Type_ (am a) = "mkdir") then cleanup_rev rest lastErr
      else do! r := attempt (call (OpUnmountAll (MountPoint a))) in
           cleanup_rev rest (match r with Err e => Some e | Ok _ => lastErr end)
  end.

Definition cleanupMounts (active : list ActiveMount) : ST world () := cleanup_rev (rev active) None.

Definition cut_type (prefix : string) (m : mount) : option mount :=
  t ← CutPrefix prefix (Type_ m); Some (mkMount t (Source m) (Target m) (Options m)).

Definition expand_format (active : list ActiveMount) (m : mount) : ST world mount :=
  match cut_type "format/" m with
  | None => ret m
  | Some m1 => lift (applyFormatSubstitution m1 active)
  end.

Definition expand_mkdir (mdir : string) (m : mount) : ST world mount :=
  match cut_type "mkdir/" m with
  | None => ret m
  | Some m1 =>
      do! rs := lift (processMkdirOptions (Options m1) mdir) in
      applyMkdirSpecs rs.2 ;;!
      ret (mkMount (Type_ m1) (Source m1) (Target m1) rs.1)
  end.

Definition expand_serial (m : mount) : ST world mount := λ w,
  match resolveBlockSerialSource (polls k w) (clock k w) (Source m) with
  | Some (Ok (dev, true)) => (Ok (mkMount (Type_ m) dev (Target m) (Options m)), w)
  | Some (Ok (_, false)) => (Ok m, w)
  | Some (Err e) => (Err e, w)
  | None => (Err (errorf "out of fuel"), w)
  end.

(** The body of the loop for mount [i] of [n]. *)
Definition mount_one (rootfs mdir : string) (n i : nat) (m : mount) (active : list ActiveMount)
    : ST world ActiveMount :=
  let target := if (i <? n - 1)%nat then path_Join [mdir; fmt_d (Z.of_nat i)] else rootfs in
  (if (i <? n - 1)%nat then call (OpMkdirAll target 488) else ret tt) ;;!
  do! m1 := expand_format active m in
  do! m2 := expand_mkdir mdir m1 in
  do! m3 := expand_serial m2 in
  call (OpMount m3 target) ;;!
  ret (mkActive m3 target).

(** Every failure of the body unmounts what is active and drops the errors of
    doing so. *)
Fixpoint All_loop (rootfs mdir : string) (n i : nat) (mounts : list mount)
    (active : list ActiveMount) : ST world (list ActiveMount) :=
  match mounts with
  | [] => ret active
  | m :: rest =>
      do! a := on_error (mount_one rootfs mdir n i m active) (cleanupMounts active) in
      All_loop rootfs mdir n (S i) rest (active ++ [a])
  end.

(** [None]: no cleanup function; [Some active]: the cleanup is
    [cleanupMounts active]. *)
Definition All (rootfs mdir : string) (mounts : list mount) : ST world (option (list ActiveMount)) :=
  match mounts with
  | [] => ret None
  | _ => do! active := All_loop rootfs mdir (length mounts) 0 mounts [] in ret (Some active)
  end.
End All.
