(* ===== verification/MountTemplates.v ===== *)
(** What the template substitution of mountutil computes: a template is a list of
    literal texts and references, and formatting its text gives the concatenation
    of their values, whatever the white space inside the braces. *)
From S2P Require Import Prelude GoStrings GoState GoText MountUtil.
From Stdlib Require Import Ascii.

Inductive keyword := KSource | KTarget | KMount | KOverlay.

#[export] Instance keyword_eq_dec : EqDecision keyword.
Proof. solve_decision. Defined.

Definition kw_text (k : keyword) : string :=
  match k with KSource => "source" | KTarget => "target" | KMount => "mount" | KOverlay => "overlay" end.

Definition arity (k : keyword) : nat := match k with KOverlay => 2 | _ => 1 end.

Inductive token :=
  | Lit (s : string)
  | Ref (k : keyword) (sp0 : string) (args : list (string * Z)) (sp1 : string).

Definition print_token (t : token) : string :=
  match t with
  | Lit s => s
  | Ref k sp0 args sp1 => print_tmpl (kw_text k) sp0 args sp1
  end.

Fixpoint concat_str (l : list string) : string :=
  match l with [] => "" | s :: l' => s +:+ concat_str l' end.

Definition print (ts : list token) : string := concat_str (print_token <$> ts).

(** ** Reference semantics *)

(** The indices from [a] to [b], in the direction that leads there. *)
Definition range (a b : nat) : list nat :=
  if (b <? a)%nat then rev (seq b (a - b + 1)) else seq a (b - a + 1).

Definition eval_ref (active : list ActiveMount) (k : keyword) (ns : list Z) : option string :=
  match k, ns with
  | KSource, [i] => (λ a, Source (am a)) <$> active !! Z.to_nat i
  | KTarget, [i] => (λ a, Target (am a)) <$> active !! Z.to_nat i
  | KMount, [i] => MountPoint <$> active !! Z.to_nat i
  | KOverlay, [i; j] =>
      join_with ":" <$> mapM (λ x, MountPoint <$> active !! x) (range (Z.to_nat i) (Z.to_nat j))
  | _, _ => None
  end.

Definition eval_token (active : list ActiveMount) (t : token) : option string :=
  match t with
  | Lit s => Some s
  | Ref k _ args _ => eval_ref active k args.*2
  end.

Definition eval (active : list ActiveMount) (ts : list token) : option string :=
  concat_str <$> mapM (eval_token active) ts.

Definition brace_free (s : string) : Prop := all_chars (neq_char "{") s = true.

Definition wf_token (t : token) : Prop :=
  match t with
  | Lit s => brace_free s
  | Ref k sp0 args sp1 =>
      length args = arity k ∧ Forall wf_arg args ∧
      all_chars is_re_space sp0 = true ∧ all_chars is_re_space sp1 = true
  end.

Definition clean_mount (a : ActiveMount) : Prop :=
  brace_free (Source (am a)) ∧ brace_free (Target (am a)) ∧ brace_free (MountPoint a).

(** ** One pass of the substitution on tokens *)

Section pass.
Context {E : Type} (k : keyword) (f : string → E → string * E).

Fixpoint rep (ts : list token) (e : E) : string * E :=
  match ts with
  | [] => ("", e)
  | Lit l :: ts' => (l +:+ (rep ts' e).1, (rep ts' e).2)
  | (Ref k' _ _ _ as t) :: ts' =>
      if decide (k' = k) then
        let '(r, e1) := f (print_token t) e in (r +:+ (rep ts' e1).1, (rep ts' e1).2)
      else (print_token t +:+ (rep ts' e).1, (rep ts' e).2)
  end.

Lemma kw_other k' r : k' ≠ k → CutPrefix (kw_text k) (kw_text k' +:+ r) = None.
Proof. by destruct k, k'. Qed.

Lemma kw_letters k' : letters (kw_text k') = true.
Proof. by destruct k'. Qed.

Lemma spaces_brace_free sp : all_chars is_re_space sp = true → brace_free sp.
Proof. apply all_chars_impl. intros a Ha. unfold neq_char. by case_bool_decide; subst. Qed.

Lemma nums_brace_free args : Forall wf_arg args → brace_free (print_nums args).
Proof.
  unfold brace_free. induction 1 as [|[sp n] args (_ & Hsp & Hn) _ IH]; [done|]. simpl in *.
  rewrite !all_chars_app, IH, (spaces_brace_free sp Hsp). simpl. rewrite andb_true_r.
  eapply all_chars_impl; [|apply fmt_d_digits; lia].
  intros a Ha. unfold neq_char. by case_bool_decide; subst.
Qed.

(** The text after the braces of a template: not empty and free of braces. *)
Lemma tmpl_tail k' sp0 args sp1 :
  all_chars is_re_space sp0 = true → all_chars is_re_space sp1 = true → Forall wf_arg args →
  ∃ b u, print_tmpl (kw_text k') sp0 args sp1 = "{{" +:+ String b u ∧ brace_free (String b u).
Proof.
  intros H0 H1 Ha. unfold print_tmpl.
  set (t := sp0 +:+ kw_text k' +:+ print_nums args +:+ sp1 +:+ "}}").
  assert (Ht : brace_free t).
  { unfold t, brace_free. rewrite !all_chars_app.
    rewrite (spaces_brace_free sp0 H0), (spaces_brace_free sp1 H1), (nums_brace_free args Ha).
    by destruct k'. }
  destruct t as [|b u] eqn:Hbu; [|eauto].
  exfalso. unfold t in Hbu. destruct sp0; [by destruct k'|done].
Qed.

Lemma ReplaceAll_print ts e : Forall wf_token ts →
  ReplaceAllFunc (kw_text k) (arity k) f 0 (print ts) e = rep ts e.
Proof.
  intros Hwf. revert e. unfold print.
  induction Hwf as [|t ts Ht _ IH]; intros e; [done|]. cbn [fmap list_fmap concat_str].
  destruct t as [l|k' sp0 args sp1]; cbn [print_token rep].
  - by rewrite ReplaceAll_lit, IH.
  - destruct Ht as (Hlen & Hargs & H0 & H1).
    destruct (tmpl_tail k' sp0 args sp1) as (b & u & Hp & Hbf); [done..|].
    case_decide as Hk; [subst k'|].
    + pose proof (match_at_print (kw_text k) sp0 args sp1 (concat_str (print_token <$> ts))
        (kw_letters k) H0 H1 Hargs) as Hm. rewrite Hlen, Hp in Hm. rewrite Hp.
      change ("{{" +:+ String b u) with (String "{" (String "{" (String b u))) in *.
      erewrite ReplaceAll_match by done. destruct (f _ e) as [r e1]. by rewrite IH.
    + pose proof (match_at_other (kw_text k) (kw_text k') (arity k) sp0 args sp1
        (concat_str (print_token <$> ts)) (kw_letters k') H0 (λ r, kw_other k' r Hk)) as Hm.
      rewrite Hp in Hm |- *. rewrite ReplaceAll_braces by done. by rewrite IH.
Qed.
End pass.

Lemma print_match k sp0 args sp1 : wf_token (Ref k sp0 args sp1) →
  FindSubmatch (kw_text k) (arity k) (print_token (Ref k sp0 args sp1)) = Some (fmt_d ∘ snd <$> args).
Proof.
  intros (Hlen & Hargs & H0 & H1). eapply FindSubmatch_at. rewrite <- Hlen.
  rewrite <- (string_app_nil_r (print_token _)). simpl.
  apply match_at_print; auto using kw_letters.
Qed.

Arguments print_token : simpl never.

(** ** The callbacks against the reference *)

Definition subst_token (active : list ActiveMount) (k : keyword) (t : token) : option token :=
  match t with
  | Lit s => Some (Lit s)
  | Ref k' _ args _ => if decide (k' = k) then Lit <$> eval_ref active k args.*2 else Some t
  end.

(** A callback that computes the references of keyword [k] and keeps the first
    error. *)
Definition implements (active : list ActiveMount) (k : keyword)
    (f : string → option error → string * option error) : Prop :=
  (∀ m e, f m (Some e) = (m, Some e)) ∧
  ∀ sp0 args sp1, wf_token (Ref k sp0 args sp1) →
    match eval_ref active k args.*2 with
    | Some v => f (print_token (Ref k sp0 args sp1)) None = (v, None)
    | None => ∃ m e, f (print_token (Ref k sp0 args sp1)) None = (m, Some e)
    end.

Lemma rep_error active k f ts e : implements active k f → (rep k f ts (Some e)).2 = Some e.
Proof.
  intros [Herr _]. induction ts as [|[l|k' sp0 args sp1] ts IH]; [done..|]. cbn [rep].
  case_decide; [|done]. by rewrite Herr.
Qed.

Lemma rep_subst active k f ts : implements active k f → Forall wf_token ts →
  match mapM (subst_token active k) ts with
  | Some ts' => rep k f ts None = (print ts', None)
  | None => ∃ s e, rep k f ts None = (s, Some e)
  end.
Proof.
  intros Hf. induction 1 as [|t ts Ht _ IH]; [done|]. cbn [mapM].
  destruct t as [l|k' sp0 args sp1]; cbn [subst_token rep].
  - simpl. destruct (mapM (subst_token active k) ts) as [ts'|]; simpl.
    + by rewrite IH.
    + destruct IH as (s & e & ->). eauto.
  - case_decide as Hk; [subst k'|].
    + pose proof (proj2 Hf sp0 args sp1 Ht) as Hv.
      destruct (eval_ref active k args.*2) as [v|]; simpl.
      * rewrite Hv. destruct (mapM (subst_token active k) ts) as [ts'|]; simpl.
        -- by rewrite IH.
        -- destruct IH as (s & e & ->). simpl. eauto.
      * destruct Hv as (m & e & ->). rewrite (rep_error active k f ts e Hf). eauto.
    + simpl. destruct (mapM (subst_token active k) ts) as [ts'|]; simpl.
      * by rewrite IH.
      * destruct IH as (s & e & ->). simpl. eauto.
Qed.

Lemma parseIndex_fmt n m : (0 ≤ n < two63)%Z →
  parseIndex (fmt_d n) m =
    if (Z.of_nat m <=? n)%Z
    then Err (errorf ("index out of bounds: " +:+ fmt_d n +:+ ", has "
                      +:+ fmt_d (Z.of_nat m) +:+ " active mounts"))
    else Ok (Z.to_nat n).
Proof.
  intros Hn. unfold parseIndex. rewrite Atoi_fmt_d by done.
  by rewrite (proj2 (Z.ltb_ge n 0)) by lia.
Qed.

(** One-index templates: what [replaceSimplePattern]'s callback computes. *)
Lemma simple_implements active k getter :
  arity k = 1 →
  (∀ i, eval_ref active k [i] = getter <$> active !! Z.to_nat i) →
  implements active k
    (λ m capturedErr,
       match capturedErr with
       | Some _ => (m, capturedErr)
       | None =>
           match FindSubmatch (kw_text k) 1 m with
           | Some [idx] =>
               match parseIndex idx (length active) with
               | Err e => (m, Some e)
               | Ok i => (default "" (getter <$> active !! i), None)
               end
           | _ => (m, Some (errorf ("invalid pattern: " +:+ m)))
           end
       end).
Proof.
  intros Hk Hget. split; [done|]. intros sp0 args sp1 Hwf.
  pose proof (print_match k sp0 args sp1 Hwf) as Hm. rewrite Hk in Hm. rewrite Hm.
  destruct Hwf as (Hlen & Hargs & _). rewrite Hk in Hlen.
  destruct args as [|[sp n] [|]]; [done| |done]. simpl. rewrite Hget.
  apply Forall_singleton in Hargs as (_ & _ & Hn). simpl in Hn.
  rewrite parseIndex_fmt by done. destruct (Z.leb_spec (Z.of_nat (length active)) n).
  - rewrite lookup_ge_None_2 by lia. simpl. eauto.
  - destruct (lookup_lt_is_Some_2 active (Z.to_nat n)) as [a Ha]; [lia|].
    by rewrite Ha.
Qed.

Lemma mapM_lookup_seq (active : list ActiveMount) a n :
  a + n ≤ length active →
  mapM (λ x, MountPoint <$> active !! x) (seq a n) =
  Some (MountPoint <$> firstn n (skipn a active)).
Proof.
  revert a. induction n as [|n IH]; intros a Hn; [done|]. cbn [seq mapM].
  destruct (lookup_lt_is_Some_2 active a) as [x Hx]; [lia|]. rewrite Hx. simpl.
  rewrite IH by lia. simpl. rewrite (drop_S active x a Hx). done.
Qed.

Lemma mapM_lookup_out (active : list ActiveMount) l x :
  x ∈ l → length active ≤ x → mapM (λ x, MountPoint <$> active !! x) l = None.
Proof.
  intros Hx Hlen. induction l as [|y l IH]; [by apply not_elem_of_nil in Hx|].
  apply elem_of_cons in Hx as [->|Hx]; cbn [mapM].
  - by rewrite lookup_ge_None_2.
  - destruct (active !! y); [|done]. simpl. by rewrite (IH Hx).
Qed.

Lemma mapM_snoc {A B} (f : A → option B) l a :
  mapM f (l ++ [a]) = bs ← mapM f l; b ← f a; Some (bs ++ [b]).
Proof.
  induction l as [|x l IH]; simpl; [by destruct (f a)|]. destruct (f x); simpl; [|done].
  rewrite IH. destruct (mapM f l); simpl; [|done]. by destruct (f a).
Qed.

Lemma mapM_rev {A B} (f : A → option B) l : mapM f (rev l) = (rev (A := B)) <$> mapM f l.
Proof.
  induction l as [|a l IH]; [done|]. simpl. rewrite mapM_snoc, IH. simpl.
  destruct (mapM f l) as [bs|]; simpl; [|by destruct (f a)]. by destruct (f a).
Qed.

(** Directory lists against the reference: the indices all exist, or an error. *)
Lemma buildOverlayDirs_spec a b active : (0 ≤ a)%Z → (0 ≤ b)%Z →
  match join_with ":" <$> mapM (λ x, MountPoint <$> active !! x) (range (Z.to_nat a) (Z.to_nat b)) with
  | Some s => buildOverlayDirs a b active = Ok s
  | None => buildOverlayDirs a b active = Err (invalid_range a b (length active))
  end.
Proof.
  intros Ha Hb. unfold buildOverlayDirs, range.
  rewrite (proj2 (Z.ltb_ge b 0)), (proj2 (Z.ltb_ge a 0)) by lia. rewrite orb_false_r, orb_false_l.
  destruct (Z.ltb_spec b a) as [Hba|Hba].
  - rewrite (proj2 (Nat.ltb_lt _ _)) by lia. rewrite mapM_rev. destruct (Z.leb_spec (Z.of_nat (length active)) a).
    + rewrite (mapM_lookup_out active _ (Z.to_nat a)) by (rewrite ?elem_of_seq; lia). done.
    + rewrite mapM_lookup_seq by lia. done.
  - rewrite (proj2 (Nat.ltb_ge _ _)) by lia. destruct (Z.leb_spec (Z.of_nat (length active)) b).
    + rewrite (mapM_lookup_out active _ (Z.to_nat b)) by (rewrite ?elem_of_seq; lia). done.
    + rewrite mapM_lookup_seq by lia. done.
Qed.

Lemma overlay_implements active :
  implements active KOverlay
    (λ m capturedErr,
       match capturedErr with
       | Some _ => (m, capturedErr)
       | None =>
           match FindSubmatch "overlay" 2 m with
           | Some [a; b] =>
               match Atoi a, Atoi b with
               | None, _ => (m, Some (errorf "invalid start index in overlay"))
               | _, None => (m, Some (errorf "invalid end index in overlay"))
               | Some start_, Some end_ =>
                   match buildOverlayDirs start_ end_ active with
                   | Err e => (m, Some e)
                   | Ok dirs => (dirs, None)
                   end
               end
           | _ => (m, Some (errorf ("invalid overlay pattern: " +:+ m)))
           end
       end).
Proof.
  split; [done|]. intros sp0 args sp1 Hwf.
  pose proof (print_match KOverlay sp0 args sp1 Hwf) as Hm. cbn [kw_text arity] in Hm. rewrite Hm.
  destruct Hwf as (Hlen & Hargs & _). destruct args as [|[s1 n1] [|[s2 n2] [|]]]; try done.
  apply Forall_cons in Hargs as [(_ & _ & H1) Hargs]. apply Forall_singleton in Hargs as (_ & _ & H2).
  simpl in H1, H2. cbn [list_fmap fmap compose snd]. rewrite !Atoi_fmt_d by done.
  pose proof (buildOverlayDirs_spec n1 n2 active ltac:(lia) ltac:(lia)) as Hs.
  cbn [eval_ref fmap list_fmap snd].
  destruct (join_with ":" <$> _) as [s|]; rewrite Hs; eauto.
Qed.

(** ** The whole substitution *)

Lemma mapM_compose {A B C} (f : A → option B) (g : B → option C) (h : A → option C) l :
  (∀ a, f a ≫= g = h a) → mapM f l ≫= mapM g = mapM h l.
Proof.
  intros H. induction l as [|a l IH]; [done|]. cbn [mapM]. rewrite <- IH, <- (H a).
  destruct (f a) as [b|]; simpl; [|done].
  destruct (mapM f l) as [bs|]; simpl; by destruct (g b).
Qed.

Lemma eval_subst active k ts :
  eval active ts = ts' ← mapM (subst_token active k) ts; eval active ts'.
Proof.
  unfold eval. rewrite <- (mapM_compose (subst_token active k) (eval_token active) (eval_token active)).
  - by destruct (mapM (subst_token active k) ts).
  - intros [s|k' sp0 args sp1]; [done|]. cbn [subst_token]. case_decide; [subst|done].
    simpl. by destruct (eval_ref active k args.*2).
Qed.

Lemma join_brace_free l : Forall brace_free l → brace_free (join_with ":" l).
Proof.
  unfold brace_free. induction 1 as [|s l Hs Hl IH]; [done|]. destruct l as [|s' l]; [done|].
  cbn [join_with] in *. rewrite all_chars_app, Hs. simpl. done.
Qed.

Lemma eval_ref_brace_free active k ns v :
  Forall clean_mount active → eval_ref active k ns = Some v → brace_free v.
Proof.
  intros Hc Hv.
  assert (Hone : ∀ (g : ActiveMount → string) i x, (∀ a, clean_mount a → brace_free (g a)) →
            g <$> active !! i = Some x → brace_free x).
  { intros g i x Hg Hx. destruct (active !! i) as [a|] eqn:Ha; simplify_eq/=.
    apply Hg. eapply Forall_lookup_1; eauto. }
  destruct k, ns as [|i [|j [|]]]; simplify_eq/=.
  - eapply (Hone (λ a, Source (am a))); [|done]. by intros a (? & ? & ?).
  - eapply (Hone (λ a, Target (am a))); [|done]. by intros a (? & ? & ?).
  - eapply (Hone MountPoint); [|done]. by intros a (? & ? & ?).
  - destruct (mapM _ (range _ _)) as [l|] eqn:Hl; simplify_eq/=. apply join_brace_free.
    apply mapM_Some in Hl. clear -Hl Hone. induction Hl as [|x y l k Hxy _ IH]; [done|].
    constructor; [|done]. eapply (Hone MountPoint); [|done]. by intros a (? & ? & ?).
Qed.

Lemma subst_wf active k ts ts' : Forall clean_mount active → Forall wf_token ts →
  mapM (subst_token active k) ts = Some ts' → Forall wf_token ts'.
Proof.
  intros Hc Hwf H. apply mapM_Some in H. induction H as [|t t' ts ts' Ht _ IH]; [done|].
  apply Forall_cons in Hwf as [Hwt Hwf]. constructor; [|auto].
  destruct t as [s|k' sp0 args sp1]; cbn [subst_token] in Ht; simplify_eq/=; [done|].
  case_decide; simplify_eq/=; [|done].
  destruct (eval_ref active k args.*2) as [v|] eqn:Hv; simplify_eq/=. by eapply eval_ref_brace_free.
Qed.

(** The keywords still to be substituted. *)
Definition only (ks : list keyword) (t : token) : Prop :=
  match t with Lit _ => True | Ref k _ _ _ => k ∈ ks end.

Lemma subst_only active k ks ts ts' : Forall (only (k :: ks)) ts →
  mapM (subst_token active k) ts = Some ts' → Forall (only ks) ts'.
Proof.
  intros Hk H. apply mapM_Some in H. induction H as [|t t' ts ts' Ht _ IH]; [done|].
  apply Forall_cons in Hk as [Hkt Hk]. constructor; [|auto].
  destruct t as [s|k' sp0 args sp1]; cbn [subst_token] in Ht; simplify_eq/=; [done|].
  case_decide; simplify_eq/=; [|set_solver].
  by destruct (eval_ref active k args.*2); simplify_eq/=.
Qed.

Lemma eval_lits active ts : Forall (only []) ts → eval active ts = Some (print ts).
Proof.
  unfold eval, print. induction 1 as [|[s|k ???] ts Ht _ IH]; [done| |by apply not_elem_of_nil in Ht].
  cbn [mapM]. simpl. destruct (mapM (eval_token active) ts); simplify_eq/=. by rewrite IH.
Qed.

Lemma lits_brace_free ts : Forall wf_token ts → Forall (only []) ts → brace_free (print ts).
Proof.
  unfold print, brace_free. induction 1 as [|[s|k ???] ts Ht _ IH]; intros Ho; [done| |].
  - apply Forall_cons in Ho as [_ Ho]. cbn [fmap list_fmap concat_str]. rewrite all_chars_app, IH by done.
    unfold wf_token, brace_free in Ht. change (print_token (Lit s)) with s. by rewrite Ht.
  - apply Forall_cons in Ho as [Ho _]. by apply not_elem_of_nil in Ho.
Qed.

Lemma no_template_lits ts : Contains (print ts) "{{" = false → Forall (only []) ts.
Proof.
  unfold print. induction ts as [|[s|k sp0 args sp1] ts IH]; intros H; [done|..]; cbn [fmap list_fmap concat_str] in H.
  - constructor; [done|]. apply IH. destruct (Contains (concat_str _) "{{") eqn:Hc; [|done].
    change (print_token (Lit s)) with s in H. by rewrite (Contains_app_r s _ _ Hc) in H.
  - unfold print_token, print_tmpl in H. rewrite <- string_app_assoc in H. by rewrite Contains_prefix in H.
Qed.

(** One pass of [formatString], checked. *)
Lemma pass_spec active k f msg ts : implements active k f → Forall wf_token ts →
  match mapM (subst_token active k) ts with
  | Some ts' => checked msg (ReplaceAllFunc (kw_text k) (arity k) f 0 (print ts) None) = Ok (print ts')
  | None => ∃ e, checked msg (ReplaceAllFunc (kw_text k) (arity k) f 0 (print ts) None) = Err e
  end.
Proof.
  intros Hf Hwf. rewrite ReplaceAll_print by done. pose proof (rep_subst active k f ts Hf Hwf) as H.
  destruct (mapM (subst_token active k) ts); [by rewrite H|]. destruct H as (s & e & ->). simpl. eauto.
Qed.

Lemma simple_pass active k getter msg ts :
  arity k = 1 → (∀ i, eval_ref active k [i] = getter <$> active !! Z.to_nat i) → Forall wf_token ts →
  match mapM (subst_token active k) ts with
  | Some ts' => checked msg (replaceSimplePattern (print ts) (kw_text k) active getter) = Ok (print ts')
  | None => ∃ e, checked msg (replaceSimplePattern (print ts) (kw_text k) active getter) = Err e
  end.
Proof.
  intros Ha Hg Hwf. pose proof (pass_spec active k _ msg ts (simple_implements active k getter Ha Hg) Hwf) as H.
  rewrite Ha in H. exact H.
Qed.

Lemma overlay_pass active msg ts : Forall wf_token ts →
  match mapM (subst_token active KOverlay) ts with
  | Some ts' => checked msg (replaceOverlayPattern (print ts) active) = Ok (print ts')
  | None => ∃ e, checked msg (replaceOverlayPattern (print ts) active) = Err e
  end.
Proof. exact (pass_spec active KOverlay _ msg ts (overlay_implements active)). Qed.

(** One step of the chain of passes: either the pass and the reference fail
    together, or both go on with the substituted tokens. *)
Ltac next_pass active k H Hc Hwf Ho :=
  rewrite (eval_subst active k); cbn [kw_text arity] in H;
  let ts' := fresh "ts" in let Hs := fresh "Hs" in
  destruct (mapM (subst_token active k) _) as [ts'|] eqn:Hs;
  [ rewrite H; cbn [res_bind];
    pose proof (subst_wf _ _ _ _ Hc Hwf Hs); pose proof (subst_only _ _ _ _ _ Ho Hs);
    clear H Hwf Ho Hs; simpl mbind
  | let e := fresh "e" in destruct H as [e ->]; simpl; by eauto ].

Lemma format_eval what ts active : Forall wf_token ts → Forall clean_mount active →
  match eval active ts with
  | Some v => format what (print ts) active = Ok v
  | None => ∃ e, format what (print ts) active = Err e
  end.
Proof.
  intros Hwf Hc. unfold format, formatString. destruct (Contains (print ts) "{{") eqn:Hb; simpl.
  2: { by rewrite (eval_lits active ts (no_template_lits ts Hb)). }
  assert (Ho : Forall (only [KSource; KTarget; KMount; KOverlay]) ts).
  { apply Forall_forall. intros [s|k ???] _; [done|]. destruct k; simpl; set_solver. }
  pose proof (simple_pass active KSource (λ x, Source (am x)) "source pattern" ts eq_refl (λ _, eq_refl) Hwf) as H1.
  next_pass active KSource H1 Hc Hwf Ho.
  pose proof (simple_pass active KTarget (λ x, Target (am x)) "target pattern" ts0 eq_refl (λ _, eq_refl) H) as H1.
  next_pass active KTarget H1 Hc H H0.
  pose proof (simple_pass active KMount MountPoint "mount pattern" ts1 eq_refl (λ _, eq_refl) H2) as H1.
  next_pass active KMount H1 Hc H2 H3.
  pose proof (overlay_pass active "overlay pattern" ts2 H) as H1.
  next_pass active KOverlay H1 Hc H H0.
  rewrite (eval_lits active _ H3). by rewrite (Contains_brace_free _ (lits_brace_free _ H2 H3)).
Qed.

Lemma format_options_eval tos active : Forall (Forall wf_token) tos → Forall clean_mount active →
  match mapM (eval active) tos with
  | Some vs => format_options (print <$> tos) active = Ok vs
  | None => ∃ e, format_options (print <$> tos) active = Err e
  end.
Proof.
  intros Hwf Hc. induction Hwf as [|ts tos Hts _ IH]; [done|]. cbn [mapM fmap list_fmap format_options].
  pose proof (format_eval "option" ts active Hts Hc) as Ht.
  destruct (eval active ts) as [v|]; simpl; [|destruct Ht as [e ->]; simpl; eauto].
  rewrite Ht. cbn [res_bind]. change (list_fmap (list token) string print tos) with (print <$> tos).
  destruct (mapM (eval active) tos) as [vs|]; simpl; [by rewrite IH|]. destruct IH as [e ->]. simpl. eauto.
Qed.

(** C29: Formatting a mount is the evaluation of its templates: for any sequence
    of references to the source, target, mount point and overlay directories
    of earlier mounts and of literal texts without opening braces, when the
    sources, targets and mount points of the earlier mounts hold no opening
    brace either (a value that does is substituted into again), the text
    substitution answers what evaluating the references does, and fails
    exactly when one is out of range. *)
Theorem templates_substituted ty tos src tgt active :
  Forall (Forall wf_token) tos → Forall wf_token src → Forall wf_token tgt → Forall clean_mount active →
  let m := mkMount ty (print src) (print tgt) (print <$> tos) in
  match mapM (eval active) tos, eval active src, eval active tgt with
  | Some os, Some s, Some t => applyFormatSubstitution m active = Ok (mkMount ty s t os)
  | _, _, _ => ∃ e, applyFormatSubstitution m active = Err e
  end.
Proof.
  intros Ho Hs Ht Hc m. unfold applyFormatSubstitution. cbn [m Options Source Target Type_].
  pose proof (format_options_eval tos active Ho Hc) as H1.
  destruct (mapM (eval active) tos) as [os|]; [rewrite H1|destruct H1 as [e ->]; simpl; eauto].
  pose proof (format_eval "source" src active Hs Hc) as H2. cbn [res_bind].
  destruct (eval active src) as [s|]; [rewrite H2|destruct H2 as [e ->]; simpl; eauto].
  pose proof (format_eval "target" tgt active Ht Hc) as H3. cbn [res_bind].
  destruct (eval active tgt) as [t|]; [by rewrite H3|destruct H3 as [e ->]; simpl; eauto].
Qed.

Definition two_mounts : list ActiveMount :=
  [mkActive (mkMount "erofs" "/dev/vda" "" []) "/m/0"; mkActive (mkMount "erofs" "/dev/vdb" "" []) "/m/1"].
Definition down : list token := [Lit "lowerdir="; Ref KOverlay "" [(" ", 1%Z); ("  ", 0%Z)] ""].

Lemma templates_substituted_witness :
  applyFormatSubstitution (mkMount "overlay" "{{source 1}}" "" ["lowerdir={{overlay 1  0}}"]) two_mounts =
  Ok (mkMount "overlay" "/dev/vdb" "" ["lowerdir=/m/1:/m/0"]).
Proof.
  exact (templates_substituted "overlay" [down] [Ref KSource "" [(" ", 1%Z)] ""] [] two_mounts
    ltac:(repeat constructor; simpl; done || lia) ltac:(repeat constructor; simpl; done || lia)
    ltac:(constructor) ltac:(repeat constructor; simpl; done)).
Defined.
