(* ===== verification/MountProps.v ===== *)
(** Properties of the mount sequence of mountutil: what is mounted after [All],
    after its failure and after its cleanup, where directories may be made, and
    that resolving a serial ends. *)
From S2P Require Import Prelude GoStrings GoState GoText MountUtil MountTemplates.
From Stdlib Require Import Ascii.

(** ** What is mounted

    The documented effect of the calls: a successful mount covers its target, a
    successful [UnmountAll] removes every mount there.  Newest first. *)
Definition effect (e : sysop * option error) (tab : list (mount * string)) : list (mount * string) :=
  match e with
  | (OpMount m t, None) => (m, t) :: tab
  | (OpUnmountAll mp, None) => filter (λ x, x.2 ≠ mp) tab
  | _ => tab
  end.

Definition mount_table (w : world) : list (mount * string) := foldl (flip effect) [] w.

Definition entry (a : ActiveMount) : mount * string := (am a, MountPoint a).

Lemma mount_table_snoc w e : mount_table (w ++ [e]) = effect e (mount_table w).
Proof. unfold mount_table. by rewrite foldl_app. Qed.

(** Calls other than mounting and unmounting leave the table alone. *)
Definition same_table (w w' : world) : Prop := mount_table w' = mount_table w.
#[export] Instance same_table_preorder : PreOrder same_table.
Proof. split; [done|]. intros w1 w2 w3 H1 H2. unfold same_table in *. congruence. Qed.

Section props.
Context (k : kernel).

Lemma call_quiet op :
  match op with OpMkdirAll _ _ | OpChown _ _ _ => true | _ => false end = true →
  preserves same_table (call k op).
Proof.
  intros Hop w. unfold same_table, call. simpl. rewrite mount_table_snoc.
  destruct op; [done..]; by destruct (answer k w _).
Qed.

Lemma applyMkdirSpecs_quiet specs : preserves same_table (applyMkdirSpecs k specs).
Proof.
  induction specs as [|spec specs IH]; cbn [applyMkdirSpecs]; [apply preserves_ret; apply _|].
  apply preserves_bind; [apply _|by apply call_quiet|intros _].
  apply preserves_bind; [apply _| |done].
  case_match; [|apply preserves_ret; apply _]. apply preserves_wrapping, call_quiet; done.
Qed.

Lemma expand_format_quiet active m : preserves same_table (expand_format active m).
Proof.
  unfold expand_format. case_match; [apply preserves_lift|apply preserves_ret]; apply _.
Qed.

Lemma expand_mkdir_quiet mdir m : preserves same_table (expand_mkdir k mdir m).
Proof.
  unfold expand_mkdir. case_match; [|apply preserves_ret; apply _].
  apply preserves_bind; [apply _|apply preserves_lift; apply _|intros rs].
  apply preserves_bind; [apply _|apply applyMkdirSpecs_quiet|intros _]. apply preserves_ret. apply _.
Qed.

Lemma expand_serial_quiet m : preserves same_table (expand_serial k m).
Proof. intros w. unfold expand_serial. by repeat case_match. Qed.

Definition target_of (rootfs mdir : string) (n i : nat) : string :=
  if (i <? n - 1)%nat then path_Join [mdir; fmt_d (Z.of_nat i)] else rootfs.

(** One turn of the loop mounts one thing at its target or nothing. *)
Lemma mount_one_table rootfs mdir n i m active w :
  match mount_one k rootfs mdir n i m active w with
  | (Ok a, w') => mount_table w' = entry a :: mount_table w ∧ MountPoint a = target_of rootfs mdir n i
  | (Err _, w') => mount_table w' = mount_table w
  end.
Proof.
  unfold mount_one. fold (target_of rootfs mdir n i). set (target := target_of rootfs mdir n i).
  set (pre := (if (i <? n - 1)%nat then call k (OpMkdirAll target 488) else ret tt) : ST world ()).
  assert (Hpre : preserves same_table pre).
  { unfold pre. case_match; [by apply call_quiet|apply preserves_ret; apply _]. }
  unfold bind. specialize (Hpre w). destruct (pre w) as [[[]|e] w1]; simpl in Hpre; [|done].
  pose proof (expand_format_quiet active m w1) as H1.
  destruct (expand_format active m w1) as [[m1|e] w2]; simpl in H1; [|unfold same_table in *; congruence].
  pose proof (expand_mkdir_quiet mdir m1 w2) as H2.
  destruct (expand_mkdir k mdir m1 w2) as [[m2|e] w3]; simpl in H2; [|unfold same_table in *; congruence].
  pose proof (expand_serial_quiet m2 w3) as H3.
  destruct (expand_serial k m2 w3) as [[m3|e] w4]; simpl in H3; [|unfold same_table in *; congruence].
  unfold call. destruct (answer k w4 (OpMount m3 target)) eqn:Ha; simpl; rewrite mount_table_snoc; simpl;
    unfold same_table in *; [congruence|]. split; [|done]. unfold entry. simpl. congruence.
Qed.

(** ** Unmounting *)

Definition unmounts_work : Prop := ∀ w mp, answer k w (OpUnmountAll mp) = None.

(** What the cleanup of [ms] removes. *)
Definition cleaned (ms : list ActiveMount) (x : mount * string) : Prop :=
  Exists (λ a, Type_ (am a) ≠ "mkdir" ∧ MountPoint a = x.2) ms.
#[local] Instance cleaned_dec ms x : Decision (cleaned ms x).
Proof. apply _. Defined.

Lemma cleanup_rev_table ms : unmounts_work → ∀ w,
  (cleanup_rev k ms None w).1 = Ok tt ∧
  ∀ x, x ∈ mount_table (cleanup_rev k ms None w).2 ↔ x ∈ mount_table w ∧ ¬ cleaned ms x.
Proof.
  intros Hu. induction ms as [|a ms IH]; intros w; cbn [cleanup_rev].
  { split; [done|]. intros x. simpl. split; [intros ?; split; [done|inversion 1]|tauto]. }
  case_decide as Ht.
  - destruct (IH w) as [Hr Hx]. split; [done|]. intros x. rewrite Hx. unfold cleaned at 2.
    rewrite Exists_cons. naive_solver.
  - unfold bind, attempt, call. rewrite Hu. cbv iota beta zeta.
    destruct (IH (w ++ [(OpUnmountAll (MountPoint a), None)])) as [Hr Hx].
    split; [done|]. intros x. rewrite Hx, mount_table_snoc. simpl.
    rewrite list_elem_of_filter. unfold cleaned at 2. rewrite Exists_cons. naive_solver.
Qed.

Lemma cleanup_table active w : unmounts_work →
  (cleanupMounts k active w).1 = Ok tt ∧
  ∀ x, x ∈ mount_table (cleanupMounts k active w).2 ↔ x ∈ mount_table w ∧ ¬ cleaned active x.
Proof.
  intros Hu. unfold cleanupMounts. destruct (cleanup_rev_table (rev active) Hu w) as [Hr Hx].
  split; [done|]. intros x. rewrite Hx. unfold cleaned. rewrite rev_alt.
  change (rev_append active []) with (reverse active). rewrite !Exists_exists.
  by setoid_rewrite elem_of_reverse.
Qed.

(** ** The loop *)

Lemma All_loop_table rootfs mdir n ms : unmounts_work → ∀ i active w T0,
  mount_table w = rev (entry <$> active) ++ T0 →
  match All_loop k rootfs mdir n i ms active w with
  | (Ok active', w') =>
      mount_table w' = rev (entry <$> active') ++ T0 ∧
      MountPoint <$> active' = (MountPoint <$> active) ++ (target_of rootfs mdir n <$> seq i (length ms))
  | (Err _, w') =>
      ∃ done, mount_table w' ⊆ rev (entry <$> done) ++ T0 ∧
        MountPoint <$> done = (MountPoint <$> active) ++ (target_of rootfs mdir n <$> seq i (length done - length active)) ∧
        length active ≤ length done < length active + length ms ∧
        ∀ x, x ∈ mount_table w' ↔ x ∈ rev (entry <$> done) ++ T0 ∧ ¬ cleaned done x
  end.
Proof.
  intros Hu. induction ms as [|m ms IH]; intros i active w T0 HT; cbn [All_loop].
  { simpl. by rewrite app_nil_r. }
  unfold bind, on_error. pose proof (mount_one_table rootfs mdir n i m active w) as Hm.
  destruct (mount_one k rootfs mdir n i m active w) as [[a|e] w1].
  - destruct Hm as [Hw1 Ha]. specialize (IH (S i) (active ++ [a]) w1 T0).
    rewrite HT in Hw1. rewrite fmap_app, rev_app_distr in IH. specialize (IH Hw1).
    destruct (All_loop k rootfs mdir n (S i) ms (active ++ [a]) w1) as [[act|e] w2].
    + destruct IH as [Ht Hp]. split; [done|]. rewrite Hp, fmap_app, <- app_assoc. simpl. by rewrite Ha.
    + destruct IH as (d & Hsub & Hp & Hlen & Hx). exists d. rewrite length_app in *. simpl in *.
      split_and!; [done| |lia..|done]. rewrite Hp, fmap_app, <- app_assoc. simpl. rewrite Ha.
      replace (length d - length active) with (S (length d - (length active + 1))) by lia. done.
  - destruct (cleanup_table active w1 Hu) as [_ Hx]. exists active. rewrite Hm, HT in Hx.
    split_and!; simpl; [intros x; rewrite Hx; tauto| |lia..|done].
    by rewrite Nat.sub_diag, app_nil_r.
Qed.
End props.

Lemma not_cleaned_done (d : list ActiveMount) (T0 : list (mount * string)) x :
  x ∈ rev (entry <$> d) ++ T0 → ¬ cleaned d x → x ∈ T0 ∨ Type_ x.1 = "mkdir".
Proof.
  intros Hx Hn. apply elem_of_app in Hx as [Hx|Hx]; [|by left].
  rewrite rev_alt in Hx. change (rev_append (entry <$> d) []) with (reverse (entry <$> d)) in Hx.
  apply elem_of_reverse, list_elem_of_fmap in Hx as (a & -> & Ha). right.
  destruct (decide (Type_ (am a) = "mkdir")) as [|Hne]; [done|]. exfalso. apply Hn.
  apply Exists_exists. eauto.
Qed.

(** C28: All mounts every component at its directory and the last at the root
    file system, and its cleanup removes them; when it fails it leaves the
    mount table as it found it, but for mounts of type mkdir and for what
    was already mounted at its own targets, when unmounting works. *)
Theorem All_all_or_nothing k rootfs mdir ms w :
  unmounts_work k →
  match All k rootfs mdir ms w with
  | (Ok None, w') => ms = [] ∧ w' = w
  | (Ok (Some active), w') =>
      mount_table w' = rev (entry <$> active) ++ mount_table w ∧
      MountPoint <$> active = target_of rootfs mdir (length ms) <$> seq 0 (length ms) ∧
      ∀ x, x ∈ mount_table (cleanupMounts k active w').2 → x ∈ mount_table w ∨ Type_ x.1 = "mkdir"
  | (Err _, w') =>
      (∀ x, x ∈ mount_table w' → x ∈ mount_table w ∨ Type_ x.1 = "mkdir") ∧
      ∀ x, x ∈ mount_table w → x.2 ∉ target_of rootfs mdir (length ms) <$> seq 0 (length ms) →
           x ∈ mount_table w'
  end.
Proof.
  intros Hu. unfold All. destruct ms as [|m ms]; [done|]. set (n := length (m :: ms)).
  pose proof (All_loop_table k rootfs mdir n (m :: ms) Hu 0 [] w (mount_table w) eq_refl) as H.
  unfold bind. destruct (All_loop k rootfs mdir n 0 (m :: ms) [] w) as [[active|e] w']; cbn [ret].
  - destruct H as [Ht Hp]. split_and!; [done..|]. intros x Hx.
    apply (cleanup_table k active w' Hu) in Hx as [Hx Hn]. rewrite Ht in Hx. by eapply not_cleaned_done.
  - destruct H as (d & _ & Hp & Hlen & Hx). split.
    + intros x Hin. apply Hx in Hin as [Hin Hn]. by eapply not_cleaned_done.
    + intros x Hin Hfresh. apply Hx. split; [apply elem_of_app; by right|]. intros Hc.
      apply Exists_exists in Hc as (a & Ha & _ & Hmp). apply Hfresh. rewrite <- Hmp.
      simpl in Hp. rewrite Nat.sub_0_r in Hp.
      assert (MountPoint a ∈ target_of rootfs mdir n <$> seq 0 (length d)) as Hmem.
      { rewrite <- Hp. by apply list_elem_of_fmap_2. }
      apply list_elem_of_fmap in Hmem as (j & -> & Hj). apply list_elem_of_fmap_2.
      rewrite elem_of_seq in *. simpl in *. lia.
Qed.

(** ** Serials *)

(** The clock of the polling loop: the first look comes after the deadline was
    set, and 50ms pass between looks. *)
Definition ticks (start_ : Z) (ps : nat → poll) : Prop :=
  (start_ ≤ p_now (ps 0%nat))%Z ∧ ∀ i, (p_now (ps i) + 50 ≤ p_now (ps (S i)))%Z.

Lemma ticks_at start_ ps i : ticks start_ ps → (start_ + 50 * Z.of_nat i ≤ p_now (ps i))%Z.
Proof. intros [H0 HS]. induction i as [|i IH]; [lia|]. specialize (HS i). lia. Qed.

Lemma resolve_loop_ends fuel serial deadline ps i :
  (∀ j, (i ≤ j)%nat → p_now (ps j) + 50 ≤ p_now (ps (S j)))%Z →
  (deadline < p_now (ps i) + 50 * (Z.of_nat fuel - 1))%Z → fuel ≠ 0 →
  is_Some (resolve_loop fuel serial deadline ps i).
Proof.
  revert i. induction fuel as [|f IH]; intros i Ht Hf Hne; [done|]. cbn [resolve_loop].
  case_match; [eauto|]. destruct (Z.ltb_spec deadline (p_now (ps i))); [eauto|].
  case_match; [eauto|]. apply IH; [|specialize (Ht i ltac:(lia)); lia|lia]. intros j Hj. apply Ht. lia.
Qed.

Lemma resolve_loop_finds fuel serial deadline ps i d dev :
  d < fuel →
  findBlockDeviceBySerial serial (p_sys (ps (i + d))) = Ok dev →
  (∀ j, i ≤ j < i + d → (p_now (ps j) ≤ deadline)%Z ∧ p_ctx (ps j) = None) →
  ∃ dev', resolve_loop fuel serial deadline ps i = Some (Ok dev').
Proof.
  revert fuel i. induction d as [|d IH]; intros [|f] i Hf Hdev Hj; [lia| |lia|]; cbn [resolve_loop].
  - rewrite Nat.add_0_r in Hdev. rewrite Hdev. eauto.
  - case_match; [eauto|]. destruct (Hj i ltac:(lia)) as [Hnow ->].
    rewrite (proj2 (Z.ltb_ge _ _)) by lia. apply IH; [lia| |].
    + by replace (S i + d) with (i + S d) by lia.
    + intros j ?. apply Hj. lia.
Qed.

Lemma find_serial_sound es serial dev : find_serial es serial = Ok dev →
  ∃ name data, (name, Some data) ∈ es ∧ TrimSpace data = serial ∧ dev = path_Join ["/dev"; name].
Proof.
  induction es as [|[name [data|]] es IH]; intros H; cbn [find_serial] in H; [done|case_decide|]; simplify_eq.
  - exists name, data. set_solver.
  - destruct (IH H) as (n & d & ? & ?). exists n, d. set_solver.
  - destruct (IH H) as (n & d & ? & ?). exists n, d. set_solver.
Qed.

Lemma resolve_loop_sound fuel serial deadline ps i dev :
  resolve_loop fuel serial deadline ps i = Some (Ok dev) →
  ∃ j, findBlockDeviceBySerial serial (p_sys (ps j)) = Ok dev.
Proof.
  revert i. induction fuel as [|f IH]; intros i; cbn [resolve_loop]; [done|].
  repeat case_match; intros; simplify_eq; eauto.
Qed.

(** Resolving a block device by serial number always ends; it finds a device
    that appears before the time-out while the context lives, and only answers
    a device whose serial file holds that number. *)
Theorem serial_resolution_ends_and_finds ps start_ serial :
  ticks start_ ps →
  ∃ r, resolveBlockSerialSource ps start_ (BlockSerialScheme +:+ serial) = Some r ∧
    (∀ i dev, findBlockDeviceBySerial serial (p_sys (ps i)) = Ok dev →
       (∀ j, j < i → (p_now (ps j) ≤ start_ + blockSerialResolveTimeout)%Z ∧ p_ctx (ps j) = None) →
       ∃ dev', r = Ok (dev', true)) ∧
    (∀ dev ok, r = Ok (dev, ok) → ok = true ∧
       ∃ j es name data, p_sys (ps j) = Some es ∧ (name, Some data) ∈ es ∧
         TrimSpace data = serial ∧ dev = path_Join ["/dev"; name]).
Proof.
  intros Ht. unfold resolveBlockSerialSource. rewrite CutPrefix_app.
  set (deadline := (start_ + blockSerialResolveTimeout)%Z).
  destruct (resolve_loop_ends resolve_fuel serial deadline ps 0) as [r Hr]; [|..|done|].
  { intros j _. apply Ht. }
  { pose proof (ticks_at start_ ps 0 Ht). unfold deadline, blockSerialResolveTimeout, resolve_fuel. lia. }
  rewrite Hr. exists (match r with Ok dev => Ok (dev, true) | Err e => Err e end).
  split; [by destruct r|]. split.
  - intros i dev Hdev Hj. assert (Hi : i < resolve_fuel).
    { destruct i as [|i]; [unfold resolve_fuel; lia|]. destruct (Hj i ltac:(lia)) as [Hnow _].
      pose proof (ticks_at start_ ps i Ht). unfold deadline, blockSerialResolveTimeout, resolve_fuel in *. lia. }
    destruct (resolve_loop_finds resolve_fuel serial deadline ps 0 i dev) as [dev' Hd]; [done..| |].
    { intros j ?. apply Hj. lia. }
    rewrite Hd in Hr. simplify_eq. eauto.
  - intros dev ok Hok. destruct r as [dev1|e]; simplify_eq. split; [done|].
    apply resolve_loop_sound in Hr as [j Hf]. unfold findBlockDeviceBySerial in Hf.
    destruct (p_sys (ps j)) as [es|] eqn:Hes; [|done].
    apply find_serial_sound in Hf as (name & data & ? & ? & ?). by exists j, es, name, data.
Qed.

(** ** Directories *)

Lemma parseMkdirOption_prefix o baseDir spec :
  parseMkdirOption o baseDir = Ok spec → HasPrefix (Path spec) baseDir = true.
Proof.
  unfold parseMkdirOption. intros H. repeat (case_match; try discriminate H); by injection H as <-.
Qed.

(** The directories made for a mount are named by options that start with the
    base directory. *)
Lemma mkdir_specs_prefixed opts baseDir rs :
  processMkdirOptions opts baseDir = Ok rs →
  Forall (λ s, HasPrefix (Path s) baseDir = true) rs.2.
Proof.
  revert rs. induction opts as [|o opts IH]; intros rs H; cbn [processMkdirOptions] in H; simplify_eq/=; [done|].
  case_match.
  - destruct (parseMkdirOption o baseDir) as [spec|] eqn:Hs; [|done]. cbn [res_bind] in H.
    destruct (processMkdirOptions opts baseDir) as [rs'|] eqn:Hr; simplify_eq/=.
    constructor; [by eapply parseMkdirOption_prefix|by apply IH].
  - destruct (processMkdirOptions opts baseDir) as [rs'|] eqn:Hr; simplify_eq/=. by apply IH.
Qed.

(** A prefix is not an ancestor: such a path can lie outside the base directory. *)
Lemma mkdir_prefix_is_not_containment :
  ∃ spec, parseMkdirOption "X-containerd.mkdir.path=/run/c/mounts/../../../etc/cron.d" "/run/c/mounts" = Ok spec ∧
          Clean (Path spec) = "/etc/cron.d".
Proof. eexists. split; vm_compute; reflexivity. Qed.

(** A value substituted by one pass is scanned again by the later ones. *)
Lemma format_rescans_values :
  let a := mkActive (mkMount "bind" "{{ mount 0 }}" "" []) "/m/0" in
  format "option" "{{ source 0 }}" [a] = Ok "/m/0" ∧
  eval [a] [Ref KSource " " [(" ", 0%Z)] " "] = Some "{{ mount 0 }}".
Proof. split; vm_compute; reflexivity. Qed.

Definition quiet_kernel : kernel :=
  mkKernel (λ _ op, match op with OpMount _ "/root" => Some (errorf "busy") | _ => None end) (λ _, 0%Z)
    (λ _ i, mkPoll (Some []) (50 * Z.of_nat i) None).

(** A mount that fails after another succeeded. *)
Lemma All_all_or_nothing_witness :
  unmounts_work quiet_kernel ∧
  (All quiet_kernel "/root" "/m" [mkMount "tmpfs" "a" "" []; mkMount "tmpfs" "b" "" []] []).1 = Err (errorf "busy") ∧
  ∀ x, x ∈ mount_table (All quiet_kernel "/root" "/m" [mkMount "tmpfs" "a" "" []; mkMount "tmpfs" "b" "" []] []).2 →
    x ∈ mount_table [] ∨ Type_ x.1 = "mkdir".
Proof.
  split; [done|]. split; [vm_compute; reflexivity|].
  exact (proj1 (All_all_or_nothing quiet_kernel "/root" "/m"
    [mkMount "tmpfs" "a" "" []; mkMount "tmpfs" "b" "" []] [] ltac:(done))).
Defined.

(** A device that appears at the third look. *)
Definition late_device (i : nat) : poll :=
  mkPoll (if (i <? 2)%nat then Some [] else Some [("vdb", Some "sbxblk1")]) (10 + 50 * Z.of_nat i) None.

Lemma serial_resolution_witness :
  ∃ r, resolveBlockSerialSource late_device 10 "serial:sbxblk1" = Some r ∧ ∃ dev, r = Ok (dev, true).
Proof.
  destruct (serial_resolution_ends_and_finds late_device 10 "sbxblk1") as (r & Hr & Hfind & _).
  - split; [simpl; lia|]. intros i. unfold late_device. simpl p_now. lia.
  - exists r. split; [exact Hr|]. apply (Hfind 2%nat "/dev/vdb"); [vm_compute; reflexivity|].
    intros j Hj. unfold late_device, blockSerialResolveTimeout. simpl. split; [lia|done].
Defined.
