(* ===== verification/Mounts.v ===== *)
(** Turning the snapshotter's mounts into disks of the virtual machine and mounts
    for the guest: internal/shim/platform/mounts/linux.go.

    The host's files are an argument ([hostfs]); the disks go to the machine of
    VMDevices.  A mount the code rewrites in place (the options of an ext4 mount)
    is a new value here: no other part of the program looks at the old one. *)
From S2P Require Import Prelude GoStrings GoState GoText MountUtil VMDevices.
From Stdlib Require Import Ascii.

(** The verdict of [os.ReadFile] on a manifest. *)
Inductive readResult :=
  | NotExist
  | ReadErr (e : error)
  | Data (data : string).

Record hostfs := mkHostfs {
  h_size : string → option Z;
  h_read : string → readResult;
  (** [digest.Parse] of the go-digest module accepts the text *)
  h_digest_ok : string → bool
}.

Definition mountTypeOverlay : string := "overlay".
Definition maxVirtioDisks : nat := 10.
Definition layerBlobExt : string := ".erofs".
Definition manifestFilename : string := "layers.manifest".
Definition fallbackTokenPrefix : string := "blob:".

Section mounts.
Context (fs : hostfs) (stat : string → statResult).

(** ** The manifest of a merged image *)

Definition layerDigestFromDevicePath (p : string) : string :=
  let name := Base p in
  if negb (HasSuffix name layerBlobExt) then ""
  else
    let ds := replace_first "-" ":" (TrimSuffix name layerBlobExt) in
    if h_digest_ok fs ds then ds else "".

Definition nonempty (s : string) : bool := negb (bool_decide (s = "")).

Definition manifest_lines (data : string) : list string :=
  List.filter nonempty (TrimSpace <$> Split data (ascii_of_nat 10)).

Definition layer_token (blob : string) : string :=
  let d := layerDigestFromDevicePath blob in
  if nonempty d then d else fallbackTokenPrefix +:+ Base blob.

Definition expected_tokens (options : list string) : list string :=
  omap (λ opt, layer_token <$> CutPrefix "device=" opt) options.

Definition verifyVMDKManifest (vmdkPath : string) (options : list string) : option error :=
  match h_read fs (path_Join [Dir vmdkPath; manifestFilename]) with
  | NotExist => None
  | ReadErr e => Some (wrap ("read " +:+ manifestFilename) e)
  | Data data =>
      let manifest := manifest_lines data in
      let expected := expected_tokens options in
      match manifest with
      | [] => None
      | _ => if decide (manifest = expected) then None
             else Some (mkError ErrFailedPrecondition
               ("merged VMDK " +:+ Base vmdkPath
                +:+ " manifest does not match layer devices (manifest=" +:+ fmt_d (Z.of_nat (length manifest))
                +:+ ", devices=" +:+ fmt_d (Z.of_nat (length expected))
                +:+ "): stale or incomplete VMDK generation"))
      end
  end.

(** ** Disks *)

Definition truncateID (prefix id : string) : string :=
  let tag := prefix +:+ "-" +:+ id in
  if (36 <? String.length tag)%nat then str_take 36 tag else tag.

Record diskOptions := mkDiskOptions {
  do_name : string;
  do_source : string;
  do_serial : string;
  do_readOnly : bool;
  do_format : string
}.

(** [disk] is a byte that starts at 'a' and wraps. *)
Definition byte_wrap (z : Z) : Z := (z mod 256)%Z.
Definition blockSerial (disk : Z) : string := "sbxblk" +:+ fmt_d (byte_wrap (disk - 97)).

Definition filterOptions (options : list string) : list string :=
  List.filter (λ o, negb (bool_decide (o = "loop"))) options.

Definition diskName (id : string) (disk : Z) : string := truncateID ("disk-" +:+ fmt_d disk) id.

(** The image behind an EROFS mount and whether it is a VMDK. *)
Definition erofs_source (mnt : mount) : res (string * bool) :=
  let source := Source mnt in
  if HasSuffix source "fsmeta.erofs" then
    let vmdkPath := TrimSuffix source "fsmeta.erofs" +:+ "merged.vmdk" in
    match h_size fs vmdkPath with
    | Some n =>
        if (0 <? n)%Z then
          match verifyVMDKManifest vmdkPath (Options mnt) with
          | Some e => Err e
          | None => Ok (vmdkPath, true)
          end
        else Ok (source, false)
    | None => Ok (source, false)
    end
  else Ok (source, HasSuffix source ".vmdk").

Definition transformed : Type := list mount * list diskOptions * Z.

Definition handleEROFS (id : string) (disks : Z) (mnt : mount) : res transformed :=
  let! src := erofs_source mnt in
  let serial := blockSerial disks in
  let disk := mkDiskOptions (diskName id disks) src.1 serial true
                (if src.2 then "vmdk" else DefaultDiskFormat) in
  let guestOptions := List.filter (λ o, negb (HasPrefix o "device=")) (Options mnt) in
  Ok ([mkMount "erofs" (BlockSerialScheme +:+ serial) (Target mnt) (filterOptions guestOptions)],
      [disk], byte_wrap (disks + 1)).

Definition handleExt4 (id : string) (disks : Z) (mnt : mount) : transformed :=
  let readOnly := existsb (λ o, bool_decide (o = "ro") || bool_decide (o = "readonly")) (Options mnt) in
  let serial := blockSerial disks in
  ([mkMount "ext4" (BlockSerialScheme +:+ serial) (Target mnt) (filterOptions (Options mnt))],
   [mkDiskOptions (diskName id disks) (Source mnt) serial readOnly DefaultDiskFormat],
   byte_wrap (disks + 1)).

(** ** Overlays *)

Record overlayAnalysis := mkAnalysis {
  workdirIdx : Z;
  upperdirIdx : Z;
  hasLowerTmpl : bool;
  needTransform : bool;
  overlayEnd : Z
}.

(** [n, _ := strconv.Atoi(s)] of a string of digits: out of range gives the
    largest int. *)
Definition Atoi_digits (s : string) : Z := default (two63 - 1)%Z (Atoi s).

Definition analyze_option (a : overlayAnalysis) (i : Z) (opt : string) : overlayAnalysis :=
  let tmpl := Contains opt "{{" in
  if HasPrefix opt "upperdir=" then
    mkAnalysis (workdirIdx a) i (hasLowerTmpl a) (needTransform a || negb tmpl) (overlayEnd a)
  else if HasPrefix opt "workdir=" then
    mkAnalysis i (upperdirIdx a) (hasLowerTmpl a) (needTransform a || negb tmpl) (overlayEnd a)
  else if HasPrefix opt "lowerdir=" then
    if tmpl then
      mkAnalysis (workdirIdx a) (upperdirIdx a) true (needTransform a)
        (match FindSubmatch "overlay" 2 opt with
         | Some [s; e] => Z.max (Atoi_digits s) (Atoi_digits e)
         | _ => overlayEnd a
         end)
    else a
  else a.

Fixpoint analyze_from (a : overlayAnalysis) (i : Z) (options : list string) : overlayAnalysis :=
  match options with
  | [] => a
  | opt :: rest => analyze_from (analyze_option a i opt) (i + 1) rest
  end.

Definition analyzeOverlayOptions (options : list string) : overlayAnalysis :=
  analyze_from (mkAnalysis (-1) (-1) false false (-1)) 0 options.

Definition mount_ref (n : Z) : string := "{{ mount " +:+ fmt_d n +:+ " }}".

Fixpoint retarget (a : overlayAnalysis) (tmpfsIndex i : Z) (options : list string) : list string :=
  match options with
  | [] => []
  | opt :: rest =>
      (if decide (i = upperdirIdx a) then "upperdir=" +:+ mount_ref tmpfsIndex +:+ "/upper"
       else if decide (i = workdirIdx a) then "workdir=" +:+ mount_ref tmpfsIndex +:+ "/work"
       else opt) :: retarget a tmpfsIndex (i + 1) rest
  end.

Definition mkdir_opts (n : Z) : list string :=
  ["X-containerd.mkdir.path=" +:+ mount_ref n +:+ "/upper";
   "X-containerd.mkdir.path=" +:+ mount_ref n +:+ "/work"].

Definition handleOverlay (mnt : mount) : list mount :=
  let a := analyzeOverlayOptions (Options mnt) in
  if hasLowerTmpl a && needTransform a && (0 <=? upperdirIdx a)%Z && (0 <=? workdirIdx a)%Z
     && (0 <=? overlayEnd a)%Z then
    let tmpfsIndex := int64_wrap (overlayEnd a + 1) in
    [mkMount "tmpfs" "tmpfs" "" ["mode=0755"];
     mkMount "format/mkdir/overlay" (Source mnt) (Target mnt)
       (retarget a tmpfsIndex 0 (Options mnt) ++ mkdir_opts tmpfsIndex)]
  else [mnt].

Definition is_type (ts : list string) (mnt : mount) : bool :=
  existsb (λ t, bool_decide (Type_ mnt = t)) ts.

Definition transformMount (id : string) (disks : Z) (mnt : mount) : res transformed :=
  if is_type ["erofs"; "format/erofs"] mnt then handleEROFS id disks mnt
  else if is_type ["ext4"] mnt then Ok (handleExt4 id disks mnt)
  else if is_type [mountTypeOverlay; "format/overlay"; "format/mkdir/overlay"] mnt then
    Ok (handleOverlay mnt, [], disks)
  else if HasPrefix (Type_ mnt) "mkfs/" || HasPrefix (Type_ mnt) "format/" then
    Err (mkError ErrNotImplemented ("mount type " +:+ fmt_q (Type_ mnt) +:+ " requires mount manager"))
  else Ok ([mnt], [], disks).

Fixpoint transform_all (id : string) (disks : Z) (ms : list mount) : res (list mount * list diskOptions) :=
  match ms with
  | [] => Ok ([], [])
  | mnt :: rest =>
      let! t := transformMount id disks mnt in
      let! r := transform_all id t.2 rest in
      Ok (t.1.1 ++ r.1, t.1.2 ++ r.2)
  end.

Definition disk_opts (d : diskOptions) : list MountOpt :=
  (if do_readOnly d then [WithReadOnly] else [])
  ++ (if nonempty (do_format d) then [WithFormat (do_format d)] else [])
  ++ (if nonempty (do_serial d) then [WithSerial (do_serial d)] else []).

Fixpoint addDisksToVM (disks : list diskOptions) : ST Machine () :=
  match disks with
  | [] => ret tt
  | d :: rest => AddDisk stat (do_name d) (do_source d) (disk_opts d) ;;! addDisksToVM rest
  end.

Fixpoint last_ext4 (i : Z) (ms : list mount) (found : Z) : Z :=
  match ms with
  | [] => found
  | m :: rest => last_ext4 (i + 1) rest (if decide (Type_ m = "ext4") then i else found)
  end.

Definition erofs_count (ms : list mount) : nat :=
  length (List.filter (λ m, bool_decide (Type_ m = "erofs")) ms).

Definition generateOverlayIfNeeded (mounts : list mount) : list mount :=
  if (length mounts <? 2)%nat then mounts
  else if existsb (λ m, Contains (Type_ m) mountTypeOverlay) mounts then mounts
  else
    let erofsCount := erofs_count mounts in
    let ext4Index := last_ext4 0 mounts (-1) in
    if (erofsCount =? 0)%nat || negb (bool_decide (ext4Index = Z.of_nat (length mounts) - 1)%Z) then mounts
    else
      mounts ++ [mkMount "format/mkdir/overlay" mountTypeOverlay ""
        (["lowerdir={{ overlay 0 " +:+ fmt_d (Z.of_nat erofsCount - 1) +:+ " }}";
          "upperdir=" +:+ mount_ref ext4Index +:+ "/upper";
          "workdir=" +:+ mount_ref ext4Index +:+ "/work"] ++ mkdir_opts ext4Index)].

Definition transformMounts (id : string) (ms : list mount) : ST Machine (list mount) :=
  do! r := lift (transform_all id 97 ms) in
  if (maxVirtioDisks <? length r.2)%nat then
    fail (mkError ErrFailedPrecondition
      ("got " +:+ fmt_d (Z.of_nat (length r.2)) +:+ " individual EROFS layer devices (max 10): the merged VMDK/fsmeta is not ready yet (generated asynchronously) or the layers are incompatible; wait for fsmeta generation or check layer compatibility"))
  else
    addDisksToVM r.2 ;;!
    ret (generateOverlayIfNeeded r.1).

(** [Setup]: the result has no cleanup of its own. *)
Definition Setup (id : string) (rootfsMounts : list mount) : ST Machine (list mount) :=
  transformMounts id rootfsMounts.
End mounts.
