(* ===== verification/MountPipeline.v ===== *)
(** From the snapshotter's layers to the container's root: what Setup of
    shim/platform/mounts gives the machine and the guest, and what mountutil's
    All makes of it there. *)
From S2P Require Import Prelude GoStrings GoState GoText MountUtil MountTemplates MountProps VMDevices Mounts QemuInstance.
From Stdlib Require Import Ascii.

(** ** Specification of the translation

    The [k]-th disk has the [k]-th serial and name, and the guest mounts the device
    with that serial; everything else is handed on in place. *)

Definition is_erofs (m : mount) : Prop := Type_ m = "erofs" ∨ Type_ m = "format/erofs".
Definition is_block (m : mount) : Prop := is_erofs m ∨ Type_ m = "ext4".

Definition serial_no (k : nat) : string := "sbxblk" +:+ fmt_d (Z.of_nat k).

(** The image a disk shows for a mount, and whether it may be written. *)
Definition backed_by (fs : hostfs) (m : mount) (path : string) (readonly : bool) : Prop :=
  (is_erofs m → readonly = true ∧
     (path = Source m ∨
      path = TrimSuffix (Source m) "fsmeta.erofs" +:+ "merged.vmdk" ∧
      verifyVMDKManifest fs path (Options m) = None)) ∧
  (Type_ m = "ext4" → path = Source m ∧
     (readonly = true ↔ "ro" ∈ Options m ∨ "readonly" ∈ Options m)).

(** [translated k ms outs ds]: with [k] disks already there, the mounts [ms]
    become the groups [outs] and add the disks [ds]. *)
Inductive translated (fs : hostfs) (id : string) : nat → list mount → list (list mount) → list diskOptions → Prop :=
  | T_nil k : translated fs id k [] [] []
  | T_block k m ms outs ds ty opts path ro fmt :
      is_block m → ty = (if decide (Type_ m = "ext4") then "ext4" else "erofs") →
      backed_by fs m path ro →
      translated fs id (S k) ms outs ds →
      translated fs id k (m :: ms)
        ([mkMount ty (BlockSerialScheme +:+ serial_no k) (Target m) opts] :: outs)
        (mkDiskOptions (diskName id (97 + Z.of_nat k)) path (serial_no k) ro fmt :: ds)
  | T_other k m ms out outs ds :
      ¬ is_block m →
      (out = [m] ∨ out = handleOverlay m) →
      translated fs id k ms outs ds →
      translated fs id k (m :: ms) (out :: outs) ds.

Lemma blockSerial_no k : k < 159 → blockSerial (97 + Z.of_nat k) = serial_no k.
Proof.
  intros Hk. unfold blockSerial, serial_no, byte_wrap. f_equal. f_equal.
  replace (97 + Z.of_nat k - 97)%Z with (Z.of_nat k) by lia. apply Z.mod_small. lia.
Qed.

Lemma byte_wrap_next k : k < 158 → byte_wrap (97 + Z.of_nat k + 1) = (97 + Z.of_nat (S k))%Z.
Proof. intros Hk. unfold byte_wrap. rewrite Z.mod_small; lia. Qed.

Lemma is_type_spec ts m : is_type ts m = true ↔ Type_ m ∈ ts.
Proof.
  unfold is_type. rewrite existsb_exists. setoid_rewrite bool_decide_eq_true.
  setoid_rewrite list_elem_of_In. naive_solver.
Qed.

Lemma erofs_source_backed fs m p v : is_erofs m → erofs_source fs m = Ok (p, v) →
  backed_by fs m p true.
Proof.
  intros He H. split; [|intros Ht; destruct He as [He|He]; rewrite He in Ht; done].
  intros _. split; [done|]. unfold erofs_source in H.
  repeat (case_match; simplify_eq/=); eauto.
Qed.

Lemma ext4_readonly opts :
  existsb (λ o, bool_decide (o = "ro") || bool_decide (o = "readonly")) opts = true ↔
  "ro" ∈ opts ∨ "readonly" ∈ opts.
Proof.
  rewrite existsb_exists. setoid_rewrite orb_true_iff. setoid_rewrite bool_decide_eq_true.
  setoid_rewrite list_elem_of_In. naive_solver.
Qed.

(** The block disks among the mounts bound how far the counter goes. *)
Lemma transform_all_translated fs id ms : ∀ k out ds,
  transform_all fs id (97 + Z.of_nat k) ms = Ok (out, ds) → k + length ms < 158 →
  ∃ outs, out = concat outs ∧ translated fs id k ms outs ds.
Proof.
  induction ms as [|m ms IH]; intros k out ds H Hk; cbn [transform_all] in H; simplify_eq.
  { exists []. split; [done|constructor]. }
  simpl in Hk. destruct (transformMount fs id (97 + Z.of_nat k) m) as [[[o d] c]|] eqn:Ht; [|done].
  cbn [res_bind fst snd] in H.
  destruct (transform_all fs id c ms) as [[out' ds']|] eqn:Hr; [|done]. simplify_eq/=.
  unfold transformMount in Ht.
  destruct (is_type ["erofs"; "format/erofs"] m) eqn:H1; [|destruct (is_type ["ext4"] m) eqn:H2].
  - apply is_type_spec in H1. assert (He : is_erofs m) by (unfold is_erofs; set_solver).
    unfold handleEROFS in Ht. destruct (erofs_source fs m) as [[p v]|] eqn:Hs; [|done].
    simplify_eq/=. rewrite byte_wrap_next in Hr by lia. rewrite blockSerial_no by lia.
    destruct (IH (S k) _ _ Hr ltac:(lia)) as (outs & -> & Htr). eexists ([_] :: outs).
    split; [done|]. econstructor; [by left| |by eapply erofs_source_backed|done].
    rewrite decide_False; [done|]. destruct He as [-> | ->]; done.
  - apply is_type_spec in H2. apply list_elem_of_singleton in H2. unfold handleExt4 in Ht.
    simplify_eq/=. rewrite byte_wrap_next in Hr by lia. rewrite blockSerial_no by lia.
    destruct (IH (S k) _ _ Hr ltac:(lia)) as (outs & -> & Htr). eexists ([_] :: outs).
    split; [done|]. econstructor; [by right|by rewrite decide_True| |done].
    split; [intros [He|He]; by rewrite H2 in He|]. intros _. split; [done|]. apply ext4_readonly.
  - assert (Hnb : ¬ is_block m).
    { assert (Type_ m ∉ ["erofs"; "format/erofs"]) by (rewrite <- is_type_spec; congruence).
      assert (Type_ m ∉ ["ext4"]) by (rewrite <- is_type_spec; congruence).
      unfold is_block, is_erofs. set_solver. }
    assert (d = [] ∧ c = (97 + Z.of_nat k)%Z ∧ (o = [m] ∨ o = handleOverlay m)) as (-> & -> & Ho).
    { repeat (case_match; simplify_eq/=); eauto. }
    destruct (IH k _ _ Hr ltac:(lia)) as (outs & -> & Htr). exists (o :: outs).
    split; [done|]. by constructor.
Qed.

(** ** Names and serials do not clash *)

Lemma str_take_prefix n p s : String.length p ≤ n → str_take n (p +:+ s) = p +:+ str_take (n - String.length p) s.
Proof.
  revert n. induction p as [|a p IH]; intros n Hn; simpl in *; [by rewrite Nat.sub_0_r|].
  destruct n as [|n]; [lia|]. change (String.append p s) with (p +:+ s). simpl. rewrite IH by lia. done.
Qed.

Lemma truncate_prefix p id : String.length (p +:+ "-") ≤ 36 → ∃ r, truncateID p id = p +:+ "-" +:+ r.
Proof.
  intros Hp. unfold truncateID. case_match; [|eauto].
  rewrite string_app_assoc, str_take_prefix by done. exists (str_take (36 - String.length (p +:+ "-")) id).
  by rewrite <- string_app_assoc.
Qed.

Lemma diskName_inj id j k : j < 10 → k < 10 →
  diskName id (97 + Z.of_nat j) = diskName id (97 + Z.of_nat k) → j = k.
Proof.
  intros Hj Hk. unfold diskName.
  do 10 (try destruct j as [|j]); try lia; do 10 (try destruct k as [|k]); try lia; try done;
    match goal with |- truncateID ?p id = truncateID ?q id → _ =>
      let p' := eval vm_compute in p in let q' := eval vm_compute in q in
      change p with p'; change q with q';
      destruct (truncate_prefix p' id) as [r ->]; [simpl; lia|];
      destruct (truncate_prefix q' id) as [r' ->]; [simpl; lia|]; done
    end.
Qed.

Lemma serial_no_inj j k : j < 10 → k < 10 → serial_no j = serial_no k → j = k.
Proof.
  intros Hj Hk. do 10 (try destruct j as [|j]); try lia; do 10 (try destruct k as [|k]); try lia; done.
Qed.

(** ** The machine's disks *)

Definition config_of (d : diskOptions) : DiskConfig :=
  mkDiskConfig (do_name d) (do_source d) (do_readOnly d) (do_serial d)
    (if decide (do_format d = "") then DefaultDiskFormat else do_format d) "".

Lemma AddDisk_new stat d m : mn_state m = vmStateNew → do_name d ≠ "" →
  AddDisk stat (do_name d) (do_source d) (disk_opts d) m =
  (Ok tt, mkMachine vmStateNew (mn_disks m ++ [config_of d]) (mn_nets m)).
Proof.
  intros Hs Hn. unfold AddDisk. rewrite Hs, bool_decide_eq_true_2 by done. simpl negb.
  cbv iota. rewrite decide_False by done. unfold disk_opts, nonempty, config_of.
  destruct (do_readOnly d); repeat case_bool_decide; simpl;
    repeat (case_decide; simplify_eq/=); try done; congruence.
Qed.

Lemma addDisks_new stat ds : ∀ m, mn_state m = vmStateNew → Forall (λ d, do_name d ≠ "") ds →
  addDisksToVM stat ds m = (Ok tt, mkMachine vmStateNew (mn_disks m ++ (config_of <$> ds)) (mn_nets m)).
Proof.
  induction ds as [|d ds IH]; intros m Hs Hn; cbn [addDisksToVM].
  { rewrite app_nil_r. destruct m; simpl in *; by subst. }
  apply Forall_cons in Hn as [Hd Hn]. unfold bind. rewrite AddDisk_new by done.
  rewrite IH by done. simpl. by rewrite <- app_assoc.
Qed.

Lemma addDisks_ok stat ds m u m' : addDisksToVM stat ds m = (Ok u, m') → ds ≠ [] → mn_state m = vmStateNew.
Proof.
  destruct ds as [|d ds]; [done|]. intros H _. cbn [addDisksToVM] in H. unfold bind, AddDisk in H.
  destruct (decide (mn_state m = vmStateNew)) as [|Hne]; [done|].
  by rewrite bool_decide_eq_false_2 in H.
Qed.

(** The disks of a translation, by position. *)
Lemma translated_disks fs id k ms outs ds : translated fs id k ms outs ds →
  ∀ i d, ds !! i = Some d →
    do_serial d = serial_no (k + i) ∧ do_name d = diskName id (97 + Z.of_nat (k + i)) ∧
    ∃ j m g, ms !! j = Some m ∧ outs !! j = Some [g] ∧
      is_block m ∧ backed_by fs m (do_source d) (do_readOnly d) ∧
      Source g = BlockSerialScheme +:+ do_serial d ∧ Target g = Target m ∧
      Type_ g = (if decide (Type_ m = "ext4") then "ext4" else "erofs").
Proof.
  induction 1 as [k|k m ms outs ds ty opts path ro fmt Hb -> Hbk Htr IH|k m ms out outs ds Hnb Ho Htr IH];
    intros i d Hi; [done| |].
  - destruct i as [|i]; simplify_eq/=.
    + rewrite Nat.add_0_r. split_and!; [done..|].
      eexists 0%nat, m, _. split_and!; [done..].
    + destruct (IH i d Hi) as (Hs & Hn & j & m' & g & ?). replace (k + S i) with (S k + i) by lia.
      split_and!; [done..|]. by exists (S j), m', g.
  - destruct (IH i d Hi) as (Hs & Hn & j & m' & g & ?). split_and!; [done..|]. by exists (S j), m', g.
Qed.

Lemma translated_names fs id k ms outs ds : translated fs id k ms outs ds →
  Forall (λ d, do_name d ≠ "") ds.
Proof.
  induction 1 as [|k m ms outs ds ty opts path ro fmt Hb -> Hbk Htr IH|]; [done| |done].
  constructor; [|done]. simpl. unfold diskName, truncateID. case_match; done.
Qed.

Lemma NoDup_lookup_inj {A B} (f : A → B) (l : list A) (g : nat → B) n :
  length l ≤ n → (∀ i a, l !! i = Some a → f a = g i) →
  (∀ i j, i < n → j < n → g i = g j → i = j) → NoDup (f <$> l).
Proof.
  intros Hn Hf Hg. apply NoDup_alt. intros i j b Hi Hj.
  apply list_lookup_fmap_Some in Hi as (a & -> & Ha), Hj as (a' & Hab & Ha').
  apply Hg; [apply lookup_lt_Some in Ha; lia|apply lookup_lt_Some in Ha'; lia|].
  rewrite <- (Hf i a Ha), <- (Hf j a' Ha'). done.
Qed.

Lemma transformMounts_inv fs stat id ms m out m' :
  transformMounts fs stat id ms m = (Ok out, m') → length ms < 158 →
  ∃ outs ds, translated fs id 0 ms outs ds ∧ out = generateOverlayIfNeeded (concat outs) ∧
    length ds ≤ maxVirtioDisks ∧ mn_disks m' = mn_disks m ++ (config_of <$> ds).
Proof.
  intros H Hlen. unfold transformMounts in H. apply bind_Ok in H as (r & m1 & Hr & H).
  unfold lift in Hr. destruct (transform_all fs id 97 ms) as [[out' ds]|] eqn:Ht; simplify_eq.
  change 97%Z with (97 + Z.of_nat 0)%Z in Ht.
  destruct (transform_all_translated fs id ms 0 _ _ Ht) as (outs & -> & Htr); [lia|].
  cbn [fst snd] in H. destruct (maxVirtioDisks <? length ds)%nat eqn:Hmax; [done|].
  apply Nat.ltb_ge in Hmax. apply bind_Ok in H as ([] & m2 & Ha & H).
  exists outs, ds. unfold ret in H. simplify_eq. split_and!; [done..|].
  destruct ds as [|d ds]; [injection Ha as <-; symmetry; apply app_nil_r|].
  pose proof (addDisks_ok _ _ _ _ _ Ha ltac:(done)) as Hs.
  rewrite addDisks_new in Ha by (done || by eapply translated_names). by simplify_eq.
Qed.

Theorem Setup_disks_unambiguous fs stat id ms m out m' :
  Setup fs stat id ms m = (Ok out, m') → length ms < 158 →
  ∃ outs ds,
    out = generateOverlayIfNeeded (concat outs) ∧ length outs = length ms ∧
    mn_disks m' = mn_disks m ++ ds ∧ length ds ≤ maxVirtioDisks ∧
    NoDup (dc_Serial <$> ds) ∧ NoDup (dc_ID <$> ds) ∧
    ∀ d, d ∈ ds → ∃ j mnt g, ms !! j = Some mnt ∧ outs !! j = Some [g] ∧ is_block mnt ∧
      Source g = BlockSerialScheme +:+ dc_Serial d ∧ backed_by fs mnt (dc_Path d) (dc_Readonly d).
Proof.
  intros H Hlen. destruct (transformMounts_inv _ _ _ _ _ _ _ H Hlen) as (outs & ds & Htr & -> & Hmax & Hd).
  pose proof (translated_disks _ _ _ _ _ _ Htr) as Hi.
  exists outs, (config_of <$> ds). rewrite length_fmap, <- !list_fmap_compose.
  split_and!; try done.
  - clear -Htr. induction Htr; simpl; congruence.
  - apply (NoDup_lookup_inj (dc_Serial ∘ config_of) ds serial_no 10); [done| |apply serial_no_inj].
    intros i d Hd'. apply (Hi i d Hd').
  - apply (NoDup_lookup_inj (dc_ID ∘ config_of) ds (λ k, diskName id (97 + Z.of_nat k)) 10); [done| |apply diskName_inj].
    intros i d Hd'. apply (Hi i d Hd').
  - intros d' Hd'. apply list_elem_of_fmap in Hd' as (d & -> & Hin). apply list_elem_of_lookup in Hin as [i Hin].
    destruct (Hi i d Hin) as (_ & _ & j & mnt & g & ? & ? & ? & ? & ? & _). by exists j, mnt, g.
Qed.

(** ** The guest's side *)

(** The guest's directory for the layers: a clean absolute path without the
    characters templates and mkdir options give a meaning to. *)
Definition mdir_ok (mdir : string) : Prop :=
  Clean mdir = mdir ∧ is_rooted mdir = true ∧ mdir ≠ "/" ∧ brace_free mdir ∧
  all_chars (neq_char ":") mdir = true.

Definition layer_dir (mdir : string) (i : nat) : string := mdir +:+ "/" +:+ fmt_d (Z.of_nat i).

(** The kernel does what it is asked and shows every disk under its serial. *)
Definition guest_ready (k : kernel) (dev : nat → string) : Prop :=
  (∀ w op, answer k w op = None) ∧
  (∀ w i p, i < maxVirtioDisks →
     findBlockDeviceBySerial (serial_no i) (p_sys (polls k w p)) = Ok (dev i)) ∧
  ∀ i, brace_free (dev i).

(** The [i]-th block mount as the guest sees it, and what it becomes. *)
Definition block_guest (i : nat) (g : mount) : Prop :=
  (Type_ g = "erofs" ∨ Type_ g = "ext4") ∧ Source g = BlockSerialScheme +:+ serial_no i ∧ brace_free (Target g).

Definition mounted (mdir : string) (dev : nat → string) (i : nat) (g : mount) : ActiveMount :=
  mkActive (mkMount (Type_ g) (dev i) (Target g) (Options g)) (layer_dir mdir i).

Section guest.
Context (k : kernel) (rootfs mdir : string) (dev : nat → string).
Context (Hk : guest_ready k dev) (Hmd : mdir_ok mdir).

Lemma target_layer n i : i < n - 1 → target_of rootfs mdir n i = layer_dir mdir i.
Proof.
  intros Hi. unfold target_of. rewrite (proj2 (Nat.ltb_lt _ _)) by done.
  destruct Hmd as (? & ? & ? & _). apply path_Join_under; auto using fmt_d_plain with lia.
Qed.

Lemma layer_dir_brace_free i : brace_free (layer_dir mdir i).
Proof.
  destruct Hmd as (_ & _ & _ & Hb & _). unfold brace_free, layer_dir in *. rewrite !all_chars_app, Hb. simpl.
  eapply all_chars_impl; [|apply fmt_d_digits; lia]. intros a Ha. unfold neq_char. by case_bool_decide; subst.
Qed.

Lemma mounted_clean i g : block_guest i g → clean_mount (mounted mdir dev i g).
Proof.
  intros (_ & _ & Ht). split_and!; simpl; [apply Hk|done|apply layer_dir_brace_free].
Qed.

Lemma call_ok op w : call k op w = (Ok tt, w ++ [(op, None)]).
Proof. unfold call. by rewrite (proj1 Hk). Qed.

Lemma expand_serial_block i g w : i < maxVirtioDisks → Source g = BlockSerialScheme +:+ serial_no i →
  expand_serial k g w = (Ok (mkMount (Type_ g) (dev i) (Target g) (Options g)), w).
Proof.
  intros Hi Hs. unfold expand_serial, resolveBlockSerialSource. rewrite Hs, CutPrefix_app.
  unfold resolve_fuel. cbn [resolve_loop]. destruct Hk as (_ & Hsee & _). by rewrite Hsee.
Qed.

Lemma mount_one_block n i g active w : i < n - 1 → i < maxVirtioDisks → block_guest i g →
  mount_one k rootfs mdir n i g active w =
  (Ok (mounted mdir dev i g),
   w ++ [(OpMkdirAll (layer_dir mdir i) 488, None);
         (OpMount (am (mounted mdir dev i g)) (layer_dir mdir i), None)]).
Proof.
  intros Hi Hmax (Hty & Hsrc & _). unfold mount_one. fold (target_of rootfs mdir n i).
  rewrite target_layer by done. rewrite (proj2 (Nat.ltb_lt _ _)) by done.
  unfold bind at 1. rewrite call_ok. unfold bind at 1.
  assert (expand_format active g = ret g) as ->.
  { unfold expand_format, cut_type. destruct Hty as [-> | ->]; done. }
  unfold ret at 1. unfold bind at 1.
  assert (expand_mkdir k mdir g = ret g) as ->.
  { unfold expand_mkdir, cut_type. destruct Hty as [-> | ->]; done. }
  unfold ret at 1. unfold bind at 1. rewrite (expand_serial_block i) by done.
  unfold bind. rewrite call_ok. by rewrite <- app_assoc.
Qed.

(** The block mounts, one after the other. *)
Lemma All_loop_blocks n gs rest : ∀ i active w,
  (∀ j g, gs !! j = Some g → block_guest (i + j) g) → i + length gs ≤ n - 1 → i + length gs ≤ maxVirtioDisks →
  ∃ l, All_loop k rootfs mdir n i (gs ++ rest) active w =
       All_loop k rootfs mdir n (i + length gs) rest (active ++ imap (λ j g, mounted mdir dev (i + j) g) gs) (w ++ l).
Proof.
  induction gs as [|g gs IH]; intros i active w Hg Hn Hmax; simpl in Hn, Hmax.
  { exists []. simpl. rewrite !app_nil_r, Nat.add_0_r. done. }
  pose proof (Hg 0 g eq_refl) as Hb. rewrite Nat.add_0_r in Hb.
  cbn [app All_loop]. unfold bind at 1, on_error. rewrite mount_one_block by (done || lia).
  edestruct (IH (S i) (active ++ [mounted mdir dev i g])) as [l Hl]; [|lia|lia|].
  { intros j g' Hj. replace (S i + j) with (i + S j) by lia. by apply Hg. }
  eexists. rewrite Hl. simpl length. replace (i + S (length gs)) with (S i + length gs) by lia.
  rewrite <- app_assoc. f_equal.
  - f_equal. simpl. rewrite Nat.add_0_r. f_equal. apply imap_ext. intros j x _. simpl. f_equal. lia.
  - by rewrite <- app_assoc.
Qed.

(** ** The overlay on top *)

Lemma format_mount_ref what p q active i a :
  brace_free p → brace_free q → Forall clean_mount active → (0 ≤ i < two63)%Z →
  active !! Z.to_nat i = Some a →
  format what (p +:+ mount_ref i +:+ q) active = Ok (p +:+ MountPoint a +:+ q).
Proof.
  intros Hp Hq Hc Hi Ha.
  pose proof (format_eval what [Lit p; Ref KMount " " [(" ", i)] " "; Lit q] active) as H.
  assert (Hpr : print [Lit p; Ref KMount " " [(" ", i)] " "; Lit q] = p +:+ mount_ref i +:+ q).
  { unfold print, mount_ref. cbn [fmap list_fmap concat_str]. rewrite string_app_nil_r.
    unfold print_token, print_tmpl. cbn [kw_text print_nums]. rewrite string_app_nil_r.
    rewrite <- !string_app_assoc. done. }
  rewrite Hpr in H. unfold eval in H. cbn [mapM eval_token eval_ref fmap list_fmap snd] in H.
  rewrite Ha in H. cbn in H. rewrite string_app_nil_r in H. apply H; [|done].
  repeat constructor; try done; simpl; lia.
Qed.

Lemma format_lower_ref what active b :
  Forall clean_mount active → (0 ≤ b < two63)%Z → (b < Z.of_nat (length active))%Z →
  format what ("lowerdir={{ overlay 0 " +:+ fmt_d b +:+ " }}") active =
  Ok ("lowerdir=" +:+ join_with ":" (MountPoint <$> firstn (S (Z.to_nat b)) active)).
Proof.
  intros Hc Hb Hlen.
  pose proof (format_eval what [Lit "lowerdir="; Ref KOverlay " " [(" ", 0%Z); (" ", b)] " "] active) as H.
  assert (Hpr : print [Lit "lowerdir="; Ref KOverlay " " [(" ", 0%Z); (" ", b)] " "] =
                "lowerdir={{ overlay 0 " +:+ fmt_d b +:+ " }}").
  { unfold print. cbn [fmap list_fmap concat_str]. rewrite string_app_nil_r.
    unfold print_token, print_tmpl. cbn [kw_text print_nums]. rewrite string_app_nil_r.
    rewrite <- !string_app_assoc. done. }
  rewrite Hpr in H. unfold eval in H. cbn [mapM eval_token eval_ref fmap list_fmap snd] in H.
  change (Z.to_nat 0) with 0%nat in H. unfold range in H. rewrite (proj2 (Nat.ltb_ge _ _)) in H by lia.
  rewrite mapM_lookup_seq in H by lia. rewrite drop_0, Nat.sub_0_r, Nat.add_1_r in H.
  cbn [fmap option_fmap option_map mbind option_bind concat_str mret option_ret] in H. rewrite string_app_nil_r in H.
  apply H; [|done]. repeat constructor; try done; simpl; lia.
Qed.

Lemma layer_dir_prefix i q : HasPrefix (layer_dir mdir i +:+ q) mdir = true.
Proof. unfold layer_dir. rewrite <- string_app_assoc. apply HasPrefix_app. Qed.

Lemma parse_mkdir i q : all_chars (neq_char ":") q = true →
  parseMkdirOption (mkdirPrefix +:+ layer_dir mdir i +:+ q) mdir =
  Ok (mkMkdirSpec (layer_dir mdir i +:+ q) 493 (-1) (-1)).
Proof.
  intros Hq. unfold parseMkdirOption. rewrite CutPrefix_app.
  assert (Hc : all_chars (neq_char ":") (layer_dir mdir i +:+ q) = true).
  { destruct Hmd as (_ & _ & _ & _ & Hm). unfold layer_dir. rewrite !all_chars_app, Hm, Hq, andb_true_r. simpl.
    eapply all_chars_impl; [|apply fmt_d_digits; lia]. intros a Ha. unfold neq_char. by case_bool_decide; subst. }
  rewrite SplitN_last by done. by rewrite layer_dir_prefix.
Qed.

(** What the overlay for [n] layers under a writable one becomes. *)
Definition root_overlay (active : list ActiveMount) (n : nat) : mount :=
  mkMount "overlay" "overlay" ""
    ["lowerdir=" +:+ join_with ":" (MountPoint <$> firstn n active);
     "upperdir=" +:+ layer_dir mdir n +:+ "/upper";
     "workdir=" +:+ layer_dir mdir n +:+ "/work"].

Definition overlay_request (n : nat) : mount :=
  mkMount "format/mkdir/overlay" mountTypeOverlay ""
    (["lowerdir={{ overlay 0 " +:+ fmt_d (Z.of_nat n - 1) +:+ " }}";
      "upperdir=" +:+ mount_ref (Z.of_nat n) +:+ "/upper";
      "workdir=" +:+ mount_ref (Z.of_nat n) +:+ "/work"] ++ mkdir_opts (Z.of_nat n)).

Lemma overlay_format n active a :
  Forall clean_mount active → n ≠ 0 → n < 10 → length active = S n →
  active !! n = Some a → MountPoint a = layer_dir mdir n →
  applyFormatSubstitution (mkMount "mkdir/overlay" mountTypeOverlay "" (Options (overlay_request n))) active =
  Ok (mkMount "mkdir/overlay" mountTypeOverlay ""
        (Options (root_overlay active n) ++
         [mkdirPrefix +:+ layer_dir mdir n +:+ "/upper"; mkdirPrefix +:+ layer_dir mdir n +:+ "/work"])).
Proof.
  intros Hc Hn Hn10 Hlen Ha Hmp. unfold applyFormatSubstitution, overlay_request, mkdir_opts.
  cbn [Options Type_ Source Target app format_options].
  rewrite format_lower_ref by (done || unfold two63; lia).
  assert (Hlk : active !! Z.to_nat (Z.of_nat n) = Some a) by (by rewrite Nat2Z.id).
  cbn [res_bind].
  rewrite (format_mount_ref "option" "upperdir=" "/upper" active _ a) by (done || unfold two63; lia). cbn [res_bind].
  rewrite (format_mount_ref "option" "workdir=" "/work" active _ a) by (done || unfold two63; lia). cbn [res_bind].
  rewrite (format_mount_ref "option" "X-containerd.mkdir.path=" "/upper" active _ a) by (done || unfold two63; lia).
  cbn [res_bind].
  rewrite (format_mount_ref "option" "X-containerd.mkdir.path=" "/work" active _ a) by (done || unfold two63; lia).
  rewrite Hmp. replace (S (Z.to_nat (Z.of_nat n - 1))) with n by lia. done.
Qed.

Lemma overlay_mkdir n active w :
  expand_mkdir k mdir (mkMount "mkdir/overlay" mountTypeOverlay ""
        (Options (root_overlay active n) ++
         [mkdirPrefix +:+ layer_dir mdir n +:+ "/upper"; mkdirPrefix +:+ layer_dir mdir n +:+ "/work"])) w =
  (Ok (root_overlay active n),
   w ++ [(OpMkdirAll (layer_dir mdir n +:+ "/upper") 493, None); (OpMkdirAll (layer_dir mdir n +:+ "/work") 493, None)]).
Proof.
  unfold expand_mkdir, cut_type. cbn [Type_ Options Source Target root_overlay].
  change (CutPrefix "mkdir/" "mkdir/overlay") with (Some "overlay"). cbn [mbind option_bind].
  unfold bind at 1, lift. cbn [app Options processMkdirOptions].
  change (HasPrefix ("lowerdir=" +:+ join_with ":" (MountPoint <$> firstn n active)) "X-containerd.mkdir.") with false.
  change (HasPrefix ("upperdir=" +:+ layer_dir mdir n +:+ "/upper") "X-containerd.mkdir.") with false.
  change (HasPrefix ("workdir=" +:+ layer_dir mdir n +:+ "/work") "X-containerd.mkdir.") with false.
  change (HasPrefix (mkdirPrefix +:+ layer_dir mdir n +:+ "/upper") "X-containerd.mkdir.") with true.
  change (HasPrefix (mkdirPrefix +:+ layer_dir mdir n +:+ "/work") "X-containerd.mkdir.") with true.
  cbv iota. rewrite !parse_mkdir by done. cbn [res_bind fst snd].
  cbn [applyMkdirSpecs Path Mode UID GID]. rewrite !bool_decide_eq_true_2 by done. cbn [negb orb].
  unfold bind, ret. rewrite call_ok. cbv beta iota. rewrite call_ok. cbv beta iota. by rewrite <- app_assoc.
Qed.
End guest.

(** ** End to end *)

Definition guest_type (m : mount) : string := if decide (Type_ m = "ext4") then "ext4" else "erofs".

Lemma transform_all_count fs id ms : Forall is_block ms → ∀ c out ds,
  transform_all fs id c ms = Ok (out, ds) → length ds = length ms.
Proof.
  induction 1 as [|m ms Hb _ IH]; intros c out ds H; cbn [transform_all] in H; simplify_eq; [done|].
  destruct (transformMount fs id c m) as [[[o d] c']|] eqn:Ht; [|done]. cbn [res_bind fst snd] in H.
  destruct (transform_all fs id c' ms) as [[o' d']|] eqn:Hr; [|done]. simplify_eq/=.
  rewrite length_app, (IH _ _ _ Hr). unfold transformMount in Ht.
  destruct (is_type ["erofs"; "format/erofs"] m) eqn:H1; [|destruct (is_type ["ext4"] m) eqn:H2].
  - unfold handleEROFS in Ht. destruct (erofs_source fs m); [|done]. by simplify_eq/=.
  - unfold handleExt4 in Ht. by simplify_eq/=.
  - exfalso. assert (Type_ m ∉ ["erofs"; "format/erofs"]) by (rewrite <- is_type_spec; congruence).
    assert (Type_ m ∉ ["ext4"]) by (rewrite <- is_type_spec; congruence).
    unfold is_block, is_erofs in Hb. set_solver.
Qed.

Lemma translated_blocks fs id k ms outs ds :
  translated fs id k ms outs ds → Forall is_block ms → Forall (λ m, brace_free (Target m)) ms →
  length (concat outs) = length ms ∧ length ds = length ms ∧
  (Type_ <$> concat outs = guest_type <$> ms) ∧
  (∀ i g, concat outs !! i = Some g → block_guest (k + i) g) ∧
  ∀ i m d, ms !! i = Some m → ds !! i = Some d →
    do_serial d = serial_no (k + i) ∧ backed_by fs m (do_source d) (do_readOnly d).
Proof.
  induction 1 as [k|k m ms outs ds ty opts path ro fmt Hb -> Hbk Htr IH|k m ms out outs ds Hnb Ho Htr IH];
    intros Hall Hbf; [done| |by apply Forall_cons in Hall as [??]].
  apply Forall_cons in Hall as [_ Hall], Hbf as [Hbm Hbf].
  destruct (IH Hall Hbf) as (Hl1 & Hl2 & Hty & Hg & Hd).
  cbn [concat app]. split_and!; [simpl; congruence..| | |].
  - cbn [fmap list_fmap Type_]. f_equal. exact Hty.
  - intros [|i] g Hi; simplify_eq/=.
    + rewrite Nat.add_0_r. split_and!; [case_decide; [by right|by left]|done..].
    + replace (k + S i) with (S k + i) by lia. by apply Hg.
  - intros [|i] m' d Hm Hdi; simplify_eq/=.
    + by rewrite Nat.add_0_r.
    + replace (k + S i) with (S k + i) by lia. by apply (Hd i m' d).
Qed.

Lemma Contains_types gs ts : Type_ <$> gs = ts → Forall (λ t, Contains t "overlay" = false) ts →
  existsb (λ m, Contains (Type_ m) mountTypeOverlay) gs = false.
Proof.
  intros <- H. induction gs as [|g gs IH]; [done|]. apply Forall_cons in H as [Hg H]. simpl. unfold mountTypeOverlay in *.
  by rewrite Hg, IH.
Qed.

Lemma last_ext4_erofs gs : ∀ i f, Forall (λ g, Type_ g = "erofs") gs → last_ext4 i gs f = f.
Proof.
  induction gs as [|g gs IH]; intros i f H; [done|]. apply Forall_cons in H as [Hg H]. cbn [last_ext4].
  rewrite Hg. rewrite decide_False by done. by apply IH.
Qed.

Lemma last_ext4_app gs gs' : ∀ i f, last_ext4 i (gs ++ gs') f = last_ext4 (i + Z.of_nat (length gs)) gs' (last_ext4 i gs f).
Proof.
  induction gs as [|g gs IH]; intros i f; [by rewrite Z.add_0_r|]. cbn [app last_ext4 length].
  rewrite IH. f_equal. lia.
Qed.

Lemma generate_layers gs x : gs ≠ [] → Forall (λ g, Type_ g = "erofs") gs → Type_ x = "ext4" →
  generateOverlayIfNeeded (gs ++ [x]) = gs ++ [x] ++ [overlay_request (length gs)].
Proof.
  intros Hne Hgs Hx. unfold generateOverlayIfNeeded. rewrite length_app. simpl length.
  rewrite (proj2 (Nat.ltb_ge _ _)) by (destruct gs; [done|simpl; lia]).
  assert (existsb (λ m, Contains (Type_ m) mountTypeOverlay) (gs ++ [x]) = false) as ->.
  { eapply Contains_types; [done|]. rewrite fmap_app. apply Forall_app. split.
    - apply Forall_fmap. eapply Forall_impl; [exact Hgs|]. simpl. by intros g ->.
    - simpl. rewrite Hx. by repeat constructor. }
  assert (erofs_count (gs ++ [x]) = length gs) as ->.
  { unfold erofs_count. rewrite List.filter_app, length_app. simpl. rewrite Hx. simpl.
    rewrite filter_all_true; [lia|]. eapply Forall_impl; [exact Hgs|]. simpl. intros g ->. done. }
  rewrite last_ext4_app, (last_ext4_erofs gs) by done. cbn [last_ext4]. rewrite Hx, decide_True by done.
  rewrite (proj2 (Nat.eqb_neq _ _)) by (destruct gs; [done|simpl; lia]).
  rewrite bool_decide_eq_true_2 by lia. cbn [negb orb].
  rewrite <- app_assoc. done.
Qed.

Lemma mount_one_overlay k rootfs mdir dev n active w a : guest_ready k dev → mdir_ok mdir →
  Forall clean_mount active → n ≠ 0 → n < 10 → length active = S n →
  active !! n = Some a → MountPoint a = layer_dir mdir n →
  mount_one k rootfs mdir (S (S n)) (S n) (overlay_request n) active w =
  (Ok (mkActive (root_overlay mdir active n) rootfs),
   w ++ [(OpMkdirAll (layer_dir mdir n +:+ "/upper") 493, None);
         (OpMkdirAll (layer_dir mdir n +:+ "/work") 493, None);
         (OpMount (root_overlay mdir active n) rootfs, None)]).
Proof.
  intros Hk Hmd Hc Hn Hn10 Hlen Ha Hmp. unfold mount_one. rewrite (proj2 (Nat.ltb_ge _ _)) by lia.
  unfold bind at 1, ret at 1. unfold bind at 1.
  change (expand_format active (overlay_request n)) with
    (lift (W := world) (applyFormatSubstitution
       (mkMount "mkdir/overlay" mountTypeOverlay "" (Options (overlay_request n))) active)).
  unfold lift at 1. rewrite (overlay_format mdir n active a) by done.
  unfold bind at 1. rewrite (overlay_mkdir k mdir dev) by done.
  unfold bind at 1, expand_serial, resolveBlockSerialSource. cbn [Source root_overlay].
  change (CutPrefix BlockSerialScheme "overlay") with (@None string). cbv beta iota.
  unfold bind. rewrite (call_ok k dev) by done. cbv beta iota. unfold ret. by rewrite <- app_assoc.
Qed.

Lemma imap_mounted mdir dev gs :
  (∀ i a, imap (mounted mdir dev) gs !! i = Some a →
     ∃ g, gs !! i = Some g ∧ a = mounted mdir dev i g) ∧
  MountPoint <$> imap (mounted mdir dev) gs = layer_dir mdir <$> seq 0 (length gs).
Proof.
  split.
  - intros i a. rewrite list_lookup_imap. destruct (gs !! i); simpl; intros; simplify_eq. eauto.
  - apply list_eq. intros i. rewrite !list_lookup_fmap, list_lookup_imap.
    destruct (decide (i < length gs)) as [Hi|Hi].
    + destruct (lookup_lt_is_Some_2 gs i Hi) as [g ->]. by rewrite lookup_seq_lt.
    + rewrite lookup_ge_None_2 by lia. rewrite lookup_seq_ge by lia. done.
Qed.

(** The host's side: the disks in order, and what the guest is asked for. *)
Lemma layers_on_host fs stat id layers rw m gm m' :
  layers ≠ [] → Forall is_erofs layers → Type_ rw = "ext4" →
  Forall (λ x, brace_free (Target x)) (layers ++ [rw]) →
  Setup fs stat id (layers ++ [rw]) m = (Ok gm, m') →
  let n := length layers in
  ∃ ds gs x,
    mn_disks m' = mn_disks m ++ (config_of <$> ds) ∧ length ds = S n ∧ n < 10 ∧
    (∀ i y d, (layers ++ [rw]) !! i = Some y → ds !! i = Some d →
       do_serial d = serial_no i ∧ backed_by fs y (do_source d) (do_readOnly d)) ∧
    gm = (gs ++ [x]) ++ [overlay_request n] ∧ length gs = n ∧
    Forall (λ g, Type_ g = "erofs") gs ∧ Type_ x = "ext4" ∧
    ∀ i g, (gs ++ [x]) !! i = Some g → block_guest i g.
Proof.
  intros Hne Her Hrw Hbf Hset n.
  assert (Hblk : Forall is_block (layers ++ [rw])).
  { apply Forall_app. split; [eapply Forall_impl; [exact Her|by left]|]. apply Forall_singleton. by right. }
  assert (Hcount : length (layers ++ [rw]) ≤ 10).
  { unfold Setup, transformMounts in Hset. apply bind_Ok in Hset as (r & m1 & Hr & H). unfold lift in Hr.
    destruct (transform_all fs id 97 (layers ++ [rw])) as [[o d]|] eqn:Ht; simplify_eq.
    rewrite <- (transform_all_count fs id _ Hblk _ _ _ Ht). cbn [snd] in H.
    destruct (maxVirtioDisks <? length d)%nat eqn:Hm; [done|]. by apply Nat.ltb_ge in Hm. }
  destruct (transformMounts_inv _ _ _ _ _ _ _ Hset ltac:(lia)) as (outs & ds & Htr & -> & Hmax & Hd).
  destruct (translated_blocks _ _ _ _ _ _ Htr Hblk Hbf) as (Hl1 & Hl2 & Hty & Hg & Hback).
  rewrite length_app in *. simpl length in *. fold n in Hl1, Hl2, Hcount.
  destruct (exists_last (l := concat outs)) as (gs & x & Hgs); [intros Hx; rewrite Hx in Hl1; simpl in Hl1; lia|].
  rewrite Hgs in *. rewrite length_app in Hl1. simpl in Hl1. assert (Hn : length gs = n) by lia.
  rewrite !fmap_app in Hty. apply app_inj_tail in Hty as [Htys Htyx].
  assert (Hgs_t : Forall (λ g, Type_ g = "erofs") gs).
  { change (Forall ((λ t, t = "erofs") ∘ Type_) gs). apply Forall_fmap.
    change (map Type_ gs) with (Type_ <$> gs) in Htys. rewrite Htys. apply Forall_fmap. eapply Forall_impl; [exact Her|]. intros y [He|He]; unfold compose, guest_type; by rewrite He. }
  assert (Hx_t : Type_ x = "ext4") by (rewrite Htyx; unfold guest_type; by rewrite decide_True).
  exists ds, gs, x. split_and!; try done; [lia..|].
  rewrite generate_layers; [|by destruct gs; [destruct layers|]|done..]. by rewrite Hn, <- app_assoc.
Qed.

Lemma All_nonempty k rootfs mdir l : l ≠ [] →
  All k rootfs mdir l = bind (All_loop k rootfs mdir (length l) 0 l []) (λ a, ret (Some a)).
Proof. by destruct l. Qed.

(** The guest's side. *)
Lemma layers_in_guest k rootfs mdir dev gs x w : guest_ready k dev → mdir_ok mdir →
  gs ≠ [] → length gs < 10 → (∀ i g, (gs ++ [x]) !! i = Some g → block_guest i g) →
  let n := length gs in
  let active := imap (mounted mdir dev) (gs ++ [x]) in
  MountPoint <$> active = layer_dir mdir <$> seq 0 (S n) ∧
  ∃ l, All k rootfs mdir ((gs ++ [x]) ++ [overlay_request n]) w =
    (Ok (Some (active ++ [mkActive (root_overlay mdir active n) rootfs])),
     w ++ l ++ [(OpMkdirAll (layer_dir mdir n +:+ "/upper") 493, None);
                (OpMkdirAll (layer_dir mdir n +:+ "/work") 493, None);
                (OpMount (root_overlay mdir active n) rootfs, None)]).
Proof.
  intros Hk Hmd Hne Hn Hg n active. set (all := gs ++ [x]) in *.
  assert (Hall_len : length all = S n) by (unfold all; rewrite length_app; simpl; lia).
  destruct (imap_mounted mdir dev all) as [Hact Hmp]. fold active in Hact, Hmp. rewrite Hall_len in Hmp.
  assert (Hlen_act : length active = S n) by (unfold active; by rewrite length_imap).
  assert (Hclean : Forall clean_mount active).
  { apply Forall_lookup. intros i a Hi. destruct (Hact i a Hi) as (g & Hgi & ->).
    eapply mounted_clean; [exact Hk|exact Hmd|]. by apply Hg. }
  destruct (lookup_lt_is_Some_2 active n) as [a Ha]; [lia|].
  assert (Hmpa : MountPoint a = layer_dir mdir n) by (destruct (Hact n a Ha) as (g & _ & ->); done).
  edestruct (All_loop_blocks k rootfs mdir dev Hk Hmd (S (S n)) all [overlay_request n] 0 [] w) as [l Hl];
    [exact Hg|rewrite Hall_len; unfold maxVirtioDisks; lia..|].
  change (imap (λ j g, mounted mdir dev (0 + j) g) all) with active in Hl. cbn [app] in Hl.
  rewrite Hall_len in Hl. change (0 + S n) with (S n) in Hl. split; [done|]. exists l.
  rewrite All_nonempty by (by destruct all). assert (length (all ++ [overlay_request n]) = S (S n)) as -> by (rewrite length_app; simpl; lia).
  unfold bind at 1. rewrite Hl. cbn [All_loop]. unfold bind at 1, on_error.
  rewrite (mount_one_overlay k rootfs mdir dev n active (w ++ l) a) by (done || lia || by destruct gs).
  unfold ret. by rewrite <- app_assoc.
Qed.

(** C4: From host to guest: for any EROFS layers and a writable ext4 layer, the
    disks that the host's Setup attaches and the mounts it hands over make
    the guest's mountutil.All mount each layer from the device whose serial
    number Setup gave it, in order, and then one overlay on the root file
    system whose lower directories are exactly the layers and whose upper
    and work directories are on the writable layer. *)
Theorem layers_become_root fs stat id layers rw m gm m' k rootfs mdir dev w :
  layers ≠ [] → Forall is_erofs layers → Type_ rw = "ext4" →
  Forall (λ x, brace_free (Target x)) (layers ++ [rw]) →
  Setup fs stat id (layers ++ [rw]) m = (Ok gm, m') →
  guest_ready k dev → mdir_ok mdir →
  let n := length layers in
  ∃ ds active w' l,
    mn_disks m' = mn_disks m ++ ds ∧ length ds = S n ∧
    (∀ i x d, (layers ++ [rw]) !! i = Some x → ds !! i = Some d →
       dc_Serial d = serial_no i ∧ backed_by fs x (dc_Path d) (dc_Readonly d)) ∧
    All k rootfs mdir gm w = (Ok (Some (active ++ [mkActive (root_overlay mdir active n) rootfs])), w') ∧
    MountPoint <$> active = layer_dir mdir <$> seq 0 (S n) ∧
    (∀ i a, active !! i = Some a →
       Source (am a) = dev i ∧ Type_ (am a) = if decide (i = n) then "ext4" else "erofs") ∧
    Options (root_overlay mdir active n) =
      ["lowerdir=" +:+ join_with ":" (layer_dir mdir <$> seq 0 n);
       "upperdir=" +:+ layer_dir mdir n +:+ "/upper";
       "workdir=" +:+ layer_dir mdir n +:+ "/work"] ∧
    w' = w ++ l ++ [(OpMkdirAll (layer_dir mdir n +:+ "/upper") 493, None);
                    (OpMkdirAll (layer_dir mdir n +:+ "/work") 493, None);
                    (OpMount (root_overlay mdir active n) rootfs, None)].
Proof.
  intros Hne Her Hrw Hbf Hset Hk Hmd n.
  destruct (layers_on_host _ _ _ _ _ _ _ _ Hne Her Hrw Hbf Hset)
    as (ds & gs & x & Hd & Hlen & Hn10 & Hback & -> & Hn & Hgs_t & Hx_t & Hg). fold n in Hlen, Hn, Hn10 |- *.
  assert (Hgne : gs ≠ []) by (by destruct gs; [destruct layers|]).
  destruct (layers_in_guest k rootfs mdir dev gs x w Hk Hmd Hgne ltac:(lia) Hg) as (Hmp & l & Hall).
  rewrite Hn in Hmp, Hall. set (active := imap (mounted mdir dev) (gs ++ [x])) in *.
  exists (config_of <$> ds), active. eexists _, l.
  split_and!; [done|by rewrite length_fmap| |exact Hall|done| | |done].
  - intros i y d Hy Hdi. apply list_lookup_fmap_Some in Hdi as (d' & -> & Hdi). by apply (Hback i y d').
  - intros i b Hb. destruct (proj1 (imap_mounted mdir dev (gs ++ [x])) i b Hb) as (g & Hgi & ->).
    split; [done|]. simpl. apply lookup_app_Some in Hgi as [Hgi|[Hge Hgi]].
    + apply lookup_lt_Some in Hgi as Hlt. rewrite decide_False by lia. by apply (Forall_lookup_1 _ _ _ _ Hgs_t Hgi).
    + apply list_lookup_singleton_Some in Hgi as [Hz <-]. rewrite decide_True by lia. done.
  - unfold root_overlay. cbn [Options]. do 3 f_equal. rewrite fmap_take, Hmp, <- fmap_take. f_equal.
    rewrite take_seq. f_equal. lia.
Qed.

(** ** Witnesses *)

Definition no_files : hostfs := mkHostfs (λ _, None) (λ _, NotExist) (λ _, false).
Definition new_machine : Machine := mkMachine vmStateNew [] [].
Definition dev_of (i : nat) : string := "/dev/vd" +:+ fmt_d (Z.of_nat i).
Definition ten_disks : sysBlock :=
  Some ((λ i, ("vd" +:+ fmt_d (Z.of_nat i), Some (serial_no i))) <$> seq 0 10).
Definition ready_kernel : kernel := mkKernel (λ _ _, None) (λ _, 0%Z) (λ _ _, mkPoll ten_disks 0 None).

Definition two_layers : list mount :=
  [mkMount "erofs" "/l/new.erofs" "" ["ro"; "loop"]; mkMount "format/erofs" "/l/old.erofs" "" ["ro"]].
Definition rw_layer : mount := mkMount "ext4" "/s/rw.img" "" ["rw"].

Lemma Setup_disks_unambiguous_witness :
  ∃ out m', Setup no_files (λ _, StatOpaque "") "c1" (two_layers ++ [rw_layer]) new_machine = (Ok out, m') ∧
    NoDup (dc_Serial <$> mn_disks m').
Proof.
  eexists _, _. split; [vm_compute; reflexivity|].
  destruct (Setup_disks_unambiguous no_files (λ _, StatOpaque "") "c1" (two_layers ++ [rw_layer]) new_machine
    _ _ ltac:(vm_compute; reflexivity) ltac:(simpl; lia)) as (outs & ds & _ & _ & Hd & _ & Hnd & _).
  rewrite Hd. exact Hnd.
Defined.

Lemma ready_kernel_ready : guest_ready ready_kernel dev_of.
Proof.
  split; [done|]. split.
  - intros w i p Hi. do 10 (try destruct i as [|i]); [vm_compute; reflexivity..|unfold maxVirtioDisks in Hi; lia].
  - intros i. unfold dev_of, brace_free. rewrite all_chars_app. simpl.
    eapply all_chars_impl; [|apply fmt_d_digits; lia]. intros a Ha. unfold neq_char. by case_bool_decide; subst.
Qed.

Lemma layers_become_root_witness :
  ∃ gm m' active w',
    Setup no_files (λ _, StatOpaque "") "c1" (two_layers ++ [rw_layer]) new_machine = (Ok gm, m') ∧
    All ready_kernel "/run/root" "/run/m" gm [] = (Ok (Some active), w') ∧
    last (Options ∘ am <$> active) =
      Some ["lowerdir=/run/m/0:/run/m/1"; "upperdir=/run/m/2/upper"; "workdir=/run/m/2/work"].
Proof.
  destruct (layers_become_root no_files (λ _, StatOpaque "") "c1" two_layers rw_layer new_machine _ _
    ready_kernel "/run/root" "/run/m" dev_of [] ltac:(done)
    ltac:(repeat constructor; (by left) || (by right)) ltac:(done) ltac:(repeat constructor)
    ltac:(vm_compute; reflexivity) ready_kernel_ready ltac:(repeat split; vm_compute; done))
    as (ds & active & w' & l & _ & _ & _ & Hall & _ & _ & Hopts & _).
  eexists _, _, _, w'. split; [vm_compute; reflexivity|]. split; [exact Hall|].
  rewrite fmap_last, last_snoc. cbn [fmap option_fmap option_map compose am]. f_equal. exact Hopts.
Defined.
