(* ===== verification/Vmdk.v ===== *)
(** The VMDK descriptor over the layer files: internal/host/erofs/vmdk.go. *)
From S2P Require Import Prelude GoStrings GoState.
From Stdlib Require Import Ascii.

Definition max2GbExtentSectors : Z := 4194304.
Definition sectorsPerTrack : Z := 63.
Definition numberHeads : Z := 16.
Definition subformat : string := "twoGbMaxExtentFlat".
Definition adapterType : string := "ide".
Definition hwVersion : string := "4".

Definition nl : string := String (ascii_of_nat 10) EmptyString.
Definition quote : string := String (ascii_of_nat 34) EmptyString.
Definition quoted (s : string) : string := quote +:+ s +:+ quote.

(** [%08x] of a uint32 *)
Definition hex_digit (n : Z) : ascii :=
  ascii_of_nat (Z.to_nat (if (n <? 10)%Z then 48 + n else 87 + n)).
Fixpoint hex_digits (k : nat) (n : Z) (acc : string) : string :=
  match k with O => acc | S k' => hex_digits k' (n / 16)%Z (String (hex_digit (n mod 16)) acc) end.
Definition fmt_08x (n : Z) : string := hex_digits 8 n "".

Section vmdk.
(** What the writer answers to a write, given what was written. *)
Context (write_err : list string → string → option error).
(** [os.Stat]: [None] the file does not exist, an error, or its size. *)
Context (stat : string → option (res Z)).

Definition Fprint (s : string) : ST (list string) () := λ w,
  match write_err w s with
  | Some e => (Err e, w)
  | None => (Ok tt, w ++ [s])
  end.

Definition extent_line (count : Z) (filename : string) (offset : Z) : string :=
  "RW " +:+ fmt_d count +:+ " FLAT " +:+ quoted filename +:+ " " +:+ fmt_d offset +:+ nl.

(** [None] of the result: out of fuel. *)
Fixpoint add_extents (fuel : nat) (sectors : Z) (filename : string) (offset : Z)
    : ST (list string) (option ()) :=
  if (0 <? sectors)%Z then
    match fuel with
    | O => ret None
    | S f =>
        let count := Z.min sectors max2GbExtentSectors in
        Fprint (extent_line count filename offset) ;;!
        add_extents f (sectors - count) filename (uint64_wrap (offset + count))
    end
  else ret (Some tt).

Definition extents_fuel (sectors : Z) : nat := Z.to_nat (sectors / max2GbExtentSectors + 1).

Definition vmdkDescAddExtent (sectors : Z) (filename : string) (offset : Z) : ST (list string) () :=
  do! r := add_extents (extents_fuel sectors) sectors filename offset in
  match r with Some _ => ret tt | None => fail (mkError ErrUnknown "out of fuel") end.

Definition deviceSectors (d : string) : res Z :=
  match stat d with
  | None => Err (mkError ErrUnknown ("device " +:+ fmt_q d +:+ " does not exist"))
  | Some (Err e) => Err (wrap ("failed to stat device " +:+ fmt_q d) e)
  | Some (Ok size) =>
      if (size =? 0)%Z then Err (mkError ErrUnknown ("device " +:+ fmt_q d +:+ " has zero size"))
      else
        let sectors := Z.shiftr (uint64_wrap size) 9 in
        if (sectors =? 0)%Z then
          Err (mkError ErrUnknown ("device " +:+ fmt_q d +:+ " is too small (less than 512 bytes)"))
        else Ok sectors
  end.

Fixpoint dump_devices (devices : list string) (totalSectors : Z) : ST (list string) Z :=
  match devices with
  | [] => ret totalSectors
  | d :: ds =>
      do! sectors := lift (deviceSectors d) in
      vmdkDescAddExtent sectors d 0 ;;!
      dump_devices ds (uint64_wrap (totalSectors + sectors))
  end.

Definition header (cid : Z) : string :=
  "# Disk DescriptorFile" +:+ nl +:+ "version=1" +:+ nl +:+ "CID=" +:+ fmt_08x cid +:+ nl
  +:+ "parentCID=" +:+ fmt_08x 4294967295 +:+ nl +:+ "createType=" +:+ quoted subformat +:+ nl
  +:+ nl +:+ "# Extent description" +:+ nl.

Definition trailer (cylinders : Z) : string :=
  nl +:+ nl +:+ "# The Disk Data Base" +:+ nl +:+ "#DDB" +:+ nl +:+ nl
  +:+ "ddb.virtualHWVersion = " +:+ quoted hwVersion +:+ nl
  +:+ "ddb.geometry.cylinders = " +:+ quoted (fmt_d cylinders) +:+ nl
  +:+ "ddb.geometry.heads = " +:+ quoted (fmt_d numberHeads) +:+ nl
  +:+ "ddb.geometry.sectors = " +:+ quoted "63" +:+ nl
  +:+ "ddb.adapterType = " +:+ quoted adapterType +:+ nl.

Definition cylindersOf (totalSectors : Z) : Z :=
  (uint64_wrap (totalSectors + sectorsPerTrack * numberHeads - 1) / (sectorsPerTrack * numberHeads))%Z.

Definition DumpVMDKDescriptor (cid : Z) (devices : list string) : ST (list string) () :=
  Fprint (header cid) ;;!
  do! total := dump_devices devices 0 in
  Fprint (trailer (cylindersOf total)).
End vmdk.

(** ** The extents of a file cover it *)

(** A run of extents: each follows the one before and none is empty or above 2 GiB. *)
Inductive covers : Z → Z → list (Z * Z) → Prop :=
  | C_nil o : covers o o []
  | C_cons o e c l : (0 < c ≤ max2GbExtentSectors)%Z → covers (o + c) e l → covers o e ((c, o) :: l).

Lemma add_extents_covers stat_ok fuel sectors filename offset w :
  (∀ w s, stat_ok w s = None) → (0 ≤ sectors)%Z → (0 ≤ offset)%Z → (offset + sectors < two64)%Z →
  (sectors ≤ max2GbExtentSectors * Z.of_nat fuel)%Z →
  ∃ l, add_extents stat_ok fuel sectors filename offset w =
         (Ok (Some tt), w ++ ((λ x, extent_line x.1 filename x.2) <$> l)) ∧
       covers offset (offset + sectors) l.
Proof.
  intros Hw. revert sectors offset w. induction fuel as [|f IH]; intros sectors offset w Hs Ho Hb Hf.
  { assert (sectors = 0)%Z as -> by lia. exists []. rewrite app_nil_r, Z.add_0_r. split; [done|constructor]. }
  cbn [add_extents]. destruct (Z.ltb_spec 0 sectors) as [Hpos|Hz].
  2: { exists []. rewrite app_nil_r. replace (offset + sectors)%Z with offset by lia. split; [done|constructor]. }
  set (c := Z.min sectors max2GbExtentSectors). unfold bind, Fprint. rewrite Hw.
  assert (Hc : (0 < c ≤ max2GbExtentSectors)%Z) by (unfold c, max2GbExtentSectors; lia).
  rewrite uint64_wrap_id by (unfold uint64_range, two64 in *; lia).
  destruct (IH (sectors - c)%Z (offset + c)%Z (w ++ [extent_line c filename offset])) as (l & Hl & Hcov); [lia..| |].
  { unfold c, max2GbExtentSectors in *. lia. }
  exists ((c, offset) :: l). rewrite Hl. cbn [fmap list_fmap fst snd]. rewrite <- app_assoc.
  replace (offset + c + (sectors - c))%Z with (offset + sectors)%Z in Hcov by lia.
  split; [done|by constructor].
Qed.

(** What the devices hold in sectors, when each can be used. *)
Fixpoint total_sectors (stat : string → option (res Z)) (devices : list string) : option Z :=
  match devices with
  | [] => Some 0%Z
  | d :: ds => match deviceSectors stat d, total_sectors stat ds with
               | Ok n, Some t => Some (n + t)%Z
               | _, _ => None
               end
  end.

Lemma deviceSectors_range stat d n : deviceSectors stat d = Ok n → (0 < n)%Z.
Proof.
  unfold deviceSectors. intros H. destruct (stat d) as [[size|]|]; [|done..].
  destruct (size =? 0)%Z; [done|]. destruct (Z.eqb_spec (Z.shiftr (uint64_wrap size) 9) 0); simplify_eq.
  assert (0 ≤ Z.shiftr (uint64_wrap size) 9)%Z; [|lia].
  apply Z.shiftr_nonneg. unfold uint64_wrap, two64. apply Z.mod_pos_bound. lia.
Qed.

Lemma AddExtent_covers werr sectors filename w :
  (∀ w s, werr w s = None) → (0 < sectors < two64)%Z →
  ∃ l, vmdkDescAddExtent werr sectors filename 0 w =
         (Ok tt, w ++ ((λ x, extent_line x.1 filename x.2) <$> l)) ∧ covers 0 sectors l.
Proof.
  intros Hw Hs. destruct (add_extents_covers werr (extents_fuel sectors) sectors filename 0 w) as (l & Hl & Hc); [done|lia..| |].
  { unfold extents_fuel. pose proof (Z.div_mod sectors max2GbExtentSectors).
    pose proof (Z.mod_pos_bound sectors max2GbExtentSectors). pose proof (Z.div_pos sectors max2GbExtentSectors).
    unfold max2GbExtentSectors in *. lia. }
  exists l. split; [|done]. unfold vmdkDescAddExtent, bind. by rewrite Hl.
Qed.

Lemma total_nonneg stat devices t : total_sectors stat devices = Some t → (0 ≤ t)%Z.
Proof.
  revert t. induction devices as [|d ds IH]; intros t H; cbn [total_sectors] in H; simplify_eq; [lia|].
  destruct (deviceSectors stat d) as [n|] eqn:Hn; [|done]. destruct (total_sectors stat ds) as [u|]; simplify_eq.
  apply deviceSectors_range in Hn. specialize (IH u eq_refl). lia.
Qed.

Lemma dump_devices_covers werr stat devices acc t w :
  (∀ w s, werr w s = None) → (0 ≤ acc)%Z → total_sectors stat devices = Some t → (acc + t < two64)%Z →
  ∃ ls, dump_devices werr stat devices acc w =
          (Ok (acc + t)%Z, w ++ concat (zip_with (λ d l, (λ x, extent_line x.1 d x.2) <$> l) devices ls)) ∧
        Forall2 (λ d l, ∃ n, deviceSectors stat d = Ok n ∧ covers 0 n l) devices ls.
Proof.
  intros Hw. revert acc t w. induction devices as [|d ds IH]; intros acc t w Ha Ht Hb; cbn [total_sectors dump_devices] in *.
  { simplify_eq. exists []. rewrite Z.add_0_r, app_nil_r. split; [done|constructor]. }
  destruct (deviceSectors stat d) as [n|] eqn:Hn; [|done]. destruct (total_sectors stat ds) as [u|] eqn:Hu; [|done].
  simplify_eq. pose proof (deviceSectors_range stat d n Hn). pose proof (total_nonneg stat ds u Hu).
  destruct (AddExtent_covers werr n d w Hw) as (l & Hl & Hc); [lia|].
  unfold bind, lift. rewrite Hl. rewrite uint64_wrap_id by (unfold uint64_range; lia).
  destruct (IH (acc + n)%Z u (w ++ ((λ x, extent_line x.1 d x.2) <$> l))) as (ls & Hls & Hf); [lia|done|lia|].
  exists (l :: ls). rewrite Hls. cbn [zip_with concat]. rewrite app_assoc.
  split; [f_equal; f_equal; lia|]. constructor; eauto.
Qed.

Theorem descriptor_covers_devices werr stat cid devices t w :
  (∀ w s, werr w s = None) → total_sectors stat devices = Some t → (t + 1008 ≤ two64)%Z →
  ∃ ls cyl,
    DumpVMDKDescriptor werr stat cid devices w =
      (Ok tt, w ++ [header cid]
                ++ concat (zip_with (λ d l, (λ x, extent_line x.1 d x.2) <$> l) devices ls)
                ++ [trailer cyl]) ∧
    Forall2 (λ d l, ∃ n, deviceSectors stat d = Ok n ∧ covers 0 n l) devices ls ∧
    (t ≤ cyl * 1008 < t + 1008)%Z.
Proof.
  intros Hw Ht Hb. pose proof (total_nonneg stat devices t Ht).
  destruct (dump_devices_covers werr stat devices 0 t (w ++ [header cid]) Hw) as (ls & Hls & Hf); [lia|done|lia|].
  exists ls, (cylindersOf t). unfold DumpVMDKDescriptor, bind, Fprint. rewrite Hw, Hls, Hw.
  split; [by rewrite <- !app_assoc|]. split; [done|]. unfold cylindersOf, sectorsPerTrack, numberHeads.
  rewrite uint64_wrap_id by (unfold uint64_range; lia).
  pose proof (Z.div_mod (t + 63 * 16 - 1) (63 * 16)). pose proof (Z.mod_pos_bound (t + 63 * 16 - 1) (63 * 16)). lia.
Qed.

Definition one_disk (d : string) : option (res Z) := Some (Ok 2147484160%Z).

Lemma descriptor_covers_devices_witness :
  total_sectors one_disk ["/l/a.erofs"] = Some 4194305%Z ∧
  ∃ ls cyl, (DumpVMDKDescriptor (λ _ _, None) one_disk 7 ["/l/a.erofs"] []).2 =
    [header 7] ++ concat (zip_with (λ d l, (λ x, extent_line x.1 d x.2) <$> l) ["/l/a.erofs"] ls) ++ [trailer cyl].
Proof.
  split; [vm_compute; reflexivity|].
  destruct (descriptor_covers_devices (λ _ _, None) one_disk 7 ["/l/a.erofs"] 4194305 [])
    as (ls & cyl & H & _); [done|vm_compute; reflexivity|unfold two64; lia|].
  exists ls, cyl. rewrite H. reflexivity.
Defined.
