(* ===== verification/Templates.v ===== *)
(** Templates: frozen machines later ones are restored from.
    internal/host/vm/qemu/template.go (the store), template_cache.go (memoised
    fingerprints), template_build.go (building one) and the waits of snapshot.go.

    A template is a directory with two files; what matters of a file is which
    build VM wrote it.  [machine.Spec.Fingerprint] is a parameter.  BuildTemplate
    is a goroutine of Conc whose actions are file-system calls and the steps of
    its VM, so that shims building at the same time interleave. *)
From S2P Require Import Prelude Conc GoStrings GoText.
From Stdlib Require Import Ascii.
Open Scope prog_scope.

(** ** The fingerprint cache *)

Record fingerprintCache := mkCache { fc_entries : gmap string string }.

(** [strings.Cut(line, " ")] *)
Fixpoint cut_space (s : string) : option (string * string) :=
  match s with
  | EmptyString => None
  | String a s' =>
      if decide (a = " "%char) then Some (EmptyString, s')
      else '(k, v) ← cut_space s'; Some (String a k, v)
  end.

Definition newline : ascii := ascii_of_nat 10.

Definition parse_cache (b : string) (entries : gmap string string) : gmap string string :=
  foldl (λ m line, match cut_space line with Some (k, v) => <[k := v]> m | None => m end)
    entries (Split b newline).

(** [lookup]: memory first, then the file, which is merged in. *)
Definition cache_lookup (file : option string) (key : string) (c : fingerprintCache)
    : option string * fingerprintCache :=
  match fc_entries c !! key with
  | Some fp => (Some fp, c)
  | None =>
      match file with
      | None => (None, c)
      | Some b => let m := parse_cache b (fc_entries c) in (m !! key, mkCache m)
      end
  end.

Fixpoint print_entries (l : list (string * string)) : string :=
  match l with
  | [] => ""
  | (k, v) :: l' => k +:+ " " +:+ v +:+ String newline (print_entries l')
  end.

(** [store]: the entry, and the file's new contents ([None] when it could not be
    written); [order] is the order in which [range] visits the map. *)
Definition cache_store (order : gmap string string → list (string * string)) (writes : bool)
    (key fp : string) (file : option string) (c : fingerprintCache) : option string * fingerprintCache :=
  let m := <[key := fp]> (fc_entries c) in
  (if writes then Some (print_entries (order m)) else file, mkCache m).

(** [fingerprint]: what [statKey] and [spec.Fingerprint] answer for the machine,
    on the cache file and the process's entries. *)
Definition templateFingerprintLen : nat := 16.
Definition fingerprintOf (full : res string) : res string :=
  let! f := full in Ok (str_take templateFingerprintLen f).

Definition fingerprint (order : gmap string string → list (string * string)) (writes : bool)
    (statKey full : res string) (file : option string) (c : fingerprintCache)
    : res string * (option string * fingerprintCache) :=
  match statKey with
  | Err _ => (fingerprintOf full, (file, c))
  | Ok key =>
      match cache_lookup file key c with
      | (Some fp, c1) => (Ok fp, (file, c1))
      | (None, c1) =>
          match fingerprintOf full with
          | Err e => (Err e, (file, c1))
          | Ok fp => (Ok fp, cache_store order writes key fp file c1)
          end
      end
  end.

(** ** The store *)

(** The two files of a template, by the build VM that wrote them. *)
Record tdir := mkDir { d_ram : option nat; d_state : option nat }.
Definition empty_dir : tdir := mkDir None None.

#[export] Instance tdir_eq_dec : EqDecision tdir.
Proof. solve_decision. Defined.

Record store := mkStore {
  s_dirs : gmap string tdir;
  (** the build VMs that run *)
  s_vms : gset nat
}.

Definition stagingPrefix : string := ".staging-".
Definition staging (fp : string) : string := stagingPrefix +:+ fp.

Definition tprog := prog store.

(** What the host answers to the calls of one build.  A RemoveAll that fails may
    have removed either file ([true] is one that stays), a Start that fails may have
    made the RAM file and may leave the process, a save that fails may leave the
    state file; a Shutdown that fails leaves the VM running. *)
Record buildEnv := mkBuildEnv {
  be_spec : option error;
  be_lookup : option error;
  be_statRAM : option error;
  be_statState : option error;
  be_fingerprint : option error;
  be_clear : option (error * (bool * bool));
  be_mkdir : option error;
  be_new : option error;
  be_start : option (error * (bool * bool));
  be_save : option (error * bool);
  be_shutdown : option error;
  be_rename : option error;
  be_discard : option (error * (bool * bool))
}.

(** File-system calls on the store's directory. *)
Definition remove_all (d : string) (fails : option (error * (bool * bool))) : tprog (option error) :=
  atomically (λ s, match fails with
    | None => (None, mkStore (delete d (s_dirs s)) (s_vms s))
    | Some (e, (ram, state)) =>
        (Some e, mkStore (alter (λ x, mkDir (if ram then d_ram x else None) (if state then d_state x else None)) d (s_dirs s)) (s_vms s))
    end).
Definition mkdir_all (d : string) (fails : option error) : tprog (option error) :=
  atomically (λ s, match fails with
    | None => (None, mkStore (<[d := default empty_dir (s_dirs s !! d)]> (s_dirs s)) (s_vms s))
    | Some e => (Some e, s)
    end).

(** [os.Stat]: the file is there, or not, or the answer is another error. *)
Definition stat_file (file : tdir → option nat) (d : string) (fails : option error) : tprog (res bool) :=
  atomically (λ s, (match fails with Some e => Err e | None => Ok (bool_decide (is_Some ((s_dirs s !! d) ≫= file))) end, s)).

Inductive renamed := Renamed | Occupied | RenameFailed (e : error).

Definition lstat (d : string) : tprog bool :=
  atomically (λ s, (bool_decide (is_Some (s_dirs s !! d)), s)).

(** rename(2) of directories: replaces an absent or empty destination. *)
Definition rename2 (from to : string) (fails : option error) : tprog renamed :=
  atomically (λ s,
    match fails with
    | Some e => (RenameFailed e, s)
    | None =>
        match s_dirs s !! from with
        | None => (RenameFailed (errorf "no such file or directory"), s)
        | Some d =>
            if decide (default empty_dir (s_dirs s !! to) = empty_dir)
            then (Renamed, mkStore (<[to := d]> (delete from (s_dirs s))) (s_vms s))
            else (Occupied, s)
        end
    end).

(** [os.Rename] looks first: any directory at the destination, even an empty
    one, is EEXIST (and a missing source is reported instead of it). *)
Definition rename_dir (from to : string) (fails : option error) : tprog renamed :=
  there <- lstat to ;;
  if there : bool then
    (src <- lstat from ;; Ret (if src : bool then Occupied else RenameFailed (errorf "no such file or directory")))
  else rename2 from to fails.

(** Starting the build VM [v] with its memory in [d]: QEMU creates the RAM file. *)
Definition vm_start (v : nat) (d : string) (fails : option (error * (bool * bool))) : tprog (option error) :=
  atomically (λ s,
    match s_dirs s !! d with
    | None => (Some (errorf "no such directory"), s)
    | Some x =>
        let with_ram := <[d := mkDir (Some v) (d_state x)]> (s_dirs s) in
        match fails with
        | None => (None, mkStore with_ram ({[v]} ∪ s_vms s))
        | Some (e, (ram, alive)) =>
            (Some e, mkStore (if ram : bool then with_ram else s_dirs s) (if alive : bool then {[v]} ∪ s_vms s else s_vms s))
        end
    end).

(** [SaveTemplate]: migrating to the state file. *)
Definition vm_save (v : nat) (d : string) (fails : option (error * bool)) : tprog (option error) :=
  atomically (λ s,
    match s_dirs s !! d with
    | None => (Some (errorf "starting migration"), s)
    | Some x =>
        let saved := mkStore (<[d := mkDir (d_ram x) (Some v)]> (s_dirs s)) (s_vms s) in
        match fails with
        | None => (None, saved)
        | Some (e, partial) => (Some e, if partial : bool then saved else s)
        end
    end).
Definition vm_shutdown (v : nat) (fails : option error) : tprog () :=
  atomically (λ s, (tt, match fails with None => mkStore (s_dirs s) (s_vms s ∖ {[v]}) | Some _ => s end)).

Definition Template : Type := string.

(** [Lookup]'s answers: the template, [ErrNoTemplate], or another error. *)
Inductive looked := Found (t : Template) | NoTemplate (e : error) | LookupFailed (e : error).
Definition errNoTemplate (fp : string) : error :=
  mkError ErrNotFound ("no template for this machine (fingerprint " +:+ fp +:+ ")").

Definition Lookup (env : buildEnv) (fp : string) : tprog looked :=
  match be_lookup env with
  | Some e => Ret (LookupFailed e)
  | None =>
      r <- stat_file d_ram fp (be_statRAM env) ;;
      match r with
      | Err e => Ret (LookupFailed (wrap "checking template file ram" e))
      | Ok false => Ret (NoTemplate (errNoTemplate fp))
      | Ok true =>
          s <- stat_file d_state fp (be_statState env) ;;
          Ret (match s with
               | Err e => LookupFailed (wrap "checking template file state" e)
               | Ok b => if b : bool then Found fp else NoTemplate (errNoTemplate fp)
               end)
      end
  end.

Definition Stage (env : buildEnv) (fp : string) : tprog (option error) :=
  match be_fingerprint env with
  | Some e => Ret (Some e)
  | None =>
      r <- remove_all (staging fp) (be_clear env) ;;
      match r with
      | Some e => Ret (Some (wrap "clearing stale staging directory" e))
      | None =>
          m <- mkdir_all (staging fp) (be_mkdir env) ;;
          Ret (match m with Some e => Some (wrap "creating staging directory" e) | None => None end)
      end
  end.

(** An existing template wins and the staged one is discarded; an error of that is
    returned. *)
Definition Publish (env : buildEnv) (fp : string) : tprog (res Template) :=
  r <- rename_dir (staging fp) fp (be_rename env) ;;
  match r with
  | Renamed => Ret (Ok fp)
  | Occupied =>
      d <- remove_all (staging fp) (be_discard env) ;;
      Ret (match d with Some e => Err e | None => Ok fp end)
  | RenameFailed e => Ret (Err (wrap ("publishing template " +:+ fp) e))
  end.

(** [buildInto] of build VM [v].  The deferred Shutdown does nothing to a VM whose
    Start failed, which is New again; its error is only logged. *)
Definition buildInto (v : nat) (fp : string) (env : buildEnv) : tprog (option error) :=
  match be_new env with
  | Some e => Ret (Some (wrap "creating the template VM" e))
  | None =>
      started <- vm_start v (staging fp) (be_start env) ;;
      match started with
      | Some e => Ret (Some (wrap "booting the template VM" e))
      | None =>
          saved <- vm_save v (staging fp) (be_save env) ;;
          _ <- vm_shutdown v (be_shutdown env) ;;
          Ret saved
      end
  end.

Record request := mkRequest { rq_vm : nat; rq_fp : string; rq_env : buildEnv }.

Definition BuildTemplate (r : request) : tprog (res Template) :=
  match be_spec (rq_env r) with
  | Some e => Ret (Err (wrap "identifying this machine" e))
  | None =>
      existing <- Lookup (rq_env r) (rq_fp r) ;;
      match existing with
      | Found t => Ret (Ok t)
      | LookupFailed e => Ret (Err e)
      | NoTemplate _ =>
          staged <- Stage (rq_env r) (rq_fp r) ;;
          match staged with
          | Some e => Ret (Err e)
          | None =>
              b <- buildInto (rq_vm r) (rq_fp r) (rq_env r) ;;
              match b with
              | Some e => Ret (Err (wrap ("building template " +:+ rq_fp r) e))
              | None => Publish (rq_env r) (rq_fp r)
              end
          end
      end
  end.

(** [List] and [Remove] *)
Definition List_ (s : store) : list string :=
  List.filter (λ d, negb (HasPrefix d stagingPrefix)) (map_to_list (s_dirs s)).*1.

Definition Remove (fp : string) (s : store) : res store :=
  if bool_decide (fp = "") || ContainsAny fp "/\." then
    Err (mkError ErrUnknown ("refusing to remove template " +:+ fmt_q fp +:+ ": not a fingerprint"))
  else Ok (mkStore (delete fp (s_dirs s)) (s_vms s)).

(** ** Builds of different machines do not disturb each other *)

Definition is_fp (fp : string) : Prop := HasPrefix fp stagingPrefix = false.

Lemma staging_not_fp fp fp' : is_fp fp' → staging fp ≠ fp'.
Proof. intros H <-. unfold is_fp, staging in H. by rewrite HasPrefix_app in H. Qed.

Lemma staging_inj fp fp' : staging fp = staging fp' → fp = fp'.
Proof. unfold staging, stagingPrefix. intros H. by injection H. Qed.

(** How far a build has come. *)
Inductive phase := PLook | PSeen' | PSeen | PStart | PCleared | PEmpty | PRam | PBoth | PHalf | PReady | PTaken | PDone.

Abbreviation mode := (request * phase)%type.

Definition published (s : store) (fp : string) : Prop :=
  ∃ u, s_dirs s !! fp = Some (mkDir (Some u) (Some u)).

Section builds.
(** The VMs that may be running although they made a template. *)
Context (leaks : nat → Prop).

Definition phase_ok (m : mode) (s : store) : Prop :=
  let v := rq_vm m.1 in
  let st := s_dirs s !! staging (rq_fp m.1) in
  let quiet := v ∈ s_vms s → leaks v in
  match m.2 with
  | PLook | PStart => True
  | PSeen' => published s (rq_fp m.1)
  | PSeen => quiet ∧ published s (rq_fp m.1)
  | PCleared => st = None
  | PEmpty => st = Some empty_dir
  | PRam => st = Some (mkDir (Some v) None)
  | PBoth => st = Some (mkDir (Some v) (Some v))
  | PHalf => True
  | PReady => quiet ∧ st = Some (mkDir (Some v) (Some v))
  | PTaken => quiet ∧ st = Some (mkDir (Some v) (Some v)) ∧ published s (rq_fp m.1)
  | PDone => published s (rq_fp m.1)
  end.

(** A step of a build: it stays with its own directories and VM, and touches the
    published name only to put a finished template where there was none. *)
Definition tstep (m : mode) (s s' : store) (m' : mode) : Prop :=
  let fp := rq_fp m.1 in let v := rq_vm m.1 in
  m'.1 = m.1 ∧ phase_ok m' s' ∧
  (∀ d, d ≠ staging fp → d ≠ fp → s_dirs s' !! d = s_dirs s !! d) ∧
  (s_dirs s' !! fp = s_dirs s !! fp ∨
   default empty_dir (s_dirs s !! fp) = empty_dir ∧ s_dirs s' !! fp = Some (mkDir (Some v) (Some v)) ∧
   (v ∈ s_vms s' → leaks v) ∧ m'.2 = PDone) ∧
  (∀ u, u ≠ v → u ∈ s_vms s' ↔ u ∈ s_vms s) ∧
  m.2 ≠ PDone.

(** What a build may rely on besides: published templates are complete. *)
Definition finals_ok (s : store) : Prop :=
  ∀ fp d, is_fp fp → s_dirs s !! fp = Some d → ∃ u, d = mkDir (Some u) (Some u) ∧ (u ∈ s_vms s → leaks u).

Definition tpre (m : mode) (s : store) : Prop :=
  phase_ok m s ∧ finals_ok s ∧ is_fp (rq_fp m.1) ∧ (is_Some (be_shutdown (rq_env m.1)) → leaks (rq_vm m.1)).

Lemma finals_published s fp : finals_ok s → is_fp fp → is_Some (s_dirs s !! fp) → published s fp.
Proof. intros Hf Hfp [d Hd]. destruct (Hf fp d Hfp Hd) as (u & -> & _). by exists u. Qed.

Definition tpost (m : mode) (r : res Template) : Prop :=
  ∀ t, r = Ok t → m.2 = PDone ∧ t = rq_fp m.1.

Abbreviation tobeys := (obeys tstep tpre).

(** Solves the frame conditions of a step that changes only the own staging
    directory and the own VM. *)
Ltac frame :=
  simpl; try done;
  repeat match goal with
  | |- ∀ _, _ => intros
  | |- _ ∨ _ => left
  | |- context [<[_ := _]> _ !! _] => rewrite lookup_insert_ne by (done || by apply staging_not_fp)
  | |- context [delete _ _ !! _] => rewrite lookup_delete_ne by (done || by apply staging_not_fp)
  | |- context [alter _ _ _ !! _] => rewrite lookup_alter_ne by (done || by apply staging_not_fp)
  end; try done; try set_solver.
Ltac own_step := unfold tstep, phase_ok; simpl; split_and!; frame.

Lemma obeys_act {B C} m (f : store → B * store) (k : B → tprog C) Q :
  (∀ s, tpre m s → ∃ p, tstep m s (f s).2 (m.1, p) ∧ tobeys (m.1, p) (k (f s).1) Q) →
  tobeys m (pbind (atomically f) k) Q.
Proof. intros H s Hs. destruct (H s Hs) as (p & ? & ?). eauto. Qed.

Lemma tpost_Err m e : tpost m (Err e).
Proof. done. Qed.

Lemma obeys_discard r : tobeys (r, PSeen)
  (d <- remove_all (staging (rq_fp r)) (be_discard (rq_env r)) ;; Ret (match d with Some e => Err e | None => Ok (rq_fp r) end)) tpost.
Proof.
  apply obeys_act. intros s ((Hv & u & Hu) & _ & Hfp & _). simpl in *.
  destruct (be_discard (rq_env r)) as [[e [ram st]]|]; cbn [fst snd].
  - exists PHalf. split; [own_step|apply tpost_Err].
  - exists PDone. split; [|by intros t [= <-]]. own_step.
    exists u. simpl. rewrite lookup_delete_ne by (by apply staging_not_fp). done.
Qed.

Definition published_or_discarded (r : request) (o : renamed) : tprog (res Template) :=
  match o with
  | Renamed => Ret (Ok (rq_fp r))
  | Occupied =>
      d <- remove_all (staging (rq_fp r)) (be_discard (rq_env r)) ;;
      Ret (match d with Some e => Err e | None => Ok (rq_fp r) end)
  | RenameFailed e => Ret (Err (wrap ("publishing template " +:+ rq_fp r) e))
  end.

Lemma obeys_rename2 r : tobeys (r, PReady)
  (pbind (rename2 (staging (rq_fp r)) (rq_fp r) (be_rename (rq_env r))) (published_or_discarded r)) tpost.
Proof.
  unfold rename2. apply obeys_act. intros s ((Hv & Hst) & Hf & Hfp & _). simpl in Hv, Hst, Hfp.
  destruct (be_rename (rq_env r)) as [e|]; cbn [fst snd].
  { exists PHalf. split; [own_step|apply tpost_Err]. }
  rewrite Hst. case_decide as He; cbn [fst snd].
  - exists PDone. split; [|by intros t [= <-]]. unfold tstep, phase_ok; simpl. split_and!; try done.
    + exists (rq_vm r). simpl. by rewrite lookup_insert_eq.
    + intros d Hd1 Hd2. by rewrite lookup_insert_ne, lookup_delete_ne by done.
    + right. by rewrite lookup_insert_eq.
  - exists PSeen. split; [|apply obeys_discard].
    own_step. apply finals_published; [done..|]. destruct (s_dirs s !! rq_fp r); [by eexists|done].
Qed.

Lemma obeys_publish r : tobeys (r, PReady) (Publish (rq_env r) (rq_fp r)) tpost.
Proof.
  change (Publish (rq_env r) (rq_fp r)) with
    (pbind (rename_dir (staging (rq_fp r)) (rq_fp r) (be_rename (rq_env r))) (published_or_discarded r)).
  unfold rename_dir. cbn [pbind]. unfold lstat at 1. apply obeys_act.
  intros s ((Hv & Hst) & Hf & Hfp & _). simpl in Hv, Hst, Hfp. cbn [fst snd]. case_bool_decide as Hd.
  - exists PTaken. split; [own_step; by apply finals_published|]. cbn [pbind]. unfold lstat. apply obeys_act.
    intros s1 ((Hv1 & Hst1 & Hp1) & _). simpl in Hv1, Hst1, Hp1. cbn [fst snd]. rewrite Hst1, bool_decide_eq_true_2 by eauto.
    exists PSeen. split; [own_step|apply obeys_discard].
  - exists PReady. split; [own_step|apply obeys_rename2].
Qed.

(** The deferred Shutdown, after a save that succeeded or not. *)
Lemma obeys_shutdown {A} r (saved : bool) (k : () → tprog A) Q :
  tobeys (r, if saved then PReady else PHalf) (k tt) Q →
  tobeys (r, if saved then PBoth else PHalf) (pbind (vm_shutdown (rq_vm r) (be_shutdown (rq_env r))) k) Q.
Proof.
  intros Hk. unfold vm_shutdown. apply obeys_act. intros s (Hst & _ & _ & Hl). simpl in Hst, Hl. eexists. split; [|exact Hk].
  destruct saved, (be_shutdown (rq_env r)); own_step; by intros _; apply Hl.
Qed.

Lemma obeys_buildInto {A} r (k : option error → tprog A) Q :
  (∀ e p, tobeys (r, p) (k (Some e)) Q) → tobeys (r, PReady) (k None) Q →
  tobeys (r, PEmpty) (pbind (buildInto (rq_vm r) (rq_fp r) (rq_env r)) k) Q.
Proof.
  intros Herr Hok. unfold buildInto. destruct (be_new (rq_env r)) as [e|]; [apply Herr|].
  apply obeys_act. intros s (Hst & Hf & Hfp & _). unfold phase_ok in Hst. simpl in Hst, Hfp. rewrite Hst.
  destruct (be_start (rq_env r)) as [[e [ram alive]]|]; cbn [fst snd pbind].
  { exists PHalf. split; [|apply Herr]. destruct ram, alive; own_step. }
  exists PRam. split; [own_step; by rewrite lookup_insert_eq|].
  apply obeys_act. intros s' (Hst' & _). unfold phase_ok in Hst'. simpl in Hst'. rewrite Hst'.
  destruct (be_save (rq_env r)) as [[e partial]|]; cbn [fst snd pbind].
  - exists PHalf. split; [destruct partial; own_step|]. apply (obeys_shutdown r false). apply Herr.
  - exists PBoth. split; [own_step; by rewrite lookup_insert_eq|]. by apply (obeys_shutdown r true).
Qed.

(** From the lookup that found no template on. *)
Definition build_new (r : request) : tprog (res Template) :=
  staged <- Stage (rq_env r) (rq_fp r) ;;
  match staged with
  | Some e => Ret (Err e)
  | None =>
      b <- buildInto (rq_vm r) (rq_fp r) (rq_env r) ;;
      match b with
      | Some e => Ret (Err (wrap ("building template " +:+ rq_fp r) e))
      | None => Publish (rq_env r) (rq_fp r)
      end
  end.

Lemma obeys_build r : tobeys (r, PStart) (build_new r) tpost.
Proof.
  unfold build_new, Stage. destruct (be_fingerprint (rq_env r)); [apply tpost_Err|].
  apply obeys_act. intros s (_ & Hf & Hfp & _). simpl in Hfp.
  destruct (be_clear (rq_env r)) as [[e [ram st]]|]; cbn [fst snd pbind].
  { exists PHalf. split; [own_step|apply tpost_Err]. }
  exists PCleared. split; [own_step; by rewrite lookup_delete_eq|].
  apply obeys_act. intros s1 (Hst1 & _). unfold phase_ok in Hst1. simpl in Hst1.
  destruct (be_mkdir (rq_env r)) as [e|]; cbn [fst snd pbind].
  { exists PHalf. split; [own_step|apply tpost_Err]. }
  exists PEmpty. split; [own_step; by rewrite lookup_insert_eq, Hst1|].
  apply obeys_buildInto; [|apply obeys_publish]. intros e p. apply tpost_Err.
Qed.

Lemma obeys_BuildTemplate r : tobeys (r, PLook) (BuildTemplate r) tpost.
Proof.
  unfold BuildTemplate, Lookup. destruct (be_spec (rq_env r)); [apply tpost_Err|].
  destruct (be_lookup (rq_env r)); [apply tpost_Err|]. cbn [pbind].
  apply obeys_act. intros s (_ & Hf & Hfp & _). simpl in Hfp. cbn [fst snd].
  destruct (be_statRAM (rq_env r)); [exists PHalf; split; [own_step|apply tpost_Err]|].
  case_bool_decide as Hram; [|exists PStart; split; [own_step|apply obeys_build]].
  exists PSeen'. split; [own_step; apply finals_published; [done..|]; destruct (s_dirs s !! rq_fp r); [by eexists|by destruct Hram]|].
  cbn [pbind]. apply obeys_act. intros s1 (Hp & _). unfold phase_ok in Hp. simpl in Hp. cbn [fst snd].
  destruct (be_statState (rq_env r)); [exists PHalf; split; [own_step|apply tpost_Err]|].
  case_bool_decide as Hst.
  - exists PDone. split; [by own_step|]. by intros t [= <-].
  - exfalso. destruct Hp as [u Hu]. rewrite Hu in Hst. apply Hst. simpl. eauto.
Qed.

Lemma phase_ok_frame m s s' :
  s_dirs s' !! staging (rq_fp m.1) = s_dirs s !! staging (rq_fp m.1) →
  s_dirs s' !! rq_fp m.1 = s_dirs s !! rq_fp m.1 →
  (rq_vm m.1 ∈ s_vms s' ↔ rq_vm m.1 ∈ s_vms s) →
  phase_ok m s → phase_ok m s'.
Proof.
  intros Hst Hfp Hv. unfold phase_ok, published. rewrite Hst, Hfp. destruct m.2; rewrite ?Hv; done.
Qed.

(** The invariant of a pool of builds for different machines, started on [s0]. *)
Record tinv (s0 s : store) (ms : list mode) : Prop := mkTinv {
  ti_finals : finals_ok s;
  ti_modes : ∀ i m, ms !! i = Some m → phase_ok m s ∧ is_fp (rq_fp m.1) ∧ (is_Some (be_shutdown (rq_env m.1)) → leaks (rq_vm m.1));
  ti_apart : ∀ i j m m', ms !! i = Some m → ms !! j = Some m' → i ≠ j →
    rq_fp m.1 ≠ rq_fp m'.1 ∧ rq_vm m.1 ≠ rq_vm m'.1;
  ti_ids : ∀ fp u i m, is_fp fp → s_dirs s !! fp = Some (mkDir (Some u) (Some u)) →
    ms !! i = Some m → m.2 ≠ PDone → rq_vm m.1 ≠ u;
  ti_kept : ∀ fp d, is_fp fp → s_dirs s0 !! fp = Some d → s_dirs s !! fp = Some d
}.

Lemma tinv_pre s0 s ms i m : tinv s0 s ms → ms !! i = Some m → tpre m s.
Proof. intros [? Hm ???] Hi. destruct (Hm i m Hi) as (? & ? & ?). by split_and!. Qed.

(** A published name after the step of a build: as before, or its own. *)
Lemma tstep_final m s s' m' fp : tstep m s s' m' → is_fp fp →
  s_dirs s' !! fp = s_dirs s !! fp ∨
  fp = rq_fp m.1 ∧ default empty_dir (s_dirs s !! fp) = empty_dir ∧
  s_dirs s' !! fp = Some (mkDir (Some (rq_vm m.1)) (Some (rq_vm m.1))) ∧
  (rq_vm m.1 ∈ s_vms s' → leaks (rq_vm m.1)) ∧ m'.2 = PDone.
Proof.
  intros (_ & _ & Hd & Hf & _) Hfp. destruct (decide (fp = rq_fp m.1)) as [->|Hne].
  - destruct Hf as [Hf|(? & ? & ? & ?)]; [by left|right]. by split_and!.
  - left. apply Hd; [|done]. intros ->. by eapply staging_not_fp.
Qed.

Lemma tinv_step s0 s s' ms i m m' : tinv s0 s ms → ms !! i = Some m → tstep m s s' m' →
  tinv s0 s' (<[i := m']> ms).
Proof.
  intros [Hfin Hmod Hap Hids Hk] Hi Hs. pose proof Hs as (Hr & Hok & Hd & _ & Hv & Hnd).
  destruct (Hmod i m Hi) as (_ & Hfpm & Hlm).
  assert (Hold : ∀ j n, <[i := m']> ms !! j = Some n → j = i ∧ n = m' ∨ j ≠ i ∧ ms !! j = Some n).
  { intros j n Hj. destruct (decide (j = i)) as [->|Hne]; [left|right; by rewrite list_lookup_insert_ne in Hj].
    rewrite list_lookup_insert_eq in Hj by (by eapply lookup_lt_Some). by simplify_eq. }
  constructor.
  - intros fp d Hfp Hfd. destruct (tstep_final _ _ _ _ fp Hs Hfp) as [Heq|(-> & _ & Hnew & Hnv & _)].
    + rewrite Heq in Hfd. destruct (Hfin fp d Hfp Hfd) as (u & -> & Hu). exists u. split; [done|].
      rewrite Hv; [done|]. intros ->. by apply (Hids fp (rq_vm m.1) i m Hfp Hfd Hi).
    + rewrite Hnew in Hfd. simplify_eq. eauto.
  - intros j n Hj. destruct (Hold j n Hj) as [[-> ->]|[Hne Hj']]; [by rewrite Hr|].
    destruct (Hmod j n Hj') as (Hokn & Hfpn & Hln). split; [|done]. destruct (Hap j i n m Hj' Hi Hne) as [Hfpne Hvne].
    eapply phase_ok_frame; [| | |done].
    + apply Hd; [|by apply staging_not_fp]. intros He. by apply Hfpne, staging_inj.
    + apply Hd; [|done]. intros He. by eapply staging_not_fp.
    + by apply Hv.
  - intros j1 j2 n1 n2 H1 H2 Hne. destruct (Hold _ _ H1) as [[-> ->]|[? H1']], (Hold _ _ H2) as [[-> ->]|[? H2']];
      rewrite ?Hr; eauto.
  - intros fp u j n Hfp Hfd Hj Hn. destruct (tstep_final _ _ _ _ fp Hs Hfp) as [Heq|(-> & _ & Hnew & _ & Hdone)].
    + rewrite Heq in Hfd. destruct (Hold j n Hj) as [[-> ->]|[Hne Hj']]; [rewrite Hr|]; eauto.
    + rewrite Hnew in Hfd. simplify_eq. destruct (Hold j n Hj) as [[-> ->]|[Hne Hj']]; [done|].
      by apply (Hap j i n m Hj' Hi Hne).
  - intros fp d Hfp Hfd. pose proof (Hk fp d Hfp Hfd) as Hold'.
    destruct (tstep_final _ _ _ _ fp Hs Hfp) as [Heq|(-> & Hemp & _)]; [by rewrite Heq|].
    rewrite Hold' in Hemp. simpl in Hemp. subst d. by destruct (Hfin _ _ Hfp Hold') as (u & ? & _).
Qed.

Lemma requests_kept (ms : list mode) i m m' : ms !! i = Some m → m'.1 = m.1 → (<[i := m']> ms).*1 = ms.*1.
Proof.
  intros Hi Hm. apply list_eq. intros j. rewrite !list_lookup_fmap. destruct (decide (i = j)) as [->|Hne].
  - rewrite list_lookup_insert_eq by (by eapply lookup_lt_Some). rewrite Hi. simpl. by rewrite Hm.
  - by rewrite list_lookup_insert_ne.
Qed.

(** A store before the builds: published templates are complete, though the VM of
    one may still run, and no build's VM has made one. *)
Definition store_ok (s : store) (rs : list request) : Prop :=
  (∀ fp d, is_fp fp → s_dirs s !! fp = Some d → ∃ u, d = mkDir (Some u) (Some u)) ∧
  (∀ r, r ∈ rs → is_fp (rq_fp r) ∧ ∀ fp, is_fp fp → s_dirs s !! fp ≠ Some (mkDir (Some (rq_vm r)) (Some (rq_vm r)))) ∧
  NoDup (rq_fp <$> rs) ∧ NoDup (rq_vm <$> rs).

Lemma store_ok_tinv s rs : store_ok s rs → (∀ u, u ∈ s_vms s → leaks u) →
  (∀ r, r ∈ rs → is_Some (be_shutdown (rq_env r)) → leaks (rq_vm r)) → tinv s s ((λ r, (r, PLook)) <$> rs).
Proof.
  intros (Hf & Hr & Hn1 & Hn2) Hrun Hleak. constructor.
  - intros fp d Hfp Hd. destruct (Hf fp d Hfp Hd) as [u ->]. exists u. split; [done|]. apply Hrun.
  - intros i m Hi. apply list_lookup_fmap_Some in Hi as (r & -> & Hi). apply list_elem_of_lookup_2 in Hi.
    destruct (Hr r Hi) as (? & ?). split_and!; [done..|by apply Hleak].
  - intros i j m m' Hi Hj Hne. apply list_lookup_fmap_Some in Hi as (r & -> & Hi), Hj as (r' & -> & Hj). simpl.
    split; intros He; apply Hne.
    + eapply (NoDup_lookup (rq_fp <$> rs)); [done|by rewrite list_lookup_fmap, Hi|rewrite list_lookup_fmap, Hj; simpl; by rewrite He].
    + eapply (NoDup_lookup (rq_vm <$> rs)); [done|by rewrite list_lookup_fmap, Hi|rewrite list_lookup_fmap, Hj; simpl; by rewrite He].
  - intros fp u i m Hfp Hd Hi _ He. apply list_lookup_fmap_Some in Hi as (r & -> & Hi). simpl in He. subst u.
    apply list_elem_of_lookup_2 in Hi. destruct (Hr r Hi) as (_ & Hno). by apply (Hno fp).
  - done.
Qed.
End builds.

(** C15: Builds of templates for machines with different fingerprints, each with
    a build VM of its own that made no template of the store, starting from
    a store whose templates are complete, under any interleaving and with
    any failure of identifying the machine, of a stat, removal, directory
    creation or rename, of creating, starting, saving or shutting down a VM
    (a removal, start or save that fails may leave part of its work): every
    directory under a fingerprint holds the RAM and the state of one VM, and
    that VM is no longer running, unless it ran before the builds or its own
    shutdown failed, which the code only logs; a template once published
    stays as it is; and a build that succeeds answers a published template
    of its machine. *)
Theorem templates_published_complete s0 rs s ts :
  store_ok s0 rs →
  rtc pstep (s0, BuildTemplate <$> rs) (s, ts) →
  (∀ fp d, is_fp fp → s_dirs s !! fp = Some d →
     ∃ u, d = mkDir (Some u) (Some u) ∧
       (u ∈ s_vms s → u ∈ s_vms s0 ∨ ∃ r, r ∈ rs ∧ rq_vm r = u ∧ be_shutdown (rq_env r) ≠ None)) ∧
  (∀ fp d, is_fp fp → s_dirs s0 !! fp = Some d → s_dirs s !! fp = Some d) ∧
  (∀ i r t, rs !! i = Some r → ts !! i = Some (Ret (Ok t)) → t = rq_fp r ∧ published s t).
Proof.
  intros Hok Hr.
  set (leaks u := u ∈ s_vms s0 ∨ ∃ r, r ∈ rs ∧ rq_vm r = u ∧ be_shutdown (rq_env r) ≠ None).
  destruct (explained_rtc (tstep leaks) (tpre leaks) tpost (λ s ms, tinv leaks s0 s ms ∧ ms.*1 = rs)
    (λ s ms i m H Hi, tinv_pre leaks _ _ _ _ _ (proj1 H) Hi)
    ltac:(intros x y ms i m m' [HI Hfst] Hi Hs; split;
      [by eapply tinv_step|rewrite <- Hfst; eapply requests_kept; [done|by destruct Hs]])
    (s0, BuildTemplate <$> rs) (s, ts)) as (ms & [[Hfin Hmod _ _ Hk] Hfst] & Hf2); [|done|].
  { exists ((λ r, (r, PLook)) <$> rs). split; [split|].
    - apply store_ok_tinv; [done|by left|]. intros r Hin [e He]. right. exists r. by rewrite He.
    - rewrite <- list_fmap_compose. apply list_fmap_id.
    - apply Forall2_fmap. apply Forall_Forall2_diag, Forall_forall. intros r _. apply obeys_BuildTemplate. }
  simpl in *. split_and!; [done..|]. intros i r t Hi Ht.
  destruct (Forall2_lookup_r _ _ _ _ _ Hf2 Ht) as (m & Hm & Hpost). destruct (Hpost t eq_refl) as [Hdone Hfp].
  assert (m.1 = r). { assert (ms.*1 !! i = Some m.1) as Hx by (by rewrite list_lookup_fmap, Hm). rewrite Hfst in Hx. congruence. }
  rewrite Hfp. subst r. split; [done|]. destruct (Hmod i m Hm) as [Hph _].
  unfold phase_ok in Hph. by rewrite Hdone in Hph.
Qed.

(** ** Builds of the same machine share one staging directory *)

Definition all_works : buildEnv := mkBuildEnv None None None None None None None None None None None None None.
Definition req_a : request := mkRequest 1 "f00dfeedcafebabe" all_works.
Definition req_b : request := mkRequest 2 "f00dfeedcafebabe" all_works.
Definition no_store : store := mkStore ∅ ∅.

(** A second build clears the directory the first one's VM already writes into;
    the first then saves its state beside no memory and publishes that. *)
Definition race : list nat := replicate 4 0 ++ replicate 3 1 ++ replicate 4 0.

Lemma same_machine_builds_race :
  let c := sched race (no_store, BuildTemplate <$> [req_a; req_b]) in
  c.2 !! 0 = Some (Ret (Ok "f00dfeedcafebabe")) ∧
  s_dirs c.1 !! "f00dfeedcafebabe" = Some (mkDir None (Some 1)).
Proof. vm_compute. done. Qed.

(** A directory without a memory file at the published name is never repaired:
    every later build returns it as the template. *)
Lemma incomplete_template_sticks r s d :
  is_fp (rq_fp r) → s_dirs s !! rq_fp r = Some d → d_ram d = None →
  rq_env r = all_works →
  (run (BuildTemplate r) s).1 = Ok (rq_fp r) ∧
  s_dirs (run (BuildTemplate r) s).2 !! rq_fp r = Some d.
Proof.
  intros Hfp Hd Hram He. pose proof (staging_not_fp (rq_fp r) _ Hfp) as Hne.
  unfold BuildTemplate, Lookup, Stage, buildInto, Publish, rename_dir, lstat, remove_all, mkdir_all, stat_file,
    vm_start, vm_save, vm_shutdown, atomically. rewrite He. cbn [pbind run fst snd all_works be_spec be_lookup be_statRAM be_statState be_fingerprint be_clear be_mkdir be_new be_start be_save be_shutdown be_rename be_discard].
  rewrite Hd. simpl. rewrite Hram. rewrite bool_decide_eq_false_2 by (intros [? [=]]). simpl.
  rewrite lookup_insert_eq. simpl. rewrite lookup_insert_eq. simpl.
  rewrite !(lookup_insert_ne _ (staging (rq_fp r)) (rq_fp r)), lookup_delete_ne by done. rewrite Hd. simpl.
  rewrite !lookup_insert_eq. rewrite bool_decide_eq_true_2 by eauto. simpl.
  rewrite lookup_delete_ne, !(lookup_insert_ne _ (staging (rq_fp r)) (rq_fp r)), lookup_delete_ne by done. done.
Qed.

(** A VM whose shutdown fails goes on running, and its template is published all the
    same: the VM keeps writing the memory file later ones are restored from. *)
Lemma failed_shutdown_publishes_running_vm e :
  let env := mkBuildEnv None None None None None None None None None None (Some e) None None in
  let r := run (BuildTemplate (mkRequest 1 "f00dfeedcafebabe" env)) no_store in
  r.1 = Ok "f00dfeedcafebabe" ∧ published r.2 "f00dfeedcafebabe" ∧ s_vms r.2 = {[1]}.
Proof. cbv zeta. split; [vm_compute; done|]. split; [exists 1; vm_compute; done|vm_compute; done]. Qed.

(** ** The fingerprint cache answers what hashing would *)

Definition clean_text (s : string) : bool :=
  all_chars (neq_char newline) s && all_chars (neq_char " "%char) s.

Lemma cut_space_print k v : all_chars (neq_char " "%char) k = true → cut_space (k +:+ " " +:+ v) = Some (k, v).
Proof.
  induction k as [|a k IH]; simpl; [done|]. intros H. apply andb_true_iff in H as [Ha Hk].
  unfold neq_char in Ha. case_bool_decide; [done|]. rewrite decide_False by done.
  change (String.append k (String " " v)) with (k +:+ " " +:+ v). by rewrite (IH Hk).
Qed.

Lemma parse_print l m : Forall (λ e, clean_text e.1 ∧ clean_text e.2) l →
  parse_cache (print_entries l) m = foldl (λ m e, <[e.1 := e.2]> m) m l.
Proof.
  unfold parse_cache. revert m. induction l as [|[k v] l IH]; intros m Hl; [done|].
  apply Forall_cons in Hl as [[Hk Hv] Hl]. simpl in Hk, Hv.
  apply andb_True in Hk as [Hk1%Is_true_true_1 Hk2%Is_true_true_1], Hv as [Hv1%Is_true_true_1 _].
  cbn [print_entries].
  replace (k +:+ " " +:+ v +:+ String newline (print_entries l))
    with ((k +:+ " " +:+ v) +:+ String newline (print_entries l)) by (by rewrite !string_app_assoc).
  rewrite Split_cons by (rewrite !all_chars_app; simpl; by rewrite Hk1, Hv1).
  simpl. rewrite cut_space_print by done. by apply IH.
Qed.

Lemma foldl_insert_list_to_map (l : list (string * string)) :
  foldl (λ m e, <[e.1 := e.2]> m) (∅ : gmap string string) l = list_to_map (reverse l).
Proof.
  induction l as [|[k v] l IH] using rev_ind; [done|].
  rewrite foldl_app, reverse_snoc. simpl. by rewrite IH.
Qed.

Section memo.
(** The fingerprint belonging to a key, and the order [range] visits a map in. *)
Context (truth : string → option string) (order : gmap string string → list (string * string)).
Context (Horder : ∀ m, order m ≡ₚ map_to_list m).

Definition good (k v : string) : Prop := truth k = Some v ∧ clean_text k ∧ clean_text v.

Definition good_map (m : gmap string string) : Prop := ∀ k v, m !! k = Some v → good k v.
Definition good_file (file : option string) : Prop :=
  ∀ b, file = Some b → good_map (parse_cache b ∅).

Lemma parse_cache_lookup b m k v :
  parse_cache b m !! k = Some v → m !! k = Some v ∨ parse_cache b ∅ !! k = Some v.
Proof.
  unfold parse_cache. induction (Split b newline) as [|line ls IH] using rev_ind; [by left|].
  rewrite !foldl_app. simpl. destruct (cut_space line) as [[k' v']|]; [|done].
  intros [[-> ->]|[Hne H]]%lookup_insert_Some; [right; by rewrite lookup_insert_eq|].
  rewrite lookup_insert_ne by done. by apply IH.
Qed.

Lemma print_roundtrip m : good_map m → parse_cache (print_entries (order m)) ∅ = m.
Proof.
  intros Hm. rewrite parse_print.
  - rewrite foldl_insert_list_to_map. rewrite <- (list_to_map_to_list m) at 2.
    apply list_to_map_proper; [|by rewrite reverse_Permutation, Horder].
    rewrite reverse_Permutation, Horder. apply NoDup_fst_map_to_list.
  - apply Forall_forall. intros [k v] H. rewrite Horder in H. apply elem_of_map_to_list in H.
    by destruct (Hm k v H) as (_ & ? & ?).
Qed.

Lemma cache_lookup_good file key c : good_map (fc_entries c) → good_file file →
  good_map (fc_entries (cache_lookup file key c).2) ∧
  ∀ fp, (cache_lookup file key c).1 = Some fp → good key fp.
Proof.
  intros Hc Hf. unfold cache_lookup. destruct (fc_entries c !! key) as [v|] eqn:E.
  { split; [done|]. intros fp [= <-]. by apply Hc. }
  destruct file as [b|]; [|by split]. simpl.
  assert (Hg : good_map (parse_cache b (fc_entries c))).
  { intros k v [H|H]%parse_cache_lookup; [by apply Hc|by apply (Hf b)]. }
  split; [done|]. intros fp H. by apply Hg.
Qed.

(** Another process, which has only the file, finds the entry there. *)
Lemma fresh_lookup file key fp w full :
  (∃ b, file = Some b ∧ parse_cache b ∅ !! key = Some fp) →
  (fingerprint order w (Ok key) full file (mkCache ∅)).1 = Ok fp.
Proof. intros (b & -> & H). unfold fingerprint, cache_lookup. simpl. by rewrite lookup_empty, H. Qed.

Theorem fingerprint_memoised writes key full file c fp :
  good_map (fc_entries c) → good_file file →
  fingerprintOf full = Ok fp → good key fp →
  let r := fingerprint order writes (Ok key) full file c in
  r.1 = Ok fp ∧ good_map (fc_entries r.2.2) ∧ good_file r.2.1 ∧
  (writes = true → c = mkCache ∅ →
   ∀ w full', (fingerprint order w (Ok key) full' r.2.1 (mkCache ∅)).1 = Ok fp).
Proof.
  intros Hc Hf Hfull Hgood. destruct (cache_lookup_good file key c Hc Hf) as [Hg Hhit].
  intros r. subst r. unfold fingerprint at 1 2 3 5. destruct (cache_lookup file key c) as [[v|] c1] eqn:El; simpl in Hg, Hhit.
  - destruct (Hhit v eq_refl) as (Ht & _), Hgood as (Ht' & _). assert (v = fp) as -> by congruence.
    split_and!; [done..|]. intros _ -> w full'. apply fresh_lookup. unfold cache_lookup in El.
    simpl in El. rewrite lookup_empty in El. destruct file as [b|]; [|by simplify_eq].
    exists b. injection El as Hv _. done.
  - rewrite Hfull. unfold cache_store. cbn [fst snd fc_entries].
    assert (Hm : good_map (<[key := fp]> (fc_entries c1))).
    { intros k v [[<- <-]|[_ H]]%lookup_insert_Some; [done|by apply Hg]. }
    split_and!; [done..| |].
    + destruct writes; [|done]. intros b [= <-]. by rewrite print_roundtrip.
    + intros -> _ w full'. apply fresh_lookup. eexists. split; [done|]. by rewrite print_roundtrip, lookup_insert_eq.
Qed.
End memo.

Lemma fingerprint_memoised_witness :
  (fingerprint map_to_list true (Ok "9f2c") (Ok "f00dfeedcafebabe0123456789") None (mkCache ∅)).1
    = Ok "f00dfeedcafebabe".
Proof.
  apply (fingerprint_memoised (λ _, Some "f00dfeedcafebabe") map_to_list (λ _, reflexivity _) true "9f2c"
    (Ok "f00dfeedcafebabe0123456789") None (mkCache ∅) "f00dfeedcafebabe"); [|done|done|by split_and!].
  intros k v H. simpl in H. by apply lookup_empty_Some in H.
Defined.

Lemma sched_run {S A} is_ (c : S * list (prog S A)) : rtc pstep c ((sched is_ c).1, (sched is_ c).2).
Proof. rewrite <- surjective_pairing. apply sched_steps. Qed.

Definition two_machines : list request := [req_a; mkRequest 2 "0123456789abcdef" all_works].
Definition interleaved : list nat := replicate 5 0 ++ replicate 9 1 ++ replicate 5 0.

Lemma templates_published_complete_witness :
  let c := sched interleaved (no_store, BuildTemplate <$> two_machines) in
  s_dirs c.1 !! "f00dfeedcafebabe" = Some (mkDir (Some 1) (Some 1)) ∧ published c.1 "f00dfeedcafebabe".
Proof.
  split; [by vm_compute|].
  refine (proj2 (proj2 (proj2 (templates_published_complete no_store two_machines _ _ _ (sched_run _ _)))
    0 req_a "f00dfeedcafebabe" eq_refl _)); [|by vm_compute].
  split_and!.
  - intros fp d _ H. simpl in H. by apply lookup_empty_Some in H.
  - intros r Hr. split; [|intros fp _ H; simpl in H; by apply lookup_empty_Some in H].
    unfold two_machines in Hr. assert (r = req_a ∨ r = mkRequest 2 "0123456789abcdef" all_works) as [->| ->] by set_solver; done.
  - by apply (bool_decide_unpack _); vm_compute.
  - by apply (bool_decide_unpack _); vm_compute.
Defined.
