(* ===== verification/Snapshot.v ===== *)
(** Saving and loading a template: internal/host/vm/qemu/snapshot.go.

    The QMP commands sent are a log; what QEMU answers, at every poll, and the
    clock are the environment.  The two waits are one polling loop; its fuel is
    the number of polls the timeout leaves room for, and it never runs out. *)
From S2P Require Import Prelude GoStrings GoState QemuInstance.
Open Scope Z_scope.

Definition snapshotPollInterval : Z := 500.
Definition snapshotSaveTimeout : Z := 30000000.
Definition snapshotLoadTimeout : Z := 30000000.

(** The commands of the two protocols. *)
Inductive qmp :=
  | SetIgnoreShared | QStop | QCont
  | Migrate (uri : string) | MigrateIncoming (uri : string)
  | QueryMigrate | QueryStatus.

#[export] Instance qmp_eq_dec : EqDecision qmp.
Proof. solve_decision. Defined.

(** The part of [Instance] the snapshot code reads and writes. *)
Record snapInst := mkSnap {
  sn_state : vmState;
  sn_client : bool;
  sn_memoryFilePath : string;
  sn_restoreStatePath : string;
  sn_paused : bool;
  sn_log : list qmp
}.

Definition set_paused b q := mkSnap (sn_state q) (sn_client q) (sn_memoryFilePath q) (sn_restoreStatePath q) b (sn_log q).
Definition add_log c q := mkSnap (sn_state q) (sn_client q) (sn_memoryFilePath q) (sn_restoreStatePath q)
  (sn_paused q) (sn_log q ++ [c]).

(** One turn of a wait: the status QEMU reports ([None]: no status in the reply),
    the clock read after it (microseconds), and whether the context ended. *)
Record turn := mkTurn { tn_status : res (option string); tn_now : Z; tn_ctx : option error }.

(** What QEMU answers to a command, and the turns of the waits. *)
Record qenv := mkQenv {
  qe_answer : qmp → option error;
  qe_start : Z;
  qe_turns : nat → turn
}.

Section snapshot.
Context (env : qenv).

Definition execute (c : qmp) : ST snapInst () := λ q,
  (match qe_answer env c with None => Ok tt | Some e => Err e end, add_log c q).

Definition setIgnoreShared : ST snapInst () :=
  wrapping "enabling x-ignore-shared" (execute SetIgnoreShared).
Definition migrateToFile (path : string) : ST snapInst () :=
  wrapping ("starting migration to " +:+ path) (execute (Migrate ("file:" +:+ path))).
Definition migrateIncoming (path : string) : ST snapInst () :=
  wrapping ("loading migration state from " +:+ path) (execute (MigrateIncoming ("file:" +:+ path))).

(** The loop of both waits: [verdict] of a reported status ends it.
    [None]: out of fuel. *)
Fixpoint wait_loop (fuel : nat) (query : qmp) (queryMsg : string) (verdict : option string → option (res ()))
    (late : option string → string) (deadline : Z) (i : nat) (q : snapInst) : option (res () * snapInst) :=
  match fuel with
  | O => None
  | S f =>
      let q1 := add_log query q in
      let t := qe_turns env i in
      match tn_status t with
      | Err e => Some (Err (wrap queryMsg e), q1)
      | Ok st =>
          match verdict st with
          | Some r => Some (r, q1)
          | None =>
              if deadline <? tn_now t then Some (Err (mkError ErrUnknown (late st)), q1)
              else match tn_ctx t with
                   | Some e => Some (Err e, q1)
                   | None => wait_loop f query queryMsg verdict late deadline (S i) q1
                   end
          end
      end
  end.

(** The polls that fit in a timeout, the first one and the one past the deadline. *)
Definition wait_fuel (timeout : Z) : nat := Z.to_nat (timeout / snapshotPollInterval + 2).

Definition migration_verdict (st : option string) : option (res ()) :=
  match st with
  | Some s => if decide (s = "completed") then Some (Ok tt)
              else if decide (s = "failed" ∨ s = "cancelled")
                   then Some (Err (mkError ErrUnknown ("migration " +:+ s)))
              else None
  | None => None
  end.

Definition state_verdict (want : string) (st : option string) : option (res ()) :=
  match st with
  | Some s => if decide (s = want) then Some (Ok tt) else None
  | None => None
  end.

Definition run_wait (timeout : Z) (query : qmp) (msg : string) (verdict : option string → option (res ()))
    (late : option string → string) : ST snapInst () := λ q,
  match wait_loop (wait_fuel timeout) query msg verdict late (qe_start env + timeout) 0 q with
  | Some r => r
  | None => (Err (mkError ErrInternal "out of fuel"), q)
  end.

Definition waitMigrationComplete (timeout : Z) : ST snapInst () :=
  run_wait timeout QueryMigrate "querying migration" migration_verdict
    (λ _, "migration did not complete within " +:+ fmt_d timeout +:+ "us").

Definition waitRunState (want : string) (timeout : Z) : ST snapInst () :=
  run_wait timeout QueryStatus "querying run state" (state_verdict want)
    (λ st, "VM did not reach " +:+ fmt_q want +:+ " within " +:+ fmt_d timeout +:+ "us (last: "
           +:+ default "unknown" st +:+ ")").

Definition SaveTemplate (statePath : string) : ST snapInst () :=
  do! q := get in
  if decide (sn_memoryFilePath q = "") then
    fail (mkError ErrUnknown "SaveTemplate requires the VM to be started with UseMemoryFile")
  else if negb (sn_client q) then fail (mkError ErrFailedPrecondition "vm not running")
  else
    setIgnoreShared ;;!
    wrapping "pausing VM before snapshot" (execute QStop) ;;!
    modify (set_paused true) ;;!
    migrateToFile statePath ;;!
    waitMigrationComplete snapshotSaveTimeout.

Definition loadTemplate : ST snapInst () :=
  do! q := get in
  if negb (sn_client q) then fail (mkError ErrFailedPrecondition "vm not running")
  else
    setIgnoreShared ;;!
    migrateIncoming (sn_restoreStatePath q) ;;!
    waitRunState "paused" snapshotLoadTimeout ;;!
    wrapping "resuming restored VM" (execute QCont).
End snapshot.

Definition UseMemoryFile (path : string) : ST snapInst () := λ q,
  if decide (sn_state q = vmStateNew) then
    (Ok tt, mkSnap (sn_state q) (sn_client q) path (sn_restoreStatePath q) (sn_paused q) (sn_log q))
  else (Err (mkError ErrUnknown "cannot set memory file after VM started"), q).

Definition RestoreFrom (statePath : string) : ST snapInst () := λ q,
  if decide (sn_state q = vmStateNew) then
    (Ok tt, mkSnap (sn_state q) (sn_client q) (sn_memoryFilePath q) statePath (sn_paused q) (sn_log q))
  else (Err (mkError ErrUnknown "cannot set restore state after VM started"), q).

(** [buildsTemplate] of template.go. *)
Definition buildsTemplate (q : snapInst) : bool :=
  negb (bool_decide (sn_memoryFilePath q = "")) && bool_decide (sn_restoreStatePath q = "").

(** ** The waits end *)

Section waits.
Context (env : qenv).

(** Each turn comes at least an interval after the one before. *)
Definition turns_pass : Prop :=
  ∀ i, qe_start env + snapshotPollInterval * Z.of_nat i ≤ tn_now (qe_turns env i).

(** The turn a wait ends at: the first with a failed query, a verdict, the
    deadline behind it or an ended context. *)
Definition decided (verdict : option string → option (res ())) (deadline : Z) (t : turn) : Prop :=
  match tn_status t with
  | Err _ => True
  | Ok st => is_Some (verdict st) ∨ deadline < tn_now t ∨ is_Some (tn_ctx t)
  end.

#[export] Instance decided_dec verdict deadline t : Decision (decided verdict deadline t).
Proof. unfold decided. destruct (tn_status t); apply _. Defined.

Definition outcome (queryMsg : string) (verdict : option string → option (res ()))
    (late : option string → string) (deadline : Z) (t : turn) : res () :=
  match tn_status t with
  | Err e => Err (wrap queryMsg e)
  | Ok st => match verdict st with
             | Some r => r
             | None => if deadline <? tn_now t then Err (mkError ErrUnknown (late st))
                       else match tn_ctx t with Some e => Err e | None => Ok tt end
             end
  end.

Lemma wait_loop_ends query msg verdict late deadline n fuel i q :
  decided verdict deadline (qe_turns env (i + n)) →
  (∀ j, (j < n)%nat → ¬ decided verdict deadline (qe_turns env (i + j))) →
  (n < fuel)%nat →
  wait_loop env fuel query msg verdict late deadline i q =
    Some (outcome msg verdict late deadline (qe_turns env (i + n)),
          Nat.iter (S n) (add_log query) q).
Proof.
  revert fuel i q. induction n as [|n IH]; intros [|fuel] i q Hd Hbefore Hf; try lia; simpl.
  - rewrite Nat.add_0_r in *. unfold decided in Hd. unfold outcome. destruct (tn_status (qe_turns env i)) as [st|e]; [|done].
    destruct (verdict st) as [r|]; [done|]. destruct (Z.ltb_spec deadline (tn_now (qe_turns env i))); [done|].
    destruct (tn_ctx (qe_turns env i)); [done|]. destruct Hd as [[? [=]]|[?|[? [=]]]]. lia.
  - pose proof (Hbefore 0%nat ltac:(lia)) as H0. rewrite Nat.add_0_r in H0. unfold decided in H0.
    destruct (tn_status (qe_turns env i)) as [st|e]; [|by destruct H0].
    destruct (verdict st) as [r|]; [destruct H0; left; eauto|].
    destruct (Z.ltb_spec deadline (tn_now (qe_turns env i))); [destruct H0; by right; left|].
    destruct (tn_ctx (qe_turns env i)); [destruct H0; right; right; eauto|].
    rewrite (IH fuel (S i) (add_log query q)); [|by rewrite Nat.add_succ_l, <- Nat.add_succ_r| |lia].
    + rewrite Nat.add_succ_l, <- Nat.add_succ_r. do 2 f_equal. simpl. by rewrite Nat.iter_swap.
    + intros j Hj. rewrite Nat.add_succ_l, <- Nat.add_succ_r. apply Hbefore. lia.
Qed.

(** [n] is the turn a wait of [timeout] ends at. *)
Definition ends_at (verdict : option string → option (res ())) (timeout : Z) (n : nat) : Prop :=
  decided verdict (qe_start env + timeout) (qe_turns env n) ∧
  (∀ j, (j < n)%nat → ¬ decided verdict (qe_start env + timeout) (qe_turns env j)) ∧
  Z.of_nat n ≤ timeout / snapshotPollInterval + 1.

Lemma first_below (P : nat → Prop) `{∀ n, Decision (P n)} m : P m →
  ∃ n, P n ∧ (∀ j, (j < n)%nat → ¬ P j) ∧ (n ≤ m)%nat.
Proof.
  induction m as [m IH] using (well_founded_induction lt_wf). intros Hm.
  destruct (decide (Exists P (seq 0 m))) as [Hex|Hno].
  - apply Exists_exists in Hex as (k & Hk & HPk). apply elem_of_seq in Hk.
    destruct (IH k ltac:(lia) HPk) as (n & ? & ? & ?). exists n. split_and!; [done..|lia].
  - exists m. split_and!; [done| |done]. intros j Hj HP. apply Hno, Exists_exists.
    exists j. split; [apply elem_of_seq; lia|done].
Qed.

Lemma wait_ends verdict timeout : turns_pass → 0 ≤ timeout → ∃ n, ends_at verdict timeout n.
Proof.
  intros Ht H0. set (m := Z.to_nat (timeout / snapshotPollInterval + 1)).
  assert (Hq : 0 ≤ timeout / snapshotPollInterval) by (apply Z.div_pos; unfold snapshotPollInterval; lia).
  assert (Hm : decided verdict (qe_start env + timeout) (qe_turns env m)).
  { unfold decided. destruct (tn_status (qe_turns env m)); [right; left|done].
    eapply Z.lt_le_trans; [|apply Ht]. unfold m. rewrite Z2Nat.id by lia.
    pose proof (Z.mul_succ_div_gt timeout snapshotPollInterval). unfold snapshotPollInterval in *. lia. }
  destruct (first_below (λ n, decided verdict (qe_start env + timeout) (qe_turns env n)) m Hm) as (n & ? & ? & ?).
  exists n. unfold ends_at. split_and!; [done..|]. lia.
Qed.

Lemma run_wait_ends verdict timeout n query msg late q :
  ends_at verdict timeout n →
  run_wait env timeout query msg verdict late q =
    (outcome msg verdict late (qe_start env + timeout) (qe_turns env n), Nat.iter (S n) (add_log query) q).
Proof.
  intros (Hd & Hb & Hn). unfold run_wait. rewrite (wait_loop_ends query msg verdict late _ n); [done..|].
  unfold wait_fuel. lia.
Qed.

Lemma iter_log n c q : Nat.iter n (add_log c) q =
  mkSnap (sn_state q) (sn_client q) (sn_memoryFilePath q) (sn_restoreStatePath q) (sn_paused q)
    (sn_log q ++ replicate n c).
Proof.
  revert q. induction n as [|n IH]; intros q; [destruct q; simpl; by rewrite app_nil_r|].
  rewrite Nat.iter_succ_r, IH. simpl. by rewrite <- app_assoc.
Qed.
End waits.

(** ** Saving and loading *)

Definition save_late (timeout : Z) : option string → string :=
  λ _, "migration did not complete within " +:+ fmt_d timeout +:+ "us".

Definition snap_log (q : snapInst) (paused : bool) (l : list qmp) : snapInst :=
  mkSnap (sn_state q) (sn_client q) (sn_memoryFilePath q) (sn_restoreStatePath q) paused (sn_log q ++ l).

Lemma SaveTemplate_runs env statePath q : sn_memoryFilePath q ≠ "" → sn_client q = true →
  SaveTemplate env statePath q =
    (setIgnoreShared env ;;! wrapping "pausing VM before snapshot" (execute env QStop) ;;!
     modify (set_paused true) ;;! migrateToFile env statePath ;;!
     waitMigrationComplete env snapshotSaveTimeout) q.
Proof.
  intros Hm Hc. unfold SaveTemplate. unfold bind at 1. cbn [get]. rewrite decide_False by done. by rewrite Hc.
Qed.

Lemma loadTemplate_runs env q : sn_client q = true →
  loadTemplate env q =
    (setIgnoreShared env ;;! migrateIncoming env (sn_restoreStatePath q) ;;!
     waitRunState env "paused" snapshotLoadTimeout ;;! wrapping "resuming restored VM" (execute env QCont)) q.
Proof. intros Hc. unfold loadTemplate. unfold bind at 1. cbn [get]. by rewrite Hc. Qed.

Lemma outcome_ok msg verdict late deadline t : decided verdict deadline t →
  outcome msg verdict late deadline t = Ok tt ↔ ∃ st, tn_status t = Ok st ∧ verdict st = Some (Ok tt).
Proof.
  unfold decided, outcome. destruct (tn_status t) as [st|e]; [|naive_solver]. intros Hd.
  destruct (verdict st) as [r|] eqn:Hv; [naive_solver|].
  destruct (Z.ltb_spec deadline (tn_now t)); [naive_solver|].
  destruct (tn_ctx t); [naive_solver|]. destruct Hd as [[? [=]]|[?|[? [=]]]]. lia.
Qed.

Ltac log_eq := unfold snap_log, add_log, set_paused; simpl; rewrite <- ?app_assoc; done.

(** SaveTemplate sets the migration capability, stops the VM and migrates, in
    this order and each only when the one before succeeded; the VM is recorded
    as paused exactly from the stop on, the wait ends, and it succeeds exactly
    when QEMU reported completion. *)
Theorem SaveTemplate_freezes env statePath q :
  turns_pass env → sn_memoryFilePath q ≠ "" → sn_client q = true →
  ∃ n, ends_at env migration_verdict snapshotSaveTimeout n ∧
    let t := qe_turns env n in
    let r := SaveTemplate env statePath q in
    let uri := "file:" +:+ statePath in
    match qe_answer env SetIgnoreShared, qe_answer env QStop, qe_answer env (Migrate uri) with
    | Some e, _, _ => r = (Err (wrap "enabling x-ignore-shared" e), snap_log q (sn_paused q) [SetIgnoreShared])
    | None, Some e, _ =>
        r = (Err (wrap "pausing VM before snapshot" e), snap_log q (sn_paused q) [SetIgnoreShared; QStop])
    | None, None, Some e =>
        r = (Err (wrap ("starting migration to " +:+ statePath) e),
             snap_log q true [SetIgnoreShared; QStop; Migrate uri])
    | None, None, None =>
        r.2 = snap_log q true ([SetIgnoreShared; QStop; Migrate uri] ++ replicate (S n) QueryMigrate) ∧
        (r.1 = Ok tt ↔ tn_status t = Ok (Some "completed"))
    end.
Proof.
  intros Ht Hm Hc. destruct (wait_ends env migration_verdict snapshotSaveTimeout Ht ltac:(done)) as [n Hn].
  exists n. split; [done|]. cbv zeta. rewrite SaveTemplate_runs by done. unfold setIgnoreShared, migrateToFile, wrapping, execute, bind, modify.
  destruct (qe_answer env SetIgnoreShared) as [e|]; [log_eq|].
  destruct (qe_answer env QStop) as [e|]; [log_eq|].
  destruct (qe_answer env (Migrate ("file:" +:+ statePath))) as [e|]; [log_eq|].
  unfold waitMigrationComplete. erewrite run_wait_ends by done. rewrite iter_log. cbn [fst snd]. split.
  - log_eq.
  - rewrite outcome_ok by (by apply Hn). split.
    + intros (st & -> & Hv). destruct st as [st|]; [|done]. unfold migration_verdict in Hv. do 2 (case_decide; [by subst|]). done.
    + intros ->. by eexists.
Qed.

(** A restored VM is resumed exactly when QEMU reported it loaded. *)
Theorem loadTemplate_resumes_loaded env q :
  turns_pass env → sn_client q = true →
  let uri := "file:" +:+ sn_restoreStatePath q in
  qe_answer env SetIgnoreShared = None → qe_answer env (MigrateIncoming uri) = None →
  ∃ n, ends_at env (state_verdict "paused") snapshotLoadTimeout n ∧
    let loaded := bool_decide (tn_status (qe_turns env n) = Ok (Some "paused")) in
    let r := loadTemplate env q in
    r.2 = snap_log q (sn_paused q)
      ([SetIgnoreShared; MigrateIncoming uri] ++ replicate (S n) QueryStatus ++ if loaded then [QCont] else []) ∧
    (r.1 = Ok tt ↔ loaded = true ∧ qe_answer env QCont = None).
Proof.
  intros Ht Hc uri Ha1 Ha2. destruct (wait_ends env (state_verdict "paused") snapshotLoadTimeout Ht ltac:(done)) as [n Hn].
  exists n. split; [done|]. cbv zeta. rewrite loadTemplate_runs by done.
  unfold setIgnoreShared, migrateIncoming. unfold bind at 1 2 3 4, wrapping, execute. fold uri. rewrite Ha1.
  unfold bind at 1 2. rewrite Ha2. unfold bind, waitRunState. erewrite run_wait_ends by done. rewrite iter_log.
  assert (Hiff : bool_decide (tn_status (qe_turns env n) = Ok (Some "paused")) = true ↔
    ∃ st, tn_status (qe_turns env n) = Ok st ∧ state_verdict "paused" st = Some (Ok tt)).
  { rewrite bool_decide_eq_true. split; [intros ->; by eexists|]. intros ([st|] & -> & Hv); [|done].
    unfold state_verdict in Hv. by case_decide; subst. }
  rewrite <- (outcome_ok "querying run state" _ (λ st, "VM did not reach " +:+ fmt_q "paused" +:+ " within "
    +:+ fmt_d snapshotLoadTimeout +:+ "us (last: " +:+ default "unknown" st +:+ ")") _ _ (proj1 Hn)) in Hiff.
  destruct (outcome _ _ _ _ _) as [[]|e].
  - rewrite (proj2 Hiff eq_refl). unfold snap_log, add_log; simpl.
    destruct (qe_answer env QCont); simpl; rewrite <- ?app_assoc; naive_solver.
  - destruct (bool_decide _); [by specialize (proj1 Hiff eq_refl)|]. unfold snap_log, add_log; simpl.
    rewrite <- ?app_assoc, ?app_nil_r. naive_solver.
Qed.

(** QEMU reports "active" three times and then [final], every command succeeding. *)
Definition reporting (final : string) : qenv :=
  mkQenv (λ _, None) 0
    (λ i, mkTurn (Ok (Some (if (i <? 3)%nat then "active" else final))) (600 * Z.of_nat i) None).
Definition running_vm : snapInst := mkSnap vmStateRunning true "/t/ram" "/t/state" false [].

Lemma reporting_passes final : turns_pass (reporting final).
Proof. intros i. unfold snapshotPollInterval. simpl. lia. Qed.

Lemma SaveTemplate_freezes_witness :
  (SaveTemplate (reporting "completed") "/t/state" running_vm).1 = Ok tt ∧
  ∃ n, ends_at (reporting "completed") migration_verdict snapshotSaveTimeout n.
Proof.
  split; [by vm_compute|].
  destruct (SaveTemplate_freezes (reporting "completed") "/t/state" running_vm
    (reporting_passes _) ltac:(done) eq_refl) as (n & Hn & _).
  by exists n.
Defined.

Lemma loadTemplate_resumes_loaded_witness :
  (loadTemplate (reporting "paused") running_vm).1 = Ok tt ∧
  ∃ n, ends_at (reporting "paused") (state_verdict "paused") snapshotLoadTimeout n.
Proof.
  split; [by vm_compute|].
  destruct (loadTemplate_resumes_loaded (reporting "paused") running_vm (reporting_passes _) eq_refl eq_refl eq_refl)
    as (n & Hn & _).
  by exists n.
Defined.
