(* ===== verification/Network.v ===== *)
(** Host networking: the CNI manager (internal/host/network/cni) and the network
    manager over it (manager_cni.go, network.go, metrics.go).

    The plugins and the kernel are an environment that answers each call given
    everything that happened before; of the host, the state keeps the network
    namespaces that exist and the container IDs the plugins hold resources for
    (addresses, veth pairs, TAPs).  Every critical section and every call to the
    outside is one action, so that calls interleave; the host-wide CNI lock only
    removes interleavings and is represented by the error of not getting it. *)
From S2P Require Import Prelude Conc GoStrings GoText.
Open Scope prog_scope.

(** ** CNI results: cni/result.go and cni/tap.go *)

Record Iface := mkIface { if_Name : string; if_Mac : string; if_Sandbox : string }.
(** Addresses as their text; a nil mask is [None]. *)
Record IPConfig := mkIP { ip_Address : string; ip_Mask : option string; ip_Gateway : string }.
Record Result := mkResult { r_Interfaces : list Iface; r_IPs : list IPConfig }.

Record CNIResult := mkCNIResult {
  TAPDevice : string;
  TAPMAC : string;
  IPAddress : string;
  Netmask : string;
  Gateway : string
}.

#[export] Instance CNIResult_eq_dec : EqDecision CNIResult.
Proof. solve_decision. Defined.

Fixpoint detectTCRedirectTAP (ifaces : list Iface) : option (string * string) :=
  match ifaces with
  | [] => None
  | i :: rest =>
      if HasPrefix (if_Name i) "tap" then
        if decide (if_Sandbox i = "") then detectTCRedirectTAP rest
        else Some (if_Name i, if_Mac i)
      else detectTCRedirectTAP rest
  end.

Definition ExtractTAPDeviceInfo (r : Result) : res (string * string) :=
  match detectTCRedirectTAP (r_Interfaces r) with
  | Some d => Ok d
  | None => Err (mkError ErrUnknown ("no TAP device found in CNI result (checked "
                  +:+ fmt_d (Z.of_nat (length (r_Interfaces r))) +:+ " interfaces)"))
  end.

(** [readMAC]: what [readInterfaceMAC] finds in the namespace. *)
Definition ParseCNIResultWithNetNS (readMAC : string → res string) (r : Result) (netnsPath : string)
    : res CNIResult :=
  let! tap := match ExtractTAPDeviceInfo r with
              | Ok t => Ok t
              | Err e => Err (wrap "failed to extract TAP device" e)
              end in
  let! mac := (if decide (tap.2 = "") then
                 if decide (netnsPath = "") then
                   Err (mkError ErrUnknown ("TAP device " +:+ fmt_q tap.1 +:+ " has empty MAC and no netns provided"))
                 else match readMAC tap.1 with
                      | Ok m => Ok m
                      | Err e => Err (wrap "failed to read TAP MAC from netns" e)
                      end
               else Ok tap.2) in
  match r_IPs r with
  | [] => Err (mkError ErrUnknown "CNI result contains no IP addresses")
  | ip :: _ => Ok (mkCNIResult tap.1 mac (ip_Address ip) (default "" (ip_Mask ip)) (ip_Gateway ip))
  end.

(** ** Error classes: cni/errors.go *)

Definition classify (lower : string) : option cniCategory :=
  let has := Contains lower in
  if has "duplicate allocation" then Some ResourceConflict
  else if has "no ips available" || has "no ip addresses available" then Some IPAMExhausted
  else if (has "already exists" || has "file exists")
          && (has "veth" || has "tap" || has "peer" || has "interface") then Some ResourceConflict
  else if has "network namespace" && has "not found" then Some NetNSNotFound
  else None.

(** The category is what [errors.Is] sees first; without one, the cause's class. *)
Definition ClassifyError (operation network : string) (e : error) : error :=
  let msg := if decide (network = "") then "CNI " +:+ operation +:+ ": " +:+ emsg e
             else "CNI " +:+ network +:+ " " +:+ operation +:+ ": " +:+ emsg e in
  mkError (match classify (ToLower (emsg e)) with Some c => ErrCNI c | None => ekind e end) msg.

(** ** Metrics: metrics.go (durations left out) *)

Record Metrics := mkMetrics {
  SetupAttempts : Z; SetupSuccesses : Z; SetupFailures : Z; ResourceConflicts : Z;
  TeardownAttempts : Z; TeardownSuccesses : Z; TeardownFailures : Z; IPAMLeaksDetected : Z
}.

Definition inc (z : Z) : Z := int64_wrap (z + 1).

Definition RecordSetup (success conflict : bool) (m : Metrics) : Metrics :=
  mkMetrics (inc (SetupAttempts m))
    (if success then inc (SetupSuccesses m) else SetupSuccesses m)
    (if success then SetupFailures m else inc (SetupFailures m))
    (if conflict then inc (ResourceConflicts m) else ResourceConflicts m)
    (TeardownAttempts m) (TeardownSuccesses m) (TeardownFailures m) (IPAMLeaksDetected m).

Definition RecordTeardown (success : bool) (m : Metrics) : Metrics :=
  mkMetrics (SetupAttempts m) (SetupSuccesses m) (SetupFailures m) (ResourceConflicts m)
    (inc (TeardownAttempts m))
    (if success then inc (TeardownSuccesses m) else TeardownSuccesses m)
    (if success then TeardownFailures m else inc (TeardownFailures m)) (IPAMLeaksDetected m).

Definition RecordIPAMLeak (m : Metrics) : Metrics :=
  mkMetrics (SetupAttempts m) (SetupSuccesses m) (SetupFailures m) (ResourceConflicts m)
    (TeardownAttempts m) (TeardownSuccesses m) (TeardownFailures m) (inc (IPAMLeaksDetected m)).

(** ** The host *)

Inductive cniop :=
  | OMkNetNS (id : string) | ORmNetNS (id : string)
  | OAdd (id netns : string) | ODel (id netns : string).

#[export] Instance cniop_eq_dec : EqDecision cniop.
Proof. solve_decision. Defined.

Record host := mkHost {
  h_netns : gset string;
  h_alloc : gset string;
  (** what the plugins answered to a successful ADD, by container *)
  h_adds : list (string * Result);
  (** the calls made, with whether they succeeded, oldest first *)
  h_log : list (cniop * bool)
}.

Definition logged (o : cniop) (ok : bool) (h : host) : host :=
  mkHost (h_netns h) (h_alloc h) (h_adds h) (h_log h ++ [(o, ok)]).
Definition set_netns (n : gset string) (h : host) : host := mkHost n (h_alloc h) (h_adds h) (h_log h).
Definition set_alloc (a : gset string) (h : host) : host := mkHost (h_netns h) a (h_adds h) (h_log h).
Definition add_added (x : string * Result) (h : host) : host :=
  mkHost (h_netns h) (h_alloc h) (h_adds h ++ [x]) (h_log h).

(** A failed ADD may leave resources behind. *)
Inductive addAnswer := AddOk (r : Result) | AddErr (e : error) (partial : bool).

(** The state directory of the IPAM plugin: networks, each with its address
    files and their contents; [None] is what cannot be read. *)
Definition ipamDir : Type := option (list (string * option (list (string * option string)))).

(** Making a namespace and bind mounting it: done; failed, with the mount point
    left behind or not; or mounted, but the thread could not return to its own
    namespace or the new one turned out to be invalid. *)
Inductive nsAnswer := NsOk | NsErr (e : error) (left : bool) | NsBad (e : error).

Record plugins := mkPlugins {
  p_mkdir : host → option error;
  p_mkns : host → string → nsAnswer;
  p_rmns : host → string → option error;
  p_lock : host → option error;
  p_add : host → string → string → addAnswer;
  p_del : host → string → string → option error;
  p_ctx : host → option error;
  p_convert : Result → option error;
  p_mac : host → string → string → res string;
  p_ipam : host → ipamDir;
  p_now : host → Z
}.

(** ** The manager's state: network.go *)

(** Calls in progress for an ID and their trackers; [None]: [done] is open. *)
Record flight (A : Type) := mkFlight {
  fl_map : gmap string nat;
  fl_trackers : list (string * option A);
  (** a channel was closed twice *)
  fl_panic : bool
}.
Arguments mkFlight {A} _ _ _.
Arguments fl_map {A} _.
Arguments fl_trackers {A} _.
Arguments fl_panic {A} _.

Record CleanupResult := mkCleanup {
  CNITeardown : option error;
  NetNSDelete : option error;
  IPAMVerify : option error;
  InMemoryClear : bool
}.

Record manager := mkManager {
  n_conf : option string;
  n_results : gmap string CNIResult;
  n_setup : flight (res CNIResult);
  n_teardown : flight CleanupResult;
  n_metrics : Metrics;
  n_host : host
}.

Definition with_results r n := mkManager (n_conf n) r (n_setup n) (n_teardown n) (n_metrics n) (n_host n).
Definition with_setup f n := mkManager (n_conf n) (n_results n) f (n_teardown n) (n_metrics n) (n_host n).
Definition with_teardown f n := mkManager (n_conf n) (n_results n) (n_setup n) f (n_metrics n) (n_host n).
Definition with_metrics m n := mkManager (n_conf n) (n_results n) (n_setup n) (n_teardown n) m (n_host n).
Definition with_host h n := mkManager (n_conf n) (n_results n) (n_setup n) (n_teardown n) (n_metrics n) h.

Definition nprog := prog manager.

(** ** One call per ID at a time *)

Section flight.
Context {A : Type}.

(** Under the mutex: join the call in progress, or become the worker. *)
Definition fl_join (id : string) (f : flight A) : (nat + nat) * flight A :=
  match fl_map f !! id with
  | Some tr => (inl tr, f)
  | None => let tr := length (fl_trackers f) in
            (inr tr, mkFlight (<[id := tr]> (fl_map f)) (fl_trackers f ++ [(id, None)]) (fl_panic f))
  end.

(** The worker's result, and [close(inflight.done)]. *)
Definition fl_close (tr : nat) (a : A) (f : flight A) : flight A :=
  match fl_trackers f !! tr with
  | Some (id, None) => mkFlight (fl_map f) (<[tr := (id, Some a)]> (fl_trackers f)) (fl_panic f)
  | _ => mkFlight (fl_map f) (fl_trackers f) true
  end.

Definition fl_leave (id : string) (f : flight A) : flight A :=
  mkFlight (delete id (fl_map f)) (fl_trackers f) (fl_panic f).

Definition fl_result (tr : nat) (f : flight A) : option A := fl_trackers f !! tr ≫= snd.
End flight.

(** The two maps of the manager. *)
Class Flight (A : Type) := {
  get_flight : manager → flight A;
  put_flight : flight A → manager → manager
}.
#[export] Instance setup_flight : Flight (res CNIResult) := {| get_flight := n_setup; put_flight := with_setup |}.
#[export] Instance teardown_flight : Flight CleanupResult := {| get_flight := n_teardown; put_flight := with_teardown |}.

Section singleflight.
Context {A B : Type} `{!Flight A}.

Definition join (id : string) : nprog (nat + nat) :=
  atomically (λ n, let '(r, f) := fl_join id (get_flight n) in (r, put_flight f n)).
Definition close_done (tr : nat) (a : A) : nprog () :=
  atomically (λ n, (tt, put_flight (fl_close tr a (get_flight n)) n)).
Definition leave (id : string) : nprog () :=
  atomically (λ n, (tt, put_flight (fl_leave id (get_flight n)) n)).

(** [select { case <-inflight.done: case <-ctx.Done(): }]: the context ends after
    [looks] looks at the channel. *)
Fixpoint wait (looks : nat) (ctxErr : error) (tr : nat) (k : A → B) (canceled : error → B) : nprog B :=
  match looks with
  | O => Ret (canceled ctxErr)
  | S l =>
      r <- atomically (λ n, (fl_result tr (get_flight n), n)) ;;
      match r with
      | Some a => Ret (k a)
      | None => wait l ctxErr tr k canceled
      end
  end.
End singleflight.

(** ** CNI calls: cni/cni.go and cni/netns.go *)

Section cni.
Context (p : plugins).

Definition on_host {A} (f : host → A * host) : nprog A :=
  atomically (λ n, let '(a, h) := f (n_host n) in (a, with_host h n)).

Definition GetNetNSPath (id : string) : string := path_Join ["/var/run/netns"; id].

Definition NetNSExists (id : string) : nprog bool := on_host (λ h, (bool_decide (id ∈ h_netns h), h)).

Definition DeleteNetNS (id : string) : nprog (option error) :=
  on_host (λ h,
    match p_rmns p h id with
    | Some e => (Some (wrap "failed to remove netns file" e), logged (ORmNetNS id) false h)
    | None => (None, logged (ORmNetNS id) true (set_netns (h_netns h ∖ {[id]}) h))
    end).

(** A namespace left from before is deleted first. *)
Definition CreateNetNS (id : string) : nprog (res string) :=
  dir <- on_host (λ h, (p_mkdir p h, h)) ;;
  match dir with Some e => Ret (Err (wrap "failed to create netns directory" e)) | None =>
  ex <- NetNSExists id ;;
  d <- (if ex : bool then DeleteNetNS id else Ret None) ;;
  match d with
  | Some e => Ret (Err (wrap "failed to clean up existing netns" e))
  | None =>
      a <- on_host (λ h,
        let a := p_mkns p h id in
        (a, match a with
            | NsErr _ false => logged (OMkNetNS id) false h
            | NsErr _ true | NsBad _ => logged (OMkNetNS id) false (set_netns ({[id]} ∪ h_netns h) h)
            | NsOk => logged (OMkNetNS id) true (set_netns ({[id]} ∪ h_netns h) h)
            end)) ;;
      match a with
      | NsOk => Ret (Ok (GetNetNSPath id))
      | NsErr e _ => Ret (Err e)
      | NsBad e => _ <- DeleteNetNS id ;; Ret (Err e)
      end
  end end.

Definition AddNetworkList (id netns : string) : nprog (res Result) :=
  on_host (λ h,
    match p_add p h id netns with
    | AddOk r => (Ok r, add_added (id, r) (logged (OAdd id netns) true (set_alloc ({[id]} ∪ h_alloc h) h)))
    | AddErr e partial =>
        (Err e, logged (OAdd id netns) false (if partial then set_alloc ({[id]} ∪ h_alloc h) h else h))
    end).

Definition DelNetworkList (id netns : string) : nprog (option error) :=
  on_host (λ h,
    match p_del p h id netns with
    | Some e => (Some e, logged (ODel id netns) false h)
    | None => (None, logged (ODel id netns) true (set_alloc (h_alloc h ∖ {[id]}) h))
    end).

Definition ctx_ended : nprog (option error) := on_host (λ h, (p_ctx p h, h)).

Definition cniAddRetries : nat := 3.

(** The attempts that are left, after [attempt] of them. *)
Fixpoint add_attempts (left : nat) (first : bool) (id netns : string) (lastErr : error) : nprog (res Result) :=
  match left with
  | O => Ret (Err (wrap ("failed to add CNI network after " +:+ fmt_d (Z.of_nat cniAddRetries) +:+ " attempts") lastErr))
  | S l =>
      c <- (if first then Ret None else (_ <- DelNetworkList id netns ;; ctx_ended)) ;;
      match c with
      | Some e => Ret (Err e)
      | None =>
          r <- AddNetworkList id netns ;;
          match r with
          | Ok x => Ret (Ok x)
          | Err e => add_attempts l false id netns e
          end
      end
  end.

Definition execPluginChain (id netns : string) : nprog (res Result) :=
  r <- add_attempts cniAddRetries true id netns (mkError ErrUnknown "") ;;
  match r with
  | Err e => Ret (Err e)
  | Ok x =>
      match p_convert p x with
      | Some e => _ <- DelNetworkList id netns ;; Ret (Err (wrap "failed to convert CNI result" e))
      | None => Ret (Ok x)
      end
  end.

Definition getNetworkConfig : nprog (res string) :=
  atomically (λ n, (match n_conf n with
                    | Some c => Ok c
                    | None => Err (mkError ErrUnknown "no CNI configuration loaded")
                    end, n)).

Definition with_lock {A} (fail : error → A) (body : nprog A) : nprog A :=
  l <- on_host (λ h, (p_lock p h, h)) ;;
  match l with Some e => Ret (fail e) | None => body end.

Definition teardownLocked (id netns : string) : nprog (option error) :=
  c <- getNetworkConfig ;;
  match c with
  | Err e => Ret (Some (wrap "failed to get CNI network config" e))
  | Ok name =>
      d <- DelNetworkList id netns ;;
      Ret (ClassifyError "DEL" name <$> d)
  end.

Definition Teardown (id netns : string) : nprog (option error) :=
  with_lock Some (teardownLocked id netns).

Definition setupLocked (id netns : string) : nprog (res CNIResult) :=
  c <- getNetworkConfig ;;
  match c with
  | Err e => Ret (Err (wrap "failed to get CNI network config" e))
  | Ok name =>
      r <- execPluginChain id netns ;;
      match r with
      | Err e => Ret (Err (ClassifyError "ADD" name e))
      | Ok x =>
          parsed <- on_host (λ h, (ParseCNIResultWithNetNS (p_mac p h netns) x netns, h)) ;;
          match parsed with
          | Ok y => Ret (Ok y)
          | Err e => _ <- teardownLocked id netns ;; Ret (Err (wrap "failed to parse CNI result" e))
          end
      end
  end.

Definition Setup (id netns : string) : nprog (res CNIResult) := with_lock Err (setupLocked id netns).

(** ** The network manager: manager_cni.go *)

Definition attemptOrphanCleanup (id : string) : nprog () :=
  now <- on_host (λ h, (p_now p h, h)) ;;
  let cleanupID := id +:+ "-cleanup-" +:+ fmt_d now in
  ns <- CreateNetNS cleanupID ;;
  match ns with
  | Err _ => Ret tt
  | Ok path =>
      _ <- Teardown id path ;;
      _ <- DeleteNetNS cleanupID ;;
      Ret tt
  end.

Definition performCNISetup (id : string) : nprog (res CNIResult) :=
  ns <- CreateNetNS id ;;
  match ns with
  | Err e => Ret (Err (wrap "create netns for CNI" e))
  | Ok netnsPath =>
      r <- Setup id netnsPath ;;
      match r with
      | Ok x => Ret (Ok x)
      | Err e =>
          _ <- DeleteNetNS id ;;
          if decide (ekind e = ErrCNI ResourceConflict) then
            _ <- attemptOrphanCleanup id ;;
            Ret (Err (wrap "setup CNI network (resource conflict - orphaned resources from previous run?)" e))
          else Ret (Err (wrap ("setup CNI network for " +:+ id) e))
      end
  end.

Definition record_ (f : Metrics → Metrics) : nprog () :=
  atomically (λ n, (tt, with_metrics (f (n_metrics n)) n)).

Definition cached (id : string) : nprog (option CNIResult) := atomically (λ n, (n_results n !! id, n)).

Definition deferred {A B} `{!Flight A} (id : string) (tr : nat) (a : A) (b : B) : nprog B :=
  _ <- close_done tr a ;; _ <- leave id ;; Ret b.

(** The result is what [updateEnvironment] puts in the environment. *)
Definition ensureNetworkResourcesCNI (looks : nat) (ctxErr : error) (id : string) : nprog (res CNIResult) :=
  c <- cached id ;;
  match c with
  | Some r => Ret (Ok r)
  | None =>
      t <- join (A := res CNIResult) id ;;
      match t with
      | inl tr => wait looks ctxErr tr (λ r : res CNIResult, r) Err
      | inr tr =>
          r <- performCNISetup id ;;
          match r with
          | Err e =>
              _ <- record_ (RecordSetup false (bool_decide (ekind e = ErrCNI ResourceConflict))) ;;
              deferred id tr (Err e) (Err e)
          | Ok x =>
              _ <- record_ (RecordSetup true false) ;;
              _ <- atomically (λ n, (tt, with_results (<[id := x]> (n_results n)) n)) ;;
              deferred id tr (Ok x) (Ok x)
          end
      end
  end.

Definition HasError (c : CleanupResult) : bool :=
  bool_decide (is_Some (CNITeardown c)) || bool_decide (is_Some (NetNSDelete c)) || bool_decide (is_Some (IPAMVerify c)).

Definition cleanup_msgs (c : CleanupResult) : list string :=
  (match CNITeardown c with Some e => ["CNI teardown: " +:+ emsg e] | None => [] end)
  ++ (match NetNSDelete c with Some e => ["netns delete: " +:+ emsg e] | None => [] end)
  ++ (match IPAMVerify c with Some e => ["IPAM verify: " +:+ emsg e] | None => [] end).

Definition cleanup_Err (c : CleanupResult) : option error :=
  if HasError c then Some (mkError ErrUnknown (join_with "; " (cleanup_msgs c))) else None.

(** [verifyIPAMCleanup] of the files found. *)
Fixpoint find_ip (files : list (string * option string)) (id : string) : option string :=
  match files with
  | [] => None
  | (name, content) :: rest =>
      if HasPrefix name "last_" || HasPrefix name "." then find_ip rest id
      else match content with
           | Some c => if decide (TrimSpace c = id) then Some name else find_ip rest id
           | None => find_ip rest id
           end
  end.

Fixpoint verify_nets (nets : list (string * option (list (string * option string)))) (id : string) : option error :=
  match nets with
  | [] => None
  | (net, files) :: rest =>
      match files ≫= λ fs, find_ip fs id with
      | Some ip => Some (mkError (ErrCNI IPAMLeak)
          ("IPAM leak detected: IP " +:+ ip +:+ " in network " +:+ net +:+ " still allocated to " +:+ id))
      | None => verify_nets rest id
      end
  end.

Definition verifyIPAMCleanup (id : string) : nprog (option error) :=
  on_host (λ h, (match p_ipam p h with Some nets => verify_nets nets id | None => None end, h)).

Definition performCNITeardown (id : string) : nprog CleanupResult :=
  ex <- NetNSExists id ;;
  ns <- (if ex : bool then Ret (GetNetNSPath id, None)
         else (t <- CreateNetNS id ;;
               Ret (match t with
                    | Ok path => (path, None)
                    | Err e => ("", Some (wrap "create temporary netns" e))
                    end))) ;;
  td <- Teardown id ns.1 ;;
  ipam <- verifyIPAMCleanup id ;;
  _ <- (if bool_decide (is_Some ipam) then record_ RecordIPAMLeak else Ret tt) ;;
  d <- DeleteNetNS id ;;
  _ <- atomically (λ n, (tt, with_results (delete id (n_results n)) n)) ;;
  Ret (mkCleanup td (match d with Some e => Some e | None => ns.2 end) ipam true).

Definition releaseNetworkResourcesCNI (looks : nat) (ctxErr : error) (id : string) : nprog (option error) :=
  t <- join (A := CleanupResult) id ;;
  match t with
  | inl tr => wait looks ctxErr tr cleanup_Err Some
  | inr tr =>
      r <- performCNITeardown id ;;
      _ <- record_ (RecordTeardown (negb (HasError r))) ;;
      deferred id tr r (cleanup_Err r)
  end.
End cni.

Definition newManager (conf : option string) (h : host) : manager :=
  mkManager conf ∅ (mkFlight ∅ [] false) (mkFlight ∅ [] false) (mkMetrics 0 0 0 0 0 0 0 0) h.
