(* ===== verification/NetworkProps.v ===== *)
(** Theorems on host networking (Network): one call per container does the work
    whatever calls interleave, what it answers comes from the plugins, a release
    that reports success has released everything, and no call touches another
    container's resources. *)
From S2P Require Import Prelude Conc GoStrings GoText Network.
Open Scope prog_scope.

(** ** One worker per ID *)

Inductive fmode := FFree | FOwn (id : string) (tr : nat) | FClosed (id : string) (tr : nat).

Section single.
Context {A : Type} (get : manager → flight A).

Definition fstep (m : fmode) (n n' : manager) (m' : fmode) : Prop :=
  match m, m' with
  | FFree, FFree => get n' = get n
  | FFree, FOwn id tr =>
      fl_map (get n) !! id = None ∧ tr = length (fl_trackers (get n)) ∧ get n' = (fl_join id (get n)).2
  | FOwn id tr, FOwn id' tr' => id' = id ∧ tr' = tr ∧ get n' = get n
  | FOwn id tr, FClosed id' tr' => id' = id ∧ tr' = tr ∧ ∃ a, get n' = fl_close tr a (get n)
  | FClosed id tr, FFree => get n' = fl_leave id (get n)
  | _, _ => False
  end.

Definition holds (m : fmode) : option (string * nat) :=
  match m with FFree => None | FOwn id tr | FClosed id tr => Some (id, tr) end.

Definition tracker_ok (f : flight A) (m : fmode) : Prop :=
  match m with
  | FFree => True
  | FOwn id tr => fl_map f !! id = Some tr ∧ fl_trackers f !! tr = Some (id, None)
  | FClosed id tr => fl_map f !! id = Some tr ∧ ∃ a, fl_trackers f !! tr = Some (id, Some a)
  end.

Record finv (n : manager) (ms : list fmode) : Prop := mkFinv {
  fi_panic : fl_panic (get n) = false;
  fi_modes : ∀ i m, ms !! i = Some m → tracker_ok (get n) m;
  fi_map : ∀ id tr, fl_map (get n) !! id = Some tr → ∃ i m, ms !! i = Some m ∧ holds m = Some (id, tr);
  fi_open : ∀ tr id, fl_trackers (get n) !! tr = Some (id, None) → ∃ i, ms !! i = Some (FOwn id tr);
  fi_apart : ∀ i j m m' id tr, ms !! i = Some m → ms !! j = Some m' →
    holds m = Some (id, tr) → fst <$> holds m' = Some id → i = j
}.

Lemma holds_map n ms i m id tr : finv n ms → ms !! i = Some m → holds m = Some (id, tr) →
  fl_map (get n) !! id = Some tr.
Proof. intros [_ Hm _ _ _] Hi Hh. pose proof (Hm i m Hi) as Hok. destruct m; simplify_eq/=; by destruct Hok. Qed.

Lemma lookup_insert_mode (ms : list fmode) i m m' j k : ms !! i = Some m → <[i := m']> ms !! j = Some k →
  j = i ∧ k = m' ∨ j ≠ i ∧ ms !! j = Some k.
Proof.
  intros Hi Hj. destruct (decide (j = i)) as [->|Hne]; [left|right; by rewrite list_lookup_insert_ne in Hj].
  rewrite list_lookup_insert_eq in Hj by (by eapply lookup_lt_Some). by simplify_eq.
Qed.

Lemma insert_mode (ms : list fmode) i m m' : ms !! i = Some m → <[i := m']> ms !! i = Some m'.
Proof. intros Hi. apply list_lookup_insert_eq. by eapply lookup_lt_Some. Qed.

Lemma finv_same n n' ms i m m' : finv n ms → ms !! i = Some m → holds m' = holds m → tracker_ok (get n) m' →
  (∀ id tr, m = FOwn id tr → m' = FOwn id tr) → get n' = get n → finv n' (<[i := m']> ms).
Proof.
  intros [Hp Hm Hmap Ho Ha] Hi Hh Hok Hown Hg. constructor; rewrite ?Hg.
  - done.
  - intros j k Hj. destruct (lookup_insert_mode _ _ _ _ _ _ Hi Hj) as [[-> ->]|[_ Hj']]; [done|by apply (Hm j)].
  - intros id tr Hid. destruct (Hmap id tr Hid) as (j & k & Hj & Hk). destruct (decide (j = i)) as [->|Hne].
    + exists i, m'. simplify_eq. by rewrite (insert_mode _ _ _ _ Hi), Hh.
    + exists j, k. by rewrite list_lookup_insert_ne.
  - intros tr id Htr. destruct (Ho tr id Htr) as [j Hj]. exists j. destruct (decide (j = i)) as [->|Hne].
    + rewrite Hi in Hj. injection Hj as ->. rewrite (insert_mode _ _ _ _ Hi). f_equal. by apply Hown.
    + by rewrite list_lookup_insert_ne.
  - intros j j' k k' id tr Hj Hj' Hk Hk'.
    destruct (lookup_insert_mode _ _ _ _ _ _ Hi Hj) as [[-> ->]|[_ Hj1]],
      (lookup_insert_mode _ _ _ _ _ _ Hi Hj') as [[-> ->]|[_ Hj2]]; rewrite ?Hh in *; eauto.
Qed.

Lemma finv_join n n' ms i id : finv n ms → ms !! i = Some FFree → fl_map (get n) !! id = None →
  get n' = (fl_join id (get n)).2 → finv n' (<[i := FOwn id (length (fl_trackers (get n)))]> ms).
Proof.
  intros HI Hi Hno Hg. pose proof HI as [Hp Hm Hmap Ho Ha]. set (tr0 := length (fl_trackers (get n))).
  unfold fl_join in Hg. rewrite Hno in Hg. simpl in Hg. fold tr0 in Hg.
  assert (Hlt : ∀ tr x, fl_trackers (get n) !! tr = Some x → tr ≠ tr0) by (intros tr x Hx ->; apply lookup_lt_Some in Hx; unfold tr0 in Hx; lia).
  assert (Hnot : ∀ j k tr, ms !! j = Some k → holds k ≠ Some (id, tr)).
  { intros j k tr Hj Hk. rewrite (holds_map _ _ _ _ _ _ HI Hj Hk) in Hno. done. }
  constructor; rewrite ?Hg; cbn [fl_map fl_trackers fl_panic].
  - done.
  - intros j k Hj. destruct (lookup_insert_mode _ _ _ _ _ _ Hi Hj) as [[-> ->]|[_ Hj']].
    + split; simpl; [by rewrite lookup_insert_eq|by rewrite list_lookup_middle].
    + pose proof (Hm j k Hj') as Hok. pose proof (Hnot j k) as Hn. destruct k as [|id' tr|id' tr]; [done|..]; simpl in *.
      all: rewrite lookup_insert_ne by (intros <-; by eapply Hn).
      * destruct Hok as [? Ht]. split; [done|]. by rewrite lookup_app_l by (by eapply lookup_lt_Some).
      * destruct Hok as [? [a Ht]]. split; [done|]. exists a. by rewrite lookup_app_l by (by eapply lookup_lt_Some).
  - intros id' tr [[<- <-]|[Hne Hid]]%lookup_insert_Some.
    + exists i, (FOwn id tr0). by rewrite (insert_mode _ _ _ _ Hi).
    + destruct (Hmap id' tr Hid) as (j & k & Hj & Hk). exists j, k. split; [|done].
      rewrite list_lookup_insert_ne; [done|]. intros ->. by simplify_eq.
  - intros tr id' [Ht|[Hle Ht]]%lookup_app_Some.
    + destruct (Ho tr id' Ht) as [j Hj]. exists j. rewrite list_lookup_insert_ne; [done|]. intros ->. by simplify_eq.
    + apply list_lookup_singleton_Some in Ht as [? [= <-]]. exists i. rewrite (insert_mode _ _ _ _ Hi). f_equal.
      f_equal. unfold tr0. lia.
  - intros j j' k k' id' tr Hj Hj' Hk Hk'.
    destruct (lookup_insert_mode _ _ _ _ _ _ Hi Hj) as [[-> ->]|[_ Hj1]],
      (lookup_insert_mode _ _ _ _ _ _ Hi Hj') as [[-> ->]|[_ Hj2]]; [done|..|by eauto]; simpl in *; simplify_eq.
    + exfalso. destruct (holds k') as [[? ?]|] eqn:E; simplify_eq/=. by eapply Hnot.
    + exfalso. by eapply Hnot.
Qed.

Lemma finv_close n n' ms i id tr a : finv n ms → ms !! i = Some (FOwn id tr) →
  get n' = fl_close tr a (get n) → finv n' (<[i := FClosed id tr]> ms).
Proof.
  intros HI Hi Hg. pose proof HI as [Hp Hm Hmap Ho Ha]. destruct (Hm i _ Hi) as [Hid Htr].
  unfold fl_close in Hg. rewrite Htr in Hg.
  assert (Hne : ∀ j k x, j ≠ i → ms !! j = Some k → holds k = Some x → x.2 ≠ tr ∧ x.1 ≠ id).
  { intros j k [id' tr'] Hji Hj Hk. simpl. split; intros ->; apply Hji.
    - assert (id' = id) as ->; [|by eapply (Ha j i k (FOwn id tr) id tr)].
      pose proof (Hm j k Hj) as Hok. destruct k; simplify_eq/=; destruct Hok as [_ Hx]; [congruence|destruct Hx; congruence].
    - symmetry. by apply (Ha i j (FOwn id tr) k id tr Hi Hj); [|rewrite Hk]. }
  constructor; rewrite ?Hg; cbn [fl_map fl_trackers fl_panic].
  - done.
  - intros j k Hj. destruct (lookup_insert_mode _ _ _ _ _ _ Hi Hj) as [[-> ->]|[Hji Hj']].
    + split; [done|]. exists a. apply list_lookup_insert_eq. by eapply lookup_lt_Some.
    + pose proof (Hm j k Hj') as Hok. pose proof (Hne j k) as Hn. destruct k as [|id' tr'|id' tr']; [done|..]; simpl in *.
      all: destruct (Hn (id', tr') Hji Hj' eq_refl) as [Hn1 Hn2]; simpl in *; by rewrite list_lookup_insert_ne.
  - intros id' tr' Hx. destruct (Hmap id' tr' Hx) as (j & k & Hj & Hk). destruct (decide (j = i)) as [->|Hji].
    + exists i, (FClosed id tr). rewrite (insert_mode _ _ _ _ Hi). rewrite Hi in Hj. injection Hj as <-. done.
    + exists j, k. by rewrite list_lookup_insert_ne.
  - intros tr' id' Hx. destruct (decide (tr' = tr)) as [->|Htrne].
    { by rewrite list_lookup_insert_eq in Hx by (by eapply lookup_lt_Some). }
    rewrite list_lookup_insert_ne in Hx by done. destruct (Ho tr' id' Hx) as [j Hj]. exists j.
    rewrite list_lookup_insert_ne; [done|]. intros ->. by simplify_eq.
  - intros j j' k k' id' tr' Hj Hj' Hk Hk'.
    destruct (lookup_insert_mode _ _ _ _ _ _ Hi Hj) as [[-> ->]|[_ Hj1]],
      (lookup_insert_mode _ _ _ _ _ _ Hi Hj') as [[-> ->]|[_ Hj2]]; [done|..|by eauto]; simpl in *; simplify_eq.
    + by apply (Ha i j' (FOwn id' tr') k' id' tr').
    + by apply (Ha j i k (FOwn id' tr) id' tr').
Qed.

Lemma finv_leave n n' ms i id tr : finv n ms → ms !! i = Some (FClosed id tr) →
  get n' = fl_leave id (get n) → finv n' (<[i := FFree]> ms).
Proof.
  intros HI Hi Hg. pose proof HI as [Hp Hm Hmap Ho Ha].
  assert (Hne : ∀ j k x, j ≠ i → ms !! j = Some k → holds k = Some x → x.1 ≠ id).
  { intros j k [id' tr'] Hji Hj Hk. simpl. intros ->. apply Hji. symmetry.
    by apply (Ha i j (FClosed id tr) k id tr Hi Hj); [|rewrite Hk]. }
  constructor; rewrite ?Hg; unfold fl_leave; cbn [fl_map fl_trackers fl_panic].
  - done.
  - intros j k Hj. destruct (lookup_insert_mode _ _ _ _ _ _ Hi Hj) as [[-> ->]|[Hji Hj']]; [done|].
    pose proof (Hm j k Hj') as Hok. pose proof (Hne j k) as Hn. destruct k as [|id' tr'|id' tr']; [done|..]; simpl in *.
    all: specialize (Hn (id', tr') Hji Hj' eq_refl); simpl in *; by rewrite lookup_delete_ne.
  - intros id' tr' [Hd Hx]%lookup_delete_Some. destruct (Hmap id' tr' Hx) as (j & k & Hj & Hk). exists j, k.
    rewrite list_lookup_insert_ne; [done|]. intros ->. rewrite Hi in Hj. injection Hj as <-. by simplify_eq/=.
  - intros tr' id' Hx. destruct (Ho tr' id' Hx) as [j Hj]. exists j.
    rewrite list_lookup_insert_ne; [done|]. intros ->. by simplify_eq.
  - intros j j' k k' id' tr' Hj Hj' Hk Hk'.
    destruct (lookup_insert_mode _ _ _ _ _ _ Hi Hj) as [[-> ->]|[_ Hj1]],
      (lookup_insert_mode _ _ _ _ _ _ Hi Hj') as [[-> ->]|[_ Hj2]]; [done|..|by eauto]; simpl in *; by simplify_eq.
Qed.

Lemma finv_step n n' ms i m m' : finv n ms → ms !! i = Some m → fstep m n n' m' → finv n' (<[i := m']> ms).
Proof.
  intros HI Hi Hs. destruct m as [|id tr|id tr], m' as [|id' tr'|id' tr']; simpl in Hs; try done.
  - eapply finv_same; by eauto.
  - destruct Hs as (? & -> & ?). by eapply finv_join.
  - destruct Hs as (-> & -> & ?). eapply finv_same; [done..| |by intros ?? [= -> ->]|done]. by apply (fi_modes _ _ HI i).
  - destruct Hs as (-> & -> & a & ?). by eapply finv_close.
  - by eapply finv_leave.
Qed.
End single.

(** ** What the calls change *)

(** The plugin calls leave the manager's bookkeeping alone. *)
Definition outside (n n' : manager) : Prop :=
  n_setup n' = n_setup n ∧ n_teardown n' = n_teardown n ∧ n_results n' = n_results n ∧ n_conf n' = n_conf n.
Definition no_flight (n n' : manager) : Prop := n_setup n' = n_setup n ∧ n_teardown n' = n_teardown n.

(** [guar] of a program built from [on_host], [atomically] and branches. *)
Ltac guar_step :=
  lazymatch goal with
  | |- guar _ (pbind _ _) => apply guar_bind
  | |- guar _ (Ret _) => exact I
  | |- guar _ (match ?x with _ => _ end) => destruct x
  | |- ∀ _, guar _ _ => intros ?
  | |- guar _ (on_host _) => split; [intros ?; simpl|intros ?; exact I]
  | |- guar _ (atomically _) => split; [intros ?; simpl|intros ?; exact I]
  end.
Ltac guar_all := repeat guar_step.

Section outside.
Context (p : plugins).

Lemma outside_host {A} (f : host → A * host) : guar outside (on_host f).
Proof. split; [|done]. intros n. simpl. by destruct (f (n_host n)). Qed.

Ltac host_step := lazymatch goal with |- guar _ (on_host _) => apply outside_host end.
Ltac outs := repeat first [host_step | guar_step].

Lemma outside_CreateNetNS id : guar outside (CreateNetNS p id).
Proof. unfold CreateNetNS, NetNSExists, DeleteNetNS. outs. Qed.
Lemma outside_Teardown id ns : guar outside (Teardown p id ns).
Proof. unfold Teardown, with_lock, teardownLocked, getNetworkConfig, DelNetworkList. outs; done. Qed.

Lemma outside_add_attempts left first id ns e : guar outside (add_attempts p left first id ns e).
Proof.
  revert first e. induction left as [|l IH]; intros first e; cbn [add_attempts]; [done|].
  apply guar_bind; [unfold DelNetworkList, ctx_ended; outs|]. intros [?|]; [done|].
  apply guar_bind; [unfold AddNetworkList; outs|]. intros [?|?]; [done|apply IH].
Qed.

Lemma outside_Setup id ns : guar outside (Setup p id ns).
Proof.
  unfold Setup, with_lock, setupLocked, execPluginChain, getNetworkConfig, teardownLocked, DelNetworkList.
  repeat first [host_step | apply outside_add_attempts | guar_step]; done.
Qed.

Lemma outside_performCNISetup id : guar outside (performCNISetup p id).
Proof.
  unfold performCNISetup, attemptOrphanCleanup, DeleteNetNS. cbv zeta.
  repeat first [host_step | apply outside_CreateNetNS | apply outside_Teardown | apply outside_Setup | guar_step].
Qed.

Lemma no_flight_performCNITeardown id : guar no_flight (performCNITeardown p id).
Proof.
  assert (Hm : ∀ n n', outside n n' → no_flight n n') by (intros n n' (? & ? & _); done).
  unfold performCNITeardown, NetNSExists, verifyIPAMCleanup, record_, DeleteNetNS.
  repeat first [lazymatch goal with |- guar _ (on_host _) => eapply guar_mono; [exact Hm|apply outside_host] end | eapply guar_mono; [exact Hm|apply outside_CreateNetNS]
    | eapply guar_mono; [exact Hm|apply outside_Teardown] | guar_step]; done.
Qed.
End outside.

(** ** Any number of calls at once *)

Inductive ncall :=
  | CEnsure (looks : nat) (ctxErr : error) (id : string)
  | CRelease (looks : nat) (ctxErr : error) (id : string).

Definition nresult : Type := res CNIResult + option error.

Definition perform (p : plugins) (c : ncall) : nprog nresult :=
  match c with
  | CEnsure l e id => r <- ensureNetworkResourcesCNI p l e id ;; Ret (inl r)
  | CRelease l e id => r <- releaseNetworkResourcesCNI p l e id ;; Ret (inr r)
  end.

Abbreviation fobeys get := (obeys (fstep get) (λ _ _, True)).

Lemma fobeys_guar {A B} (get : manager → flight A) (m : fmode) (q : nprog B) R :
  (∀ n n', R n n' → get n' = get n) → (∀ id tr, m ≠ FClosed id tr) → guar R q →
  fobeys get m q (λ m' _, m' = m).
Proof.
  intros HR Hm Hq. eapply guar_obeys; [|exact Hq]. intros n n' _ H. destruct m as [|id tr|id tr]; simpl; eauto.
  by destruct (Hm id tr).
Qed.

Lemma fobeys_act {A B C} (get : manager → flight A) m (f : manager → B * manager) (k : B → nprog C) Q :
  (∀ n, ∃ m', fstep get m n (f n).2 m' ∧ fobeys get m' (k (f n).1) Q) → fobeys get m (pbind (atomically f) k) Q.
Proof. intros H n _. apply H. Qed.

Lemma guar_wait {A B} `{!Flight A} looks e tr (k : A → B) c : guar eq (wait looks e tr k c).
Proof.
  induction looks as [|l IH]; [done|]. cbn [wait]. apply guar_bind; [by split|]. intros [a|]; [done|apply IH].
Qed.

(** The deferred close and removal, for either map. *)
Lemma fobeys_deferred {A B} `{!Flight A} id tr (a : A) (b : B) :
  (∀ f n, get_flight (put_flight f n) = f) →
  fobeys get_flight (FOwn id tr) (deferred id tr a b) (λ m _, m = FFree).
Proof.
  intros Hput. unfold deferred, close_done, leave. simpl. intros n _. exists (FClosed id tr).
  split; [split_and!; [done..|]; exists a; apply Hput|]. intros n1 _. exists FFree. split; [apply Hput|done].
Qed.

(** Joining: as a waiter nothing changes; as the worker the own tracker is open. *)
Lemma fobeys_join {A B} `{!Flight A} id (k : nat + nat → nprog B) Q :
  (∀ f n, get_flight (put_flight f n) = f) →
  (∀ tr, fobeys get_flight FFree (k (inl tr)) Q) → (∀ tr, fobeys get_flight (FOwn id tr) (k (inr tr)) Q) →
  fobeys get_flight FFree (pbind (join id) k) Q.
Proof.
  intros Hput Hw Ho. unfold join. simpl. intros n _. unfold fl_join.
  destruct (fl_map (get_flight n) !! id) as [tr|] eqn:E.
  - exists FFree. split; [apply Hput|apply Hw].
  - exists (FOwn id (length (fl_trackers (get_flight n)))). split; [|apply Ho].
    simpl. split_and!; [done..|]. rewrite Hput. unfold fl_join. by rewrite E.
Qed.

Lemma fobeys_ensure p l e id : fobeys (get_flight (A := res CNIResult)) FFree (ensureNetworkResourcesCNI p l e id) (λ m _, m = FFree).
Proof.
  unfold ensureNetworkResourcesCNI, cached. apply fobeys_act. intros n. exists FFree. split; [done|]. cbn [fst].
  destruct (n_results n !! id) as [r|]; [done|]. apply (fobeys_join (A := res CNIResult)); [done| |].
  - intros tr. eapply (fobeys_guar (get_flight (A := res CNIResult)) FFree); [by intros ?? ->|done|apply guar_wait].
  - intros tr. apply obeys_bind. eapply obeys_mono; [|eapply fobeys_guar; [|done|apply outside_performCNISetup]];
      [|by intros ?? (? & _)].
    intros m [x|x] ->; cbv beta iota; apply fobeys_act; intros n1; (exists (FOwn id tr); split; [done|]).
    + apply fobeys_act. intros n2. exists (FOwn id tr). split; [done|]. by apply (fobeys_deferred (A := res CNIResult)).
    + by apply (fobeys_deferred (A := res CNIResult)).
Qed.

Lemma fobeys_release p l e id : fobeys (get_flight (A := CleanupResult)) FFree (releaseNetworkResourcesCNI p l e id) (λ m _, m = FFree).
Proof.
  unfold releaseNetworkResourcesCNI. apply (fobeys_join (A := CleanupResult)); [done| |].
  - intros tr. eapply (fobeys_guar (get_flight (A := CleanupResult)) FFree); [by intros ?? ->|done|apply guar_wait].
  - intros tr. apply obeys_bind. eapply obeys_mono; [|eapply fobeys_guar; [|done|apply no_flight_performCNITeardown]];
      [|by intros ?? [_ ?]].
    intros m x ->. cbv beta. apply fobeys_act. intros n1. exists (FOwn id tr). split; [done|].
    by apply (fobeys_deferred (A := CleanupResult)).
Qed.

(** Neither call touches the other's map. *)
Lemma guar_ensure_other p l e id : guar (λ n n', n_teardown n' = n_teardown n) (ensureNetworkResourcesCNI p l e id).
Proof.
  unfold ensureNetworkResourcesCNI, cached, join, record_, deferred, close_done, leave.
  repeat first [eapply (guar_mono outside); [by intros ?? (? & ? & _)|apply outside_performCNISetup]
    | eapply (guar_mono eq); [by intros ?? ->|apply guar_wait] | guar_step]; try done.
  by destruct (fl_join _ _).
Qed.

Lemma guar_release_other p l e id : guar (λ n n', n_setup n' = n_setup n) (releaseNetworkResourcesCNI p l e id).
Proof.
  unfold releaseNetworkResourcesCNI, join, record_, deferred, close_done, leave.
  repeat first [eapply (guar_mono no_flight); [by intros ?? [? _]|apply no_flight_performCNITeardown]
    | eapply (guar_mono eq); [by intros ?? ->|apply guar_wait] | guar_step]; try done.
  by destruct (fl_join _ _).
Qed.

Lemma fobeys_perform_setup p c :
  fobeys (get_flight (A := res CNIResult)) FFree (perform p c) (λ m _, m = FFree).
Proof.
  destruct c as [l e id|l e id]; unfold perform; apply obeys_bind.
  - eapply obeys_mono; [|apply fobeys_ensure]. by intros m a ->.
  - eapply obeys_mono; [|eapply (fobeys_guar (get_flight (A := res CNIResult)) FFree); [|done|apply guar_release_other]];
      [by intros m a ->|done].
Qed.

Lemma fobeys_perform_teardown p c :
  fobeys (get_flight (A := CleanupResult)) FFree (perform p c) (λ m _, m = FFree).
Proof.
  destruct c as [l e id|l e id]; unfold perform; apply obeys_bind.
  - eapply obeys_mono; [|eapply (fobeys_guar (get_flight (A := CleanupResult)) FFree); [|done|apply guar_ensure_other]];
      [by intros m a ->|done].
  - eapply obeys_mono; [|apply fobeys_release]. by intros m a ->.
Qed.

(** What single flight means for one of the maps: no channel is closed twice, at
    most one tracker per ID is open, and none is left when every call returned. *)
Definition single_flight {A} (f : flight A) (all_returned : Prop) : Prop :=
  fl_panic f = false ∧
  (∀ id tr tr', fl_trackers f !! tr = Some (id, None) → fl_trackers f !! tr' = Some (id, None) → tr = tr') ∧
  (all_returned → fl_map f = ∅ ∧ ∀ tr id, fl_trackers f !! tr ≠ Some (id, None)).

Lemma pool_single_flight {A} `{!Flight A} p cs conf h n ts :
  (∀ c, fobeys (get_flight (A := A)) FFree (perform p c) (λ m _, m = FFree)) →
  get_flight (newManager conf h) = mkFlight ∅ [] false →
  rtc pstep (newManager conf h, perform p <$> cs) (n, ts) →
  single_flight (get_flight (A := A) n) (Forall (λ t, is_Some (done_with t)) ts).
Proof.
  intros Hob Hnew Hr.
  destruct (explained_rtc (fstep get_flight) (λ _ _, True) (λ m (_ : nresult), m = FFree) (finv (get_flight (A := A)))
    (λ _ _ _ _ _ _, I) (λ n n' ms i m m', finv_step get_flight n n' ms i m m')
    (newManager conf h, perform p <$> cs) (n, ts)) as (ms & HI & Hf2); [|done|].
  { exists (replicate (length cs) FFree). split.
    - simpl. constructor; rewrite ?Hnew; simpl; try done.
      + by intros i m [-> _]%lookup_replicate.
      + intros i j m m' id tr [-> _]%lookup_replicate. done.
    - simpl. clear -Hob. induction cs as [|c cs IH]; simpl; by constructor. }
  simpl in *. destruct HI as [Hp Hm Hmap Ho Ha]. split; [done|]. split.
  - intros id tr tr' H1 H2. destruct (Ho _ _ H1) as [i Hi], (Ho _ _ H2) as [j Hj].
    destruct (Hm i _ Hi) as [Ht _], (Hm j _ Hj) as [Ht' _]. congruence.
  - intros Hall. assert (Hfree : ∀ i m, ms !! i = Some m → m = FFree).
    { intros i m Hi. destruct (Forall2_lookup_l _ _ _ _ _ Hf2 Hi) as (t & Ht & Hobs).
      rewrite Forall_lookup in Hall. destruct (Hall i t Ht) as [a Hd]. destruct t; [done|by simpl in Hd]. }
    split.
    + apply map_empty. intros id. destruct (fl_map (get_flight n) !! id) as [tr|] eqn:E; [|done].
      destruct (Hmap id tr E) as (i & m & Hi & Hh). rewrite (Hfree i m Hi) in Hh. done.
    + intros tr id H. destruct (Ho tr id H) as [i Hi]. by pose proof (Hfree i _ Hi).
Qed.

(** C13: Under any interleaving of set-up and release calls, at most one set-up
    and at most one teardown per container is in progress, no done channel
    is closed twice, and when all calls have returned none is left
    registered. *)
Theorem one_worker_per_container p cs conf h n ts :
  rtc pstep (newManager conf h, perform p <$> cs) (n, ts) →
  single_flight (n_setup n) (Forall (λ t, is_Some (done_with t)) ts) ∧
  single_flight (n_teardown n) (Forall (λ t, is_Some (done_with t)) ts).
Proof.
  intros Hr. split.
  - apply (pool_single_flight p cs conf h n ts (fobeys_perform_setup p)); done.
  - apply (pool_single_flight p cs conf h n ts (fobeys_perform_teardown p)); done.
Qed.

(** ** Every answer comes from the plugins

    [obtained n id r]: [r] is what some successful ADD for [id] reported. *)
Definition obtained (n : manager) (id : string) (r : CNIResult) : Prop :=
  ∃ raw mac netns, (id, raw) ∈ h_adds (n_host n) ∧ ParseCNIResultWithNetNS mac raw netns = Ok r.

(** What a call knows so far: its tracker, the plugins' answer, its result. *)
Record know := mkKnow { k_id : string; k_tr : option nat; k_raw : option Result; k_res : option CNIResult }.

Definition tracks (n : manager) (id : string) (tr : nat) : Prop := ∃ a, fl_trackers (n_setup n) !! tr = Some (id, a).

Definition kfact (k : know) (n : manager) : Prop :=
  (∀ tr, k_tr k = Some tr → tracks n (k_id k) tr) ∧
  (∀ raw, k_raw k = Some raw → (k_id k, raw) ∈ h_adds (n_host n)) ∧
  (∀ r, k_res k = Some r → obtained n (k_id k) r).

Definition kinv (n : manager) : Prop :=
  (∀ id r, n_results n !! id = Some r → obtained n id r) ∧
  (∀ tr id r, fl_trackers (n_setup n) !! tr = Some (id, Some (Ok r)) → obtained n id r) ∧
  (∀ id tr, fl_map (n_setup n) !! id = Some tr → tracks n id tr).

Definition kmono (n n' : manager) : Prop :=
  (∀ x, x ∈ h_adds (n_host n) → x ∈ h_adds (n_host n')) ∧ (∀ id tr, tracks n id tr → tracks n' id tr).

Lemma obtained_mono n n' id r : kmono n n' → obtained n id r → obtained n' id r.
Proof. intros [Hm _] (raw & mac & ns & Hin & Hp). exists raw, mac, ns. eauto. Qed.

Lemma kfact_mono k n n' : kmono n n' → kfact k n → kfact k n'.
Proof.
  intros Hm (H1 & H2 & H3). split_and!; [|intros raw Hr; by apply Hm, H2|intros r Hr; by eapply obtained_mono, H3].
  intros tr Ht. by apply Hm, H1.
Qed.

Definition kstep (k : know) (n n' : manager) (k' : know) : Prop :=
  (kmono n n' ∧ k_id k' = k_id k) ∧ (kinv n → kfact k n → kinv n' ∧ kfact k' n').
Definition kpre (k : know) (n : manager) : Prop := kinv n ∧ kfact k n.
Abbreviation kobeys := (obeys kstep kpre).

(** Steps that record nothing new. *)
Definition kquiet (n n' : manager) : Prop :=
  (∀ x, x ∈ h_adds (n_host n) → x ∈ h_adds (n_host n')) ∧ n_setup n' = n_setup n ∧
  (∀ id r, n_results n' !! id = Some r → n_results n !! id = Some r).

Lemma kquiet_mono n n' : kquiet n n' → kmono n n'.
Proof. intros (Ha & Hs & _). split; [done|]. unfold tracks. by rewrite Hs. Qed.

Lemma kquiet_inv n n' : kquiet n n' → kinv n → kinv n'.
Proof.
  intros Hq (H1 & H2 & H3). pose proof (kquiet_mono _ _ Hq) as Hm. destruct Hq as (Ha & Hs & Hr). split_and!.
  - intros id r H. eapply obtained_mono; [done|]. by apply H1, Hr.
  - intros tr id r H. rewrite Hs in H. eapply obtained_mono; [done|]. by eapply H2.
  - intros id tr H. rewrite Hs in H. by apply Hm, H3.
Qed.

Lemma kquiet_step k n n' : kquiet n n' → kstep k n n' k.
Proof.
  intros Hq. split; [split; [by apply kquiet_mono|done]|]. intros Hi Hf. split; [by eapply kquiet_inv|].
  eapply kfact_mono; [by apply kquiet_mono|done].
Qed.

Lemma kobeys_quiet {B} k (q : nprog B) : guar kquiet q → kobeys k q (λ k' _, k' = k).
Proof. intros Hq. eapply guar_obeys; [|exact Hq]. intros n n' _ H. by apply kquiet_step. Qed.

Lemma kobeys_quiet_bind {B C} k (q : nprog B) (f : B → nprog C) Q :
  guar kquiet q → (∀ b, kobeys k (f b) Q) → kobeys k (pbind q f) Q.
Proof.
  intros Hq Hf. apply obeys_bind. eapply obeys_mono; [|by apply kobeys_quiet]. intros k' b ->. apply Hf.
Qed.

Lemma kobeys_host {B C} k (f : host → B * host) (g : B → nprog C) Q :
  (∀ n, ∃ k', kstep k n (with_host (f (n_host n)).2 n) k' ∧ kobeys k' (g (f (n_host n)).1) Q) →
  kobeys k (pbind (on_host f) g) Q.
Proof.
  intros H n _. destruct (H n) as (k' & Hs & Hk). exists k'. simpl. destruct (f (n_host n)) as [b h]. by split.
Qed.

(** A host call after which the host has at least the same ADD answers. *)
Lemma kquiet_host {A} (f : host → A * host) :
  (∀ h, ∀ x, x ∈ h_adds h → x ∈ h_adds (f h).2) → guar kquiet (on_host f).
Proof.
  intros Hf. split; [|done]. intros n. simpl. specialize (Hf (n_host n)).
  destruct (f (n_host n)) as [a h]. by split_and!.
Qed.

Section answers.
Context (p : plugins).

Ltac khost := lazymatch goal with
  | |- guar kquiet (on_host _) => apply kquiet_host; intros; simpl; repeat case_match; simpl; done
  end.
Ltac kq := repeat first [khost | guar_step]; try done.

Lemma kquiet_DeleteNetNS id : guar kquiet (DeleteNetNS p id).
Proof. unfold DeleteNetNS. kq. Qed.
Lemma kquiet_CreateNetNS id : guar kquiet (CreateNetNS p id).
Proof. unfold CreateNetNS, NetNSExists, DeleteNetNS. kq. Qed.
Lemma kquiet_DelNetworkList id ns : guar kquiet (DelNetworkList p id ns).
Proof. unfold DelNetworkList. kq. Qed.
Lemma kquiet_getNetworkConfig : guar kquiet getNetworkConfig.
Proof. unfold getNetworkConfig. kq. Qed.
Lemma kquiet_teardownLocked id ns : guar kquiet (teardownLocked p id ns).
Proof. unfold teardownLocked, getNetworkConfig, DelNetworkList. kq. Qed.
Lemma kquiet_Teardown id ns : guar kquiet (Teardown p id ns).
Proof. unfold Teardown, with_lock. kq. apply kquiet_teardownLocked. Qed.
Lemma kquiet_orphan id : guar kquiet (attemptOrphanCleanup p id).
Proof.
  unfold attemptOrphanCleanup. cbv zeta. apply guar_bind; [kq|]. intros now.
  apply guar_bind; [apply kquiet_CreateNetNS|]. intros [path|e]; [|done].
  apply guar_bind; [apply kquiet_Teardown|]. intros _. apply guar_bind; [apply kquiet_DeleteNetNS|done].
Qed.

Definition with_raw (raw : Result) (k : know) : know := mkKnow (k_id k) (k_tr k) (Some raw) (k_res k).
Definition with_res (r : CNIResult) (k : know) : know := mkKnow (k_id k) (k_tr k) (k_raw k) (Some r).

Definition raw_post (k k' : know) (r : res Result) : Prop :=
  match r with Ok x => k' = with_raw x k | Err _ => k' = k end.

Lemma kobeys_add k ns : kobeys k (AddNetworkList p (k_id k) ns) (raw_post k).
Proof.
  intros n _. simpl. destruct (p_add p (n_host n) (k_id k) ns) as [r|e partial]; simpl.
  - exists (with_raw r k). split; [|done]. assert (Hm : kmono n (with_host (add_added (k_id k, r)
      (logged (OAdd (k_id k) ns) true (set_alloc ({[k_id k]} ∪ h_alloc (n_host n)) (n_host n)))) n)).
    { split; [simpl; set_solver|done]. }
    split; [done|]. intros (H1 & H2 & H3) Hf. split.
    + split_and!; [intros id r0 H; eapply obtained_mono; [exact Hm|by apply H1]
        |intros tr id r0 H; eapply obtained_mono; [exact Hm|by eapply H2]|intros id tr H; by apply Hm, H3].
    + destruct (kfact_mono _ _ _ Hm Hf) as (F1 & _ & F3). split_and!; [done| |done].
      intros raw [= <-]. simpl. set_solver.
  - exists k. split; [|done]. apply kquiet_step. destruct partial; by split_and!.
Qed.

Lemma kobeys_attempts left first k ns e : kobeys k (add_attempts p left first (k_id k) ns e) (raw_post k).
Proof.
  revert first e. induction left as [|l IH]; intros first e; cbn [add_attempts]; [done|].
  apply kobeys_quiet_bind; [unfold DelNetworkList, ctx_ended; kq|]. intros [c|]; [done|].
  apply obeys_bind. eapply obeys_mono; [|apply kobeys_add]. intros k' [x|x] Hk; [done|]. simpl in Hk. subst k'. apply IH.
Qed.

Lemma kobeys_execPluginChain k ns : kobeys k (execPluginChain p (k_id k) ns) (λ k' r,
  k_id k' = k_id k ∧ k_tr k' = k_tr k ∧ ∀ x, r = Ok x → k_raw k' = Some x).
Proof.
  unfold execPluginChain. apply obeys_bind. eapply obeys_mono; [|apply kobeys_attempts].
  intros k' [x|x] Hk; simpl in Hk; subst k'; [|done]. destruct (p_convert p x).
  - apply kobeys_quiet_bind; [apply kquiet_DelNetworkList|]. by intros _.
  - simpl. split_and!; [done..|]. by intros ? [= <-].
Qed.

Definition res_post (id : string) (tr : option nat) (k : know) (r : res CNIResult) : Prop :=
  k_id k = id ∧ k_tr k = tr ∧ ∀ y, r = Ok y → k_res k = Some y.

Lemma kobeys_setupLocked k ns : kobeys k (setupLocked p (k_id k) ns) (res_post (k_id k) (k_tr k)).
Proof.
  unfold setupLocked. apply kobeys_quiet_bind; [apply kquiet_getNetworkConfig|]. intros [name|e]; [|by split_and!].
  apply obeys_bind. eapply obeys_mono; [|apply kobeys_execPluginChain]. intros k' [x|x] (Hid & Htr & Hraw); [|by split_and!].
  specialize (Hraw x eq_refl). cbv beta iota. apply kobeys_host. intros n. cbn [fst snd].
  destruct (ParseCNIResultWithNetNS (p_mac p (n_host n) ns) x ns) as [y|e] eqn:Hy.
  - exists (with_res y k'). split; [|split_and!; [done..|by intros ? [= <-]]].
    assert (Hq : kquiet n (with_host (n_host n) n)) by (by split_and!).
    destruct (kquiet_step k' _ _ Hq) as [Hm Hk]. split; [done|]. intros Hi Hf. destruct (Hk Hi Hf) as [Hi' (F1 & F2 & F3)].
    split; [done|]. split_and!; [done..|]. intros r [= <-]. exists x, (p_mac p (n_host n) ns), ns. split; [by apply F2|done].
  - exists k'. split; [by apply kquiet_step|]. apply kobeys_quiet_bind; [apply kquiet_teardownLocked|]. by intros _; split_and!.
Qed.

Lemma kobeys_setup_failed k id tr e : k_id k = id → k_tr k = tr →
  kobeys k (_ <- DeleteNetNS p id ;;
    if decide (ekind e = ErrCNI ResourceConflict) then
      _ <- attemptOrphanCleanup p id ;;
      Ret (Err (wrap "setup CNI network (resource conflict - orphaned resources from previous run?)" e))
    else Ret (Err (wrap ("setup CNI network for " +:+ id) e))) (res_post id tr).
Proof.
  intros Hid Htr. apply kobeys_quiet_bind; [apply kquiet_DeleteNetNS|]. intros _. destruct (decide _); [|by split_and!].
  apply kobeys_quiet_bind; [apply kquiet_orphan|]. by intros _; split_and!.
Qed.

Lemma kobeys_performCNISetup k : kobeys k (performCNISetup p (k_id k)) (res_post (k_id k) (k_tr k)).
Proof.
  unfold performCNISetup. apply kobeys_quiet_bind; [apply kquiet_CreateNetNS|]. intros [ns|e]; [|by split_and!].
  apply obeys_bind. unfold Setup, with_lock. apply kobeys_quiet_bind; [kq|].
  intros [e|]; [by apply (kobeys_setup_failed k (k_id k) (k_tr k) e)|].
  eapply obeys_mono; [|apply kobeys_setupLocked].
  intros k' [x|e] (Hid & Htr & Hres); [by split_and!|by apply kobeys_setup_failed].
Qed.

(** Waiting on a tracker of [id] yields a result obtained for [id]. *)
Lemma kobeys_wait looks e id tr k : k_id k = id → k_tr k = Some tr →
  kobeys k (wait looks e tr (λ r : res CNIResult, r) Err) (λ k' r, k_id k' = id ∧ ∀ y, r = Ok y → k_res k' = Some y).
Proof.
  intros Hid Htr. induction looks as [|l IH]; cbn [wait]; [done|]. intros n [Hi Hf].
  cbn [fst snd]. change (get_flight n) with (n_setup n). destruct (fl_result tr (n_setup n)) as [r|] eqn:Hr.
  - exists (match r with Ok y => with_res y k | Err _ => k end). split; [|destruct r; (split; [done|]); intros ? [=]; by subst].
    split; [split; [by split|by destruct r]|]. intros _ _. split; [done|]. destruct r as [y|]; [|done]. destruct Hf as (F1 & F2 & F3).
    split_and!; [done..|]. intros ? [= <-]. simpl. destruct (F1 tr Htr) as [a Ha]. unfold fl_result in Hr.
    rewrite Ha in Hr. simpl in Hr. subst a. destruct Hi as (_ & H2 & _). by eapply H2.
  - exists k. split; [by apply kquiet_step|apply IH].
Qed.
End answers.

(** Closing the own tracker with an obtained result, and leaving. *)
Lemma kobeys_deferred k id tr (r : res CNIResult) : k_id k = id → k_tr k = Some tr →
  (∀ y, r = Ok y → k_res k = Some y) →
  kobeys k (deferred id tr r r) (λ k' r', k_id k' = id ∧ ∀ y, r' = Ok y → k_res k' = Some y).
Proof.
  intros Hid Htr Hres. unfold deferred, close_done, leave. intros n [Hi Hf]. exists k. cbn [fst snd]. split.
  - change (get_flight n) with (n_setup n). destruct Hf as (F1 & F2 & F3).
    destruct (F1 tr Htr) as [a Ha]. rewrite Hid in Ha.
    assert (Hcl : ∀ tr' id' x, fl_trackers (fl_close tr r (n_setup n)) !! tr' = Some (id', x) →
      fl_trackers (n_setup n) !! tr' = Some (id', x) ∨ id' = id ∧ x = Some r).
    { intros tr' id' x. unfold fl_close. rewrite Ha. destruct a; simpl; [by left|].
      intros [(<- & [= <- <-] & _)|[_ ?]]%list_lookup_insert_Some; [by right|by left]. }
    assert (Hm : kmono n (put_flight (fl_close tr r (n_setup n)) n)).
    { split; [done|]. intros id' tr' [x Hx]. unfold tracks. simpl. unfold fl_close. rewrite Ha. destruct a; simpl; [eauto|].
      destruct (decide (tr' = tr)) as [->|Hne]; [|rewrite list_lookup_insert_ne by done; eauto].
      rewrite list_lookup_insert_eq by (by eapply lookup_lt_Some). rewrite Ha in Hx. simplify_eq. eauto. }
    split; [by split|]. intros (H1 & H2 & H3) Hf'. split; [split_and!|by eapply kfact_mono].
    + intros id' y H. eapply obtained_mono; [exact Hm|]. by apply H1.
    + intros tr' id' y [H|[-> [= <-]]]%Hcl; [eapply obtained_mono; [exact Hm|]; by eapply H2|].
      eapply obtained_mono; [exact Hm|]. rewrite <- Hid. by apply Hf', Hres.
    + intros id' tr' H. apply Hm, H3. simpl in H. unfold fl_close in H. rewrite Ha in H. by destruct a.
  - intros n1 [Hi1 Hf1]. exists k. split; [|by split]. split; [done|]. intros (H1 & H2 & H3) Hf'. split; [|done].
    split_and!; [done..|]. intros id' tr' H. simpl in H. apply lookup_delete_Some in H as [_ H]. by apply H3.
Qed.

Definition ens_post (id : string) (k : know) (r : res CNIResult) : Prop :=
  k_id k = id ∧ ∀ y, r = Ok y → k_res k = Some y.

Lemma kobeys_act {B C} k (f : manager → B * manager) (g : B → nprog C) Q :
  (∀ n, kpre k n → ∃ k', kstep k n (f n).2 k' ∧ kobeys k' (g (f n).1) Q) → kobeys k (pbind (atomically f) g) Q.
Proof. intros H n Hn. by apply H. Qed.

Lemma kobeys_worker p k id tr : k_id k = id → k_tr k = Some tr →
  kobeys k (r <- performCNISetup p id ;;
    match r with
    | Err e =>
        _ <- record_ (RecordSetup false (bool_decide (ekind e = ErrCNI ResourceConflict))) ;;
        deferred id tr (Err e : res CNIResult) (Err e : res CNIResult)
    | Ok x =>
        _ <- record_ (RecordSetup true false) ;;
        _ <- atomically (λ n, (tt, with_results (<[id := x]> (n_results n)) n)) ;;
        deferred id tr (Ok x) (Ok x)
    end) (ens_post id).
Proof.
  intros <- Htr. apply obeys_bind. eapply obeys_mono; [|apply kobeys_performCNISetup].
  intros k' r (Hid & Htr' & Hres). rewrite Htr in Htr'. rewrite <- Hid. destruct r as [x|e].
  - apply kobeys_quiet_bind; [by split|]. intros _. apply kobeys_act. intros n [Hi Hf]. exists k'. split.
    + split; [by split_and!|]. intros (H1 & H2 & H3) Hf'. split; [|done]. split_and!; [|done..].
      intros id' y H. simpl in H. apply lookup_insert_Some in H as [[<- <-]|[_ H]]; [by apply Hf, Hres|by apply H1].
    + by apply kobeys_deferred.
  - apply kobeys_quiet_bind; [by split|]. intros _. by apply kobeys_deferred.
Qed.

Lemma kobeys_ensure p l e id : kobeys (mkKnow id None None None) (ensureNetworkResourcesCNI p l e id) (ens_post id).
Proof.
  unfold ensureNetworkResourcesCNI, cached. apply kobeys_act. intros n [Hi Hf]. cbn [fst snd].
  destruct (n_results n !! id) as [r|] eqn:Hr.
  - exists (mkKnow id None None (Some r)). split; [|split; [done|by intros ? [= <-]]].
    split; [by split_and!|]. intros _ _. split; [done|]. split_and!; [done..|]. intros ? [= <-]. by apply Hi.
  - exists (mkKnow id None None None). split; [by apply kquiet_step|]. unfold join. apply kobeys_act.
    clear n Hi Hf Hr. intros n [Hi Hf]. change (get_flight n) with (n_setup n). unfold fl_join.
    destruct (fl_map (n_setup n) !! id) as [tr|] eqn:Htr; cbn [fst snd].
    + exists (mkKnow id (Some tr) None None). split; [|by apply kobeys_wait]. split; [by split_and!|]. intros _ _.
      split; [done|]. split_and!; [|done..]. intros ? [= <-]. by apply Hi.
    + set (tr := length (fl_trackers (n_setup n))). exists (mkKnow id (Some tr) None None).
      split; [|by apply kobeys_worker].
      assert (Hm : kmono n (put_flight (mkFlight (<[id:=tr]> (fl_map (n_setup n)))
        (fl_trackers (n_setup n) ++ [(id, None)]) (fl_panic (n_setup n))) n)).
      { split; [done|]. intros id' tr' [a Ha]. exists a. simpl. by apply lookup_app_l_Some. }
      assert (Hnew : tracks (put_flight (mkFlight (<[id:=tr]> (fl_map (n_setup n)))
        (fl_trackers (n_setup n) ++ [(id, None)]) (fl_panic (n_setup n))) n) id tr).
      { exists None. simpl. by rewrite list_lookup_middle. }
      split; [by split|]. intros (H1 & H2 & H3) _. split; [split_and!|].
      * intros id' y H. by eapply obtained_mono, H1.
      * intros tr' id' y H. simpl in H. apply lookup_app_Some in H as [H|[_ H]]; [by eapply obtained_mono, H2|].
        by apply list_lookup_singleton_Some in H as [_ [=]].
      * intros id' tr' H. simpl in H. apply lookup_insert_Some in H as [[<- <-]|[_ H]]; [done|]. by apply Hm, H3.
      * split_and!; [by intros ? [= <-]|done..].
Qed.

Lemma kquiet_release p l e id : guar kquiet (releaseNetworkResourcesCNI p l e id).
Proof.
  unfold releaseNetworkResourcesCNI, join, record_, deferred, close_done, leave. apply guar_bind.
  { split; [|done]. intros n. change (get_flight n) with (n_teardown n). by destruct (fl_join id (n_teardown n)). }
  intros [tr|tr]. { eapply (guar_mono eq); [|apply guar_wait]. by intros n ? <-. }
  apply guar_bind.
  - unfold performCNITeardown, NetNSExists, verifyIPAMCleanup, record_.
    repeat first [lazymatch goal with |- guar _ (CreateNetNS _ _) => apply kquiet_CreateNetNS
      | |- guar _ (Teardown _ _ _) => apply kquiet_Teardown | |- guar _ (DeleteNetNS _ _) => apply kquiet_DeleteNetNS
      | |- guar _ (on_host _) => by apply kquiet_host end | guar_step]; [done|].
    split_and!; [done..|]. intros id' r H. simpl in H. by apply lookup_delete_Some in H as [_ ?].
  - intros r. repeat guar_step; done.
Qed.

Definition call_id (c : ncall) : string := match c with CEnsure _ _ id | CRelease _ _ id => id end.
Definition knows_result (k : know) (r : nresult) : Prop := ∀ y, r = inl (Ok y) → k_res k = Some y.

Lemma kobeys_perform p c : kobeys (mkKnow (call_id c) None None None) (perform p c) knows_result.
Proof.
  destruct c as [l e id|l e id]; unfold perform.
  - apply obeys_bind. eapply obeys_mono; [|apply kobeys_ensure]. intros k r [_ Hr] y [= ->]. by auto.
  - apply kobeys_quiet_bind; [apply kquiet_release|done].
Qed.

(** The invariant of the pool: the calls keep their IDs. *)
Definition kpool (ids : list string) (n : manager) (ks : list know) : Prop :=
  kinv n ∧ (∀ i k, ks !! i = Some k → kfact k n) ∧ k_id <$> ks = ids.

Lemma kpool_step ids n n' ks i k k' : kpool ids n ks → ks !! i = Some k → kstep k n n' k' →
  kpool ids n' (<[i := k']> ks).
Proof.
  intros (Hi & Hf & Hids) Hk ((Hm & Hid) & Hs). destruct (Hs Hi (Hf i k Hk)) as [Hi' Hf']. split_and!; [done|..].
  - intros j x Hj. destruct (decide (j = i)) as [->|Hne].
    + rewrite list_lookup_insert_eq in Hj by (by eapply lookup_lt_Some). by simplify_eq.
    + rewrite list_lookup_insert_ne in Hj by done. eapply kfact_mono; [done|]. by apply (Hf j).
  - rewrite list_fmap_insert, Hid, Hids. apply list_insert_id. rewrite <- Hids, list_lookup_fmap, Hk. done.
Qed.

(** Every network configuration a set-up call answers, whether it did the set-
    up, waited for another or found it recorded, is what the plugins reported
    for that container. *)
Theorem ensure_answers_obtained p cs conf h n ts i l e id y :
  rtc pstep (newManager conf h, perform p <$> cs) (n, ts) →
  cs !! i = Some (CEnsure l e id) → ts !! i = Some (Ret (inl (Ok y))) →
  obtained n id y.
Proof.
  intros Hr Hc Ht.
  destruct (explained_rtc kstep kpre knows_result (kpool (call_id <$> cs))
    (λ n ks i k H Hi, conj (proj1 H) (proj1 (proj2 H) i k Hi)) (kpool_step (call_id <$> cs))
    (newManager conf h, perform p <$> cs) (n, ts)) as (ks & (Hi & Hf & Hids) & Hf2); [|done|].
  { exists ((λ c, mkKnow (call_id c) None None None) <$> cs). split.
    - split_and!; [by split_and!| |by rewrite <- list_fmap_compose].
      intros j k Hj. apply list_lookup_fmap_Some in Hj as (c & -> & _). by split_and!.
    - apply Forall2_fmap, Forall_Forall2_diag, Forall_forall. intros c _. apply kobeys_perform. }
  simpl in *. destruct (Forall2_lookup_r _ _ _ _ _ Hf2 Ht) as (k & Hk & Hpost).
  assert (k_id k = id) as <-.
  { assert ((k_id <$> ks) !! i = Some (k_id k)) as Hx by (by rewrite list_lookup_fmap, Hk).
    rewrite Hids, list_lookup_fmap, Hc in Hx. simpl in Hx. congruence. }
  by apply (Hf i k Hk), Hpost.
Qed.

(** ** A container's network is its own

    [spares id]: what belongs to [id] stays, whatever else is done. *)
Definition spares (id : string) (n n' : manager) : Prop :=
  n_results n' !! id = n_results n !! id ∧
  (id ∈ h_alloc (n_host n') ↔ id ∈ h_alloc (n_host n)) ∧
  (id ∈ h_netns (n_host n') ↔ id ∈ h_netns (n_host n)).

(** The names a call for [id'] uses: its own and those of its temporary namespaces. *)
Definition unrelated (id id' : string) : Prop := id ≠ id' ∧ ∀ t, id ≠ id' +:+ "-cleanup-" +:+ t.

Section spares.
Context (p : plugins) (id : string).

Ltac sp_host := lazymatch goal with
  | |- guar (spares _) (on_host _) =>
      split; [|done]; intros n; simpl; repeat case_match; unfold spares; simpl; split_and!; try done; set_solver
  end.
Ltac sp := repeat first [sp_host | guar_step]; try done.

Lemma spares_DeleteNetNS x : id ≠ x → guar (spares id) (DeleteNetNS p x).
Proof. intros Hx. unfold DeleteNetNS. sp. Qed.
Lemma spares_CreateNetNS x : id ≠ x → guar (spares id) (CreateNetNS p x).
Proof. intros Hx. unfold CreateNetNS, NetNSExists, DeleteNetNS. sp. Qed.
Lemma spares_Del x ns : id ≠ x → guar (spares id) (DelNetworkList p x ns).
Proof. intros Hx. unfold DelNetworkList. sp. Qed.
Lemma spares_teardownLocked x ns : id ≠ x → guar (spares id) (teardownLocked p x ns).
Proof. intros Hx. unfold teardownLocked, getNetworkConfig, DelNetworkList. sp. Qed.
Lemma spares_Teardown x ns : id ≠ x → guar (spares id) (Teardown p x ns).
Proof. intros Hx. unfold Teardown, with_lock. apply guar_bind; [sp|]. intros [?|]; [done|by apply spares_teardownLocked]. Qed.

Lemma spares_attempts left first x ns e : id ≠ x → guar (spares id) (add_attempts p left first x ns e).
Proof.
  intros Hx. revert first e. induction left as [|l IH]; intros first e; cbn [add_attempts]; [done|].
  apply guar_bind; [unfold DelNetworkList, ctx_ended; sp|]. intros [?|]; [done|].
  apply guar_bind; [unfold AddNetworkList; sp|]. intros [?|?]; [done|apply IH].
Qed.

Lemma spares_Setup x ns : id ≠ x → guar (spares id) (Setup p x ns).
Proof.
  intros Hx. unfold Setup, with_lock, setupLocked, execPluginChain, getNetworkConfig.
  apply guar_bind; [sp|]. intros [?|]; [done|]. apply guar_bind; [sp|]. intros [name|?]; [|done].
  apply guar_bind; [apply guar_bind; [by apply spares_attempts|]|].
  - intros [r|?]; [|done]. destruct (p_convert p r); [|done]. apply guar_bind; [by apply spares_Del|done].
  - intros [r|?]; [|done]. apply guar_bind; [sp|]. intros [?|?]; [done|].
    apply guar_bind; [by apply spares_teardownLocked|done].
Qed.

Lemma spares_performCNISetup x : unrelated id x → guar (spares id) (performCNISetup p x).
Proof.
  intros [Hx Ht]. unfold performCNISetup, attemptOrphanCleanup. cbv zeta.
  apply guar_bind; [by apply spares_CreateNetNS|]. intros [path|?]; [|done].
  apply guar_bind; [by apply spares_Setup|]. intros [?|e]; [done|].
  apply guar_bind; [by apply spares_DeleteNetNS|]. intros _. destruct (decide _); [|done].
  apply guar_bind; [|done]. apply guar_bind; [sp|]. intros now. apply guar_bind; [apply spares_CreateNetNS, Ht|].
  intros [cp|?]; [|done]. apply guar_bind; [by apply spares_Teardown|]. intros _.
  apply guar_bind; [apply spares_DeleteNetNS, Ht|done].
Qed.

Lemma spares_performCNITeardown x : id ≠ x → guar (spares id) (performCNITeardown p x).
Proof.
  intros Hx. unfold performCNITeardown, NetNSExists, verifyIPAMCleanup, record_.
  repeat first [lazymatch goal with |- guar _ (CreateNetNS _ _) => by apply spares_CreateNetNS
      | |- guar _ (Teardown _ _ _) => by apply spares_Teardown
      | |- guar _ (DeleteNetNS _ _) => by apply spares_DeleteNetNS end | sp_host | guar_step]; try done.
  unfold spares. simpl. by rewrite lookup_delete_ne.
Qed.

Lemma spares_perform c : unrelated id (call_id c) → guar (spares id) (perform p c).
Proof.
  destruct c as [l e x|l e x]; simpl call_id; intros Hx; unfold perform;
    unfold ensureNetworkResourcesCNI, releaseNetworkResourcesCNI, cached, join, record_, deferred, close_done, leave.
  - apply guar_bind; [|done]. apply guar_bind; [by split|]. intros [r|]; [done|]. apply guar_bind.
    { split; [|done]. intros n. simpl. by destruct (fl_join _ _). }
    intros [tr|tr]; [eapply (guar_mono eq); [|apply guar_wait]; by intros n ? <-|].
    apply guar_bind; [by apply spares_performCNISetup|]. intros [y|e'].
    + repeat guar_step; try done. unfold spares. simpl. rewrite lookup_insert_ne; [done|]. intros ->. by destruct Hx.
    + repeat guar_step; done.
  - apply guar_bind; [|done]. apply guar_bind.
    { split; [|done]. intros n. simpl. by destruct (fl_join _ _). }
    intros [tr|tr]; [eapply (guar_mono eq); [|apply guar_wait]; by intros n ? <-|].
    apply guar_bind; [by apply spares_performCNITeardown, Hx|]. intros r. repeat guar_step; done.
Qed.
End spares.

#[export] Instance spares_preorder id : PreOrder (spares id).
Proof.
  split; [by intros n|]. intros n1 n2 n3 (H1 & H2 & H3) (G1 & G2 & G3). unfold spares. by rewrite G1, G2, G3.
Qed.

(** No interleaving of calls for other containers touches a container's
    recorded result, its allocated resources or its network namespace. *)
Theorem calls_spare_other_containers p cs id n n' ts :
  Forall (λ c, unrelated id (call_id c)) cs →
  rtc pstep (n, perform p <$> cs) (n', ts) →
  spares id n n'.
Proof.
  intros Hcs Hr. pose proof (pool_rtc (spares id) (n, perform p <$> cs) (n', ts)) as H. simpl in H.
  assert (Hrt : rtc (spares id) n n').
  { apply H; [|done]. apply Forall_fmap. eapply Forall_impl; [exact Hcs|]. intros c Hc. by apply spares_perform. }
  clear -Hrt. induction Hrt; [done|]. by etrans.
Qed.

(** ** A successful release leaves nothing *)

#[export] Instance outside_preorder : PreOrder outside.
Proof.
  split; [by intros n|]. intros n1 n2 n3 (H1 & H2 & H3 & H4) (G1 & G2 & G3 & G4). unfold outside. split_and!; congruence.
Qed.

Lemma run_outside {A} (q : nprog A) n : guar outside q → outside n (run q n).2.
Proof. intros Hq. pose proof (run_guar outside q n Hq) as H. induction H; [done|]. by etrans. Qed.

Section release.
Context (p : plugins) (id : string).

Lemma run_Teardown ns n : is_Some (n_conf n) →
  (run (Teardown p id ns) n).1 = None → id ∉ h_alloc (n_host (run (Teardown p id ns) n).2).
Proof.
  intros [c Hc]. unfold Teardown, with_lock, teardownLocked, getNetworkConfig, DelNetworkList, on_host. simpl.
  destruct (p_lock p (n_host n)); simpl; [done|]. rewrite Hc. simpl. destruct (p_del p (n_host n) id ns); simpl; [done|].
  set_solver.
Qed.

(** [performCNITeardown] after the DEL. *)
Definition after_teardown (td nserr : option error) : nprog CleanupResult :=
  ipam <- verifyIPAMCleanup p id ;;
  _ <- (if bool_decide (is_Some ipam) then record_ RecordIPAMLeak else Ret tt) ;;
  d <- DeleteNetNS p id ;;
  _ <- atomically (λ n, (tt, with_results (delete id (n_results n)) n)) ;;
  Ret (mkCleanup td (match d with Some e => Some e | None => nserr end) ipam true).

Lemma run_after_teardown td nserr n : let r := run (after_teardown td nserr) n in
  n_results r.2 = delete id (n_results n) ∧ h_alloc (n_host r.2) = h_alloc (n_host n) ∧
  (HasError r.1 = false → td = None ∧ (id ∉ h_netns (n_host r.2))).
Proof.
  unfold after_teardown, verifyIPAMCleanup, DeleteNetNS, record_, on_host. simpl.
  set (ipam := match p_ipam p (n_host n) with Some _ => _ | None => _ end).
  destruct (bool_decide (is_Some ipam)); simpl; destruct (p_rmns p (n_host n) id); simpl;
    (split; [done|]; split; [done|]); unfold HasError; simpl; rewrite !orb_false_iff, !bool_decide_eq_false;
    intros [[E1 E2] E3]; try (by destruct E2; eauto); (split; [|set_solver]); (destruct td; [by destruct E1; eauto|done]).
Qed.

Lemma run_performCNITeardown n : is_Some (n_conf n) →
  let r := run (performCNITeardown p id) n in
  n_results r.2 = delete id (n_results n) ∧
  (HasError r.1 = false → (id ∉ h_netns (n_host r.2)) ∧ (id ∉ h_alloc (n_host r.2))).
Proof.
  intros Hc. unfold performCNITeardown. cbv zeta.
  rewrite run_bind. pose proof (run_outside (NetNSExists id) n (outside_host _)) as H1.
  destruct (run (NetNSExists id) n) as [ex n1]. simpl in H1.
  rewrite run_bind. set (q := if ex then _ else _). assert (H2 : outside n1 (run q n1).2).
  { apply run_outside. unfold q. destruct ex; [done|]. apply guar_bind; [apply outside_CreateNetNS|done]. }
  destruct (run q n1) as [[path nserr] n2]. simpl in H2.
  assert (Hc2 : is_Some (n_conf n2)). { destruct H1 as (_ & _ & _ & ?), H2 as (_ & _ & _ & ?). congruence. }
  rewrite run_bind. pose proof (run_Teardown path n2 Hc2) as Ht. pose proof (run_outside _ n2 (outside_Teardown p id path)) as H3.
  cbn [fst snd]. destruct (run (Teardown p id path) n2) as [td n3]. simpl in Ht, H3.
  pose proof (run_after_teardown td nserr n3) as (Hr & Ha & Hx). fold (after_teardown td nserr). split.
  - destruct H1 as (_ & _ & R1 & _), H2 as (_ & _ & R2 & _), H3 as (_ & _ & R3 & _). congruence.
  - intros He. destruct (Hx He) as [-> ?]. split; [done|]. rewrite Ha. by apply Ht.
Qed.
End release.

(** A release run alone forgets the container's result whatever fails, and
    when it reports success the container has no network namespace and the
    plugins hold nothing for it. *)
Theorem release_leaves_nothing p l e id n :
  fl_map (n_teardown n) !! id = None → is_Some (n_conf n) →
  let r := run (releaseNetworkResourcesCNI p l e id) n in
  n_results r.2 !! id = None ∧ fl_map (n_teardown r.2) !! id = None ∧
  (r.1 = None → (id ∉ h_netns (n_host r.2)) ∧ (id ∉ h_alloc (n_host r.2))).
Proof.
  intros Hno Hc. unfold releaseNetworkResourcesCNI, join. cbv zeta. rewrite run_bind. cbn [run atomically].
  change (get_flight n) with (n_teardown n). unfold fl_join. rewrite Hno. cbn [run fst snd]. rewrite run_bind.
  set (n1 := put_flight _ n). pose proof (run_performCNITeardown p id n1 Hc) as [Hr Hx].
  destruct (run (performCNITeardown p id) n1) as [cr n2]. cbn [fst snd] in Hr, Hx. unfold record_, deferred, close_done, leave. simpl.
  split_and!.
  - rewrite Hr. apply lookup_delete_eq.
  - unfold fl_leave. simpl. apply lookup_delete_eq.
  - unfold cleanup_Err. destruct (HasError cr); [done|]. intros _. by apply Hx.
Qed.

(** ** Two set-ups of one container *)

Definition tap_result : Result :=
  mkResult [mkIface "tap0" "52:54:00:12:34:56" "/var/run/netns/c1"] [mkIP "10.0.0.2" (Some "255.255.255.0") "10.0.0.1"].

(** Plugins that always succeed. *)
Definition working : plugins :=
  mkPlugins (λ _, None) (λ _ _, NsOk) (λ _ _, None) (λ _, None) (λ _ _ _, AddOk tap_result) (λ _ _ _, None) (λ _, None)
    (λ _, None) (λ _ _ _, Err (mkError ErrUnknown "no MAC")) (λ _, None) (λ _, 0%Z).

Definition no_host : host := mkHost ∅ ∅ [] [].
Definition manager0 : manager := newManager (Some "spin") no_host.
Definition ctx_err : error := mkError ErrCanceled "context canceled".
Definition ensure_c1 : ncall := CEnsure 5 ctx_err "c1".

(** The second caller looks at the results before the first one stores its own,
    and at the calls in progress after the first one has left them. *)
Lemma duplicate_setup_race :
  let c := sched ([1] ++ replicate 13 0 ++ replicate 14 1) (manager0, perform working <$> [ensure_c1; ensure_c1]) in
  Forall (λ t, is_Some (done_with t)) c.2 ∧
  h_log (n_host c.1) =
    [(OMkNetNS "c1", true); (OAdd "c1" "/var/run/netns/c1", true);
     (ORmNetNS "c1", true); (OMkNetNS "c1", true); (OAdd "c1" "/var/run/netns/c1", true)].
Proof. vm_compute. split; [|done]. repeat constructor; by eexists. Qed.

(** An ADD that fails for good after it has taken an address. *)
Definition failing : plugins :=
  mkPlugins (λ _, None) (λ _ _, NsOk) (λ _ _, None) (λ _, None)
    (λ _ _ _, AddErr (mkError ErrUnknown "firewall: exit status 4") true) (λ _ _ _, None) (λ _, None)
    (λ _, None) (λ _ _ _, Err (mkError ErrUnknown "no MAC")) (λ _, None) (λ _, 0%Z).

Lemma failed_setup_leaks :
  let r := run (ensureNetworkResourcesCNI failing 5 ctx_err "c1") manager0 in
  is_ok r.1 = false ∧ "c1" ∈ h_alloc (n_host r.2) ∧ n_results r.2 !! "c1" = None.
Proof. cbv zeta. split_and!; [by vm_compute|apply (bool_decide_unpack _); by vm_compute|by vm_compute]. Qed.

Lemma one_worker_witness :
  let c := sched ([0; 1; 0; 1] ++ replicate 11 0 ++ [1]) (manager0, perform working <$> [ensure_c1; ensure_c1]) in
  c.2 !! 1 = Some (Ret (inl (Ok (mkCNIResult "tap0" "52:54:00:12:34:56" "10.0.0.2" "255.255.255.0" "10.0.0.1")))) ∧
  fl_map (n_setup c.1) = ∅.
Proof.
  split; [by vm_compute|].
  apply (one_worker_per_container working [ensure_c1; ensure_c1] (Some "spin") no_host _
    (sched ([0; 1; 0; 1] ++ replicate 11 0 ++ [1]) (manager0, perform working <$> [ensure_c1; ensure_c1])).2).
  - rewrite <- surjective_pairing. apply sched_steps.
  - vm_compute. repeat constructor; by eexists.
Defined.

Lemma ensure_answers_obtained_witness :
  obtained (sched ([0; 1; 0; 1] ++ replicate 11 0 ++ [1]) (manager0, perform working <$> [ensure_c1; ensure_c1])).1 "c1"
    (mkCNIResult "tap0" "52:54:00:12:34:56" "10.0.0.2" "255.255.255.0" "10.0.0.1").
Proof.
  eapply (ensure_answers_obtained working [ensure_c1; ensure_c1] (Some "spin") no_host _
    (sched ([0; 1; 0; 1] ++ replicate 11 0 ++ [1]) (manager0, perform working <$> [ensure_c1; ensure_c1])).2
    1 5 ctx_err "c1").
  - rewrite <- surjective_pairing. apply sched_steps.
  - done.
  - by vm_compute.
Defined.

Lemma calls_spare_other_containers_witness :
  spares "c2" manager0 (sched (replicate 13 0) (manager0, perform working <$> [ensure_c1])).1.
Proof.
  eapply (calls_spare_other_containers working [ensure_c1] "c2" manager0 _
    (sched (replicate 13 0) (manager0, perform working <$> [ensure_c1])).2).
  - repeat constructor; [done|]. intros t Ht. simpl in Ht. by injection Ht.
  - rewrite <- surjective_pairing. apply sched_steps.
Defined.

Lemma release_leaves_nothing_witness :
  let n := (run (ensureNetworkResourcesCNI working 5 ctx_err "c1") manager0).2 in
  ("c1" ∈ h_alloc (n_host n)) ∧
  ("c1" ∉ h_alloc (n_host (run (releaseNetworkResourcesCNI working 5 ctx_err "c1") n).2)).
Proof.
  cbv zeta. split; [apply (bool_decide_unpack _); by vm_compute|].
  apply (release_leaves_nothing working 5 ctx_err "c1"); [by vm_compute|by eexists; vm_compute|by vm_compute].
Defined.
