(* ===== verification/GuestTask.v ===== *)
(** The guest's task service and its containers:
    internal/guest/vminit/task/{service,lifecycle,exec}.go over
    internal/guest/vminit/runc/container.go.

    Containers and exec processes are objects on a heap, so that a handler keeps
    the one it looked up whatever happens to the maps.  A container is built
    locally and becomes shared when Create stores it.  Each critical section and
    each call to the runtime is one action.  The process objects are those of
    Process, the exit tracker that of ExitTracker, the rootfs mounts those of
    MountUtil; [gs_hist] records what enters and leaves the two registries. *)
From S2P Require Import Prelude Conc GoStrings GoState GoText Process ExitTracker MountUtil.
Open Scope prog_scope.

(** ** State *)

Record Container := mkContainer {
  c_ID : string;
  c_Bundle : string;
  c_cgroup : bool;
  c_process : initProc;
  c_processes : gmap string nat;
  c_reserved : gset string;
  c_mountCleanup : option (list ActiveMount)
}.

Definition set_process p c := mkContainer (c_ID c) (c_Bundle c) (c_cgroup c) p (c_processes c) (c_reserved c) (c_mountCleanup c).
Definition set_procs m r c := mkContainer (c_ID c) (c_Bundle c) (c_cgroup c) (c_process c) m r (c_mountCleanup c).
Definition set_cgroup b c := mkContainer (c_ID c) (c_Bundle c) b (c_process c) (c_processes c) (c_reserved c) (c_mountCleanup c).
Definition set_cleanup x c := mkContainer (c_ID c) (c_Bundle c) (c_cgroup c) (c_process c) (c_processes c) (c_reserved c) x.

(** The two registries: the service's containers and each container's execs. *)
Inductive rkey := KC (id : string) | KX (c : nat) (execID : string).
Inductive robj := OC (c : nat) | OX (x : nat).
Inductive revent := RAdd (k : rkey) (o : robj) | RDel (k : rkey) (o : robj).

#[export] Instance rkey_eq_dec : EqDecision rkey.
Proof. solve_decision. Defined.
#[export] Instance robj_eq_dec : EqDecision robj.
Proof. solve_decision. Defined.
#[export] Instance rkey_countable : Countable rkey.
Proof.
  refine (inj_countable' (λ k, match k with KC id => inl id | KX c e => inr (c, e) end)
    (λ x, match x with inl id => KC id | inr (c, e) => KX c e end) _). by intros [].
Defined.

(** Events of the service beside those of the exit path. *)
Inductive sevent := TaskCreate (id : string) (pid : Z) | TaskExecAdded (id execID : string).

Record gsvc := mkG {
  gs_containers : gmap string nat;
  gs_heap : list Container;
  gs_execs : list execProc;
  gs_exit : guest;
  gs_mounts : world;
  gs_sent : list sevent;
  gs_hist : list revent;
  gs_shutdown : bool;
  gs_panic : bool
}.

Definition with_heap h s := mkG (gs_containers s) h (gs_execs s) (gs_exit s) (gs_mounts s) (gs_sent s) (gs_hist s) (gs_shutdown s) (gs_panic s).
Definition with_execs x s := mkG (gs_containers s) (gs_heap s) x (gs_exit s) (gs_mounts s) (gs_sent s) (gs_hist s) (gs_shutdown s) (gs_panic s).
Definition with_exit g s := mkG (gs_containers s) (gs_heap s) (gs_execs s) g (gs_mounts s) (gs_sent s) (gs_hist s) (gs_shutdown s) (gs_panic s).
Definition with_mounts w s := mkG (gs_containers s) (gs_heap s) (gs_execs s) (gs_exit s) w (gs_sent s) (gs_hist s) (gs_shutdown s) (gs_panic s).
Definition with_sent e s := mkG (gs_containers s) (gs_heap s) (gs_execs s) (gs_exit s) (gs_mounts s) e (gs_hist s) (gs_shutdown s) (gs_panic s).
Definition with_shutdown s := mkG (gs_containers s) (gs_heap s) (gs_execs s) (gs_exit s) (gs_mounts s) (gs_sent s) (gs_hist s) true (gs_panic s).
Definition with_panic s := mkG (gs_containers s) (gs_heap s) (gs_execs s) (gs_exit s) (gs_mounts s) (gs_sent s) (gs_hist s) (gs_shutdown s) true.
Definition put_containers m h s := mkG m (gs_heap s) (gs_execs s) (gs_exit s) (gs_mounts s) (gs_sent s) h (gs_shutdown s) (gs_panic s).
Definition put_hist h s := mkG (gs_containers s) (gs_heap s) (gs_execs s) (gs_exit s) (gs_mounts s) (gs_sent s) h (gs_shutdown s) (gs_panic s).

Definition gprog := prog gsvc.

Definition upd (c : nat) (f : Container → Container) (s : gsvc) : gsvc :=
  with_heap (alter f c (gs_heap s)) s.
Definition read_container {A} (c : nat) (d : A) (f : Container → A) : gprog A :=
  atomically (λ s, (match gs_heap s !! c with Some x => f x | None => d end, s)).
(** A goroutine of the exit tracker, lock by lock. *)
Fixpoint on_exit {A} (p : eprog A) : gprog A :=
  match p with
  | Ret a => Ret a
  | Act f k => Act (λ s, let '(b, g) := f (gs_exit s) in (b, with_exit g s)) (λ b, on_exit (k b))
  end.
Definition gsend (e : sevent) : gprog () := atomically (λ s, (tt, with_sent (gs_sent s ++ [e]) s)).

(** ** Containers: runc/container.go *)

(** A process of a container, as [Process] returns it. *)
Inductive pref := PInit (c : nat) | PExec (x : nat).

Definition container_Process (c : nat) (execID : string) : gprog (res pref) :=
  read_container c (Err (mkError ErrInternal "")) (λ x,
    if decide (execID = "") then Ok (PInit c)
    else match c_processes x !! execID with
         | Some p => Ok (PExec p)
         | None => Err (mkError ErrNotFound ("process does not exist " +:+ execID))
         end).

(** [ReserveProcess], the cancel function it returns, [ProcessAdd] and
    [ProcessRemove]. *)
Definition ReserveProcess (c : nat) (id : string) : gprog bool :=
  atomically (λ s,
    match gs_heap s !! c with
    | Some x => if decide (is_Some (c_processes x !! id) ∨ id ∈ c_reserved x) then (false, s)
                else (true, upd c (λ x, set_procs (c_processes x) ({[id]} ∪ c_reserved x) x) s)
    | None => (false, s)
    end).

Definition cancel_reservation (c : nat) (id : string) : gprog () :=
  atomically (λ s, (tt, upd c (λ x, set_procs (c_processes x) (c_reserved x ∖ {[id]}) x) s)).

Definition ProcessAdd (c : nat) (id : string) (p : execProc) : gprog () :=
  atomically (λ s,
    let x := length (gs_execs s) in
    (tt, put_hist (gs_hist s ++ [RAdd (KX c id) (OX x)])
           (with_execs (gs_execs s ++ [p])
             (upd c (λ y, set_procs (<[id := x]> (c_processes y)) (c_reserved y ∖ {[id]}) y) s)))).

Definition ProcessRemove (c : nat) (id : string) (deleted : nat) : gprog () :=
  atomically (λ s,
    (tt, put_hist (gs_hist s ++ [RDel (KX c id) (OX deleted)])
           (upd c (λ y, set_procs (delete id (c_processes y)) (c_reserved y) y) s))).

(** What the runtime answers to one call of a handler. *)
Record ganswers := mkGAnswers {
  ga_rt : rtAnswer;               (** start or delete of an init process *)
  ga_umount : option error;
  ga_env : startEnv;              (** create, or start of an exec *)
  ga_kill : option error;
  ga_spec : option error;         (** the exec's process spec *)
  ga_resize : option error;
  ga_stdin : option error;
  ga_update : option error;
  ga_cgroup : bool;               (** a cgroup can be loaded *)
  ga_mkdir : option error;
  ga_options : option error
}.

Section handlers.
Context (k : kernel).

(** [Start] of a process: its error. *)
Definition p_Start (a : ganswers) (p : pref) : gprog (option error) :=
  atomically (λ s,
    match p with
    | PInit c => match gs_heap s !! c with
                 | Some x => let '(e, q) := init_Start (ga_rt a) (c_process x) in (e, upd c (set_process q) s)
                 | None => (None, s)
                 end
    | PExec x => match gs_execs s !! x with
                 | Some q => match exec_Start (ga_env a) q with
                             | Val (e, q') => (e, with_execs (<[x := q']> (gs_execs s)) s)
                             | Panic _ => (None, with_panic s)
                             end
                 | None => (None, s)
                 end
    end).

Definition p_Delete (a : ganswers) (p : pref) : gprog (option error) :=
  atomically (λ s,
    match p with
    | PInit c => match gs_heap s !! c with
                 | Some x => let '(e, q) := init_Delete (ga_rt a) (ga_umount a) (c_process x) in
                             (e, upd c (set_process q) s)
                 | None => (Some (mkError ErrInternal ""), s)
                 end
    | PExec x => match gs_execs s !! x with
                 | Some q => let '(e, q') := exec_Delete q in (e, with_execs (<[x := q']> (gs_execs s)) s)
                 | None => (Some (mkError ErrInternal ""), s)
                 end
    end).

(** [SetExited], called by the exit path. *)
Definition p_SetExited (now status : Z) (p : pref) : gprog () :=
  atomically (λ s,
    (tt, match p with
         | PInit c => match gs_heap s !! c with
                      | Some x => match init_SetExited now status (c_process x) with
                                  | Val q => upd c (set_process q) s
                                  | Panic _ => with_panic s
                                  end
                      | None => s
                      end
         | PExec x => match gs_execs s !! x with
                      | Some q => match exec_SetExited now status q with
                                  | Val q' => with_execs (<[x := q']> (gs_execs s)) s
                                  | Panic _ => with_panic s
                                  end
                      | None => s
                      end
         end)).

Definition p_read {A} (d : A) (fi : initProc → A) (fx : execProc → A) (p : pref) : gprog A :=
  atomically (λ s,
    (match p with
     | PInit c => match gs_heap s !! c with Some x => fi (c_process x) | None => d end
     | PExec x => match gs_execs s !! x with Some q => fx q | None => d end
     end, s)).
Definition p_Pid : pref → gprog Z := p_read 0%Z i_pid x_pid.

(** The rest of [Container.Start] after [Process]; the process and its error. *)
Definition container_Start (a : ganswers) (c : nat) (p : pref) : gprog (option error) :=
  e <- p_Start a p ;;
  match e with
  | Some e => Ret (Some e)
  | None =>
      cg <- read_container c true c_cgroup ;;
      if cg : bool then Ret None
      else
        pid <- p_Pid p ;;
        if (0 <? pid)%Z && ga_cgroup a
        then (_ <- atomically (λ s, (tt, upd c (set_cgroup true) s)) ;; Ret None) else Ret None
  end.

(** Taking the mount cleanup and running it; its error is only logged. *)
Definition take_cleanup (c : nat) : gprog (option (list ActiveMount)) :=
  atomically (λ s,
    match gs_heap s !! c with
    | Some x => (c_mountCleanup x, upd c (set_cleanup None) s)
    | None => (None, s)
    end).
Definition run_cleanup (m : option (list ActiveMount)) : gprog () :=
  match m with
  | None => Ret tt
  | Some active => atomically (λ s, (tt, with_mounts (cleanupMounts k active (gs_mounts s)).2 s))
  end.

Definition container_Delete (a : ganswers) (c : nat) (execID : string) : gprog (res pref) :=
  p <- container_Process c execID ;;
  match p with
  | Err e => Ret (Err e)
  | Ok p =>
      d <- p_Delete a p ;;
      match d with
      | Some e => Ret (Err e)
      | None =>
          match p with
          | PExec x => _ <- ProcessRemove c execID x ;; Ret (Ok p)
          | PInit _ => m <- take_cleanup c ;; _ <- run_cleanup m ;; Ret (Ok p)
          end
      end
  end.

Definition container_Exec (a : ganswers) (c : nat) (execID : string) (terminal : bool) : gprog (option error) :=
  r <- read_container c (Err (mkError ErrInternal "")) (λ x, init_Exec (ga_spec a) terminal (c_process x)) ;;
  match r with
  | Err e => Ret (Some e)
  | Ok p => _ <- ProcessAdd c execID p ;; Ret None
  end.

(** *** [NewContainer] *)

Record CreateRequest := mkCreate { cr_ID : string; cr_Bundle : string; cr_Rootfs : list mount; cr_Terminal : bool }.

Definition rootfs_of (r : CreateRequest) : string :=
  match cr_Rootfs r with [] => "" | _ => path_Join [cr_Bundle r; "rootfs"] end.

(** A single bind mount of the rootfs itself is already in place. *)
Definition needs_mount (r : CreateRequest) : bool :=
  match cr_Rootfs r with
  | [] => false
  | [m] => negb (bool_decide (Type_ m = "bind")) || negb (bool_decide (Source m = rootfs_of r))
  | _ => true
  end.

Definition NewContainer (a : ganswers) (r : CreateRequest) : gprog (res Container) :=
  match (match cr_Rootfs r with [] => None | _ => ga_mkdir a end), ga_options a with
  | Some e, _ => Ret (Err e)
  | None, Some e => Ret (Err e)
  | None, None =>
      mounted <- (if needs_mount r then
                    atomically (λ s,
                      let '(x, w) := All k (rootfs_of r) (path_Join [cr_Bundle r; "mounts"]) (cr_Rootfs r) (gs_mounts s) in
                      (x, with_mounts w s))
                  else Ret (Ok None)) ;;
      match mounted with
      | Err e => Ret (Err e)
      | Ok cleanup =>
          let '(e, p, _) := i_Create (cr_Terminal r) (ga_env a) (New true) in
          match e with
          | Some e => _ <- run_cleanup cleanup ;; Ret (Err e)
          | None => Ret (Ok (mkContainer (cr_ID r) (cr_Bundle r) ((0 <? i_pid p)%Z && ga_cgroup a) p ∅ ∅ cleanup))
          end
      end
  end.

(** ** The service *)

Definition getContainer (id : string) : gprog (res nat) :=
  atomically (λ s, (match gs_containers s !! id with
                    | Some c => Ok c
                    | None => Err (mkError ErrNotFound "container not created")
                    end, s)).

Definition already_exists (id : string) : error :=
  mkError ErrAlreadyExists ("container " +:+ id +:+ " already exists").

(** Under the lock: store the new container unless another Create was first. *)
Definition store_container (id : string) (x : Container) : gprog (option nat) :=
  atomically (λ s,
    match gs_containers s !! id with
    | Some _ => (None, s)
    | None => let c := length (gs_heap s) in
              (Some c, put_containers (<[id := c]> (gs_containers s)) (gs_hist s ++ [RAdd (KC id) (OC c)])
                         (with_heap (gs_heap s ++ [x]) s))
    end).

Definition cancel_sub (sub : nat) : gprog () := on_exit (Cancel sub).

(** The loser of the race deletes its own container, which nobody else has. *)
Definition delete_local (a : ganswers) (x : Container) : gprog () :=
  match (init_Delete (ga_rt a) (ga_umount a) (c_process x)).1 with
  | Some _ => Ret tt
  | None => run_cleanup (c_mountCleanup x)
  end.

Definition Create (a a' : ganswers) (r : CreateRequest) : gprog (res Z) :=
  ex <- atomically (λ s, (bool_decide (is_Some (gs_containers s !! cr_ID r)), s)) ;;
  if ex : bool then Ret (Err (already_exists (cr_ID r)))
  else
    sub <- on_exit (Subscribe None) ;;
    new <- NewContainer a r ;;
    match new with
    | Err e => _ <- cancel_sub sub ;; Ret (Err e)
    | Ok x =>
        stored <- store_container (cr_ID r) x ;;
        match stored with
        | None => _ <- delete_local a' x ;; _ <- cancel_sub sub ;; Ret (Err (already_exists (cr_ID r)))
        | Some c =>
            let pid := i_pid (c_process x) in
            _ <- gsend (TaskCreate (cr_ID r) pid) ;;
            _ <- on_exit (handleStarted sub c (mkProc c (cr_ID r) true) pid) ;;
            _ <- cancel_sub sub ;;
            Ret (Ok pid)
        end
    end.

Definition proc_of (p : pref) (id execID : string) : proc :=
  match p with PInit c => mkProc c id true | PExec x => mkProc x execID false end.

(** [preStart] and what follows [container.Start] are those of ExitTracker; a
    process that cannot be found has pid 0. *)
Definition Start (a : ganswers) (id execID : string) : gprog (res Z) :=
  c <- getContainer id ;;
  match c with
  | Err e => Ret (Err e)
  | Ok c =>
      initPid <- p_Pid (PInit c) ;;
      sub <- on_exit (Start_begin c execID initPid) ;;
      match sub with
      | Err e => Ret (Err e)
      | Ok sub =>
          p <- container_Process c execID ;;
          match p with
          | Err e => on_exit (Start_end sub c execID (mkProc 0 execID false) 0 (Some e))
          | Ok p =>
              e <- container_Start a c p ;;
              pid <- p_Pid p ;;
              on_exit (Start_end sub c execID (proc_of p id execID) pid e)
          end
      end
  end.

Definition Delete (a : ganswers) (id execID : string) : gprog (res Z) :=
  c <- getContainer id ;;
  match c with
  | Err e => Ret (Err e)
  | Ok c =>
      d <- container_Delete a c execID ;;
      match d with
      | Err e => Ret (Err e)
      | Ok p =>
          _ <- (if decide (execID = "") then
                  _ <- atomically (λ s, (tt, put_containers (delete id (gs_containers s))
                                               (gs_hist s ++ [RDel (KC id) (OC c)]) s)) ;;
                  on_exit (Cleanup c)
                else Ret tt) ;;
          st <- p_read 0%Z i_status x_status p ;;
          Ret (Ok st)
      end
  end.

Definition Exec (a : ganswers) (id execID : string) (terminal : bool) : gprog (res ()) :=
  c <- getContainer id ;;
  match c with
  | Err e => Ret (Err e)
  | Ok c =>
      ok <- ReserveProcess c execID ;;
      if negb ok then Ret (Err (mkError ErrAlreadyExists ("id " +:+ execID)))
      else
        e <- container_Exec a c execID terminal ;;
        match e with
        | Some e => _ <- cancel_reservation c execID ;; Ret (Err e)
        | None => _ <- gsend (TaskExecAdded id execID) ;; Ret (Ok tt)
        end
  end.

(** The handlers that only look: the shared shape, and their last step. *)
Definition on_process {A} (id execID : string) (f : pref → gprog (res A)) : gprog (res A) :=
  c <- getContainer id ;;
  match c with
  | Err e => Ret (Err e)
  | Ok c =>
      p <- container_Process c execID ;;
      match p with Err e => Ret (Err e) | Ok p => f p end
  end.

Definition of_err (e : option error) : res () := match e with Some e => Err e | None => Ok tt end.

Definition Kill (a : ganswers) (id execID : string) : gprog (res ()) :=
  on_process id execID (λ p,
    e <- p_read None (init_Kill (ga_kill a)) (exec_Kill (ga_kill a)) p ;; Ret (of_err e)).

Definition ResizePty (a : ganswers) (id execID : string) : gprog (res ()) :=
  on_process id execID (λ p,
    e <- p_read None (λ _, ga_resize a) (exec_Resize (ga_resize a)) p ;; Ret (of_err e)).

Definition CloseIO (a : ganswers) (id execID : string) : gprog (res ()) :=
  on_process id execID (λ _, Ret (of_err (match ga_stdin a with Some e => Some (wrap "close stdin" e) | None => None end))).

Definition Update (a : ganswers) (id : string) : gprog (res ()) :=
  on_process id "" (λ p, e <- p_read None (init_Update (ga_update a)) (λ _, None) p ;; Ret (of_err e)).

Inductive Status := UNKNOWN | CREATED | RUNNING | STOPPED | PAUSED | PAUSING.

Definition status_of (st : string) : Status :=
  if decide (st = "created") then CREATED
  else if decide (st = "running") then RUNNING
  else if decide (st = "stopped") then STOPPED
  else if decide (st = "paused") then PAUSED
  else if decide (st = "pausing") then PAUSING
  else UNKNOWN.

(** [State]: the status, pid and exit status of a process. *)
Definition State_ (id execID : string) : gprog (res (Status * Z * Z)) :=
  on_process id execID (λ p,
    r <- p_read (UNKNOWN, 0, 0)%Z
           (λ q, (status_of (State_String (i_state q)), i_pid q, i_status q))
           (λ q, (status_of (State_String (x_state q)), x_pid q, x_status q)) p ;;
    Ret (Ok r)).

Definition Shutdown : gprog () :=
  atomically (λ s, (tt, if decide (gs_containers s = ∅) then with_shutdown s else s)).
End handlers.
