(* ===== verification/GuestTaskProps.v ===== *)
(** The registries of the guest's task service under every interleaving of its
    handlers: what enters and leaves them is a history of the abstract registry,
    in which a key is added only when it is free and removed only with the object
    it holds. *)
From S2P Require Import Prelude Conc GoStrings GoState GoText Process ExitTracker MountUtil GuestTask.
Open Scope prog_scope.

(** ** The abstract registry *)

Definition rstep1 (m : gmap rkey robj) (e : revent) : option (gmap rkey robj) :=
  match e with
  | RAdd k o => if decide (m !! k = None) then Some (<[k := o]> m) else None
  | RDel k o => if decide (m !! k = Some o) then Some (delete k m) else None
  end.

Definition replay (h : list revent) : option (gmap rkey robj) :=
  foldl (λ m e, m ≫= λ m, rstep1 m e) (Some ∅) h.

Lemma replay_snoc h e m : replay h = Some m → replay (h ++ [e]) = rstep1 m e.
Proof. intros H. unfold replay in *. rewrite foldl_app. simpl. by rewrite H. Qed.

(** ** The concrete registries *)

Definition execs_of (s : gsvc) (c : nat) : gmap string nat := from_option c_processes ∅ (gs_heap s !! c).
Definition reserved_of (s : gsvc) (c : nat) : gset string := from_option c_reserved ∅ (gs_heap s !! c).

Definition rlookup (s : gsvc) (k : rkey) : option robj :=
  match k with
  | KC id => OC <$> gs_containers s !! id
  | KX c e => OX <$> execs_of s c !! e
  end.

(** An object whose Delete succeeded. *)
Definition dead (s : gsvc) (o : robj) : Prop :=
  match o with
  | OC c => ∃ x, gs_heap s !! c = Some x ∧ i_state (c_process x) = StateDeleted
  | OX x => ∃ q, gs_execs s !! x = Some q ∧ x_state q = StateDeleted
  end.

Definition known (s : gsvc) (o : robj) : Prop :=
  match o with OC c => c < length (gs_heap s) | OX x => x < length (gs_execs s) end.

Definition added (h : list revent) (k : rkey) (o : robj) : Prop := RAdd k o ∈ h.

(** ** The protocol of a handler *)

Inductive gmode := GFree | GHas (k : rkey) (o : robj) | GRes (c : nat) (e : string) | GRem (k : rkey) (o : robj).

(** Nothing of the registries changes and nobody is deleted. *)
Record gquiet (s s' : gsvc) : Prop := mkQuiet {
  q_hist : gs_hist s' = gs_hist s;
  q_look : ∀ k, rlookup s' k = rlookup s k;
  q_res : ∀ c, reserved_of s' c = reserved_of s c;
  q_dead : ∀ o, dead s' o ↔ dead s o;
  q_known : ∀ o, known s o → known s' o
}.

(** The one object [o] is deleted. *)
Record gkill (o : robj) (s s' : gsvc) : Prop := mkKill {
  kl_hist : gs_hist s' = gs_hist s;
  kl_look : ∀ k, rlookup s' k = rlookup s k;
  kl_res : ∀ c, reserved_of s' c = reserved_of s c;
  kl_was : ¬ dead s o;
  kl_dead : ∀ o', dead s' o' ↔ dead s o' ∨ o' = o;
  kl_known : ∀ o, known s o → known s' o
}.

(** A new object enters under the free key [k]; a reservation of it ends. *)
Record gadd (k : rkey) (o : robj) (s s' : gsvc) : Prop := mkAdd {
  ad_hist : gs_hist s' = gs_hist s ++ [RAdd k o];
  ad_look : ∀ k', rlookup s' k' = if decide (k' = k) then Some o else rlookup s k';
  ad_res : ∀ c, reserved_of s' c = match k with KX c' e => if decide (c = c') then reserved_of s c ∖ {[e]} else reserved_of s c
                                          | KC _ => reserved_of s c end;
  ad_dead : ∀ o', dead s o' → dead s' o';
  ad_alive : ∀ o', dead s' o' → dead s o' ∨ o' = o;
  ad_new : ¬ known s o ∧ known s' o;
  ad_known : ∀ o', known s o' → known s' o'
}.

Record gremove (k : rkey) (o : robj) (s s' : gsvc) : Prop := mkRemove {
  rm_hist : gs_hist s' = gs_hist s ++ [RDel k o];
  rm_look : ∀ k', rlookup s' k' = if decide (k' = k) then None else rlookup s k';
  rm_res : ∀ c, reserved_of s' c = reserved_of s c;
  rm_dead : ∀ o', dead s' o' ↔ dead s o';
  rm_known : ∀ o', known s o' → known s' o'
}.

(** The reservations of [c] become [f] of what they were. *)
Record greserve (c : nat) (f : gset string → gset string) (s s' : gsvc) : Prop := mkReserve {
  rv_hist : gs_hist s' = gs_hist s;
  rv_look : ∀ k, rlookup s' k = rlookup s k;
  rv_res : ∀ c', reserved_of s' c' = if decide (c' = c) then f (reserved_of s c) else reserved_of s c';
  rv_dead : ∀ o, dead s' o ↔ dead s o;
  rv_known : ∀ o, known s o → known s' o
}.

(** A mode that owns nothing. *)
Definition idle (m : gmode) : Prop := match m with GFree | GHas _ _ => True | _ => False end.

Definition gmstep (m : gmode) (s s' : gsvc) (m' : gmode) : Prop :=
  (m' = m ∧ gquiet s s') ∨
  (idle m ∧ gquiet s s' ∧ ∃ k o, m' = GHas k o ∧ rlookup s k = Some o) ∨
  (m' = GFree ∧ gquiet s s' ∧ ∃ k o, m = GHas k o) ∨
  (∃ k o, m = GHas k o ∧ m' = GRem k o ∧ gkill o s s') ∨
  (∃ k o, m = GRem k o ∧ m' = GFree ∧ gremove k o s s') ∨
  (m = GFree ∧ m' = GFree ∧ ∃ id o, rlookup s (KC id) = None ∧ gadd (KC id) o s s') ∨
  (idle m ∧ ∃ c e, m' = GRes c e ∧ rlookup s (KX c e) = None ∧ (e ∉ reserved_of s c) ∧ greserve c (λ r, {[e]} ∪ r) s s') ∨
  (∃ c e, m = GRes c e ∧ m' = GFree ∧ (greserve c (λ r, r ∖ {[e]}) s s' ∨ ∃ o, gadd (KX c e) o s s')).

Definition mode_ok (s : gsvc) (m : gmode) : Prop :=
  match m with
  | GFree => True
  | GHas k o => added (gs_hist s) k o
  | GRes c e => e ∈ reserved_of s c
  | GRem k o => dead s o ∧ rlookup s k = Some o
  end.

(** What two handlers never both do. *)
Definition clash (m m' : gmode) : Prop :=
  match m, m' with
  | GRes c e, GRes c' e' => c = c' ∧ e = e'
  | GRem k _, GRem k' _ => k = k'
  | _, _ => False
  end.

Record ginv (s : gsvc) (ms : list gmode) : Prop := mkGinv {
  gi_replay : ∃ m, replay (gs_hist s) = Some m ∧ ∀ k, rlookup s k = m !! k;
  gi_disj : ∀ c e, e ∈ reserved_of s c → rlookup s (KX c e) = None;
  gi_added : ∀ k o, added (gs_hist s) k o → dead s o ∨ rlookup s k = Some o;
  gi_once : ∀ k k' o, added (gs_hist s) k o → added (gs_hist s) k' o → k = k';
  gi_known : ∀ k o, added (gs_hist s) k o → known s o;
  gi_in : ∀ k o, rlookup s k = Some o → added (gs_hist s) k o;
  gi_modes : ∀ i m, ms !! i = Some m → mode_ok s m;
  gi_clash : ∀ i j m m', ms !! i = Some m → ms !! j = Some m' → clash m m' → i = j
}.

(** ** The invariant is kept *)

Lemma lookup_set_mode (ms : list gmode) i m m' j x : ms !! i = Some m → <[i := m']> ms !! j = Some x →
  j = i ∧ x = m' ∨ j ≠ i ∧ ms !! j = Some x.
Proof.
  intros Hi Hj. destruct (decide (j = i)) as [->|Hne]; [left|right; by rewrite list_lookup_insert_ne in Hj].
  rewrite list_lookup_insert_eq in Hj by (by eapply lookup_lt_Some). by simplify_eq.
Qed.

Lemma clash_sym m m' : clash m m' → clash m' m.
Proof. destruct m, m'; simpl; naive_solver. Qed.

(** The part of the invariant about the modes, when handler [i] moves to [m']. *)
Lemma modes_kept s s' ms i m m' :
  ginv s ms → ms !! i = Some m →
  (∀ j x, j ≠ i → ms !! j = Some x → mode_ok s' x) → mode_ok s' m' →
  (∀ j x, j ≠ i → ms !! j = Some x → ¬ clash m' x) →
  (∀ j x, <[i := m']> ms !! j = Some x → mode_ok s' x) ∧
  (∀ j j' x x', <[i := m']> ms !! j = Some x → <[i := m']> ms !! j' = Some x' → clash x x' → j = j').
Proof.
  intros HI Hi Hoth Hown Hno. split.
  - intros j x Hj. destruct (lookup_set_mode _ _ _ _ _ _ Hi Hj) as [[-> ->]|[??]]; eauto.
  - intros j j' x x' Hj Hj' Hc.
    destruct (lookup_set_mode _ _ _ _ _ _ Hi Hj) as [[-> ->]|[??]],
      (lookup_set_mode _ _ _ _ _ _ Hi Hj') as [[-> ->]|[??]]; [done|..].
    + exfalso. by eapply Hno.
    + exfalso. eapply Hno; [done..|]. by apply clash_sym.
    + by eapply (gi_clash _ _ HI).
Qed.

Lemma mode_ok_quiet s s' m : gquiet s s' → mode_ok s m → mode_ok s' m.
Proof. intros [Hh Hl Hr Hd Hk]. destruct m; simpl; [done|by rewrite Hh|by rewrite Hr|by rewrite Hd, Hl]. Qed.

Lemma ginv_quiet s s' ms i m m' : ginv s ms → ms !! i = Some m → gquiet s s' → mode_ok s m' →
  (∀ j x, j ≠ i → ms !! j = Some x → ¬ clash m' x) → ginv s' (<[i := m']> ms).
Proof.
  intros HI Hi Hq Hm Hno. pose proof HI as [Hrep Hdis Hadd Hon Hkn Hin Hmod Hcl].
  destruct (modes_kept s s' ms i m m' HI Hi) as [M1 M2];
    [intros j x _ Hj; by eapply mode_ok_quiet, Hmod|by eapply mode_ok_quiet|done|].
  destruct Hq as [Hh Hl Hr Hd Hk]. constructor; rewrite ?Hh; [|..|exact M1|exact M2].
  - destruct Hrep as (a & ? & Ha). exists a. split; [done|]. intros k. by rewrite Hl.
  - intros c e He. rewrite Hl. apply Hdis. by rewrite <- Hr.
  - intros k o H. rewrite Hd, Hl. by apply Hadd.
  - done.
  - intros k o H. by eapply Hk, Hkn.
  - intros k o H. rewrite Hl in H. by apply Hin.
Qed.

Lemma ginv_kill s s' ms i k o : ginv s ms → ms !! i = Some (GHas k o) → gkill o s s' →
  ginv s' (<[i := GRem k o]> ms).
Proof.
  intros HI Hi [Hh Hl Hr Hwas Hd Hk]. pose proof HI as [Hrep Hdis Hadd Hon Hkn Hin Hmod Hcl].
  pose proof (Hmod i _ Hi) as Hk0. simpl in Hk0. destruct (Hadd k o Hk0) as [?|Hlk]; [done|].
  destruct (modes_kept s s' ms i (GHas k o) (GRem k o) HI Hi) as [M1 M2].
  - intros j x _ Hj. pose proof (Hmod j x Hj) as Hx. destruct x; simpl in *; [done|by rewrite Hh|by rewrite Hr|].
    rewrite Hd, Hl. destruct Hx; auto.
  - simpl. rewrite Hd, Hl. auto.
  - intros j x _ Hj Hc. pose proof (Hmod j x Hj) as Hx. destruct x as [| | |k' o']; simpl in *; try done. subst k'.
    destruct Hx as [Hdo Hlo]. rewrite Hlk in Hlo. by simplify_eq.
  - constructor; rewrite ?Hh; [|..|exact M1|exact M2].
    + destruct Hrep as (a & ? & Ha). exists a. split; [done|]. intros k'. by rewrite Hl.
    + intros c e He. rewrite Hl. apply Hdis. by rewrite <- Hr.
    + intros k' o' H. rewrite Hd, Hl. destruct (Hadd k' o' H); auto.
    + done.
    + intros k' o' H. by eapply Hk, Hkn.
    + intros k' o' H. rewrite Hl in H. by apply Hin.
Qed.

Lemma ginv_remove s s' ms i k o : ginv s ms → ms !! i = Some (GRem k o) → gremove k o s s' →
  ginv s' (<[i := GFree]> ms).
Proof.
  intros HI Hi [Hh Hl Hr Hd Hk]. pose proof HI as [Hrep Hdis Hadd Hon Hkn Hin Hmod Hcl].
  destruct (Hmod i _ Hi) as [Hdo Hlo].
  assert (Had : ∀ k' o', added (gs_hist s') k' o' ↔ added (gs_hist s) k' o').
  { intros k' o'. unfold added. rewrite Hh, elem_of_app. split; [intros [?|?%list_elem_of_singleton]; done|by left]. }
  destruct (modes_kept s s' ms i (GRem k o) GFree HI Hi) as [M1 M2].
  - intros j x Hne Hj. pose proof (Hmod j x Hj) as Hx. destruct x as [|k' o'|c e|k' o']; simpl in *; [done|by apply Had|by rewrite Hr|].
    rewrite Hd, Hl. rewrite decide_False; [done|]. intros ->. by apply Hne, (Hcl j i (GRem k o') (GRem k o)).
  - done.
  - by intros j x _ _ [].
  - constructor; [|..|exact M1|exact M2].
    + destruct Hrep as (a & Ha & Hla). rewrite Hh. exists (delete k a). split.
      * rewrite (replay_snoc _ _ _ Ha). simpl. rewrite decide_True; [done|]. by rewrite <- Hla.
      * intros k'. rewrite Hl. case_decide as He; [subst; by rewrite lookup_delete_eq|by rewrite lookup_delete_ne].
    + intros c e He. rewrite Hl. case_decide; [done|]. apply Hdis. by rewrite <- Hr.
    + intros k' o' H%Had. rewrite Hd, Hl. destruct (Hadd k' o' H) as [?|Hx]; [by left|]. case_decide as He; [|by right].
      subst k'. rewrite Hlo in Hx. simplify_eq. by left.
    + intros k1 k2 o' H1%Had H2%Had. by eapply Hon.
    + intros k' o' H%Had. by eapply Hk, Hkn.
    + intros k' o' H. rewrite Hl in H. case_decide; [done|]. by apply Had, Hin.
Qed.

(** Adding under a key that is free, and that no other handler has reserved. *)
Lemma ginv_add s s' ms i m k o : ginv s ms → ms !! i = Some m → rlookup s k = None →
  (∀ j x c e, j ≠ i → ms !! j = Some x → x = GRes c e → k ≠ KX c e) →
  gadd k o s s' → ginv s' (<[i := GFree]> ms).
Proof.
  intros HI Hi Hno Hres [Hh Hl Hr Hd Hal [Hn1 Hn2] Hk]. pose proof HI as [Hrep Hdis Hadd Hon Hkn Hin Hmod Hcl].
  assert (Had : ∀ k' o', added (gs_hist s') k' o' ↔ added (gs_hist s) k' o' ∨ k' = k ∧ o' = o).
  { intros k' o'. unfold added. rewrite Hh, elem_of_app, list_elem_of_singleton. naive_solver. }
  destruct (modes_kept s s' ms i m GFree HI Hi) as [M1 M2].
  - intros j x Hne Hj. pose proof (Hmod j x Hj) as Hx. pose proof (Hres j x) as Hrj.
    destruct x as [|k' o'|c e|k' o']; simpl in *; [done|apply Had; by left|..].
    + rewrite Hr. specialize (Hrj c e Hne Hj eq_refl). destruct k as [|c' e']; [done|]. case_decide; [|done]. subst c'.
      apply elem_of_difference. split; [done|]. intros ?%elem_of_singleton. by subst.
    + destruct Hx as [Hdx Hlx]. split; [by apply Hd|]. rewrite Hl, decide_False; [done|]. intros ->. by rewrite Hno in Hlx.
  - done.
  - by intros j x _ _ [].
  - constructor; [|..|exact M1|exact M2].
    + destruct Hrep as (a & Ha & Hla). rewrite Hh. exists (<[k := o]> a). split.
      * rewrite (replay_snoc _ _ _ Ha). simpl. rewrite decide_True; [done|]. by rewrite <- Hla.
      * intros k'. rewrite Hl. case_decide as He; [subst; by rewrite lookup_insert_eq|by rewrite lookup_insert_ne].
    + intros c e He. rewrite Hr in He. rewrite Hl. destruct k as [id|c' e'].
      * rewrite decide_False by done. by apply Hdis.
      * case_decide as Hc; [subst c'; apply elem_of_difference in He as [He Hne]|].
        -- rewrite decide_False; [by apply Hdis|]. intros [= ->]. set_solver.
        -- rewrite decide_False; [by apply Hdis|]. intros [= -> ->]. done.
    + intros k' o' [H|[-> ->]]%Had; [|right; rewrite Hl; by rewrite decide_True].
      destruct (Hadd k' o' H) as [?|Hx]; [left; by apply Hd|]. right. rewrite Hl, decide_False; [done|].
      intros ->. by rewrite Hno in Hx.
    + intros k1 k2 o' [H1|[-> ->]]%Had [H2|[-> ?]]%Had; [by eapply Hon|..|done].
      * subst o'. by apply Hkn in H1.
      * by apply Hkn in H2.
    + intros k' o' [H|[-> ->]]%Had; [by eapply Hk, Hkn|done].
    + intros k' o' H. rewrite Hl in H. apply Had. case_decide; [right; by simplify_eq|left; by apply Hin].
Qed.

Lemma ginv_reserve s s' ms i m m' c e f : ginv s ms → ms !! i = Some m → greserve c f s s' →
  (∀ e', e' ∈ f (reserved_of s c) → rlookup s (KX c e') = None) →
  (∀ e', e' ≠ e → e' ∈ f (reserved_of s c) ↔ e' ∈ reserved_of s c) →
  (∀ j x, j ≠ i → ms !! j = Some x → x ≠ GRes c e) →
  m' = GFree ∨ m' = GRes c e ∧ e ∈ f (reserved_of s c) →
  ginv s' (<[i := m']> ms).
Proof.
  intros HI Hi [Hh Hl Hr Hd Hk] Hfree Hoth Hno Hm'. pose proof HI as [Hrep Hdis Hadd Hon Hkn Hin Hmod Hcl].
  destruct (modes_kept s s' ms i m m' HI Hi) as [M1 M2].
  - intros j x Hne Hj. pose proof (Hmod j x Hj) as Hx. pose proof (Hno j x Hne Hj) as Hn.
    destruct x as [|k' o'|c' e'|k' o']; simpl in *; [done|by rewrite Hh| |by rewrite Hd, Hl].
    rewrite Hr. case_decide; [|done]. subst c'. apply Hoth; [|done]. intros ->. done.
  - destruct Hm' as [->|[-> Hin']]; [done|]. simpl. rewrite Hr. by rewrite decide_True.
  - intros j x Hne Hj Hc. destruct Hm' as [->|[-> _]]; [done|]. destruct x as [| |c' e'|]; simpl in Hc; try done.
    destruct Hc as [<- <-]. by apply (Hno j (GRes c e)).
  - constructor; rewrite ?Hh; [|..|exact M1|exact M2].
    + destruct Hrep as (a & ? & Ha). exists a. split; [done|]. intros k. by rewrite Hl.
    + intros c' e' He. rewrite Hl. rewrite Hr in He. case_decide; [subst; by apply Hfree|by apply Hdis].
    + intros k o H. rewrite Hd, Hl. by apply Hadd.
    + done.
    + intros k o H. by eapply Hk, Hkn.
    + intros k o H. rewrite Hl in H. by apply Hin.
Qed.

Lemma ginv_step s s' ms i m m' : ginv s ms → ms !! i = Some m → gmstep m s s' m' → ginv s' (<[i := m']> ms).
Proof.
  intros HI Hi Hs. pose proof HI as [Hrep Hdis Hadd Hon Hkn Hin Hmod Hcl].
  destruct Hs as [[-> Hq]|[(_ & Hq & k & o & -> & Hk)|[(-> & Hq & _)|[(k & o & -> & -> & Hq)|[(k & o & -> & -> & Hq)|
    [(-> & -> & id & o & Hno & Hq)|[(_ & c & e & -> & Hno & Hnr & Hq)|(c & e & -> & -> & Hq)]]]]]]].
  - eapply ginv_quiet; [done..|by apply (Hmod i)|]. intros j x Hne Hj Hc. apply Hne. symmetry. by eapply Hcl.
  - eapply ginv_quiet; [done..|by apply Hin|]. by intros j x _ _ [].
  - eapply ginv_quiet; [done..|]. by intros j x _ _ [].
  - by eapply ginv_kill.
  - by eapply ginv_remove.
  - eapply ginv_add; [done..| |done]. done.
  - eapply (ginv_reserve _ _ _ _ _ _ c e); [done..| | | |right; split; [done|set_solver]].
    + intros e' [->%elem_of_singleton|He]%elem_of_union; [done|by apply Hdis].
    + set_solver.
    + intros j x Hne Hj ->. by apply (Hmod j) in Hj.
  - pose proof (Hmod i _ Hi) as Hre. simpl in Hre.
    assert (Hone : ∀ j x, j ≠ i → ms !! j = Some x → x ≠ GRes c e).
    { intros j x Hne Hj ->. by apply Hne, (Hcl j i (GRes c e) (GRes c e)). }
    destruct Hq as [Hq|[o Hq]].
    + eapply (ginv_reserve _ _ _ _ _ _ c e); [done..| | |done|by left]; [|set_solver].
      intros e' [? _]%elem_of_difference. by apply Hdis.
    + eapply ginv_add; [done..|by apply Hdis| |done]. intros j x c' e' Hne Hj -> [= <- <-]. by apply (Hone j _ Hne Hj).
Qed.

(** ** Every handler follows the protocol *)

Abbreviation gobeys := (obeys gmstep (flip mode_ok)).

Lemma gstep_quiet m s s' : gquiet s s' → gmstep m s s' m.
Proof. by left. Qed.

Lemma gquiet_refl s : gquiet s s.
Proof. by constructor. Qed.

Lemma gobeys_quiet {A} m (p : gprog A) : guar gquiet p → gobeys m p (λ m' _, m' = m).
Proof. intros Hp. eapply guar_obeys; [|exact Hp]. intros s s' _ H. by apply gstep_quiet. Qed.

Lemma gobeys_quiet_bind {A B} m (p : gprog A) (f : A → gprog B) Q :
  guar gquiet p → (∀ a, gobeys m (f a) Q) → gobeys m (pbind p f) Q.
Proof.
  intros Hp Hf. apply obeys_bind. eapply obeys_mono; [|by apply gobeys_quiet]. intros m' a ->. apply Hf.
Qed.

Lemma gobeys_act {A B} m (f : gsvc → A * gsvc) (k : A → gprog B) Q :
  (∀ s, mode_ok s m → ∃ m', gmstep m s (f s).2 m' ∧ gobeys m' (k (f s).1) Q) → gobeys m (pbind (atomically f) k) Q.
Proof. intros H s Hs. by apply H. Qed.

(** *** Quiet actions *)

(** An update of one container that keeps its registries and its fate. *)
Lemma gquiet_upd s c f :
  (∀ x, gs_heap s !! c = Some x → c_processes (f x) = c_processes x ∧ c_reserved (f x) = c_reserved x ∧
        (i_state (c_process (f x)) = StateDeleted ↔ i_state (c_process x) = StateDeleted)) →
  gquiet s (upd c f s).
Proof.
  intros Hf. assert (Hl : ∀ c', gs_heap (upd c f s) !! c' = (if decide (c' = c) then f <$> gs_heap s !! c' else gs_heap s !! c')).
  { intros c'. simpl. case_decide; [subst; apply list_lookup_alter_eq|by apply list_lookup_alter_ne]. }
  constructor.
  - done.
  - intros [id|c' e]; [done|]. unfold rlookup, execs_of. rewrite Hl. case_decide; [|done]. subst c'.
    destruct (gs_heap s !! c) as [x|] eqn:E; [|done]. simpl. by destruct (Hf x eq_refl) as (-> & _).
  - intros c'. unfold reserved_of. rewrite Hl. case_decide; [|done]. subst c'.
    destruct (gs_heap s !! c) as [x|] eqn:E; [|done]. simpl. by destruct (Hf x eq_refl) as (_ & -> & _).
  - intros [c'|x]; [|done]. unfold dead. rewrite Hl. case_decide; [|done]. subst c'.
    destruct (gs_heap s !! c) as [x|] eqn:E; simpl; [|done]. pose proof (Hf x eq_refl) as (_ & _ & Hd).
    split; intros (y & [= <-] & Hy); eexists; (split; [done|]); by apply Hd.
  - intros [c'|x]; simpl; [|done]. by rewrite length_alter.
Qed.

Lemma gquiet_execs s x q q' : gs_execs s !! x = Some q → (x_state q' = StateDeleted ↔ x_state q = StateDeleted) →
  gquiet s (with_execs (<[x := q']> (gs_execs s)) s).
Proof.
  intros Hx Hd. constructor; try done.
  - intros [c|y]; [done|]. simpl. destruct (decide (y = x)) as [->|Hne].
    + rewrite list_lookup_insert_eq by (by eapply lookup_lt_Some). rewrite Hx.
      split; intros (z & [= <-] & Hz); eexists; (split; [done|]); by apply Hd.
    + by rewrite list_lookup_insert_ne.
  - intros [c|y]; simpl; [done|]. by rewrite length_insert.
Qed.

Lemma init_Start_fate rt p : i_state (init_Start rt p).2 = StateDeleted ↔ i_state p = StateDeleted.
Proof. unfold init_Start. destruct (i_state p) eqn:E; simpl; [|by rewrite E..]. destruct (i_start rt p); simpl; by rewrite ?E. Qed.

Lemma init_SetExited_fate now st p q : init_SetExited now st p = Val q → i_state q = StateDeleted ↔ i_state p = StateDeleted.
Proof.
  unfold init_SetExited, i_setExited. destruct (i_state p) eqn:E; [| |intros [= <-]; by rewrite E..];
    (destruct (i_waitBlock p); [done|]); simpl; intros [= <-]; simpl; by rewrite ?E.
Qed.

Lemma exec_SetExited_fate now st p q : exec_SetExited now st p = Val q → x_state q = StateDeleted ↔ x_state p = StateDeleted.
Proof.
  unfold exec_SetExited, x_setExited. destruct (x_state p) eqn:E; [| |intros [= <-]; by rewrite E..];
    (destruct (x_waitBlock p); [done|]); simpl; intros [= <-]; simpl; by rewrite ?E.
Qed.

Lemma x_start_state env p e q : x_start env p = Val (e, q) → x_state q = x_state p.
Proof.
  unfold x_start, x_close_io. intros H. repeat (case_match; simplify_eq/=; try done).
Qed.

Lemma exec_Start_fate env p e q : exec_Start env p = Val (e, q) → x_state q = StateDeleted ↔ x_state p = StateDeleted.
Proof.
  unfold exec_Start. destruct (x_state p) eqn:E; [|intros [= <- <-]; by rewrite E..].
  destruct (x_start env p) as [[e1 q1]|] eqn:Es; [|done]. pose proof (x_start_state _ _ _ _ Es) as Hq. rewrite E in Hq.
  simpl. destruct e1; [intros [= <- <-]; by rewrite Hq|]. unfold transition. rewrite Hq. simpl. intros [= <- <-]. done.
Qed.

(** A successful Delete is the only one of its object. *)
Lemma init_Delete_fate rt um p : match init_Delete rt um p with
  | (None, q) => i_state p ≠ StateDeleted ∧ i_state q = StateDeleted
  | (Some _, q) => i_state q = StateDeleted ↔ i_state p = StateDeleted
  end.
Proof.
  unfold init_Delete. destruct (i_delete rt um p) as [e q] eqn:Ed.
  destruct (i_delete_state _ _ _ _ _ Ed) as [Hq _]. destruct (i_state p) eqn:E; [|by rewrite E| |by rewrite E].
  all: destruct e; rewrite Hq; done.
Qed.

Lemma exec_Delete_fate p : match exec_Delete p with
  | (None, q) => x_state p ≠ StateDeleted ∧ x_state q = StateDeleted
  | (Some _, q) => x_state q = StateDeleted ↔ x_state p = StateDeleted
  end.
Proof.
  unfold exec_Delete, x_delete, x_close_io. destruct (x_state p) eqn:E; [|by rewrite E| |by rewrite E].
  all: destruct (x_io p); simpl; rewrite E; done.
Qed.

Ltac gq_act := split; [intros s; simpl|intros ?; exact I].

Lemma gquiet_on_exit {A} (p : eprog A) : guar gquiet (on_exit p).
Proof.
  induction p as [a|B f k IH]; [exact I|]. split; [|intros b; apply IH].
  intros s. simpl. destruct (f (gs_exit s)). by constructor.
Qed.
Lemma gquiet_read {A} c (d : A) f : guar gquiet (read_container c d f).
Proof. gq_act. apply gquiet_refl. Qed.
Lemma gquiet_p_read {A} (d : A) fi fx p : guar gquiet (p_read d fi fx p).
Proof. gq_act. apply gquiet_refl. Qed.
Lemma gquiet_Process c e : guar gquiet (container_Process c e).
Proof. apply gquiet_read. Qed.
Lemma gquiet_getContainer id : guar gquiet (getContainer id).
Proof. gq_act. apply gquiet_refl. Qed.
Lemma gquiet_send e : guar gquiet (gsend e).
Proof. gq_act. by constructor. Qed.

Lemma gquiet_p_Start a p : guar gquiet (p_Start a p).
Proof.
  gq_act. destruct p as [c|x].
  - destruct (gs_heap s !! c) as [y|] eqn:E; [|apply gquiet_refl].
    pose proof (init_Start_fate (ga_rt a) (c_process y)) as Hf. destruct (init_Start (ga_rt a) (c_process y)) as [e q].
    apply gquiet_upd. intros x Hx. rewrite E in Hx. by simplify_eq.
  - destruct (gs_execs s !! x) as [q|] eqn:E; [|apply gquiet_refl].
    destruct (exec_Start (ga_env a) q) as [[e q']|] eqn:Es; [|by constructor].
    eapply gquiet_execs; [done|]. by eapply exec_Start_fate.
Qed.

Lemma gquiet_p_SetExited now st p : guar gquiet (p_SetExited now st p).
Proof.
  gq_act. destruct p as [c|x].
  - destruct (gs_heap s !! c) as [y|] eqn:E; [|apply gquiet_refl].
    destruct (init_SetExited now st (c_process y)) as [q|] eqn:Es; [|by constructor].
    apply gquiet_upd. intros x Hx. rewrite E in Hx. simplify_eq. split_and!; [done..|]. by eapply init_SetExited_fate.
  - destruct (gs_execs s !! x) as [q|] eqn:E; [|apply gquiet_refl].
    destruct (exec_SetExited now st q) as [q'|] eqn:Es; [|by constructor].
    eapply gquiet_execs; [done|]. by eapply exec_SetExited_fate.
Qed.

Lemma gquiet_take_cleanup c : guar gquiet (take_cleanup c).
Proof. gq_act. destruct (gs_heap s !! c); [|apply gquiet_refl]. by apply gquiet_upd. Qed.

Section handlers.
Context (k : kernel).

Lemma gquiet_run_cleanup m : guar gquiet (run_cleanup k m).
Proof. destruct m; [|done]. gq_act. by constructor. Qed.

Lemma gquiet_container_Start a c p : guar gquiet (container_Start a c p).
Proof.
  unfold container_Start. apply guar_bind; [apply gquiet_p_Start|]. intros [e|]; [done|].
  apply guar_bind; [apply gquiet_read|]. intros [|]; [done|]. apply guar_bind; [apply gquiet_p_read|]. intros pid.
  destruct (_ && _); [|done]. apply guar_bind; [|done]. gq_act. by apply gquiet_upd.
Qed.

Definition blank (x : Container) : Prop := c_processes x = ∅ ∧ c_reserved x = ∅.

Lemma gobeys_NewContainer a r : gobeys GFree (NewContainer k a r) (λ m x, m = GFree ∧ ∀ y, x = Ok y → blank y).
Proof.
  unfold NewContainer. destruct (match cr_Rootfs r with [] => None | _ => ga_mkdir a end), (ga_options a); try done.
  apply gobeys_quiet_bind.
  { destruct (needs_mount r); [|done]. gq_act. destruct (All _ _ _ _ _). by constructor. }
  intros [cl|e]; [|done]. destruct (i_Create _ _ _) as [[[e|] p] l]; [|by split; [|intros ? [= <-]]].
  apply gobeys_quiet_bind; [apply gquiet_run_cleanup|done].
Qed.

(** A handler that returned neither reserves nor removes. *)
Definition back {A} : gmode → A → Prop := λ m _, idle m.

Lemma gobeys_done {A} (p : gprog A) : guar gquiet p → gobeys GFree p back.
Proof. intros Hp. eapply obeys_mono; [|by apply gobeys_quiet]. by intros m a ->. Qed.

(** Looking a container up leaves the handler with the object it found. *)
Lemma gobeys_getContainer {A} id (f : res nat → gprog A) Q :
  (∀ e, gobeys GFree (f (Err e)) Q) → (∀ c, gobeys (GHas (KC id) (OC c)) (f (Ok c)) Q) →
  gobeys GFree (pbind (getContainer id) f) Q.
Proof.
  intros He Ho. apply gobeys_act. intros s _. cbn [fst snd]. destruct (gs_containers s !! id) as [c|] eqn:E.
  - exists (GHas (KC id) (OC c)). split; [|apply Ho]. right; left. split; [done|]. split; [apply gquiet_refl|].
    exists (KC id), (OC c). simpl. by rewrite E.
  - exists GFree. split; [apply gstep_quiet, gquiet_refl|apply He].
Qed.

(** A handler may forget what it looked up when it takes a quiet step. *)
Lemma gobeys_forget {A B} key o (f : gsvc → A * gsvc) (g : A → gprog B) Q :
  (∀ s, gquiet s (f s).2) → (∀ a, gobeys GFree (g a) Q) → gobeys (GHas key o) (pbind (atomically f) g) Q.
Proof.
  intros Hf Hg. apply gobeys_act. intros s _. exists GFree. split; [|apply Hg]. right; right; left. eauto 6.
Qed.

Lemma lookup_pushed {A} (l : list A) x c :
  (l ++ [x]) !! c = if decide (c = length l) then Some x else l !! c.
Proof.
  case_decide; [subst; by apply list_lookup_middle|]. destruct (decide (c < length l)).
  - by rewrite lookup_app_l.
  - rewrite !lookup_ge_None_2; [done|lia|rewrite length_app; simpl; lia].
Qed.

Lemma gadd_container id x s : gs_containers s !! id = None → blank x →
  gadd (KC id) (OC (length (gs_heap s))) s
    (put_containers (<[id := length (gs_heap s)]> (gs_containers s)) (gs_hist s ++ [RAdd (KC id) (OC (length (gs_heap s)))])
       (with_heap (gs_heap s ++ [x]) s)).
Proof.
  intros Hid [Hp Hr]. assert (Hlen : gs_heap s !! length (gs_heap s) = None) by (by apply lookup_ge_None_2).
  constructor; simpl.
  - done.
  - intros [id'|c e]; unfold rlookup; simpl.
    + destruct (decide (id' = id)) as [->|Hne]; [by rewrite decide_True, lookup_insert_eq by done|].
      rewrite decide_False by congruence. by rewrite lookup_insert_ne.
    + unfold execs_of. simpl. rewrite lookup_pushed. case_decide; [|done].
      subst c. rewrite Hlen. simpl. by rewrite Hp.
  - intros c. unfold reserved_of. simpl. rewrite lookup_pushed. case_decide; [|done]. subst c. rewrite Hlen. by simpl.
  - intros [c|y]; [|done]. intros (z & Hz & Hd). exists z. simpl. split; [by apply lookup_app_l_Some|done].
  - intros [c|y]; [|by left]. intros (z & Hz & Hd). simpl in Hz. rewrite lookup_pushed in Hz. case_decide; [right; by subst|].
    left. by exists z.
  - rewrite length_app. simpl. lia.
  - intros [c|y]; simpl; [|done]. rewrite length_app. simpl. lia.
Qed.

Lemma gobeys_store id x : blank x → gobeys GFree (store_container id x) (λ m _, m = GFree).
Proof.
  intros Hx s _. simpl. exists GFree. split; [|done]. destruct (gs_containers s !! id) as [c|] eqn:E.
  - apply gstep_quiet, gquiet_refl.
  - do 5 right; left. split; [done|]. split; [done|]. exists id, (OC (length (gs_heap s))).
    split; [simpl; by rewrite E|]. by apply gadd_container.
Qed.

Lemma gquiet_exists id : guar gquiet (atomically (λ s : gsvc, (bool_decide (is_Some (gs_containers s !! id)), s))).
Proof. gq_act. apply gquiet_refl. Qed.

Lemma gobeys_Create a a' r : gobeys GFree (Create k a a' r) back.
Proof.
  unfold Create. apply gobeys_quiet_bind; [apply gquiet_exists|]. intros [|]; [done|].
  apply gobeys_quiet_bind; [apply gquiet_on_exit|]. intros sub. apply obeys_bind.
  eapply obeys_mono; [|apply gobeys_NewContainer]. intros m [x|e] [-> Hb].
  - apply obeys_bind. eapply obeys_mono; [|by apply gobeys_store, Hb]. intros m [c|] ->; apply gobeys_done.
    + apply guar_bind; [apply gquiet_send|]. intros _. apply guar_bind; [apply gquiet_on_exit|]. intros _.
      apply guar_bind; [apply gquiet_on_exit|done].
    + apply guar_bind; [|intros _; apply guar_bind; [apply gquiet_on_exit|done]].
      unfold delete_local. destruct (init_Delete _ _ _).1; [done|apply gquiet_run_cleanup].
  - apply gobeys_done. apply guar_bind; [apply gquiet_on_exit|done].
Qed.

Lemma gobeys_quiet_tail {A} key o (f : gsvc → A * gsvc) {B} (g : A → gprog B) :
  (∀ s, gquiet s (f s).2) → (∀ a, guar gquiet (g a)) → gobeys (GHas key o) (pbind (atomically f) g) back.
Proof. intros Hf Hg. apply gobeys_forget; [done|]. intros a. by apply gobeys_done. Qed.

Lemma gobeys_Start a id e : gobeys GFree (Start a id e) back.
Proof.
  unfold Start. apply gobeys_getContainer; [done|]. intros c. apply gobeys_quiet_tail; [intros s; apply gquiet_refl|].
  intros initPid. apply guar_bind; [apply gquiet_on_exit|]. intros [sub|]; [|done].
  apply guar_bind; [apply gquiet_Process|]. intros [p|]; [|apply gquiet_on_exit].
  apply guar_bind; [apply gquiet_container_Start|]. intros err. apply guar_bind; [apply gquiet_p_read|].
  intros pid. apply gquiet_on_exit.
Qed.

Lemma gobeys_on_process {A} id e (f : pref → gprog (res A)) :
  (∀ p, guar gquiet (f p)) → gobeys GFree (on_process id e f) back.
Proof.
  intros Hf. unfold on_process. apply gobeys_getContainer; [done|]. intros c.
  apply gobeys_quiet_tail; [intros s; apply gquiet_refl|]. intros [p|]; [apply Hf|done].
Qed.

(** *** Deleting *)

Definition obj_of (p : pref) : robj := match p with PInit c => OC c | PExec x => OX x end.

Lemma gkill_container s c x q : gs_heap s !! c = Some x → i_state (c_process x) ≠ StateDeleted → i_state q = StateDeleted →
  gkill (OC c) s (upd c (set_process q) s).
Proof.
  intros Hx Hn Hq. assert (Hl : ∀ c', gs_heap (upd c (set_process q) s) !! c' =
    if decide (c' = c) then Some (set_process q x) else gs_heap s !! c').
  { intros c'. simpl. case_decide; [subst; by rewrite list_lookup_alter_eq, Hx|by apply list_lookup_alter_ne]. }
  constructor.
  - done.
  - intros [id|c' e]; [done|]. unfold rlookup, execs_of. rewrite Hl. case_decide; [|done]. subst c'. by rewrite Hx.
  - intros c'. unfold reserved_of. rewrite Hl. case_decide; [|done]. subst c'. by rewrite Hx.
  - intros (y & Hy & Hd). rewrite Hx in Hy. by simplify_eq.
  - intros [c'|y]; [|naive_solver]. unfold dead. rewrite Hl. destruct (decide (c' = c)) as [->|Hne]; [naive_solver|].
    split; [by left|]. intros [?|[= ->]]; done.
  - intros [c'|y]; simpl; [|done]. by rewrite length_alter.
Qed.

Lemma gkill_exec s x p q : gs_execs s !! x = Some p → x_state p ≠ StateDeleted → x_state q = StateDeleted →
  gkill (OX x) s (with_execs (<[x := q]> (gs_execs s)) s).
Proof.
  intros Hx Hn Hq. constructor; try done.
  - intros (y & Hy & Hd). rewrite Hx in Hy. by simplify_eq.
  - intros [c|y]; [naive_solver|]. simpl. destruct (decide (y = x)) as [->|Hne].
    + rewrite list_lookup_insert_eq by (by eapply lookup_lt_Some). naive_solver.
    + rewrite list_lookup_insert_ne by done. split; [by left|]. intros [?|[= ->]]; done.
  - intros [c|y]; simpl; [done|]. by rewrite length_insert.
Qed.

(** Deleting the object one holds: it becomes ours to remove, or stays as it was. *)
Lemma gobeys_p_Delete {B} a p key (f : option error → gprog B) Q :
  gobeys (GRem key (obj_of p)) (f None) Q → (∀ e, gobeys (GHas key (obj_of p)) (f (Some e)) Q) →
  gobeys (GHas key (obj_of p)) (pbind (p_Delete a p) f) Q.
Proof.
  intros Hok Herr. unfold p_Delete. apply gobeys_act. intros s _. destruct p as [c|x]; cbn [fst snd obj_of] in *.
  - destruct (gs_heap s !! c) as [y|] eqn:E; cbn [fst snd].
    2:{ exists (GHas key (OC c)). split; [apply gstep_quiet, gquiet_refl|apply Herr]. }
    pose proof (init_Delete_fate (ga_rt a) (ga_umount a) (c_process y)) as Hf.
    destruct (init_Delete (ga_rt a) (ga_umount a) (c_process y)) as [[e|] q]; cbn [fst snd].
    + exists (GHas key (OC c)). split; [|apply Herr]. apply gstep_quiet, gquiet_upd. intros x Hx. rewrite E in Hx. by simplify_eq.
    + exists (GRem key (OC c)). split; [|done]. do 3 right; left. exists key, (OC c). split; [done|]. split; [done|].
      destruct Hf. by eapply gkill_container.
  - destruct (gs_execs s !! x) as [y|] eqn:E; cbn [fst snd].
    2:{ exists (GHas key (OX x)). split; [apply gstep_quiet, gquiet_refl|apply Herr]. }
    pose proof (exec_Delete_fate y) as Hf. destruct (exec_Delete y) as [[e|] q]; cbn [fst snd].
    + exists (GHas key (OX x)). split; [|apply Herr]. by eapply gstep_quiet, gquiet_execs.
    + exists (GRem key (OX x)). split; [|done]. do 3 right; left. exists key, (OX x). split; [done|]. split; [done|].
      destruct Hf. by eapply gkill_exec.
Qed.

(** The lookups of one container after its registries changed. *)
Lemma upd_procs_lookup s c f c' :
  gs_heap (upd c (λ y, set_procs (f y).1 (f y).2 y) s) !! c' =
    if decide (c' = c) then (λ y, set_procs (f y).1 (f y).2 y) <$> gs_heap s !! c' else gs_heap s !! c'.
Proof. simpl. case_decide; [subst; apply list_lookup_alter_eq|by apply list_lookup_alter_ne]. Qed.

Lemma gremove_exec s c e x :
  gremove (KX c e) (OX x) s (put_hist (gs_hist s ++ [RDel (KX c e) (OX x)])
    (upd c (λ y, set_procs (delete e (c_processes y)) (c_reserved y) y) s)).
Proof.
  pose proof (upd_procs_lookup s c (λ y, (delete e (c_processes y), c_reserved y))) as Hl. cbn [fst snd] in Hl.
  change (∀ c', gs_heap (put_hist (gs_hist s ++ [RDel (KX c e) (OX x)])
    (upd c (λ y, set_procs (delete e (c_processes y)) (c_reserved y) y) s)) !! c' =
    if decide (c' = c) then (λ y, set_procs (delete e (c_processes y)) (c_reserved y) y) <$> gs_heap s !! c'
    else gs_heap s !! c') in Hl.
  constructor.
  - done.
  - intros [id|c' e']; [by rewrite decide_False|]. unfold rlookup, execs_of. rewrite Hl. case_decide as Hc.
    + subst c'. destruct (gs_heap s !! c) as [y|]; simpl; [|by case_decide].
      destruct (decide (e' = e)) as [->|Hne]; [by rewrite decide_True, lookup_delete_eq by done|].
      rewrite decide_False by congruence. by rewrite lookup_delete_ne.
    + rewrite decide_False by congruence. done.
  - intros c'. unfold reserved_of. rewrite Hl. case_decide; [|done]. by destruct (gs_heap s !! c').
  - intros [c'|y]; [|done]. unfold dead. rewrite Hl. case_decide; [|done]. subst c'.
    destruct (gs_heap s !! c); simpl; naive_solver.
  - intros [c'|y]; simpl; [|done]. by rewrite length_alter.
Qed.

Lemma gremove_container s id c :
  gremove (KC id) (OC c) s (put_containers (delete id (gs_containers s)) (gs_hist s ++ [RDel (KC id) (OC c)]) s).
Proof.
  constructor; try done. intros [id'|c' e']; simpl; [|done].
  destruct (decide (id' = id)) as [->|Hne]; [by rewrite decide_True, lookup_delete_eq by done|].
  rewrite decide_False by congruence. by rewrite lookup_delete_ne.
Qed.

Lemma gstep_remove key o s s' : gremove key o s s' → gmstep (GRem key o) s s' GFree.
Proof. intros H. do 4 right; left. eauto 8. Qed.

Definition delete_post (id : string) (c : nat) (execID : string) (m : gmode) (r : res pref) : Prop :=
  match r with
  | Ok (PInit _) => execID = "" ∧ m = GRem (KC id) (OC c)
  | Ok (PExec _) => execID ≠ "" ∧ m = GFree
  | Err _ => back m r
  end.

Lemma gobeys_container_Delete a id c execID :
  gobeys (GHas (KC id) (OC c)) (container_Delete k a c execID) (delete_post id c execID).
Proof.
  unfold container_Delete, container_Process, read_container. destruct (decide (execID = "")) as [->|He].
  - apply gobeys_act. intros s _. exists (GHas (KC id) (OC c)). split; [apply gstep_quiet, gquiet_refl|]. cbn [fst snd].
    destruct (gs_heap s !! c); [|done].
    apply (gobeys_p_Delete a (PInit c) (KC id)); [|done].
    apply gobeys_quiet_bind; [apply gquiet_take_cleanup|]. intros m.
    apply gobeys_quiet_bind; [apply gquiet_run_cleanup|]. done.
  - apply gobeys_act. intros s _. cbn [fst snd]. destruct (gs_heap s !! c) as [x|] eqn:Hc.
    2:{ exists (GHas (KC id) (OC c)). split; [apply gstep_quiet, gquiet_refl|done]. }
    destruct (c_processes x !! execID) as [y|] eqn:Hy.
    2:{ exists (GHas (KC id) (OC c)). split; [apply gstep_quiet, gquiet_refl|done]. }
    exists (GHas (KX c execID) (OX y)). split.
    { right; left. split; [done|]. split; [apply gquiet_refl|]. exists (KX c execID), (OX y). split; [done|].
      simpl. unfold execs_of. rewrite Hc. simpl. by rewrite Hy. }
    apply (gobeys_p_Delete a (PExec y) (KX c execID)); [|done].
    apply gobeys_act. intros s' _. exists GFree. split; [apply gstep_remove, gremove_exec|done].
Qed.

Lemma gobeys_Delete a id e : gobeys GFree (Delete k a id e) back.
Proof.
  unfold Delete. apply gobeys_getContainer; [done|]. intros c. apply obeys_bind.
  eapply obeys_mono; [|apply gobeys_container_Delete]. intros m [p|err] Hp; [|done].
  apply obeys_bind. destruct (decide (e = "")) as [He|He].
  - destruct p as [c'|x]; simpl in Hp; [|by destruct Hp]. destruct Hp as [_ ->].
    apply gobeys_act. intros s _. exists GFree. split; [apply gstep_remove, gremove_container|].
    eapply obeys_mono; [|apply gobeys_quiet, gquiet_on_exit]. intros m' [] ->.
    apply gobeys_done, guar_bind; [apply gquiet_p_read|done].
  - destruct p as [c'|x]; simpl in Hp; [by destruct Hp|]. destruct Hp as [_ ->].
    apply gobeys_done, guar_bind; [apply gquiet_p_read|done].
Qed.

(** *** Adding an exec *)

Lemma greserve_upd s c x f : gs_heap s !! c = Some x →
  greserve c f s (upd c (λ y, set_procs (c_processes y) (f (c_reserved y)) y) s).
Proof.
  intros Hx. pose proof (upd_procs_lookup s c (λ y, (c_processes y, f (c_reserved y)))) as Hl. cbn [fst snd] in Hl.
  constructor.
  - done.
  - intros [id|c' e]; [done|]. unfold rlookup, execs_of. rewrite Hl. case_decide; [|done]. by destruct (gs_heap s !! c').
  - intros c'. unfold reserved_of. rewrite Hl. case_decide; [|done]. subst c'. by rewrite Hx.
  - intros [c'|y]; [|done]. unfold dead. rewrite Hl. case_decide; [|done]. subst c'. rewrite Hx. simpl. naive_solver.
  - intros [c'|y]; simpl; [|done]. by rewrite length_alter.
Qed.

Lemma gadd_exec s c e p x : gs_heap s !! c = Some x →
  gadd (KX c e) (OX (length (gs_execs s))) s
    (put_hist (gs_hist s ++ [RAdd (KX c e) (OX (length (gs_execs s)))])
      (with_execs (gs_execs s ++ [p])
        (upd c (λ y, set_procs (<[e := length (gs_execs s)]> (c_processes y)) (c_reserved y ∖ {[e]}) y) s))).
Proof.
  intros Hx. set (n := length (gs_execs s)).
  pose proof (upd_procs_lookup s c (λ y, (<[e := n]> (c_processes y), c_reserved y ∖ {[e]}))) as Hl. cbn [fst snd] in Hl.
  constructor.
  - done.
  - intros [id|c' e']; [by rewrite decide_False|]. unfold rlookup, execs_of. simpl gs_heap. simpl in Hl. rewrite Hl.
    case_decide as Hc; [|by rewrite decide_False by congruence]. subst c'. rewrite Hx. simpl.
    destruct (decide (e' = e)) as [->|Hne]; [by rewrite decide_True, lookup_insert_eq by done|].
    rewrite decide_False by congruence. by rewrite lookup_insert_ne.
  - intros c'. unfold reserved_of. simpl gs_heap. simpl in Hl. rewrite Hl. case_decide; [|done]. subst c'. by rewrite Hx.
  - intros [c'|y]; simpl.
    + simpl in Hl. rewrite Hl. case_decide; [|done]. subst c'. rewrite Hx. simpl. naive_solver.
    + intros (q & Hq & ?). exists q. split; [by apply lookup_app_l_Some|done].
  - intros [c'|y]; simpl.
    + simpl in Hl. rewrite Hl. case_decide; [|naive_solver]. subst c'. rewrite Hx. simpl. naive_solver.
    + rewrite lookup_pushed. case_decide; [right; by subst|naive_solver].
  - simpl. rewrite length_app. simpl. fold n. lia.
  - intros [c'|y]; simpl; [by rewrite length_alter|]. rewrite length_app. simpl. lia.
Qed.

Lemma reserved_heap s c e : e ∈ reserved_of s c → ∃ x, gs_heap s !! c = Some x.
Proof. unfold reserved_of. destruct (gs_heap s !! c); simpl; [eauto|set_solver]. Qed.

Lemma gobeys_container_Exec {B} a c e t (f : option error → gprog B) Q :
  gobeys GFree (f None) Q → (∀ err, gobeys (GRes c e) (f (Some err)) Q) →
  gobeys (GRes c e) (pbind (container_Exec a c e t) f) Q.
Proof.
  intros Hok Herr. apply obeys_bind. unfold container_Exec. apply gobeys_quiet_bind; [apply gquiet_read|].
  intros [p|err]; [|apply Herr]. apply gobeys_act. intros s Hs. exists GFree. split; [|done].
  do 7 right. exists c, e. split; [done|]. split; [done|]. right. eexists.
  destruct (reserved_heap _ _ _ Hs) as [x Hx]. by eapply gadd_exec.
Qed.

Lemma gobeys_Exec a id e t : gobeys GFree (Exec a id e t) back.
Proof.
  unfold Exec. apply gobeys_getContainer; [done|]. intros c. apply gobeys_act. intros s _.
  destruct (gs_heap s !! c) as [x|] eqn:Hx; [|exists GFree; split; [right; right; left; eauto 6 using gquiet_refl|done]].
  destruct (decide _) as [|Hn]; cbn [fst snd negb].
  { exists GFree. split; [right; right; left; eauto 6 using gquiet_refl|done]. }
  exists (GRes c e). split.
  - do 6 right; left. split; [done|]. exists c, e. split; [done|]. split; [|split].
    + simpl. unfold execs_of. rewrite Hx. simpl. destruct (c_processes x !! e) eqn:E; [|done]. exfalso. apply Hn. left. eauto.
    + unfold reserved_of. rewrite Hx. simpl. tauto.
    + by apply (greserve_upd s c x (λ r, {[e]} ∪ r)).
  - apply gobeys_container_Exec; [apply gobeys_done, guar_bind; [apply gquiet_send|done]|].
    intros err. apply gobeys_act. intros s' Hs'. exists GFree. split; [|done]. do 7 right. exists c, e.
    split; [done|]. split; [done|]. left. destruct (reserved_heap _ _ _ Hs') as [y Hy].
    by apply (greserve_upd s' c y (λ r, r ∖ {[e]})).
Qed.

(** ** Any interleaving of the service's calls *)

Inductive gcall :=
  | GCreate (a a' : ganswers) (r : CreateRequest)
  | GStart (a : ganswers) (id execID : string)
  | GDelete (a : ganswers) (id execID : string)
  | GExec (a : ganswers) (id execID : string) (terminal : bool)
  | GKill (a : ganswers) (id execID : string)
  | GResize (a : ganswers) (id execID : string)
  | GCloseIO (a : ganswers) (id execID : string)
  | GUpdate (a : ganswers) (id : string)
  | GState (id execID : string)
  | GExit (now status : Z) (p : pref)
  | GShutdown.

Definition gperform (g : gcall) : gprog () :=
  match g with
  | GCreate a a' r => _ <- Create k a a' r ;; Ret tt
  | GStart a id e => _ <- Start a id e ;; Ret tt
  | GDelete a id e => _ <- Delete k a id e ;; Ret tt
  | GExec a id e t => _ <- Exec a id e t ;; Ret tt
  | GKill a id e => _ <- Kill a id e ;; Ret tt
  | GResize a id e => _ <- ResizePty a id e ;; Ret tt
  | GCloseIO a id e => _ <- CloseIO a id e ;; Ret tt
  | GUpdate a id => _ <- Update a id ;; Ret tt
  | GState id e => _ <- State_ id e ;; Ret tt
  | GExit now st p => p_SetExited now st p
  | GShutdown => Shutdown
  end.

Lemma gobeys_perform g : gobeys GFree (gperform g) back.
Proof.
  assert (Hb : ∀ {A} (p : gprog A), gobeys GFree p back → gobeys GFree (_ <- p ;; Ret tt) back).
  { intros A p Hp. apply obeys_bind. eapply obeys_mono; [|exact Hp]. done. }
  destruct g; unfold gperform.
  - apply Hb, gobeys_Create.
  - apply Hb, gobeys_Start.
  - apply Hb, gobeys_Delete.
  - apply Hb, gobeys_Exec.
  - apply Hb, gobeys_on_process. intros p. apply guar_bind; [apply gquiet_p_read|done].
  - apply Hb, gobeys_on_process. intros p. apply guar_bind; [apply gquiet_p_read|done].
  - apply Hb, gobeys_on_process. done.
  - apply Hb, gobeys_on_process. intros p. apply guar_bind; [apply gquiet_p_read|done].
  - apply Hb, gobeys_on_process. intros p. apply guar_bind; [apply gquiet_p_read|done].
  - apply gobeys_done, gquiet_p_SetExited.
  - apply gobeys_done. gq_act. destruct (decide _); [by constructor|apply gquiet_refl].
Qed.

Definition gempty (w : world) (e : guest) : gsvc := mkG ∅ [] [] e w [] [] false false.

Lemma ginv_empty w e n : ginv (gempty w e) (replicate n GFree).
Proof.
  assert (Hr : ∀ m i, replicate n GFree !! i = Some m → m = GFree) by (by intros m i [-> _]%lookup_replicate).
  assert (Hl : ∀ key, rlookup (gempty w e) key = None).
  { intros [id|c x]; simpl; unfold execs_of; simpl; by rewrite lookup_empty. }
  assert (Ha : ∀ key o, ¬ added (gs_hist (gempty w e)) key o) by (intros key o; apply not_elem_of_nil).
  constructor.
  - exists ∅. split; [done|]. intros key. by rewrite Hl, lookup_empty.
  - intros c x _. apply Hl.
  - by intros key o []%Ha.
  - by intros key key' o []%Ha.
  - by intros key o []%Ha.
  - intros key o H. by rewrite Hl in H.
  - intros i m H. by rewrite (Hr _ _ H).
  - intros i j m m' H H'. by rewrite (Hr _ _ H), (Hr _ _ H').
Qed.

Lemma ginv_reached w e calls c :
  rtc pstep (gempty w e, gperform <$> calls) c → ∃ ms, ginv c.1 ms.
Proof.
  intros Hr. eapply (explained_rtc gmstep (flip mode_ok) back ginv) in Hr.
  - destruct Hr as (ms & HI & _). eauto.
  - intros s ms i m HI Hi. by eapply (gi_modes _ _ HI).
  - intros s s' ms i m m' HI Hi Hs. by eapply ginv_step.
  - exists (replicate (length calls) GFree). split; [apply ginv_empty|]. simpl.
    clear. induction calls as [|g gs IH]; simpl; [constructor|]. constructor; [apply gobeys_perform|done].
Qed.

(** C5: Whatever the interleaving of the guest task service's Create, Start,
    Delete, Exec and other calls with process exits, the containers and exec
    registries are the abstract registry obtained by replaying what entered
    and left them, in which a key is added only when free and removed only
    with the object it holds; a reserved exec ID is not registered, and what
    was registered stays so until its Delete succeeds. *)
Theorem registry_refines_history w e calls c :
  rtc pstep (gempty w e, gperform <$> calls) c →
  (∃ m, replay (gs_hist c.1) = Some m ∧ ∀ key, rlookup c.1 key = m !! key) ∧
  (∀ n x, x ∈ reserved_of c.1 n → execs_of c.1 n !! x = None) ∧
  (∀ key o, added (gs_hist c.1) key o → dead c.1 o ∨ rlookup c.1 key = Some o).
Proof.
  intros Hr. destruct (ginv_reached _ _ _ _ Hr) as [ms HI]. split_and!; [apply (gi_replay _ _ HI)| |apply (gi_added _ _ HI)].
  intros n x Hx. pose proof (gi_disj _ _ HI n x Hx) as H. simpl in H. by destruct (execs_of c.1 n !! x).
Qed.
End handlers.

(** ** A run: two concurrent Execs with one ID, and a Delete between them *)

Definition still_kernel : kernel := mkKernel (λ _ _, None) (λ _, 0%Z) (λ _ _, mkPoll None 0 None).
Definition fine : ganswers :=
  mkGAnswers (mkRt None (Ok "")) None (mkStartEnv None (mkRt None (Ok "")) None None (Ok 7%Z)) None None None None None true None None.
Definition race_calls : list gcall :=
  [GCreate fine fine (mkCreate "c" "/b" [] false); GExec fine "c" "x" false; GExec fine "c" "x" false;
   GDelete fine "c" "x"; GDelete fine "c" "x"].
Definition quiet_guest : guest := new_guest.
Definition raced : gsvc * list (gprog ()) :=
  sched (replicate 8 0 ++ [1; 2; 1; 2; 1; 1; 1; 3; 4; 3; 4; 3; 4; 3; 3]) (gempty [] quiet_guest, gperform still_kernel <$> race_calls).

Lemma registry_refines_history_witness :
  gs_hist raced.1 = [RAdd (KC "c") (OC 0); RAdd (KX 0 "x") (OX 0); RDel (KX 0 "x") (OX 0)] ∧
  (∃ m, replay (gs_hist raced.1) = Some m ∧ ∀ key, rlookup raced.1 key = m !! key).
Proof.
  split; [vm_compute; reflexivity|].
  exact (proj1 (registry_refines_history still_kernel [] quiet_guest race_calls raced (sched_steps _ _))).
Defined.
