(* ===== verification/EventStream.v ===== *)
(** The event path of the shim: startEventForwarder, reconnectEventStream,
    waitForIOBeforeExit, send and forward of internal/shim/task/service.go.

    The receive loop, the goroutine in Recv, the publisher's loop, the other
    senders and the close of the channel interleave: [estep] performs one action
    and is undefined when that action cannot be taken; a [choice] says which ready
    case of a select was picked and what the guest answered.  [es_results],
    [es_handed] and [es_reconnects] record what Recv returned, what was handed to the
    publisher and how the reconnects went.  Times are nanoseconds. *)
From S2P Require Import Prelude GoStrings GoState ShimIO.

(** ** Data *)

(** The body of an envelope as typeurl decodes it. *)
Inductive payload := NoEvent | Undecodable | TaskExit (containerID id : string) | OtherEvent.
Record Envelope := mkEnvelope { Topic : string; Event : payload }.

Definition TaskExitEventTopic : string := "/tasks/exit".

(** What [errors.Is] answers for a receive error. *)
Record recvErr := mkRecvErr { is_eof : bool; is_shutdown : bool; is_ttrpc_closed : bool }.
Inductive recvResult := RErr (e : recvErr) | REvent (e : option Envelope).

(** The Recv goroutine: none, in Recv, or its result in [recvCh]. *)
Inductive receiver := RIdle | RPending | RReady (r : recvResult).

(** What the events channel carries: a guest's envelope or an event of the shim. *)
Inductive qevent := FromGuest (e : Envelope) | FromShim (topic : string).

Inductive phase :=
  | LSelect
  | LWait (e : Envelope) (f : IOForwarder) (since : Z)
  | LSend (e : Envelope)
  | LReconnect
  | LDelay (until : Z)
  | LEnd (reason : option string).

(** The container as getIOForwarder reads it: its ID, its init forwarder and those
    of its execs; the interface may be nil. *)
Record watched := mkWatched { wt_ID : string; wt_init : option IOForwarder; wt_exec : gmap string (option IOForwarder) }.

Record evst := mkEvst {
  es_phase : phase;
  es_recv : receiver;
  es_client : nat;
  es_queue : list qevent;
  es_done : bool;
  es_closed : bool;
  es_handed : list (qevent * bool);
  es_forwardDone : bool;
  es_container : option watched;
  es_intentional : bool;
  es_vmExit : bool;
  es_now : Z;
  es_results : list recvResult;
  es_reconnects : list (option nat);
  es_panic : bool
}.

Definition at_phase p r s := mkEvst p r (es_client s) (es_queue s) (es_done s) (es_closed s) (es_handed s)
  (es_forwardDone s) (es_container s) (es_intentional s) (es_vmExit s) (es_now s) (es_results s) (es_reconnects s) (es_panic s).
Definition with_queue q pub s := mkEvst (es_phase s) (es_recv s) (es_client s) q (es_done s) (es_closed s) pub
  (es_forwardDone s) (es_container s) (es_intentional s) (es_vmExit s) (es_now s) (es_results s) (es_reconnects s) (es_panic s).
Definition with_time t s := mkEvst (es_phase s) (es_recv s) (es_client s) (es_queue s) (es_done s) (es_closed s)
  (es_handed s) (es_forwardDone s) (es_container s) (es_intentional s) (es_vmExit s) t (es_results s) (es_reconnects s) (es_panic s).
Definition with_client c s := mkEvst (es_phase s) (es_recv s) c (es_queue s) (es_done s) (es_closed s)
  (es_handed s) (es_forwardDone s) (es_container s) (es_intentional s) (es_vmExit s) (es_now s) (es_results s) (es_reconnects s) (es_panic s).
Definition with_flags done closed fdone intentional vmExit s := mkEvst (es_phase s) (es_recv s) (es_client s) (es_queue s)
  done closed (es_handed s) fdone (es_container s) intentional vmExit (es_now s) (es_results s) (es_reconnects s) (es_panic s).
Definition with_container c s := mkEvst (es_phase s) (es_recv s) (es_client s) (es_queue s) (es_done s) (es_closed s)
  (es_handed s) (es_forwardDone s) c (es_intentional s) (es_vmExit s) (es_now s) (es_results s) (es_reconnects s) (es_panic s).
Definition received r s := mkEvst (es_phase s) (RReady r) (es_client s) (es_queue s) (es_done s) (es_closed s)
  (es_handed s) (es_forwardDone s) (es_container s) (es_intentional s) (es_vmExit s) (es_now s) (es_results s ++ [r]) (es_reconnects s) (es_panic s).
Definition with_reconnect r s := mkEvst (es_phase s) (es_recv s) (es_client s) (es_queue s) (es_done s) (es_closed s)
  (es_handed s) (es_forwardDone s) (es_container s) (es_intentional s) (es_vmExit s) (es_now s) (es_results s) (es_reconnects s ++ [r]) (es_panic s).
Definition panics s := mkEvst (es_phase s) (es_recv s) (es_client s) (es_queue s) (es_done s) (es_closed s)
  (es_handed s) (es_forwardDone s) (es_container s) (es_intentional s) (es_vmExit s) (es_now s) (es_results s) (es_reconnects s) true.

(** ** Reconnecting *)

Definition millisecond : Z := 1000000.
Definition eventChannelBuffer : nat := 128.
Definition eventStreamShutdownDelay : Z := 2000 * millisecond.
Definition eventStreamReconnectTimeout : Z := 2000 * millisecond.
Definition ioWaitTimeout : Z := 30000 * millisecond.
Definition initialBackoff : Z := 50 * millisecond.
Definition maxBackoff : Z := 500 * millisecond.

(** One round of the reconnect loop: whether the shutdown is intentional by then,
    what dialling and opening the stream answer, how long that takes, and the
    random part of the sleep after a failure. *)
Record attempt := mkAttempt {
  at_intentional : bool;
  at_dial : option nat;
  at_stream : bool;
  at_took : Z;
  at_jitter : Z
}.

(** [sleepWithJitter]: at most a fifth more or less than asked for. *)
Definition jitter_ok (backoff j : Z) : Prop := (- backoff ≤ 5 * j ≤ backoff)%Z.

(** The loop of [reconnectEventStream]: the new client and the time, with the
    clients that were dialled and closed again; [None] is a loop that goes on. *)
Fixpoint reconnect_loop (fuel : nat) (as_ : nat → attempt) (k : nat) (now deadline backoff : Z)
    (closed : list nat) : option (option nat * Z * list nat) :=
  match fuel with
  | O => None
  | S fuel' =>
      if (now <? deadline)%Z then
        let a := as_ k in
        if at_intentional a then Some (None, now, closed)
        else
          let now1 := (now + at_took a)%Z in
          let again closed :=
            reconnect_loop fuel' as_ (S k) (now1 + (backoff + at_jitter a))%Z deadline (Z.min (backoff * 2) maxBackoff) closed in
          match at_dial a with
          | None => again closed
          | Some c => if at_stream a then Some (Some c, now1, closed) else again (closed ++ [c])
          end
      else Some (None, now, closed)
  end.

(** Rounds that always suffice: the shortest sleep is 40 ms. *)
Definition reconnect_fuel : nat := 51.

Definition reconnectEventStream (as_ : nat → attempt) (now : Z) : option (option nat * Z * list nat) :=
  reconnect_loop reconnect_fuel as_ 0 now (now + eventStreamReconnectTimeout) initialBackoff [].

(** ** The receive loop *)

Definition getIOForwarder (c : option watched) (containerID execID : string) : option IOForwarder :=
  match c with
  | None => None
  | Some w => if decide (wt_ID w = containerID) then
                if decide (execID = "") then wt_init w else default None (wt_exec w !! execID)
              else None
  end.

(** Whether [WaitForComplete] of a forwarder has returned, given its I/O: both
    implementations return at once. *)
Definition WaitForComplete (f : IOForwarder) (w : ioworld) : bool :=
  match f with noopForwarder _ => true | directForwarder _ _ _ => true end.

(** The first half of [waitForIOBeforeExit]: the forwarder to wait for. *)
Definition waitForIOBeforeExit (c : option watched) (e : Envelope) : option IOForwarder :=
  match Event e with
  | TaskExit containerID id => getIOForwarder c containerID (if decide (id = containerID) then "" else id)
  | _ => None
  end.

Definition forward_event (e : Envelope) (s : evst) : evst :=
  match (if decide (Topic e = TaskExitEventTopic) then waitForIOBeforeExit (es_container s) e else None) with
  | Some f => at_phase (LWait e f (es_now s)) RIdle s
  | None => at_phase (LSend e) RIdle s
  end.

Definition receive_error (e : recvErr) (s : evst) : evst :=
  if es_intentional s then at_phase (LEnd None) RIdle s
  else if is_eof e || is_shutdown e || is_ttrpc_closed e then at_phase LReconnect RIdle s
  else at_phase (LDelay (es_now s + eventStreamShutdownDelay)) RIdle s.

(** [send]: sends on a closed channel panic, on a full one block. *)
Definition push (e : qevent) (s : evst) : option evst :=
  if es_closed s then Some (panics s)
  else if (length (es_queue s) <? eventChannelBuffer)%nat then Some (with_queue (es_queue s ++ [e]) (es_handed s) s)
  else None.
Definition drop_event (s : evst) : option evst := if es_done s then Some s else None.

Inductive choice :=
  | CVMExit | CRecv
  | CComplete (w : ioworld) | CTimeout
  | CPush | CDrop
  | CReconnect (as_ : nat → attempt)
  | CRequest.

Definition next_receive (s : evst) : evst := at_phase LSelect RPending s.

(** One move of the loop in the phase it is in. *)
Definition loop_step (c : choice) (s : evst) : option evst :=
  match es_phase s, c with
  | LSelect, CVMExit => if es_vmExit s then Some (at_phase (LEnd (Some "vm process exit")) (es_recv s) s) else None
  | LSelect, CRecv =>
      match es_recv s with
      | RReady (RErr e) => Some (receive_error e s)
      | RReady (REvent None) => Some (next_receive s)
      | RReady (REvent (Some e)) => Some (forward_event e s)
      | _ => None
      end
  | LWait e f _, CComplete w => if WaitForComplete f w then Some (at_phase (LSend e) RIdle s) else None
  | LWait e _ t, CTimeout => if (t + ioWaitTimeout <=? es_now s)%Z then Some (at_phase (LSend e) RIdle s) else None
  | LSend e, CPush => next_receive <$> push (FromGuest e) s
  | LSend e, CDrop => next_receive <$> drop_event s
  | LReconnect, CReconnect as_ =>
      match reconnectEventStream as_ (es_now s) with
      | Some (Some c, t, _) => Some (next_receive (with_client c (with_time t (with_reconnect (Some c) s))))
      | Some (None, t, _) => Some (at_phase (LDelay (t + eventStreamShutdownDelay)) RIdle (with_time t (with_reconnect None s)))
      | None => None
      end
  | LDelay t, CRequest =>
      if (t <=? es_now s)%Z then Some (at_phase (LEnd (Some "vm event stream closed")) RIdle s) else None
  | _, _ => None
  end.

(** ** Everything else *)

Inductive input :=
  | ILoop (c : choice)
  | IRecv (r : recvResult)             (** Recv returns *)
  | IShimSend (topic : string) (pickDone : bool)
  | IPublish (ok : bool)               (** forward takes the next event, and Publish succeeds or not *)
  | IForwardEnd                        (** its loop ends at the closed channel *)
  | ICloseDone | ICloseEvents          (** the two closes of closeEvents *)
  | IIntentional (b : bool) | IVMExit
  | IContainer (c : option watched)    (** containers and execs come and go *)
  | ITick (dt : N).

Definition estep (i : input) (s : evst) : option evst :=
  if es_panic s then None else
  match i with
  | ILoop c => loop_step c s
  | IRecv r => match es_recv s with
               | RPending => Some (received r s)
               | _ => None
               end
  | IShimSend t pickDone => if pickDone then drop_event s else push (FromShim t) s
  | IPublish ok => match es_queue s with
                | e :: q => if es_forwardDone s then None else Some (with_queue q (es_handed s ++ [(e, ok)]) s)
                | [] => None
                end
  | IForwardEnd => if es_closed s && bool_decide (es_queue s = [])
                   then Some (with_flags (es_done s) (es_closed s) true (es_intentional s) (es_vmExit s) s) else None
  | ICloseDone => Some (with_flags true (es_closed s) (es_forwardDone s) (es_intentional s) (es_vmExit s) s)
  | ICloseEvents => if es_done s then Some (with_flags true true (es_forwardDone s) (es_intentional s) (es_vmExit s) s) else None
  | IIntentional b => Some (with_flags (es_done s) (es_closed s) (es_forwardDone s) b (es_vmExit s) s)
  | IVMExit => Some (with_flags (es_done s) (es_closed s) (es_forwardDone s) (es_intentional s) true s)
  | IContainer c => Some (with_container c s)
  | ITick dt => Some (with_time (es_now s + Z.of_N dt)%Z s)
  end.

Fixpoint erun (is_ : list input) (s : evst) : option evst :=
  match is_ with
  | [] => Some s
  | i :: is_' => estep i s ≫= erun is_'
  end.

(** After a successful Stream call of startEventForwarder. *)
Definition startEventForwarder (client : nat) : evst :=
  mkEvst LSelect RPending client [] false false [] false None false false 0 [] [] false.

(** ** Order and completeness *)

Definition guest_of (q : list qevent) : list Envelope :=
  omap (λ e, match e with FromGuest e => Some e | FromShim _ => None end) q.

(** What the loop has taken or will take out of [recvCh]. *)
Definition in_hand (s : evst) : list Envelope :=
  (match es_phase s with LWait e _ _ | LSend e => [e] | _ => [] end)
  ++ (match es_recv s with RReady (REvent (Some e)) => [e] | _ => [] end).

(** What Recv has returned. *)
Definition envelopes (rs : list recvResult) : list Envelope :=
  omap (λ r, match r with REvent e => e | RErr _ => None end) rs.
Definition recvd (s : evst) : list Envelope := envelopes (es_results s).

Definition accepted (s : evst) : list Envelope := guest_of ((es_handed s).*1 ++ es_queue s).

(** The stream is lost: the last Recv failed, and when the error is one a reconnect
    may cure, a reconnect has failed since. *)
Definition stream_error (e : recvErr) (s : evst) : Prop := last (es_results s) = Some (RErr e) ∧ es_recv s = RIdle.
Definition stream_lost (s : evst) : Prop := ∃ e, stream_error e s ∧
  (is_eof e || is_shutdown e || is_ttrpc_closed e = true → last (es_reconnects s) = Some None).

Record einv (s : evst) : Prop := mkEinv {
  ei_recv : match es_phase s with LSelect | LEnd _ => True | _ => es_recv s = RIdle end;
  ei_all : es_done s = false → accepted s ++ in_hand s = recvd s;
  ei_sub : sublist (accepted s ++ in_hand s) (recvd s);
  ei_closed : es_closed s = true → es_done s = true;
  ei_cap : length (es_queue s) ≤ eventChannelBuffer;
  ei_fwd : es_forwardDone s = true → es_closed s = true ∧ es_queue s = []
}.

(** A move that neither sends nor receives. *)
Lemma einv_same s s' :
  einv s → accepted s' = accepted s → in_hand s' = in_hand s → recvd s' = recvd s → es_queue s' = es_queue s →
  (es_done s = true → es_done s' = true) → (es_closed s = true → es_closed s' = true) →
  (es_closed s' = true → es_done s' = true) →
  (es_forwardDone s' = true → es_closed s' = true ∧ es_queue s' = []) →
  match es_phase s' with LSelect | LEnd _ => True | _ => es_recv s' = RIdle end →
  einv s'.
Proof.
  intros [Ir Ia Is Ic Iq If] Ha Hh Hr Hq Hd Hc Hcd Hf Hp. constructor; rewrite ?Ha, ?Hh, ?Hr, ?Hq; try done.
  - intros Hd'. apply Ia. destruct (es_done s); [by rewrite Hd in Hd'|done].
  - intros H. apply Hf in H. by rewrite Hq in H.
Qed.

Ltac same := eapply einv_same; [done|done|try done|done|done|try done|try done|try done|try done|try done].

Lemma einv_flags s d c f i v : einv s →
  (es_done s = true → d = true) → (es_closed s = true → c = true) → (c = true → d = true) →
  (f = true → c = true ∧ es_queue s = []) → einv (with_flags d c f i v s).
Proof.
  intros HI Hd Hc Hcd Hf. same.
  apply (ei_recv _ HI).
Qed.

Lemma einv_push e s s' : einv s → push e s = Some s' →
  es_closed s = true ∧ s' = panics s ∨ (es_closed s = false ∧ s' = with_queue (es_queue s ++ [e]) (es_handed s) s ∧
    length (es_queue s ++ [e]) ≤ eventChannelBuffer).
Proof.
  intros HI. unfold push. destruct (es_closed s); [intros [= <-]; by left|].
  destruct (_ <? _)%nat eqn:E; [|done]. intros [= <-]. right. apply Nat.ltb_lt in E. rewrite length_app. simpl.
  split_and!; [done|done|lia].
Qed.

Lemma einv_panics s : einv s → einv (panics s).
Proof. intros HI. same; [apply (ei_closed _ HI)|apply (ei_fwd _ HI)|apply (ei_recv _ HI)]. Qed.

Lemma guest_of_app q q' : guest_of (q ++ q') = guest_of q ++ guest_of q'.
Proof. apply omap_app. Qed.

(** The queue grows by a shim's event. *)
Lemma einv_shim t s : einv s → es_closed s = false → length (es_queue s ++ [FromShim t]) ≤ eventChannelBuffer →
  einv (with_queue (es_queue s ++ [FromShim t]) (es_handed s) s).
Proof.
  intros [Ir Ia Is Ic Iq If] Hc Hl.
  assert (Ha : accepted (with_queue (es_queue s ++ [FromShim t]) (es_handed s) s) = accepted s).
  { unfold accepted. simpl. rewrite !guest_of_app. simpl. by rewrite app_nil_r. }
  constructor; rewrite ?Ha; try done. intros H. apply If in H as [H _]. by rewrite Hc in H.
Qed.

(** The loop's envelope enters the queue, or is dropped after [eventsDone]. *)
Lemma einv_sent e s : einv s → es_phase s = LSend e → es_closed s = false →
  length (es_queue s ++ [FromGuest e]) ≤ eventChannelBuffer →
  einv (next_receive (with_queue (es_queue s ++ [FromGuest e]) (es_handed s) s)).
Proof.
  intros [Ir Ia Is Ic Iq If] Hp Hc Hl. rewrite Hp in Ir.
  assert (Ha : accepted (next_receive (with_queue (es_queue s ++ [FromGuest e]) (es_handed s) s))
    ++ in_hand (next_receive (with_queue (es_queue s ++ [FromGuest e]) (es_handed s) s)) = accepted s ++ in_hand s).
  { unfold accepted, in_hand. simpl. rewrite Hp, Ir, !guest_of_app. simpl. by rewrite <- !app_assoc, !app_nil_r. }
  constructor; rewrite ?Ha; try done. simpl. intros H. apply If in H as [H _]. by rewrite Hc in H.
Qed.

Lemma einv_dropped e s : einv s → es_phase s = LSend e → es_done s = true → einv (next_receive s).
Proof.
  intros [Ir Ia Is Ic Iq If] Hp Hd. constructor; simpl; try done; [by rewrite Hd|].
  unfold accepted, in_hand in *. simpl. rewrite app_nil_r. eapply transitivity; [|exact Is]. apply sublist_inserts_r. done.
Qed.

Lemma einv_loop c s s' : einv s → loop_step c s = Some s' → einv s'.
Proof.
  intros HI. pose proof HI as [Ir Ia Is Ic Iq If]. unfold loop_step. destruct (es_phase s) as [|e f t|e| |t|] eqn:Hp.
  - destruct c; try done.
    + destruct (es_vmExit s) eqn:Hv; [|done]. intros [= <-]. same.
      unfold in_hand. simpl. by rewrite Hp.
    + destruct (es_recv s) as [| |[e|[e|]]] eqn:Hr; try done; intros [= <-].
      * unfold receive_error. repeat case_match; same; unfold in_hand; simpl; by rewrite Hp, Hr.
      * unfold forward_event. repeat case_match; same; unfold in_hand; simpl; by rewrite Hp, Hr.
      * same. unfold in_hand. simpl. by rewrite Hp, Hr.
  - destruct c; try done; [|destruct (_ <=? _)%Z; [|done]].
    + destruct (WaitForComplete f w); [|done]. intros [= <-]. same. unfold in_hand. simpl. by rewrite Hp, Ir.
    + intros [= <-]. same. unfold in_hand. simpl. by rewrite Hp, Ir.
  - destruct c; try done.
    + destruct (push _ s) as [s1|] eqn:Hs; [|done]. intros [= <-].
      destruct (einv_push _ _ _ HI Hs) as [[Hc ->]|(Hc & -> & Hl)]; [|by apply einv_sent].
      apply (einv_dropped e (panics s)); [by apply einv_panics|done|simpl; by apply Ic].
    + unfold drop_event. destruct (es_done s) eqn:Hd; [|done]. intros [= <-]. by eapply einv_dropped.
  - destruct c; try done. destruct (reconnectEventStream _ _) as [[[[c|] t] l]|]; [..|done]; intros [= <-]; same;
      unfold in_hand; simpl; by rewrite Hp, Ir.
  - destruct c; try done. destruct (_ <=? _)%Z; [|done]. intros [= <-]. same.
    unfold in_hand. simpl. by rewrite Hp, Ir.
  - by destruct c.
Qed.

Lemma envelopes_snoc rs r : envelopes (rs ++ [r]) = envelopes rs ++ envelopes [r].
Proof. apply omap_app. Qed.

Lemma einv_received r s : einv s → es_recv s = RPending → einv (received r s).
Proof.
  intros [Ir Ia Is Ic Iq If] Hr.
  assert (Hp : match es_phase s with LSelect | LEnd _ => True | _ => False end)
    by (destruct (es_phase s); try done; by rewrite Hr in Ir).
  assert (Hh : in_hand s = []) by (unfold in_hand; rewrite Hr; by destruct (es_phase s)).
  assert (Hh' : in_hand (received r s) = envelopes [r]).
  { unfold in_hand. simpl. destruct (es_phase s); try done; by destruct r as [|[]]. }
  assert (Hrc : recvd (received r s) = recvd s ++ envelopes [r]) by apply envelopes_snoc.
  rewrite Hh, app_nil_r in Is. constructor; rewrite ?Hh', ?Hrc; try done.
  - simpl. destruct (es_phase s); done.
  - simpl. intros Hd. rewrite Hh, app_nil_r in Ia. unfold accepted in *. simpl. by rewrite Ia.
  - unfold accepted in *. simpl. by apply sublist_app.
Qed.

Lemma einv_published s e ok q : einv s → es_queue s = e :: q → es_forwardDone s = false →
  einv (with_queue q (es_handed s ++ [(e, ok)]) s).
Proof.
  intros [Ir Ia Is Ic Iq If] Hq Hf.
  assert (Ha : accepted (with_queue q (es_handed s ++ [(e, ok)]) s) = accepted s)
    by (unfold accepted; simpl; by rewrite Hq, fmap_app, <- app_assoc).
  constructor; rewrite ?Ha; try done; simpl; [rewrite Hq in Iq; simpl in Iq; lia|by rewrite Hf].
Qed.

Lemma einv_step i s s' : einv s → estep i s = Some s' → einv s'.
Proof.
  intros HI. pose proof HI as [Ir Ia Is Ic Iq If]. unfold estep. destruct (es_panic s); [done|]. destruct i.
  - by apply einv_loop.
  - destruct (es_recv s) eqn:Hr; try done. intros [= <-]. by apply einv_received.
  - destruct pickDone; [unfold drop_event; destruct (es_done s); [|done]; by intros [= <-]|].
    intros Hs. destruct (einv_push _ _ _ HI Hs) as [[Hc ->]|(Hc & -> & Hl)]; [by apply einv_panics|by apply einv_shim].
  - destruct (es_queue s) eqn:Hq; [done|]. destruct (es_forwardDone s) eqn:Hf; [done|]. intros [= <-]. by apply einv_published.
  - destruct (es_closed s) eqn:Hc; [|done]. simpl. case_bool_decide; [|done]. intros [= <-]. apply einv_flags; auto.
  - intros [= <-]. apply einv_flags; auto.
  - destruct (es_done s); [|done]. intros [= <-]. apply einv_flags; auto. intros H. by apply If in H as [_ ?].
  - intros [= <-]. apply einv_flags; auto.
  - intros [= <-]. apply einv_flags; auto.
  - intros [= <-]. same; apply HI.
  - intros [= <-]. same; apply HI.
Qed.

(** *** Why the loop ends *)

Record linv (s : evst) : Prop := mkLinv {
  li_cause : match es_phase s with
    | LReconnect => ∃ e, stream_error e s
    | LDelay _ => stream_lost s
    | LEnd (Some r) => r = "vm process exit" ∧ es_vmExit s = true ∨ r = "vm event stream closed" ∧ stream_lost s
    | _ => True
    end;
  li_ready : ∀ r, es_recv s = RReady r → last (es_results s) = Some r
}.

(** The loop and Recv stay where they are, and the VM's exit is not taken back. *)
Lemma linv_same s s' : linv s → es_phase s' = es_phase s → es_recv s' = es_recv s → es_results s' = es_results s →
  es_reconnects s' = es_reconnects s → (es_vmExit s = true → es_vmExit s' = true) → linv s'.
Proof.
  intros [Hc Hr] Ep Er Es Ec Hv. constructor; [|by rewrite Er, Es].
  unfold stream_lost, stream_error in *. rewrite Ep, Er, Es, Ec. destruct (es_phase s) as [|? ? ?|?| |?|[]]; try done.
  destruct Hc as [[-> ?]|?]; [left; split; [done|by apply Hv]|by right].
Qed.

Lemma linv_push e s s' : linv s → push e s = Some s' → linv s'.
Proof.
  unfold push. intros HI. destruct (es_closed s); [intros [= <-]; by eapply linv_same|].
  destruct (_ <? _)%nat; [|done]. intros [= <-]. by eapply linv_same.
Qed.

Lemma linv_loop c s s' : linv s → loop_step c s = Some s' → linv s'.
Proof.
  intros HI. pose proof HI as [Hc Hr]. unfold loop_step. destruct (es_phase s) as [|e f t|e| |t|] eqn:Hp.
  - destruct c; try done.
    + destruct (es_vmExit s) eqn:Hv; [|done]. intros [= <-]. constructor; simpl; [by left|done].
    + destruct (es_recv s) as [| |[e|[e|]]] eqn:Er; try done; intros [= <-].
      * pose proof (Hr _ eq_refl) as Hl. unfold receive_error. destruct (es_intentional s); [by constructor|].
        destruct (is_eof e || is_shutdown e || is_ttrpc_closed e) eqn:Ee; constructor; simpl; try done;
          exists e; [done|]. split; [done|]. by rewrite Ee.
      * unfold forward_event. destruct (if decide _ then _ else _); by constructor.
      * by constructor.
  - destruct c; try done; [destruct (WaitForComplete f w); [|done]|destruct (_ <=? _)%Z; [|done]]; intros [= <-]; by constructor.
  - destruct c; try done.
    + destruct (push _ s) as [s1|] eqn:Hs; [|done]. intros [= <-]. by constructor.
    + destruct (drop_event s); [|done]. intros [= <-]. by constructor.
  - destruct c; try done. destruct (reconnectEventStream _ _) as [[[[c|] t] l]|]; [..|done]; intros [= <-]; constructor; simpl; try done.
    destruct Hc as (e & Hl & _). exists e. split; [done|]. intros _. simpl. apply last_snoc.
  - destruct c; try done. destruct (_ <=? _)%Z; [|done]. intros [= <-]. constructor; simpl; [|done]. right. split; [done|].
    destruct Hc as (e & [Hl _] & Hrec). by exists e.
  - by destruct c.
Qed.

Lemma linv_step i s s' : linv s → estep i s = Some s' → linv s'.
Proof.
  intros HI. unfold estep. destruct (es_panic s); [done|]. destruct i.
  - by apply linv_loop.
  - destruct (es_recv s) eqn:Er; try done. intros [= <-]. destruct HI as [Hc Hr]. constructor; simpl.
    + unfold stream_lost, stream_error in *. rewrite Er in Hc. destruct (es_phase s) as [|? ? ?|?| |?|[]]; try done; naive_solver.
    + intros r' [= <-]. apply last_snoc.
  - destruct pickDone; [unfold drop_event; destruct (es_done s); [|done]; by intros [= <-]|by apply linv_push].
  - destruct (es_queue s); [done|]. destruct (es_forwardDone s); [done|]. intros [= <-]. by eapply linv_same.
  - destruct (_ && _); [|done]. intros [= <-]. by eapply linv_same.
  - intros [= <-]. by eapply linv_same.
  - destruct (es_done s); [|done]. intros [= <-]. by eapply linv_same.
  - intros [= <-]. by eapply linv_same.
  - intros [= <-]. by eapply linv_same.
  - intros [= <-]. by eapply linv_same.
  - intros [= <-]. by eapply linv_same.
Qed.

Lemma inv_run is_ s s' : einv s ∧ linv s → erun is_ s = Some s' → einv s' ∧ linv s'.
Proof.
  revert s. induction is_ as [|i is_ IH]; intros s HI; simpl; [by intros [= <-]|].
  destruct (estep i s) eqn:E; [|done]. simpl. apply IH. destruct HI. split; [by eapply einv_step|by eapply linv_step].
Qed.

Lemma inv_start c : einv (startEventForwarder c) ∧ linv (startEventForwarder c).
Proof. split; constructor; simpl; try done. unfold eventChannelBuffer. lia. Qed.

(** What Publish accepted. *)
Definition published (s : evst) : list qevent := (filter (λ x, x.2 = true) (es_handed s)).*1.

Lemma published_sublist s : sublist (guest_of (published s)) (guest_of (es_handed s).*1).
Proof.
  unfold published. induction (es_handed s) as [|[e ok] l IH]; [done|]. rewrite filter_cons. cbn [snd].
  case_decide; rewrite !fmap_cons; unfold guest_of in *; destruct e; simpl; first [exact IH | by constructor].
Qed.


(** ** Reconnecting ends *)

Definition backoff_at (k : nat) : Z := Nat.iter k (λ b, Z.min (b * 2) maxBackoff) initialBackoff.

Lemma backoff_at_least k : (initialBackoff ≤ backoff_at k)%Z.
Proof. induction k as [|k IH]; [done|]. unfold backoff_at in *. simpl. unfold initialBackoff, maxBackoff, millisecond in *. lia. Qed.

(** The clients of the rounds [k..n) whose stream could not be opened. *)
Definition closed_in (as_ : nat → attempt) (k n : nat) : list nat :=
  omap (λ j, at_dial (as_ j)) (seq k (n - k)).

Section reconnect.
Context (as_ : nat → attempt).
Context (Htook : ∀ k, (0 ≤ at_took (as_ k))%Z) (Hjit : ∀ k, jitter_ok (backoff_at k) (at_jitter (as_ k))).

Lemma reconnect_loop_ends fuel k now deadline closed :
  (deadline ≤ now + Z.of_nat fuel * (40 * millisecond))%Z →
  ∃ n r t, reconnect_loop (S fuel) as_ k now deadline (backoff_at k) closed = Some (r, t, closed ++ closed_in as_ k n) ∧
    (k ≤ n)%nat ∧ (now ≤ t)%Z ∧
    (∀ c, r = Some c → at_dial (as_ n) = Some c ∧ at_stream (as_ n) = true ∧ at_intentional (as_ n) = false) ∧
    (r = None → at_intentional (as_ n) = true ∨ (deadline ≤ t)%Z).
Proof.
  assert (Hnil : ∀ j, closed_in as_ j j = []) by (intros j; unfold closed_in; by rewrite Nat.sub_diag).
  revert k now closed. induction fuel as [|fuel IH]; intros k now closed Hd; cbn [reconnect_loop].
  - rewrite (proj2 (Z.ltb_ge _ _)) by lia. exists k, None, now. rewrite Hnil, app_nil_r. split_and!; try done; lia || naive_solver lia.
  - destruct (Z.ltb_spec now deadline) as [Hlt|Hge].
    2:{ exists k, None, now. rewrite Hnil, app_nil_r. split_and!; try done; naive_solver lia. }
    destruct (at_intentional (as_ k)) eqn:Hi.
    { exists k, None, now. rewrite Hnil, app_nil_r. split_and!; try done; naive_solver lia. }
    pose proof (Htook k). pose proof (Hjit k) as [Hj _]. pose proof (backoff_at_least k) as Hb.
    set (now' := (now + at_took (as_ k) + (backoff_at k + at_jitter (as_ k)))%Z).
    assert (Hn : (deadline ≤ now' + Z.of_nat fuel * (40 * millisecond))%Z)
      by (unfold now', initialBackoff, millisecond in *; lia).
    assert (Hagain : ∀ l, l = option_list (at_dial (as_ k)) → ∃ n r t,
      reconnect_loop (S fuel) as_ (S k) now' deadline (backoff_at (S k)) (closed ++ l) = Some (r, t, closed ++ closed_in as_ k n) ∧
      (k ≤ n)%nat ∧ (now ≤ t)%Z ∧
      (∀ c, r = Some c → at_dial (as_ n) = Some c ∧ at_stream (as_ n) = true ∧ at_intentional (as_ n) = false) ∧
      (r = None → at_intentional (as_ n) = true ∨ (deadline ≤ t)%Z)).
    { intros l ->. destruct (IH (S k) now' (closed ++ option_list (at_dial (as_ k))) Hn) as (n & r & t & Hr & Hkn & Ht & Hc).
      exists n, r, t. rewrite Hr. split_and!; [|lia|unfold now', initialBackoff, millisecond in *; lia|apply Hc|apply Hc].
      unfold closed_in. replace (n - k)%nat with (S (n - S k)) by lia. cbn [seq omap list_omap]. rewrite <- app_assoc.
      by destruct (at_dial (as_ k)). }
    destruct (at_dial (as_ k)) as [c|] eqn:Hdial.
    + destruct (at_stream (as_ k)) eqn:Hs; [|by apply (Hagain [c])].
      exists k, (Some c), (now + at_took (as_ k))%Z. rewrite Hnil, app_nil_r. split_and!; try done; [lia|naive_solver].
    + destruct (Hagain [] eq_refl) as (n & r & t & H'). rewrite app_nil_r in H'. eauto.
Qed.
End reconnect.

(** Reconnecting always returns: with the client of a round in which both calls
    succeeded, or with none when the shutdown is intentional or the deadline has
    passed; the clients of the rounds before are all closed. *)
Theorem reconnect_ends as_ now :
  (∀ k, (0 ≤ at_took (as_ k))%Z) → (∀ k, jitter_ok (backoff_at k) (at_jitter (as_ k))) →
  ∃ n r t, reconnectEventStream as_ now = Some (r, t, closed_in as_ 0 n) ∧
    (∀ c, r = Some c → at_dial (as_ n) = Some c ∧ at_stream (as_ n) = true ∧ at_intentional (as_ n) = false) ∧
    (r = None → at_intentional (as_ n) = true ∨ (now + eventStreamReconnectTimeout ≤ t)%Z).
Proof.
  intros Ht Hj. destruct (reconnect_loop_ends as_ Ht Hj 50 0 now (now + eventStreamReconnectTimeout) []) as
    (n & r & t & Hr & _ & _ & Hc); [unfold eventStreamReconnectTimeout, millisecond; lia|].
  exists n, r, t. split; [exact Hr|exact Hc].
Qed.

(** ** The exit event does not wait for the output *)

(** Whatever the forwarder and the state of its copies, an exit event is published
    at the time it was received. *)
Theorem exit_overtakes_output client f w id :
  let e := mkEnvelope TaskExitEventTopic (TaskExit id id) in
  erun [IContainer (Some (mkWatched id (Some f) ∅)); IRecv (REvent (Some e)); ILoop CRecv; ILoop (CComplete w);
        ILoop CPush; IPublish true] (startEventForwarder client)
  = Some (mkEvst LSelect RPending client [] false false [(FromGuest e, true)] false (Some (mkWatched id (Some f) ∅)) false false 0 [REvent (Some e)] [] false).
Proof.
  cbn -[decide WaitForComplete]. unfold forward_event. cbn -[decide WaitForComplete].
  rewrite decide_True by done. unfold waitForIOBeforeExit. cbn -[decide WaitForComplete]. rewrite !decide_True by done.
  rewrite (decide_True (P := id = id)) by done. cbn. by destruct f.
Qed.

(** ** Witnesses *)

Definition created : Envelope := mkEnvelope "/tasks/create" OtherEvent.
Definition exited : Envelope := mkEnvelope TaskExitEventTopic (TaskExit "c" "c").

(** Two events, a lost stream that comes back, and then one that does not: what is
    published, with one Publish that failed, and why the loop ends. *)
Definition lost : recvErr := mkRecvErr true false false.
Definition a_run : list input :=
  [IRecv (REvent (Some created)); ILoop CRecv; IShimSend "/tasks/start" false; ILoop CPush; IPublish true; IPublish false;
   IRecv (RErr lost); ILoop CRecv;
   ILoop (CReconnect (λ k, mkAttempt false (if (k <? 2)%nat then None else Some 7) true 0 0));
   IRecv (REvent (Some exited)); ILoop CRecv; ILoop CPush; IRecv (RErr lost); ILoop CRecv;
   ILoop (CReconnect (λ k, mkAttempt false None true 0 0)); ITick 2000000000%N; ILoop CRequest].


Lemma reconnect_ends_witness :
  ∃ n r t, reconnectEventStream (λ _, mkAttempt false (Some 3) false 0 0) 0 =
    Some (r, t, closed_in (λ _, mkAttempt false (Some 3) false 0 0) 0 n) ∧ (r = None → (2000 * millisecond ≤ t)%Z).
Proof.
  destruct (reconnect_ends (λ _, mkAttempt false (Some 3) false 0 0) 0) as (n & r & t & Hr & _ & Hn).
  - intros k. simpl. lia.
  - intros k. pose proof (backoff_at_least k) as H. unfold jitter_ok, initialBackoff, millisecond in *. simpl. lia.
  - exists n, r, t. split; [exact Hr|]. intros Hr0. destruct (Hn Hr0) as [H|H]; [discriminate|exact H].
Defined.
