(* ===== verification/GoTime.v ===== *)
(** [time.ParseDuration] and [time.NewTicker] of Go's time package.  A duration is
    its nanoseconds, an int64; the sum of the parts is taken at 64 bits, fractions
    go through float64 as in the library. *)
From S2P Require Import Prelude GoStrings GoFloat GoText.
From Stdlib Require Import Ascii.
Open Scope Z_scope.

Definition is_num (c : ascii) : bool := is_digit c || bool_decide (c = "."%char).

(** [leadingInt]: the value of the leading digits and the rest. *)
Fixpoint leadingInt (x : Z) (s : string) : option (Z * string) :=
  match s with
  | String c s' =>
      if is_digit c then
        if two63 / 10 <? x then None
        else let x' := x * 10 + digit_val c in
             if two63 <? x' then None else leadingInt x' s'
      else Some (x, s)
  | EmptyString => Some (x, s)
  end.

(** [leadingFraction]: digits past the precision are skipped. *)
Fixpoint leadingFraction (x : Z) (scale : float64) (overflow : bool) (s : string) : Z * float64 * string :=
  match s with
  | String c s' =>
      if is_digit c then
        if overflow || ((two63 - 1) / 10 <? x) then leadingFraction x scale true s'
        else let y := x * 10 + digit_val c in
             if two63 <? y then leadingFraction x scale true s'
             else leadingFraction y (fmul scale (f64 10)) false s'
      else (x, scale, s)
  | EmptyString => (x, scale, s)
  end.

(** The micro sign and the Greek mu, in UTF-8. *)
Definition micro1 : string := String (Ascii.ascii_of_nat 194) (String (Ascii.ascii_of_nat 181) "s").
Definition micro2 : string := String (Ascii.ascii_of_nat 206) (String (Ascii.ascii_of_nat 188) "s").

Definition unitMap (u : string) : option Z :=
  if decide (u = "ns") then Some 1
  else if decide (u = "us" ∨ u = micro1 ∨ u = micro2) then Some 1000
  else if decide (u = "ms") then Some 1000000
  else if decide (u = "s") then Some 1000000000
  else if decide (u = "m") then Some 60000000000
  else if decide (u = "h") then Some 3600000000000
  else None.

(** [uint64(x)] of a float64 that is not negative. *)
Definition f64_to_uint64 (x : float64) : Z :=
  match x with S754_finite false m e => uint64_wrap (Z.shiftl (Zpos m) e) | _ => 0 end.

(** The whole part and the fraction of one number; at least one has digits. *)
Definition parse_number (s : string) : option (Z * Z * float64 * string) :=
  match leadingInt 0 s with
  | None => None
  | Some (v, s1) =>
      let pre := negb (String.length s1 =? String.length s)%nat in
      match s1 with
      | String "." s2 =>
          let '(f, scale, s3) := leadingFraction 0 (f64 1) false s2 in
          if pre || negb (String.length s3 =? String.length s2)%nat then Some (v, f, scale, s3) else None
      | _ => if pre then Some (v, 0, f64 1, s1) else None
      end
  end.

(** One number with its unit, added to [d]. *)
Definition parse_part (d : Z) (s : string) : option (Z * string) :=
  match parse_number s with
  | None => None
  | Some (v, f, scale, s1) =>
      let '(u, s2) := span (λ c, negb (is_num c)) s1 in
      match unitMap u with
      | None => None
      | Some unit =>
          if two63 / unit <? v then None
          else
            let v1 := v * unit in
            let v2 := if 0 <? f then uint64_wrap (v1 + f64_to_uint64 (fmul (f64 f) (fdiv (f64 unit) scale))) else v1 in
            if (0 <? f) && (two63 <? v2) then None
            else let d' := uint64_wrap (d + v2) in
                 if two63 <? d' then None else Some (d', s2)
      end
  end.

Fixpoint parse_parts (fuel : nat) (d : Z) (s : string) : option Z :=
  match s with
  | EmptyString => Some d
  | String c _ =>
      match fuel with
      | O => None
      | S fuel' =>
          if is_num c then
            match parse_part d s with
            | Some (d', s') => parse_parts fuel' d' s'
            | None => None
            end
          else None
      end
  end.

Definition ParseDuration (s : string) : option Z :=
  let '(neg, s1) := match s with
                    | String "-" s' => (true, s')
                    | String "+" s' => (false, s')
                    | _ => (false, s)
                    end in
  if decide (s1 = "0") then Some 0
  else if decide (s1 = "") then None
  else match parse_parts (String.length s1) 0 s1 with
       | None => None
       | Some d => if neg then Some (int64_wrap (- d)) else if two63 - 1 <? d then None else Some d
       end.

(** [time.NewTicker] panics for an interval that is not positive. *)
Definition NewTicker (d : Z) : out unit :=
  if d <=? 0 then Panic "non-positive interval for NewTicker" else Val tt.

Example parse_examples :
  ParseDuration "10s" = Some 10000000000 ∧ ParseDuration "1h15m30.918s" = Some 4530918000000 ∧
  ParseDuration "-1.5h" = Some (-5400000000000) ∧ ParseDuration "500ms" = Some 500000000 ∧
  ParseDuration "5" = None ∧ ParseDuration "" = None ∧ ParseDuration "0" = Some 0 ∧ ParseDuration "3000000h" = None.
Proof. vm_compute. done. Qed.

(** ** The loop consumes its input *)

Lemma leadingInt_shorter x s y s' : leadingInt x s = Some (y, s') → (String.length s' ≤ String.length s)%nat.
Proof.
  revert x. induction s as [|c s IH]; intros x; simpl; [by intros [= <- <-]|].
  destruct (is_digit c); [|intros [= <- <-]; done]. destruct (_ <? _); [done|]. destruct (_ <? _); [done|].
  intros H%IH. lia.
Qed.

Lemma leadingFraction_shorter x sc o s : (String.length (leadingFraction x sc o s).2 ≤ String.length s)%nat.
Proof.
  revert x sc o. induction s as [|c s IH]; intros x sc o; simpl; [done|].
  destruct (is_digit c); simpl; [|done]. repeat case_match; (etransitivity; [apply IH|lia]).
Qed.

Lemma parse_number_shorter s v f sc s' : parse_number s = Some (v, f, sc, s') → (String.length s' ≤ String.length s)%nat.
Proof.
  unfold parse_number. destruct (leadingInt 0 s) as [[v1 s1]|] eqn:E; [|done]. apply leadingInt_shorter in E.
  destruct s1 as [|c s1]; [case_match; [|done]; by intros [= <- <- <- <-]|].
  pose proof (leadingFraction_shorter 0 (f64 1) false s1) as Hf.
  destruct (leadingFraction 0 (f64 1) false s1) as [[f1 sc1] s3]. simpl in *.
  repeat case_match; intros Heq; simplify_eq; simpl in *; lia.
Qed.

Lemma span_length P s : (String.length (span P s).1 + String.length (span P s).2 = String.length s)%nat.
Proof. induction s as [|c s IH]; simpl; [done|]. destruct (P c); simpl; [|done]. destruct (span P s); simpl in *. lia. Qed.

Lemma unitMap_nonempty u x : unitMap u = Some x → (0 < String.length u)%nat.
Proof. destruct u; [done|]. simpl. lia. Qed.

Lemma parse_part_shorter d s d' s' : parse_part d s = Some (d', s') → (String.length s' < String.length s)%nat.
Proof.
  unfold parse_part. destruct (parse_number s) as [[[[v f] sc] s1]|] eqn:E; [|done]. apply parse_number_shorter in E.
  pose proof (span_length (λ c, negb (is_num c)) s1) as Hs. destruct (span _ s1) as [u s2]. simpl in Hs.
  destruct (unitMap u) as [unit|] eqn:Hu; [|done]. apply unitMap_nonempty in Hu.
  cbv zeta. destruct (two63 / unit <? v); [done|]. destruct (_ && _); [done|]. destruct (two63 <? _); [done|].
  intros H. injection H as <- <-. lia.
Qed.

(** Fuel as long as the text never runs out. *)
Lemma parse_parts_fuel f g d s : (String.length s ≤ f)%nat → (String.length s ≤ g)%nat → parse_parts f d s = parse_parts g d s.
Proof.
  revert g d s. induction f as [|f IH]; intros g d s Hf Hg; destruct s as [|c s]; simpl in *; try lia; try by destruct g.
  destruct g as [|g]; [lia|]. simpl. destruct (is_num c); [|done].
  destruct (parse_part d (String c s)) as [[d' s']|] eqn:E; [|done]. apply parse_part_shorter in E. simpl in E. apply IH; lia.
Qed.
