(* ===== verification/Config.v ===== *)
(** The configuration: internal/config/config.go and validation.go, and what the
    hotplug wiring of internal/shim/resources/hotplug.go makes of it.

    JSON decoding, the machine module's check of a release and the file system are
    an environment; [conf_env_ok] states that JSON has no NaN.  Go iterates a map
    in an arbitrary order, here any permutation ([ce_order]). *)
From S2P Require Import Prelude GoStrings GoFloat GoState GoText GoTime Resources Hotplug CPUHotplug MemHotplug.
Open Scope Z_scope.

(** ** The data *)

Record PathsConfig := mkPaths {
  ShareDir : string; StateDir : string; LogDir : string; QEMUPath : string; QEMUSharePath : string; ExtrasCacheDir : string
}.
Record RuntimeConfig := mkRuntime { VMM : string; DisableTemplateRestore : bool }.
Record TimeoutsConfig := mkTimeouts {
  VMStart : string; DeviceDetection : string; ShutdownGrace : string; EventReconnect : string;
  TaskClientRetry : string; IOWait : string; QMPCommand : string
}.
Record HotplugConfig := mkHotplug {
  hp_MonitorInterval : string; hp_ScaleUpCooldown : string; hp_ScaleDownCooldown : string;
  hp_ScaleUpThreshold : float64; hp_ScaleDownThreshold : float64;
  hp_ScaleUpStability : Z; hp_ScaleDownStability : Z; hp_EnableScaleDown : bool
}.
Record MemHotplugConfig := mkMemHotplug { mh_HotplugConfig : HotplugConfig; OOMSafetyMarginMB : Z; IncrementSizeMB : Z }.
Record CPUHotplugConfig := mkCPUHotplug { ch_HotplugConfig : HotplugConfig; ScaleUpThrottleLimit : float64 }.
Record Config := mkConfig {
  Paths : PathsConfig; Runtime : RuntimeConfig; Timeouts : TimeoutsConfig;
  CPUHotplug_ : CPUHotplugConfig; MemHotplug_ : MemHotplugConfig
}.

Definition defaultConfig : Config := {|
  Paths := mkPaths "/usr/share/spin-stack" "/var/lib/spin-stack" "/var/log/spin-stack" "" "" "/var/cache/spin-stack/extras";
  Runtime := mkRuntime "qemu" false;
  Timeouts := mkTimeouts "10s" "5s" "2s" "2s" "1s" "30s" "5s";
  CPUHotplug_ := mkCPUHotplug (mkHotplug "5s" "10s" "30s" (f64 80) (f64 50) 2 6 true) (f64 5);
  MemHotplug_ := mkMemHotplug (mkHotplug "10s" "30s" "60s" (f64 85) (f64 60) 3 6 false) 128 128
|}.

(** ** Defaults *)

(** [setDefault] at the types it is used at; [==] on float64 equates the zeros. *)
Definition dflt_s (x d : string) : string := if decide (x = "") then d else x.
Definition dflt_z (x d : Z) : Z := if x =? 0 then d else x.
Definition dflt_f (x d : float64) : float64 := if SFeqb x (f64 0) then d else x.

Definition applyHotplugDefaults (c d : HotplugConfig) : HotplugConfig := {|
  hp_MonitorInterval := dflt_s (hp_MonitorInterval c) (hp_MonitorInterval d);
  hp_ScaleUpCooldown := dflt_s (hp_ScaleUpCooldown c) (hp_ScaleUpCooldown d);
  hp_ScaleDownCooldown := dflt_s (hp_ScaleDownCooldown c) (hp_ScaleDownCooldown d);
  hp_ScaleUpThreshold := dflt_f (hp_ScaleUpThreshold c) (hp_ScaleUpThreshold d);
  hp_ScaleDownThreshold := dflt_f (hp_ScaleDownThreshold c) (hp_ScaleDownThreshold d);
  hp_ScaleUpStability := dflt_z (hp_ScaleUpStability c) (hp_ScaleUpStability d);
  hp_ScaleDownStability := dflt_z (hp_ScaleDownStability c) (hp_ScaleDownStability d);
  hp_EnableScaleDown := hp_EnableScaleDown c
|}.

Definition applyDefaults (c : Config) : Config :=
  let d := defaultConfig in {|
  Paths := mkPaths (dflt_s (ShareDir (Paths c)) (ShareDir (Paths d))) (dflt_s (StateDir (Paths c)) (StateDir (Paths d)))
    (dflt_s (LogDir (Paths c)) (LogDir (Paths d))) (QEMUPath (Paths c)) (QEMUSharePath (Paths c))
    (dflt_s (ExtrasCacheDir (Paths c)) (ExtrasCacheDir (Paths d)));
  Runtime := mkRuntime (dflt_s (VMM (Runtime c)) (VMM (Runtime d))) (DisableTemplateRestore (Runtime c));
  Timeouts := mkTimeouts (dflt_s (VMStart (Timeouts c)) (VMStart (Timeouts d)))
    (dflt_s (DeviceDetection (Timeouts c)) (DeviceDetection (Timeouts d)))
    (dflt_s (ShutdownGrace (Timeouts c)) (ShutdownGrace (Timeouts d)))
    (dflt_s (EventReconnect (Timeouts c)) (EventReconnect (Timeouts d)))
    (dflt_s (TaskClientRetry (Timeouts c)) (TaskClientRetry (Timeouts d)))
    (dflt_s (IOWait (Timeouts c)) (IOWait (Timeouts d)))
    (dflt_s (QMPCommand (Timeouts c)) (QMPCommand (Timeouts d)));
  CPUHotplug_ := mkCPUHotplug (applyHotplugDefaults (ch_HotplugConfig (CPUHotplug_ c)) (ch_HotplugConfig (CPUHotplug_ d)))
    (dflt_f (ScaleUpThrottleLimit (CPUHotplug_ c)) (ScaleUpThrottleLimit (CPUHotplug_ d)));
  MemHotplug_ := mkMemHotplug (applyHotplugDefaults (mh_HotplugConfig (MemHotplug_ c)) (mh_HotplugConfig (MemHotplug_ d)))
    (dflt_z (OOMSafetyMarginMB (MemHotplug_ c)) (OOMSafetyMarginMB (MemHotplug_ d)))
    (dflt_z (IncrementSizeMB (MemHotplug_ c)) (IncrementSizeMB (MemHotplug_ d)))
|}.

(** ** The environment *)

Inductive evalAnswer := Resolved (p : string) | EvalNotExist | EvalErr (e : error).
Inductive statAnswer := StatDir | StatFile (exec : bool) | StatNotExist | StatErr (e : error).

Record confEnv := mkConfEnv {
  ce_read : string → res string;                     (** os.ReadFile *)
  ce_unmarshal : string → res Config;
  ce_eval : string → evalAnswer;                     (** filepath.EvalSymlinks *)
  ce_stat : string → statAnswer;
  ce_mkdir : string → option error;
  ce_writable : string → bool;                       (** access(W_OK), after a MkdirAll *)
  ce_machine : string → option error;                (** machine.Open *)
  ce_order : list (string * string) → list (string * string);
  ce_f2 : float64 → string;                          (** %.2f *)
  ce_dur : Z → string                                (** Duration.String *)
}.

(** Directories created on the way, oldest first. *)
Abbreviation conf A := (ST (list string) A).

Section validate.
Context (env : confEnv).

Definition canonicalizePath (path : string) : res string :=
  match ce_eval env (Clean path) with
  | Resolved p => Ok p
  | EvalNotExist => Ok (Clean path)
  | EvalErr e => Err (wrap ("failed to resolve path " +:+ path) e)
  end.

Definition validateDirExists (path name : string) : conf () :=
  do! canonical := wrapping name (lift (canonicalizePath path)) in
  match ce_stat env canonical with
  | StatNotExist => fail (errorf (name +:+ ": directory does not exist: " +:+ canonical))
  | StatErr e => fail (wrap (name +:+ ": cannot access") e)
  | StatDir => ret tt
  | StatFile _ => fail (errorf (name +:+ ": not a directory: " +:+ canonical))
  end.

Definition ensureDirWritable (path name : string) : conf () :=
  do! canonical := wrapping name (lift (canonicalizePath path)) in
  (match ce_stat env canonical with
   | StatNotExist =>
       match ce_mkdir env canonical with
       | Some e => fail (wrap (name +:+ ": cannot create directory " +:+ canonical) e)
       | None => modify (λ w, w ++ [canonical])
       end
   | StatErr e => fail (wrap (name +:+ ": cannot access " +:+ canonical) e)
   | StatDir => ret tt
   | StatFile _ => fail (errorf (name +:+ ": not a directory: " +:+ canonical))
   end) ;;!
  if ce_writable env canonical then ret tt else fail (errorf (name +:+ ": not writable: " +:+ canonical)).

Definition validateExecutable (path name : string) : conf () :=
  do! canonical := wrapping name (lift (canonicalizePath path)) in
  match ce_stat env canonical with
  | StatNotExist => fail (errorf (name +:+ ": file not found: " +:+ canonical))
  | StatErr e => fail (wrap (name +:+ ": cannot access") e)
  | StatDir => fail (errorf (name +:+ ": is a directory, not executable: " +:+ canonical))
  | StatFile exec => if exec then ret tt else fail (errorf (name +:+ ": not executable: " +:+ canonical))
  end.

(** [if cond { return fmt.Errorf(msg) }] *)
Definition refuse (cond : bool) (msg : string) : conf () := if cond then fail (errorf msg) else ret tt.

Definition validatePaths (p : PathsConfig) : conf () :=
  refuse (bool_decide (ShareDir p = "")) "share_dir cannot be empty" ;;!
  validateDirExists (ShareDir p) "share_dir" ;;!
  (match ce_machine env (ShareDir p) with
   | Some e => fail (mkError (ekind e) (emsg e +:+ " (run 'task machine' to fetch the pinned release)"))
   | None => ret tt
   end) ;;!
  let initrdPath := path_Join [ShareDir p; "kernel"; "spinbox-initrd"] in
  (match ce_stat env initrdPath with
   | StatNotExist => fail (errorf ("initrd not found at " +:+ initrdPath +:+ " (run 'task build:initrd')"))
   | StatErr e => fail (wrap "cannot access initrd" e)
   | _ => ret tt
   end) ;;!
  refuse (bool_decide (StateDir p = "")) "state_dir cannot be empty" ;;!
  ensureDirWritable (StateDir p) "state_dir" ;;!
  refuse (bool_decide (LogDir p = "")) "log_dir cannot be empty" ;;!
  ensureDirWritable (LogDir p) "log_dir" ;;!
  (if decide (QEMUPath p = "") then ret tt else validateExecutable (QEMUPath p) "qemu_path") ;;!
  (if decide (QEMUSharePath p = "") then ret tt else validateDirExists (QEMUSharePath p) "qemu_share_path").

Definition validateRuntime (r : RuntimeConfig) : conf () :=
  refuse (negb (bool_decide (VMM r = "qemu"))) ("vmm must be " +:+ fmt_q "qemu" +:+ ", got " +:+ fmt_q (VMM r)).

Definition hour : Z := 3600000000000.

Definition timeout_fields (t : TimeoutsConfig) : list (string * string) :=
  [("vm_start", VMStart t); ("device_detection", DeviceDetection t); ("shutdown_grace", ShutdownGrace t);
   ("event_reconnect", EventReconnect t); ("task_client_retry", TaskClientRetry t); ("io_wait", IOWait t);
   ("qmp_command", QMPCommand t)].

Fixpoint check_timeouts (fields : list (string * string)) : conf () :=
  match fields with
  | [] => ret tt
  | (name, val) :: rest =>
      match ParseDuration val with
      | None => fail (errorf (name +:+ ": invalid duration " +:+ fmt_q val))
      | Some d =>
          refuse (d <=? 0) (name +:+ ": must be positive, got " +:+ ce_dur env d) ;;!
          refuse (hour <? d) (name +:+ ": too large (" +:+ ce_dur env d +:+ "), max is 1h") ;;!
          check_timeouts rest
      end
  end.

Definition validateTimeouts (t : TimeoutsConfig) : conf () := check_timeouts (ce_order env (timeout_fields t)).

Definition hotplug_durations (h : HotplugConfig) : list (string * string) :=
  [("monitor_interval", hp_MonitorInterval h); ("scale_up_cooldown", hp_ScaleUpCooldown h);
   ("scale_down_cooldown", hp_ScaleDownCooldown h)].

Fixpoint check_durations (prefix : string) (fields : list (string * string)) : conf () :=
  match fields with
  | [] => ret tt
  | (name, val) :: rest =>
      match ParseDuration val with
      | None => fail (errorf (prefix +:+ "." +:+ name +:+ ": invalid duration " +:+ fmt_q val))
      | Some _ => check_durations prefix rest
      end
  end.

Definition outside (x : float64) : bool := fle x (f64 0) || flt (f64 100) x.

Definition validateHotplug (h : HotplugConfig) (prefix : string) : conf () :=
  let up := hp_ScaleUpThreshold h in
  let down := hp_ScaleDownThreshold h in
  check_durations prefix (ce_order env (hotplug_durations h)) ;;!
  refuse (outside up) (prefix +:+ ".scale_up_threshold: must be 0-100, got " +:+ ce_f2 env up) ;;!
  refuse (outside down) (prefix +:+ ".scale_down_threshold: must be 0-100, got " +:+ ce_f2 env down) ;;!
  refuse (fge down up) (prefix +:+ ": scale_down_threshold (" +:+ ce_f2 env down +:+
    ") must be < scale_up_threshold (" +:+ ce_f2 env up +:+ ")") ;;!
  refuse (hp_ScaleUpStability h <=? 0)
    (prefix +:+ ".scale_up_stability: must be > 0, got " +:+ fmt_d (hp_ScaleUpStability h)) ;;!
  refuse (hp_ScaleDownStability h <=? 0)
    (prefix +:+ ".scale_down_stability: must be > 0, got " +:+ fmt_d (hp_ScaleDownStability h)).

Definition validateCPUHotplug (c : CPUHotplugConfig) : conf () :=
  validateHotplug (ch_HotplugConfig c) "cpu_hotplug" ;;!
  refuse (flt (ScaleUpThrottleLimit c) (f64 0) || flt (f64 100) (ScaleUpThrottleLimit c))
    ("scale_up_throttle_limit: must be 0-100, got " +:+ ce_f2 env (ScaleUpThrottleLimit c)).

Definition validateMemHotplug (c : MemHotplugConfig) : conf () :=
  validateHotplug (mh_HotplugConfig c) "memory_hotplug" ;;!
  refuse (OOMSafetyMarginMB c <=? 0) ("oom_safety_margin_mb: must be > 0, got " +:+ fmt_d (OOMSafetyMarginMB c)) ;;!
  refuse (IncrementSizeMB c <=? 0) ("increment_size_mb: must be > 0, got " +:+ fmt_d (IncrementSizeMB c)) ;;!
  refuse (negb (Z.rem (IncrementSizeMB c) 128 =? 0))
    ("increment_size_mb: must be 128MB-aligned, got " +:+ fmt_d (IncrementSizeMB c)).

Definition Validate (c : Config) : conf () :=
  wrapping "paths" (validatePaths (Paths c)) ;;!
  wrapping "runtime" (validateRuntime (Runtime c)) ;;!
  wrapping "timeouts" (validateTimeouts (Timeouts c)) ;;!
  wrapping "cpu_hotplug" (validateCPUHotplug (CPUHotplug_ c)) ;;!
  wrapping "memory_hotplug" (validateMemHotplug (MemHotplug_ c)).

(** ** Loading *)

Definition LoadFrom (path : string) : conf Config :=
  match ce_read env path with
  | Err e =>
      if decide (ekind e = ErrNotFound) then
        fail (errorf ("config file not found at " +:+ path +:+
          ". Please create a config file (see examples/config.json) or set SPINBOX_CONFIG environment variable"))
      else fail (wrap ("failed to read config file " +:+ path) e)
  | Ok data =>
      match ce_unmarshal env data with
      | Err e => fail (mkError (ekind e) ("failed to parse config file " +:+ path +:+ ": " +:+ emsg e +:+ " (ensure it's valid JSON)"))
      | Ok cfg =>
          let cfg := applyDefaults cfg in
          wrapping ("invalid configuration in " +:+ path) (Validate cfg) ;;!
          ret cfg
      end
  end.

Definition Load (envvar : string) : conf Config := LoadFrom (dflt_s envvar "/etc/spinbox/config.json").
End validate.

(** [Get] and [Reset] over the package's variables: the once and what it stored. *)
Abbreviation globals := (option (res Config)).
Definition Get (env : confEnv) (envvar : string) (g : globals) (w : list string) : res Config * globals * list string :=
  match g with
  | Some r => (r, g, w)
  | None => let '(r, w') := Load env envvar w in (r, Some r, w')
  end.
Definition Reset_ (g : globals) : globals := None.

(** [Duration]: panics on an unknown name or an invalid value. *)
Definition Duration (t : TimeoutsConfig) (name : string) : out Z :=
  match list_find (λ f, f.1 = name) (timeout_fields t) with
  | None => Panic ("unknown timeout field: " +:+ name)
  | Some (_, (_, s)) => match ParseDuration s with
                        | Some d => Val d
                        | None => Panic ("invalid duration for " +:+ name +:+ ": " +:+ s)
                        end
  end.

(** ** What the hotplug controllers get: resources/hotplug.go *)

Definition parse3 (h : HotplugConfig) : res (Z * Z * Z) :=
  match ParseDuration (hp_MonitorInterval h), ParseDuration (hp_ScaleUpCooldown h), ParseDuration (hp_ScaleDownCooldown h) with
  | None, _, _ => Err (errorf "invalid monitor_interval")
  | _, None, _ => Err (errorf "invalid scale_up_cooldown")
  | _, _, None => Err (errorf "invalid scale_down_cooldown")
  | Some m, Some u, Some d => Ok (m, u, d)
  end.

Definition cpu_settings (c : Config) : res CPUConfig :=
  let h := ch_HotplugConfig (CPUHotplug_ c) in
  res_bind (parse3 h) (λ t, Ok (mkCPUConfig t.1.1 t.1.2 t.2 (hp_ScaleUpThreshold h) (hp_ScaleDownThreshold h)
    (ScaleUpThrottleLimit (CPUHotplug_ c)) (hp_ScaleUpStability h) (hp_ScaleDownStability h) (hp_EnableScaleDown h))).

Definition mem_settings (c : Config) : res MemConfig :=
  let h := mh_HotplugConfig (MemHotplug_ c) in
  res_bind (parse3 h) (λ t, Ok (mkMemConfig t.1.1 t.1.2 t.2 (hp_ScaleUpThreshold h) (hp_ScaleDownThreshold h)
    (OOMSafetyMarginMB (MemHotplug_ c)) (int64_wrap (IncrementSizeMB (MemHotplug_ c) * 1024 * 1024))
    (hp_ScaleUpStability h) (hp_ScaleDownStability h) (hp_EnableScaleDown h))).

(** [parseHotplugConfig]: defaults when the configuration is missing or invalid. *)
Definition parseHotplugConfig {T} (defaults : T) (parse : Config → res T) (cfg : res Config) : T :=
  match cfg with
  | Err _ => defaults
  | Ok c => match parse c with Ok t => t | Err _ => defaults end
  end.

(** [StartCPUHotplug]: whether there is a controller, and its settings; the query
    before it only logs. *)
Definition StartCPUHotplug (is_qemu has_qmp : bool) (hotplugger : option error) (rc : VMResourceConfig) (cfg : res Config)
    : option CPUParams :=
  if MaxCPUs rc <=? BootCPUs rc then None
  else if negb is_qemu || negb has_qmp then None
  else match hotplugger with
       | Some _ => None
       | None => Some (mkCPUParams (BootCPUs rc) (MaxCPUs rc) true true true (parseHotplugConfig CPUDefaultConfig cpu_settings cfg))
       end.

Definition StartMemoryHotplug (is_qemu has_qmp : bool) (rc : VMResourceConfig) (cfg : res Config) : option MemParams :=
  if negb is_qemu || negb has_qmp then None
  else Some (mkMemParams (MemorySize rc) (MemoryHotplugSize rc) true (parseHotplugConfig MemDefaultConfig mem_settings cfg)).

(** ** What an accepted configuration guarantees *)

Definition is_nan (x : float64) : bool := match x with S754_nan => true | _ => false end.

Definition no_nan (c : Config) : Prop :=
  is_nan (hp_ScaleUpThreshold (ch_HotplugConfig (CPUHotplug_ c))) = false ∧
  is_nan (hp_ScaleDownThreshold (ch_HotplugConfig (CPUHotplug_ c))) = false ∧
  is_nan (ScaleUpThrottleLimit (CPUHotplug_ c)) = false ∧
  is_nan (hp_ScaleUpThreshold (mh_HotplugConfig (MemHotplug_ c))) = false ∧
  is_nan (hp_ScaleDownThreshold (mh_HotplugConfig (MemHotplug_ c))) = false.

Record conf_env_ok (env : confEnv) : Prop := mkConfEnvOk {
  co_order : ∀ l, ce_order env l ≡ₚ l;
  co_json : ∀ data c, ce_unmarshal env data = Ok c → no_nan c
}.

Record hotplug_ok (h : HotplugConfig) : Prop := mkHotplugOk {
  ho_up : flt (f64 0) (hp_ScaleUpThreshold h) = true ∧ fle (hp_ScaleUpThreshold h) (f64 100) = true;
  ho_down : flt (f64 0) (hp_ScaleDownThreshold h) = true ∧ flt (hp_ScaleDownThreshold h) (hp_ScaleUpThreshold h) = true;
  ho_stability : 0 < hp_ScaleUpStability h ∧ 0 < hp_ScaleDownStability h;
  ho_durations : ∃ t, parse3 h = Ok t
}.

Record config_ok (c : Config) : Prop := mkConfigOk {
  ok_paths : ShareDir (Paths c) ≠ "" ∧ StateDir (Paths c) ≠ "" ∧ LogDir (Paths c) ≠ "" ∧ ExtrasCacheDir (Paths c) ≠ "";
  ok_vmm : VMM (Runtime c) = "qemu";
  ok_timeouts : ∀ name, name ∈ (timeout_fields (Timeouts c)).*1 → ∃ d, Duration (Timeouts c) name = Val d ∧ 0 < d ≤ hour;
  ok_cpu : hotplug_ok (ch_HotplugConfig (CPUHotplug_ c));
  ok_throttle : fle (f64 0) (ScaleUpThrottleLimit (CPUHotplug_ c)) = true ∧ fle (ScaleUpThrottleLimit (CPUHotplug_ c)) (f64 100) = true;
  ok_mem : hotplug_ok (mh_HotplugConfig (MemHotplug_ c));
  ok_margin : 0 < OOMSafetyMarginMB (MemHotplug_ c);
  ok_increment : 0 < IncrementSizeMB (MemHotplug_ c) ∧ (128 | IncrementSizeMB (MemHotplug_ c))
}.

(** *** float64 comparisons *)

Lemma SFcompare_swap x y : SFcompare y x = CompOpp <$> SFcompare x y.
Proof.
  destruct x as [[]|[]| |[] m e], y as [[]|[]| |[] m' e']; simpl; try done;
    rewrite (Z.compare_antisym e e'); destruct (e ?= e') eqn:E; simpl; try done; rewrite (Pos.compare_cont_antisym m m'); simpl; done.
Qed.

Lemma fle_false x y : is_nan x = false → is_nan y = false → fle x y = false → flt y x = true.
Proof.
  unfold fle, flt, SFleb, SFltb. intros Hx Hy. rewrite (SFcompare_swap x y).
  destruct x as [s|s| |s m e], y as [s'|s'| |s' m' e']; try done; simpl; repeat case_match; simpl in *; try done; naive_solver.
Qed.

Lemma flt_false x y : is_nan x = false → is_nan y = false → flt x y = false → fle y x = true.
Proof.
  unfold fle, flt, SFleb, SFltb. intros Hx Hy. rewrite (SFcompare_swap x y).
  destruct x as [s|s| |s m e], y as [s'|s'| |s' m' e']; try done; simpl; repeat case_match; simpl in *; try done; naive_solver.
Qed.

(** *** Inverting the checks *)

Lemma refuse_Ok b msg w x w' : refuse b msg w = (Ok x, w') → b = false ∧ w' = w.
Proof. unfold refuse. destruct b; [done|]. by intros [= _ ->]. Qed.

Ltac inv_conf :=
  repeat match goal with
  | H : bind _ _ _ = (Ok _, _) |- _ => apply bind_Ok in H as (? & ? & ? & H)
  | H : wrapping _ _ _ = (Ok _, _) |- _ => apply wrapping_Ok in H
  | H : refuse _ _ _ = (Ok _, _) |- _ => apply refuse_Ok in H as [? ->]
  end.

Section sound.
Context (env : confEnv) (Henv : conf_env_ok env).

Lemma check_timeouts_Ok l w x w' : check_timeouts env l w = (Ok x, w') →
  w' = w ∧ ∀ name s, (name, s) ∈ l → ∃ d, ParseDuration s = Some d ∧ 0 < d ≤ hour.
Proof.
  revert w. induction l as [|[n v] l IH]; intros w; simpl.
  { intros [= _ ->]. split; [done|]. intros ??. by rewrite elem_of_nil. }
  destruct (ParseDuration v) as [d|] eqn:Ed; [|done]. intros H. inv_conf. destruct (IH _ H) as [-> Hl]. split; [done|].
  intros name s [[= -> ->]|Hin]%elem_of_cons; [|by eapply Hl]. exists d. split; [done|].
  split; [by apply Z.leb_gt|by apply Z.ltb_ge].
Qed.

Lemma check_durations_Ok prefix l w x w' : check_durations prefix l w = (Ok x, w') →
  w' = w ∧ ∀ name s, (name, s) ∈ l → ∃ d, ParseDuration s = Some d.
Proof.
  revert w. induction l as [|[n v] l IH]; intros w; simpl.
  { intros [= _ ->]. split; [done|]. intros ??. by rewrite elem_of_nil. }
  destruct (ParseDuration v) as [d|] eqn:Ed; [|done]. intros H. destruct (IH _ H) as [-> Hl]. split; [done|].
  intros name s [[= -> ->]|Hin]%elem_of_cons; [eauto|by eapply Hl].
Qed.

Lemma timeouts_durations t w x w' : validateTimeouts env t w = (Ok x, w') →
  ∀ name, name ∈ (timeout_fields t).*1 → ∃ d, Duration t name = Val d ∧ 0 < d ≤ hour.
Proof.
  unfold validateTimeouts. intros [_ H]%check_timeouts_Ok name Hn.
  assert (Hall : ∀ f, f ∈ timeout_fields t → ∃ d, ParseDuration f.2 = Some d ∧ 0 < d ≤ hour).
  { intros [n s] Hf. apply (H n s). by rewrite (co_order _ Henv). }
  unfold Duration. destruct (list_find _ _) as [[i [n s]]|] eqn:E.
  - apply list_find_Some in E as (E & _ & _). apply list_elem_of_lookup_2 in E. destruct (Hall _ E) as (d & Hd & ?).
    simpl in Hd. rewrite Hd. eauto.
  - exfalso. apply list_elem_of_fmap in Hn as (f & -> & Hf). apply list_find_None in E. rewrite Forall_forall in E.
    by apply (E f Hf).
Qed.

Lemma outside_false x : is_nan x = false → outside x = false → flt (f64 0) x = true ∧ fle x (f64 100) = true.
Proof. unfold outside. intros Hx [H1 H2]%orb_false_iff. split; [by apply fle_false|by apply flt_false]. Qed.

Lemma validateHotplug_Ok h prefix w x w' :
  is_nan (hp_ScaleUpThreshold h) = false → is_nan (hp_ScaleDownThreshold h) = false →
  validateHotplug env h prefix w = (Ok x, w') → hotplug_ok h.
Proof.
  unfold validateHotplug. intros Hu Hd H. inv_conf.
  match goal with H : check_durations _ _ _ = _ |- _ => apply check_durations_Ok in H as [_ Hdur] end.
  constructor.
  - by apply outside_false.
  - split; [by apply outside_false|]. unfold fge in *. by apply fle_false.
  - split; by apply Z.leb_gt.
  - assert (Hp : ∀ f, f ∈ hotplug_durations h → ∃ d, ParseDuration f.2 = Some d).
    { intros [n s] Hf. apply (Hdur n s). by rewrite (co_order _ Henv). }
    unfold parse3. destruct (Hp ("monitor_interval", hp_MonitorInterval h)) as [d1 Hd1]; [set_solver|].
    destruct (Hp ("scale_up_cooldown", hp_ScaleUpCooldown h)) as [d2 Hd2]; [set_solver|].
    destruct (Hp ("scale_down_cooldown", hp_ScaleDownCooldown h)) as [d3 Hd3]; [set_solver|].
    simpl in *. rewrite Hd1, Hd2, Hd3. eauto.
Qed.

Lemma validatePaths_Ok p w x w' : validatePaths env p w = (Ok x, w') → ShareDir p ≠ "" ∧ StateDir p ≠ "" ∧ LogDir p ≠ "".
Proof. unfold validatePaths. cbv zeta. intros H. inv_conf. by repeat case_bool_decide. Qed.

Lemma Validate_Ok c w x w' : no_nan c → ExtrasCacheDir (Paths c) ≠ "" → Validate env c w = (Ok x, w') → config_ok c.
Proof.
  intros (N1 & N2 & N3 & N4 & N5) Hx H. unfold Validate in H. inv_conf. unfold validateRuntime in *.
  match goal with H : validateMemHotplug _ _ _ = _ |- _ => unfold validateMemHotplug in H end.
  match goal with H : validateCPUHotplug _ _ _ = _ |- _ => unfold validateCPUHotplug in H end. inv_conf. constructor.
  - match goal with H : validatePaths _ _ _ = _ |- _ => apply validatePaths_Ok in H as (? & ? & ?) end. done.
  - by repeat case_bool_decide.
  - by eapply timeouts_durations.
  - match goal with H : validateHotplug _ (ch_HotplugConfig _) _ _ = _ |- _ => exact (validateHotplug_Ok _ _ _ _ _ N1 N2 H) end.
  - match goal with H : (_ || _) = false |- _ => apply orb_false_iff in H as [??] end. split; apply flt_false; assumption || reflexivity.
  - match goal with H : validateHotplug _ (mh_HotplugConfig _) _ _ = _ |- _ => exact (validateHotplug_Ok _ _ _ _ _ N4 N5 H) end.
  - by apply Z.leb_gt.
  - split; [by apply Z.leb_gt|]. match goal with H : negb _ = false |- _ => apply negb_false_iff, Z.eqb_eq in H end.
    by apply Z.rem_divide.
Qed.

Lemma dflt_f_nan x d : is_nan x = false → is_nan d = false → is_nan (dflt_f x d) = false.
Proof. unfold dflt_f. by destruct (SFeqb _ _). Qed.

Lemma applyDefaults_no_nan c : no_nan c → no_nan (applyDefaults c).
Proof. intros (?&?&?&?&?). split_and!; by apply dflt_f_nan. Qed.

Lemma dflt_s_nonempty x d : d ≠ "" → dflt_s x d ≠ "".
Proof. unfold dflt_s. by case_decide. Qed.
End sound.

(** The settings of the CPU controller are those of the file, each in its place. *)
Record cpu_follows (c : Config) (s : CPUConfig) : Prop := mkCPUFollows {
  cf_interval : ParseDuration (hp_MonitorInterval (ch_HotplugConfig (CPUHotplug_ c))) = Some (cfg_MonitorInterval s);
  cf_up_cooldown : ParseDuration (hp_ScaleUpCooldown (ch_HotplugConfig (CPUHotplug_ c))) = Some (cfg_ScaleUpCooldown s);
  cf_down_cooldown : ParseDuration (hp_ScaleDownCooldown (ch_HotplugConfig (CPUHotplug_ c))) = Some (cfg_ScaleDownCooldown s);
  cf_up : cfg_ScaleUpThreshold s = hp_ScaleUpThreshold (ch_HotplugConfig (CPUHotplug_ c));
  cf_down : cfg_ScaleDownThreshold s = hp_ScaleDownThreshold (ch_HotplugConfig (CPUHotplug_ c));
  cf_throttle : cfg_ScaleUpThrottleLimit s = ScaleUpThrottleLimit (CPUHotplug_ c);
  cf_up_stability : cfg_ScaleUpStability s = hp_ScaleUpStability (ch_HotplugConfig (CPUHotplug_ c));
  cf_down_stability : cfg_ScaleDownStability s = hp_ScaleDownStability (ch_HotplugConfig (CPUHotplug_ c));
  cf_enable : cfg_EnableScaleDown s = hp_EnableScaleDown (ch_HotplugConfig (CPUHotplug_ c))
}.

(** And those of the memory controller; the increment is asked for in MiB and handed
    over in bytes, which wrap from 2^43 MiB on. *)
Record mem_follows (c : Config) (s : MemConfig) : Prop := mkMemFollows {
  mf_interval : ParseDuration (hp_MonitorInterval (mh_HotplugConfig (MemHotplug_ c))) = Some (mc_MonitorInterval s);
  mf_up_cooldown : ParseDuration (hp_ScaleUpCooldown (mh_HotplugConfig (MemHotplug_ c))) = Some (mc_ScaleUpCooldown s);
  mf_down_cooldown : ParseDuration (hp_ScaleDownCooldown (mh_HotplugConfig (MemHotplug_ c))) = Some (mc_ScaleDownCooldown s);
  mf_up : mc_ScaleUpThreshold s = hp_ScaleUpThreshold (mh_HotplugConfig (MemHotplug_ c));
  mf_down : mc_ScaleDownThreshold s = hp_ScaleDownThreshold (mh_HotplugConfig (MemHotplug_ c));
  mf_margin : mc_OOMSafetyMarginMB s = OOMSafetyMarginMB (MemHotplug_ c);
  mf_increment : IncrementSizeMB (MemHotplug_ c) < 2 ^ 43 →
    mc_IncrementSize s = IncrementSizeMB (MemHotplug_ c) * 1048576 ∧ 0 < mc_IncrementSize s;
  mf_up_stability : mc_ScaleUpStability s = hp_ScaleUpStability (mh_HotplugConfig (MemHotplug_ c));
  mf_down_stability : mc_ScaleDownStability s = hp_ScaleDownStability (mh_HotplugConfig (MemHotplug_ c));
  mf_enable : mc_EnableScaleDown s = hp_EnableScaleDown (mh_HotplugConfig (MemHotplug_ c))
}.

Lemma parse3_Ok h t : parse3 h = Ok t →
  ParseDuration (hp_MonitorInterval h) = Some t.1.1 ∧ ParseDuration (hp_ScaleUpCooldown h) = Some t.1.2 ∧
  ParseDuration (hp_ScaleDownCooldown h) = Some t.2.
Proof. unfold parse3. repeat case_match; try done. by intros [= <-]. Qed.

Lemma cpu_settings_follow c : config_ok c → cpu_follows c (parseHotplugConfig CPUDefaultConfig cpu_settings (Ok c)).
Proof.
  intros [_ _ _ [_ _ _ [t Ht]] _ _ _ _]. unfold parseHotplugConfig, cpu_settings. rewrite Ht. cbn.
  apply parse3_Ok in Ht as (H1 & H2 & H3). by constructor.
Qed.

Lemma mem_settings_follow c : config_ok c → mem_follows c (parseHotplugConfig MemDefaultConfig mem_settings (Ok c)).
Proof.
  intros [_ _ _ _ _ [_ _ _ [t Ht]] _ [Hi _]]. unfold parseHotplugConfig, mem_settings. rewrite Ht. cbn.
  apply parse3_Ok in Ht as (H1 & H2 & H3). constructor; try done. intros Hlt. cbn.
  rewrite int64_wrap_id by (unfold int64_range, two63; lia). lia.
Qed.

(** C38: A configuration that loads, from JSON (which has no NaN), is well
    formed: the paths are named, every timeout asked for by name is a
    positive duration of at most an hour, the thresholds are percentages
    with the lower one below, counters and sizes are positive. A hotplug
    controller that is started with it gets its settings field by field -
    interval, both cooldowns, thresholds, stability counters, throttle limit
    or safety margin, scale-down - and never the built-in ones; the memory
    increment is the file's, in bytes, when it is below 2^43 MiB (above, the
    product wraps). *)
Theorem loaded_config_well_formed env path w c w' :
  conf_env_ok env → LoadFrom env path w = (Ok c, w') →
  config_ok c ∧
  (∀ is_qemu has_qmp hotplugger rc p,
     StartCPUHotplug is_qemu has_qmp hotplugger rc (Ok c) = Some p → cpu_follows c (cpu_config p)) ∧
  (∀ is_qemu has_qmp rc p, StartMemoryHotplug is_qemu has_qmp rc (Ok c) = Some p → mem_follows c (mem_config p)).
Proof.
  intros Henv. unfold LoadFrom. destruct (ce_read env path) as [data|e]; [|by case_decide].
  destruct (ce_unmarshal env data) as [c0|e] eqn:Ej; [|done]. intros H. inv_conf. injection H as <- <-.
  assert (Hok : config_ok (applyDefaults c0)).
  { eapply Validate_Ok; [done|apply applyDefaults_no_nan, (co_json _ Henv _ _ Ej)|by apply dflt_s_nonempty|done]. }
  split; [done|]. split; intros *; [unfold StartCPUHotplug|unfold StartMemoryHotplug]; repeat case_match; try done; intros [= <-].
  - by apply cpu_settings_follow.
  - by apply mem_settings_follow.
Qed.

(** ** Defaults fill what is missing *)

Definition empty_hotplug : HotplugConfig := mkHotplug "" "" "" (f64 0) (f64 0) 0 0 false.
Definition empty_config : Config :=
  mkConfig (mkPaths "" "" "" "" "" "") (mkRuntime "" false) (mkTimeouts "" "" "" "" "" "" "")
    (mkCPUHotplug empty_hotplug (f64 0)) (mkMemHotplug empty_hotplug 0 0).

Definition set_scale_down (b : bool) (h : HotplugConfig) : HotplugConfig :=
  mkHotplug (hp_MonitorInterval h) (hp_ScaleUpCooldown h) (hp_ScaleDownCooldown h) (hp_ScaleUpThreshold h)
    (hp_ScaleDownThreshold h) (hp_ScaleUpStability h) (hp_ScaleDownStability h) b.
Definition set_cpu (h : HotplugConfig) (c : Config) : Config :=
  mkConfig (Paths c) (Runtime c) (Timeouts c) (mkCPUHotplug h (ScaleUpThrottleLimit (CPUHotplug_ c))) (MemHotplug_ c).

Lemma dflt_s_id x d : x ≠ "" → dflt_s x d = x.
Proof. unfold dflt_s. by case_decide. Qed.
Lemma dflt_s_twice x d : dflt_s (dflt_s x d) d = dflt_s x d.
Proof. unfold dflt_s. repeat case_decide; congruence. Qed.
Lemma dflt_z_id x d : 0 < x → dflt_z x d = x.
Proof. unfold dflt_z. intros. by rewrite (proj2 (Z.eqb_neq _ _)) by lia. Qed.
Lemma dflt_z_twice x d : dflt_z (dflt_z x d) d = dflt_z x d.
Proof. unfold dflt_z. destruct (x =? 0) eqn:E; [by destruct (d =? 0)|by rewrite E]. Qed.
Lemma dflt_f_twice x d : dflt_f (dflt_f x d) d = dflt_f x d.
Proof. unfold dflt_f. destruct (SFeqb x (f64 0)) eqn:E; [by destruct (SFeqb d _)|by rewrite E]. Qed.
Lemma dflt_f_pos x d : flt (f64 0) x = true → dflt_f x d = x.
Proof.
  unfold dflt_f, flt, SFltb, SFeqb. rewrite (SFcompare_swap (f64 0) x). destruct (SFcompare (f64 0) x) as [[]|]; done.
Qed.

Lemma hotplug_defaults_id h d : hotplug_ok h → applyHotplugDefaults h d = h.
Proof.
  intros [[Hu _] [Hd _] [? ?] [t Ht]].
  assert (Hne : ∀ s x, ParseDuration s = Some x → s ≠ "") by (by intros s x Hsx ->).
  unfold parse3 in Ht. destruct (ParseDuration (hp_MonitorInterval h)) eqn:E1; [|done].
  destruct (ParseDuration (hp_ScaleUpCooldown h)) eqn:E2; [|done]. destruct (ParseDuration (hp_ScaleDownCooldown h)) eqn:E3; [|done].
  destruct h; unfold applyHotplugDefaults; simpl in *. by rewrite !dflt_s_id, !dflt_f_pos, !dflt_z_id by eauto.
Qed.

Lemma timeout_set t name s : (name, s) ∈ timeout_fields t → (∃ d, Duration t name = Val d ∧ 0 < d ≤ hour) → s ≠ "".
Proof.
  intros Hin (d & Hd & _) ->. unfold timeout_fields in Hin. rewrite !elem_of_cons, elem_of_nil in Hin.
  destruct t; unfold Duration, timeout_fields in Hd; simpl in *.
  destruct Hin as [E|[E|[E|[E|[E|[E|[E|[]]]]]]]]; injection E as -> <-; vm_compute in Hd; discriminate.
Qed.

(** Applying the defaults twice is applying them once, a well-formed configuration
    is left as it is (but for a throttle limit of zero), and an empty file gives the
    default configuration, except that scale-down of CPUs is off. *)
Theorem defaults_fill_only_gaps c :
  applyDefaults (applyDefaults c) = applyDefaults c ∧
  (config_ok c → SFeqb (ScaleUpThrottleLimit (CPUHotplug_ c)) (f64 0) = false → applyDefaults c = c) ∧
  applyDefaults empty_config = set_cpu (set_scale_down false (ch_HotplugConfig (CPUHotplug_ defaultConfig))) defaultConfig.
Proof.
  split_and!.
  - unfold applyDefaults, applyHotplugDefaults. simpl. by rewrite !dflt_s_twice, !dflt_f_twice, !dflt_z_twice.
  - intros [(?&?&?&?) Hv Ht Hc _ Hm ? [? _]] Hz.
    assert (Hs : Forall (λ f, f.2 ≠ "") (timeout_fields (Timeouts c))).
    { apply Forall_forall. intros [n s] Hf. eapply timeout_set; [done|]. apply Ht. apply list_elem_of_fmap. by exists (n, s). }
    assert (Hl : ∀ d, dflt_f (ScaleUpThrottleLimit (CPUHotplug_ c)) d = ScaleUpThrottleLimit (CPUHotplug_ c))
      by (intros d; unfold dflt_f; by rewrite Hz).
    destruct c as [[] [] [] [hc l] [hm o i]]; unfold applyDefaults, timeout_fields in *; simpl in *.
    rewrite !hotplug_defaults_id by done. rewrite !dflt_z_id by done.
    rewrite Hl. decompose_Forall_hyps. by rewrite !dflt_s_id by (done || by subst).
  - vm_compute. done.
Qed.

(** ** What validation lets through *)

Lemma check_durations_all prefix l w : (∀ f, f ∈ l → is_Some (ParseDuration f.2)) → check_durations prefix l w = (Ok tt, w).
Proof.
  revert w. induction l as [|[n v] l IH]; intros w H; simpl; [done|].
  destruct (H (n, v)) as [d Hd]; [set_solver|]. simpl in Hd. rewrite Hd. apply IH. set_solver.
Qed.

Definition set_interval (s : string) (h : HotplugConfig) : HotplugConfig :=
  mkHotplug s (hp_ScaleUpCooldown h) (hp_ScaleDownCooldown h) (hp_ScaleUpThreshold h)
    (hp_ScaleDownThreshold h) (hp_ScaleUpStability h) (hp_ScaleDownStability h) (hp_EnableScaleDown h).

Section intervals.
Context (env : confEnv) (Horder : ∀ l, ce_order env l ≡ₚ l).

Lemma interval_accepted h prefix w x w' s : is_Some (ParseDuration s) →
  validateHotplug env h prefix w = (Ok x, w') →
  validateHotplug env (set_interval s h) prefix w = (Ok x, w') ∧
  is_Some (ParseDuration (hp_ScaleUpCooldown h)) ∧ is_Some (ParseDuration (hp_ScaleDownCooldown h)).
Proof.
  intros Hs H. unfold validateHotplug in H. apply bind_Ok in H as (y & w1 & Hc & H).
  pose proof (check_durations_Ok _ _ _ _ _ Hc) as [-> Hall].
  assert (Hp : ∀ f, f ∈ hotplug_durations h → is_Some (ParseDuration f.2)).
  { intros [n v] Hf. apply (Hall n v). by rewrite Horder. }
  split; [|split; [apply (Hp ("scale_up_cooldown", _))|apply (Hp ("scale_down_cooldown", _))]; set_solver].
  unfold validateHotplug. apply bind_Ok. exists tt, w. split; [|exact H]. apply check_durations_all. intros f.
  rewrite Horder. unfold hotplug_durations. simpl. rewrite !elem_of_cons, elem_of_nil.
  intros [->|[->|[->|[]]]]; simpl; [done|apply (Hp ("scale_up_cooldown", _))|apply (Hp ("scale_down_cooldown", _))]; set_solver.
Qed.
End intervals.

(** Validation only asks that the monitoring interval be a duration: with an
    interval of zero an accepted configuration is still accepted, and the ticker
    the CPU controller then creates panics. *)
Theorem zero_interval_crashes env c w x w' :
  (∀ l, ce_order env l ≡ₚ l) → Validate env c w = (Ok x, w') →
  let c' := set_cpu (set_interval "0s" (ch_HotplugConfig (CPUHotplug_ c))) c in
  Validate env c' w = (Ok x, w') ∧
  ∃ s, cpu_settings c' = Ok s ∧ NewTicker (cfg_MonitorInterval s) = Panic "non-positive interval for NewTicker".
Proof.
  intros Ho H. cbv zeta. unfold Validate in *.
  apply bind_Ok in H as (y1 & w1 & H1 & H). apply bind_Ok in H as (y2 & w2 & H2 & H). apply bind_Ok in H as (y3 & w3 & H3 & H).
  apply bind_Ok in H as (y4 & w4 & H4 & H). apply wrapping_Ok in H4. unfold validateCPUHotplug in H4.
  apply bind_Ok in H4 as (y5 & w5 & H5 & H6).
  destruct (interval_accepted env Ho _ _ _ _ _ "0s" ltac:(vm_compute; eauto) H5) as (Hi & [u Hu] & [d Hd]). split.
  - apply bind_Ok. exists y1, w1. split; [exact H1|]. apply bind_Ok. exists y2, w2. split; [exact H2|].
    apply bind_Ok. exists y3, w3. split; [exact H3|]. apply bind_Ok. exists y4, w4. split; [|exact H].
    apply wrapping_Ok. unfold validateCPUHotplug. apply bind_Ok. exists y5, w5. split; [exact Hi|exact H6].
  - unfold cpu_settings, parse3. simpl. change (ParseDuration "0s") with (Some 0). simpl. rewrite Hu, Hd. simpl. eauto.
Qed.

(** A memory increment of 2^44 MiB is accepted and becomes one of no bytes. *)
Lemma huge_increment_is_zero :
  let c := mkMemHotplug (mh_HotplugConfig (MemHotplug_ defaultConfig)) 128 17592186044416 in
  Z.rem (IncrementSizeMB c) 128 = 0 ∧
  ∃ s, mem_settings (mkConfig (Paths defaultConfig) (Runtime defaultConfig) (Timeouts defaultConfig) (CPUHotplug_ defaultConfig) c) = Ok s ∧
       mc_IncrementSize s = 0.
Proof. cbv zeta. split; [reflexivity|]. eexists. split; [vm_compute; reflexivity|reflexivity]. Qed.

(** ** Witnesses *)

Definition plain_env : confEnv :=
  mkConfEnv (λ _, Ok "{}") (λ _, Ok empty_config) Resolved (λ _, StatDir) (λ _, None) (λ _, true) (λ _, None) (λ l, l)
    (λ _, "") (λ _, "").

Lemma plain_env_ok : conf_env_ok plain_env.
Proof. split; [done|]. intros data c [= <-]. repeat split. Qed.

Lemma loaded_config_well_formed_witness :
  LoadFrom plain_env "/etc/spinbox/config.json" [] = (Ok (applyDefaults empty_config), []) ∧ config_ok (applyDefaults empty_config) ∧
  (∃ p, StartMemoryHotplug true true (mkVMResourceConfig 1 2 (512 * MB) (1024 * MB) 8) (Ok (applyDefaults empty_config)) = Some p
     ∧ mem_follows (applyDefaults empty_config) (mem_config p)).
Proof.
  split; [vm_compute; reflexivity|].
  destruct (loaded_config_well_formed plain_env "/etc/spinbox/config.json" [] (applyDefaults empty_config) [] plain_env_ok
    ltac:(vm_compute; reflexivity)) as (H1 & _ & H3).
  split; [exact H1|]. eexists. split; [reflexivity|]. by apply (H3 true true (mkVMResourceConfig 1 2 (512 * MB) (1024 * MB) 8)).
Defined.

Lemma zero_interval_crashes_witness :
  Validate plain_env (set_cpu (set_interval "0s" (ch_HotplugConfig (CPUHotplug_ defaultConfig))) defaultConfig) [] = (Ok tt, []).
Proof.
  refine (proj1 (zero_interval_crashes plain_env defaultConfig [] tt [] (λ l, reflexivity l) _)). vm_compute. reflexivity.
Defined.

Lemma defaults_fill_only_gaps_witness : applyDefaults (applyDefaults empty_config) = applyDefaults empty_config.
Proof. exact (proj1 (defaults_fill_only_gaps empty_config)). Defined.
