(* ===== verification/Supervisor.v ===== *)
(** The guest's supervisor agent: internal/guest/vminit/supervisor/monitor.go and
    findBinary of supervisor.go.

    The monitoring loop, Stop, the process and the clock interleave: [mstep] takes
    one step and is undefined when it is not enabled.  [m_log] records what happens
    to the process.  Times are nanoseconds. *)
From S2P Require Import Prelude GoStrings GoText.
Open Scope Z_scope.

Definition second : Z := 1000000000.
Definition maxRestarts : Z := 10.
Definition restartWindow : Z := 300 * second.
Definition initialBackoff : Z := 1 * second.
Definition maxBackoff : Z := 30 * second.

(** ** State *)

Inductive mphase :=
  | PCheck | PStart | PWait | PExited
  | PBackoff (until : Z)
  | PDone (err : option error).

Inductive mevent := Started (pid : Z) (at_ : Z) | Crashed (at_ : Z) | Signalled (pid : Z).

Record Monitor := mkMonitor {
  m_restarts : Z;
  m_windowStart : Z;
  m_pid : option Z;                (** [cmd] and [pid], once started *)
  m_lastStart : option Z;
  m_stopped : bool;
  m_phase : mphase;
  m_now : Z;
  m_cancelled : bool;
  m_log : list mevent
}.

Definition NewMonitor (now : Z) : Monitor := mkMonitor 0 now None None false PCheck now false [].

Definition at_phase p m := mkMonitor (m_restarts m) (m_windowStart m) (m_pid m) (m_lastStart m) (m_stopped m) p (m_now m) (m_cancelled m) (m_log m).
Definition with_window r t m := mkMonitor r t (m_pid m) (m_lastStart m) (m_stopped m) (m_phase m) (m_now m) (m_cancelled m) (m_log m).
Definition with_log l m := mkMonitor (m_restarts m) (m_windowStart m) (m_pid m) (m_lastStart m) (m_stopped m) (m_phase m) (m_now m) (m_cancelled m) l.

(** ** Operations *)

(** The loop of [calculateBackoff]: [i] rounds are left. *)
Fixpoint double_up (i : nat) (backoff : Z) : Z :=
  match i with
  | O => backoff
  | S i' => if backoff <? maxBackoff then double_up i' (backoff * 2) else backoff
  end.

Definition calculateBackoff (restarts : Z) : Z :=
  if restarts <=? 0 then initialBackoff
  else let backoff := double_up (Z.to_nat restarts) initialBackoff in
       if maxBackoff <? backoff then maxBackoff else backoff.

(** A window that has lasted long enough starts over. *)
Definition reset_window (m : Monitor) : Monitor :=
  if restartWindow <? m_now m - m_windowStart m then with_window 0 (m_now m) m else m.

Definition shouldGiveUp (m : Monitor) : bool * Monitor :=
  let m := reset_window m in (maxRestarts <=? m_restarts m, m).

Definition recordRestart (m : Monitor) : Monitor :=
  let m := reset_window m in with_window (m_restarts m + 1) (m_windowStart m) m.

Definition waitBackoff (m : Monitor) : Monitor := at_phase (PBackoff (m_now m + calculateBackoff (m_restarts m))) m.

Definition start (r : res Z) (m : Monitor) : Monitor :=
  match r with
  | Err _ => waitBackoff m
  | Ok pid => mkMonitor (m_restarts m) (m_windowStart m) (Some pid) (Some (m_now m)) (m_stopped m) PWait (m_now m)
                (m_cancelled m) (m_log m ++ [Started pid (m_now m)])
  end.

Definition exceeded : error := errorf "supervisor exceeded 10 restarts in 5m0s".

(** The loop of [Run]: [r] is what starting the process answers, and [expired]
    which case a backoff's select picks when both are ready. *)
Definition loop_step (r : res Z) (expired : bool) (m : Monitor) : option Monitor :=
  match m_phase m with
  | PCheck => let '(b, m) := shouldGiveUp m in Some (at_phase (if b then PDone (Some exceeded) else PStart) m)
  | PStart => Some (start r m)
  | PExited =>
      if m_stopped m || m_cancelled m then Some (at_phase (PDone None) m)
      else Some (waitBackoff (with_log (m_log m ++ [Crashed (m_now m)]) (recordRestart m)))
  | PBackoff t =>
      if expired then if t <=? m_now m then Some (at_phase PCheck m) else None
      else if m_cancelled m then Some (at_phase (PDone None) m) else None
  | PWait | PDone _ => None
  end.

Definition Stop (m : Monitor) : Monitor :=
  mkMonitor (m_restarts m) (m_windowStart m) (m_pid m) (m_lastStart m) true (m_phase m) (m_now m) (m_cancelled m)
    (match m_pid m, m_phase m with Some pid, PWait => m_log m ++ [Signalled pid] | _, _ => m_log m end).

Definition Status (m : Monitor) : option Z * Z * Z :=
  (m_pid m, m_restarts m, match m_lastStart m with None => 0 | Some t => m_now m - t end).

Inductive minput := ILoop (r : res Z) (expired : bool) | IExit | IStop | ICancel | ITick (dt : nat).

Definition mstep (i : minput) (m : Monitor) : option Monitor :=
  match i with
  | ILoop r expired => loop_step r expired m
  | IExit => match m_phase m with PWait => Some (at_phase PExited m) | _ => None end
  | IStop => Some (Stop m)
  | ICancel => Some (mkMonitor (m_restarts m) (m_windowStart m) (m_pid m) (m_lastStart m) (m_stopped m) (m_phase m) (m_now m) true (m_log m))
  | ITick dt => Some (mkMonitor (m_restarts m) (m_windowStart m) (m_pid m) (m_lastStart m) (m_stopped m) (m_phase m)
                        (m_now m + Z.of_nat dt) (m_cancelled m) (m_log m))
  end.

Fixpoint mrun (is_ : list minput) (m : Monitor) : option Monitor :=
  match is_ with [] => Some m | i :: is_' => mstep i m ≫= mrun is_' end.

(** [findBinary]: [exists_] is os.Stat, [dirs] the subdirectories os.ReadDir lists. *)
Definition BinaryPath : string := "/var/lib/spin-stack/bin/spin-supervisor".
Definition BundleBasePath : string := "/run/spin-stack".
Definition BinaryName : string := "spin-supervisor".

Definition findBinary (exists_ : string → bool) (dirs : string → option (list string)) : string :=
  if exists_ BinaryPath then BinaryPath
  else
    let candidates :=
      ns ← default [] (dirs BundleBasePath);
      id ← default [] (dirs (path_Join [BundleBasePath; ns]));
      [path_Join [path_Join [BundleBasePath; ns]; id; BinaryName]] in
    match list_find (λ p, exists_ p = true) candidates with Some (_, p) => p | None => "" end.

(** ** The backoff *)

Lemma double_up_spec i b : 0 < b → b ≤ maxBackoff → maxBackoff ≤ b * 2 ^ Z.of_nat i ∨ double_up i b = b * 2 ^ Z.of_nat i.
Proof.
  revert b. induction i as [|i IH]; intros b Hb Hm; [right; simpl; lia|].
  replace (b * 2 ^ Z.of_nat (S i)) with (b * 2 * 2 ^ Z.of_nat i) by (rewrite Nat2Z.inj_succ, Z.pow_succ_r by lia; lia).
  cbn [double_up]. destruct (Z.ltb_spec b maxBackoff).
  - destruct (decide (b * 2 ≤ maxBackoff)); [apply IH; lia|]. left.
    assert (0 < 2 ^ Z.of_nat i) by (apply Z.pow_pos_nonneg; lia). nia.
  - left. assert (0 < 2 ^ Z.of_nat i) by (apply Z.pow_pos_nonneg; lia). nia.
Qed.

Lemma double_up_ge i b : maxBackoff ≤ b * 2 ^ Z.of_nat i → 0 < b → maxBackoff ≤ double_up i b.
Proof.
  revert b. induction i as [|i IH]; intros b H Hb; [simpl in *; lia|]. cbn [double_up].
  destruct (Z.ltb_spec b maxBackoff); [|lia]. apply IH; [|lia].
  rewrite Nat2Z.inj_succ, Z.pow_succ_r in H by lia. lia.
Qed.

(** The loop computes a power of two, capped. *)
Lemma calculateBackoff_spec r : 0 < r → calculateBackoff r = Z.min (initialBackoff * 2 ^ r) maxBackoff.
Proof.
  intros Hr. unfold calculateBackoff. rewrite (proj2 (Z.leb_gt _ _)) by lia.
  assert (Hn : Z.of_nat (Z.to_nat r) = r) by lia.
  destruct (double_up_spec (Z.to_nat r) initialBackoff) as [H|H]; [done|done| |]; rewrite Hn in H.
  - pose proof (double_up_ge (Z.to_nat r) initialBackoff ltac:(by rewrite Hn) ltac:(done)).
    destruct (Z.ltb_spec maxBackoff (double_up (Z.to_nat r) initialBackoff)); lia.
  - rewrite H. destruct (Z.ltb_spec maxBackoff (initialBackoff * 2 ^ r)); lia.
Qed.

Lemma calculateBackoff_range r : initialBackoff ≤ calculateBackoff r ≤ maxBackoff.
Proof.
  destruct (decide (0 < r)) as [Hr|Hr].
  - rewrite calculateBackoff_spec by done. assert (1 ≤ 2 ^ r) by (apply (Z.pow_le_mono_r 2 0 r); lia).
    unfold initialBackoff, maxBackoff, second. lia.
  - unfold calculateBackoff. rewrite (proj2 (Z.leb_le _ _)) by lia. done.
Qed.

(** ** The restart limit *)

(** Crashes recorded since the window began. *)
Definition crashes_since (t : Z) (l : list mevent) : nat :=
  length (List.filter (λ e, match e with Crashed u => t <=? u | _ => false end) l).

Definition times (l : list mevent) (now : Z) : Prop :=
  Forall (λ e, match e with Crashed u | Started _ u => u ≤ now | Signalled _ => True end) l.

(** Restarts counted are at most the crashes in the window, and never more than ten;
    a start is only ever reached below the limit. *)
Record minv (m : Monitor) : Prop := mkMinv {
  mi_now : m_windowStart m ≤ m_now m;
  mi_times : times (m_log m) (m_now m);
  mi_count : 0 ≤ m_restarts m ≤ Z.of_nat (crashes_since (m_windowStart m) (m_log m));
  mi_max : m_restarts m ≤ maxRestarts;
  mi_phase : match m_phase m with PStart | PWait | PExited => m_restarts m < maxRestarts | _ => True end;
  mi_done : ∀ e, m_phase m = PDone (Some e) → e = exceeded ∧ m_restarts m = maxRestarts
}.

Lemma times_mono l t t' : times l t → t ≤ t' → times l t'.
Proof. intros H Ht. eapply Forall_impl; [exact H|]. intros [] ?; simpl in *; by try lia. Qed.

Lemma crashes_snoc t l e : crashes_since t (l ++ [e]) =
  (crashes_since t l + match e with Crashed u => if (t <=? u)%Z then 1 else 0 | _ => 0 end)%nat.
Proof. unfold crashes_since. rewrite List.filter_app, length_app. simpl. destruct e; simpl; try lia. by destruct (t <=? at_). Qed.

Lemma reset_window_inv m : minv m → (∀ e, m_phase m ≠ PDone (Some e)) →
  minv (reset_window m) ∧ m_phase (reset_window m) = m_phase m ∧ m_now (reset_window m) = m_now m ∧
  m_log (reset_window m) = m_log m.
Proof.
  intros [Hn Ht Hc Hm Hp Hd] Hno. unfold reset_window. destruct (Z.ltb_spec restartWindow (m_now m - m_windowStart m)).
  - split_and!; try done. constructor; simpl; try done; try lia.
    + by destruct (m_phase m).
    + intros e He. by destruct (Hno e).
  - split_and!; done.
Qed.

Lemma minv_check m : minv m → m_phase m = PCheck → 
  minv (at_phase (if maxRestarts <=? m_restarts (reset_window m) then PDone (Some exceeded) else PStart) (reset_window m)).
Proof.
  intros HI Hp. destruct (reset_window_inv m HI) as ([Hn Ht Hc Hm _ _] & _); [by rewrite Hp|].
  destruct (Z.leb_spec maxRestarts (m_restarts (reset_window m))).
  - constructor; simpl; try done. intros e [= <-]. split; [done|lia].
  - constructor; simpl; try done; lia.
Qed.

Lemma minv_crash m : minv m → m_phase m = PExited →
  minv (waitBackoff (with_log (m_log m ++ [Crashed (m_now m)]) (recordRestart m))).
Proof.
  intros HI Hp. destruct (reset_window_inv m HI) as ([Hn Ht Hc Hm Hq _] & Hph & Hnow & Hlog); [by rewrite Hp|].
  unfold recordRestart. set (m' := reset_window m) in *. rewrite Hph, Hp in Hq.
  constructor; simpl; try done; try lia.
  - rewrite <- Hlog, <- Hnow. apply Forall_app. split; [done|]. constructor; [lia|done].
  - rewrite <- Hlog, crashes_snoc, <- Hnow. rewrite (proj2 (Z.leb_le _ _)) by lia. lia.
Qed.

Lemma minv_step i m m' : minv m → mstep i m = Some m' → minv m'.
Proof.
  intros HI. pose proof HI as [Hn Ht Hc Hm Hp Hd]. destruct i as [r expired| | | |dt]; simpl.
  - unfold loop_step. destruct (m_phase m) as [| | | |t|] eqn:Ep; try done.
    + intros [= <-]. by apply minv_check.
    + intros [= <-]. unfold start. destruct r as [pid|e].
      * constructor; simpl; try done; [|rewrite crashes_snoc; lia]. apply Forall_app. split; [done|]. by constructor.
      * constructor; simpl; done.
    + destruct (m_stopped m || m_cancelled m); intros [= <-]; [|by apply minv_crash]. constructor; simpl; done.
    + destruct expired; [destruct (_ <=? _)|destruct (m_cancelled m)]; intros [= <-]; constructor; simpl; done.
  - destruct (m_phase m) eqn:Ep; try done. intros [= <-]. constructor; simpl; try done.
  - intros [= <-]. unfold Stop. constructor; simpl; try done; destruct (m_pid m), (m_phase m); simpl; try done.
    all: try (apply Forall_app; split; [done|by constructor]). all: rewrite crashes_snoc; lia.
  - intros [= <-]. constructor; simpl; done.
  - intros [= <-]. constructor; simpl; try done; [lia|]. eapply times_mono; [done|lia].
Qed.

Lemma minv_run is_ m m' : minv m → mrun is_ m = Some m' → minv m'.
Proof.
  revert m. induction is_ as [|i is_ IH]; intros m HI; simpl; [by intros [= <-]|].
  destruct (mstep i m) eqn:E; [|done]. simpl. apply IH. by eapply minv_step.
Qed.

(** Whatever the process, Stop and the clock do: no more than ten crashes are ever
    counted, each of them happened in the current window, the supervisor only runs
    below the limit, and the monitor gives up only at the limit. *)
Theorem restarts_limited t is_ m :
  mrun is_ (NewMonitor t) = Some m →
  m_restarts m ≤ maxRestarts ∧
  m_restarts m ≤ Z.of_nat (crashes_since (m_windowStart m) (m_log m)) ∧
  (m_phase m = PWait → m_restarts m < maxRestarts) ∧
  (∀ e, m_phase m = PDone (Some e) → (10 ≤ crashes_since (m_windowStart m) (m_log m))%nat).
Proof.
  intros Hr. assert (H0 : minv (NewMonitor t)) by (constructor; simpl; try done; constructor).
  destruct (minv_run _ _ _ H0 Hr) as [_ _ [_ Hc] Hm Hp Hd]. split_and!; try done.
  - intros E. by rewrite E in Hp.
  - intros e He. destruct (Hd e He) as [_ Hx]. unfold maxRestarts in *. lia.
Qed.

(** ** A supervisor that keeps crashing *)

(** One round: checked, started, run for [d], crashed, and waited for. *)
Definition round (d : nat) (k : Z) : list minput :=
  [ILoop (Ok 1) true; ILoop (Ok 1) true; ITick d; IExit; ILoop (Ok 1) true;
   ITick (Z.to_nat (calculateBackoff (k + 1))); ILoop (Ok 1) true].

(** The total of the first backoffs after a crash. *)
Fixpoint backoffs (k : Z) (n : nat) : Z :=
  match n with O => 0 | S n' => calculateBackoff (k + 1) + backoffs (k + 1) n' end.

(** A monitor that is not told to stop: its phase, restarts, window and time. *)
Definition running_at (m : Monitor) (p : mphase) (r w n : Z) : Prop :=
  m_phase m = p ∧ m_restarts m = r ∧ m_windowStart m = w ∧ m_now m = n ∧ m_stopped m = false ∧ m_cancelled m = false.

Lemma check_step m r w n : running_at m PCheck r w n → r < maxRestarts → n - w ≤ restartWindow →
  ∃ m', mstep (ILoop (Ok 1) true) m = Some m' ∧ running_at m' PStart r w n.
Proof.
  intros (Hp & <- & <- & <- & Hs & Hc) Hr Hw. cbn [mstep]. unfold loop_step, shouldGiveUp, reset_window.
  rewrite Hp, (proj2 (Z.ltb_ge _ _)), (proj2 (Z.leb_gt _ _)) by done. by eexists.
Qed.

Lemma start_step m r w n : running_at m PStart r w n →
  ∃ m', mstep (ILoop (Ok 1) true) m = Some m' ∧ running_at m' PWait r w n.
Proof. intros (Hp & ?). cbn [mstep]. unfold loop_step. rewrite Hp. by eexists. Qed.

Lemma tick_step m p r w n d : running_at m p r w n → ∃ m', mstep (ITick d) m = Some m' ∧ running_at m' p r w (n + Z.of_nat d).
Proof. intros (? & ? & ? & <- & ?). by eexists. Qed.

Lemma exit_step m r w n : running_at m PWait r w n → ∃ m', mstep IExit m = Some m' ∧ running_at m' PExited r w n.
Proof. intros (Hp & ?). cbn [mstep]. rewrite Hp. by eexists. Qed.

Lemma crash_step m r w n : running_at m PExited r w n → n - w ≤ restartWindow →
  ∃ m', mstep (ILoop (Ok 1) true) m = Some m' ∧ running_at m' (PBackoff (n + calculateBackoff (r + 1))) (r + 1) w n.
Proof.
  intros (Hp & <- & <- & <- & Hs & Hc) Hw. cbn [mstep]. unfold loop_step, recordRestart, reset_window.
  rewrite Hp, Hs, Hc, (proj2 (Z.ltb_ge _ _)) by done. by eexists.
Qed.

Lemma backoff_step m t r w n : running_at m (PBackoff t) r w n → t ≤ n →
  ∃ m', mstep (ILoop (Ok 1) true) m = Some m' ∧ running_at m' PCheck r w n.
Proof.
  intros (Hp & <- & <- & <- & Hs & Hc) Ht. cbn [mstep]. unfold loop_step. rewrite Hp, (proj2 (Z.leb_le _ _)) by done. by eexists.
Qed.

Lemma round_spec m d : m_phase m = PCheck → m_stopped m = false → m_cancelled m = false →
  0 ≤ m_restarts m < maxRestarts → m_now m + Z.of_nat d - m_windowStart m ≤ restartWindow →
  ∃ m', mrun (round d (m_restarts m)) m = Some m' ∧ m_phase m' = PCheck ∧ m_stopped m' = false ∧ m_cancelled m' = false ∧
    m_restarts m' = m_restarts m + 1 ∧ m_windowStart m' = m_windowStart m ∧
    m_now m' = m_now m + Z.of_nat d + calculateBackoff (m_restarts m + 1).
Proof.
  intros Hp Hs Hc Hr Hw. pose proof (calculateBackoff_range (m_restarts m + 1)) as Hb.
  assert (Hto : Z.of_nat (Z.to_nat (calculateBackoff (m_restarts m + 1))) = calculateBackoff (m_restarts m + 1))
    by (unfold initialBackoff, second in Hb; lia).
  unfold round. revert Hto. generalize (Z.to_nat (calculateBackoff (m_restarts m + 1))). intros b Hto.
  destruct (check_step m _ _ _ (conj Hp (conj eq_refl (conj eq_refl (conj eq_refl (conj Hs Hc)))))) as (m1 & E1 & R1); [lia..|].
  destruct (start_step _ _ _ _ R1) as (m2 & E2 & R2). destruct (tick_step _ _ _ _ _ d R2) as (m3 & E3 & R3).
  destruct (exit_step _ _ _ _ R3) as (m4 & E4 & R4). destruct (crash_step _ _ _ _ R4) as (m5 & E5 & R5); [lia|].
  destruct (tick_step _ _ _ _ _ b R5) as (m6 & E6 & R6). destruct (backoff_step _ _ _ _ _ R6) as (m7 & E7 & R7); [lia|].
  exists m7. split; [by cbn [mrun]; rewrite E1; cbn [mbind option_bind]; rewrite E2; cbn [mbind option_bind]; rewrite E3; cbn [mbind option_bind];
    rewrite E4; cbn [mbind option_bind]; rewrite E5; cbn [mbind option_bind]; rewrite E6; cbn [mbind option_bind]; rewrite E7|].
  destruct R7 as (? & ? & ? & -> & ? & ?). rewrite Hto. by split_and!.
Qed.

Fixpoint rounds (ds : list nat) (k : Z) : list minput :=
  match ds with [] => [] | d :: ds' => round d k ++ rounds ds' (k + 1) end.

Lemma mrun_app is1 is2 m : mrun (is1 ++ is2) m = mrun is1 m ≫= mrun is2.
Proof. revert m. induction is1 as [|i is1 IH]; intros m; simpl; [done|]. destruct (mstep i m); simpl; [apply IH|done]. Qed.

Definition total (ds : list nat) : Z := foldr (λ d s, Z.of_nat d + s) 0 ds.

Lemma uptime_nonneg ds : 0 ≤ total ds.
Proof. induction ds; simpl; lia. Qed.

Lemma backoffs_nonneg k n : 0 ≤ backoffs k n.
Proof.
  revert k. induction n as [|n IH]; intros k; simpl; [lia|]. pose proof (calculateBackoff_range (k + 1)). specialize (IH (k + 1)).
  unfold initialBackoff, second in *. lia.
Qed.

Lemma rounds_spec ds m : m_phase m = PCheck → m_stopped m = false → m_cancelled m = false →
  0 ≤ m_restarts m → m_restarts m + Z.of_nat (length ds) ≤ maxRestarts →
  m_now m + total ds + backoffs (m_restarts m) (length ds) - m_windowStart m ≤ restartWindow →
  ∃ m', mrun (rounds ds (m_restarts m)) m = Some m' ∧ m_phase m' = PCheck ∧ m_cancelled m' = false ∧
    m_restarts m' = m_restarts m + Z.of_nat (length ds) ∧ m_windowStart m' = m_windowStart m ∧
    m_now m' = m_now m + total ds + backoffs (m_restarts m) (length ds).
Proof.
  revert m. induction ds as [|d ds IH]; intros m Hp Hs Hc Hr Hl Hw.
  - exists m. simpl in *. split_and!; try done; lia.
  - cbn [length rounds backoffs total foldr] in *. fold (total ds) in *. pose proof (uptime_nonneg ds).
    pose proof (backoffs_nonneg (m_restarts m + 1) (length ds)). pose proof (calculateBackoff_range (m_restarts m + 1)) as Hb.
    unfold initialBackoff, second in Hb.
    destruct (round_spec m d Hp Hs Hc) as (m1 & H1 & Hp1 & Hs1 & Hc1 & Hr1 & Hw1 & Hn1); [lia|lia|].
    destruct (IH m1 Hp1 Hs1 Hc1) as (m2 & H2 & Hp2 & Hca2 & Hr2 & Hw2 & Hn2); [lia|lia|rewrite Hr1, Hn1, Hw1; lia|].
    exists m2. rewrite Hr1 in *. rewrite mrun_app, H1. simpl. split_and!; [done|done|done|lia|congruence|lia].
Qed.

(** The schedule of a crash loop: ten runs of at most ninety seconds altogether, with
    every timer on time and nothing else taking time. *)
Lemma crash_rounds t ds : length ds = 10%nat → total ds ≤ 90 * second →
  ∃ m, mrun (rounds ds 0) (NewMonitor t) = Some m ∧ m_phase m = PCheck ∧ m_cancelled m = false ∧ m_restarts m = 10 ∧
    m_now m - t ≤ restartWindow.
Proof.
  intros Hl Ht. assert (Hb : backoffs 0 10 = 210 * second) by reflexivity.
  destruct (rounds_spec ds (NewMonitor t)) as (m & Hm & Hp & Hca & Hr & Hw & Hn);
    [done|done|done|done|simpl; rewrite Hl; done|simpl; rewrite Hl, Hb; unfold restartWindow, second in *; lia|].
  exists m. cbn [m_restarts m_now NewMonitor] in *. rewrite Hl in *. split_and!; try done. rewrite Hb in Hn.
  unfold restartWindow, second in *. lia.
Qed.

(** *** Any schedule *)

Definition crashes (l : list mevent) : nat := length (List.filter (λ e, match e with Crashed _ => true | _ => false end) l).

#[local] Arguments crashes : simpl never.

Lemma crashes_app l l' : crashes (l ++ l') = (crashes l + crashes l')%nat.
Proof. unfold crashes. by rewrite List.filter_app, length_app. Qed.

(** While the first window lasts, every crash is counted and none is forgotten. *)
Record first_window (t : Z) (m : Monitor) : Prop := mkFirstWindow {
  fw_window : m_now m - t ≤ restartWindow → m_windowStart m = t ∧ m_restarts m = Z.of_nat (crashes (m_log m));
  fw_done : m_phase m = PDone None → m_cancelled m = true ∨ m_restarts m < maxRestarts
}.

Lemma reset_window_first t m : first_window t m → m_now m - t ≤ restartWindow → reset_window m = m.
Proof. intros [Hw _] Ht. destruct (Hw Ht) as [E _]. unfold reset_window. rewrite E. by rewrite (proj2 (Z.ltb_ge _ _)) by lia. Qed.

Lemma reset_window_now m : m_now (reset_window m) = m_now m ∧ m_log (reset_window m) = m_log m ∧
  m_cancelled (reset_window m) = m_cancelled m.
Proof. unfold reset_window. by case_match. Qed.

Lemma first_window_loop t m r b m' : minv m → first_window t m → loop_step r b m = Some m' → first_window t m'.
Proof.
  intros HI Hf. pose proof Hf as [Hw Hd]. unfold loop_step. destruct (m_phase m) as [| | | |u|] eqn:Ep; try done.
  - intros [= <-]. destruct (reset_window_now m) as (E1 & E2 & E3). constructor.
    + cbn. rewrite E1, E2. intros Ht. rewrite (reset_window_first t) by done. auto.
    + cbn. by case_match.
  - intros [= <-]. unfold start. destruct r as [pid|e]; (constructor; cbn; [|done]); [|done].
    rewrite crashes_app. change (crashes [Started pid (m_now m)]) with 0%nat. by rewrite Nat.add_0_r.
  - destruct (m_stopped m || m_cancelled m); intros [= <-].
    + constructor; cbn; [done|]. intros _. right. pose proof (mi_phase m HI) as H. by rewrite Ep in H.
    + constructor; cbn; [|done]. destruct (reset_window_now m) as (E1 & _ & _). unfold recordRestart. cbn. rewrite E1. intros Ht.
      rewrite (reset_window_first t) by done. destruct (Hw Ht) as [-> ->]. rewrite crashes_app. change (crashes [Crashed (m_now m)]) with 1%nat. split; [done|lia].
  - destruct b; [destruct (u <=? m_now m); [|done]|destruct (m_cancelled m) eqn:Ec; [|done]]; intros [= <-];
      (constructor; cbn; [done|]); [done|]. by left.
Qed.

Lemma first_window_step t i m m' : minv m → first_window t m → mstep i m = Some m' → first_window t m'.
Proof.
  intros HI Hf. pose proof Hf as [Hw Hd]. destruct i as [r b| | | |dt]; cbn [mstep].
  - by apply first_window_loop.
  - destruct (m_phase m); try done. intros [= <-]. by constructor.
  - intros [= <-]. constructor; cbn; [|done]. destruct (m_pid m), (m_phase m); cbn; try done.
    rewrite crashes_app. change (crashes [Signalled z]) with 0%nat. by rewrite Nat.add_0_r.
  - intros [= <-]. constructor; cbn; [done|by left].
  - intros [= <-]. constructor; cbn; [|done]. intros Ht. apply Hw. lia.
Qed.

Lemma mstep_later i m m' : mstep i m = Some m' → m_now m ≤ m_now m'.
Proof.
  destruct i as [r b| | | |dt]; cbn [mstep]; [unfold loop_step, start, recordRestart, shouldGiveUp, reset_window| | | |];
    repeat (case_match; simplify_eq); intros; simplify_eq/=; try lia.
Qed.

Lemma first_window_run t is_ m m' : minv m → first_window t m → mrun is_ m = Some m' →
  minv m' ∧ first_window t m' ∧ m_now m ≤ m_now m'.
Proof.
  revert m. induction is_ as [|i is_ IH]; intros m HI Hf; cbn [mrun]; [by intros [= <-]|].
  intros (m1 & E & Hr)%bind_Some. pose proof (mstep_later _ _ _ E).
  destruct (IH m1 (minv_step _ _ _ HI E) (first_window_step _ _ _ _ HI Hf E) Hr) as (? & ? & ?). split_and!; [done|done|lia].
Qed.

Lemma new_monitor_ok t : minv (NewMonitor t) ∧ first_window t (NewMonitor t).
Proof. split; [constructor; simpl; try done; constructor|by constructor]. Qed.

(** After the tenth crash, within the window, nothing is started: the log stays. *)
Lemma full_step t i m m' : minv m → first_window t m → m_now m' - t ≤ restartWindow → crashes (m_log m) = 10%nat →
  mstep i m = Some m' → m_log m' = m_log m.
Proof.
  intros HI Hf Ht Hc E. pose proof (mstep_later _ _ _ E) as Hl. destruct (fw_window t m Hf ltac:(lia)) as [_ Hr]. rewrite Hc in Hr.
  pose proof (mi_phase m HI) as Hp. unfold maxRestarts in Hp.
  destruct i as [r b| | | |dt]; cbn [mstep] in E; [unfold loop_step in E|..]; destruct (m_phase m) eqn:Ep; try done; try lia.
  1: { destruct (shouldGiveUp m) as [g m1] eqn:Eg. injection E as <-. unfold shouldGiveUp in Eg. injection Eg as _ <-. apply reset_window_now. }
  all: repeat (case_match; try done); simplify_eq/=; try done; rewrite ?Ep; by destruct (m_pid m).
Qed.

Lemma full_run t is_ m m' : minv m → first_window t m → m_now m' - t ≤ restartWindow → crashes (m_log m) = 10%nat →
  mrun is_ m = Some m' → m_log m' = m_log m.
Proof.
  revert m. induction is_ as [|i is_ IH]; intros m HI Hf Ht Hc; cbn [mrun]; [by intros [= <-]|].
  intros (m1 & E & Hr)%bind_Some. pose proof (minv_step _ _ _ HI E) as HI1. pose proof (first_window_step _ _ _ _ HI Hf E) as Hf1.
  destruct (first_window_run t _ _ _ HI1 Hf1 Hr) as (_ & _ & Hl).
  assert (E1 : m_log m1 = m_log m) by (eapply full_step; [exact HI|exact Hf|lia|done|exact E]).
  rewrite <- E1. apply IH; [done..|by rewrite E1|done].
Qed.

(** The check at the limit. *)
Lemma full_check t m r b : first_window t m → m_now m - t ≤ restartWindow → crashes (m_log m) = 10%nat → m_phase m = PCheck →
  loop_step r b m = Some (at_phase (PDone (Some exceeded)) m).
Proof.
  intros Hf Ht Hc Hp. unfold loop_step. rewrite Hp. unfold shouldGiveUp. rewrite (reset_window_first t) by done.
  destruct (fw_window t m Hf Ht) as [_ ->]. by rewrite Hc.
Qed.

(** C39: In every run of the supervisor's monitor - any lengths of the runs,
    delays, failed starts, stops - and as long as its first window of five
    minutes lasts (the back-offs of ten crashes take 210 seconds of it, so
    ninety are left for the runs and all delays): every crash is counted,
    and there are at most ten. Once there are ten, the process is neither
    started nor signalled again within the window; and unless its context
    was cancelled the monitor has given up with the error, or gives up at
    its next check, or waits for a back-off and gives up at the first check
    after it, when that is still within the window. *)
Theorem crash_loop_gives_up t is_ m :
  mrun is_ (NewMonitor t) = Some m → m_now m - t ≤ restartWindow →
  m_restarts m = Z.of_nat (crashes (m_log m)) ∧ (crashes (m_log m) ≤ 10)%nat ∧
  (crashes (m_log m) = 10%nat →
     (∀ js m', mrun js m = Some m' → m_now m' - t ≤ restartWindow → m_log m' = m_log m) ∧
     (m_cancelled m = false →
        m_phase m = PDone (Some exceeded) ∨
        (m_phase m = PCheck ∧ ∀ r b, ∃ m', mrun [ILoop r b] m = Some m' ∧ m_phase m' = PDone (Some exceeded)) ∨
        (∃ u, m_phase m = PBackoff u ∧ ∀ dt r b, u ≤ m_now m + Z.of_nat dt → m_now m + Z.of_nat dt - t ≤ restartWindow →
           ∃ m', mrun [ITick dt; ILoop r true; ILoop r b] m = Some m' ∧ m_phase m' = PDone (Some exceeded)))).
Proof.
  intros Hr Ht. destruct (new_monitor_ok t) as [HI0 Hf0]. destruct (first_window_run t _ _ _ HI0 Hf0 Hr) as (HI & Hf & _).
  destruct (fw_window t m Hf Ht) as [Hw Hc]. pose proof (mi_max m HI) as Hm. unfold maxRestarts in Hm.
  split; [done|]. split; [lia|]. intros H10. split; [intros js m' Hj Ht'; by eapply full_run|]. intros Hca.
  pose proof (mi_phase m HI) as Hp. unfold maxRestarts in Hp. destruct (m_phase m) as [| | | |u|[e|]] eqn:Ep; try lia.
  - right. left. split; [done|]. intros r b. cbn [mrun mstep]. rewrite (full_check t) by done. by eexists.
  - right. right. exists u. split; [done|]. intros dt r b Hu Hdt.
    destruct (mstep (ITick dt) m) as [m1|] eqn:E1; [|done]. pose proof (first_window_step _ _ _ _ HI Hf E1) as Hf1.
    cbn [mrun]. rewrite E1. injection E1 as <-. cbn [mbind option_bind mstep].
    match goal with |- context [loop_step r true ?x] => assert (E2 : loop_step r true x = Some (at_phase PCheck x)) end.
    { unfold loop_step. cbn [m_phase m_now]. by rewrite Ep, (proj2 (Z.leb_le _ _)) by lia. }
    rewrite E2. cbn [mbind option_bind]. rewrite (full_check t); [by eexists| |done..].
    destruct Hf1 as [Hf1 _]. by constructor.
  - left. by destruct (mi_done m HI e Ep) as [-> _].
  - destruct (fw_done t m Hf Ep) as [|Hlt]; [congruence|]. unfold maxRestarts in Hlt. lia.
Qed.

(** ** Behaviours at odds with the comments *)

(** A supervisor that cannot be started is retried for ever, a second apart. *)
Lemma failed_start_never_gives_up n t e :
  let once := [ILoop (Err e) true; ILoop (Err e) true; ITick (Z.to_nat initialBackoff); ILoop (Err e) true] in
  ∃ m, mrun (concat (replicate n once)) (NewMonitor t) = Some m ∧ m_restarts m = 0 ∧ m_phase m = PCheck.
Proof.
  cbv zeta. set (once := [_; _; _; _]).
  assert (Hone : ∀ m, m_restarts m = 0 → m_phase m = PCheck → m_stopped m = false →
    ∃ m', mrun once m = Some m' ∧ m_restarts m' = 0 ∧ m_phase m' = PCheck ∧ m_stopped m' = false).
  { intros [r w pid ls st ph now ca log]. simpl. intros -> -> ->. unfold once. cbn [mrun mstep loop_step m_phase].
    unfold shouldGiveUp, reset_window. cbn [m_now m_windowStart m_restarts].
    destruct (_ <? _); cbn; rewrite (proj2 (Z.leb_le _ _)) by (unfold initialBackoff, second; lia); eexists; (split; [reflexivity|done]). }
  assert (Hall : ∀ m, m_restarts m = 0 → m_phase m = PCheck → m_stopped m = false →
    ∃ m', mrun (concat (replicate n once)) m = Some m' ∧ m_restarts m' = 0 ∧ m_phase m' = PCheck).
  { induction n as [|n IH]; intros m Hr Hp Hs; [simpl; eauto|]. change (concat (replicate (S n) once)) with (once ++ concat (replicate n once)). rewrite mrun_app.
    destruct (Hone m Hr Hp Hs) as (m1 & -> & Hr1 & Hp1 & Hs1). simpl. by apply IH. }
  by apply Hall.
Qed.

(** A Stop during a backoff does not stop it: the supervisor is started again and
    nothing tells the new process. *)
Lemma stop_during_backoff_is_lost :
  ∃ m, mrun [ILoop (Ok 1) true; ILoop (Ok 1) true; IExit; ILoop (Ok 1) true; IStop; ITick (Z.to_nat (2 * second));
             ILoop (Ok 2) true; ILoop (Ok 2) true; ILoop (Ok 2) true] (NewMonitor 0) = Some m ∧
    m_stopped m = true ∧ m_phase m = PWait ∧ m_log m = [Started 1 0; Crashed 0; Started 2 (2 * second)].
Proof.
  generalize (Z.to_nat (2 * second)), (Z2Nat.id (2 * second) ltac:(done)). intros b Hb. cbn -[Z.of_nat]. rewrite Hb. by eexists.
Qed.

Lemma findBinary_exists exists_ dirs : findBinary exists_ dirs ≠ "" → exists_ (findBinary exists_ dirs) = true.
Proof.
  unfold findBinary. destruct (exists_ BinaryPath) eqn:E; [done|].
  destruct (list_find _ _) as [[i p]|] eqn:F; [|done]. intros _. by apply list_find_Some in F as (_ & ? & _).
Qed.

(** ** Witnesses *)

Lemma restarts_limited_witness :
  ∃ m, mrun (rounds [0%nat; 0%nat] 0) (NewMonitor 0) = Some m ∧ m_restarts m = 2 ∧ m_restarts m ≤ maxRestarts.
Proof.
  destruct (rounds_spec [0%nat; 0%nat] (NewMonitor 0)) as (m & Hm & _ & _ & Hr & _ & _); [done|done|done|done|done|vm_compute; done|].
  exists m. split; [exact Hm|]. split; [exact Hr|]. exact (proj1 (restarts_limited 0 (rounds [0%nat; 0%nat] 0) m Hm)).
Defined.

(** Ten runs that crash at once, and the check after the last backoff. *)
Lemma crash_loop_gives_up_witness :
  ∃ m, mrun (rounds (replicate 10 0%nat) 0) (NewMonitor 0) = Some m ∧ m_phase m = PCheck ∧
    ∃ m', mrun [ILoop (Ok 1) true] m = Some m' ∧ m_phase m' = PDone (Some exceeded).
Proof.
  destruct (crash_rounds 0 (replicate 10 0%nat) eq_refl ltac:(vm_compute; discriminate)) as (m & Hm & Hp & Hca & Hr & Ht).
  exists m. split; [exact Hm|]. split; [exact Hp|].
  destruct (crash_loop_gives_up 0 (rounds (replicate 10 0%nat) 0) m Hm Ht) as (Hc & _ & H).
  rewrite Hr in Hc. destruct (H ltac:(lia)) as [_ H2].
  destruct (H2 Hca) as [E|[[_ E]|(u & E & _)]]; [congruence|apply E|congruence].
Defined.
