(* ===== verification/Restore.v ===== *)
(** How a VM comes to know who it is: internal/shim/task/restore.go on the host,
    Configure of internal/guest/services/system.go and Apply of
    vminit/system/identity.go in the guest, with RescanPCI of
    vminit/devices/blockdev.go.

    A VM that boots reads its identity from the kernel command line (Cmdline); one
    restored from a template is told over RPC. *)
From S2P Require Import Prelude GoStrings GoState GoText Cmdline Resources QemuInstance Snapshot Config.
From Stdlib Require Import Ascii.
Open Scope Z_scope.

(** ** Choosing to restore *)

(** A template of the store, and where its two files are. *)
Record TemplateFiles := mkTemplate { tf_Fingerprint : string; tf_RAMPath : string; tf_StatePath : string }.
Definition template_at (dir fp : string) : TemplateFiles :=
  let d := path_Join [dir; fp] in mkTemplate fp (path_Join [d; "ram.img"]) (path_Join [d; "state"]).

(** What the callees answer: opening the store at a directory, and the template
    BuildTemplate finds or builds there. *)
Record restoreEnv := mkRestoreEnv {
  re_config : res Config;
  re_restorer : bool;
  re_store : string → option error;
  re_build : string → res TemplateFiles
}.

Definition prepareRestore (env : restoreEnv) (debugBoot : bool) (q : snapInst) : bool * snapInst :=
  if debugBoot then (false, q)
  else match re_config env with
  | Err _ => (false, q)
  | Ok cfg =>
      if DisableTemplateRestore (Runtime cfg) then (false, q)
      else if negb (re_restorer env) then (false, q)
      else
        let dir := path_Join [StateDir (Paths cfg); "templates"] in
        match re_store env dir with
        | Some _ => (false, q)
        | None =>
            match re_build env dir with
            | Err _ => (false, q)
            | Ok tmpl =>
                match UseMemoryFile (tf_RAMPath tmpl) q with
                | (Err _, q1) => (false, q1)
                | (Ok _, q1) =>
                    match RestoreFrom (tf_StatePath tmpl) q1 with
                    | (Err _, q2) => (false, q2)
                    | (Ok _, q2) => (true, q2)
                    end
                end
            end
        end
  end.

(** ** Telling the guest *)

Record SetupResult := mkSetupResult { sr_Config : option NetworkConfig; sr_TAPName : string; sr_MAC : string }.

Record NetworkMsg := mkNetworkMsg {
  nm_Device : string; nm_Ip : string; nm_Netmask : string; nm_Gateway : string; nm_Dns : list string; nm_Mac : string;
  nm_MetadataRoute : bool
}.
Record ConfigureRequest := mkConfigureRequest {
  rq_ExpectedBlockDevices : Z; rq_ExtrasDisk : string; rq_Network : option NetworkMsg; rq_Restored : bool
}.

(** The request that is sent; the disks are few enough for the letter of
    the extras disk to be one byte. *)
Definition configureRequest (diskCount : nat) (extrasDiskIdx : option Z) (net : option SetupResult) (restored : bool)
    : ConfigureRequest :=
  mkConfigureRequest (uint32_wrap (Z.of_nat diskCount))
    (match extrasDiskIdx with Some idx => "/dev/vd" +:+ String (ascii_of_nat (Z.to_nat (97 + idx))) "" | None => "" end)
    (match net with
     | Some n => match sr_Config n with
                 | Some c => Some (mkNetworkMsg (nc_InterfaceName c) (nc_IP c) (nc_Netmask c) (nc_Gateway c) (nc_DNS c) (sr_MAC n) false)
                 | None => None
                 end
     | None => None
     end)
    restored.

(** [configureGuest], over the [Configure] RPC. *)
Definition configureGuest (rpc : ConfigureRequest → option error) (diskCount : nat) (extrasDiskIdx : option Z)
    (net : option SetupResult) (restored : bool) : option error :=
  wrap "configuring the guest" <$> rpc (configureRequest diskCount extrasDiskIdx net restored).

(** The identity a guest applies: what the command line can say, the MAC, and how
    the VM came up. *)
Record GuestIdentity := mkGuestIdentity { gi_id : Identity; gi_MAC : string; gi_Restored : bool }.

Definition identity_of (req : ConfigureRequest) : GuestIdentity :=
  mkGuestIdentity
    (mkIdentity
      ((λ n, mkNetworkIdentity (nm_Ip n) (nm_Gateway n) (nm_Netmask n) (nm_Device n) (nm_Dns n) (nm_MetadataRoute n)) <$> rq_Network req)
      (rq_ExpectedBlockDevices req) (rq_ExtrasDisk req) false)
    (from_option nm_Mac "" (rq_Network req)) (rq_Restored req).

(** ** Finding the disks *)

Definition BlockDeviceTimeout : Z := 5000000.
Definition rescanPollInterval : Z := 200.

(** One look: the entries of /sys/block, the time since the start in microseconds,
    and the context. *)
Record look := mkLook { lk_entries : res (list string); lk_elapsed : Z; lk_ctx : option error }.

Definition findVirtioBlockDevices (entries : res (list string)) : res (list string) :=
  res_bind entries (λ es, Ok (List.filter (λ n, HasPrefix n "vd") es)).

Fixpoint rescan_loop (fuel : nat) (want : nat) (ls : nat → look) (i : nat) : option (res (list string)) :=
  match fuel with
  | O => None
  | S fuel' =>
      match findVirtioBlockDevices (lk_entries (ls i)) with
      | Err e => Some (Err (wrap "listing virtio block devices" e))
      | Ok devices =>
          if (want <=? length devices)%nat then Some (Ok devices)
          else if BlockDeviceTimeout <? lk_elapsed (ls i) then
            Some (Err (mkError ErrDeadlineExceeded
              ("found " +:+ fmt_d (Z.of_nat (length devices)) +:+ " of " +:+ fmt_d (Z.of_nat want)
               +:+ " virtio block devices within 5s: context deadline exceeded")))
          else match lk_ctx (ls i) with
               | Some e => Some (Err e)
               | None => rescan_loop fuel' want ls (S i)
               end
      end
  end.

(** Looks that always suffice: one per interval in the time-out, and two more. *)
Definition rescan_fuel : nat := Z.to_nat (BlockDeviceTimeout / rescanPollInterval + 2).

Definition RescanPCI (trigger : option error) (want : nat) (ls : nat → look) : option (res (list string)) :=
  match trigger with
  | Some e => Some (Err (wrap "triggering a PCI rescan" e))
  | None => rescan_loop rescan_fuel want ls 0
  end.

(** ** Applying an identity *)

Inductive geffect :=
  | ECorrectClock | ECheckEntropy | EWaitForBlockDevices | ERescanPCI (want : nat)
  | EExtract (dev : string) (force : bool)
  | EConfigureNetwork (n : NetworkIdentity) (mac : string) | EConfigureDNS (n : NetworkIdentity) | EMetadataRoute (n : NetworkIdentity).

Definition applyRestoreCorrections (restored : bool) : list geffect :=
  ECorrectClock :: (if restored then [ECheckEntropy] else []).

Definition applyDisks (rescan : nat → option error) (want : Z) : option error * list geffect :=
  if want =? 0 then (None, [])
  else if want <? 0 then (None, [EWaitForBlockDevices])
  else match rescan (Z.to_nat want) with
       | Some e => (Some (wrap "making this VM's disks visible" e), [ERescanPCI (Z.to_nat want)])
       | None => (None, [ERescanPCI (Z.to_nat want)])
       end.

(** [Apply]: the error and what was done, in order; the errors of the network
    steps and of the extraction are only logged. *)
Definition Apply (rescan : nat → option error) (g : GuestIdentity) : option error * list geffect :=
  let id := gi_id g in
  let '(e, ds) := applyDisks rescan (id_BlockDevices id) in
  let before := applyRestoreCorrections (gi_Restored g) ++ ds in
  match e with
  | Some e => (Some e, before)
  | None =>
      (None, before
        ++ (if decide (id_ExtrasDisk id = "") then [] else [EExtract (id_ExtrasDisk id) (id_ExtrasForce id)])
        ++ (match id_Network id with
            | None => []
            | Some n => [EConfigureNetwork n (gi_MAC g); EConfigureDNS n; EMetadataRoute n]
            end))
  end.

(** [Configure]: a deadline becomes unavailability. *)
Definition Configure (rescan : nat → option error) (req : ConfigureRequest) : option error * list geffect :=
  let '(e, l) := Apply rescan (identity_of req) in
  (match e with
   | Some e => Some (if decide (ekind e = ErrDeadlineExceeded) then mkError ErrUnavailable ("unavailable: " +:+ emsg e) else e)
   | None => None
   end, l).

(** ** Properties *)

(** Restoring is decided completely or not at all: either the instance is as it
    was and boots, or it has both files of the template and is not taken for a
    template's builder. *)
Theorem restore_all_or_nothing env debugBoot q :
  (∀ dir t, re_build env dir = Ok t → ∃ fp, t = template_at dir fp) →
  match prepareRestore env debugBoot q with
  | (false, q') => q' = q
  | (true, q') => ∃ dir fp,
      sn_memoryFilePath q' = tf_RAMPath (template_at dir fp) ∧ sn_restoreStatePath q' = tf_StatePath (template_at dir fp) ∧
      sn_state q' = vmStateNew ∧ sn_state q = vmStateNew ∧ (sn_restoreStatePath q' ≠ "" → buildsTemplate q' = false)
  end.
Proof.
  intros Hb. unfold prepareRestore. destruct debugBoot; [done|]. destruct (re_config env) as [cfg|]; [|done].
  destruct (DisableTemplateRestore _); [done|]. destruct (re_restorer env); [|done]. simpl.
  destruct (re_store env _); [done|]. destruct (re_build env _) as [t|] eqn:E; [|done]. destruct (Hb _ _ E) as [fp ->].
  unfold UseMemoryFile, RestoreFrom. destruct (decide (sn_state q = vmStateNew)) as [Hn|]; [|done]. simpl.
  rewrite decide_True by done. eexists _, fp. simpl. split_and!; try done.
  intros Hs. unfold buildsTemplate. simpl. rewrite andb_false_iff. right. by apply bool_decide_eq_false.
Qed.

(** A look within the time-out, and every look later than the one before. *)
Definition looks_pass (ls : nat → look) : Prop :=
  0 ≤ lk_elapsed (ls 0%nat) ∧ ∀ i, lk_elapsed (ls i) + rescanPollInterval ≤ lk_elapsed (ls (S i)).

Lemma looks_at ls i : looks_pass ls → rescanPollInterval * Z.of_nat i ≤ lk_elapsed (ls i).
Proof. intros [H0 HS]. induction i as [|i IH]; [lia|]. specialize (HS i). unfold rescanPollInterval in *. lia. Qed.

Lemma rescan_fuel_Z : Z.of_nat rescan_fuel = 25002.
Proof. unfold rescan_fuel. by rewrite Z2Nat.id. Qed.

Lemma rescan_loop_ends fuel want ls i : looks_pass ls → 25001 ≤ Z.of_nat (i + fuel) →
  ∃ r, rescan_loop (S fuel) want ls i = Some r ∧
    (∀ l, r = Ok l → (want ≤ length l)%nat ∧ ∃ j es, lk_entries (ls j) = Ok es ∧ l = List.filter (λ n, HasPrefix n "vd") es) ∧
    (∀ j es, (i ≤ j)%nat → lk_entries (ls j) = Ok es → (want ≤ length (List.filter (λ n, HasPrefix n "vd") es))%nat →
       (∀ k, (i ≤ k < j)%nat → is_ok (lk_entries (ls k)) = true ∧ lk_elapsed (ls k) ≤ BlockDeviceTimeout ∧ lk_ctx (ls k) = None) →
       ∃ l, r = Ok l).
Proof.
  intros Hp. revert i. induction fuel as [|fuel IH]; intros i Hf; cbn [rescan_loop]; unfold findVirtioBlockDevices;
    (destruct (lk_entries (ls i)) as [es|e] eqn:E; cbn [res_bind];
     [destruct (Nat.leb_spec want (length (List.filter (λ n, HasPrefix n "vd") es)));
      [eexists; split; [reflexivity|]; split; [intros l [= <-]; eauto|eauto]|];
      destruct (Z.ltb_spec BlockDeviceTimeout (lk_elapsed (ls i)));
      [eexists; split; [reflexivity|]; split; [done|];
       intros j es' Hj Hes Hw Hk; destruct (decide (j = i)) as [->|Hne];
       [rewrite E in Hes; simplify_eq; lia|destruct (Hk i) as (_ & ? & _); lia]|]
     |eexists; split; [reflexivity|]; split; [done|];
      intros j es' Hj Hes Hw Hk; destruct (decide (j = i)) as [->|Hne];
      [by rewrite E in Hes|destruct (Hk i) as (Hok & _); [lia|by rewrite E in Hok]]]).
  - exfalso. pose proof (looks_at ls i Hp). 
    unfold BlockDeviceTimeout, rescanPollInterval in *. lia.
  - destruct (lk_ctx (ls i)) as [e|] eqn:Ec.
    + eexists. split; [reflexivity|]. split; [done|]. intros j es' Hj Hes Hw Hk. destruct (decide (j = i)) as [->|Hne].
      * rewrite E in Hes. simplify_eq. lia.
      * destruct (Hk i) as (_ & _ & Hx); [lia|]. by rewrite Ec in Hx.
    + destruct (IH (S i)) as (r & Hr & Hl & Hfind); [lia|]. exists r. split; [exact Hr|]. split; [exact Hl|].
      intros j es' Hj Hes Hw Hk. destruct (decide (j = i)) as [->|Hne]; [rewrite E in Hes; simplify_eq; lia|].
      apply (Hfind j es'); [lia|done|done|]. intros k Hki. apply Hk. lia.
Qed.

(** The rescan always ends, answers only devices it saw, enough of them, and finds
    them when they are there at a look before the time-out. *)
Theorem rescan_ends_and_finds want ls :
  looks_pass ls →
  ∃ r, RescanPCI None want ls = Some r ∧
    (∀ l, r = Ok l → (want ≤ length l)%nat ∧ ∃ j es, lk_entries (ls j) = Ok es ∧ l = List.filter (λ n, HasPrefix n "vd") es) ∧
    (∀ j es, lk_entries (ls j) = Ok es → (want ≤ length (List.filter (λ n, HasPrefix n "vd") es))%nat →
       (∀ k, (k < j)%nat → is_ok (lk_entries (ls k)) = true ∧ lk_elapsed (ls k) ≤ BlockDeviceTimeout ∧ lk_ctx (ls k) = None) →
       ∃ l, r = Ok l).
Proof.
  intros Hp. unfold RescanPCI. pose proof rescan_fuel_Z as Hz. destruct rescan_fuel as [|fuel] eqn:Ef; [done|].
  destruct (rescan_loop_ends fuel want ls 0 Hp) as (r & Hr & Hl & Hfind); [lia|].
  exists r. split; [exact Hr|]. split; [exact Hl|]. intros j es He Hw Hk. apply (Hfind j es); [lia|done|done|].
  intros k Hk'. apply Hk. lia.
Qed.

(** C30: A guest told its identity over Configure and a guest that read it from
    the kernel command line get the same one: disks, extras disk, address,
    gateway, netmask and interface; of the name servers the command line
    carries the first two. This is for the configurations that survive the
    command line: an address that is not empty, no colon (so IPv4) or white
    space in address, gateway, netmask and name servers, interface eth0, no
    white space in the console, init arguments the guest does not read, an
    extras index below 26, fewer than 2^32 disks, and a machine module that
    adds only parameters the guest does not read. *)
Theorem told_matches_booted prof str `{!MachineCmdline prof str} cfg diskCount net restored :
  cmdline_ok cfg →
  kc_DiskCount cfg = Z.of_nat diskCount → Z.of_nat diskCount < 2 ^ 32 →
  kc_Network cfg = net ≫= sr_Config → (∀ c, kc_Network cfg = Some c → nc_InterfaceName c = "eth0") →
  let booted := FromCmdline (BuildKernelCmdline prof str cfg) in
  let told := gi_id (identity_of (configureRequest diskCount (kc_ExtrasDiskIndex cfg) net restored)) in
  id_BlockDevices told = id_BlockDevices booted ∧ id_ExtrasDisk told = id_ExtrasDisk booted ∧
  id_ExtrasForce told = id_ExtrasForce booted ∧
  match id_Network told, id_Network booted with
  | None, None => True
  | Some t, Some b => ni_IP t = ni_IP b ∧ ni_Gateway t = ni_Gateway b ∧ ni_Netmask t = ni_Netmask b ∧
                      ni_Device t = ni_Device b ∧ take 2 (ni_DNS t) = ni_DNS b ∧ ni_MetadataRoute t = ni_MetadataRoute b
  | _, _ => False
  end.
Proof.
  intros Hok Hd Hlt Hn Hdev. cbv zeta. rewrite (identity_built prof str cfg Hok). unfold expected_identity. rewrite Hn, Hd. simpl.
  split_and!; try done.
  - unfold uint32_wrap. rewrite Z.mod_small; [done|]. unfold two32. lia.
  - destruct net as [n|]; simpl; [|done]. destruct (sr_Config n) as [c|] eqn:Ec; simpl; [|done].
    rewrite (Hdev c); [done|]. rewrite Hn. exact Ec.
Qed.

(** A guest whose disks do not appear is not given an address; otherwise every
    step is taken, the corrections first. *)
Theorem Apply_disks_before_network rescan g :
  let r := Apply rescan g in
  match r.1 with
  | Some _ => 0 < id_BlockDevices (gi_id g) ∧ is_Some (rescan (Z.to_nat (id_BlockDevices (gi_id g)))) ∧
              r.2 = applyRestoreCorrections (gi_Restored g) ++ [ERescanPCI (Z.to_nat (id_BlockDevices (gi_id g)))]
  | None => ∀ n, id_Network (gi_id g) = Some n →
      ∃ l, r.2 = l ++ [EConfigureNetwork n (gi_MAC g); EConfigureDNS n; EMetadataRoute n] ∧ head l = Some ECorrectClock ∧
           (0 < id_BlockDevices (gi_id g) → ERescanPCI (Z.to_nat (id_BlockDevices (gi_id g))) ∈ l)
  end.
Proof.
  cbv zeta. unfold Apply, applyDisks. set (want := id_BlockDevices (gi_id g)). set (fs := applyRestoreCorrections _).
  assert (Hh : ∀ l, head (fs ++ l) = Some ECorrectClock) by done.
  destruct (Z.eqb_spec want 0); [|destruct (Z.ltb_spec want 0)]; cbn [fst snd].
  - intros nw ->. eexists. split; [rewrite app_assoc; reflexivity|]. rewrite <-app_assoc, Hh. split; [done|lia].
  - intros nw ->. eexists. split; [rewrite app_assoc; reflexivity|]. rewrite <-app_assoc, Hh. split; [done|lia].
  - destruct (rescan (Z.to_nat want)) as [e|]; cbn [fst snd]; [split_and!; [lia|by eexists|done]|].
    intros nw ->. eexists. split; [rewrite app_assoc; reflexivity|]. rewrite <-app_assoc, Hh. split; [done|]. set_solver.
Qed.

(** ** Concrete inputs *)

Definition demo_conf : Config := defaultConfig.
Definition demo_renv : restoreEnv :=
  mkRestoreEnv (Ok demo_conf) true (λ _, None) (λ dir, Ok (template_at dir "f00d")).
Definition demo_inst : snapInst := mkSnap vmStateNew false "" "" false [].

Lemma restore_all_or_nothing_witness :
  (prepareRestore demo_renv false demo_inst).1 = true ∧
  match prepareRestore demo_renv false demo_inst with
  | (false, q') => q' = demo_inst
  | (true, q') => ∃ dir fp,
      sn_memoryFilePath q' = tf_RAMPath (template_at dir fp) ∧ sn_restoreStatePath q' = tf_StatePath (template_at dir fp) ∧
      sn_state q' = vmStateNew ∧ sn_state demo_inst = vmStateNew ∧ (sn_restoreStatePath q' ≠ "" → buildsTemplate q' = false)
  end.
Proof.
  split; [vm_compute; reflexivity|]. apply (restore_all_or_nothing demo_renv false demo_inst).
  intros dir t [= <-]. by exists "f00d".
Defined.

(** The second disk appears at the third look. *)
Definition demo_looks (i : nat) : look :=
  mkLook (Ok (if (i <? 2)%nat then ["loop0"; "vda"] else ["loop0"; "vda"; "vdb"])) (300 * Z.of_nat i) None.

Lemma rescan_ends_and_finds_witness :
  looks_pass demo_looks ∧ RescanPCI None 2 demo_looks = Some (Ok ["vda"; "vdb"]) ∧
  ∃ r, RescanPCI None 2 demo_looks = Some r ∧ ∃ l, r = Ok l.
Proof.
  assert (Hp : looks_pass demo_looks)
    by (split; [vm_compute; discriminate|intros i; unfold demo_looks, rescanPollInterval; cbn [lk_elapsed]; lia]).
  split; [exact Hp|]. split; [vm_compute; reflexivity|].
  destruct (rescan_ends_and_finds 2 demo_looks Hp) as (r & Hr & _ & Hfind). exists r. split; [exact Hr|].
  apply (Hfind 2%nat ["loop0"; "vda"; "vdb"]); [reflexivity|vm_compute; lia|].
  intros k Hk. split_and!; [done| |done]. unfold demo_looks, BlockDeviceTimeout. cbn [lk_elapsed]. lia.
Defined.

Definition demo_net : SetupResult := mkSetupResult (kc_Network demo_cfg) "spin0" "52:54:00:00:00:01".

Lemma told_matches_booted_witness :
  let booted := FromCmdline (BuildKernelCmdline (λ c, c) demo_String demo_cfg) in
  let told := gi_id (identity_of (configureRequest 2 (kc_ExtrasDiskIndex demo_cfg) (Some demo_net) true)) in
  id_BlockDevices told = id_BlockDevices booted ∧ id_ExtrasDisk told = id_ExtrasDisk booted ∧ id_ExtrasDisk told = "/dev/vdb".
Proof.
  destruct (told_matches_booted (λ c, c) demo_String demo_cfg 2 (Some demo_net) true) as (H1 & H2 & _).
  - apply demo_cfg_ok.
  - reflexivity.
  - vm_compute. reflexivity.
  - reflexivity.
  - intros c [= <-]. reflexivity.
  - split_and!; [exact H1|exact H2|vm_compute; reflexivity].
Defined.
