(* ===== verification/Extras.v ===== *)
(** Files injected into a VM: internal/shim/extras on the host (annotations.go,
    builder.go, file.go, manager.go) and vminit/extras/extract.go in the guest.

    An archive is its whole entries and, where the writer stopped in the middle of
    one, that entry; a hard link is a second name of an inode.  SHA-256 and JSON
    decoding are parameters. *)
From stdpp Require Import sorting.
From S2P Require Import Prelude GoStrings GoText GoState.
Open Scope Z_scope.

(** ** The files asked for *)

Record File := mkFile { DestPath : string; SourcePath : string; Mode : Z }.
Record FileConfig := mkFileConfig { cfg_Source : string; cfg_Mode : Z }.

#[export] Instance File_eq_dec : EqDecision File.
Proof. solve_decision. Defined.

Definition NewFile := mkFile.
Definition AnnotationFiles : string := "io.spin.extras.files".
Definition IsAbs (path : string) : bool := is_rooted path.

Section annotations.
(** Decoding gives the members of the object in the order the loop visits them;
    [stat] is os.Stat of a source. *)
Context (unmarshal : string → res (list (string * FileConfig))) (stat : string → option error).

Fixpoint collect (m : list (string * FileConfig)) (files : list File) : res (list File) :=
  match m with
  | [] => Ok files
  | (destPath, cfg) :: m' =>
      if negb (IsAbs destPath) then Err (errorf ("extras: destination path must be absolute: " +:+ destPath))
      else
        let cleanSource := Clean (cfg_Source cfg) in
        if negb (IsAbs cleanSource) then Err (errorf ("extras: source path must be absolute: " +:+ cfg_Source cfg))
        else match stat cleanSource with
             | Some e => Err (wrap ("extras: source file not found " +:+ cleanSource) e)
             | None => collect m' (files ++ [NewFile destPath cleanSource (if cfg_Mode cfg =? 0 then 420 else cfg_Mode cfg)])
             end
  end.

Definition FromAnnotations (annotations : option (gmap string string)) : res (list File) :=
  match annotations ≫= lookup AnnotationFiles with
  | None => Ok []
  | Some filesJSON =>
      if decide (filesJSON = "") then Ok []
      else match unmarshal filesJSON with
           | Err e => Err (wrap ("parse " +:+ AnnotationFiles +:+ " annotation") e)
           | Ok m => collect m []
           end
  end.
End annotations.

(** The builder collects them. *)
Definition Add (destPath sourcePath : string) (mode : Z) (b : list File) : list File :=
  b ++ [NewFile destPath sourcePath mode].
Definition AddExecutable (destPath sourcePath : string) (b : list File) : list File := Add destPath sourcePath 493 b.
Definition IsEmpty (b : list File) : bool := (length b =? 0)%nat.

(** ** The host's files *)

Record entry := mkEntry { te_name : string; te_mode : Z; te_data : string }.
Record archive := mkArchive { ar_entries : list entry; ar_cut : option entry }.
Definition empty_file : archive := mkArchive [] None.

Record hostfs := mkHost { h_names : gmap string nat; h_inodes : gmap nat archive; h_next : nat }.

(** What the system answers: opening and reading a source for hashing; its size,
    and what is then read of it, for archiving; whether the archive format can
    encode a header. *)
Record extrasEnv := mkExtrasEnv {
  xe_sha : string → string;
  xe_hash_open : string → option error;
  xe_hash_read : string → res string;
  xe_stat : string → res Z;
  xe_open : string → res (string * option error);
  xe_header : string → Z → Z → option error;
  xe_mkdir : option error;
  xe_create : string → option error;
  xe_link : option error
}.

Section host.
Context (env : extrasEnv).

Definition dest_le (f g : File) : Prop := String.le (DestPath f) (DestPath g).
#[export] Instance dest_le_dec : RelDecision dest_le.
Proof. intros f g. unfold dest_le. apply _. Defined.

(** What is fed to the hash. *)
Fixpoint digest_input (files : list File) (h : string) : res string :=
  match files with
  | [] => Ok h
  | f :: files' =>
      match xe_hash_open env (SourcePath f) with
      | Some e => Err (wrap ("open " +:+ SourcePath f) e)
      | None => match xe_hash_read env (SourcePath f) with
                | Err e => Err (wrap ("hash " +:+ SourcePath f) e)
                | Ok data => digest_input files' (h +:+ DestPath f +:+ fmt_d (Mode f) +:+ data)
                end
      end
  end.

Definition computeHash (files : list File) : res string :=
  let! d := digest_input (merge_sort dest_le files) "" in Ok (xe_sha env d).

(** Writing [data] of an entry announced with [size] bytes. *)
Definition put_entry (f : File) (size : Z) (data : string) (ar : archive) : archive :=
  let e := mkEntry (DestPath f) (Mode f) (str_take (Z.to_nat size) data) in
  if Z.of_nat (String.length data) <? size then mkArchive (ar_entries ar) (Some e)
  else mkArchive (ar_entries ar ++ [e]) None.

Definition missed : error := errorf "archive/tar: missed writing bytes".
Definition too_long : error := errorf "archive/tar: write too long".

(** The loop of [createTar]: the error, and what has been written.  A header after
    an entry that is cut is refused; closing the archive does not complete it, and
    its error is dropped. *)
Fixpoint tar_loop (files : list File) (ar : archive) : option error * archive :=
  match files with
  | [] => (None, ar)
  | f :: files' =>
      match xe_stat env (SourcePath f) with
      | Err e => (Some (wrap ("stat " +:+ SourcePath f) e), ar)
      | Ok size =>
          match (match ar_cut ar with Some _ => Some missed | None => xe_header env (DestPath f) (Mode f) size end) with
          | Some e => (Some (wrap ("write header for " +:+ DestPath f) e), ar)
          | None =>
              match xe_open env (SourcePath f) with
              | Err e => (Some (wrap ("open " +:+ SourcePath f) e), put_entry f size "" ar)
              | Ok (data, rerr) =>
                  let ar' := put_entry f size data ar in
                  match (if size <? Z.of_nat (String.length data) then Some too_long else rerr) with
                  | Some e => (Some (wrap ("copy " +:+ DestPath f) e), ar')
                  | None => tar_loop files' ar'
                  end
              end
          end
      end
  end.

(** os.Create: an existing file is truncated, whatever other names it has. *)
Definition os_Create (path : string) : ST hostfs nat := λ w,
  match xe_create env path with
  | Some e => (Err e, w)
  | None => match h_names w !! path with
            | Some i => (Ok i, mkHost (h_names w) (<[i := empty_file]> (h_inodes w)) (h_next w))
            | None => (Ok (h_next w), mkHost (<[path := h_next w]> (h_names w))
                         (<[h_next w := empty_file]> (h_inodes w)) (S (h_next w)))
            end
  end.

Definition write_inode (i : nat) (ar : archive) : ST hostfs () :=
  modify (λ w, mkHost (h_names w) (<[i := ar]> (h_inodes w)) (h_next w)).

Definition createTar (path : string) (files : list File) : ST hostfs () :=
  do! i := os_Create path in
  let '(e, ar) := tar_loop files empty_file in
  write_inode i ar ;;!
  match e with Some e => fail e | None => ret tt end.

Definition not_found : error := mkError ErrNotFound "no such file or directory".
Definition os_Open (path : string) : ST hostfs nat := λ w,
  match h_names w !! path with Some i => (Ok i, w) | None => (Err not_found, w) end.

Definition os_Link (old new : string) : ST hostfs () := λ w,
  match xe_link env, h_names w !! old, h_names w !! new with
  | None, Some i, None => (Ok tt, mkHost (<[new := i]> (h_names w)) (h_inodes w) (h_next w))
  | None, Some _, Some _ => (Err (mkError ErrAlreadyExists "file exists"), w)
  | Some e, _, _ => (Err e, w)
  | None, None, _ => (Err not_found, w)
  end.

(** The source is read after the destination has been created. *)
Definition copyFile (src dst : string) : ST hostfs () :=
  do! i := os_Open src in
  do! j := os_Create dst in
  modify (λ w, mkHost (h_names w) (<[j := default empty_file (h_inodes w !! i)]> (h_inodes w)) (h_next w)).

Definition mkdirAll : ST hostfs () := lift (match xe_mkdir env with Some e => Err e | None => Ok tt end).

Definition GetOrCreateDisk (cacheDir stateDir : string) (files : list File) : ST hostfs string :=
  if decide (files = []) then ret ""
  else
    do! hash := wrapping "compute hash" (lift (computeHash files)) in
    wrapping "create cache dir" mkdirAll ;;!
    let cachePath := path_Join [cacheDir; hash +:+ ".tar"] in
    let stateDiskPath := path_Join [stateDir; "extras.tar"] in
    do! w := get in
    if decide (is_Some (h_names w !! cachePath)) then
      do! r := attempt (os_Link cachePath stateDiskPath) in
      match r with
      | Ok _ => ret stateDiskPath
      | Err _ => wrapping "copy cached disk" (copyFile cachePath stateDiskPath) ;;! ret stateDiskPath
      end
    else
      wrapping "create tar" (createTar cachePath files) ;;!
      do! r := attempt (os_Link cachePath stateDiskPath) in
      match r with
      | Ok _ => ret stateDiskPath
      | Err _ => wrapping "link cached disk" (copyFile cachePath stateDiskPath) ;;! ret stateDiskPath
      end.
End host.

Definition DefaultCacheDir : string := "/var/cache/spin-stack/extras".
Definition NewManager (cacheDir : string) : string := if decide (cacheDir = "") then DefaultCacheDir else cacheDir.

Definition content (w : hostfs) (path : string) : option archive := h_names w !! path ≫= λ i, h_inodes w !! i.

(** ** The guest *)

Record guestfs := mkGuest { g_files : gmap string (Z * string); g_marker : bool }.

Record guestEnv := mkGuestEnv {
  ge_open : string → option error;
  ge_mkdir : string → option error;
  ge_create : string → option error;
  ge_copy : string → option error;
  ge_umask : Z;
  ge_write_marker : option error
}.

Section guest.
Context (env : guestEnv).

(** Opening for writing: the mode is given to a new file only, and only its
    permission bits. *)
Definition open_trunc (path : string) (mode : Z) (g : guestfs) : guestfs :=
  let m := match g_files g !! path with Some (m, _) => m | None => Z.land (Z.land mode 511) (Z.lnot (ge_umask env)) end in
  mkGuest (<[path := (m, "")]> (g_files g)) (g_marker g).
Definition write_file (path data : string) (g : guestfs) : guestfs :=
  mkGuest (alter (λ f, (f.1, data)) path (g_files g)) (g_marker g).

Definition unexpected_eof : error := errorf "unexpected EOF".

Definition extract_file (e : entry) (whole : bool) : ST guestfs () :=
  let destPath := Clean (te_name e) in
  wrapping ("create parent dir for " +:+ destPath)
    (lift (match ge_mkdir env (Dir destPath) with Some x => Err x | None => Ok tt end)) ;;!
  wrapping ("create file " +:+ destPath)
    (lift (match ge_create env destPath with Some x => Err x | None => Ok tt end)) ;;!
  modify (open_trunc destPath (te_mode e)) ;;!
  match ge_copy env destPath with
  | Some x => fail (wrap ("extract file " +:+ destPath) x)
  | None => modify (write_file destPath (te_data e)) ;;!
            if whole then ret tt else fail (wrap ("extract file " +:+ destPath) unexpected_eof)
  end.

Fixpoint extract_entries (es : list entry) (cut : option entry) : ST guestfs () :=
  match es with
  | e :: es' =>
      if negb (IsAbs (te_name e)) then extract_entries es' cut
      else extract_file e true ;;! extract_entries es' cut
  | [] => match cut with
          | None => ret tt
          | Some e => if negb (IsAbs (te_name e)) then fail (wrap "read tar entry" unexpected_eof)
                      else extract_file e false
          end
  end.

(** [disk] is what the device holds. *)
Definition ExtractFromDevice (disk : archive) (devicePath : string) : ST guestfs () :=
  wrapping ("open device " +:+ devicePath)
    (lift (match ge_open env devicePath with Some x => Err x | None => Ok tt end)) ;;!
  extract_entries (ar_entries disk) (ar_cut disk).

(** Without a marker written the files are extracted again; that is only logged. *)
Definition writeMarkerFile : ST guestfs () := λ g,
  match ge_write_marker env with Some _ => (Ok tt, g) | None => (Ok tt, mkGuest (g_files g) true) end.

Definition ExtractDevice (disk : archive) (device : string) (force : bool) : ST guestfs () := λ g,
  if decide (device = "") then (Ok tt, g)
  else if negb force && g_marker g then (Ok tt, g)
  else (ExtractFromDevice disk device ;;! writeMarkerFile) g.
End guest.

(** ** From the host's files to the guest's *)

(** Sources that can be read and do not change, and headers that can be encoded. *)
Definition steady (env : extrasEnv) (data : string → string) (f : File) : Prop :=
  xe_hash_open env (SourcePath f) = None ∧ xe_hash_read env (SourcePath f) = Ok (data (SourcePath f)) ∧
  xe_stat env (SourcePath f) = Ok (Z.of_nat (String.length (data (SourcePath f)))) ∧
  xe_open env (SourcePath f) = Ok (data (SourcePath f), None) ∧ ∀ n, xe_header env (DestPath f) (Mode f) n = None.

Definition entry_of (data : string → string) (f : File) : entry := mkEntry (DestPath f) (Mode f) (data (SourcePath f)).

Definition whole (data : string → string) (files : list File) : archive := mkArchive (entry_of data <$> files) None.

Lemma str_take_all s : str_take (String.length s) s = s.
Proof. pose proof (str_take_app s "") as H. by rewrite string_app_nil_r in H. Qed.

Lemma tar_loop_whole env data files es : Forall (steady env data) files →
  tar_loop env files (mkArchive es None) = (None, mkArchive (es ++ (entry_of data <$> files)) None).
Proof.
  intros Hs. revert es. induction Hs as [|f files (_ & _ & Hstat & Hopen & Hh) _ IH]; intros es; simpl; [by rewrite app_nil_r|].
  rewrite Hstat, Hh, Hopen, Z.ltb_irrefl. unfold put_entry. rewrite Z.ltb_irrefl, Nat2Z.id, str_take_all. simpl.
  rewrite IH. by rewrite <-app_assoc.
Qed.

(** What a list of steady files feeds to the hash. *)
Fixpoint digest_text (data : string → string) (files : list File) : string :=
  match files with [] => "" | f :: fs => DestPath f +:+ fmt_d (Mode f) +:+ data (SourcePath f) +:+ digest_text data fs end.

Lemma digest_input_text env data files h : Forall (steady env data) files →
  digest_input env files h = Ok (h +:+ digest_text data files).
Proof.
  intros Hs. revert h. induction Hs as [|f files (Ho & Hr & _) _ IH]; intros h; simpl; [by rewrite string_app_nil_r|].
  rewrite Ho, Hr, IH. f_equal. by rewrite !string_app_assoc.
Qed.

Definition digest_of (env : extrasEnv) (data : string → string) (files : list File) : string :=
  xe_sha env (digest_text data (merge_sort dest_le files)).

Lemma computeHash_steady env data files : Forall (steady env data) files → computeHash env files = Ok (digest_of env data files).
Proof.
  intros Hs. unfold computeHash. rewrite (digest_input_text env data); [done|]. by rewrite merge_sort_Permutation.
Qed.

#[local] Instance dest_le_trans : Transitive dest_le.
Proof. intros f g h. unfold dest_le. apply transitivity. Qed.
#[local] Instance dest_le_total : Total dest_le.
Proof. intros f g. unfold dest_le. apply (total String.le). Qed.

(** Files with distinct destinations have one sorted order. *)
Lemma sorted_dest_unique (l1 l2 : list File) : l1 ≡ₚ l2 → NoDup (DestPath <$> l1) →
  StronglySorted dest_le l1 → StronglySorted dest_le l2 → l1 = l2.
Proof.
  revert l2. induction l1 as [|f l1 IH]; intros l2 Hp Hn Hs1 Hs2; [by apply Permutation_nil_l in Hp|].
  destruct l2 as [|g l2]; [by apply Permutation_nil_r in Hp|].
  apply StronglySorted_inv in Hs1 as [Hs1 Hf]. apply StronglySorted_inv in Hs2 as [Hs2 Hg]. apply NoDup_cons in Hn as [Hnf Hn].
  assert (f = g) as ->.
  { assert (Hin : f ∈ g :: l2) by (rewrite <-Hp; left). apply elem_of_cons in Hin as [->|Hin]; [done|].
    assert (Hin' : g ∈ f :: l1) by (rewrite Hp; left). apply elem_of_cons in Hin' as [->|Hin']; [done|].
    rewrite Forall_forall in Hf, Hg. exfalso. apply Hnf. apply list_elem_of_fmap. exists g. split; [|done].
    apply (anti_symm String.le); [by apply Hf|by apply Hg]. }
  f_equal. apply IH; [by apply Permutation_cons_inv in Hp|done..].
Qed.

(** The hash does not depend on the order in which the annotation lists the files. *)
Lemma hash_order_independent env files files' :
  NoDup (DestPath <$> files) → files ≡ₚ files' → computeHash env files = computeHash env files'.
Proof.
  intros Hn Hp. unfold computeHash. f_equal. f_equal. apply sorted_dest_unique.
  - etrans; [apply merge_sort_Permutation|]. rewrite Hp. symmetry. apply merge_sort_Permutation.
  - assert (Hm : DestPath <$> merge_sort dest_le files ≡ₚ DestPath <$> files) by (by rewrite merge_sort_Permutation).
    by rewrite Hm.
  - apply StronglySorted_merge_sort; apply _.
  - apply StronglySorted_merge_sort; apply _.
Qed.

(** *** The guest's side *)

(** A guest in which nothing fails. *)
Definition guest_works (env : guestEnv) : Prop :=
  (∀ p, ge_open env p = None) ∧ (∀ p, ge_mkdir env p = None) ∧ (∀ p, ge_create env p = None) ∧
  (∀ p, ge_copy env p = None) ∧ ge_write_marker env = None.

Definition extracted (env : guestEnv) (e : entry) (g : guestfs) : guestfs :=
  write_file (Clean (te_name e)) (te_data e) (open_trunc env (Clean (te_name e)) (te_mode e) g).

#[global] Arguments extracted : simpl never.

Definition new_mode (env : guestEnv) (path : string) (mode : Z) (g : guestfs) : Z :=
  match g_files g !! path with Some (m, _) => m | None => Z.land (Z.land mode 511) (Z.lnot (ge_umask env)) end.

Lemma extracted_lookup env e g p :
  g_files (extracted env e g) !! p =
  if decide (p = Clean (te_name e)) then Some (new_mode env p (te_mode e) g, te_data e) else g_files g !! p.
Proof.
  unfold extracted, write_file, open_trunc, new_mode. simpl. case_decide as Hp; [subst|].
  - rewrite lookup_alter_eq, lookup_insert_eq. done.
  - rewrite lookup_alter_ne, lookup_insert_ne by done. done.
Qed.

Lemma extract_entries_all env es g : guest_works env → Forall (λ e, IsAbs (te_name e) = true) es →
  extract_entries env es None g = (Ok tt, foldl (λ g e, extracted env e g) g es).
Proof.
  intros (_ & Hm & Hc & Hw & _) Ha. revert g. induction Ha as [|e es He _ IH]; intros g; simpl; [done|].
  rewrite He. simpl. unfold bind at 1, extract_file. rewrite Hm, Hc, Hw. simpl. apply IH.
Qed.

Lemma foldl_extracted env es g p : NoDup ((λ e, Clean (te_name e)) <$> es) →
  g_files (foldl (λ g e, extracted env e g) g es) !! p =
  match list_find (λ e, Clean (te_name e) = p) es with
  | Some (_, e) => Some (new_mode env p (te_mode e) g, te_data e)
  | None => g_files g !! p
  end.
Proof.
  revert g. induction es as [|e es IH]; intros g Hn; [done|]. apply NoDup_cons in Hn as [Hne Hn]. simpl.
  rewrite IH by done. case_decide as Hp.
  - destruct (list_find _ es) as [[i e']|] eqn:Hf.
    + apply list_find_Some in Hf as (He & Hp' & _). destruct Hne. rewrite Hp, <-Hp'. apply list_elem_of_fmap.
      exists e'. split; [done|]. by eapply list_elem_of_lookup_2.
    + rewrite extracted_lookup, decide_True by done. by subst.
  - destruct (list_find _ es) as [[i e']|] eqn:Hf.
    + unfold new_mode. by rewrite extracted_lookup, decide_False by done.
    + rewrite extracted_lookup, decide_False by done. done.
Qed.

(** *** The host's side *)

Definition host_works (env : extrasEnv) : Prop :=
  xe_mkdir env = None ∧ (∀ p, xe_create env p = None) ∧ xe_link env = None.

(** Inodes in use are below the next one. *)
Definition host_ok (w : hostfs) : Prop := ∀ p i, h_names w !! p = Some i → (i < h_next w)%nat.

Definition cache_path (cacheDir : string) (hash : string) : string := path_Join [cacheDir; hash +:+ ".tar"].
Definition state_path (stateDir : string) : string := path_Join [stateDir; "extras.tar"].

(** A request that is not in the cache builds the archive, one that is links it;
    either way nothing else changes. *)
Lemma GetOrCreateDisk_builds env data cacheDir stateDir files w :
  host_works env → files ≠ [] → Forall (steady env data) files → host_ok w →
  let c := cache_path cacheDir (digest_of env data files) in let d := state_path stateDir in
  c ≠ d → h_names w !! c = None → h_names w !! d = None →
  GetOrCreateDisk env cacheDir stateDir files w =
  (Ok d, mkHost (<[d := h_next w]> (<[c := h_next w]> (h_names w))) (<[h_next w := whole data files]> (h_inodes w)) (S (h_next w))).
Proof.
  intros (Hm & Hc & Hl) Hne Hs Hw c d Hcd Hnc Hnd. unfold GetOrCreateDisk. rewrite decide_False by done.
  unfold bind, wrapping, mkdirAll, lift, get. rewrite (computeHash_steady env data), Hm by done. cbv beta iota zeta.
  fold (cache_path cacheDir (digest_of env data files)). fold (state_path stateDir). fold c d.
    rewrite decide_False by (by rewrite Hnc; intros [? ?]).
  unfold createTar, os_Create, bind. rewrite Hc, Hnc. change empty_file with (mkArchive [] None). rewrite (tar_loop_whole env data files []) by done. simpl.
  unfold attempt, os_Link. rewrite Hl. simpl. rewrite lookup_insert_eq, lookup_insert_ne, Hnd by done. simpl.
  by rewrite insert_insert_eq.
Qed.

Lemma GetOrCreateDisk_hits env data cacheDir stateDir files w i :
  host_works env → files ≠ [] → Forall (steady env data) files →
  let c := cache_path cacheDir (digest_of env data files) in let d := state_path stateDir in
  h_names w !! c = Some i → h_names w !! d = None →
  GetOrCreateDisk env cacheDir stateDir files w = (Ok d, mkHost (<[d := i]> (h_names w)) (h_inodes w) (h_next w)).
Proof.
  intros (Hm & Hc & Hl) Hne Hs c d Hnc Hnd. unfold GetOrCreateDisk. rewrite decide_False by done.
  unfold bind, wrapping, mkdirAll, lift, get. rewrite (computeHash_steady env data), Hm by done. cbv beta iota zeta.
  fold (cache_path cacheDir (digest_of env data files)). fold (state_path stateDir). fold c d.
  rewrite decide_True by (by rewrite Hnc; eexists).
  unfold attempt, os_Link. by rewrite Hl, Hnc, Hnd.
Qed.

(** What is extracted from the archive of [files]. *)
Lemma extract_whole env data files device g :
  guest_works env → device ≠ "" → g_marker g = false →
  Forall (λ f, IsAbs (DestPath f) = true) files → NoDup ((λ f, Clean (DestPath f)) <$> files) →
  ∃ g', ExtractDevice env (whole data files) device false g = (Ok tt, g') ∧ g_marker g' = true ∧
    (∀ f, f ∈ files → g_files g' !! Clean (DestPath f) =
       Some (new_mode env (Clean (DestPath f)) (Mode f) g, data (SourcePath f))) ∧
    (∀ p, p ∉ ((λ f, Clean (DestPath f)) <$> files) → g_files g' !! p = g_files g !! p).
Proof.
  intros Hgw Hd Hmk Ha Hn. unfold ExtractDevice. rewrite decide_False, Hmk by done. cbn [negb andb].
  unfold ExtractFromDevice, bind, wrapping, lift. rewrite (proj1 Hgw). cbn [whole ar_entries ar_cut].
  rewrite extract_entries_all; [|done|by rewrite Forall_fmap].
  unfold writeMarkerFile. destruct Hgw as (_ & _ & _ & _ & ->). eexists. split; [reflexivity|]. split; [done|]. cbn [g_files].
  assert (Hn' : NoDup ((λ e, Clean (te_name e)) <$> (entry_of data <$> files))) by (by rewrite <-list_fmap_compose).
  split.
  - intros f Hf. rewrite foldl_extracted by done.
    destruct (list_find _ _) as [[i e]|] eqn:E.
    + apply list_find_Some in E as (He & Hp & _). apply list_lookup_fmap_Some in He as (f' & -> & Hf').
      apply list_elem_of_lookup in Hf as [j Hj]. simpl in Hp. enough (f' = f) as -> by done.
      assert (j = i) as ->; [|congruence].
      eapply (NoDup_lookup _ j i (Clean (DestPath f))); [exact Hn|by rewrite list_lookup_fmap, Hj|by rewrite list_lookup_fmap, Hf', <-Hp].
    + exfalso. eapply list_find_None in E. rewrite Forall_forall in E. eapply (E (entry_of data f)); [|done].
      by apply list_elem_of_fmap_2.
  - intros p Hp. rewrite foldl_extracted by done. destruct (list_find _ _) as [[i e]|] eqn:E; [|done].
    apply list_find_Some in E as (He & <- & _). destruct Hp. apply list_lookup_fmap_Some in He as (f' & -> & Hf').
    apply list_elem_of_fmap. exists f'. split; [done|]. by eapply list_elem_of_lookup_2.
Qed.


(** ** What the cache gets wrong *)

(** What is hashed does not separate its parts: a file "23" of mode 1 and a file
    "3" of mode 12 at one place are one archive to the cache, for any hash. *)
Lemma digest_ambiguous env data :
  data "/s1" = "23" → data "/s2" = "3" →
  let f1 := mkFile "/etc/f" "/s1" 1 in let f2 := mkFile "/etc/f" "/s2" 12 in
  digest_of env data [f1] = digest_of env data [f2] ∧ entry_of data f1 ≠ entry_of data f2.
Proof.
  intros H1 H2. split; [|done]. unfold digest_of. f_equal. vm_compute merge_sort. cbn [digest_text DestPath Mode SourcePath].
  by rewrite H1, H2.
Qed.

(** A file that cannot be archived leaves the files before it in the cache: the
    first request fails, and every later one is given the incomplete archive. *)
Lemma failed_archive_is_cached env data cacheDir stateDir stateDir' f1 f2 e w :
  host_works env → host_ok w → steady env data f1 →
  xe_hash_open env (SourcePath f2) = None → xe_hash_read env (SourcePath f2) = Ok (data (SourcePath f2)) →
  xe_stat env (SourcePath f2) = Err e →
  let h := xe_sha env (digest_text data (merge_sort dest_le [f1; f2])) in
  h_names w !! cache_path cacheDir h = None → h_names w !! state_path stateDir' = None →
  cache_path cacheDir h ≠ state_path stateDir' →
  ∃ x w1 w2, GetOrCreateDisk env cacheDir stateDir [f1; f2] w = (Err x, w1) ∧
    GetOrCreateDisk env cacheDir stateDir' [f1; f2] w1 = (Ok (state_path stateDir'), w2) ∧
    content w2 (state_path stateDir') = Some (whole data [f1]).
Proof.
  intros (Hm & Hc & Hl) Hw (Ho1 & Hr1 & Hs1 & Hop1 & Hh1) Ho2 Hr2 Hs2 h Hnc Hnd Hcd.
  assert (Hhash : computeHash env [f1; f2] = Ok h).
  { unfold computeHash, h. assert (Hd : ∀ l t, Forall (λ f, f = f1 ∨ f = f2) l → digest_input env l t = Ok (t +:+ digest_text data l)).
    { intros l t Hall. revert t. induction Hall as [|f l Hf _ IH]; intros t; simpl; [by rewrite string_app_nil_r|].
      destruct Hf as [->| ->]; rewrite ?Ho1, ?Hr1, ?Ho2, ?Hr2, IH, !string_app_assoc; done. }
    rewrite Hd; [done|]. rewrite merge_sort_Permutation. constructor; [by left|]. constructor; [by right|done]. }
  assert (Htar : tar_loop env [f1; f2] empty_file = (Some (wrap ("stat " +:+ SourcePath f2) e), whole data [f1])).
  { cbn [tar_loop]. rewrite Hs1, Hh1, Hop1, Z.ltb_irrefl. cbn [ar_cut empty_file]. rewrite Hs2.
    unfold put_entry. by rewrite Z.ltb_irrefl, Nat2Z.id, str_take_all. }
  unfold GetOrCreateDisk. rewrite !decide_False by done. unfold bind, wrapping, mkdirAll, lift, get. rewrite Hhash, Hm. cbv beta iota zeta.
  fold (cache_path cacheDir h) (state_path stateDir) (state_path stateDir').
  rewrite decide_False by (by rewrite Hnc; intros [? ?]).
  unfold createTar, os_Create, bind. rewrite Hc, Hnc, Htar. cbn. eexists _, _, _. split; [reflexivity|].
  cbn. rewrite decide_True by (by rewrite lookup_insert_eq; eexists).
  unfold attempt, os_Link. rewrite Hl. cbn. rewrite lookup_insert_eq, lookup_insert_ne, Hnd by done. split; [reflexivity|].
  unfold content. cbn. rewrite lookup_insert_eq. cbn. by rewrite !lookup_insert_eq.
Qed.

(** A state directory that already has its link: the copy that replaces the failed
    link truncates the inode both names share, and the cache is empty from then on. *)
Lemma reused_state_dir_empties_cache env data cacheDir stateDir files w i ar :
  host_works env → files ≠ [] → Forall (steady env data) files →
  let c := cache_path cacheDir (digest_of env data files) in let d := state_path stateDir in
  h_names w !! c = Some i → h_names w !! d = Some i → h_inodes w !! i = Some ar →
  ∃ w', GetOrCreateDisk env cacheDir stateDir files w = (Ok d, w') ∧
    content w' c = Some empty_file ∧ content w' d = Some empty_file.
Proof.
  intros (Hm & Hc & Hl) Hne Hs c d Hnc Hnd Hi. unfold GetOrCreateDisk. rewrite decide_False by done.
  unfold bind, wrapping, mkdirAll, lift, get. rewrite (computeHash_steady env data), Hm by done. cbv beta iota zeta.
  fold (cache_path cacheDir (digest_of env data files)) (state_path stateDir). fold c d.
  rewrite decide_True by (by rewrite Hnc; eexists). unfold attempt, os_Link. rewrite Hl, Hnc, Hnd.
  unfold copyFile, os_Open, os_Create, bind. rewrite Hnc, Hc, Hnd. cbn. eexists. split; [reflexivity|].
  unfold content. cbn. rewrite Hnc, Hnd. cbn. by rewrite !lookup_insert_eq.
Qed.

(** ** What the annotation is checked for *)

(** The files of an annotation that is accepted are its members in order, with
    absolute destinations, absolute clean sources that exist, and a mode. *)
Lemma collect_spec stat m files fs : collect stat m files = Ok fs →
  fs = files ++ ((λ '(d, c), mkFile d (Clean (cfg_Source c)) (if cfg_Mode c =? 0 then 420 else cfg_Mode c)) <$> m) ∧
  Forall (λ '(d, c), IsAbs d = true ∧ IsAbs (Clean (cfg_Source c)) = true ∧ stat (Clean (cfg_Source c)) = None) m.
Proof.
  revert files. induction m as [|[d c] m IH]; intros files; simpl; [intros [= ->]; by rewrite app_nil_r|].
  destruct (IsAbs d) eqn:Hd; simpl; [|done]. destruct (IsAbs (Clean (cfg_Source c))) eqn:Hs; simpl; [|done].
  destruct (stat (Clean (cfg_Source c))) eqn:Ht; [done|]. intros H. apply IH in H as [-> Hall]. rewrite <-app_assoc. split; [done|].
  by constructor.
Qed.

(** ** A concrete run *)

Definition demo_files : list File := [mkFile "/usr/bin/tool" "/src/tool" 493; mkFile "/etc/../etc/conf" "/src/conf" 420].
Definition demo_data (p : string) : string := if decide (p = "/src/tool") then "ELF" else "key=1".
Definition demo_env : extrasEnv :=
  mkExtrasEnv (λ s, "h" +:+ s) (λ _, None) (λ p, Ok (demo_data p)) (λ p, Ok (Z.of_nat (String.length (demo_data p))))
    (λ p, Ok (demo_data p, None)) (λ _ _ _, None) None (λ _, None) None.
Definition demo_guest : guestEnv := mkGuestEnv (λ _, None) (λ _, None) (λ _, None) (λ _, None) 18 None.
Definition empty_host : hostfs := mkHost ∅ ∅ 0.

