(* ===== verification/Bundle.v ===== *)
(** OCI bundles: internal/shim/bundle on the host (bundle.go, transform_linux.go)
    and the bundle service of the guest (internal/guest/services/bundle.go).

    Of a specification the fields the code looks at are modelled and the rest is
    carried along; JSON is a parameter.  The order in which a loop visits a map is
    an argument. *)
From S2P Require Import Prelude GoStrings GoText GoState.
From Stdlib Require Import Ascii.

(** ** The specification *)

Record Root := mkRoot { rt_Path : string; rt_Readonly : bool }.
Record Mount := mkMount { m_Destination : string; m_Type : string; m_Source : string; m_Options : list string }.
Record LinuxNamespace := mkNamespace { ns_Type : string; ns_Path : string }.
Record Linux := mkLinux {
  lx_Namespaces : list LinuxNamespace; lx_ReadonlyPaths : list string; lx_MaskedPaths : list string; lx_rest : string
}.
Record Capabilities := mkCaps {
  Bounding : list string; Effective : list string; Permitted : list string; Inheritable : list string; Ambient : list string
}.
Record Process := mkProcess { pr_Capabilities : option Capabilities; pr_rest : string }.
Record Spec := mkSpec {
  sp_Root : option Root; sp_Mounts : list Mount; sp_Process : option Process; sp_Linux : option Linux; sp_rest : string
}.

#[export] Instance Mount_eq_dec : EqDecision Mount.
Proof. solve_decision. Defined.

Definition set_Root r s := mkSpec r (sp_Mounts s) (sp_Process s) (sp_Linux s) (sp_rest s).
Definition set_Mounts m s := mkSpec (sp_Root s) m (sp_Process s) (sp_Linux s) (sp_rest s).
Definition set_Process p s := mkSpec (sp_Root s) (sp_Mounts s) p (sp_Linux s) (sp_rest s).
Definition set_Linux l s := mkSpec (sp_Root s) (sp_Mounts s) (sp_Process s) l (sp_rest s).

Record Bundle := mkBundle { b_Path : string; b_Spec : Spec; b_Rootfs : string; b_extraFiles : gmap string string }.
Definition with_Spec s b := mkBundle (b_Path b) s (b_Rootfs b) (b_extraFiles b).

(** ** The host *)

Definition IsAbs (path : string) : bool := is_rooted path.

Definition resolveRootfsPath (b : Bundle) : res Bundle :=
  match sp_Root (b_Spec b) with
  | None => Err (mkError ErrInvalidArgument "invalid argument: root path not specified")
  | Some r => Ok (mkBundle (b_Path b) (set_Root (Some (mkRoot "rootfs" (rt_Readonly r))) (b_Spec b))
                    (if IsAbs (rt_Path r) then rt_Path r else path_Join [b_Path b; rt_Path r]) (b_extraFiles b))
  end.

Definition AddExtraFile (name data : string) (b : Bundle) : res Bundle :=
  if decide (name = "") then Err (errorf "file name cannot be empty")
  else if decide (name = "config.json") then Err (errorf "cannot override config.json")
  else
    let cleaned := Clean name in
    if decide (cleaned ≠ name ∨ Base name ≠ name ∨ cleaned = ".." ∨ cleaned = ".") then
      Err (errorf ("file name " +:+ fmt_q name +:+ " must not contain path separators or relative components"))
    else Ok (mkBundle (b_Path b) (b_Spec b) (b_Rootfs b) (<[name := data]> (b_extraFiles b))).

Section host.
(** [readFile] is os.ReadFile, [known] the capabilities of the kernel. *)
Context (readFile : string → res string) (unmarshal : string → res Spec) (marshal : Spec → res string) (known : list string).

(** The loop of [TransformBindMounts]: [i] is the index of the first of [ms]. *)
Fixpoint bind_loop (i : nat) (ms : list Mount) (b : Bundle) : res Bundle :=
  match ms with
  | [] => Ok b
  | m :: ms' =>
      if decide (m_Type m = "bind") then
        let filename := Base (m_Source m) in
        if decide (Base (Dir (m_Source m)) = Base (b_Path b)) then
          match readFile (m_Source m) with
          | Err e => Err (wrap ("failed to read mount file " +:+ fmt_q filename) e)
          | Ok buf =>
              let m' := mkMount (m_Destination m) (m_Type m) filename (m_Options m) in
              match AddExtraFile filename buf (with_Spec (set_Mounts (<[i := m']> (sp_Mounts (b_Spec b))) (b_Spec b)) b) with
              | Err e => Err (wrap ("failed to add extra file " +:+ fmt_q filename) e)
              | Ok b' => bind_loop (S i) ms' b'
              end
          end
        else bind_loop (S i) ms' b
      else bind_loop (S i) ms' b
  end.

Definition TransformBindMounts (b : Bundle) : res Bundle := bind_loop 0 (sp_Mounts (b_Spec b)) b.

Definition fsTypeCgroup2 : string := "cgroup2".
Definition cgroupDir : string := "/sys/fs/cgroup".

Fixpoint ensure_loop (opts : list string) (result : list string) (hasRW : bool) : list string * bool :=
  match opts with
  | [] => (result, hasRW)
  | opt :: opts' =>
      if decide (opt = "ro") then ensure_loop opts' (result ++ ["rw"]) true
      else ensure_loop opts' (result ++ [opt]) (hasRW || bool_decide (opt = "rw"))
  end.
Definition ensureRW (opts : list string) : list string :=
  let '(result, hasRW) := ensure_loop opts [] false in if hasRW then result else result ++ ["rw"].

(** The mount of cgroups is made cgroup2, or added. *)
Definition cgroup_mounts (ms : list Mount) : list Mount :=
  match list_find (λ m, m_Destination m = cgroupDir) ms with
  | Some (i, m) => <[i := mkMount cgroupDir fsTypeCgroup2 fsTypeCgroup2 (ensureRW (m_Options m))]> ms
  | None => ms ++ [mkMount cgroupDir fsTypeCgroup2 fsTypeCgroup2 ["nosuid"; "noexec"; "nodev"; "rw"]]
  end.

Definition AdaptForVM (s : Spec) : Spec :=
  let keep ns := negb (bool_decide (ns_Type ns = "network")) && negb (bool_decide (ns_Type ns = "cgroup")) in
  let s := set_Linux ((λ l, mkLinux (List.filter keep (lx_Namespaces l)) (lx_ReadonlyPaths l) (lx_MaskedPaths l) (lx_rest l)) <$> sp_Linux s) s in
  let s := set_Mounts (cgroup_mounts (sp_Mounts s)) s in
  let s := set_Process ((λ p, mkProcess (Some (mkCaps known known known known known)) (pr_rest p)) <$> sp_Process s) s in
  set_Linux ((λ l, mkLinux (lx_Namespaces l) [] [] (lx_rest l)) <$> sp_Linux s) s.

Definition Load (path : string) (transformers : list (Bundle → res Bundle)) : res Bundle :=
  if decide (path = "") then Err (errorf "bundle path cannot be empty")
  else match readFile (path_Join [path; "config.json"]) with
       | Err e => Err (wrap "failed to read bundle config" e)
       | Ok specBytes =>
           match unmarshal specBytes with
           | Err e => Err (wrap "failed to parse bundle spec" e)
           | Ok spec =>
               match resolveRootfsPath (mkBundle path spec "" ∅) with
               | Err e => Err (wrap "failed to resolve rootfs path" e)
               | Ok b => foldl (λ r t, let! b := r in match t b with Ok b' => Ok b' | Err e => Err (wrap "transformer failed" e) end)
                           (Ok b) transformers
               end
           end
       end.

Definition LoadForCreate (path : string) : res Bundle :=
  Load path [TransformBindMounts; λ b, Ok (with_Spec (AdaptForVM (b_Spec b)) b)].

Definition Files (b : Bundle) : res (gmap string string) :=
  match marshal (b_Spec b) with
  | Err e => Err (wrap "failed to marshal spec" e)
  | Ok specBytes => Ok (<["config.json" := specBytes]> (b_extraFiles b))
  end.
End host.

(** ** The guest *)

Inductive node := Directory | Regular (data : string).
Definition bundleRoot : string := "/run/bundles".
Definition rootfsDir : string := "rootfs".

(** Answers of the file system beyond what the tree says: a write that fails can leave
    a file with part of its contents, and [be_remove] says what a removal gets to remove. *)
Record bundleEnv := mkBundleEnv {
  be_mkdir : string → option error; be_write : string → option (error * option string); be_remove : string → bool
}.

Section guest.
Context (env : bundleEnv).

Definition os_Mkdir (path : string) : ST (gmap string node) () := λ w,
  match be_mkdir env path with
  | Some e => (Err e, w)
  | None => if decide (is_Some (w !! path)) then (Err (mkError ErrAlreadyExists "file exists"), w) else (Ok tt, <[path := Directory]> w)
  end.

Definition os_WriteFile (path data : string) : ST (gmap string node) () := λ w,
  match be_write env path with
  | Some (e, None) => (Err e, w)
  | Some (e, Some part) => (Err e, match w !! path with Some Directory => w | _ => <[path := Regular part]> w end)
  | None => match w !! path with
            | Some Directory => (Err (errorf "is a directory"), w)
            | _ => (Ok tt, <[path := Regular data]> w)
            end
  end.

(** [d] and everything below it. *)
Definition under (d p : string) : Prop := p = d ∨ HasPrefix p (d +:+ "/") = true.
#[export] Instance under_dec d p : Decision (under d p).
Proof. unfold under. apply _. Defined.
Definition os_RemoveAll (d : string) : ST (gmap string node) () := λ w,
  (Ok tt, filter (λ x, ¬ (under d x.1 ∧ be_remove env x.1 = true)) w).

Definition invalid (msg : string) : error := mkError ErrInvalidArgument msg.

Fixpoint check_names (names : list string) : option error :=
  match names with
  | [] => None
  | f :: names' =>
      if decide (f = "") then Some (invalid "empty filename in bundle files")
      else if IsAbs f then Some (invalid ("absolute path not allowed in bundle: " +:+ fmt_q f))
      else if ContainsAny f "/\" then Some (invalid ("path separators not allowed in bundle filename: " +:+ fmt_q f))
      else if decide (f = ".." ∨ f = ".") then Some (invalid ("invalid bundle filename: " +:+ fmt_q f))
      else check_names names'
  end.

Fixpoint write_files (d : string) (files : list (string * string)) : ST (gmap string node) () :=
  match files with
  | [] => ret tt
  | (f, b) :: files' => os_WriteFile (path_Join [d; f]) b ;;! write_files d files'
  end.

(** [names] and [files] are the request's map in the orders of the two loops. *)
Definition Create (id : string) (names : list string) (files : list (string * string)) : ST (gmap string node) string :=
  if decide (id = "") then fail (invalid "bundle ID cannot be empty")
  else if Contains id ".." || Contains id "/" then fail (invalid ("invalid bundle ID: " +:+ fmt_q id))
  else
    let d := path_Join [bundleRoot; id] in
    match check_names names with
    | Some e => fail e
    | None =>
        os_Mkdir d ;;!
        on_error (os_Mkdir (path_Join [d; rootfsDir]) ;;! write_files d files) (os_RemoveAll d) ;;!
        ret d
    end.
End guest.

(** ** Names *)

Lemma Split_parts s sep : Forall (λ p, all_chars (neq_char sep) p = true) (Split s sep).
Proof.
  induction s as [|a s IH]; simpl; [by repeat constructor|]. case_decide as Ha; [by constructor|].
  destruct (Split s sep) as [|p ps]; [by repeat constructor; simpl; rewrite ?andb_true_r; unfold neq_char; rewrite bool_decide_eq_false_2|].
  apply Forall_cons in IH as [Hp Hps]. constructor; [|done]. simpl. rewrite Hp, andb_true_r. unfold neq_char.
  by rewrite bool_decide_eq_false_2.
Qed.

Lemma Base_self name : name ≠ "" → Base name = name → name = "/" ∨ all_chars (neq_char "/") name = true.
Proof.
  intros H0 Hb. unfold Base in Hb. destruct name as [|a s]; [done|]. set (n := String a s) in *.
  destruct (rev _) as [|p ps] eqn:E; [by left|]. right. rewrite <-Hb.
  pose proof (Split_parts n "/") as Hall. rewrite Forall_forall in Hall. apply Hall.
  assert (Hin : p ∈ rev (List.filter (λ p, negb (bool_decide (p = ""))) (Split n "/"))) by (rewrite E; left).
  apply list_elem_of_In, in_rev, filter_In in Hin as [Hin _]. by apply list_elem_of_In.
Qed.

(** A name [AddExtraFile] takes is a plain one, or the root. *)
Lemma AddExtraFile_Ok name data b b' : AddExtraFile name data b = Ok b' →
  b' = mkBundle (b_Path b) (b_Spec b) (b_Rootfs b) (<[name := data]> (b_extraFiles b)) ∧
  name ≠ "config.json" ∧ (plain_name name ∨ name = "/").
Proof.
  unfold AddExtraFile. case_decide as H0; [done|]. case_decide as H1; [done|]. case_decide as H2; [done|]. intros [= <-].
  assert (Hc : Clean name = name) by (destruct (decide (Clean name = name)); tauto).
  assert (Hb : Base name = name) by (destruct (decide (Base name = name)); tauto). rewrite Hc in H2.
  split_and!; [done..|]. destruct (Base_self name H0 Hb) as [?|?]; [by right|]. left. split_and!; tauto.
Qed.

Lemma Contains_slash s : Contains s "/" = false → all_chars (neq_char "/") s = true.
Proof.
  induction s as [|a s IH]; [done|]. cbn [Contains]. intros [E Hs]%orb_false_iff.
  simpl. rewrite IH by done. rewrite andb_true_r. unfold neq_char. rewrite bool_decide_eq_false_2; [done|]. intros ->.
  change (String "/" s) with ("/" +:+ s) in E. by rewrite HasPrefix_app in E.
Qed.

(** The names the guest accepts. *)
Definition acceptable (f : string) : Prop := plain_name f ∧ all_chars (neq_char "\") f = true.

Lemma check_names_None names : check_names names = None ↔ Forall acceptable names.
Proof.
  induction names as [|f names IH]; simpl; [by split; [constructor|]|]. rewrite Forall_cons, <-IH. split.
  - case_decide as H0; [done|]. destruct (IsAbs f); [done|]. destruct (ContainsAny f "/\") eqn:Hc; [done|].
    case_decide as Hd; [done|]. intros ->. split; [|done].
    split; [|by apply (ContainsAny_false _ "/\")]. split_and!; try tauto. by apply (ContainsAny_false _ "/\").
  - intros [((H0 & H1 & H2 & H3) & H4) Hn]. rewrite decide_False by done.
    assert (Hc : ContainsAny f "/\" = false).
    { clear -H3 H4. induction f as [|a f IH]; [done|]. simpl in *. apply andb_true_iff in H3 as [Ha H3], H4 as [Ha' H4].
      rewrite IH by done. rewrite orb_false_r. unfold neq_char in Ha, Ha'. apply negb_true_iff, bool_decide_eq_false in Ha, Ha'.
      simpl. by rewrite !decide_False by congruence. }
    destruct f as [|a f]; [done|]. simpl in Hc |- *. unfold IsAbs. simpl. simpl in H3. apply andb_true_iff in H3 as [Ha _].
    unfold neq_char in Ha. apply negb_true_iff in Ha. rewrite Ha, Hc. by rewrite decide_False by naive_solver.
Qed.

(** ** The guest's bundle is complete or not there *)

Lemma Clean_under p d : Clean p = p → is_rooted p = true → p ≠ "/" → plain_name d → Clean (p +:+ "/" +:+ d) = p +:+ "/" +:+ d.
Proof.
  intros Hc Hr Hp Hd. pose proof (path_Join_under p d Hc Hr Hp Hd) as H. unfold path_Join in H. simpl in H.
  destruct Hd as (H0 & _). rewrite !bool_decide_eq_false_2 in H by (done || by intros ->). exact H.
Qed.

Definition dir_of (id : string) : string := bundleRoot +:+ "/" +:+ id.
Definition file_of (id f : string) : string := dir_of id +:+ "/" +:+ f.

Lemma bundle_dir id : plain_name id → path_Join [bundleRoot; id] = dir_of id.
Proof. intros H. by apply path_Join_under. Qed.

Lemma bundle_file id f : plain_name id → plain_name f → path_Join [dir_of id; f] = file_of id f.
Proof. intros H Hf. apply path_Join_under; [by apply Clean_under|done..]. Qed.

Lemma append_inj_l (a b c : string) : a +:+ b = a +:+ c → b = c.
Proof. induction a as [|x a IH]; [done|]. intros [= H]. by apply IH. Qed.

Lemma file_of_inj id f g : file_of id f = file_of id g → f = g.
Proof. unfold file_of. intros H%append_inj_l. by apply (append_inj_l "/") in H. Qed.

Lemma under_file id f : under (dir_of id) (file_of id f).
Proof. right. unfold file_of. rewrite string_app_assoc. apply HasPrefix_app. Qed.

Lemma file_not_dir id f : file_of id f ≠ dir_of id.
Proof.
  unfold file_of. intros H. apply (f_equal String.length) in H. rewrite !str_length_app in H. simpl in H. lia.
Qed.

(** Below a directory that is not there, there is nothing. *)
Definition tree_ok (w : gmap string node) : Prop :=
  w !! bundleRoot = Some Directory ∧ ∀ id p, under (dir_of id) p → is_Some (w !! p) → is_Some (w !! dir_of id).

(** Everything but what is under [d] is left alone. *)
Definition beside (d : string) (w w' : gmap string node) : Prop := ∀ p, ¬ under d p → w' !! p = w !! p.

#[export] Instance beside_preorder d : PreOrder (beside d).
Proof. split; [by intros w p|]. intros w1 w2 w3 H1 H2 p Hp. by rewrite H2, H1. Qed.

Lemma insert_beside d w p n : under d p → beside d w (<[p := n]> w).
Proof. intros Hp q Hq. rewrite lookup_insert_ne; [done|]. by intros ->. Qed.

Section create.
Context (env : bundleEnv) (id : string) (Hid : plain_name id).
#[local] Abbreviation d := (dir_of id).

Lemma Mkdir_beside p : under d p → preserves (beside d) (os_Mkdir env p).
Proof. intros Hp w. unfold os_Mkdir. destruct (be_mkdir env p); [done|]. case_decide; [done|]. by apply insert_beside. Qed.

Lemma write_files_beside files : Forall plain_name files.*1 → preserves (beside d) (write_files env d files).
Proof.
  induction files as [|[f b] files IH]; intros Hf; [apply (preserves_ret (beside d))|]. apply Forall_cons in Hf as [Hp Hf]. simpl in Hp |- *.
  apply preserves_bind; [apply _| |intros _; by apply IH]. intros w. rewrite bundle_file by done. unfold os_WriteFile.
  destruct (be_write env _) as [[e [part|]]|]; [|done|]; (destruct (w !! file_of id f) as [[]|]; [done|..]; apply insert_beside, under_file).
Qed.

(** What a successful run of the loop has written. *)
Lemma write_files_Ok files w w' : Forall plain_name files.*1 → NoDup files.*1 →
  write_files env d files w = (Ok tt, w') →
  (∀ f b, (f, b) ∈ files → w' !! file_of id f = Some (Regular b) ∧ w !! file_of id f ≠ Some Directory) ∧
  ∀ p, (∀ f, f ∈ files.*1 → p ≠ file_of id f) → w' !! p = w !! p.
Proof.
  revert w. induction files as [|[f b] files IH]; intros w Hf Hn.
  { intros [= <-]. split; [intros ?? H; by apply elem_of_nil in H|done]. }
  apply Forall_cons in Hf as [Hp Hf]. apply NoDup_cons in Hn as [Hnf Hn]. cbn [write_files fst] in *. intros H.
  apply bind_Ok in H as (x & w1 & H1 & H2). rewrite bundle_file in H1 by done. unfold os_WriteFile in H1.
  destruct (be_write env _) as [[e [part|]]|]; [done|done|].
  assert (Hw1 : w1 = <[file_of id f := Regular b]> w ∧ w !! file_of id f ≠ Some Directory)
    by (destruct (w !! file_of id f) as [[]|]; simplify_eq; done). destruct Hw1 as [-> Hnd].
  destruct (IH _ Hf Hn H2) as [Hin Hout]. split.
  - intros g c [[= -> ->]|Hg]%elem_of_cons.
    + split; [|done]. rewrite Hout, lookup_insert_eq; [done|]. intros g Hg ->%file_of_inj. done.
    + destruct (Hin g c Hg) as [? Hx]. split; [done|]. rewrite lookup_insert_ne in Hx; [done|]. intros ->%file_of_inj.
      destruct Hnf. apply list_elem_of_fmap. by exists (g, c).
  - intros p Hpf. rewrite Hout by (intros g Hg; apply Hpf; by right). rewrite lookup_insert_ne; [done|]. symmetry. apply Hpf. left.
Qed.

Lemma remove_restores w w' : (∀ p, under d p → w !! p = None) → (∀ p, be_remove env p = true) → beside d w w' →
  (os_RemoveAll env d w').2 = w.
Proof.
  intros Hn Hr Hb. apply map_eq. intros p. cbn. destruct (decide (under d p)) as [Hu|Hu].
  - rewrite Hn by done. apply map_lookup_filter_None. right. intros x _ Hx. by apply Hx.
  - rewrite map_lookup_filter, Hb by done. destruct (w !! p); [|done]. simpl. rewrite option_guard_True; [done|]. by intros [? _].
Qed.

Lemma remove_beside : preserves (beside d) (os_RemoveAll env d).
Proof.
  intros w p Hp. cbn. rewrite map_lookup_filter. destruct (w !! p); [|done]. simpl. rewrite option_guard_True; [done|]. by intros [? _].
Qed.
End create.

Lemma bundle_id id : id ≠ "" → Contains id ".." || Contains id "/" = false →
  plain_name id ∨ path_Join [bundleRoot; id] = bundleRoot.
Proof.
  intros H0 [Hd Hs]%orb_false_iff. destruct (decide (id = ".")) as [->|H1]; [right; reflexivity|]. left.
  split_and!; [done|done|by intros ->|by apply Contains_slash].
Qed.

(** C25: Whatever is asked of the guest's bundle service and whichever of its
    calls fail, partial writes and removals included, in a tree where the
    bundle root is a directory: a bundle that is created is a new directory
    under the bundle root with its root file system directory and exactly
    the files of the request, and nothing else changes; on every error
    nothing outside of the bundle's directory changes, and when the clean-
    up's removal gets to remove everything the file system is as it was. *)
Theorem bundle_all_or_nothing env id names files w :
  tree_ok w → names ≡ₚ files.*1 → NoDup files.*1 →
  match Create env id names files w with
  | (Ok r, w') =>
      r = dir_of id ∧ plain_name id ∧ w !! dir_of id = None ∧ Forall acceptable names ∧
      w' !! dir_of id = Some Directory ∧ w' !! file_of id rootfsDir = Some Directory ∧
      (∀ f b, (f, b) ∈ files → w' !! file_of id f = Some (Regular b)) ∧
      (∀ p, is_Some (w' !! p) → under (dir_of id) p → p = dir_of id ∨ p = file_of id rootfsDir ∨ ∃ f, f ∈ files.*1 ∧ p = file_of id f) ∧
      (∀ p, ¬ under (dir_of id) p → w' !! p = w !! p)
  | (Err _, w') => (∀ p, ¬ under (dir_of id) p → w' !! p = w !! p) ∧ ((∀ p, be_remove env p = true) → w' = w)
  end.
Proof.
  intros [Hroot Htree] Hperm Hnd. unfold Create. case_decide as H0; [done|]. destruct (Contains id ".." || _) eqn:Hc; [done|].
  destruct (check_names names) as [e|] eqn:Hnames; [done|]. apply check_names_None in Hnames.
  destruct (bundle_id id H0 Hc) as [Hid|Hdot].
  2: { rewrite Hdot. unfold bind, os_Mkdir. destruct (be_mkdir env bundleRoot); [done|]. by rewrite decide_True by (by rewrite Hroot; eexists). }
  assert (Hplain : Forall plain_name files.*1).
  { rewrite <-Hperm. eapply Forall_impl; [exact Hnames|]. by intros f [? _]. }
  rewrite bundle_dir by done. unfold bind at 1, os_Mkdir at 1. destruct (be_mkdir env (dir_of id)); [done|].
  destruct (w !! dir_of id) eqn:Hd; [by rewrite decide_True by eauto|]. rewrite decide_False by (by intros [? ?]).
  assert (Hempty : ∀ p, under (dir_of id) p → w !! p = None).
  { intros p Hp. apply eq_None_not_Some. intros Hx. destruct (Htree id p Hp Hx) as [y Hy]. congruence. }
  set (w1 := <[dir_of id := Directory]> w). set (m := _ ;;! write_files env (dir_of id) files).
  assert (Hm : preserves (beside (dir_of id)) m).
  { apply preserves_bind; [apply _| |intros _; by apply write_files_beside].
    rewrite bundle_file by (done || by vm_compute). apply Mkdir_beside, under_file. }
  unfold bind at 1, on_error. pose proof (Hm w1) as Hb. destruct (m w1) as [[[]|e] w2] eqn:E; cbn [ret snd] in *.
  - unfold m in E. apply bind_Ok in E as (x & w3 & E1 & E2). rewrite bundle_file in E1 by (done || by vm_compute).
    unfold os_Mkdir in E1. destruct (be_mkdir env _); [done|]. case_decide; [done|]. injection E1 as _ <-.
    destruct (write_files_Ok env id Hid files _ _ Hplain Hnd E2) as [Hin Hout].
    assert (Hrf : rootfsDir ∉ files.*1).
    { intros Hr. apply list_elem_of_fmap in Hr as ([f b] & Hf & Hr). simpl in Hf. subst f.
      destruct (Hin _ _ Hr) as [_ Hx]. by rewrite lookup_insert_eq in Hx. }
    split_and!; try done.
    + rewrite Hout by (intros f _ Hx; symmetry in Hx; by apply file_not_dir in Hx).
      rewrite lookup_insert_ne by apply file_not_dir. unfold w1. by rewrite lookup_insert_eq.
    + rewrite Hout by (intros f Hf <-%file_of_inj; done). by rewrite lookup_insert_eq.
    + intros f b Hf. by apply Hin.
    + intros p Hp Hu. destruct (decide (p = dir_of id)); [by left|]. destruct (decide (p = file_of id rootfsDir)); [by right; left|].
      right; right. destruct (decide (Exists (λ f, p = file_of id f) files.*1)) as [He|He].
      { apply Exists_exists in He as (f & Hf & ->). eauto. }
      exfalso. rewrite Hout in Hp by (intros f Hf ->; apply He, Exists_exists; eauto).
      rewrite lookup_insert_ne in Hp by done. unfold w1 in Hp. rewrite lookup_insert_ne in Hp by done.
      rewrite Hempty in Hp by done. by destruct Hp.
    + intros p Hp. rewrite Hb by done. apply (insert_beside (dir_of id) w); [by left|done].
  - assert (Hb2 : beside (dir_of id) w w2) by (etrans; [|exact Hb]; apply (insert_beside (dir_of id) w); by left). split.
    + intros p Hp. etrans; [by apply (remove_beside env id)|by apply Hb2].
    + intros Hrm. by apply remove_restores.
Qed.

(** ** The host's bundle reaches the guest *)

Section load.
Context (readFile : string → res string) (unmarshal : string → res Spec) (marshal : Spec → res string) (known : list string).

Definition selected (path : string) (m : Mount) : Prop := m_Type m = "bind" ∧ Base (Dir (m_Source m)) = Base path.
#[export] Instance selected_dec path m : Decision (selected path m).
Proof. unfold selected. apply _. Defined.

Definition rewritten (path : string) (m : Mount) : Mount :=
  if decide (selected path m) then mkMount (m_Destination m) (m_Type m) (Base (m_Source m)) (m_Options m) else m.

Definition extra_name (f : string) : Prop := f ≠ "config.json" ∧ (plain_name f ∨ f = "/").

Lemma bind_loop_step i m ms b :
  bind_loop readFile i (m :: ms) b =
  if decide (selected (b_Path b) m) then
    match readFile (m_Source m) with
    | Err e => Err (wrap ("failed to read mount file " +:+ fmt_q (Base (m_Source m))) e)
    | Ok buf => match AddExtraFile (Base (m_Source m)) buf
                        (with_Spec (set_Mounts (<[i := rewritten (b_Path b) m]> (sp_Mounts (b_Spec b))) (b_Spec b)) b) with
                | Err e => Err (wrap ("failed to add extra file " +:+ fmt_q (Base (m_Source m))) e)
                | Ok b' => bind_loop readFile (S i) ms b'
                end
    end
  else bind_loop readFile (S i) ms b.
Proof.
  cbn [bind_loop]. unfold rewritten. destruct (decide (selected (b_Path b) m)) as [[Ht Hs]|Hn].
  - by rewrite !decide_True by done.
  - case_decide as Ht; [|done]. case_decide as Hs; [|done]. by destruct Hn.
Qed.

Lemma bind_loop_Ok ms pre b b' :
  sp_Mounts (b_Spec b) = pre ++ ms → bind_loop readFile (length pre) ms b = Ok b' →
  b_Path b' = b_Path b ∧ b_Spec b' = set_Mounts (pre ++ (rewritten (b_Path b) <$> ms)) (b_Spec b) ∧
  (∀ m, m ∈ ms → selected (b_Path b) m → is_Some (b_extraFiles b' !! Base (m_Source m))) ∧
  (∀ f, is_Some (b_extraFiles b !! f) → is_Some (b_extraFiles b' !! f)) ∧
  (∀ f data, b_extraFiles b' !! f = Some data → b_extraFiles b !! f = Some data ∨
     extra_name f ∧ ∃ m, m ∈ ms ∧ selected (b_Path b) m ∧ f = Base (m_Source m) ∧ readFile (m_Source m) = Ok data).
Proof.
  revert pre b. induction ms as [|m ms IH]; intros pre b Hms.
  { intros [= <-]. rewrite app_nil_r in *. split_and!; try done; [by rewrite <-Hms; destruct b as [? []]|by intros m Hm%elem_of_nil|by left]. }
  rewrite bind_loop_step. case_decide as Hs.
  - destruct (readFile (m_Source m)) as [buf|e] eqn:Hr; [|done].
    destruct (AddExtraFile _ _ _) as [b1|e] eqn:Ha; [|done]. apply AddExtraFile_Ok in Ha as (-> & Hcj & Hname).
    intros H. set (m' := rewritten (b_Path b) m) in *.
    assert (Hins : <[length pre := m']> (sp_Mounts (b_Spec b)) = (pre ++ [m']) ++ ms).
    { rewrite Hms, insert_app_r_alt, Nat.sub_diag by lia. simpl. by rewrite <-app_assoc. }
    rewrite Hins in H. replace (S (length pre)) with (length (pre ++ [m'])) in H by (rewrite length_app; simpl; lia).
    apply IH in H as (Hp & Hsp & Hin & Hmono & Hfrom); [|done]. cbn [b_Path b_Spec b_extraFiles with_Spec] in *. split_and!.
    + done.
    + rewrite Hsp. cbn. by rewrite <-app_assoc.
    + intros m2 [->|Hm2]%elem_of_cons Hs2; [|by apply Hin]. apply Hmono. rewrite lookup_insert_eq. by eexists.
    + intros f Hf. apply Hmono. destruct (decide (f = Base (m_Source m))) as [->|]; [rewrite lookup_insert_eq; by eexists|].
      by rewrite lookup_insert_ne.
    + intros f data Hf. destruct (Hfrom f data Hf) as [Hx|(? & m2 & ? & ? & ? & ?)].
      * destruct (decide (f = Base (m_Source m))) as [->|]; [|left; by rewrite lookup_insert_ne in Hx].
        rewrite lookup_insert_eq in Hx. simplify_eq. right. split; [done|]. exists m. split; [left|done].
      * right. split; [done|]. exists m2. split; [by right|done].
  - intros H. replace (S (length pre)) with (length (pre ++ [m])) in H by (rewrite length_app; simpl; lia).
    apply IH in H as (Hp & Hsp & Hin & Hmono & Hfrom); [|by rewrite <-app_assoc].
    assert (Hm' : rewritten (b_Path b) m = m) by (unfold rewritten; by rewrite decide_False). split_and!; try done.
    + rewrite Hsp. cbn. by rewrite Hm', <-app_assoc.
    + intros m2 [->|Hm2]%elem_of_cons Hs2; [done|by apply Hin].
    + intros f data Hf. destruct (Hfrom f data Hf) as [?|(? & m2 & ? & ?)]; [by left|]. right. split; [done|]. exists m2. split; [by right|done].
Qed.

(** A bundle that loads: its specification is the file's, with the root file system
    at "rootfs", the selected bind mounts made relative, and adapted. *)
Lemma LoadForCreate_Ok path b : LoadForCreate readFile unmarshal known path = Ok b →
  ∃ text spec r, readFile (path_Join [path; "config.json"]) = Ok text ∧ unmarshal text = Ok spec ∧ sp_Root spec = Some r ∧
    b_Spec b = AdaptForVM known (set_Mounts (rewritten path <$> sp_Mounts spec) (set_Root (Some (mkRoot "rootfs" (rt_Readonly r))) spec)) ∧
    (∀ m, m ∈ sp_Mounts spec → selected path m → is_Some (b_extraFiles b !! Base (m_Source m))) ∧
    (∀ f data, b_extraFiles b !! f = Some data →
       extra_name f ∧ ∃ m, m ∈ sp_Mounts spec ∧ selected path m ∧ f = Base (m_Source m) ∧ readFile (m_Source m) = Ok data).
Proof.
  unfold LoadForCreate, Load. case_decide; [done|]. destruct (readFile _) as [text|] eqn:Ht; [|done].
  destruct (unmarshal text) as [spec|] eqn:Hu; [|done]. unfold resolveRootfsPath. cbn [b_Spec b_Path b_extraFiles].
  destruct (sp_Root spec) as [r|] eqn:Hr; [|done]. cbn [foldl res_bind]. unfold TransformBindMounts. cbn [b_Spec set_Root sp_Mounts].
  destruct (bind_loop _ _ _ _) as [b1|] eqn:Hb; [|done]. intros [= <-].
  apply (bind_loop_Ok _ []) in Hb as (_ & Hsp & Hin & _ & Hfrom); [|done]. exists text, spec, r.
  cbn [b_Spec b_extraFiles b_Path with_Spec app] in *. rewrite Hsp. split_and!; try done. intros f data Hf.
  destruct (Hfrom f data Hf) as [Hx|Hx]; [by rewrite lookup_empty in Hx|done].
Qed.
End load.

Lemma write_files_runs env id files w : plain_name id → (∀ p, be_write env p = None) → Forall plain_name files.*1 →
  (∀ f, f ∈ files.*1 → w !! file_of id f ≠ Some Directory) → ∃ w', write_files env (dir_of id) files w = (Ok tt, w').
Proof.
  intros Hid Hw. revert w. induction files as [|[f b] files IH]; intros w Hf Hd; [by eexists|].
  apply Forall_cons in Hf as [Hp Hf]. cbn [write_files fst] in *. unfold bind. rewrite bundle_file by done. unfold os_WriteFile. rewrite Hw.
  assert (Hnd : w !! file_of id f ≠ Some Directory) by (apply Hd; left).
  destruct (IH (<[file_of id f := Regular b]> w) Hf) as [w' Hw'].
  { intros g Hg. destruct (decide (g = f)) as [->|Hne]; [by rewrite lookup_insert_eq|].
    rewrite lookup_insert_ne by (by intros Hx%file_of_inj). apply Hd. by right. }
  exists w'. destruct (w !! file_of id f) as [[]|]; done.
Qed.

(** The names of a bundle's files that the guest takes. *)
Definition guest_name (f : string) : Prop := f ≠ "/" ∧ f ≠ rootfsDir ∧ all_chars (neq_char "\") f = true.

Lemma config_acceptable : acceptable "config.json".
Proof. vm_compute. by split_and!. Qed.

(** A request with acceptable names runs to its end in a guest where nothing fails. *)
Lemma Create_runs env id names l w : plain_name id → Contains id ".." = false → Forall acceptable names →
  (∀ p, be_mkdir env p = None) → (∀ p, be_write env p = None) → (∀ p, under (dir_of id) p → w !! p = None) →
  (∀ f, f ∈ l.*1 → plain_name f ∧ f ≠ rootfsDir) → NoDup l.*1 →
  ∃ w', Create env id names l w = (Ok (dir_of id), w') ∧ ∀ f x, (f, x) ∈ l → w' !! file_of id f = Some (Regular x).
Proof.
  intros Hid Hdots Hacc Hmk Hwr Hempty Hl Hnodup.
  assert (Hplain : Forall plain_name l.*1) by (apply Forall_forall; intros f Hf; by apply Hl).
  set (w1 := <[file_of id rootfsDir := Directory]> (<[dir_of id := Directory]> w)).
  assert (Hw1 : ∀ f, f ∈ l.*1 → w1 !! file_of id f = None).
  { intros f Hf. unfold w1. rewrite !lookup_insert_ne; [apply Hempty, under_file|symmetry; apply file_not_dir|].
    intros Hx%file_of_inj. by apply (Hl f). }
  destruct (write_files_runs env id l w1 Hid Hwr Hplain) as [w' Hw']; [intros f Hf; by rewrite Hw1|].
  exists w'. split; [|intros f x Hf; by apply (write_files_Ok env id Hid l _ _ Hplain Hnodup Hw')].
  unfold Create. rewrite decide_False by (apply Hid). rewrite Hdots, (Contains_char_none id "/") by (apply Hid). cbn [orb].
  rewrite (proj2 (check_names_None names) Hacc), bundle_dir by done.
  unfold bind, on_error, os_Mkdir. rewrite !Hmk, Hempty by (by left). rewrite decide_False by (by intros [? ?]).
  rewrite bundle_file by (done || by vm_compute).
  rewrite lookup_insert_ne, Hempty by (apply under_file || (symmetry; apply file_not_dir)). rewrite decide_False by (by intros [? ?]).
  fold w1. by rewrite Hw'.
Qed.

(** ** Adapting a specification *)

Definition ro_rw (o : string) : string := if decide (o = "ro") then "rw" else o.
Definition mentions_rw (opts : list string) : bool := existsb (λ o, bool_decide (o = "ro") || bool_decide (o = "rw")) opts.

Lemma ensure_loop_spec opts result hasRW :
  ensure_loop opts result hasRW = (result ++ (ro_rw <$> opts), hasRW || mentions_rw opts).
Proof.
  revert result hasRW. induction opts as [|o opts IH]; intros result hasRW; cbn [ensure_loop mentions_rw existsb fmap list_fmap].
  - by rewrite app_nil_r, orb_false_r.
  - unfold ro_rw at 1. case_decide as Ho; rewrite IH, <-app_assoc.
    + subst. by rewrite orb_true_r.
    + rewrite (bool_decide_eq_false_2 (o = "ro")) by done. cbn [orb]. f_equal. by rewrite orb_assoc.
Qed.

Lemma ensureRW_spec opts : ensureRW opts = (ro_rw <$> opts) ++ (if mentions_rw opts then [] else ["rw"]).
Proof. unfold ensureRW. rewrite ensure_loop_spec. cbn. destruct (mentions_rw opts); by rewrite ?app_nil_r. Qed.

(** The options say read-write, and keep saying so. *)
Lemma ensureRW_rw opts : "rw" ∈ ensureRW opts ∧ ("ro" ∉ ensureRW opts) ∧ ensureRW (ensureRW opts) = ensureRW opts.
Proof.
  assert (Hno : "ro" ∉ ensureRW opts).
  { rewrite ensureRW_spec. intros [Hx|Hx]%elem_of_app; [|destruct (mentions_rw opts); set_solver].
    apply list_elem_of_fmap in Hx as (o & Ho & _). unfold ro_rw in Ho. by case_decide. }
  assert (Hrw : "rw" ∈ ensureRW opts).
  { rewrite ensureRW_spec. apply elem_of_app. destruct (mentions_rw opts) eqn:Hm; [left|by right; left].
    unfold mentions_rw in Hm. apply existsb_exists in Hm as (o & Ho%list_elem_of_In & Hb).
    apply list_elem_of_fmap. exists o. split; [|done]. unfold ro_rw. case_decide; [done|].
    apply orb_true_iff in Hb as [Hb|Hb]; apply bool_decide_eq_true in Hb; by rewrite Hb in *. }
  split_and!; try done. set (l := ensureRW opts) in *. clearbody l. rewrite ensureRW_spec.
  assert (Hm : mentions_rw l = true).
  { apply existsb_exists. exists "rw". split; [by apply list_elem_of_In|]. done. }
  rewrite Hm, app_nil_r. rewrite <-(list_fmap_id l) at 2. apply list_fmap_ext. intros i o Ho. unfold ro_rw. case_decide as Hx; [|done].
  subst. destruct Hno. by eapply list_elem_of_lookup_2.
Qed.

(** The first mount at the cgroup directory. *)
Lemma cgroup_mounts_found ms : ∃ i opts, cgroup_mounts ms !! i = Some (mkMount cgroupDir fsTypeCgroup2 fsTypeCgroup2 opts) ∧
  (∀ j m, j < i → cgroup_mounts ms !! j = Some m → m_Destination m ≠ cgroupDir) ∧
  ensureRW opts = opts ∧ "rw" ∈ opts ∧ ("ro" ∉ opts) ∧
  (∀ j, j ≠ i → cgroup_mounts ms !! j = ms !! j) ∧ (∀ m, ms !! i = Some m → m_Destination m = cgroupDir).
Proof.
  unfold cgroup_mounts. destruct (list_find _ ms) as [[i m]|] eqn:E.
  - apply list_find_Some in E as (Hi & Hd & Hmin). exists i, (ensureRW (m_Options m)).
    destruct (ensureRW_rw (m_Options m)) as (H1 & H2 & H3). pose proof (lookup_lt_Some _ _ _ Hi).
    split_and!; try done.
    + by rewrite list_lookup_insert_eq.
    + intros j m' Hj Hm'. rewrite list_lookup_insert_ne in Hm' by lia. by eapply Hmin.
    + intros j Hj. by rewrite list_lookup_insert_ne by lia.
    + intros m' Hm'. by simplify_eq.
  - exists (length ms), ["nosuid"; "noexec"; "nodev"; "rw"]. apply list_find_None in E. rewrite Forall_lookup in E. split_and!; try done.
    + by rewrite lookup_app_r, Nat.sub_diag by lia.
    + intros j m Hj Hm. rewrite lookup_app_l in Hm by lia. by eapply E.
    + right. right. right. left.
    + by apply (bool_decide_unpack ("ro" ∉ _)); vm_compute.
    + intros j Hj. destruct (decide (j < length ms)); [by rewrite lookup_app_l by lia|].
      rewrite lookup_app_r, (lookup_ge_None_2 ms) by lia. apply lookup_ge_None_2. simpl. lia.
    + intros m Hm. rewrite lookup_ge_None_2 in Hm by lia. done.
Qed.

Lemma cgroup_mounts_twice ms : cgroup_mounts (cgroup_mounts ms) = cgroup_mounts ms.
Proof.
  destruct (cgroup_mounts_found ms) as (i & opts & Hi & Hmin & Hrw & _). set (l := cgroup_mounts ms) in *. clearbody l. unfold cgroup_mounts.
  assert (E : list_find (λ m, m_Destination m = cgroupDir) l = Some (i, mkMount cgroupDir fsTypeCgroup2 fsTypeCgroup2 opts)).
  { apply list_find_Some. split_and!; [done|done|]. intros j m Hj Hlt. by eapply Hmin. }
  rewrite E. cbn [m_Options]. rewrite Hrw. by apply list_insert_id.
Qed.

(** A specification adapted for the VM has no network or cgroup namespace and keeps
    the others in order, mounts cgroups read-write and every other mount as it was,
    grants all capabilities and hides nothing; adapting it again changes nothing. *)
Theorem adapted_spec known s :
  let t := AdaptForVM known s in
  AdaptForVM known t = t ∧ sp_Root t = sp_Root s ∧ sp_rest t = sp_rest s ∧
  (∃ i opts, sp_Mounts t !! i = Some (mkMount cgroupDir fsTypeCgroup2 fsTypeCgroup2 opts) ∧ "rw" ∈ opts ∧ ("ro" ∉ opts) ∧
     ∀ j, j ≠ i → sp_Mounts t !! j = sp_Mounts s !! j) ∧
  match sp_Linux s, sp_Linux t with
  | None, None => True
  | Some l, Some l' => lx_ReadonlyPaths l' = [] ∧ lx_MaskedPaths l' = [] ∧ lx_rest l' = lx_rest l ∧
      ∀ ns, In ns (lx_Namespaces l') ↔ In ns (lx_Namespaces l) ∧ ns_Type ns ≠ "network" ∧ ns_Type ns ≠ "cgroup"
  | _, _ => False
  end ∧
  (∀ p, sp_Process t = Some p → pr_Capabilities p = Some (mkCaps known known known known known)).
Proof.
  cbv zeta. split_and!; try done.
  - assert (Hf : ∀ (P : LinuxNamespace → bool) l, List.filter P (List.filter P l) = List.filter P l).
    { intros P l. induction l as [|x l IH]; [done|]. cbn. destruct (P x) eqn:E; [|done]. cbn. rewrite E. by f_equal. }
    unfold AdaptForVM. destruct s as [root ms [pr|] [lx|] rest]; cbn; by rewrite ?cgroup_mounts_twice, ?Hf.
  - destruct (cgroup_mounts_found (sp_Mounts s)) as (i & opts & ? & _ & _ & ? & ? & ? & _). by exists i, opts.
  - unfold AdaptForVM. destruct s as [root ms pr lx rest]. cbn. destruct lx as [[nss ? ? ?]|]; [|done]. cbn. split_and!; try done.
    intros ns. rewrite filter_In, andb_true_iff, !negb_true_iff, !bool_decide_eq_false. done.
  - intros p. unfold AdaptForVM. cbn. destruct (sp_Process s); [|done]. cbn. by intros [= <-].
Qed.

(** ** What the guest is given *)

(** The specification the container is created from, as it was ([spec], with the root
    [r]) and as the guest reads it. *)
Record guest_spec (known : list string) (path : string) (spec : Spec) (r : Root) (t : Spec) : Prop := mkGuestSpec {
  gs_root : sp_Root t = Some (mkRoot "rootfs" (rt_Readonly r));
  gs_rest : sp_rest t = sp_rest spec;
  gs_cgroup : ∃ i opts, sp_Mounts t !! i = Some (mkMount cgroupDir "cgroup2" "cgroup2" opts) ∧ "rw" ∈ opts ∧ ("ro" ∉ opts);
  gs_mounts : ∀ j m, sp_Mounts spec !! j = Some m → m_Destination m ≠ cgroupDir →
    sp_Mounts t !! j = Some (if decide (selected path m) then mkMount (m_Destination m) (m_Type m) (Base (m_Source m)) (m_Options m) else m);
  gs_linux : match sp_Linux spec, sp_Linux t with
    | None, None => True
    | Some l, Some l' => lx_ReadonlyPaths l' = [] ∧ lx_MaskedPaths l' = [] ∧ lx_rest l' = lx_rest l ∧
        ∀ ns, In ns (lx_Namespaces l') ↔ In ns (lx_Namespaces l) ∧ ns_Type ns ≠ "network" ∧ ns_Type ns ≠ "cgroup"
    | _, _ => False
    end;
  gs_process : match sp_Process spec, sp_Process t with
    | None, None => True
    | Some p, Some p' => p' = mkProcess (Some (mkCaps known known known known known)) (pr_rest p)
    | _, _ => False
    end
}.

Lemma guest_spec_loaded known path spec r :
  guest_spec known path spec r
    (AdaptForVM known (set_Mounts (rewritten path <$> sp_Mounts spec) (set_Root (Some (mkRoot "rootfs" (rt_Readonly r))) spec))).
Proof.
  set (s := set_Mounts _ _). destruct (adapted_spec known s) as (_ & Hroot & Hrest & _ & Hlinux & _). cbv zeta in *.
  destruct (cgroup_mounts_found (rewritten path <$> sp_Mounts spec)) as (i & opts & Hi & _ & _ & Hrw & Hro & Hj & Hd). constructor; try done.
  - by exists i, opts.
  - intros j m Hm Hne. change (sp_Mounts (AdaptForVM known s)) with (cgroup_mounts (rewritten path <$> sp_Mounts spec)).
    assert (E : (rewritten path <$> sp_Mounts spec) !! j = Some (rewritten path m)) by (by rewrite list_lookup_fmap, Hm).
    rewrite Hj, E; [done|]. intros ->. apply Hne. rewrite <- (Hd _ E). unfold rewritten. by case_decide.
  - unfold s, AdaptForVM. cbn. by destruct (sp_Process spec).
Qed.

(** C24: From the host's bundle to the guest's, when the bundle loads and
    marshals and no call of the guest's file system fails, for a plain
    bundle id with nothing there yet and extra files whose names the guest
    takes (no backslash, not the root, not "rootfs" - the host lets these
    pass): the guest's config.json is the marshalled specification with the
    root at "rootfs", every selected bind mount (one whose source's
    directory has the bundle directory's last component, even elsewhere)
    made relative to the bundle, the other mounts as they were, cgroups
    mounted as cgroup2 read-write, no network or cgroup namespace, all
    capabilities and nothing masked; and the file of every selected mount,
    unless another has the same last component, is beside it under the name
    the mount now has. *)
Theorem bundle_reaches_guest readFile unmarshal marshal known path b files env id names l w :
  LoadForCreate readFile unmarshal known path = Ok b → Files marshal b = Ok files →
  (∀ f, is_Some (b_extraFiles b !! f) → guest_name f) →
  plain_name id → Contains id ".." = false → (∀ p, under (dir_of id) p → w !! p = None) →
  (∀ p, be_mkdir env p = None) → (∀ p, be_write env p = None) →
  names ≡ₚ (map_to_list files).*1 → l ≡ₚ map_to_list files →
  ∃ text spec r t adapted w', readFile (path_Join [path; "config.json"]) = Ok text ∧ unmarshal text = Ok spec ∧ sp_Root spec = Some r ∧
    Create env id names l w = (Ok (dir_of id), w') ∧
    guest_spec known path spec r t ∧ marshal t = Ok adapted ∧ w' !! file_of id "config.json" = Some (Regular adapted) ∧
    ∀ m, m ∈ sp_Mounts spec → selected path m →
      (∀ m', m' ∈ sp_Mounts spec → selected path m' → Base (m_Source m') = Base (m_Source m) → m_Source m' = m_Source m) →
      ∃ data, readFile (m_Source m) = Ok data ∧ w' !! file_of id (Base (m_Source m)) = Some (Regular data).
Proof.
  intros Hload Hfiles Hnames Hid Hdots Hempty Hmk Hwr Hpn Hpl.
  apply LoadForCreate_Ok in Hload as (text & spec & r & Ht & Hu & Hroot & Hspec & Hin & Hfrom). exists text, spec, r, (b_Spec b).
  unfold Files in Hfiles. destruct (marshal (b_Spec b)) as [adapted|] eqn:Hm; [|done]. injection Hfiles as <-.
  set (files := <["config.json" := adapted]> (b_extraFiles b)) in *.
  assert (Hacc : ∀ f, f ∈ (map_to_list files).*1 → acceptable f ∧ f ≠ rootfsDir).
  { intros f Hf. apply list_elem_of_fmap in Hf as ([f' x] & -> & Hx). apply elem_of_map_to_list in Hx. simpl.
    destruct (decide (f' = "config.json")) as [->|Hne]; [split; [apply config_acceptable|done]|].
    unfold files in Hx. rewrite lookup_insert_ne in Hx by done. destruct (Hnames f') as (H1 & H2 & H3); [by eexists|].
    destruct (Hfrom _ _ Hx) as [(_ & [?|?]) _]; [by split|done]. }
  destruct (Create_runs env id names l w) as (w' & Hw' & Hwritten); [done|done| |done|done|done| | |].
  { apply Forall_forall. intros f Hf. apply Hacc. by rewrite <-Hpn. }
  { intros f Hf. rewrite Hpl in Hf. destruct (Hacc f Hf) as [[? _] ?]. done. }
  { rewrite Hpl. apply NoDup_fst_map_to_list. }
  assert (Hget : ∀ f x, files !! f = Some x → w' !! file_of id f = Some (Regular x)).
  { intros f x Hf. apply Hwritten. rewrite Hpl. by apply elem_of_map_to_list. }
  exists adapted, w'. split_and!; try done.
  { rewrite Hspec. apply guest_spec_loaded. }
  { apply Hget. unfold files. by rewrite lookup_insert_eq. }
  intros m Hmm Hs Huniq. destruct (Hin m Hmm Hs) as [data Hx]. exists data.
  destruct (Hfrom _ _ Hx) as [[Hcj _] (m' & Hm' & Hs' & Hb & Hr)]. rewrite (Huniq m' Hm' Hs' (eq_sym Hb)) in Hr. split; [done|].
  apply Hget. unfold files. by rewrite lookup_insert_ne.
Qed.

(** ** Where the two sides disagree *)

(** A name with a backslash passes on the host and is refused by the guest, and so
    is the root. *)
Lemma host_accepts_guest_refuses b data :
  is_ok (AddExtraFile "a\b" data b) = true ∧ is_Some (check_names ["a\b"]) ∧
  is_ok (AddExtraFile "/" data b) = true ∧ is_Some (check_names ["/"]).
Proof. vm_compute. split_and!; try done; by eexists. Qed.

(** A bind mount from anywhere is taken for one from the bundle when the last
    component of its directory is that of the bundle. *)
Lemma foreign_mount_selected opts :
  selected "/run/containerd/io.containerd.runtime.v2.task/default/c1" (mkMount "/x" "bind" "/home/other/c1/secret" opts).
Proof. apply (bool_decide_unpack (selected _ _)). vm_compute. exact I. Qed.

(** ** Concrete bundles *)

Definition demo_tree : gmap string node := {[ bundleRoot := Directory ]}.
Definition demo_benv : bundleEnv := mkBundleEnv (λ _, None) (λ _, None) (λ _, true).

Lemma demo_tree_ok : tree_ok demo_tree.
Proof.
  split; [done|]. intros id p Hu [x Hx]. exfalso. unfold demo_tree in Hx. apply lookup_singleton_Some in Hx as [<- _].
  destruct Hu as [Hu|Hu].
  - apply (f_equal String.length) in Hu. unfold dir_of in Hu. rewrite !str_length_app in Hu. simpl in Hu. lia.
  - apply HasPrefix_true in Hu as [r Hu]. apply (f_equal String.length) in Hu. unfold dir_of in Hu.
    rewrite !str_length_app in Hu. simpl in Hu. lia.
Qed.

Lemma bundle_all_or_nothing_witness :
  is_ok (Create demo_benv "c1" ["config.json"] [("config.json", "{}")] demo_tree).1 = true ∧
  (Create demo_benv "c1" ["a/b"] [("a/b", "x")] demo_tree).2 = demo_tree ∧
  (∀ p, ¬ under (dir_of "c1") p →
     (Create demo_benv "c1" ["config.json"] [("config.json", "{}")] demo_tree).2 !! p = demo_tree !! p).
Proof.
  pose proof (bundle_all_or_nothing demo_benv "c1" ["config.json"] [("config.json", "{}")] demo_tree demo_tree_ok
    (reflexivity _) (NoDup_singleton _)) as H1.
  pose proof (bundle_all_or_nothing demo_benv "c1" ["a/b"] [("a/b", "x")] demo_tree demo_tree_ok
    (reflexivity _) (NoDup_singleton _)) as H2.
  split; [vm_compute; reflexivity|]. split; [exact (proj2 H2 (λ _, eq_refl))|].
  assert (E : ∃ r w', Create demo_benv "c1" ["config.json"] [("config.json", "{}")] demo_tree = (Ok r, w'))
    by (eexists _, _; vm_compute; reflexivity).
  destruct E as (r & w' & E). rewrite E in H1 |- *.
  destruct H1 as (_ & _ & _ & _ & _ & _ & _ & _ & H). exact H.
Defined.

Definition demo_spec : Spec :=
  mkSpec (Some (mkRoot "/host/rootfs" false)) [mkMount "/etc/hosts" "bind" "/bundles/c1/hosts" ["ro"]] None None "".
Definition demo_read (p : string) : res string :=
  if decide (p = "/bundles/c1/hosts") then Ok "127.0.0.1" else if decide (p = "/bundles/c1/config.json") then Ok "spec" else Err (errorf "no such file").
Definition demo_bundle : Bundle :=
  mkBundle "/bundles/c1" (AdaptForVM ["CAP_KILL"] (mkSpec (Some (mkRoot "rootfs" false))
    [mkMount "/etc/hosts" "bind" "hosts" ["ro"]] None None "")) "/host/rootfs" {[ "hosts" := "127.0.0.1" ]}.

Lemma bundle_reaches_guest_witness :
  ∃ w', Create demo_benv "c1" ["config.json"; "hosts"] [("hosts", "127.0.0.1"); ("config.json", "adapted")] demo_tree
        = (Ok (dir_of "c1"), w') ∧
    w' !! file_of "c1" "config.json" = Some (Regular "adapted") ∧ w' !! file_of "c1" "hosts" = Some (Regular "127.0.0.1").
Proof.
  destruct (bundle_reaches_guest demo_read (λ _, Ok demo_spec) (λ _, Ok "adapted") ["CAP_KILL"] "/bundles/c1" demo_bundle
    (<["config.json" := "adapted"]> {[ "hosts" := "127.0.0.1" ]}) demo_benv "c1" ["config.json"; "hosts"]
    [("hosts", "127.0.0.1"); ("config.json", "adapted")] demo_tree) as (text & spec & r & t & ad & w' & _ & Hu & _ & Hc & Ht & Had & Hcj & Hm).
  - vm_compute. reflexivity.
  - reflexivity.
  - intros f [x Hf]. unfold demo_bundle in Hf. cbn [b_extraFiles] in Hf. apply lookup_singleton_Some in Hf as [<- _]. vm_compute. by split_and!.
  - vm_compute. by split_and!.
  - reflexivity.
  - intros p Hp. apply eq_None_not_Some. intros Hx. destruct demo_tree_ok as [_ Ht]. destruct (Ht "c1" p Hp Hx) as [y Hy]. vm_compute in Hy. discriminate.
  - done.
  - done.
  - vm_compute. reflexivity.
  - vm_compute. apply perm_swap.
  - exists w'. injection Hu as <-. injection Had as <-. split; [exact Hc|]. split; [exact Hcj|].
    destruct (Hm (mkMount "/etc/hosts" "bind" "/bundles/c1/hosts" ["ro"])) as (d & Hd & Hw).
    + left.
    + apply (bool_decide_unpack (selected _ _)). vm_compute. exact I.
    + intros m' [->|[]%elem_of_nil]%elem_of_cons _ _. reflexivity.
    + vm_compute in Hd. injection Hd as <-. exact Hw.
Defined.
