(* ===== verification/Commit.v ===== *)
(** The commit command: cmd/spinbox-commit/main.go.

    The container's task, the lease and what the command writes to containerd's
    stores are the state; what containerd answers is the environment.  Digests and
    JSON are parameters: a blob is the document it encodes. *)
From S2P Require Import Prelude GoStrings GoText GoState.
Open Scope Z_scope.

(** ** Data *)

Record options := mkOptions {
  o_imageRef : string; o_container : string; o_snapshot : string; o_sourceImage : string; o_snapshotter : string
}.

Record Descriptor := mkDescriptor { d_MediaType : string; d_Digest : string; d_Size : Z }.
Record Image := mkImage { im_Created : Z; im_DiffIDs : list string; im_History : list (string * string); im_rest : string }.
Record Manifest := mkManifest { mf_SchemaVersion : Z; mf_MediaType : string; mf_Config : Descriptor; mf_Layers : list Descriptor }.

Inductive document := ConfigDoc (c : Image) | ManifestDoc (m : Manifest).
Inductive taskStatus := Running | Paused | Created | Stopped | UnknownStatus.

#[export] Instance taskStatus_eq_dec : EqDecision taskStatus.
Proof. solve_decision. Defined.

Record cworld := mkWorld {
  cw_task : taskStatus;
  cw_leases : Z;
  cw_released : Z;   (** how often a lease was asked to be released *)
  cw_blobs : gmap string (document * gmap string string);
  cw_images : gmap string string;
  cw_diffs : list (string * string * bool * taskStatus)   (** the diffs asked for, with the task's status then *)
}.

Definition set_task t w := mkWorld t (cw_leases w) (cw_released w) (cw_blobs w) (cw_images w) (cw_diffs w).
Definition set_leases n w := mkWorld (cw_task w) n (cw_released w) (cw_blobs w) (cw_images w) (cw_diffs w).
Definition set_blobs b w := mkWorld (cw_task w) (cw_leases w) (cw_released w) b (cw_images w) (cw_diffs w).
Definition set_images i w := mkWorld (cw_task w) (cw_leases w) (cw_released w) (cw_blobs w) i (cw_diffs w).
Definition set_diffs d w := mkWorld (cw_task w) (cw_leases w) (cw_released w) (cw_blobs w) (cw_images w) d.
Definition set_released n w := mkWorld (cw_task w) (cw_leases w) n (cw_blobs w) (cw_images w) (cw_diffs w).

Record containerInfo := mkInfo { ci_SnapshotKey : string; ci_Image : string; ci_Snapshotter : string }.

Record commitEnv := mkCommitEnv {
  ce_connect : option error;
  ce_lease : option error;
  ce_leaseDone : option error;
  ce_container : option error;
  ce_info : res containerInfo;
  ce_loadTask : option error;
  ce_statusErr : option error;
  ce_pause : option error;
  ce_resume : option error;
  ce_image : string → res Descriptor;
  ce_diff : res Descriptor;
  ce_layerInfo : res (gmap string string);
  ce_parse : string → res string;
  ce_manifest : Descriptor → res Manifest;
  ce_config : Descriptor → res Image;
  ce_marshal : document → res string;
  ce_digest : string → string;
  ce_now : Z;
  ce_writeConfig : option error;
  ce_writeManifest : option error;
  ce_create : option error;
  ce_update : option error
}.

Definition answer {W} (e : option error) : ST W () := lift (match e with Some e => Err e | None => Ok tt end).

(** ** The command *)

Definition validateOptions (o : options) : option error :=
  if decide (o_imageRef o = "") then Some (errorf "--image is required")
  else if decide (o_container o ≠ "" ∧ o_snapshot o ≠ "") then Some (errorf "--container and --snapshot are mutually exclusive")
  else if decide (o_container o = "" ∧ o_snapshot o = "") then Some (errorf "one of --container or --snapshot is required")
  else if decide (o_snapshot o ≠ "" ∧ o_sourceImage o = "") then Some (errorf "--source-image is required with --snapshot")
  else None.

Definition quiescedLabel : string := "containerd.io/snapshot/erofs.quiesced".
Definition uncompressedLabel : string := "containerd.io/uncompressed".

Record quiesceState := mkQuiesce { qs_frozen : bool; qs_resume : bool }.

Section commit.
Context (env : commitEnv).

Definition pause : ST cworld () := λ w, match ce_pause env with Some e => (Err e, w) | None => (Ok tt, set_task Paused w) end.
Definition resume : ST cworld () := λ w, match ce_resume env with Some e => (Err e, w) | None => (Ok tt, set_task Running w) end.

Definition quiesceContainer : ST cworld quiesceState := λ w,
  match ce_loadTask env with
  | Some e => if decide (ekind e = ErrNotFound) then (Ok (mkQuiesce false false), w) else (Err (wrap "load task" e), w)
  | None =>
      match ce_statusErr env with
      | Some e => (Err (wrap "task status" e), w)
      | None =>
          match cw_task w with
          | Running => (wrapping "pause container (freeze guest)" pause ;;! ret (mkQuiesce true true)) w
          | Paused => (Ok (mkQuiesce true false), w)
          | _ => (Ok (mkQuiesce false false), w)
          end
      end
  end.

(** The diff is asked for with or without the quiesced label. *)
Definition CreateDiff (key snapshotter : string) (quiesced : bool) : ST cworld Descriptor := λ w,
  (ce_diff env, set_diffs (cw_diffs w ++ [(key, snapshotter, quiesced, cw_task w)]) w).

Definition layerDiffID (layer : Descriptor) : res string :=
  match ce_layerInfo env with
  | Err e => Err (wrap "layer blob info" e)
  | Ok labels =>
      match ce_parse env (default "" (labels !! uncompressedLabel)) with
      | Err e => Err (wrap ("layer " +:+ d_Digest layer +:+ " missing " +:+ uncompressedLabel +:+ " label") e)
      | Ok d => Ok d
      end
  end.

Definition WriteBlob (fails : option error) (digest : string) (doc : document) (labels : gmap string string) : ST cworld () :=
  answer fails ;;! modify (λ w, set_blobs (<[digest := (doc, labels)]> (cw_blobs w)) w).

Definition layer_label (i : nat) : string := "containerd.io/gc.ref.content.l." +:+ fmt_d (Z.of_nat i).
Definition config_label : string := "containerd.io/gc.ref.content.config".

Fixpoint label_layers (i : nat) (layers : list Descriptor) (labels : gmap string string) : gmap string string :=
  match layers with
  | [] => labels
  | l :: layers' => label_layers (S i) layers' (<[layer_label i := d_Digest l]> labels)
  end.

Definition MediaTypeImageManifest : string := "application/vnd.oci.image.manifest.v1+json".

Definition commit_config (cfg : Image) (diffID sourceImage : string) : Image :=
  mkImage (ce_now env) (im_DiffIDs cfg ++ [diffID])
    (im_History cfg ++ [("spinbox-commit", "committed from " +:+ sourceImage)]) (im_rest cfg).

Definition register (ref digest : string) : ST cworld () := λ w,
  let set := set_images (<[ref := digest]> (cw_images w)) w in
  match ce_create env with
  | None => (Ok tt, set)
  | Some e =>
      if decide (ekind e = ErrAlreadyExists) then
        match ce_update env with Some e' => (Err (wrap ("update image " +:+ ref) e'), w) | None => (Ok tt, set) end
      else (Err (wrap ("create image " +:+ ref) e), w)
  end.

Definition buildImage (ref : string) (srcTarget layerDesc : Descriptor) (diffID sourceImage : string) : ST cworld Descriptor :=
  do! parent := wrapping "read parent manifest" (lift (ce_manifest env srcTarget)) in
  do! cfg := wrapping "read parent config" (lift (ce_config env (mf_Config parent))) in
  let cfg' := commit_config cfg diffID sourceImage in
  do! configBytes := wrapping "marshal config" (lift (ce_marshal env (ConfigDoc cfg'))) in
  let configDesc := mkDescriptor (d_MediaType (mf_Config parent)) (ce_digest env configBytes) (Z.of_nat (String.length configBytes)) in
  wrapping "write config" (WriteBlob (ce_writeConfig env) (d_Digest configDesc) (ConfigDoc cfg') ∅) ;;!
  let manifest := mkManifest (if mf_SchemaVersion parent =? 0 then 2 else mf_SchemaVersion parent) MediaTypeImageManifest
                    configDesc (mf_Layers parent ++ [layerDesc]) in
  do! manifestBytes := wrapping "marshal manifest" (lift (ce_marshal env (ManifestDoc manifest))) in
  let manifestDesc := mkDescriptor MediaTypeImageManifest (ce_digest env manifestBytes) (Z.of_nat (String.length manifestBytes)) in
  let labels := label_layers 0 (mf_Layers manifest) {[ config_label := d_Digest configDesc ]} in
  wrapping "write manifest" (WriteBlob (ce_writeManifest env) (d_Digest manifestDesc) (ManifestDoc manifest) labels) ;;!
  register ref (d_Digest manifestDesc) ;;!
  ret manifestDesc.

(** From the source image on. *)
Definition commit_source (ref key sourceImage snapshotter : string) (frozen : bool) : ST cworld () :=
  do! src := wrapping ("get source image " +:+ sourceImage) (lift (ce_image env sourceImage)) in
  do! layer := wrapping ("create diff from snapshot " +:+ key) (CreateDiff key snapshotter frozen) in
  do! diffID := lift (layerDiffID layer) in
  buildImage ref src layer diffID sourceImage ;;!
  ret tt.

(** The deferred resume: its error is the result when there is no other. *)
Definition resuming (q : quiesceState) (m : ST cworld ()) : ST cworld () := λ w,
  let '(r, w1) := m w in
  if qs_resume q then
    match resume w1 with
    | (Err e, w2) => (match r with Ok _ => Err (wrap "resume container after commit" e) | Err _ => r end, w2)
    | (Ok _, w2) => (r, w2)
    end
  else (r, w1).

Definition resolve_and_commit (o : options) : ST cworld () :=
  if decide (o_container o ≠ "") then
    wrapping ("load container " +:+ o_container o) (answer (ce_container env)) ;;!
    do! info := wrapping "container info" (lift (ce_info env)) in
    if decide (ci_SnapshotKey info = "") then fail (errorf ("container " +:+ o_container o +:+ " has no rootfs snapshot"))
    else if decide (ci_Image info = "") then fail (errorf ("container " +:+ o_container o +:+ " has no source image recorded"))
    else
      do! q := quiesceContainer in
      resuming q (commit_source (o_imageRef o) (ci_SnapshotKey info) (ci_Image info) (ci_Snapshotter info) (qs_frozen q))
  else commit_source (o_imageRef o) (o_snapshot o) (o_sourceImage o) (o_snapshotter o) false.

(** The deferred release of the lease: when it fails the lease stays, and only a
    warning is printed. *)
Definition leaseDone (w : cworld) : cworld :=
  let w1 := set_released (cw_released w + 1) w in
  match ce_leaseDone env with Some _ => w1 | None => set_leases (cw_leases w1 - 1) w1 end.

Definition run (o : options) : ST cworld () :=
  wrapping "connect containerd" (answer (ce_connect env)) ;;!
  wrapping "create lease" (answer (ce_lease env)) ;;!
  modify (λ w, set_leases (cw_leases w + 1) w) ;;!
  λ w, let '(r, w1) := resolve_and_commit o w in (r, leaseDone w1).

(** The exit status of the process. *)
Definition main (o : options) (w : cworld) : Z * cworld :=
  match validateOptions o with
  | Some _ => (2, w)
  | None => match run o w with (Ok _, w') => (0, w') | (Err _, w') => (1, w') end
  end.
End commit.

(** ** The container goes on running *)

(** Building the image leaves the task and the leases alone. *)
Definition same_task (w w' : cworld) : Prop :=
  cw_task w' = cw_task w ∧ cw_leases w' = cw_leases w ∧ cw_released w' = cw_released w ∧ cw_diffs w' = cw_diffs w.

#[export] Instance same_task_preorder : PreOrder same_task.
Proof. split; [done|]. intros w1 w2 w3 (?&?&?&?) (?&?&?&?). split_and!; congruence. Qed.

Section proofs.
Context (env : commitEnv).

Lemma preserves_answer e : preserves same_task (answer e).
Proof. apply preserves_lift, _. Qed.

Lemma WriteBlob_same e d doc ls : preserves same_task (WriteBlob e d doc ls).
Proof. apply preserves_bind; [apply _|apply preserves_answer|]. by intros [] w. Qed.

Lemma register_same ref d : preserves same_task (register env ref d).
Proof. intros w. unfold register. destruct (ce_create env); [|done]. case_decide; [|done]. by destruct (ce_update env). Qed.

Lemma buildImage_same ref src layer diffID si : preserves same_task (buildImage env ref src layer diffID si).
Proof.
  unfold buildImage. repeat (apply preserves_bind; [apply _| |intros ?]); try apply preserves_wrapping;
    try apply preserves_lift; try apply WriteBlob_same; try apply register_same; try apply preserves_ret; apply _.
Qed.

(** At most one diff is made, with the task as it is. *)
Lemma commit_source_spec ref key si sn frozen w :
  let w' := (commit_source env ref key si sn frozen w).2 in
  cw_task w' = cw_task w ∧ cw_leases w' = cw_leases w ∧ cw_released w' = cw_released w ∧
  (cw_diffs w' = cw_diffs w ∨ cw_diffs w' = cw_diffs w ++ [(key, sn, frozen, cw_task w)]).
Proof.
  cbv zeta. unfold commit_source, bind, wrapping, lift. destruct (ce_image env si) as [src|]; [|split_and!; auto].
  unfold CreateDiff. destruct (ce_diff env) as [layer|]; [|cbn; split_and!; auto].
  destruct (layerDiffID env layer) as [diffID|]; [|cbn; split_and!; auto].
  pose proof (buildImage_same ref src layer diffID si (set_diffs (cw_diffs w ++ [(key, sn, frozen, cw_task w)]) w)) as (H1 & H2 & H3 & H4).
  destruct (buildImage _ _ _ _ _ _ _) as [[d|e] w']; cbn in *; rewrite H1, H2, H3, H4; auto.
Qed.
End proofs.

(** What a diff must find: a task that does not run, and the label exactly when it
    is paused. *)
Definition quiet_diff (d : string * string * bool * taskStatus) : Prop := d.2 ≠ Running ∧ (d.1.2 = true ↔ d.2 = Paused).

(** The task is as it was, or resuming it failed and the command says so. *)
Definition task_kept (env : commitEnv) (w : cworld) (r : res () * cworld) : Prop :=
  cw_task r.2 = cw_task w ∨ cw_task w = Running ∧ cw_task r.2 = Paused ∧ is_Some (ce_resume env) ∧ is_ok r.1 = false.

Definition kept (env : commitEnv) (w : cworld) (r : res () * cworld) : Prop :=
  (cw_leases r.2 = cw_leases w ∧ cw_released r.2 = cw_released w) ∧ task_kept env w r ∧
  ∃ l, cw_diffs r.2 = cw_diffs w ++ l ∧ (length l ≤ 1)%nat ∧ (ce_loadTask env = None → Forall quiet_diff l).

Lemma kept_none env w e : kept env w (Err e, w).
Proof. split_and!; [done|done|by left|]. exists []. rewrite app_nil_r. split_and!; [done|simpl; lia|by constructor]. Qed.

(** A commit from a source that is quiet enough. *)
Lemma kept_source env ref key si sn frozen w :
  (ce_loadTask env = None → quiet_diff (key, sn, frozen, cw_task w)) →
  kept env w (commit_source env ref key si sn frozen w).
Proof.
  intros Hq. destruct (commit_source_spec env ref key si sn frozen w) as (Ht & Hl & Hr & Hd). split_and!; [done|done|by left|].
  destruct Hd as [Hd|Hd]; rewrite Hd; [exists []; rewrite app_nil_r|eexists]; (split_and!; [reflexivity|simpl; lia|]); [by constructor|].
  intros H. constructor; [by apply Hq|constructor].
Qed.

Lemma kept_container env o w : o_container o ≠ "" → kept env w (resolve_and_commit env o w).
Proof.
  intros Hc. unfold resolve_and_commit. rewrite decide_True by done. unfold bind, wrapping, answer, lift.
  destruct (ce_container env); [apply kept_none|]. destruct (ce_info env) as [info|]; [|apply kept_none].
  case_decide; [apply kept_none|]. case_decide; [apply kept_none|]. cbv beta.
  unfold quiesceContainer. destruct (ce_loadTask env) as [e|] eqn:El.
  { case_decide; [|apply kept_none]. unfold resuming. cbn [qs_resume qs_frozen].
    pose proof (kept_source env (o_imageRef o) (ci_SnapshotKey info) (ci_Image info) (ci_Snapshotter info) false w) as Hk.
    destruct (commit_source _ _ _ _ _ _ w). apply Hk. by rewrite El. }
  destruct (ce_statusErr env); [apply kept_none|].
  destruct (cw_task w) eqn:Et.
  1: { unfold bind, wrapping, pause. destruct (ce_pause env); [apply kept_none|]. cbn [ret]. unfold resuming. cbn [qs_resume qs_frozen].
    set (w1 := set_task Paused w).
    destruct (commit_source_spec env (o_imageRef o) (ci_SnapshotKey info) (ci_Image info) (ci_Snapshotter info) true w1) as (Ht & Hl & Hr & Hd).
    destruct (commit_source _ _ _ _ _ _ w1) as [r w2]. cbn [snd] in *.
    assert (Hdd : ∃ l, cw_diffs w2 = cw_diffs w ++ l ∧ (length l ≤ 1)%nat ∧ Forall quiet_diff l).
    { destruct Hd as [->| ->]; [exists []; rewrite app_nil_r|eexists]; (split_and!; [reflexivity|simpl; lia|]); repeat constructor; done. }
    unfold resume, kept. destruct (ce_resume env) as [e|] eqn:Er; cbn [fst snd set_task cw_leases cw_task cw_diffs].
    - split_and!; [done|done|right; split_and!; [done|done|by eexists|by destruct r]|]. destruct Hdd as (l & ? & ? & ?). by exists l.
    - split_and!; [done|done|by left|]. destruct Hdd as (l & ? & ? & ?). by exists l. }
  all: unfold resuming; cbn [qs_resume qs_frozen];
    match goal with |- context [commit_source ?v ?a ?b ?c ?d ?f ?x] => pose proof (kept_source v a b c d f x) as Hk;
      destruct (commit_source v a b c d f x) end;
    apply Hk; intros _; unfold quiet_diff; cbn; rewrite Et; done.
Qed.

(** Before a lease is made nothing has happened. *)
Definition committed (env : commitEnv) (o : options) (w : cworld) (r : res () * cworld) : Prop :=
  task_kept env w r ∧
  ∃ l, cw_diffs r.2 = cw_diffs w ++ l ∧ (length l ≤ 1)%nat ∧
    (o_container o ≠ "" → ce_loadTask env = None → Forall quiet_diff l).

Lemma committed_resolve env o w :
  committed env o w (resolve_and_commit env o w) ∧
  cw_leases (resolve_and_commit env o w).2 = cw_leases w ∧ cw_released (resolve_and_commit env o w).2 = cw_released w.
Proof.
  unfold committed. destruct (decide (o_container o = "")) as [Hc|Hc].
  - unfold resolve_and_commit. rewrite decide_False by (by intros ?).
    destruct (commit_source_spec env (o_imageRef o) (o_snapshot o) (o_sourceImage o) (o_snapshotter o) false w) as (Ht & Hl & Hr & Hd).
    destruct (commit_source _ _ _ _ _ _ w) as [r w2]. cbn [fst snd] in *. split; [split; [by left|]|done].
    destruct Hd as [->| ->]; [exists []; rewrite app_nil_r|eexists]; (split_and!; [reflexivity|simpl; lia|done]).
  - destruct (kept_container env o w Hc) as ((Hl & Hr) & Ht & l & Hd & Hlen & Hq). split; [split; [done|]|done].
    exists l. by split_and!.
Qed.

(** C22: spinbox-commit, whatever containerd answers to each of its calls (a
    pause or a resume that fails being one that did nothing, and nobody else
    changing the task meanwhile): without a lease it fails and nothing has
    happened; with one, the lease is asked to be released exactly once, and
    is released unless that very call fails, which is only a warning. The
    task is left as it was found, unless resuming it failed, and then the
    command fails too. At most one diff is made, and the diff of a container
    that has a task is made while the task does not run, with the label that
    skips the lock exactly when it is paused. *)
Theorem commit_keeps_container env o w :
  let r := run env o w in
  let leased := ce_connect env = None ∧ ce_lease env = None in
  (¬ leased → is_ok r.1 = false ∧ r.2 = w) ∧
  (leased → cw_released r.2 = cw_released w + 1 ∧
    cw_leases r.2 = cw_leases w + match ce_leaseDone env with None => 0 | Some _ => 1 end) ∧
  task_kept env w r ∧
  ∃ l, cw_diffs r.2 = cw_diffs w ++ l ∧ (length l ≤ 1)%nat ∧
    (o_container o ≠ "" → ce_loadTask env = None → Forall quiet_diff l).
Proof.
  cbv zeta. unfold run, bind, wrapping, answer, lift.
  assert (Hnone : ∀ e, committed env o w (Err e, w)).
  { intros e. split; [by left|]. exists []. rewrite app_nil_r. split_and!; [done|simpl; lia|by constructor]. }
  destruct (ce_connect env); [split_and!; [done|by intros [? _]|apply Hnone..]|].
  destruct (ce_lease env); [split_and!; [done|by intros [_ ?]|apply Hnone..]|]. clear Hnone. cbn [modify].
  destruct (committed_resolve env o (set_leases (cw_leases w + 1) w)) as ([Ht Hd] & Hl & Hr).
  destruct (resolve_and_commit env o (set_leases (cw_leases w + 1) w)) as [r w2]. unfold leaseDone, task_kept in *.
  destruct (ce_leaseDone env); cbn [fst snd set_released set_leases cw_leases cw_released cw_task cw_diffs] in *;
    (split_and!; [by intros []|intros _; lia|done|done]).
Qed.

(** ** The image *)

Lemma layer_label_inj i j : Z.of_nat i < two63 → Z.of_nat j < two63 → layer_label i = layer_label j → i = j.
Proof.
  intros Hi Hj H. unfold layer_label in H.
  assert (Hf : fmt_d (Z.of_nat i) = fmt_d (Z.of_nat j)).
  { revert H. generalize "containerd.io/gc.ref.content.l." as p. induction p as [|a p IH]; [done|]. intros [= H]. by apply IH. }
  pose proof (Atoi_fmt_d (Z.of_nat i)) as H1. rewrite Hf, Atoi_fmt_d in H1 by lia. specialize (H1 ltac:(lia)). simplify_eq. lia.
Qed.

Lemma layer_label_config i : layer_label i ≠ config_label.
Proof. done. Qed.

Lemma label_layers_other layers i labels k : (∀ j, (i ≤ j < i + length layers)%nat → k ≠ layer_label j) →
  label_layers i layers labels !! k = labels !! k.
Proof.
  revert i labels. induction layers as [|l layers IH]; intros i labels Hk; [done|]. cbn [label_layers length] in *.
  rewrite IH by (intros j Hj; apply Hk; lia). rewrite lookup_insert_ne; [done|]. apply not_eq_sym, Hk. lia.
Qed.

Lemma label_layers_at layers i labels j l : Z.of_nat (i + length layers) < two63 → layers !! j = Some l →
  label_layers i layers labels !! layer_label (i + j) = Some (d_Digest l).
Proof.
  revert i j labels. induction layers as [|l' layers IH]; intros i j labels Hlen Hj; [done|]. cbn [label_layers length] in *.
  destruct j as [|j]; [injection Hj as ->|].
  - rewrite label_layers_other, Nat.add_0_r, lookup_insert_eq; [done|]. intros k Hk Heq. apply layer_label_inj in Heq; lia.
  - replace (i + S j)%nat with (S i + j)%nat by lia. apply IH; [lia|done].
Qed.

(** Digests of different documents differ. *)
Definition digests_distinct (env : commitEnv) : Prop := ∀ c m x y,
  ce_marshal env (ConfigDoc c) = Ok x → ce_marshal env (ManifestDoc m) = Ok y → ce_digest env x ≠ ce_digest env y.

(** The image [ref]: a manifest kept with its config and layers by its labels, whose
    config lists the layers of the parent and the new one. *)
Definition image_of (env : commitEnv) (w : cworld) (ref : string) (parent : Manifest) (cfg : Image) (layer : Descriptor)
    (diffID sourceImage : string) : Prop :=
  ∃ m md labels, cw_images w !! ref = Some md ∧ cw_blobs w !! md = Some (ManifestDoc m, labels) ∧
    mf_Layers m = mf_Layers parent ++ [layer] ∧
    (∃ ls, cw_blobs w !! d_Digest (mf_Config m) = Some (ConfigDoc (commit_config env cfg diffID sourceImage), ls)) ∧
    labels !! config_label = Some (d_Digest (mf_Config m)) ∧
    ∀ i l, mf_Layers m !! i = Some l → labels !! layer_label i = Some (d_Digest l).

Lemma register_Ok env ref d w u w' : register env ref d w = (Ok u, w') → cw_images w' !! ref = Some d ∧ cw_blobs w' = cw_blobs w.
Proof.
  unfold register. assert (Hs : cw_images (set_images (<[ref := d]> (cw_images w)) w) !! ref = Some d) by (by cbn; rewrite lookup_insert_eq).
  destruct (ce_create env) as [e|]; [|by intros [= _ <-]]. case_decide; [|done]. destruct (ce_update env); [done|]. by intros [= _ <-].
Qed.

Lemma buildImage_Ok env ref src layer diffID si w d w' :
  digests_distinct env → buildImage env ref src layer diffID si w = (Ok d, w') →
  ∃ parent cfg, ce_manifest env src = Ok parent ∧ ce_config env (mf_Config parent) = Ok cfg ∧
    (Z.of_nat (length (mf_Layers parent)) + 1 < two63 → image_of env w' ref parent cfg layer diffID si).
Proof.
  intros Hdig. unfold buildImage, WriteBlob, answer, bind, wrapping, lift, modify. intros H.
  destruct (ce_manifest env src) as [parent|]; [|done]. destruct (ce_config env _) as [cfg|] eqn:Hcfg; [|done].
  destruct (ce_marshal env (ConfigDoc _)) as [cb|] eqn:Hc; [|done]. destruct (ce_writeConfig env); [done|].
  destruct (ce_marshal env (ManifestDoc _)) as [mb|] eqn:Hm; [|done]. destruct (ce_writeManifest env); [done|].
  pose proof (Hdig _ _ _ _ Hc Hm) as Hne. cbv beta iota zeta in H. cbn [mf_Layers d_Digest set_blobs cw_blobs] in H.
      match type of H with context [register env ref ?md ?x] => set (w2 := x) in H end.
  destruct (register env ref (ce_digest env mb) w2) as [[u|e] w3] eqn:Er; [|done]. injection H as _ <-.
  apply register_Ok in Er as [Him Hbl]. exists parent, cfg. split_and!; [done..|]. intros Hlen.
  eexists _, _, _. split; [exact Him|]. rewrite Hbl. unfold w2. cbn [cw_blobs set_blobs].
  split; [by rewrite lookup_insert_eq|]. cbn [mf_Layers mf_Config d_Digest]. split_and!; [done| | |].
  - exists ∅. by rewrite lookup_insert_ne, lookup_insert_eq by done.
  - rewrite label_layers_other by (intros j _; apply not_eq_sym, layer_label_config). by rewrite lookup_singleton_eq.
  - intros i l Hl. apply (label_layers_at _ 0); [|done]. rewrite length_app. simpl. lia.
Qed.

(** The snapshot the command reads and the image it builds on. *)
Definition source_of (env : commitEnv) (o : options) (key si sn : string) : Prop :=
  if decide (o_container o = "") then key = o_snapshot o ∧ si = o_sourceImage o ∧ sn = o_snapshotter o
  else ce_info env = Ok (mkInfo key si sn).

Lemma commit_source_Ok env ref key si sn frozen w u w' :
  digests_distinct env → commit_source env ref key si sn frozen w = (Ok u, w') →
  ∃ target layer diffID parent cfg, ce_image env si = Ok target ∧ ce_diff env = Ok layer ∧ layerDiffID env layer = Ok diffID ∧
    ce_manifest env target = Ok parent ∧ ce_config env (mf_Config parent) = Ok cfg ∧
    (Z.of_nat (length (mf_Layers parent)) + 1 < two63 → image_of env w' ref parent cfg layer diffID si).
Proof.
  intros Hd H. unfold commit_source in H. apply bind_Ok in H as (target & w1 & H1 & H). apply wrapping_Ok in H1. injection H1 as H1 <-.
  apply bind_Ok in H as (layer & w2 & H2 & H). apply wrapping_Ok in H2. injection H2 as H2 <-.
  apply bind_Ok in H as (diffID & w3 & H3 & H). injection H3 as H3 <-.
  apply bind_Ok in H as (d & w4 & H4 & H). injection H as <- <-.
  apply buildImage_Ok in H4 as (parent & cfg & Hp & Hc & Him); [|done]. exists target, layer, diffID, parent, cfg. by split_and!.
Qed.

(** When spinbox-commit succeeds, the reference names an image whose layers
    are those of the source image and the snapshot's, whose config lists their
    diff IDs, and all of which the labels keep from being collected. *)
Theorem commit_builds_image env o w u w' :
  digests_distinct env → run env o w = (Ok u, w') →
  ∃ key si sn target layer diffID parent cfg, source_of env o key si sn ∧
    ce_image env si = Ok target ∧ ce_diff env = Ok layer ∧ layerDiffID env layer = Ok diffID ∧
    ce_manifest env target = Ok parent ∧ ce_config env (mf_Config parent) = Ok cfg ∧
    (Z.of_nat (length (mf_Layers parent)) + 1 < two63 → image_of env w' (o_imageRef o) parent cfg layer diffID si).
Proof.
  intros Hd H. unfold run in H. apply bind_Ok in H as (? & w1 & _ & H). apply bind_Ok in H as (? & w2 & _ & H).
  apply bind_Ok in H as (? & w3 & _ & H). destruct (resolve_and_commit env o w3) as [r w4] eqn:E. injection H as -> <-.
  assert (Hset : ∀ y p c l d s, image_of env y (o_imageRef o) p c l d s → image_of env (leaseDone env y) (o_imageRef o) p c l d s)
    by (intros y p c l d s; unfold leaseDone; by destruct (ce_leaseDone env)).
  unfold resolve_and_commit in E. unfold source_of. case_decide as Hc.
  - apply bind_Ok in E as (? & w5 & _ & E). apply bind_Ok in E as ([key si sn] & w6 & Hi & E). apply wrapping_Ok in Hi. injection Hi as Hi <-.
    cbn [ci_SnapshotKey ci_Image ci_Snapshotter] in E.
    case_decide; [done|]. case_decide; [done|]. apply bind_Ok in E as (q & w7 & _ & E). unfold resuming in E.
    destruct (commit_source _ _ _ _ _ _ w7) as [r w8] eqn:Es. exists key, si, sn. rewrite decide_False by done.
    assert (Hr : r = Ok u ∧ (w4 = w8 ∨ w4 = set_task Running w8)).
    { destruct (qs_resume q); [|by simplify_eq; eauto]. unfold resume in E. destruct (ce_resume env); [by destruct r|]. simplify_eq. eauto. }
    destruct Hr as [-> Hw4]. apply commit_source_Ok in Es as (target & layer & diffID & parent & cfg & ? & ? & ? & ? & ? & Him); [|done].
    exists target, layer, diffID, parent, cfg. split_and!; try done. intros Hlen. apply Hset. by destruct Hw4 as [->| ->]; apply Him.
  - apply commit_source_Ok in E as (target & layer & diffID & parent & cfg & ? & ? & ? & ? & ? & Him); [|done].
    exists (o_snapshot o), (o_sourceImage o), (o_snapshotter o), target, layer, diffID, parent, cfg.
    rewrite decide_True by (by destruct (decide (o_container o = ""))). split_and!; try done. intros Hlen. by apply Hset, Him.
Qed.

(** Exactly the two documented modes pass. *)
Lemma validateOptions_None o : validateOptions o = None ↔
  o_imageRef o ≠ "" ∧ (o_container o ≠ "" ∧ o_snapshot o = "" ∨ o_container o = "" ∧ o_snapshot o ≠ "" ∧ o_sourceImage o ≠ "").
Proof. unfold validateOptions. repeat case_decide; split; try done; intros; try tauto; destruct (decide (o_container o = "")), (decide (o_snapshot o = "")); tauto. Qed.

(** ** Concrete commits *)

Definition demo_parent : Manifest := mkManifest 0 "" (mkDescriptor "cfg" "c0" 1) [mkDescriptor "tar" "l0" 10].
Definition demo_commit_env (done resume : option error) : commitEnv :=
  mkCommitEnv None None done None (Ok (mkInfo "snap" "base" "erofs")) None None None resume (λ _, Ok (mkDescriptor "m" "t0" 1))
    (Ok (mkDescriptor "tar" "l1" 20)) (Ok {[ uncompressedLabel := "diff1" ]}) (λ s, Ok s) (λ _, Ok demo_parent)
    (λ _, Ok (mkImage 0 ["diff0"] [] "")) (λ d, Ok (match d with ConfigDoc _ => "config" | ManifestDoc _ => "manifest" end))
    (λ s, "sha:" +:+ s) 7 None None (Some (mkError ErrAlreadyExists "exists")) None.
Definition demo_commit : option error → commitEnv := demo_commit_env None.
Definition demo_options : options := mkOptions "new" "c1" "" "" "".
Definition demo_world : cworld := mkWorld Running 0 0 ∅ ∅ [].

Lemma commit_builds_image_witness :
  (main (demo_commit None) demo_options demo_world).1 = 0 ∧
  (main (demo_commit (Some (errorf "gone"))) demo_options demo_world).1 = 1 ∧
  ∃ w', run (demo_commit None) demo_options demo_world = (Ok tt, w') ∧ cw_task w' = Running ∧
    image_of (demo_commit None) w' "new" demo_parent (mkImage 0 ["diff0"] [] "") (mkDescriptor "tar" "l1" 20) "diff1" "base".
Proof.
  split; [vm_compute; reflexivity|]. split; [vm_compute; reflexivity|].
  destruct (run (demo_commit None) demo_options demo_world) as [[[]|e] w'] eqn:E; [|vm_compute in E; discriminate].
  exists w'. split; [reflexivity|]. split; [vm_compute in E; injection E as <-; reflexivity|].
  destruct (commit_builds_image (demo_commit None) demo_options demo_world tt w')
    as (key & si & sn & target & layer & diffID & parent & cfg & Hs & Ht & Hl & Hd & Hp & Hc & Him).
  - intros c m x y [= <-] [= <-]. discriminate.
  - exact E.
  - unfold source_of in Hs. rewrite decide_False in Hs by done. injection Hs as <- <- <-. injection Ht as <-. injection Hl as <-.
    vm_compute in Hd. injection Hd as <-. injection Hp as <-. injection Hc as <-. apply Him. vm_compute. reflexivity.
Defined.

(** A run that succeeds, one whose resume fails, and one whose lease stays. *)
Lemma commit_keeps_container_witness :
  let r := run (demo_commit None) demo_options demo_world in
  let r' := run (demo_commit (Some (errorf "gone"))) demo_options demo_world in
  let r2 := run (demo_commit_env (Some (errorf "gone")) None) demo_options demo_world in
  (is_ok r.1 = true ∧ cw_task r.2 = Running ∧ cw_leases r.2 = 0 ∧ cw_diffs r.2 = [("snap", "erofs", true, Paused)]) ∧
  (is_ok r'.1 = false ∧ cw_task r'.2 = Paused ∧ cw_leases r'.2 = 0) ∧
  (is_ok r2.1 = true ∧ cw_leases r2.2 = 1 ∧ cw_released r2.2 = 1) ∧
  task_kept (demo_commit None) demo_world r ∧ cw_released r.2 = cw_released demo_world + 1.
Proof.
  pose proof (commit_keeps_container (demo_commit None) demo_options demo_world) as (_ & Hl & Ht & _).
  destruct (Hl (conj eq_refl eq_refl)) as [Hr _]. cbv zeta. repeat split; first [exact Ht | exact Hr | vm_compute; reflexivity].
Defined.
