(* ===== verification/Streams.v ===== *)
(** I/O streams between host and guest: StartStream of
    internal/host/vm/qemu/streaming.go, and the streaming service of the guest
    (internal/guest/vminit/streaming/plugin.go).

    Callers on the host, the guest's accept loop, closes and the clock interleave:
    [sstep] takes one step and is undefined when it is not enabled.  A connection is
    the bytes written in each direction.  Times are nanoseconds. *)
From S2P Require Import Prelude GoStrings.
Open Scope Z_scope.

(** ** Four bytes, big-endian *)

Definition PutUint32 (x : Z) : list Z :=
  [Z.land (Z.shiftr x 24) 255; Z.land (Z.shiftr x 16) 255; Z.land (Z.shiftr x 8) 255; Z.land x 255].
Definition Uint32 (b : list Z) : Z :=
  let at_ i := nth i b 0 in
  Z.lor (at_ 3%nat) (Z.lor (Z.shiftl (at_ 2%nat) 8) (Z.lor (Z.shiftl (at_ 1%nat) 16) (Z.shiftl (at_ 0%nat) 24))).

Lemma Uint32_Put x : uint32_range x → Uint32 (PutUint32 x) = x.
Proof.
  intros Hx. unfold Uint32, PutUint32. cbn [nth]. apply Z.bits_inj'. intros n Hn.
  rewrite !Z.lor_spec, !Z.shiftl_spec, !Z.land_spec by lia.
  assert (H255 : ∀ k, Z.testbit 255 k = (0 <=? k) && (k <? 8)).
  { intros k. change 255 with (Z.ones 8). destruct (Z.leb_spec 0 k); [|by rewrite Z.testbit_neg_r by lia].
    rewrite Z.testbit_ones_nonneg by lia. done. }
  rewrite !H255.
  assert (Hhigh : 32 ≤ n → Z.testbit x n = false).
  { intros H. destruct (decide (x = 0)) as [->|]; [apply Z.bits_0|]. apply Z.bits_above_log2; [apply Hx|].
    apply Z.log2_lt_pow2; [unfold uint32_range in Hx; lia|]. unfold uint32_range, two32 in Hx.
    pose proof (Z.pow_le_mono_r 2 32 n). lia. }
  destruct (Z.leb_spec 0 n), (Z.ltb_spec n 8), (Z.leb_spec 0 (n - 8)), (Z.ltb_spec (n - 8) 8), (Z.leb_spec 0 (n - 16)), (Z.ltb_spec (n - 16) 8),
    (Z.leb_spec 0 (n - 24)), (Z.ltb_spec (n - 24) 8); try lia; cbn [andb]; rewrite ?andb_false_r, ?andb_true_r, ?orb_false_r, ?orb_false_l;
    rewrite ?Z.shiftr_spec by lia; rewrite ?Z.sub_add; try done; by rewrite Hhigh by lia.
Qed.

(** ** State *)

Definition millisecond : Z := 1000000.
Definition initialBackoff : Z := 5 * millisecond.
Definition maxBackoff : Z := 100 * millisecond.
Definition streamTimeout : Z := 1000 * millisecond.

(** A call of [StartStream]: its loop, the identifier taken, the connection dialled,
    and its result. *)
Inductive hphase :=
  | HIdle
  | HLoop (deadline backoff : Z)
  | HTaken (deadline backoff sid : Z)
  | HSleep (until deadline backoff : Z)
  | HWrite (sid : Z) (c : nat)
  | HRead (sid : Z) (c : nat)
  | HDone (r : res (Z * nat)).

(** [c_sid] is the identifier the connection was dialled for: the guest does not see
    it. *)
Record conn := mkConn { c_sid : Z; c_up : list Z; c_down : list Z; c_hclosed : bool; c_gclosed : bool }.

(** The guest's accept loop. *)
Inductive gphase := GAccept | GRead (c : nat) | GRegister (c : nat) (b : list Z) | GAck (c : nat) (b : list Z) | GStopped.

Record sst := mkSst {
  s_hosts : list hphase;
  s_streamC : Z;
  s_taken : nat;                (** how many identifiers were taken *)
  s_conns : list conn;
  s_backlog : list nat;
  s_guest : gphase;
  s_streams : gmap Z nat;
  s_now : Z
}.

Definition set_host h p s := mkSst (<[h := p]> (s_hosts s)) (s_streamC s) (s_taken s) (s_conns s) (s_backlog s) (s_guest s) (s_streams s) (s_now s).
Definition set_conn c x s := mkSst (s_hosts s) (s_streamC s) (s_taken s) (<[c := x]> (s_conns s)) (s_backlog s) (s_guest s) (s_streams s) (s_now s).
Definition set_guest g s := mkSst (s_hosts s) (s_streamC s) (s_taken s) (s_conns s) (s_backlog s) g (s_streams s) (s_now s).
Definition set_streams m s := mkSst (s_hosts s) (s_streamC s) (s_taken s) (s_conns s) (s_backlog s) (s_guest s) m (s_now s).
Definition set_backlog l s := mkSst (s_hosts s) (s_streamC s) (s_taken s) (s_conns s) l (s_guest s) (s_streams s) (s_now s).

Definition close_host x := mkConn (c_sid x) (c_up x) (c_down x) true (c_gclosed x).
Definition close_guest x := mkConn (c_sid x) (c_up x) (c_down x) (c_hclosed x) true.

(** ** The host *)

Definition not_running : error := mkError ErrFailedPrecondition "vm not running: failed precondition".
Definition exhausted : error := mkError ErrUnavailable "exhausted stream identifiers: unavailable".
Definition no_server : error := mkError ErrUnavailable "timeout waiting for stream server: unavailable".
Definition mismatch : error := errorf "stream ack mismatch".

(** What the system answers to the next call of the host. *)
Record hanswer := mkHanswer { ha_running : bool; ha_ctx : option error; ha_dial : bool; ha_write : option error; ha_read : option error }.

(** One step of [StartStream]. *)
Definition StartStream (h : nat) (a : hanswer) (s : sst) : option sst :=
  match s_hosts s !! h with
  | Some HIdle => Some (set_host h (if ha_running a then HLoop (s_now s + streamTimeout) initialBackoff else HDone (Err not_running)) s)
  | Some (HLoop deadline backoff) =>
      if s_now s <? deadline then
        let sid := uint32_wrap (s_streamC s + 1) in
        let s' := mkSst (s_hosts s) sid (S (s_taken s)) (s_conns s) (s_backlog s) (s_guest s) (s_streams s) (s_now s) in
        Some (set_host h (if sid =? 0 then HDone (Err exhausted) else HTaken deadline backoff sid) s')
      else Some (set_host h (HDone (Err no_server)) s)
  | Some (HTaken deadline backoff sid) =>
      match ha_ctx a with
      | Some e => Some (set_host h (HDone (Err e)) s)
      | None =>
          if ha_dial a then
            let c := length (s_conns s) in
            let s' := mkSst (s_hosts s) (s_streamC s) (s_taken s) (s_conns s ++ [mkConn sid [] [] false false]) (s_backlog s ++ [c])
                        (s_guest s) (s_streams s) (s_now s) in
            Some (set_host h (HWrite sid c) s')
          else Some (set_host h (HSleep (s_now s + backoff) deadline backoff) s)
      end
  | Some (HSleep until deadline backoff) =>
      if until <=? s_now s then Some (set_host h (HLoop deadline (Z.min (backoff * 2) maxBackoff)) s) else None
  | Some (HWrite sid c) =>
      match s_conns s !! c with
      | None => None
      | Some x =>
          match ha_write a with
          | Some e => Some (set_host h (HDone (Err (wrap "failed to write stream id" e))) (set_conn c (close_host x) s))
          | None => Some (set_host h (HRead sid c) (set_conn c (mkConn (c_sid x) (c_up x ++ PutUint32 sid) (c_down x) (c_hclosed x) (c_gclosed x)) s))
          end
      end
  | Some (HRead sid c) =>
      match s_conns s !! c with
      | None => None
      | Some x =>
          match ha_read a with
          | Some e => Some (set_host h (HDone (Err (wrap "failed to read stream ack" e))) (set_conn c (close_host x) s))
          | None =>
              if (length (c_down x) <? 4)%nat then None
              else if Uint32 (take 4 (c_down x)) =? sid then Some (set_host h (HDone (Ok (sid, c))) s)
              else Some (set_host h (HDone (Err mismatch)) (set_conn c (close_host x) s))
          end
      end
  | Some (HDone _) | None => None
  end.

(** ** The guest *)

(** One step of the accept loop [Run]: [n] is how many of the bytes that are there a
    read returns, [fails] whether the call fails, [closed] whether the listener is. *)
Definition Run (n : nat) (fails : bool) (s : sst) : option sst :=
  match s_guest s with
  | GAccept =>
      if fails then Some (set_guest GStopped s)
      else match s_backlog s with
           | [] => None
           | c :: rest => Some (set_guest (GRead c) (set_backlog rest s))
           end
  | GRead c =>
      match s_conns s !! c with
      | None => None
      | Some x =>
          if fails then Some (set_guest GAccept (set_conn c (close_guest x) s))
          else if (length (c_up x) =? 0)%nat then None
          else let got := take (n `min` 4) (c_up x) in
               if (length got =? 0)%nat then None
               else Some (set_guest (GRegister c (got ++ replicate (4 - length got) 0)) s)
      end
  | GRegister c b =>
      match s_conns s !! c with
      | None => None
      | Some x =>
          if decide (is_Some (s_streams s !! Uint32 b)) then Some (set_guest GAccept (set_conn c (close_guest x) s))
          else Some (set_guest (GAck c b) (set_streams (<[Uint32 b := c]> (s_streams s)) s))
      end
  | GAck c b =>
      match s_conns s !! c with
      | None => None
      | Some x =>
          if fails then Some (set_guest GAccept (set_conn c (close_guest x) s))
          else Some (set_guest GAccept (set_conn c (mkConn (c_sid x) (c_up x) (c_down x ++ b) (c_hclosed x) (c_gclosed x)) s))
      end
  | GStopped => None
  end.

Definition Get (id : Z) (s : sst) : res nat :=
  match s_streams s !! id with
  | Some c => Ok c
  | None => Err (mkError ErrNotFound ("stream " +:+ fmt_d id +:+ " not found: not found"))
  end.

(** [Close] of the stream that was registered as connection [c] under [sid]. *)
Definition Close (sid : Z) (c : nat) (s : sst) : option sst :=
  match s_conns s !! c with
  | None => None
  | Some x => Some (set_conn c (close_guest x) (set_streams (delete sid (s_streams s)) s))
  end.

(** ** Interleavings *)

Inductive sinput :=
  | IHost (h : nat) (a : hanswer)
  | IGuest (n : nat) (fails : bool)
  | IClose (sid : Z) (c : nat)
  | IHostClose (c : nat)
  | ITick (dt : N).

(** A stream is closed by those who got it; more than once, possibly (the second time
    is given for a connection whose identifier was read whole). *)
Definition closable (sid : Z) (c : nat) (s : sst) : bool :=
  bool_decide (s_streams s !! sid = Some c) ||
  match s_conns s !! c with Some x => c_gclosed x && (length (c_up x) =? 4)%nat && (Uint32 (c_up x) =? sid) | None => false end.

Definition sstep (i : sinput) (s : sst) : option sst :=
  match i with
  | IHost h a => StartStream h a s
  | IGuest n fails => Run n fails s
  | IClose sid c =>
      if closable sid c s then Close sid c s else None
  | IHostClose c => (λ x, set_conn c (close_host x) s) <$> s_conns s !! c
  | ITick dt => Some (mkSst (s_hosts s) (s_streamC s) (s_taken s) (s_conns s) (s_backlog s) (s_guest s) (s_streams s) (s_now s + Z.of_N dt))
  end.

Fixpoint srun (is_ : list sinput) (s : sst) : option sst :=
  match is_ with [] => Some s | i :: is_' => sstep i s ≫= srun is_' end.

Definition start (hosts : nat) : sst := mkSst (replicate hosts HIdle) 0 0 [] [] GAccept ∅ 0.

(** ** Identifiers and connections match *)

Definition host_sid (p : hphase) : option Z :=
  match p with HTaken _ _ sid | HWrite sid _ | HRead sid _ | HDone (Ok (sid, _)) => Some sid | _ => None end.

(** The connection a caller has, for which identifier, and whether it has announced it. *)
Definition host_conn (p : hphase) : option (Z * nat * bool) :=
  match p with HWrite sid c => Some (sid, c, false) | HRead sid c | HDone (Ok (sid, c)) => Some (sid, c, true) | _ => None end.

Definition guest_conn (g : gphase) : option nat :=
  match g with GRead c | GRegister c _ | GAck c _ => Some c | _ => None end.

Definition announced (x : conn) : Prop := c_up x = PutUint32 (c_sid x).
Definition served (s : sst) (c : nat) (x : conn) : Prop := s_streams s !! c_sid x = Some c ∨ c_gclosed x = true.

Record sinv (s : sst) : Prop := mkSinv {
  i_C : s_streamC s = Z.of_nat (s_taken s) ∧ Z.of_nat (s_taken s) < two32;
  i_sid : ∀ h p sid, s_hosts s !! h = Some p → host_sid p = Some sid → 1 ≤ sid ≤ Z.of_nat (s_taken s);
  i_uniq : ∀ h h' p p' sid, s_hosts s !! h = Some p → s_hosts s !! h' = Some p' →
             host_sid p = Some sid → host_sid p' = Some sid → h = h';
  i_conn : ∀ c x, s_conns s !! c = Some x → 1 ≤ c_sid x ≤ Z.of_nat (s_taken s) ∧ (c_up x = [] ∨ announced x);
  i_csid : ∀ c c' x x', s_conns s !! c = Some x → s_conns s !! c' = Some x' → c_sid x = c_sid x' → c = c';
  i_fresh : ∀ h p sid c x, s_hosts s !! h = Some p → host_sid p = Some sid → host_conn p = None →
              s_conns s !! c = Some x → c_sid x ≠ sid;
  i_hconn : ∀ h p sid c b, s_hosts s !! h = Some p → host_conn p = Some (sid, c, b) →
              ∃ x, s_conns s !! c = Some x ∧ c_sid x = sid ∧ if b : bool then announced x else c_up x = [];
  i_streams : ∀ k c, s_streams s !! k = Some c → ∃ x, s_conns s !! c = Some x ∧ k = c_sid x ∧ announced x;
  i_guest : ∀ c, guest_conn (s_guest s) = Some c → ∃ x, s_conns s !! c = Some x ∧ c_down x = [] ∧
              match s_guest s with
              | GRegister _ b => b = PutUint32 (c_sid x) ∧ announced x
              | GAck _ b => b = PutUint32 (c_sid x) ∧ announced x ∧ served s c x
              | _ => True
              end;
  i_backlog : NoDup (s_backlog s) ∧ (∀ c, guest_conn (s_guest s) = Some c → c ∉ s_backlog s) ∧
              ∀ c, c ∈ s_backlog s → ∃ x, s_conns s !! c = Some x ∧ c_down x = [];
  i_down : ∀ c x, s_conns s !! c = Some x → c_down x = [] ∨ c_down x = PutUint32 (c_sid x) ∧ announced x ∧ served s c x
}.

Lemma conn_after s c x' c' y : s_conns (set_conn c x' s) !! c' = Some y →
  c' = c ∧ y = x' ∧ (c < length (s_conns s))%nat ∨ c' ≠ c ∧ s_conns s !! c' = Some y.
Proof.
  cbn. intros H. destruct (decide (c' = c)) as [->|Hne]; [|right; by rewrite list_lookup_insert_ne in H].
  left. apply list_lookup_insert_Some in H. naive_solver lia.
Qed.

Lemma host_after s h p h' q : s_hosts (set_host h p s) !! h' = Some q →
  h' = h ∧ q = p ∧ (h < length (s_hosts s))%nat ∨ h' ≠ h ∧ s_hosts s !! h' = Some q.
Proof.
  cbn. intros H. destruct (decide (h' = h)) as [->|Hne]; [|right; by rewrite list_lookup_insert_ne in H].
  left. apply list_lookup_insert_Some in H. naive_solver lia.
Qed.

(** A caller moves on, with the identifier it has or without. *)
Lemma inv_set_host s h p p' : sinv s → s_hosts s !! h = Some p →
  (∀ sid, host_sid p' = Some sid → host_sid p = Some sid) →
  (∀ sid, host_sid p' = Some sid → host_conn p' = None → host_conn p = None) →
  (∀ sid c b, host_conn p' = Some (sid, c, b) →
     ∃ x, s_conns s !! c = Some x ∧ c_sid x = sid ∧ if b : bool then announced x else c_up x = []) →
  sinv (set_host h p' s).
Proof.
  intros [HC Hsid Huniq Hconn Hcsid Hfresh Hhc Hst Hg Hb Hd] Hh H1 H2 H3. constructor; try done.
  - intros h' q sid [(-> & -> & _)|[_ Hq]]%host_after Hs; [by eapply (Hsid h p), H1|by eapply Hsid].
  - intros h1 h2 q1 q2 sid [(-> & -> & _)|[Hn1 Hq1]]%host_after [(-> & -> & _)|[Hn2 Hq2]]%host_after Hs1 Hs2.
    + done.
    + by eapply (Huniq h h2 p q2 sid); [|..|]; eauto.
    + by eapply (Huniq h1 h q1 p sid); [|..|]; eauto.
    + by eapply (Huniq h1 h2).
  - intros h' q sid c x [(-> & -> & _)|[_ Hq]]%host_after Hs Hn Hc; [eapply (Hfresh h p); eauto|by eapply Hfresh].
  - intros h' q sid c b [(-> & -> & _)|[_ Hq]]%host_after Hs; [by apply H3|by eapply Hhc].
Qed.

(** A connection is closed by either side. *)
Lemma inv_flags s c x x' : sinv s → s_conns s !! c = Some x →
  c_sid x' = c_sid x → c_up x' = c_up x → c_down x' = c_down x → (c_gclosed x = true → c_gclosed x' = true) →
  sinv (set_conn c x' s).
Proof.
  intros [HC Hsid Huniq Hconn Hcsid Hfresh Hhc Hst Hg Hb Hd] Hx E1 E2 E3 E4.
  assert (Hlt : (c < length (s_conns s))%nat) by (by eapply lookup_lt_Some).
  assert (Hat : ∀ c2 y (P : conn → Prop), s_conns s !! c2 = Some y → P y → (∀ z, c_sid z = c_sid y → c_up z = c_up y → c_down z = c_down y →
      (c_gclosed y = true → c_gclosed z = true) → P y → P z) → ∃ z, s_conns (set_conn c x' s) !! c2 = Some z ∧ P z).
  { intros c2 y P Hy HP Hmove. destruct (decide (c2 = c)) as [->|].
    - exists x'. cbn. rewrite list_lookup_insert_eq by done. split; [done|]. rewrite Hx in Hy. injection Hy as <-. by eapply Hmove.
    - exists y. cbn. by rewrite list_lookup_insert_ne. }
  assert (Han : ∀ y z, c_sid z = c_sid y → c_up z = c_up y → announced y → announced z) by (unfold announced; congruence).
  assert (Hsv : ∀ c2 y z, c_sid z = c_sid y → (c_gclosed y = true → c_gclosed z = true) → served s c2 y → served (set_conn c x' s) c2 z).
  { intros c2 y z F1 F2 [?|?]; [left; cbn; by rewrite F1|right; auto]. }
  assert (Hback : ∀ c2 z, s_conns (set_conn c x' s) !! c2 = Some z → ∃ y, s_conns s !! c2 = Some y ∧ c_sid z = c_sid y ∧ c_up z = c_up y ∧
      c_down z = c_down y ∧ (c_gclosed y = true → c_gclosed z = true)).
  { intros c2 z [(-> & -> & _)|[_ Hz]]%conn_after; eauto 10. }
  constructor; try done.
  - intros c2 z (y & Hy & F1 & F2 & _)%Hback. rewrite F1, F2. destruct (Hconn _ _ Hy) as [? [?|?]]; split; try done; [by left|right].
    by eapply Han.
  - intros c1 c2 z1 z2 (y1 & Hy1 & F1 & _)%Hback (y2 & Hy2 & F2 & _)%Hback. rewrite F1, F2. by eapply Hcsid.
  - intros h p sid c2 z Hp Hs Hn (y & Hy & F1 & _)%Hback. rewrite F1. by eapply Hfresh.
  - intros h p sid c2 b Hp Hs. destruct (Hhc _ _ _ _ _ Hp Hs) as (y & Hy & HP).
    eapply (Hat c2 y (λ z, c_sid z = sid ∧ if b : bool then announced z else c_up z = []) Hy HP). intros z F1 F2 _ _ [? ?].
    split; [congruence|]. destruct b; [by eapply Han|congruence].
  - intros k c2 Hk. destruct (Hst k c2 Hk) as (y & Hy & HP).
    eapply (Hat c2 y (λ z, k = c_sid z ∧ announced z) Hy HP). intros z F1 F2 _ _ [? ?]. split; [congruence|by eapply Han].
  - intros c2 Hc2. destruct (Hg c2 Hc2) as (y & Hy & HP).
    eapply (Hat c2 y (λ z, c_down z = [] ∧ match s_guest s with
       | GRegister _ b => b = PutUint32 (c_sid z) ∧ announced z
       | GAck _ b => b = PutUint32 (c_sid z) ∧ announced z ∧ served (set_conn c x' s) c2 z | _ => True end) Hy).
    + destruct HP as [? HP]. split; [done|]. by destruct (s_guest s).
    + intros z F1 F2 F3 F4 [? HQ]. split; [congruence|]. destruct (s_guest s); try done.
      * destruct HQ as [? ?]. split; [congruence|by eapply Han].
      * destruct HQ as (? & ? & Hse). split_and!; [congruence|by eapply Han|]. destruct Hse; [left; by rewrite F1|right; auto].
  - destruct Hb as (? & ? & Hdn). split_and!; try done. intros c2 Hc2. destruct (Hdn c2 Hc2) as (y & Hy & HP).
    eapply (Hat c2 y (λ z, c_down z = []) Hy HP). congruence.
  - intros c2 z (y & Hy & F1 & F2 & F3 & F4)%Hback. destruct (Hd _ _ Hy) as [?|(? & ? & ?)]; [left; congruence|right].
    split_and!; [congruence|by eapply Han|by eapply Hsv].
Qed.

Lemma inv_guest_free s g : sinv s → guest_conn g = None → sinv (set_guest g s).
Proof.
  intros [HC Hsid Huniq Hconn Hcsid Hfresh Hhc Hst Hg (Hb1 & Hb2 & Hb3) Hd] Hn. constructor; try done.
  - cbn. rewrite Hn. done.
  - cbn. rewrite Hn. done.
Qed.

Lemma Put_range sid n : 1 ≤ sid ≤ Z.of_nat n → Z.of_nat n < two32 → Uint32 (PutUint32 sid) = sid.
Proof. intros H1 H2. apply Uint32_Put. unfold uint32_range. lia. Qed.

Definition taken_one (sid : Z) (s : sst) : sst :=
  mkSst (s_hosts s) sid (S (s_taken s)) (s_conns s) (s_backlog s) (s_guest s) (s_streams s) (s_now s).

(** Taking an identifier: below 2^32 of them it is a new one. *)
Lemma inv_take s h d b : sinv s → s_hosts s !! h = Some (HLoop d b) → Z.of_nat (S (s_taken s)) < two32 →
  let sid := uint32_wrap (s_streamC s + 1) in
  sid ≠ 0 ∧ sinv (set_host h (HTaken d b sid) (taken_one sid s)).
Proof.
  intros [[HC HC'] Hsid Huniq Hconn Hcsid Hfresh Hhc Hst Hg Hb Hd] Hh Hlt. cbv zeta.
  assert (Hs : uint32_wrap (s_streamC s + 1) = Z.of_nat (S (s_taken s))).
  { rewrite uint32_wrap_id; [lia|]. unfold uint32_range. lia. }
  rewrite Hs. split; [lia|]. constructor; cbn [taken_one set_host s_hosts s_streamC s_taken s_conns s_backlog s_guest s_streams]; try done.
  - intros h' q sid [(-> & -> & _)|[_ Hq]]%(host_after (taken_one 0 s)) Hp; [injection Hp as <-; lia|]. specialize (Hsid _ _ _ Hq Hp). lia.
  - intros h1 h2 q1 q2 sid [(-> & -> & _)|[Hn1 Hq1]]%(host_after (taken_one 0 s)) [(-> & -> & _)|[Hn2 Hq2]]%(host_after (taken_one 0 s)) Hs1 Hs2; try done.
    + injection Hs1 as <-. specialize (Hsid _ _ _ Hq2 Hs2). lia.
    + injection Hs2 as <-. specialize (Hsid _ _ _ Hq1 Hs1). lia.
    + by eapply (Huniq h1 h2).
  - intros c x Hc. destruct (Hconn c x Hc). split; [lia|done].
  - intros h' q sid c x [(-> & -> & _)|[_ Hq]]%(host_after (taken_one 0 s)) Hp Hn Hc.
    + injection Hp as <-. destruct (Hconn c x Hc). lia.
    + by eapply Hfresh.
  - intros h' q sid c bb [(-> & -> & _)|[_ Hq]]%(host_after (taken_one 0 s)) Hp; [done|by eapply Hhc].
Qed.

Definition dialled (sid : Z) (s : sst) : sst :=
  mkSst (s_hosts s) (s_streamC s) (s_taken s) (s_conns s ++ [mkConn sid [] [] false false]) (s_backlog s ++ [length (s_conns s)])
    (s_guest s) (s_streams s) (s_now s).

Lemma inv_dial s h d b sid : sinv s → s_hosts s !! h = Some (HTaken d b sid) →
  sinv (set_host h (HWrite sid (length (s_conns s))) (dialled sid s)).
Proof.
  intros [HC Hsid Huniq Hconn Hcsid Hfresh Hhc Hst Hg (Hb1 & Hb2 & Hb3) Hd] Hh.
  set (n := length (s_conns s)).
  assert (Hnew : ∀ c x, (s_conns s ++ [mkConn sid [] [] false false]) !! c = Some x →
    s_conns s !! c = Some x ∨ c = n ∧ x = mkConn sid [] [] false false).
  { intros c x [Hc|[Hc Hx]]%lookup_app_Some; [by left|right]. apply list_lookup_singleton_Some in Hx as [? <-]. split; [unfold n in *; lia|done]. }
  assert (Hold : ∀ c x, s_conns s !! c = Some x → (s_conns s ++ [mkConn sid [] [] false false]) !! c = Some x)
    by (intros c x Hc; by apply lookup_app_l_Some).
  assert (Hfr : ∀ c x, s_conns s !! c = Some x → c_sid x ≠ sid) by (intros c x; by eapply (Hfresh h _ sid)).
  assert (Hln : ∀ c x, s_conns s !! c = Some x → (c < n)%nat) by (intros c x Hc; by eapply lookup_lt_Some).
  pose proof (Hsid h _ sid Hh eq_refl) as Hr.
  constructor; cbn [dialled set_host s_hosts s_streamC s_taken s_conns s_backlog s_guest s_streams]; try done.
  - intros h' q k [(-> & -> & _)|[_ Hq]]%(host_after (dialled sid s)) Hp; [by injection Hp as <-|by eapply Hsid].
  - intros h1 h2 q1 q2 k [(-> & -> & _)|[Hn1 Hq1]]%(host_after (dialled sid s)) [(-> & -> & _)|[Hn2 Hq2]]%(host_after (dialled sid s)) Hs1 Hs2; try done.
    + eapply (Huniq h h2); eauto.
    + eapply (Huniq h1 h); eauto.
    + by eapply (Huniq h1 h2).
  - intros c x [Hc|[-> ->]]%Hnew; [by eapply Hconn|]. cbn. split; [done|by left].
  - intros c c' x x' [Hc|[-> ->]]%Hnew [Hc'|[-> ->]]%Hnew Heq; [by eapply Hcsid|by destruct (Hfr _ _ Hc)|by destruct (Hfr _ _ Hc')|done].
  - intros h' q k c x [(-> & -> & _)|[Hne Hq]]%(host_after (dialled sid s)) Hp Hn [Hc|[-> ->]]%Hnew; try done; [by eapply Hfresh|].
    cbn. intros <-. apply Hne. by eapply (Huniq h' h).
  - intros h' q k c bb [(-> & -> & _)|[_ Hq]]%(host_after (dialled sid s)) Hp.
    + injection Hp as <- <- <-. exists (mkConn sid [] [] false false). split_and!; [|done|done]. unfold n. by rewrite lookup_app_r, Nat.sub_diag by lia.
    + destruct (Hhc _ _ _ _ _ Hq Hp) as (x & Hx & HP). eauto.
  - intros k c Hk. destruct (Hst k c Hk) as (x & Hx & HP). eauto.
  - intros c Hc. destruct (Hg c Hc) as (x & Hx & HP). eauto.
  - split_and!.
    + apply NoDup_app. split_and!; [done| |apply NoDup_singleton]. intros c Hc ->%list_elem_of_singleton.
      destruct (Hb3 _ Hc) as (x & Hx & _). specialize (Hln _ _ Hx). unfold n in Hln. lia.
    + intros c Hc [Hin|Hin%list_elem_of_singleton]%elem_of_app; [by eapply Hb2|]. destruct (Hg c Hc) as (x & Hx & _).
      specialize (Hln _ _ Hx). unfold n in Hln. lia.
    + intros c [Hin|Hin%list_elem_of_singleton]%elem_of_app.
      * destruct (Hb3 c Hin) as (x & Hx & ?). eauto.
      * subst. exists (mkConn sid [] [] false false). split; [|done]. by rewrite lookup_app_r, Nat.sub_diag by lia.
  - intros c x [Hc|[-> ->]]%Hnew; [by apply Hd|by left].
Qed.

(** Announcing the identifier on the connection. *)
Lemma inv_write s h sid c x : sinv s → s_hosts s !! h = Some (HWrite sid c) → s_conns s !! c = Some x →
  sinv (set_host h (HRead sid c) (set_conn c (mkConn (c_sid x) (c_up x ++ PutUint32 sid) (c_down x) (c_hclosed x) (c_gclosed x)) s)).
Proof.
  intros [HC Hsid Huniq Hconn Hcsid Hfresh Hhc Hst Hg (Hb1 & Hb2 & Hb3) Hd] Hh Hx.
  destruct (Hhc h _ _ _ _ Hh eq_refl) as (x0 & Hx0 & <- & Hup). rewrite Hx in Hx0. injection Hx0 as <-. rewrite Hup. cbn [app].
  set (x' := mkConn _ _ _ _ _). set (s' := set_conn c x' s).
  assert (Hlt : (c < length (s_conns s))%nat) by (by eapply lookup_lt_Some).
  assert (Hno : ¬ announced x) by (unfold announced; by rewrite Hup).
  assert (Hup0 : ∀ c2 y, s_conns s !! c2 = Some y → announced y → c2 ≠ c) by (intros c2 y Hy Ha ->; congruence).
  assert (Hother : ∀ c2 y, s_conns s !! c2 = Some y → c2 ≠ c → s_conns s' !! c2 = Some y) by (intros c2 y Hy Hne; cbn; by rewrite list_lookup_insert_ne).
  assert (Hself : s_conns s' !! c = Some x') by (cbn; by rewrite list_lookup_insert_eq).
  constructor; cbn [set_host s_hosts s_streamC s_taken s_conns s_backlog s_guest s_streams]; try done.
  - intros h' q k [(-> & -> & _)|[_ Hq]]%(host_after s') Hp; [by eapply (Hsid h)|by eapply Hsid].
  - intros h1 h2 q1 q2 k [(-> & -> & _)|[Hn1 Hq1]]%(host_after s') [(-> & -> & _)|[Hn2 Hq2]]%(host_after s') Hs1 Hs2; try done.
    + eapply (Huniq h h2); eauto.
    + eapply (Huniq h1 h); eauto.
    + by eapply (Huniq h1 h2).
  - intros c2 y [(-> & -> & _)|[_ Hy]]%conn_after; [|by eapply Hconn]. cbn. split; [by eapply Hconn|by right].
  - intros c1 c2 y1 y2 [(-> & -> & _)|[Hn1 Hy1]]%conn_after [(-> & -> & _)|[Hn2 Hy2]]%conn_after Heq; try done.
    + exfalso. apply Hn2. by eapply (Hcsid c2 c).
    + exfalso. apply Hn1. by eapply (Hcsid c1 c).
    + by eapply Hcsid.
  - intros h' q k c2 y [(-> & -> & _)|[Hne Hq]]%(host_after s') Hp Hn [(-> & -> & _)|[_ Hy]]%conn_after; try done.
    + cbn. by eapply (Hfresh h').
    + by eapply Hfresh.
  - intros h' q k c2 bb [(-> & -> & _)|[Hne Hq]]%(host_after s') Hp.
    + injection Hp as <- <- <-. exists x'. by split_and!.
    + destruct (Hhc _ _ _ _ _ Hq Hp) as (y & Hy & Hk & HP). destruct (decide (c2 = c)) as [->|]; [|eauto]. exfalso. apply Hne.
      eapply (Huniq h' h); [done|done| |done]. rewrite Hx in Hy. injection Hy as <-. cbn. rewrite Hk.
      destruct q as [| | | | | |[[]|]]; cbn in *; congruence.
  - intros k c2 Hk. destruct (Hst k c2 Hk) as (y & Hy & ? & ?). exists y. split; [|done]. eauto.
  - intros c2 Hc2. destruct (Hg c2 Hc2) as (y & Hy & Hdn & HP). destruct (decide (c2 = c)) as [->|Hne]; [|eauto].
    rewrite Hx in Hy. injection Hy as <-. exists x'. split_and!; [done|done|]. cbn in HP |- *. destruct (s_guest s); try done; exfalso; apply Hno; apply HP.
  - split_and!; try done. intros c2 Hc2. destruct (Hb3 c2 Hc2) as (y & Hy & Hdn). destruct (decide (c2 = c)) as [->|Hne]; [|eauto].
    rewrite Hx in Hy. injection Hy as <-. by exists x'.
  - intros c2 y [(-> & -> & _)|[_ Hy]]%conn_after; [|by apply Hd]. destruct (Hd _ _ Hx) as [?|(_ & ? & _)]; [by left|done].
Qed.

(** The guest takes the next connection. *)
Lemma inv_accept s c rest : sinv s → s_guest s = GAccept → s_backlog s = c :: rest → sinv (set_guest (GRead c) (set_backlog rest s)).
Proof.
  intros [HC Hsid Huniq Hconn Hcsid Hfresh Hhc Hst Hg (Hb1 & Hb2 & Hb3) Hd] Hga Hb. rewrite Hb in *. apply NoDup_cons in Hb1 as [Hnc Hb1].
  constructor; cbn [set_guest set_backlog s_hosts s_streamC s_taken s_conns s_backlog s_guest s_streams guest_conn]; try done.
  - intros c2 [= <-]. destruct (Hb3 c) as (x & Hx & Hdn); [left|]. by exists x.
  - split_and!; [done|by intros c2 [= <-]|]. intros c2 Hc2. apply Hb3. by right.
Qed.

Lemma inv_read s c x b : sinv s → s_guest s = GRead c → s_conns s !! c = Some x → b = PutUint32 (c_sid x) → announced x →
  sinv (set_guest (GRegister c b) s).
Proof.
  intros [HC Hsid Huniq Hconn Hcsid Hfresh Hhc Hst Hg (Hb1 & Hb2 & Hb3) Hd] Hgr Hx -> Ha. rewrite Hgr in *. cbn in *.
  constructor; cbn [set_guest s_hosts s_streamC s_taken s_conns s_backlog s_guest s_streams guest_conn]; try done.
  intros c2 [= <-]. destruct (Hg c eq_refl) as (y & Hy & Hdn & _). rewrite Hx in Hy. injection Hy as <-. by exists x.
Qed.

Lemma inv_register s c b x : sinv s → s_guest s = GRegister c b → s_conns s !! c = Some x → s_streams s !! Uint32 b = None →
  sinv (set_guest (GAck c b) (set_streams (<[Uint32 b := c]> (s_streams s)) s)).
Proof.
  intros [HC Hsid Huniq Hconn Hcsid Hfresh Hhc Hst Hg (Hb1 & Hb2 & Hb3) Hd] Hgr Hx Hfree. rewrite Hgr in *. cbn in Hg, Hb2.
  destruct (Hg c eq_refl) as (y & Hy & Hdn & -> & Ha). rewrite Hx in Hy. injection Hy as <-.
  rewrite (Put_range _ _ (proj1 (Hconn _ _ Hx)) (proj2 HC)) in *.
  set (s' := set_guest _ _).
  assert (Hsv : ∀ c2 y, served s c2 y → served s' c2 y).
  { intros c2 y [?|?]; [|by right]. left. cbn. rewrite lookup_insert_ne; [done|]. intros Heq. rewrite Heq in Hfree. congruence. }
  constructor; cbn [s' set_guest set_streams s_hosts s_streamC s_taken s_conns s_backlog s_guest s_streams guest_conn]; try done.
  - intros k c2 [[<- <-]|[_ Hk]]%lookup_insert_Some; [by exists x|by apply Hst].
  - intros c2 [= <-]. exists x. split_and!; try done. left. cbn. by rewrite lookup_insert_eq.
  - intros c2 y Hy. destruct (Hd _ _ Hy) as [?|(? & ? & ?)]; [by left|right]. split_and!; try done. by apply Hsv.
Qed.

Lemma inv_ack s c b x : sinv s → s_guest s = GAck c b → s_conns s !! c = Some x →
  sinv (set_guest GAccept (set_conn c (mkConn (c_sid x) (c_up x) (c_down x ++ b) (c_hclosed x) (c_gclosed x)) s)).
Proof.
  intros [HC Hsid Huniq Hconn Hcsid Hfresh Hhc Hst Hg (Hb1 & Hb2 & Hb3) Hd] Hgr Hx. rewrite Hgr in *. cbn in Hg, Hb2.
  destruct (Hg c eq_refl) as (y & Hy & Hdn & -> & Ha & Hsv). rewrite Hx in Hy. injection Hy as <-. rewrite Hdn. cbn [app].
  set (x' := mkConn _ _ _ _ _). set (s' := set_guest _ _).
  assert (Hlt : (c < length (s_conns s))%nat) by (by eapply lookup_lt_Some).
  assert (Hkeep : ∀ c2 y (P : conn → Prop), s_conns s !! c2 = Some y → P y → (P x → P x') → ∃ z, s_conns s' !! c2 = Some z ∧ P z).
  { intros c2 y P Hy HP Hm. destruct (decide (c2 = c)) as [->|].
    - exists x'. cbn. rewrite list_lookup_insert_eq by done. split; [done|]. rewrite Hx in Hy. injection Hy as <-. auto.
    - exists y. cbn. by rewrite list_lookup_insert_ne. }
  constructor; cbn [s' set_guest set_conn s_hosts s_streamC s_taken s_conns s_backlog s_guest s_streams guest_conn]; try done.
  - intros c2 y [(-> & -> & _)|[_ Hy]]%(conn_after s); [exact (Hconn c x Hx)|by apply (Hconn c2)].
  - intros c1 c2 y1 y2 [(-> & -> & _)|[Hn1 Hy1]]%(conn_after s) [(-> & -> & _)|[Hn2 Hy2]]%(conn_after s) Heq; try done; by eapply Hcsid.
  - intros h p k c2 y Hp Hs Hn [(-> & -> & _)|[_ Hy]]%(conn_after s); [exact (Hfresh h p k c x Hp Hs Hn Hx)|by eapply (Hfresh h p)].
  - intros h p k c2 bb Hp Hs. destruct (Hhc _ _ _ _ _ Hp Hs) as (y & Hy & HP).
    by apply (Hkeep c2 y (λ z, c_sid z = k ∧ if bb : bool then announced z else c_up z = [])).
  - intros k c2 Hk. destruct (Hst k c2 Hk) as (y & Hy & HP). by apply (Hkeep c2 y (λ z, k = c_sid z ∧ announced z)).
  - split_and!; try done. intros c2 Hc2. destruct (Hb3 c2 Hc2) as (y & Hy & Hyd). destruct (decide (c2 = c)) as [->|Hne]; [by destruct (Hb2 c)|].
    exists y. by rewrite list_lookup_insert_ne.
  - intros c2 y [(-> & -> & _)|[_ Hy]]%(conn_after s); [|by apply Hd]. right. by split_and!.
Qed.

(** A stream is closed: its registration goes, and no other's. *)
Lemma inv_close s k c x : sinv s → s_conns s !! c = Some x → k = c_sid x →
  sinv (set_conn c (close_guest x) (set_streams (delete k (s_streams s)) s)).
Proof.
  intros Hi Hx ->. apply (inv_flags _ c x (close_guest x)) in Hi; [|done..].
  destruct Hi as [HC Hsid Huniq Hconn Hcsid Hfresh Hhc Hst Hg Hb Hd]. set (s1 := set_conn c (close_guest x) s) in *.
  assert (Hlt : (c < length (s_conns s))%nat) by (by eapply lookup_lt_Some).
  assert (Hc1 : s_conns s1 !! c = Some (close_guest x)) by (cbn; by rewrite list_lookup_insert_eq).
  assert (Hsv : ∀ c2 y, s_conns s1 !! c2 = Some y → served s1 c2 y → s_streams (set_streams (delete (c_sid x) (s_streams s)) s) !! c_sid y = Some c2 ∨ c_gclosed y = true).
  { intros c2 y Hy [?|?]; [|by right]. destruct (decide (c_sid y = c_sid x)) as [Heq|].
    - right. assert (c2 = c) as -> by (by eapply Hcsid). rewrite Hc1 in Hy. by injection Hy as <-.
    - left. cbn. by rewrite lookup_delete_ne. }
  constructor; try done.
  - intros k c2 Hk. apply Hst. cbn in Hk |- *. by apply lookup_delete_Some in Hk as [_ ?].
  - intros c2 Hc2. destruct (Hg c2 Hc2) as (y & Hy & Hdn & HP). exists y. split_and!; [done|done|]. cbn in HP |- *. destruct (s_guest s); try done.
    destruct HP as (? & ? & ?). split_and!; try done. by apply Hsv.
  - intros c2 y Hy. destruct (Hd _ _ Hy) as [?|(? & ? & ?)]; [by left|right]. split_and!; try done. by apply Hsv.
Qed.

(** ** Every step keeps it *)

Definition full_reads (i : sinput) : bool := match i with IGuest n _ => (4 <=? n)%nat | _ => true end.

Lemma inv_host_step s h a s' : sinv s → StartStream h a s = Some s' → Z.of_nat (s_taken s') < two32 → sinv s'.
Proof.
  intros Hi Hs Hlt. unfold StartStream in Hs. destruct (s_hosts s !! h) as [p|] eqn:Hp; [|done].
  assert (Hclose : ∀ c x e, s_conns s !! c = Some x → sinv (set_host h (HDone (Err e)) (set_conn c (close_host x) s)))
    by (intros c x e Hx; eapply inv_set_host; [by eapply inv_flags|done..]).
  destruct p as [|d b|d b sid|u d b|sid c|sid c|r]; try done.
  - injection Hs as <-. destruct (ha_running a); by eapply inv_set_host.
  - destruct (s_now s <? d).
    + injection Hs as <-. destruct (inv_take s h d b Hi Hp Hlt) as [Hne Hi']. by rewrite (proj2 (Z.eqb_neq _ _) Hne).
    + injection Hs as <-. by eapply inv_set_host.
  - destruct (ha_ctx a); [injection Hs as <-; by eapply inv_set_host|]. destruct (ha_dial a); injection Hs as <-; [by eapply inv_dial|by eapply inv_set_host].
  - destruct (u <=? s_now s); [|done]. injection Hs as <-. by eapply inv_set_host.
  - destruct (s_conns s !! c) as [x|] eqn:Hx; [|done]. destruct (ha_write a); injection Hs as <-; [by apply Hclose|by apply inv_write].
  - destruct (s_conns s !! c) as [x|] eqn:Hx; [|done]. destruct (ha_read a); [injection Hs as <-; by apply Hclose|].
    destruct (length (c_down x) <? 4)%nat; [done|]. destruct (Uint32 (take 4 (c_down x)) =? sid); injection Hs as <-; [|by apply Hclose].
    eapply inv_set_host; [done|done|done..|]. intros k c2 b [= <- <- <-]. exact (i_hconn s Hi h (HRead sid c) sid c true Hp eq_refl).
Qed.

Lemma inv_guest_step s n fails s' : sinv s → (4 ≤ n)%nat → Run n fails s = Some s' → sinv s'.
Proof.
  intros Hi Hn Hs. unfold Run in Hs.
  assert (Hclose : ∀ c x, s_conns s !! c = Some x → sinv (set_guest GAccept (set_conn c (close_guest x) s)))
    by (intros c x Hx; apply inv_guest_free; [by eapply inv_flags|done]).
  destruct (s_guest s) as [|c|c b|c b|] eqn:Hg; [|destruct (s_conns s !! c) as [x|] eqn:Hx; [|done]..|done].
  - destruct fails; [injection Hs as <-; by apply inv_guest_free|]. destruct (s_backlog s) eqn:Hb; [done|]. injection Hs as <-. by eapply inv_accept.
  - destruct fails; [injection Hs as <-; by apply Hclose|]. replace (n `min` 4)%nat with 4%nat in Hs by lia.
    destruct (i_conn s Hi c x Hx) as [Hr [Hup|Ha]]; [by rewrite Hup in Hs|].
    unfold announced in Ha. rewrite Ha in Hs. cbn in Hs. injection Hs as <-. by eapply inv_read.
  - destruct (decide _) as [Hin|Hfree]; injection Hs as <-; [by apply Hclose|]. eapply inv_register; [done..|]. by apply eq_None_not_Some.
  - destruct fails; injection Hs as <-; [by apply Hclose|by apply inv_ack].
Qed.

Lemma closable_own s k c : sinv s → closable k c s = true → ∃ x, s_conns s !! c = Some x ∧ k = c_sid x.
Proof.
  intros Hi [Hk%bool_decide_eq_true|Hk]%orb_true_iff; [by destruct (i_streams s Hi k c Hk) as (x & Hx & -> & _); eauto|].
  destruct (s_conns s !! c) as [x|] eqn:Hx; [|done]. exists x. split; [done|].
  apply andb_true_iff in Hk as [[_ Hl]%andb_true_iff Hk%Z.eqb_eq]. destruct (i_conn s Hi c x Hx) as [Hr [Hup|Ha]]; [by rewrite Hup in Hl|].
  unfold announced in Ha. rewrite Ha, (Put_range _ _ Hr (proj2 (i_C s Hi))) in Hk. done.
Qed.

Lemma sinv_step s i s' : sinv s → full_reads i = true → sstep i s = Some s' → Z.of_nat (s_taken s') < two32 → sinv s'.
Proof.
  intros Hi Hf Hs Hlt. destruct i as [h a|n fails|k c|c|dt]; cbn in *.
  - by eapply inv_host_step.
  - eapply inv_guest_step; [done| |done]. by apply Nat.leb_le.
  - destruct (closable k c s) eqn:Hc; [|done]. apply (closable_own _ _ _ Hi) in Hc as (x & Hx & ->). unfold Close in Hs. rewrite Hx in Hs.
    injection Hs as <-. by apply inv_close.
  - destruct (s_conns s !! c) as [x|] eqn:Hx; [|done]. injection Hs as <-. by eapply inv_flags.
  - injection Hs as <-. destruct Hi. by constructor.
Qed.

Lemma sinv_start n : sinv (start n).
Proof.
  assert (Hh : ∀ h p, s_hosts (start n) !! h = Some p → p = HIdle) by (intros h p [-> _]%lookup_replicate_1; done).
  constructor; try done; repeat (intros ? || (match goal with H : s_hosts (start n) !! _ = Some _ |- _ => apply Hh in H; subst end)); try done.
  split_and!; [constructor|done|]. intros c Hc. by apply elem_of_nil in Hc.
Qed.

Lemma taken_mono s i s' : sstep i s = Some s' → (s_taken s ≤ s_taken s')%nat.
Proof.
  destruct i; cbn; unfold StartStream, Run, Close; intros Hs;
    repeat (case_match; simplify_eq); try apply fmap_Some in Hs as (? & _ & ->); cbn; try lia; by simplify_eq.
Qed.

Lemma sinv_run is_ : ∀ s s', sinv s → forallb full_reads is_ = true → srun is_ s = Some s' → Z.of_nat (s_taken s') < two32 →
  sinv s' ∧ (s_taken s ≤ s_taken s')%nat.
Proof.
  induction is_ as [|i is_ IH]; intros s s' Hi Hf Hs Hlt; cbn in *; [injection Hs as <-; split; [done|lia]|].
  apply andb_true_iff in Hf as [Hf1 Hf2]. destruct (sstep i s) as [s1|] eqn:Hs1; [|done]. cbn in Hs.
  assert (Hm : ∀ l a b, srun l a = Some b → (s_taken a ≤ s_taken b)%nat).
  { clear. induction l as [|j l IHl]; cbn; intros a b H; [injection H as <-; lia|]. destruct (sstep j a) as [a1|] eqn:Ha; [|done].
    apply taken_mono in Ha. apply IHl in H. lia. }
  pose proof (Hm _ _ _ Hs). pose proof (taken_mono _ _ _ Hs1).
  destruct (IH s1 s') as [? ?]; try done; [eapply sinv_step; try done; lia|]. split; [done|lia].
Qed.

(** Who has its stream read the guest's answer. *)
Definition acknowledged (s : sst) : Prop :=
  ∀ h sid c, s_hosts s !! h = Some (HDone (Ok (sid, c))) → ∃ x, s_conns s !! c = Some x ∧ c_down x ≠ [].

Lemma down_kept s i s' c x : sstep i s = Some s' → s_conns s !! c = Some x → c_down x ≠ [] →
  ∃ y, s_conns s' !! c = Some y ∧ c_down y ≠ [].
Proof.
  intros Hs Hx Hd.
  assert (Hset : ∀ c2 x2 y t, s_conns t = s_conns s → s_conns s !! c2 = Some x2 → (c_down x2 ≠ [] → c_down y ≠ []) →
    ∃ z, s_conns (set_conn c2 y t) !! c = Some z ∧ c_down z ≠ []).
  { intros c2 x2 y t Ht Hx2 Hy. cbn. rewrite Ht. destruct (decide (c = c2)) as [<-|]; [|rewrite list_lookup_insert_ne by done; eauto].
    rewrite list_lookup_insert_eq by (by eapply lookup_lt_Some). exists y. rewrite Hx in Hx2. injection Hx2 as <-. auto. }
  assert (Hkeep : ∀ t, s_conns t = s_conns s → ∃ z, s_conns t !! c = Some z ∧ c_down z ≠ []) by (intros t ->; eauto).
  destruct i as [h a|n fails|k c2|c2|dt]; cbn in Hs; unfold StartStream, Run, Close in Hs;
    repeat (case_match; simplify_eq); try (by apply Hkeep); try (by eapply (Hset _ _ _ s)).
  - exists x. split; [by apply lookup_app_l_Some|done].
  - eapply (Hset _ _ _ s); [done|done|]. cbn. intros H1 H2. apply H1. by apply app_eq_nil in H2 as [? _].
  - apply fmap_Some in Hs as (x2 & Hx2 & ->). by eapply (Hset _ _ _ s).
  - injection Hs as <-. by apply Hkeep.
Qed.

Lemma acknowledged_step s i s' : acknowledged s → sstep i s = Some s' → acknowledged s'.
Proof.
  intros Ha Hs h sid c Hh.
  assert (Hold : s_hosts s !! h = Some (HDone (Ok (sid, c))) → ∃ x, s_conns s' !! c = Some x ∧ c_down x ≠ []).
  { intros Hold. destruct (Ha _ _ _ Hold) as (x & Hx & Hd). by eapply down_kept. }
  destruct i as [h2 a|n fails|k c2|c2|dt]; cbn in Hs.
  - unfold StartStream in Hs. repeat (case_match; simplify_eq);
      (apply host_after in Hh as [(-> & Hq & _)|[_ Hq]]; [try discriminate Hq|by apply Hold]).
    injection Hq as -> ->. eexists. split; [done|]. intros Hd. rewrite Hd in *. done.
  - apply Hold. unfold Run in Hs. repeat (case_match; simplify_eq); done.
  - apply Hold. unfold Close in Hs. repeat (case_match; simplify_eq); done.
  - apply Hold. apply fmap_Some in Hs as (x2 & _ & ->). done.
  - apply Hold. by simplify_eq.
Qed.

Lemma acknowledged_run is_ : ∀ s s', acknowledged s → srun is_ s = Some s' → acknowledged s'.
Proof.
  induction is_ as [|i is_ IH]; intros s s' Ha Hs; cbn in Hs; [by injection Hs as <-|].
  destruct (sstep i s) as [s1|] eqn:H1; [|done]. eapply IH; [|done]. by eapply acknowledged_step.
Qed.

Lemma acknowledged_start n : acknowledged (start n).
Proof. intros h sid c [? _]%lookup_replicate_1. done. Qed.

(** C8: When a caller of StartStream has its stream, the guest got its
    identifier on the connection the caller holds, acknowledged it, and
    answers Get with that connection until it closes it; no two callers have
    an identifier or a connection in common; whatever the interleaving of
    callers, the guest's accept loop, closes and the clock, while fewer than
    2^32 identifiers were taken and the guest's reads return the four bytes. *)
Theorem streams_connect n is_ s :
  forallb full_reads is_ = true → srun is_ (start n) = Some s → Z.of_nat (s_taken s) < two32 →
  (∀ h sid c, s_hosts s !! h = Some (HDone (Ok (sid, c))) →
     1 ≤ sid ∧ ∃ x, s_conns s !! c = Some x ∧ c_up x = PutUint32 sid ∧ c_down x = PutUint32 sid ∧
       (Get sid s = Ok c ∨ c_gclosed x = true)) ∧
  (∀ h h' sid sid' c c', s_hosts s !! h = Some (HDone (Ok (sid, c))) → s_hosts s !! h' = Some (HDone (Ok (sid', c'))) →
     h ≠ h' → sid ≠ sid' ∧ c ≠ c').
Proof.
  intros Hf Hs Hlt. destruct (sinv_run _ _ _ (sinv_start n) Hf Hs Hlt) as [Hi _].
  pose proof (acknowledged_run _ _ _ (acknowledged_start n) Hs) as Hack. split.
  - intros h sid c Hh. split; [by apply (i_sid s Hi h _ sid Hh)|]. destruct (i_hconn s Hi h _ sid c true Hh eq_refl) as (x & Hx & <- & Ha).
    exists x. destruct (Hack _ _ _ Hh) as (y & Hy & Hd). rewrite Hx in Hy. injection Hy as <-.
    destruct (i_down s Hi c x Hx) as [?|(-> & _ & Hsv)]; [done|]. split_and!; [done|done|done|].
    destruct Hsv as [Hk|]; [left|by right]. unfold Get. by rewrite Hk.
  - intros h h' sid sid' c c' Hh Hh' Hne. assert (Hsid : sid ≠ sid') by (intros <-; apply Hne; by eapply (i_uniq s Hi h h')).
    split; [done|]. intros <-. destruct (i_hconn s Hi h _ sid c true Hh eq_refl) as (x & Hx & <- & _).
    destruct (i_hconn s Hi h' _ sid' c true Hh' eq_refl) as (y & Hy & <- & _). congruence.
Qed.

Definition works : hanswer := mkHanswer true None true None None.
Definition refused : hanswer := mkHanswer true None false None None.

(** Two callers; the first is refused once and sleeps while the second gets in. *)
Definition two_callers : list sinput :=
  [IHost 0 works; IHost 1 works; IHost 0 works; IHost 0 refused; IHost 1 works; IHost 1 works; IHost 1 works;
   IGuest 4 false; IGuest 4 false; ITick 5000000%N; IHost 0 works; IHost 0 works; IHost 0 works; IHost 0 works;
   IGuest 4 false; IGuest 4 false; IHost 1 works; IGuest 4 false; IGuest 4 false; IGuest 4 false; IGuest 4 false; IHost 0 works;
   IClose 2 0].

Lemma streams_connect_witness :
  ∃ s, srun two_callers (start 2) = Some s ∧ s_hosts s = [HDone (Ok (3, 1%nat)); HDone (Ok (2, 0%nat))] ∧
    Get 3 s = Ok 1%nat ∧
    ((∀ h sid c, s_hosts s !! h = Some (HDone (Ok (sid, c))) →
       1 ≤ sid ∧ ∃ x, s_conns s !! c = Some x ∧ c_up x = PutUint32 sid ∧ c_down x = PutUint32 sid ∧
         (Get sid s = Ok c ∨ c_gclosed x = true)) ∧
    (∀ h h' sid sid' c c', s_hosts s !! h = Some (HDone (Ok (sid, c))) → s_hosts s !! h' = Some (HDone (Ok (sid', c'))) →
       h ≠ h' → sid ≠ sid' ∧ c ≠ c')).
Proof.
  eexists. split; [vm_compute; reflexivity|]. split; [reflexivity|]. split; [vm_compute; reflexivity|].
  apply (streams_connect 2 two_callers); [reflexivity|vm_compute; reflexivity|vm_compute; reflexivity].
Defined.

(** A read of fewer bytes registers the caller under another identifier, and the caller
    is told its stream mismatches: the guest reads with Read, the host with ReadFull. *)
Lemma short_read_misregisters :
  ∃ s, srun [IHost 0 works; IHost 0 works; IHost 0 works; IHost 0 works; IGuest 0 false; IGuest 3 false; IGuest 0 false; IGuest 0 false; IHost 0 works]
         (start 1) = Some s ∧
    s_hosts s !! 0%nat = Some (HDone (Err mismatch)) ∧ Get 0 s = Ok 0%nat ∧ (∀ c, Get 1 s ≠ Ok c).
Proof. eexists. split; [vm_compute; reflexivity|]. by split_and!. Qed.

(** ** Shutdown

    What Shutdown and the Close of a stream do, one operation on the mutex, the map or a
    socket at a time: a goroutine that locks a mutex that is held waits. *)

Inductive sop := OLock | OUnlock | ODelete (sid : Z) | OConnClose (c : nat) | OListenerClose.

Definition streamConn_Close (k : Z * nat) : list sop := [OLock; ODelete k.1; OUnlock; OConnClose k.2].

(** [order] is the order in which the map is ranged over. *)
Definition Shutdown (order : list (Z * nat)) : list sop :=
  [OLock] ++ flat_map streamConn_Close order ++ [OListenerClose; OUnlock].

(** Runs until the end or until the goroutine waits for a mutex it holds itself: what was
    done, whether the mutex is held, what is left. *)
Fixpoint alone (held : bool) (ops : list sop) : list sop * bool * list sop :=
  match ops with
  | [] => ([], held, [])
  | OLock :: rest => if held then ([], held, ops) else let '(d, h, r) := alone true rest in (OLock :: d, h, r)
  | OUnlock :: rest => let '(d, h, r) := alone false rest in (OUnlock :: d, h, r)
  | o :: rest => let '(d, h, r) := alone held rest in (o :: d, h, r)
  end.

(** Closing a stream by itself ends and frees the mutex. *)
Lemma close_ends k : alone false (streamConn_Close k) = (streamConn_Close k, false, []).
Proof. done. Qed.

(** Shutdown holds the mutex when it closes the streams of the map, whose Close takes it:
    with a stream open it waits for itself before the listener is closed, and keeps the
    mutex from Run and Get. *)
Lemma shutdown_blocks order : order ≠ [] →
  ∃ rest, alone false (Shutdown order) = ([OLock], true, OLock :: rest) ∧ OListenerClose ∈ rest.
Proof.
  destruct order as [|k order]; [done|]. intros _. eexists. split; [done|].
  set_solver.
Qed.
