(* ===== verification/ProcessIO.v ===== *)
(** The standard streams of a process inside the guest: vminit/process/io.go and
    getStreams of utils.go.

    The world holds the open handles (vsock streams, FIFO ends, files, pipe ends), the
    logging processes and the goroutines that copy; [gstep] lets the goroutines, the
    container and the closers of a stream interleave. *)
From S2P Require Import Prelude GoStrings GoText GoState GoURL.
From S2P Require Import ShimIO.
From Stdlib Require Import Ascii.

(** ** The world *)

(** One end of the container's stdout or stderr: what it wrote and nobody read, whether
    it closed it, and all it wrote. *)
Record pipeEnd := mkPipeEnd { pe_pending : list chunk; pe_eof : bool; pe_all : list chunk }.

Inductive gwriter := GHandle (h : handle) | GShared.

Inductive gphase := PCopy | PHold (c : chunk) | PCopied | PCounted | PClosed | PEnd.

(** A goroutine of [startPipeCopy]: [g_src] is whether the runtime's I/O has that end,
    [g_read] what it read. *)
Record gcopier := mkGcopier {
  g_index : nat; g_src : bool; g_dst : gwriter; g_reader : option handle; g_phase : gphase; g_failed : bool
}.

Record gworld := mkGw {
  gw_next : nat;
  gw_open : gset handle;
  gw_closed : list handle;
  gw_same : option (handle * Z);
  gw_copiers : list gcopier;
  gw_wg : Z;
  gw_stdin : option handle;              (** the stream or FIFO copied to stdin *)
  gw_pipes : gmap nat pipeEnd;
  gw_out : list (handle * chunk);        (** what was written, in order *)
  gw_procs : list (bool * bool);         (** logging processes: terminated, killed *)
  gw_crashed : bool
}.

Definition w_fds next open closed w := mkGw next open closed (gw_same w) (gw_copiers w) (gw_wg w) (gw_stdin w) (gw_pipes w) (gw_out w) (gw_procs w) (gw_crashed w).
Definition w_same x w := mkGw (gw_next w) (gw_open w) (gw_closed w) x (gw_copiers w) (gw_wg w) (gw_stdin w) (gw_pipes w) (gw_out w) (gw_procs w) (gw_crashed w).
Definition w_copiers x n w := mkGw (gw_next w) (gw_open w) (gw_closed w) (gw_same w) x n (gw_stdin w) (gw_pipes w) (gw_out w) (gw_procs w) (gw_crashed w).
Definition w_stdin x w := mkGw (gw_next w) (gw_open w) (gw_closed w) (gw_same w) (gw_copiers w) (gw_wg w) x (gw_pipes w) (gw_out w) (gw_procs w) (gw_crashed w).
Definition w_pipes x w := mkGw (gw_next w) (gw_open w) (gw_closed w) (gw_same w) (gw_copiers w) (gw_wg w) (gw_stdin w) x (gw_out w) (gw_procs w) (gw_crashed w).
Definition w_out x w := mkGw (gw_next w) (gw_open w) (gw_closed w) (gw_same w) (gw_copiers w) (gw_wg w) (gw_stdin w) (gw_pipes w) x (gw_procs w) (gw_crashed w).
Definition w_procs x w := mkGw (gw_next w) (gw_open w) (gw_closed w) (gw_same w) (gw_copiers w) (gw_wg w) (gw_stdin w) (gw_pipes w) (gw_out w) x (gw_crashed w).
Definition w_crash w := mkGw (gw_next w) (gw_open w) (gw_closed w) (gw_same w) (gw_copiers w) (gw_wg w) (gw_stdin w) (gw_pipes w) (gw_out w) (gw_procs w) true.

Definition g_new (w : gworld) : handle * gworld :=
  (gw_next w, w_fds (S (gw_next w)) ({[gw_next w]} ∪ gw_open w) (gw_closed w) w).
Definition g_close (h : handle) (w : gworld) : gworld := w_fds (gw_next w) (gw_open w ∖ {[h]}) (gw_closed w ++ [h]) w.

(** How a FIFO is opened. *)
Inductive fmode := FRead | FWrite | FReadNB | FWriteNB.

(** What the guest's kernel and libraries answer.  [ge_pipe n] is the answer to
    os.Pipe when [n] is the next descriptor. *)
Record genv := mkGenv {
  ge_ns : res string;                         (** namespaces.NamespaceRequired *)
  ge_null : option error;                     (** runc.NewNullIO *)
  ge_pipeIO : option error;                   (** runc.NewPipeIO *)
  ge_isFifo : string → res bool;
  ge_openFifo : string → fmode → option error;
  ge_mkdirAll : string → option error;
  ge_create : string → option error;          (** O_APPEND|O_CREATE|O_WRONLY *)
  ge_closeFile : option error;
  ge_openFile : string → option error;        (** O_WRONLY|O_APPEND *)
  ge_pipe : nat → option error;               (** os.Pipe, by the next descriptor *)
  ge_start : option error;                    (** cmd.Start *)
  ge_ready : option error;                    (** reading the ready pipe, EOF excepted *)
  ge_sigterm : option error;
  ge_wait : option (option error);            (** cmd.Wait's result, or none within 12 seconds *)
  ge_kill : option error
}.

Section pio.
Context (env : genv) (sm : Z → res handle).

Definition g_answer (e : option error) : ST gworld () := match e with None => ret tt | Some e => fail e end.
Definition g_open (e : option error) : ST gworld handle := λ w,
  match e with Some e => (Err e, w) | None => let '(h, w') := g_new w in (Ok h, w') end.
Definition g_shut (h : option handle) : ST gworld () :=
  modify (λ w, match h with Some h => g_close h w | None => w end).

(** ** Streams *)

Definition getStream (uri : string) : res handle :=
  match CutPrefix "stream://" uri with
  | None => Err (mkError ErrInvalidArgument "not a stream: invalid argument")
  | Some rest =>
      match ParseUint rest 10 32 with
      | None => Err (errorf ("invalid stream id " +:+ fmt_q uri))
      | Some sid =>
          match sm sid with
          | Err _ => Err (mkError ErrNotFound ("unable to get stream " +:+ fmt_d sid +:+ ": not found"))
          | Ok c => Ok c
          end
      end
  end.

Definition stream_or_none (uri : string) : res (option handle) :=
  if decide (uri = "") then Ok None else let! h := getStream uri in Ok (Some h).

Definition getStreams (sio : Stdio) : ST gworld conns :=
  do! s0 := wrapping "failed to get stdin stream" (lift (stream_or_none (Stdin sio))) in
  do! s1 := on_error (wrapping "failed to get stdout stream" (lift (stream_or_none (Stdout sio)))) (g_shut s0) in
  do! s2 := on_error (wrapping "failed to get stderr stream" (lift (stream_or_none (Stderr sio)))) (g_shut s0 ;;! g_shut s1) in
  ret (mkConns s0 s1 s2).

(** ** The runtime's I/O *)

Record pipe := mkPipe { p_r : handle; p_w : handle }.
Record binaryIO := mkBinary { b_proc : nat; b_out : pipe; b_err : pipe }.

(** [RPipe h i o e]: the pipes of go-runc, closed together, with the ends that were
    asked for. *)
Inductive runcIO := RNull | RPipe (h : handle) (stdin stdout stderr : bool) | RBinary (b : binaryIO).

Definition has_end (rio : runcIO) (index : nat) : bool :=
  match rio with
  | RPipe _ i o e => match index with O => i | 1 => o | _ => e end
  | _ => false
  end.

Record processIO := mkPio { p_io : option runcIO; p_uri : option URL; p_copy : bool; p_stdio : Stdio; p_streams : conns }.

(** [runc.NewPipeIO(uid, gid, withConditionalIO(stdio))] *)
Definition NewPipeIO (sio : Stdio) : ST gworld runcIO :=
  do! h := g_open (ge_pipeIO env) in
  ret (RPipe h (negb (bool_decide (Stdin sio = ""))) (negb (bool_decide (Stdout sio = ""))) (negb (bool_decide (Stderr sio = "")))).

(** ** Logging binaries *)

(** [errors.Join]: nil for no error; its class is taken from the first. *)
Definition errors_Join (l : list (option error)) : option error :=
  match omap id l with
  | [] => None
  | e :: es => Some (mkError (ekind e) (foldl (λ m x, m +:+ String "010"%char (emsg x)) (emsg e) es))
  end.

(** A call that only returns an error. *)
Definition call : Type := gworld → option error * gworld.

(** [f.Close()] of an os.File: an error when it is closed already. *)
Definition file_Close (h : handle) : call := λ w,
  if decide (h ∈ gw_open w) then (None, g_close h w) else (Some (errorf "file already closed"), w).

Definition pipe_Close (p : pipe) : call := λ w,
  let '(e1, w1) := file_Close (p_w p) w in
  let '(e2, w2) := file_Close (p_r p) w1 in
  (errors_Join [wrap "pipe: failed to close write pipe" <$> e1; wrap "pipe: failed to close read pipe" <$> e2], w2).

Definition newPipe : ST gworld pipe := λ w,
  match ge_pipe env (gw_next w) with
  | Some e => (Err e, w)
  | None => let '(r, w1) := g_new w in let '(x, w2) := g_new w1 in (Ok (mkPipe r x), w2)
  end.

Definition proc_Kill (i : nat) : call := λ w,
  match ge_kill env with
  | Some e => (Some e, w)
  | None => (None, w_procs (<[i := (true, true)]> (gw_procs w)) w)
  end.

Definition cmd_Start : ST gworld nat := λ w,
  match ge_start env with
  | Some e => (Err e, w)
  | None => (Ok (length (gw_procs w)), w_procs (gw_procs w ++ [(false, false)]) w)
  end.

(** The deferred function: on an error the closers run in the order they were
    registered, and their errors join it. *)
Fixpoint run_closers (cs : list call) (w : gworld) : list (option error) * gworld :=
  match cs with
  | [] => ([], w)
  | c :: cs' => let '(e, w1) := c w in let '(es, w2) := run_closers cs' w1 in (e :: es, w2)
  end.

Definition closing {A} (cs : list call) (m : ST gworld A) : ST gworld A := λ w,
  match m w with
  | (Ok a, w') => (Ok a, w')
  | (Err e, w') => let '(es, w'') := run_closers cs w' in (Err (default e (errors_Join (Some e :: es))), w'')
  end.

(** [if err := c(); err != nil { return fmt.Errorf("msg: %w", err) }] *)
Definition must (msg : string) (c : call) : ST gworld () := λ w,
  match c w with (Some e, w') => (Err (wrap msg e), w') | (None, w') => (Ok tt, w') end.

Definition NewBinaryIO : ST gworld runcIO :=
  do! _ := closing [] (lift (ge_ns env)) in
  do! out := closing [] (wrapping "failed to create stdout pipes" newPipe) in
  do! serr := closing [pipe_Close out] (wrapping "failed to create stderr pipes" newPipe) in
  let closers := [pipe_Close out; pipe_Close serr] in
  do! rw := closing closers newPipe in
  let closers := closers ++ [file_Close (p_r rw); file_Close (p_w rw)] in
  do! p := closing closers (wrapping "failed to start binary process" cmd_Start) in
  let closers := closers ++ [proc_Kill p] in
  closing closers
    (must "failed to close write pipe after start" (file_Close (p_w rw)) ;;!
     wrapping "failed to read from logging binary" (g_answer (ge_ready env)) ;;!
     ret (RBinary (mkBinary p out serr))).

Definition b_CloseAfterStart (b : binaryIO) : call := λ w,
  let '(e1, w1) := file_Close (p_r (b_out b)) w in
  let '(e2, w2) := file_Close (p_r (b_err b)) w1 in
  (errors_Join [e1; e2], w2).

Definition b_cancel (b : binaryIO) : call := λ w,
  match ge_sigterm env with
  | Some e =>
      let '(k, w') := proc_Kill (b_proc b) w in
      (errors_Join [Some (wrap "failed to send SIGTERM" e); wrap "failed to kill process after faulty SIGTERM" <$> k], w')
  | None =>
      match ge_wait env with
      | Some e => (e, w_procs (<[b_proc b := (true, false)]> (gw_procs w)) w)
      | None => let '(k, w') := proc_Kill (b_proc b) w in (wrap "failed to kill shim logger process" <$> k, w')
      end
  end.

Definition b_Close (b : binaryIO) : call := λ w,
  let '(e1, w1) := pipe_Close (b_out b) w in
  let '(e2, w2) := pipe_Close (b_err b) w1 in
  let '(e3, w3) := b_cancel b w2 in
  (errors_Join [e1; e2; e3], w3).

(** ** By scheme *)

Definition with_io (p : processIO) (io : runcIO) : processIO := mkPio (Some io) (p_uri p) (p_copy p) (p_stdio p) (p_streams p).

Definition createStreamIO (sio : Stdio) (p : processIO) : ST gworld processIO :=
  do! streams := getStreams sio in
  do! io := NewPipeIO sio in
  ret (mkPio (Some io) (p_uri p) true (p_stdio p) streams).

Definition createFifoIO (sio : Stdio) (p : processIO) : ST gworld processIO :=
  do! io := NewPipeIO sio in
  ret (mkPio (Some io) (p_uri p) true (p_stdio p) (p_streams p)).

Definition createBinaryIO (p : processIO) : ST gworld processIO :=
  do! io := NewBinaryIO in ret (with_io p io).

(** Both outputs go to the file; the pipes are those of the original request. *)
Definition createFileIO (sio : Stdio) (u : URL) (p : processIO) : ST gworld processIO :=
  g_answer (ge_mkdirAll env (Dir (u_Path u))) ;;!
  g_answer (ge_create env (u_Path u)) ;;!
  g_answer (ge_closeFile env) ;;!
  do! io := NewPipeIO sio in
  ret (mkPio (Some io) (p_uri p) true (mkStdio (Stdin (p_stdio p)) (u_Path u) (u_Path u) (Terminal (p_stdio p))) (p_streams p)).

Definition createIO (sio : Stdio) : ST gworld processIO :=
  let p := mkPio None None false sio no_conns in
  if IsNull sio then g_answer (ge_null env) ;;! ret (with_io p RNull)
  else
    do! u := wrapping "unable to parse stdout uri" (lift (url_Parse (Stdout sio))) in
    let scheme := if decide (u_Scheme u = "") then "fifo" else u_Scheme u in
    let p := mkPio None (Some (mkURL scheme (u_Path u))) false sio no_conns in
    if decide (scheme = "stream") then createStreamIO sio p
    else if decide (scheme = "fifo") then createFifoIO sio p
    else if decide (scheme = "binary") then createBinaryIO p
    else if decide (scheme = "file") then createFileIO sio u p
    else fail (mkError ErrNotImplemented ("unsupported STDIO scheme " +:+ scheme +:+ ": not implemented")).

(** ** Copying *)

Inductive closer := CNil | CNop | CHandle (h : handle).

Record pipeOutput := mkOutput { o_name : string; o_index : nat }.

Definition stream_at (c : conns) (index : nat) : option handle := match index with O => c0 c | 1 => c1 c | _ => c2 c end.

Definition g_get_same : ST gworld (option (handle * Z)) := λ w, (Ok (gw_same w), w).

Definition openPipeOutput (out : pipeOutput) (stdout stderr : string) (streams : conns) : ST gworld (gwriter * option handle) :=
  match stream_at streams (o_index out) with
  | Some h => ret (GHandle h, None)
  | None =>
      do! ok := lift (ge_isFifo env (o_name out)) in
      if ok : bool then
        do! fw := wrapping ("containerd-shim: opening w/o fifo " +:+ fmt_q (o_name out) +:+ " failed") (g_open (ge_openFifo env (o_name out) FWrite)) in
        do! fr := wrapping ("containerd-shim: opening r/o fifo " +:+ fmt_q (o_name out) +:+ " failed") (g_open (ge_openFifo env (o_name out) FRead)) in
        ret (GHandle fw, Some fr)
      else
        do! same := g_get_same in
        match same with
        | Some (h, n) => modify (w_same (Some (h, (n + 1)%Z))) ;;! ret (GShared, None)
        | None =>
            do! fw := wrapping ("containerd-shim: opening file " +:+ fmt_q (o_name out) +:+ " failed") (g_open (ge_openFile env (o_name out))) in
            if decide (stdout = stderr) then modify (w_same (Some (fw, 1%Z))) ;;! ret (GShared, None)
            else ret (GHandle fw, None)
        end
  end.

Definition startPipeCopy (rio : runcIO) (out : pipeOutput) (wc : gwriter) (rc : option handle) : ST gworld () :=
  modify (λ w, w_copiers (gw_copiers w ++ [mkGcopier (o_index out) (has_end rio (o_index out)) wc rc PCopy false]) (gw_wg w + 1)%Z w).

Definition startPipeStdin (rio : runcIO) (stdin : string) (streams : conns) : ST gworld closer :=
  if decide (stdin = "") then ret CNop
  else match c0 streams with
       | Some h => modify (w_stdin (Some h)) ;;! ret (CHandle h)
       | None =>
           do! f := wrapping ("containerd-shim: opening " +:+ stdin +:+ " failed") (g_open (ge_openFifo env stdin FReadNB)) in
           modify (w_stdin (Some f)) ;;! ret (CHandle f)
       end.

Fixpoint copy_outputs (rio : runcIO) (outs : list pipeOutput) (stdout stderr : string) (streams : conns) : ST gworld () :=
  match outs with
  | [] => ret tt
  | out :: outs' =>
      if decide (o_name out = "") then copy_outputs rio outs' stdout stderr streams
      else
        do! r := openPipeOutput out stdout stderr streams in
        startPipeCopy rio out r.1 r.2 ;;!
        copy_outputs rio outs' stdout stderr streams
  end.

Definition copyPipes (rio : runcIO) (stdin stdout stderr : string) (streams : conns) : ST gworld closer :=
  modify (w_same None) ;;!
  copy_outputs rio [mkOutput stdout 1; mkOutput stderr 2] stdout stderr streams ;;!
  startPipeStdin rio stdin streams.

(** The wait for the goroutines to have begun is left out: it has no effect. *)
Definition Copy (p : processIO) (rio : runcIO) : ST gworld closer :=
  if p_copy p then
    wrapping "unable to copy pipes" (copyPipes rio (Stdin (p_stdio p)) (Stdout (p_stdio p)) (Stderr (p_stdio p)) (p_streams p))
  else if decide (Stdin (p_stdio p) = "") then ret CNil
  else
    do! h := wrapping ("failed to open stdin fifo " +:+ Stdin (p_stdio p)) (g_open (ge_openFifo env (Stdin (p_stdio p)) FWriteNB)) in
    ret (CHandle h).

(** [processIO.Close]: the runtime's I/O when there is one, the streams otherwise. *)
Definition pio_Close (p : processIO) : call := λ w,
  match p_io p with
  | Some RNull => (None, w)
  | Some (RPipe h _ _ _) => (None, g_close h w)
  | Some (RBinary b) => b_Close b w
  | None => (None, foldl (flip g_close) w (conns_handles (p_streams p)))
  end.
End pio.

(** ** The goroutines that copy *)

Inductive ginput := KWrite (k : nat) (c : chunk) | KClose (k : nat) | KStep (j : nat) (ok : bool).

Definition with_phase (x : gcopier) (ph : gphase) (failed : bool) : gcopier :=
  mkGcopier (g_index x) (g_src x) (g_dst x) (g_reader x) ph failed.
Definition set_copier (j : nat) (x : gcopier) (w : gworld) : gworld := w_copiers (<[j := x]> (gw_copiers w)) (gw_wg w) w.

Definition dst_handle (d : gwriter) (w : gworld) : option handle :=
  match d with GHandle h => Some h | GShared => fst <$> gw_same w end.

(** [wc.Close()], where the shared file is closed by the last of its users. *)
Definition close_dst (d : gwriter) (w : gworld) : gworld :=
  match d with
  | GHandle h => g_close h w
  | GShared =>
      match gw_same w with
      | None => w
      | Some (h, n) => let w' := w_same (Some (h, (n - 1)%Z)) w in if (0 <? n - 1)%Z then w' else g_close h w'
      end
  end.

Definition copier_step (j : nat) (ok : bool) (x : gcopier) (w : gworld) : option gworld :=
  match g_phase x with
  | PCopy =>
      if g_src x then
        match gw_pipes w !! g_index x with
        | None => None
        | Some (mkPipeEnd [] true _) => Some (set_copier j (with_phase x PCopied (g_failed x)) w)
        | Some (mkPipeEnd [] false _) => None
        | Some (mkPipeEnd (c :: rest) e all) =>
            Some (set_copier j (with_phase x (PHold c) (g_failed x)) (w_pipes (<[g_index x := mkPipeEnd rest e all]> (gw_pipes w)) w))
        end
      else Some (w_crash w)
  | PHold c =>
      match dst_handle (g_dst x) w with
      | None => None
      | Some h =>
          if ok && bool_decide (h ∈ gw_open w)
          then Some (set_copier j (with_phase x PCopy (g_failed x)) (w_out (gw_out w ++ [(h, c)]) w))
          else Some (set_copier j (with_phase x PCopied true) w)
      end
  | PCopied => Some (w_copiers (<[j := with_phase x PCounted (g_failed x)]> (gw_copiers w)) (gw_wg w - 1)%Z w)
  | PCounted => Some (set_copier j (with_phase x PClosed (g_failed x)) (close_dst (g_dst x) w))
  | PClosed => Some (set_copier j (with_phase x PEnd (g_failed x)) (match g_reader x with Some h => g_close h w | None => w end))
  | PEnd => None
  end.

Definition gstep (i : ginput) (w : gworld) : option gworld :=
  if gw_crashed w then None else
  match i with
  | KWrite k c =>
      match gw_pipes w !! k with
      | Some (mkPipeEnd p false all) => Some (w_pipes (<[k := mkPipeEnd (p ++ [c]) false (all ++ [c])]> (gw_pipes w)) w)
      | _ => None
      end
  | KClose k =>
      match gw_pipes w !! k with
      | Some (mkPipeEnd p _ all) => Some (w_pipes (<[k := mkPipeEnd p true all]> (gw_pipes w)) w)
      | None => None
      end
  | KStep j ok => gw_copiers w !! j ≫= λ x, copier_step j ok x w
  end.

Fixpoint grun (is_ : list ginput) (w : gworld) : option gworld :=
  match is_ with [] => Some w | i :: is_' => gstep i w ≫= grun is_' end.

(** ** Stream addresses *)

Lemma before_app c a b : all_chars (λ x, negb (bool_decide (x = c))) a = true → before c (a +:+ b) = a +:+ before c b.
Proof.
  induction a as [|x a IH]; [done|]. cbn [before all_chars String.append]. intros [Hx Ha]%andb_true_iff. apply negb_true_iff, bool_decide_eq_false in Hx.
  change (String x a +:+ b) with (String x (a +:+ b)). change (String x a +:+ before c b) with (String x (a +:+ before c b)).
  cbn [before]. rewrite decide_False by done. by rewrite IH.
Qed.

Lemma before_none c a : all_chars (λ x, negb (bool_decide (x = c))) a = true → before c a = a.
Proof.
  induction a as [|x a IH]; [done|]. cbn [before all_chars String.append]. intros [Hx Ha]%andb_true_iff. apply negb_true_iff, bool_decide_eq_false in Hx.
  rewrite decide_False by done. by rewrite IH.
Qed.

Lemma digit_other c d : is_digit c = true → is_digit d = false → c ≠ d.
Proof. congruence. Qed.

Lemma from_slash_digits s : all_chars is_digit s = true → from_slash s = "".
Proof.
  induction s as [|c s IH]; [done|]. cbn [from_slash all_chars]. intros [Hc Hs]%andb_true_iff. rewrite decide_False by (by eapply digit_other). auto.
Qed.

Lemma digits_not d s : is_digit d = false → all_chars is_digit s = true → all_chars (λ x, negb (bool_decide (x = d))) s = true.
Proof.
  intros Hd. apply all_chars_impl. intros c Hc. apply negb_true_iff, bool_decide_eq_false. by eapply digit_other.
Qed.

Lemma is_digit_not_ctl c : is_digit c = true → negb (is_ctl c) = true.
Proof. destruct c as [[] [] [] [] [] [] [] []]; vm_compute; done. Qed.

(** A stream's address is parsed as one, and yields its identifier. *)
Lemma url_stream sid : (0 ≤ sid)%Z → url_Parse (stream_uri sid) = Ok (mkURL "stream" "").
Proof.
  intros Hs. pose proof (fmt_d_digits sid Hs) as Hd. unfold url_Parse, stream_uri. set (n := fmt_d sid) in *.
  rewrite before_app by done. rewrite (before_none "#" n) by (by apply digits_not).
  assert (Hctl : all_chars (λ c, negb (is_ctl c)) ("stream://" +:+ n) = true).
  { change (all_chars (λ c, negb (is_ctl c)) n = true). eapply all_chars_impl; [|exact Hd]. apply is_digit_not_ctl. }
  rewrite Hctl. cbn [negb].
  change (scheme_from true _ "" _) with (Ok ("stream", "//" +:+ n)). cbn [res_bind fst snd].
  rewrite before_app by done. rewrite (before_none "?" n) by (by apply digits_not).
  change (is_rooted ("//" +:+ n)) with true. cbn [negb bool_decide andb]. rewrite bool_decide_eq_false_2 by done. cbn [andb].
  rewrite CutPrefix_app, from_slash_digits by done. done.
Qed.

Lemma ParseUint_fmt_d n : uint32_range n → ParseUint (fmt_d n) 10 32 = Some n.
Proof.
  unfold uint32_range, two32. intros Hn. unfold ParseUint, unsigned.
  assert (Hv : digits_val 10 0 (fmt_d n) = Some n).
  { unfold fmt_d. rewrite (proj2 (Z.ltb_ge _ _)) by lia. rewrite fmt_digits_val; [done|]. lia. }
  destruct (fmt_d n) as [|a s] eqn:Hs.
  - exfalso. unfold fmt_d in Hs. rewrite (proj2 (Z.ltb_ge _ _)) in Hs by lia. destruct (fmt_digits_S 19 n "") as (b & r & Hb). rewrite Hb in Hs. done.
  - rewrite Hv. by rewrite (proj2 (Z.ltb_lt _ _)) by lia.
Qed.

Lemma getStream_uri sm sid h : uint32_range sid → sm sid = Ok h → getStream sm (stream_uri sid) = Ok h.
Proof. intros Hs Hh. unfold getStream, stream_uri. rewrite CutPrefix_app. by rewrite ParseUint_fmt_d, Hh. Qed.

(** ** Host and guest *)

(** What the host made of one address: nothing when none was asked for, else the address
    of the stream it holds as [oh]. *)
Definition forwarded (henv : ioenv) (wanted uri : string) (oh : option handle) : Prop :=
  match oh with
  | None => wanted = "" ∧ uri = ""
  | Some h => wanted ≠ "" ∧ ∃ sid, e_startStream henv h = Ok sid ∧ uri = stream_uri sid
  end.

Lemma StartStream_forwards henv wanted w sid h w' :
  StartStream henv w = (Ok (sid, h), w') → wanted ≠ "" → forwarded henv wanted (stream_uri sid) (Some h).
Proof.
  unfold StartStream. destruct (e_startStream henv (io_next w)) eqn:He; [|done]. cbn. intros [= -> <- _] Hw. split; [done|]. eauto.
Qed.

Lemma start_one_forwards henv wanted w r w' :
  start_one henv wanted w = (Ok r, w') → forwarded henv wanted (uri_or wanted r) (snd <$> r).
Proof.
  unfold start_one. destruct (decide (wanted = "")) as [->|Hw]; [by intros [= <- _]|].
  intros ([sid h] & w1 & Hs & [= <- _])%bind_Ok. by eapply StartStream_forwards.
Qed.

Lemma on_error_Ok {W A} (m : ST W A) c w a w' : on_error m c w = (Ok a, w') → m w = (Ok a, w').
Proof. unfold on_error. by destruct (m w) as [[?|?] ?]. Qed.

Lemma createStreams_forwards henv sio w gio cs w' : createStreams henv sio w = (Ok (gio, cs), w') →
  forwarded henv (Stdin sio) (Stdin gio) (c0 cs) ∧ forwarded henv (Stdout sio) (Stdout gio) (c1 cs) ∧
  forwarded henv (Stderr sio) (Stderr gio) (c2 cs).
Proof.
  unfold createStreams. intros (r0 & w0 & H0%start_one_forwards & H)%bind_Ok.
  apply bind_Ok in H as (r1 & w1 & H1%on_error_Ok%start_one_forwards & H).
  destruct (decide (Stderr sio = "")) as [He|He]; [|destruct (decide (Stderr sio = Stdout sio)) as [He'|He']].
  - injection H as <- <- _. cbn. by rewrite He.
  - injection H as <- <- _. cbn. split_and!; try done. by rewrite He'.
  - apply bind_Ok in H as ([sid h] & w2 & H2%on_error_Ok & H). injection H as <- <- _. cbn. split_and!; try done. by eapply StartStream_forwards.
Qed.

Section composed.
Context (henv : ioenv) (env : genv) (sm : Z → res handle).

(** The guest's streaming service knows every stream the host has started
    (Streams.streams_connect). *)
Hypothesis sm_knows : ∀ h sid, e_startStream henv h = Ok sid → uint32_range sid ∧ ∃ g, sm sid = Ok g.

(** The guest's end of the host's stream [oh]. *)
Definition peer (oh og : option handle) : Prop :=
  match oh, og with
  | None, None => True
  | Some h, Some g => ∃ sid, e_startStream henv h = Ok sid ∧ sm sid = Ok g
  | _, _ => False
  end.

Lemma stream_found wanted uri oh : forwarded henv wanted uri oh → ∃ og, stream_or_none sm uri = Ok og ∧ peer oh og.
Proof.
  unfold stream_or_none. destruct oh as [h|]; cbn.
  - intros (Hw & sid & Hs & ->). destruct (sm_knows h sid Hs) as (Hr & g & Hg). exists (Some g).
    rewrite decide_False by done. rewrite (getStream_uri sm sid g) by done. cbn. eauto.
  - intros [_ ->]. exists None. by rewrite decide_True.
Qed.

Lemma getStreams_found sio gio cs gw :
  forwarded henv (Stdin sio) (Stdin gio) (c0 cs) → forwarded henv (Stdout sio) (Stdout gio) (c1 cs) →
  forwarded henv (Stderr sio) (Stderr gio) (c2 cs) →
  ∃ gs, getStreams sm gio gw = (Ok gs, gw) ∧ peer (c0 cs) (c0 gs) ∧ peer (c1 cs) (c1 gs) ∧ peer (c2 cs) (c2 gs).
Proof.
  intros (g0 & H0 & P0)%stream_found (g1 & H1 & P1)%stream_found (g2 & H2 & P2)%stream_found.
  exists (mkConns g0 g1 g2). split; [|done]. unfold getStreams, wrapping, on_error, lift, bind. by rewrite H0, H1, H2.
Qed.

Lemma forwarded_empty wanted uri oh : forwarded henv wanted uri oh → uri = "" ↔ wanted = "".
Proof. clear sm_knows. destruct oh as [h|]; cbn; [|naive_solver]. intros (Hw & sid & _ & ->). done. Qed.

Lemma peer_none wanted uri oh og : forwarded henv wanted uri oh → peer oh og → og = None ↔ wanted = "".
Proof. clear sm_knows. destruct oh, og; cbn; naive_solver. Qed.

(** The goroutines of a request whose outputs are streams. *)
Definition stream_copiers (gs : conns) : list gcopier :=
  (match c1 gs with Some h => [mkGcopier 1 true (GHandle h) None PCopy false] | None => [] end) ++
  (match c2 gs with Some h => [mkGcopier 2 true (GHandle h) None PCopy false] | None => [] end).

Lemma copy_streams rio gio gs w :
  (∀ k, has_end rio k = bool_decide (is_Some (stream_at gs k))) →
  (c0 gs = None ↔ Stdin gio = "") → (c1 gs = None ↔ Stdout gio = "") → (c2 gs = None ↔ Stderr gio = "") →
  copyPipes env rio (Stdin gio) (Stdout gio) (Stderr gio) gs w =
    (Ok (match c0 gs with Some h => CHandle h | None => CNop end),
     let w' := w_copiers (gw_copiers w ++ stream_copiers gs) (gw_wg w + Z.of_nat (length (stream_copiers gs)))%Z (w_same None w) in
     match c0 gs with Some h => w_stdin (Some h) w' | None => w' end).
Proof.
  clear sm_knows. intros He H0 H1 H2. pose proof (He 1%nat) as He1. pose proof (He 2%nat) as He2. cbn in He1, He2.
  unfold copyPipes, copy_outputs, bind, modify, openPipeOutput, startPipeCopy, startPipeStdin, stream_copiers. cbn [o_name o_index stream_at].
  destruct gs as [[h0|] [h1|] [h2|]]; cbn in *;
    repeat match goal with
    | H : (None = None ↔ _) |- _ => pose proof (proj1 H eq_refl) as ->; clear H
    | H : (Some _ = None ↔ ?x = _) |- _ => assert (x ≠ "") by naive_solver; clear H
    end; repeat (rewrite decide_False by done; cbn); repeat (rewrite decide_True by done; cbn); unfold w_copiers, w_same, w_stdin; cbn;
    rewrite ?He1, ?He2, <- ?app_assoc, ?app_nil_r; repeat rewrite decide_False by done; cbn; rewrite ?He1, ?He2; cbn;
    try (do 2 f_equal; lia); do 2 f_equal; try lia.
Qed.

Lemma createIO_streams gio gs w sid :
  Stdout gio = stream_uri sid → (0 ≤ sid)%Z → getStreams sm gio w = (Ok gs, w) → ge_pipeIO env = None →
  ∃ p, createIO env sm gio w = (Ok p, (g_new w).2) ∧ p_copy p = true ∧ p_stdio p = gio ∧ p_streams p = gs ∧
    p_io p = Some (RPipe (gw_next w) (negb (bool_decide (Stdin gio = ""))) (negb (bool_decide (Stdout gio = ""))) (negb (bool_decide (Stderr gio = "")))).
Proof.
  clear sm_knows. intros Hout Hsid Hg Hp. exists (mkPio (Some (RPipe (gw_next w) (negb (bool_decide (Stdin gio = ""))) (negb (bool_decide (Stdout gio = "")))
    (negb (bool_decide (Stderr gio = ""))))) (Some (mkURL "stream" "")) true gio gs). split; [|done]. unfold createIO.
  assert (Hn : IsNull gio = false) by (unfold IsNull; rewrite Hout; cbn; by rewrite andb_false_r).
  assert (Hu : url_Parse (Stdout gio) = Ok (mkURL "stream" "")) by (rewrite Hout; by apply url_stream).
  rewrite Hn. unfold bind, wrapping, lift. rewrite Hu. cbn [u_Scheme u_Path].
  change (if decide ("stream" = "") then "fifo" else "stream") with "stream". rewrite decide_True by done. unfold createStreamIO, bind, NewPipeIO, bind, g_open. rewrite Hg, Hp. reflexivity.
Qed.
End composed.

(** C9: The streams a host forwards are served in the guest: when the host has
    set up the streams of a process that has a stdout and the guest's
    streaming service knows them, the guest creates the I/O and starts
    exactly one copy per output asked for, from the container's pipe to its
    end of the host's stream for that output; the wait group counts the
    copies and stdin is closed through the host's stdin stream. *)
Theorem guest_serves_host_streams henv sio w gio cs w' env sm gw :
  createStreams henv sio w = (Ok (gio, cs), w') → Stdout sio ≠ "" → ge_pipeIO env = None →
  (∀ h sid, e_startStream henv h = Ok sid → uint32_range sid ∧ ∃ g, sm sid = Ok g) →
  ∃ p rio gw1 gs c gw2,
    createIO env sm gio gw = (Ok p, gw1) ∧ p_io p = Some rio ∧ Copy env p rio gw1 = (Ok c, gw2) ∧
    peer henv sm (c0 cs) (c0 gs) ∧ peer henv sm (c1 cs) (c1 gs) ∧ peer henv sm (c2 cs) (c2 gs) ∧
    (c0 gs = None ↔ Stdin sio = "") ∧ is_Some (c1 gs) ∧ (c2 gs = None ↔ Stderr sio = "") ∧
    gw_copiers gw2 = gw_copiers gw ++ stream_copiers gs ∧
    gw_wg gw2 = (gw_wg gw + Z.of_nat (length (stream_copiers gs)))%Z ∧
    c = (match c0 gs with Some h => CHandle h | None => CNop end) ∧
    gw_open gw2 = {[gw_next gw]} ∪ gw_open gw.
Proof.
  intros (F0 & F1 & F2)%createStreams_forwards Hout Hp Hsm.
  destruct (getStreams_found henv sm Hsm sio gio cs gw F0 F1 F2) as (gs & Hg & P0 & P1 & P2).
  assert (Hsid : ∃ sid, Stdout gio = stream_uri sid ∧ (0 ≤ sid)%Z).
  { destruct (c1 cs) as [h1|]; [|by destruct F1]. destruct F1 as (_ & sid & Hs & ->). exists sid. split; [done|].
    destruct (Hsm h1 sid Hs) as [[? _] _]. done. }
  destruct Hsid as (sid & Hs & Hge). destruct (createIO_streams env sm gio gs gw sid Hs Hge Hg Hp) as (p & Hc & Hcopy & Hst & Hps & Hio).
  pose proof (peer_none henv sm _ _ _ _ F0 P0) as N0. pose proof (peer_none henv sm _ _ _ _ F1 P1) as N1. pose proof (peer_none henv sm _ _ _ _ F2 P2) as N2.
  pose proof (forwarded_empty _ _ _ _ F0) as E0. pose proof (forwarded_empty _ _ _ _ F1) as E1. pose proof (forwarded_empty _ _ _ _ F2) as E2.
  assert (He : ∀ k, has_end (RPipe (gw_next gw) (negb (bool_decide (Stdin gio = ""))) (negb (bool_decide (Stdout gio = ""))) (negb (bool_decide (Stderr gio = "")))) k
    = bool_decide (is_Some (stream_at gs k))).
  { assert (Hx : ∀ s o, (o = None ↔ s = "") → negb (bool_decide (s = "")) = bool_decide (is_Some (o : option handle))).
    { intros s [h|] Ho; [rewrite (bool_decide_eq_false_2 (s = "")) by naive_solver; by rewrite bool_decide_eq_true_2|].
      rewrite (bool_decide_eq_true_2 (s = "")) by naive_solver. by rewrite bool_decide_eq_false_2 by (by intros [? ?]). }
    intros [|[|k]]; cbn; apply Hx; naive_solver. }
  pose proof (copy_streams env _ gio gs (g_new gw).2 He ltac:(naive_solver) ltac:(naive_solver) ltac:(naive_solver)) as Hcp.
  eexists p, _, _, gs, _, _. split; [done|]. split; [done|]. split; [unfold Copy; rewrite Hcopy, Hst, Hps; unfold wrapping; rewrite Hcp; reflexivity|].
  split_and!; [done|done|done|naive_solver|destruct (c1 gs); [eauto|naive_solver]|naive_solver|..]; by destruct (c0 gs).
Qed.

Module Sample.
Definition henv : ioenv :=
  mkIOEnv (λ n, if (n <? 100)%nat then Ok (Z.of_nat n + 1)%Z else Err (errorf "no stream")) (λ _, Ok true) (λ _ _, None) (λ _, None) (λ _, None).
Definition guest_env : genv :=
  mkGenv (Ok "default") None None (λ _, Err (errorf "no such file")) (λ _ _, None) (λ _, None) (λ _, None) None (λ _, None) (λ _, None) None None None (Some None) None.
Definition sm (sid : Z) : res handle := if (sid <? 101)%Z then Ok (1000 + Z.to_nat sid)%nat else Err (errorf "none").
Definition hw : ioworld := mkIO 0 ∅ [] ∅ [] 0 false None None false.
Definition pipes : gmap nat pipeEnd := {[1%nat := mkPipeEnd [] false []; 2%nat := mkPipeEnd [] false []]}.
Definition gw : gworld := mkGw 0 {[1001%nat; 1002%nat; 1003%nat]} [] None [] 0 None pipes [] [] false.
(** A logging binary that is never ready. *)
Definition unready :=
  mkGenv (Ok "default") None None (λ _, Ok false) (λ _ _, None) (λ _, None) (λ _, None) None (λ _, None) (λ _, None) None
    (Some (errorf "reset")) None (Some None) None.
Definition w0 : gworld := mkGw 3 {[1%nat; 2%nat]} [] None [] 0 None ∅ [] [] false.
End Sample.

Lemma guest_serves_host_streams_witness :
  ∃ gio cs w', createStreams Sample.henv (mkStdio "/in" "/out" "/err" false) Sample.hw = (Ok (gio, cs), w') ∧
    Stdout gio = "stream://2" ∧ Stderr gio = "stream://3" ∧
  ∃ p rio gw1 gs c gw2,
    createIO Sample.guest_env Sample.sm gio Sample.gw = (Ok p, gw1) ∧ p_io p = Some rio ∧ Copy Sample.guest_env p rio gw1 = (Ok c, gw2) ∧
    peer Sample.henv Sample.sm (c0 cs) (c0 gs) ∧ peer Sample.henv Sample.sm (c1 cs) (c1 gs) ∧ peer Sample.henv Sample.sm (c2 cs) (c2 gs) ∧
    (c0 gs = None ↔ "/in" = "") ∧ is_Some (c1 gs) ∧ (c2 gs = None ↔ "/err" = "") ∧
    gw_copiers gw2 = gw_copiers Sample.gw ++ stream_copiers gs ∧
    gw_wg gw2 = (gw_wg Sample.gw + Z.of_nat (length (stream_copiers gs)))%Z ∧
    c = (match c0 gs with Some h => CHandle h | None => CNop end) ∧
    gw_open gw2 = {[gw_next Sample.gw]} ∪ gw_open Sample.gw.
Proof.
  eexists _, _, _. split; [vm_compute; reflexivity|]. split; [reflexivity|]. split; [reflexivity|].
  eapply (guest_serves_host_streams Sample.henv (mkStdio "/in" "/out" "/err" false) Sample.hw _ _ _ Sample.guest_env Sample.sm Sample.gw);
    [vm_compute; reflexivity|done|done|].
  intros h sid. cbn [Sample.henv e_startStream]. destruct (Nat.ltb_spec h 100); [|done]. intros [= <-]. split; [unfold uint32_range, two32; lia|].
  unfold Sample.sm. rewrite (proj2 (Z.ltb_lt _ _)) by lia. eauto.
Defined.

(** Without a stdout the guest takes the addresses of the streams for FIFOs: the scheme
    is read off stdout alone.  Starting the copies fails. *)
Lemma no_stdout_fails henv sio w gio cs w' env sm gw :
  createStreams henv sio w = (Ok (gio, cs), w') → Stdout sio = "" → Stderr sio ≠ "" → ge_pipeIO env = None →
  (∀ sid, ∃ e, ge_isFifo env (stream_uri sid) = Err e) →
  ∃ p rio gw1 e gw2, createIO env sm gio gw = (Ok p, gw1) ∧ p_io p = Some rio ∧ p_streams p = no_conns ∧
    Copy env p rio gw1 = (Err e, gw2).
Proof.
  intros (_ & F1 & F2)%createStreams_forwards Hout Herr Hp Hnf.
  destruct (c1 cs) as [h1|]; [by destruct F1|]. destruct F1 as [_ Hg1].
  destruct (c2 cs) as [h2|]; [|by destruct F2]. destruct F2 as (_ & sid & _ & Hg2). destruct (Hnf sid) as (e & He).
  assert (Hn : IsNull gio = false) by (unfold IsNull; rewrite Hg2; cbn; by rewrite !andb_false_r).
  eexists _, _, _, _, _. split.
  { unfold createIO. rewrite Hn. unfold bind, wrapping, lift. rewrite Hg1. cbn -[createFifoIO createStreamIO createBinaryIO createFileIO].
    unfold createFifoIO, bind, NewPipeIO, bind, g_open. rewrite Hp. cbn. reflexivity. }
  split; [reflexivity|]. split; [reflexivity|]. unfold Copy. cbn. rewrite Hg1, Hg2. unfold wrapping, copyPipes, bind, modify. cbn.
  unfold bind, lift. rewrite He. reflexivity.
Qed.

(** ** Logging binaries *)

Definition fresh (w : gworld) : Prop := ∀ h, h ∈ gw_open w → (h < gw_next w)%nat.

Definition handles_of (b : binaryIO) : list handle := [p_w (b_out b); p_r (b_out b); p_w (b_err b); p_r (b_err b)].

Lemma bind_cases {W A B} (m : ST W A) (k : A → ST W B) w r w' : bind m k w = (r, w') →
  (∃ a w1, m w = (Ok a, w1) ∧ k a w1 = (r, w')) ∨ (∃ e, m w = (Err e, w') ∧ r = Err e).
Proof. unfold bind. destruct (m w) as [[?|?] ?]; naive_solver. Qed.

Lemma closing_cases {A} cs (m : ST gworld A) w r w' : closing cs m w = (r, w') →
  (∃ a, r = Ok a ∧ m w = (Ok a, w')) ∨ (∃ e e' w1, r = Err e' ∧ m w = (Err e, w1) ∧ w' = (run_closers cs w1).2).
Proof. unfold closing. destruct (m w) as [[a|e] w1] eqn:Hm; [intros [= <- <-]; left; eauto|right].
  exists e, (default e (errors_Join (Some e :: (run_closers cs w1).1))), w1. destruct (run_closers cs w1). by simplify_eq. Qed.

Lemma staged {A B} cs (m : ST gworld A) (k : A → ST gworld B) w r w' : bind (closing cs m) k w = (r, w') →
  (∃ a w1, m w = (Ok a, w1) ∧ k a w1 = (r, w')) ∨ (∃ e e' w1, r = Err e' ∧ m w = (Err e, w1) ∧ w' = (run_closers cs w1).2).
Proof.
  intros [(a & w1 & Hm & Hk)|(e & Hm & ->)]%bind_cases; apply closing_cases in Hm as [(b & Hb & Hm)|(e1 & e2 & w2 & Hb & Hm & Hw)]; simplify_eq.
  - left. eauto.
  - right. eauto 10.
Qed.

Lemma wrapping_cases {W A} msg (m : ST W A) w r w' : wrapping msg m w = (r, w') →
  ∃ r0, m w = (r0, w') ∧ ((∃ a, r = Ok a ∧ r0 = Ok a) ∨ (∃ e e', r = Err e' ∧ r0 = Err e)).
Proof. unfold wrapping. destruct (m w) as [[?|?] ?]; intros [= <- <-]; eauto 10. Qed.

Definition opened (w : gworld) : gworld :=
  let n := gw_next w in w_fds (S (S n)) ({[S n]} ∪ ({[n]} ∪ gw_open w)) (gw_closed w) w.

Lemma newPipe_cases env w r w' : newPipe env w = (r, w') →
  (∃ p, r = Ok p ∧ p = mkPipe (gw_next w) (S (gw_next w)) ∧ w' = opened w) ∨ (∃ e, r = Err e ∧ w' = w).
Proof. unfold newPipe. destruct (ge_pipe env (gw_next w)); intros [= <- <-]; [right|left]; eauto. Qed.

Lemma newPipe_wrapped env msg w r w' : wrapping msg (newPipe env) w = (r, w') →
  (∃ p, r = Ok p ∧ p = mkPipe (gw_next w) (S (gw_next w)) ∧ w' = opened w) ∨ (∃ e, r = Err e ∧ w' = w).
Proof. intros (r0 & H%newPipe_cases & H')%wrapping_cases. naive_solver. Qed.

Lemma file_Close_open h w : gw_open (file_Close h w).2 = gw_open w ∖ {[h]}.
Proof. unfold file_Close. destruct (decide _); cbn; [done|]. set_solver. Qed.

Lemma file_Close_procs h w : gw_procs (file_Close h w).2 = gw_procs w.
Proof. unfold file_Close. by destruct (decide _). Qed.

Lemma pipe_Close_open p w : gw_open (pipe_Close p w).2 = gw_open w ∖ {[p_w p; p_r p]}.
Proof.
  unfold pipe_Close. destruct (file_Close (p_w p) w) as [e1 w1] eqn:E1. destruct (file_Close (p_r p) w1) as [e2 w2] eqn:E2. cbn.
  pose proof (file_Close_open (p_w p) w) as H1. rewrite E1 in H1. pose proof (file_Close_open (p_r p) w1) as H2. rewrite E2 in H2. cbn in *.
  rewrite H2, H1. set_solver.
Qed.

Lemma pipe_Close_procs p w : gw_procs (pipe_Close p w).2 = gw_procs w.
Proof.
  unfold pipe_Close. destruct (file_Close (p_w p) w) as [e1 w1] eqn:E1. destruct (file_Close (p_r p) w1) as [e2 w2] eqn:E2. cbn.
  pose proof (file_Close_procs (p_w p) w) as H1. rewrite E1 in H1. pose proof (file_Close_procs (p_r p) w1) as H2. rewrite E2 in H2. cbn in *.
  congruence.
Qed.

Lemma run_closers_cons c cs w : (run_closers (c :: cs) w).2 = (run_closers cs (c w).2).2.
Proof. cbn. destruct (c w) as [e w1]. cbn. by destruct (run_closers cs w1). Qed.

Lemma proc_Kill_open env i w : gw_open (proc_Kill env i w).2 = gw_open w.
Proof. unfold proc_Kill. by destruct (ge_kill env). Qed.

Lemma cmd_Start_cases env msg w r w' : wrapping msg (cmd_Start env) w = (r, w') →
  (r = Ok (length (gw_procs w)) ∧ w' = w_procs (gw_procs w ++ [(false, false)]) w) ∨ (∃ e, r = Err e ∧ w' = w).
Proof. unfold wrapping, cmd_Start. destruct (ge_start env); intros [= <- <-]; [right|left]; eauto. Qed.

(** What the rest does once the process runs: the write end of the ready pipe is closed. *)
Lemma ready_cases env h p out serr w r w' :
  (must "failed to close write pipe after start" (file_Close h) ;;!
   wrapping "failed to read from logging binary" (g_answer (ge_ready env)) ;;!
   ret (RBinary (mkBinary p out serr))) w = (r, w') →
  w' = (file_Close h w).2 ∧ (r = Ok (RBinary (mkBinary p out serr)) ∨ ∃ e, r = Err e).
Proof.
  unfold bind, must. destruct (file_Close h w) as [[e|] w1]; [intros [= <- <-]; eauto|]. unfold wrapping, g_answer, fail, ret.
  destruct (ge_ready env); intros [= <- <-]; eauto.
Qed.

Definition undone (env : genv) (w w' : gworld) : Prop :=
  gw_open w' = gw_open w ∧
  (gw_procs w' = gw_procs w ∨ gw_procs w' = gw_procs w ++ [(true, true)] ∨ is_Some (ge_kill env) ∧ gw_procs w' = gw_procs w ++ [(false, false)]).

Lemma proc_Kill_procs env (ps : list (bool * bool)) w : gw_procs w = ps ++ [(false, false)] →
  gw_procs (proc_Kill env (length ps) w).2 = ps ++ [(true, true)] ∨ is_Some (ge_kill env) ∧ gw_procs (proc_Kill env (length ps) w).2 = ps ++ [(false, false)].
Proof.
  intros Hp. unfold proc_Kill. destruct (ge_kill env); cbn; [right; eauto|left]. rewrite Hp. rewrite insert_app_r_alt, Nat.sub_diag by done. done.
Qed.

Lemma undo_procs env cs ps w : Forall (λ c : call, ∀ w, gw_procs (c w).2 = gw_procs w) cs → gw_procs w = ps ++ [(false, false)] →
  gw_procs (run_closers (cs ++ [proc_Kill env (length ps)]) w).2 = ps ++ [(true, true)] ∨
  is_Some (ge_kill env) ∧ gw_procs (run_closers (cs ++ [proc_Kill env (length ps)]) w).2 = ps ++ [(false, false)].
Proof.
  intros Hcs. revert w. induction Hcs as [|c cs Hc _ IH]; intros w Hp.
  - rewrite app_nil_l, run_closers_cons. by apply proc_Kill_procs.
  - rewrite <- app_comm_cons, run_closers_cons. apply IH. by rewrite Hc.
Qed.

Lemma run_closers_nil w : (run_closers [] w).2 = w.
Proof. done. Qed.

Ltac closers := repeat first [rewrite <- app_comm_cons|rewrite app_nil_l|rewrite run_closers_cons]; rewrite ?run_closers_nil, ?proc_Kill_open, ?file_Close_open, ?pipe_Close_open, ?file_Close_procs, ?pipe_Close_procs, ?file_Close_open, ?file_Close_procs.

(** Sets that differ by new descriptors only. *)
Section fds.
Context (n : nat) (X : gset nat) (HX : ∀ h, h ∈ X → (h < n)%nat).

#[local] Ltac fds := apply set_eq; intros x; rewrite ?elem_of_difference, ?elem_of_union, ?elem_of_singleton;
  pose proof (HX x); destruct (decide (x ∈ X)); intuition lia.

Definition two_open : gset nat := {[S n]} ∪ ({[n]} ∪ X).
Definition four_open : gset nat := {[S (S (S n))]} ∪ ({[S (S n)]} ∪ two_open).
Definition six_open : gset nat := {[S (S (S (S (S n))))]} ∪ ({[S (S (S (S n)))]} ∪ four_open).

Lemma fds_two : two_open ∖ {[S n; n]} = X.
Proof. unfold two_open. fds. Qed.

Lemma fds_four : four_open ∖ {[S n; n]} ∖ {[S (S (S n)); S (S n)]} = X.
Proof. unfold four_open, two_open. fds. Qed.

Lemma fds_six : six_open ∖ {[S n; n]} ∖ {[S (S (S n)); S (S n)]} ∖ {[S (S (S (S n)))]} ∖ {[S (S (S (S (S n))))]} = X.
Proof. unfold six_open, four_open, two_open. fds. Qed.

Lemma fds_ready : six_open ∖ {[S (S (S (S (S n))))]} = X ∪ {[n; S n; S (S n); S (S (S n)); S (S (S (S n)))]}.
Proof. unfold six_open, four_open, two_open. fds. Qed.

Lemma fds_ready_undone :
  six_open ∖ {[S (S (S (S (S n))))]} ∖ {[S n; n]} ∖ {[S (S (S n)); S (S n)]} ∖ {[S (S (S (S n)))]} ∖ {[S (S (S (S (S n))))]} = X.
Proof. unfold six_open, four_open, two_open. fds. Qed.

Lemma fds_closed : (X ∪ {[n; S n; S (S n); S (S (S n)); S (S (S (S n)))]}) ∖ {[S n; n]} ∖ {[S (S (S n)); S (S n)]} = X ∪ {[S (S (S (S n)))]}.
Proof. fds. Qed.
End fds.

(** Undoing takes back every descriptor above the first new one. *)
Lemma binary_cases env w r w' : fresh w → NewBinaryIO env w = (r, w') →
  let n := gw_next w in let b := mkBinary (length (gw_procs w)) (mkPipe n (S n)) (mkPipe (S (S n)) (S (S (S n)))) in
  (∃ e, r = Err e ∧ undone env w w') ∨
  r = Ok (RBinary b) ∧ gw_open w' = gw_open w ∪ {[n; S n; S (S n); S (S (S n)); S (S (S (S n)))]} ∧ gw_procs w' = gw_procs w ++ [(false, false)].
Proof.
  intros Hf H. cbn zeta.
  unfold NewBinaryIO in H. apply staged in H as [(ns & w0 & H0 & Ha)|(e & e' & w0 & -> & H0 & ->)];
    [|injection H0 as _ <-; left; exists e'; split; [done|]; split; auto]. injection H0 as _ <-.
  apply staged in Ha as [(out & w0 & [(p & [= <-] & -> & ->)|(e & ? & ?)]%newPipe_wrapped & Hb)|(e & e' & w0 & -> & [(p & ? & _)|(e0 & _ & ->)]%newPipe_wrapped & ->)];
    try done; [|left; exists e'; split; [done|]; split; auto].
  apply staged in Hb as [(serr & w0 & [(p & [= <-] & -> & ->)|(e & ? & ?)]%newPipe_wrapped & Hc)|(e & e' & w0 & -> & [(p & ? & _)|(e0 & _ & ->)]%newPipe_wrapped & ->)];
    try done; [|left; exists e'; split; [done|]; split; closers; [exact (fds_two _ _ Hf)|by left]].
  apply staged in Hc as [(rw & w0 & [(p & [= <-] & -> & ->)|(e & ? & ?)]%newPipe_cases & Hd)|(e & e' & w0 & -> & [(p & ? & _)|(e0 & _ & ->)]%newPipe_cases & ->)];
    try done; [|left; exists e'; split; [done|]; split; closers; [exact (fds_four _ _ Hf)|by left]].
  apply staged in Hd as [(pr & w0 & [[[= ->] ->]|(e & ? & ?)]%cmd_Start_cases & He)|(e & e' & w0 & -> & [[? _]|(e0 & _ & ->)]%cmd_Start_cases & ->)];
    try done; [|left; exists e'; split; [done|]; split; closers; [exact (fds_six _ _ Hf)|by left]].
  apply closing_cases in He as [(a & -> & [-> [[= ->]|(e & ?)]]%ready_cases)|(e & e' & w1 & -> & [-> _]%ready_cases & ->)]; [right|done|left; exists e'].
  - split; [done|]. closers. split; [exact (fds_ready _ _ Hf)|done].
  - split; [done|]. split.
    + closers. exact (fds_ready_undone _ _ Hf).
    + right. apply undo_procs; [repeat constructor; intros w0; first [apply pipe_Close_procs|apply file_Close_procs]|].
      rewrite file_Close_procs. reflexivity.
Qed.

Lemma b_cancel_ends env b ps w : gw_procs w = ps ++ [(false, false)] → b_proc b = length ps →
  gw_open (b_cancel env b w).2 = gw_open w ∧
  (gw_procs (b_cancel env b w).2 = ps ++ [(true, true)] ∨ gw_procs (b_cancel env b w).2 = ps ++ [(true, false)] ∨ is_Some (ge_kill env)).
Proof.
  intros Hp Hb. unfold b_cancel. rewrite Hb. pose proof (proc_Kill_procs env ps w Hp) as Hk. pose proof (proc_Kill_open env (length ps) w) as Ho.
  destruct (proc_Kill env (length ps) w) as [e w1]. cbn in *. destruct (ge_sigterm env); [|destruct (ge_wait env)]; cbn; split; try done; try naive_solver.
  right. left. rewrite Hp, insert_app_r_alt, Nat.sub_diag by done. done.
Qed.

Lemma b_Close_ends env b ps w : gw_procs w = ps ++ [(false, false)] → b_proc b = length ps →
  ∃ e w2, b_Close env b w = (e, w2) ∧ gw_open w2 = gw_open w ∖ {[p_w (b_out b); p_r (b_out b)]} ∖ {[p_w (b_err b); p_r (b_err b)]} ∧
    (gw_procs w2 = ps ++ [(true, true)] ∨ gw_procs w2 = ps ++ [(true, false)] ∨ is_Some (ge_kill env)).
Proof.
  intros Hp Hb. unfold b_Close. pose proof (pipe_Close_open (b_out b) w) as O1. pose proof (pipe_Close_procs (b_out b) w) as P1.
  destruct (pipe_Close (b_out b) w) as [e1 w1]. pose proof (pipe_Close_open (b_err b) w1) as O2. pose proof (pipe_Close_procs (b_err b) w1) as P2.
  destruct (pipe_Close (b_err b) w1) as [e2 w2]. cbn in *. rewrite P1, Hp in P2. destruct (b_cancel_ends env b ps w2 P2 Hb) as [O3 P3].
  destruct (b_cancel env b w2) as [e3 w3]. cbn in *. eexists _, _. split; [done|]. rewrite O3, O2, O1. done.
Qed.


(** Starting a logging binary is all or nothing: on an error every pipe end that
    was opened is closed again and the binary, if it was started, is killed and
    reaped unless killing it failed; on success the binary runs, the pipe ends
    are distinct and open, and closing the I/O ends the binary and leaves only
    the read end of the ready pipe open. *)
Theorem binary_all_or_nothing env w r w' : fresh w → NewBinaryIO env w = (r, w') →
  match r with
  | Err _ => gw_open w' = gw_open w ∧
      (gw_procs w' = gw_procs w ∨ gw_procs w' = gw_procs w ++ [(true, true)] ∨ is_Some (ge_kill env) ∧ gw_procs w' = gw_procs w ++ [(false, false)])
  | Ok rio => ∃ b ready, rio = RBinary b ∧ NoDup (ready :: handles_of b) ∧
      gw_open w' = gw_open w ∪ list_to_set (ready :: handles_of b) ∧ gw_procs w' = gw_procs w ++ [(false, false)] ∧
      ∃ e w2, b_Close env b w' = (e, w2) ∧ gw_open w2 = gw_open w ∪ {[ready]} ∧
        (gw_procs w2 = gw_procs w ++ [(true, true)] ∨ gw_procs w2 = gw_procs w ++ [(true, false)] ∨ is_Some (ge_kill env))
  end.
Proof.
  intros Hf H. destruct (binary_cases env w r w' Hf H) as [(e & -> & Hu)|(-> & Ho & Hp)]; [exact Hu|].
  set (n := gw_next w) in *. set (b := mkBinary _ _ _) in *. exists b, (S (S (S (S n)))). split; [done|].
  split; [unfold handles_of; cbn; rewrite !NoDup_cons, !not_elem_of_cons; split_and!; try lia; try apply not_elem_of_nil; apply NoDup_nil_2|].
  split; [rewrite Ho; unfold handles_of; cbn; set_solver|]. split; [done|].
  destruct (b_Close_ends env b (gw_procs w) w' Hp eq_refl) as (e & w2 & He & Ho2 & Hp2). exists e, w2. split; [done|]. split; [|done].
  rewrite Ho2, Ho. exact (fds_closed _ _ Hf).
Qed.

(** The binary never gets ready: the pipes are closed, the process killed. *)
Lemma binary_all_or_nothing_witness :
  ∃ e w', NewBinaryIO Sample.unready Sample.w0 = (Err e, w') ∧ length (gw_closed w') = 6%nat ∧
    gw_open w' = gw_open Sample.w0 ∧
    (gw_procs w' = gw_procs Sample.w0 ∨ gw_procs w' = gw_procs Sample.w0 ++ [(true, true)] ∨
     is_Some (ge_kill Sample.unready) ∧ gw_procs w' = gw_procs Sample.w0 ++ [(false, false)]).
Proof.
  eexists _, _. split; [vm_compute; reflexivity|]. split; [reflexivity|].
  refine (binary_all_or_nothing Sample.unready Sample.w0 (Err _) _ _ _); [intros h; cbn; rewrite elem_of_union, !elem_of_singleton; lia|vm_compute; reflexivity].
Defined.

(** ** Output is delivered *)

Definition written (h : handle) (w : gworld) : list chunk := (filter (λ p, p.1 = h) (gw_out w)).*2.
Definition held (x : gcopier) : list chunk := match g_phase x with PHold c => [c] | _ => [] end.
Definition copying (x : gcopier) : bool := match g_phase x with PCopy | PHold _ => true | _ => false end.
Definition uncounted (x : gcopier) : bool := match g_phase x with PCopy | PHold _ | PCopied => true | _ => false end.
Definition unclosed (x : gcopier) : bool := match g_phase x with PClosed | PEnd => false | _ => true end.

Record copier_ok (w : gworld) (x : gcopier) (h : handle) (pe : pipeEnd) : Prop := mkCopierOk {
  k_dst : g_dst x = GHandle h;
  k_src : g_src x = true;
  k_reader : g_reader x = None;
  k_failed : g_failed x = false;
  k_pipe : gw_pipes w !! g_index x = Some pe;
  k_open : unclosed x = true → h ∈ gw_open w;
  k_all : pe_all pe = written h w ++ held x ++ pe_pending pe;
  k_end : copying x = false → pe_pending pe = [] ∧ pe_eof pe = true
}.

Record ginv (cs0 : list gcopier) (w : gworld) : Prop := mkGinv {
  n_crash : gw_crashed w = false;
  n_who : (λ x, (g_index x, g_dst x)) <$> gw_copiers w = (λ x, (g_index x, g_dst x)) <$> cs0;
  n_ok : ∀ j x, gw_copiers w !! j = Some x → ∃ h pe, copier_ok w x h pe;
  n_wg : gw_wg w = Z.of_nat (length (List.filter uncounted (gw_copiers w)))
}.

(** No two copiers have an output or a stream in common. *)
Definition apart (cs0 : list gcopier) : Prop := NoDup (g_index <$> cs0) ∧ NoDup (g_dst <$> cs0).

Lemma apart_now cs0 w j j' x x' : apart cs0 → ginv cs0 w → gw_copiers w !! j = Some x → gw_copiers w !! j' = Some x' → j ≠ j' →
  g_index x ≠ g_index x' ∧ g_dst x ≠ g_dst x'.
Proof.
  intros [Hi Hd] Hv Hj Hj' Hne.
  assert (E1 : g_index <$> gw_copiers w = g_index <$> cs0).
  { pose proof (f_equal (fmap fst) (n_who _ _ Hv)) as E. by rewrite <- !list_fmap_compose in E. }
  assert (E2 : g_dst <$> gw_copiers w = g_dst <$> cs0).
  { pose proof (f_equal (fmap snd) (n_who _ _ Hv)) as E. by rewrite <- !list_fmap_compose in E. }
  rewrite <- E1 in Hi. rewrite <- E2 in Hd. split; intros Heq; apply Hne.
  - eapply (NoDup_lookup _ _ _ (g_index x) Hi); rewrite list_lookup_fmap; [by rewrite Hj|by rewrite Hj', Heq].
  - eapply (NoDup_lookup _ _ _ (g_dst x) Hd); rewrite list_lookup_fmap; [by rewrite Hj|by rewrite Hj', Heq].
Qed.

Lemma who_insert (l : list gcopier) j x x' : l !! j = Some x → g_index x' = g_index x → g_dst x' = g_dst x →
  (λ x, (g_index x, g_dst x)) <$> <[j := x']> l = (λ x, (g_index x, g_dst x)) <$> l.
Proof.
  intros Hj E1 E2. rewrite list_fmap_insert. apply list_insert_id. rewrite list_lookup_fmap, Hj. cbn. by rewrite E1, E2.
Qed.

Lemma count_insert (l : list gcopier) j x x' : l !! j = Some x →
  Z.of_nat (length (List.filter uncounted (<[j := x']> l))) =
  (Z.of_nat (length (List.filter uncounted l)) - (if uncounted x then 1 else 0) + (if uncounted x' then 1 else 0))%Z.
Proof.
  revert j. induction l as [|y l IH]; intros [|j] Hj; [done|done|..].
  - injection Hj as ->. change (<[0%nat := x']> (x :: l)) with (x' :: l). cbn [List.filter]. destruct (uncounted x), (uncounted x'); cbn; lia.
  - change (<[S j := x']> (y :: l)) with (y :: <[j := x']> l). specialize (IH j Hj). cbn [List.filter]. destruct (uncounted y), (uncounted x), (uncounted x'); cbn; lia.
Qed.

Lemma written_same h c w : written h (w_out (gw_out w ++ [(h, c)]) w) = written h w ++ [c].
Proof. unfold written. cbn. rewrite filter_app, fmap_app. cbn. by rewrite decide_True. Qed.

Lemma written_other h h' c w : h' ≠ h → written h (w_out (gw_out w ++ [(h', c)]) w) = written h w.
Proof. intros Hne. unfold written. cbn. rewrite filter_app, fmap_app. cbn. rewrite decide_False by done. apply app_nil_r. Qed.

(** One copier moves, and what it does touches its own output and stream only. *)
Lemma ginv_move cs0 w w' j x x' h pe' :
  ginv cs0 w → gw_copiers w !! j = Some x → g_index x' = g_index x → g_dst x' = g_dst x →
  gw_copiers w' = <[j := x']> (gw_copiers w) → gw_crashed w' = false →
  gw_wg w' = (gw_wg w - (if uncounted x then 1 else 0) + (if uncounted x' then 1 else 0))%Z →
  copier_ok w' x' h pe' →
  (∀ j2 x2 h2 pe2, j2 ≠ j → gw_copiers w !! j2 = Some x2 → copier_ok w x2 h2 pe2 → copier_ok w' x2 h2 pe2) →
  ginv cs0 w'.
Proof.
  intros [Hc Hw Ho Hg] Hj E1 E2 Hcs Hcr Hwg Hself Hother. constructor.
  - done.
  - rewrite Hcs, (who_insert _ _ x); done.
  - intros j2 x2 Hx2. rewrite Hcs in Hx2. apply list_lookup_insert_Some in Hx2 as [(-> & <- & _)|[Hne Hx2]]; [eauto|].
    destruct (Ho _ _ Hx2) as (h2 & pe2 & Hk). exists h2, pe2. by eapply Hother.
  - rewrite Hwg, Hcs, (count_insert _ _ x), Hg by done. lia.
Qed.

(** What a step of another copier, or of the container on another output, changes. *)
Lemma ok_transport w w' x h pe :
  copier_ok w x h pe → gw_pipes w' !! g_index x = gw_pipes w !! g_index x → (h ∈ gw_open w → h ∈ gw_open w') → written h w' = written h w →
  copier_ok w' x h pe.
Proof. intros [] Hp Hopen Hwr. constructor; auto; congruence. Qed.

Section delivered.
Context (cs0 : list gcopier) (Hapart : apart cs0).

Lemma ginv_read w j x c rest e all : ginv cs0 w → gw_copiers w !! j = Some x → g_phase x = PCopy → gw_pipes w !! g_index x = Some (mkPipeEnd (c :: rest) e all) →
  ginv cs0 (set_copier j (with_phase x (PHold c) (g_failed x)) (w_pipes (<[g_index x := mkPipeEnd rest e all]> (gw_pipes w)) w)).
Proof.
  intros Hv Hj Hph Hp. destruct (n_ok _ _ Hv _ _ Hj) as (h & pe & [K1 K2 K3 K4 K5 K6 K7 K8]). rewrite Hp in K5. injection K5 as <-.
  eapply (ginv_move cs0 w _ j x (with_phase x (PHold c) (g_failed x)) h (mkPipeEnd rest e all)); try done; [apply (n_crash _ _ Hv)|by unfold uncounted; cbn; rewrite Hph; lia| |].
  - constructor; try done; cbn; [by rewrite lookup_insert_eq|intros _; apply K6; unfold unclosed; by rewrite Hph|].
    unfold held in K7. by rewrite Hph in K7.
  - intros j2 x2 h2 pe2 Hne Hx2 Hk. destruct (apart_now _ _ _ _ _ _ Hapart Hv Hx2 Hj Hne) as [Hi _].
    apply (ok_transport w); [done| |done|done]. cbn. by rewrite lookup_insert_ne.
Qed.

Lemma ginv_write w j x c h : ginv cs0 w → gw_copiers w !! j = Some x → g_phase x = PHold c → g_dst x = GHandle h →
  ginv cs0 (set_copier j (with_phase x PCopy (g_failed x)) (w_out (gw_out w ++ [(h, c)]) w)).
Proof.
  intros Hv Hj Hph Hd. destruct (n_ok _ _ Hv _ _ Hj) as (h' & pe & [K1 K2 K3 K4 K5 K6 K7 K8]). rewrite Hd in K1. injection K1 as <-.
  eapply (ginv_move cs0 w _ j x (with_phase x PCopy (g_failed x)) h pe); try done; [apply (n_crash _ _ Hv)|by unfold uncounted; cbn; rewrite Hph; lia| |].
  - constructor; try done; [intros _; apply K6; unfold unclosed; by rewrite Hph|].
    transitivity ((written h w ++ [c]) ++ pe_pending pe); [|by rewrite <- written_same].
    rewrite K7. unfold held. rewrite Hph. cbn. by rewrite <- app_assoc.
  - intros j2 x2 h2 pe2 Hne Hx2 Hk. destruct (apart_now _ _ _ _ _ _ Hapart Hv Hx2 Hj Hne) as [_ Hdd].
    apply (ok_transport w); [done|done|done|]. apply (written_other h2 h c w).
    intros ->. apply Hdd. by rewrite Hd, (k_dst _ _ _ _ Hk).
Qed.

Lemma ginv_later w w' j x ph : ginv cs0 w → gw_copiers w !! j = Some x →
  (held x = [] ∧ ph = PCopied ∧ gw_pipes w !! g_index x = Some (mkPipeEnd [] true (pe_all (default (mkPipeEnd [] true []) (gw_pipes w !! g_index x)))) ∨
   copying x = false ∧ (ph = PCounted ∨ ph = PClosed ∨ ph = PEnd)) →
  gw_copiers w' = <[j := with_phase x ph (g_failed x)]> (gw_copiers w) → gw_crashed w' = false → gw_pipes w' = gw_pipes w → gw_out w' = gw_out w →
  gw_wg w' = (gw_wg w - (if uncounted x then 1 else 0) + (if uncounted (with_phase x ph false) then 1 else 0))%Z →
  (∀ h, g_dst x = GHandle h → gw_open w ∖ (if unclosed (with_phase x ph false) then ∅ else {[h]}) ⊆ gw_open w') →
  (unclosed (with_phase x ph false) = true → unclosed x = true) →
  ginv cs0 w'.
Proof.
  intros Hv Hj Hcase Hcs Hcr Hpi Hout Hwg Hopen Hun. destruct (n_ok _ _ Hv _ _ Hj) as (h & pe & [K1 K2 K3 K4 K5 K6 K7 K8]). specialize (Hopen h K1).
  assert (Hwr : ∀ h2, written h2 w' = written h2 w) by (intros h2; unfold written; by rewrite Hout).
  eapply (ginv_move cs0 w w' j x (with_phase x ph (g_failed x)) h pe); try done.
  - constructor; try done; cbn.
    + by rewrite Hpi.
    + intros Hu. apply Hopen. unfold unclosed in *. cbn in *. rewrite Hu. apply elem_of_difference. split; [by apply K6, Hun|set_solver].
    + rewrite Hwr, K7. f_equal. f_equal. destruct Hcase as [(Hh & -> & _)|[Hc [->|[->| ->]]]]; cbn; [done|..]; unfold copying, held in *; by destruct (g_phase x).
    + intros _. destruct Hcase as [(_ & _ & Hp)|[Hc _]]; [|by apply K8]. rewrite K5 in Hp. cbn in Hp. injection Hp as ->. done.
  - intros j2 x2 h2 pe2 Hne Hx2 Hk. destruct (apart_now _ _ _ _ _ _ Hapart Hv Hx2 Hj Hne) as [_ Hdd].
    apply (ok_transport w); [done|by rewrite Hpi| |by rewrite Hwr]. intros Hin. apply Hopen. apply elem_of_difference. split; [done|].
    destruct (unclosed _); [set_solver|]. intros ->%elem_of_singleton. apply Hdd. by rewrite K1, (k_dst _ _ _ _ Hk).
Qed.

(** The container writes or closes an output. *)
Lemma ginv_pipe w k pe pe' : ginv cs0 w → gw_pipes w !! k = Some pe →
  (∀ a, pe_all pe = a ++ pe_pending pe → pe_all pe' = a ++ pe_pending pe') →
  (pe_pending pe = [] ∧ pe_eof pe = true → pe_pending pe' = [] ∧ pe_eof pe' = true) →
  ginv cs0 (w_pipes (<[k := pe']> (gw_pipes w)) w).
Proof.
  intros [Hc Hw Ho Hg] Hp Hall Hend. constructor; try done. intros j x Hx. destruct (Ho j x Hx) as (h & pe0 & [K1 K2 K3 K4 K5 K6 K7 K8]).
  destruct (decide (k = g_index x)) as [->|Hne]; [exists h, pe'|exists h, pe0]; constructor; try done; cbn.
  - by rewrite lookup_insert_eq.
  - rewrite Hp in K5. injection K5 as <-. rewrite app_assoc in K7 |- *. by apply Hall.
  - rewrite Hp in K5. injection K5 as <-. auto.
  - by rewrite lookup_insert_ne.
Qed.

Lemma ginv_copier w j x w' : ginv cs0 w → gw_copiers w !! j = Some x → copier_step j true x w = Some w' → ginv cs0 w'.
Proof.
  intros Hv Hj Hs. destruct (n_ok _ _ Hv _ _ Hj) as (h & pe & [K1 K2 K3 K4 K5 K6 K7 K8]). pose proof (n_crash _ _ Hv) as Hcr.
  unfold copier_step in Hs. destruct (g_phase x) eqn:Hph.
  - rewrite K2, K5 in Hs. destruct pe as [[|c rest] [] all]; try done; injection Hs as <-; [|by apply ginv_read..].
    eapply (ginv_later w _ j x PCopied); try done; [left; unfold held; rewrite Hph, K5; done|unfold uncounted; cbn; rewrite Hph; lia|set_solver|
      unfold unclosed; by rewrite Hph].
  - rewrite K1 in Hs. cbn [dst_handle] in Hs. rewrite bool_decide_eq_true_2 in Hs by (apply K6; unfold unclosed; by rewrite Hph).
    cbn in Hs. injection Hs as <-. by apply ginv_write.
  - injection Hs as <-. eapply (ginv_later w _ j x PCounted); try done;
      [right; unfold copying; rewrite Hph; auto|unfold uncounted; cbn; rewrite Hph; lia|set_solver|unfold unclosed; by rewrite Hph].
  - injection Hs as <-. rewrite K1. cbn [close_dst]. eapply (ginv_later w _ j x PClosed); try done;
      [right; unfold copying; rewrite Hph; auto|unfold uncounted; cbn; rewrite Hph; lia|intros h' [= <-]%(eq_trans (eq_sym K1)); cbn; set_solver].
  - rewrite K3 in Hs. injection Hs as <-. eapply (ginv_later w _ j x PEnd); try done;
      [right; unfold copying; rewrite Hph; auto|unfold uncounted; cbn; rewrite Hph; lia|cbn; set_solver].
  - done.
Qed.

Definition writes_work (i : ginput) : bool := match i with KStep _ ok => ok | _ => true end.

Lemma gstep_keeps_ginv w i w' : ginv cs0 w → writes_work i = true → gstep i w = Some w' → ginv cs0 w'.
Proof.
  intros Hv Hi Hs. unfold gstep in Hs. rewrite (n_crash _ _ Hv) in Hs. destruct i as [k c|k|j ok].
  - destruct (gw_pipes w !! k) as [[p [] all]|] eqn:Hp; try done. injection Hs as <-. eapply ginv_pipe; [done|done|..].
    + cbn. intros a ->. by rewrite app_assoc.
    + by intros [_ ?].
  - destruct (gw_pipes w !! k) as [[p e all]|] eqn:Hp; try done. injection Hs as <-. eapply ginv_pipe; [done|done|done|]. by intros [? _].
  - cbn in Hi. subst ok. destruct (gw_copiers w !! j) as [x|] eqn:Hj; [|done]. by eapply ginv_copier.
Qed.

Lemma ginv_run is_ : ∀ w w', ginv cs0 w → forallb writes_work is_ = true → grun is_ w = Some w' → ginv cs0 w'.
Proof.
  induction is_ as [|i is_ IH]; intros w w' Hv Hi Hs; cbn in *; [by injection Hs as <-|]. apply andb_true_iff in Hi as [Hi1 Hi2].
  destruct (gstep i w) as [w1|] eqn:H1; [|done]. eapply IH; [|done|done]. by eapply gstep_keeps_ginv.
Qed.
End delivered.

Lemma ginv_start gs w : c1 gs ≠ c2 gs → gw_copiers w = stream_copiers gs → gw_wg w = Z.of_nat (length (stream_copiers gs)) →
  gw_out w = [] → gw_crashed w = false →
  (∀ k h, k = 1%nat ∨ k = 2%nat → stream_at gs k = Some h → h ∈ gw_open w ∧ gw_pipes w !! k = Some (mkPipeEnd [] false [])) →
  apart (stream_copiers gs) ∧ ginv (stream_copiers gs) w.
Proof.
  intros Hne Hc Hwg Ho Hcr Hs. split.
  - unfold apart, stream_copiers. destruct (c1 gs), (c2 gs); cbn; split; repeat (apply NoDup_cons; split); try apply NoDup_nil_2;
      rewrite ?list_elem_of_singleton; try apply not_elem_of_nil; congruence.
  - constructor; [done|by rewrite Hc| |by rewrite Hwg, Hc; unfold stream_copiers; destruct (c1 gs), (c2 gs)].
    intros j x Hx. rewrite Hc in Hx. pose proof (Hs 1%nat) as H1. pose proof (Hs 2%nat) as H2. unfold stream_copiers in Hx. cbn in H1, H2.
    assert (Hok : ∀ k h, h ∈ gw_open w → gw_pipes w !! k = Some (mkPipeEnd [] false []) →
      copier_ok w (mkGcopier k true (GHandle h) None PCopy false) h (mkPipeEnd [] false [])).
    { intros k h Hin Hp. constructor; try done. unfold written. by rewrite Ho. }
    apply list_elem_of_lookup_2, elem_of_app in Hx as [Hx|Hx].
    + destruct (c1 gs) as [h|]; [|by apply elem_of_nil in Hx]. apply list_elem_of_singleton in Hx as ->. destruct (H1 h) as [? ?]; eauto.
    + destruct (c2 gs) as [h|]; [|by apply elem_of_nil in Hx]. apply list_elem_of_singleton in Hx as ->. destruct (H2 h) as [? ?]; eauto.
Qed.

Lemma uncounted_none (l : list gcopier) j x : List.filter uncounted l = [] → l !! j = Some x → uncounted x = false.
Proof.
  intros Hf Hj. destruct (uncounted x) eqn:Hu; [|done]. exfalso.
  assert (Hin : In x (List.filter uncounted l)) by (apply filter_In; split; [|done]; by apply list_elem_of_In, (list_elem_of_lookup_2 _ j)).
  by rewrite Hf in Hin.
Qed.

(** C10: The guest's copies of a process whose outputs are two different streams
    deliver what the container writes: in whatever order the container, the
    copies and their ends come, each stream has received a prefix of what
    was written to that output, in order, and once the wait group has come
    to zero all of it, to the end of file. Writes to a stream that is open
    are taken to work. *)
Theorem guest_output_delivered gs w is_ w' :
  c1 gs ≠ c2 gs → gw_copiers w = stream_copiers gs → gw_wg w = Z.of_nat (length (stream_copiers gs)) → gw_out w = [] → gw_crashed w = false →
  (∀ k h, k = 1%nat ∨ k = 2%nat → stream_at gs k = Some h → h ∈ gw_open w ∧ gw_pipes w !! k = Some (mkPipeEnd [] false [])) →
  forallb writes_work is_ = true → grun is_ w = Some w' →
  gw_crashed w' = false ∧
  ∀ k h, k = 1%nat ∨ k = 2%nat → stream_at gs k = Some h →
    ∃ pe, gw_pipes w' !! k = Some pe ∧ written h w' `prefix_of` pe_all pe ∧
      (gw_wg w' = 0%Z → written h w' = pe_all pe ∧ pe_eof pe = true).
Proof.
  intros Hne Hc Hwg Ho Hcr Hs Hf Hr. destruct (ginv_start gs w Hne Hc Hwg Ho Hcr Hs) as [Ha Hv].
  pose proof (ginv_run _ Ha _ _ _ Hv Hf Hr) as Hv'. split; [apply (n_crash _ _ Hv')|]. intros k h Hk Hh.
  assert (Hj : ∃ j x, gw_copiers w' !! j = Some x ∧ g_index x = k ∧ g_dst x = GHandle h).
  { pose proof (n_who _ _ Hv') as Hw. assert (Hin : (k, GHandle h) ∈ (λ x, (g_index x, g_dst x)) <$> stream_copiers gs).
    { unfold stream_copiers. destruct Hk as [-> | ->]; cbn in Hh; rewrite Hh; [left|]. destruct (c1 gs); [right; left|left]. }
    rewrite <- Hw in Hin. apply list_elem_of_fmap in Hin as (x & [= -> ->] & [j Hj]%list_elem_of_lookup). eauto. }
  destruct Hj as (j & x & Hj & <- & Hd). destruct (n_ok _ _ Hv' _ _ Hj) as (h' & pe & [K1 K2 K3 K4 K5 K6 K7 K8]).
  rewrite Hd in K1. injection K1 as <-. exists pe. split; [done|]. split; [rewrite K7; by eexists|]. intros Hz.
  assert (Hu : uncounted x = false).
  { eapply uncounted_none; [|done]. rewrite (n_wg _ _ Hv') in Hz. apply length_zero_iff_nil. lia. }
  destruct K8 as [Hp He]; [unfold copying, uncounted in *; by destruct (g_phase x)|]. split; [|done].
  rewrite K7, Hp. unfold held. unfold uncounted in Hu. destruct (g_phase x); try done; by rewrite !app_nil_r.
Qed.

Module Run.
Definition gs : conns := mkConns None (Some 1001%nat) (Some 1002%nat).
Definition w : gworld := mkGw 0 {[1001%nat; 1002%nat; 1003%nat]} [] None (stream_copiers gs) 2 None Sample.pipes [] [] false.
(** The container writes to both outputs and closes them; the copies take turns. *)
Definition steps : list ginput :=
  [KWrite 1 7; KWrite 2 8; KStep 1 true; KStep 0 true; KStep 0 true; KWrite 1 9; KStep 1 true; KClose 2; KStep 1 true; KStep 1 true;
   KStep 1 true; KStep 0 true; KClose 1; KStep 0 true; KStep 0 true; KStep 0 true].
End Run.

Lemma guest_output_delivered_witness :
  ∃ w', grun Run.steps Run.w = Some w' ∧ gw_wg w' = 0%Z ∧ gw_out w' = [(1001, 7); (1002, 8); (1001, 9)]%nat ∧
    (gw_crashed w' = false ∧
     ∀ k h, k = 1%nat ∨ k = 2%nat → stream_at Run.gs k = Some h →
       ∃ pe, gw_pipes w' !! k = Some pe ∧ written h w' `prefix_of` pe_all pe ∧
         (gw_wg w' = 0%Z → written h w' = pe_all pe ∧ pe_eof pe = true)).
Proof.
  eexists. split; [vm_compute; reflexivity|]. split; [reflexivity|]. split; [reflexivity|].
  apply (guest_output_delivered Run.gs Run.w Run.steps); [done|done|done|done|done| |done|vm_compute; reflexivity].
  intros k h [-> | ->] [= <-]; (split; [|done]); cbn; set_solver.
Defined.

(** ** What the code does not ensure *)

(** stdout and stderr that are the same address share one stream (createStreams), and the
    copy that ends first closes it: what the container writes to the other output
    afterwards is lost, although the writes to the stream would have worked. *)
Lemma shared_stream_loses_output :
  let gs := mkConns None (Some 1001%nat) (Some 1001%nat) in
  let w := mkGw 0 {[1001%nat]} [] None (stream_copiers gs) 2 None Sample.pipes [] [] false in
  ∃ w', grun [KClose 2; KStep 1 true; KStep 1 true; KStep 1 true; KWrite 1 7; KStep 0 true; KStep 0 true; KStep 0 true] w = Some w' ∧
    gw_wg w' = 0%Z ∧ written 1001 w' = [] ∧ (pe_all <$> gw_pipes w' !! 1%nat) = Some [7%nat].
Proof. cbn zeta. eexists. split; [vm_compute; reflexivity|]. by split_and!. Qed.

(** A file address without a stderr: the pipes of the request have no stderr, the copy of
    it reads from a nil reader. *)
Lemma file_without_stderr_crashes :
  let env := mkGenv (Ok "default") None None (λ _, Ok false) (λ _ _, None) (λ _, None) (λ _, None) None (λ _, None) (λ _, None) None None None (Some None) None in
  let w := mkGw 0 ∅ [] None [] 0 None Sample.pipes [] [] false in
  ∃ p rio w1 c w2 w3, createIO env Sample.sm (mkStdio "" "file:///log/out" "" false) w = (Ok p, w1) ∧ p_io p = Some rio ∧
    Copy env p rio w1 = (Ok c, w2) ∧ gstep (KStep 1 true) w2 = Some w3 ∧ gw_crashed w3 = true.
Proof.
  cbn zeta. eexists _, _, _, _, _, _. split; [vm_compute; reflexivity|]. split; [reflexivity|].
  split; [vm_compute; reflexivity|]. split; vm_compute; reflexivity.
Qed.

(** The file stdout and stderr share is closed by the stdout copy when it ends before the
    set-up has counted stderr; the stderr copy then writes to a closed file. *)
Lemma same_file_closed_early :
  let env := mkGenv (Ok "default") None None (λ _, Ok false) (λ _ _, None) (λ _, None) (λ _, None) None (λ _, None) (λ _, None) None None None (Some None) None in
  let w := mkGw 0 ∅ [] None [] 0 None Sample.pipes [] [] false in
  let rio := RPipe 50 false true true in
  ∃ w1 w2 w3 w4, copy_outputs env rio [mkOutput "/log" 1] "/log" "/log" no_conns w = (Ok tt, w1) ∧
    grun [KClose 1; KStep 0 true; KStep 0 true; KStep 0 true] w1 = Some w2 ∧
    copy_outputs env rio [mkOutput "/log" 2] "/log" "/log" no_conns w2 = (Ok tt, w3) ∧
    grun [KWrite 2 7; KStep 1 true; KStep 1 true] w3 = Some w4 ∧
    gw_out w4 = [] ∧ (g_failed <$> gw_copiers w4 !! 1%nat) = Some true.
Proof.
  cbn zeta. eexists _, _, _, _. split; [vm_compute; reflexivity|]. split; [vm_compute; reflexivity|].
  split; [vm_compute; reflexivity|]. split; [vm_compute; reflexivity|]. by split.
Qed.

(** The streams of a process are not closed when its I/O is: not when the pipes cannot be
    made, and not by Close, which ends with the pipes when there are any. *)
Lemma streams_left_open env sm sio gs w p : IsNull sio = false → getStreams sm sio w = (Ok gs, w) →
  url_Parse (Stdout sio) = Ok (mkURL "stream" "") →
  (∀ e, ge_pipeIO env = Some e → createIO env sm sio w = (Err e, w)) ∧
  (∀ h i o e, p_io p = Some (RPipe h i o e) → h ∉ conns_handles (p_streams p) →
     list_to_set (conns_handles (p_streams p)) ⊆ gw_open w →
     list_to_set (conns_handles (p_streams p)) ⊆ gw_open (pio_Close env p w).2).
Proof.
  intros Hn Hg Hu. split.
  - intros e He. unfold createIO, wrapping, lift, bind. rewrite Hn, Hu. cbn [u_Scheme u_Path].
    change (if decide ("stream" = "") then "fifo" else "stream") with "stream". rewrite decide_True by done.
    unfold createStreamIO, bind, NewPipeIO, bind, g_open. rewrite Hg, He. reflexivity.
  - intros h i o e Hp Hh Hs. unfold pio_Close. rewrite Hp. cbn. set_solver.
Qed.
