(* ===== verification/Manager.v ===== *)
(** The shim manager containerd runs to start and stop a shim:
    internal/shim/manager/manager_linux.go and mount_linux.go.

    The world has the sockets that exist, the processes, the mount namespace of the
    manager's thread and the pid file in the bundle.  A deferred function is given the
    result of what runs before it returns. *)
From S2P Require Import Prelude GoStrings GoState.
Open Scope Z_scope.

(** ** The world *)

Record process := mkProcess { pr_pid : Z; pr_alive : bool; pr_ns : nat; pr_files : list string; pr_args : list string; pr_env : list string }.

(** [m_bound]: socket files that exist; [m_held]: listeners this process has; [m_sockets]:
    the local variable [sockets] of [Start]. *)
Record mworld := mkMw {
  m_bound : gset string;
  m_held : gset string;
  m_sockets : list string;
  m_ns : nat;                   (** the mount namespace of the thread; 0 the original *)
  m_locked : bool;
  m_nsfile : bool;              (** /proc/self/ns/mnt is open *)
  m_procs : list process;
  m_pidfile : option string
}.

Definition m_set_socks b h l w := mkMw b h l (m_ns w) (m_locked w) (m_nsfile w) (m_procs w) (m_pidfile w).
Definition m_set_ns n w := mkMw (m_bound w) (m_held w) (m_sockets w) n (m_locked w) (m_nsfile w) (m_procs w) (m_pidfile w).
Definition m_set_thread l f w := mkMw (m_bound w) (m_held w) (m_sockets w) (m_ns w) l f (m_procs w) (m_pidfile w).
Definition m_set_procs p w := mkMw (m_bound w) (m_held w) (m_sockets w) (m_ns w) (m_locked w) (m_nsfile w) p (m_pidfile w).
Definition m_set_pidfile x w := mkMw (m_bound w) (m_held w) (m_sockets w) (m_ns w) (m_locked w) (m_nsfile w) (m_procs w) x.

(** What the system and the libraries answer. *)
Record menv := mkMenv {
  me_namespace : res string;
  me_executable : option error;
  me_cwd : option error;
  me_environ : list string;
  me_spec : res (gmap string string);                (** the annotations of config.json *)
  me_debugLevel : Z;                                 (** LogLevel_LOG_LEVEL_DEBUG *)
  me_address : string → string → bool → res string;  (** shim.SocketAddress *)
  me_newSocket : string → option error;              (** but for an address in use *)
  me_canConnect : string → bool;
  me_removeSocket : string → option error;
  me_file : string → option error;                   (** listener.File *)
  me_openNs : option error;
  me_setns : option error;
  me_unshare : option error;
  me_mountSlave : option error;
  me_mountShared : option error;
  me_start : res Z;                                  (** cmd.Start: the pid *)
  me_writePid : option error;
  me_kill : option error;                            (** unix.Kill of the pid that was read *)
  me_now : Z;
  me_features : res (gmap string string)             (** /run/vminitd/features.json *)
}.

Section manager.
Context (env : menv).

Definition m_answer (e : option error) : ST mworld () := match e with None => ret tt | Some e => fail e end.

(** [defer f]: [f] runs with the result, and may change it. *)
Definition deferred {A} (f : res A → mworld → res A * mworld) (m : ST mworld A) : ST mworld A :=
  λ w, let '(r, w') := m w in f r w'.

(** ** Sockets *)

Inductive sockErr := SockExists (address : string) | SockErr (e : error).

(** [shim.NewSocket]: the error, or in use ([None]). *)
Definition NewSocket (address : string) : mworld → option (option error) * mworld := λ w,
  match me_newSocket env address with
  | Some e => (Some (Some e), w)
  | None => if decide (address ∈ m_bound w) then (Some None, w)
            else (None, m_set_socks ({[address]} ∪ m_bound w) ({[address]} ∪ m_held w) (m_sockets w) w)
  end.

Definition RemoveSocket (address : string) : mworld → option error * mworld := λ w,
  match me_removeSocket env address with
  | Some e => (Some e, w)
  | None => (None, m_set_socks (m_bound w ∖ {[address]}) (m_held w) (m_sockets w) w)
  end.

(** Closing the listener unlinks its file; RemoveSocket's result is dropped. *)
Definition close_listener (address : string) (w : mworld) : mworld :=
  m_set_socks (m_bound w ∖ {[address]}) (m_held w ∖ {[address]}) (m_sockets w) w.
Definition shimSocket_Close (address : string) (w : mworld) : mworld := (RemoveSocket address (close_listener address w)).2.

Definition in_use : error := errorf "address already in use".

(** [socket.File()] after the listener is made. *)
Definition with_file (address : string) (w : mworld) : (string + sockErr) * mworld :=
  match me_file env address with
  | Some e => (inr (SockErr e), close_listener address w)
  | None => (inl address, w)
  end.

Definition newShimSocket (path id : string) (debug : bool) : mworld → (string + sockErr) * mworld := λ w,
  match me_address env path id debug with
  | Err e => (inr (SockErr e), w)
  | Ok address =>
      match NewSocket address w with
      | (None, w1) => with_file address w1
      | (Some (Some e), w1) => (inr (SockErr (wrap "create new shim socket" e)), w1)
      | (Some None, w1) =>
          if negb debug && me_canConnect env address then (inr (SockExists address), w1)
          else match RemoveSocket address w1 with
               | (Some e, w2) => (inr (SockErr (wrap "remove stale socket" e)), w2)
               | (None, w2) =>
                   match NewSocket address w2 with
                   | (None, w3) => with_file address w3
                   | (Some e, w3) => (inr (SockErr (wrap "create new shim socket after removing stale socket" (default in_use e))), w3)
                   end
               end
      end
  end.

(** ** Starting *)

Record bootParams := mkParams { bp_id : string; bp_address : string; bp_logLevel : Z }.
Record bootResult := mkResult { br_Version : Z; br_Protocol : string; br_Address : string }.

Definition groupLabels : list string := ["io.containerd.runc.v2.group"; "io.kubernetes.cri.sandbox-id"].

Fixpoint grouping_of (labels : list string) (annotations : gmap string string) (id : string) : string :=
  match labels with
  | [] => id
  | l :: labels' => match annotations !! l with Some g => g | None => grouping_of labels' annotations id end
  end.

Definition newCommand (id address : string) (debug : bool) : res (list string * list string) :=
  let! ns := me_namespace env in
  match me_executable env, me_cwd env with
  | Some e, _ => Err e
  | None, Some e => Err e
  | None, None =>
      Ok (["-namespace"; ns; "-id"; id; "-address"; address] ++ (if debug then ["-debug"] else []),
          me_environ env ++ ["GOMAXPROCS=4"; "OTEL_SERVICE_NAME=containerd-shim-" +:+ id])
  end.

Definition setupMntNs : ST mworld () :=
  wrapping "unshare mount namespace" (m_answer (me_unshare env)) ;;!
  modify (m_set_ns 1) ;;!
  wrapping "remount root as slave" (m_answer (me_mountSlave env)) ;;!
  wrapping "remount root as shared" (m_answer (me_mountShared env)).

(** [cmd.Start] *)
Definition cmd_Start (args environ files : list string) : ST mworld Z := λ w,
  match me_start env with
  | Err e => (Err e, w)
  | Ok pid => (Ok pid, m_set_procs (m_procs w ++ [mkProcess pid true (m_ns w) files args environ]) w)
  end.

Definition kill_pid (pid : Z) (w : mworld) : mworld :=
  m_set_procs ((λ p, if decide (pr_pid p = pid) then mkProcess pid false (pr_ns p) (pr_files p) (pr_args p) (pr_env p) else p) <$> m_procs w) w.

Definition WritePidFile (pid : Z) : ST mworld () := λ w,
  match me_writePid env with Some e => (Err e, w) | None => (Ok tt, m_set_pidfile (Some (fmt_d pid)) w) end.

(** The deferred functions of [Start], in the order of registration. *)
Definition on_fail_close_sockets {A} (r : res A) (w : mworld) : res A * mworld :=
  match r with Ok _ => (r, w) | Err _ => (r, foldl (flip shimSocket_Close) w (m_sockets w)) end.
Definition unlock_thread {A} (r : res A) (w : mworld) : res A * mworld := (r, m_set_thread false (m_nsfile w) w).
Definition close_ns {A} (r : res A) (w : mworld) : res A * mworld := (r, m_set_thread (m_locked w) false w).
Definition restore_ns {A} (r : res A) (w : mworld) : res A * mworld :=
  match me_setns env with
  | None => (r, m_set_ns 0 w)
  | Some e => (match r with Ok _ => Err e | Err _ => r end, w)
  end.
Definition on_fail_kill {A} (pid : Z) (r : res A) (w : mworld) : res A * mworld :=
  match r with Ok _ => (r, w) | Err _ => (r, kill_pid pid w) end.

Definition append_socket (s : string) : ST mworld () := modify (λ w, m_set_socks (m_bound w) (m_held w) (m_sockets w ++ [s]) w).

(** The process in a mount namespace of its own, from the locked thread. *)
Definition launch (args environ files : list string) (address : string) : ST mworld bootResult :=
  modify (m_set_thread true false) ;;!
  deferred unlock_thread
    (m_answer (me_openNs env) ;;!
     modify (m_set_thread true true) ;;!
     deferred close_ns
       (deferred restore_ns
          (setupMntNs ;;!
           do! pid := cmd_Start args environ files in
           deferred (on_fail_kill pid)
             (WritePidFile pid ;;!
              ret (mkResult 3 "ttrpc" address))))).

Definition lift_sock (m : mworld → (string + sockErr) * mworld) : ST mworld (string + sockErr) := λ w, let '(r, w') := m w in (Ok r, w').

(** [Start] from the first socket on. *)
Definition start_group (cmd : list string * list string) (address grouping : string) (debug : bool) : ST mworld bootResult :=
  do! s := lift_sock (newShimSocket address grouping false) in
  match s with
  | inr (SockExists a) => ret (mkResult 3 "ttrpc" a)
  | inr (SockErr e) => fail e
  | inl s1 =>
      append_socket s1 ;;!
      if debug then
        do! t := lift_sock (newShimSocket address grouping true) in
        match t with
        | inr (SockExists a) => fail (mkError ErrAlreadyExists ("socket already exists: " +:+ a))
        | inr (SockErr e) => fail e
        | inl s2 => append_socket s2 ;;! launch cmd.1 cmd.2 [s1; s2] s1
        end
      else launch cmd.1 cmd.2 [s1] s1
  end.

Definition Start (params : bootParams) : ST mworld bootResult :=
  let debug := bp_logLevel params <=? me_debugLevel env in
  modify (λ w, m_set_socks (m_bound w) (m_held w) [] w) ;;!
  do! cmd := lift (newCommand (bp_id params) (bp_address params) debug) in
  do! annotations := lift (me_spec env) in
  deferred on_fail_close_sockets
    (start_group cmd (bp_address params) (grouping_of groupLabels annotations (bp_id params)) debug).

(** ** Stopping, and what the runtime is *)

Record StopStatus := mkStop { ss_ExitedAt : Z; ss_ExitStatus : Z; ss_Pid : Z }.

Definition SIGKILL : Z := 9.

Definition Stop : ST mworld StopStatus := λ w,
  match m_pidfile w with
  | None => (Err (mkError (Errno (EOTHER 2)) "open shim.pid: no such file or directory"), w)
  | Some p =>
      match Atoi p with
      | None => (Err (wrap "parse shim PID" (errorf ("strconv.Atoi: parsing " +:+ fmt_q p))), w)
      | Some pid =>
          match me_kill env with
          | Some e =>
              if decide (ekind e = Errno ESRCH) then (Ok (mkStop (me_now env) (128 + SIGKILL) pid), w)
              else (Err (wrap "kill shim process" e), w)
          | None => (Ok (mkStop (me_now env) (128 + SIGKILL) pid), kill_pid pid w)
          end
      end
  end.

Definition allow_mounts : string := "containerd.io/runtime-allow-mounts".

(** [Info]: the features of the VM, when there are any, override. *)
Definition Info : gmap string string :=
  let base : gmap string string := {[allow_mounts := "mkdir/*,format/*,erofs"]} in
  match me_features env with Ok f => f ∪ base | Err _ => base end.
End manager.

(** ** Everything or nothing *)

(** What the socket operations leave alone. *)
Definition same_rest (w w' : mworld) : Prop :=
  m_sockets w' = m_sockets w ∧ m_ns w' = m_ns w ∧ m_locked w' = m_locked w ∧ m_nsfile w' = m_nsfile w ∧ m_procs w' = m_procs w ∧ m_pidfile w' = m_pidfile w.

Lemma with_file_cases env a w r w' : with_file env a w = (r, w') →
  same_rest w w' ∧ (r = inl a ∧ w' = w ∨ ∃ e, r = inr (SockErr e) ∧ m_bound w' = m_bound w ∖ {[a]} ∧ m_held w' = m_held w ∖ {[a]}).
Proof. unfold with_file. destruct (me_file env a); intros [= <- <-]; split; try done; [right|left]; eauto. Qed.

Lemma NewSocket_cases env a w r w' : NewSocket env a w = (r, w') →
  same_rest w w' ∧ match r with
                   | None => m_bound w' = {[a]} ∪ m_bound w ∧ m_held w' = {[a]} ∪ m_held w ∧ a ∉ m_bound w
                   | Some e => w' = w ∧ (e = None → a ∈ m_bound w)
                   end.
Proof.
  unfold NewSocket. destruct (me_newSocket env a); [by intros [= <- <-]|]. destruct (decide (a ∈ m_bound w)); intros [= <- <-]; done.
Qed.

Lemma RemoveSocket_cases env a w r w' : RemoveSocket env a w = (r, w') →
  same_rest w w' ∧ m_held w' = m_held w ∧ m_bound w ∖ {[a]} ⊆ m_bound w' ⊆ m_bound w ∧ (r = None → m_bound w' = m_bound w ∖ {[a]}).
Proof. unfold RemoveSocket. destruct (me_removeSocket env a); intros [= <- <-]; split_and!; try done; cbn; set_solver. Qed.

Lemma newShimSocket_cases env path id debug w r w' : newShimSocket env path id debug w = (r, w') →
  same_rest w w' ∧
  match r with
  | inl a => m_bound w' = {[a]} ∪ m_bound w ∧ m_held w' = {[a]} ∪ m_held w
  | inr (SockExists a) => w' = w ∧ a ∈ m_bound w ∧ me_canConnect env a = true ∧ debug = false ∧ me_address env path id false = Ok a
  | inr (SockErr _) => m_bound w' ⊆ m_bound w ∧ m_held w' ⊆ m_held w
  end.
Proof.
  unfold newShimSocket. destruct (me_address env path id debug) as [a|e] eqn:Ha; [|by intros [= <- <-]].
  destruct (NewSocket env a w) as [[[e|]|] w1] eqn:H1; apply NewSocket_cases in H1 as [S1 H1].
  - intros [= <- <-]. destruct H1 as [-> _]. done.
  - destruct H1 as [-> Hin]. specialize (Hin eq_refl). destruct (negb debug && me_canConnect env a) eqn:Hc.
    + intros [= <- <-]. apply andb_true_iff in Hc as [Hd%negb_true_iff Hc]. subst debug. done.
    + destruct (RemoveSocket env a w) as [[e|] w2] eqn:H2; apply RemoveSocket_cases in H2 as (S2 & Hh2 & Hb2 & Hr2).
      { intros [= <- <-]. split; [done|]. split; [apply Hb2|by rewrite Hh2]. }
      specialize (Hr2 eq_refl). destruct (NewSocket env a w2) as [[e|] w3] eqn:H3; apply NewSocket_cases in H3 as [S3 H3].
      { intros [= <- <-]. destruct H3 as [-> _]. split; [done|]. split; [apply Hb2|by rewrite Hh2]. }
      destruct H3 as (Hb3 & Hh3 & _). intros [S4 [[-> ->]|(e & -> & Hb4 & Hh4)]]%with_file_cases.
      * split; [unfold same_rest in *; intuition congruence|]. rewrite Hb3, Hh3, Hr2, Hh2. split; [|done].
        apply set_eq. intros x. destruct (decide (x = a)); set_solver.
      * split; [unfold same_rest in *; intuition congruence|]. rewrite Hb4, Hb3, Hr2, Hh4, Hh3, Hh2. set_solver.
  - destruct H1 as (Hb1 & Hh1 & _). intros [S4 [[-> ->]|(e & -> & Hb4 & Hh4)]]%with_file_cases.
    + done.
    + split; [unfold same_rest in *; intuition congruence|]. rewrite Hb4, Hb1, Hh4, Hh1. set_solver.
Qed.

(** No process is alive that was not before. *)
Definition none_new (w w' : mworld) : Prop := ∀ p, p ∈ m_procs w' → pr_alive p = true → p ∈ m_procs w.

Definition released (w : mworld) : Prop := m_ns w = 0%nat ∧ m_locked w = false ∧ m_nsfile w = false.

Lemma kill_none_new w pid p : pr_pid p = pid → none_new w (kill_pid pid (m_set_procs (m_procs w ++ [p]) w)).
Proof.
  intros Hp q Hq Ha. cbn in Hq. apply list_elem_of_fmap in Hq as (x & -> & Hx). destruct (decide (pr_pid x = pid)); [done|].
  apply elem_of_app in Hx as [Hx|Hx%list_elem_of_singleton]; [done|]. by subst.
Qed.

Lemma launch_cases env args environ files a w r w' : me_setns env = None → m_ns w = 0%nat → launch env args environ files a w = (r, w') →
  released w' ∧ m_sockets w' = m_sockets w ∧ m_bound w' = m_bound w ∧ m_held w' = m_held w ∧
  match r with
  | Ok b => b = mkResult 3 "ttrpc" a ∧ ∃ pid, me_start env = Ok pid ∧ m_procs w' = m_procs w ++ [mkProcess pid true 1 files args environ] ∧ m_pidfile w' = Some (fmt_d pid)
  | Err _ => none_new w w' ∧ m_pidfile w' = m_pidfile w
  end.
Proof.
  intros Hns Hz. unfold launch, bind, deferred, unlock_thread, close_ns, restore_ns, setupMntNs, m_answer, wrapping, modify, ret, fail, bind.
  rewrite Hns. destruct (me_openNs env); [intros [= <- <-]; unfold released, none_new; cbn; by auto|].
  destruct (me_unshare env); [intros [= <- <-]; unfold released, none_new; cbn; by auto|].
  destruct (me_mountSlave env); [intros [= <- <-]; unfold released, none_new; cbn; by auto|].
  destruct (me_mountShared env); [intros [= <- <-]; unfold released, none_new; cbn; by auto|].
  unfold cmd_Start. destruct (me_start env) as [pid|e]; [|intros [= <- <-]; unfold released, none_new; cbn; by auto].
  unfold on_fail_kill, WritePidFile. destruct (me_writePid env); intros [= <- <-].
  - split_and!; try done. by apply (kill_none_new w).
  - split_and!; try done. eauto.
Qed.

Lemma shimSocket_Close_cases env a w : same_rest w (shimSocket_Close env a w) ∧
  m_bound (shimSocket_Close env a w) = m_bound w ∖ {[a]} ∧ m_held (shimSocket_Close env a w) = m_held w ∖ {[a]}.
Proof.
  unfold shimSocket_Close. destruct (RemoveSocket env a (close_listener a w)) as [r w'] eqn:H. cbn.
  apply RemoveSocket_cases in H as (S & Hh & Hb & _). cbn in *. split; [done|]. split; [set_solver|done].
Qed.

Lemma close_all env l : ∀ w, same_rest w (foldl (flip (shimSocket_Close env)) w l) ∧
  m_bound (foldl (flip (shimSocket_Close env)) w l) = m_bound w ∖ list_to_set l ∧
  m_held (foldl (flip (shimSocket_Close env)) w l) = m_held w ∖ list_to_set l.
Proof.
  induction l as [|a l IH]; intros w; cbn; [split; [done|set_solver]|].
  destruct (shimSocket_Close_cases env a w) as (S1 & B1 & H1). destruct (IH (shimSocket_Close env a w)) as (S2 & B2 & H2).
  change (flip (shimSocket_Close env) w a) with (shimSocket_Close env a w).
  split; [unfold same_rest in *; intuition congruence|]. rewrite B2, B1, H2, H1. set_solver.
Qed.

(** What [Start] leaves when it fails: the sockets it made closed and removed. *)
Definition undone (w w' : mworld) : Prop :=
  released w' ∧ m_bound w' ⊆ m_bound w ∧ m_held w' ⊆ m_held w ∧ none_new w w' ∧ m_pidfile w' = m_pidfile w.

Lemma fail_undoes env w w1 l : m_sockets w1 = l → m_bound w1 ⊆ list_to_set l ∪ m_bound w → m_held w1 ⊆ list_to_set l ∪ m_held w →
  released w1 → none_new w w1 → m_pidfile w1 = m_pidfile w → undone w (foldl (flip (shimSocket_Close env)) w1 (m_sockets w1)).
Proof.
  intros -> Hb Hh (R1 & R2 & R3) Hn Hp. destruct (close_all env l w1) as ((S1 & S2 & S3 & S4 & S5 & S6) & B & H).
  unfold undone, released. split_and!; [by rewrite S2|by rewrite S3|by rewrite S4|rewrite B; clear -Hb; set_solver|rewrite H; clear -Hh; set_solver| |by rewrite S6].
  intros p. rewrite S5. apply Hn.
Qed.

(** What [Start] has when it succeeds: an existing shim of the group that answers, or a
    process of its own. *)
Definition reuses (env : menv) (w w' : mworld) (b : bootResult) : Prop :=
  br_Address b ∈ m_bound w ∧ me_canConnect env (br_Address b) = true ∧ m_bound w' = m_bound w ∧ m_held w' = m_held w ∧
  m_procs w' = m_procs w ∧ m_pidfile w' = m_pidfile w.

Definition launched (env : menv) (cmd : list string * list string) (debug : bool) (w w' : mworld) (b : bootResult) : Prop :=
  ∃ pid files,
    m_procs w' = m_procs w ++ [mkProcess pid true 1 files cmd.1 cmd.2] ∧ m_pidfile w' = Some (fmt_d pid) ∧ me_start env = Ok pid ∧
    List.hd_error files = Some (br_Address b) ∧ length files = (if debug then 2 else 1)%nat ∧ m_bound w' = list_to_set files ∪ m_bound w.

Definition started (env : menv) (cmd : list string * list string) (debug : bool) (w w' : mworld) (b : bootResult) : Prop :=
  br_Version b = 3 ∧ br_Protocol b = "ttrpc" ∧ (reuses env w w' b ∨ launched env cmd debug w w' b).

(** The sockets that are to be closed on a failure. *)
Definition to_undo (w w1 : mworld) : Prop :=
  m_bound w1 ⊆ list_to_set (m_sockets w1) ∪ m_bound w ∧ m_held w1 ⊆ list_to_set (m_sockets w1) ∪ m_held w ∧
  none_new w w1 ∧ m_pidfile w1 = m_pidfile w.

(** A launch that follows the making of the sockets [l]. *)
Lemma launch_after env cmd (debug : bool) w w1 r w' l a : me_setns env = None → released w1 → launch env cmd.1 cmd.2 l a w1 = (r, w') →
  m_sockets w1 = l → m_bound w1 = list_to_set l ∪ m_bound w → m_held w1 = list_to_set l ∪ m_held w → m_procs w1 = m_procs w → m_pidfile w1 = m_pidfile w →
  List.hd_error l = Some a → length l = (if debug then 2 else 1)%nat →
  released w' ∧ match r with Ok b => started env cmd debug w w' b | Err _ => to_undo w w' end.
Proof.
  intros Hns [Hz _] Hl Hs Hb Hh Hp Hf Ha Hlen. apply launch_cases in Hl as (Hr & Hs' & Hb' & Hh' & Hl); [|done..]. split; [done|]. destruct r as [b|e].
  - destruct Hl as (-> & pid & Hpid & Hps & Hpf). split_and!; [done..|right]. exists pid, l. split_and!; try done; congruence.
  - destruct Hl as [Hn Hpf]. split_and!; [rewrite Hb', Hs', Hs, Hb; done|rewrite Hh', Hs', Hs, Hh; done| |congruence].
    intros p Hp1 Hp2. rewrite <- Hp. by apply Hn.
Qed.

Lemma group_cases env cmd address grouping debug w r w' : me_setns env = None → released w → m_sockets w = [] →
  start_group env cmd address grouping debug w = (r, w') →
  released w' ∧ match r with Ok b => started env cmd debug w w' b | Err _ => to_undo w w' end.
Proof.
  intros Hns Hrel Hnil. unfold start_group, lift_sock, bind. destruct (newShimSocket env address grouping false w) as [s w1] eqn:H1.
  apply newShimSocket_cases in H1 as ((S1 & S2 & S3 & S4 & S5 & S6) & H1).
  assert (Hrel1 : released w1) by (destruct Hrel as (? & ? & ?); unfold released; split_and!; congruence).
  assert (Hnew : ∀ w2, m_procs w2 = m_procs w → none_new w w2) by (intros w2 E p Hp _; by rewrite <- E).
  destruct s as [s1|[a|e]].
  - destruct H1 as [Hb1 Hh1]. unfold append_socket, modify. set (w2 := m_set_socks _ _ _ w1). destruct debug.
    + destruct (newShimSocket env address grouping true w2) as [t w3] eqn:H2. apply newShimSocket_cases in H2 as ((T1 & T2 & T3 & T4 & T5 & T6) & H2).
      cbn in T1, T2, T3, T4, T5, T6. rewrite S1, Hnil in T1. cbn in T1.
      assert (Hrel3 : released w3) by (destruct Hrel1 as (? & ? & ?); unfold released; split_and!; congruence).
      destruct t as [s2|[a|e]].
      * destruct H2 as [Hb2 Hh2]. cbn in Hb2, Hh2. intros Hl. eapply launch_after; try exact Hl; try done; cbn.
        -- by rewrite T1.
        -- rewrite Hb2, Hb1. set_solver.
        -- rewrite Hh2, Hh1. set_solver.
        -- congruence.
        -- congruence.
      * destruct H2 as (_ & _ & _ & ? & _). done.
      * intros [= <- <-]. split; [done|]. destruct H2 as [Hb2 Hh2]. cbn in Hb2, Hh2. unfold to_undo. rewrite T1.
        split_and!; [rewrite Hb1 in Hb2; clear -Hb2; set_solver|rewrite Hh1 in Hh2; clear -Hh2; set_solver|apply Hnew; congruence|congruence].
    + intros Hl. eapply launch_after; try exact Hl; try done; cbn.
      * by rewrite S1, Hnil.
      * rewrite Hb1. set_solver.
      * rewrite Hh1. set_solver.
  - destruct H1 as (-> & Hin & Hcc & _). intros [= <- <-]. split; [done|]. split_and!; [done..|left]. by split_and!.
  - intros [= <- <-]. split; [done|]. destruct H1 as [Hb1 Hh1]. unfold to_undo. rewrite S1, Hnil. split_and!; [set_solver|set_solver|by apply Hnew|done].
Qed.

(** C21: Starting a shim is all or nothing: it answers with the address of a
    shim of the group that accepts connections, having changed nothing; or
    with that of a process it started in a mount namespace of its own, which
    inherited the sockets it is reached at and whose pid is in the pid file;
    or it fails, and then no process is left and every socket it made is
    closed and removed. Its thread is back in its namespace in each case.
    The hypothesis is that the namespace can be restored. *)
Theorem shim_start_all_or_nothing env params w r w' : me_setns env = None → released w → Start env params w = (r, w') →
  released w' ∧
  match r with
  | Ok b => ∃ cmd, let debug := bp_logLevel params <=? me_debugLevel env in
      newCommand env (bp_id params) (bp_address params) debug = Ok cmd ∧ started env cmd debug w w' b
  | Err _ => undone w w'
  end.
Proof.
  intros Hns Hrel. unfold Start, bind, modify, lift. set (w0 := m_set_socks _ _ _ w).
  assert (Hsame : undone w w0) by (unfold undone, none_new; cbn; set_solver).
  destruct (newCommand env _ _ _) as [cmd|e] eqn:Hcmd; [|by intros [= <- <-]]. destruct (me_spec env) as [an|e]; [|by intros [= <- <-]].
  unfold deferred. destruct (start_group env cmd _ _ _ w0) as [r1 w1] eqn:Hg.
  apply group_cases in Hg as [Hrel1 Hg]; [|done|done|done]. destruct r1 as [b|e]; cbn; intros [= <- <-].
  - split; [done|]. exists cmd. by split.
  - destruct Hg as (Hb & Hh & Hn & Hp). pose proof (fail_undoes env w w1 (m_sockets w1) eq_refl Hb Hh Hrel1 Hn Hp) as Hu. split; [apply Hu|done].
Qed.

Module Sample.
Definition env : menv :=
  mkMenv (Ok "default") None None ["PATH=/bin"] (Ok {["io.kubernetes.cri.sandbox-id" := "pod"]}) 1
    (λ path id debug, Ok ("unix://" +:+ path +:+ "/" +:+ id +:+ (if debug : bool then "-debug" else ""))) (λ _, None) (λ _, false) (λ _, None) (λ _, None)
    None None None None None (Ok 4242) None None 7 (Err (errorf "no such file")).
Definition params : bootParams := mkParams "c1" "/run" 0.
(** A stale socket of the group is there. *)
Definition w : mworld := mkMw {["unix:///run/pod"]} ∅ [] 0 false false [] None.
End Sample.

Lemma shim_start_all_or_nothing_witness :
  ∃ b w', Start Sample.env Sample.params Sample.w = (Ok b, w') ∧ br_Address b = "unix:///run/pod" ∧ length (m_procs w') = 1%nat ∧
    released w' ∧
    ∃ cmd, let debug := bp_logLevel Sample.params <=? me_debugLevel Sample.env in
      newCommand Sample.env (bp_id Sample.params) (bp_address Sample.params) debug = Ok cmd ∧ started Sample.env cmd debug Sample.w w' b.
Proof.
  eexists _, _. split; [vm_compute; reflexivity|]. split; [reflexivity|]. split; [reflexivity|].
  refine (shim_start_all_or_nothing Sample.env Sample.params Sample.w (Ok _) _ _ _ _); [done|done|vm_compute; reflexivity].
Defined.

(** ** Stopping what was started *)

(** Stop undoes a start that launched a shim: it kills the process whose pid
    is in the pid file, answers with that pid and the status of a killed
    process, and no process of the start is left alive. *)
Theorem stop_undoes_start env cmd debug w w' b : launched env cmd debug w w' b → me_kill env = None →
  (∀ pid, me_start env = Ok pid → 0 ≤ pid < two63) →
  ∃ st w2, Stop env w' = (Ok st, w2) ∧ me_start env = Ok (ss_Pid st) ∧ ss_ExitStatus st = 137 ∧ none_new w w2.
Proof.
  intros (pid & files & Hps & Hpf & Hpid & _) Hk Hr. unfold Stop. rewrite Hpf, Atoi_fmt_d, Hk by auto. eexists _, _. split; [done|].
  split; [done|]. split; [done|]. intros p Hp Ha. refine (kill_none_new w pid (mkProcess pid true 1 files cmd.1 cmd.2) eq_refl p _ Ha).
  cbn in Hp |- *. by rewrite Hps in Hp.
Qed.

Lemma stop_undoes_start_witness :
  ∃ cmd w' b, launched Sample.env cmd true Sample.w w' b ∧
    ∃ st w2, Stop Sample.env w' = (Ok st, w2) ∧ me_start Sample.env = Ok (ss_Pid st) ∧ ss_ExitStatus st = 137 ∧ none_new Sample.w w2.
Proof.
  assert (H : ∃ cmd w' b, launched Sample.env cmd true Sample.w w' b).
  { destruct (newCommand Sample.env "c1" "/run" true) as [cmd|] eqn:Hc; [|done].
    destruct (Start Sample.env Sample.params Sample.w) as [[b|] w'] eqn:Hs; [|vm_compute in Hs; done].
    exists cmd, w', b. vm_compute in Hc. injection Hc as <-. vm_compute in Hs. injection Hs as <- <-.
    exists 4242, ["unix:///run/pod"; "unix:///run/pod-debug"]. split_and!; vm_compute; reflexivity. }
  destruct H as (cmd & w' & b & H). exists cmd, w', b. split; [exact H|].
  apply (stop_undoes_start Sample.env cmd true Sample.w w' b H); [done|]. intros pid [= <-]. by unfold two63.
Defined.

(** A container that joins the shim of its group has no pid file: stopping it fails. *)
Lemma stop_after_reuse_fails env w w' b : reuses env w w' b → m_pidfile w = None → ∃ e w2, Stop env w' = (Err e, w2).
Proof. intros (_ & _ & _ & _ & _ & Hp) Hn. unfold Stop. rewrite Hp, Hn. eauto. Qed.

(** The kill is deferred after the restoring of the namespace, so it runs before it: when
    the restoring fails, Start fails and removes the sockets, and the shim runs on. *)
Lemma restore_failure_leaves_shim :
  let env := mkMenv (Ok "default") None None [] (Ok ∅) 1 (me_address Sample.env) (λ _, None) (λ _, false) (λ _, None) (λ _, None)
    None (Some (errorf "setns")) None None None (Ok 4242) None None 7 (Err (errorf "no such file")) in
  ∃ e w', Start env (mkParams "c1" "/run" 5) (mkMw ∅ ∅ [] 0 false false [] None) = (Err e, w') ∧
    m_bound w' = ∅ ∧ pr_alive <$> m_procs w' = [true] ∧ m_ns w' = 1%nat.
Proof. cbn zeta. eexists _, _. split; [vm_compute; reflexivity|]. by split_and!. Qed.
