(* ===== verification/Qmp.v ===== *)
(** The QMP client: internal/host/vm/qemu/qmp_client.go and qmp_events.go.

    Callers of sendCommand, the goroutine each starts, callers of Close, the event loop,
    the monitor of go-qemu and the clock interleave: [qstep] takes one step and is
    undefined when it is not enabled.  The monitor's answers are inputs.  Times are
    nanoseconds. *)
From S2P Require Import Prelude GoStrings.
Open Scope Z_scope.

(** ** Commands *)

(** A JSON value of an argument. *)
#[local] Set Warnings "-register-all".
Inductive value := VStr (s : string) | VInt (z : Z) | VBool (b : bool) | VList (l : list value) | VObj (l : list (string * value)).

Record Command := mkCommand { Execute : string; Args : option (gmap string value) }.

Definition SendCtrlAltDelete : Command :=
  let key k := VObj [("type", VStr "qcode"); ("data", VStr k)] in
  mkCommand "send-key" (Some {["keys" := VList [key "ctrl"; key "alt"; key "delete"]]}).
Definition Shutdown : Command := mkCommand "system_powerdown" None.
Definition Quit : Command := mkCommand "quit" None.
Definition QueryStatus : Command := mkCommand "query-status" None.
Definition Stop : Command := mkCommand "stop" None.
Definition Cont : Command := mkCommand "cont" None.

(** The caller's map gets the driver: the second component is that map afterwards. *)
Definition DeviceAdd (driver : string) (args : option (gmap string value)) : Command * option (gmap string value) :=
  let sent := <["driver" := VStr driver]> (default ∅ args) in
  (mkCommand "device_add" (Some sent), match args with Some _ => Some sent | None => None end).
Definition DeviceDelete (deviceID : string) : Command := mkCommand "device_del" (Some {["id" := VStr deviceID]}).
(** [maps.Copy(arguments, args)]: the arguments given override. *)
Definition ObjectAdd (qomType objID : string) (args : gmap string value) : Command :=
  mkCommand "object-add" (Some (args ∪ {["qom-type" := VStr qomType; "id" := VStr objID]})).
Definition QOMSet (path property : string) (v : value) : Command :=
  mkCommand "qom-set" (Some {["path" := VStr path; "property" := VStr property; "value" := v]}).
Definition ObjectDel (objID : string) : Command := mkCommand "object-del" (Some {["id" := VStr objID]}).

(** ** State *)

Record qmpError := mkQmpError { Class_ : string; Desc : string }.
Record qmpResponse := mkResponse { Return : option value; Error_ : option qmpError }.
Record event := mkEvent { ev_Event : string; ev_Data : option (gmap string value) }.

(** A call of sendCommand. *)
Inductive cphase := CNew | CChecked | CWaiting (deadline : Z) (timeout : Z) | CDone (r : res qmpResponse).
(** The goroutine it starts. *)
Inductive wphase := WNone | WSpawned | WRunning | WAnswered (r : res qmpResponse) | WSent.

(** [k_raw] is what the monitor answered, kept for the statements. *)
Record call := mkCall { k_cmd : Command; k_ph : cphase; k_w : wphase; k_resp : list qmpResponse; k_err : list error; k_raw : option (res (res qmpResponse)) }.

(** A call of Close. *)
Inductive clphase := ClNew | ClDisconnect | ClWait (until : Z) (err : option error) | ClDone (err : option error).

Record qst := mkQst {
  q_closed : bool;
  q_timeout : Z;
  q_calls : list call;
  q_closers : list clphase;
  q_runs : list nat;              (** the calls whose command went to the monitor, in order *)
  q_disconnects : nat;
  q_events : option (list event); (** the channel; none when events are not supported *)
  q_evclosed : bool;
  q_handled : list event;
  q_loopDone : bool;
  q_now : Z
}.

Definition second : Z := 1000000000.
Definition qmpDefaultTimeout : Z := 5 * second.
Definition closeWait : Z := 100000000.

Definition s_call i c s := mkQst (q_closed s) (q_timeout s) (<[i := c]> (q_calls s)) (q_closers s) (q_runs s) (q_disconnects s) (q_events s) (q_evclosed s) (q_handled s) (q_loopDone s) (q_now s).
Definition s_closer j c s := mkQst (q_closed s) (q_timeout s) (q_calls s) (<[j := c]> (q_closers s)) (q_runs s) (q_disconnects s) (q_events s) (q_evclosed s) (q_handled s) (q_loopDone s) (q_now s).
Definition s_closed b n s := mkQst b (q_timeout s) (q_calls s) (q_closers s) (q_runs s) n (q_events s) (q_evclosed s) (q_handled s) (q_loopDone s) (q_now s).
Definition s_runs r s := mkQst (q_closed s) (q_timeout s) (q_calls s) (q_closers s) r (q_disconnects s) (q_events s) (q_evclosed s) (q_handled s) (q_loopDone s) (q_now s).
Definition s_events e ec h d s := mkQst (q_closed s) (q_timeout s) (q_calls s) (q_closers s) (q_runs s) (q_disconnects s) e ec h d (q_now s).
Definition s_time t n s := mkQst (q_closed s) t (q_calls s) (q_closers s) (q_runs s) (q_disconnects s) (q_events s) (q_evclosed s) (q_handled s) (q_loopDone s) n.

Definition c_ph p c := mkCall (k_cmd c) p (k_w c) (k_resp c) (k_err c) (k_raw c).
Definition c_w w c := mkCall (k_cmd c) (k_ph c) w (k_resp c) (k_err c) (k_raw c).

(** ** The operations *)

Definition client_closed : error := errorf "QMP client closed".
Definition checkClosed (s : qst) : option error := if q_closed s then Some client_closed else None.
Definition getCommandTimeout (s : qst) : Z := q_timeout s.
Definition SetCommandTimeout (t : Z) (s : qst) : qst := s_time t (q_now s) s.

(** What the goroutine makes of the monitor's answer: the bytes or the error, and what
    they parse to. *)
Definition interpret (command : string) (raw : res (res qmpResponse)) : res qmpResponse :=
  match raw with
  | Err e => Err e
  | Ok (Err e) => Err (wrap ("failed to parse QMP response for " +:+ command) e)
  | Ok (Ok r) =>
      match Error_ r with
      | Some x => Err (errorf ("QMP error for " +:+ command +:+ ": " +:+ Class_ x +:+ ": " +:+ Desc x))
      | None => Ok r
      end
  end.

Definition timed_out (command : string) (timeout : Z) : error :=
  errorf ("timeout (" +:+ fmt_d timeout +:+ "ns) waiting for QMP response to " +:+ command).

(** Why a step of a call happens. *)
Inductive cinput := CCheck | CSpawn (marshal : option error) | CRecvResp | CRecvErr | CCtx (e : error) | CTimeout.

(** The caller's side of sendCommand: the guard, encoding and starting the goroutine, and
    the select. *)
Definition sendCommand (i : nat) (x : cinput) (s : qst) : option qst :=
  match q_calls s !! i with
  | None => None
  | Some c =>
      let command := Execute (k_cmd c) in
      match k_ph c, x with
      | CNew, CCheck => Some (s_call i (c_ph (match checkClosed s with Some e => CDone (Err e) | None => CChecked end) c) s)
      | CChecked, CSpawn (Some e) => Some (s_call i (c_ph (CDone (Err (wrap ("failed to encode QMP command " +:+ command) e))) c) s)
      | CChecked, CSpawn None =>
          let t := getCommandTimeout s in
          let timeout := if t =? 0 then qmpDefaultTimeout else t in
          Some (s_call i (mkCall (k_cmd c) (CWaiting (q_now s + timeout) timeout) WSpawned [] [] None) s)
      | CWaiting _ _, CRecvResp =>
          match k_resp c with
          | r :: rest => Some (s_call i (mkCall (k_cmd c) (CDone (Ok r)) (k_w c) rest (k_err c) (k_raw c)) s)
          | [] => None
          end
      | CWaiting _ _, CRecvErr =>
          match k_err c with
          | e :: rest => Some (s_call i (mkCall (k_cmd c) (CDone (Err (wrap ("failed to send QMP command " +:+ command) e))) (k_w c) (k_resp c) rest (k_raw c)) s)
          | [] => None
          end
      | CWaiting _ _, CCtx e => Some (s_call i (c_ph (CDone (Err e)) c) s)
      | CWaiting deadline timeout, CTimeout =>
          if deadline <=? q_now s then Some (s_call i (c_ph (CDone (Err (timed_out command timeout))) c) s) else None
      | _, _ => None
      end
  end.

(** The goroutine: it runs the command, interprets the answer and sends it on one of two
    channels of one place each. *)
Definition worker (i : nat) (raw : res (res qmpResponse)) (s : qst) : option qst :=
  match q_calls s !! i with
  | None => None
  | Some c =>
      match k_w c with
      | WSpawned => Some (s_call i (c_w WRunning c) (s_runs (q_runs s ++ [i]) s))
      | WRunning => Some (s_call i (mkCall (k_cmd c) (k_ph c) (WAnswered (interpret (Execute (k_cmd c)) raw)) (k_resp c) (k_err c) (Some raw)) s)
      | WAnswered (Ok r) =>
          if (length (k_resp c) <? 1)%nat then Some (s_call i (mkCall (k_cmd c) (k_ph c) WSent (k_resp c ++ [r]) (k_err c) (k_raw c)) s) else None
      | WAnswered (Err e) =>
          if (length (k_err c) <? 1)%nat then Some (s_call i (mkCall (k_cmd c) (k_ph c) WSent (k_resp c) (k_err c ++ [e]) (k_raw c)) s) else None
      | WNone | WSent => None
      end
  end.

(** [disc] is the monitor's answer to the disconnect. *)
Definition Close (j : nat) (disc : option error) (s : qst) : option qst :=
  match q_closers s !! j with
  | Some ClNew =>
      if q_closed s then Some (s_closer j (ClDone None) s) else Some (s_closer j ClDisconnect (s_closed true (q_disconnects s) s))
  | Some ClDisconnect => Some (s_closer j (ClWait (q_now s + closeWait) disc) (s_closed (q_closed s) (S (q_disconnects s)) s))
  | Some (ClWait until err) => if q_loopDone s || (until <=? q_now s) then Some (s_closer j (ClDone err) s) else None
  | Some (ClDone _) | None => None
  end.

(** One turn of eventLoop. *)
Definition eventLoop (s : qst) : option qst :=
  if q_loopDone s then None
  else match q_events s with
       | None => Some (s_events None (q_evclosed s) (q_handled s) true s)
       | Some [] => if q_evclosed s then Some (s_events (Some []) true (q_handled s) true s) else None
       | Some (e :: rest) =>
           if q_closed s then Some (s_events (Some rest) (q_evclosed s) (q_handled s) true s)
           else Some (s_events (Some rest) (q_evclosed s) (q_handled s ++ [e]) false s)
       end.

Definition qmpStringField (data : option (gmap string value)) (key : string) : string :=
  match data with
  | None => "unknown"
  | Some m => match m !! key with Some (VStr s) => s | _ => "unknown" end
  end.

Inductive level := LDebug | LInfo | LWarn | LError.

(** The level at which [handleEvent] logs an event, and the fields it adds. *)
Definition handleEvent (e : event) : level * list (string * string) :=
  let f k key := (k, qmpStringField (ev_Data e) key) in
  if decide (ev_Event e = "SHUTDOWN") then (LInfo, [f "reason" "reason"])
  else if decide (ev_Event e = "POWERDOWN") then (LInfo, [])
  else if decide (ev_Event e = "RESET") then (LWarn, [])
  else if decide (ev_Event e = "STOP") then (LDebug, [])
  else if decide (ev_Event e = "RESUME") then (LDebug, [])
  else if decide (ev_Event e = "DEVICE_DELETED") then (LDebug, [f "device" "device"])
  else if decide (ev_Event e = "NIC_RX_FILTER_CHANGED") then (LDebug, [f "nic" "name"])
  else if decide (ev_Event e = "WATCHDOG") then (LWarn, [f "action" "action"])
  else if decide (ev_Event e = "GUEST_PANICKED") then (LError, [])
  else if decide (ev_Event e = "BLOCK_IO_ERROR") then (LError, [f "device" "device"; f "operation" "operation"])
  else (LDebug, []).

(** ** Interleavings *)

Inductive qinput :=
  | ICall (i : nat) (x : cinput)
  | IWorker (i : nat) (raw : res (res qmpResponse))
  | IClose (j : nat) (disc : option error)
  | ILoop
  | IEvent (e : event)
  | IEventsEnd
  | ISetTimeout (t : Z)
  | ITick (dt : N).

Definition qstep (x : qinput) (s : qst) : option qst :=
  match x with
  | ICall i x => sendCommand i x s
  | IWorker i raw => worker i raw s
  | IClose j d => Close j d s
  | ILoop => eventLoop s
  | IEvent e => match q_events s with
                | Some l => if q_evclosed s then None else Some (s_events (Some (l ++ [e])) false (q_handled s) (q_loopDone s) s)
                | None => None
                end
  | IEventsEnd => Some (s_events (q_events s) true (q_handled s) (q_loopDone s) s)
  | ISetTimeout t => Some (SetCommandTimeout t s)
  | ITick dt => Some (s_time (q_timeout s) (q_now s + Z.of_N dt) s)
  end.

Fixpoint qrun (xs : list qinput) (s : qst) : option qst :=
  match xs with [] => Some s | x :: xs' => qstep x s ≫= qrun xs' end.

(** ** Connecting *)

(** What the steps of newQMPClient answer; [None] for the events is that they are not
    supported. *)
Record handshake := mkHandshake { hs_socket : option error; hs_dial : option error; hs_connect : option error; hs_events : res bool }.

Definition connected (events : bool) (cmds : list Command) (closers : nat) : qst :=
  mkQst false qmpDefaultTimeout ((λ c, mkCall c CNew WNone [] [] None) <$> cmds) (replicate closers ClNew) [] 0
    (if events then Some [] else None) false [] false 0.

(** The client, used later by [cmds] and [closers], or the error; and how many monitors
    are left connected. *)
Definition newQMPClient (h : handshake) (cmds : list Command) (closers : nat) : res qst * nat :=
  match hs_socket h with
  | Some e => (Err (wrap "QMP socket not available" e), O)
  | None =>
      match hs_dial h with
      | Some e => (Err (wrap "failed to connect to QMP socket" e), O)
      | None =>
          match hs_connect h with
          | Some e => (Err (wrap "failed to negotiate QMP capabilities" e), O)
          | None =>
              match hs_events h with
              | Err e => (Err (wrap "failed to subscribe to QMP events" e), O)
              | Ok supported => (Ok (connected supported cmds closers), 1%nat)
              end
          end
      end
  end.

(** ** What holds of every call *)

Definition empty_chans (c : call) : Prop := k_resp c = [] ∧ k_err c = [].

Definition call_ok (c : call) : Prop :=
  (match k_ph c with CNew | CChecked => k_w c = WNone | CDone (Ok r) => ∃ raw, k_raw c = Some raw ∧ interpret (Execute (k_cmd c)) raw = Ok r ∧ k_w c = WSent | _ => True end) ∧
  match k_w c with
  | WNone | WSpawned | WRunning => empty_chans c
  | WAnswered r => empty_chans c ∧ ∃ raw, k_raw c = Some raw ∧ interpret (Execute (k_cmd c)) raw = r
  | WSent => (∀ r, r ∈ k_resp c → ∃ raw, k_raw c = Some raw ∧ interpret (Execute (k_cmd c)) raw = Ok r)
  end.

Definition ran (c : call) : bool := match k_w c with WNone | WSpawned => false | _ => true end.

Definition disconnecting (c : clphase) : bool := match c with ClDisconnect => true | _ => false end.

Record qinv (s : qst) : Prop := mkQinv {
  v_calls : ∀ i c, q_calls s !! i = Some c → call_ok c;
  v_runs : NoDup (q_runs s) ∧ ∀ i c, q_calls s !! i = Some c → (i ∈ q_runs s ↔ ran c = true);
  v_close : (q_disconnects s + length (List.filter disconnecting (q_closers s)) = if q_closed s then 1 else 0)%nat
}.

Lemma qinv_call s s' i c c' : qinv s → q_calls s !! i = Some c → call_ok c' → ran c' = ran c →
  q_calls s' = <[i := c']> (q_calls s) → q_runs s' = q_runs s → q_disconnects s' = q_disconnects s → q_closers s' = q_closers s → q_closed s' = q_closed s →
  qinv s'.
Proof.
  intros [Hc [Hn Hr] Hd] Hi Hok Hran E1 E2 E3 E4 E5. constructor.
  - intros j x Hj. rewrite E1 in Hj. apply list_lookup_insert_Some in Hj as [(-> & <- & _)|[_ Hj]]; [done|by eapply Hc].
  - rewrite E2. split; [done|]. intros j x Hj. rewrite E1 in Hj. apply list_lookup_insert_Some in Hj as [(-> & <- & _)|[_ Hj]]; [|by apply Hr].
    rewrite Hran. by apply Hr.
  - by rewrite E3, E4, E5.
Qed.

(** Steps that touch no call, close nothing and send nothing. *)
Lemma qinv_other s s' : qinv s → q_calls s' = q_calls s → q_runs s' = q_runs s → q_disconnects s' = q_disconnects s → q_closers s' = q_closers s →
  q_closed s' = q_closed s → qinv s'.
Proof. intros [Hc Hr Hd] E1 E2 E3 E4 E5. constructor; rewrite ?E1, ?E2, ?E3, ?E4, ?E5; done. Qed.

(** The step changed one call: what is left is the call's own invariant. *)
#[local] Ltac one_call Hv := eapply (qinv_call _ _ _ _ _ Hv); [eassumption| | |reflexivity|done..]; [|try done].

Lemma qinv_send s i x s' : qinv s → sendCommand i x s = Some s' → qinv s'.
Proof.
  intros Hv Hs. unfold sendCommand in Hs. destruct (q_calls s !! i) as [c|] eqn:Hi; [|done].
  pose proof (v_calls s Hv i c Hi) as [Hp Hw]. destruct c as [cmd ph w rs es raw]. cbn in Hp, Hw, Hs.
  destruct ph as [| |d t|r]; destruct x; try done; cbn in Hs.
  - subst w. unfold checkClosed in Hs. destruct (q_closed s); injection Hs as <-; one_call Hv; by split.
  - subst w. destruct marshal; injection Hs as <-; one_call Hv; by split.
  - destruct rs as [|r rest]; [done|]. injection Hs as <-. destruct w as [| | |r0|]; try (by destruct Hw); [by destruct Hw as [[? _] _]|].
    one_call Hv. split; [destruct (Hw r) as (rw & ? & ?); [left|]; by exists rw|].
    cbn. intros r' Hr'. apply Hw. by right.
  - destruct es as [|e0 rest]; [done|]. injection Hs as <-. destruct w as [| | |r0|]; try (by destruct Hw); [by destruct Hw as [[_ ?] _]|].
    one_call Hv. by split.
  - injection Hs as <-. one_call Hv. by split.
  - destruct (d <=? q_now s); [|done]. injection Hs as <-. one_call Hv. by split.
Qed.

Lemma qinv_worker s i raw s' : qinv s → worker i raw s = Some s' → qinv s'.
Proof.
  intros Hv Hs. unfold worker in Hs. destruct (q_calls s !! i) as [c|] eqn:Hi; [|done].
  pose proof (v_calls s Hv i c Hi) as [Hp Hw]. destruct c as [cmd ph w rs es rw]. cbn in Hp, Hw, Hs.
  assert (Hph : w ≠ WNone → w ≠ WSent → match ph with CNew | CChecked | CDone (Ok _) => False | _ => True end).
  { intros H1 H2. destruct ph as [| | |[]]; try done. by destruct Hp as (? & _ & _ & ?). }
  destruct w as [| | |[r|e]|]; try done; specialize (Hph ltac:(done) ltac:(done)).
  - injection Hs as <-. destruct Hv as [Hc [Hn Hr] Hd]. pose proof (Hr _ _ Hi) as Hri. cbn in Hri.
    assert (Hnot : i ∉ q_runs s) by (intros H; by apply Hri in H). constructor; cbn.
    + intros j x Hj. apply list_lookup_insert_Some in Hj as [(-> & <- & _)|[_ Hj]]; [|by eapply Hc]. split; cbn; [by destruct ph as [| | |[]]|done].
    + split; [apply NoDup_app; split_and!; [done|by intros x Hx ->%list_elem_of_singleton|apply NoDup_singleton]|].
      intros j x Hj. rewrite elem_of_app, list_elem_of_singleton. apply list_lookup_insert_Some in Hj as [(-> & <- & _)|[Hne Hj]]; cbn; [naive_solver|].
      rewrite (Hr _ _ Hj). naive_solver.
    + done.
  - injection Hs as <-. one_call Hv. split; [cbn; by destruct ph as [| | |[]]|]. cbn. split; [done|]. eauto.
  - destruct Hw as [[Hrs Hes] Hraw]. cbn in Hrs, Hes. subst rs es. injection Hs as <-. one_call Hv. split; [cbn; by destruct ph as [| | |[]]|].
    cbn. intros r' ->%list_elem_of_singleton. done.
  - destruct Hw as [[Hrs Hes] Hraw]. cbn in Hrs, Hes. subst rs es. injection Hs as <-. one_call Hv. split; [cbn; by destruct ph as [| | |[]]|].
    cbn. intros r' Hr'. by apply elem_of_nil in Hr'.
Qed.

Lemma count_closer (l : list clphase) j x x' : l !! j = Some x →
  (length (List.filter disconnecting (<[j := x']> l)) + (if disconnecting x then 1 else 0) = length (List.filter disconnecting l) + (if disconnecting x' then 1 else 0))%nat.
Proof.
  revert j. induction l as [|y l IH]; intros [|j] Hj; [done|done|..].
  - injection Hj as ->. change (<[0%nat := x']> (x :: l)) with (x' :: l). cbn [List.filter]. destruct (disconnecting x), (disconnecting x'); cbn; lia.
  - change (<[S j := x']> (y :: l)) with (y :: <[j := x']> l). specialize (IH j Hj). cbn [List.filter].
    destruct (disconnecting y), (disconnecting x), (disconnecting x'); cbn; lia.
Qed.

Lemma qinv_close s j d s' : qinv s → Close j d s = Some s' → qinv s'.
Proof.
  intros [Hc Hr Hd] Hs. unfold Close in Hs. destruct (q_closers s !! j) as [ph|] eqn:Hj; [|done].
  destruct ph as [| |u err|err]; try done.
  - pose proof (λ x', count_closer _ _ _ x' Hj) as Hn. destruct (q_closed s) eqn:Hcl; injection Hs as <-; constructor; try done; cbn.
    + specialize (Hn (ClDone None)). cbn in Hn. rewrite Hcl. lia.
    + specialize (Hn ClDisconnect). cbn in Hn. lia.
  - pose proof (count_closer _ _ _ (ClWait (q_now s + closeWait) d) Hj) as Hn. injection Hs as <-. constructor; try done. cbn in Hn |- *. destruct (q_closed s); lia.
  - pose proof (count_closer _ _ _ (ClDone err) Hj) as Hn. destruct (q_loopDone s || (u <=? q_now s)); [|done]. injection Hs as <-. constructor; try done.
    cbn in Hn |- *. destruct (q_closed s); lia.
Qed.

Lemma qinv_step s x s' : qinv s → qstep x s = Some s' → qinv s'.
Proof.
  intros Hv Hs. destruct x as [i x|i raw|j d| |e| |t|dt]; cbn in Hs.
  - by eapply qinv_send.
  - by eapply qinv_worker.
  - by eapply qinv_close.
  - unfold eventLoop in Hs. repeat (case_match; simplify_eq); by eapply qinv_other.
  - repeat (case_match; simplify_eq); by eapply qinv_other.
  - simplify_eq. by eapply qinv_other.
  - simplify_eq. by eapply qinv_other.
  - simplify_eq. by eapply qinv_other.
Qed.

Lemma qrun_ind (P : qst → Prop) xs : ∀ s s', (∀ s x s', P s → qstep x s = Some s' → P s') → P s → qrun xs s = Some s' → P s'.
Proof.
  induction xs as [|x xs IH]; intros s s' Hstep Hp Hs; cbn in Hs; [by injection Hs as <-|].
  destruct (qstep x s) as [s1|] eqn:H1; [|done]. eapply (IH s1); eauto.
Qed.

Lemma qinv_connected events cmds closers : qinv (connected events cmds closers).
Proof.
  constructor.
  - intros i c Hi. cbn in Hi. apply list_lookup_fmap_Some in Hi as (x & -> & _). by split.
  - split; [constructor|]. intros i c Hi. cbn in Hi. apply list_lookup_fmap_Some in Hi as (x & -> & _). cbn. split; [|done]. intros H. by apply elem_of_nil in H.
  - cbn. induction closers as [|n IH]; done.
Qed.

(** ** Events *)

Definition events_of (xs : list qinput) : list event := omap (λ x, match x with IEvent e => Some e | _ => None end) xs.

(** While the loop runs, what was handled and what waits is what came. *)
Definition ordered (all : list event) (s : qst) : Prop :=
  q_handled s `prefix_of` all ∧ (q_loopDone s = false → match q_events s with Some l => q_handled s ++ l = all | None => True end).

Lemma ordered_step all s x s' : ordered all s → qstep x s = Some s' → ordered (all ++ events_of [x]) s'.
Proof.
  intros Ho Hs. pose proof Ho as [Hp Ha]. destruct x as [i x|i raw|j d| |e| |t|dt]; cbn [events_of omap list_omap app]; rewrite ?app_nil_r; cbn in Hs.
  - unfold sendCommand in Hs. clear Hp Ha. repeat (case_match; simplify_eq); exact Ho.
  - unfold worker in Hs. clear Hp Ha. repeat (case_match; simplify_eq); exact Ho.
  - unfold Close in Hs. clear Hp Ha. repeat (case_match; simplify_eq); exact Ho.
  - unfold eventLoop in Hs. destruct (q_loopDone s) eqn:Hl; [done|]. specialize (Ha eq_refl). destruct (q_events s) as [[|e rest]|]; [| |injection Hs as <-; by split].
    + destruct (q_evclosed s); [|done]. injection Hs as <-. by split.
    + destruct (q_closed s); injection Hs as <-; [by split|]. split; cbn; [|intros _; by rewrite <- app_assoc].
      rewrite <- Ha. exists rest. by rewrite <- app_assoc.
  - destruct (q_events s) as [l|]; [|done]. destruct (q_evclosed s); [done|]. injection Hs as <-. split; cbn; [by apply prefix_app_r|].
    intros Hl. rewrite app_assoc. by rewrite (Ha Hl).
  - injection Hs as <-. exact Ho.
  - injection Hs as <-. exact Ho.
  - injection Hs as <-. exact Ho.
Qed.

Lemma ordered_run xs : ∀ all s s', ordered all s → qrun xs s = Some s' → ordered (all ++ events_of xs) s'.
Proof.
  induction xs as [|x xs IH]; intros all s s' Ho Hs; cbn in Hs; [injection Hs as <-; by rewrite app_nil_r|].
  destruct (qstep x s) as [s1|] eqn:H1; [|done]. cbn in Hs. pose proof (ordered_step _ _ _ _ Ho H1) as Ho1.
  specialize (IH _ _ _ Ho1 Hs). rewrite <- app_assoc in IH. replace (events_of [x] ++ events_of xs) with (events_of (x :: xs)) in IH; [done|].
  cbn. by destruct x.
Qed.

(** ** The client's guarantees *)

Lemma newQMPClient_connected h cmds closers s n : newQMPClient h cmds closers = (Ok s, n) → ∃ events, s = connected events cmds closers ∧ n = 1%nat.
Proof. unfold newQMPClient. intros H. repeat (case_match; simplify_eq). eauto. Qed.

(** C17: The QMP client once connected, whatever its callers, their goroutines,
    closes, events and time-outs interleave: a call that succeeds got the
    monitor's answer to its own command, which carries no error; a command
    goes to the monitor at most once; the goroutine of a call never waits to
    hand its answer over, also when the caller has left; the monitor is
    disconnected at most once, and only by a close; and the events handled
    are the first that came, in order. *)
Theorem qmp_client_safe h cmds closers s0 n xs s : newQMPClient h cmds closers = (Ok s0, n) → qrun xs s0 = Some s →
  n = 1%nat ∧
  (∀ i c r, q_calls s !! i = Some c → k_ph c = CDone (Ok r) →
     i ∈ q_runs s ∧ Error_ r = None ∧ k_raw c = Some (Ok (Ok r))) ∧
  NoDup (q_runs s) ∧
  (∀ i c r raw, q_calls s !! i = Some c → k_w c = WAnswered r → is_Some (worker i raw s)) ∧
  (q_disconnects s ≤ 1)%nat ∧ (q_disconnects s = 1%nat → q_closed s = true) ∧
  q_handled s `prefix_of` events_of xs.
Proof.
  intros (events & -> & ->)%newQMPClient_connected Hs.
  pose proof (qrun_ind qinv xs _ _ qinv_step (qinv_connected events cmds closers) Hs) as Hv.
  destruct (v_runs s Hv) as [Hn Hr]. split_and!.
  - done.
  - intros i c r Hi Hd. destruct (v_calls s Hv i c Hi) as [Hp Hw]. rewrite Hd in Hp. destruct Hp as (raw & Hraw & Hint & Hsent).
    split; [apply (Hr i c Hi); unfold ran; by rewrite Hsent|]. unfold interpret in Hint. destruct raw as [[r'|]|]; try done.
    destruct (Error_ r') eqn:He; [done|]. by injection Hint as ->.
  - done.
  - intros i c r raw Hi Hw. destruct (v_calls s Hv i c Hi) as [_ Hc]. rewrite Hw in Hc. destruct Hc as [[Hrs Hes] _].
    unfold worker. rewrite Hi, Hw, Hrs, Hes. destruct r; cbn; eauto.
  - pose proof (v_close s Hv). destruct (q_closed s); lia.
  - pose proof (v_close s Hv). destruct (q_closed s); [done|lia].
  - apply (ordered_run xs [] (connected events cmds closers) s); [|done]. split; [apply prefix_nil|]. cbn. by destruct events.
Qed.

Definition status_running : qmpResponse := mkResponse (Some (VObj [("status", VStr "running")])) None.

(** A query is answered after a stop has timed out; the client is closed twice. *)
Definition session : list qinput :=
  [ICall 0 CCheck; ICall 1 CCheck; ICall 0 (CSpawn None); ICall 1 (CSpawn None); IWorker 1 (Ok (Ok status_running)); IEvent (mkEvent "STOP" None); ILoop;
   ITick 5000000000%N; ICall 0 CTimeout; IWorker 1 (Ok (Ok status_running)); IWorker 1 (Err client_closed); ICall 1 CRecvResp;
   IWorker 0 (Ok (Ok status_running)); IWorker 0 (Ok (Ok status_running)); IWorker 0 (Err client_closed);
   IClose 0 None; IClose 1 None; IClose 0 None; ICall 2 CCheck; ITick 100000000%N; IClose 0 None].

Lemma qmp_client_safe_witness :
  ∃ s, qrun session (connected true [Stop; QueryStatus; Quit] 2) = Some s ∧
    (k_ph <$> q_calls s) = [CDone (Err (timed_out "stop" qmpDefaultTimeout)); CDone (Ok status_running); CDone (Err client_closed)] ∧
    q_runs s = [1; 0]%nat ∧
    (1%nat = 1%nat ∧ (∀ i c r, q_calls s !! i = Some c → k_ph c = CDone (Ok r) →
       i ∈ q_runs s ∧ Error_ r = None ∧ k_raw c = Some (Ok (Ok r))) ∧
    NoDup (q_runs s) ∧
    (∀ i c r raw, q_calls s !! i = Some c → k_w c = WAnswered r → is_Some (worker i raw s)) ∧
    (q_disconnects s ≤ 1)%nat ∧ (q_disconnects s = 1%nat → q_closed s = true) ∧
    q_handled s `prefix_of` events_of session).
Proof.
  eexists. split; [vm_compute; reflexivity|]. split; [reflexivity|]. split; [reflexivity|].
  apply (qmp_client_safe (mkHandshake None None None (Ok true)) [Stop; QueryStatus; Quit] 2 (connected true [Stop; QueryStatus; Quit] 2) 1 session); [done|].
  vm_compute. reflexivity.
Defined.

(** A command sent before the time-out runs although its caller was told it failed. *)
Lemma timed_out_command_runs :
  ∃ s, qrun [ICall 0 CCheck; ICall 0 (CSpawn None); ITick 5000000000%N; ICall 0 CTimeout; IWorker 0 (Ok (Ok status_running))]
         (connected false [Stop] 0) = Some s ∧
    (k_ph <$> q_calls s) = [CDone (Err (timed_out "stop" qmpDefaultTimeout))] ∧ q_runs s = [0%nat].
Proof. eexists. split; [vm_compute; reflexivity|]. by split. Qed.

(** ** Closing *)

Definition refused (i : nat) (s : qst) : Prop :=
  q_closed s = true ∧ (i ∉ q_runs s) ∧
  ∃ c, q_calls s !! i = Some c ∧ k_w c = WNone ∧ (k_ph c = CNew ∨ k_ph c = CDone (Err client_closed)).

Lemma closed_stays s x s' : q_closed s = true → qstep x s = Some s' → q_closed s' = true.
Proof.
  destruct x; cbn; unfold sendCommand, worker, Close, eventLoop; intros Hc Hs; repeat (case_match; simplify_eq); try done; by simplify_eq.
Qed.

Lemma refused_step i s x s' : refused i s → qstep x s = Some s' → refused i s'.
Proof.
  intros (Hcl & Hni & c & Hi & Hw & Hp) Hs. pose proof (closed_stays _ _ _ Hcl Hs) as Hcl'. split; [done|].
  assert (Hsame : q_calls s' = q_calls s → q_runs s' = q_runs s → (i ∉ q_runs s') ∧ ∃ c, q_calls s' !! i = Some c ∧ k_w c = WNone ∧ (k_ph c = CNew ∨ k_ph c = CDone (Err client_closed)))
    by (intros -> ->; eauto).
  assert (Hother : ∀ j c', j ≠ i → q_calls s' = <[j := c']> (q_calls s) → q_runs s' = q_runs s ∨ q_runs s' = q_runs s ++ [j] →
    (i ∉ q_runs s') ∧ ∃ c, q_calls s' !! i = Some c ∧ k_w c = WNone ∧ (k_ph c = CNew ∨ k_ph c = CDone (Err client_closed))).
  { intros j c' Hne E1 E2. split; [destruct E2 as [-> | ->]; [done|]; rewrite elem_of_app, list_elem_of_singleton; naive_solver|].
    exists c. rewrite E1, list_lookup_insert_ne by done. done. }
  destruct x as [j x|j raw|j d| |e| |t|dt]; cbn in Hs.
  - unfold sendCommand in Hs. destruct (decide (j = i)) as [->|Hne].
    + rewrite Hi in Hs. destruct Hp as [Hp|Hp]; rewrite Hp in Hs; [|done]. destruct x; try done. unfold checkClosed in Hs. rewrite Hcl in Hs. injection Hs as <-.
      split; [done|]. exists (c_ph (CDone (Err client_closed)) c). cbn. rewrite list_lookup_insert_eq by (by eapply lookup_lt_Some). auto.
    + destruct (q_calls s !! j) as [cj|] eqn:Hj; [|done].
      repeat (case_match; simplify_eq); (eapply (Hother j); [done|reflexivity|by left]).
  - unfold worker in Hs. destruct (decide (j = i)) as [->|Hne]; [by rewrite Hi, Hw in Hs|].
    destruct (q_calls s !! j) as [cj|] eqn:Hj; [|done]. repeat (case_match; simplify_eq); (eapply (Hother j); [done|reflexivity|by (left + right)]).
  - unfold Close in Hs. repeat (case_match; simplify_eq); by apply Hsame.
  - unfold eventLoop in Hs. repeat (case_match; simplify_eq); by apply Hsame.
  - repeat (case_match; simplify_eq); by apply Hsame.
  - simplify_eq. by apply Hsame.
  - simplify_eq. by apply Hsame.
  - simplify_eq. by apply Hsame.
Qed.

(** The time-out in force after the inputs. *)
Definition timeout_after (xs : list qinput) : Z :=
  foldl (λ t x, match x with ISetTimeout t' => t' | _ => t end) 5000000000 xs.

Lemma qstep_timeout x s s' : qstep x s = Some s' →
  q_timeout s' = match x with ISetTimeout t => t | _ => q_timeout s end.
Proof.
  destruct x; cbn; unfold sendCommand, worker, Close, eventLoop; intros Hs; repeat (case_match; simplify_eq); try done; by simplify_eq.
Qed.

Lemma qrun_timeout xs s s' : qrun xs s = Some s' →
  q_timeout s' = foldl (λ t x, match x with ISetTimeout t' => t' | _ => t end) (q_timeout s) xs.
Proof.
  revert s. induction xs as [|x xs IH]; intros s Hs; cbn in *; [by injection Hs as ->|].
  apply bind_Some in Hs as (s1 & Hx & Hs). rewrite (IH s1 Hs). f_equal. by apply qstep_timeout in Hx.
Qed.

(** No wait has longer to go than its length. *)
Definition waits_bounded (s : qst) : Prop :=
  (∀ i c d t, q_calls s !! i = Some c → k_ph c = CWaiting d t → d ≤ q_now s + t) ∧
  (∀ j u err, q_closers s !! j = Some (ClWait u err) → u ≤ q_now s + 100000000).

Lemma waits_call s i c c' : waits_bounded s → q_calls s !! i = Some c →
  (∀ d t, k_ph c' = CWaiting d t → k_ph c = CWaiting d t ∨ d ≤ q_now s + t) → waits_bounded (s_call i c' s).
Proof.
  intros [Hc Hj] Hi Hp. split; [|exact Hj]. intros k x d t Hk Hx. cbn in *.
  apply list_lookup_insert_Some in Hk as [(-> & <- & _)|[_ Hk]]; [|by eapply Hc].
  destruct (Hp d t Hx) as [H|H]; [by eapply Hc|done].
Qed.

Lemma waits_closer s j p : waits_bounded s →
  (∀ u err, p = ClWait u err → u ≤ q_now s + 100000000) → waits_bounded (s_closer j p s).
Proof.
  intros [Hc Hj] Hp. split; [exact Hc|]. intros k u err Hk. cbn in *.
  apply list_lookup_insert_Some in Hk as [(-> & -> & _)|[_ Hk]]; [by eapply Hp|by eapply Hj].
Qed.

Lemma waits_bounded_step s x s' : waits_bounded s → qstep x s = Some s' → waits_bounded s'.
Proof.
  intros Hv. destruct x as [i x|i raw|j d| |e| |t|dt]; cbn; intros Hs.
  - unfold sendCommand in Hs. destruct (q_calls s !! i) as [c|] eqn:Hi; [|done].
    repeat (case_match; simplify_eq); (eapply waits_call; [done|done|cbn; intros d0 t0 E]); try (by rewrite E in *); simplify_eq; auto; right; lia.
  - unfold worker in Hs. destruct (q_calls s !! i) as [c|] eqn:Hi; [|done].
    repeat (case_match; simplify_eq); (eapply waits_call; [try exact Hv|exact Hi|cbn; auto]).
  - unfold Close in Hs. repeat (case_match; simplify_eq); (apply waits_closer; [exact Hv|intros u0 err0 [=]; subst]).
    unfold closeWait. cbn. lia.
  - unfold eventLoop in Hs. repeat (case_match; simplify_eq); exact Hv.
  - repeat (case_match; simplify_eq); exact Hv.
  - simplify_eq. exact Hv.
  - simplify_eq. exact Hv.
  - simplify_eq. destruct Hv as [Hc Hj]. split.
    + intros i c d t Hi Hp. specialize (Hc i c d t Hi Hp). cbn. lia.
    + intros j u err Hu. specialize (Hj j u err Hu). cbn. lia.
Qed.

Lemma waits_connected events cmds closers : waits_bounded (connected events cmds closers).
Proof.
  split; cbn.
  - intros i c d t Hi Hp. apply list_lookup_fmap_Some in Hi as (x & -> & _). done.
  - intros j u err Hj. by apply lookup_replicate in Hj as [? _].
Qed.

(** Time passes and call [i] ends by its time-out: what becomes of it. *)
Definition times_out (dt : N) (i : nat) (s : qst) : option (option cphase) :=
  s' ← qrun [ITick dt; ICall i CTimeout] s; Some (k_ph <$> q_calls s' !! i).

(** Time passes and the close [j] stops waiting. *)
Definition close_returns (dt : N) (j : nat) (s : qst) : option (option clphase) :=
  s' ← qrun [ITick dt; IClose j None] s; Some (q_closers s' !! j).

Lemma times_out_waiting dt i s c d t : q_calls s !! i = Some c → k_ph c = CWaiting d t →
  times_out dt i s = if decide (d ≤ q_now s + Z.of_N dt) then Some (Some (CDone (Err (timed_out (Execute (k_cmd c)) t)))) else None.
Proof.
  intros Hi Hp. unfold times_out. cbn. unfold sendCommand. cbn. rewrite Hi, Hp.
  case_decide as Hd; destruct (Z.leb_spec d (q_now s + Z.of_N dt)); try lia; [|done].
  cbn. by rewrite list_lookup_insert_eq by (by eapply lookup_lt_Some).
Qed.

Lemma close_returns_waiting dt j s u err : q_closers s !! j = Some (ClWait u err) →
  close_returns dt j s = if decide (q_loopDone s = true ∨ u ≤ q_now s + Z.of_N dt) then Some (Some (ClDone err)) else None.
Proof.
  intros Hj. unfold close_returns. cbn. unfold Close. cbn. rewrite Hj.
  assert (Hl : (j < length (q_closers s))%nat) by (by eapply lookup_lt_Some).
  destruct (Z.leb_spec u (q_now s + Z.of_N dt)), (q_loopDone s); cbn.
  - by rewrite decide_True, list_lookup_insert_eq by auto.
  - by rewrite decide_True, list_lookup_insert_eq by auto.
  - by rewrite decide_True, list_lookup_insert_eq by auto.
  - by rewrite decide_False by naive_solver lia.
Qed.

(** C34: Once a QMP client is closed it stays closed, and a call that had not
    begun is then refused and never sends its command. A call that is sent
    can end by its time-out once exactly the time-out in force has passed -
    five seconds, or the last one set with SetCommandTimeout, where zero
    stands for five seconds - and not before; a close waits until the event
    loop has ended or exactly a tenth of a second after it disconnected,
    whichever is first; so every call and every close that waits can end. *)
Theorem qmp_close_and_timeouts events cmds closers xs s : qrun xs (connected events cmds closers) = Some s →
  (∀ i c ys s', q_closed s = true → q_calls s !! i = Some c → k_ph c = CNew → qrun ys s = Some s' → refused i s') ∧
  (∀ i c, q_calls s !! i = Some c → k_ph c = CChecked →
     ∃ s', qstep (ICall i (CSpawn None)) s = Some s' ∧
       let t := if timeout_after xs =? 0 then 5000000000 else timeout_after xs in
       ∀ dt, times_out dt i s' = if decide (t ≤ Z.of_N dt)
                                 then Some (Some (CDone (Err (timed_out (Execute (k_cmd c)) t)))) else None) ∧
  (∀ i c d t, q_calls s !! i = Some c → k_ph c = CWaiting d t →
     times_out (Z.to_N t) i s = Some (Some (CDone (Err (timed_out (Execute (k_cmd c)) t))))) ∧
  (∀ j err, q_closers s !! j = Some ClDisconnect →
     ∃ s', qstep (IClose j err) s = Some s' ∧
       ∀ dt, close_returns dt j s' = if decide (q_loopDone s = true ∨ 100000000 ≤ Z.of_N dt)
                                     then Some (Some (ClDone err)) else None) ∧
  (∀ j u err, q_closers s !! j = Some (ClWait u err) → close_returns 100000000 j s = Some (Some (ClDone err))).
Proof.
  intros Hs. pose proof (qrun_ind qinv xs _ _ qinv_step (qinv_connected events cmds closers) Hs) as Hv.
  pose proof (qrun_ind waits_bounded xs _ _ waits_bounded_step (waits_connected events cmds closers) Hs) as [Hwc Hwj].
  split_and!.
  - intros i c ys s' Hcl Hi Hp Hr. apply (qrun_ind (refused i) ys s s'); [apply refused_step| |done].
    destruct (v_calls s Hv i c Hi) as [Hw _]. rewrite Hp in Hw. split; [done|]. split; [|eauto].
    intros Hin. apply (proj2 (v_runs s Hv) i c Hi) in Hin. unfold ran in Hin. by rewrite Hw in Hin.
  - intros i c Hi Hp. eexists. split; [cbn; unfold sendCommand; by rewrite Hi, Hp|].
    assert (Ht : q_timeout s = timeout_after xs) by (by apply qrun_timeout in Hs). cbv zeta. intros dt.
    erewrite times_out_waiting; [|cbn; apply list_lookup_insert_eq; by eapply lookup_lt_Some|reflexivity].
    cbn. unfold getCommandTimeout. rewrite Ht. change qmpDefaultTimeout with 5000000000.
    case_decide; case_decide; (done || lia).
  - intros i c d t Hi Hp. rewrite (times_out_waiting _ _ _ _ _ _ Hi Hp). rewrite decide_True; [done|].
    specialize (Hwc i c d t Hi Hp). lia.
  - intros j err Hj. eexists. split; [cbn; unfold Close; by rewrite Hj|]. intros dt.
    erewrite close_returns_waiting by (cbn; apply list_lookup_insert_eq; by eapply lookup_lt_Some). cbn.
    unfold closeWait. case_decide; case_decide; (done || naive_solver lia).
  - intros j u err Hj. rewrite (close_returns_waiting _ _ _ _ _ Hj). rewrite decide_True; [done|].
    specialize (Hwj j u err Hj). right. lia.
Qed.

(** One call waits, one has not begun, a close waits: each ends. *)
Lemma qmp_close_and_timeouts_witness :
  ∃ s, qrun (take 4 session ++ [IClose 0 None; IClose 0 None]) (connected true [Stop; QueryStatus; Quit] 2) = Some s ∧
    refused 2 s ∧
    times_out 5000000000 0 s = Some (Some (CDone (Err (timed_out "stop" 5000000000)))) ∧
    close_returns 100000000 0 s = Some (Some (ClDone None)).
Proof.
  eexists. split; [vm_compute; reflexivity|].
  destruct (qmp_close_and_timeouts true [Stop; QueryStatus; Quit] 2 (take 4 session ++ [IClose 0 None; IClose 0 None]) _
    ltac:(vm_compute; reflexivity)) as (H1 & _ & H2 & _ & H3).
  split; [exact (H1 2%nat _ [] _ eq_refl eq_refl eq_refl eq_refl)|].
  split; [exact (H2 0%nat _ _ _ eq_refl eq_refl)|exact (H3 0%nat _ _ eq_refl)].
Defined.

(** ** The commands *)

(** What is sent for a device and an object: the driver given wins over the caller's, and
    the caller's type and identifier over those given; the caller's map keeps the driver. *)
Lemma device_and_object_args driver args qomType objID oargs :
  (∃ m, (DeviceAdd driver args).1 = mkCommand "device_add" (Some m) ∧ m !! "driver" = Some (VStr driver) ∧
     (∀ k, k ≠ "driver" → m !! k = default ∅ args !! k) ∧ ((DeviceAdd driver args).2 = (λ _, m) <$> args)) ∧
  (∃ m, ObjectAdd qomType objID oargs = mkCommand "object-add" (Some m) ∧
     (∀ k v, oargs !! k = Some v → m !! k = Some v) ∧ (oargs !! "id" = None → m !! "id" = Some (VStr objID)) ∧
     (oargs !! "qom-type" = None → m !! "qom-type" = Some (VStr qomType))).
Proof.
  split.
  - eexists. split; [done|]. split; [by rewrite lookup_insert_eq|]. split; [intros k Hk; by rewrite lookup_insert_ne|]. by destruct args.
  - eexists. split; [done|]. split_and!.
    + intros k v Hk. by apply lookup_union_Some_l.
    + intros Hn. by rewrite lookup_union_r.
    + intros Hn. by rewrite lookup_union_r.
Qed.
