(* ===== verification/GuestConn.v ===== *)
(** Reaching the guest from the host: connectVsockRPC and monitorGuestRPC of
    internal/host/vm/qemu/streaming.go, client.go, and waitForSocket, pingTTRPC and
    openTAPInNetNS of utils.go.

    The k-th attempt of a loop gets the k-th answers.  Connections are numbered by the
    attempt that dialled them.  Times are nanoseconds. *)
From S2P Require Import Prelude GoStrings GoState QemuInstance Streams.
Open Scope Z_scope.

Definition microsecond : Z := 1000.
#[local] Abbreviation ms := Streams.millisecond.

(** ** The ping *)

(** What a connection answers to a ping: the bytes written, the ten bytes of the header,
    and the copy of the rest; or nothing for ever. *)
Inductive pingAnswer := PHangs | PAnswers (write : res Z) (header : res (list Z)) (rest : option error).

(** [None]: it does not return. *)
Definition pingTTRPC (a : pingAnswer) : option (option error) :=
  match a with
  | PHangs => None
  | PAnswers write header rest =>
      Some match write with
           | Err e => Some (wrap "failed to write to TTRPC server" e)
           | Ok n =>
               if negb (n =? 10) then Some (errorf ("short write: " +:+ fmt_d n +:+ " bytes written"))
               else match header with
                    | Err e => Some e
                    | Ok p =>
                        let length := Uint32 (take 4 p) in
                        let sid := Uint32 (take 4 (drop 4 p)) in
                        if negb (sid =? 0) then Some (errorf ("unexpected stream ID " +:+ fmt_d sid +:+ ", expected 0"))
                        else if length =? 0 then Some (errorf "expected error response, but got length 0")
                        else rest
                    end
           end
  end.

(** ** Connecting *)

Definition connectRetryTimeout : Z := 10000 * ms.
Definition rpcInitialBackoff : Z := 500 * microsecond.
Definition rpcMaxBackoff : Z := 2 * ms.

(** One attempt: the context, the dial, the deadline and its clearing, the two pings, and
    how long the calls and the sleep took beyond the backoff. *)
Record attempt := mkAttempt {
  a_ctx : option error;
  a_dial : option error;
  a_set : option error;
  a_ping : pingAnswer;
  a_clear : option error;
  a_ping2 : pingAnswer;
  a_time : Z
}.

Inductive connectResult := Connected (conn : nat) | Failed (e : error) | Hangs (conn : nat) | NoFuel.

(** How an attempt ends, with the next ping deadline. *)
Inductive attemptEnd := AReturn (conn : nat) | ARetry (opened : bool) (pingDeadline : Z) | AHangs.

(** With the read deadline set, the first ping returns: a connection that does not answer
    is a time-out error.  The deadline is cleared before the second. *)
Definition one_attempt (k : nat) (pingDeadline : Z) (a : attempt) : attemptEnd :=
  match a_dial a with
  | Some _ => ARetry false pingDeadline
  | None =>
      match a_set a with
      | Some _ => ARetry true pingDeadline
      | None =>
          match default (Some (errorf "i/o timeout")) (pingTTRPC (a_ping a)) with
          | Some _ => ARetry true (pingDeadline + 10 * ms)
          | None =>
              match a_clear a with
              | Some _ => ARetry true pingDeadline
              | None =>
                  match pingTTRPC (a_ping2 a) with
                  | None => AHangs
                  | Some (Some _) => ARetry true pingDeadline
                  | Some None => AReturn k
                  end
              end
          end
      end
  end.

Section connect.
Context (answers : nat → attempt).

(** The result, and the connections that were opened and closed. *)
Fixpoint connect_loop (fuel k : nat) (now start backoff pingDeadline : Z) (log : list (nat * bool)) : connectResult * list (nat * bool) :=
  match fuel with
  | O => (NoFuel, log)
  | S fuel' =>
      match a_ctx (answers k) with
      | Some e => (Failed e, log)
      | None =>
          if connectRetryTimeout <? now - start then (Failed (errorf "timeout waiting for vminitd to accept connections"), log)
          else match one_attempt k pingDeadline (answers k) with
               | AReturn c => (Connected c, log ++ [(c, true)])
               | AHangs => (Hangs k, log ++ [(k, true)])
               | ARetry opened pd =>
                   connect_loop fuel' (S k) (now + a_time (answers k) + backoff) start (Z.min (backoff * 2) rpcMaxBackoff) pd
                     (if opened then log ++ [(k, true); (k, false)] else log)
               end
      end
  end.

Definition connectVsockRPC (fuel : nat) (start : Z) : connectResult * list (nat * bool) :=
  connect_loop fuel 0 start start rpcInitialBackoff (50 * ms) [].
End connect.

(** Attempts that suffice: one per initial backoff within the time-out, and two. *)
Definition connect_fuel : nat := Z.to_nat (connectRetryTimeout / rpcInitialBackoff) + 2.

(** [monitorGuestRPC]: the failures counted after a tick, and whether it warns. *)
Definition monitorGuestRPC (failures : Z) (dial : option error) (set : option error) (ping : pingAnswer) : Z * bool :=
  match dial with
  | Some _ => (failures + 1, 2 <=? failures + 1)
  | None =>
      match set with
      | Some _ => (failures, false)
      | None =>
          match default (Some (errorf "i/o timeout")) (pingTTRPC ping) with
          | Some _ => (failures + 1, 2 <=? failures + 1)
          | None => (0, false)
          end
      end
  end.

(** ** Short-lived clients *)

Definition not_running : error := mkError ErrFailedPrecondition "vm not running: failed precondition".

(** What the select of DialClient sees first. *)
Inductive dialSeen := DCtx (e : error) | DTimeout | DResult (r : option error).

(** The result, and what became of the connection of the dial that was started: still to
    come when nobody waits for it. *)
Inductive connFate := FNone | FClosed | FClient | FAbandoned.

Definition DialClient (st : vmState) (ctx : option error) (seen : dialSeen) (set : option error) (ping : pingAnswer) (clear : option error)
    : res () * connFate :=
  if decide (st = vmStateRunning) then
    match ctx with
    | Some e => (Err e, FNone)
    | None =>
        match seen with
        | DCtx e => (Err e, FAbandoned)
        | DTimeout => (Err (errorf "vsock dial timeout after 2s"), FAbandoned)
        | DResult (Some e) => (Err e, FNone)
        | DResult None =>
            match set with
            | Some e => (Err e, FClosed)
            | None =>
                match default (Some (errorf "i/o timeout")) (pingTTRPC ping) with
                | Some e => (Err e, FClosed)
                | None => match clear with Some e => (Err e, FClosed) | None => (Ok tt, FClient) end
                end
            end
        end
    end
  else (Err not_running, FNone).

Definition Client (q : Instance_) : res bool := if decide (q_state q = vmStateRunning) then Ok (q_client q) else Err not_running.
Definition CPUHotplugger (q : Instance_) : res bool := if decide (q_state q = vmStateRunning) then Ok (q_qmpClient q) else Err not_running.
(** nil when shut down, or when there is none. *)
Definition QMPClient (q : Instance_) : bool := if decide (q_state q = vmStateShutdown) then false else q_qmpClient q.
Definition Pause (q : Instance_) (stop : option error) : option error := if QMPClient q then stop else Some not_running.
Definition Resume (q : Instance_) (cont : option error) : option error := if QMPClient q then cont else Some not_running.

(** ** Waiting for the socket *)

(** The k-th look: whether the file is there, the context, and the time until the next. *)
Record look := mkLook { l_there : bool; l_ctx : option error; l_time : Z }.

Fixpoint wait_loop (looks : nat → look) (fuel k : nat) (now deadline : Z) (path : string) : option (option error * nat) :=
  match fuel with
  | O => None
  | S fuel' =>
      if l_there (looks k) then Some (None, k)
      else if deadline <? now then Some (Some (errorf ("timeout waiting for socket: " +:+ path)), k)
      else match l_ctx (looks k) with
           | Some e => Some (Some e, k)
           | None => wait_loop looks fuel' (S k) (now + l_time (looks k)) deadline path
           end
  end.

Definition waitForSocket (looks : nat → look) (fuel : nat) (path : string) (timeout now : Z) : option (option error * nat) :=
  wait_loop looks fuel 0 now (now + timeout) path.

(** ** TAP devices in another namespace *)

(** The thread's namespace (true: the original), whether it is locked, and the
    descriptors open. *)
Record tapWorld := mkTap { t_orig : bool; t_locked : bool; t_targetNS : bool; t_origNS : bool; t_tun : bool; t_up : bool }.

Record tapEnv := mkTapEnv {
  te_getTarget : option error; te_getOrig : option error; te_set : option error; te_restore : option error;
  te_link : res bool; te_setUp : option error; te_open : option error; te_ioctl : option error
}.

Definition tap_answer (e : option error) : ST tapWorld () := match e with None => ret tt | Some e => fail e end.
Definition tap_defer {A} (f : tapWorld → tapWorld) (m : ST tapWorld A) : ST tapWorld A := λ w, let '(r, w') := m w in (r, f w').

Definition openTAPInNetNSInternal (env : tapEnv) (tapName : string) : ST tapWorld () :=
  wrapping "get target netns" (tap_answer (te_getTarget env)) ;;!
  modify (λ w, mkTap (t_orig w) (t_locked w) true (t_origNS w) (t_tun w) (t_up w)) ;;!
  tap_defer (λ w, mkTap (t_orig w) (t_locked w) false (t_origNS w) (t_tun w) (t_up w))
  (wrapping "get current netns" (tap_answer (te_getOrig env)) ;;!
   modify (λ w, mkTap (t_orig w) (t_locked w) (t_targetNS w) true (t_tun w) (t_up w)) ;;!
   tap_defer (λ w, mkTap (t_orig w) (t_locked w) (t_targetNS w) false (t_tun w) (t_up w))
   (modify (λ w, mkTap (t_orig w) true (t_targetNS w) (t_origNS w) (t_tun w) (t_up w)) ;;!
    tap_defer (λ w, mkTap (t_orig w) false (t_targetNS w) (t_origNS w) (t_tun w) (t_up w))
    (wrapping "set target netns" (tap_answer (te_set env)) ;;!
     modify (λ w, mkTap false (t_locked w) (t_targetNS w) (t_origNS w) (t_tun w) (t_up w)) ;;!
     tap_defer (λ w, match te_restore env with None => mkTap true (t_locked w) (t_targetNS w) (t_origNS w) (t_tun w) (t_up w) | Some _ => w end)
     (do! up := wrapping ("lookup tap " +:+ tapName) (lift (te_link env)) in
      (if up : bool then ret tt
       else wrapping ("bring tap " +:+ tapName +:+ " up") (tap_answer (te_setUp env)) ;;!
            modify (λ w, mkTap (t_orig w) (t_locked w) (t_targetNS w) (t_origNS w) (t_tun w) true)) ;;!
      wrapping "open /dev/net/tun" (tap_answer (te_open env)) ;;!
      modify (λ w, mkTap (t_orig w) (t_locked w) (t_targetNS w) (t_origNS w) true (t_up w)) ;;!
      wrapping "TUNSETIFF ioctl failed"
        (on_error (tap_answer (te_ioctl env)) (modify (λ w, mkTap (t_orig w) (t_locked w) (t_targetNS w) (t_origNS w) false (t_up w)))))))).

(** With the time-out: [late] is whether it fires before the goroutine has sent its
    result, which nobody receives then. *)
Definition openTAPInNetNS (env : tapEnv) (tapName netnsPath : string) (late : bool) (ctxErr : error) : ST tapWorld () := λ w,
  let '(r, w') := openTAPInNetNSInternal env tapName w in
  (if late then Err (wrap ("timeout opening TAP " +:+ tapName +:+ " in netns " +:+ netnsPath) ctxErr) else r, w').

(** ** The ping accepts an error response, and nothing else *)

Lemma ping_accepts write header rest : pingTTRPC (PAnswers write header rest) = Some None ↔
  write = Ok 10 ∧ rest = None ∧ ∃ p, header = Ok p ∧ Uint32 (take 4 (drop 4 p)) = 0 ∧ Uint32 (take 4 p) ≠ 0.
Proof.
  unfold pingTTRPC. split.
  - intros [= H]. destruct write as [n|]; [|done]. destruct (Z.eqb_spec n 10) as [->|]; cbn in H; [|done]. destruct header as [p|]; [|done].
    destruct (Z.eqb_spec (Uint32 (take 4 (drop 4 p))) 0) as [Hs|]; cbn in H; [|done]. destruct (Z.eqb_spec (Uint32 (take 4 p)) 0); [done|]. eauto 10.
  - intros (-> & -> & p & -> & Hs & Hl). cbn. rewrite (proj2 (Z.eqb_eq _ _) Hs). cbn. by rewrite (proj2 (Z.eqb_neq _ _) Hl).
Qed.

(** ** Connecting ends *)

(** The connections opened and not closed again. *)
Definition left_open (log : list (nat * bool)) : list nat :=
  foldl (λ acc '(c, opened), if opened : bool then acc ++ [c] else List.filter (λ x, negb (x =? c)%nat) acc) [] log.

Lemma left_open_retry log k : left_open log = [] → left_open (log ++ [(k, true); (k, false)]) = [].
Proof. intros H. unfold left_open in *. rewrite foldl_app, H. cbn. by rewrite Nat.eqb_refl. Qed.

Lemma left_open_one log k : left_open log = [] → left_open (log ++ [(k, true)]) = [k].
Proof. intros H. unfold left_open in *. by rewrite foldl_app, H. Qed.

(** What a loop may return. *)
Definition connect_ok (answers : nat → attempt) (r : connectResult) (log : list (nat * bool)) : Prop :=
  match r with
  | Connected c => left_open log = [c] ∧ a_dial (answers c) = None ∧ pingTTRPC (a_ping (answers c)) = Some None ∧ pingTTRPC (a_ping2 (answers c)) = Some None
  | Failed _ => left_open log = []
  | Hangs c => left_open log = [c] ∧ a_ping2 (answers c) = PHangs
  | NoFuel => False
  end.

Lemma one_attempt_cases k pd a :
  match one_attempt k pd a with
  | AReturn c => c = k ∧ a_dial a = None ∧ pingTTRPC (a_ping a) = Some None ∧ pingTTRPC (a_ping2 a) = Some None
  | AHangs => a_ping2 a = PHangs
  | ARetry _ _ => True
  end.
Proof.
  unfold one_attempt. destruct (a_dial a); [done|]. destruct (a_set a); [done|]. destruct (pingTTRPC (a_ping a)) as [[e|]|] eqn:H1; cbn; try done.
  destruct (a_clear a); [done|]. destruct (a_ping2 a) as [|write header rest]; cbn; [done|]. by destruct (match write with Ok _ => _ | Err _ => _ end).
Qed.

Lemma connect_loop_enough answers (Htime : ∀ k, 0 ≤ a_time (answers k)) start fuel : ∀ k now backoff pd log,
  rpcInitialBackoff ≤ backoff → connectRetryTimeout < now - start + Z.of_nat fuel * rpcInitialBackoff → left_open log = [] →
  let '(r, log') := connect_loop answers (S fuel) k now start backoff pd log in connect_ok answers r log'.
Proof.
  induction fuel as [|fuel IH]; intros k now backoff pd log Hb Hd Hl; cbn [connect_loop]; (destruct (a_ctx (answers k)); [done|]);
    (destruct (Z.ltb_spec connectRetryTimeout (now - start)); [done|]); [lia|].
  pose proof (one_attempt_cases k pd (answers k)) as Hc. destruct (one_attempt k pd (answers k)) as [c|opened pd'|].
  - destruct Hc as (-> & ? & ? & ?). by split; [apply left_open_one|].
  - apply IH; [unfold rpcInitialBackoff, rpcMaxBackoff, Streams.millisecond, microsecond in *; lia|pose proof (Htime k); lia|].
    destruct opened; [by apply left_open_retry|done].
  - split; [by apply left_open_one|done].
Qed.

Lemma fuel_suffices : ∃ n, connect_fuel = S n ∧ connectRetryTimeout < Z.of_nat n * rpcInitialBackoff.
Proof.
  assert (Hq : connectRetryTimeout / rpcInitialBackoff = 20000) by reflexivity.
  exists (Z.to_nat (connectRetryTimeout / rpcInitialBackoff) + 1)%nat. split; [unfold connect_fuel; lia|].
  rewrite Hq. unfold connectRetryTimeout, rpcInitialBackoff, Streams.millisecond, microsecond. lia.
Qed.

(** C33: Connecting to the guest ends within the attempts that fit in the retry
    time-out: with a connection both of whose pings the server answered and
    every other connection closed, or with an error and every connection
    closed; the one other outcome is that the second ping of an attempt,
    which has no deadline, never returns. *)
Theorem connect_ends answers start : (∀ k, 0 ≤ a_time (answers k)) →
  let '(r, log) := connectVsockRPC answers connect_fuel start in connect_ok answers r log.
Proof.
  intros Ht. unfold connectVsockRPC. destruct fuel_suffices as (n & -> & Hn). apply connect_loop_enough; [done|done| |done]. lia.
Qed.

Module Sample.
Definition good : pingAnswer := PAnswers (Ok 10) (Ok [0; 0; 0; 7; 0; 0; 0; 0; 2; 0]) None.
Definition refused : attempt := mkAttempt None (Some (errorf "connection refused")) None PHangs None PHangs 0.
(** Two dials are refused, one connection does not answer in time, the fourth does. *)
Definition answers (k : nat) : attempt :=
  if (k <? 2)%nat then refused else if (k =? 2)%nat then mkAttempt None None None PHangs None PHangs (50 * ms) else mkAttempt None None None good None good 0.
End Sample.

Lemma connect_ends_witness :
  connectVsockRPC Sample.answers connect_fuel 0 = (Connected 3, [(2, true); (2, false); (3, true)]%nat) ∧
  let '(r, log) := connectVsockRPC Sample.answers connect_fuel 0 in connect_ok Sample.answers r log.
Proof.
  split; [vm_compute; reflexivity|]. apply (connect_ends Sample.answers 0). intros k. unfold Sample.answers.
  destruct (k <? 2)%nat; [done|]. destruct (k =? 2)%nat; by vm_compute.
Defined.

(** The second ping is sent when the read deadline has been cleared: a guest that stops
    answering there holds the caller for ever, past its time-out and its context. *)
Lemma second_ping_blocks answers start : a_ctx (answers 0%nat) = None → a_dial (answers 0%nat) = None → a_set (answers 0%nat) = None →
  pingTTRPC (a_ping (answers 0%nat)) = Some None → a_clear (answers 0%nat) = None → a_ping2 (answers 0%nat) = PHangs →
  (connectVsockRPC answers connect_fuel start).1 = Hangs 0.
Proof.
  intros H1 H2 H3 H4 H5 H6. unfold connectVsockRPC. destruct fuel_suffices as (n & -> & _). cbn [connect_loop].
  rewrite H1, Z.sub_diag. cbn. unfold one_attempt. by rewrite H2, H3, H4, H5, H6.
Qed.

(** ** Waiting for the socket ends *)

Fixpoint elapsed (looks : nat → look) (k : nat) : Z := match k with O => 0 | S k' => elapsed looks k' + l_time (looks k') end.

Definition wait_fuel (timeout : Z) : nat := Z.to_nat (timeout / ms) + 2.

Lemma wait_loop_enough looks path start deadline fuel : ∀ k,
  (∀ k, Z.of_nat k * ms ≤ elapsed looks k) → deadline - start < (Z.of_nat k + Z.of_nat fuel) * ms →
  ∃ r n, wait_loop looks (S fuel) k (start + elapsed looks k) deadline path = Some (r, n) ∧ (r = None → l_there (looks n) = true).
Proof.
  induction fuel as [|fuel IH]; intros k Ht Hd; cbn [wait_loop]; (destruct (l_there (looks k)) eqn:Hl; [by eexists _, _; split|]);
    (destruct (Z.ltb_spec deadline (start + elapsed looks k)); [by eexists _, _; split|]); (destruct (l_ctx (looks k)) as [e|] eqn:Hx; [by eexists _, _; split|]).
  - specialize (Ht k). unfold Streams.millisecond in *. lia.
  - destruct (IH (S k)) as (r & n & Hr & Hn); [done|unfold Streams.millisecond in *; lia|]. exists r, n. split; [|done]. rewrite <- Hr. cbn [elapsed]. by rewrite Z.add_assoc.
Qed.

(** The ticker gives one look per millisecond, so the wait ends after as many looks as
    milliseconds fit in the time-out; it succeeds only on a look that saw the socket. *)
Theorem waitForSocket_ends looks path timeout now : 0 ≤ timeout → (∀ k, Z.of_nat k * ms ≤ elapsed looks k) →
  ∃ r n, waitForSocket looks (wait_fuel timeout) path timeout now = Some (r, n) ∧ (r = None → l_there (looks n) = true).
Proof.
  intros H0 Ht. unfold waitForSocket, wait_fuel. replace (Z.to_nat (timeout / ms) + 2)%nat with (S (Z.to_nat (timeout / ms) + 1)) by lia.
  destruct (wait_loop_enough looks path now (now + timeout) (Z.to_nat (timeout / ms) + 1) 0 Ht) as (r & n & Hr & Hn).
  - unfold Streams.millisecond in *. pose proof (Z.div_mod timeout 1000000). pose proof (Z.mod_pos_bound timeout 1000000).
    pose proof (Z.div_pos timeout 1000000). lia.
  - cbn [elapsed] in Hr. rewrite Z.add_0_r in Hr. eauto.
Qed.

(** ** Clients *)

(** A client is handed out only by a running machine whose server answered the ping, and a
    connection that was received is the client's or closed; one that comes after the
    caller has stopped waiting is neither. *)
Lemma dial_client_fate st ctx seen set ping clear :
  let '(r, fate) := DialClient st ctx seen set ping clear in
  (is_ok r = true ↔ fate = FClient) ∧
  (fate = FClient → st = vmStateRunning ∧ pingTTRPC ping = Some None) ∧
  (fate = FAbandoned ↔ st = vmStateRunning ∧ ctx = None ∧ ∀ x, seen ≠ DResult x).
Proof.
  unfold DialClient. destruct (decide (st = vmStateRunning)) as [->|Hst]; [|by split_and!; try naive_solver].
  destruct ctx as [e|]; [split_and!; naive_solver|]. destruct seen as [e| |[e|]]; try (split_and!; naive_solver).
  destruct set; [split_and!; naive_solver|]. destruct (pingTTRPC ping) as [[e|]|]; cbn; try (split_and!; naive_solver).
  destruct clear; split_and!; naive_solver.
Qed.

(** ** TAP devices *)

Definition tap_idle : tapWorld := mkTap true false false false false false.

(** Opening a TAP device in a namespace leaves the thread in its own namespace
    and every namespace handle closed, and returns a descriptor exactly when
    it succeeds. *)
Theorem tap_open_clean env tapName r w' : te_restore env = None → openTAPInNetNSInternal env tapName tap_idle = (r, w') →
  t_orig w' = true ∧ t_locked w' = false ∧ t_targetNS w' = false ∧ t_origNS w' = false ∧ t_tun w' = is_ok r ∧
  (is_ok r = true → te_link env = Ok true ∨ t_up w' = true).
Proof.
  intros Hr. unfold openTAPInNetNSInternal, bind, wrapping, tap_defer, modify, tap_answer, lift, on_error, ret, fail, bind. rewrite Hr.
  destruct env as [[?|] [?|] [?|] ? [[]|?] [?|] [?|] [?|]]; cbn in Hr |- *; subst; intros [= <- <-]; cbn; split_and!; auto; discriminate.
Qed.

Definition busy_tap : tapEnv := mkTapEnv None None None None (Ok false) None None (Some (errorf "EBUSY")).

Lemma tap_open_clean_witness :
  ∃ r w', openTAPInNetNSInternal busy_tap "tap0" tap_idle = (r, w') ∧ is_ok r = false ∧
    t_orig w' = true ∧ t_locked w' = false ∧ t_targetNS w' = false ∧ t_origNS w' = false ∧ t_tun w' = is_ok r ∧
    (is_ok r = true → te_link busy_tap = Ok true ∨ t_up w' = true).
Proof.
  destruct (openTAPInNetNSInternal busy_tap "tap0" tap_idle) as [r w'] eqn:H. exists r, w'. split; [reflexivity|].
  split; [vm_compute in H; by injection H as <- _|]. exact (tap_open_clean busy_tap "tap0" r w' eq_refl H).
Defined.

(** When the time-out fires first, the device that is then opened belongs to nobody. *)
Lemma late_tap_leaks env tapName path e w' : openTAPInNetNSInternal env tapName tap_idle = (Ok tt, w') → te_restore env = None →
  ∃ e', openTAPInNetNS env tapName path true e tap_idle = (Err e', w') ∧ t_tun w' = true.
Proof.
  intros H Hr. unfold openTAPInNetNS. rewrite H. eexists. split; [done|].
  destruct env as [[?|] [?|] [?|] ? [[]|?] [?|] [?|] [?|]]; cbn in Hr, H; subst; by simplify_eq.
Qed.

(** A namespace that cannot be restored is only logged: the thread is unlocked and goes
    back to the scheduler in the other namespace. *)
Lemma unrestored_thread_is_unlocked :
  ∃ w', openTAPInNetNSInternal (mkTapEnv None None None (Some (errorf "setns")) (Ok true) None None None) "tap0" tap_idle = (Ok tt, w') ∧
    t_orig w' = false ∧ t_locked w' = false.
Proof. eexists. split; [vm_compute; reflexivity|]. split; reflexivity. Qed.
