(* ===== verification/Devices.v ===== *)
(** Waiting for devices in the guest: internal/guest/vminit/devices/blockdev.go, and
    waitForSysfsFile, OnlineCPU and OfflineCPU of internal/guest/services/system.go.

    The kernel is a state that moves during every system call: files appear, time
    passes, and the creations in a watched directory are queued for the one inotify
    instance open at a time.  A file is named by its directory and its last element.
    Reading the clock takes no time; times are nanoseconds. *)
From S2P Require Import Prelude GoStrings GoText Restore.
From stdpp Require Import sorting.
From Stdlib Require Import Ascii.
Open Scope Z_scope.

#[local] Abbreviation ms := 1000000%Z (only parsing).

(** ** inotify events as bytes *)

(** An event of the queue: wd, mask and cookie; the name; and the zero bytes after it. *)
Record event := mkEvent { e_head : string; e_name : string; e_pad : nat }.

Definition SizeofInotifyEvent : nat := 16.

Definition byte_val (s : string) : Z := match s with String a _ => Z.of_nat (nat_of_ascii a) | EmptyString => 0 end.

(** A uint32 in the machine's order. *)
Definition le32 (s : string) : Z :=
  byte_val s + 256 * (byte_val (str_drop 1 s) + 256 * (byte_val (str_drop 2 s) + 256 * byte_val (str_drop 3 s))).

Definition byte_of (n : Z) : ascii := ascii_of_nat (Z.to_nat (n mod 256)).
Definition put_le32 (n : Z) : string :=
  String (byte_of n) (String (byte_of (n / 256)) (String (byte_of (n / 65536)) (String (byte_of (n / 16777216)) EmptyString))).

Fixpoint zeros (n : nat) : string := match n with O => EmptyString | S n' => String zero (zeros n') end.

Definition encode (e : event) : string :=
  e_head e +:+ put_le32 (Z.of_nat (String.length (e_name e) + e_pad e)) +:+ e_name e +:+ zeros (e_pad e).

(** strings.TrimRight(name, "\x00") *)
Fixpoint TrimRight0 (s : string) : string :=
  match s with
  | EmptyString => EmptyString
  | String a s' =>
      match TrimRight0 s' with
      | EmptyString => if decide (a = zero) then EmptyString else String a EmptyString
      | t => String a t
      end
  end.

(** [parseInotifyEvents]: [rest] is buf[offset:nread]; the handler changes the variables
    it captures. *)
Fixpoint parse_from {S} (fuel : nat) (rest : string) (handler : string → S → bool * S) (s : S) : bool * S :=
  match fuel with
  | O => (false, s)
  | Datatypes.S fuel' =>
      if (String.length rest =? 0)%nat then (false, s)
      else if (String.length rest <? SizeofInotifyEvent)%nat then (false, s)
      else
        let nameLen := Z.to_nat (le32 (str_drop 12 rest)) in
        if (0 <? nameLen)%nat then
          if (String.length rest <? SizeofInotifyEvent + nameLen)%nat then (false, s)
          else
            let '(done, s') := handler (TrimRight0 (str_take nameLen (str_drop SizeofInotifyEvent rest))) s in
            if done : bool then (true, s') else parse_from fuel' (str_drop (SizeofInotifyEvent + nameLen) rest) handler s'
        else parse_from fuel' (str_drop SizeofInotifyEvent rest) handler s
  end.

Definition parseInotifyEvents {S} (buf : string) (handler : string → S → bool * S) (s : S) : bool * S :=
  parse_from (String.length buf) buf handler s.

(** The loop of [waitForSysfsFile], which has no checks: [None] when it reads outside of
    the buffer. *)
Fixpoint find_event (fuel : nat) (buf : string) (nread offset : nat) (base : string) : option bool :=
  match fuel with
  | O => Some false
  | S fuel' =>
      if (offset <? nread)%nat then
        if (String.length buf <? offset + SizeofInotifyEvent)%nat then None
        else
          let nameLen := Z.to_nat (le32 (str_drop (offset + 12) buf)) in
          if (0 <? nameLen)%nat then
            if (String.length buf <? offset + SizeofInotifyEvent + nameLen)%nat then None
            else if decide (TrimRight0 (str_take nameLen (str_drop (offset + SizeofInotifyEvent) buf)) = base) then Some true
            else find_event fuel' buf nread (offset + SizeofInotifyEvent + nameLen) base
          else find_event fuel' buf nread (offset + SizeofInotifyEvent) base
      else Some false
  end.

(** ** The kernel *)

Record kernel := mkKernel {
  k_now : Z;
  k_files : gmap (string * string) string;      (** directory and name, to contents *)
  k_watch : option string;
  k_queue : list event;
  k_calls : nat                                 (** the system calls made *)
}.

(** What happens during a system call. *)
Inductive kev :=
  | KFile (dir : string) (e : event) (contents : string)     (** a file appears *)
  | KTick (dt : N).

Inductive sysErr := EINTR | EAGAIN | EFailed (e : error).

Record denv := mkDenv {
  de_script : nat → list kev;
  de_err : nat → option sysErr;                 (** the error of a call, if it fails *)
  de_ctx : nat → option error;                  (** the context, as seen before a call *)
  de_order : list string → list string          (** the order of a range over a map *)
}.

Definition k_tick (t : Z) (k : kernel) : kernel := mkKernel t (k_files k) (k_watch k) (k_queue k) (k_calls k).
Definition k_set_queue (q : list event) (k : kernel) : kernel := mkKernel (k_now k) (k_files k) (k_watch k) q (k_calls k).
Definition k_set_files f (k : kernel) : kernel := mkKernel (k_now k) f (k_watch k) (k_queue k) (k_calls k).
Definition k_called (k : kernel) : kernel := mkKernel (k_now k) (k_files k) (k_watch k) (k_queue k) (S (k_calls k)).

Definition happen (k : kernel) (v : kev) : kernel :=
  match v with
  | KTick dt => k_tick (k_now k + Z.of_N dt) k
  | KFile dir e contents =>
      if decide (is_Some (k_files k !! (dir, e_name e))) then k
      else
        let k' := k_set_files (<[(dir, e_name e) := contents]> (k_files k)) k in
        if decide (k_watch k = Some dir) then k_set_queue (k_queue k ++ [e]) k' else k'
  end.

Section system.
Context (env : denv).

(** Entering a system call: what happens meanwhile, and the error it fails with. *)
Definition syscall (k : kernel) : option sysErr * kernel :=
  (de_err env (k_calls k), k_called (foldl happen k (de_script env (k_calls k)))).

Inductive statResult := StThere | StNotExist | StFailed (e : error).

(** os.Stat retries when interrupted. *)
Definition stat (dir name : string) (k : kernel) : statResult * kernel :=
  let '(f, k) := syscall k in
  (match f with
   | Some (EFailed e) => StFailed e
   | _ => if decide (is_Some (k_files k !! (dir, name))) then StThere else StNotExist
   end, k).

Definition exists_ (r : statResult) : bool := match r with StThere => true | _ => false end.

(** The names in a directory; os.ReadDir sorts them. *)
Definition names_in (dir : string) (k : kernel) : list string :=
  merge_sort String.le (omap (λ x, if decide (x.1.1 = dir) then Some x.1.2 else None) (map_to_list (k_files k))).

Definition ReadDir (dir : string) (k : kernel) : res (list string) * kernel :=
  let '(f, k) := syscall k in
  (match f with Some (EFailed e) => Err e | _ => Ok (names_in dir k) end, k).

Definition failed (f : option sysErr) : option error :=
  match f with
  | None => None
  | Some EINTR => Some (errorf "interrupted system call")
  | Some EAGAIN => Some (errorf "resource temporarily unavailable")
  | Some (EFailed e) => Some e
  end.

Definition InotifyInit1 (k : kernel) : option error * kernel :=
  let '(f, k) := syscall k in (failed f, k).

Definition InotifyAddWatch (dir : string) (k : kernel) : option error * kernel :=
  let '(f, k) := syscall k in
  match failed f with
  | Some e => (Some e, k)
  | None => (None, mkKernel (k_now k) (k_files k) (Some dir) (k_queue k) (k_calls k))
  end.

(** The deferred close of the instance. *)
Definition close_inotify (k : kernel) : kernel := mkKernel (k_now k) (k_files k) None [] (k_calls k).

(** poll(2) ends when there are events or the time is over. *)
Definition Poll (timeoutMs : Z) (k : kernel) : (bool + sysErr) * kernel :=
  let '(f, k1) := syscall k in
  match f with
  | Some e => (inr e, k1)
  | None =>
      match k_queue k1 with
      | [] => (inl false, k_tick (k_now k1 `max` (k_now k + timeoutMs * ms)) k1)
      | _ => (inl true, k1)
      end
  end.

(** The events at the front that fit, and those that are left. *)
Fixpoint fitting (room : nat) (q : list event) : list event * list event :=
  match q with
  | [] => ([], [])
  | e :: q' =>
      if (String.length (encode e) <=? room)%nat
      then let '(a, b) := fitting (room - String.length (encode e)) q' in (e :: a, b)
      else ([], q)
  end.

Definition concat_events (l : list event) : string := foldr (λ e s, encode e +:+ s) EmptyString l.

Definition bufLen : nat := 4096.

(** unix.Read of an inotify descriptor with a buffer of 4096 bytes. *)
Definition Read (k : kernel) : (string + sysErr) * kernel :=
  let '(f, k) := syscall k in
  match f with
  | Some e => (inr e, k)
  | None =>
      match k_queue k with
      | [] => (inr EAGAIN, k)
      | q => let '(a, b) := fitting bufLen q in (inl (concat_events a), k_set_queue b k)
      end
  end.

Definition Sleep (d : Z) (k : kernel) : kernel :=
  let k1 := (syscall k).2 in k_tick (k_now k1 `max` (k_now k + d)) k1.

(** ** blockdev.go *)

(** The context with its deadline, if it has one. *)
Definition ctxErr (dl : option Z) (k : kernel) : option error :=
  match de_ctx env (k_calls k), dl with
  | Some e, _ => Some e
  | None, Some t => if t <=? k_now k then Some (mkError ErrDeadlineExceeded "context deadline exceeded") else None
  | None, None => None
  end.

Definition inotifyPollInterval : Z := 100.

(** hasData, shouldContinue and the error *)
Definition pollInotifyFd (dl : option Z) (timeoutMs : Z) (k : kernel) : (bool * bool * option sysErr) * kernel :=
  match ctxErr dl k with
  | Some _ => ((false, false, None), k)
  | None =>
      match Poll timeoutMs k with
      | (inr EINTR, k1) => ((false, true, None), k1)
      | (inr e, k1) => ((false, false, Some e), k1)
      | (inl n, k1) => ((n, true, None), k1)
      end
  end.

(** the bytes read, shouldContinue and the error *)
Definition readInotifyEvents (k : kernel) : (string * bool * option sysErr) * kernel :=
  match Read k with
  | (inr EAGAIN, k1) | (inr EINTR, k1) => ((EmptyString, true, None), k1)
  | (inr e, k1) => ((EmptyString, false, Some e), k1)
  | (inl buf, k1) => ((buf, true, None), k1)
  end.

Definition find_devices (k : kernel) : res (list string) * kernel :=
  let '(r, k) := ReadDir "/sys/block" k in (findVirtioBlockDevices r, k).

Definition found (r : res (list string)) : option (list string) :=
  match r with Ok ((_ :: _) as l) => Some l | _ => None end.

Definition or_nil (r : res (list string)) : list string := match r with Ok l => l | Err _ => [] end.

Fixpoint stat_all (dir : string) (devices : list string) (k : kernel) : bool * kernel :=
  match devices with
  | [] => (true, k)
  | d :: devices' =>
      let '(r, k) := stat dir d k in
      if exists_ r then stat_all dir devices' k else (false, k)
  end.

(** The loops below count the rounds; [None] is one that has not ended yet. *)
Fixpoint nodes_poll (fuel : nat) (dl : option Z) (devices : list string) (deadline backoff : Z) (k : kernel) : option bool * kernel :=
  match fuel with
  | O => (None, k)
  | S fuel' =>
      if k_now k <? deadline then
        match ctxErr dl k with
        | Some _ => (Some false, k)
        | None =>
            let '(allExist, k) := stat_all "/dev" devices k in
            if allExist : bool then (Some true, k)
            else nodes_poll fuel' dl devices deadline (Z.min (backoff * 2) (50 * ms)) (Sleep backoff k)
        end
      else (Some false, k)
  end.

Definition waitForDevNodesPoll (fuel : nat) (dl : option Z) (devices : list string) (timeout : Z) (k : kernel) : option bool * kernel :=
  nodes_poll fuel dl devices (k_now k + timeout) (5 * ms) k.

(** The devices of a list whose node is not there. *)
Fixpoint missing (devices : list string) (k : kernel) : gset string * kernel :=
  match devices with
  | [] => (∅, k)
  | d :: devices' =>
      let '(r, k) := stat "/dev" d k in
      let '(w, k) := missing devices' k in
      (if exists_ r then w else {[d]} ∪ w, k)
  end.

(** The nodes of [ds] that are there now leave the set. *)
Fixpoint recheck (ds : list string) (waiting : gset string) (k : kernel) : gset string * kernel :=
  match ds with
  | [] => (waiting, k)
  | d :: ds' =>
      let '(r, k) := stat "/dev" d k in
      recheck ds' (if exists_ r then waiting ∖ {[d]} else waiting) k
  end.

(** The handler of the events. *)
Definition node_created (name : string) (waiting : gset string) : bool * gset string :=
  (false, if decide (name ∈ waiting) then waiting ∖ {[name]} else waiting).

Fixpoint nodes_watch (fuel : nat) (dl : option Z) (deadline : Z) (waiting : gset string) (k : kernel) : option bool * kernel :=
  match fuel with
  | O => (None, k)
  | S fuel' =>
      if (k_now k <? deadline) && negb (bool_decide (waiting = ∅)) then
        let remaining := deadline - k_now k in
        if remaining <=? 0 then (Some (bool_decide (waiting = ∅)), k)
        else
          let pollTimeout := Z.min (remaining / ms) inotifyPollInterval in
          match pollInotifyFd dl pollTimeout k with
          | (_, false, _, k1) => (Some false, k1)
          | (false, true, _, k1) => nodes_watch fuel' dl deadline waiting k1
          | (true, true, _, k1) =>
              match readInotifyEvents k1 with
              | (_, false, _, k2) => (Some false, k2)
              | (EmptyString, true, _, k2) => nodes_watch fuel' dl deadline waiting k2
              | (buf, true, _, k2) => nodes_watch fuel' dl deadline (parseInotifyEvents buf node_created waiting).2 k2
              end
          end
      else (Some (bool_decide (waiting = ∅)), k)
  end.

Definition waitForDevNodesInotify (fuel : nat) (dl : option Z) (devices : list string) (timeout : Z) (k : kernel) : option bool * kernel :=
  if (length devices =? 0)%nat then (Some true, k)
  else
    let '(waiting, k) := missing devices k in
    if decide (waiting = ∅) then (Some true, k)
    else match InotifyInit1 k with
         | (Some _, k) => waitForDevNodesPoll fuel dl devices timeout k
         | (None, k) =>
             let '(r, k) :=
               match InotifyAddWatch "/dev" k with
               | (Some _, k) => waitForDevNodesPoll fuel dl devices timeout k
               | (None, k) =>
                   let '(waiting, k) := recheck (de_order env (elements waiting)) waiting k in
                   if decide (waiting = ∅) then (Some true, k)
                   else nodes_watch fuel dl (k_now k + timeout) waiting k
               end in
             (r, close_inotify k)
         end.

Fixpoint blocks_poll (fuel : nat) (dl : option Z) (backoff : Z) (k : kernel) : option (list string) * kernel :=
  match fuel with
  | O => (None, k)
  | S fuel' =>
      match ctxErr dl k with
      | Some _ => let '(r, k) := find_devices k in (Some (or_nil r), k)
      | None =>
          let '(r, k) := find_devices k in
          match found r with
          | Some devices => (Some devices, k)
          | None => blocks_poll fuel' dl (Z.min (backoff * 2) (50 * ms)) (Sleep backoff k)
          end
      end
  end.

Definition waitForSysBlockDevicesPoll (fuel : nat) (dl : option Z) (k : kernel) : option (list string) * kernel :=
  blocks_poll fuel dl (5 * ms) k.

Definition is_virtio (name : string) (s : ()) : bool * () := (HasPrefix name "vd", s).

Fixpoint blocks_watch (fuel : nat) (dl : option Z) (k : kernel) : option (list string) * kernel :=
  match fuel with
  | O => (None, k)
  | S fuel' =>
      match pollInotifyFd dl inotifyPollInterval k with
      | (_, false, _, k1) => let '(r, k2) := find_devices k1 in (Some (or_nil r), k2)
      | (false, true, _, k1) =>
          let '(r, k2) := find_devices k1 in
          match found r with
          | Some devices => (Some devices, k2)
          | None => blocks_watch fuel' dl k2
          end
      | (true, true, _, k1) =>
          match readInotifyEvents k1 with
          | (_, false, _, k2) => let '(r, k3) := find_devices k2 in (Some (or_nil r), k3)
          | (EmptyString, true, _, k2) => blocks_watch fuel' dl k2
          | (buf, true, _, k2) =>
              if (parseInotifyEvents buf is_virtio tt).1 then let '(r, k3) := find_devices k2 in (Some (or_nil r), k3)
              else blocks_watch fuel' dl k2
          end
      end
  end.

Definition waitForSysBlockDevices (fuel : nat) (dl : option Z) (k : kernel) : option (list string) * kernel :=
  let '(r, k) := find_devices k in
  match found r with
  | Some devices => (Some devices, k)
  | None =>
      match InotifyInit1 k with
      | (Some _, k) => waitForSysBlockDevicesPoll fuel dl k
      | (None, k) =>
          let '(r, k) :=
            match InotifyAddWatch "/sys/block" k with
            | (Some _, k) => waitForSysBlockDevicesPoll fuel dl k
            | (None, k) =>
                let '(r, k) := find_devices k in
                match found r with
                | Some devices => (Some devices, k)
                | None => blocks_watch fuel dl k
                end
            end in
          (r, close_inotify k)
      end
  end.

Definition blockDeviceTimeout : Z := BlockDeviceTimeout * 1000.

(** What is logged is the result: the devices seen, and whether all of their nodes are
    there. *)
Definition WaitForBlockDevices (fuel : nat) (k : kernel) : option (list string * bool) * kernel :=
  let dl := Some (k_now k + blockDeviceTimeout) in
  match waitForSysBlockDevices fuel dl k with
  | (None, k) => (None, k)
  | (Some [], k) => (Some ([], false), k)
  | (Some vdDevices, k) =>
      match waitForDevNodesInotify fuel dl vdDevices blockDeviceTimeout k with
      | (None, k) => (None, k)
      | (Some b, k) => (Some (vdDevices, b), k)
      end
  end.

(** ** system.go *)

Definition sysfsWaitTimeout : Z := 2000 * ms.

Definition timed_out (path : string) : error := errorf ("timeout waiting for " +:+ path).

Fixpoint file_poll (fuel : nat) (dir base : string) (deadline backoff : Z) (k : kernel) : option (option error) * kernel :=
  match fuel with
  | O => (None, k)
  | S fuel' =>
      if k_now k <? deadline then
        match ctxErr None k with
        | Some e => (Some (Some e), k)
        | None =>
            let '(r, k) := stat dir base k in
            if exists_ r then (Some None, k)
            else file_poll fuel' dir base deadline (Z.min (backoff * 2) (100 * ms)) (Sleep backoff k)
        end
      else (Some (Some (timed_out (dir +:+ "/" +:+ base))), k)
  end.

Definition waitForSysfsFilePoll (fuel : nat) (dir base : string) (timeout : Z) (k : kernel) : option (option error) * kernel :=
  file_poll fuel dir base (k_now k + timeout) (5 * ms) k.

(** The outcome of a loop that reads outside of its buffer. *)
Definition out_of_range : error := errorf "runtime error: slice bounds out of range".

(** The buffer keeps its 4096 bytes; those after the ones read are [stale]. *)
Fixpoint file_watch (fuel : nat) (stale : string → string) (dir base : string) (deadline : Z) (k : kernel) : option (option error) * kernel :=
  match fuel with
  | O => (None, k)
  | S fuel' =>
      if k_now k <? deadline then
        match ctxErr None k with
        | Some e => (Some (Some e), k)
        | None =>
            let remaining := deadline - k_now k in
            if remaining <=? 0 then (Some (Some (timed_out (dir +:+ "/" +:+ base))), k)
            else
              let pollTimeout := if 100 <? remaining / ms then 100 else remaining / ms in
              match Poll pollTimeout k with
              | (inr EINTR, k1) => file_watch fuel' stale dir base deadline k1
              | (inr e, k1) => (Some (Some (wrap "poll failed" (default (errorf "") (failed (Some e))))), k1)
              | (inl false, k1) =>
                  let '(r, k2) := stat dir base k1 in
                  if exists_ r then (Some None, k2) else file_watch fuel' stale dir base deadline k2
              | (inl true, k1) =>
                  match Read k1 with
                  | (inr EAGAIN, k2) | (inr EINTR, k2) => file_watch fuel' stale dir base deadline k2
                  | (inr e, k2) => (Some (Some (wrap "read inotify" (default (errorf "") (failed (Some e))))), k2)
                  | (inl got, k2) =>
                      match find_event (String.length got) (got +:+ stale got) (String.length got) 0 base with
                      | Some true => (Some None, k2)
                      | Some false => file_watch fuel' stale dir base deadline k2
                      | None => (Some (Some out_of_range), k2)
                      end
                  end
              end
        end
      else (Some (Some (timed_out (dir +:+ "/" +:+ base))), k)
  end.

Definition waitForSysfsFile (fuel : nat) (stale : string → string) (dir base : string) (timeout : Z) (k : kernel) : option (option error) * kernel :=
  let '(r, k) := stat dir base k in
  if exists_ r then (Some None, k)
  else match InotifyInit1 k with
       | (Some _, k) => waitForSysfsFilePoll fuel dir base timeout k
       | (None, k) =>
           let '(r, k) :=
             match InotifyAddWatch dir k with
             | (Some _, k) => waitForSysfsFilePoll fuel dir base timeout k
             | (None, k) =>
                 let '(r, k) := stat dir base k in
                 if exists_ r then (Some None, k) else file_watch fuel stale dir base (k_now k + timeout) k
             end in
           (r, close_inotify k)
       end.

(** *** Taking CPUs online and offline *)

Definition newline : string := String (ascii_of_nat 10) EmptyString.
Definition sysfsOnline : string := "1".
Definition sysfsOffline : string := "0".

(** The directory and the name of the file. *)
Definition cpu_dir (cpuID : Z) : string := "/sys/devices/system/cpu/cpu" +:+ fmt_d cpuID.

Definition no_such : error := mkError ErrNotFound "no such file or directory".

Definition readSysfsValue (dir base : string) (k : kernel) : res string * kernel :=
  let '(f, k) := syscall k in
  match f, k_files k !! (dir, base) with
  | Some (EFailed e), _ => (Err e, k)
  | _, None => (Err no_such, k)
  | _, Some v => (Ok (TrimSpace v), k)
  end.

(** The kernel shows what was written with a newline. *)
Definition writeSysfsValue (dir base value : string) (k : kernel) : option error * kernel :=
  let '(f, k) := syscall k in
  match f, k_files k !! (dir, base) with
  | Some (EFailed e), _ => (Some e, k)
  | _, None => (Some no_such, k)
  | _, Some _ => (None, k_set_files (<[(dir, base) := value +:+ newline]> (k_files k)) k)
  end.

Definition OfflineCPU (cpuID : Z) (k : kernel) : option error * kernel :=
  if cpuID =? 0 then (Some (mkError ErrInvalidArgument ("cpu " +:+ fmt_d cpuID +:+ " cannot be offlined (boot processor)")), k)
  else
    match stat (cpu_dir cpuID) "online" k with
    | (StNotExist, k) => (Some (mkError ErrNotFound ("cpu " +:+ fmt_d cpuID +:+ " not present")), k)
    | (StFailed e, k) => (Some e, k)
    | (StThere, k) =>
        match readSysfsValue (cpu_dir cpuID) "online" k with
        | (Err e, k) => (Some e, k)
        | (Ok value, k) =>
            if decide (value = sysfsOffline) then (None, k)
            else writeSysfsValue (cpu_dir cpuID) "online" sysfsOffline k
        end
    end.

Definition OnlineCPU (fuel : nat) (stale : string → string) (cpuID : Z) (k : kernel) : option (option error) * kernel :=
  if cpuID =? 0 then (Some None, k)
  else
    match waitForSysfsFile fuel stale (cpu_dir cpuID) "online" sysfsWaitTimeout k with
    | (None, k) => (None, k)
    | (Some (Some e), k) => (Some (Some (mkError ErrNotFound ("cpu " +:+ fmt_d cpuID +:+ ": " +:+ emsg e))), k)
    | (Some None, k) =>
        match readSysfsValue (cpu_dir cpuID) "online" k with
        | (Err e, k) => (Some (Some e), k)
        | (Ok value, k) =>
            if decide (value = sysfsOnline) then (Some None, k)
            else let '(e, k) := writeSysfsValue (cpu_dir cpuID) "online" sysfsOnline k in (Some e, k)
        end
    end.
End system.
