(* ===== verification/DevicesProps.v ===== *)
(** The waits of Devices.v: the bytes of inotify events round-trip through the parsers, a
    creation is never missed between a look and the watch, the waits end within their
    time-outs, and CPUs are switched. *)
From S2P Require Import Prelude GoStrings GoText Restore Devices.
From stdpp Require Import sorting.
From Stdlib Require Import Ascii.
Open Scope Z_scope.

(** ** The bytes of events *)

(** An event as the kernel makes it: twelve bytes before the length, and a name of at
    most NAME_MAX bytes without zero bytes, padded to at most the size of the header. *)
Definition ev_ok (e : event) : Prop :=
  String.length (e_head e) = 12%nat ∧ e_name e ≠ "" ∧ all_chars (neq_char zero) (e_name e) = true ∧
  (String.length (e_name e) + e_pad e ≤ 272)%nat.

Lemma byte_of_val n s : byte_val (String (byte_of n) s) = n mod 256.
Proof.
  unfold byte_val, byte_of. pose proof (Z.mod_pos_bound n 256 ltac:(lia)). rewrite nat_ascii_embedding by lia. lia.
Qed.

Lemma le32_put n s : 0 ≤ n < 4294967296 → le32 (put_le32 n +:+ s) = n.
Proof.
  intros Hn. unfold le32, put_le32. cbn [str_drop]. rewrite !str_app_cons. cbn [str_drop]. rewrite !byte_of_val.
  change 65536 with (256 * 256). change 16777216 with (256 * 256 * 256). rewrite <- !Z.div_div by lia.
  set (a := n / 256). set (b := a / 256). set (c := b / 256).
  pose proof (Z.div_mod n 256 ltac:(lia)). pose proof (Z.div_mod a 256 ltac:(lia)). pose proof (Z.div_mod b 256 ltac:(lia)).
  fold a in H. fold b in H0. fold c in H1. assert (0 ≤ c < 256). { unfold c, b, a. rewrite !Z.div_div by lia. split; [apply Z.div_pos; lia|apply Z.div_lt_upper_bound; lia]. }
  rewrite (Z.mod_small c) by lia. lia.
Qed.

Lemma zeros_length n : String.length (zeros n) = n.
Proof. induction n; cbn; congruence. Qed.

Lemma TrimRight0_zeros n : TrimRight0 (zeros n) = EmptyString.
Proof. induction n as [|n IH]; [done|]. cbn. rewrite IH. by rewrite decide_True. Qed.

Lemma TrimRight0_name s n : all_chars (neq_char zero) s = true → TrimRight0 (s +:+ zeros n) = s.
Proof.
  induction s as [|a s IH]; intros H; [apply TrimRight0_zeros|]. cbn in H. apply andb_true_iff in H as [Ha Hs].
  rewrite str_app_cons. cbn [TrimRight0]. rewrite IH by done. destruct s; [|done].
  unfold neq_char in Ha. apply negb_true_iff, bool_decide_eq_false in Ha. by rewrite decide_False.
Qed.

Lemma encode_length e : String.length (e_head e) = 12%nat →
  String.length (encode e) = (16 + (String.length (e_name e) + e_pad e))%nat.
Proof. intros H. unfold encode. rewrite !str_length_app, H, zeros_length. cbn [put_le32 String.length]. lia. Qed.

Lemma str_drop_app_more s t n : str_drop (String.length s + n) (s +:+ t) = str_drop n t.
Proof. induction s as [|a s IH]; [done|]. exact IH. Qed.

(** The header, the name and what follows an event in a buffer. *)
Lemma encode_parts e rest : ev_ok e →
  Z.to_nat (le32 (str_drop 12 (encode e +:+ rest))) = (String.length (e_name e) + e_pad e)%nat ∧
  TrimRight0 (str_take (String.length (e_name e) + e_pad e) (str_drop 16 (encode e +:+ rest))) = e_name e ∧
  str_drop (16 + (String.length (e_name e) + e_pad e)) (encode e +:+ rest) = rest.
Proof.
  intros (Hh & Hn & Hc & Hl). set (n := (String.length (e_name e) + e_pad e)%nat) in *.
  assert (E : encode e +:+ rest = e_head e +:+ (put_le32 (Z.of_nat n) +:+ ((e_name e +:+ zeros (e_pad e)) +:+ rest))).
  { unfold encode. fold n. by rewrite <- !string_app_assoc. }
  assert (Ez : String.length (e_name e +:+ zeros (e_pad e)) = n) by (by rewrite str_length_app, zeros_length).
  split_and!.
  - rewrite E, <- Hh, str_drop_app, le32_put by lia. lia.
  - rewrite E. replace 16%nat with (String.length (e_head e) + 4)%nat by lia. rewrite str_drop_app_more.
    change 4%nat with (String.length (put_le32 (Z.of_nat n))). rewrite str_drop_app, <- Ez, str_take_app. by apply TrimRight0_name.
  - replace (16 + n)%nat with (String.length (encode e)) by (rewrite encode_length by done; done). apply str_drop_app.
Qed.

(** What the handler is given: the names in order, until it has seen enough. *)
Fixpoint handle {S} (l : list event) (h : string → S → bool * S) (s : S) : bool * S :=
  match l with
  | [] => (false, s)
  | e :: l' => let '(b, s') := h (e_name e) s in if b : bool then (true, s') else handle l' h s'
  end.

Lemma concat_events_cons e l : concat_events (e :: l) = encode e +:+ concat_events l.
Proof. done. Qed.

Lemma parse_from_events {S} fuel l (h : string → S → bool * S) s : Forall ev_ok l → (length l ≤ fuel)%nat →
  parse_from fuel (concat_events l) h s = handle l h s.
Proof.
  revert l s. induction fuel as [|fuel IH]; intros [|e l] s Hl Hf; cbn in Hf; try lia; [done|done|].
  apply Forall_cons in Hl as [He Hl]. cbn [parse_from handle]. rewrite concat_events_cons.
  destruct (encode_parts e (concat_events l) He) as (H1 & H2 & H3).
  assert (Hlen : String.length (encode e +:+ concat_events l) =
    (16 + (String.length (e_name e) + e_pad e) + String.length (concat_events l))%nat)
    by (rewrite str_length_app, encode_length by apply He; done).
  rewrite H1, Hlen. destruct He as (_ & Hn & _ & _).
  assert (Hp : (0 < String.length (e_name e))%nat) by (destruct (e_name e); [done|cbn; lia]).
  unfold SizeofInotifyEvent.
  rewrite (proj2 (Nat.eqb_neq _ _)), (proj2 (Nat.ltb_ge _ 16)), (proj2 (Nat.ltb_lt 0 _)), (proj2 (Nat.ltb_ge _ _)) by lia.
  rewrite H2, H3. destruct (h (e_name e) s) as [[] s']; [done|]. apply IH; [done|lia].
Qed.

Lemma concat_events_length l : Forall ev_ok l → (length l ≤ String.length (concat_events l))%nat.
Proof.
  induction 1 as [|e l He Hl IH]; [done|]. rewrite concat_events_cons, str_length_app, encode_length by apply He. cbn [length]. lia.
Qed.

(** Parsing what the kernel wrote gives the handler every name, in order, and stops where
    it says so. *)
Lemma parse_events_roundtrip {S} l (h : string → S → bool * S) s : Forall ev_ok l →
  parseInotifyEvents (concat_events l) h s = handle l h s.
Proof. intros Hl. apply parse_from_events; [done|]. by apply concat_events_length. Qed.

Lemma find_event_spec fuel pre l stale base : Forall ev_ok l → (length l ≤ fuel)%nat →
  find_event fuel (pre +:+ (concat_events l +:+ stale)) (String.length pre + String.length (concat_events l)) (String.length pre) base =
  Some (bool_decide (base ∈ e_name <$> l)).
Proof.
  revert fuel pre. induction l as [|e l IH]; intros fuel pre Hl Hf.
  { destruct fuel; [done|]. cbn [find_event]. by rewrite Nat.add_0_r, Nat.ltb_irrefl. }
  destruct fuel as [|fuel]; [cbn in Hf; lia|]. apply Forall_cons in Hl as [He Hl]. cbn [find_event].
  destruct (encode_parts e (concat_events l +:+ stale) He) as (H1 & H2 & H3).
  set (n := (String.length (e_name e) + e_pad e)%nat) in *.
  assert (Hlen : String.length (encode e) = (16 + n)%nat) by (apply encode_length, He).
  assert (Hp : (0 < n)%nat) by (unfold n; destruct He as (_ & ? & _); destruct (e_name e); [done|cbn; lia]).
  rewrite concat_events_cons, <- string_app_assoc, !str_length_app, Hlen. unfold SizeofInotifyEvent.
  rewrite (proj2 (Nat.ltb_lt _ _)), (proj2 (Nat.ltb_ge _ _)) by lia. rewrite !str_drop_app_more, H1, H2.
  rewrite (proj2 (Nat.ltb_lt 0 _)), (proj2 (Nat.ltb_ge _ _)) by lia. destruct (decide (e_name e = base)) as [Hb|Hb].
  { subst base. symmetry. f_equal. apply bool_decide_eq_true. cbn. apply elem_of_cons. by left. }
  specialize (IH fuel (pre +:+ encode e) Hl ltac:(cbn in Hf; lia)). rewrite <- !string_app_assoc, !str_length_app, Hlen in IH.
  replace (String.length pre + (16 + n + String.length (concat_events l)))%nat with (String.length pre + (16 + n) + String.length (concat_events l))%nat by lia.
  replace (String.length pre + 16 + n)%nat with (String.length pre + (16 + n))%nat by lia. rewrite IH. f_equal.
  apply bool_decide_ext. cbn. rewrite elem_of_cons. naive_solver.
Qed.

(** ** What system calls do to the kernel *)

Definition here (dir name : string) (k : kernel) : Prop := is_Some (k_files k !! (dir, name)).
Definition queued (name : string) (k : kernel) : Prop := ∃ e, e ∈ k_queue k ∧ e_name e = name.

(** A file whose creation is not missed: while it is there and has not been seen, its
    event waits. *)
Definition tracked (dir name : string) (k : kernel) : Prop := here dir name k → queued name k.

Definition idle (k : kernel) : Prop := k_watch k = None ∧ k_queue k = [].

(** The queue of a watched directory holds files that are there. *)
Definition winv (dir : string) (k : kernel) : Prop :=
  k_watch k = Some dir ∧ Forall (λ e, ev_ok e ∧ here dir (e_name e) k) (k_queue k).

Record moves (k k' : kernel) : Prop := mkMoves {
  mv_files : k_files k ⊆ k_files k';
  mv_now : k_now k ≤ k_now k';
  mv_idle : idle k → idle k';
  mv_watch : ∀ dir, winv dir k → winv dir k' ∧ ∀ n, tracked dir n k → tracked dir n k'
}.

#[export] Instance moves_pre : PreOrder moves.
Proof.
  split; [by split|]. intros a b c [A1 A2 A3 A4] [B1 B2 B3 B4]. split; [by etrans|lia|auto|].
  intros dir Hw. destruct (A4 dir Hw) as [H1 H2]. destruct (B4 dir H1) as [H3 H4]. auto.
Qed.

Lemma here_mono dir n k k' : moves k k' → here dir n k → here dir n k'.
Proof. intros [Hf _ _ _] [v Hv]. exists v. by eapply lookup_weaken. Qed.

Definition honest (env : denv) : Prop :=
  ∀ n, Forall (λ v, match v with KFile _ e _ => ev_ok e | KTick _ => True end) (de_script env n).

Lemma happen_moves k v : match v with KFile _ e _ => ev_ok e | KTick _ => True end → moves k (happen k v).
Proof.
  destruct v as [dir e c|dt]; intros He; cbn [happen].
  2: { split; cbn; [done|lia|done|]. intros dir [H1 H2]. by split_and!. }
  case_decide as Hin; [reflexivity|].
  assert (Hf : k_files k ⊆ <[(dir, e_name e) := c]> (k_files k))
    by (apply insert_subseteq; by apply eq_None_not_Some).
  case_decide as Hw; split; cbn; try done.
  - intros [H1 _]. congruence.
  - intros d [H1 H2]. assert (d = dir) as -> by congruence. split.
    + split; [done|]. cbn. apply Forall_app. split.
      * eapply Forall_impl; [exact H2|]. intros e' [? [v Hv]]. split; [done|]. exists v. by eapply lookup_weaken.
      * apply Forall_singleton. split; [done|]. unfold here. cbn. rewrite lookup_insert_eq. by eexists.
    + intros n Ht. unfold tracked, here, queued. cbn. destruct (decide (n = e_name e)) as [->|Hn].
      * intros _. exists e. split; [|done]. apply elem_of_app. right. by apply list_elem_of_singleton.
      * rewrite lookup_insert_ne by congruence. intros Hh. destruct (Ht Hh) as (e' & ? & ?). exists e'. split; [|done]. apply elem_of_app. by left.
  - intros d [H1 H2]. split.
    + split; [done|]. cbn. eapply Forall_impl; [exact H2|]. intros e' [? [v Hv]]. split; [done|]. exists v. by eapply lookup_weaken.
    + intros n Ht. unfold tracked, here, queued in *. cbn. rewrite lookup_insert_ne by congruence. done.
Qed.

Lemma happen_all_moves l k : Forall (λ v, match v with KFile _ e _ => ev_ok e | KTick _ => True end) l → moves k (foldl happen k l).
Proof.
  intros H. revert k. induction H as [|v l Hv Hl IH]; intros k; [reflexivity|]. cbn. etrans; [by apply happen_moves|apply IH].
Qed.

Section calls.
Context (env : denv) (Hok : honest env).

Lemma syscall_moves k f k' : syscall env k = (f, k') → moves k k'.
Proof.
  unfold syscall. intros [= _ <-]. etrans; [apply happen_all_moves, Hok|]. split; cbn; done.
Qed.

Lemma later_tick t k : k_now k ≤ t → moves k (k_tick t k).
Proof. intros Ht. split; cbn; try done. Qed.

Lemma stat_spec dir n k r k' : stat env dir n k = (r, k') → moves k k' ∧ (r = StThere → here dir n k') ∧ (r = StNotExist → ¬ here dir n k').
Proof.
  unfold stat. destruct (syscall env k) as [f k1] eqn:Hs. apply syscall_moves in Hs. intros [= <- <-]. split; [done|].
  unfold here. destruct f as [[]|]; [case_decide|case_decide| |case_decide]; split; intros ?; congruence || done.
Qed.

Lemma Poll_moves t k r k' : Poll env t k = (r, k') → moves k k'.
Proof.
  unfold Poll. destruct (syscall env k) as [f k1] eqn:Hs. apply syscall_moves in Hs.
  destruct f; [by intros [= _ <-]|]. destruct (k_queue k1); intros [= _ <-]; [|done].
  etrans; [exact Hs|]. apply later_tick. lia.
Qed.

Lemma Sleep_moves d k : moves k (Sleep env d k) ∧ k_now k + d ≤ k_now (Sleep env d k).
Proof.
  unfold Sleep. destruct (syscall env k) as [f k1] eqn:Hs. apply syscall_moves in Hs. cbn. split; [|lia].
  etrans; [exact Hs|]. apply later_tick. lia.
Qed.

Lemma fitting_app room q a b : fitting room q = (a, b) → q = a ++ b.
Proof.
  revert room a b. induction q as [|e q IH]; intros room a b; cbn; [by intros [= <- <-]|].
  case_match; [|by intros [= <- <-]]. destruct (fitting _ q) as [a' b'] eqn:Hf. intros [= <- <-]. cbn. f_equal. by eapply IH.
Qed.

(** A read takes events from the front: none is lost. *)
Lemma Read_spec dir k r k' : winv dir k → Read env k = (r, k') →
  k_files k ⊆ k_files k' ∧ k_now k ≤ k_now k' ∧ winv dir k' ∧
  match r with
  | inr _ => ∀ n, tracked dir n k → tracked dir n k'
  | inl buf => ∃ a, buf = concat_events a ∧ Forall ev_ok a ∧ Forall (λ e, here dir (e_name e) k') a ∧
      ∀ n, tracked dir n k → n ∈ e_name <$> a ∨ tracked dir n k'
  end.
Proof.
  intros Hw. unfold Read. destruct (syscall env k) as [f k1] eqn:Hs. apply syscall_moves in Hs as [Hf Hn _ Hm].
  destruct (Hm dir Hw) as [Hw1 Ht1]. destruct f; [by intros [= <- <-]|]. destruct (k_queue k1) as [|e q] eqn:Hq; [by intros [= <- <-]|].
  destruct (fitting bufLen (e :: q)) as [a b] eqn:Hfit. apply fitting_app in Hfit. rewrite Hfit in Hq. intros [= <- <-].
  destruct Hw1 as [Hw1 Hw2]. rewrite Hq in Hw2. apply Forall_app in Hw2 as [Ha Hb]. cbn. split_and!; [done|done| |].
  - by split.
  - exists a. split_and!; [done|by eapply Forall_impl; [exact Ha|]; intros ? []|by eapply Forall_impl; [exact Ha|]; intros ? []|].
    intros n Ht. specialize (Ht1 n Ht). unfold tracked, queued in *. cbn. rewrite Hq in Ht1.
    destruct (decide (n ∈ e_name <$> a)) as [|Hni]; [by left|right]. intros Hh. destruct (Ht1 Hh) as (x & Hx & Hxn). exists x. split; [|done].
    apply elem_of_app in Hx as [Hx|Hx]; [|done]. exfalso. apply Hni. subst n. apply list_elem_of_fmap. by exists x.
Qed.

Lemma find_devices_spec k r k' : find_devices env k = (r, k') →
  moves k k' ∧ match r with Ok l => ∀ d, d ∈ l ↔ HasPrefix d "vd" = true ∧ here "/sys/block" d k' | Err _ => True end.
Proof.
  unfold find_devices, ReadDir. destruct (syscall env k) as [f k1] eqn:Hs. apply syscall_moves in Hs.
  assert (Hl : ∀ d, d ∈ names_in "/sys/block" k1 ↔ here "/sys/block" d k1).
  { intros d. unfold names_in. rewrite merge_sort_Permutation, list_elem_of_omap. unfold here. split.
    - intros ([[dir n] v] & Hin & Hd). apply elem_of_map_to_list in Hin. cbn in Hd. case_decide; [|done]. simplify_eq/=. by eexists.
    - intros [v Hv]. exists (("/sys/block", d), v). split; [by apply elem_of_map_to_list|]. cbn. by rewrite decide_True. }
  destruct f as [[]|]; intros [= <- <-]; (split; [exact Hs|]); try done; cbn; intros d; rewrite <- Hl, !list_elem_of_In, List.filter_In; naive_solver.
Qed.
End calls.

(** ** Time *)

Fixpoint ticks (l : list kev) : Z :=
  match l with [] => 0 | KTick dt :: l' => Z.of_N dt + ticks l' | _ :: l' => ticks l' end.

(** Every system call takes some time. *)
Definition takes (c : Z) (env : denv) : Prop := 0 < c ∧ ∀ n, c ≤ ticks (de_script env n).

Lemma happen_ticks l k : k_now (foldl happen k l) = k_now k + ticks l.
Proof.
  revert k. induction l as [|[dir e v|dt] l IH]; intros k; cbn [foldl ticks]; [lia| |]; rewrite IH; cbn [happen]; [|cbn; lia].
  case_decide; [done|]. case_decide; done.
Qed.

Section time.
Context (env : denv) (c : Z) (Hc : takes c env).

Lemma syscall_takes k f k' : syscall env k = (f, k') → k_now k + c ≤ k_now k'.
Proof. unfold syscall. intros [= _ <-]. cbn. rewrite happen_ticks. destruct Hc as [_ H]. specialize (H (k_calls k)). lia. Qed.

Lemma Poll_takes t k r k' : Poll env t k = (r, k') → k_now k + c ≤ k_now k'.
Proof.
  unfold Poll. destruct (syscall env k) as [f k1] eqn:Hs. apply syscall_takes in Hs.
  destruct f; [by intros [= _ <-]|]. destruct (k_queue k1); intros [= _ <-]; cbn; lia.
Qed.

Lemma Read_takes k r k' : Read env k = (r, k') → k_now k + c ≤ k_now k'.
Proof.
  unfold Read. destruct (syscall env k) as [f k1] eqn:Hs. apply syscall_takes in Hs.
  destruct f; [by intros [= _ <-]|]. destruct (k_queue k1); [by intros [= _ <-]|]. destruct (fitting _ _). by intros [= _ <-].
Qed.

Lemma stat_takes dir n k r k' : stat env dir n k = (r, k') → k_now k + c ≤ k_now k'.
Proof. unfold stat. destruct (syscall env k) as [f k1] eqn:Hs. apply syscall_takes in Hs. by intros [= _ <-]. Qed.

Lemma find_takes k r k' : find_devices env k = (r, k') → k_now k + c ≤ k_now k'.
Proof. unfold find_devices, ReadDir. destruct (syscall env k) as [f k1] eqn:Hs. apply syscall_takes in Hs. by intros [= _ <-]. Qed.

Lemma pollFd_cases dl t k a b e k' : pollInotifyFd env dl t k = (a, b, e, k') →
  (b = false ∧ k' = k ∧ is_Some (ctxErr env dl k)) ∨ k_now k + c ≤ k_now k'.
Proof.
  unfold pollInotifyFd. destruct (ctxErr env dl k) as [x|]; [intros [= <- <- <- <-]; left; eauto|].
  destruct (Poll env t k) as [r k1] eqn:Hp. apply Poll_takes in Hp. destruct r as [n|[]]; intros [= <- <- <- <-]; by right.
Qed.

Lemma readEvents_takes k buf b e k' : readInotifyEvents env k = (buf, b, e, k') → k_now k + c ≤ k_now k'.
Proof.
  unfold readInotifyEvents. destruct (Read env k) as [r k1] eqn:Hr. apply Read_takes in Hr.
  destruct r as [n|[]]; intros [= <- <- <- <-]; done.
Qed.

(** The watches end: a round takes at least one call's time. *)
Lemma nodes_watch_ends fuel dl deadline waiting k : deadline ≤ k_now k + c * Z.of_nat fuel →
  ∃ b k', nodes_watch env (S fuel) dl deadline waiting k = (Some b, k').
Proof.
  revert waiting k. induction fuel as [|fuel IH]; intros waiting k Ht.
  { cbn [nodes_watch]. rewrite (proj2 (Z.ltb_ge _ _)) by lia. by eexists _, _. }
  assert (Hrec : ∀ k1 w, k_now k + c ≤ k_now k1 → ∃ b k', nodes_watch env (S fuel) dl deadline w k1 = (Some b, k'))
    by (intros k1 w H1; apply IH; lia).
  remember (S fuel) as n. cbn [nodes_watch]. case_match; [|by eexists _, _]. case_match; [by eexists _, _|].
  destruct (pollInotifyFd _ _ _ _) as [[[a b] e] k1] eqn:Hp. destruct b; [|destruct a; by eexists _, _].
  apply pollFd_cases in Hp as [(? & _)|Hp]; [done|]. destruct a; [|by apply Hrec].
  destruct (readInotifyEvents env k1) as [[[buf b] e2] k2] eqn:Hr. apply readEvents_takes in Hr. destruct Hc as [Hc0 _].
  destruct b; [|destruct buf; by eexists _, _]. destruct buf; apply Hrec; lia.
Qed.

Lemma blocks_watch_ends fuel t k : t ≤ k_now k + c * Z.of_nat fuel →
  ∃ l k', blocks_watch env (S fuel) (Some t) k = (Some l, k').
Proof.
  destruct Hc as [Hc0 _]. revert k. induction fuel as [|fuel IH]; intros k Ht.
  { cbn [blocks_watch]. unfold pollInotifyFd, ctxErr. destruct (de_ctx env (k_calls k)).
    - destruct (find_devices env k). by eexists _, _.
    - rewrite (proj2 (Z.leb_le _ _)) by lia. destruct (find_devices env k). by eexists _, _. }
  assert (Hrec : ∀ k1, k_now k + c ≤ k_now k1 → ∃ b k', blocks_watch env (S fuel) (Some t) k1 = (Some b, k'))
    by (intros k1 H1; apply IH; lia).
  remember (S fuel) as n. cbn [blocks_watch]. destruct (pollInotifyFd _ _ _ _) as [[[a b] e] k1] eqn:Hp.
  destruct b; [|destruct (find_devices env k1), a; by eexists _, _]. apply pollFd_cases in Hp as [(? & _)|Hp]; [done|]. destruct a.
  - destruct (readInotifyEvents env k1) as [[[buf b] e2] k2] eqn:Hr. apply readEvents_takes in Hr.
    destruct b; [|destruct (find_devices env k2), buf; by eexists _, _]. destruct buf; [apply Hrec; lia|].
    case_match; [destruct (find_devices env k2); by eexists _, _|]. apply Hrec; lia.
  - destruct (find_devices env k1) as [r k2] eqn:Hfd. apply find_takes in Hfd. destruct (found r); [by eexists _, _|]. apply Hrec. lia.
Qed.

Lemma file_watch_ends fuel stale dir base deadline k : deadline ≤ k_now k + c * Z.of_nat fuel →
  ∃ r k', file_watch env (S fuel) stale dir base deadline k = (Some r, k').
Proof.
  destruct Hc as [Hc0 _]. revert k. induction fuel as [|fuel IH]; intros k Ht.
  { cbn [file_watch]. rewrite (proj2 (Z.ltb_ge _ _)) by lia. by eexists _, _. }
  assert (Hrec : ∀ k1, k_now k + c ≤ k_now k1 → ∃ b k', file_watch env (S fuel) stale dir base deadline k1 = (Some b, k'))
    by (intros k1 H1; apply IH; lia).
  remember (S fuel) as n. cbn [file_watch]. case_match; [|by eexists _, _]. case_match; [by eexists _, _|]. case_match; [by eexists _, _|].
  destruct (Poll _ _ _) as [[b|e] k1] eqn:Hp; apply Poll_takes in Hp; [|destruct e; [by apply Hrec|by eexists _, _..]].
  destruct b.
  - destruct (Read env k1) as [[got|e] k2] eqn:Hr; apply Read_takes in Hr; [|destruct e; [apply Hrec; lia|apply Hrec; lia|by eexists _, _]].
    destruct (find_event _ _ _ _ _) as [[]|]; [by eexists _, _|apply Hrec; lia|by eexists _, _].
  - destruct (stat env dir base k1) as [r k2] eqn:Hs. apply stat_takes in Hs. destruct (exists_ r); [by eexists _, _|]. apply Hrec. lia.
Qed.

Lemma Sleep_takes d k : k_now k + c ≤ k_now (Sleep env d k).
Proof. unfold Sleep. destruct (syscall env k) as [f k1] eqn:Hs. apply syscall_takes in Hs. cbn. lia. Qed.

Lemma stat_all_takes dir ds k b k' : stat_all env dir ds k = (b, k') → k_now k ≤ k_now k'.
Proof.
  destruct Hc as [Hc0 _]. revert k. induction ds as [|d ds IH]; intros k; cbn [stat_all]; [by intros [= _ <-]|].
  destruct (stat env dir d k) as [r k1] eqn:Hs. apply stat_takes in Hs. destruct (exists_ r); [|intros [= _ <-]; lia]. intros H%IH. lia.
Qed.

Lemma nodes_poll_ends fuel dl ds deadline backoff k : deadline ≤ k_now k + c * Z.of_nat fuel →
  ∃ b k', nodes_poll env (S fuel) dl ds deadline backoff k = (Some b, k').
Proof.
  revert backoff k. induction fuel as [|fuel IH]; intros backoff k Ht.
  { cbn [nodes_poll]. rewrite (proj2 (Z.ltb_ge _ _)) by lia. by eexists _, _. }
  remember (S fuel) as n. cbn [nodes_poll]. case_match; [|by eexists _, _]. case_match; [by eexists _, _|].
  destruct (stat_all env "/dev" ds k) as [b k1] eqn:Hs. apply stat_all_takes in Hs. destruct b; [by eexists _, _|].
  apply IH. pose proof (Sleep_takes backoff k1). lia.
Qed.

Lemma blocks_poll_ends fuel t backoff k : t ≤ k_now k + c * Z.of_nat fuel →
  ∃ l k', blocks_poll env (S fuel) (Some t) backoff k = (Some l, k').
Proof.
  destruct Hc as [Hc0 _]. revert backoff k. induction fuel as [|fuel IH]; intros backoff k Ht.
  { cbn [blocks_poll]. unfold ctxErr. destruct (de_ctx env (k_calls k)); [destruct (find_devices env k); by eexists _, _|].
    rewrite (proj2 (Z.leb_le _ _)) by lia. destruct (find_devices env k). by eexists _, _. }
  remember (S fuel) as n. cbn [blocks_poll]. destruct (find_devices env k) as [r k1] eqn:Hfd. apply find_takes in Hfd.
  case_match; [by eexists _, _|]. destruct (found r); [by eexists _, _|]. apply IH. pose proof (Sleep_takes backoff k1). lia.
Qed.

Lemma file_poll_ends fuel dir base deadline backoff k : deadline ≤ k_now k + c * Z.of_nat fuel →
  ∃ r k', file_poll env (S fuel) dir base deadline backoff k = (Some r, k').
Proof.
  destruct Hc as [Hc0 _]. revert backoff k. induction fuel as [|fuel IH]; intros backoff k Ht.
  { cbn [file_poll]. rewrite (proj2 (Z.ltb_ge _ _)) by lia. by eexists _, _. }
  remember (S fuel) as n. cbn [file_poll]. case_match; [|by eexists _, _]. case_match; [by eexists _, _|].
  destruct (stat env dir base k) as [r k1] eqn:Hs. apply stat_takes in Hs. destruct (exists_ r); [by eexists _, _|].
  apply IH. pose proof (Sleep_takes backoff k1). lia.
Qed.
End time.

(** ** What the waits find *)

(** Why a wait ended without its files: the time, the context, or a call that failed. *)
Definition gave_up (env : denv) (dl : option Z) (deadline : Z) (k : kernel) : Prop :=
  deadline ≤ k_now k ∨ is_Some (ctxErr env dl k) ∨ ∃ n e, de_err env n = Some e ∧ e ≠ EINTR.

Section waits.
Context (env : denv) (Hok : honest env).

Lemma stat_all_spec dir ds k b k' : stat_all env dir ds k = (b, k') → moves k k' ∧ (b = true → ∀ d, d ∈ ds → here dir d k').
Proof.
  revert k. induction ds as [|d ds IH]; intros k; cbn [stat_all].
  { intros [= <- <-]. split; [done|]. by intros _ d ?%elem_of_nil. }
  destruct (stat env dir d k) as [r k1] eqn:Hs. apply stat_spec in Hs as (Hm & Ht & _); [|done].
  destruct (exists_ r) eqn:He; [|by intros [= <- <-]]. intros [Hm2 Hb]%IH. split; [by etrans|].
  intros Hb' x [->|Hx]%elem_of_cons; [|by apply Hb]. destruct r; [|done..]. eapply here_mono; [exact Hm2|]. auto.
Qed.

Lemma nodes_poll_spec fuel dl ds deadline backoff k b k' : nodes_poll env fuel dl ds deadline backoff k = (Some b, k') →
  moves k k' ∧ if b then ∀ d, d ∈ ds → here "/dev" d k' else gave_up env dl deadline k'.
Proof.
  revert backoff k. induction fuel as [|fuel IH]; intros backoff k; cbn [nodes_poll]; [done|].
  destruct (k_now k <? deadline) eqn:Hd; [|intros [= <- <-]; split; [done|]; left; lia].
  destruct (ctxErr env dl k) as [e|] eqn:Hx; [intros [= <- <-]; split; [done|]; right; left; rewrite Hx; by eexists|].
  destruct (stat_all env "/dev" ds k) as [a k1] eqn:Hs. apply stat_all_spec in Hs as [Hm Ha].
  destruct a; [intros [= <- <-]; split; [done|]; auto|]. intros [Hm2 Hb]%IH. split; [|done].
  etrans; [exact Hm|]. etrans; [|exact Hm2]. by apply Sleep_moves.
Qed.

Lemma missing_spec ds k w k' : missing env ds k = (w, k') →
  moves k k' ∧ w ⊆ list_to_set ds ∧ ∀ d, d ∈ ds → d ∉ w → here "/dev" d k'.
Proof.
  revert k w k'. induction ds as [|d ds IH]; intros k w k'; cbn [missing].
  { intros [= <- <-]. split_and!; [done|set_solver|]. by intros d ?%elem_of_nil. }
  destruct (stat env "/dev" d k) as [r k1] eqn:Hs. apply stat_spec in Hs as (Hm & Ht & _); [|done].
  destruct (missing env ds k1) as [w2 k2] eqn:Hmi. apply IH in Hmi as (Hm2 & Hsub & Hall). intros [= <- <-].
  split; [by etrans|]. split; [destruct (exists_ r); set_solver|]. intros x Hx Hnx. apply elem_of_cons in Hx as [->|Hx].
  - destruct r; cbn in Hnx; [|set_solver..]. eapply here_mono; [exact Hm2|]. auto.
  - apply Hall; [done|]. destruct (exists_ r); set_solver.
Qed.

Definition faulty : Prop := ∃ n e, de_err env n = Some e ∧ e ≠ EINTR.

Lemma stat_fault dir n k e k' : stat env dir n k = (StFailed e, k') → faulty.
Proof.
  unfold stat, syscall. intros [= H _]. exists (k_calls k), (EFailed e). split; [|done].
  destruct (de_err env (k_calls k)) as [[]|]; try case_decide; congruence.
Qed.

(** Between the second look and the watch nothing is missed: a file that is not seen then
    is there later only with its event. *)
Lemma recheck_spec ds w k w' k' : winv "/dev" k → recheck env ds w k = (w', k') → (∀ d, d ∈ w → d ∈ ds ∨ tracked "/dev" d k ∨ faulty) →
  moves k k' ∧ w' ⊆ w ∧ (∀ d, d ∈ w → d ∉ w' → here "/dev" d k') ∧ ∀ d, d ∈ w' → tracked "/dev" d k' ∨ faulty.
Proof.
  revert w k. induction ds as [|d ds IH]; intros w k Hw; cbn [recheck].
  { intros [= <- <-] Ht. split_and!; [done|done|done|]. intros d Hd. destruct (Ht d Hd) as [?%elem_of_nil|?]; done. }
  destruct (stat env "/dev" d k) as [r k1] eqn:Hs. pose proof Hs as Hs0. apply stat_spec in Hs as (Hm & Hth & Hne); [|done].
  destruct (mv_watch _ _ Hm _ Hw) as [Hw1 Ht1]. intros Hr Ht.
  apply IH in Hr as (Hm2 & Hsub & Hh & Htr); [|done|].
  - split; [by etrans|]. split; [destruct (exists_ r); set_solver|]. split; [|done]. intros x Hx Hnx.
    destruct r; cbn in Hh; [|by apply Hh..]. destruct (decide (x = d)) as [->|Hxd]; [eapply here_mono; [exact Hm2|auto]|].
    apply Hh; [set_solver|done].
  - intros x Hx. assert (x ∈ w) as Hxw by (destruct (exists_ r); set_solver). destruct (Ht x Hxw) as [[->|?]%elem_of_cons|[?|?]]; [|auto..].
    right. destruct r; cbn in Hx; [set_solver|left; intros ?; by destruct Hne|right; by eapply stat_fault].
Qed.

Lemma handle_created a w : (handle a node_created w).2 = w ∖ list_to_set (e_name <$> a).
Proof.
  revert w. induction a as [|e a IH]; intros w; cbn; [set_solver|]. rewrite IH. case_decide; set_solver.
Qed.

(** What a wait keeps: the files not waited for are there, and none that is waited for
    is missed. *)
Definition waiting_ok (D waiting : gset string) (k : kernel) : Prop :=
  winv "/dev" k ∧ waiting ⊆ D ∧ (∀ d, d ∈ D → d ∉ waiting → here "/dev" d k) ∧ (∀ d, d ∈ waiting → tracked "/dev" d k ∨ faulty).

Lemma waiting_moves D w k k' : moves k k' → waiting_ok D w k → waiting_ok D w k'.
Proof.
  intros Hm (Hw & Hs & Hh & Ht). destruct (mv_watch _ _ Hm _ Hw) as [Hw1 Ht1]. split_and!; [done|done| |].
  - intros d Hd Hn. eapply here_mono; [exact Hm|auto].
  - intros d Hd. destruct (Ht d Hd); auto.
Qed.

Lemma pollFd_spec dl t k a b e k' : pollInotifyFd env dl t k = (a, b, e, k') →
  moves k k' ∧ (b = false → ∀ deadline, gave_up env dl deadline k').
Proof.
  unfold pollInotifyFd. destruct (ctxErr env dl k) as [x|] eqn:Hx.
  { intros [= <- <- <- <-]. split; [done|]. intros _ ?. right. left. rewrite Hx. by eexists. }
  destruct (Poll env t k) as [r k1] eqn:Hp. pose proof Hp as Hp0. apply Poll_moves in Hp; [|done].
  assert (Hf : ∀ y, r = inr y → y ≠ EINTR → ∃ n e, de_err env n = Some e ∧ e ≠ EINTR).
  { intros y -> Hy. exists (k_calls k), y. split; [|done]. revert Hp0. unfold Poll, syscall.
    destruct (de_err env (k_calls k)); [intros [= -> _]; done|]. case_match; done. }
  destruct r as [n|[]]; intros [= <- <- <- <-]; (split; [exact Hp|]); intros ? ?; try done; right; right; by eapply Hf.
Qed.

Lemma readEvents_spec D w k buf b e k' : waiting_ok D w k → readInotifyEvents env k = (buf, b, e, k') →
  k_files k ⊆ k_files k' ∧ k_now k ≤ k_now k' ∧ waiting_ok D (parseInotifyEvents buf node_created w).2 k' ∧
  (b = false → waiting_ok D w k' ∧ faulty).
Proof.
  intros Hwo. pose proof Hwo as (Hw & Hs & Hh & Ht). unfold readInotifyEvents. destruct (Read env k) as [r k1] eqn:Hr.
  assert (Hf : ∀ y, r = inr y → y ≠ EINTR → y ≠ EAGAIN → faulty).
  { intros y -> Hy Hy2. exists (k_calls k), y. split; [|done]. revert Hr. unfold Read, syscall.
    destruct (de_err env (k_calls k)); [intros [= -> _]; done|]. case_match; [by intros [= <- _]|]. case_match; done. }
  apply (Read_spec env Hok "/dev" k r k1 Hw) in Hr as (Hfi & Hn & Hw1 & Hr).
  assert (Hkeep : (∀ n, tracked "/dev" n k → tracked "/dev" n k1) → waiting_ok D w k1).
  { intros Hk. split_and!; [done|done| |]; intros d Hd; [intros Hd2; destruct (Hh d Hd Hd2) as [v Hv]; exists v; by eapply lookup_weaken|].
    destruct (Ht d Hd); auto. }
  destruct r as [n|y].
  - intros [= <- <- <- <-]. split_and!; [done|done| |done]. destruct Hr as (a & -> & Ha & Hha & Htr).
    rewrite parse_events_roundtrip, handle_created by done. split_and!; [done|etrans; [apply subseteq_difference_l; reflexivity|exact Hs]| |].
    + intros d Hd Hnd. destruct (decide (d ∈ w)) as [Hdw|Hdw].
      * destruct (decide (d ∈ e_name <$> a)) as [Hda|Hda];
          [|destruct Hnd; apply elem_of_difference; by rewrite elem_of_list_to_set]. apply list_elem_of_fmap in Hda as (x & -> & Hx). by eapply Forall_forall in Hha.
      * destruct (Hh d Hd Hdw) as [v Hv]; exists v; by eapply lookup_weaken.
    + intros d Hd. apply elem_of_difference in Hd as [Hdw Hda]. rewrite elem_of_list_to_set in Hda. destruct (Ht d Hdw) as [Htd|]; [|by right].
      destruct (Htr d Htd); [done|by left].
  - destruct y; intros [= <- <- <- <-]; (split_and!; [done|done|by apply Hkeep|]); try done; intros _; split; auto; by eapply Hf.
Qed.

(** How a wait ends: with all files, or for a reason and with one that was not missed. *)
Definition wait_end (D : gset string) (dl : option Z) (deadline : Z) (b : bool) (k : kernel) : Prop :=
  if b then ∀ d, d ∈ D → here "/dev" d k
  else gave_up env dl deadline k ∧ ∃ d, d ∈ D ∧ (tracked "/dev" d k ∨ faulty).

Definition later (k k' : kernel) : Prop := k_files k ⊆ k_files k' ∧ k_now k ≤ k_now k'.

Lemma later_trans k1 k2 k3 : later k1 k2 → later k2 k3 → later k1 k3.
Proof. intros [? ?] [? ?]. split; [by etrans|lia]. Qed.

Lemma moves_later k k' : moves k k' → later k k'.
Proof. by intros [? ? _ _]. Qed.

Lemma waiting_end D dl deadline w k b : waiting_ok D w k → b = bool_decide (w = ∅) → (b = false → gave_up env dl deadline k) →
  wait_end D dl deadline b k.
Proof.
  intros (_ & Hs & Hh & Ht) -> Hg. unfold wait_end. case_bool_decide as He; [subst w; intros d Hd; apply Hh; set_solver|].
  split; [auto|]. apply set_choose_L in He as [d Hd]. exists d. split; [set_solver|auto].
Qed.

Lemma nodes_watch_spec D fuel dl deadline w k b k' : waiting_ok D w k → nodes_watch env fuel dl deadline w k = (Some b, k') →
  later k k' ∧ wait_end D dl deadline b k'.
Proof.
  revert w k. induction fuel as [|fuel IH]; intros w k Hwo; cbn [nodes_watch]; [done|].
  destruct ((k_now k <? deadline) && negb (bool_decide (w = ∅))) eqn:Hc.
  2: { intros [= <- <-]. split; [done|]. eapply waiting_end; [done|done|]. intros Hb. rewrite Hb in Hc. left. cbn in Hc. lia. }
  apply andb_true_iff in Hc as [Hlt Hne%negb_true_iff]. rewrite (proj2 (Z.leb_gt _ _)) by lia.
  destruct (pollInotifyFd _ _ _ _) as [[[a c] e] k1] eqn:Hp. apply pollFd_spec in Hp as [Hm Hg].
  pose proof (waiting_moves _ _ _ _ Hm Hwo) as Hwo1. apply moves_later in Hm.
  assert (Hstop : c = false → wait_end D dl deadline false k1) by (intros ->; eapply waiting_end; [exact Hwo1|by rewrite Hne|auto]).
  destruct c; [|destruct a; intros [= <- <-]; auto].
  destruct a; [|intros [? ?]%IH; [|done]; split; [by eapply later_trans|done]].
  destruct (readInotifyEvents env k1) as [[[buf c] e2] k2] eqn:Hr.
  destruct (readEvents_spec D w _ _ _ _ _ Hwo1 Hr) as (Hf2 & Hn2 & Hwo2 & Hc2).
  assert (Hl : later k k2) by (eapply later_trans; [exact Hm|]; by split).
  destruct c.
  - assert (Hrec : nodes_watch env fuel dl deadline (parseInotifyEvents buf node_created w).2 k2 = (Some b, k') →
      later k k' ∧ wait_end D dl deadline b k') by (intros [? ?]%IH; [split; [by eapply later_trans|done]|done]).
    destruct buf; exact Hrec.
  - destruct (Hc2 eq_refl) as [Hwo3 Hfa].
    assert (wait_end D dl deadline false k2) by (eapply waiting_end; [exact Hwo3|by rewrite Hne|intros _; right; by right]).
    destruct buf; intros [= <- <-]; auto.
Qed.

Lemma later_refl k : later k k.
Proof. by split. Qed.

Lemma init_spec k r k' : InotifyInit1 env k = (r, k') → moves k k' ∧ (is_Some r → ∃ n, is_Some (de_err env n)).
Proof.
  unfold InotifyInit1. destruct (syscall env k) as [f k1] eqn:Hs. pose proof Hs as Hs0. apply syscall_moves in Hs; [|done].
  intros [= <- <-]. split; [done|]. revert Hs0. unfold syscall. intros [= <- _] He. exists (k_calls k).
  destruct (de_err env (k_calls k)); [by eexists|]. by destruct He.
Qed.

Lemma watch_spec dir k r k' : idle k → InotifyAddWatch env dir k = (r, k') → later k k' ∧
  match r with Some _ => idle k' ∧ ∃ n, is_Some (de_err env n) | None => winv dir k' end.
Proof.
  intros Hi. unfold InotifyAddWatch. destruct (syscall env k) as [f k1] eqn:Hs. pose proof Hs as Hs0. apply syscall_moves in Hs; [|done].
  destruct (failed f) as [e|] eqn:Hf; intros [= <- <-]; (split; [by apply moves_later in Hs|]).
  - split; [by apply (mv_idle _ _ Hs)|]. exists (k_calls k). revert Hs0. unfold syscall. intros [= -> _]. destruct f; [by eexists|done].
  - split; [done|]. destruct (mv_idle _ _ Hs Hi) as [_ Hq]. cbn. by rewrite Hq.
Qed.

Lemma later_idle k k' : moves k k' → idle k → later k k' ∧ idle k'.
Proof. intros Hm Hi. split; [by apply moves_later|by apply (mv_idle _ _ Hm)]. Qed.

Definition some_fault : Prop := ∃ n, is_Some (de_err env n).

(** How a wait for device nodes ends: with all of them, or it gave up; and unless a call
    failed, one of them was then not there or its event not read. *)
Definition nodes_outcome (ds : list string) (dl : option Z) (timeout : Z) (b : bool) (k k' : kernel) : Prop :=
  later k k' ∧ idle k' ∧
  if b then ∀ d, d ∈ ds → here "/dev" d k'
  else (∃ deadline, k_now k + timeout ≤ deadline ∧ gave_up env dl deadline k') ∧
       (some_fault ∨ ∃ k0 d, k' = close_inotify k0 ∧ d ∈ ds ∧ tracked "/dev" d k0).

Lemma nodes_poll_outcome fuel dl ds timeout k k1 b k' : later k k1 → idle k1 → some_fault →
  waitForDevNodesPoll env fuel dl ds timeout k1 = (Some b, k') → nodes_outcome ds dl timeout b k k'.
Proof.
  intros Hl Hi Hf [Hm Hb]%nodes_poll_spec. destruct (later_idle _ _ Hm Hi) as [Hl2 Hi2].
  split; [by eapply later_trans|]. split; [done|]. destruct b; [done|]. split; [|by left].
  exists (k_now k1 + timeout). destruct Hl. split; [lia|done].
Qed.

(** The part of the wait after the watch was set up. *)
Lemma nodes_watch_outcome fuel dl ds timeout w k k1 b k' : (∀ l, de_order env l ≡ₚ l) → later k k1 → winv "/dev" k1 →
  w ⊆ list_to_set ds → (∀ d, d ∈ ds → d ∉ w → here "/dev" d k1) →
  (let '(waiting, k2) := recheck env (de_order env (elements w)) w k1 in
   if decide (waiting = ∅) then (Some true, k2) else nodes_watch env fuel dl (k_now k2 + timeout) waiting k2) = (Some b, k') →
  nodes_outcome ds dl timeout b k (close_inotify k').
Proof.
  intros Hord Hl Hw Hs Hh. destruct (recheck env (de_order env (elements w)) w k1) as [w2 k2] eqn:Hre.
  apply recheck_spec in Hre as (Hm & Hsub & Hh2 & Ht2); [|done|intros d Hd; left; rewrite Hord; by apply elem_of_elements].
  assert (Hl2 : later k k2) by (eapply later_trans; [exact Hl|by apply moves_later]).
  assert (Hwo : waiting_ok (list_to_set ds) w2 k2).
  { split_and!; [by apply (mv_watch _ _ Hm)|by etrans| |done]. intros d Hd Hd2. apply elem_of_list_to_set in Hd.
    destruct (decide (d ∈ w)) as [Hdw|Hdw]; [by apply Hh2|]. eapply here_mono; [exact Hm|auto]. }
  case_decide as He.
  { intros [= <- <-]. split; [exact (conj (proj1 Hl2) (proj2 Hl2))|]. split; [done|]. intros d Hd.
    apply Hwo; [by apply elem_of_list_to_set|rewrite He; set_solver]. }
  intros [Hl3 Hb]%(nodes_watch_spec (list_to_set ds)); [|done]. pose proof (later_trans _ _ _ Hl2 Hl3) as Hl4.
  split; [exact (conj (proj1 Hl4) (proj2 Hl4))|]. split; [done|]. destruct b; [intros d Hd; by apply Hb, elem_of_list_to_set|].
  destruct Hb as [Hg (d & Hd & Htd)]. split; [exists (k_now k2 + timeout); destruct Hl2; split; [lia|exact Hg]|].
  destruct Htd as [Htd|(n & e & Hn & _)]; [|left; exists n; by eexists].
  right. exists k', d. split_and!; [done|by apply elem_of_list_to_set in Hd|done].
Qed.

Lemma waitForDevNodes_spec fuel dl ds timeout k b k' : idle k → (∀ l, de_order env l ≡ₚ l) →
  waitForDevNodesInotify env fuel dl ds timeout k = (Some b, k') → nodes_outcome ds dl timeout b k k'.
Proof.
  intros Hi Hord. unfold waitForDevNodesInotify. destruct (length ds =? 0)%nat eqn:Hlen.
  { intros [= <- <-]. apply Nat.eqb_eq, nil_length_inv in Hlen as ->. split_and!; [apply later_refl|done..|]. by intros d ?%elem_of_nil. }
  destruct (missing env ds k) as [w k1] eqn:Hmi. apply missing_spec in Hmi as (Hm1 & Hw1 & Hh1). destruct (later_idle _ _ Hm1 Hi) as [Hl1 Hi1].
  case_decide as He; [intros [= <- <-]; split_and!; [done..|]; intros d Hd; apply Hh1; [done|set_solver]|].
  destruct (InotifyInit1 env k1) as [r k2] eqn:Hin. apply init_spec in Hin as [Hm2 Hr]. destruct (later_idle _ _ Hm2 Hi1) as [Hl2 Hi2].
  assert (Hl2' : later k k2) by (by eapply later_trans).
  destruct r as [e|]; [by apply nodes_poll_outcome; [..|apply Hr]|]. clear Hr.
  destruct (InotifyAddWatch env "/dev" k2) as [r k3] eqn:Hwa. apply watch_spec in Hwa as [Hl3 Hr]; [|done].
  assert (Hl3' : later k k3) by (by eapply later_trans). destruct r as [e|].
  - destruct Hr as [Hi3 Hn3]. destruct (waitForDevNodesPoll env fuel dl ds timeout k3) as [b4 k4] eqn:Hp. intros [= -> <-].
    apply (nodes_poll_outcome _ _ _ _ k) in Hp as (Hl4 & Hi4 & Hb); [|done..]. split; [done|]. split; [done|].
    destruct b; [exact Hb|]. split; [apply Hb|by left].
  - match goal with |- context [let '(_, _) := ?x in _] => destruct x as [b4 k4] eqn:Hx end. intros [= -> <-].
    eapply nodes_watch_outcome; [done|exact Hl3'|exact Hr|exact Hw1| |exact Hx].
    intros d Hd Hdw. destruct (Hh1 d Hd Hdw) as [v Hv]. exists v. eapply lookup_weaken; [exact Hv|].
    etrans; [apply Hl2|apply Hl3].
Qed.

(** ** The devices of /sys/block *)

(** Devices that were listed: virtio devices that are there. *)
Definition listed (l : list string) (k : kernel) : Prop := ∀ d, d ∈ l → HasPrefix d "vd" = true ∧ here "/sys/block" d k.

(** None was there when it was looked for last, unless looking failed. *)
Definition none_seen (k : kernel) : Prop := some_fault ∨ ∀ d, HasPrefix d "vd" = true → ¬ here "/sys/block" d k.

Definition blocks_outcome (dl : option Z) (l : list string) (k k' : kernel) : Prop :=
  later k k' ∧ listed l k' ∧ (l = [] → none_seen k').

Lemma found_listed k r k' l : find_devices env k = (r, k') → found r = Some l → moves k k' ∧ listed l k' ∧ l ≠ [].
Proof.
  intros [Hm Hr]%find_devices_spec Hl; [|done]. split; [done|]. destruct r as [[|d l']|]; cbn in Hl; [done| |done]. injection Hl as <-.
  split; [|done]. intros x Hx. by apply Hr.
Qed.

Lemma last_look k r k' : find_devices env k = (r, k') → moves k k' ∧ listed (or_nil r) k' ∧ (or_nil r = [] → none_seen k').
Proof.
  intros Hf. pose proof Hf as [Hm Hr]%find_devices_spec; [|done]. split; [done|]. destruct r as [l|e]; cbn.
  - split; [intros x Hx; by apply Hr|]. intros ->. right. intros d Hd Hh. by apply (not_elem_of_nil d), Hr.
  - split; [by intros x ?%elem_of_nil|]. intros _. left. revert Hf. unfold find_devices, ReadDir, syscall. intros [= H _].
    exists (k_calls k). destruct (de_err env (k_calls k)) as [[]|]; [done..|by eexists|done].
Qed.

Lemma Read_later k r k' : Read env k = (r, k') → later k k'.
Proof.
  unfold Read. destruct (syscall env k) as [f k1] eqn:Hs. apply syscall_moves, moves_later in Hs; [|done].
  destruct f; [by intros [= _ <-]|]. destruct (k_queue k1); [by intros [= _ <-]|]. destruct (fitting _ _). by intros [= _ <-].
Qed.

Lemma readEvents_later k buf b e k' : readInotifyEvents env k = (buf, b, e, k') → later k k'.
Proof.
  unfold readInotifyEvents. destruct (Read env k) as [r k1] eqn:Hr. apply Read_later in Hr.
  destruct r as [n|[]]; intros [= <- <- <- <-]; done.
Qed.

Lemma blocks_from dl l k k1 k' : later k k1 → blocks_outcome dl l k1 k' → blocks_outcome dl l k k'.
Proof. intros Hl (H1 & H2 & H3). split; [by eapply later_trans|done]. Qed.

Lemma blocks_found dl k r k' l : find_devices env k = (r, k') → found r = Some l → blocks_outcome dl l k k'.
Proof. intros Hf Hl. destruct (found_listed _ _ _ _ Hf Hl) as (Hm & Hli & Hne). split_and!; [by apply moves_later|done..]. Qed.

Lemma blocks_last dl k r k' : find_devices env k = (r, k') → blocks_outcome dl (or_nil r) k k'.
Proof. intros (Hm & Hl & Hn)%last_look. split_and!; [by apply moves_later|done..]. Qed.

Lemma find_later k r k' : find_devices env k = (r, k') → later k k'.
Proof. intros [Hm _]%find_devices_spec; [|done]. by apply moves_later. Qed.

Lemma blocks_poll_spec fuel dl backoff k l k' : blocks_poll env fuel dl backoff k = (Some l, k') → blocks_outcome dl l k k' ∧ moves k k'.
Proof.
  revert backoff k. induction fuel as [|fuel IH]; intros backoff k; cbn [blocks_poll]; [done|].
  destruct (find_devices env k) as [r k1] eqn:Hf. pose proof (find_devices_spec env Hok _ _ _ Hf) as [Hm _].
  case_match; [intros [= <- <-]; split; [by eapply blocks_last|done]|].
  destruct (found r) as [ds|] eqn:Hfo; [intros [= <- <-]; split; [by eapply blocks_found|done]|]. intros [Hb Hm2]%IH.
  assert (Hm' : moves k (Sleep env backoff k1)) by (etrans; [exact Hm|by apply Sleep_moves]).
  split; [eapply blocks_from; [by apply moves_later|exact Hb]|by etrans].
Qed.

Lemma blocks_watch_spec fuel dl k l k' : blocks_watch env fuel dl k = (Some l, k') → blocks_outcome dl l k k'.
Proof.
  revert k. induction fuel as [|fuel IH]; intros k; cbn [blocks_watch]; [done|].
  destruct (pollInotifyFd _ _ _ _) as [[[a b] e] k1] eqn:Hp. apply pollFd_spec in Hp as [Hm%moves_later _].
  destruct (find_devices env k1) as [r k2] eqn:Hf. pose proof (blocks_last dl _ _ _ Hf) as Hlast.
  destruct b; [|destruct a; intros [= <- <-]; by eapply blocks_from]. destruct a.
  - destruct (readInotifyEvents env k1) as [[[buf b] e2] k3] eqn:Hr. apply readEvents_later in Hr.
    assert (Hm3 : later k k3) by (by eapply later_trans). destruct (find_devices env k3) as [r3 k4] eqn:Hf3.
    pose proof (blocks_last dl _ _ _ Hf3) as Hlast3.
    assert (Hrec : blocks_watch env fuel dl k3 = (Some l, k') → blocks_outcome dl l k k') by (intros H%IH; by eapply blocks_from).
    destruct b; [|destruct buf; intros [= <- <-]; by eapply blocks_from]. destruct buf; [done|].
    case_match; [|done]. intros [= <- <-]. by eapply blocks_from.
  - destruct (found r) as [ds|] eqn:Hfo; [intros [= <- <-]; eapply blocks_from; [exact Hm|by eapply blocks_found]|].
    intros H%IH. eapply blocks_from; [|exact H]. eapply later_trans; [exact Hm|by eapply find_later].
Qed.

Lemma waitForSysBlock_spec fuel dl k l k' : idle k → waitForSysBlockDevices env fuel dl k = (Some l, k') → blocks_outcome dl l k k' ∧ idle k'.
Proof.
  intros Hi. unfold waitForSysBlockDevices. destruct (find_devices env k) as [r k1] eqn:Hf.
  pose proof (find_devices_spec env Hok _ _ _ Hf) as [Hm1 _]. destruct (later_idle _ _ Hm1 Hi) as [Hl1 Hi1].
  destruct (found r) as [ds|] eqn:Hfo; [intros [= <- <-]; split; [by eapply blocks_found|done]|].
  destruct (InotifyInit1 env k1) as [e k2] eqn:Hin. apply init_spec in Hin as [Hm2 _]. destruct (later_idle _ _ Hm2 Hi1) as [Hl2 Hi2].
  assert (Hl2' : later k k2) by (by eapply later_trans).
  destruct e as [e|]; [intros [H Hm]%blocks_poll_spec; split; [by eapply blocks_from|by apply (mv_idle _ _ Hm)]|].
  match goal with |- context [let '(_, _) := ?x in _] => destruct x as [r4 k4] eqn:Hx end. intros [= -> <-]. split; [|done].
  assert (H : blocks_outcome dl l k2 k4); [|exact (blocks_from dl l k k2 (close_inotify k4) Hl2' H)].
  destruct (InotifyAddWatch env "/sys/block" k2) as [e k3] eqn:Hwa. apply watch_spec in Hwa as [Hl3 _]; [|done]. eapply blocks_from; [exact Hl3|].
  destruct e as [e|]; [by apply blocks_poll_spec in Hx as [Hx _]|]. destruct (find_devices env k3) as [r5 k5] eqn:Hf5.
  destruct (found r5) as [ds|] eqn:Hfo5; [injection Hx as <- <-; by eapply blocks_found|].
  eapply blocks_from; [by eapply find_later|]. by eapply blocks_watch_spec.
Qed.
End waits.

(** ** The waits end *)

Section ends.
Context (env : denv) (c : Z) (Hc : takes c env).

Lemma init_takes k r k' : InotifyInit1 env k = (r, k') → k_now k + c ≤ k_now k'.
Proof. unfold InotifyInit1. destruct (syscall env k) as [f k1] eqn:Hs. apply (syscall_takes _ _ Hc) in Hs. by intros [= _ <-]. Qed.

Lemma watch_takes dir k r k' : InotifyAddWatch env dir k = (r, k') → k_now k + c ≤ k_now k'.
Proof.
  unfold InotifyAddWatch. destruct (syscall env k) as [f k1] eqn:Hs. apply (syscall_takes _ _ Hc) in Hs. destruct (failed f); by intros [= _ <-].
Qed.

Lemma waitForSysBlock_ends fuel t k : t ≤ k_now k + c * Z.of_nat fuel → ∃ l k', waitForSysBlockDevices env (S fuel) (Some t) k = (Some l, k').
Proof.
  destruct Hc as [Hc0 _]. intros Ht. unfold waitForSysBlockDevices. destruct (find_devices env k) as [r k1] eqn:Hf.
  apply (find_takes _ _ Hc) in Hf. destruct (found r); [by eexists _, _|].
  destruct (InotifyInit1 env k1) as [e k2] eqn:Hin. apply init_takes in Hin.
  destruct e; [apply (blocks_poll_ends _ _ Hc); lia|].
  destruct (InotifyAddWatch env "/sys/block" k2) as [e k3] eqn:Hwa. apply watch_takes in Hwa. destruct e.
  - destruct (blocks_poll_ends env c Hc fuel t (5 * 1000000) k3) as (l & k' & E); [lia|]. unfold waitForSysBlockDevicesPoll. rewrite E. by eexists _, _.
  - destruct (find_devices env k3) as [r4 k4] eqn:Hf4. apply (find_takes _ _ Hc) in Hf4. destruct (found r4); [by eexists _, _|].
    destruct (blocks_watch_ends env c Hc fuel t k4) as (l & k' & E); [lia|]. rewrite E. by eexists _, _.
Qed.

Lemma waitForDevNodes_ends fuel dl ds timeout k : timeout ≤ c * Z.of_nat fuel →
  ∃ b k', waitForDevNodesInotify env (S fuel) dl ds timeout k = (Some b, k').
Proof.
  intros Ht. unfold waitForDevNodesInotify. case_match; [by eexists _, _|]. destruct (missing env ds k) as [w k1].
  case_decide; [by eexists _, _|]. destruct (InotifyInit1 env k1) as [e k2].
  destruct e; [apply (nodes_poll_ends _ _ Hc); lia|]. destruct (InotifyAddWatch env "/dev" k2) as [e k3]. destruct e.
  - destruct (nodes_poll_ends env c Hc fuel dl ds (k_now k3 + timeout) (5 * 1000000) k3) as (b & k' & E); [lia|].
    unfold waitForDevNodesPoll. rewrite E. by eexists _, _.
  - destruct (recheck _ _ _ _) as [w4 k4]. case_decide; [by eexists _, _|].
    destruct (nodes_watch_ends env c Hc fuel dl (k_now k4 + timeout) w4 k4) as (b & k' & E); [lia|]. rewrite E. by eexists _, _.
Qed.

Lemma waitForSysfsFile_ends fuel stale dir base timeout k : timeout ≤ c * Z.of_nat fuel →
  ∃ r k', waitForSysfsFile env (S fuel) stale dir base timeout k = (Some r, k').
Proof.
  intros Ht. unfold waitForSysfsFile. destruct (stat env dir base k) as [r k1]. destruct (exists_ r); [by eexists _, _|].
  destruct (InotifyInit1 env k1) as [e k2]. destruct e; [apply (file_poll_ends _ _ Hc); lia|].
  destruct (InotifyAddWatch env dir k2) as [e k3]. destruct e.
  - destruct (file_poll_ends env c Hc fuel dir base (k_now k3 + timeout) (5 * 1000000) k3) as (b & k' & E); [lia|].
    unfold waitForSysfsFilePoll. rewrite E. by eexists _, _.
  - destruct (stat env dir base k3) as [r4 k4]. destruct (exists_ r4); [by eexists _, _|].
    destruct (file_watch_ends env c Hc fuel stale dir base (k_now k4 + timeout) k4) as (b & k' & E); [lia|]. rewrite E. by eexists _, _.
Qed.
End ends.

(** ** How late the waits end *)

(** No system call takes longer than [d], the time asked for in a poll or a sleep apart. *)
Definition takes_at_most (d : Z) (env : denv) : Prop := 0 ≤ d ∧ ∀ n, ticks (de_script env n) ≤ d.

Section late.
Context (env : denv) (d : Z) (Hd : takes_at_most d env).

Lemma syscall_within k f k' : syscall env k = (f, k') → k_now k' ≤ k_now k + d.
Proof. unfold syscall. intros [= _ <-]. cbn. rewrite happen_ticks. destruct Hd as [_ H]. specialize (H (k_calls k)). lia. Qed.

Lemma Poll_within t k r k' : 0 ≤ t → Poll env t k = (r, k') → k_now k' ≤ k_now k + t * 1000000 + d.
Proof.
  intros Ht. destruct Hd as [H0 _]. unfold Poll. destruct (syscall env k) as [f k1] eqn:Hs. apply syscall_within in Hs.
  destruct f; [intros [= _ <-]; lia|]. destruct (k_queue k1); intros [= _ <-]; cbn; lia.
Qed.

Lemma Read_within k r k' : Read env k = (r, k') → k_now k' ≤ k_now k + d.
Proof.
  unfold Read. destruct (syscall env k) as [f k1] eqn:Hs. apply syscall_within in Hs.
  destruct f; [by intros [= _ <-]|]. destruct (k_queue k1); [by intros [= _ <-]|]. destruct (fitting _ _). by intros [= _ <-].
Qed.

Lemma stat_within dir n k r k' : stat env dir n k = (r, k') → k_now k' ≤ k_now k + d.
Proof. unfold stat. destruct (syscall env k) as [f k1] eqn:Hs. apply syscall_within in Hs. by intros [= _ <-]. Qed.

Lemma find_within k r k' : find_devices env k = (r, k') → k_now k' ≤ k_now k + d.
Proof. unfold find_devices, ReadDir. destruct (syscall env k) as [f k1] eqn:Hs. apply syscall_within in Hs. by intros [= _ <-]. Qed.

Lemma init_within k r k' : InotifyInit1 env k = (r, k') → k_now k' ≤ k_now k + d.
Proof. unfold InotifyInit1. destruct (syscall env k) as [f k1] eqn:Hs. apply syscall_within in Hs. by intros [= _ <-]. Qed.

Lemma watch_within dir k r k' : InotifyAddWatch env dir k = (r, k') → k_now k' ≤ k_now k + d.
Proof.
  unfold InotifyAddWatch. destruct (syscall env k) as [f k1] eqn:Hs. apply syscall_within in Hs. destruct (failed f); by intros [= _ <-].
Qed.

Lemma Sleep_within t k : 0 ≤ t → k_now (Sleep env t k) ≤ k_now k + t + d.
Proof. intros Ht. destruct Hd as [H0 _]. unfold Sleep. destruct (syscall env k) as [f k1] eqn:Hs. apply syscall_within in Hs. cbn. lia. Qed.

Lemma ctxErr_none t k : ctxErr env (Some t) k = None → k_now k < t.
Proof. unfold ctxErr. destruct (de_ctx env (k_calls k)); [done|]. case_match; [done|]. lia. Qed.

(** A round that is begun is begun before the context's deadline. *)
Lemma pollFd_within t tm k a b e k' : 0 ≤ tm ≤ 100 → pollInotifyFd env (Some t) tm k = (a, b, e, k') →
  k' = k ∧ b = false ∨ k_now k' ≤ t + 100000000 + d.
Proof.
  intros Ht. unfold pollInotifyFd. destruct (ctxErr env (Some t) k) as [x|] eqn:Hx; [intros [= <- <- <- <-]; by left|].
  apply ctxErr_none in Hx. destruct (Poll env tm k) as [r k1] eqn:Hp. apply Poll_within in Hp; [|lia].
  intros H. right. destruct r as [n|[]]; injection H as <- <- <- <-; lia.
Qed.

Lemma readEvents_within k buf b e k' : readInotifyEvents env k = (buf, b, e, k') → k_now k' ≤ k_now k + d.
Proof.
  unfold readInotifyEvents. destruct (Read env k) as [r k1] eqn:Hr. apply Read_within in Hr.
  destruct r as [n|[]]; intros [= <- <- <- <-]; done.
Qed.

Lemma nodes_watch_within fuel t deadline w k b k' : nodes_watch env fuel (Some t) deadline w k = (Some b, k') →
  k_now k' ≤ k_now k `max` (t + 100000000 + 2 * d).
Proof.
  destruct Hd as [H0 _]. revert w k. induction fuel as [|fuel IH]; intros w k; cbn [nodes_watch]; [done|].
  case_match; [|intros [= _ <-]; lia]. destruct (Z.leb_spec (deadline - k_now k) 0) as [|Hr]; [intros [= _ <-]; lia|].
  destruct (pollInotifyFd _ _ _ _) as [[[a c] e] k1] eqn:Hp. apply pollFd_within in Hp.
  2: { unfold inotifyPollInterval. pose proof (Z.div_pos (deadline - k_now k) 1000000). lia. }
  destruct c; [|destruct a; intros [= _ <-]; destruct Hp as [[-> _]|Hp]; lia].
  destruct Hp as [[_ ?]|Hp]; [done|]. destruct a; [|intros Hq%IH; lia].
  destruct (readInotifyEvents env k1) as [[[buf c] e2] k2] eqn:Hre. apply readEvents_within in Hre.
  destruct c; [|destruct buf; intros [= _ <-]; lia]. destruct buf; intros Hq%IH; lia.
Qed.

Lemma stat_all_within dir ds k b k' : stat_all env dir ds k = (b, k') → k_now k' ≤ k_now k + Z.of_nat (length ds) * d.
Proof.
  destruct Hd as [H0 _]. revert k. induction ds as [|x ds IH]; intros k; cbn [stat_all length]; [intros [= _ <-]; lia|].
  destruct (stat env dir x k) as [r k1] eqn:Hs. apply stat_within in Hs. destruct (exists_ r); [intros Hq%IH; lia|intros [= _ <-]; nia].
Qed.

Lemma nodes_poll_within fuel t ds deadline backoff k b k' : 0 ≤ backoff ≤ 50000000 →
  nodes_poll env fuel (Some t) ds deadline backoff k = (Some b, k') →
  k_now k' ≤ k_now k `max` (t + 50000000 + (Z.of_nat (length ds) + 1) * d).
Proof.
  destruct Hd as [H0 _]. revert backoff k. induction fuel as [|fuel IH]; intros backoff k Hb; cbn [nodes_poll]; [done|].
  case_match; [|intros [= _ <-]; lia]. destruct (ctxErr env (Some t) k) eqn:Hx; [intros [= _ <-]; lia|]. apply ctxErr_none in Hx.
  destruct (stat_all env "/dev" ds k) as [a k1] eqn:Hs. apply stat_all_within in Hs. destruct a; [intros [= _ <-]; lia|].
  intros Hq%IH; [|lia]. pose proof (Sleep_within backoff k1). lia.
Qed.

Lemma missing_within ds k w k' : missing env ds k = (w, k') → k_now k' ≤ k_now k + Z.of_nat (length ds) * d ∧ w ⊆ list_to_set ds.
Proof.
  revert k w k'. induction ds as [|x ds IH]; intros k w k'; cbn [missing length]; [intros [= <- <-]; split; [lia|set_solver]|].
  destruct (stat env "/dev" x k) as [r k1] eqn:Hs. apply stat_within in Hs.
  destruct (missing env ds k1) as [w2 k2] eqn:Hm. apply IH in Hm as [Hm Hw]. intros [= <- <-]. split; [lia|destruct (exists_ r); set_solver].
Qed.

Lemma recheck_within ds w k w' k' : recheck env ds w k = (w', k') → k_now k' ≤ k_now k + Z.of_nat (length ds) * d.
Proof.
  revert w k. induction ds as [|x ds IH]; intros w k; cbn [recheck length]; [intros [= _ <-]; lia|].
  destruct (stat env "/dev" x k) as [r k1] eqn:Hs. apply stat_within in Hs. intros Hq%IH. lia.
Qed.

(** The wait for the nodes ends with the context, whatever time-out it was given. *)
Lemma waitForDevNodes_within fuel t ds timeout k b k' : (∀ l, de_order env l ≡ₚ l) →
  waitForDevNodesInotify env fuel (Some t) ds timeout k = (Some b, k') →
  k_now k' ≤ (k_now k + (2 * Z.of_nat (length ds) + 2) * d) `max` (t + 100000000 + (Z.of_nat (length ds) + 2) * d).
Proof.
  destruct Hd as [H0 _]. intros Hord. unfold waitForDevNodesInotify. case_match; [intros [= _ <-]; nia|].
  destruct (missing env ds k) as [w k1] eqn:Hm. apply missing_within in Hm as [Hm Hw].
  case_decide; [intros [= _ <-]; nia|]. destruct (InotifyInit1 env k1) as [e k2] eqn:Hi. apply init_within in Hi.
  destruct e; [intros Hq%nodes_poll_within; [nia|lia]|].
  destruct (InotifyAddWatch env "/dev" k2) as [e k3] eqn:Ha. apply watch_within in Ha. destruct e.
  - destruct (waitForDevNodesPoll env fuel (Some t) ds timeout k3) as [b4 k4] eqn:Hp. intros [= -> <-].
    apply nodes_poll_within in Hp; [cbn; nia|lia].
  - destruct (recheck env (de_order env (elements w)) w k3) as [w4 k4] eqn:Hr. apply recheck_within in Hr.
    assert (length (de_order env (elements w)) ≤ length ds)%nat.
    { rewrite Hord. change (size w ≤ length ds)%nat. apply subseteq_size in Hw. etrans; [exact Hw|].
      clear. induction ds as [|x ds IH]; [done|]. cbn [list_to_set length]. rewrite size_union_alt, size_singleton.
      etrans; [apply Nat.add_le_mono_l, subseteq_size, subseteq_difference_l; reflexivity|]. lia. }
    case_decide; [intros [= _ <-]; cbn; nia|].
    destruct (nodes_watch env fuel (Some t) (k_now k4 + timeout) w4 k4) as [b5 k5] eqn:Hn. intros [= -> <-].
    apply nodes_watch_within in Hn. cbn. nia.
Qed.

Lemma blocks_poll_within fuel t backoff k l k' : 0 ≤ backoff ≤ 50000000 →
  blocks_poll env fuel (Some t) backoff k = (Some l, k') → k_now k' ≤ k_now k `max` (t + 50000000 + 2 * d) + d.
Proof.
  destruct Hd as [H0 _]. revert backoff k. induction fuel as [|fuel IH]; intros backoff k Hb; cbn [blocks_poll]; [done|].
  destruct (find_devices env k) as [r k1] eqn:Hf. apply find_within in Hf.
  destruct (ctxErr env (Some t) k) eqn:Hx; [intros [= _ <-]; lia|]. apply ctxErr_none in Hx.
  destruct (found r); [intros [= _ <-]; lia|]. intros Hq%IH; [|lia]. pose proof (Sleep_within backoff k1). lia.
Qed.

Lemma blocks_watch_within fuel t k l k' : blocks_watch env fuel (Some t) k = (Some l, k') →
  k_now k' ≤ k_now k `max` (t + 100000000 + 2 * d) + d.
Proof.
  destruct Hd as [H0 _]. revert k. induction fuel as [|fuel IH]; intros k; cbn [blocks_watch]; [done|].
  destruct (pollInotifyFd _ _ _ _) as [[[a b] e] k1] eqn:Hp. apply pollFd_within in Hp; [|unfold inotifyPollInterval; lia].
  destruct (find_devices env k1) as [r k2] eqn:Hf. apply find_within in Hf.
  destruct b; [|destruct a; intros [= _ <-]; destruct Hp as [[-> _]|Hp]; lia].
  destruct Hp as [[_ ?]|Hp]; [done|]. destruct a.
  - destruct (readInotifyEvents env k1) as [[[buf b] e2] k3] eqn:Hr. apply readEvents_within in Hr.
    destruct (find_devices env k3) as [r3 k4] eqn:Hf3. apply find_within in Hf3.
    destruct b; [|destruct buf; intros [= _ <-]; lia]. destruct buf; [intros Hq%IH; lia|].
    case_match; [intros [= _ <-]; lia|intros Hq%IH; lia].
  - destruct (found r); [intros [= _ <-]; lia|]. intros Hq%IH; lia.
Qed.

Lemma waitForSysBlock_within fuel t k l k' : k_now k ≤ t → waitForSysBlockDevices env fuel (Some t) k = (Some l, k') →
  k_now k' ≤ t + 100000000 + 5 * d.
Proof.
  destruct Hd as [H0 _]. intros Ht. unfold waitForSysBlockDevices. destruct (find_devices env k) as [r k1] eqn:Hf. apply find_within in Hf.
  destruct (found r); [intros [= _ <-]; lia|]. destruct (InotifyInit1 env k1) as [e k2] eqn:Hi. apply init_within in Hi.
  destruct e; [intros Hq%blocks_poll_within; lia|]. destruct (InotifyAddWatch env "/sys/block" k2) as [e k3] eqn:Ha. apply watch_within in Ha.
  destruct e.
  - destruct (waitForSysBlockDevicesPoll env fuel (Some t) k3) as [r4 k4] eqn:Hp. intros [= -> <-].
    apply blocks_poll_within in Hp; cbn; lia.
  - destruct (find_devices env k3) as [r4 k4] eqn:Hf4. apply find_within in Hf4. destruct (found r4); [intros [= _ <-]; cbn; lia|].
    destruct (blocks_watch env fuel (Some t) k4) as [r5 k5] eqn:Hw. intros [= -> <-]. apply blocks_watch_within in Hw. cbn. lia.
Qed.
End late.

(** ** The disks of a booting guest *)

Lemma listed_later l k k' : later k k' → listed l k → listed l k'.
Proof. intros [Hf _] Hl d Hd. destruct (Hl d Hd) as [Hv [v Hh]]. split; [done|]. exists v. by eapply lookup_weaken. Qed.


(** ** Waiting for a sysfs file *)

Section sysfs.
Context (env : denv) (Hok : honest env).

Definition file_end (dir base : string) (deadline : Z) (r : option error) (k : kernel) : Prop :=
  match r with
  | None => here dir base k
  | Some _ => gave_up env None deadline k ∧ (tracked dir base k ∨ faulty env)
  end.

Lemma Poll_fault t k y k' : Poll env t k = (inr y, k') → y ≠ EINTR → faulty env.
Proof.
  intros Hp Hy. exists (k_calls k), y. split; [|done]. revert Hp. unfold Poll, syscall.
  destruct (de_err env (k_calls k)); [intros [= -> _]; done|]. case_match; done.
Qed.

Lemma Read_fault k y k' : Read env k = (inr y, k') → y ≠ EINTR → y ≠ EAGAIN → faulty env.
Proof.
  intros Hr Hy Hy2. exists (k_calls k), y. split; [|done]. revert Hr. unfold Read, syscall.
  destruct (de_err env (k_calls k)); [intros [= -> _]; done|]. case_match; [by intros [= <- _]|]. case_match; done.
Qed.

Lemma file_watch_spec fuel stale dir base deadline k r k' : winv dir k → (tracked dir base k ∨ faulty env) →
  file_watch env fuel stale dir base deadline k = (Some r, k') → later k k' ∧ file_end dir base deadline r k'.
Proof.
  revert k. induction fuel as [|fuel IH]; intros k Hw Ht; cbn [file_watch]; [done|].
  destruct (k_now k <? deadline) eqn:Hlt; [|intros [= <- <-]; split; [apply later_refl|split; [left; lia|done]]].
  destruct (ctxErr env None k) as [e|] eqn:Hx; [intros [= <- <-]; split; [apply later_refl|split; [right; left; rewrite Hx; by eexists|done]]|].
  rewrite (proj2 (Z.leb_gt _ _)) by lia. destruct (Poll env _ k) as [p k1] eqn:Hp. pose proof (Poll_moves env Hok _ _ _ _ Hp) as Hm.
  destruct (mv_watch _ _ Hm _ Hw) as [Hw1 Ht1].
  assert (Ht1' : tracked dir base k1 ∨ faulty env) by (destruct Ht; auto).
  assert (Hrec : ∀ k2, later k1 k2 → winv dir k2 → (tracked dir base k2 ∨ faulty env) →
    file_watch env fuel stale dir base deadline k2 = (Some r, k') → later k k' ∧ file_end dir base deadline r k').
  { intros k2 Hl2 Hw2 Ht2 [Hl Hr]%IH; [|done..]. split; [|done]. eapply later_trans; [by apply moves_later|]. by eapply later_trans. }
  assert (Hfail : ∀ k2, later k1 k2 → (tracked dir base k2 ∨ faulty env) → faulty env → ∀ e, (Some (Some e), k2) = (Some r, k') →
    later k k' ∧ file_end dir base deadline r k').
  { intros k2 Hl2 Ht2 Hf e [= <- <-]. split; [eapply later_trans; [by apply moves_later|done]|]. split; [right; by right|done]. }
  destruct p as [[]|y].
  - destruct (Read env k1) as [q k2] eqn:Hr. pose proof (Read_later env Hok _ _ _ Hr) as Hl2. pose proof Hr as Hr0.
    apply (Read_spec env Hok dir) in Hr as (_ & _ & Hw2 & Hq); [|done]. destruct q as [got|y].
    + destruct Hq as (a & -> & Ha & Hha & Htr). pose proof (find_event_spec (String.length (concat_events a)) "" a (stale (concat_events a)) base Ha
        (concat_events_length a Ha)) as Hfe. cbn [String.length] in Hfe. cbn [Nat.add] in Hfe.
      change ("" +:+ ?x) with x in Hfe. rewrite Hfe. case_bool_decide as Hb.
      * intros [= <- <-]. split; [eapply later_trans; [by apply moves_later|done]|]. apply list_elem_of_fmap in Hb as (x & -> & Hx2).
        by eapply Forall_forall in Hha.
      * apply Hrec; [done..|]. destruct Ht1' as [Htr1|]; [|by right]. destruct (Htr _ Htr1); [done|by left].
    + assert (Ht2 : tracked dir base k2 ∨ faulty env) by (destruct Ht1'; auto).
      destruct y; [by apply Hrec|by apply Hrec|]. apply Hfail; [done..|]. by eapply Read_fault.
  - destruct (stat env dir base k1) as [sr k2] eqn:Hs. apply (stat_spec env Hok) in Hs as (Hm2 & Hth & _).
    destruct (mv_watch _ _ Hm2 _ Hw1) as [Hw2 Ht2]. destruct (exists_ sr) eqn:Hes.
    + intros [= <- <-]. split; [eapply later_trans; by apply moves_later|]. destruct sr; [by apply Hth|done..].
    + apply Hrec; [by apply moves_later|done|]. destruct Ht1'; auto.
  - destruct y; [apply Hrec; [apply later_refl|done..]|..]; (apply Hfail; [apply later_refl|done|by eapply Poll_fault]).
Qed.

Lemma file_poll_spec fuel dir base deadline backoff k r k' : file_poll env fuel dir base deadline backoff k = (Some r, k') →
  moves k k' ∧ match r with None => here dir base k' | Some _ => gave_up env None deadline k' end.
Proof.
  revert backoff k. induction fuel as [|fuel IH]; intros backoff k; cbn [file_poll]; [done|].
  destruct (k_now k <? deadline) eqn:Hd; [|intros [= <- <-]; split; [done|]; left; lia].
  destruct (ctxErr env None k) as [e|] eqn:Hx; [intros [= <- <-]; split; [done|]; right; left; rewrite Hx; by eexists|].
  destruct (stat env dir base k) as [sr k1] eqn:Hs. apply (stat_spec env Hok) in Hs as (Hm & Hth & _). destruct (exists_ sr) eqn:Hes.
  - intros [= <- <-]. split; [done|]. destruct sr; [by apply Hth|done..].
  - intros [Hm2 Hr]%IH. split; [|done]. etrans; [exact Hm|]. etrans; [|exact Hm2]. by apply Sleep_moves.
Qed.

(** How the wait ends: the file is there, or it gave up, and unless a call failed the file
    was then not there or its event not read. *)
Definition file_outcome (dir base : string) (timeout : Z) (r : option error) (k k' : kernel) : Prop :=
  later k k' ∧ idle k' ∧
  match r with
  | None => here dir base k'
  | Some _ => (∃ deadline, k_now k + timeout ≤ deadline ∧ gave_up env None deadline k') ∧
              (some_fault env ∨ ∃ k0, k' = close_inotify k0 ∧ tracked dir base k0)
  end.

Lemma file_poll_outcome fuel dir base timeout k k1 r k' : later k k1 → idle k1 → some_fault env →
  waitForSysfsFilePoll env fuel dir base timeout k1 = (Some r, k') → file_outcome dir base timeout r k k'.
Proof.
  intros Hl Hi Hf [Hm Hr]%file_poll_spec. destruct (later_idle _ _ Hm Hi) as [Hl2 Hi2].
  split; [by eapply later_trans|]. split; [done|]. destruct r; [|done]. split; [|by left].
  exists (k_now k1 + timeout). destruct Hl. split; [lia|done].
Qed.

Lemma waitForSysfsFile_spec fuel stale dir base timeout k r k' : idle k →
  waitForSysfsFile env fuel stale dir base timeout k = (Some r, k') → file_outcome dir base timeout r k k'.
Proof.
  intros Hi. unfold waitForSysfsFile. destruct (stat env dir base k) as [sr k1] eqn:Hs.
  apply (stat_spec env Hok) in Hs as (Hm1 & Hth & _). destruct (later_idle _ _ Hm1 Hi) as [Hl1 Hi1].
  destruct (exists_ sr) eqn:Hes; [intros [= <- <-]; split_and!; [done..|]; destruct sr; [by apply Hth|done..]|].
  destruct (InotifyInit1 env k1) as [e k2] eqn:Hin. apply init_spec in Hin as [Hm2 Hr]; [|done]. destruct (later_idle _ _ Hm2 Hi1) as [Hl2 Hi2].
  assert (Hl2' : later k k2) by (by eapply later_trans).
  destruct e as [e|]; [by apply file_poll_outcome; [..|apply Hr]|]. clear Hr.
  destruct (InotifyAddWatch env dir k2) as [e k3] eqn:Hwa. apply (watch_spec env Hok) in Hwa as [Hl3 Hr]; [|done].
  assert (Hl3' : later k k3) by (by eapply later_trans). destruct e as [e|].
  - destruct Hr as [Hi3 Hn3]. destruct (waitForSysfsFilePoll env fuel dir base timeout k3) as [r4 k4] eqn:Hp. intros [= -> <-].
    apply (file_poll_outcome _ _ _ _ k) in Hp as (Hl4 & Hi4 & Hb); [|done..]. split; [done|]. split; [done|].
    destruct r; [|exact Hb]. split; [apply Hb|by left].
  - destruct (stat env dir base k3) as [sr3 k4] eqn:Hs3. pose proof Hs3 as Hs30. apply (stat_spec env Hok) in Hs3 as (Hm4 & Hth3 & Hne3).
    assert (Hl4 : later k k4) by (eapply later_trans; [exact Hl3'|by apply moves_later]). destruct (exists_ sr3) eqn:Hes3.
    { intros [= <- <-]. split; [exact (conj (proj1 Hl4) (proj2 Hl4))|]. split; [done|]. destruct sr3; [by apply Hth3|done..]. }
    destruct (file_watch env fuel stale dir base (k_now k4 + timeout) k4) as [r5 k5] eqn:Hfw. intros [= -> <-].
    apply file_watch_spec in Hfw as [Hl5 Hb]; [|by apply (mv_watch _ _ Hm4)|].
    2: { destruct sr3; [done|left; intros ?; by destruct Hne3|right; by eapply stat_fault]. }
    pose proof (later_trans _ _ _ Hl4 Hl5) as Hl6. split; [exact (conj (proj1 Hl6) (proj2 Hl6))|]. split; [done|].
    destruct r; [|done]. destruct Hb as [Hg Htr]. split; [exists (k_now k4 + timeout); destruct Hl4; split; [lia|exact Hg]|].
    destruct Htr as [Htd|(n & x & Hn & _)]; [right; by exists k5|left; exists n; by eexists].
Qed.
End sysfs.

(** ** Switching CPUs *)

Lemma readSysfs_spec env dir base k r k' : honest env → readSysfsValue env dir base k = (r, k') → moves k k' ∧
  match r with
  | Ok v => ∃ c, k_files k' !! (dir, base) = Some c ∧ v = TrimSpace c
  | Err _ => some_fault env ∨ ¬ here dir base k'
  end.
Proof.
  intros Hok. unfold readSysfsValue. destruct (syscall env k) as [f k1] eqn:Hs. pose proof Hs as Hs0. apply syscall_moves in Hs; [|done].
  assert (Hf : ∀ x, f = Some x → some_fault env) by (intros x ->; injection Hs0 as H _; exists (k_calls k); rewrite H; by eexists).
  unfold here. destruct f as [[]|], (k_files k1 !! (dir, base)) as [v|] eqn:Hv; intros [= <- <-]; (split; [exact Hs|]); eauto;
    try (left; by eapply Hf); right; rewrite Hv; by intros [].
Qed.

Lemma writeSysfs_spec env dir base value k e k' : honest env → writeSysfsValue env dir base value k = (e, k') →
  ∃ k1, moves k k1 ∧
  match e with
  | None => k' = k_set_files (<[(dir, base) := value +:+ newline]> (k_files k1)) k1
  | Some _ => k' = k1 ∧ (some_fault env ∨ ¬ here dir base k1)
  end.
Proof.
  intros Hok. unfold writeSysfsValue. destruct (syscall env k) as [f k1] eqn:Hs. pose proof Hs as Hs0. apply syscall_moves in Hs; [|done].
  assert (Hf : ∀ x, f = Some x → some_fault env) by (intros x ->; injection Hs0 as H _; exists (k_calls k); rewrite H; by eexists).
  unfold here. destruct f as [[]|], (k_files k1 !! (dir, base)) as [v|] eqn:Hv; intros [= <- <-]; exists k1; (split; [done|]); try done;
    (split; [done|]); try (left; by eapply Hf); right; rewrite Hv; by intros [].
Qed.

Definition online (cpuID : Z) : string * string := (cpu_dir cpuID, "online").

(** The file named by Sprintf. *)
Lemma online_path cpuID : 0 ≤ cpuID →
  let path := "/sys/devices/system/cpu/cpu" +:+ fmt_d cpuID +:+ "/online" in (Dir path, Base path) = online cpuID.
Proof.
  intros Hn path. set (n := "cpu" +:+ fmt_d cpuID).
  assert (Hns : all_chars (neq_char "/") n = true) by (unfold n; rewrite all_chars_app; apply andb_true_iff; split; [done|by apply fmt_d_plain]).
  assert (Hc : cpu_dir cpuID = "/sys/devices/system/cpu" +:+ String "/" n) by done.
  assert (Hp : path = cpu_dir cpuID +:+ String "/" "online") by (unfold path, cpu_dir; by rewrite <- string_app_assoc).
  assert (Hs : Split (cpu_dir cpuID) "/" = ["" ; "sys"; "devices"; "system"; "cpu"; n]) by (rewrite Hc, Split_snoc by done; done).
  unfold online. rewrite Hp. f_equal.
  - unfold Dir. rewrite Split_snoc, Hs by done. change (rev (["" ; "sys"; "devices"; "system"; "cpu"; n] ++ ["online"]))
      with ("online" :: rev ["" ; "sys"; "devices"; "system"; "cpu"; n]). cbv iota beta. cbn [rev app]. cbv iota.
    change (join_with "/" ["" ; "sys"; "devices"; "system"; "cpu"; n]) with (cpu_dir cpuID). unfold Clean.
    change (cpu_dir cpuID +:+ "/") with (cpu_dir cpuID +:+ String "/" ""). rewrite Split_snoc, Hs by done. done.
  - unfold Base. rewrite Split_snoc, Hs by done. done.
Qed.

(** The files that were there keep their contents. *)
Definition kept (except : string * string → Prop) (k k' : kernel) : Prop :=
  ∀ x v, ¬ except x → k_files k !! x = Some v → k_files k' !! x = Some v.

Lemma later_kept P k k' : later k k' → kept P k k'.
Proof. intros [Hf _] x v _ Hx. by eapply lookup_weaken. Qed.

Lemma kept_trans P k1 k2 k3 : kept P k1 k2 → kept P k2 k3 → kept P k1 k3.
Proof. intros H1 H2 x v Hx Hv. eapply H2, H1; done. Qed.

Lemma stat_present env dir base k r k' : honest env → here dir base k → ¬ some_fault env → stat env dir base k = (r, k') → r = StThere.
Proof.
  intros Hok Hh Hn Hs. pose proof (stat_spec env Hok _ _ _ _ _ Hs) as (Hm & _ & Hne). destruct r as [| |e]; [done| |].
  - destruct Hne; [done|]. by eapply here_mono.
  - destruct Hn. apply stat_fault in Hs as (n & x & Hx & _). exists n. by eexists.
Qed.

(** What follows once the file is there: the value is read, and written if it differs. *)
Definition set_value (env : denv) (dir base value : string) (k : kernel) : option error * kernel :=
  match readSysfsValue env dir base k with
  | (Err e, k) => (Some e, k)
  | (Ok v, k) => if decide (v = value) then (None, k) else writeSysfsValue env dir base value k
  end.

Lemma set_value_spec env dir base value k r k' : honest env → idle k → here dir base k → TrimSpace (value +:+ newline) = value →
  set_value env dir base value k = (r, k') →
  idle k' ∧ kept (λ x, r = None ∧ x = (dir, base)) k k' ∧ (is_Some r → some_fault env) ∧
  (r = None → ∃ v, k_files k' !! (dir, base) = Some v ∧ TrimSpace v = value).
Proof.
  intros Hok Hi Hh Hv. unfold set_value. destruct (readSysfsValue env dir base k) as [v k1] eqn:Hr.
  apply readSysfs_spec in Hr as [Hm Hr]; [|done]. destruct (later_idle _ _ Hm Hi) as [Hl1 Hi1]. destruct v as [v|e].
  - destruct Hr as (x & Hx & ->). case_decide as Hd.
    { intros [= <- <-]. split_and!; [done|by apply later_kept|by intros []|]. intros _. by exists x. }
    destruct (writeSysfsValue env dir base value k1) as [e k2] eqn:Hwr. apply writeSysfs_spec in Hwr as (k3 & Hm3 & He); [|done].
    destruct (later_idle _ _ Hm3 Hi1) as [Hl3 Hi3]. pose proof (later_trans _ _ _ Hl1 Hl3) as Hl. intros [= <- <-]. destruct e as [e|].
    + destruct He as [-> Hf]. split_and!; [done|by apply later_kept| |done]. intros _. destruct Hf as [|Hn]; [done|]. destruct Hn.
      eapply here_mono; [exact Hm3|by exists x].
    + subst k2. split_and!; [done| |by intros []|].
      * intros y u Hy Hu. cbn. rewrite lookup_insert_ne by (intros <-; by destruct Hy). eapply lookup_weaken; [exact Hu|apply Hl].
      * intros _. exists (value +:+ newline). split; [|done]. cbn. by rewrite lookup_insert_eq.
  - intros [= <- <-]. split_and!; [done|by apply later_kept| |done]. intros _. destruct Hr as [|Hn]; [done|]. destruct Hn. by eapply here_mono.
Qed.

(** OnlineCPU ends within the time-out and OfflineCPU at once.  A CPU is reported online
    (or offline) only when its file says so, the boot processor is always online and never
    taken offline, the files of other CPUs are left alone, and a call that fails changes
    nothing.  Without failing calls a CPU that is present is switched. *)
Theorem cpu_switching env c fuel stale cpuID k :
  honest env → takes c env → idle k → sysfsWaitTimeout ≤ c * Z.of_nat fuel →
  (∃ r k', OnlineCPU env (S fuel) stale cpuID k = (Some r, k') ∧ idle k' ∧ kept (λ x, r = None ∧ x = online cpuID) k k' ∧
    (r = None → cpuID = 0 ∨ ∃ v, k_files k' !! online cpuID = Some v ∧ TrimSpace v = sysfsOnline) ∧
    (is_Some (k_files k !! online cpuID) → ¬ some_fault env → r = None)) ∧
  (∃ r k', OfflineCPU env cpuID k = (r, k') ∧ idle k' ∧ kept (λ x, r = None ∧ x = online cpuID) k k' ∧
    (r = None → cpuID ≠ 0 ∧ ∃ v, k_files k' !! online cpuID = Some v ∧ TrimSpace v = sysfsOffline) ∧
    (cpuID ≠ 0 → is_Some (k_files k !! online cpuID) → ¬ some_fault env → r = None)).
Proof.
  intros Hok Hc Hi Hf. split.
  - unfold OnlineCPU. destruct (cpuID =? 0) eqn:H0.
    { eexists _, _. split_and!; [done|apply Hi..|by apply later_kept|left; lia|done]. }
    destruct (waitForSysfsFile_ends env c Hc fuel stale (cpu_dir cpuID) "online" sysfsWaitTimeout k Hf) as (r & k1 & E). rewrite E.
    pose proof (waitForSysfsFile_spec env Hok _ _ _ _ _ _ _ _ Hi E) as (Hl & Hi1 & Hr). destruct r as [e|].
    + eexists _, _. split_and!; [done|apply Hi1..|by apply later_kept|done|]. intros Hh Hn. exfalso. revert E. unfold waitForSysfsFile.
      destruct (stat env (cpu_dir cpuID) "online" k) as [sr k2] eqn:Hs. by rewrite (stat_present _ _ _ _ _ _ Hok Hh Hn Hs).
    + destruct (set_value env (cpu_dir cpuID) "online" sysfsOnline k1) as [r k2] eqn:Hs.
      pose proof (set_value_spec _ _ _ _ _ _ _ Hok Hi1 Hr eq_refl Hs) as (Hi2 & Hk & Hfa & Hv). exists r, k2.
      split_and!; [|apply Hi2..|eapply kept_trans; [by apply later_kept|done]|by right; apply Hv|].
      * revert Hs. unfold set_value. destruct (readSysfsValue _ _ _ _) as [[v|e] k3]; [|by intros [= <- <-]]. case_decide; [by intros [= <- <-]|]. by intros ->.
      * intros _ Hn. destruct r; [|done]. destruct Hn. auto.
  - unfold OfflineCPU. destruct (cpuID =? 0) eqn:H0.
    { eexists _, _. split_and!; [done|apply Hi..|by apply later_kept|done|lia]. }
    destruct (stat env (cpu_dir cpuID) "online" k) as [sr k1] eqn:Hs. pose proof (stat_spec env Hok _ _ _ _ _ Hs) as (Hm & Hth & _).
    destruct (later_idle _ _ Hm Hi) as [Hl Hi1].
    assert (Hno : sr ≠ StThere → is_Some (k_files k !! online cpuID) → ¬ some_fault env → False)
      by (intros Hsr Hh Hn; by apply Hsr, (stat_present _ _ _ _ _ _ Hok Hh Hn Hs)).
    destruct sr as [| |e].
    + destruct (set_value env (cpu_dir cpuID) "online" sysfsOffline k1) as [r k2] eqn:Hsv.
      pose proof (set_value_spec _ _ _ _ _ _ _ Hok Hi1 (Hth eq_refl) eq_refl Hsv) as (Hi2 & Hk & Hfa & Hv). exists r, k2.
      split_and!; [exact Hsv|apply Hi2..|eapply kept_trans; [by apply later_kept|done]|intros Hr; split; [lia|auto]|].
      intros _ _ Hn. destruct r; [|done]. destruct Hn. auto.
    + eexists _, _. split_and!; [done|apply Hi1..|by apply later_kept|done|]. intros _ Hh Hn. by destruct Hno.
    + eexists _, _. split_and!; [done|apply Hi1..|by apply later_kept|done|]. intros _ Hh Hn. by destruct Hno.
Qed.

(** ** Examples *)

Module Sample.
(** Every call takes ten milliseconds; a disk shows up in /sys/block during the second call
    and its node during the eighth; the third CPU shows up during the fifth. *)
Definition ev (name : string) : event := mkEvent (zeros 12) name (16 - String.length name).

Definition script (n : nat) : list kev :=
  KTick 10000000 ::
  match n with
  | 1%nat => [KFile "/sys/block" (ev "vda") EmptyString]
  | 4%nat => [KFile (cpu_dir 2) (ev "online") ("0" +:+ newline)]
  | 7%nat => [KFile "/dev" (ev "tty0") EmptyString; KFile "/dev" (ev "vda") EmptyString]
  | _ => []
  end.

Definition env : denv := mkDenv script (λ _, None) (λ _, None) id.
Definition kernel0 : kernel := mkKernel 0 ∅ None [] 0.

Lemma env_honest : honest env.
Proof. intros n. cbn. do 8 (destruct n as [|n]; [repeat constructor; cbn; lia || done|]). repeat constructor. Qed.

Lemma env_takes : takes 10000000 env.
Proof. split; [lia|]. intros n. cbn. do 8 (destruct n as [|n]; [vm_compute; discriminate|]). vm_compute. discriminate. Qed.

Lemma env_takes_at_most : takes_at_most 10000000 env.
Proof. split; [lia|]. intros n. cbn. do 8 (destruct n as [|n]; [vm_compute; discriminate|]). vm_compute. discriminate. Qed.
End Sample.


Lemma cpu_switching_witness :
  ∃ k', OnlineCPU Sample.env 201 (λ _, EmptyString) 2 Sample.kernel0 = (Some None, k') ∧
    ∃ v, k_files k' !! online 2 = Some v ∧ TrimSpace v = sysfsOnline.
Proof.
  destruct (cpu_switching Sample.env 10000000 200 (λ _, EmptyString) 2 Sample.kernel0 Sample.env_honest Sample.env_takes
    (conj eq_refl eq_refl) ltac:(vm_compute; discriminate)) as [(r & k' & E & _ & _ & Hv & _) _].
  assert (Eb : (OnlineCPU Sample.env 201 (λ _, EmptyString) 2 Sample.kernel0).1 = Some None) by (vm_compute; reflexivity).
  rewrite E in Eb. injection Eb as ->. exists k'. split; [exact E|]. by destruct (Hv eq_refl).
Defined.
