(* ===== verification/Volume.v ===== *)
(** The disks of a host's VMs: internal/host/volume/fs.go and volume.go.

    The file system has a live state, which other processes see at once, and what a loss
    of power leaves: the directory entries on disk with any of the operations since the
    last sync of the directory, and of each file the bytes of its last sync.  Every system
    call leaves its state in a history, so that a theorem can speak of each moment of a
    call.  What the calls answer is the environment's; the qcow package of the storage
    module, which creates the chains, is a parameter. *)
From S2P Require Import Prelude GoStrings GoText GoState.
From stdpp Require Import sorting.
From Stdlib Require Import Ascii.

(** ** The file system *)

Record inode := mkInode {
  i_data : string;
  i_durable : option string;     (** the bytes a crash leaves, when they are known *)
  i_mode : Z
}.

(** Directory operations that are not on disk yet. *)
Inductive dop :=
  | DLink (name : string) (i : nat)
  | DUnlink (name : string)
  | DRename (old new : string) (i : nat).

Record vfs := mkVfs {
  v_inodes : list inode;
  v_dir : gmap string nat;
  v_disk : gmap string nat;
  v_pending : list dop
}.

Definition apply_op (m : gmap string nat) (o : dop) : gmap string nat :=
  match o with
  | DLink name i => <[name := i]> m
  | DUnlink name => delete name m
  | DRename old new i => <[new := i]> (delete old m)
  end.

(** The directory an operation is made durable with: a rename with the one it renames
    into. *)
Definition in_dir (d : string) (o : dop) : Prop :=
  match o with
  | DLink n _ | DUnlink n | DRename _ n _ => Dir n = d
  end.

#[export] Instance in_dir_dec d o : Decision (in_dir d o).
Proof. destruct o; cbn; apply _. Defined.

Definition live (s : vfs) (path : string) : option string := i ← v_dir s !! path; n ← v_inodes s !! i; Some (i_data n).

(** The operations a crash happens to keep. *)
Fixpoint kept_ops (keep : list bool) (l : list dop) : list dop :=
  match keep, l with
  | true :: keep', o :: l' => o :: kept_ops keep' l'
  | false :: keep', _ :: l' => kept_ops keep' l'
  | _, _ => []
  end.

(** What is read after a crash; [junk] are the bytes of files that were not synced. *)
Definition crashed (keep : list bool) (junk : nat → string) (s : vfs) (path : string) : option string :=
  i ← foldl apply_op (v_disk s) (kept_ops keep (v_pending s)) !! path;
  n ← v_inodes s !! i;
  Some (default (junk i) (i_durable n)).

Record vworld := mkVw { w_fs : vfs; w_hist : list vfs }.

(** A system call on the file system. *)
Definition call {A} (f : vfs → res A * vfs) : ST vworld A :=
  λ w, let '(r, s) := f (w_fs w) in (r, mkVw s (w_hist w ++ [s])).

Record venv := mkVenv {
  ve_rand : nat → Z;                      (** the numbers CreateTemp tries *)
  ve_create : option error;
  ve_write : option (nat * error);        (** the bytes written before the error *)
  ve_sync : option error;
  ve_close : option error;
  ve_chmod : option error;
  ve_rename : option error;
  ve_opendir : option error;
  ve_dirsync : option error;
  ve_remove : option error;
  ve_mkdir : string → option error;
  ve_stat : string → option error;        (** an error of stat other than a missing file *)
  ve_read : string → option error;
  ve_readdir : string → option (res (list string))      (** [None]: it does not exist *)
}.

Definition not_exist : error := mkError ErrNotFound "no such file or directory".
Definition exists_err : error := errorf "file exists".
Definition has_separator : error := errorf "pattern contains path separator".

Section volume.
Context (env : venv).

Definition put_inode (i : nat) (f : inode → inode) (s : vfs) : vfs :=
  mkVfs (alter f i (v_inodes s)) (v_dir s) (v_disk s) (v_pending s).
Definition dir_op (o : dop) (s : vfs) : vfs :=
  mkVfs (v_inodes s) (apply_op (v_dir s) o) (v_disk s) (v_pending s ++ [o]).

(** os.CreateTemp: up to 10000 names, each opened with O_EXCL. *)
Definition temp_tries : nat := 100 * 100.
Definition temp_name (dir prefix : string) (k : nat) : string :=
  (if HasSuffix dir "/" then dir else dir +:+ "/") +:+ prefix +:+ fmt_d (uint32_wrap (ve_rand env k)).

Fixpoint create_temp (fuel k : nat) (dir prefix : string) (s : vfs) : res (string * nat) * vfs :=
  match fuel with
  | O => (Err exists_err, s)
  | S fuel' =>
      let name := temp_name dir prefix k in
      if decide (is_Some (v_dir s !! name)) then create_temp fuel' (S k) dir prefix s
      else match ve_create env with
           | Some e => (Err e, s)
           | None =>
               let i := length (v_inodes s) in
               (Ok (name, i), dir_op (DLink name i) (mkVfs (v_inodes s ++ [mkInode EmptyString None 384]) (v_dir s) (v_disk s) (v_pending s)))
           end
  end.

Definition CreateTemp (dir prefix : string) : ST vworld (string * nat) :=
  if ContainsAny prefix "/" then fail has_separator else call (create_temp temp_tries 0 dir prefix).

Definition f_Write (i : nat) (data : string) : ST vworld () := call (λ s,
  match ve_write env with
  | None => (Ok tt, put_inode i (λ n, mkInode (i_data n +:+ data) None (i_mode n)) s)
  | Some (k, e) => (Err e, put_inode i (λ n, mkInode (i_data n +:+ str_take k data) None (i_mode n)) s)
  end).

Definition answer {A} (e : option error) (a : A) (s s' : vfs) : res A * vfs :=
  match e with None => (Ok a, s') | Some e => (Err e, s) end.

Definition f_Sync (i : nat) : ST vworld () := call (λ s,
  answer (ve_sync env) tt s (put_inode i (λ n, mkInode (i_data n) (Some (i_data n)) (i_mode n)) s)).
Definition f_Close : ST vworld () := call (λ s, answer (ve_close env) tt s s).

Definition os_Chmod (name : string) (mode : Z) : ST vworld () := call (λ s,
  match v_dir s !! name with
  | None => (Err not_exist, s)
  | Some i => answer (ve_chmod env) tt s (put_inode i (λ n, mkInode (i_data n) (i_durable n) mode) s)
  end).

Definition os_Rename (old new : string) : ST vworld () := call (λ s,
  match v_dir s !! old with
  | None => (Err not_exist, s)
  | Some i => answer (ve_rename env) tt s (dir_op (DRename old new i) s)
  end).

Definition os_Remove (name : string) : ST vworld () := call (λ s,
  match v_dir s !! name with
  | None => (Err not_exist, s)
  | Some _ => answer (ve_remove env) tt s (dir_op (DUnlink name) s)
  end).

(** Syncing a directory writes the operations on its entries. *)
Definition dir_Sync (d : string) : ST vworld () := call (λ s,
  answer (ve_dirsync env) tt s
    (mkVfs (v_inodes s) (v_dir s) (foldl apply_op (v_disk s) (filter (in_dir d) (v_pending s))) (filter (λ o, ¬ in_dir d o) (v_pending s)))).

(** ** fs.go *)

Definition syncDir (dir : string) : ST vworld () :=
  wrapping ("opening " +:+ dir +:+ " to sync it") (call (λ s, answer (ve_opendir env) tt s s)) ;;!
  wrapping ("syncing " +:+ dir) (dir_Sync dir).

(** [defer func() { _ = f() }()] *)
Definition deferred {A} (f : ST vworld ()) (m : ST vworld A) : ST vworld A :=
  λ w, let '(r, w') := m w in (r, (f w').2).

(** [if err := m(); err != nil { _ = tmp.Close(); return err }] *)
Definition or_close {A} (m : ST vworld A) : ST vworld A := on_error m f_Close.

Definition WriteAtomic (path data : string) : ST vworld () :=
  let dir := Dir path in
  do! tmp := wrapping ("creating a temporary file beside " +:+ path) (CreateTemp dir ("." +:+ Base path +:+ ".")) in
  deferred (os_Remove tmp.1)
   (or_close (wrapping ("writing " +:+ tmp.1) (f_Write tmp.2 data)) ;;!
    or_close (wrapping ("syncing " +:+ tmp.1) (f_Sync tmp.2)) ;;!
    wrapping ("closing " +:+ tmp.1) f_Close ;;!
    wrapping ("setting the mode of " +:+ tmp.1) (os_Chmod tmp.1 420) ;;!
    wrapping ("renaming " +:+ tmp.1 +:+ " into place as " +:+ path) (os_Rename tmp.1 path) ;;!
    syncDir dir).

Definition MkdirAll (dir : string) : option error :=
  match ve_mkdir env dir with Some e => Some (wrap ("creating " +:+ dir) e) | None => None end.

(** os.Stat of a file. *)
Definition os_Stat (path : string) (s : vfs) : res inode :=
  match ve_stat env path with
  | Some e => Err e
  | None => match v_dir s !! path with
            | None => Err not_exist
            | Some i => match v_inodes s !! i with None => Err not_exist | Some n => Ok n end
            end
  end.

Definition IsNotExist (e : error) : bool := bool_decide (ekind e = ErrNotFound).

Definition Exists (path : string) (s : vfs) : res bool :=
  match os_Stat path s with
  | Ok _ => Ok true
  | Err e => if IsNotExist e then Ok false else Err (wrap ("checking " +:+ path) e)
  end.

Definition Size (path : string) (s : vfs) : res Z :=
  match os_Stat path s with
  | Ok n => Ok (Z.of_nat (String.length (i_data n)))
  | Err e => Err (wrap ("sizing " +:+ path) e)
  end.

Definition ReadFile (path : string) (s : vfs) : res string :=
  match (match ve_read env path with
         | Some e => Err e
         | None => match live s path with None => Err not_exist | Some d => Ok d end
         end) with
  | Ok d => Ok d
  | Err e => Err (wrap ("reading " +:+ path) e)
  end.

Definition List_ (dir : string) : res (list string) :=
  match ve_readdir env dir with
  | None => Ok []
  | Some (Err e) => Err (wrap ("listing " +:+ dir) e)
  | Some (Ok entries) => Ok (merge_sort String.le entries)
  end.

Definition Rename (oldPath newPath : string) : ST vworld () :=
  wrapping ("renaming " +:+ oldPath +:+ " to " +:+ newPath) (os_Rename oldPath newPath).

Definition Remove (path : string) : ST vworld () := λ w,
  match os_Remove path w with
  | (Err e, w') => if IsNotExist e then (Ok tt, w') else (Err (wrap ("removing " +:+ path) e), w')
  | x => x
  end.
End volume.

(** What a finished program answers: its output, or its failure with what it wrote to
    standard error. *)
Definition Run (out : string + (error * option string)) (name : string) (args : string) : res string :=
  match out with
  | inl o => Ok o
  | inr (e, Some stderr) =>
      if decide (stderr = EmptyString) then Err (wrap (Base name +:+ " " +:+ args) e)
      else Err (mkError (ekind e) (Base name +:+ " " +:+ args +:+ ": " +:+ emsg e +:+ ": " +:+ stderr))
  | inr (e, None) => Err (wrap (Base name +:+ " " +:+ args) e)
  end.

(** ** volume.go *)

Record Restored := mkRestored { r_Base : string; r_VirtualSize : Z }.

(** [fromBase], the qcow.Recovery of this host. *)
Definition RestoreFrom (base : string) (sizeBytes : Z) : res Restored := Ok (mkRestored base sizeBytes).
Definition Current (errNoHistory : error) (volumeID : string) : res string :=
  Err (wrap ("volume " +:+ volumeID +:+ ": this host publishes nowhere") errNoHistory).

Record Store := mkStore { st_root : string; st_base : string; st_qemuImg : string }.
Definition New (dir base qemuImg : string) : Store := mkStore dir base qemuImg.

Record OpenRequest := mkOpenRequest {
  q_Root : string;
  q_VolumeID : string;
  q_SizeBytes : Z;
  q_NewLayerID : string;
  q_Recovery : Z → res Restored
}.
Record chain := mkChain { ch_Active : string; ch_SizeBytes : Z }.
Record Disk := mkDisk { d_Image : string; d_Pointer : string; d_QMPSocket : string; d_SizeBytes : Z }.

Section open.
Context {W : Type} (qcow_Open : string → OpenRequest → ST W chain) (ActivePointer QMPSocket : string → string → string).

Definition Open (s : Store) (vmID : string) (sizeBytes : Z) : ST W Disk :=
  if decide (vmID = "") then fail (errorf "a volume needs an id")
  else if (sizeBytes <=? 0)%Z then fail (errorf ("volume " +:+ vmID +:+ " has a size of " +:+ fmt_d sizeBytes +:+ " bytes"))
  else
    do! c := wrapping ("opening the chain for " +:+ vmID)
      (qcow_Open (st_qemuImg s) (mkOpenRequest (st_root s) vmID sizeBytes vmID (RestoreFrom (st_base s)))) in
    ret (mkDisk (ch_Active c) (ActivePointer (st_root s) vmID) (QMPSocket (st_root s) vmID) (ch_SizeBytes c)).
End open.

(** ** Every moment of a write *)

Section atomic.
Context (env : venv) (path data : string) (old : option string).

(** An entry that holds the old or the new contents, on disk. *)
Definition entry_ok (s : vfs) (e : option nat) : Prop :=
  match e with
  | None => old = None
  | Some i => ∃ n, v_inodes s !! i = Some n ∧ i_durable n = Some (i_data n) ∧ (old = Some (i_data n) ∨ i_data n = data)
  end.

Definition op_ok (s : vfs) (o : dop) : Prop :=
  match o with
  | DLink n _ | DUnlink n => n ≠ path
  | DRename a b i => a ≠ path ∧ (b = path → entry_ok s (Some i))
  end.

(** At this moment the path holds the old or the new contents, live and after a crash. *)
Definition inv (s : vfs) : Prop :=
  entry_ok s (v_dir s !! path) ∧ entry_ok s (v_disk s !! path) ∧ Forall (op_ok s) (v_pending s).

Definition intact (s : vfs) : Prop :=
  (live s path = old ∨ live s path = Some data) ∧
  ∀ keep junk, crashed keep junk s path = old ∨ crashed keep junk s path = Some data.

Lemma apply_entry s m o : op_ok s o → entry_ok s (m !! path) → entry_ok s (apply_op m o !! path).
Proof.
  destruct o as [n i|n|a b i]; cbn [op_ok apply_op].
  - intros ? ?. by rewrite lookup_insert_ne.
  - intros ? ?. by rewrite lookup_delete_ne.
  - intros [Ha Hb] He. destruct (decide (b = path)) as [->|Hn]; [rewrite lookup_insert_eq; auto|].
    by rewrite lookup_insert_ne, lookup_delete_ne.
Qed.

Lemma apply_entries s m l : Forall (op_ok s) l → entry_ok s (m !! path) → entry_ok s (foldl apply_op m l !! path).
Proof. intros Hl. revert m. induction Hl as [|o l Ho Hl IH]; intros m Hm; [done|]. cbn. by apply IH, apply_entry. Qed.

Lemma kept_ops_ok s keep l : Forall (op_ok s) l → Forall (op_ok s) (kept_ops keep l).
Proof. intros Hl. revert keep. induction Hl as [|o l Ho Hl IH]; intros [|[] keep]; cbn; try done. by constructor. Qed.

Lemma inv_intact s : inv s → intact s.
Proof.
  intros (Hd & Hk & Hp). split.
  - unfold live. destruct (v_dir s !! path) as [i|]; cbn in *; [|by left]. destruct Hd as (n & -> & _ & Hn). cbn. destruct Hn as [-> | ->]; auto.
  - intros keep junk. unfold crashed. pose proof (apply_entries s (v_disk s) _ (kept_ops_ok s keep _ Hp) Hk) as He.
    destruct (foldl apply_op (v_disk s) (kept_ops keep (v_pending s)) !! path) as [i|]; cbn in *; [|by left].
    destruct He as (n & -> & Hdu & Hn). cbn. rewrite Hdu. cbn. destruct Hn as [-> | ->]; auto.
Qed.

(** A file the path does not name, now or after a crash. *)
Definition apart (i : nat) (s : vfs) : Prop :=
  v_dir s !! path ≠ Some i ∧ v_disk s !! path ≠ Some i ∧ Forall (λ o, match o with DRename _ b j => b = path → j ≠ i | _ => True end) (v_pending s).

Lemma entry_put i f s e : e ≠ Some i → entry_ok s e → entry_ok (put_inode i f s) e.
Proof.
  destruct e as [j|]; [|done]. intros Hne (n & Hn & Hr). exists n. cbn. split; [|done]. by rewrite list_lookup_alter_ne by congruence.
Qed.

Lemma inv_put i f s : apart i s → inv s → inv (put_inode i f s).
Proof.
  intros (A1 & A2 & A3) (I1 & I2 & I3). split_and!; [by apply entry_put..|]. cbn. apply Forall_forall. intros o Ho.
  pose proof (proj1 (Forall_forall _ _) I3 o Ho) as Hok. pose proof (proj1 (Forall_forall _ _) A3 o Ho) as Ha.
  destruct o as [n j|n|a b j]; cbn [op_ok] in *; [done..|]. destruct Hok as [? Hb]. split; [done|]. intros Hbp. apply entry_put; [|auto].
  intros [= ->]. by apply Ha.
Qed.

Lemma apart_put i j f s : apart i s → apart i (put_inode j f s).
Proof. done. Qed.

Lemma inv_op o s : op_ok s o → inv s → inv (dir_op o s).
Proof.
  intros Ho (I1 & I2 & I3). split_and!; [by apply apply_entry|done|]. apply Forall_app. split; [done|]. by apply Forall_singleton.
Qed.

Lemma inv_sync d s : inv s →
  inv (mkVfs (v_inodes s) (v_dir s) (foldl apply_op (v_disk s) (filter (in_dir d) (v_pending s))) (filter (λ o, ¬ in_dir d o) (v_pending s))).
Proof.
  intros (I1 & I2 & I3). assert (HF : ∀ (P : dop → Prop) `{∀ o, Decision (P o)}, Forall (op_ok s) (filter P (v_pending s))).
  { intros P HP. apply Forall_forall. intros o [_ Ho]%list_elem_of_filter. by eapply Forall_forall in I3. }
  split_and!; [done| |exact (HF _ _)]. cbn. by apply (apply_entries s).
Qed.

(** The steps of the write: what a call gives from what was there, at every moment of it. *)
Definition hinv (w : vworld) : Prop := inv (w_fs w) ∧ Forall inv (w_hist w).

Definition triple {A} (F : vfs → Prop) (m : ST vworld A) (G : res A → vfs → Prop) : Prop :=
  ∀ w, hinv w → F (w_fs w) → hinv (m w).2 ∧ G (m w).1 (w_fs (m w).2).

Lemma triple_call {A} F (f : vfs → res A * vfs) (G : res A → vfs → Prop) :
  (∀ s, inv s → F s → inv (f s).2 ∧ G (f s).1 (f s).2) → triple F (call f) G.
Proof.
  intros H w [Hi Hh] HF. unfold call. destruct (f (w_fs w)) as [r s'] eqn:E. destruct (H (w_fs w) Hi HF) as [H1 H2]. rewrite E in H1, H2.
  split; [|done]. split; [done|]. cbn. apply Forall_app. split; [done|]. by apply Forall_singleton.
Qed.

Lemma triple_bind {A B} F (m : ST vworld A) (k : A → ST vworld B) G H :
  triple F m G → (∀ a, triple (G (Ok a)) (k a) H) → (∀ e s, G (Err e) s → H (Err e) s) → triple F (bind m k) H.
Proof.
  intros Hm Hk He w Hw HF. unfold bind. destruct (Hm w Hw HF) as [H1 H2]. destruct (m w) as [[a|e] w']; cbn in *; [|auto]. by apply Hk.
Qed.

Lemma triple_wrapping {A} F msg (m : ST vworld A) (G : res A → vfs → Prop) :
  triple F m G → (∀ e s, G (Err e) s → G (Err (wrap msg e)) s) → triple F (wrapping msg m) G.
Proof. intros Hm He w Hw HF. unfold wrapping. destruct (Hm w Hw HF) as [H1 H2]. destruct (m w) as [[a|e] w']; cbn in *; auto. Qed.

Lemma triple_or_close {A} env' F (m : ST vworld A) (G : res A → vfs → Prop) : triple F m G → triple F (or_close env' m) G.
Proof.
  intros Hm w Hw HF. unfold or_close, on_error. destruct (Hm w Hw HF) as [[H1 H1'] H2]. destruct (m w) as [[a|e] w']; cbn in *; [done|].
  unfold f_Close, call, answer. destruct (ve_close env'); cbn; (split; [|exact H2]); (split; [exact H1|]); apply Forall_app; split; auto; by apply Forall_singleton.
Qed.

Context (t : string) (i : nat) (Htp : t ≠ path).

Definition avoids (o : dop) : Prop :=
  match o with DLink n _ | DUnlink n => n ≠ path | DRename a b _ => a ≠ path ∧ b ≠ path end.

(** No operation that is not on disk touches the path. *)
Definition untouched (s : vfs) : Prop := Forall avoids (v_pending s).

Definition temp_has (P : inode → Prop) (s : vfs) : Prop :=
  apart i s ∧ untouched s ∧ v_dir s !! t = Some i ∧ ∃ n, v_inodes s !! i = Some n ∧ P n.

Definition written (n : inode) : Prop := i_data n = data ∧ i_durable n = Some data.

Definition placed (s : vfs) : Prop :=
  v_dir s !! path = Some i ∧ v_dir s !! t = None ∧ ∃ n, v_inodes s !! i = Some n ∧ written n.

Definition renamed (s : vfs) : Prop := placed s ∧ ∃ p, v_pending s = p ++ [DRename t path i] ∧ Forall avoids p.

(** The path holds the new contents, also after any crash. *)
Definition landed (s : vfs) : Prop := placed s ∧ v_disk s !! path = Some i ∧ untouched s.

Definition on_ok {A} (G : vfs → Prop) (r : res A) (s : vfs) : Prop := match r with Ok _ => G s | Err _ => True end.

Lemma temp_put P Q f s : temp_has P s → (∀ n, P n → Q (f n)) → temp_has Q (put_inode i f s).
Proof.
  intros (Ha & Hu & Hd & n & Hn & HP) HQ. split_and!; [done..|]. exists (f n). cbn. split; [|auto]. by rewrite list_lookup_alter_eq, Hn.
Qed.

Lemma write_step : triple (temp_has (λ n, i_data n = EmptyString)) (f_Write env i data) (on_ok (temp_has (λ n, i_data n = data))).
Proof.
  apply triple_call. intros s Hi HF. destruct (ve_write env) as [[k e]|]; cbn; (split; [apply inv_put; [apply HF|done]|]); [done|].
  eapply temp_put; [exact HF|]. intros n Hn. cbn in *. by rewrite Hn.
Qed.

Lemma sync_step : triple (temp_has (λ n, i_data n = data)) (f_Sync env i) (on_ok (temp_has written)).
Proof.
  apply triple_call. intros s Hi HF. unfold answer. destruct (ve_sync env); cbn; [done|]. split; [apply inv_put; [apply HF|done]|].
  eapply temp_put; [exact HF|]. intros n Hn. split; cbn in *; congruence.
Qed.

Lemma close_step F : triple F (f_Close env) (on_ok F).
Proof. apply triple_call. intros s Hi HF. unfold answer. by destruct (ve_close env). Qed.

Lemma chmod_step mode : triple (temp_has written) (os_Chmod env t mode) (on_ok (temp_has written)).
Proof.
  apply triple_call. intros s Hi HF. pose proof HF as (Ha & _ & Hd & _). rewrite Hd. unfold answer. destruct (ve_chmod env); cbn; [done|].
  split; [by apply inv_put|]. eapply temp_put; [exact HF|]. by intros n [? ?].
Qed.

Lemma rename_step : triple (temp_has written) (os_Rename env t path) (on_ok renamed).
Proof.
  apply triple_call. intros s Hi (Ha & Hu & Hd & n & Hn & Hdat & Hdur). rewrite Hd. unfold answer. destruct (ve_rename env); cbn; [done|].
  assert (He : entry_ok s (Some i)) by (exists n; split_and!; [done|congruence|by right]).
  split; [by apply inv_op|]. split; [|by exists (v_pending s)]. split_and!; cbn.
  - by rewrite lookup_insert_eq.
  - by rewrite lookup_insert_ne, lookup_delete_eq by done.
  - by exists n.
Qed.

Lemma untouched_foldl m l : Forall avoids l → foldl apply_op m l !! path = m !! path.
Proof.
  intros Hl. revert m. induction Hl as [|o l Ho Hl IH]; intros m; [done|]. cbn. rewrite IH. destruct o as [n j|n|a b j]; cbn.
  - by rewrite lookup_insert_ne.
  - by rewrite lookup_delete_ne.
  - destruct Ho. by rewrite lookup_insert_ne, lookup_delete_ne.
Qed.

Lemma dirsync_step : triple renamed (syncDir env (Dir path)) (on_ok landed).
Proof.
  apply (triple_bind _ _ _ (on_ok renamed));
    [apply triple_wrapping; [apply triple_call; intros s Hi HF; unfold answer; by destruct (ve_opendir env)|done]| |done].
  intros []. apply triple_wrapping; [|done]. apply triple_call. intros s Hi (Hpl & p & Hp & Hu). unfold answer. destruct (ve_dirsync env); cbn [fst snd on_ok]; [done|].
  split; [by apply inv_sync|]. split; [done|].
  assert (E1 : filter (in_dir (Dir path)) [DRename t path i] = [DRename t path i]) by (by rewrite filter_cons_True).
  assert (E2 : filter (λ o, ¬ in_dir (Dir path) o) [DRename t path i] = []) by (rewrite filter_cons_False by (cbn; tauto); done).
  unfold untouched. cbn [v_disk v_pending]. rewrite Hp, !filter_app, foldl_app, E1, E2, app_nil_r. split.
  - cbn. by rewrite lookup_insert_eq.
  - apply Forall_forall; intros o [_ Ho]%list_elem_of_filter; by eapply Forall_forall in Hu.
Qed.
End atomic.

(** ** Replacing a file *)

(** A file whose state is on disk: no change to its entry is pending, and its bytes are
    synced. *)
Definition settled (path : string) (s : vfs) : Prop :=
  v_disk s !! path = v_dir s !! path ∧ untouched path s ∧
  ∀ i, v_dir s !! path = Some i → ∃ n, v_inodes s !! i = Some n ∧ i_durable n = Some (i_data n).

Lemma settled_inv path data s : settled path s → inv path data (live s path) s.
Proof.
  intros (Hd & Hu & Hi). assert (He : entry_ok data (live s path) s (v_dir s !! path)).
  { unfold live. destruct (v_dir s !! path) as [i|]; [|done]. destruct (Hi i eq_refl) as (n & Hn & Hdu). exists n. cbn. rewrite Hn. auto. }
  split_and!; [done|by rewrite Hd|]. eapply Forall_impl; [exact Hu|]. intros [n i|n|a b i]; cbn; [done..|]. intros [? ?]. split; [done|]. by intros ->.
Qed.

Lemma temp_name_not_path env path k : ContainsAny ("." +:+ Base path +:+ ".") "/" = false →
  temp_name env (Dir path) ("." +:+ Base path +:+ ".") k ≠ path.
Proof.
  intros Hs%(ContainsAny_false _ _ "/"%char); [|done]. unfold temp_name. set (r := fmt_d _). set (pre := "." +:+ Base path +:+ ".") in *.
  assert (Hr : all_chars (neq_char "/") (pre +:+ r) = true)
    by (rewrite all_chars_app, Hs; cbn; apply fmt_d_plain; unfold uint32_wrap, two32; apply Z.mod_pos_bound; lia).
  assert (Hb : ∀ d, Base (d +:+ String "/" (pre +:+ r)) = pre +:+ r) by (intros d; apply Base_snoc; [done|exact Hr]).
  assert (Hp : ∃ d, (if HasSuffix (Dir path) "/" then Dir path else Dir path +:+ "/") +:+ pre +:+ r = d +:+ String "/" (pre +:+ r)).
  { destruct (HasSuffix (Dir path) "/") eqn:Hsu.
    - apply HasSuffix_app in Hsu as [p ->]. exists p. by rewrite <- string_app_assoc.
    - exists (Dir path). by rewrite <- string_app_assoc. }
  destruct Hp as [d ->]. intros E. specialize (Hb d). rewrite E in Hb. apply (f_equal String.length) in Hb.
  unfold pre in Hb. rewrite !str_length_app in Hb. cbn in Hb. lia.
Qed.

Lemma create_temp_spec env fuel k dir prefix s r s' : create_temp env fuel k dir prefix s = (r, s') →
  match r with
  | Err _ => s' = s
  | Ok (t, i) => (∃ j, t = temp_name env dir prefix j) ∧ v_dir s !! t = None ∧ i = length (v_inodes s) ∧
      s' = dir_op (DLink t i) (mkVfs (v_inodes s ++ [mkInode EmptyString None 384]) (v_dir s) (v_disk s) (v_pending s))
  end.
Proof.
  revert k. induction fuel as [|fuel IH]; intros k; cbn [create_temp]; [by intros [= <- <-]|]. case_decide as Hd; [apply IH|].
  destruct (ve_create env); intros [= <- <-]; [done|]. split_and!; [by exists k|by apply eq_None_not_Some|done..].
Qed.

(** Making the temporary file: every moment is as before, and the file is empty and not the
    one that is replaced. *)
Lemma CreateTemp_spec env path data w r w' : settled path (w_fs w) → w_hist w = [] →
  CreateTemp env (Dir path) ("." +:+ Base path +:+ ".") w = (r, w') →
  match r with
  | Err _ => w_fs w' = w_fs w ∧ Forall (inv path data (live (w_fs w) path)) (w_hist w')
  | Ok (t, i) => t ≠ path ∧ v_dir (w_fs w) !! t = None ∧ hinv path data (live (w_fs w) path) w' ∧
      temp_has path t i (λ n, i_data n = EmptyString) (w_fs w') ∧
      (∀ p, p ≠ t → v_dir (w_fs w') !! p = v_dir (w_fs w) !! p) ∧
      (∀ j n, v_inodes (w_fs w) !! j = Some n → v_inodes (w_fs w') !! j = Some n)
  end.
Proof.
  intros Hs Hh. unfold CreateTemp. pose proof (settled_inv path data _ Hs) as Hi.
  destruct (ContainsAny _ "/") eqn:Hc; [intros [= <- <-]; by rewrite Hh|].
  unfold call. destruct (create_temp env temp_tries 0 _ _ (w_fs w)) as [q s1] eqn:E. intros [= <- <-]. cbn [w_fs w_hist]. rewrite Hh.
  apply create_temp_spec in E. destruct q as [[t i]|e]; [|subst s1; split; [done|by apply Forall_singleton]].
  destruct E as ((j & ->) & Hn & -> & ->). pose proof (temp_name_not_path env path j Hc) as Htp. set (t := temp_name _ _ _ _) in *.
  set (s0 := w_fs w) in *. set (s1 := dir_op _ _).
  assert (Hent : ∀ e, entry_ok data (live s0 path) s0 e → entry_ok data (live s0 path) s1 e).
  { intros [j'|]; [|done]. intros (n & Hj & Hr). exists n. split; [|done]. cbn. by apply lookup_app_l_Some. }
  assert (Hi1 : inv path data (live s0 path) s1).
  { destruct Hi as (I1 & I2 & I3). apply inv_op; [done|]. split_and!; [by apply Hent..|]. eapply Forall_impl; [exact I3|].
    intros [n j'|n|a b j']; cbn; [done..|]. intros [? Hb]. split; [done|]. intros Hbp. exact (Hent (Some j') (Hb Hbp)). }
  assert (Hlt : ∀ e, entry_ok data (live s0 path) s0 e → e ≠ Some (length (v_inodes s0))).
  { intros e He ->. destruct He as (n & Hl & _). apply lookup_lt_Some in Hl. lia. }
  destruct Hi as (I1 & I2 & I3). destruct Hs as (_ & Hu & _).
  split_and!; [done|done|split; [done|by apply Forall_singleton]| | |].
  - split; [split_and!; cbn|split_and!; cbn].
    + rewrite lookup_insert_ne by done. by apply Hlt.
    + by apply Hlt.
    + apply Forall_app. split; [|by apply Forall_singleton]. eapply Forall_impl; [exact Hu|]. intros [ | |a b j']; cbn; [done..|]. by intros [_ ?] ?.
    + apply Forall_app. split; [done|]. by apply Forall_singleton.
    + by rewrite lookup_insert_eq.
    + exists (mkInode EmptyString None 384). split; [|done]. rewrite lookup_app_r, Nat.sub_diag by lia. done.
  - intros p Hp. cbn. by rewrite lookup_insert_ne.
  - intros j' n Hj. cbn. by apply lookup_app_l_Some.
Qed.

(** The names a call leaves alone. *)
Definition spares (path t : string) (w w' : vworld) : Prop :=
  ∀ p, p ≠ path → p ≠ t → v_dir (w_fs w') !! p = v_dir (w_fs w) !! p.

#[export] Instance spares_pre path t : PreOrder (spares path t).
Proof. split; [by intros w p|]. intros a b c H1 H2 p Hp Ht. by rewrite H2, H1. Qed.

Lemma spares_call {A} path t (f : vfs → res A * vfs) :
  (∀ s p, p ≠ path → p ≠ t → v_dir (f s).2 !! p = v_dir s !! p) → preserves (spares path t) (call f).
Proof. intros H w p Hp Ht. unfold call. specialize (H (w_fs w) p Hp Ht). by destruct (f (w_fs w)). Qed.

Section body.
Context (env : venv) (path data : string) (t : string) (i : nat).

(** The part of WriteAtomic that the removal of the temporary file is deferred after. *)
Definition write_body : ST vworld () :=
  or_close env (wrapping ("writing " +:+ t) (f_Write env i data)) ;;!
  or_close env (wrapping ("syncing " +:+ t) (f_Sync env i)) ;;!
  wrapping ("closing " +:+ t) (f_Close env) ;;!
  wrapping ("setting the mode of " +:+ t) (os_Chmod env t 420) ;;!
  wrapping ("renaming " +:+ t +:+ " into place as " +:+ path) (os_Rename env t path) ;;!
  syncDir env (Dir path).

Lemma write_body_spares : preserves (spares path t) write_body.
Proof.
  unfold write_body, or_close, syncDir. repeat (apply preserves_bind; [apply _| |intros []]); repeat (apply preserves_on_error || apply preserves_wrapping);
    try apply _; unfold f_Write, f_Sync, f_Close, os_Chmod, os_Rename, dir_Sync; apply spares_call; intros s p Hp Ht; unfold answer;
    repeat case_match; try done; cbn; by rewrite lookup_insert_ne, lookup_delete_ne.
Qed.

Lemma write_body_spec old : t ≠ path → triple path data old (temp_has path t i (λ n, i_data n = EmptyString)) write_body (on_ok (landed path data t i)).
Proof.
  intros Htp. unfold write_body.
  eapply triple_bind; [apply triple_or_close, triple_wrapping; [by apply write_step|done]|intros []|done].
  eapply triple_bind; [apply triple_or_close, triple_wrapping; [by apply sync_step|done]|intros []|done].
  eapply triple_bind; [apply triple_wrapping; [by apply close_step|done]|intros []|done].
  eapply triple_bind; [apply triple_wrapping; [by apply chmod_step|done]|intros []|done].
  eapply triple_bind; [apply triple_wrapping; [by apply rename_step|done]|intros []|done].
  by apply dirsync_step.
Qed.
End body.

(** The deferred removal: it keeps every moment as it was, and takes the file away. *)
Lemma remove_temp env path data old t w : t ≠ path → hinv path data old w →
  let w' := (os_Remove env t w).2 in
  hinv path data old w' ∧ (v_dir (w_fs w) !! t = None → w_fs w' = w_fs w) ∧
  (∀ p, p ≠ t → v_dir (w_fs w') !! p = v_dir (w_fs w) !! p) ∧ (ve_remove env = None → v_dir (w_fs w') !! t = None).
Proof.
  intros Htp [Hi Hh]. unfold os_Remove, call, answer.
  assert (Hsame : ∀ s, inv path data old s → Forall (inv path data old) (w_hist w ++ [s])) by (intros s Hs; apply Forall_app; split; [done|by apply Forall_singleton]).
  destruct (v_dir (w_fs w) !! t) as [j|] eqn:Ht; [|cbn; split_and!; [split; [done|exact (Hsame _ ltac:(done))]|done..]].
  destruct (ve_remove env); cbn; [split_and!; [split; [done|exact (Hsame _ ltac:(done))]|done..]|].
  assert (Hinv : inv path data old (dir_op (DUnlink t) (w_fs w))) by (by apply inv_op).
  split_and!; [split; [done|exact (Hsame _ ltac:(done))]|done| |intros _; by rewrite lookup_delete_eq]. intros p Hp. by rewrite lookup_delete_ne.
Qed.

Lemma landed_settled path data t i s : landed path data t i s → live s path = Some data ∧ settled path s ∧ ∀ keep junk, crashed keep junk s path = Some data.
Proof.
  intros ((Hd & Ht & n & Hn & Hda & Hdu) & Hk & Hu). split_and!.
  - unfold live. rewrite Hd. cbn. rewrite Hn. cbn. by rewrite Hda.
  - split_and!; [by rewrite Hk, Hd|done|]. intros j Hj. rewrite Hd in Hj. injection Hj as <-. exists n. by rewrite Hda.
  - intros keep junk. unfold crashed. rewrite untouched_foldl, Hk.
    + cbn. rewrite Hn. cbn. by rewrite Hdu.
    + revert keep. unfold untouched in Hu. induction Hu as [|o l Ho Hl IH]; intros [|[] keep]; cbn; try done. by constructor.
Qed.

(** C35: A crash at any moment of a write to a volume's record, and a reader at
    any moment, find the old contents or the new ones, never a part; once
    the write has returned without an error a crash leaves the new ones; and
    no other name is changed, but for a temporary file that could not be
    removed. *)
Theorem write_is_atomic env path data w r w' : settled path (w_fs w) → w_hist w = [] → WriteAtomic env path data w = (r, w') →
  Forall (intact path data (live (w_fs w) path)) (w_hist w') ∧
  (is_ok r = true → live (w_fs w') path = Some data ∧ settled path (w_fs w') ∧ ∀ keep junk, crashed keep junk (w_fs w') path = Some data) ∧
  (ve_remove env = None → ∀ p, p ≠ path → v_dir (w_fs w') !! p = v_dir (w_fs w) !! p).
Proof.
  intros Hs Hh. unfold WriteAtomic, bind at 1, wrapping at 1. destruct (CreateTemp env (Dir path) _ w) as [q w1] eqn:Hc.
  apply (CreateTemp_spec env path data) in Hc; [|done..]. destruct q as [[t i]|e].
  2: { intros [= <- <-]. destruct Hc as [-> Hf]. split_and!; [|done|done]. eapply Forall_impl; [exact Hf|]. apply inv_intact. }
  destruct Hc as (Htp & Hnone & Hw1 & Ht & Hd1 & _). cbn [fst snd]. unfold deferred. fold (write_body env path data t i).
  destruct (write_body_spec env path data t i (live (w_fs w) path) Htp w1 Hw1 Ht) as [Hw2 Hr].
  pose proof (write_body_spares env path data t i w1) as Hsp. destruct (write_body env path data t i w1) as [q w2]. cbn [fst snd] in *. intros [= <- <-].
  destruct (remove_temp env path data _ t w2 Htp Hw2) as (Hw3 & Hsame & Hd3 & Hrm). split_and!.
  - eapply Forall_impl; [apply Hw3|]. apply inv_intact.
  - intros Hok. destruct q as [[]|]; [|done]. rewrite Hsame by apply Hr. by eapply landed_settled.
  - intros Hre p Hp. destruct (decide (p = t)) as [->|Hpt]; [by rewrite Hrm, Hnone|]. rewrite Hd3 by done. rewrite Hsp by done. by apply Hd1.
Qed.

Module Sample.
Definition env : venv :=
  mkVenv (λ _, 7%Z) None None None None None None None None None (λ _, None) (λ _, None) (λ _, None) (λ _, None).
Definition fs0 : vfs := mkVfs [mkInode "layer-1" (Some "layer-1") 420] {["/v/active" := 0%nat]} {["/v/active" := 0%nat]} [].

Lemma fs0_settled : settled "/v/active" fs0.
Proof.
  split_and!; [done|constructor|]. intros i H. vm_compute in H. injection H as <-. by eexists.
Qed.
End Sample.

Lemma write_is_atomic_witness :
  ∃ w', WriteAtomic Sample.env "/v/active" "layer-2" (mkVw Sample.fs0 []) = (Ok tt, w') ∧ length (w_hist w') = 9%nat ∧
    Forall (intact "/v/active" "layer-2" (Some "layer-1")) (w_hist w') ∧ crashed [] (λ _, "") (w_fs w') "/v/active" = Some "layer-2".
Proof.
  destruct (WriteAtomic Sample.env "/v/active" "layer-2" (mkVw Sample.fs0 [])) as [r w'] eqn:E.
  pose proof (write_is_atomic Sample.env "/v/active" "layer-2" (mkVw Sample.fs0 []) r w' Sample.fs0_settled eq_refl E) as (Hf & Hok & _).
  assert (Er : (WriteAtomic Sample.env "/v/active" "layer-2" (mkVw Sample.fs0 [])).1 = Ok tt) by (vm_compute; reflexivity).
  assert (Eh : length (w_hist (WriteAtomic Sample.env "/v/active" "layer-2" (mkVw Sample.fs0 [])).2) = 9%nat) by (vm_compute; reflexivity).
  rewrite E in Er, Eh. cbn [fst snd] in Er, Eh. subst r. exists w'. split; [done|]. split; [exact Eh|]. split; [exact Hf|].
  by destruct (Hok eq_refl) as (_ & _ & Hc).
Defined.

(** A store hands out a disk only for a volume with a name and a size, asks for one layer
    named after the VM over the base image, at the size asked for, and reports the chain's
    own answer. *)
Lemma open_disk {W} (qo : string → OpenRequest → ST W chain) ap qs s vmID sizeBytes w d w' :
  Open qo ap qs s vmID sizeBytes w = (Ok d, w') →
  vmID ≠ "" ∧ (0 < sizeBytes)%Z ∧
  ∃ q c, qo (st_qemuImg s) q w = (Ok c, w') ∧ q_Root q = st_root s ∧ q_VolumeID q = vmID ∧ q_NewLayerID q = vmID ∧ q_SizeBytes q = sizeBytes ∧
    (∀ n, q_Recovery q n = Ok (mkRestored (st_base s) n)) ∧ d_Image d = ch_Active c ∧ d_Pointer d = ap (st_root s) vmID.
Proof.
  unfold Open. case_decide; [done|]. case_match eqn:Hz; [done|]. intros (c & w1 & Hq%wrapping_Ok & [= <- <-])%bind_Ok. apply Z.leb_gt in Hz.
  split_and!; [done|done|]. eexists _, c. split_and!; [exact Hq|done..].
Qed.

(** Exists tells a file that is missing from one that could not be looked at. *)
Lemma exists_three_ways env path s :
  match Exists env path s with
  | Ok true => is_Some (v_dir s !! path)
  | Ok false => (∃ e, ve_stat env path = Some e ∧ IsNotExist e = true) ∨ live s path = None
  | Err _ => ∃ e, ve_stat env path = Some e ∧ IsNotExist e = false
  end.
Proof.
  unfold Exists, os_Stat, live. destruct (ve_stat env path) as [e|]; [destruct (IsNotExist e) eqn:He; eauto|].
  destruct (v_dir s !! path) as [i|]; cbn; [|by right]. destruct (v_inodes s !! i); cbn; [by eexists|by right].
Qed.
