(* ===== verification/GoNet.v ===== *)
(** The parts of Go's net package in use: IPv4 addresses, masks and hardware addresses,
    their text and back.  A byte is a [Z]; an IP is the bytes of net.IP.  Addresses with a
    colon are read by a parameter, [parse6]. *)
From S2P Require Import Prelude GoStrings GoText.
From Stdlib Require Import Ascii.
Open Scope Z_scope.

(** ** IP addresses *)

Definition v4InV6Prefix : list Z := [0; 0; 0; 0; 0; 0; 0; 0; 0; 0; 255; 255].

Definition To4 (ip : list Z) : option (list Z) :=
  if (length ip =? 4)%nat then Some ip
  else if (length ip =? 16)%nat && bool_decide (take 12 ip = v4InV6Prefix) then Some (drop 12 ip)
  else None.

(** One octet: digits, no leading zero, at most 255. *)
Definition octet (s : string) : option Z :=
  match s with
  | String a (String _ _) => if decide (a = "0"%char) then None else v ← unsigned 10 s; if v <=? 255 then Some v else None
  | _ => v ← unsigned 10 s; if v <=? 255 then Some v else None
  end.

Definition parseIPv4 (s : string) : option (list Z) :=
  match Split s "." with
  | [a; b; c; d] => a ← octet a; b ← octet b; c ← octet c; d ← octet d; Some (v4InV6Prefix ++ [a; b; c; d])
  | _ => None
  end.

(** The first of the characters that decide the kind of an address. *)
Fixpoint first_sep (s : string) : option ascii :=
  match s with
  | EmptyString => None
  | String a s' => if decide (a = "."%char ∨ a = ":"%char ∨ a = "%"%char) then Some a else first_sep s'
  end.

Definition ParseIP (parse6 : string → option (list Z)) (s : string) : option (list Z) :=
  match first_sep s with
  | Some a => if decide (a = "."%char) then parseIPv4 s else if decide (a = ":"%char) then parse6 s else None
  | None => None
  end.

(** The text of an IPv4 address. *)
Definition ip4_String (a b c d : Z) : string := fmt_d a +:+ "." +:+ fmt_d b +:+ "." +:+ fmt_d c +:+ "." +:+ fmt_d d.

(** ** Masks *)

(** The number a mask is, most significant byte first. *)
Definition mask_val (m : list Z) : Z := foldl (λ acc b, acc * 256 + b) 0 m.

(** net.CIDRMask(ones, 32) *)
Definition cidr_val (ones : Z) : Z := 4294967296 - 2 ^ (32 - ones).
Definition CIDRMask (ones : Z) : list Z :=
  let v := cidr_val ones in [v / 16777216; v / 65536 mod 256; v / 256 mod 256; v mod 256].

(** [simpleMaskLength] of a byte: its leading ones, and whether nothing else is set. *)
Fixpoint byte_ones (fuel : nat) (v : Z) : Z * Z :=
  match fuel with
  | O => (0, v)
  | S f => if 128 <=? v then let '(n, r) := byte_ones f ((v * 2) mod 256) in (n + 1, r) else (0, v)
  end.

Fixpoint simpleMaskLength (m : list Z) : option Z :=
  match m with
  | [] => Some 0
  | v :: m' =>
      if v =? 255 then (λ n, n + 8) <$> simpleMaskLength m'
      else let '(n, r) := byte_ones 8 v in
           if negb (r =? 0) then None
           else if forallb (λ x, x =? 0) m' then Some n else None
  end.

(** [IPMask.Size] *)
Definition mask_Size (m : list Z) : Z * Z :=
  match simpleMaskLength m with Some n => (n, Z.of_nat (length m) * 8) | None => (0, 0) end.

(** The network of an address. *)
Definition ip_Mask (ip mask : list Z) : list Z := zip_with Z.land ip mask.

(** ** Hardware addresses *)

Definition hex_val (a : ascii) : option Z :=
  let n := Z.of_nat (nat_of_ascii a) in
  if (48 <=? n) && (n <=? 57) then Some (n - 48)
  else if (97 <=? n) && (n <=? 102) then Some (n - 87)
  else if (65 <=? n) && (n <=? 70) then Some (n - 55)
  else None.

(** [xtoi2]: two hexadecimal digits, followed by [e] unless the string ends. *)
Definition xtoi2 (s : string) (e : option ascii) : option Z :=
  match s with
  | String a (String b r) =>
      let follows := match r with EmptyString => true | String x _ => bool_decide (Some x = e) end in
      if follows then x ← hex_val a; y ← hex_val b; Some (x * 16 + y) else None
  | _ => None
  end.

Fixpoint mac_bytes (n : nat) (s : string) (e : ascii) : option (list Z) :=
  match n with
  | O => Some []
  | S n' => b ← xtoi2 s (Some e); bs ← mac_bytes n' (str_drop 3 s) e; Some (b :: bs)
  end.

Fixpoint mac_words (n : nat) (s : string) (e : ascii) : option (list Z) :=
  match n with
  | O => Some []
  | S n' => a ← xtoi2 (str_take 2 s) None; b ← xtoi2 (str_drop 2 s) (Some e); bs ← mac_words n' (str_drop 5 s) e; Some (a :: b :: bs)
  end.

Definition mac_sizes : list nat := [6; 8; 20]%nat.

Definition ParseMAC (s : string) : option (list Z) :=
  if (String.length s <? 14)%nat then None
  else
    match String.get 2 s, String.get 4 s with
    | Some c, Some d =>
        if decide (c = ":"%char ∨ c = "-"%char) then
          let n := ((String.length s + 1) / 3)%nat in
          if negb ((String.length s + 1) mod 3 =? 0)%nat then None
          else if decide (n ∈ mac_sizes) then mac_bytes n s c else None
        else if decide (d = "."%char) then
          let n := (2 * (String.length s + 1) / 5)%nat in
          if negb ((String.length s + 1) mod 5 =? 0)%nat then None
          else if decide (n ∈ mac_sizes) then mac_words (n / 2) s d else None
        else None
    | _, _ => None
    end.

Definition hex_digit (n : Z) : ascii := ascii_of_nat (Z.to_nat (if n <? 10 then 48 + n else 87 + n)).
Definition hex_byte (b : Z) : string := String (hex_digit (b / 16)) (String (hex_digit (b mod 16)) EmptyString).

(** HardwareAddr.String *)
Definition mac_String (hw : list Z) : string := join_with ":" (hex_byte <$> hw).

(** ** Text and back *)

Definition byte_ok (b : Z) : Prop := 0 ≤ b < 256.

Lemma octet_fmt n : byte_ok n → octet (fmt_d n) = Some n.
Proof.
  intros Hn. assert (H : ∀ k, (k < 256)%nat → octet (fmt_d (Z.of_nat k)) = Some (Z.of_nat k)).
  { intros k Hk. assert (E : forallb (λ k, bool_decide (octet (fmt_d (Z.of_nat k)) = Some (Z.of_nat k))) (seq 0 256) = true) by (vm_compute; reflexivity).
    rewrite forallb_forall in E. specialize (E k). rewrite bool_decide_eq_true in E. apply E, in_seq. lia. }
  unfold byte_ok in Hn. specialize (H (Z.to_nat n)). rewrite Z2Nat.id in H by lia. apply H. lia.
Qed.

Lemma fmt_d_dotless n : 0 ≤ n → all_chars (neq_char ".") (fmt_d n) = true.
Proof. intros Hn. eapply all_chars_impl; [|by apply fmt_d_digits]. intros a Ha. unfold neq_char. by case_bool_decide; subst. Qed.

Lemma first_sep_digits s r : all_chars is_digit s = true → first_sep (s +:+ String "." r) = Some "."%char.
Proof.
  induction s as [|a s IH]; intros H; [done|]. cbn in H. apply andb_true_iff in H as [Ha Hs]. rewrite str_app_cons. cbn [first_sep].
  rewrite decide_False; [auto|]. intros [-> | [-> | ->]]; done.
Qed.

(** An address and its text. *)
Lemma ParseIP_String parse6 a b c d : byte_ok a → byte_ok b → byte_ok c → byte_ok d →
  ParseIP parse6 (ip4_String a b c d) = Some (v4InV6Prefix ++ [a; b; c; d]) ∧ To4 (v4InV6Prefix ++ [a; b; c; d]) = Some [a; b; c; d].
Proof.
  intros Ha Hb Hc Hd. split; [|done]. unfold ParseIP, ip4_String, byte_ok in *.
  repeat match goal with |- context ["." +:+ ?x] => change ("." +:+ x) with (String "." x) end. rewrite first_sep_digits by (apply fmt_d_digits; lia). rewrite decide_True by done.
  unfold parseIPv4. do 3 rewrite Split_cons by (apply fmt_d_dotless; lia). rewrite Split_last by (apply fmt_d_dotless; lia).
  by rewrite !octet_fmt.
Qed.

Lemma hex_val_digit n : 0 ≤ n < 16 → hex_val (hex_digit n) = Some n.
Proof.
  intros Hn. unfold hex_val, hex_digit. destruct (n <? 10) eqn:H; rewrite nat_ascii_embedding by lia; rewrite Z2Nat.id by lia.
  - rewrite (proj2 (Z.leb_le _ _)), (proj2 (Z.leb_le _ _)) by lia. cbn. f_equal. lia.
  - rewrite andb_false_intro2 by lia. rewrite (proj2 (Z.leb_le _ _)), (proj2 (Z.leb_le _ _)) by lia. cbn. f_equal. lia.
Qed.

Lemma xtoi2_hex b r e : byte_ok b → (r = EmptyString ∨ ∃ r', r = String e r') → xtoi2 (hex_byte b +:+ r) (Some e) = Some b.
Proof.
  intros Hb Hr. unfold byte_ok in Hb. unfold hex_byte. rewrite !str_app_cons. cbn [xtoi2].
  assert (Hq : 0 ≤ b / 16 < 16) by (split; [apply Z.div_pos; lia|apply Z.div_lt_upper_bound; lia]).
  pose proof (Z.mod_pos_bound b 16 ltac:(lia)) as Hm. rewrite !hex_val_digit by lia.
  change ("" +:+ r) with r. destruct Hr as [-> | [r' ->]]; [|rewrite bool_decide_eq_true_2 by done]; cbn; f_equal;
    pose proof (Z.div_mod b 16 ltac:(lia)); lia.
Qed.

Lemma mac_bytes_String hw : Forall byte_ok hw → mac_bytes (length hw) (mac_String hw) ":" = Some hw.
Proof.
  unfold mac_String. induction 1 as [|b hw Hb Hl IH]; [done|]. cbn [length mac_bytes fmap list_fmap join_with]. destruct hw as [|b' hw].
  - cbn [fmap list_fmap join_with]. rewrite <- (string_app_nil_r (hex_byte b)), xtoi2_hex by auto. done.
  - change (hex_byte <$> b' :: hw) with (hex_byte b' :: (hex_byte <$> hw)) in *. set (l := hex_byte b' :: (hex_byte <$> hw)) in *.
    replace (match l with [] => hex_byte b | _ :: _ => hex_byte b +:+ ":" +:+ join_with ":" l end) with (hex_byte b +:+ String ":" (join_with ":" l)) by done.
    rewrite xtoi2_hex by eauto. change (str_drop 3 (hex_byte b +:+ String ":" (join_with ":" l))) with (join_with ":" l). cbn [mbind option_bind].
    by rewrite IH.
Qed.

Lemma mac_String_length hw : hw ≠ [] → String.length (mac_String hw) = (3 * length hw - 1)%nat.
Proof.
  unfold mac_String. induction hw as [|b hw IH]; [done|]. intros _. destruct hw as [|b' hw]; [done|].
  change (join_with ":" (hex_byte <$> b :: b' :: hw)) with (hex_byte b +:+ ":" +:+ join_with ":" (hex_byte <$> b' :: hw)).
  rewrite !str_length_app, IH by done. cbn [length String.length hex_byte]. lia.
Qed.

(** An Ethernet address and its text. *)
Lemma ParseMAC_String hw : length hw = 6%nat → Forall byte_ok hw → ParseMAC (mac_String hw) = Some hw.
Proof.
  intros Hl Hw. pose proof (mac_bytes_String hw Hw) as Hb. unfold ParseMAC. rewrite mac_String_length by (by destruct hw).
  rewrite Hl in *. change ((3 * 6 - 1 <? 14)%nat) with false. cbv iota.
  destruct hw as [|a [|b hw]]; [done..|]. unfold mac_String in *.
  change (hex_byte <$> a :: b :: hw) with (hex_byte a :: hex_byte b :: (hex_byte <$> hw)) in *. cbn [join_with] in *.
  set (rest := match hex_byte <$> hw with [] => hex_byte b | _ :: _ => _ end) in *.
  assert (Hg : String.get 2 (hex_byte a +:+ ":" +:+ rest) = Some ":"%char) by done. rewrite Hg.
  assert (Hg4 : is_Some (String.get 4 (hex_byte a +:+ ":" +:+ rest))) by (unfold rest; destruct (hex_byte <$> hw); by eexists).
  destruct Hg4 as [x ->]. rewrite decide_True by auto. rewrite decide_True by (unfold mac_sizes; set_solver). exact Hb.
Qed.

(** ** Masks *)

Lemma CIDRMask_Size ones : 0 ≤ ones ≤ 32 → mask_Size (CIDRMask ones) = (ones, 32).
Proof.
  intros Ho. assert (E : forallb (λ k, bool_decide (mask_Size (CIDRMask (Z.of_nat k)) = (Z.of_nat k, 32))) (seq 0 33) = true) by (vm_compute; reflexivity).
  rewrite forallb_forall in E. specialize (E (Z.to_nat ones)). rewrite bool_decide_eq_true, Z2Nat.id in E by lia. apply E, in_seq. lia.
Qed.

Lemma byte_ones_spec v : byte_ok v → (byte_ones 8 v).2 = 0 → v = 256 - 2 ^ (8 - (byte_ones 8 v).1) ∧ 0 ≤ (byte_ones 8 v).1 ≤ 8.
Proof.
  intros Hv. assert (E : forallb (λ k, implb ((byte_ones 8 (Z.of_nat k)).2 =? 0)
     ((Z.of_nat k =? 256 - 2 ^ (8 - (byte_ones 8 (Z.of_nat k)).1)) && (0 <=? (byte_ones 8 (Z.of_nat k)).1) && ((byte_ones 8 (Z.of_nat k)).1 <=? 8))) (seq 0 256) = true)
    by (vm_compute; reflexivity).
  unfold byte_ok in Hv. rewrite forallb_forall in E. specialize (E (Z.to_nat v)). rewrite Z2Nat.id in E by lia. intros H0.
  rewrite H0, Z.eqb_refl in E. cbn [implb] in E. rewrite !andb_true_iff, Z.eqb_eq, !Z.leb_le in E. apply and_assoc, E, in_seq. lia.
Qed.

Lemma mask_val_from acc m : foldl (λ acc b, acc * 256 + b) acc m = acc * 256 ^ Z.of_nat (length m) + mask_val m.
Proof.
  unfold mask_val. revert acc. induction m as [|b m IH]; intros acc; [cbn; lia|]. cbn [foldl length]. rewrite IH, (IH (0 * 256 + b)).
  rewrite Nat2Z.inj_succ, Z.pow_succ_r by lia. ring.
Qed.

Lemma mask_val_zeros m : forallb (λ x, x =? 0) m = true → mask_val m = 0.
Proof.
  induction m as [|b m IH]; [done|]. cbn. intros [->%Z.eqb_eq Hm]%andb_true_iff. unfold mask_val in *. cbn. by apply IH.
Qed.

(** A mask with a size is the mask of that many leading ones. *)
Lemma simpleMaskLength_spec m n : Forall byte_ok m → simpleMaskLength m = Some n →
  0 ≤ n ≤ 8 * Z.of_nat (length m) ∧ mask_val m = 2 ^ (8 * Z.of_nat (length m)) - 2 ^ (8 * Z.of_nat (length m) - n).
Proof.
  intros Hm. revert n. induction Hm as [|v m Hv Hm IH]; intros n; cbn [simpleMaskLength].
  { intros [= <-]. done. }
  set (L := 8 * Z.of_nat (length m)) in *. assert (HL : 0 ≤ L) by lia.
  replace (8 * Z.of_nat (length (v :: m))) with (8 + L) by (cbn [length]; lia).
  assert (Hval : mask_val (v :: m) = v * 2 ^ L + mask_val m).
  { unfold mask_val at 1. cbn [foldl]. rewrite mask_val_from. unfold L. rewrite Z.pow_mul_r by lia. change (2 ^ 8) with 256. lia. }
  rewrite Hval. destruct (v =? 255) eqn:H255.
  - apply Z.eqb_eq in H255 as ->. destruct (simpleMaskLength m) as [k|] eqn:Hk; [|done]. intros [= <-].
    destruct (IH k eq_refl) as [Hk0 ->]. split; [lia|]. replace (8 + L - (k + 8)) with (L - k) by lia. rewrite Z.pow_add_r by lia. change (2 ^ 8) with 256. lia.
  - destruct (byte_ones 8 v) as [k r] eqn:Hb. destruct (r =? 0) eqn:Hr; [|done]. cbn [negb]. destruct (forallb _ m) eqn:Hz; [|done]. intros [= <-].
    apply Z.eqb_eq in Hr as ->. destruct (byte_ones_spec v Hv) as [Hve Hk]; [by rewrite Hb|]. rewrite Hb in Hve, Hk. cbn [fst] in *.
    split; [lia|]. rewrite mask_val_zeros by done. rewrite Hve, Z.mul_sub_distr_r, <- Z.pow_add_r by lia.
    replace (8 - k + L) with (8 + L - k) by lia. rewrite (Z.pow_add_r 2 8 L) by lia. change (2 ^ 8) with 256. lia.
Qed.
