(* ===== verification/GuestNet.v ===== *)
(** The network of the guest: internal/guest/vminit/system/network.go over the links, the
    addresses and the routes of the kernel, and the end of Apply in identity.go, which
    runs its three steps.

    The kernel accepts a route through a gateway when the link is up and an address of it
    has the gateway in its network, and refuses a second route to the same destination and
    a second equal address with EEXIST.  A call can also fail as the environment says. *)
From S2P Require Import Prelude GoStrings GoText GoState GoNet Cmdline.
From Stdlib Require Import Ascii.
Open Scope Z_scope.

(** ** The kernel's network *)

Record glink := mkLink {
  gl_mac : list Z;
  gl_up : bool;
  gl_addrs : list (list Z * list Z)      (** address and mask *)
}.

(** [None]: the default route. *)
Record groute := mkRoute { rt_dst : option (list Z); rt_gw : list Z; rt_link : string }.

#[export] Instance groute_eq_dec : EqDecision groute.
Proof. solve_decision. Defined.

Record gnet := mkNet {
  gn_links : gmap string glink;
  gn_routes : list groute;
  gn_resolv : option string;
  gn_looks : nat                          (** the lookups of links so far *)
}.

Record genv := mkGenv {
  ge_link : nat → option error;           (** a lookup that fails *)
  ge_ctx : nat → option error;
  ge_setMAC : option error;
  ge_setUp : option error;
  ge_addr : option error;
  ge_route : option (list Z) → option error;
  ge_resolv : option error
}.

Definition EEXIST : errkind := Errno (EOTHER 17).
Definition eexist : error := mkError EEXIST "file exists".
Definition enetunreach : error := mkError (Errno (EOTHER 101)) "network is unreachable".

Section network.
Context (parse6 : string → option (list Z)) (env : genv).

Definition LinkByName (name : string) : ST gnet glink := λ w,
  let w' := mkNet (gn_links w) (gn_routes w) (gn_resolv w) (S (gn_looks w)) in
  match ge_link env (gn_looks w), gn_links w !! name with
  | Some e, _ => (Err e, w')
  | None, None => (Err (errorf "Link not found"), w')
  | None, Some l => (Ok l, w')
  end.

Definition on_link (name : string) (f : glink → glink) (w : gnet) : gnet :=
  mkNet (alter f name (gn_links w)) (gn_routes w) (gn_resolv w) (gn_looks w).

Definition answered (e : option error) (f : gnet → gnet) : ST gnet () := λ w,
  match e with Some e => (Err e, w) | None => (Ok tt, f w) end.

Definition LinkSetHardwareAddr (name : string) (mac : list Z) : ST gnet () :=
  answered (ge_setMAC env) (on_link name (λ l, mkLink mac (gl_up l) (gl_addrs l))).
Definition LinkSetUp (name : string) : ST gnet () :=
  answered (ge_setUp env) (on_link name (λ l, mkLink (gl_mac l) true (gl_addrs l))).

Definition AddrAdd (name : string) (ip mask : list Z) : ST gnet () := λ w,
  match gn_links w !! name with
  | Some l => if decide ((ip, mask) ∈ gl_addrs l) then (Err eexist, w)
              else answered (ge_addr env) (on_link name (λ l, mkLink (gl_mac l) (gl_up l) (gl_addrs l ++ [(ip, mask)]))) w
  | None => (Err (errorf "no such device"), w)
  end.

(** The last four bytes, which the mask is applied to. *)
Definition v4 (ip : list Z) : list Z := default ip (To4 ip).

Definition reaches (l : glink) (gw : list Z) : Prop :=
  gl_up l = true ∧ Exists (λ a, GoNet.ip_Mask (v4 a.1) a.2 = GoNet.ip_Mask (v4 gw) a.2) (gl_addrs l).

#[export] Instance reaches_dec l gw : Decision (reaches l gw).
Proof. unfold reaches. apply _. Defined.

Definition RouteAdd (r : groute) : ST gnet () := λ w,
  if decide (Exists (λ x, rt_dst x = rt_dst r) (gn_routes w)) then (Err eexist, w)
  else match gn_links w !! rt_link r with
       | Some l => if decide (reaches l (rt_gw r))
                   then answered (ge_route env (rt_dst r)) (λ w, mkNet (gn_links w) (gn_routes w ++ [r]) (gn_resolv w) (gn_looks w)) w
                   else (Err enetunreach, w)
       | None => (Err (errorf "no such device"), w)
       end.

(** [if err := m(); err != nil && !errors.Is(err, unix.EEXIST) { return err }] *)
Definition ignoring_exist (m : ST gnet ()) : ST gnet () := λ w,
  match m w with
  | (Err e, w') => if decide (ekind e = EEXIST) then (Ok tt, w') else (Err e, w')
  | x => x
  end.

(** ** network.go *)

Definition device (n : NetworkIdentity) : string := if decide (ni_Device n = "") then "eth0" else ni_Device n.

Definition parseNetmask (netmask : string) : res (list Z) :=
  if decide (netmask = "") then Ok (CIDRMask 24)
  else match ip ← ParseIP parse6 netmask; To4 ip with
       | None => Err (errorf ("invalid netmask " +:+ fmt_q netmask +:+ " in ip= parameter"))
       | Some mask =>
           let '(ones, bits) := mask_Size mask in
           if (ones =? 0) && (bits =? 0) then Err (errorf ("non-contiguous netmask " +:+ fmt_q netmask +:+ " in ip= parameter"))
           else Ok mask
       end.

Definition attempts : nat := 20.

(** The rounds that are left, and the error of the last. *)
Fixpoint link_wait (rounds : nat) (name : string) (lastErr : error) : ST gnet glink := λ w,
  match rounds with
  | O => (Err lastErr, w)
  | S rounds' =>
      match LinkByName name w with
      | (Ok l, w') => (Ok l, w')
      | (Err e, w') =>
          match ge_ctx env (gn_looks w') with
          | Some c => (Err c, w')
          | None => link_wait rounds' name e w'
          end
      end
  end.

Definition linkByNameWait (name : string) : ST gnet glink := link_wait attempts name (errorf "").

Definition configureNetwork (n : NetworkIdentity) (macText : string) : ST gnet () :=
  if decide (ni_IP n = "") then ret tt
  else match ParseIP parse6 (ni_IP n) with
  | None => fail (errorf ("invalid IP " +:+ fmt_q (ni_IP n) +:+ " in ip= parameter"))
  | Some ip =>
      do! mask := lift (parseNetmask (ni_Netmask n)) in
      let dev := device n in
      do! link := wrapping ("find link " +:+ fmt_q dev) (linkByNameWait dev) in
      (if decide (macText = "") then ret tt
       else match ParseMAC macText with
            | None => fail (errorf ("invalid MAC " +:+ fmt_q macText))
            | Some mac =>
                if decide (gl_mac link = mac) then ret tt
                else wrapping ("set MAC " +:+ mac_String mac +:+ " on " +:+ fmt_q dev) (LinkSetHardwareAddr dev mac)
            end) ;;!
      wrapping ("set link " +:+ fmt_q dev +:+ " up") (LinkSetUp dev) ;;!
      wrapping ("add address to " +:+ fmt_q dev) (ignoring_exist (AddrAdd dev ip mask)) ;;!
      (if decide (ni_Gateway n = "") then ret tt
       else match ParseIP parse6 (ni_Gateway n) with
            | None => fail (errorf ("invalid gateway " +:+ fmt_q (ni_Gateway n) +:+ " in ip= parameter"))
            | Some gw => wrapping ("add default route via " +:+ ni_Gateway n) (ignoring_exist (RouteAdd (mkRoute None gw dev)))
            end)
  end.

Definition resolvConf (dns : list string) : string :=
  foldr (λ ns s, "nameserver " +:+ ns +:+ String (ascii_of_nat 10) s) EmptyString dns.

Definition configureDNS (n : NetworkIdentity) : ST gnet () :=
  if (length (ni_DNS n) =? 0)%nat then ret tt
  else wrapping "failed to write /etc/resolv.conf"
         (answered (ge_resolv env) (λ w, mkNet (gn_links w) (gn_routes w) (Some (resolvConf (ni_DNS n))) (gn_looks w))).

Definition metadataServiceIP : list Z := v4InV6Prefix ++ [169; 254; 169; 254].

Definition configureMetadataRoute (n : NetworkIdentity) : ST gnet () :=
  if decide (ni_Gateway n = "") then ret tt
  else if negb (ni_MetadataRoute n) then ret tt
  else match ParseIP parse6 (ni_Gateway n) with
       | None => fail (errorf ("invalid gateway " +:+ fmt_q (ni_Gateway n) +:+ " for metadata route"))
       | Some gw =>
           wrapping ("find link " +:+ fmt_q (device n) +:+ " for metadata route") (LinkByName (device n)) ;;!
           wrapping ("add metadata route to 169.254.169.254 via " +:+ ni_Gateway n)
             (ignoring_exist (RouteAdd (mkRoute (Some metadataServiceIP) gw (device n))))
       end.

(** The network part of [Apply]: errors are logged. *)
Definition applyNetwork (n : NetworkIdentity) (macText : string) (w : gnet) : gnet :=
  (configureMetadataRoute n (configureDNS n (configureNetwork n macText w).2).2).2.
End network.

(** ** What success means *)

Section sound.
Context (parse6 : string → option (list Z)) (env : genv).

Lemma LinkByName_spec name w r w' : LinkByName env name w = (r, w') →
  gn_links w' = gn_links w ∧ gn_routes w' = gn_routes w ∧ gn_resolv w' = gn_resolv w ∧ ∀ l, r = Ok l → gn_links w !! name = Some l.
Proof.
  unfold LinkByName. destruct (ge_link env (gn_looks w)), (gn_links w !! name) eqn:E; intros [= <- <-]; split_and!; try done. by intros ? [= ->].
Qed.

Lemma link_wait_spec rounds name e w r w' : link_wait env rounds name e w = (r, w') →
  gn_links w' = gn_links w ∧ gn_routes w' = gn_routes w ∧ gn_resolv w' = gn_resolv w ∧ (gn_looks w' ≤ gn_looks w + rounds)%nat ∧
  ∀ l, r = Ok l → gn_links w !! name = Some l.
Proof.
  revert e w. induction rounds as [|rounds IH]; intros e w; cbn [link_wait]; [intros [= <- <-]; split_and!; [done..|lia|done]|].
  destruct (LinkByName env name w) as [q w1] eqn:Hl. assert (Hk : gn_looks w1 = S (gn_looks w)).
  { revert Hl. unfold LinkByName. repeat case_match; intros [= _ <-]; done. }
  apply LinkByName_spec in Hl as (L1 & L2 & L3 & L4). destruct q as [l|e1].
  { intros [= <- <-]. split_and!; [done..|lia|exact L4]. }
  destruct (ge_ctx env (gn_looks w1)); [intros [= <- <-]; split_and!; [done..|lia|done]|].
  intros (I1 & I2 & I3 & I4 & I5)%IH. split_and!; [congruence..|lia|]. intros l Hq. rewrite <- L1. auto.
Qed.

(** The interface as it was asked for: up, with the address, and reached by a default route
    when there is a gateway. *)
Definition configured (n : NetworkIdentity) (macText : string) (w : gnet) : Prop :=
  ∃ l ip mask, gn_links w !! device n = Some l ∧ gl_up l = true ∧ ParseIP parse6 (ni_IP n) = Some ip ∧ parseNetmask parse6 (ni_Netmask n) = Ok mask ∧
    (ip, mask) ∈ gl_addrs l ∧ (macText ≠ "" → ParseMAC macText = Some (gl_mac l)) ∧
    (ni_Gateway n ≠ "" → ∃ r, r ∈ gn_routes w ∧ rt_dst r = None).

Lemma on_link_lookup name f w l : gn_links w !! name = Some l → gn_links (on_link name f w) !! name = Some (f l).
Proof. intros H. cbn. by rewrite lookup_alter_eq, H. Qed.

Definition fair : Prop :=
  (∀ e, ge_addr env = Some e → ekind e ≠ EEXIST) ∧ ∀ d e, ge_route env d = Some e → ekind e ≠ EEXIST.

Context (Hfair : fair).

Lemma AddrAdd_ok name ip mask w x w' l : gn_links w !! name = Some l → ignoring_exist (AddrAdd env name ip mask) w = (Ok x, w') →
  gn_routes w' = gn_routes w ∧ ∃ l', gn_links w' !! name = Some l' ∧ gl_up l' = gl_up l ∧ gl_mac l' = gl_mac l ∧ (ip, mask) ∈ gl_addrs l'.
Proof.
  intros Hl. unfold ignoring_exist, AddrAdd, answered. rewrite Hl. case_decide as Hin.
  { rewrite decide_True by done. intros [= _ <-]. split; [done|]. by exists l. }
  destruct (ge_addr env) as [e|] eqn:Ha; [rewrite decide_False by (by apply Hfair); done|]. intros [= _ <-]. split; [done|].
  eexists. split; [by apply on_link_lookup|]. cbn. split_and!; [done..|]. apply elem_of_app. right. by apply list_elem_of_singleton.
Qed.

Lemma RouteAdd_ok r w x w' : ignoring_exist (RouteAdd env r) w = (Ok x, w') →
  gn_links w' = gn_links w ∧ ∃ r', r' ∈ gn_routes w' ∧ rt_dst r' = rt_dst r.
Proof.
  unfold ignoring_exist, RouteAdd, answered. case_decide as Hin.
  { rewrite decide_True by done. intros [= _ <-]. split; [done|]. apply Exists_exists in Hin as (r' & ? & ?). by exists r'. }
  destruct (gn_links w !! rt_link r); [|done]. case_decide; [|done].
  destruct (ge_route env (rt_dst r)) as [e|] eqn:Ha; [rewrite decide_False by (by eapply Hfair); done|]. intros [= _ <-]. split; [done|].
  exists r. split; [|done]. cbn. apply elem_of_app. right. by apply list_elem_of_singleton.
Qed.

(** Configuring an interface succeeds only when it is as it was asked for. *)
Theorem configure_sound n macText w x w' : ni_IP n ≠ "" → configureNetwork parse6 env n macText w = (Ok x, w') → configured n macText w'.
Proof.
  intros Hip. unfold configureNetwork. rewrite decide_False by done. destruct (ParseIP parse6 (ni_IP n)) as [ip|] eqn:Eip; [|done].
  destruct (parseNetmask parse6 (ni_Netmask n)) as [mask|] eqn:Em; [|done].
  intros (? & ? & [= <- <-] & (l & w1 & Hl%wrapping_Ok & (u1 & w2 & Hmac & (u2 & w3 & Hup%wrapping_Ok & (u3 & w4 & Ha%wrapping_Ok & Hg)%bind_Ok)%bind_Ok)%bind_Ok)%bind_Ok)%bind_Ok.
  apply link_wait_spec in Hl as (L1 & _ & _ & _ & L5). specialize (L5 l eq_refl). rewrite <- L1 in L5.
  assert (H2 : ∃ l2, gn_links w2 !! device n = Some l2 ∧ (macText ≠ "" → ParseMAC macText = Some (gl_mac l2))).
  { revert Hmac. destruct (decide (macText = "")) as [Hm|Hm]; [intros E; inversion E; subst; by exists l|]. destruct (ParseMAC macText) as [mac|]; [|done]. destruct (decide (gl_mac l = mac)) as [Hsame|Hsame].
    - intros E; inversion E; subst. by exists l.
    - intros Hmac%wrapping_Ok. revert Hmac. unfold LinkSetHardwareAddr, answered. destruct (ge_setMAC env); [done|]. intros [= <- <-].
      eexists. split; [by apply on_link_lookup|done]. }
  destruct H2 as (l2 & Hl2 & Hm2). revert Hup. unfold LinkSetUp, answered. destruct (ge_setUp env); [done|]. intros [= <- <-].
  eapply AddrAdd_ok in Ha as [_ (l4 & Hl4 & Hu4 & Hm4 & Hin4)]; [|by apply on_link_lookup]. cbn in Hu4, Hm4.
  revert Hg. destruct (decide (ni_Gateway n = "")) as [Hgw|Hgw].
  { intros E; inversion E; subst. exists l4, ip, mask. split_and!; try done. by rewrite Hm4. }
  destruct (ParseIP parse6 (ni_Gateway n)) as [gw|]; [|done]. intros [Hlinks (r & Hr & Hd)]%wrapping_Ok%RouteAdd_ok.
  exists l4, ip, mask. rewrite Hlinks. split_and!; try done; [by rewrite Hm4|]. intros _. by exists r.
Qed.
End sound.

(** ** Masks *)

Lemma digits_val_nonneg s acc v : 0 ≤ acc → digits_val 10 acc s = Some v → 0 ≤ v.
Proof.
  revert acc. induction s as [|a s IH]; intros acc Ha; cbn; [by intros [= <-]|]. destruct (is_digit a) eqn:Hd; [|done]. cbn.
  case_match; [|done]. intros H'. eapply IH; [|exact H']. unfold is_digit in Hd. apply andb_true_iff in Hd as [Hd%Nat.leb_le _]. unfold digit_val. lia.
Qed.

Lemma octet_byte s v : octet s = Some v → byte_ok v.
Proof.
  assert (Hu : ∀ s, (v ← unsigned 10 s; if v <=? 255 then Some v else None) = Some v → byte_ok v).
  { intros s'. destruct (unsigned 10 s') as [x|] eqn:Hx; [|done]. cbn. case_match; [|done]. intros [= ->].
    assert (0 ≤ v) by (destruct s'; [done|]; by eapply digits_val_nonneg in Hx). unfold byte_ok. lia. }
  destruct s as [|a [|b s]]; [apply Hu..|]. cbn [octet]. case_decide; [done|]. apply Hu.
Qed.

Lemma parseIPv4_bytes s ip : parseIPv4 s = Some ip → Forall byte_ok ip.
Proof.
  unfold parseIPv4. destruct (Split s ".") as [|a [|b [|c [|d []]]]]; try done.
  destruct (octet a) as [a'|] eqn:Ha; [|done]. destruct (octet b) as [b'|] eqn:Hb; [|done]. destruct (octet c) as [c'|] eqn:Hc; [|done].
  destruct (octet d) as [d'|] eqn:Hd; [|done]. cbn. intros [= <-]. change (Forall byte_ok (v4InV6Prefix ++ [a'; b'; c'; d'])). apply Forall_app. split; [repeat constructor; lia|]. repeat (constructor; [by eapply octet_byte|]). constructor.
Qed.

Lemma To4_bytes ip m : Forall byte_ok ip → To4 ip = Some m → length m = 4%nat ∧ Forall byte_ok m.
Proof.
  intros Hb. unfold To4. destruct (length ip =? 4)%nat eqn:H4; [intros [= <-]; split; [by apply Nat.eqb_eq|done]|].
  destruct (length ip =? 16)%nat eqn:H16; [|done]. cbn [andb]. case_bool_decide; [|done]. intros [= <-].
  apply Nat.eqb_eq in H16. split; [rewrite length_drop; lia|]. by apply Forall_drop.
Qed.

(** A mask that is accepted is that of a prefix. *)
Lemma parseNetmask_prefix parse6 netmask mask : (∀ s ip, parse6 s = Some ip → Forall byte_ok ip) → parseNetmask parse6 netmask = Ok mask →
  ∃ ones, 0 ≤ ones ≤ 32 ∧ mask_val mask = cidr_val ones.
Proof.
  intros H6. unfold parseNetmask. case_decide as He; [intros [= <-]; by exists 24|].
  destruct (ParseIP parse6 netmask) as [ip|] eqn:Hp; [|done]. cbn [mbind option_bind]. destruct (To4 ip) as [m|] eqn:H4; [|done].
  assert (Hb : Forall byte_ok ip).
  { revert Hp. unfold ParseIP. destruct (first_sep netmask) as [c|]; [|done]. case_decide; [apply parseIPv4_bytes|]. case_decide; [apply H6|done]. }
  destruct (To4_bytes ip m Hb H4) as [Hlen Hm]. unfold mask_Size. destruct (simpleMaskLength m) as [ones|] eqn:Hs; [|done].
  case_match; [done|]. intros [= <-]. apply simpleMaskLength_spec in Hs as [Ho Hv]; [|done]. rewrite Hlen in *. exists ones. unfold cidr_val. split; [lia|done].
Qed.

(** ** The network a guest gets *)

Definition text (l : list Z) : string := match l with [a; b; c; d] => ip4_String a b c d | _ => "" end.
Definition v4_ok (l : list Z) : Prop := length l = 4%nat ∧ Forall byte_ok l.
Definition mapped (l : list Z) : list Z := v4InV6Prefix ++ l.

Lemma ParseIP_text parse6 l : v4_ok l → ParseIP parse6 (text l) = Some (mapped l) ∧ To4 (mapped l) = Some l ∧ text l ≠ "".
Proof.
  intros [Hl Hb]. destruct l as [|a [|b [|c [|d []]]]]; try done. rewrite !Forall_cons in Hb. destruct Hb as (Ha & Hb & Hc & Hd & _).
  destruct (ParseIP_String parse6 a b c d Ha Hb Hc Hd) as [H1 H2]. split_and!; [done..|]. unfold text, ip4_String.
  pose proof (fmt_d_nonempty a (proj1 Ha)). by destruct (fmt_d a).
Qed.

Lemma CIDRMask_ok ones : 0 ≤ ones ≤ 32 → v4_ok (CIDRMask ones).
Proof.
  intros Ho. split; [done|]. assert (E : forallb (λ k, forallb (λ b, (0 <=? b) && (b <? 256)) (CIDRMask (Z.of_nat k))) (seq 0 33) = true) by (vm_compute; reflexivity).
  rewrite forallb_forall in E. specialize (E (Z.to_nat ones)). rewrite Z2Nat.id in E by lia. specialize (E ltac:(apply in_seq; lia)).
  apply Forall_forall. intros b Hb%list_elem_of_In. rewrite forallb_forall in E. specialize (E b Hb). unfold byte_ok. lia.
Qed.

Lemma parseNetmask_text parse6 ones : 0 ≤ ones ≤ 32 → parseNetmask parse6 (text (CIDRMask ones)) = Ok (CIDRMask ones).
Proof.
  intros Ho. destruct (ParseIP_text parse6 _ (CIDRMask_ok ones Ho)) as (H1 & H2 & H3). unfold parseNetmask. rewrite decide_False, H1 by done.
  cbn [mbind option_bind]. rewrite H2, CIDRMask_Size by done. cbn [andb]. by rewrite andb_false_r.
Qed.

(** No call fails. *)
Definition calm (env : genv) : Prop :=
  (∀ k, ge_link env k = None) ∧ ge_setMAC env = None ∧ ge_setUp env = None ∧ ge_addr env = None ∧ (∀ d, ge_route env d = None) ∧ ge_resolv env = None.

Definition looked (w : gnet) : gnet := mkNet (gn_links w) (gn_routes w) (gn_resolv w) (S (gn_looks w)).

(** The texts of what may be left out. *)
Definition mac_arg (hw : option (list Z)) : string := match hw with Some h => mac_String h | None => "" end.
Definition gw_arg (gw : option (list Z)) : string := match gw with Some g => text g | None => "" end.

Section exact.
Context (parse6 : string → option (list Z)) (env : genv) (Hcalm : calm env).
Context (n : NetworkIdentity) (hw : option (list Z)) (ip : list Z) (gw : option (list Z)) (ones : Z).
Context (Hip : v4_ok ip) (Hgw : ∀ g, gw = Some g → v4_ok g) (Hones : 0 ≤ ones ≤ 32).
Context (Hhw : ∀ h, hw = Some h → length h = 6%nat ∧ Forall byte_ok h).
Context (Eip : ni_IP n = text ip) (Egw : ni_Gateway n = gw_arg gw).
Context (Emask : ni_Netmask n = text (CIDRMask ones) ∨ ni_Netmask n = "" ∧ ones = 24).
Context (Hnet : ∀ g, gw = Some g → GoNet.ip_Mask ip (CIDRMask ones) = GoNet.ip_Mask g (CIDRMask ones)).

#[local] Abbreviation dev := (device n).
#[local] Abbreviation addr := (mapped ip, CIDRMask ones).

Lemma LinkByName_calm w l : gn_links w !! dev = Some l → LinkByName env dev w = (Ok l, looked w).
Proof. intros Hl. unfold LinkByName. by rewrite (proj1 Hcalm), Hl. Qed.

Lemma mac_text h : hw = Some h → mac_String h ≠ "" ∧ ParseMAC (mac_String h) = Some h.
Proof.
  intros E. destruct (Hhw h E) as [Hl Hb]. split; [|by apply ParseMAC_String]. intros Em. pose proof (mac_String_length h) as H. rewrite Em, Hl in H.
  specialize (H ltac:(by destruct h)). cbn in H. lia.
Qed.

Lemma netmask_read : parseNetmask parse6 (ni_Netmask n) = Ok (CIDRMask ones).
Proof. destruct Emask as [-> | [-> ->]]; [by apply parseNetmask_text|done]. Qed.

(** The address of the NIC is changed when one is given. *)
Definition with_mac (l : glink) : glink := mkLink (default (gl_mac l) hw) (gl_up l) (gl_addrs l).

Lemma mac_step w l : gn_links w !! dev = Some l →
  (if decide (mac_arg hw = "") then ret tt
   else match ParseMAC (mac_arg hw) with
        | None => fail (errorf ("invalid MAC " +:+ fmt_q (mac_arg hw)))
        | Some mac => if decide (gl_mac l = mac) then ret tt
                      else wrapping ("set MAC " +:+ mac_String mac +:+ " on " +:+ fmt_q dev) (LinkSetHardwareAddr env dev mac)
        end) w = (Ok tt, on_link dev with_mac w).
Proof.
  intros Hl. destruct Hcalm as (_ & Hm & _). unfold mac_arg, with_mac.
  assert (Hid : ∀ f, f l = l → on_link dev f w = w).
  { intros f Hf. unfold on_link. rewrite alter_id; [by destruct w|]. intros x Hx. rewrite Hl in Hx. by injection Hx as <-. }
  pose proof mac_text as Ht. destruct hw as [h|] eqn:E; [|rewrite decide_True by done; unfold ret; by rewrite Hid by (by destruct l)].
  destruct (Ht h eq_refl) as [M1 M2]. rewrite decide_False, M2 by done. case_decide as Hs.
  - unfold ret. rewrite Hid; [done|]. cbn. subst h. by destruct l.
  - unfold wrapping, LinkSetHardwareAddr, answered. by rewrite Hm.
Qed.

(** The link as it is at the end. *)
Definition final (l : glink) : glink := mkLink (default (gl_mac l) hw) true (if decide (addr ∈ gl_addrs l) then gl_addrs l else gl_addrs l ++ [addr]).

Lemma final_final l : final (final l) = final l.
Proof.
  unfold final. cbn [gl_addrs gl_mac]. f_equal; [clear; by destruct hw|]. destruct (decide (addr ∈ gl_addrs l)) as [H|H]; [by rewrite decide_True|].
  apply decide_True. apply elem_of_app. right. by apply list_elem_of_singleton.
Qed.

Definition add_route (r : groute) (l : list groute) : list groute := if decide (Exists (λ x, rt_dst x = rt_dst r) l) then l else l ++ [r].

Lemma final_reaches g l : gw = Some g → reaches (final l) (mapped g).
Proof.
  intros E. split; [done|]. apply Exists_exists. exists addr. split.
  - cbn. case_decide; [done|]. apply elem_of_app. right. by apply list_elem_of_singleton.
  - cbn [fst snd]. unfold v4. destruct (ParseIP_text parse6 ip Hip) as (_ & -> & _). destruct (ParseIP_text parse6 g (Hgw g E)) as (_ & -> & _).
    cbn. by apply Hnet.
Qed.

Lemma addr_step w l : gn_links w !! dev = Some (mkLink (default (gl_mac l) hw) true (gl_addrs l)) →
  ignoring_exist (AddrAdd env dev (mapped ip) (CIDRMask ones)) w = (Ok tt, mkNet (<[dev := final l]> (gn_links w)) (gn_routes w) (gn_resolv w) (gn_looks w)).
Proof.
  intros Hl. unfold ignoring_exist, AddrAdd. rewrite Hl. cbn [gl_addrs]. destruct Hcalm as (_ & _ & _ & Ha & _). unfold final. case_decide.
  - rewrite decide_True by done. f_equal. rewrite insert_id by done. by destruct w.
  - unfold answered, on_link. rewrite Ha. f_equal. f_equal. apply map_eq. intros k. destruct (decide (k = dev)) as [->|Hk].
    + by rewrite lookup_alter_eq, Hl, lookup_insert_eq.
    + by rewrite lookup_alter_ne, lookup_insert_ne.
Qed.

Lemma route_step r g w l : gw = Some g → gn_links w !! dev = Some (final l) → rt_link r = dev → rt_gw r = mapped g →
  ignoring_exist (RouteAdd env r) w = (Ok tt, mkNet (gn_links w) (add_route r (gn_routes w)) (gn_resolv w) (gn_looks w)).
Proof.
  intros E Hl Hd Hg. unfold ignoring_exist, RouteAdd, add_route. case_decide; [rewrite decide_True by done; by destruct w|].
  rewrite Hd, Hl, Hg, decide_True by (by apply final_reaches). unfold answered. destruct Hcalm as (_ & _ & _ & _ & Hr & _). by rewrite Hr.
Qed.

Definition default_route (g : list Z) : groute := mkRoute None (mapped g) dev.
Definition metadata_route (g : list Z) : groute := mkRoute (Some metadataServiceIP) (mapped g) dev.

(** A route through the gateway, when there is one. *)
Definition via (f : list Z → groute) (rs : list groute) : list groute := match gw with Some g => add_route (f g) rs | None => rs end.

Lemma gateway_step w l : gn_links w !! dev = Some (final l) →
  (if decide (ni_Gateway n = "") then ret tt
   else match ParseIP parse6 (ni_Gateway n) with
        | None => fail (errorf ("invalid gateway " +:+ fmt_q (ni_Gateway n) +:+ " in ip= parameter"))
        | Some g => wrapping ("add default route via " +:+ ni_Gateway n) (ignoring_exist (RouteAdd env (mkRoute None g dev)))
        end) w = (Ok tt, mkNet (gn_links w) (via default_route (gn_routes w)) (gn_resolv w) (gn_looks w)).
Proof.
  intros Hl. pose proof route_step as Hrs. rewrite Egw. unfold via, gw_arg. destruct gw as [g|] eqn:E; [|rewrite decide_True by done; unfold ret; by destruct w].
  destruct (ParseIP_text parse6 g (Hgw g eq_refl)) as (Q1 & _ & Q3). rewrite decide_False, Q1 by done.
  unfold wrapping. fold (default_route g). by rewrite (Hrs (default_route g) g w l).
Qed.

Lemma configureNetwork_exact w l : gn_links w !! dev = Some l →
  configureNetwork parse6 env n (mac_arg hw) w =
  (Ok tt, mkNet (<[dev := final l]> (gn_links w)) (via default_route (gn_routes w)) (gn_resolv w) (S (gn_looks w))).
Proof.
  intros Hl. unfold configureNetwork. destruct (ParseIP_text parse6 ip Hip) as (P1 & _ & P3).
  rewrite netmask_read, Eip, (decide_False (P := text ip = "")), P1 by done. unfold bind at 1, lift. cbv beta iota.
  unfold bind at 1. unfold wrapping at 1, linkByNameWait, attempts. cbn [link_wait]. rewrite (LinkByName_calm w l Hl). unfold bind at 1.
  rewrite (mac_step (looked w) l Hl). set (w1 := on_link dev _ (looked w)).
  assert (H1 : gn_links w1 !! dev = Some (with_mac l)) by exact (on_link_lookup dev _ (looked w) l Hl).
  unfold bind at 1, wrapping at 1, LinkSetUp, answered. destruct Hcalm as (_ & _ & Hu & _). rewrite Hu. set (w2 := on_link dev _ w1).
  assert (H2 : gn_links w2 !! dev = Some (mkLink (default (gl_mac l) hw) true (gl_addrs l))) by exact (on_link_lookup dev _ w1 _ H1).
  unfold bind at 1, wrapping at 1. rewrite (addr_step w2 l H2). rewrite (gateway_step _ l); [|cbn; by rewrite lookup_insert_eq].
  f_equal. f_equal. cbn. apply map_eq. intros k. destruct (decide (k = dev)) as [->|Hk]; [by rewrite !lookup_insert_eq|].
  by rewrite !lookup_insert_ne, !lookup_alter_ne by done.
Qed.

Lemma metadata_exact w l : gn_links w !! dev = Some (final l) →
  ∃ k, (configureMetadataRoute parse6 env n w).2 =
    mkNet (gn_links w) (if ni_MetadataRoute n then via metadata_route (gn_routes w) else gn_routes w) (gn_resolv w) k.
Proof.
  intros Hl. pose proof route_step as Hrs. pose proof LinkByName_calm as Hlc. unfold configureMetadataRoute. rewrite Egw.
  unfold via, gw_arg. destruct gw as [g|] eqn:E.
  2: { rewrite decide_True by done. exists (gn_looks w). destruct (ni_MetadataRoute n); by destruct w. }
  destruct (ParseIP_text parse6 g (Hgw g eq_refl)) as (Q1 & _ & Q3). rewrite decide_False, Q1 by done.
  destruct (ni_MetadataRoute n); cbn [negb]; [|exists (gn_looks w); by destruct w]. unfold bind, wrapping. rewrite (Hlc w _ Hl).
  fold (metadata_route g). rewrite (Hrs (metadata_route g) g (looked w) l) by done. by eexists.
Qed.

Definition resolv_after (w : gnet) : option string := if (length (ni_DNS n) =? 0)%nat then gn_resolv w else Some (resolvConf (ni_DNS n)).

Lemma applyNetwork_exact w l : gn_links w !! dev = Some l →
  ∃ k, applyNetwork parse6 env n (mac_arg hw) w =
    mkNet (<[dev := final l]> (gn_links w))
      (if ni_MetadataRoute n then via metadata_route (via default_route (gn_routes w)) else via default_route (gn_routes w)) (resolv_after w) k.
Proof.
  intros Hl. unfold applyNetwork. rewrite (configureNetwork_exact w l Hl). cbn [snd].
  set (w1 := mkNet _ _ _ _). assert (Hd : ∃ k, (configureDNS env n w1).2 = mkNet (gn_links w1) (gn_routes w1) (resolv_after w) k).
  { unfold configureDNS, resolv_after. destruct (length (ni_DNS n) =? 0)%nat; [by eexists|]. unfold wrapping, answered.
    destruct Hcalm as (_ & _ & _ & _ & _ & ->). by eexists. }
  destruct Hd as [k ->]. apply (metadata_exact (mkNet (gn_links w1) (gn_routes w1) (resolv_after w) k) l). cbn. by rewrite lookup_insert_eq.
Qed.
End exact.

(** The routes of a guest that had none. *)
Definition routes_for (n : NetworkIdentity) (gw : option (list Z)) : list groute :=
  match gw with
  | Some g => default_route n g :: (if ni_MetadataRoute n then [metadata_route n g] else [])
  | None => []
  end.

(** C26: The network a guest that had no routes is left with when no call fails
    and its device is there: for an IPv4 address, a contiguous netmask or
    none (then a /24), an IPv4 gateway in the address's network or none, and
    a six-byte MAC to take or none (at boot). The device has the address and
    is up, with the MAC if one was given and its own otherwise; other
    devices are untouched; the default route goes through the gateway, with
    a route to the metadata service when asked for, and there is no route
    without a gateway; resolv.conf has the name servers if there are any; a
    second Apply, as on a resume, leaves all of it as it is. *)
Theorem network_applied parse6 env n hw ip gw ones w l : calm env →
  v4_ok ip → (∀ g, gw = Some g → v4_ok g) → 0 ≤ ones ≤ 32 → (∀ h, hw = Some h → length h = 6%nat ∧ Forall byte_ok h) →
  ni_IP n = text ip → ni_Gateway n = gw_arg gw → (ni_Netmask n = text (CIDRMask ones) ∨ ni_Netmask n = "" ∧ ones = 24) →
  (∀ g, gw = Some g → GoNet.ip_Mask ip (CIDRMask ones) = GoNet.ip_Mask g (CIDRMask ones)) →
  gn_links w !! device n = Some l → gn_routes w = [] →
  let w1 := applyNetwork parse6 env n (mac_arg hw) w in
  gn_links w1 !! device n = Some (final hw ip ones l) ∧
  (∀ d, d ≠ device n → gn_links w1 !! d = gn_links w !! d) ∧
  gn_routes w1 = routes_for n gw ∧
  gn_resolv w1 = resolv_after n w ∧
  let w2 := applyNetwork parse6 env n (mac_arg hw) w1 in
  gn_links w2 = gn_links w1 ∧ gn_routes w2 = gn_routes w1 ∧ gn_resolv w2 = gn_resolv w1.
Proof.
  intros Hc Hip Hgw Ho Hhw Eip Egw Em Hnet Hl Hr w1.
  destruct (applyNetwork_exact parse6 env Hc n hw ip gw ones Hip Hgw Ho Hhw Eip Egw Em Hnet w l Hl) as [k E1]. fold w1 in E1.
  assert (Hl1 : gn_links w1 !! device n = Some (final hw ip ones l)) by (rewrite E1; apply lookup_insert_eq).
  split; [done|]. split; [intros d Hd; rewrite E1; by apply lookup_insert_ne|].
  assert (Hr1 : gn_routes w1 = routes_for n gw).
  { rewrite E1, Hr. unfold via, routes_for. by destruct gw, (ni_MetadataRoute n). }
  split; [done|]. assert (Hv1 : gn_resolv w1 = resolv_after n w) by (by rewrite E1). split; [done|].
  destruct (applyNetwork_exact parse6 env Hc n hw ip gw ones Hip Hgw Ho Hhw Eip Egw Em Hnet w1 _ Hl1) as [k2 E2]. cbv zeta. rewrite E2. clear E2.
  cbn [gn_links gn_routes gn_resolv]. split_and!.
  - apply insert_id. rewrite Hl1. f_equal. symmetry. apply final_final.
  - rewrite Hr1. unfold via, routes_for. by destruct gw, (ni_MetadataRoute n).
  - unfold resolv_after. rewrite Hv1. unfold resolv_after. by destruct (length (ni_DNS n) =? 0)%nat.
Qed.

Definition calm_env : genv := mkGenv (λ _, None) (λ _, None) None None None (λ _, None) None.
Definition net_before : gnet := mkNet {["eth0" := mkLink [82; 84; 0; 0; 0; 1] false []]} [] None 0.
Definition identity0 : NetworkIdentity := mkNetworkIdentity "10.88.0.9" "10.88.0.1" "255.255.0.0" "" ["1.1.1.1"; "9.9.9.9"] true.

(** The identity of a restored guest, and one read at boot: no MAC, the default mask. *)
Definition identity1 : NetworkIdentity := mkNetworkIdentity "10.88.0.9" "10.88.0.1" "" "eth0" [] false.

Lemma network_applied_witness :
  gn_routes (applyNetwork (λ _, None) calm_env identity0 (mac_arg (Some [82; 84; 0; 0; 0; 2])) net_before) =
    [mkRoute None (mapped [10; 88; 0; 1]) "eth0"; mkRoute (Some metadataServiceIP) (mapped [10; 88; 0; 1]) "eth0"] ∧
  gn_routes (applyNetwork (λ _, None) calm_env identity1 (mac_arg None) net_before) = [mkRoute None (mapped [10; 88; 0; 1]) "eth0"].
Proof.
  split.
  - refine (proj1 (proj2 (proj2 (network_applied (λ _, None) calm_env identity0 (Some [82; 84; 0; 0; 0; 2]) [10; 88; 0; 9] (Some [10; 88; 0; 1]) 16 net_before
      (mkLink [82; 84; 0; 0; 0; 1] false []) _ _ _ _ _ _ _ _ _ _ _)))); try (vm_compute; reflexivity); try lia;
      try (split; [reflexivity | repeat constructor; vm_compute; congruence]);
      try (intros ? [= <-]; split; [reflexivity | repeat constructor; vm_compute; congruence]);
      try (intros ? [= <-]; vm_compute; reflexivity). left. vm_compute. reflexivity.
  - refine (proj1 (proj2 (proj2 (network_applied (λ _, None) calm_env identity1 None [10; 88; 0; 9] (Some [10; 88; 0; 1]) 24 net_before
      (mkLink [82; 84; 0; 0; 0; 1] false []) _ _ _ _ _ _ _ _ _ _ _)))); try (vm_compute; reflexivity); try lia;
      try (split; [reflexivity | repeat constructor; vm_compute; congruence]);
      try (intros ? [= <-]; split; [reflexivity | repeat constructor; vm_compute; congruence]);
      try (intros ? [= <-]; vm_compute; reflexivity); try (intros ? [=]). right. split; reflexivity.
Defined.

Lemma configure_sound_witness : configured (λ _, None) identity0 "52:54:00:00:00:02"
  (configureNetwork (λ _, None) calm_env identity0 "52:54:00:00:00:02" net_before).2.
Proof. apply (configure_sound (λ _, None) calm_env ltac:(by split) identity0 "52:54:00:00:00:02" net_before tt); [done|vm_compute; reflexivity]. Defined.

(** A default route through another gateway stays: the kernel answers EEXIST, which is
    taken to mean that the route is there. *)
Lemma second_gateway_ignored : ∀ parse6, let w := mkNet {["eth0" := mkLink [82; 84; 0; 0; 0; 1] true []]} [mkRoute None (mapped [10; 1; 0; 1]) "eth0"] None 0 in
  let r := configureNetwork parse6 calm_env identity0 EmptyString w in
  r.1 = Ok tt ∧ gn_routes r.2 = [mkRoute None (mapped [10; 1; 0; 1]) "eth0"].
Proof. intros parse6. vm_compute. by split. Qed.
