(* ===== verification/PlatformNet.v ===== *)
(** The network of a VM as the shim sets it up: internal/shim/platform/network/linux.go
    over the CNI manager of host networking (Network) and the NICs of the machine
    (VMDevices), LoadNetworkConfig of internal/host/network/network.go, and
    updateContainerLabels of internal/shim/task/labels.go.

    Setup is proved against an interface ([NetworkManager]), which the CNI manager
    implements.  The resolver library that reads the host's resolv.conf and the containerd
    client are parameters. *)
From S2P Require Import Prelude GoStrings GoText GoState GoNet Conc Cmdline Network NetworkProps VMDevices QemuInstance Restore GuestNet.

(** ** The interface *)

(** [nm_result s id]: what is remembered of a container.  [nm_quiet id s]: no other call
    for this container is in progress. *)
Class NetworkManager (S : Type) := {
  EnsureNetworkResources : string → ST S CNIResult;
  ReleaseNetworkResources : string → ST S ();
  nm_result : S → string → option CNIResult;
  nm_quiet : string → S → Prop;
  ensure_remembers : ∀ id s r s', nm_quiet id s → EnsureNetworkResources id s = (Ok r, s') → nm_result s' id = Some r ∧ nm_quiet id s';
  ensure_failure : ∀ id s e s', nm_quiet id s → EnsureNetworkResources id s = (Err e, s') → nm_result s' id = None;
  release_forgets : ∀ id s r s', nm_quiet id s → ReleaseNetworkResources id s = (r, s') → nm_result s' id = None
}.

(** ** linux.go *)

(** [resolvconf.GetSpecific], [FilterResolvDNS] and [GetNameservers]. *)
Record resolver := mkResolver {
  rs_read : res string;
  rs_filter : string → res string;
  rs_nameservers : string → list string
}.

Definition resolveHostDNSServers (rs : resolver) : list string :=
  match rs_read rs with
  | Err _ => []
  | Ok content =>
      match rs_filter rs content with
      | Err _ => []
      | Ok filtered => rs_nameservers rs filtered
      end
  end.

Section setup.
Context {S : Type} `{!NetworkManager S} (rs : resolver).

Definition manager_call {A} (m : ST S A) : ST (S * Machine) A := λ w, let '(r, s) := m w.1 in (r, (s, w.2)).
Definition machine_call {A} (m : ST Machine A) : ST (S * Machine) A := λ w, let '(r, v) := m w.2 in (r, (w.1, v)).

(** The release whose error is logged, and the error that is returned. *)
Definition released {A} (id : string) (e : error) : ST (S * Machine) A :=
  attempt (manager_call (ReleaseNetworkResources id)) ;;! fail e.

Definition Setup (containerID : string) : ST (S * Machine) SetupResult :=
  do! info := wrapping "allocate network resources" (manager_call (EnsureNetworkResources containerID)) in
  if decide (TAPMAC info = "") then released containerID (errorf "CNI did not report TAP MAC address")
  else match ParseMAC (TAPMAC info) with
  | None => released containerID (errorf ("invalid CNI TAP MAC address " +:+ fmt_q (TAPMAC info)))
  | Some guestMAC =>
      do! added := attempt (machine_call (AddTAPNIC (TAPDevice info) (mac_String guestMAC))) in
      match added with
      | Err e => released containerID (wrap "add TAP NIC to VM" e)
      | Ok _ =>
          let dns := resolveHostDNSServers rs in
          let dnsServers := if (length dns =? 0)%nat then ["8.8.8.8"; "8.8.4.4"] else dns in
          ret (mkSetupResult (Some (mkNetworkConfig "eth0" (IPAddress info) (Gateway info) (Netmask info) dnsServers))
                 (TAPDevice info) (TAPMAC info))
      end
  end.

(** What the machine has after a set-up that succeeded. *)
Definition with_nic (tap mac : string) (m : Machine) : Machine :=
  mkMachine (mn_state m) (mn_disks m) (mn_nets m ++ [mkNetConfig ("net" +:+ fmt_d (Z.of_nat (length (mn_nets m)))) tap false mac]).

Lemma released_spec {A} id e w r w' : nm_quiet id w.1 → released (A := A) id e w = (r, w') → is_ok r = false ∧ nm_result w'.1 id = None ∧ w'.2 = w.2.
Proof.
  intros Hq. unfold released, bind, attempt, manager_call. destruct (ReleaseNetworkResources id w.1) as [x s] eqn:Hr. intros [= <- <-].
  split_and!; [done| |done]. by eapply release_forgets.
Qed.

(** A set-up over any manager leaves either nothing or a NIC: when it fails the manager remembers no
    resource of the container and the machine is as it was; when it succeeds the machine
    has one more NIC, on the TAP device the manager remembers, with its MAC, and the guest
    is given at least one name server. *)
Lemma Setup_spec id w r w' : nm_quiet id w.1 → Setup id w = (r, w') →
  match r with
  | Err _ => nm_result w'.1 id = None ∧ w'.2 = w.2
  | Ok sr => ∃ info mac c, nm_result w'.1 id = Some info ∧ ParseMAC (sr_MAC sr) = Some mac ∧ mn_state w.2 = vmStateNew ∧
               w'.2 = with_nic (TAPDevice info) (mac_String mac) w.2 ∧ sr_TAPName sr = TAPDevice info ∧
               sr_Config sr = Some c ∧ nc_IP c = IPAddress info ∧ nc_Gateway c = Gateway info ∧ nc_Netmask c = Netmask info ∧ nc_DNS c ≠ []
  end.
Proof.
  intros Hq. unfold Setup, bind at 1, wrapping, manager_call. destruct (EnsureNetworkResources id w.1) as [[info|e] s] eqn:He; cbn [fst snd].
  2: { intros [= <- <-]. split; [by eapply ensure_failure|done]. }
  apply ensure_remembers in He as [Hrem Hq']; [|done].
  assert (Hrel : ∀ e, released id e (s, w.2) = (r, w') → match r with Err _ => nm_result w'.1 id = None ∧ w'.2 = w.2 | Ok _ => False end).
  { intros e Hr. apply released_spec in Hr as (Hn & Hf & Hm); [|done]. by destruct r. }
  destruct (decide (TAPMAC info = "")) as [Hmac|Hmac]; [intros Hr%Hrel; by destruct r|].
  destruct (ParseMAC (TAPMAC info)) as [mac|] eqn:Hp; [|intros Hr%Hrel; by destruct r].
  unfold bind at 1, attempt at 1, machine_call, AddTAPNIC. cbn [fst snd]. destruct (bool_decide (mn_state w.2 = vmStateNew)) eqn:Hs; cbn [negb]; [|intros Hr%Hrel; by destruct r].
  apply bool_decide_eq_true in Hs. unfold ret. intros [= <- <-]. exists info, mac. eexists. split_and!; try done.
  cbn [nc_DNS]. destruct (resolveHostDNSServers rs); done.
Qed.
End setup.

(** ** The CNI manager *)

Definition answer {A} (r : option error * A) : res () * A := (match r.1 with Some e => Err e | None => Ok tt end, r.2).

Definition cni_quiet (id : string) (n : manager) : Prop :=
  fl_map (n_setup n) !! id = None ∧ fl_map (n_teardown n) !! id = None ∧ is_Some (n_conf n).

Section cni_manager.
Context (p : plugins) (looks : nat) (ctxErr : error).

Definition cni_ensure (id : string) : ST manager CNIResult := λ n, run (ensureNetworkResourcesCNI p looks ctxErr id) n.
Definition cni_release (id : string) : ST manager () := λ n, answer (run (releaseNetworkResourcesCNI p looks ctxErr id) n).

Lemma cni_ensure_spec id n r n' : cni_quiet id n → cni_ensure id n = (r, n') →
  (match r with Ok x => n_results n' !! id = Some x | Err _ => n_results n' !! id = None end) ∧ cni_quiet id n'.
Proof.
  intros (Hs & Ht & Hc). unfold cni_ensure, ensureNetworkResourcesCNI, cached. rewrite run_bind. cbn [run atomically].
  destruct (n_results n !! id) as [x|] eqn:Hr; [intros [= <- <-]; done|]. unfold join. rewrite run_bind. cbn [run atomically].
  change (get_flight n) with (n_setup n). unfold fl_join. rewrite Hs. cbn [run fst snd]. rewrite run_bind.
  set (n1 := put_flight _ n). pose proof (run_outside (performCNISetup p id) n1 (outside_performCNISetup p id)) as (O1 & O2 & O3 & O4).
  destruct (run (performCNISetup p id) n1) as [x n2]. cbn [snd] in *.
  assert (E : n_results n2 = n_results n ∧ n_teardown n2 = n_teardown n ∧ n_conf n2 = n_conf n) by (subst n1; cbn in *; split_and!; congruence).
  destruct E as (E1 & E2 & E3). unfold record_, deferred, close_done, leave.
  destruct x as [x|e]; cbn [run pbind atomically fst snd]; intros [= <- <-]; unfold cni_quiet; cbn.
  - rewrite lookup_insert_eq, lookup_delete_eq, E2, E3. by split_and!.
  - rewrite E1, lookup_delete_eq, E2, E3. by split_and!.
Qed.

Lemma cni_release_forgets id n r n' : cni_quiet id n → cni_release id n = (r, n') → n_results n' !! id = None.
Proof.
  intros (_ & Ht & Hc). unfold cni_release, releaseNetworkResourcesCNI, join, answer. rewrite run_bind. cbn [run atomically].
  change (get_flight n) with (n_teardown n). unfold fl_join. rewrite Ht. cbn [run fst snd]. rewrite run_bind.
  set (n1 := put_flight _ n). pose proof (run_performCNITeardown p id n1 Hc) as [Hr _].
  destruct (run (performCNITeardown p id) n1) as [cr n2]. cbn [fst snd] in Hr. unfold record_, deferred, close_done, leave. cbn.
  intros [= _ <-]. cbn. rewrite Hr. apply lookup_delete_eq.
Qed.

#[refine, export] Instance cni_NetworkManager : NetworkManager manager := {|
  EnsureNetworkResources := cni_ensure;
  ReleaseNetworkResources := cni_release;
  nm_result := λ n id, n_results n !! id;
  nm_quiet := cni_quiet
|}.
Proof.
  - intros id s r s' Hq H. by apply cni_ensure_spec in H.
  - intros id s e s' Hq H. by apply cni_ensure_spec in H as [? _].
  - intros id s r s' Hq H. by eapply cni_release_forgets.
Defined.
End cni_manager.

(** ** From the NIC to the guest's link *)

(** The link of a guest that was told of a set-up and configured itself has the MAC the
    machine's NIC was given. *)
Theorem guest_takes_nic_mac {S} `{!NetworkManager S} rs id w sr w' disks extras restored parse6 env g x g' n :
  nm_quiet id w.1 → Setup rs id w = (Ok sr, w') → fair env →
  id_Network (gi_id (identity_of (configureRequest disks extras (Some sr) restored))) = Some n →
  ni_IP n ≠ "" →
  configureNetwork parse6 env n (gi_MAC (identity_of (configureRequest disks extras (Some sr) restored))) g = (Ok x, g') →
  ∃ nic l, last (mn_nets w'.2) = Some nic ∧ gn_links g' !! device n = Some l ∧ gl_up l = true ∧ nc_MAC nic = mac_String (gl_mac l).
Proof.
  intros Hq Hs Hf Hid Hip Hc. apply (Setup_spec rs id w _ w' Hq) in Hs as (info & mac & c & _ & Hmac & _ & -> & _ & Hcfg & _).
  apply (configure_sound parse6 env Hf) in Hc as (l & ip & mask & Hl & Hup & _ & _ & _ & Hm & _); [|done].
  unfold configureRequest, identity_of in Hm. rewrite Hcfg in Hm. cbn in Hm.
  eexists _, l. unfold with_nic. cbn [mn_nets]. rewrite last_snoc. split_and!; [done..|]. cbn [nc_MAC]. f_equal.
  rewrite Hm in Hmac; [congruence|]. intros E. by rewrite E in Hmac.
Qed.

(** C31: Setting up a container's network over the CNI manager, while no other
    call works on the container: when it fails nothing of the container is
    remembered and the machine has no new NIC; when it succeeds the machine
    has exactly one more NIC, on the TAP device the CNI result names and
    with its MAC, and the configuration handed to the guest has the result's
    address and gateway and at least one name server. *)
Theorem setup_all_or_nothing p looks ctxErr rs id n m r w' : cni_quiet id n →
  Setup (NetworkManager0 := cni_NetworkManager p looks ctxErr) rs id (n, m) = (r, w') →
  match r with
  | Err _ => n_results w'.1 !! id = None ∧ w'.2 = m
  | Ok sr => ∃ info mac, n_results w'.1 !! id = Some info ∧ sr_TAPName sr = TAPDevice info ∧
               ParseMAC (sr_MAC sr) = Some mac ∧ w'.2 = with_nic (TAPDevice info) (mac_String mac) m ∧
               ∃ c, sr_Config sr = Some c ∧ nc_IP c = IPAddress info ∧ nc_Gateway c = Gateway info ∧ nc_DNS c ≠ []
  end.
Proof.
  intros Hq H. apply (Setup_spec rs id (n, m)) in H; [|exact Hq]. destruct r as [sr|e]; [|exact H].
  destruct H as (info & mac & c & H1 & H2 & H3 & H4 & H5 & H6 & H7 & H8 & H9 & H10). exists info, mac. split_and!; try done. by exists c.
Qed.

Definition no_resolver : resolver := mkResolver (Err (errorf "no such file")) Ok (λ _, []).
Definition new_machine : Machine := mkMachine vmStateNew [] [].
Definition platform_up := Setup (NetworkManager0 := cni_NetworkManager working 5 ctx_err) no_resolver "c1" (manager0, new_machine).

Lemma setup_all_or_nothing_witness :
  platform_up.1 = Ok (mkSetupResult (Some (mkNetworkConfig "eth0" "10.0.0.2" "10.0.0.1" "255.255.255.0" ["8.8.8.8"; "8.8.4.4"])) "tap0" "52:54:00:12:34:56") ∧
  ∃ info mac, n_results platform_up.2.1 !! "c1" = Some info ∧ platform_up.2.2 = with_nic (TAPDevice info) (mac_String mac) new_machine.
Proof.
  split; [vm_compute; reflexivity|].
  destruct (setup_all_or_nothing working 5 ctx_err no_resolver "c1" manager0 new_machine
    (Ok (mkSetupResult (Some (mkNetworkConfig "eth0" "10.0.0.2" "10.0.0.1" "255.255.255.0" ["8.8.8.8"; "8.8.4.4"])) "tap0" "52:54:00:12:34:56"))
    platform_up.2) as (info & mac & H1 & _ & _ & H2 & _).
  - split_and!; [vm_compute; reflexivity..|by eexists].
  - vm_compute. reflexivity.
  - by exists info, mac.
Defined.

Lemma guest_takes_nic_mac_witness : let sr := mkSetupResult (Some (mkNetworkConfig "eth0" "10.0.0.2" "10.0.0.1" "255.255.255.0" ["8.8.8.8"; "8.8.4.4"])) "tap0" "52:54:00:12:34:56" in
  let n := mkNetworkIdentity "10.0.0.2" "10.0.0.1" "255.255.255.0" "eth0" ["8.8.8.8"; "8.8.4.4"] false in
  ∃ nic l, last (mn_nets platform_up.2.2) = Some nic ∧
    gn_links (configureNetwork (λ _, None) calm_env n "52:54:00:12:34:56" net_before).2 !! "eth0" = Some l ∧ nc_MAC nic = mac_String (gl_mac l).
Proof.
  intros sr n. destruct (guest_takes_nic_mac (NetworkManager0 := cni_NetworkManager working 5 ctx_err) no_resolver "c1" (manager0, new_machine) sr platform_up.2 1 None true
    (λ _, None) calm_env net_before tt (configureNetwork (λ _, None) calm_env n "52:54:00:12:34:56" net_before).2 n) as (nic & l & H1 & H2 & _ & H3).
  - split_and!; [vm_compute; reflexivity..|by eexists].
  - vm_compute. reflexivity.
  - by split.
  - done.
  - done.
  - vm_compute. reflexivity.
  - by exists nic, l.
Defined.

(** ** network.go: where the CNI configuration is *)

Record CNIDirs := mkCNIDirs { CNIConfDir : string; CNIBinDir : string }.

Definition LoadNetworkConfig (getenv : string → string) (exists_ : string → bool) : CNIDirs :=
  let confDir := getenv "SPINBOX_CNI_CONF_DIR" in
  if negb (bool_decide (confDir = "")) then
    let binDir := getenv "SPINBOX_CNI_BIN_DIR" in
    mkCNIDirs confDir (if decide (binDir = "") then "/opt/cni/bin" else binDir)
  else if exists_ (path_Join ["/usr/share/spin-stack"; "config"; "cni"; "net.d"]) then
    mkCNIDirs (path_Join ["/usr/share/spin-stack"; "config"; "cni"; "net.d"]) (path_Join ["/usr/share/spin-stack"; "libexec"; "cni"])
  else mkCNIDirs "/etc/cni/net.d" "/opt/cni/bin".

(** [NewCNIManager] refuses empty directories; it is never given one. *)
Lemma LoadNetworkConfig_nonempty getenv ex : CNIConfDir (LoadNetworkConfig getenv ex) ≠ "" ∧ CNIBinDir (LoadNetworkConfig getenv ex) ≠ "".
Proof.
  unfold LoadNetworkConfig. case_bool_decide as H; cbn [negb].
  - destruct (ex _); [|done]. vm_compute. done.
  - split; [done|]. cbn. by case_decide.
Qed.

(** ** labels.go *)

(** The containerd client over the store [D] behind it. *)
Record containerd (D : Type) := mkContainerd {
  cd_New : string → string → ST D ();                     (** address, namespace *)
  cd_LoadContainer : string → ST D ();
  cd_SetLabels : string → gmap string string → ST D ();
  cd_Close : ST D ()
}.
Arguments cd_New {D}. Arguments cd_LoadContainer {D}. Arguments cd_SetLabels {D}. Arguments cd_Close {D}.

Definition labelCID := "io.spin.vm.cid".
Definition labelIP := "io.spin.vm.ip".
Definition labelGateway := "io.spin.vm.gateway".
Definition labelNetmask := "io.spin.vm.netmask".
Definition labelMAC := "io.spin.vm.mac".
Definition labelTAP := "io.spin.vm.tap".

Definition vm_labels (cid : Z) (net : SetupResult) (c : NetworkConfig) : gmap string string :=
  let labels := <[labelCID := fmt_d cid]> (<[labelIP := nc_IP c]> (<[labelGateway := nc_Gateway c]> {[labelNetmask := nc_Netmask c]})) in
  let labels := if decide (sr_MAC net = "") then labels else <[labelMAC := sr_MAC net]> labels in
  if decide (sr_TAPName net = "") then labels else <[labelTAP := sr_TAPName net]> labels.

(** The errors are logged: the result is the store.  [ns] is the namespace of the context. *)
Definition updateContainerLabels {D} (cd : containerd D) (ns : option string) (id : string) (cid : Z)
    (netResult : option SetupResult) (address : string) (d : D) : D :=
  if decide (address = "") then d
  else match netResult, netResult ≫= sr_Config, ns with
  | Some net, Some c, Some ns =>
      match cd_New cd address ns d with
      | (Err _, d1) => d1
      | (Ok _, d1) =>
          let d2 := match cd_LoadContainer cd id d1 with
                    | (Err _, d2) => d2
                    | (Ok _, d2) => (cd_SetLabels cd id (vm_labels cid net c) d2).2
                    end in
          (cd_Close cd d2).2
      end
  | _, _, _ => d
  end.

(** The labels of a network that was set up over CNI: all six, with what the result says. *)
Lemma vm_labels_spec cid net c : sr_MAC net ≠ "" → sr_TAPName net ≠ "" → let l := vm_labels cid net c in
  l !! labelCID = Some (fmt_d cid) ∧ l !! labelIP = Some (nc_IP c) ∧ l !! labelGateway = Some (nc_Gateway c) ∧
  l !! labelNetmask = Some (nc_Netmask c) ∧ l !! labelMAC = Some (sr_MAC net) ∧ l !! labelTAP = Some (sr_TAPName net) ∧ size l = 6%nat.
Proof. intros Hm Ht. unfold vm_labels. rewrite !decide_False by done. generalize (fmt_d cid). intros v. split_and!; reflexivity. Qed.

(** A client is closed as often as it is made, and labels are only set on a client that
    was made and a container that was found. *)
Definition counting (new load set_ : bool) : containerd (nat * nat * nat) :=
  let answer (b : bool) := if b then Ok tt else Err (errorf "unavailable") in
  mkContainerd _ (λ _ _ '(a, b, c), (answer new, (if new then S a else a, b, c))) (λ _ w, (answer load, w))
    (λ _ _ '(a, b, c), (answer set_, (a, b, if set_ then S c else c))) (λ '(a, b, c), (Ok tt, (a, S b, c))).

Lemma labels_close new load set_ ns id cid net address :
  let '(made, closed, labelled) := updateContainerLabels (counting new load set_) ns id cid net address (0, 0, 0)%nat in
  made = closed ∧ (labelled ≤ made)%nat.
Proof.
  unfold updateContainerLabels. case_decide; [split; [done|lia]|]. destruct net as [net|]; [|split; [done|lia]]. cbn [mbind option_bind].
  destruct (sr_Config net), ns; try (split; [done|lia]). destruct new, load, set_; cbn; split; lia.
Qed.

(** ** cni.go: the configuration that is cached *)

(** [libcni]: the configuration files of a directory in order, and the name of the network
    a file describes. *)
Record libcni := mkLibcni {
  lc_ConfFiles : string → res (list string);
  lc_ConfListFromFile : string → res string
}.

Definition loadNetworkConfigFromDisk (lc : libcni) (confDir : string) : res string :=
  match lc_ConfFiles lc confDir with
  | Err e => Err (wrap ("failed to read CNI config files from " +:+ confDir) e)
  | Ok [] => Err (errorf ("no CNI configuration files found in " +:+ confDir))
  | Ok (confFile :: _) =>
      match lc_ConfListFromFile lc confFile with
      | Err e => Err (wrap ("failed to load CNI config from " +:+ confFile) e)
      | Ok c => Ok c
      end
  end.

(** The configuration of a new manager. *)
Definition NewCNIManager (lc : libcni) (confDir binDir : string) : res string :=
  if decide (confDir = "") then Err (errorf "CNI conf directory cannot be empty")
  else if decide (binDir = "") then Err (errorf "CNI bin directory cannot be empty")
  else match loadNetworkConfigFromDisk lc confDir with
       | Err e => Err (wrap "failed to load initial CNI config" e)
       | Ok c => Ok c
       end.

Definition InitNetworkManager (lc : libcni) (getenv : string → string) (exists_ : string → bool) (h : host) : res manager :=
  let d := LoadNetworkConfig getenv exists_ in
  match NewCNIManager lc (CNIConfDir d) (CNIBinDir d) with
  | Err e => Err (wrap "create CNI network manager" (wrap "failed to create CNI manager" e))
  | Ok c => Ok (newManager (Some c) h)
  end.

(** A manager that comes up has the configuration of the first file of its directory, and
    is ready for any container. *)
Lemma InitNetworkManager_quiet lc getenv ex h n id : InitNetworkManager lc getenv ex h = Ok n →
  cni_quiet id n ∧ n_results n = ∅ ∧
  ∃ f fs, lc_ConfFiles lc (CNIConfDir (LoadNetworkConfig getenv ex)) = Ok (f :: fs) ∧ lc_ConfListFromFile lc f = from_option Ok (Err (errorf "")) (n_conf n).
Proof.
  unfold InitNetworkManager, NewCNIManager, loadNetworkConfigFromDisk. destruct (LoadNetworkConfig_nonempty getenv ex) as [Hc Hb].
  rewrite !decide_False by done. destruct (lc_ConfFiles lc _) as [[|f fs]|]; [done| |done]. destruct (lc_ConfListFromFile lc f) as [c|] eqn:Ef; [|done].
  intros [= <-]. split; [unfold cni_quiet, newManager; cbn; split_and!; [done..|by eexists]|]. split; [done|]. by exists f, fs.
Qed.
