(* ===== verification/Kmsg.v ===== *)
(** The guest's reading of the kernel log: internal/guest/vminit/system/kmsg.go (the boot
    profile from /dev/kmsg and from the initcall tracepoints), entropy.go (the message that
    says the random pool was reseeded) and profile.go (the marks of the boot phases).

    The regular expressions have no two ways to match at one place: every repetition is
    followed by a character outside its class, so a match is a chain of [CutPrefix] and
    [span1].  A read of /dev/kmsg gives one record or an error; [reads k] is the answer to
    the [k]-th read. *)
From S2P Require Import Prelude GoStrings GoText.
From stdpp Require Import sorting.
From Stdlib Require Import Ascii.
Open Scope Z_scope.

(** ** Patterns *)

Definition non_space (c : ascii) : bool := negb (is_re_space c).

(** The leftmost place where the pattern matches. *)
Fixpoint find_match {A} (at_ : string → option A) (s : string) : option A :=
  match at_ s with
  | Some a => Some a
  | None => match s with EmptyString => None | String _ s' => find_match at_ s' end
  end.

(** [initcall (\S+) returned \S+ after (\d+) usecs] *)
Definition kmsgInitcall_at (s : string) : option (string * string) :=
  s ← CutPrefix "initcall " s;
  '(name, s) ← span1 non_space s;
  s ← CutPrefix " returned " s;
  '(_, s) ← span1 non_space s;
  s ← CutPrefix " after " s;
  '(usec, s) ← span1 is_digit s;
  _ ← CutPrefix " usecs" s;
  Some (name, usec).

(** [^calling  \S+ @ ] *)
Definition kmsgCallingRE (s : string) : bool :=
  bool_decide (is_Some (s ← CutPrefix "calling  " s; '(_, s) ← span1 non_space s; CutPrefix " @ " s)).

(** [\s(\d+)\.(\d{6}): initcall_]: the seconds, the microseconds, and the rest. *)
Definition traceStamp_at (s : string) : option (string * string * string) :=
  match s with
  | String c s =>
      if is_re_space c then
        '(sec, s) ← span1 is_digit s;
        s ← CutPrefix "." s;
        let frac := str_take 6 s in
        if (String.length frac =? 6)%nat && all_chars is_digit frac
        then s ← CutPrefix ": initcall_" (str_drop 6 s); Some (sec, frac, s)
        else None
      else None
  | EmptyString => None
  end.

(** [(start|finish): func=(\S+)] after the stamp; [true]: start. *)
Definition traceInitcall_at (s : string) : option (string * string * bool * string) :=
  '(sec, frac, s) ← traceStamp_at s;
  '(start, s) ← (match CutPrefix "start" s with
                 | Some s => Some (true, s)
                 | None => s ← CutPrefix "finish" s; Some (false, s)
                 end);
  s ← CutPrefix ": func=" s;
  '(name, _) ← span1 non_space s;
  Some (sec, frac, start, name).

(** [level: level=(\S+)] after the stamp. *)
Definition traceLevel_at (s : string) : option (string * string * string) :=
  '(sec, frac, s) ← traceStamp_at s;
  s ← CutPrefix "level: level=" s;
  '(name, _) ← span1 non_space s;
  Some (sec, frac, name).

(** [strconv.ParseInt(s, 10, 64)] is [strconv.Atoi] on a 64-bit machine. *)
Definition ParseInt : string → option Z := Atoi.

(** ** Records *)

Record kmsgInitcall := mkInitcall { ic_name : string; ic_usec : Z }.
Record kmsgRecord := mkKrecord { kr_tsUS : Z; kr_msg : string }.
Record kmsgGap := mkGap { kg_usec : Z; kg_atUS : Z; kg_after : string; kg_before : string }.
Record kmsgLevel := mkLevel { kl_name : string; kl_usec : Z }.

(** [strings.IndexByte]: what is before the byte and what is after it. *)
Fixpoint cut_byte (c : ascii) (s : string) : option (string * string) :=
  match s with
  | EmptyString => None
  | String a s' => if decide (a = c) then Some (EmptyString, s')
                   else '(u, v) ← cut_byte c s'; Some (String a u, v)
  end.

Definition newline : ascii := ascii_of_nat 10.

Definition parseKmsgRecord (record : string) : option (Z * string) :=
  '(header, msg) ← cut_byte ";" record;
  let msg := from_option fst msg (cut_byte newline msg) in
  let ts := match Split header "," with
            | _ :: _ :: ts :: _ => default 0 (ParseInt ts)
            | _ => 0
            end in
  Some (ts, msg).

Definition extractInitcall (msg : string) : option (string * Z) :=
  '(name, d) ← find_match kmsgInitcall_at msg; usec ← Atoi d; Some (name, usec).

(** ** Reading /dev/kmsg *)

Inductive kread := KData (s : string) | KAgain | KIntr | KPipe | KErr (e : error).

Record kacc := mkKacc { ka_calls : list kmsgInitcall; ka_records : list kmsgRecord; ka_last : Z }.

(** One record of the log. *)
Definition kmsg_record (s : string) (a : kacc) : kacc :=
  match parseKmsgRecord s with
  | None => a
  | Some (ts, msg) =>
      mkKacc (match extractInitcall msg with Some (n, u) => ka_calls a ++ [mkInitcall n u] | None => ka_calls a end)
        (ka_records a ++ [mkKrecord ts msg]) (if ka_last a <? ts then ts else ka_last a)
  end.

(** The loop of [readKmsgInitcalls]; [None]: the fuel is used up. *)
Fixpoint read_kmsg (fuel : nat) (reads : nat → kread) (k : nat) (a : kacc) : option (kacc * option error) :=
  match fuel with
  | O => None
  | S fuel =>
      match reads k with
      | KAgain => Some (a, None)
      | KIntr | KPipe => read_kmsg fuel reads (S k) a
      | KErr e => Some (a, Some e)
      | KData s => if decide (s = EmptyString) then Some (a, None) else read_kmsg fuel reads (S k) (kmsg_record s a)
      end
  end.

Definition readKmsgInitcalls (fuel : nat) (open_ : option error) (reads : nat → kread) : option (kacc * option error) :=
  match open_ with
  | Some e => Some (mkKacc [] [] 0, Some e)
  | None => read_kmsg fuel reads 0 (mkKacc [] [] 0)
  end.

(** [kmsgContains] *)
Fixpoint search_kmsg (fuel : nat) (reads : nat → kread) (k : nat) (needle : string) : option (res bool) :=
  match fuel with
  | O => None
  | S fuel =>
      match reads k with
      | KAgain => Some (Ok false)
      | KIntr | KPipe => search_kmsg fuel reads (S k) needle
      | KErr e => Some (Err e)
      | KData s => if Contains s needle then Some (Ok true) else search_kmsg fuel reads (S k) needle
      end
  end.

Definition kmsgContains (fuel : nat) (open_ : option error) (reads : nat → kread) (needle : string) : option (res bool) :=
  match open_ with
  | Some e => Some (Err e)
  | None => search_kmsg fuel reads 0 needle
  end.

Definition vmforkReseedMessage : string := "crng reseeded due to virtual machine fork".

Definition CheckEntropyReseed (fuel : nat) (open_ : option error) (reads : nat → kread) : option bool :=
  (λ r, match r with Ok b => b | Err _ => false end) <$> kmsgContains fuel open_ reads vmforkReseedMessage.

(** ** Gaps *)

(** [sort.Slice] by a key, the largest first: some order of the elements, not a
    particular one among those of equal keys. *)
Class SortSlice := {
  sort_desc : ∀ {A : Type}, (A → Z) → list A → list A;
  sort_desc_perm : ∀ {A : Type} (key : A → Z) l, sort_desc key l ≡ₚ l;
  sort_desc_sorted : ∀ {A : Type} (key : A → Z) l, StronglySorted (λ x y, key y ≤ key x) (sort_desc key l)
}.

Definition kmsgGapsN : nat := 10.
Definition kmsgGapFloorUS : Z := 500.
Definition kmsgTopN : nat := 25.

Fixpoint silent (records : list kmsgRecord) : list kmsgGap :=
  match records with
  | a :: (b :: _) as rest =>
      let d := int64_wrap (kr_tsUS b - kr_tsUS a) in
      if (d <? kmsgGapFloorUS) || kmsgCallingRE (kr_msg a) then silent rest
      else mkGap d (kr_tsUS a) (kr_msg a) (kr_msg b) :: silent rest
  | _ => []
  end.

Definition kmsgGaps `{!SortSlice} (records : list kmsgRecord) : list kmsgGap :=
  let gaps := sort_desc kg_usec (silent records) in
  if (kmsgGapsN <? length gaps)%nat then take kmsgGapsN gaps else gaps.

(** ** The tracepoints *)

(** Reading the trace, by whether tracefs is mounted, and mounting it. *)
Record tracefs := mkTracefs { tf_read : bool → res string; tf_mount : option error }.

(** The contents, and whether tracefs is mounted after. *)
Definition readTracefsTrace (tf : tracefs) (mounted : bool) : option string * bool :=
  match tf_read tf mounted with
  | Ok data => (Some data, mounted)
  | Err _ =>
      match tf_mount tf with
      | Some _ => (None, mounted)
      | None => match tf_read tf true with Ok data => (Some data, true) | Err _ => (None, true) end
      end
  end.

Definition stamp_us (sec frac : string) : option Z :=
  s ← ParseInt sec; f ← ParseInt frac; Some (int64_wrap (s * 1000000 + f)).

Definition level_mark (line : string) : option (string * Z) :=
  '(sec, frac, name) ← find_match traceLevel_at line; us ← stamp_us sec frac; Some (name, us).

Fixpoint levels_of (marks : list (string * Z)) : list kmsgLevel :=
  match marks with
  | a :: (b :: _) as rest => mkLevel a.1 (int64_wrap (b.2 - a.2)) :: levels_of rest
  | _ => []
  end.

Definition initcallLevels (data : option string) : list kmsgLevel :=
  match data with
  | None => []
  | Some data =>
      let marks := omap level_mark (Split data newline) in
      if (length marks <? 2)%nat then [] else levels_of marks
  end.

(** An event: whether it starts the initcall, its name, and when. *)
Definition initcall_event (line : string) : option (bool * string * Z) :=
  '(sec, frac, start, name) ← find_match traceInitcall_at line; us ← stamp_us sec frac; Some (start, name, us).

Definition trace_event (w : gmap string Z * gmap string Z) (e : bool * string * Z) : gmap string Z * gmap string Z :=
  let '(started, out) := w in
  let '(start, name, us) := e in
  if start : bool then (<[name := us]> started, out)
  else match started !! name with
       | Some begin_ => (delete name started, <[name := int64_wrap (us - begin_)]> out)
       | None => (started, out)
       end.

Definition traceInitcallDurations (data : option string) : gmap string Z :=
  match data with
  | None => ∅
  | Some data => (foldl trace_event (∅, ∅) (omap initcall_event (Split data newline))).2
  end.

(** ** The profile *)

(** [%8d] *)
Definition pad8 (s : string) : string :=
  Nat.iter (8 - String.length s) (String " ") s.

Definition refine (traced : gmap string Z) (c : kmsgInitcall) : kmsgInitcall * bool :=
  match traced !! ic_name c with
  | Some us => (mkInitcall (ic_name c) us, true)
  | None => (c, false)
  end.

Definition count_true {A} (l : list (A * bool)) : Z := Z.of_nat (length (filter (λ x, x.2 = true) l)).

Definition sum_usec (l : list kmsgInitcall) : Z := foldl (λ s c, int64_wrap (s + ic_usec c)) 0 l.

(** The lines it logs; [None]: the fuel of the reads is used up. *)
Definition DumpKernelBootProfile `{!SortSlice} (enabled : bool) (fuel : nat) (open_ : option error) (reads : nat → kread)
    (tf : tracefs) (mounted : bool) : option (list string) :=
  if negb enabled then Some []
  else match readKmsgInitcalls fuel open_ reads with
  | None => None
  | Some (_, Some _) => Some ["kmsg boot profile: read failed"]
  | Some (a, None) =>
      if (length (ka_calls a) =? 0)%nat then Some ["kmsg boot profile: no initcall_debug records (is initcall_debug set?)"]
      else
        let '(data, mounted) := readTracefsTrace tf mounted in
        let r := refine (traceInitcallDurations data) <$> ka_calls a in
        let refined := count_true r in
        let calls := sort_desc ic_usec r.*1 in
        let n := fmt_d (Z.of_nat (length calls)) in
        let data2 := (readTracefsTrace tf mounted).1 in
        Some (("KMSG_PROFILE initcalls=" +:+ n +:+ " sum_us=" +:+ fmt_d (sum_usec r.*1) +:+ " last_ts_us=" +:+ fmt_d (ka_last a) +:+
               " source=" +:+ (if 0 <? refined then "tracepoints" else "initcall_debug") +:+ " refined=" +:+ fmt_d refined +:+ "/" +:+ n)
          :: ((λ c, "KMSG_PROFILE " +:+ pad8 (fmt_d (ic_usec c)) +:+ " us  " +:+ ic_name c) <$> take kmsgTopN calls)
          ++ ((λ g, "KMSG_GAP " +:+ pad8 (fmt_d (kg_usec g)) +:+ " us  at " +:+ pad8 (fmt_d (kg_atUS g)) +:+ " us  after: " +:+ kg_after g +:+
                    "  ||  before: " +:+ kg_before g) <$> kmsgGaps (ka_records a))
          ++ ((λ l, "KMSG_LEVEL " +:+ pad8 (fmt_d (kl_usec l)) +:+ " us  " +:+ kl_name l) <$> initcallLevels data2))
  end.

(** ** profile.go *)

Record BootProfiler := mkProfiler { bp_start : Z; bp_last : Z; bp_resolved : bool; bp_enabled : bool }.

Definition NewBootProfiler (start : Z) : BootProfiler := mkProfiler start start false false.

Definition profileEnabled (hasParam : string → string → bool) (cmdline : res string) : bool :=
  match cmdline with Ok c => hasParam c "spin.profile" | Err _ => false end.

(** [enabled] is what [profileEnabled] answers now; the time is in nanoseconds. *)
Definition Mark (enabled : bool) (now : Z) (phase : string) (p : option BootProfiler) : option BootProfiler * list string :=
  match p with
  | None => (None, [])
  | Some p =>
      let p := if bp_resolved p then p else mkProfiler (bp_start p) (bp_last p) true enabled in
      if negb (bp_enabled p) then (Some p, [])
      else (Some (mkProfiler (bp_start p) now (bp_resolved p) (bp_enabled p)),
            ["VMINITD_PROFILE " +:+ phase +:+ " delta_us=" +:+ fmt_d (Z.quot (now - bp_last p) 1000) +:+
             " total_us=" +:+ fmt_d (Z.quot (now - bp_start p) 1000)])
  end.

(** ** Draining the log *)

Definition stop (r : kread) : bool :=
  match r with KAgain | KErr _ => true | KData s => bool_decide (s = EmptyString) | KIntr | KPipe => false end.

(** The records among the first [k] reads. *)
Definition records_read (reads : nat → kread) (ks : list nat) : list string :=
  omap (λ k, match reads k with KData s => Some s | _ => None end) ks.

Definition stop_error (r : kread) : option error := match r with KErr e => Some e | _ => None end.

Lemma read_kmsg_exact reads m k a : (∀ i, (k ≤ i < k + m)%nat → stop (reads i) = false) → stop (reads (k + m)%nat) = true →
  ∀ fuel, (m < fuel)%nat → read_kmsg fuel reads k a = Some (foldl (λ a s, kmsg_record s a) a (records_read reads (seq k m)), stop_error (reads (k + m)%nat)).
Proof.
  revert k a. induction m as [|m IH]; intros k a Hgo Hstop fuel Hf; (destruct fuel as [|fuel]; [lia|]); cbn [read_kmsg].
  - rewrite Nat.add_0_r in *. unfold records_read. cbn. revert Hstop. destruct (reads k); cbn; try done.
    case_bool_decide; [|done]. intros _. by rewrite decide_True.
  - assert (Hk : stop (reads k) = false) by (apply Hgo; lia).
    assert (IH' : ∀ a, read_kmsg fuel reads (S k) a = Some (foldl (λ a s, kmsg_record s a) a (records_read reads (seq (S k) m)), stop_error (reads (k + S m)%nat))).
    { intros a'. replace (k + S m)%nat with (S k + m)%nat by lia. apply IH; [intros i Hi; apply Hgo; lia|by replace (S k + m)%nat with (k + S m)%nat by lia|lia]. }
    unfold records_read. cbn [seq omap list_omap]. revert Hk. destruct (reads k) as [s| | | |]; cbn [stop]; intros Hk; try done.
    apply bool_decide_eq_false in Hk. by rewrite decide_False, IH'.
Qed.

(** The accumulator after the records. *)
Lemma kmsg_fold l a : let r := foldl (λ a s, kmsg_record s a) a l in
  let recs := (λ p : Z * string, mkKrecord p.1 p.2) <$> omap parseKmsgRecord l in
  ka_records r = ka_records a ++ recs ∧
  ka_calls r = ka_calls a ++ omap (λ k, (λ p : string * Z, mkInitcall p.1 p.2) <$> extractInitcall (kr_msg k)) recs ∧
  ka_last r = foldl Z.max (ka_last a) (kr_tsUS <$> recs).
Proof.
  revert a. induction l as [|s l IH]; intros a; cbn [foldl omap list_omap]; [by rewrite !app_nil_r|].
  destruct (IH (kmsg_record s a)) as (I1 & I2 & I3). cbv zeta. rewrite I1, I2, I3. unfold kmsg_record.
  destruct (parseKmsgRecord s) as [[ts msg]|]; [|done]. cbn [ka_records ka_calls ka_last fmap list_fmap omap list_omap kr_msg kr_tsUS fst snd foldl].
  rewrite <- (assoc_L (++)). split_and!; [done| |].
  - destruct (extractInitcall msg) as [[n u]|]; cbn; [by rewrite <- (assoc_L (++))|done].
  - f_equal. destruct (Z.ltb_spec (ka_last a) ts); lia.
Qed.

(** The log is drained: with more fuel than there are reads before the first that ends it,
    the loop returns every record that was read, in order, the initcalls of their messages
    and the largest time stamp, and an error only when a read failed for good. *)
Theorem kmsg_drained reads m fuel : (∀ i, (i < m)%nat → stop (reads i) = false) → stop (reads m) = true → (m < fuel)%nat →
  let recs := (λ p : Z * string, mkKrecord p.1 p.2) <$> omap parseKmsgRecord (records_read reads (seq 0 m)) in
  readKmsgInitcalls fuel None reads =
  Some (mkKacc (omap (λ k, (λ p : string * Z, mkInitcall p.1 p.2) <$> extractInitcall (kr_msg k)) recs) recs (foldl Z.max 0 (kr_tsUS <$> recs)),
        stop_error (reads m)).
Proof.
  intros Hgo Hstop Hf recs. unfold readKmsgInitcalls. rewrite (read_kmsg_exact reads m 0) by (try done; intros i Hi; apply Hgo; lia).
  destruct (kmsg_fold (records_read reads (seq 0 m)) (mkKacc [] [] 0)) as (I1 & I2 & I3). fold recs in I1, I2, I3. cbn [ka_records ka_calls ka_last app] in I1, I2, I3.
  destruct (foldl _ _ _) as [x y z]. cbn in *. by subst.
Qed.

(** The search finds the needle exactly when a record before the end of the log has it. *)
Definition ends (r : kread) : bool := match r with KAgain | KErr _ => true | _ => false end.

Lemma search_exact reads needle m k : (∀ i, (k ≤ i < k + m)%nat → ends (reads i) = false) → ends (reads (k + m)%nat) = true →
  ∀ fuel, (m < fuel)%nat → search_kmsg fuel reads k needle =
    Some (if existsb (λ s, Contains s needle) (records_read reads (seq k m)) then Ok true
          else match stop_error (reads (k + m)%nat) with Some e => Err e | None => Ok false end).
Proof.
  revert k. induction m as [|m IH]; intros k Hgo Hend fuel Hf; (destruct fuel as [|fuel]; [lia|]); cbn [search_kmsg].
  - rewrite Nat.add_0_r in *. unfold records_read. cbn. revert Hend. by destruct (reads k).
  - assert (Hk : ends (reads k) = false) by (apply Hgo; lia).
    assert (IH' : search_kmsg fuel reads (S k) needle = Some (if existsb (λ s, Contains s needle) (records_read reads (seq (S k) m)) then Ok true
          else match stop_error (reads (k + S m)%nat) with Some e => Err e | None => Ok false end)).
    { replace (k + S m)%nat with (S k + m)%nat by lia. apply IH; [intros i Hi; apply Hgo; lia|by replace (S k + m)%nat with (k + S m)%nat by lia|lia]. }
    unfold records_read. cbn [seq omap list_omap]. destruct (reads k) as [s| | | |]; try done; [|by rewrite IH'..].
    cbn [existsb]. destruct (Contains s needle); [done|]. by rewrite IH'.
Qed.

(** The random pool counts as reseeded exactly when a message of the log says so. *)
Theorem reseed_detected reads m fuel : (∀ i, (i < m)%nat → ends (reads i) = false) → reads m = KAgain → (m < fuel)%nat →
  ∃ b, CheckEntropyReseed fuel None reads = Some b ∧
    (b = true ↔ ∃ i s, (i < m)%nat ∧ reads i = KData s ∧ Contains s vmforkReseedMessage = true).
Proof.
  intros Hgo Hm Hf. unfold CheckEntropyReseed, kmsgContains. rewrite (search_exact reads _ m 0); [| |by rewrite Nat.add_0_l, Hm|done].
  2: { intros i Hi. apply Hgo. lia. }
  rewrite Nat.add_0_l, Hm. cbn [stop_error]. set (b := existsb _ _). exists b. split; [by destruct b|]. subst b. rewrite existsb_exists. split.
  - intros (s & Hs & Hc). apply list_elem_of_In, list_elem_of_omap in Hs as (i & Hi & He). apply elem_of_seq in Hi. exists i, s. split_and!; [lia| |done].
    destruct (reads i); congruence.
  - intros (i & s & Hi & He & Hc). exists s. split; [|done]. apply list_elem_of_In, list_elem_of_omap. exists i. split; [apply elem_of_seq; lia|]. by rewrite He.
Qed.

(** A read of no bytes ends the reading of the profile, and not the search. *)
Lemma search_at_eof fuel k needle : needle ≠ EmptyString → search_kmsg fuel (λ _, KData EmptyString) k needle = None.
Proof. intros Hn. revert k. induction fuel as [|fuel IH]; intros k; [done|]. cbn. destruct needle; [done|]. cbn. apply IH. Qed.

(** ** What the kernel prints is read back *)

Lemma cut_byte_app c u v : all_chars (neq_char c) u = true → cut_byte c (u +:+ String c v) = Some (u, v).
Proof.
  induction u as [|a u IH]; cbn [all_chars]; rewrite ?andb_true_iff.
  - intros _. change (EmptyString +:+ String c v) with (String c v). cbn [cut_byte]. by rewrite decide_True.
  - intros [Ha Hu]. rewrite str_app_cons. cbn [cut_byte]. unfold neq_char in Ha. rewrite decide_False; [by rewrite IH|]. intros ->. by rewrite bool_decide_true in Ha.
Qed.

Lemma digits_neq c s : is_digit c = false → all_chars is_digit s = true → all_chars (neq_char c) s = true.
Proof.
  intros Hc. apply all_chars_impl. intros a Ha. unfold neq_char. case_bool_decide; [subst; congruence|done].
Qed.

Definition print_record (prio seq ts : Z) (flags msg rest : string) : string :=
  fmt_d prio +:+ String "," (fmt_d seq +:+ String "," (fmt_d ts +:+ String "," (flags +:+ String ";" (msg +:+ String newline rest)))).

Definition print_initcall (name ret : string) (usec : Z) (rest : string) : string :=
  "initcall " +:+ (name +:+ (" returned " +:+ (ret +:+ (" after " +:+ (fmt_d usec +:+ (" usecs" +:+ rest)))))).

Lemma span1_sep P u a v : u ≠ EmptyString → all_chars P u = true → P a = false → span1 P (u +:+ String a v) = Some (u, String a v).
Proof. intros Hu HP Ha. apply span1_app; [done..|]. cbn. by rewrite Ha. Qed.

Lemma extract_print name ret usec rest : name ≠ EmptyString → all_chars non_space name = true → ret ≠ EmptyString → all_chars non_space ret = true →
  0 ≤ usec < two63 → extractInitcall (print_initcall name ret usec rest) = Some (name, usec).
Proof.
  intros Hn Hns Hr Hrs Hu. unfold extractInitcall, print_initcall.
  assert (E : kmsgInitcall_at ("initcall " +:+ (name +:+ (" returned " +:+ (ret +:+ (" after " +:+ (fmt_d usec +:+ (" usecs" +:+ rest))))))) = Some (name, fmt_d usec)).
  { unfold kmsgInitcall_at. rewrite CutPrefix_app. cbn [mbind option_bind]. change (" returned " +:+ ?t) with (String " " ("returned " +:+ t)) at 1.
    rewrite (span1_sep non_space name) by done. cbn [mbind option_bind].
    change (String " " ("returned " +:+ ?t)) with (" returned " +:+ t). rewrite CutPrefix_app. cbn [mbind option_bind].
    change (" after " +:+ ?t) with (String " " ("after " +:+ t)) at 1. rewrite (span1_sep non_space ret) by done. cbn [mbind option_bind].
    change (String " " ("after " +:+ ?t)) with (" after " +:+ t). rewrite CutPrefix_app. cbn [mbind option_bind].
    change (" usecs" +:+ rest) with (String " " ("usecs" +:+ rest)) at 1.
    rewrite (span1_sep is_digit (fmt_d usec)); [|apply fmt_d_nonempty; lia|apply fmt_d_digits; lia|done]. cbn [mbind option_bind].
    change (String " " ("usecs" +:+ rest)) with (" usecs" +:+ rest). by rewrite CutPrefix_app. }
  rewrite str_app_cons in *. cbn [find_match]. rewrite E. cbn. by rewrite Atoi_fmt_d.
Qed.

(** A record of an initcall, as the kernel writes it to /dev/kmsg with its continuation
    lines, is read back with its time stamp, its name and its duration. *)
Theorem kmsg_record_roundtrip prio seq ts flags name ret usec rest :
  0 ≤ prio → 0 ≤ seq → 0 ≤ ts < two63 → 0 ≤ usec < two63 → all_chars (neq_char ";") flags = true →
  name ≠ EmptyString → all_chars non_space name = true → ret ≠ EmptyString → all_chars non_space ret = true →
  ∃ msg, parseKmsgRecord (print_record prio seq ts flags (print_initcall name ret usec EmptyString) rest) = Some (ts, msg) ∧
    extractInitcall msg = Some (name, usec).
Proof.
  intros Hp Hs Ht Hu Hf Hn Hns Hr Hrs. exists (print_initcall name ret usec EmptyString). split; [|by apply extract_print].
  unfold parseKmsgRecord, print_record. set (msg := print_initcall name ret usec EmptyString).
  assert (Hd : ∀ n c, 0 ≤ n → is_digit c = false → all_chars (neq_char c) (fmt_d n) = true) by (intros; apply digits_neq; [done|by apply fmt_d_digits]).
  assert (E : cut_byte ";" (fmt_d prio +:+ String "," (fmt_d seq +:+ String "," (fmt_d ts +:+ String "," (flags +:+ String ";" (msg +:+ String newline rest))))) =
    Some (fmt_d prio +:+ String "," (fmt_d seq +:+ String "," (fmt_d ts +:+ String "," flags)), msg +:+ String newline rest)).
  { rewrite <- (cut_byte_app ";" (fmt_d prio +:+ String "," (fmt_d seq +:+ String "," (fmt_d ts +:+ String "," flags))) (msg +:+ String newline rest)).
    - f_equal. rewrite <- !string_app_assoc, !str_app_cons, <- !string_app_assoc, !str_app_cons, <- !string_app_assoc. by rewrite !str_app_cons.
    - rewrite all_chars_app, Hd by (done || lia). cbn [all_chars andb]. rewrite all_chars_app, Hd by (done || lia). cbn [all_chars andb].
      rewrite all_chars_app, Hd by (done || lia). cbn [all_chars andb]. done. }
  rewrite E. cbn [mbind option_bind]. rewrite (cut_byte_app newline msg rest). 2: {
    unfold msg, print_initcall. assert (Hx : ∀ s, all_chars non_space s = true → all_chars (neq_char newline) s = true).
    { intros s. apply all_chars_impl. intros a Ha. unfold neq_char. case_bool_decide; [by subst|done]. }
    rewrite !all_chars_app, (Hx name), (Hx ret), (Hd usec) by (done || lia). done. }
  cbn [from_option fst]. rewrite Split_cons by (by apply Hd). rewrite Split_cons by (by apply Hd). rewrite Split_cons by (apply Hd; [lia|done]).
  unfold ParseInt. rewrite Atoi_fmt_d by done. done.
Qed.

(** ** Gaps *)

Lemma silent_spec records g : g ∈ silent records → kmsgGapFloorUS ≤ kg_usec g ∧
  ∃ i a b, records !! i = Some a ∧ records !! S i = Some b ∧ kmsgCallingRE (kr_msg a) = false ∧
    g = mkGap (int64_wrap (kr_tsUS b - kr_tsUS a)) (kr_tsUS a) (kr_msg a) (kr_msg b).
Proof.
  induction records as [|a [|b rest] IH]; [by intros ?%elem_of_nil..|].
  assert (Hrec : g ∈ silent (b :: rest) → kmsgGapFloorUS ≤ kg_usec g ∧
    ∃ i x y, (a :: b :: rest) !! i = Some x ∧ (a :: b :: rest) !! S i = Some y ∧ kmsgCallingRE (kr_msg x) = false ∧
      g = mkGap (int64_wrap (kr_tsUS y - kr_tsUS x)) (kr_tsUS x) (kr_msg x) (kr_msg y)).
  { intros (Hf & i & x & y & ? & ? & ?)%IH. split; [done|]. by exists (S i), x, y. }
  change (silent (a :: b :: rest)) with (if (int64_wrap (kr_tsUS b - kr_tsUS a) <? kmsgGapFloorUS) || kmsgCallingRE (kr_msg a) then silent (b :: rest)
    else mkGap (int64_wrap (kr_tsUS b - kr_tsUS a)) (kr_tsUS a) (kr_msg a) (kr_msg b) :: silent (b :: rest)).
  destruct (_ || _) eqn:Hc; [exact Hrec|]. intros [->|H]%elem_of_cons; [|by apply Hrec].
  apply orb_false_iff in Hc as [Hc1%Z.ltb_ge Hc2]. split; [done|]. by exists 0%nat, a, b.
Qed.

Lemma sorted_split {A} (R : A → A → Prop) l1 l2 x y : StronglySorted R (l1 ++ l2) → x ∈ l1 → y ∈ l2 → R x y.
Proof.
  induction l1 as [|z l1 IH]; cbn; intros Hs Hx Hy; [by apply elem_of_nil in Hx|].
  apply StronglySorted_inv in Hs as [Hs Hall]. apply elem_of_cons in Hx as [->|Hx]; [|by apply IH].
  rewrite Forall_forall in Hall. apply Hall, elem_of_app. by right.
Qed.

(** The gaps that are reported: at most ten, each between two consecutive records of which
    the first does not announce an initcall, each of at least the floor, the longest first,
    and none that is left out is longer than one that is reported. *)
Theorem gaps_are_the_largest `{!SortSlice} records : let gaps := kmsgGaps records in
  (length gaps ≤ kmsgGapsN)%nat ∧ StronglySorted (λ x y, kg_usec y ≤ kg_usec x) gaps ∧
  (∃ rest, gaps ++ rest ≡ₚ silent records ∧ ∀ g h, g ∈ gaps → h ∈ rest → kg_usec h ≤ kg_usec g) ∧
  (∀ g, g ∈ gaps → kmsgGapFloorUS ≤ kg_usec g ∧ ∃ i a b, records !! i = Some a ∧ records !! S i = Some b ∧
    kg_after g = kr_msg a ∧ kg_before g = kr_msg b ∧ kmsgCallingRE (kr_msg a) = false).
Proof.
  intros gaps. pose proof (sort_desc_perm kg_usec (silent records)) as Hp. pose proof (sort_desc_sorted kg_usec (silent records)) as Hs.
  assert (E : ∃ rest, gaps ++ rest = sort_desc kg_usec (silent records) ∧ (length gaps ≤ kmsgGapsN)%nat).
  { unfold gaps, kmsgGaps. destruct (Nat.ltb_spec kmsgGapsN (length (sort_desc kg_usec (silent records)))) as [Hl|Hl].
    - exists (drop kmsgGapsN (sort_desc kg_usec (silent records))). rewrite take_drop, length_take. split; [done|lia].
    - exists []. by rewrite app_nil_r. }
  destruct E as (rest & E & Hlen). rewrite <- E in Hp, Hs. split; [done|]. split_and!.
  - clear -Hs. induction gaps as [|g gaps IH]; [constructor|]. apply StronglySorted_inv in Hs as [Hs Hf]. constructor; [by apply IH|].
    by apply Forall_app in Hf as [Hf _].
  - exists rest. split; [done|]. intros g h. by apply (sorted_split (λ x y, kg_usec y ≤ kg_usec x)).
  - intros g Hg. assert (Hi : g ∈ silent records) by (rewrite <- Hp; apply elem_of_app; by left).
    apply silent_spec in Hi as (Hfl & i & a & b & Ha & Hb & Hc & Eg). split; [done|]. exists i, a, b. rewrite Eg. done.
Qed.

(** ** Levels and initcalls of the trace *)

(** The levels are those of the trace but the last, and their times add up to the time from
    the first mark to the last. *)
Theorem levels_telescope data marks first last_ : omap level_mark (Split data newline) = marks → (2 ≤ length marks)%nat →
  head marks = Some first → last marks = Some last_ → Forall (λ m, 0 ≤ m.2) marks →
  kl_name <$> initcallLevels (Some data) = take (length marks - 1) marks.*1 ∧
  foldr (λ l s, kl_usec l + s) 0 (initcallLevels (Some data)) = last_.2 - first.2.
Proof.
  intros Hm Hlen Hh Hl Hpos. unfold initcallLevels. rewrite Hm. destruct (Nat.ltb_spec (length marks) 2) as [?|_]; [lia|].
  assert (Hr : Forall (λ m : string * Z, m.2 < two63) marks).
  { subst marks. apply Forall_forall. intros m (line & _ & He)%list_elem_of_omap. revert He. unfold level_mark.
    destruct (find_match _ line) as [[[sec frac] name]|]; [|done]. cbn [mbind option_bind]. unfold stamp_us.
    destruct (ParseInt sec); [|done]. cbn [mbind option_bind]. destruct (ParseInt frac); [|done]. cbn [mbind option_bind]. intros [= <-]. cbn [snd].
    apply int64_wrap_range. }
  clear Hm data. destruct marks as [|m marks]; [done|]. injection Hh as ->. revert first Hlen Hl Hpos Hr.
  induction marks as [|b marks IH]; intros a Hlen Hl Hpos Hr; [cbn in Hlen; lia|].
  rewrite !Forall_cons in Hpos, Hr. destruct Hpos as (Pa & Pb & Ps), Hr as (Ra & Rb & Rs).
  assert (Ew : int64_wrap (b.2 - a.2) = b.2 - a.2) by (apply int64_wrap_id; unfold int64_range; lia).
  change (levels_of (a :: b :: marks)) with (mkLevel a.1 (int64_wrap (b.2 - a.2)) :: levels_of (b :: marks)).
  cbn [foldr kl_usec fmap list_fmap kl_name]. rewrite Ew. destruct marks as [|c marks].
  - cbn in *. injection Hl as <-. split; [done|lia].
  - destruct (IH b) as [I1 I2]; [cbn; lia|exact Hl|by constructor|by constructor|].
    split; [|rewrite I2; lia]. cbn [length Nat.sub fmap list_fmap take] in *. by rewrite I1.
Qed.

(** Events of initcalls that run one after the other. *)
Definition run_events (runs : list (string * (Z * Z))) : list (bool * string * Z) :=
  runs ≫= λ r, [(true, r.1, r.2.1); (false, r.1, r.2.2)].

Lemma trace_runs runs started out : NoDup runs.*1 → (∀ n, n ∈ runs.*1 → out !! n = None) →
  (foldl trace_event (started, out) (run_events runs)).2 = list_to_map (prod_map id (λ t, int64_wrap (t.2 - t.1)) <$> runs) ∪ out.
Proof.
  revert started out. induction runs as [|[n [t1 t2]] runs IH]; intros started out Hnd Hout; [cbn; by rewrite (left_id_L ∅ (∪))|].
  cbn [fmap list_fmap fst] in Hnd. apply NoDup_cons in Hnd as [Hni Hnd].
  change (run_events ((n, (t1, t2)) :: runs)) with ((true, n, t1) :: (false, n, t2) :: run_events runs). cbn [foldl trace_event].
  rewrite lookup_insert_eq. rewrite IH; [|done|].
  - cbn [fmap list_fmap list_to_map prod_map fst snd foldr]. unfold prod_map. cbn. rewrite <- insert_union_r, insert_union_l; [done|].
    apply not_elem_of_list_to_map. rewrite <- list_fmap_compose. exact Hni.
  - intros m Hm. rewrite lookup_insert_ne by (by intros ->). apply Hout. apply elem_of_cons. by right.
Qed.

(** Each initcall of the trace has the time between its start and its end. *)
Theorem trace_durations data runs : omap initcall_event (Split data newline) = run_events runs → NoDup runs.*1 →
  ∀ n t1 t2, (n, (t1, t2)) ∈ runs → traceInitcallDurations (Some data) !! n = Some (int64_wrap (t2 - t1)).
Proof.
  intros He Hnd n t1 t2 Hin. unfold traceInitcallDurations. rewrite He, trace_runs; [|done|by intros; apply lookup_empty].
  rewrite (right_id_L ∅ (∪)). apply elem_of_list_to_map.
  - rewrite <- list_fmap_compose. exact Hnd.
  - apply list_elem_of_fmap. by exists (n, (t1, t2)).
Qed.

(** ** A sorter *)

Definition key_ge {A} (key : A → Z) (x y : A) : Prop := key y ≤ key x.

#[export] Instance key_ge_dec {A} (key : A → Z) : RelDecision (key_ge key).
Proof. intros x y. unfold key_ge. apply _. Defined.
#[export] Instance key_ge_total {A} (key : A → Z) : Total (key_ge key).
Proof. intros x y. unfold key_ge. lia. Qed.
#[export] Instance key_ge_trans {A} (key : A → Z) : Transitive (key_ge key).
Proof. intros x y z. unfold key_ge. lia. Qed.

#[export] Instance merge_SortSlice : SortSlice := {|
  sort_desc := λ A key l, merge_sort (key_ge key) l;
  sort_desc_perm := λ A key l, merge_sort_Permutation (key_ge key) l;
  sort_desc_sorted := λ A key l, StronglySorted_merge_sort (key_ge key) l
|}.

(** ** Phases *)

(** Whether the phases are profiled is settled by the first mark. *)
Lemma mark_settled e1 e2 now1 now2 a b p : bp_resolved p = false →
  let p1 := (Mark e1 now1 a (Some p)).1 in
  (Mark e2 now2 b p1).2 = (if e1 then ["VMINITD_PROFILE " +:+ b +:+ " delta_us=" +:+ fmt_d (Z.quot (now2 - now1) 1000) +:+
                                       " total_us=" +:+ fmt_d (Z.quot (now2 - bp_start p) 1000)] else []).
Proof. intros Hr. destruct p as [s l r e]. cbn in Hr. subst r. by destruct e1. Qed.

(** ** Concrete logs *)

Definition boot_log (k : nat) : kread :=
  match k with
  | 0%nat => KData (print_record 6 1 100 "-" "Linux version 6.12" EmptyString)
  | 1%nat => KPipe
  | 2%nat => KData (print_record 6 2 900 "-" "calling  acpi_init+0x0/0x460 @ 1" EmptyString)
  | 3%nat => KIntr
  | 4%nat => KData (print_record 6 3 19900 "-" (print_initcall "acpi_init+0x0/0x460" "0" 18000 EmptyString) " SUBSYSTEM=acpi")
  | 5%nat => KData (print_record 5 4 22000 "-" "random: crng reseeded due to virtual machine fork" EmptyString)
  | _ => KAgain
  end.

Lemma kmsg_drained_witness : (ka_last <$> (fst <$> readKmsgInitcalls 7 None boot_log)) = Some 22000 ∧
  (ka_calls <$> (fst <$> readKmsgInitcalls 7 None boot_log)) = Some [mkInitcall "acpi_init+0x0/0x460" 18000].
Proof.
  rewrite (kmsg_drained boot_log 6 7); [split; vm_compute; reflexivity| |reflexivity|lia].
  intros i Hi. do 6 (destruct i as [|i]; [vm_compute; reflexivity|]). lia.
Defined.

Lemma reseed_detected_witness : CheckEntropyReseed 7 None boot_log = Some true.
Proof.
  destruct (reseed_detected boot_log 6 7) as (b & Hb & Hs); [|reflexivity|lia|].
  - intros i Hi. do 6 (destruct i as [|i]; [vm_compute; reflexivity|]). lia.
  - rewrite Hb. f_equal. apply Hs. exists 5%nat. eexists. split; [lia|]. split; [reflexivity|vm_compute; reflexivity].
Defined.

Lemma kmsg_record_roundtrip_witness : ∃ msg,
  parseKmsgRecord (print_record 6 3 19900 "-" (print_initcall "acpi_init+0x0/0x460" "0" 18000 EmptyString) " SUBSYSTEM=acpi") = Some (19900, msg) ∧
  extractInitcall msg = Some ("acpi_init+0x0/0x460", 18000).
Proof. apply (kmsg_record_roundtrip 6 3 19900 "-" "acpi_init+0x0/0x460" "0" 18000 " SUBSYSTEM=acpi"); try done; lia. Defined.

Definition boot_trace : string := join_with (String newline EmptyString)
  ["# tracer: nop";
   " <idle>-1  [000] .....  0.089303: initcall_level: level=early";
   " <idle>-1  [000] .....  0.090000: initcall_start: func=acpi_init+0x0/0x460";
   " <idle>-1  [000] .....  0.107303: initcall_finish: func=acpi_init+0x0/0x460 ret=0";
   " <idle>-1  [000] .....  0.110000: initcall_level: level=core";
   " <idle>-1  [000] .....  1.000001: initcall_level: level=late"].

Lemma levels_telescope_witness :
  kl_name <$> initcallLevels (Some boot_trace) = ["early"; "core"] ∧ foldr (λ l s, kl_usec l + s) 0 (initcallLevels (Some boot_trace)) = 910698.
Proof.
  apply (levels_telescope boot_trace [("early", 89303); ("core", 110000); ("late", 1000001)] ("early", 89303) ("late", 1000001));
    [vm_compute; reflexivity|cbn; lia|reflexivity..|repeat constructor; cbn; lia].
Defined.

Lemma trace_durations_witness : traceInitcallDurations (Some boot_trace) !! "acpi_init+0x0/0x460" = Some (int64_wrap (107303 - 90000)).
Proof.
  apply (trace_durations boot_trace [("acpi_init+0x0/0x460", (90000, 107303))]); [vm_compute; reflexivity|apply NoDup_singleton|by apply list_elem_of_singleton].
Defined.

(** The time of the initcall is not a gap; the silence after the log began is. *)
Lemma profile_lines : DumpKernelBootProfile true 7 None boot_log (mkTracefs (λ m, if m then Ok boot_trace else Err (errorf "no such file")) None) false =
  Some ["KMSG_PROFILE initcalls=1 sum_us=17303 last_ts_us=22000 source=tracepoints refined=1/1";
        "KMSG_PROFILE    17303 us  acpi_init+0x0/0x460";
        "KMSG_GAP     2100 us  at    19900 us  after: initcall acpi_init+0x0/0x460 returned 0 after 18000 usecs  ||  before: random: crng reseeded due to virtual machine fork";
        "KMSG_GAP      800 us  at      100 us  after: Linux version 6.12  ||  before: calling  acpi_init+0x0/0x460 @ 1";
        "KMSG_LEVEL    20697 us  early"; "KMSG_LEVEL   890001 us  core"].
Proof. vm_compute. reflexivity. Qed.
