(* ===== verification/GuestClock.v ===== *)
(** The clock of a restored guest: internal/guest/vminit/system/clock.go.

    Times are nanoseconds since the epoch; a [time.Time] made by [time.Unix] holds any
    second count, and [UnixNano] and durations are 64 bits wide. *)
From S2P Require Import Prelude GoStrings GoText.
Open Scope Z_scope.

Definition int32_wrap (z : Z) : Z := (z + 2 ^ 31) mod 2 ^ 32 - 2 ^ 31.

(** [(^int32(fd) << 3) | 3] *)
Definition fdToClockID (fd : Z) : Z :=
  Z.lor (int32_wrap (Z.shiftl (Z.lnot (int32_wrap fd)) 3)) 3.

(** The kernel's CLOCKID_TO_FD and CPUCLOCK_WHICH: the descriptor a clock id stands for,
    and the kind of clock, of which 3 is a descriptor's. *)
Definition clockID_fd (id : Z) : Z := Z.lnot (Z.shiftr id 3).
Definition clockID_kind (id : Z) : Z := Z.land id 7.

Definition kvmPTPClockName : string := "KVM virtual PTP".
Definition clockCorrectionThreshold : Z := 1000000000.

Record clockEnv := mkClockEnv {
  ce_ReadDir : res (list string);                 (** /sys/class/ptp *)
  ce_ReadFile : string → res string;
  ce_Open : string → res Z;                       (** the descriptor *)
  ce_ClockGettime : Z → res (Z * Z);              (** by clock id: seconds and nanoseconds *)
  ce_Now : Z;                                     (** the guest's own clock, nanoseconds *)
  ce_ClockSettime : option error
}.

Fixpoint find_ptp (readFile : string → res string) (entries : list string) : option string :=
  match entries with
  | [] => None
  | e :: es =>
      match readFile (path_Join ["/sys/class/ptp"; e; "clock_name"]) with
      | Ok name => if decide (TrimSpace name = kvmPTPClockName) then Some (path_Join ["/dev"; e]) else find_ptp readFile es
      | Err _ => find_ptp readFile es
      end
  end.

Definition kvmPTPDevice (env : clockEnv) : res string :=
  match ce_ReadDir env with
  | Err e => Err (wrap "no KVM PTP clock device" e)
  | Ok entries =>
      match find_ptp (ce_ReadFile env) entries with
      | Some d => Ok d
      | None => Err (errorf ("no KVM PTP clock device: no device in /sys/class/ptp is named " +:+ fmt_q kvmPTPClockName))
      end
  end.

(** [time.Unix(sec, nsec)], in nanoseconds. *)
Definition hostTime (env : clockEnv) : res Z :=
  match kvmPTPDevice env with
  | Err e => Err e
  | Ok path =>
      match ce_Open env path with
      | Err e => Err (wrap ("opening " +:+ path) e)
      | Ok fd =>
          match ce_ClockGettime env (fdToClockID fd) with
          | Err e => Err (wrap ("reading the host clock from " +:+ path) e)
          | Ok (sec, nsec) => Ok (sec * 1000000000 + nsec)
          end
      end
  end.

(** [Time.Sub] saturates; so does [Duration.Abs]. *)
Definition saturate (d : Z) : Z := Z.max (- two63) (Z.min (two63 - 1) d).
Definition Until (now t : Z) : Z := saturate (t - now).
Definition Abs (d : Z) : Z := if d <? 0 then Z.min (two63 - 1) (- d) else d.

(** [unix.NsecToTimespec] *)
Definition NsecToTimespec (nsec : Z) : Z * Z :=
  let sec := Z.quot nsec 1000000000 in
  let n := Z.rem nsec 1000000000 in
  if n <? 0 then (sec - 1, n + 1000000000) else (sec, n).

(** The error leaves out the amount of the skew.  The skew and the error, and the guest's clock after, as seconds and nanoseconds when it
    was set. *)
Definition CorrectClock (env : clockEnv) : (Z * option error) * option (Z * Z) :=
  match hostTime env with
  | Err e => ((0, Some e), None)
  | Ok hostNow =>
      let skew := Until (ce_Now env) hostNow in
      if Abs skew <? clockCorrectionThreshold then ((skew, None), None)
      else match ce_ClockSettime env with
           | Some e => ((skew, Some (wrap "setting the guest clock forward" e)), None)
           | None => ((skew, None), Some (NsecToTimespec (int64_wrap hostNow)))
           end
  end.

(** ** The descriptor in the clock id *)

Lemma int32_wrap_id z : - 2 ^ 31 ≤ z < 2 ^ 31 → int32_wrap z = z.
Proof. intros H. unfold int32_wrap. rewrite Z.mod_small by lia. lia. Qed.

Lemma low_bits_clear a : Z.land (Z.shiftl a 3) 3 = 0.
Proof.
  apply Z.bits_inj'. intros n Hn. rewrite Z.land_spec, Z.bits_0. destruct (Z.ltb_spec n 3); [by rewrite Z.shiftl_spec_low by lia|].
  rewrite (Z.bits_above_log2 3 n) by (cbn; lia). apply andb_false_r.
Qed.

(** The kernel gets the descriptor back, for every descriptor below 2^28. *)
Theorem clock_id_names_fd fd : 0 ≤ fd < 2 ^ 28 → clockID_fd (fdToClockID fd) = fd ∧ clockID_kind (fdToClockID fd) = 3 ∧ - 2 ^ 31 ≤ fdToClockID fd < 0.
Proof.
  intros H. unfold fdToClockID. rewrite (int32_wrap_id fd) by lia.
  assert (E : Z.shiftl (Z.lnot fd) 3 = - 8 * fd - 8) by (rewrite Z.shiftl_mul_pow2 by lia; unfold Z.lnot; lia).
  rewrite E, int32_wrap_id by lia.
  assert (E2 : Z.lor (- 8 * fd - 8) 3 = - 8 * fd - 5).
  { replace (- 8 * fd - 8) with (Z.shiftl (- fd - 1) 3) by (rewrite Z.shiftl_mul_pow2 by lia; lia).
    rewrite <- Z.lxor_lor, <- Z.add_nocarry_lxor by apply low_bits_clear.
    rewrite Z.shiftl_mul_pow2 by lia. lia. }
  rewrite E2. unfold clockID_fd, clockID_kind. split_and!; [| |lia|lia].
  - rewrite Z.shiftr_div_pow2 by lia. change (2 ^ 3) with 8. unfold Z.lnot.
    assert ((- 8 * fd - 5) / 8 = - fd - 1) by (symmetry; apply (Z.div_unique _ _ _ 3); lia). lia.
  - change 7 with (Z.ones 3). rewrite Z.land_ones by lia. change (2 ^ 3) with 8. symmetry. apply (Z.mod_unique _ _ (- fd - 1)); lia.
Qed.

(** ** The clock after *)

Lemma NsecToTimespec_spec n : let '(s, ns) := NsecToTimespec n in s * 1000000000 + ns = n ∧ 0 ≤ ns < 1000000000.
Proof.
  unfold NsecToTimespec. pose proof (Z.quot_rem n 1000000000 ltac:(lia)) as E. pose proof (Z.rem_bound_abs n 1000000000 ltac:(lia)) as B.
  destruct (Z.ltb_spec (Z.rem n 1000000000) 0); lia.
Qed.

Lemma find_ptp_spec readFile entries d : find_ptp readFile entries = Some d →
  ∃ e, e ∈ entries ∧ d = path_Join ["/dev"; e] ∧ ∃ name, readFile (path_Join ["/sys/class/ptp"; e; "clock_name"]) = Ok name ∧ TrimSpace name = kvmPTPClockName.
Proof.
  induction entries as [|e es IH]; [done|]. cbn [find_ptp].
  assert (Hn : find_ptp readFile es = Some d → ∃ e', e' ∈ e :: es ∧ d = path_Join ["/dev"; e'] ∧
    ∃ name, readFile (path_Join ["/sys/class/ptp"; e'; "clock_name"]) = Ok name ∧ TrimSpace name = kvmPTPClockName).
  { intros (e' & ? & ?)%IH. exists e'. split; [by apply elem_of_cons; right|done]. }
  destruct (readFile _) as [name|] eqn:Hr; [|exact Hn]. case_decide as Hd; [|exact Hn]. intros [= <-].
  exists e. split; [by apply elem_of_cons; left|]. split; [done|]. by exists name.
Qed.

(** The host's time is that of the device whose name is the KVM clock's. *)
Lemma hostTime_spec env host : hostTime env = Ok host → ∃ e name fd sec nsec,
  ce_ReadFile env (path_Join ["/sys/class/ptp"; e; "clock_name"]) = Ok name ∧ TrimSpace name = kvmPTPClockName ∧
  ce_Open env (path_Join ["/dev"; e]) = Ok fd ∧ ce_ClockGettime env (fdToClockID fd) = Ok (sec, nsec) ∧ host = sec * 1000000000 + nsec.
Proof.
  unfold hostTime, kvmPTPDevice. destruct (ce_ReadDir env) as [entries|]; [|done]. destruct (find_ptp _ entries) as [d|] eqn:Hf; [|done].
  apply find_ptp_spec in Hf as (e & _ & -> & name & Hr & Hname). destruct (ce_Open env _) as [fd|] eqn:Ho; [|done].
  destruct (ce_ClockGettime env _) as [[sec nsec]|] eqn:Hg; [|done]. intros [= <-]. by exists e, name, fd, sec, nsec.
Qed.

(** What the correction does, with the host's clock [host] and the guest's both within the
    years a nanosecond count can hold: the skew is their difference; the clock is set, to
    the host's time to the nanosecond, when the two differ by a second or more and the call
    does not fail, and is left alone without an error when they are closer. *)
Theorem clock_corrected env host : hostTime env = Ok host → 0 ≤ host < two63 → 0 ≤ ce_Now env < two63 →
  let r := CorrectClock env in
  r.1.1 = host - ce_Now env ∧
  match r.2 with
  | Some (s, ns) => s * 1000000000 + ns = host ∧ 0 ≤ ns < 1000000000 ∧ 1000000000 ≤ Z.abs (host - ce_Now env) ∧ r.1.2 = None
  | None => if Z.abs (host - ce_Now env) <? 1000000000 then r.1.2 = None else is_Some (ce_ClockSettime env) ∧ is_Some r.1.2
  end.
Proof.
  intros Hh Hr Hn. unfold CorrectClock. rewrite Hh.
  assert (Es : Until (ce_Now env) host = host - ce_Now env) by (unfold Until, saturate; lia). rewrite Es.
  assert (Ea : Abs (host - ce_Now env) = Z.abs (host - ce_Now env)) by (unfold Abs; destruct (Z.ltb_spec (host - ce_Now env) 0); lia). rewrite Ea.
  unfold clockCorrectionThreshold. destruct (Z.abs (host - ce_Now env) <? 1000000000) eqn:Hd; cbn [fst snd]; [done|].
  destruct (ce_ClockSettime env) as [e|]; cbn [fst snd]; [by split_and!; eauto|]. split; [done|].
  rewrite int64_wrap_id by (unfold int64_range; lia). pose proof (NsecToTimespec_spec host) as Hs. destruct (NsecToTimespec host) as [s ns].
  apply Z.ltb_ge in Hd. split_and!; [apply Hs..|done|done].
Qed.

(** A second PTP clock, that of a network card, listed first. *)
Definition clock_env : clockEnv :=
  mkClockEnv (Ok ["ptp0"; "ptp1"]) (λ p, if decide (p = "/sys/class/ptp/ptp1/clock_name") then Ok "KVM virtual PTP
" else Ok "e1000e") (λ p, if decide (p = "/dev/ptp1") then Ok 7 else Err (errorf "no such device"))
    (λ id, if decide (id = -61) then Ok (1700000000, 5) else Err (errorf "invalid argument")) 1699999990000000000 None.

Lemma clock_corrected_witness : (CorrectClock clock_env).1.1 = 10000000005 ∧ (CorrectClock clock_env).2 = Some (1700000000, 5).
Proof.
  destruct (clock_corrected clock_env 1700000000000000005) as [H1 _]; [vm_compute; reflexivity|unfold two63; lia|cbn [ce_Now clock_env]; unfold two63; lia|].
  split; [rewrite H1; reflexivity|vm_compute; reflexivity].
Defined.

Lemma clock_id_names_fd_witness : clockID_fd (fdToClockID 7) = 7 ∧ fdToClockID 7 = -61.
Proof. destruct (clock_id_names_fd 7) as [H _]; [lia|]. split; [exact H|reflexivity]. Defined.
