(* ===== verification/GuestBoot.v ===== *)
(** The two ends of a guest's life: Initialize of internal/guest/vminit/system/init.go and
    Cleanup of cleanup.go.

    Cleaning up works on the mount table of the kernel, which it reads as the text of
    /proc/mounts: the kernel writes a space, a tab, a newline and a backslash of a mount
    point as octal escapes.  A lazy unmount takes the mounts below away too.  Removing a
    directory goes through what is mounted in it: [bw_through] keeps the mounts whose
    contents were removed. *)
From S2P Require Import Prelude GoStrings GoText GoState Volume Cmdline Kmsg.
From Stdlib Require Import Ascii Sorted.

(** ** /proc/mounts *)

Record gmount := mkGmount { gm_source : string; gm_point : string; gm_rest : string }.

(** [mangle] of the kernel. *)
Fixpoint mangle (s : string) : string :=
  match s with
  | EmptyString => EmptyString
  | String a s' =>
      let n := nat_of_ascii a in
      if (n =? 32)%nat then "\040" +:+ mangle s' else if (n =? 9)%nat then "\011" +:+ mangle s'
      else if (n =? 10)%nat then "\012" +:+ mangle s' else if (n =? 92)%nat then "\134" +:+ mangle s'
      else String a (mangle s')
  end.

Definition mount_line (m : gmount) : string := mangle (gm_source m) +:+ " " +:+ mangle (gm_point m) +:+ " " +:+ gm_rest m.

Fixpoint proc_mounts (ms : list gmount) : string :=
  match ms with
  | [] => EmptyString
  | m :: ms => mount_line m +:+ String newline (proc_mounts ms)
  end.

(** ** cleanup.go *)

Definition RootDir : string := "/run/bundles".

Inductive bevent := BUnmount (p : string) | BRemoveAll (p : string) | BSync.

Record bworld := mkBworld { bw_mounts : list gmount; bw_through : list gmount; bw_log : list bevent }.

Record benv := mkBenv {
  be_stat : option error;                  (** of the bundle root *)
  be_procMounts : option error;
  be_unmount : string → option error;
  be_readDir : string → res (list string);
  be_removeAll : string → option error
}.

Definition under (root p : string) : bool := HasPrefix p (root +:+ "/").
Definition at_or_under (root p : string) : bool := bool_decide (p = root) || under root p.

Definition getMountsUnder (root data : string) : list string :=
  let root := Clean root in
  let root := if HasSuffix root "/" then root else root +:+ "/" in
  omap (λ line, match Fields line with
                | _ :: mountPoint :: _ => if HasPrefix mountPoint root then Some mountPoint else None
                | _ => None
                end) (Split data newline).

Section cleanup.
Context (env : benv) `{!SortSlice}.

(** [mount.UnmountAll(p, MNT_DETACH)]: nothing is an error when nothing is mounted there. *)
Definition UnmountAll (p : string) (w : bworld) : bworld :=
  let log := bw_log w ++ [BUnmount p] in
  match be_unmount env p with
  | Some _ => mkBworld (bw_mounts w) (bw_through w) log
  | None => mkBworld (if existsb (λ m, bool_decide (gm_point m = p)) (bw_mounts w)
                      then List.filter (λ m, negb (at_or_under p (gm_point m))) (bw_mounts w) else bw_mounts w)
              (bw_through w) log
  end.

Definition RemoveAll (p : string) (w : bworld) : bworld :=
  mkBworld (bw_mounts w) (bw_through w ++ List.filter (λ m, at_or_under p (gm_point m)) (bw_mounts w)) (bw_log w ++ [BRemoveAll p]).

Definition remove_entries (root : string) (entries : list string) (w : bworld) : bworld :=
  foldl (λ w e, RemoveAll (path_Join [root; e]) w) w entries.

Definition unmount_bundles (w : bworld) : bworld :=
  match be_procMounts env with
  | Some _ => w
  | None => foldl (λ w p, UnmountAll p w) w (sort_desc (λ s, Z.of_nat (String.length s)) (getMountsUnder RootDir (proc_mounts (bw_mounts w))))
  end.

Definition cleanupBundles (w : bworld) : bworld :=
  if from_option IsNotExist false (be_stat env) then w
  else
    let w := unmount_bundles w in
    match be_readDir env RootDir with Err _ => w | Ok entries => remove_entries RootDir entries w end.

Definition cleanupTmp (w : bworld) : bworld :=
  match be_readDir env "/tmp" with Err _ => w | Ok entries => remove_entries "/tmp" entries w end.

Definition syncFilesystems (w : bworld) : bworld := mkBworld (bw_mounts w) (bw_through w) (bw_log w ++ [BSync]).

Definition Cleanup (w : bworld) : bworld := syncFilesystems (cleanupTmp (cleanupBundles w)).
End cleanup.

(** ** Reading the table *)

Definition plain_char (a : ascii) : bool :=
  negb (is_space a) && negb (bool_decide (a = "\"%char)) && negb (bool_decide (a = newline)).

Lemma mangle_plain s : all_chars plain_char s = true → mangle s = s.
Proof.
  induction s as [|a s IH]; [done|]. cbn [all_chars mangle]. rewrite andb_true_iff. intros [Ha Hs]. rewrite IH by done.
  assert (Hn : ∀ k, (nat_of_ascii a =? k)%nat = true → a = ascii_of_nat k) by (intros k Hk%Nat.eqb_eq; by rewrite <- Hk, ascii_nat_embedding).
  unfold plain_char in Ha. repeat (destruct (nat_of_ascii a =? _)%nat eqn:E; [apply Hn in E; subst a; by vm_compute in Ha|clear E]). done.
Qed.

Definition gm_ok (m : gmount) : Prop :=
  gm_source m ≠ EmptyString ∧ gm_point m ≠ EmptyString ∧ all_chars plain_char (gm_source m) = true ∧ all_chars plain_char (gm_point m) = true ∧
  all_chars (neq_char newline) (gm_rest m) = true.

Lemma plain_word s : all_chars plain_char s = true → all_chars (λ a, negb (is_space a)) s = true ∧ all_chars (neq_char newline) s = true.
Proof.
  intros H. split; revert H; apply all_chars_impl; intros a; unfold plain_char, neq_char; rewrite !andb_true_iff; by intros [[? ?] ?].
Qed.

Lemma Split_proc m ms : all_chars (neq_char newline) (mount_line m) = true →
  Split (proc_mounts (m :: ms)) newline = mount_line m :: Split (proc_mounts ms) newline.
Proof. intros H. cbn [proc_mounts]. by rewrite Split_cons. Qed.

Lemma mount_line_ok m : gm_ok m → all_chars (neq_char newline) (mount_line m) = true ∧
  ∃ rest, Fields (mount_line m) = gm_source m :: gm_point m :: rest.
Proof.
  intros (Hs & Hp & Hs1 & Hp1 & Hr). destruct (plain_word _ Hs1) as [Ws Ns], (plain_word _ Hp1) as [Wp Np].
  unfold mount_line. rewrite !mangle_plain by done. split; [by rewrite !all_chars_app, Ns, Np, Hr|].
  exists (fields_from EmptyString (gm_rest m)). unfold Fields. rewrite fields_from_word by done. change (EmptyString +:+ gm_source m) with (gm_source m).
  change (fields_from (gm_source m) (" " +:+ ?t)) with (match gm_source m with EmptyString => [] | _ => [gm_source m] end ++ fields_from EmptyString t).
  rewrite fields_from_word by done. change (EmptyString +:+ gm_point m) with (gm_point m).
  change (fields_from (gm_point m) (" " +:+ gm_rest m)) with (match gm_point m with EmptyString => [] | _ => [gm_point m] end ++ fields_from EmptyString (gm_rest m)).
  destruct (gm_source m), (gm_point m); done.
Qed.

(** The mount points under the bundle root, as the table has them. *)
Lemma getMountsUnder_exact ms : Forall gm_ok ms → getMountsUnder RootDir (proc_mounts ms) = List.filter (under RootDir) (gm_point <$> ms).
Proof.
  unfold getMountsUnder. change (Clean RootDir) with RootDir. change (if HasSuffix RootDir "/" then RootDir else RootDir +:+ "/") with (RootDir +:+ "/").
  induction 1 as [|m ms Hm Hms IH]; [done|]. destruct (mount_line_ok m Hm) as [Hn (rest & Hf)]. rewrite Split_proc by done.
  cbn [omap list_omap]. rewrite Hf, IH. cbn [fmap list_fmap List.filter]. unfold under. by destruct (HasPrefix (gm_point m) (RootDir +:+ "/")).
Qed.

(** ** What is left *)

Lemma under_trans a b c : under a b = true → under b c = true → under a c = true.
Proof.
  unfold under. intros (r & ->)%HasPrefix_true (r' & ->)%HasPrefix_true. rewrite <- !string_app_assoc. rewrite (string_app_assoc a "/"). apply HasPrefix_app.
Qed.

Lemma under_longer a b : under a b = true → (String.length a < String.length b)%nat.
Proof. unfold under. intros (r & ->)%HasPrefix_true. rewrite !str_length_app. cbn. lia. Qed.

Section left_.
Context (env : benv) `{!SortSlice}.

#[local] Abbreviation outside_ w := (List.filter (λ m, negb (under RootDir (gm_point m))) (bw_mounts w)).

Lemma filter_all {A} (P : A → bool) l : (∀ x, x ∈ l → P x = true) → List.filter P l = l.
Proof.
  induction l as [|x l IH]; [done|]. intros Hall. cbn. rewrite Hall by (by apply elem_of_cons; left). f_equal. apply IH. intros y Hy. apply Hall, elem_of_cons. by right.
Qed.

Lemma UnmountAll_spec p w : be_unmount env p = None → under RootDir p = true →
  outside_ (UnmountAll env p w) = outside_ w ∧ (∀ m, m ∈ bw_mounts (UnmountAll env p w) → m ∈ bw_mounts w ∧ gm_point m ≠ p) ∧
  bw_through (UnmountAll env p w) = bw_through w.
Proof.
  intros He Hp. unfold UnmountAll. rewrite He. cbn [bw_mounts bw_through]. destruct (existsb _ _) eqn:Hx; split_and!; try done.
  - clear Hx. induction (bw_mounts w) as [|m ms IH]; [done|]. cbn [List.filter]. unfold at_or_under at 1. case_bool_decide as Hm.
    + cbn [orb negb]. rewrite Hm, Hp. cbn [negb]. apply IH.
    + cbn [orb]. destruct (under p (gm_point m)) eqn:Hu; cbn [negb].
      * rewrite (under_trans _ _ _ Hp Hu). cbn [negb]. apply IH.
      * cbn [List.filter]. by rewrite IH.
  - intros m Hm. rewrite list_elem_of_In, filter_In in Hm. destruct Hm as [Hm%list_elem_of_In Hn]. split; [done|]. intros Heq.
    unfold at_or_under in Hn. by rewrite bool_decide_true in Hn.
  - intros m Hm. split; [done|]. intros Hp'. apply not_true_iff_false in Hx. apply Hx. apply existsb_exists. exists m. split; [by apply list_elem_of_In|by apply bool_decide_eq_true].
Qed.

Lemma unmount_fold ps w : (∀ p, be_unmount env p = None) → Forall (λ p, under RootDir p = true) ps →
  let w' := foldl (λ w p, UnmountAll env p w) w ps in
  outside_ w' = outside_ w ∧ (∀ m, m ∈ bw_mounts w' → m ∈ bw_mounts w ∧ gm_point m ∉ ps) ∧ bw_through w' = bw_through w ∧
  bw_log w' = bw_log w ++ (BUnmount <$> ps).
Proof.
  intros He. revert w. induction ps as [|p ps IH]; intros w Hps; cbn [foldl].
  { split_and!; [done| |done|by rewrite app_nil_r]. intros m Hm. split; [done|]. apply not_elem_of_nil. }
  apply Forall_cons in Hps as [Hp Hps]. destruct (UnmountAll_spec p w (He p) Hp) as (U1 & U2 & U3).
  destruct (IH (UnmountAll env p w) Hps) as (I1 & I2 & I3 & I4). split_and!.
  - by rewrite I1, U1.
  - intros m [Hm Hn]%I2. apply U2 in Hm as [Hm Hmp]. split; [done|]. by apply not_elem_of_cons.
  - by rewrite I3, U3.
  - rewrite I4. unfold UnmountAll. rewrite He. cbn [bw_log]. by rewrite <- (assoc_L (++)).
Qed.

Lemma remove_entries_spec root entries w : let w' := remove_entries root entries w in
  bw_mounts w' = bw_mounts w ∧ bw_log w' = bw_log w ++ ((λ e, BRemoveAll (path_Join [root; e])) <$> entries) ∧
  ∀ m, m ∈ bw_through w' ↔ m ∈ bw_through w ∨ m ∈ bw_mounts w ∧ ∃ e, e ∈ entries ∧ at_or_under (path_Join [root; e]) (gm_point m) = true.
Proof.
  revert w. induction entries as [|e es IH]; intros w.
  { cbn. rewrite app_nil_r. split_and!; [done..|]. intros m. split; [by left|]. intros [?|(_ & e & He & _)]; [done|]. by apply elem_of_nil in He. }
  unfold remove_entries in *. cbn [foldl]. destruct (IH (RemoveAll (path_Join [root; e]) w)) as (I1 & I2 & I3). cbv zeta. split_and!.
  - by rewrite I1.
  - rewrite I2. unfold RemoveAll. cbn [bw_log fmap list_fmap]. by rewrite <- (assoc_L (++)).
  - intros m. rewrite I3. unfold RemoveAll. cbn [bw_through bw_mounts]. rewrite elem_of_app, (list_elem_of_In (List.filter _ _)), filter_In, <- list_elem_of_In.
    setoid_rewrite elem_of_cons. naive_solver.
Qed.
End left_.

Lemma entry_under e p : plain_name e → at_or_under (path_Join [RootDir; e]) p = true → under RootDir p = true.
Proof.
  intros He. rewrite path_Join_under by done. unfold at_or_under, under. rewrite orb_true_iff, bool_decide_eq_true.
  intros [-> | (r & ->)%HasPrefix_true]; rewrite <- ?string_app_assoc, ?(string_app_assoc RootDir "/"); apply HasPrefix_app.
Qed.

Lemma sorted_nested (ps : list string) i j p q : StronglySorted (λ x y, Z.of_nat (String.length y) ≤ Z.of_nat (String.length x))%Z ps →
  ps !! i = Some p → ps !! j = Some q → under p q = true → (j < i)%nat.
Proof.
  intros Hs Hi Hj Hu. apply under_longer in Hu. destruct (decide (j < i)%nat) as [|Hn]; [done|]. exfalso.
  destruct (decide (i = j)) as [->|Hne]; [rewrite Hi in Hj; injection Hj as ->; lia|].
  pose proof (take_drop (S i) ps) as E. rewrite <- E in Hs.
  assert (H : (Z.of_nat (String.length q) ≤ Z.of_nat (String.length p))%Z); [|lia].
  apply (sorted_split _ _ _ p q Hs).
  - apply list_elem_of_lookup. exists i. rewrite lookup_take_lt by lia. done.
  - apply list_elem_of_lookup. exists (j - S i)%nat. rewrite lookup_drop. by replace (S i + (j - S i))%nat with j by lia.
Qed.

(** Cleaning up before the power goes off, when the table can be read and nothing fails to
    unmount: every mount under the bundle root is taken away, a mount before the one it is
    in, and no other; only then are the bundles removed, so that nothing is removed through
    a mount. *)
Theorem bundles_removed_unmounted env `{!SortSlice} w entries : Forall gm_ok (bw_mounts w) →
  be_stat env = None → be_procMounts env = None → (∀ p, be_unmount env p = None) → be_readDir env RootDir = Ok entries → Forall plain_name entries →
  bw_through w = [] → let w' := cleanupBundles env w in
  bw_mounts w' = List.filter (λ m, negb (under RootDir (gm_point m))) (bw_mounts w) ∧ bw_through w' = [] ∧
  ∃ ps, ps ≡ₚ List.filter (under RootDir) (gm_point <$> bw_mounts w) ∧
    bw_log w' = bw_log w ++ (BUnmount <$> ps) ++ ((λ e, BRemoveAll (path_Join [RootDir; e])) <$> entries) ∧
    ∀ i j p q, ps !! i = Some p → ps !! j = Some q → under p q = true → (j < i)%nat.
Proof.
  intros Hok Hst Hpm Hum Hrd Hpl Hth. unfold cleanupBundles, unmount_bundles. rewrite Hst, Hpm, Hrd, getMountsUnder_exact by done. cbn [from_option].
  set (ps := sort_desc _ _). pose proof (sort_desc_perm (λ s, Z.of_nat (String.length s)) (List.filter (under RootDir) (gm_point <$> bw_mounts w))) as Hperm.
  fold ps in Hperm. assert (Hu : Forall (λ p, under RootDir p = true) ps).
  { rewrite Hperm. apply Forall_forall. intros p Hp. rewrite list_elem_of_In, filter_In in Hp. apply Hp. }
  destruct (unmount_fold env ps w Hum Hu) as (U1 & U2 & U3 & U4). set (w1 := foldl _ w ps) in *.
  destruct (remove_entries_spec RootDir entries w1) as (R1 & R2 & R3).
  assert (Hnone : ∀ m, m ∈ bw_mounts w1 → under RootDir (gm_point m) = false).
  { intros m Hm. apply U2 in Hm as [Hm Hn]. apply not_true_iff_false. intros Hx. apply Hn. rewrite Hperm, list_elem_of_In, filter_In. split; [|done].
    apply list_elem_of_In, list_elem_of_fmap. by exists m. }
  split_and!.
  - rewrite R1, <- U1. symmetry. apply filter_all. intros m Hm. by rewrite (Hnone m Hm).
  - destruct (bw_through (remove_entries RootDir entries w1)) as [|m l] eqn:E; [done|]. exfalso.
    assert (Hm : m ∈ m :: l) by (apply elem_of_cons; by left).
    apply R3 in Hm as [Hm|(Hm & e & He & Hx)]; [rewrite U3, Hth in Hm; by apply elem_of_nil in Hm|].
    rewrite Forall_forall in Hpl. apply entry_under in Hx; [by rewrite (Hnone m Hm) in Hx|by apply Hpl].
  - exists ps. split; [done|]. split; [by rewrite R2, U4, <- (assoc_L (++))|]. intros i j p q. apply sorted_nested. apply sort_desc_sorted.
Qed.

Definition calm_boot : benv := mkBenv None None (λ _, None) (λ d, if decide (d = RootDir) then Ok ["c1"] else Ok []) (λ _, None).
Definition busy_world : bworld :=
  mkBworld [mkGmount "proc" "/proc" "proc rw 0 0"; mkGmount "/dev/vda" "/run/bundles/c1/rootfs" "ext4 rw 0 0";
            mkGmount "tmpfs" "/run/bundles/c1/rootfs/data" "tmpfs rw 0 0"] [] [].

Lemma bundles_removed_unmounted_witness :
  bw_mounts (cleanupBundles calm_boot busy_world) = [mkGmount "proc" "/proc" "proc rw 0 0"] ∧ bw_through (cleanupBundles calm_boot busy_world) = [].
Proof.
  destruct (bundles_removed_unmounted calm_boot busy_world ["c1"]) as (H1 & H2 & _); try done.
  - repeat constructor; done.
  - repeat constructor; done.
Defined.

Lemma cleanup_order : bw_log (Cleanup calm_boot busy_world) =
  [BUnmount "/run/bundles/c1/rootfs/data"; BUnmount "/run/bundles/c1/rootfs"; BRemoveAll "/run/bundles/c1"; BSync].
Proof. vm_compute. reflexivity. Qed.

(** A mount that stays is emptied: its file system, that of the container's disk, loses what
    it holds. *)
Lemma failed_unmount_is_emptied :
  let env := mkBenv None None (λ p, Some (errorf "device or resource busy")) (be_readDir calm_boot) (λ _, None) in
  mkGmount "/dev/vda" "/run/bundles/c1/rootfs" "ext4 rw 0 0" ∈ bw_through (cleanupBundles env busy_world).
Proof. vm_compute. apply elem_of_cons. by left. Qed.

(** So is one whose path has a space: the table's escape is not undone, and the path that is
    unmounted does not exist. *)
Lemma escaped_mount_is_emptied :
  let w := mkBworld [mkGmount "/dev/vda" "/run/bundles/c1/my disk" "ext4 rw 0 0"] [] [] in
  bw_log (cleanupBundles calm_boot w) = [BUnmount "/run/bundles/c1/my\040disk"; BRemoveAll "/run/bundles/c1"] ∧
  bw_through (cleanupBundles calm_boot w) = bw_mounts w.
Proof. vm_compute. by split. Qed.

(** ** init.go *)

Record Mount := mkMount { mt_Type : string; mt_Source : string; mt_Target : string; mt_Options : list string }.

Inductive icall :=
  | IMkdirAll (p : string) | IMkdir (p : string)
  | IMountAll (ms : list Mount)                   (** [mount.All] onto / *)
  | IMknod (p : string) (mode major minor : Z)
  | ISymlink (target link : string)
  | IWriteFile (p data : string).

(** The files that are there, and the answer to each call. *)
Record ienv := mkIenv { ie_exists : string → bool; ie_call : icall → option error }.

Definition IsExist (e : error) : bool := bool_decide (ekind e = ErrAlreadyExists).

Section init.
Context (env : ienv).

Definition call_ (c : icall) : ST (list icall) () := λ l, (match ie_call env c with Some e => Err e | None => Ok tt end, l ++ [c]).

(** [if err := m(); err != nil && !os.IsExist(err) { return fmt.Errorf(msg, err) }] *)
Definition unless_exists (msg : string) (m : ST (list icall) ()) : ST (list icall) () := λ l,
  match m l with
  | (Err e, l') => if IsExist e then (Ok tt, l') else (Err (wrap msg e), l')
  | x => x
  end.

Definition base_opts : list string := ["nosuid"; "noexec"; "nodev"].

Definition base_mounts : list Mount :=
  [mkMount "proc" "proc" "/proc" base_opts; mkMount "sysfs" "sysfs" "/sys" base_opts; mkMount "cgroup2" "none" "/sys/fs/cgroup" [];
   mkMount "tmpfs" "tmpfs" "/run" base_opts; mkMount "tmpfs" "tmpfs" "/tmp" base_opts; mkMount "devtmpfs" "devtmpfs" "/dev" ["nosuid"; "noexec"]].
Definition spin_mounts : list Mount := [mkMount "tmpfs" "tmpfs" "/var/lib/spin-stack" ["nosuid"; "nodev"; "size=32m"]].
Definition dev_mounts : list Mount :=
  [mkMount "devpts" "devpts" "/dev/pts" ["nosuid"; "noexec"; "gid=5"; "mode=0620"; "ptmxmode=0666"];
   mkMount "tmpfs" "shm" "/dev/shm" (base_opts ++ ["mode=1777"; "size=64m"])].

Definition mountFilesystems : ST (list icall) () :=
  unless_exists "failed to create /lib" (call_ (IMkdirAll "/lib")) ;;!
  call_ (IMountAll base_mounts) ;;!
  unless_exists "failed to create /run/lock" (call_ (IMkdirAll "/run/lock")) ;;!
  unless_exists "failed to create /var/lib/spin-stack" (call_ (IMkdirAll "/var/lib/spin-stack")) ;;!
  wrapping "failed to mount /var/lib/spin-stack" (call_ (IMountAll spin_mounts)) ;;!
  unless_exists "failed to create /dev/pts" (call_ (IMkdirAll "/dev/pts")) ;;!
  unless_exists "failed to create /dev/shm" (call_ (IMkdirAll "/dev/shm")) ;;!
  call_ (IMountAll dev_mounts).

Definition symlinks : list (string * string) :=
  [("/dev/fd", "/proc/self/fd"); ("/dev/stdin", "/proc/self/fd/0"); ("/dev/stdout", "/proc/self/fd/1"); ("/dev/stderr", "/proc/self/fd/2")].

(** A link that is not there is made; the error is logged. *)
Definition make_link (lt : string * string) : ST (list icall) () :=
  if ie_exists env lt.1 then ret tt else attempt (call_ (ISymlink lt.2 lt.1)) ;;! ret tt.

Fixpoint make_links (l : list (string * string)) : ST (list icall) () :=
  match l with
  | [] => ret tt
  | x :: l => make_link x ;;! make_links l
  end.

(** [order]: the symbolic links in the order a range over the map gives. *)
Definition setupDevNodes (order : list (string * string)) : ST (list icall) () :=
  (if ie_exists env "/dev/fuse" then ret tt else attempt (call_ (IMknod "/dev/fuse" (Z.lor 8192 438) 10 229)) ;;! ret tt) ;;!
  make_links order ;;!
  make_link ("/dev/ptmx", "/dev/pts/ptmx").

Definition setupCgroupControl : ST (list icall) () :=
  call_ (IWriteFile "/sys/fs/cgroup/cgroup.subtree_control" "+cpu +cpuset +io +memory +pids").

Definition Initialize (order : list (string * string)) : ST (list icall) () :=
  mountFilesystems ;;!
  setupDevNodes order ;;!
  attempt (call_ (IWriteFile "/proc/sys/kernel/ctrl-alt-del" "0")) ;;!
  setupCgroupControl ;;!
  unless_exists "failed to create /etc" (call_ (IMkdir "/etc")).
End init.

(** ** The order of initialization *)

Section init_order.
Context (env : ienv).

(** A required call, and whether finding the directory there will do. *)
Definition acceptable (r : icall * bool) : Prop :=
  match ie_call env r.1 with None => True | Some e => r.2 = true ∧ IsExist e = true end.

(** The calls a step makes at most, in order, and those that decide whether it succeeds. *)
Definition step_spec (m : ST (list icall) ()) (calls : list icall) (required : list (icall * bool)) : Prop :=
  ∀ l, (∃ log, (m l).2 = l ++ log ∧ log `sublist_of` calls) ∧ ((m l).1 = Ok tt ↔ Forall acceptable required).

Lemma spec_call c : step_spec (call_ env c) [c] [(c, false)].
Proof.
  intros l. split; [by exists [c]|]. unfold call_, acceptable. cbn. rewrite Forall_singleton. cbn. destruct (ie_call env c); naive_solver.
Qed.

Lemma spec_exists msg c : step_spec (unless_exists msg (call_ env c)) [c] [(c, true)].
Proof.
  intros l. unfold unless_exists, call_. rewrite Forall_singleton. unfold acceptable. cbn [fst snd].
  destruct (ie_call env c) as [e|]; [destruct (IsExist e)|]; (split; [by exists [c]|]); cbn; naive_solver.
Qed.

Lemma spec_wrapping msg m cs rs : step_spec m cs rs → step_spec (wrapping msg m) cs rs.
Proof. intros H l. specialize (H l). unfold wrapping. destruct (m l) as [[[]|e] l']; [done|]. split; [apply H|]. rewrite <- (proj2 H). done. Qed.

Lemma spec_bind m1 m2 c1 c2 r1 r2 : step_spec m1 c1 r1 → step_spec m2 c2 r2 → step_spec (m1 ;;! m2) (c1 ++ c2) (r1 ++ r2).
Proof.
  intros H1 H2 l. specialize (H1 l). unfold bind. rewrite Forall_app. destruct (m1 l) as [[[]|e] l1]; cbn [fst snd] in H1; destruct H1 as [(log1 & -> & S1) R1].
  - specialize (H2 (l ++ log1)). destruct H2 as [(log2 & E2 & S2) R2]. split; [|naive_solver].
    exists (log1 ++ log2). rewrite E2, (assoc_L (++)). split; [done|]. by apply sublist_app.
  - split; [|naive_solver]. exists log1. split; [done|]. rewrite <- (app_nil_r log1). apply sublist_app; [done|apply sublist_nil_l].
Qed.

Lemma spec_attempt m cs rs : step_spec m cs rs → step_spec (attempt m ;;! ret tt) cs [].
Proof.
  intros H l. destruct (H l) as [(log & E & S) _]. unfold bind, attempt, ret. destruct (m l) as [r l']. cbn in *. subst l'. split; [by exists log|]. naive_solver.
Qed.

Lemma spec_link x : step_spec (make_link env x) [ISymlink x.2 x.1] [].
Proof.
  unfold make_link. destruct (ie_exists env x.1); [|apply (spec_attempt _ _ _ (spec_call _))].
  intros l. split; [exists []; split; [by rewrite app_nil_r|apply sublist_nil_l]|]. cbn. naive_solver.
Qed.

Lemma spec_links xs : step_spec (make_links env xs) ((λ x, ISymlink x.2 x.1) <$> xs) [].
Proof.
  induction xs as [|x xs IH]; [intros l; split; [exists []; by rewrite app_nil_r|cbn; naive_solver]|].
  cbn [make_links]. apply (spec_bind _ _ [_] _ [] []); [apply spec_link|exact IH].
Qed.

Definition fs_calls : list icall :=
  [IMkdirAll "/lib"; IMountAll base_mounts; IMkdirAll "/run/lock"; IMkdirAll "/var/lib/spin-stack"; IMountAll spin_mounts;
   IMkdirAll "/dev/pts"; IMkdirAll "/dev/shm"; IMountAll dev_mounts].
Definition fs_required : list (icall * bool) :=
  zip fs_calls [true; false; true; true; false; true; true; false].

Lemma spec_mountFilesystems : step_spec (mountFilesystems env) fs_calls fs_required.
Proof.
  unfold mountFilesystems. apply (spec_bind _ _ [_] [_; _; _; _; _; _; _] [_] [_; _; _; _; _; _; _]); [apply spec_exists|].
  apply (spec_bind _ _ [_] [_; _; _; _; _; _] [_] [_; _; _; _; _; _]); [apply spec_call|].
  apply (spec_bind _ _ [_] [_; _; _; _; _] [_] [_; _; _; _; _]); [apply spec_exists|]. apply (spec_bind _ _ [_] [_; _; _; _] [_] [_; _; _; _]); [apply spec_exists|].
  apply (spec_bind _ _ [_] [_; _; _] [_] [_; _; _]); [apply spec_wrapping, spec_call|]. apply (spec_bind _ _ [_] [_; _] [_] [_; _]); [apply spec_exists|].
  apply (spec_bind _ _ [_] [_] [_] [_]); [apply spec_exists|apply spec_call].
Qed.

Definition dev_calls (order : list (string * string)) : list icall :=
  [IMknod "/dev/fuse" (Z.lor 8192 438) 10 229] ++ ((λ x, ISymlink x.2 x.1) <$> order) ++ [ISymlink "/dev/pts/ptmx" "/dev/ptmx"].

Lemma spec_setupDevNodes order : step_spec (setupDevNodes env order) (dev_calls order) [].
Proof.
  unfold setupDevNodes, dev_calls. apply (spec_bind _ _ _ _ [] []).
  - destruct (ie_exists env "/dev/fuse"); [|apply (spec_attempt _ _ _ (spec_call _))].
    intros l. split; [exists []; split; [by rewrite app_nil_r|apply sublist_nil_l]|]. cbn. naive_solver.
  - apply (spec_bind _ _ _ _ [] []); [apply spec_links|apply (spec_link ("/dev/ptmx", "/dev/pts/ptmx"))].
Qed.

Definition last_calls : list icall :=
  [IWriteFile "/proc/sys/kernel/ctrl-alt-del" "0"; IWriteFile "/sys/fs/cgroup/cgroup.subtree_control" "+cpu +cpuset +io +memory +pids"; IMkdir "/etc"].

Definition init_required : list (icall * bool) :=
  fs_required ++ [(IWriteFile "/sys/fs/cgroup/cgroup.subtree_control" "+cpu +cpuset +io +memory +pids", false); (IMkdir "/etc", true)].

Lemma attempt_bind (m m2 : ST (list icall) ()) l : (attempt m ;;! m2) l = ((attempt m ;;! ret tt) ;;! m2) l.
Proof. unfold bind, attempt, ret. by destruct (m l). Qed.

Lemma spec_Initialize order : step_spec (Initialize env order) (fs_calls ++ dev_calls order ++ last_calls) init_required.
Proof.
  unfold Initialize, init_required. apply spec_bind; [apply spec_mountFilesystems|]. apply (spec_bind _ _ _ _ []); [apply spec_setupDevNodes|].
  intros l. rewrite attempt_bind. revert l. apply (spec_bind _ _ [_] [_; _] [] [_; _]); [apply (spec_attempt _ _ _ (spec_call _))|].
  apply (spec_bind _ _ [_] [_] [_] [_]); [apply spec_call|apply spec_exists].
Qed.
End init_order.

Definition icall_path (c : icall) : option string :=
  match c with
  | IMkdirAll p | IMkdir p | IMknod p _ _ _ | ISymlink _ p | IWriteFile p _ => Some p
  | IMountAll _ => None
  end.

(** The later call does not mount over a place the earlier one worked in. *)
Definition not_hidden (earlier later : icall) : Prop :=
  match icall_path earlier, later with
  | Some p, IMountAll ms => Forall (λ m, under (mt_Target m) p = false) ms
  | _, _ => True
  end.

Lemma StronglySorted_sublist {A} (R : A → A → Prop) l k : l `sublist_of` k → StronglySorted R k → StronglySorted R l.
Proof.
  induction 1 as [|x l k H IH|x l k H IH]; intros Hs; [done| |]; apply StronglySorted_inv in Hs as [Hs Hf]; [|by apply IH].
  constructor; [by apply IH|]. rewrite Forall_forall in *. intros y Hy. apply Hf. by eapply sublist_subseteq.
Qed.

Lemma sorted_no_mounts l k : StronglySorted not_hidden l → Forall (λ c, is_Some (icall_path c)) k → StronglySorted not_hidden (l ++ k).
Proof.
  intros Hl Hk. assert (Hn : ∀ x, Forall (not_hidden x) k).
  { intros x. eapply Forall_impl; [exact Hk|]. intros y Hy. unfold not_hidden. destruct (icall_path x); [|done]. by destruct y; cbn in Hy; try destruct Hy. }
  induction Hl as [|x l Hl IH Hx]; cbn.
  - clear -Hn. induction k as [|y k IH]; [constructor|]. constructor; [apply IH; intros x; by destruct (proj1 (Forall_cons _ _ _) (Hn x))|].
    by destruct (proj1 (Forall_cons _ _ _) (Hn y)).
  - constructor; [done|]. by apply Forall_app.
Qed.

(** Initialization succeeds exactly when every required call does (a directory that is there
    already will do); the links, /dev/fuse and ctrl-alt-del are best effort.  Whatever fails
    and whatever is there already, nothing is made in a directory that a later mount hides,
    in whatever order the links are made. *)
Theorem initialize_in_order env order : let '(r, log) := Initialize env order [] in
  (r = Ok tt ↔ Forall (acceptable env) init_required) ∧ StronglySorted not_hidden log.
Proof.
  destruct (spec_Initialize env order []) as [(log & El & Hsub) Hr]. destruct (Initialize env order []) as [r log']. cbn [fst snd app] in El, Hr. subst log'.
  split; [exact Hr|]. apply (StronglySorted_sublist _ _ _ Hsub). apply sorted_no_mounts; [repeat constructor|].
  unfold dev_calls. rewrite !Forall_app, Forall_fmap. split_and!; [repeat constructor; by eexists| |repeat constructor; by eexists..].
  apply Forall_forall. intros x _. by eexists.
Qed.

(** Every mount but the cgroup's keeps set-user-ID programs out, and every one but the
    cgroup's and the supervisor's keeps programs out. *)
Lemma mounts_restricted m : m ∈ base_mounts ++ spin_mounts ++ dev_mounts →
  ("nosuid" ∈ mt_Options m ∨ mt_Type m = "cgroup2") ∧ ("noexec" ∈ mt_Options m ∨ mt_Type m = "cgroup2" ∨ mt_Target m = "/var/lib/spin-stack").
Proof. revert m. apply Forall_forall. apply (bool_decide_unpack _). vm_compute. done. Qed.

Definition fresh_guest : ienv := mkIenv (λ _, false) (λ c, match c with IMkdirAll "/lib" => Some (mkError ErrAlreadyExists "file exists") | ISymlink _ _ => Some (errorf "read-only") | _ => None end).

Lemma initialize_example : (Initialize fresh_guest symlinks []).1 = Ok tt ∧ length (Initialize fresh_guest symlinks []).2 = 17%nat.
Proof. vm_compute. by split. Qed.
