(* ===== verification/GuestSpec.v ===== *)
(** The OCI specification inside the guest: RelaxOCISpec and ShouldKillAllOnExit of
    internal/guest/vminit/runc/util.go, and the options of a container that
    internal/guest/vminit/runc/container.go keeps beside it and hands to its init process.

    The parts of a specification the code does not look at are opaque texts.  The JSON
    encoder is a parameter; the files of the bundle are a map. *)
From S2P Require Import Prelude GoStrings GoText GoState.

(** ** The specification *)

Record Mount := mkMount { m_Destination : string; m_Type : string; m_Source : string; m_Options : list string }.
Record Namespace := mkNamespace { ns_Type : string; ns_Path : string }.
Record DeviceCgroup := mkDeviceCgroup { dc_Allow : bool; dc_Access : string }.

(** [LinuxResources]: the limits are opaque. *)
Record Resources := mkResources {
  rs_Devices : list DeviceCgroup; rs_Memory : option string; rs_CPU : option string; rs_Pids : option string; rs_rest : option string
}.
Record Linux := mkLinux {
  lx_Namespaces : list Namespace; lx_ReadonlyPaths : list string; lx_MaskedPaths : list string; lx_Seccomp : option string;
  lx_Resources : option Resources; lx_rest : option string
}.
Record Spec := mkSpec { sp_Mounts : list Mount; sp_Linux : option Linux; sp_rest : string }.

#[export] Instance Mount_eq_dec : EqDecision Mount.
Proof. solve_decision. Defined.
#[export] Instance Namespace_eq_dec : EqDecision Namespace.
Proof. solve_decision. Defined.
#[export] Instance DeviceCgroup_eq_dec : EqDecision DeviceCgroup.
Proof. solve_decision. Defined.
#[export] Instance Resources_eq_dec : EqDecision Resources.
Proof. solve_decision. Defined.
#[export] Instance Linux_eq_dec : EqDecision Linux.
Proof. solve_decision. Defined.
#[export] Instance Spec_eq_dec : EqDecision Spec.
Proof. solve_decision. Defined.

(** ** util.go *)

Definition dev_mount : Mount := mkMount "/dev" "bind" "/dev" ["rbind"; "rw"].
Definition resolv_mount : Mount := mkMount "/etc/resolv.conf" "bind" "/etc/resolv.conf" ["rbind"; "ro"].

(** The loop over the mounts. *)
Fixpoint relax_mounts (ms : list Mount) : list Mount :=
  match ms with
  | [] => []
  | m :: ms =>
      if decide (m_Destination m = "/dev") then dev_mount :: relax_mounts ms
      else if decide (m_Destination m ∈ ["/dev/pts"; "/dev/shm"; "/dev/mqueue"]) then relax_mounts ms
      else m :: relax_mounts ms
  end.

Definition with_resolv (ms : list Mount) : list Mount :=
  if existsb (λ m, bool_decide (m_Destination m = "/etc/resolv.conf")) ms then ms else ms ++ [resolv_mount].

(** What [RelaxOCISpec] makes of the specification. *)
Definition relax (s : Spec) : Spec :=
  let l := default (mkLinux [] [] [] None None None) (sp_Linux s) in
  let res := mkResources [mkDeviceCgroup true "rwm"] None None None None in
  mkSpec (with_resolv (relax_mounts (sp_Mounts s))) (Some (mkLinux (lx_Namespaces l) [] [] None (Some res) (lx_rest l))) (sp_rest s).

(** The files, and the calls on a path that fail. *)
Record specEnv := mkSpecEnv {
  se_open : string → option error;
  se_create : string → option error;
  se_write : string → option error
}.

Section json.
Context (env : specEnv) (decode : string → res Spec) (encode : Spec → res string).

#[local] Abbreviation files := (gmap string string).

Definition config_path (p : string) : string := path_Join [p; "config.json"].

Definition readSpec (p : string) : ST files Spec := λ fs,
  match se_open env (config_path p), fs !! config_path p with
  | Some e, _ => (Err e, fs)
  | None, None => (Err (mkError ErrNotFound "no such file or directory"), fs)
  | None, Some text => (decode text, fs)
  end.

(** [os.Create] empties the file before the encoder writes. *)
Definition writeSpec (p : string) (s : Spec) : ST files () := λ fs,
  match se_create env (config_path p) with
  | Some e => (Err e, fs)
  | None =>
      let fs := <[config_path p := EmptyString]> fs in
      match encode s with
      | Err e => (Err e, fs)
      | Ok text =>
          match se_write env (config_path p) with
          | Some e => (Err e, fs)
          | None => (Ok tt, <[config_path p := text]> fs)
          end
      end
  end.

Definition RelaxOCISpec (bundlePath : string) : ST files () :=
  do! spec := readSpec bundlePath in
  writeSpec bundlePath (relax spec).

Definition private_pid (s : Spec) : bool :=
  match sp_Linux s with
  | Some l => existsb (λ n, bool_decide (ns_Type n = "pid") && bool_decide (ns_Path n = EmptyString)) (lx_Namespaces l)
  | None => false
  end.

Definition ShouldKillAllOnExit (bundlePath : string) (fs : files) : bool :=
  match (readSpec bundlePath fs).1 with
  | Err _ => true
  | Ok spec => negb (private_pid spec)
  end.
End json.

(** ** container.go: options *)

Record Options := mkOptions {
  op_IoUid : Z; op_IoGid : Z; op_Root : string; op_SystemdCgroup : bool; op_NoPivotRoot : bool; op_NoNewKeyring : bool; op_CriuWorkPath : string
}.
Definition no_options : Options := mkOptions 0 0 EmptyString false false false EmptyString.

#[export] Instance Options_eq_dec : EqDecision Options.
Proof. solve_decision. Defined.

(** What the options of a request are: those of runc, those of this runtime, or others. *)
Inductive anyOptions := RuncOptions (o : Options) | SpinboxOpts (ioUid ioGid : Z) | OtherOptions.

Definition toRuncOptions (v : anyOptions) : Options :=
  match v with
  | RuncOptions o => o
  | SpinboxOpts uid gid => mkOptions uid gid EmptyString false false false EmptyString
  | OtherOptions => no_options
  end.

(** The options of the request: [None] when it has none, an error when they cannot be
    decoded. *)
Definition request_options (unmarshaled : option (res (option anyOptions))) : Options :=
  match unmarshaled with
  | Some (Ok (Some v)) => toRuncOptions v
  | _ => no_options
  end.

Section options.
Context (env : specEnv) (encode : Options → res string) (decode : string → res Options).

Definition options_path (p : string) : string := path_Join [p; "options.json"].

Definition WriteOptions (p : string) (o : Options) : ST (gmap string string) () := λ fs,
  match encode o with
  | Err e => (Err e, fs)
  | Ok text => match se_write env (options_path p) with Some e => (Err e, fs) | None => (Ok tt, <[options_path p := text]> fs) end
  end.

(** A file that is not there gives the defaults. *)
Definition ReadOptions (p : string) (fs : gmap string string) : res Options :=
  match fs !! options_path p with
  | None => Ok no_options
  | Some text => match se_open env (options_path p) with Some e => Err e | None => decode text end
  end.
End options.

(** The runtime of the process: the variable is looked at once. *)
Definition getRuntimePath (getenv : string → string) (resolved : option string) : string * option string :=
  match resolved with
  | Some p => (p, resolved)
  | None => let p := getenv "SPINBOX_OCI_RUNTIME" in
            let r := if decide (p = EmptyString) then "/sbin/crun" else p in (r, Some r)
  end.

(** [newInit]: what the init process takes from the options. *)
Record InitSettings := mkInitSettings {
  is_Root : string; is_Runtime : string; is_SystemdCgroup : bool; is_Bundle : string; is_Rootfs : string; is_WorkDir : string;
  is_IoUID : Z; is_IoGID : Z; is_NoPivotRoot : bool; is_NoNewKeyring : bool; is_CriuWorkPath : string
}.

Definition newInit (bundle workDir runtime : string) (o : Options) (rootfs : string) : InitSettings :=
  mkInitSettings (op_Root o) runtime (op_SystemdCgroup o) bundle rootfs workDir (op_IoUid o) (op_IoGid o) (op_NoPivotRoot o)
    (op_NoNewKeyring o) (if decide (op_CriuWorkPath o = EmptyString) then workDir else op_CriuWorkPath o).

(** ** What relaxing does *)

Definition replaced (d : string) : Prop := d ∈ ["/dev"; "/dev/pts"; "/dev/shm"; "/dev/mqueue"].

#[export] Instance replaced_dec d : Decision (replaced d).
Proof. unfold replaced. apply _. Defined.

Lemma relax_mounts_keep ms : List.filter (λ m, negb (bool_decide (replaced (m_Destination m)))) (relax_mounts ms) =
  List.filter (λ m, negb (bool_decide (replaced (m_Destination m)))) ms.
Proof.
  induction ms as [|m ms IH]; [done|]. cbn [relax_mounts]. destruct (decide (m_Destination m = "/dev")) as [Hd|Hd].
  { cbn [List.filter]. rewrite IH. by rewrite (bool_decide_true (replaced (m_Destination m))) by (unfold replaced; rewrite Hd; set_solver). }
  destruct (decide (m_Destination m ∈ ["/dev/pts"; "/dev/shm"; "/dev/mqueue"])) as [Hs|Hs]; cbn [List.filter]; rewrite IH; [|done].
  by rewrite (bool_decide_true (replaced (m_Destination m))) by (unfold replaced; set_solver).
Qed.

Lemma relax_mounts_replaced ms m : m ∈ relax_mounts ms → replaced (m_Destination m) → m = dev_mount.
Proof.
  induction ms as [|x ms IH]; [by intros ?%elem_of_nil|]. cbn [relax_mounts]. destruct (decide _) as [Hd|Hd].
  { intros [-> | Hm]%elem_of_cons Hr; [done|]. by apply IH. }
  destruct (decide _) as [Hs|Hs]; [exact IH|]. intros [-> | Hm]%elem_of_cons Hr; [|by apply IH]. exfalso. unfold replaced in Hr. set_solver.
Qed.

Lemma relax_mounts_dev ms : (∃ m, m ∈ ms ∧ m_Destination m = "/dev") ↔ dev_mount ∈ relax_mounts ms.
Proof.
  induction ms as [|x ms IH]; [split; [by intros (m & ?%elem_of_nil & _)|by intros ?%elem_of_nil]|]. cbn [relax_mounts].
  destruct (decide (m_Destination x = "/dev")) as [Hd|Hd].
  { split; intros _; [by apply elem_of_cons; left|]. exists x. split; [by apply elem_of_cons; left|done]. }
  assert (E : (∃ m, m ∈ x :: ms ∧ m_Destination m = "/dev") ↔ ∃ m, m ∈ ms ∧ m_Destination m = "/dev").
  { split; intros (m & Hm & Em); exists m; (split; [|done]); [apply elem_of_cons in Hm as [-> |]; done|by apply elem_of_cons; right]. }
  rewrite E, IH. destruct (decide _); [done|]. rewrite elem_of_cons. split; [by right|]. intros [<- |]; done.
Qed.

Lemma relax_mounts_twice ms : relax_mounts (relax_mounts ms) = relax_mounts ms.
Proof.
  induction ms as [|m ms IH]; [done|]. cbn [relax_mounts]. destruct (decide (m_Destination m = "/dev")) as [Hd|Hd].
  { cbn [relax_mounts]. rewrite decide_True by done. by rewrite IH. }
  destruct (decide (m_Destination m ∈ ["/dev/pts"; "/dev/shm"; "/dev/mqueue"])) as [Hs|Hs]; [exact IH|].
  cbn [relax_mounts]. rewrite (decide_False (P := m_Destination m = "/dev")) by done. rewrite decide_False by done. by rewrite IH.
Qed.

Lemma relax_mounts_app a b : relax_mounts (a ++ b) = relax_mounts a ++ relax_mounts b.
Proof.
  induction a as [|m a IH]; [done|]. cbn [app relax_mounts]. rewrite IH. by repeat destruct (decide _).
Qed.

Lemma with_resolv_has ms : existsb (λ m, bool_decide (m_Destination m = "/etc/resolv.conf")) (with_resolv ms) = true.
Proof. unfold with_resolv. destruct (existsb _ ms) eqn:E; [done|]. rewrite existsb_app. cbn. by rewrite orb_true_r. Qed.

Lemma with_resolv_relaxed ms : relax_mounts (with_resolv (relax_mounts ms)) = with_resolv (relax_mounts ms).
Proof.
  unfold with_resolv. destruct (existsb _ _); [by rewrite relax_mounts_twice|]. rewrite relax_mounts_app, relax_mounts_twice. done.
Qed.

(** The mounts that are not of /dev stay, in their order, with at most the resolver's added;
    what is mounted on /dev is the guest's, when the specification mounts something there;
    the resolver's file is mounted; nothing is hidden and every device allowed; namespaces
    and the rest stay; and relaxing a specification again changes nothing. *)
Theorem relaxed_spec s : let t := relax s in
  relax t = t ∧ sp_rest t = sp_rest s ∧
  (∃ extra, List.filter (λ m, negb (bool_decide (replaced (m_Destination m)))) (sp_Mounts t) =
     List.filter (λ m, negb (bool_decide (replaced (m_Destination m)))) (sp_Mounts s) ++ extra ∧ (extra = [] ∨ extra = [resolv_mount])) ∧
  (∀ m, m ∈ sp_Mounts t → replaced (m_Destination m) → m = dev_mount) ∧
  ((∃ m, m ∈ sp_Mounts s ∧ m_Destination m = "/dev") ↔ dev_mount ∈ sp_Mounts t) ∧
  (∃ m, m ∈ sp_Mounts t ∧ m_Destination m = "/etc/resolv.conf") ∧
  ∃ l, sp_Linux t = Some l ∧ lx_Namespaces l = from_option lx_Namespaces [] (sp_Linux s) ∧ lx_ReadonlyPaths l = [] ∧ lx_MaskedPaths l = [] ∧ lx_Seccomp l = None.
Proof.
  intros t. assert (Hin : ∀ m, m ∈ sp_Mounts t ↔ m ∈ relax_mounts (sp_Mounts s) ∨ m = resolv_mount ∧ existsb (λ m, bool_decide (m_Destination m = "/etc/resolv.conf")) (relax_mounts (sp_Mounts s)) = false).
  { intros m. subst t. cbn [relax sp_Mounts]. unfold with_resolv. destruct (existsb _ _); [naive_solver|]. rewrite elem_of_app, list_elem_of_singleton. naive_solver. }
  split_and!.
  - subst t. unfold relax. cbn [sp_Mounts sp_Linux sp_rest default lx_Namespaces lx_rest from_option id]. rewrite with_resolv_relaxed.
    unfold with_resolv at 1. by rewrite with_resolv_has.
  - done.
  - subst t. cbn [relax sp_Mounts]. unfold with_resolv. destruct (existsb _ _).
    + exists []. rewrite relax_mounts_keep, app_nil_r. naive_solver.
    + exists [resolv_mount]. rewrite List.filter_app, relax_mounts_keep. split; [done|by right].
  - intros m [Hm|[-> _]]%Hin Hr; [by eapply relax_mounts_replaced|]. exfalso. revert Hr. apply (bool_decide_unpack _). by vm_compute.
  - rewrite relax_mounts_dev, Hin. split; [by left|]. by intros [?|[? _]].
  - pose proof (with_resolv_has (relax_mounts (sp_Mounts s))) as (m & Hm & Hd)%existsb_exists. exists m. split; [by apply list_elem_of_In|by apply bool_decide_eq_true in Hd].
  - eexists. split; [done|]. by destruct (sp_Linux s).
Qed.

(** Relaxing the file of a bundle succeeds only when the file decodes to the relaxed
    specification afterwards, and does not change which processes die with the container. *)
Theorem relaxed_file env decode encode p fs fs' x spec : (∀ s text, encode s = Ok text → decode text = Ok s) → se_open env (config_path p) = None →
  (readSpec env decode p fs).1 = Ok spec → RelaxOCISpec env decode encode p fs = (Ok x, fs') →
  (readSpec env decode p fs').1 = Ok (relax spec) ∧ (∀ f, f ≠ config_path p → fs' !! f = fs !! f) ∧
  ShouldKillAllOnExit env decode p fs' = ShouldKillAllOnExit env decode p fs.
Proof.
  intros Hj Ho Hr. unfold RelaxOCISpec, bind. assert (Es : (readSpec env decode p fs).2 = fs) by (unfold readSpec; rewrite Ho; by destruct (fs !! _)).
  destruct (readSpec env decode p fs) as [r fs0] eqn:E. cbn in Hr, Es. subst r fs0. unfold writeSpec.
  destruct (se_create env _); [done|]. destruct (encode (relax spec)) as [text|] eqn:Et; [|done]. destruct (se_write env _); [done|]. intros Hq. injection Hq as _ <-.
  assert (Hr' : (readSpec env decode p (<[config_path p := text]> (<[config_path p := EmptyString]> fs))).1 = Ok (relax spec)).
  { unfold readSpec. rewrite Ho, lookup_insert_eq. by apply Hj. }
  split; [exact Hr'|]. split; [intros f Hf; by rewrite !lookup_insert_ne by done|]. unfold ShouldKillAllOnExit. rewrite Hr', E. cbn.
  f_equal. unfold private_pid, relax. cbn. by destruct (sp_Linux spec).
Qed.

(** Killing every process is skipped exactly for a specification that can be read and gives
    the container a PID namespace of its own. *)
Lemma kill_all_spec env decode p fs : ShouldKillAllOnExit env decode p fs = false ↔
  ∃ s l n, (readSpec env decode p fs).1 = Ok s ∧ sp_Linux s = Some l ∧ n ∈ lx_Namespaces l ∧ ns_Type n = "pid" ∧ ns_Path n = EmptyString.
Proof.
  unfold ShouldKillAllOnExit. destruct (readSpec env decode p fs).1 as [s|e]; [|naive_solver]. rewrite negb_false_iff. unfold private_pid.
  destruct (sp_Linux s) as [l|] eqn:El; [|naive_solver]. rewrite existsb_exists. setoid_rewrite andb_true_iff. setoid_rewrite bool_decide_eq_true.
  setoid_rewrite <- list_elem_of_In. naive_solver.
Qed.

(** The limits of the container are gone with the device rules. *)
Lemma limits_dropped s l r : sp_Linux s = Some l → lx_Resources l = Some r →
  sp_Linux (relax s) ≫= lx_Resources = Some (mkResources [mkDeviceCgroup true "rwm"] None None None None).
Proof. done. Qed.

(** The options of a container are read back. *)
Theorem options_roundtrip env encode decode p o fs fs' x : (∀ o text, encode o = Ok text → decode text = Ok o) → se_open env (options_path p) = None →
  WriteOptions env encode p o fs = (Ok x, fs') → ReadOptions env decode p fs' = Ok o.
Proof.
  intros Hj Ho. unfold WriteOptions, ReadOptions. destruct (encode o) as [text|] eqn:E; [|done]. destruct (se_write env _); [done|]. intros H. injection H as _ <-.
  rewrite lookup_insert_eq, Ho. by apply Hj.
Qed.

(** The runtime that was chosen stays. *)
Lemma runtime_once getenv getenv' : let r := getRuntimePath getenv None in getRuntimePath getenv' r.2 = (r.1, r.2) ∧ r.1 ≠ EmptyString.
Proof. unfold getRuntimePath. cbn. split; [done|]. by destruct (decide (getenv "SPINBOX_OCI_RUNTIME" = EmptyString)). Qed.

(** ** A container *)

Definition demo_spec : Spec :=
  mkSpec [mkMount "/proc" "proc" "proc" []; mkMount "/dev" "tmpfs" "tmpfs" []; mkMount "/dev/mqueue" "mqueue" "mqueue" []]
    (Some (mkLinux [mkNamespace "pid" EmptyString] ["/proc/sys"] [] (Some "default") (Some (mkResources [] (Some "limit=64m") None None None)) None)) "demo".
Definition calm_spec : specEnv := mkSpecEnv (λ _, None) (λ _, None) (λ _, None).

Lemma relaxed_demo : sp_Mounts (relax demo_spec) = [mkMount "/proc" "proc" "proc" []; dev_mount; resolv_mount].
Proof. reflexivity. Qed.

(** An encoder of two specifications. *)
Definition demo_encode (s : Spec) : res string :=
  if decide (s = relax demo_spec) then Ok "relaxed" else if decide (s = demo_spec) then Ok "original" else Err (errorf "unsupported").
Definition demo_decode (t : string) : res Spec :=
  if decide (t = "relaxed") then Ok (relax demo_spec) else if decide (t = "original") then Ok demo_spec else Err (errorf "unexpected end of JSON input").

Lemma demo_json s text : demo_encode s = Ok text → demo_decode text = Ok s.
Proof. unfold demo_encode, demo_decode. destruct (decide (s = relax demo_spec)) as [-> |]; [by intros [= <-]|]. destruct (decide (s = demo_spec)) as [-> |]; [by intros [= <-]|done]. Qed.

Definition demo_files : gmap string string := {["/run/bundles/c1/config.json" := "original"]}.

Lemma relaxed_file_witness :
  (readSpec calm_spec demo_decode "/run/bundles/c1" (RelaxOCISpec calm_spec demo_decode demo_encode "/run/bundles/c1" demo_files).2).1 = Ok (relax demo_spec) ∧
  ShouldKillAllOnExit calm_spec demo_decode "/run/bundles/c1" demo_files = false.
Proof.
  split; [|vm_compute; reflexivity].
  apply (relaxed_file calm_spec demo_decode demo_encode "/run/bundles/c1" demo_files _ tt demo_spec demo_json); [reflexivity|vm_compute; reflexivity|vm_compute; reflexivity].
Defined.

(** When the encoder fails the container is left with an empty configuration. *)
Lemma failed_write_empties : let broken (s : Spec) : res string := Err (errorf "unsupported") in
  RelaxOCISpec calm_spec demo_decode broken "/run/bundles/c1" demo_files =
    (Err (errorf "unsupported"), {["/run/bundles/c1/config.json" := EmptyString]}).
Proof. vm_compute. reflexivity. Qed.

Lemma options_roundtrip_witness : let enc (o : Options) : res string := if decide (op_IoUid o = 7%Z ∧ o = mkOptions 7 0 EmptyString false false false EmptyString) then Ok "{io_uid:7}" else Err (errorf "unsupported") in
  let dec (t : string) : res Options := Ok (mkOptions 7 0 EmptyString false false false EmptyString) in
  ReadOptions calm_spec dec "/run/bundles/c1" (WriteOptions calm_spec enc "/run/bundles/c1" (toRuncOptions (SpinboxOpts 7 0)) ∅).2 = Ok (toRuncOptions (SpinboxOpts 7 0)).
Proof.
  intros enc dec. apply (options_roundtrip calm_spec enc dec "/run/bundles/c1" (toRuncOptions (SpinboxOpts 7 0)) ∅ _ tt).
  - intros o text. unfold enc. destruct (decide _) as [[_ ->]|]; [|done]. done.
  - reflexivity.
  - vm_compute. reflexivity.
Defined.
