(* ===== verification/Console.v ===== *)
(** The terminal of a container in the guest: internal/guest/vminit/runc/platform.go, which
    registers a console with the poller and copies between it and where the task's input
    and output are: a stream of the host, a logging program, or a named pipe.

    The world keeps the descriptors that are open, the consoles the poller watches, the
    copies that were started and the caller's wait group.  The stream manager, the parser of
    URIs, named pipes and the logging program are parameters.  A copy that ends closes what
    it wrote to and tells the wait group. *)
From S2P Require Import Prelude GoStrings GoText GoState.
Open Scope Z_scope.

Inductive handle :=
  | HStream (sid : Z) | HFifoR (path : string) | HFifoW (path : string)
  | HOutR | HOutW | HSerrR | HSerrW | HReadyR | HReadyW.

#[export] Instance handle_eq_dec : EqDecision handle.
Proof. solve_decision. Defined.

(** A copy from the console ([false]) or to it ([true]), and the descriptors it closes. *)
Record copy := mkCopy { cp_stdin : bool; cp_closes : list handle }.

Record cworld := mkCworld {
  cw_open : list handle;
  cw_polled : list string;
  cw_copies : list copy;
  cw_wg : Z
}.

Record consoleEnv := mkConsoleEnv {
  ve_epoller : bool;                                (** the poller was made *)
  ve_add : string → option error;
  ve_get : Z → option error;                        (** a stream *)
  ve_fifo : handle → option error;
  ve_scheme : string → res string;                  (** [url.Parse] *)
  ve_namespace : option error;
  ve_pipe : nat → option error;                     (** the pipes, in order *)
  ve_start : option error;                          (** the logging program *)
  ve_closeW : option error;
  ve_ready : option error                           (** its answer, but for the end of the file *)
}.

Section console.
Context (env : consoleEnv).

Definition errs (e : option error) : ST cworld () := λ w, (match e with Some e => Err e | None => Ok tt end, w).
Definition opened (h : handle) : ST cworld () := modify (λ w, mkCworld (cw_open w ++ [h]) (cw_polled w) (cw_copies w) (cw_wg w)).
Definition closed (hs : list handle) : ST cworld () :=
  modify (λ w, mkCworld (List.filter (λ h, bool_decide (h ∉ hs)) (cw_open w)) (cw_polled w) (cw_copies w) (cw_wg w)).

(** [go func() { … }()] *)
Definition start_copy (c : copy) : ST cworld () := modify (λ w, mkCworld (cw_open w) (cw_polled w) (cw_copies w ++ [c]) (cw_wg w)).
Definition wg_add : ST cworld () := modify (λ w, mkCworld (cw_open w) (cw_polled w) (cw_copies w) (cw_wg w + 1)).

Definition epoller_Add (cons : string) : ST cworld () :=
  errs (ve_add env cons) ;;! modify (λ w, mkCworld (cw_open w) (cw_polled w ++ [cons]) (cw_copies w) (cw_wg w)).

Definition stream_id (s : string) : res Z :=
  match ParseUint s 10 32 with Some n => Ok n | None => Err (errorf ("strconv.ParseUint: parsing " +:+ fmt_q s +:+ ": invalid syntax")) end.

Definition setupStdinCopy (stdin : string) : ST cworld (option handle) :=
  if decide (stdin = EmptyString) then ret None
  else
    do! h := (match CutPrefix "stream://" stdin with
              | Some s => do! sid := lift (stream_id s) in errs (ve_get env sid) ;;! ret (HStream sid)
              | None => errs (ve_fifo env (HFifoR stdin)) ;;! opened (HFifoR stdin) ;;! ret (HFifoR stdin)
              end) in
    start_copy (mkCopy true [h]) ;;! ret (Some h).

Definition copyToStream (stdout : string) : ST cworld () :=
  do! sid := lift (stream_id (default stdout (CutPrefix "stream://" stdout))) in
  errs (ve_get env sid) ;;!
  wg_add ;;! start_copy (mkCopy false [HStream sid]).

(** [os.Pipe], the [k]-th. *)
Definition pipe (k : nat) (msg : string) (r w : handle) : ST cworld () :=
  (if decide (msg = EmptyString) then errs (ve_pipe env k) else wrapping msg (errs (ve_pipe env k))) ;;! opened r ;;! opened w.

(** The body, and the descriptors to close when it fails, which grow with each pipe. *)
Definition copyToBinary : ST cworld () :=
  errs (ve_namespace env) ;;!
  pipe 0 "failed to create stdout pipes" HOutR HOutW ;;!
  on_error (pipe 1 "failed to create stderr pipes" HSerrR HSerrW) (closed [HOutR]) ;;!
  on_error (pipe 2 EmptyString HReadyR HReadyW) (closed [HOutR; HSerrR]) ;;!
  on_error
    (wg_add ;;! start_copy (mkCopy false [HOutW]) ;;!
     wrapping "failed to start logging binary process" (errs (ve_start env)) ;;!
     wrapping "failed to close write pipe after start" (errs (ve_closeW env)) ;;! closed [HReadyW] ;;!
     wrapping "failed to read from logging binary" (errs (ve_ready env)))
    (closed [HOutR; HSerrR; HReadyR]).

Definition copyToFifo (stdout : string) : ST cworld () :=
  errs (ve_fifo env (HFifoW stdout)) ;;! opened (HFifoW stdout) ;;!
  errs (ve_fifo env (HFifoR stdout)) ;;! opened (HFifoR stdout) ;;!
  wg_add ;;! start_copy (mkCopy false [HFifoW stdout; HFifoR stdout]).

(** The console and what closes its input, when it has one. *)
Definition CopyConsole (cons stdin stdout : string) : ST cworld (option handle) :=
  if negb (ve_epoller env) then fail (errorf "uninitialized epoller")
  else
    epoller_Add cons ;;!
    do! cstdin := setupStdinCopy stdin in
    do! scheme := wrapping "unable to parse stdout uri" (lift (ve_scheme env stdout)) in
    (if decide (scheme = "stream") then copyToStream stdout
     else if decide (scheme = "binary") then copyToBinary
     else copyToFifo stdout) ;;!
    ret cstdin.

(** [shutdown]: the console's own, when it is one the poller watches. *)
Definition ShutdownConsole (shutdown : option (option error)) : ST cworld () :=
  if negb (ve_epoller env) then fail (errorf "uninitialized epoller")
  else match shutdown with
       | None => fail (errorf "expected EpollConsole")
       | Some e => errs e
       end.
End console.

(** The end of a copy: what it wrote to is closed, and an output copy tells the wait group. *)
Definition copy_ends (k : nat) (w : cworld) : cworld :=
  match cw_copies w !! k with
  | Some c => mkCworld (List.filter (λ h, bool_decide (h ∉ cp_closes c)) (cw_open w)) (cw_polled w) (delete k (cw_copies w))
                (if cp_stdin c then cw_wg w else cw_wg w - 1)
  | None => w
  end.

(** ** The wait group *)

Definition outputs (w : cworld) : Z := Z.of_nat (length (filter (λ c, cp_stdin c = false) (cw_copies w))).

(** The caller waits for exactly the output copies. *)
Definition counted (w : cworld) : Prop := cw_wg w = outputs w.

(** What a call added: copies, of which the output ones are in the wait group. *)
Definition grew (w w' : cworld) (l : list copy) : Prop :=
  cw_copies w' = cw_copies w ++ l ∧ cw_wg w' - cw_wg w = Z.of_nat (length (filter (λ c, cp_stdin c = false) l)).

Lemma grew_nil w w' : cw_copies w' = cw_copies w → cw_wg w' = cw_wg w → grew w w' [].
Proof. intros E1 E2. unfold grew. rewrite E1, E2, app_nil_r. cbn. split; [done|lia]. Qed.

Lemma grew_app w w1 w2 a b : grew w w1 a → grew w1 w2 b → grew w w2 (a ++ b).
Proof. intros [A1 A2] [B1 B2]. unfold grew. rewrite B1, A1, (assoc_L (++)), filter_app, length_app. split; [done|lia]. Qed.

Lemma grew_counted w w' l : grew w w' l → counted w → counted w'.
Proof. intros [H1 H2]. unfold counted, outputs. rewrite H1, filter_app, length_app. lia. Qed.

Lemma outputs_all l : Forall (λ c, cp_stdin c = false) l → filter (λ c, cp_stdin c = false) l = l.
Proof. induction 1 as [|c l Hc Hl IH]; [done|]. rewrite filter_cons_True by done. by rewrite IH. Qed.

(** A call that adds some output copies, one when it succeeds. *)
Definition wires {A} (m : ST cworld A) : Prop := ∀ w, ∃ l, grew w (m w).2 l ∧ Forall (λ c, cp_stdin c = false) l ∧
  cw_polled (m w).2 = cw_polled w ∧ (length l ≤ 1)%nat ∧ (is_ok (m w).1 = true → length l = 1%nat).

(** A call that adds none. *)
Definition still {A} (m : ST cworld A) : Prop := ∀ w, cw_copies (m w).2 = cw_copies w ∧ cw_wg (m w).2 = cw_wg w ∧ cw_polled (m w).2 = cw_polled w.

Section wiring.
Context (env : consoleEnv).

Lemma still_errs e : still (errs e).
Proof. by intros w. Qed.
Lemma still_modify f : (∀ w, cw_copies (f w) = cw_copies w ∧ cw_wg (f w) = cw_wg w ∧ cw_polled (f w) = cw_polled w) → still (modify f).
Proof. intros H w. apply H. Qed.
Lemma still_lift {A} (r : res A) : still (lift r).
Proof. by intros w. Qed.

Lemma still_bind {A B} (m : ST cworld A) (k : A → ST cworld B) : still m → (∀ a, still (k a)) → still (bind m k).
Proof.
  intros Hm Hk w. specialize (Hm w). unfold bind. destruct (m w) as [[a|e] w1]; cbn [snd] in *; [|done]. specialize (Hk a w1). intuition congruence.
Qed.
Lemma still_wrapping {A} msg (m : ST cworld A) : still m → still (wrapping msg m).
Proof. intros Hm w. specialize (Hm w). unfold wrapping. by destruct (m w) as [[]]. Qed.
Lemma still_on_error {A} (m : ST cworld A) c : still m → still c → still (on_error m c).
Proof.
  intros Hm Hc w. specialize (Hm w). unfold on_error. destruct (m w) as [[a|e] w1]; cbn [snd] in *; [done|]. specialize (Hc w1). intuition congruence.
Qed.

Lemma still_pipe k msg r w : still (pipe env k msg r w).
Proof.
  unfold pipe. apply still_bind; [destruct (decide _); [|apply still_wrapping]; apply still_errs|]. intros _.
  apply still_bind; [|intros _]; by apply still_modify.
Qed.

Lemma wires_start c : cp_stdin c = false → wires (wg_add ;;! start_copy c).
Proof.
  intros Hc w. exists [c]. cbn. split_and!; try done; [|by constructor].
  split; [done|]. cbn [cw_wg]. rewrite filter_cons_True by done. cbn. lia.
Qed.

Lemma wires_after {A B} (m : ST cworld A) (k : A → ST cworld B) : still m → (∀ a, wires (k a)) → wires (bind m k).
Proof.
  intros Hm Hk w. specialize (Hm w) as (H1 & H2 & H3). unfold bind. destruct (m w) as [[a|e] w1]; cbn [fst snd] in *.
  - destruct (Hk a w1) as (l & Hg & Hf & Hp & Hl & Ho). exists l. split_and!; [|done|congruence|done|done]. apply (grew_app w w1 _ [] l); [by apply grew_nil|done].
  - exists []. split_and!; [by apply grew_nil|done|done|cbn; lia|done].
Qed.

Lemma wires_before {A B} (m : ST cworld A) (k : A → ST cworld B) : wires m → (∀ a, still (k a)) → wires (bind m k).
Proof.
  intros Hm Hk w. destruct (Hm w) as (l & Hg & Hf & Hp & Hl & Ho). unfold bind. destruct (m w) as [[a|e] w1]; cbn [fst snd] in *; [|by exists l].
  destruct (Hk a w1) as (H1 & H2 & H3). exists l. split_and!; [|done|congruence|done|by intros _; apply Ho].
  rewrite <- (app_nil_r l). by apply (grew_app w w1); [|apply grew_nil].
Qed.

Lemma wires_on_error {A} (m : ST cworld A) c : wires m → still c → wires (on_error m c).
Proof.
  intros Hm Hc w. destruct (Hm w) as (l & Hg & Hf & Hp & Hl & Ho). unfold on_error. destruct (m w) as [[a|e] w1]; cbn [fst snd] in *; [by exists l|].
  destruct (Hc w1) as (H1 & H2 & H3). exists l. split_and!; [|done|congruence|done|done].
  rewrite <- (app_nil_r l). by apply (grew_app w w1); [|apply grew_nil].
Qed.

Lemma wires_copyToStream stdout : wires (copyToStream env stdout).
Proof.
  unfold copyToStream. apply wires_after; [apply still_lift|]. intros sid. apply wires_after; [apply still_errs|]. intros _. by apply wires_start.
Qed.

Lemma wires_copyToFifo stdout : wires (copyToFifo env stdout).
Proof.
  unfold copyToFifo. do 4 (apply wires_after; [first [apply still_errs | by apply still_modify]|intros _]). by apply wires_start.
Qed.

Lemma wg_start_assoc {B} c (k : ST cworld B) w : (wg_add ;;! start_copy c ;;! k) w = ((wg_add ;;! start_copy c) ;;! k) w.
Proof. done. Qed.

Lemma wires_copyToBinary : wires (copyToBinary env).
Proof.
  unfold copyToBinary. apply wires_after; [apply still_errs|]. intros _. apply wires_after; [apply still_pipe|]. intros _.
  do 2 (apply wires_after; [apply still_on_error; [apply still_pipe|by apply still_modify]|intros _]).
  apply wires_on_error; [|by apply still_modify]. intros w. rewrite wg_start_assoc. revert w. apply wires_before; [by apply wires_start|].
  intros _. repeat first [apply still_bind; [|intros _] | apply still_wrapping | apply still_errs | by apply still_modify].
Qed.

Lemma setupStdinCopy_spec stdin w r w' : setupStdinCopy env stdin w = (r, w') →
  cw_polled w' = cw_polled w ∧ ∃ l, grew w w' l ∧
  match r with
  | Ok None => stdin = EmptyString ∧ l = []
  | Ok (Some h) => stdin ≠ EmptyString ∧ l = [mkCopy true [h]]
  | Err _ => l = []
  end.
Proof.
  unfold setupStdinCopy. destruct (decide (stdin = EmptyString)) as [Hs|Hs]; [intros [= <- <-]; split; [done|]; exists []; split; [by apply grew_nil|done]|].
  set (m := match CutPrefix "stream://" stdin with Some _ => _ | None => _ end). assert (Hm : still m).
  { unfold m. destruct (CutPrefix _ _); repeat first [apply still_bind; [|intros ?] | apply still_errs | apply still_lift | by apply still_modify | by intros ?]. }
  specialize (Hm w) as (H1 & H2 & H3). unfold bind. destruct (m w) as [[h|e] w1]; cbn [snd] in *.
  - intros [= <- <-]. cbn. split; [done|]. exists [mkCopy true [h]]. split; [|done]. split; [cbn; by rewrite H1|]. rewrite filter_cons_False by done. cbn [snd fst cw_wg length filter list_filter ret start_copy modify]. rewrite H2. cbn. lia.
  - intros [= <- <-]. split; [done|]. exists []. split; [by apply grew_nil|done].
Qed.
End wiring.

(** Connecting a console: on success the poller watches it, exactly one copy of its output
    runs, and one of its input when the task has one, whose end the console can close; and
    whatever fails, the caller's wait group counts exactly the output copies that run, so
    that waiting for it ends when they do. *)
Theorem console_wired env cons stdin stdout w r w' : CopyConsole env cons stdin stdout w = (r, w') →
  (counted w → counted w') ∧ (outputs w' ≤ outputs w + 1) ∧
  match r with
  | Ok c => cw_polled w' = cw_polled w ++ [cons] ∧ outputs w' = outputs w + 1 ∧
      ∃ out, cp_stdin out = false ∧ cw_copies w' = cw_copies w ++ (match c with Some h => [mkCopy true [h]] | None => [] end) ++ [out] ∧
        (c = None ↔ stdin = EmptyString)
  | Err _ => True
  end.
Proof.
  unfold CopyConsole. destruct (ve_epoller env); cbn [negb]; [|intros [= <- <-]; split; [done|]; split; [lia|done]].
  unfold epoller_Add. unfold bind at 1. unfold bind at 1, errs. destruct (ve_add env cons) as [e|]; [intros [= <- <-]; split; [done|]; split; [lia|done]|].
  unfold modify. set (w0 := mkCworld _ _ _ _). assert (G0 : grew w w0 []) by (by apply grew_nil).
  unfold bind at 1. destruct (setupStdinCopy env stdin w0) as [rs w1] eqn:Es. apply setupStdinCopy_spec in Es as (P1 & l1 & G1 & Hl1).
  assert (G01 : grew w w1 l1) by exact (grew_app _ _ _ _ _ G0 G1).
  assert (Hcount : ∀ w2 l, grew w w2 l → outputs w2 = outputs w + Z.of_nat (length (filter (λ c, cp_stdin c = false) l))).
  { intros w2 l [E _]. unfold outputs. rewrite E, filter_app, length_app. lia. }
  assert (Hin : filter (λ c, cp_stdin c = false) l1 = []) by (destruct rs as [[h|]|]; [destruct Hl1 as [_ ->]|destruct Hl1 as [_ ->]|subst l1]; done).
  assert (Hsame : (counted w → counted w1) ∧ (outputs w1 ≤ outputs w + 1)) by (split; [by eapply grew_counted|rewrite (Hcount _ _ G01), Hin; cbn; lia]).
  destruct rs as [c|e]; [|intros [= <- <-]; split; [apply Hsame|split; [apply Hsame|done]]].
  unfold bind at 1, wrapping, lift. destruct (ve_scheme env stdout) as [sc|e]; [|intros [= <- <-]; split; [apply Hsame|split; [apply Hsame|done]]].
  set (m := if decide (sc = "stream") then _ else _). assert (Hm : wires m) by (unfold m; repeat destruct (decide _); [apply wires_copyToStream|apply wires_copyToBinary|apply wires_copyToFifo]).
  destruct (Hm w1) as (l2 & G2 & F2 & P2 & L2 & O2). unfold bind, ret. destruct (m w1) as [[x|e] w2] eqn:Em; cbn [fst snd] in *; intros [= <- <-];
    pose proof (grew_app _ _ _ _ _ G01 G2) as G; (split; [by eapply grew_counted|]); rewrite (Hcount _ _ G), filter_app, Hin, app_nil_l;
    (assert (Hfl : length (filter (λ c, cp_stdin c = false) l2) = length l2) by (by rewrite outputs_all));
    rewrite Hfl; (split; [lia|]); [|done].
  specialize (O2 eq_refl). split; [by rewrite P2, P1|]. split; [lia|]. destruct l2 as [|out [|]]; try done. exists out.
  apply Forall_inv in F2. split; [done|]. rewrite (proj1 G). destruct c as [h|]; destruct Hl1 as [Hs ->]; split; try done; by split.
Qed.

(** The wait ends with the last output copy. *)
Lemma copy_ends_counted k w : counted w → counted (copy_ends k w).
Proof.
  unfold counted, outputs, copy_ends. intros Hw. destruct (cw_copies w !! k) as [c|] eqn:E; [|done]. cbn [cw_wg cw_copies].
  assert (Hl : length (filter (λ c, cp_stdin c = false) (cw_copies w)) = (length (filter (λ c, cp_stdin c = false) (delete k (cw_copies w))) + (if cp_stdin c then 0 else 1))%nat).
  { pose proof (Permutation_length (filter_Permutation (λ c, cp_stdin c = false) _ _ (delete_Permutation _ _ _ E))) as ->.
    destruct (cp_stdin c) eqn:Ec; [rewrite filter_cons_False by (by rewrite Ec)|rewrite filter_cons_True by done]; cbn [length]; lia. }
  rewrite Hw, Hl. destruct (cp_stdin c); lia.
Qed.

Definition calm_console : consoleEnv :=
  mkConsoleEnv true (λ _, None) (λ _, None) (λ _, None) (λ u, Ok (if HasPrefix u "stream://" then "stream" else if HasPrefix u "binary://" then "binary" else EmptyString))
    None (λ _, None) None None None.
Definition idle : cworld := mkCworld [] [] [] 0.

Lemma console_wired_witness : let r := CopyConsole calm_console "pty0" "stream://3" "stream://4" idle in
  r.1 = Ok (Some (HStream 3)) ∧ counted r.2 ∧ cw_copies r.2 = [mkCopy true [HStream 3]; mkCopy false [HStream 4]].
Proof.
  destruct (console_wired calm_console "pty0" "stream://3" "stream://4" idle (Ok (Some (HStream 3)))
    (CopyConsole calm_console "pty0" "stream://3" "stream://4" idle).2) as (H & _); [vm_compute; reflexivity|].
  split; [vm_compute; reflexivity|]. split; [apply H; reflexivity|vm_compute; reflexivity].
Defined.

(** What stays when the logging program does not start: the write ends of the pipes and the
    poller's registration; and the task's input is being copied. *)
Lemma failed_binary_leaves :
  let env := mkConsoleEnv true (λ _, None) (λ _, None) (λ _, None) (ve_scheme calm_console) None (λ _, None) (Some (errorf "exec format error")) None None in
  let r := CopyConsole env "pty0" "stream://3" "binary:///logger" idle in
  is_ok r.1 = false ∧ cw_open r.2 = [HOutW; HSerrW; HReadyW] ∧ cw_polled r.2 = ["pty0"] ∧ length (cw_copies r.2) = 2%nat.
Proof. vm_compute. done. Qed.
