(* ===== verification/Vminitd.v ===== *)
(** The daemon of the guest: cmd/vminitd/main.go, its flags and configuration file
    (internal/guest/vminit/config/config.go), the loading of its services
    (internal/guest/vminit/service/service.go), the stream of events it serves
    (internal/guest/vminit/events/service.go), and the calls of its system service that
    are not in Freeze, Devices and Restore.

    It is process 1: it initializes the guest (GuestBoot), takes its identity, serves until
    it is told to stop, and however it ends cleans up and powers the machine off.  The
    plugins, the RPC server, the JSON coder and the flag parser are parameters. *)
From S2P Require Import Prelude GoStrings GoText GoState Volume Kmsg GuestBoot.
Open Scope Z_scope.

(** ** config.go *)

Definition pluginConfig : Type := gmap string string.

Record ServiceConfig := mkServiceConfig {
  VSockContextID : Z; RPCPort : Z; StreamPort : Z; Debug : bool;
  DisabledPlugins : list string; PluginConfigs : gmap string pluginConfig
}.

(** What the command line parses to: the flags that were set, with their values. *)
Inductive flagSetting :=
  | FConfig (path : string) | FDebug (b : bool) | FRPCPort (n : Z) | FStreamPort (n : Z) | FCid (n : Z) | FVersion (b : bool) | FV (b : bool).

Definition flag_name (f : flagSetting) : string :=
  match f with
  | FConfig _ => "config" | FDebug _ => "debug" | FRPCPort _ => "vsock-rpc-port" | FStreamPort _ => "vsock-stream-port"
  | FCid _ => "vsock-cid" | FVersion _ => "version" | FV _ => "v"
  end.

Record flags := mkFlags { fl_config : ServiceConfig; fl_file : string; fl_version : bool }.

Definition DefaultRPCPort : Z := 1025.
Definition DefaultStreamPort : Z := 1026.
Definition GuestCID : Z := 3.

Definition default_flags : flags := mkFlags (mkServiceConfig GuestCID DefaultRPCPort DefaultStreamPort false [] ∅) EmptyString false.

Definition set_flag (f : flags) (s : flagSetting) : flags :=
  let c := fl_config f in
  match s with
  | FConfig p => mkFlags c p (fl_version f)
  | FDebug b => mkFlags (mkServiceConfig (VSockContextID c) (RPCPort c) (StreamPort c) b (DisabledPlugins c) (PluginConfigs c)) (fl_file f) (fl_version f)
  | FRPCPort n => mkFlags (mkServiceConfig (VSockContextID c) n (StreamPort c) (Debug c) (DisabledPlugins c) (PluginConfigs c)) (fl_file f) (fl_version f)
  | FStreamPort n => mkFlags (mkServiceConfig (VSockContextID c) (RPCPort c) n (Debug c) (DisabledPlugins c) (PluginConfigs c)) (fl_file f) (fl_version f)
  | FCid n => mkFlags (mkServiceConfig n (RPCPort c) (StreamPort c) (Debug c) (DisabledPlugins c) (PluginConfigs c)) (fl_file f) (fl_version f)
  | FVersion b | FV b => mkFlags c (fl_file f) b
  end.

Definition ErrVersionRequested : error := errorf "version requested".

(** The configuration, the names of the flags that were set, and the configuration file. *)
Definition ParseFlags (parsed : res (list flagSetting)) : res (ServiceConfig * gset string * string) :=
  match parsed with
  | Err e => Err e
  | Ok l =>
      let f := foldl set_flag default_flags l in
      if fl_version f then Err ErrVersionRequested
      else Ok (fl_config f, list_to_set (flag_name <$> l), fl_file f)
  end.

Section json.
(** [json.Unmarshal] into a configuration: the fields of the text over those it had. *)
Context (readFile : string → res string) (unmarshal : string → ServiceConfig → res ServiceConfig).

Definition LoadFromFile (path : string) (config : ServiceConfig) (setFlags : gset string) : res ServiceConfig :=
  match readFile path with
  | Err e => Err (wrap "failed to read config file" e)
  | Ok data =>
      match unmarshal data config with
      | Err e => Err (wrap "failed to parse config file" e)
      | Ok c =>
          Ok (mkServiceConfig
            (if decide ("vsock-cid" ∈ setFlags) then VSockContextID config else VSockContextID c)
            (if decide ("vsock-rpc-port" ∈ setFlags) then RPCPort config else RPCPort c)
            (if decide ("vsock-stream-port" ∈ setFlags) then StreamPort config else StreamPort c)
            (if decide ("debug" ∈ setFlags) then Debug config else Debug c)
            (DisabledPlugins c) (PluginConfigs c))
      end
  end.
End json.

(** Applying settings to the configuration of a plugin, through JSON. *)
Definition ApplyPluginConfig (marshal : pluginConfig → res string) (unmarshal : string → pluginConfig → res pluginConfig)
    (target : option pluginConfig) (settings : pluginConfig) : res pluginConfig :=
  match target with
  | None => Err (errorf "plugin config is nil")
  | Some t =>
      if (size settings =? 0)%nat then Ok t
      else match marshal settings with
           | Err e => Err (wrap "failed to marshal config map to JSON" e)
           | Ok data =>
               match unmarshal data t with
               | Err e => Err (wrap "failed to apply config to plugin (check field types)" e)
               | Ok t' => Ok t'
               end
           end
  end.

(** ** service.go *)

(** A registered plugin: its configuration, whether it is the streaming plugin and takes a
    vsock address, and whether its instance is an RPC service. *)
Record registration := mkReg {
  rg_URI : string; rg_Config : option pluginConfig; rg_streaming : bool; rg_SetVsock : bool; rg_ttrpc : bool
}.

Inductive initResult := IInstance | ISkip | IFailed (e : error).

(** What the service is made of: the listener, the plugins in the set with the
    configuration each was given, and the registered RPC services. *)
Record serviceWorld := mkSvcWorld {
  sw_listening : bool;
  sw_callbacks : nat;                                    (** of the shutdown service *)
  sw_plugins : list (string * option pluginConfig);
  sw_vsock : list (string * (Z * Z));                    (** the addresses that were set *)
  sw_services : list string
}.

Record serviceEnv := mkServiceEnv {
  sv_listen : option error;
  sv_server : option error;
  sv_apply : pluginConfig → pluginConfig → res pluginConfig;   (** [ApplyPluginConfig] *)
  sv_add : string → option error;                             (** [PluginSet.Add] *)
  sv_init : string → list string → initResult;
  sv_register : string → option error
}.

Definition uint32_of (z : Z) : Z := z mod 2 ^ 32.

Section service.
Context (env : serviceEnv) (cfg : ServiceConfig).

(** The configuration a plugin is given. *)
Definition plugin_config (r : registration) : res (option pluginConfig) :=
  match rg_Config r with
  | None => Ok None
  | Some c =>
      match PluginConfigs cfg !! rg_URI r with
      | None => Ok (Some c)
      | Some settings =>
          match sv_apply env c settings with
          | Err e => Err (wrap ("failed to apply plugin configuration for " +:+ rg_URI r) e)
          | Ok c' => Ok (Some c')
          end
      end
  end.

Definition load_plugin (r : registration) : ST serviceWorld () := λ w,
  if decide (rg_URI r ∈ DisabledPlugins cfg) then (Ok tt, w)
  else match plugin_config r with
  | Err e => (Err e, w)
  | Ok c =>
      let vs := if bool_decide (is_Some (rg_Config r)) && rg_SetVsock r && rg_streaming r
                then [(rg_URI r, (uint32_of (VSockContextID cfg), uint32_of (StreamPort cfg)))] else [] in
      let result := sv_init env (rg_URI r) (sw_plugins w).*1 in
      match sv_add env (rg_URI r) with
      | Some e => (Err (wrap "could not add plugin result to plugin set" e),
                   mkSvcWorld (sw_listening w) (sw_callbacks w) (sw_plugins w) (sw_vsock w ++ vs) (sw_services w))
      | None =>
          let w := mkSvcWorld (sw_listening w) (sw_callbacks w) (sw_plugins w ++ [(rg_URI r, c)]) (sw_vsock w ++ vs) (sw_services w) in
          match result with
          | ISkip => (Ok tt, w)
          | IFailed e => (Err (wrap ("failed to load plugin " +:+ rg_URI r) e), w)
          | IInstance =>
              if rg_ttrpc r then
                match sv_register env (rg_URI r) with
                | Some e => (Err (wrap ("failed to register TTRPC service " +:+ rg_URI r) e), w)
                | None => (Ok tt, mkSvcWorld (sw_listening w) (sw_callbacks w) (sw_plugins w) (sw_vsock w) (sw_services w ++ [rg_URI r]))
                end
              else (Ok tt, w)
          end
      end
  end.

Fixpoint load_plugins (rs : list registration) : ST serviceWorld () :=
  match rs with
  | [] => ret tt
  | r :: rs => load_plugin r ;;! load_plugins rs
  end.

Definition New (graph : list registration) : ST serviceWorld () := λ w,
  match sv_listen env with
  | Some e => (Err (wrap ("failed to listen on vsock port " +:+ fmt_d (RPCPort cfg)) e), w)
  | None =>
      let w := mkSvcWorld true (S (sw_callbacks w)) (sw_plugins w) (sw_vsock w) (sw_services w) in
      match sv_server env with
      | Some e => (Err e, w)
      | None => load_plugins graph (mkSvcWorld true (S (sw_callbacks w)) (sw_plugins w) (sw_vsock w) (sw_services w))
      end
  end.
End service.

(** The listener that tells of its first connection. *)
Definition Accept (accepted : res string) (fired : bool) (announced : list string) : res string * (bool * list string) :=
  match accepted with
  | Ok c => (Ok c, (true, if fired then announced else announced ++ ["first-accept"]))
  | Err e => (Err e, (fired, announced))
  end.

(** ** events/service.go *)

(** What the loop of [Stream] selects: an event, which may be nil; the end of the events;
    an error; the end of the errors; the end of the context. *)
Inductive selected :=
  | SEvent (e : option string) | SEventsClosed | SErr (e : option error) | SErrsClosed | SDone (e : error).

(** The events that were sent, and the result; [None]: it waits for the next. *)
Fixpoint Stream (send : nat → option error) (sels : list selected) (sent : list string) : list string * option (option error) :=
  match sels with
  | [] => (sent, None)
  | s :: sels =>
      match s with
      | SEvent None => Stream send sels sent
      | SEvent (Some e) =>
          match send (length sent) with
          | Some err => (sent, Some (Some err))
          | None => Stream send sels (sent ++ [e])
          end
      | SEventsClosed => (sent, Some (Some (errorf "EOF")))
      | SErr e => (sent, Some e)
      | SErrsClosed => (sent, Some None)
      | SDone e => (sent, Some (Some e))
      end
  end.

(** ** services/system.go *)

Definition Info (procVersion : res string) (short : string) : res (string * string) :=
  match procVersion with
  | Ok v => Ok (short, v)
  | Err e => if IsNotExist e then Ok (short, EmptyString) else Err e
  end.

Definition PrepareShutdown (env : benv) `{!SortSlice} (w : bworld) : bworld := Cleanup env w.

Definition features : gmap string string :=
  {["containerd.io/runtime-allow-mounts" := "mkdir/*,format/*,erofs,ext4"; "containerd.io/runtime-type" := "vm"; "containerd.io/vm-type" := "microvm"]}.

Definition writeRuntimeFeatures (marshal : gmap string string → res string) (mkdir write : option error) : ST (gmap string string) () := λ fs,
  match mkdir with
  | Some e => (Err e, fs)
  | None =>
      match marshal features with
      | Err e => (Err e, fs)
      | Ok data => match write with Some e => (Err e, fs) | None => (Ok tt, <[path_Join ["/run/vminitd"; "features.json"] := data]> fs) end
      end
  end.

(** ** main.go *)

(** What the loop of [run] selects: the end of the shutdown service, the end of the RPC
    server, and the signals. *)
Inductive mainEvent := MShutdownDone (e : option error) | MServiceDone (e : option error) | MChild (reap : option error) | MTerm.

(** What the daemon does, in order. *)
Inductive vstep :=
  | VInitialize | VApply | VDumpInfo | VNew | VProfile | VServe | VReap | VShutdown | VCleanup | VPowerOff.

#[export] Instance vstep_eq_dec : EqDecision vstep.
Proof. solve_decision. Defined.

Record mainEnv := mkMainEnv {
  me_initialize : option error;
  me_identity : res ();                         (** [FromCmdline] *)
  me_apply : option error;
  me_debug : bool;
  me_new : option error;
  me_numCPU : Z;
  me_panics : vstep → bool                      (** a step that does not return *)
}.

Definition panicking : out (res ()) := Panic "run-time error".

Definition of_option (e : option error) : res () := match e with Some e => Err e | None => Ok tt end.

(** The loop; the events run out while it waits. *)
Fixpoint main_loop (env : mainEnv) (evs : list mainEvent) (l : list vstep) : option (out (res ()) * list vstep) :=
  match evs with
  | [] => None
  | MShutdownDone _ :: _ => Some (Val (Ok tt), l)
  | MServiceDone e :: _ => Some (Val (of_option e), l)
  | MChild _ :: evs => if me_panics env VReap then Some (panicking, l ++ [VReap]) else main_loop env evs (l ++ [VReap])
  | MTerm :: evs => if me_panics env VShutdown then Some (panicking, l ++ [VShutdown]) else main_loop env evs (l ++ [VShutdown])
  end.

Definition maxGOMAXPROCS : Z := 2.

(** [run]; [None]: it is serving. *)
Definition run (env : mainEnv) (evs : list mainEvent) (l : list vstep) : option (out (res ()) * list vstep) :=
  let go s l k := if me_panics env s then Some (panicking, l ++ [s]) else k (l ++ [s]) in
  go VInitialize l (λ l,
    match me_initialize env with
    | Some e => Some (Val (Err e), l)
    | None =>
        let rest l :=
          let new l := go VNew l (λ l,
            match me_new env with
            | Some e => Some (Val (Err e), l)
            | None => go VProfile l (λ l, go VServe l (λ l, main_loop env evs l))
            end) in
          if me_debug env then go VDumpInfo l new else new l in
        match me_identity env with
        | Err _ => rest l
        | Ok _ => go VApply l rest
        end
    end).

Definition gomaxprocs (numCPU : Z) : Z := Z.min numCPU maxGOMAXPROCS.

(** [main] once the configuration is loaded: the deferred function runs however [run] ends. *)
Definition main_ (env : mainEnv) (evs : list mainEvent) : option (list vstep) :=
  match run env evs [] with
  | None => None
  | Some (_, l) => Some (l ++ [VCleanup; VPowerOff])
  end.

(** ** Lemmas *)

(** A flag that was set has the value it was set to last; the others are the file's. *)
Theorem flags_win readFile unmarshal l path c set file c' :
  ParseFlags (Ok l) = Ok (c, set, file) → LoadFromFile readFile unmarshal path c set = Ok c' →
  ∃ data d, readFile path = Ok data ∧ unmarshal data c = Ok d ∧
    Debug c' = (if decide ("debug" ∈ flag_name <$> l) then Debug c else Debug d) ∧
    RPCPort c' = (if decide ("vsock-rpc-port" ∈ flag_name <$> l) then RPCPort c else RPCPort d) ∧
    StreamPort c' = (if decide ("vsock-stream-port" ∈ flag_name <$> l) then StreamPort c else StreamPort d) ∧
    VSockContextID c' = (if decide ("vsock-cid" ∈ flag_name <$> l) then VSockContextID c else VSockContextID d) ∧
    DisabledPlugins c' = DisabledPlugins d ∧ PluginConfigs c' = PluginConfigs d.
Proof.
  unfold ParseFlags. destruct (fl_version _); [done|]. intros [= <- <- <-]. unfold LoadFromFile. destruct (readFile path) as [data|]; [|done].
  destruct (unmarshal data _) as [d|] eqn:Ed; [|done]. intros [= <-]. exists data, d. cbn.
  assert (E : ∀ (n : string) (A : Type) (x y : A), (if decide (n ∈ (list_to_set (flag_name <$> l) : gset string)) then x else y) = if decide (n ∈ flag_name <$> l) then x else y).
  { intros n A x y. destruct (decide (n ∈ flag_name <$> l)) as [H|H]; [rewrite decide_True; [done|by apply elem_of_list_to_set]|rewrite decide_False; [done|by rewrite elem_of_list_to_set]]. }
  by rewrite !E.
Qed.

(** The last value of a port flag is the one that counts. *)
Lemma last_port_wins l n c set file : ParseFlags (Ok (l ++ [FRPCPort n])) = Ok (c, set, file) → RPCPort c = n ∧ "vsock-rpc-port" ∈ set.
Proof.
  unfold ParseFlags. rewrite foldl_app. cbn [foldl set_flag]. destruct (fl_version _); [done|]. intros [= <- <- <-]. cbn. split; [done|].
  rewrite elem_of_list_to_set, fmap_app, elem_of_app. right. by apply list_elem_of_singleton.
Qed.

Section loading.
Context (env : serviceEnv) (cfg : ServiceConfig).

Definition enabled (rs : list registration) : list registration := List.filter (λ r, negb (bool_decide (rg_URI r ∈ DisabledPlugins cfg))) rs.

Lemma load_plugins_spec rs w x w' : load_plugins env cfg rs w = (Ok x, w') →
  (sw_plugins w').*1 = (sw_plugins w).*1 ++ (rg_URI <$> enabled rs) ∧
  (∀ u, u ∈ sw_services w' → u ∈ sw_services w ∨ ∃ r, r ∈ enabled rs ∧ u = rg_URI r ∧ rg_ttrpc r = true) ∧
  (∀ u a, (u, a) ∈ sw_vsock w' → (u, a) ∈ sw_vsock w ∨ a = (uint32_of (VSockContextID cfg), uint32_of (StreamPort cfg)) ∧ ∃ r, r ∈ enabled rs ∧ u = rg_URI r ∧ rg_streaming r = true) ∧
  sw_listening w' = sw_listening w ∧ sw_callbacks w' = sw_callbacks w.
Proof.
  revert w. induction rs as [|r rs IH]; intros w; cbn [load_plugins].
  { intros [= _ <-]. cbn. rewrite app_nil_r. naive_solver. }
  intros (u & w1 & H1 & H2)%bind_Ok. destruct (IH w1 H2) as (I1 & I2 & I3 & I4 & I5). clear IH H2.
  unfold load_plugin in H1. unfold enabled. cbn [List.filter]. destruct (decide (rg_URI r ∈ DisabledPlugins cfg)) as [Hd|Hd].
  { inversion H1; subst w1. rewrite bool_decide_true by done. cbn [negb]. done. }
  rewrite bool_decide_false by done. cbn [negb]. fold (enabled rs). destruct (plugin_config env cfg r) as [c|]; [|done].
  set (vs := if bool_decide (is_Some (rg_Config r)) && rg_SetVsock r && rg_streaming r
    then [(rg_URI r, (uint32_of (VSockContextID cfg), uint32_of (StreamPort cfg)))] else []) in H1. destruct (sv_add env (rg_URI r)); [done|].
  assert (Hvs : ∀ u a, (u, a) ∈ vs → a = (uint32_of (VSockContextID cfg), uint32_of (StreamPort cfg)) ∧ u = rg_URI r ∧ rg_streaming r = true).
  { intros u' a. unfold vs. destruct (bool_decide (is_Some (rg_Config r))); cbn [andb]; [|by intros ?%elem_of_nil]. destruct (rg_SetVsock r); cbn [andb]; [|by intros ?%elem_of_nil].
    destruct (rg_streaming r); [|by intros ?%elem_of_nil]. intros Hi%list_elem_of_singleton. by injection Hi as -> ->. }
  assert (Hw : sw_plugins w1 = sw_plugins w ++ [(rg_URI r, c)] ∧ sw_vsock w1 = sw_vsock w ++ vs ∧ sw_listening w1 = sw_listening w ∧ sw_callbacks w1 = sw_callbacks w ∧
    (sw_services w1 = sw_services w ∨ sw_services w1 = sw_services w ++ [rg_URI r] ∧ rg_ttrpc r = true)).
  { revert H1. destruct (sv_init env _ _); [|intros E; inversion E; subst w1; cbn; naive_solver|done].
    destruct (rg_ttrpc r) eqn:Ht; [|intros E; inversion E; subst w1; cbn; naive_solver]. destruct (sv_register env _); [done|]. intros E; inversion E; subst w1; cbn; naive_solver. }
  destruct Hw as (W1 & W2 & W3 & W4 & W5). split_and!.
  - rewrite I1, W1, fmap_app, <- (assoc_L (++)). done.
  - intros u' [Hu|(r' & ? & ? & ?)]%I2; [|right; exists r'; split; [by apply elem_of_cons; right|done]].
    destruct W5 as [E|[E Ht]]; rewrite E in Hu; [by left|]. apply elem_of_app in Hu as [Hu|Hu%list_elem_of_singleton]; [by left|]. right. exists r. split; [by apply elem_of_cons; left|done].
  - intros u' a [Hu|(Ha & r' & ? & ? & ?)]%I3; [|right; split; [done|]; exists r'; split; [by apply elem_of_cons; right|done]].
    rewrite W2 in Hu. apply elem_of_app in Hu as [Hu|(Ha & Hu & Hs)%Hvs]; [by left|]. right. split; [done|]. exists r. split; [by apply elem_of_cons; left|done].
  - congruence.
  - congruence.
Qed.
End loading.

(** A service that comes up listens, has in its set exactly the plugins that are not
    disabled, in the order of their graph, serves only their RPC services, and gave the
    address of the streams to nothing but the streaming plugin. *)
Theorem services_loaded env cfg graph x w : New env cfg graph (mkSvcWorld false 0 [] [] []) = (Ok x, w) →
  sw_listening w = true ∧ sw_callbacks w = 2%nat ∧ (sw_plugins w).*1 = rg_URI <$> enabled cfg graph ∧
  (∀ u, u ∈ sw_services w → (u ∉ DisabledPlugins cfg) ∧ ∃ r, r ∈ graph ∧ u = rg_URI r ∧ rg_ttrpc r = true) ∧
  (∀ u a, (u, a) ∈ sw_vsock w → a = (uint32_of (VSockContextID cfg), uint32_of (StreamPort cfg)) ∧ ∃ r, r ∈ graph ∧ u = rg_URI r ∧ rg_streaming r = true).
Proof.
  unfold New. destruct (sv_listen env); [done|]. destruct (sv_server env); [done|]. intros (H1 & H2 & H3 & H4 & H5)%load_plugins_spec. cbn in *.
  assert (He : ∀ r, r ∈ enabled cfg graph → r ∈ graph ∧ rg_URI r ∉ DisabledPlugins cfg).
  { intros r. unfold enabled. rewrite list_elem_of_In, filter_In, <- list_elem_of_In, negb_true_iff, bool_decide_eq_false. done. }
  split_and!; [done..| |].
  - intros u [?%elem_of_nil|(r & [Hr Hd]%He & -> & ?)]%H2; [done|]. split; [done|]. by exists r.
  - intros u a [?%elem_of_nil|(Ha & r & [Hr Hd]%He & -> & ?)]%H3; [done|]. split; [done|]. by exists r.
Qed.

(** The stream of events: what is sent is a prefix of the events it received that are not
    nil, in their order, all of them while it goes on or ends without a failed send. *)
Definition received (sels : list selected) : list string := omap (λ s, match s with SEvent (Some e) => Some e | _ => None end) sels.

Theorem stream_in_order send sels : let '(sent, r) := Stream send sels [] in
  sent `prefix_of` received sels ∧ (r = None → sent = received sels) ∧ ((∀ k, send k = None) → ∃ n, sent = received (take n sels)).
Proof.
  assert (H : ∀ sels sent0, ∃ more, (Stream send sels sent0).1 = sent0 ++ more ∧ more `prefix_of` received sels ∧
    ((Stream send sels sent0).2 = None → more = received sels) ∧ ((∀ k, send k = None) → ∃ n, more = received (take n sels))).
  { clear sels. intros sels. induction sels as [|s sels IH]; intros sent0.
    { exists []. cbn. rewrite app_nil_r. split_and!; [done..|]. intros _. by exists 0%nat. }
    assert (Hend : ∀ e, s = SEventsClosed ∨ s = SErrsClosed ∨ (∃ x, s = SErr x) ∨ (∃ x, s = SDone x) → (Stream send (s :: sels) sent0) = (sent0, Some e) →
      ∃ more, (Stream send (s :: sels) sent0).1 = sent0 ++ more ∧ more `prefix_of` received (s :: sels) ∧
        ((Stream send (s :: sels) sent0).2 = None → more = received (s :: sels)) ∧ ((∀ k, send k = None) → ∃ n, more = received (take n (s :: sels)))).
    { intros e _ Hs. exists []. rewrite Hs, app_nil_r. split_and!; [done|apply prefix_nil|done|]. intros _. by exists 0%nat. }
    destruct s as [[e|]| |e| |e].
    3: { apply (Hend (Some (errorf "EOF"))); [by left|done]. }
    3: { apply (Hend e); [right; right; left; by eexists|done]. }
    3: { apply (Hend None); [right; by left|done]. }
    3: { apply (Hend (Some e)); [right; right; right; by eexists|done]. }
    - cbn [Stream]. destruct (send (length sent0)) as [err|] eqn:Hsend.
      + exists []. rewrite app_nil_r. split_and!; [done|apply prefix_nil|done|]. intros Hn. by rewrite Hn in Hsend.
      + destruct (IH (sent0 ++ [e])) as (more & H1 & H2 & H3 & H4). exists (e :: more). rewrite H1, <- (assoc_L (++)). split_and!; [done| | |].
        * cbn. by apply prefix_cons.
        * intros Hr. cbn. by rewrite H3.
        * intros Hn. destruct (H4 Hn) as (n & ->). by exists (S n).
    - cbn [Stream]. destruct (IH sent0) as (more & H1 & H2 & H3 & H4). exists more. split_and!; [done..|]. intros Hn. destruct (H4 Hn) as (n & ->). by exists (S n). }
  destruct (H sels []) as (more & H1 & H2 & H3 & H4). destruct (Stream send sels []) as [sent r]. cbn in *. subst sent. done.
Qed.

(** ** Powering off *)

(** However the daemon ends, by an error of its initialization, by the end of its server, by
    a shutdown or by a panic, cleaning up and powering off are the last things it does, in
    this order and once. *)
Definition before_end (l : list vstep) : Prop := (VCleanup ∉ l) ∧ (VPowerOff ∉ l).

Lemma main_loop_before_end env evs l r l' : main_loop env evs l = Some (r, l') → before_end l → before_end l'.
Proof.
  unfold before_end. revert l. induction evs as [|ev evs IH]; intros l; [done|].
  assert (Hs : ∀ s, s ≠ VCleanup → s ≠ VPowerOff → (VCleanup ∉ l) ∧ (VPowerOff ∉ l) → (VCleanup ∉ l ++ [s]) ∧ (VPowerOff ∉ l ++ [s])).
  { intros s ? ? [? ?]. rewrite !not_elem_of_app, !list_elem_of_singleton. naive_solver. }
  destruct ev; cbn [main_loop]; [by intros [= _ <-]..| |].
  - destruct (me_panics env VReap); [intros [= _ <-]; by apply Hs|]. intros H Hb. eapply IH; [exact H|]. by apply Hs.
  - destruct (me_panics env VShutdown); [intros [= _ <-]; by apply Hs|]. intros H Hb. eapply IH; [exact H|]. by apply Hs.
Qed.

Lemma run_before_end env evs r l : run env evs [] = Some (r, l) → before_end l.
Proof.
  unfold run.
  repeat first [progress cbv zeta | match goal with |- context [if me_panics env ?s then _ else _] => destruct (me_panics env s) end
    | match goal with |- context [match me_initialize env with _ => _ end] => destruct (me_initialize env) end
    | match goal with |- context [match me_identity env with _ => _ end] => destruct (me_identity env) end
    | match goal with |- context [match me_new env with _ => _ end] => destruct (me_new env) end
    | match goal with |- context [if me_debug env then _ else _] => destruct (me_debug env) end];
    first [intros H; apply main_loop_before_end in H; [exact H|] | intros [= _ <-]];
    split; apply (bool_decide_unpack _); vm_compute; done.
Qed.

Theorem powers_off_last env evs l : main_ env evs = Some l → ∃ l0, l = l0 ++ [VCleanup; VPowerOff] ∧ (VCleanup ∉ l0) ∧ (VPowerOff ∉ l0).
Proof.
  unfold main_. destruct (run env evs []) as [[r l0]|] eqn:E; [|done]. intros [= <-]. exists l0. split; [done|]. by eapply run_before_end.
Qed.

(** It goes on as long as there is neither a shutdown nor an end of the server. *)
Lemma main_loop_goes_on env evs l : (∀ s, me_panics env s = false) → Forall (λ e, match e with MChild _ | MTerm => True | _ => False end) evs → main_loop env evs l = None.
Proof.
  intros Hp. revert l. induction evs as [|ev evs IH]; intros l He; [done|]. apply Forall_cons in He as [Hev He].
  destruct ev; try done; cbn [main_loop]; rewrite Hp; by apply IH.
Qed.

(** The files of the guest are written out before the machine goes off. *)
Lemma synced_before_power_off (env : benv) w : last (bw_log (Cleanup env w)) = Some BSync.
Proof. unfold Cleanup, syncFilesystems. cbn. apply last_snoc. Qed.

Definition calm_main : mainEnv := mkMainEnv None (Ok tt) None false None 4 (λ _, false).

Lemma powers_off_last_witness : ∃ l0, main_ calm_main [MChild None; MTerm; MShutdownDone None] = Some (l0 ++ [VCleanup; VPowerOff]) ∧ VCleanup ∉ l0.
Proof.
  destruct (powers_off_last calm_main [MChild None; MTerm; MShutdownDone None] [VInitialize; VApply; VNew; VProfile; VServe; VReap; VShutdown; VCleanup; VPowerOff])
    as (l0 & E & H & _); [vm_compute; reflexivity|]. exists l0. split; [|exact H]. rewrite <- E. vm_compute. reflexivity.
Defined.

Definition demo_graph : list registration :=
  [mkReg "io.containerd.internal.v1.shutdown" None false false false; mkReg "spinbox.streaming.v1.vsock" (Some ∅) true true false;
   mkReg "io.containerd.ttrpc.v1.system" None false false true; mkReg "io.containerd.ttrpc.v1.vmevents" None false false true].
Definition demo_cfg : ServiceConfig := mkServiceConfig 3 1025 1026 false ["io.containerd.ttrpc.v1.vmevents"] ∅.
Definition demo_service : serviceEnv := mkServiceEnv None None (λ c _, Ok c) (λ _, None) (λ _ _, IInstance) (λ _, None).

Lemma services_loaded_witness : let w := (New demo_service demo_cfg demo_graph (mkSvcWorld false 0 [] [] [])).2 in
  sw_services w = ["io.containerd.ttrpc.v1.system"] ∧ sw_listening w = true.
Proof.
  split; [vm_compute; reflexivity|]. apply (services_loaded demo_service demo_cfg demo_graph tt). vm_compute. reflexivity.
Defined.

Lemma flags_win_witness : ∃ c', LoadFromFile (λ _, Ok "{rpc_port:7, stream_port:8}") (λ _ c, Ok (mkServiceConfig (VSockContextID c) 7 8 (Debug c) [] ∅)) "/etc/vminitd.json"
    (mkServiceConfig 3 2000 1026 false [] ∅) {["vsock-rpc-port"; "config"]} = Ok c' ∧ RPCPort c' = 2000 ∧ StreamPort c' = 8.
Proof.
  eexists. split; [vm_compute; reflexivity|].
  destruct (flags_win (λ _, Ok "{rpc_port:7, stream_port:8}") (λ _ c, Ok (mkServiceConfig (VSockContextID c) 7 8 (Debug c) [] ∅))
    [FRPCPort 2000; FConfig "/etc/vminitd.json"] "/etc/vminitd.json" (mkServiceConfig 3 2000 1026 false [] ∅) {["vsock-rpc-port"; "config"]} "/etc/vminitd.json"
    (mkServiceConfig 3 2000 8 false [] ∅)) as (data & d & _ & Hd & _ & Hr & Hs & _).
  - vm_compute. reflexivity.
  - vm_compute. reflexivity.
  - split; reflexivity.
Defined.
