(* ===== verification/VMClient.v ===== *)
(** The shim's calls into the guest for resources: internal/shim/resources/vmclient.go, with
    the guest's answer to taking a CPU online or offline (Devices) at the other end.

    A client is dialled by a function the caller gives; the RPC and the decoding of the
    statistics are parameters. *)
From S2P Require Import Prelude GoStrings GoText Devices.
Open Scope Z_scope.

(** The cgroup statistics that are read: usage and throttled time, and memory usage, all of
    64 bits without sign. *)
Record Metrics := mkMetrics { mx_CPU : option (Z * Z); mx_Memory : option Z }.

Section stats.
Context {Client : Type} (dialClient : res Client) (Stats : Client → string → res (option string)) (UnmarshalTo : string → res Metrics).

(** The statistics of a container, with the name of what is missing in an error. *)
Definition fetch_metrics (what containerID : string) : res Metrics :=
  match dialClient with
  | Err e => Err e
  | Ok vmc =>
      match Stats vmc containerID with
      | Err e => Err e
      | Ok None => Err (errorf ("container " +:+ containerID +:+ ": missing " +:+ what +:+ " stats payload"))
      | Ok (Some payload) =>
          match UnmarshalTo payload with
          | Err e => Err (wrap ("container " +:+ containerID +:+ ": failed to unmarshal stats") e)
          | Ok m => Ok m
          end
      end
  end.

Definition getCPUStats (containerID : string) : res (Z * Z) :=
  match fetch_metrics "CPU" containerID with
  | Err e => Err e
  | Ok m => match mx_CPU m with
            | None => Err (errorf ("container " +:+ containerID +:+ ": missing CPU stats in metrics"))
            | Some c => Ok c
            end
  end.

Definition getMemoryStats (containerID : string) : res Z :=
  match fetch_metrics "memory" containerID with
  | Err e => Err e
  | Ok m => match mx_Memory m with
            | None => Err (errorf ("container " +:+ containerID +:+ ": missing memory stats in metrics"))
            | Some u => Ok (int64_wrap u)
            end
  end.
End stats.

Definition uint32_of (z : Z) : Z := z mod 2 ^ 32.

(** [offlineCPU] and [onlineCPU]; the RPC answers as the guest does, over its kernel. *)
Section cpus.
Context {W : Type} (dialClient : option error) (OfflineCPU OnlineCPU : Z → W → option error * W).

Definition offlineCPU (cpuID : Z) (w : W) : option error * W :=
  match dialClient with Some e => (Some e, w) | None => OfflineCPU (uint32_of cpuID) w end.
Definition onlineCPU (cpuID : Z) (w : W) : option error * W :=
  match dialClient with Some e => (Some e, w) | None => OnlineCPU (uint32_of cpuID) w end.
End cpus.

(** A usage of less than 2^63 bytes arrives as it is. *)
Lemma memory_usage_exact {C} (dial : res C) stats unmarshal id c payload u t :
  dial = Ok c → stats c id = Ok (Some payload) → unmarshal payload = Ok (mkMetrics t (Some u)) → 0 ≤ u < two63 → getMemoryStats dial stats unmarshal id = Ok u.
Proof. intros -> Hs Hu Hr. unfold getMemoryStats, fetch_metrics. rewrite Hs, Hu. cbn. rewrite int64_wrap_id; [done|]. unfold int64_range. lia. Qed.

(** A CPU the host asks for is the CPU the guest takes offline, and the boot CPU is never
    taken. *)
Lemma offline_reaches_guest env cpuID k : 0 ≤ cpuID < 2 ^ 32 →
  offlineCPU None (Devices.OfflineCPU env) cpuID k = Devices.OfflineCPU env cpuID k.
Proof. intros H. unfold offlineCPU, uint32_of. by rewrite Z.mod_small by done. Qed.

(** A failed dial changes nothing in the guest. *)
Lemma offline_undialled e guest cpuID (k : kernel) : offlineCPU (Some e) guest cpuID k = (Some e, k).
Proof. done. Qed.
