(* ===== verification/Stdin.v ===== *)
(** The standard input of a task: the loop of startStdinCopy of internal/shim/task/io.go,
    between the named pipe a client writes to and the host's end of a stream, and the guest
    at its other end, where CloseIO closes the stream.

    The pipe is opened without blocking and a read with no writer, or with nothing to read,
    is not the end for the loop: it looks again at the next tick.  A read answers at most as
    many bytes as the buffer holds. *)
From S2P Require Import Prelude GoStrings GoText.
Open Scope Z_scope.

(** ** Errors *)

(** [syscall.EAGAIN] and [EWOULDBLOCK] are one number. *)
Definition EAGAIN : errkind := Errno (EOTHER 11).
Definition EINTR : errkind := Errno (EOTHER 4).
Definition isNoDataError (e : error) : bool := bool_decide (ekind e = EAGAIN) || bool_decide (ekind e = EINTR).

(** [net.ErrClosed] and [fs.ErrClosed] are texts of their own. *)
Definition isClosedConnError (closed : error → bool) (e : error) : bool :=
  closed e || bool_decide (emsg e = "use of closed network connection") || bool_decide (emsg e = "read: connection reset by peer").
Definition isAlreadyClosedError (closed : error → bool) (e : error) : bool :=
  closed e || bool_decide (emsg e = "file already closed") || bool_decide (emsg e = "close of closed file") ||
  bool_decide (emsg e = "close of closed network connection").

(** ** The copy *)

(** The bytes the client wrote in all, those that are in the pipe, those that are in the
    stream, and those that reached the process; whether the guest holds the stream open;
    whether the copy still runs, and whether it has closed the stream and the pipe. *)
Record stdinWorld := mkStdin {
  si_written : list Z;
  si_fifo : list Z;
  si_stream : list Z;
  si_received : list Z;
  si_guest_open : bool;
  si_running : bool;
  si_closed : bool
}.

Inductive readAnswer := RData (n : nat) | RNothing | RError (e : error).

(** The deferred function of the copy. *)
Definition copy_finished (w : stdinWorld) : stdinWorld :=
  mkStdin (si_written w) (si_fifo w) (si_stream w) (si_received w) (si_guest_open w) false true.

(** One round of the loop: the read, and what the stream answers to the write. *)
Definition copy_round (answer : readAnswer) (writeErr : option error) (w : stdinWorld) : stdinWorld :=
  match answer with
  | RData n =>
      let chunk := take n (si_fifo w) in
      let rest := mkStdin (si_written w) (drop n (si_fifo w)) (si_stream w) (si_received w) (si_guest_open w) (si_running w) (si_closed w) in
      match writeErr with
      | Some _ => copy_finished rest
      | None => mkStdin (si_written w) (drop n (si_fifo w)) (si_stream w ++ chunk) (si_received w) (si_guest_open w) (si_running w) (si_closed w)
      end
  | RNothing => w
  | RError e => if isNoDataError e then w else copy_finished w
  end.

(** The buffer of internal/iobuf/pool.go. *)
Definition bufferSize : Z := 4096.
Definition chunk_ok (n : nat) (l : list Z) : Prop := (0 < n ≤ length l)%nat ∧ Z.of_nat n ≤ bufferSize.

(** The steps of the client, of the copy and of the guest.  A write to a stream the guest
    has closed fails. *)
Inductive stdinStep : stdinWorld → stdinWorld → Prop :=
  | SWrite l w : stdinStep w (mkStdin (si_written w ++ l) (si_fifo w ++ l) (si_stream w) (si_received w) (si_guest_open w) (si_running w) (si_closed w))
  | SRound n w : si_running w = true → chunk_ok n (si_fifo w) →
      stdinStep w (copy_round (RData n) (if si_guest_open w then None else Some (errorf "broken pipe")) w)
  | SWriteFails n e w : si_running w = true → chunk_ok n (si_fifo w) → stdinStep w (copy_round (RData n) (Some e) w)
  | SNothing w : si_running w = true → si_fifo w = [] → stdinStep w (copy_round RNothing None w)
  | SReadFails e w : si_running w = true → stdinStep w (copy_round (RError e) None w)
  | SGuest n w : si_guest_open w = true → chunk_ok n (si_stream w) →
      stdinStep w (mkStdin (si_written w) (si_fifo w) (drop n (si_stream w)) (si_received w ++ take n (si_stream w)) true (si_running w) (si_closed w))
  | SCloseIO w : stdinStep w (mkStdin (si_written w) (si_fifo w) (si_stream w) (si_received w) false (si_running w) (si_closed w)).

Definition stdin0 : stdinWorld := mkStdin [] [] [] [] true true false.

(** ** What arrives *)

(** What was written is what arrived, what is on the way, what the copy lost when it ended,
    and what is still in the pipe. *)
Definition accounted (w : stdinWorld) : Prop := ∃ lost, si_written w = si_received w ++ si_stream w ++ lost ++ si_fifo w ∧
  (si_running w = true → lost = []) ∧ si_closed w = negb (si_running w).

Lemma accounted_step w w' : stdinStep w w' → accounted w → accounted w'.
Proof.
  intros Hs (lost & Hw & Hl & Hc). inversion Hs; subst; clear Hs; unfold accounted, copy_round, copy_finished; cbn.
  - exists lost. rewrite Hw, <- !(assoc_L (++)). done.
  - rewrite (Hl H), app_nil_l in Hw. rewrite H in Hc. destruct (si_guest_open w); cbn.
    + exists []. rewrite app_nil_l, <- (assoc_L (++)), take_drop. rewrite H, Hc. done.
    + exists (take n (si_fifo w)). rewrite take_drop. done.
  - rewrite (Hl H), app_nil_l in Hw. exists (take n (si_fifo w)). rewrite take_drop. done.
  - by exists lost.
  - destruct (isNoDataError e); cbn; [by exists lost|]. exists []. rewrite (Hl H), app_nil_l in Hw. done.
  - exists lost. rewrite Hw. split; [|done]. rewrite <- (assoc_L (++)), (assoc_L (++) (take n (si_stream w))), take_drop. done.
  - by exists lost.
Qed.

(** The process reads what the client wrote, from its beginning and in its order; while the
    copy runs nothing of it is lost: what has not arrived is in the stream or in the pipe. *)
Theorem stdin_in_order w : rtc stdinStep stdin0 w →
  si_received w `prefix_of` si_written w ∧ (si_running w = true → si_written w = si_received w ++ si_stream w ++ si_fifo w) ∧
  si_closed w = negb (si_running w).
Proof.
  intros Hr. assert (H : accounted w).
  { remember stdin0 as w0 eqn:E. assert (H0 : accounted w0) by (subst; by exists []). clear E. induction Hr; [done|]. by eauto using accounted_step. }
  destruct H as (lost & Hw & Hl & Hc). split_and!; [by eexists| |done]. intros Hrun. rewrite Hw, (Hl Hrun). done.
Qed.

Lemma chunk_one x l : chunk_ok 1 (x :: l).
Proof. split; [cbn; lia|unfold bufferSize; lia]. Qed.

Lemma drain_fifo wr l st rc : rtc stdinStep (mkStdin wr l st rc true true false) (mkStdin wr [] (st ++ l) rc true true false).
Proof.
  revert st. induction l as [|x l IH]; intros st; [by rewrite app_nil_r|].
  eapply rtc_l; [by apply (SRound 1 (mkStdin wr (x :: l) st rc true true false)), chunk_one|]. cbn. rewrite drop_0. replace (st ++ x :: l) with ((st ++ [x]) ++ l) by (by rewrite <- (assoc_L (++))).
  apply IH.
Qed.

Lemma drain_stream wr l rc : rtc stdinStep (mkStdin wr [] l rc true true false) (mkStdin wr [] [] (rc ++ l) true true false).
Proof.
  revert rc. induction l as [|x l IH]; intros rc; [by rewrite app_nil_r|].
  eapply rtc_l; [by apply (SGuest 1 (mkStdin wr [] (x :: l) rc true true false)), chunk_one|]. cbn. rewrite drop_0. replace (rc ++ x :: l) with ((rc ++ [x]) ++ l) by (by rewrite <- (assoc_L (++))).
  apply IH.
Qed.

(** As long as the copy runs and the guest holds the stream open, everything that was written
    can still arrive. *)
Theorem stdin_delivered w : rtc stdinStep stdin0 w → si_running w = true → si_guest_open w = true →
  ∃ w', rtc stdinStep w w' ∧ si_received w' = si_written w ∧ si_running w' = true.
Proof.
  intros Hr Hrun Hopen. destruct (stdin_in_order w Hr) as (_ & Hw & Hc). specialize (Hw Hrun). destruct w as [wr f st rc g r c]. cbn in *. subst g r c.
  eexists. split; [etrans; [apply drain_fifo|apply drain_stream]|]. by rewrite Hw.
Qed.

(** Closing the input loses what is on the way: nothing more arrives. *)
Lemma close_io_loses_input w w' : si_guest_open w = false → rtc stdinStep w w' → si_received w' = si_received w ∧ si_guest_open w' = false.
Proof.
  intros Hg Hr. induction Hr as [|w w1 w' Hs Hr IH]; [done|].
  assert (H1 : si_received w1 = si_received w ∧ si_guest_open w1 = false).
  { inversion Hs; subst; unfold copy_round, copy_finished; cbn; try done; [by rewrite Hg|by destruct (isNoDataError e)|congruence]. }
  destruct H1 as [H1 H2]. destruct (IH H2) as [I1 I2]. by rewrite I1, H1.
Qed.

(** It happens: the client writes a line and closes its end, and the input is closed before
    the copy looks at the pipe. *)
Lemma unread_line_is_lost : let w := mkStdin [104; 105] [104; 105] [] [] false true false in
  rtc stdinStep stdin0 w ∧ ∀ w', rtc stdinStep w w' → si_received w' = [].
Proof.
  intros w. split.
  - eapply rtc_l; [apply (SWrite [104; 105])|]. eapply rtc_l; [apply SCloseIO|]. constructor.
  - intros w' H. by apply close_io_loses_input in H as [H _].
Qed.

(** A client that has nothing more to say does not end the copy, and neither does closing the
    input: the copy looks at the pipe for ever. *)
Lemma idle_copy_goes_on w : si_running w = true → si_fifo w = [] → si_guest_open w = false → stdinStep w w ∧ copy_round RNothing None w = w.
Proof. intros Hr Hf Hg. split; [|done]. by apply (SNothing w). Qed.

Lemma stdin_in_order_witness : let w := mkStdin [1; 2; 3] [3] [2] [1] true true false in
  rtc stdinStep stdin0 w ∧ si_received w `prefix_of` si_written w.
Proof.
  intros w. assert (H : rtc stdinStep stdin0 w).
  { eapply rtc_l; [apply (SWrite [1; 2; 3])|]. eapply rtc_l; [apply (SRound 2); [done|split; [cbn; lia|unfold bufferSize; lia]]|].
    eapply rtc_l; [apply (SGuest 1); [done|split; [cbn; lia|unfold bufferSize; lia]]|]. constructor. }
  split; [exact H|]. by apply (stdin_in_order w H).
Defined.
