(* ===== verification/InstanceSetup.v ===== *)
(** A new virtual machine instance: internal/paths/paths.go, and newInstance with its helpers
    of internal/host/vm/qemu/instance.go; specFor of spec.go, which describes the machine of
    an instance that does not exist yet.

    [machine.Open] of the spin-machine module and the allocator of context IDs (Vsock) are
    parameters; the sizes are those of Resources and the description is that of VMDevices. *)
From S2P Require Import Prelude GoStrings GoText GoState Config Resources QemuInstance VMDevices.
Open Scope Z_scope.

(** ** paths.go *)

(** [machine.Release]: the parts of a release. *)
Record Release := mkRelease { rel_QEMU : string; rel_Kernel : string; rel_Firmware : string }.

Definition Machine_ (open_ : string → res Release) (p : PathsConfig) : res Release :=
  match open_ (ShareDir p) with
  | Err e => Err (mkError (ekind e) (emsg e +:+ " (run 'task machine' to fetch the pinned release)"))
  | Ok rel => Ok rel
  end.

Definition QemuPath (p : PathsConfig) (rel : Release) : string := if decide (QEMUPath p = "") then rel_QEMU rel else QEMUPath p.
Definition QemuSharePath (p : PathsConfig) (rel : Release) : string := if decide (QEMUSharePath p = "") then rel_Firmware rel else QEMUSharePath p.
Definition InitrdPath (p : PathsConfig) : string := path_Join [ShareDir p; "kernel"; "spinbox-initrd"].

(** ** instance.go *)

Record instancePaths := mkInstancePaths {
  ip_stateDir : string; ip_logDir : string; ip_qmpSocketPath : string; ip_vsockPath : string;
  ip_consolePath : string; ip_consoleFifoPath : string; ip_qemuLogPath : string
}.

Definition maxUnixSocketPath : nat := 107.

Definition too_long (what path : string) : error :=
  errorf (what +:+ " path too long (" +:+ fmt_d (Z.of_nat (String.length path)) +:+ " > " +:+ fmt_d (Z.of_nat maxUnixSocketPath) +:+ "): " +:+ path).

Definition newInstancePaths (stateDir logDir : string) : res instancePaths :=
  let p := mkInstancePaths stateDir logDir (path_Join [stateDir; "qmp.sock"]) (path_Join [stateDir; "vsock.sock"])
             (path_Join [logDir; "console.log"]) (path_Join [stateDir; "console.fifo"]) (path_Join [logDir; "qemu.log"]) in
  if (maxUnixSocketPath <? String.length (ip_qmpSocketPath p))%nat then Err (too_long "QMP socket" (ip_qmpSocketPath p))
  else if (maxUnixSocketPath <? String.length (ip_vsockPath p))%nat then Err (too_long "vsock socket" (ip_vsockPath p))
  else Ok p.

Record setupEnv := mkSetupEnv {
  su_config : res PathsConfig;                         (** [config.Get] *)
  su_open : string → res Release;
  su_stat : string → option error;
  su_mkdir : string → option error;
  su_allocate : res Z                                   (** the context ID of the lease *)
}.

Section setup.
Context (env : setupEnv).

Definition findQemu : res string :=
  match su_config env with
  | Err e => Err (wrap "failed to get config" e)
  | Ok p => let! rel := Machine_ (su_open env) p in Ok (QemuPath p rel)
  end.
Definition findKernel : res string :=
  match su_config env with
  | Err e => Err (wrap "failed to get config" e)
  | Ok p => let! rel := Machine_ (su_open env) p in Ok (rel_Kernel rel)
  end.
Definition findInitrd : res string :=
  match su_config env with
  | Err e => Err (wrap "failed to get config" e)
  | Ok p => match su_stat env (InitrdPath p) with
            | None => Ok (InitrdPath p)
            | Some _ => Err (errorf ("initrd not found at " +:+ InitrdPath p +:+ " (use SPINBOX_SHARE_DIR to override)"))
            end
  end.

Record Instance := mkInstance {
  in_binaryPath : string; in_kernelPath : string; in_initrdPath : string; in_paths : instancePaths;
  in_resourceCfg : VMResourceConfig; in_guestCID : Z
}.

(** The world: the directories that were made, and the leases that are held. *)
Record setupWorld := mkSetupWorld { sw_dirs : list string; sw_leases : list Z }.

Definition MkdirAll (msg dir : string) : ST setupWorld () := λ w,
  match su_mkdir env dir with
  | Some e => (Err (wrap msg e), w)
  | None => (Ok tt, mkSetupWorld (sw_dirs w ++ [dir]) (sw_leases w))
  end.

Definition Allocate : ST setupWorld Z := λ w,
  match su_allocate env with
  | Err e => (Err (wrap "failed to allocate vsock CID" e), w)
  | Ok cid => (Ok cid, mkSetupWorld (sw_dirs w) (sw_leases w ++ [cid]))
  end.

Definition newInstance (containerID binaryPath stateDir : string) (resourceCfg : option VMResourceConfig) : ST setupWorld Instance :=
  do! kernelPath := lift findKernel in
  do! initrdPath := lift findInitrd in
  let resourceCfg := validateResourceConfig resourceCfg in
  do! cfg := wrapping "failed to get config for log directory" (lift (su_config env)) in
  let logDir := path_Join [LogDir cfg; containerID] in
  MkdirAll "failed to create log directory" logDir ;;!
  do! p := lift (newInstancePaths stateDir logDir) in
  do! cid := Allocate in
  ret (mkInstance binaryPath kernelPath initrdPath p resourceCfg cid).

Definition NewInstance (containerID stateDir : string) (cfg : option VMResourceConfig) : ST setupWorld Instance :=
  do! binaryPath := lift findQemu in
  MkdirAll "failed to create state directory" stateDir ;;!
  newInstance containerID binaryPath stateDir cfg.

Definition specFor (cfg : option VMResourceConfig) : res MachineSpec :=
  match su_config env with
  | Err e => Err (wrap "reading config" e)
  | Ok p =>
      let! rel := Machine_ (su_open env) p in
      match su_stat env (InitrdPath p) with
      | Some e => Err (wrap ("initrd not found at " +:+ InitrdPath p +:+ " (run 'task build:initrd')") e)
      | None => Ok (baseSpec (QemuPath p rel) (rel_Kernel rel) (InitrdPath p) (QemuSharePath p rel) (validateResourceConfig cfg))
      end
  end.

(** What the description of an instance reads of it. *)
Definition spec_input (i : Instance) (memoryFile restoreState : string) : SpecInput :=
  mkSpecInput (match su_config env with Err e => Some e | Ok _ => None end)
    (match su_config env with Err e => Err e | Ok p => let! rel := Machine_ (su_open env) p in Ok (QemuSharePath p rel) end)
    (in_binaryPath i) (in_kernelPath i) (in_initrdPath i) (Some (in_resourceCfg i)) (in_guestCID i)
    (ip_consoleFifoPath (in_paths i)) (ip_qmpSocketPath (in_paths i)) memoryFile restoreState.
End setup.

(** ** Lemmas *)

(** Sizes that were checked stay as they are. *)
Lemma validate_twice cfg : validateResourceConfig (Some (validateResourceConfig cfg)) = validateResourceConfig cfg.
Proof.
  assert (H : ∀ a b c d e, 1 ≤ a → a ≤ b → 1 ≤ c → c ≤ d → 1 ≤ e → validateResourceConfig (Some (mkVMResourceConfig a b c d e)) = mkVMResourceConfig a b c d e).
  { intros a b c d e H1 H2 H3 H4 H5. unfold validateResourceConfig. cbn [BootCPUs MaxCPUs MemorySize MemoryHotplugSize MemorySlots].
    rewrite (proj2 (Z.ltb_ge a 1)), (proj2 (Z.ltb_ge b a)), (proj2 (Z.ltb_ge c 1)), (proj2 (Z.ltb_ge d c)), (proj2 (Z.ltb_ge e 1)) by lia. done. }
  destruct cfg as [[a b c d e]|]; [|reflexivity]. unfold validateResourceConfig at 2 3. cbn [BootCPUs MaxCPUs MemorySize MemoryHotplugSize MemorySlots]. cbv zeta.
  set (a' := if a <? 1 then 1 else a). set (c' := if c <? 1 then _ else c).
  assert (1 ≤ a') by (unfold a'; destruct (Z.ltb_spec a 1); lia). assert (1 ≤ c') by (unfold c', MB; destruct (Z.ltb_spec c 1); lia).
  apply H; [lia|destruct (Z.ltb_spec b a'); lia|lia|destruct (Z.ltb_spec d c'); lia|destruct (Z.ltb_spec e 1); lia].
Qed.

Lemma newInstancePaths_spec s l p : newInstancePaths s l = Ok p →
  (String.length (ip_qmpSocketPath p) ≤ maxUnixSocketPath)%nat ∧ (String.length (ip_vsockPath p) ≤ maxUnixSocketPath)%nat ∧
  ip_qmpSocketPath p = path_Join [s; "qmp.sock"] ∧ ip_consoleFifoPath p = path_Join [s; "console.fifo"].
Proof.
  unfold newInstancePaths. cbv zeta. cbn [ip_qmpSocketPath ip_vsockPath]. intros H.
  destruct (maxUnixSocketPath <? String.length (path_Join [s; "qmp.sock"]))%nat eqn:E1; [discriminate|].
  destruct (maxUnixSocketPath <? String.length (path_Join [s; "vsock.sock"]))%nat eqn:E2; [discriminate|].
  injection H as <-. cbn [ip_qmpSocketPath ip_vsockPath ip_consoleFifoPath].
  split_and!; [by apply Nat.ltb_ge|by apply Nat.ltb_ge|done..].
Qed.

Lemma MkdirAll_leases env msg d w : sw_leases (MkdirAll env msg d w).2 = sw_leases w.
Proof. unfold MkdirAll. by destruct (su_mkdir env d). Qed.

(** A new instance holds one lease and its sockets have paths the kernel takes; an instance
    that could not be made holds none. *)
Theorem instance_all_or_nothing env id stateDir cfg w r w' : NewInstance env id stateDir cfg w = (r, w') →
  match r with
  | Err _ => sw_leases w' = sw_leases w
  | Ok i => sw_leases w' = sw_leases w ++ [in_guestCID i] ∧ in_resourceCfg i = validateResourceConfig cfg ∧
      (String.length (ip_qmpSocketPath (in_paths i)) ≤ maxUnixSocketPath)%nat ∧ (String.length (ip_vsockPath (in_paths i)) ≤ maxUnixSocketPath)%nat
  end.
Proof.
  unfold NewInstance, newInstance, lift. unfold bind at 1. destruct (findQemu env) as [q|]; [|by intros [= <- <-]].
  unfold bind at 1. pose proof (MkdirAll_leases env "failed to create state directory" stateDir w) as L1. destruct (MkdirAll env _ stateDir w) as [[[]|] w1]; cbn [snd] in L1; [|by intros [= <- <-]].
  unfold bind at 1. destruct (findKernel env) as [k|]; [|by intros [= <- <-]]. unfold bind at 1. destruct (findInitrd env) as [ird|]; [|by intros [= <- <-]].
  unfold bind at 1, wrapping. destruct (su_config env) as [c|]; [|by intros [= <- <-]]. set (logDir := path_Join [LogDir c; id]).
  unfold bind at 1. pose proof (MkdirAll_leases env "failed to create log directory" logDir w1) as L2. destruct (MkdirAll env _ logDir w1) as [[[]|] w2]; cbn [snd] in L2; [|intros [= <- <-]; congruence].
  unfold bind at 1. destruct (newInstancePaths stateDir logDir) as [p|] eqn:Ep; [|intros [= <- <-]; congruence]. apply newInstancePaths_spec in Ep as (P1 & P2 & _).
  unfold bind at 1, Allocate, ret. destruct (su_allocate env) as [cid|]; intros [= <- <-]; [|congruence]. cbn. split_and!; [congruence|done..].
Qed.

(** The part of a description that a template is looked up by. *)
Definition machine_shape (t : MachineSpec) :=
  (s_QEMU t, s_Kernel t, s_Initrd t, s_Firmware t, (s_BootCPUs t, s_MaxCPUs t, s_SizeMB t, s_MaxMB t)).

Lemma spec_shape readFile q m cmdline share t : si_config q = None → si_release q = Ok share → spec readFile q m cmdline = Ok t →
  machine_shape t = machine_shape (baseSpec (si_binaryPath q) (si_kernelPath q) (si_initrdPath q) share (validateResourceConfig (si_resourceCfg q))) ∧
  s_VsockCID t = si_guestCID q.
Proof.
  unfold spec. intros -> ->. cbn [res_bind]. destruct (spec_disks readFile (mn_disks m)) as [l1|]; cbn [res_bind]; [|discriminate].
  destruct (spec_nics 0 (mn_nets m)) as [l2|]; cbn [res_bind]; [|discriminate]. intros H. injection H as <-. done.
Qed.

(** An instance that was made was made of the programs found in the release. *)
Lemma NewInstance_parts env id stateDir cfg w i w' : NewInstance env id stateDir cfg w = (Ok i, w') →
  findQemu env = Ok (in_binaryPath i) ∧ findKernel env = Ok (in_kernelPath i) ∧ findInitrd env = Ok (in_initrdPath i) ∧ in_resourceCfg i = validateResourceConfig cfg.
Proof.
  unfold NewInstance, newInstance, lift. intros (bp & w1 & Hq & (u & w2 & _ & Hi)%bind_Ok)%bind_Ok.
  revert Hi. intros (k & w3 & Hk & (ird & w4 & Hd & (c & w5 & _ & (u' & w6 & _ & (ps & w7 & _ & (cid & w8 & _ & Hr)%bind_Ok)%bind_Ok)%bind_Ok)%bind_Ok)%bind_Ok)%bind_Ok.
  injection Hr as <- _. injection Hq as -> _. injection Hk as -> _. injection Hd as -> _. done.
Qed.

(** The machine a template is looked up for is the machine that will run: what is described
    before there is an instance, and what the instance is described as when it starts, have
    the same programs, kernel, processors and memory; the second has the context ID of the
    instance. *)
Theorem described_as_it_runs env readFile id stateDir cfg w i w' s m mem restore cmdline t :
  NewInstance env id stateDir cfg w = (Ok i, w') → specFor env cfg = Ok s → spec readFile (spec_input env i mem restore) m cmdline = Ok t →
  machine_shape t = machine_shape s ∧ s_VsockCID t = in_guestCID i.
Proof.
  intros (Hq & Hk & Hd & Hr)%NewInstance_parts. unfold findQemu, findKernel, findInitrd, specFor in *.
  destruct (su_config env) as [p|] eqn:Ec; [|discriminate]. destruct (Machine_ (su_open env) p) as [rel|] eqn:Em; cbn [res_bind] in *; [|discriminate].
  destruct (su_stat env (InitrdPath p)); [discriminate|]. intros Hs Ht. injection Hs as <-.
  eapply spec_shape in Ht; [|unfold spec_input; by rewrite Ec|unfold spec_input; rewrite Ec, Em; cbn; reflexivity].
  unfold spec_input in Ht. cbn [si_binaryPath si_kernelPath si_initrdPath si_resourceCfg si_guestCID] in Ht.
  rewrite Hr, validate_twice in Ht. injection Hq as Hq. injection Hk as Hk. injection Hd as Hd. rewrite Hq, Hk, Hd. exact Ht.
Qed.

Definition demo_env : setupEnv :=
  mkSetupEnv (Ok (mkPaths "/usr/share/spin-stack" "/var/lib/spin" "/var/log/spin" "" "" "/var/cache/spin"))
    (λ d, Ok (mkRelease (path_Join [d; "bin"; "qemu-system-x86_64"]) (path_Join [d; "kernel"; "vmlinux"]) (path_Join [d; "qemu"]))) (λ _, None) (λ _, None) (Ok 4).
Definition demo_made := NewInstance demo_env "c1" "/run/spin/c1" None (mkSetupWorld [] []).

Lemma instance_all_or_nothing_witness : sw_leases demo_made.2 = [4] ∧ sw_dirs demo_made.2 = ["/run/spin/c1"; "/var/log/spin/c1"].
Proof.
  pose proof (instance_all_or_nothing demo_env "c1" "/run/spin/c1" None (mkSetupWorld [] []) demo_made.1 demo_made.2) as H.
  split; [|vm_compute; reflexivity]. assert (E : NewInstance demo_env "c1" "/run/spin/c1" None (mkSetupWorld [] []) = (demo_made.1, demo_made.2)) by (vm_compute; reflexivity).
  specialize (H E). destruct demo_made.1 as [i|e] eqn:Ei; [|vm_compute in Ei; discriminate]. destruct H as [H _]. rewrite H. vm_compute in Ei. injection Ei as <-. reflexivity.
Defined.

Definition demo_spec0 := specFor demo_env None.

Lemma described_as_it_runs_witness : ∃ i s t, demo_made.1 = Ok i ∧ demo_spec0 = Ok s ∧
  spec (λ _, Err (errorf "no such file")) (spec_input demo_env i "/t/ram" "") (mkMachine vmStateNew [] []) "console=hvc0" = Ok t ∧ machine_shape t = machine_shape s.
Proof.
  eexists _, _, _. split; [vm_compute; reflexivity|]. split; [vm_compute; reflexivity|]. split; [vm_compute; reflexivity|].
  eapply (described_as_it_runs demo_env (λ _, Err (errorf "no such file")) "c1" "/run/spin/c1" None (mkSetupWorld [] []) _ demo_made.2 _
    (mkMachine vmStateNew [] []) "/t/ram" "" "console=hvc0"); vm_compute; reflexivity.
Defined.
