(* ===== verification/StartConfig.v ===== *)
(** What a machine is started with: the options of internal/host/vm/vm.go, and of
    internal/host/vm/qemu/start.go validateConfiguration and buildKernelCommandLine, with
    buildsTemplate of template.go.  The file system is an argument; the instance is the one
    InstanceSetup makes, its disks and NICs are those of VMDevices, the line is built by
    Cmdline and read back by the guest there. *)
From S2P Require Import Prelude GoStrings GoText GoState Config Resources QemuInstance VMDevices InstanceSetup Cmdline.
Open Scope Z_scope.

(** ** Options *)

Record StartOpts := mkStartOpts {
  so_InitArgs : list string;
  so_NetworkConfig : option NetworkConfig;
  so_NetworkNamespace : string;
  so_ExtrasDiskIndex : option Z;
  so_DebugBoot : bool;
  so_NoNetwork : bool
}.

Inductive StartOpt :=
  | WithInitArgs (args : list string)
  | WithDebugBoot (enabled : bool)
  | WithNetworkConfig (cfg : option NetworkConfig)
  | WithNetworkNamespace (path : string)
  | WithoutNetwork
  | WithExtrasDisk (idx : Z).

Definition apply_start_opt (o : StartOpts) (x : StartOpt) : StartOpts :=
  match x with
  | WithInitArgs args => mkStartOpts (so_InitArgs o ++ args) (so_NetworkConfig o) (so_NetworkNamespace o) (so_ExtrasDiskIndex o) (so_DebugBoot o) (so_NoNetwork o)
  | WithDebugBoot b => mkStartOpts (so_InitArgs o) (so_NetworkConfig o) (so_NetworkNamespace o) (so_ExtrasDiskIndex o) b (so_NoNetwork o)
  | WithNetworkConfig c => mkStartOpts (so_InitArgs o) c (so_NetworkNamespace o) (so_ExtrasDiskIndex o) (so_DebugBoot o) (so_NoNetwork o)
  | WithNetworkNamespace p => mkStartOpts (so_InitArgs o) (so_NetworkConfig o) p (so_ExtrasDiskIndex o) (so_DebugBoot o) (so_NoNetwork o)
  | WithoutNetwork => mkStartOpts (so_InitArgs o) (so_NetworkConfig o) (so_NetworkNamespace o) (so_ExtrasDiskIndex o) (so_DebugBoot o) true
  | WithExtrasDisk i => mkStartOpts (so_InitArgs o) (so_NetworkConfig o) (so_NetworkNamespace o) (Some i) (so_DebugBoot o) (so_NoNetwork o)
  end.

Definition no_opts : StartOpts := mkStartOpts [] None "" None false false.
Definition start_opts (l : list StartOpt) : StartOpts := foldl apply_start_opt no_opts l.

(** ** Validation *)

Definition buildsTemplate (memoryFilePath restoreStatePath : string) : bool :=
  negb (bool_decide (memoryFilePath = "")) && bool_decide (restoreStatePath = "").

Section validate.
Context (stat : string → option error).

Fixpoint validate_disks (disks : list DiskConfig) : option error :=
  match disks with
  | [] => None
  | d :: ds =>
      let '(path, what) := if decide (dc_Pointer d = "") then (dc_Path d, "disk") else (dc_Pointer d, "disk pointer") in
      match stat path with
      | Some e => Some (wrap (what +:+ " not found at " +:+ path) e)
      | None => validate_disks ds
      end
  end.

Definition validateConfiguration (q : Instance) (m : Machine) (builds noNetwork : bool) : option error :=
  match stat (in_kernelPath q) with
  | Some e => Some (wrap ("kernel not found at " +:+ in_kernelPath q) e)
  | None =>
  match stat (in_initrdPath q) with
  | Some e => Some (wrap ("initrd not found at " +:+ in_initrdPath q) e)
  | None =>
  match stat (in_binaryPath q) with
  | Some e => Some (wrap ("QEMU binary not found at " +:+ in_binaryPath q) e)
  | None =>
  match validate_disks (mn_disks m) with
  | Some e => Some e
  | None =>
  match validate_sizes (in_resourceCfg q) with
  | Some e => Some e
  | None =>
      if (length (mn_nets m) =? 0)%nat && negb builds && negb noNetwork
      then Some (errorf "no network interface configured: call AddNetwork() before Start(), or say vm.WithoutNetwork()")
      else None
  end end end end end.
End validate.

(** ** The command line *)

(** [machine.DefaultCmdline]'s console, verbosity and level. *)
Record cmdlineDefaults := mkDefaults { df_Console : string; df_Quiet : bool; df_LogLevel : Z }.

Definition bootDebugEnabled (getenv : string → string) : bool :=
  let v := getenv "SPINBOX_DEBUG_BOOT" in
  bool_decide (v = "1") || bool_decide (v = "true") || bool_decide (v = "yes").

Definition cmdline_config (d : cmdlineDefaults) (getenv : string → string) (q : Instance) (m : Machine) (o : StartOpts) : KernelCmdlineConfig :=
  mkCmdlineConfig (df_Console d) 1025 1026 (in_guestCID q) (so_NetworkConfig o) (so_InitArgs o) (df_Quiet d) (df_LogLevel d)
    (Z.of_nat (DiskCount m)) (so_ExtrasDiskIndex o) (so_DebugBoot o || bootDebugEnabled getenv).

Definition buildKernelCommandLine (prof : Cmdline → Cmdline) (str : Cmdline → string) (d : cmdlineDefaults) (getenv : string → string)
    (q : Instance) (m : Machine) (o : StartOpts) : string :=
  BuildKernelCmdline prof str (cmdline_config d getenv q m o).

(** ** Options are read as they were given *)

Definition init_args (x : StartOpt) : list string := match x with WithInitArgs args => args | _ => [] end.
Definition net_given (x : StartOpt) : option (option NetworkConfig) := match x with WithNetworkConfig c => Some c | _ => None end.

Lemma start_opts_from l o : let o' := foldl apply_start_opt o l in
  so_InitArgs o' = so_InitArgs o ++ concat (init_args <$> l) ∧
  (so_NoNetwork o' = true ↔ so_NoNetwork o = true ∨ WithoutNetwork ∈ l) ∧
  so_NetworkConfig o' = default (so_NetworkConfig o) (last (omap net_given l)).
Proof.
  revert o. induction l as [|x l IH]; intros o; cbn [foldl fmap list_fmap concat omap list_omap].
  { rewrite app_nil_r. split_and!; [done| |done]. rewrite elem_of_nil. tauto. }
  destruct (IH (apply_start_opt o x)) as (H1 & H2 & H3). cbv zeta. rewrite H1, H2, H3, elem_of_cons. split_and!.
  - destruct x; cbn; rewrite ?app_nil_r; try done. by rewrite <- (assoc_L (++)).
  - destruct x; cbn; split; intuition congruence.
  - destruct x; cbn; try done. rewrite last_cons. by destruct (last (omap net_given l)).
Qed.

(** The arguments of all options, in order; a machine without a network was asked for by
    [WithoutNetwork] alone; the last network configuration. *)
Theorem start_opts_read l :
  so_InitArgs (start_opts l) = concat (init_args <$> l) ∧
  (so_NoNetwork (start_opts l) = true ↔ WithoutNetwork ∈ l) ∧
  so_NetworkConfig (start_opts l) = default None (last (omap net_given l)).
Proof. destruct (start_opts_from l no_opts) as (H1 & H2 & H3). split_and!; [exact H1| |exact H3]. unfold start_opts. rewrite H2. cbn. intuition congruence. Qed.

(** ** What is refused *)

Definition disk_file (d : DiskConfig) : string := if decide (dc_Pointer d = "") then dc_Path d else dc_Pointer d.
Definition needed (q : Instance) (m : Machine) : list string := [in_kernelPath q; in_initrdPath q; in_binaryPath q] ++ (disk_file <$> mn_disks m).
Definition sizes_ok (r : VMResourceConfig) : Prop := 128 * MB ≤ MemorySize r ∧ 1 ≤ BootCPUs r ≤ MaxCPUs r.

Lemma validate_sizes_exact r : validate_sizes r = None ↔ sizes_ok r.
Proof.
  unfold validate_sizes, sizes_ok. destruct (Z.ltb_spec (MemorySize r) (128 * MB)); [split; [done|lia]|].
  destruct (Z.ltb_spec (BootCPUs r) 1); [split; [done|lia]|]. destruct (Z.ltb_spec (MaxCPUs r) (BootCPUs r)); split; (done || lia).
Qed.

Lemma validate_disks_exact stat ds : validate_disks stat ds = None ↔ Forall (λ d, stat (disk_file d) = None) ds.
Proof.
  induction ds as [|d ds IH]; cbn [validate_disks]; [split; done|]. rewrite Forall_cons, <- IH. unfold disk_file.
  destruct (decide (dc_Pointer d = "")); destruct (stat _); split; intros H; try done; by destruct H.
Qed.

(** A machine is refused exactly when a file it needs is missing, a size is out of range, or
    it has no NIC, builds no template and was not meant to be without one. *)
Theorem validation_exact stat q m builds noNetwork :
  validateConfiguration stat q m builds noNetwork = None ↔
  Forall (λ p, stat p = None) (needed q m) ∧ sizes_ok (in_resourceCfg q) ∧ (mn_nets m ≠ [] ∨ builds = true ∨ noNetwork = true).
Proof.
  unfold validateConfiguration, needed. rewrite Forall_app, Forall_fmap. change ((λ p, stat p = None) ∘ disk_file) with (λ d, stat (disk_file d) = None).
  rewrite <- validate_disks_exact, <- validate_sizes_exact.
  rewrite !Forall_cons, Forall_nil. destruct (stat (in_kernelPath q)); [naive_solver|]. destruct (stat (in_initrdPath q)); [naive_solver|].
  destruct (stat (in_binaryPath q)); [naive_solver|]. destruct (validate_disks stat (mn_disks m)); [naive_solver|].
  destruct (validate_sizes (in_resourceCfg q)); [naive_solver|]. destruct (mn_nets m), builds, noNetwork; cbn; naive_solver.
Qed.

(** The sizes an instance is made with are refused at its start only when the memory asked
    for is positive and below 128 MiB. *)
Theorem made_instance_sizes env id stateDir cfg w q w' : NewInstance env id stateDir (Some cfg) w = (Ok q, w') →
  sizes_ok (in_resourceCfg q) ↔ MemorySize cfg < 1 ∨ 128 * MB ≤ MemorySize cfg.
Proof.
  intros (_ & _ & _ & ->)%NewInstance_parts. unfold sizes_ok, validateResourceConfig, MB. cbn [BootCPUs MaxCPUs MemorySize].
  destruct (Z.ltb_spec (BootCPUs cfg) 1), (Z.ltb_spec (MemorySize cfg) 1);
    repeat match goal with |- context [?a <? ?b] => destruct (Z.ltb_spec a b) end; lia.
Qed.

(** ** What the guest is told is what it is started with *)

Theorem started_identity prof str `{!MachineCmdline prof str} d getenv q m l :
  match so_NetworkConfig (start_opts l) with Some n => net_ok n | None => True end → spaceless (df_Console d) →
  Forall (λ t, word t ∧ quiet t) (so_InitArgs (start_opts l)) → 0 ≤ in_guestCID q → Z.of_nat (DiskCount m) < two63 →
  match so_ExtrasDiskIndex (start_opts l) with Some i => 0 ≤ i < 26 | None => True end →
  FromCmdline (buildKernelCommandLine prof str d getenv q m (start_opts l)) =
    mkIdentity (expected_network <$> so_NetworkConfig (start_opts l)) (Z.of_nat (DiskCount m))
      (match so_ExtrasDiskIndex (start_opts l) with Some i => disk_name i | None => "" end) false.
Proof.
  intros Hn Hco Ha Hc Hd He. unfold buildKernelCommandLine. rewrite identity_built; [done|done|].
  constructor; cbn [cmdline_config kc_Network kc_Console kc_InitArgs kc_VsockRPCPort kc_VsockStreamPort kc_VsockCID kc_DiskCount kc_ExtrasDiskIndex]; (done || lia).
Qed.

(** ** Concrete machines *)

Definition demo_nics : Machine := mkMachine vmStateNew [mkDiskConfig "d0" "/layers/0" true "sbxblk0" "raw" ""; mkDiskConfig "d1" "" false "sbxblk1" "qcow2" "/v/active"] [mkNetConfig "net0" "tap0" false "02:00:00:00:00:01"].
Definition demo_instance : Instance := mkInstance "/q" "/k" "/i" (mkInstancePaths "/s" "/l" "/s/qmp.sock" "/s/vsock.sock" "/l/console.log" "/s/console.fifo" "/l/qemu.log") (mkVMResourceConfig 1 2 (512 * MB) (1024 * MB) 8) 4.

Lemma validation_exact_witness :
  validateConfiguration (λ _, None) demo_instance demo_nics false false = None ∧
  validateConfiguration (λ _, None) demo_instance (mkMachine vmStateNew [] []) false false ≠ None.
Proof.
  split.
  - apply validation_exact. split; [apply Forall_forall; done|]. split; [vm_compute; split_and!; done|by left].
  - intros H. apply validation_exact in H as (_ & _ & [H|[H|H]]); done.
Defined.

Lemma made_instance_sizes_witness : ∃ q, (NewInstance demo_env "c1" "/run/spin/c1" (Some (mkVMResourceConfig 1 1 (64 * MB) 0 0)) (mkSetupWorld [] [])).1 = Ok q ∧ ¬ sizes_ok (in_resourceCfg q).
Proof.
  eexists. split; [vm_compute; reflexivity|]. intros H.
  eapply (made_instance_sizes demo_env "c1" "/run/spin/c1" (mkVMResourceConfig 1 1 (64 * MB) 0 0) (mkSetupWorld [] [])) in H; [|vm_compute; reflexivity].
  unfold MB in H. cbn in H. lia.
Defined.

Lemma started_identity_witness :
  FromCmdline (buildKernelCommandLine (λ c, c) demo_String (mkDefaults "ttyS0" true 3) (λ _, "") demo_instance demo_nics (start_opts [WithExtrasDisk 1; WithoutNetwork])) =
  mkIdentity None 2 "/dev/vdb" false.
Proof.
  rewrite (started_identity (λ c, c) demo_String (mkDefaults "ttyS0" true 3) (λ _, "") demo_instance demo_nics [WithExtrasDisk 1; WithoutNetwork]); [reflexivity|done|done|by constructor|done|done|cbn; lia].
Defined.
