(* ===== verification/GuestQueries.v ===== *)
(** What the guest answers when it is asked, and how it explains a failure:
    Pids of internal/guest/vminit/task/exec.go with All, ExecdProcesses and HasPid of
    runc/container.go, over the service of GuestTask; getLastRuntimeError and waitTimeout
    of vminit/process/utils.go, and the wait of Init.delete.

    The runtime's list of processes is an answer.  A Go map is walked in any order: the
    order is an argument.  The runtime's log is a sequence of records as the JSON decoder
    reads them. *)
From S2P Require Import Prelude Conc GoStrings Process ExitTracker GuestTask.
Open Scope prog_scope.

(** ** The processes of a container *)

Section pids.
Context (ord : gmap string nat → list (string * nat)).

Definition ExecdProcesses (c : nat) : gprog (list (string * nat)) := read_container c [] (λ x, ord (c_processes x)).

Definition All (c : nat) : gprog (list pref) := read_container c [] (λ x, ((λ q, PExec q.2) <$> ord (c_processes x)) ++ [PInit c]).

Fixpoint any_pid (l : list pref) (pid : Z) : gprog bool :=
  match l with
  | [] => Ret false
  | p :: l => q <- p_Pid p ;; if decide (q = pid) then Ret true else any_pid l pid
  end.

Definition HasPid (c : nat) (pid : Z) : gprog bool :=
  q <- p_Pid (PInit c) ;;
  if decide (q = pid) then Ret true else l <- All c ;; any_pid l pid.

(** The exec with that pid, the first that is met. *)
Fixpoint find_exec (l : list (string * nat)) (pid : Z) : gprog (option string) :=
  match l with
  | [] => Ret None
  | (id, x) :: l => q <- p_Pid (PExec x) ;; if decide (q = pid) then Ret (Some id) else find_exec l pid
  end.

(** What the runtime answers to [Ps], and whether the details of an exec can be encoded. *)
Record psAnswers := mkPs { ps_pids : res (list Z); ps_marshal : string → option error }.
Context (a : psAnswers).

Definition getContainerPids (c : nat) : gprog (res (list Z)) :=
  p <- container_Process c "" ;;
  match p with
  | Err e => Ret (Err e)
  | Ok _ => Ret (match ps_pids a with Err e => Err e | Ok l => Ok (uint32_wrap <$> l) end)
  end.

Fixpoint process_infos (c : nat) (pids : list Z) : gprog (res (list (Z * option string))) :=
  match pids with
  | [] => Ret (Ok [])
  | pid :: pids =>
      l <- ExecdProcesses c ;;
      d <- find_exec l pid ;;
      match (match d with Some id => ps_marshal a id | None => None end) with
      | Some e => Ret (Err (wrap ("failed to marshal process " +:+ fmt_d pid +:+ " info") e))
      | None =>
          r <- process_infos c pids ;;
          Ret (match r with Err e => Err e | Ok l => Ok ((pid, d) :: l) end)
      end
  end.

Definition Pids (id : string) : gprog (res (list (Z * option string))) :=
  c <- getContainer id ;;
  match c with
  | Err e => Ret (Err e)
  | Ok c => p <- getContainerPids c ;;
            match p with Err e => Ret (Err e) | Ok pids => process_infos c pids end
  end.

(** ** Asking changes nothing, whatever else runs *)

Definition unchanged (s s' : gsvc) : Prop := s' = s.

Lemma asks_read {A} c (d : A) f : guar unchanged (read_container c d f).
Proof. done. Qed.
Lemma asks_p_read {A} (d : A) fi fx p : guar unchanged (p_read d fi fx p).
Proof. done. Qed.

Lemma asks_find_exec l pid : guar unchanged (find_exec l pid).
Proof. induction l as [|[id x] l IH]; cbn; [done|]. split; [done|]. intros q. by destruct (decide (q = pid)). Qed.

Lemma asks_infos c pids : guar unchanged (process_infos c pids).
Proof.
  induction pids as [|pid pids IH]; [done|]. cbn [process_infos]. apply guar_bind; [apply asks_read|]. intros l.
  apply guar_bind; [apply asks_find_exec|]. intros d. destruct (match d with Some id => ps_marshal a id | None => None end); [done|].
  apply guar_bind; [exact IH|]. by intros [].
Qed.

Lemma asks_Pids id : guar unchanged (Pids id).
Proof.
  unfold Pids. split; [done|]. intros [c|e]; [|done]. unfold getContainerPids. split; [done|]. intros [p|e]; [|done]. cbn.
  destruct (ps_pids a); [apply asks_infos|done].
Qed.

Lemma unchanged_rtc s s' : rtc unchanged s s' → s' = s.
Proof. induction 1 as [|s s1 s' H _ IH]; [done|]. unfold unchanged in H. congruence. Qed.

(** ** What is answered *)

Definition exec_pid (s : gsvc) (x : nat) : Z := match gs_execs s !! x with Some q => x_pid q | None => 0%Z end.
(** The execs of a container that have a pid. *)
Definition has_exec (s : gsvc) (c : nat) (id : string) (pid : Z) : Prop :=
  ∃ y x, gs_heap s !! c = Some y ∧ c_processes y !! id = Some x ∧ exec_pid s x = pid.

Lemma find_exec_spec l pid s : match (run (find_exec l pid) s).1 with
  | Some id => ∃ x, (id, x) ∈ l ∧ exec_pid s x = pid
  | None => ∀ id x, (id, x) ∈ l → exec_pid s x ≠ pid
  end.
Proof.
  induction l as [|[i x] l IH]; cbn -[decide]; [by intros ? ? ?%elem_of_nil|]. fold (exec_pid s x).
  destruct (decide (exec_pid s x = pid)) as [E|E]; cbn [run fst].
  { exists x. split; [by left|done]. }
  destruct (run (find_exec l pid) s).1 as [id|]; [destruct IH as (x' & H & ?); exists x'; split; [by right|done]|].
  intros id x' [[= -> ->]|H]%elem_of_cons; [done|by eapply IH].
Qed.

Lemma run_still {A} (p : gprog A) s : guar unchanged p → (run p s).2 = s.
Proof. intros H. by apply unchanged_rtc, run_guar. Qed.

Definition info_right (s : gsvc) (c : nat) (i : Z * option string) : Prop :=
  match i.2 with Some id => has_exec s c id i.1 | None => ∀ id, ¬ has_exec s c id i.1 end.

Hypothesis ord_perm : ∀ m, ord m ≡ₚ map_to_list m.

Lemma found_right c pid s y : gs_heap s !! c = Some y → info_right s c (pid, (run (find_exec (ord (c_processes y)) pid) s).1).
Proof.
  intros Hy. pose proof (find_exec_spec (ord (c_processes y)) pid s) as H. unfold info_right, has_exec. cbn [fst snd].
  destruct (run (find_exec (ord (c_processes y)) pid) s).1 as [id|].
  - destruct H as (x & Hin & Hx). rewrite ord_perm, elem_of_map_to_list in Hin. by exists y, x.
  - intros id (y' & x & Hy' & Hx & Hp). rewrite Hy in Hy'. injection Hy' as <-. apply (H id x); [|done]. by rewrite ord_perm, elem_of_map_to_list.
Qed.

Lemma infos_spec c pids s y : gs_heap s !! c = Some y → ∀ l, (run (process_infos c pids) s).1 = Ok l → fst <$> l = pids ∧ Forall (info_right s c) l.
Proof.
  intros Hy. induction pids as [|pid pids IH]; intros l; cbn [process_infos]; [by intros [= <-]|].
  rewrite run_bind. cbn [ExecdProcesses read_container atomically run]. rewrite Hy, run_bind.
  pose proof (found_right c pid s y Hy) as Hr. pose proof (run_still (find_exec (ord (c_processes y)) pid) s (asks_find_exec _ _)) as Hs.
  destruct (run (find_exec (ord (c_processes y)) pid) s) as [d s1]. cbn [fst snd] in *. subst s1.
  destruct (match d with Some id => ps_marshal a id | None => None end); [done|]. rewrite run_bind.
  pose proof (run_still (process_infos c pids) s (asks_infos c pids)) as Hs. destruct (run (process_infos c pids) s) as [[r|e] s1]; cbn [fst snd run] in *; [|done].
  intros [= <-]. destruct (IH r eq_refl) as [H1 H2]. split; [cbn; by rewrite H1|by constructor].
Qed.

(** Pids answers the processes the runtime names, in its order, and says of each which exec
    it is, when it is one; it changes nothing. *)
Theorem pids_right id s l : (run (Pids id) s).1 = Ok l → (∀ c, gs_containers s !! id = Some c → is_Some (gs_heap s !! c)) →
  ∃ c ps, gs_containers s !! id = Some c ∧ ps_pids a = Ok ps ∧ fst <$> l = uint32_wrap <$> ps ∧ Forall (info_right s c) l ∧ (run (Pids id) s).2 = s.
Proof.
  intros Hl Hheap. pose proof (run_still (Pids id) s (asks_Pids id)) as Hs. unfold Pids, getContainer in *. cbn [pbind atomically run] in *.
  destruct (gs_containers s !! id) as [c|] eqn:Ec; [|done]. destruct (Hheap c eq_refl) as [y Hy]. cbn [pbind getContainerPids container_Process read_container atomically run] in *.
  rewrite Hy in *. cbn -[process_infos] in *. destruct (ps_pids a) as [ps|e] eqn:Ep; [|done].
  destruct (infos_spec c (uint32_wrap <$> ps) s y Hy l Hl) as [H1 H2]. exists c, ps. done.
Qed.

Lemma any_pid_spec l pid s : (run (any_pid l pid) s).1 = true ↔ ∃ p, p ∈ l ∧ (run (p_Pid p) s).1 = pid.
Proof.
  induction l as [|p l IH]; cbn [any_pid].
  { split; [done|]. by intros (p & ?%elem_of_nil & _). }
  rewrite run_bind. pose proof (run_still (p_Pid p) s (asks_p_read _ _ _ _)) as Hs.
  destruct (run (p_Pid p) s) as [q s1] eqn:E. cbn [snd] in Hs. subst s1. destruct (decide (q = pid)) as [->|Hne].
  - split; [|done]. intros _. exists p. split; [by left|by rewrite E].
  - rewrite IH. split; [intros (p' & H & ?); exists p'; split; [by right|done]|].
    intros (p' & [->|H]%elem_of_cons & Hp); [|by exists p']. rewrite E in Hp. done.
Qed.

(** A container has a pid exactly when its first process or one of its execs has it. *)
Theorem has_pid_exact c pid s y : gs_heap s !! c = Some y →
  (run (HasPid c pid) s).1 = true ↔ i_pid (c_process y) = pid ∨ ∃ id, has_exec s c id pid.
Proof.
  intros Hy. unfold HasPid. rewrite run_bind. cbn [p_Pid p_read atomically run]. rewrite Hy.
  destruct (decide (i_pid (c_process y) = pid)) as [E|E]; [cbn; tauto|]. rewrite run_bind. cbn [All read_container atomically run]. rewrite Hy, any_pid_spec.
  assert (Hi : (run (p_Pid (PInit c)) s).1 = i_pid (c_process y)) by (cbn; by rewrite Hy). split.
  - intros (p & [H| ->%list_elem_of_singleton]%elem_of_app & Hp); [|by rewrite Hi in Hp].
    apply list_elem_of_fmap in H as ([id x] & -> & Hin). rewrite ord_perm, elem_of_map_to_list in Hin. right. exists id, y, x. done.
  - intros [?|(id & y' & x & Hy' & Hx & Hp)]; [done|]. rewrite Hy in Hy'. injection Hy' as <-. exists (PExec x). split; [|done].
    apply elem_of_app. left. apply list_elem_of_fmap. exists (id, x). split; [done|]. by rewrite ord_perm, elem_of_map_to_list.
Qed.
End pids.

(** ** The runtime's own account of a failure *)

(** The log as the decoder takes it: records, whose fields may be absent, up to the end of
    the file or to what is not a record. *)
Record logRecord := mkLog { lr_level : option string; lr_msg : option string }.
Inductive logStream := LEnd | LBad (e : error) | LRecord (r : logRecord) (rest : logStream).

(** The loop: the record's variable keeps the fields a record does not set, and is looked at
    once more at the end. *)
Fixpoint last_error (l : logStream) (level msg errMsg : string) : res string :=
  match l with
  | LEnd => Ok (if decide (level = "error") then TrimSpace msg else errMsg)
  | LBad e => Err e
  | LRecord r rest =>
      let level := default level (lr_level r) in
      let msg := default msg (lr_msg r) in
      last_error rest level msg (if decide (level = "error") then TrimSpace msg else errMsg)
  end.

Definition getLastRuntimeError (logPath : string) (open_ : res logStream) : res string :=
  if decide (logPath = "") then Ok "" else match open_ with Err e => Err e | Ok l => last_error l "" "" "" end.

(** The records of a log, and how it ends. *)
Fixpoint log_of (rs : list (string * string)) (end_ : logStream) : logStream :=
  match rs with [] => end_ | (level, msg) :: rs => LRecord (mkLog (Some level) (Some msg)) (log_of rs end_) end.

Definition error_messages (rs : list (string * string)) : list string := TrimSpace ∘ snd <$> List.filter (λ r, bool_decide (r.1 = "error")) rs.

Lemma last_error_complete rs : ∀ level msg errMsg, (level = "error" → errMsg = TrimSpace msg) →
  last_error (log_of rs LEnd) level msg errMsg = Ok (default errMsg (last (error_messages rs))).
Proof.
  induction rs as [|[l m] rs IH]; intros level msg errMsg He; cbn [log_of last_error lr_level lr_msg default from_option].
  { cbn. destruct (decide (level = "error")) as [E|]; [by rewrite (He E)|done]. }
  rewrite IH by (by intros ->). unfold error_messages. cbn [List.filter fst]. f_equal. unfold id.
  destruct (decide (l = "error")) as [->|Hl]; [rewrite bool_decide_true by done; cbn [fmap list_fmap]; rewrite last_cons; cbn; by destruct (last _)|].
  rewrite bool_decide_false by done. by destruct (decide (l = "error")).
Qed.

(** Of a log whose records have a level and a message, the message is that of the last
    record of an error; and a failure of the runtime is reported with it. *)
Theorem last_error_reported path rs m e msg : path ≠ "" → last (error_messages rs) = Some m → m ≠ "" →
  getLastRuntimeError path (Ok (log_of rs LEnd)) = Ok m ∧
  runtimeError (getLastRuntimeError path (Ok (log_of rs LEnd))) (Some e) msg = Some (errorf (msg +:+ ": " +:+ m)).
Proof.
  intros Hp Hl Hm. assert (E : getLastRuntimeError path (Ok (log_of rs LEnd)) = Ok m).
  { unfold getLastRuntimeError. rewrite decide_False by done. rewrite last_error_complete by done. by rewrite Hl. }
  split; [exact E|]. rewrite E. cbn. by rewrite decide_False.
Qed.

(** A log that ends in the middle of a record hides every message before it. *)
Lemma cut_record_hides path rs e : path ≠ "" → getLastRuntimeError path (Ok (log_of rs (LBad e))) = Err e.
Proof.
  intros Hp. unfold getLastRuntimeError. rewrite decide_False by done. generalize ""%string at 1. generalize ""%string at 1. generalize ""%string at 1.
  induction rs as [|[l m] rs IH]; intros x y z; [done|]. apply IH.
Qed.

(** A record without a level is taken for one of the level before it. *)
Lemma level_is_carried : last_error (LRecord (mkLog (Some "error") (Some "first")) (LRecord (mkLog None (Some "second")) LEnd)) "" "" "" = Ok "second".
Proof. reflexivity. Qed.

(** ** Waiting for the copies of a process *)

(** The time at which a context given a time-out is done, and its error. *)
Definition with_timeout (parent : option (Z * error)) (timeout now : Z) : Z * error :=
  match parent with
  | Some (t, e) => if decide (t ≤ now + timeout)%Z then (Z.max now t, e) else (Z.max now (now + timeout), mkError ErrDeadlineExceeded "context deadline exceeded")
  | None => (Z.max now (now + timeout), mkError ErrDeadlineExceeded "context deadline exceeded")
  end.

(** [waitTimeout] with the group done at a time or never; [pick]: which case the select takes
    when both are ready.  The answer, the time, and whether a goroutine still waits. *)
Definition waitTimeout (group : option Z) (parent : option (Z * error)) (timeout now : Z) (pick : bool) : option error * Z * bool :=
  let '(te, e) := with_timeout parent timeout now in
  match group with
  | None => (Some e, te, true)
  | Some td =>
      let td := Z.max now td in
      if decide (td < te)%Z then (None, td, false)
      else if decide (te < td)%Z then (Some e, te, true)
      else if pick then (None, td, false) else (Some e, te, false)
  end.

Definition second : Z := 1000000000.

(** How long [Init.delete] lets the copies finish; [deadline]: that of its context. *)
Definition delete_timeout (deadline : option Z) (now : Z) : Z :=
  match deadline with
  | Some d => if decide (0 < d - now < 2 * second)%Z then (d - now)%Z else (2 * second)%Z
  | None => (2 * second)%Z
  end.

(** The wait ends by its time-out; it succeeds only when the copies have finished, and it
    reports an end of the wait only when they had not before it. *)
Theorem waitTimeout_spec group parent timeout now pick e t leak : (0 ≤ timeout)%Z → waitTimeout group parent timeout now pick = (e, t, leak) →
  (now ≤ t ≤ now + timeout)%Z ∧
  match e with
  | None => ∃ td, group = Some td ∧ (td ≤ t)%Z ∧ leak = false
  | Some _ => (∀ td, group = Some td → t ≤ Z.max now td)%Z
  end.
Proof.
  intros Ht. unfold waitTimeout. assert (Hw : (now ≤ (with_timeout parent timeout now).1 ≤ now + timeout)%Z).
  { unfold with_timeout. destruct parent as [[tp ep]|]; [|cbn; lia]. destruct (decide (tp ≤ now + timeout)%Z); cbn; lia. }
  destruct (with_timeout parent timeout now) as [te ee]. cbn [fst] in Hw. destruct group as [td|].
  - destruct (decide (Z.max now td < te)%Z); [intros [= <- <- <-]; split; [lia|]; exists td; split_and!; [done|lia|done]|].
    destruct (decide (te < Z.max now td)%Z); [intros [= <- <- <-]; split; [lia|]; intros td' [= <-]; lia|].
    destruct pick; intros [= <- <- <-]; (split; [lia|]); [exists td; split_and!; [done|lia|done]|intros td' [= <-]; lia].
  - intros [= <- <- <-]. done.
Qed.

(** A delete waits no longer than two seconds for the copies. *)
Theorem delete_waits_two_seconds group parent deadline now pick :
  (now ≤ (waitTimeout group parent (delete_timeout deadline now) now pick).1.2 ≤ now + 2 * second)%Z.
Proof.
  assert (H : (0 ≤ delete_timeout deadline now ≤ 2 * second)%Z) by (unfold delete_timeout, second; destruct deadline; [case_decide|]; lia).
  destruct (waitTimeout group parent (delete_timeout deadline now) now pick) as [[e t] leak] eqn:E. apply waitTimeout_spec in E as [E _]; [cbn; lia|lia].
Qed.

(** ** A concrete guest *)

Definition order0 (m : gmap string nat) : list (string * nat) := map_to_list m.
Definition busy_container : Container :=
  mkContainer "c1" "/run/c1" false (mkInit StateRunning 10 None 0 false true None) {["sh" := 0%nat]} ∅ None.
Definition busy_service (g : guest) (w : MountUtil.world) : gsvc :=
  mkG {["c1" := 0%nat]} [busy_container] [mkExec StateRunning 0 None 12 false false None true] g w [] [] false false.
Definition ps_two : psAnswers := mkPs (Ok [10%Z; 12%Z]) (λ _, None).

Lemma pids_right_witness g w : ∃ l, (run (Pids order0 ps_two "c1") (busy_service g w)).1 = Ok l ∧ l = [(10%Z, None); (12%Z, Some "sh")] ∧
  Forall (info_right (busy_service g w) 0) l.
Proof.
  eexists. split; [reflexivity|]. split; [reflexivity|].
  destruct (pids_right order0 ps_two (λ m, reflexivity _) "c1" (busy_service g w) [(10%Z, None); (12%Z, Some "sh")]) as (c & ps & Hc & _ & _ & Hl & _); [reflexivity| |].
  - intros c Hc. injection Hc as <-. by exists busy_container.
  - injection Hc as <-. exact Hl.
Defined.

Lemma last_error_reported_witness :
  getLastRuntimeError "/run/c1/log.json" (Ok (log_of [("info", "a"); ("error", " exec failed "); ("warning", "b")] LEnd)) = Ok "exec failed".
Proof. by apply (last_error_reported "/run/c1/log.json" _ "exec failed" (errorf "exit status 1") "OCI runtime start failed"). Defined.

Lemma waitTimeout_spec_witness : waitTimeout (Some 5%Z) None (2 * second) 3 true = (None, 5%Z, false) ∧ (3 ≤ 5 ≤ 3 + 2 * second)%Z.
Proof. split; [reflexivity|]. by apply (waitTimeout_spec (Some 5%Z) None (2 * second) 3 true None 5 false). Defined.
