(* ===== verification/ShimQueries.v ===== *)
(** The requests a shim passes to its guest, and the copies of its record that it works on
    outside its lock: ResizePty, Kill, Pids, Update, Wait and Stats of
    internal/shim/task/service.go, the container snapshots State answers from, the exit that
    a failed Delete asks for, and the wait for the event forwarder.

    The handlers are those of ShimService, whose lemmas about running alone are ShimProps'. *)
From S2P Require Import Prelude Conc ShimState Cleanup VMManager ConnManager ShimService ShimProps.
Open Scope prog_scope.

(** ** Requests that are passed on *)

Definition ResizePty (dial : nat → option error) (answer : res unit) : sprog (res unit) := forwarded "Task.ResizePty" dial answer.
Definition Kill (dial : nat → option error) (answer : res unit) : sprog (res unit) := forwarded "Task.Kill" dial answer.
Definition Pids (dial : nat → option error) (answer : res (list Z)) : sprog (res (list Z)) := forwarded "Task.Pids" dial answer.
Definition Update (dial : nat → option error) (answer : res unit) : sprog (res unit) := forwarded "Task.Update" dial answer.
Definition Wait (dial : nat → option error) (answer : res (Z * Z)) : sprog (res (Z * Z)) := forwarded "Task.Wait" dial answer.
Definition Stats {A} (dial : nat → option error) (answer : res A) : sprog (res A) := forwarded "Task.Stats" dial answer.

(** ** Snapshots *)

Record ioSnapshot := mkIOSnap { sn_stdin : string; sn_stdout : string; sn_stderr : string; sn_terminal : bool }.
Record containerSnapshot := mkSnap { sn_id : string; sn_pid : Z; sn_initIO : option ioSnapshot; sn_execIO : gmap string ioSnapshot }.

Definition snapshotContainerLocked (s : service) : option containerSnapshot :=
  match s_container s with
  | None => None
  | Some c =>
      Some (mkSnap (s_containerID s) (c_pid c)
        ((λ io, let p := io_init io in mkIOSnap (pio_stdin p) (pio_stdout p) (pio_stderr p) (pio_terminal p)) <$> c_io c)
        (match c_io c with
         | Some io => (λ p, mkIOSnap (pio_stdin p) (pio_stdout p) (pio_stderr p) false) <$> io_exec io
         | None => ∅
         end))
  end.

Definition getContainerSnapshot : sprog (option containerSnapshot) := get snapshotContainerLocked.

Definition snap_init (snap : containerSnapshot) (st : StateResponse) : StateResponse :=
  match sn_initIO snap with
  | Some p => mkStateResp (sr_Status st) (sr_Pid st) (sn_stdin p) (sn_stdout p) (sn_stderr p) (sn_terminal p)
  | None => st
  end.

Definition snap_exec (execID : string) (snap : containerSnapshot) (st : StateResponse) : StateResponse :=
  match sn_execIO snap !! execID with
  | Some p => mkStateResp (sr_Status st) (sr_Pid st) (sn_stdin p) (sn_stdout p) (sn_stderr p) (sr_Terminal st)
  | None => st
  end.

(** State, as it is written: on the snapshots. *)
Definition State_snap (execID : string) (dial : nat → option error) (answer : res StateResponse) : sprog (res StateResponse) :=
  snap <- getContainerSnapshot ;;
  created <- (if decide (execID = "") then lift_sm IsCreatedNotStarted else Ret false) ;;
  match created, snap with
  | true, Some c => Ret (Ok (snap_init c (mkStateResp CREATED (sn_pid c) "" "" "" false)))
  | _, _ =>
      paused <- (if decide (execID = "") then get s_paused else Ret false) ;;
      match paused, snap with
      | true, Some c => Ret (Ok (snap_init c (mkStateResp PAUSED (sn_pid c) "" "" "" false)))
      | _, _ =>
          _ <-? getTaskClient dial ;;
          st <- ext (Guest "Task.State") answer ;;
          match st with
          | Err e => Ret (Err (ToGRPC e))
          | Ok st =>
              snap <- getContainerSnapshot ;;
              match snap with
              | None => Ret (Ok st)
              | Some c => Ret (Ok (if decide (execID = "") then snap_init c st else snap_exec execID c st))
              end
          end
      end
  end.

(** ** After a failed Delete, and at the end *)

Definition cleanupOnDeleteFailure (id : string) : sprog unit :=
  _ <- lift_sm (SetIntentionalShutdown true) ;;
  put (schedule ("delete failed for " +:+ id)).

Definition forwarder_wait : Z := 5000000000.

(** [forwarder]: there is none, or when it ends.  The time at which the wait is over. *)
Definition waitForForwarder (forwarder : option (option Z)) (now : Z) : Z :=
  match forwarder with
  | None => now
  | Some None => now + forwarder_wait
  | Some (Some t) => Z.min (Z.max now t) (now + forwarder_wait)
  end.

(** ** Lemmas *)

Lemma run_peek {B C} (f : service → B) (k : B → sprog C) s : run (pbind (get f) k) s = run (k (f s)) s.
Proof. unfold get, act. cbn. unfold guarded. by destruct (w_crashed (s_world s)). Qed.

Lemma snap_right s c : s_container s = Some c →
  ∃ n, snapshotContainerLocked s = Some n ∧ sn_pid n = c_pid c ∧ (∀ st, snap_init n st = with_init_io c st) ∧
       ∀ id st, snap_exec id n st = with_exec_io id c st.
Proof.
  intros H. unfold snapshotContainerLocked. rewrite H. eexists. split; [done|]. split; [done|]. split.
  - intros st. unfold snap_init, with_init_io. cbn. by destruct (c_io c).
  - intros id st. unfold snap_exec, with_exec_io. cbn [sn_execIO]. destruct (c_io c) as [io|]; [|by rewrite lookup_empty].
    rewrite lookup_fmap. by destruct (io_exec io !! id).
Qed.

Lemma snap_none s : s_container s = None → snapshotContainerLocked s = None.
Proof. intros H. unfold snapshotContainerLocked. by rewrite H. Qed.

(** The last step of State, on a snapshot and on the record. *)
Lemma snap_answer execID st s :
  run (snap <- getContainerSnapshot ;;
       match snap with
       | None => Ret (Ok st)
       | Some c => Ret (Ok (if decide (execID = "") then snap_init c st else snap_exec execID c st))
       end) s =
  run (snap <- get s_container ;;
       match snap with
       | None => Ret (Ok st)
       | Some c => Ret (Ok (if decide (execID = "") then with_init_io c st else with_exec_io execID c st))
       end) s.
Proof.
  unfold getContainerSnapshot. rewrite !run_peek. destruct (s_container s) as [c|] eqn:E; [|by rewrite snap_none].
  destruct (snap_right s c E) as (n & -> & _ & Hi & He). by rewrite Hi, He.
Qed.

(** Answering from snapshots is answering from the record: what State reads of the container
    in a run of its own is what was copied under the lock. *)
Theorem snapshots_answer_state execID dial answer s : run (State_snap execID dial answer) s = run (State_body execID dial answer) s.
Proof.
  unfold State_snap, State_body, getContainerSnapshot. rewrite !run_peek, !run_bind.
  destruct (run (if decide (execID = "") then lift_sm IsCreatedNotStarted else Ret false) s) as [created s1].
  assert (Hg : ∀ s2, run (State_guest execID dial answer) s2 =
    run (_ <-? getTaskClient dial ;; st <- ext (Guest "Task.State") answer ;;
         match st with
         | Err e => Ret (Err (ToGRPC e))
         | Ok st => snap <- getContainerSnapshot ;;
             match snap with
             | None => Ret (Ok st)
             | Some c => Ret (Ok (if decide (execID = "") then snap_init c st else snap_exec execID c st))
             end
         end) s2).
  { intros s2. unfold State_guest. rewrite !run_bind. destruct (run (getTaskClient dial) s2) as [[cl|e] s3]; [|done].
    rewrite !run_bind. destruct (run (ext (Guest "Task.State") answer) s3) as [[st|e] s4]; [|done]. by rewrite <- snap_answer. }
  destruct (s_container s) as [c|] eqn:E.
  - destruct (snap_right s c E) as (n & -> & Hp & Hi & He). destruct created; [by rewrite Hi, Hp|]. rewrite !run_bind.
    destruct (run (if decide (execID = "") then get s_paused else Ret false) s1) as [paused s2].
    destruct paused; [by rewrite Hi, Hp|]. by rewrite Hg.
  - rewrite snap_none by done. destruct created; rewrite !run_bind;
      destruct (run (if decide (execID = "") then get s_paused else Ret false) s1) as [paused s2]; destruct paused; by rewrite Hg.
Qed.

(** A request that is passed on: the guest is asked once, its answer is the answer, and
    nothing else of the service changes than its connection. *)
Theorem forwarded_once {A} method dial (answer : res A) s : admitted s → int64_range (s_inflight s) → int64_range (s_inflight s + 1) →
  cm_closed (s_connManager s) = false → reachable dial s →
  ∃ cl c, run (forwarded method dial answer) s = (answer, emit (Guest method) (set_connManager c s)) ∧ cm_closed c = false ∧ cm_client c = Some cl.
Proof.
  intros Hs Hr1 Hr2 Hc Hd. unfold forwarded. rewrite run_rpc, run_bind by done. set (s1 := set_inflight _ s).
  assert (Ha : alive s1) by apply Hs. destruct (run_getTaskClient dial s1) as (cl & c & -> & H1 & H2); [done|done|done|].
  rewrite run_ext by done. exists cl, c. split; [|done]. f_equal. unfold dec_inflight. destruct s as [a b cm d e f g h i j n p w]. cbn.
  destruct Hs as [Hs _]. unfold alive in Hs. cbn in Hs, Hr1, Hr2. rewrite Hs. unfold emit, set_inflight, set_connManager, set_world. cbn. f_equal.
  rewrite (int64_wrap_id (n + 1)) by done. replace (n + 1 + -1)%Z with n by lia. by apply int64_wrap_id.
Qed.

Lemma waitForForwarder_bounded f now : (now ≤ waitForForwarder f now ≤ now + forwarder_wait)%Z.
Proof. unfold waitForForwarder, forwarder_wait. destruct f as [[t|]|]; lia. Qed.

(** After a failed Delete the shim is on its way out: the exit sequence is asked for, and
    the events of the guest's end are no longer taken for a crash. *)
Lemma delete_failure_exits id s : alive s →
  w_sched (s_world (run (cleanupOnDeleteFailure id) s).2) = w_sched (s_world s) ++ ["delete failed for " +:+ id] ∧
  sm_intentionalShutdown (s_stateMachine (run (cleanupOnDeleteFailure id) s).2) = true.
Proof. intros Ha. unfold cleanupOnDeleteFailure. rewrite run_bind, run_lift_sm by done. rewrite run_set_intentional. cbv beta iota. rewrite run_put by done. split; done. Qed.
