(* ===== verification/GuestService.v ===== *)
(** The guest's task service as a whole: NewTaskService, initPlatform, Connect, Stats and the
    closing of the event channel of internal/guest/vminit/task/{service,lifecycle}.go, send
    and forward of events.go, and runc/cgroup.go.

    The containers are those of GuestTask.  The channel of events, its senders, the goroutine
    that publishes and the shutdown are steps on one state.  The cgroup library is an
    argument. *)
From S2P Require Import Prelude Conc GoStrings GoState Process ExitTracker MountUtil GuestTask.
Open Scope Z_scope.

(** ** cgroup.go *)

Section cgroup.
Context {Mgr Metrics : Type}.
Record cgroupLib := mkCgroupLib {
  cg_path : Z → res string;                             (** [PidGroupPath] *)
  cg_load : string → res Mgr;
  cg_stat : Mgr → res Metrics;
  cg_controllers : Mgr → res (list string);             (** [RootControllers] *)
  cg_toggle : Mgr → list string → option error
}.
Context (lib : cgroupLib).

Definition LoadProcessCgroup (pid : Z) : res Mgr := let! g := cg_path lib pid in cg_load lib g.

Definition EnableControllers (m : Mgr) : option error :=
  match cg_controllers lib m with
  | Err e => Some e
  | Ok all => cg_toggle lib m all
  end.

(** ** Stats and Connect *)

(** The manager of a container that has one; [marshal]: the encoding of the metrics. *)
Definition Stats {A} (mgr : nat → Mgr) (marshal : Metrics → res A) (id : string) : gprog (res A) :=
  pbind (getContainer id) (λ c, match c with
  | Err e => Ret (Err e)
  | Ok c =>
      pbind (read_container c false c_cgroup) (λ has,
        if has : bool then Ret (let! m := cg_stat lib (mgr c) in marshal m)
        else Ret (Err (mkError ErrNotFound "cgroup does not exist")))
  end).
End cgroup.

Definition Connect (shimPid : Z) (id : string) : gprog (Z * Z) :=
  pbind (getContainer id) (λ c, match c with
  | Err _ => Ret (shimPid, 0)
  | Ok c => pbind (p_Pid (PInit c)) (λ pid, Ret (shimPid, uint32_wrap pid))
  end).

(** ** Making the service *)

(** What a set-up leaves running: its goroutines, the subscription to the reaper, and the
    callbacks of a shutdown in the order they were registered. *)
Inductive goroutine := OomWatcher | ProcessExits | Forward.
Inductive callback := ClosePlatform | CloseEvents | RemoveAddress.
Record setup := mkSetup { st_running : list goroutine; st_subscribed : bool; st_callbacks : list callback }.

Record newEnv := mkNewEnv {
  ne_unified : bool;
  ne_oom : option error;
  ne_platform : option error;
  ne_address : option error                             (** [shim.ReadAddress] *)
}.

Definition go_ (g : goroutine) : ST setup () := λ s, (Ok tt, mkSetup (st_running s ++ [g]) (st_subscribed s) (st_callbacks s)).
Definition RegisterCallback (c : callback) : ST setup () := λ s, (Ok tt, mkSetup (st_running s) (st_subscribed s) (st_callbacks s ++ [c])).
Definition Subscribe : ST setup () := λ s, (Ok tt, mkSetup (st_running s) true (st_callbacks s)).
Definition answers (e : option error) : ST setup () := λ s, (match e with Some e => Err e | None => Ok tt end, s).

(** [has]: the service has a platform already. *)
Definition initPlatform (has : bool) (env : newEnv) : ST setup () :=
  if has then ret tt else answers (ne_platform env) ;;! RegisterCallback ClosePlatform.

Definition NewTaskService (env : newEnv) : ST setup () :=
  if negb (ne_unified env) then fail (mkError ErrNotImplemented "only unified cgroups mode is supported: not implemented")
  else
    answers (ne_oom env) ;;!
    go_ OomWatcher ;;!
    Subscribe ;;!
    go_ ProcessExits ;;!
    wrapping "failed to initialized platform behavior" (initPlatform false env) ;;!
    go_ Forward ;;!
    RegisterCallback CloseEvents ;;!
    match ne_address env with
    | None => RegisterCallback RemoveAddress
    | Some _ => ret tt
    end.

Definition no_setup : setup := mkSetup [] false [].

(** A service that was made runs its three goroutines once each, and its shutdown closes the
    platform and the channel of events once each. *)
Theorem made_service_runs env s : NewTaskService env no_setup = (Ok tt, s) →
  st_running s = [OomWatcher; ProcessExits; Forward] ∧ st_subscribed s = true ∧
  st_callbacks s = [ClosePlatform; CloseEvents] ++ (match ne_address env with None => [RemoveAddress] | Some _ => [] end).
Proof.
  unfold NewTaskService, initPlatform, wrapping, answers, go_, Subscribe, RegisterCallback, ret, fail, bind.
  destruct (ne_unified env), (ne_oom env), (ne_platform env), (ne_address env); cbn; intros H; (discriminate || injection H as <-; done).
Qed.

(** A set-up that fails at the platform leaves its goroutines and the subscription. *)
Lemma failed_platform_leaves env e : ne_unified env = true → ne_oom env = None → ne_platform env = Some e →
  ∃ e', NewTaskService env no_setup = (Err e', mkSetup [OomWatcher; ProcessExits] true []).
Proof. intros H1 H2 H3. unfold NewTaskService, initPlatform, wrapping, answers, go_, Subscribe, bind. rewrite H1, H2, H3. cbn. by eexists. Qed.

(** ** Events *)

Section events.
Context {E : Type}.

Definition eventBuffer : nat := 128.

(** What was sent, what is in the channel, what the forwarder has taken and what of it was
    published; the forwarder is gone when the channel is closed and empty. *)
Record evState := mkEv {
  ev_sent : list E; ev_chan : list E; ev_closed : bool; ev_taken : list E; ev_published : list E;
  ev_forwarding : bool; ev_crashed : bool
}.

(** [s.events <- evt]: [None] while the channel is full. *)
Definition send (e : E) (s : evState) : option evState :=
  if ev_closed s then Some (mkEv (ev_sent s) (ev_chan s) true (ev_taken s) (ev_published s) (ev_forwarding s) true)
  else if decide (length (ev_chan s) < eventBuffer)%nat
  then Some (mkEv (ev_sent s ++ [e]) (ev_chan s ++ [e]) false (ev_taken s) (ev_published s) (ev_forwarding s) (ev_crashed s))
  else None.

(** One round of forward, given what publishing answers. *)
Definition forward (err : option error) (s : evState) : option evState :=
  match ev_chan s with
  | e :: l => Some (mkEv (ev_sent s) l (ev_closed s) (ev_taken s ++ [e])
                      (ev_published s ++ (match err with None => [e] | Some _ => [] end)) (ev_forwarding s) (ev_crashed s))
  | [] => if ev_closed s then Some (mkEv (ev_sent s) [] true (ev_taken s) (ev_published s) false (ev_crashed s)) else None
  end.

(** The shutdown callback; a second close of the channel is a panic. *)
Definition close_events (s : evState) : evState :=
  mkEv (ev_sent s) (ev_chan s) true (ev_taken s) (ev_published s) (ev_forwarding s) (ev_crashed s || ev_closed s).

Inductive evStep : evState → evState → Prop :=
  | EvSend e s s' : ev_crashed s = false → send e s = Some s' → evStep s s'
  | EvForward err s s' : ev_crashed s = false → ev_forwarding s = true → forward err s = Some s' → evStep s s'
  | EvClose s : ev_crashed s = false → evStep s (close_events s).

Definition ev0 : evState := mkEv [] [] false [] [] true false.

Record ev_inv (s : evState) : Prop := {
  ei_all : ev_sent s = ev_taken s ++ ev_chan s;
  ei_room : (length (ev_chan s) ≤ eventBuffer)%nat;
  ei_sub : ev_published s `sublist_of` ev_taken s;
  ei_end : ev_forwarding s = false → ev_closed s = true ∧ ev_chan s = []
}.

Lemma ev_inv_step s s' : evStep s s' → ev_inv s → ev_inv s'.
Proof.
  intros Hs [H1 H2 H3 H4]. inversion Hs as [e s1 s2 Hc Hsend|err s1 s2 Hc Hf Hfw|s1 Hc]; subst.
  - unfold send in Hsend. destruct (ev_closed s) eqn:Ecl; [injection Hsend as <-; by split|].
    destruct (decide _); [|done]. injection Hsend as <-. split; cbn; [by rewrite H1, (assoc_L (++))|rewrite length_app; cbn; lia|done|].
    intros H. destruct (H4 H). congruence.
  - unfold forward in Hfw. destruct (ev_chan s) as [|e l] eqn:Ech.
    + destruct (ev_closed s); [|done]. injection Hfw as <-. split; cbn; done.
    + injection Hfw as <-. split; cbn in *; [by rewrite H1, <- (assoc_L (++))|lia| |by intros; destruct (H4 H)].
      destruct err; [rewrite app_nil_r; by apply sublist_inserts_r|by apply sublist_app].
  - split; cbn; try done. intros H. split; [done|apply (H4 H)].
Qed.

(** Whatever is sent, published and closed meanwhile: the events are published in the order
    they were sent, none twice; one that is not published is in the channel or its publishing
    failed; and when the forwarder has ended every event sent was taken. *)
Theorem events_in_order s : rtc evStep ev0 s →
  ev_published s `sublist_of` ev_sent s ∧ ev_sent s = ev_taken s ++ ev_chan s ∧ (length (ev_chan s) ≤ eventBuffer)%nat ∧
  (ev_forwarding s = false → ev_taken s = ev_sent s).
Proof.
  intros Hr. assert (H : ev_inv s).
  { remember ev0 as s0 eqn:E0. assert (H0 : ev_inv s0) by (subst; split; cbn; [done|unfold eventBuffer; lia|constructor|done]).
    clear E0. induction Hr; [done|]. eauto using ev_inv_step. }
  destruct H as [H1 H2 H3 H4]. split_and!; [|done|done|].
  - rewrite H1. by apply sublist_inserts_r.
  - intros Hf. destruct (H4 Hf) as [_ He]. by rewrite H1, He, app_nil_r.
Qed.

(** An event that comes after the shutdown has closed the channel, such as the exit of a
    container that still ran, crashes the daemon. *)
Lemma late_event_crashes (e : E) : ∃ s, rtc evStep ev0 s ∧ ev_crashed s = true.
Proof.
  eexists. split; [|].
  - eapply rtc_l; [by apply EvClose|]. eapply rtc_l; [by eapply (EvSend e)|]. constructor.
  - reflexivity.
Qed.
End events.

Lemma events_in_order_witness : ∃ s : evState (E := nat), rtc evStep ev0 s ∧ ev_published s = [2%nat] ∧ ev_sent s = [1; 2]%nat ∧ ev_taken s = ev_sent s.
Proof.
  exists (mkEv [1; 2]%nat [] true [1; 2]%nat [2%nat] false false). assert (H : rtc evStep ev0 (mkEv [1; 2]%nat [] true [1; 2]%nat [2%nat] false false)).
  { eapply rtc_l; [by eapply (EvSend 1%nat)|]. eapply rtc_l; [by eapply (EvSend 2%nat)|]. eapply rtc_l; [by eapply (EvForward (Some (errorf "down")))|].
    eapply rtc_l; [by eapply (EvForward None)|]. eapply rtc_l; [by apply EvClose|]. eapply rtc_l; [by eapply (EvForward None)|]. constructor. }
  split; [exact H|]. split; [reflexivity|]. split; [reflexivity|]. by apply (events_in_order _ H).
Defined.
